(* ===== verification/_CoqProject ===== *)
-Q . S2P
Prelude.v
Decimal.v
DecimalRef.v
Param.v
ParamTypes.v
Identifiers.v
Utf8.v
Mutation.v
Reject.v
AccountControl.v
Accounts.v
Contracts.v
Lock.v
Policy.v
Ffi.v
FfiParam.v
FfiOutcomes.v
FfiLock.v
Engine.v
EngineFacts.v
EngineOps.v
Storage.v
Locking.v
LockingFacts.v
Holdings.v
HoldingsFacts.v
HoldingsStore.v
Instruments.v
ReferenceBook.v
MarketData.v
MarketDataFacts.v
FfiServices.v
OrderValidation.v
OrderSizeLimit.v
OrderSizeLimitFacts.v
PnlBounds.v
PnlBoundsFacts.v
ConfigCell.v
RateLimit.v
SlidingWindow.v
FixedWindow.v
RateLimitFacts.v
SpotFundsSettings.v
SpotFundsSettingsFacts.v
SpotFundsParts.v
SpotFunds.v
SpotFundsReservation.v
SpotFundsExecution.v
SpotFundsAdjustment.v
Requests.v
Interop.v
InteropFacts.v
FfiWire.v
FfiRequests.v
FfiFacts.v
Configure.v
FfiErrors.v
FfiPolicy.v
FfiEngine.v
FfiEngineFacts.v
FfiBuiltin.v
FfiSpotFunds.v
FfiServiceFacts.v
Python.v
PythonPolicy.v
PythonEngine.v
PythonServices.v
PythonSettings.v
PythonFacts.v
SpotFundsFacts.v
SpotFundsReservationFacts.v
SpotFundsExecutionFacts.v
SpotFundsLifecycle.v
SpotFundsLedgerFacts.v
SpotFundsAdjustmentFacts.v
ConfigureFacts.v
ComponentWitnesses.v
SpotFundsWitnesses.v
FfiWitnesses.v
