(* ===== verification/Prelude.v ===== *)
(** * OpenPit pre-trade risk engine: verification library

    The program is the Rust crate src/crates/openpit: an embeddable engine that
    asks a list of policies whether an order may be sent, collects what they did
    as mutations, and commits or rolls these back when the caller decides.  The
    library models this crate, the requests of src/crates/openpit-interop that
    language bindings build, the values, requests, results and locks that
    src/crates/openpit-ffi passes to and from C with the calls that pass them, and
    the policies, engine and handles of the Python binding in src/bindings/python,
    and proves the properties the engine's callers rely on.

    ** Parts of the program and the files that model them

    Values and data:
    - [Decimal], [DecimalRef]: the decimals of the rust_decimal crate, which is not
      part of the repository, as an interface [DecimalOps] with the laws its
      documentation gives ([DecimalLaws]): results are exact when representable,
      roundings fall on the side they should.  [DecimalRef] implements the
      interface, so every theorem that assumes the laws has an instance.
    - [Param], [ParamTypes], [Identifiers]: src/.../param.  The two macros of
      param/mod.rs become two families of types indexed by their kind; integers
      are [Z] with their bounds, floats are the standard library's binary64.
    - [Mutation]: core/mutation.rs.  A closure is a function on the state it
      captures; a batch is the loop of the source as a fold.
    - [Reject]: pretrade/reject.rs.
    - [Lock]: pretrade/lock.rs, with serde as an abstract format.

    Accounts and the engine:
    - [AccountControl]: core/account_groups.rs and core/account_control.rs: who is
      in which group, who is blocked and why, and the operations a drop-copy call
      defers.  The check reads three flags and three tables without a common
      lock; [Observed] holds the state each read sees, which may be one in the middle
      of a mutator: [BlockedSystem] runs the mutators write by write.
    - [Accounts]: core/accounts.rs: the lease that keeps state transitions apart
      from state writers, as a step relation on any number of threads, and the
      operator's interface to groups, currencies and blocks.
    - [Contracts]: what debug builds check of their callers: re-entry of a storage
      from its own closure, and overlap of exclusive operations in an engine
      without a lease.
    - [Policy]: the interface between engine and policies: contexts with the cells
      they share with their clones, outcomes, and the hooks as state transformers.
      [W] is the state the policies of an engine own.
    - [Engine]: core/engine.rs with the request, reservation and drop-copy handles.
      [EngineFacts] and [EngineOps] hold its theorems.

    Stores and services:
    - [Storage]: storage/storage.rs: a finite map; an accessor that upgrades its
      index lock is two atomic phases.
    - [Locking], [LockingFacts]: what is beneath those phases: storage/policy.rs and
      policies/, core/sync_mode.rs and the run-time mode of the interop crate.  An
      [Accessor] is a call of a storage, and its program takes, uses and drops the two
      locks; threads run the accessors their table offers, under the strategy of their
      mode and the threading contract that comes with it.
    - [Holdings], [HoldingsFacts], [HoldingsStore]: pretrade/holdings: one slot of
      balances with its position P&L, and the store with its per-account index.
    - [Instruments], [ReferenceBook]: instrument identifiers with the search for a
      free one, and core/reference_book.rs.
    - [MarketData], [MarketDataFacts]: marketdata/: registry, quotes, lifetimes and
      resolution, and what the steps of other threads between two critical
      sections may change.

    Policies of pretrade/policies:
    - [OrderValidation]; [OrderSizeLimit] with [OrderSizeLimitFacts]; [PnlBounds]
      with [PnlBoundsFacts]; [RateLimit] with [SlidingWindow] and [FixedWindow], the
      theories of its two kinds of counters, and [RateLimitFacts].
    - The spot funds policy: [SpotFundsSettings] (pricing, limit modes, position
      limits, P&L barriers), [SpotFundsParts] (its pure parts), [SpotFunds] (its
      state, ledger and valuations), [SpotFundsReservation], [SpotFundsExecution] and
      [SpotFundsAdjustment] (its three hooks).  Their theories are
      [SpotFundsSettingsFacts], [SpotFundsFacts] (the gates of a reservation),
      [SpotFundsReservationFacts] (its effect and undoing), [SpotFundsExecutionFacts]
      (a program logic for the settlement of reports), [SpotFundsLifecycle] (an order
      from reservation to last report), [SpotFundsLedgerFacts] (the P&L axes and
      retirement) and [SpotFundsAdjustmentFacts].

    Requests:
    - [Requests]: core/order.rs, execution_report.rs and account_adjustment.rs: the
      layers of a request and the accessors each answers or hands through.
    - [Interop]: src/crates/openpit-interop: requests whose groups and required
      fields may be missing.
    - [InteropFacts]: the engine looks at a request through its
      accessors only, so two presentations of it are worth the same.

    The C boundary (src/crates/openpit-ffi):
    - [Utf8]: the standard library's strict and lossy decoders, which the boundary
      applies to the texts of a caller.
    - [Ffi]: string.rs, bytes.rs, last_error.rs, instrument.rs: a pointer is null or
      what it points to; [Call] is what a function returns together with what it
      writes through its two out-pointers, [Places] says which of these are null.
    - [FfiParam]: param.rs: codes of enums, the 128-bit mantissa in two words, the
      macro of functions every value type gets (a [ParamDomain] is its argument) and
      the conversions between types.
    - [FfiOutcomes], [FfiRequests]: reject.rs, account_outcome.rs,
      order.rs, execution_report.rs, account_adjustment.rs.
    - [FfiLock]: pre_trade_lock.rs with its raw binary layout, which reads back.
    - [FfiServices]: reference_book.rs and marketdata.rs: the services behind their
      handles; the caller's callback that resolves account groups is an argument.
    - [FfiErrors], [FfiEngine]: engine.rs: error objects, the builder, the entry
      points and the handles of what they return.  A handle is an option: what it
      points to is there until it is consumed.
    - [FfiPolicy]: policy/mod.rs, policy/custom.rs, account_control.rs: the policy a
      caller makes of C callbacks is a record of functions on the engine's state.
    - [FfiBuiltin], [FfiSpotFunds]: registering and retuning the built-in policies.
    - [FfiEngineFacts]: what a caller promises of its callbacks ([CallbackContract]),
      which makes its policies [Transactional], and what the engine promises of its
      calls and handles; [FfiServiceFacts]: registrations, retunings and reads.
    - [FfiWire] states what a pair of conversions owes its client as a class [Wire];
      [FfiRequests] builds its instances up to whole requests, [FfiFacts] holds
      the contract of calls, rejects and lists.

    The Python boundary (src/bindings/python/src/lib.rs):
    - [Python]: the interpreter as an interface, and what the binding does with it.
      An object is opaque; whatever may run Python code is a computation that may
      raise and may change the state, the engine's included ([PyRuntime]).  The stack of
      parked exceptions, a frame per running operation of the thread, is part of that
      state ([HasFrames]).  Here are also the parsers of values, rejects, blocks and
      outcomes, and the decimal reader.
    - [PythonPolicy]: the mutations a policy hands over, the contexts it is shown, the
      adapter that turns its methods into hooks, and the reading of requests.
    - [PythonEngine]: the builder, the calls of the engine, each in a scope of its own
      ([in_scope]), the single-use handles, and the registry of accounts.
    - [PythonServices]: the errors as exceptions with their attributes, the reference
      book and the market data service, whose reads ask Python for account groups;
    - [PythonSettings]: the entities of openpit.pretrade.policies, the configurator and
      the registration of the built-in policies;
    - [PythonFacts]: what the interpreter is assumed to keep ([Balanced]), what follows
      for every adapter, handle and call, and the reading of decimal texts.

    Configuration:
    - [ConfigCell]: storage/config_cell.rs: the local cell with its borrow flag, and
      the lock-free cell as a step relation.
    - [Configure], [ConfigureFacts]: core/engine_builder.rs and core/configure.rs:
      building an engine, retuning its policies, and the sweep that follows a new
      barrier.

    [ComponentWitnesses], [SpotFundsWitnesses] and [FfiWitnesses] give concrete inputs
    at which the properties' hypotheses hold; the last has those of both boundaries,
    with decimals that keep their scale and a small interpreter for Python.

    ** How the parts interact

    An entry point of [Engine] builds a context, folds the policies' hooks over the
    engine state, and hands the collector of mutations to a reservation.  Policies
    reach the accounts only through their contexts.  What a policy owes the engine
    is stated as classes: [Transactional] (what a hook registers undoes what it
    did), [DropCopyTransactional] (so does what its start hook records in
    drop-copy) and [DryRunQuiet] (the dry-run hooks change nothing).  The engine's
    theorems are proved against these classes, and the built-in policies are
    instances: order validation, the order size limit and the P&L kill switch of all
    of them; the rate limit of the first and the last, since it never gives consumed
    budget back; the spot funds policy of the last.  A spot funds reservation is
    undone by inverse flows, which restore amounts and not the representation of
    decimals: [reservation_reverts] is its counterpart of [Transactional], and the
    theorems about an engine of [Transactional] policies, the pre-trade call from C
    among them, do not speak of an engine that runs it.

    The spot funds policy reads prices through [MarketDataSource], which the market
    data service implements, and may wait for another thread when it takes the
    ledger's lease: [LeaseWaits] is what other threads do meanwhile.  [Owns] says
    where in the world a component keeps its state, and [CellTypeName] which settings
    cell a policy registers with the configurator.

    A hook of a Python policy cannot hand an exception through the core, so it parks it
    in the innermost frame and rejects; the call that opened the frame raises it when
    the core is done.  [Balanced] is the one thing asked of the interpreter: Python code
    changes the frames only through the calls of the binding, which leave them as they
    were.  [FrameSafe] and the predicates around it say the same of policies, mutations,
    requests and handles, and are proved of all the binding makes; the places of the
    world where services and settings live hold no frames ([apart], [settings_safe]).

    ** What the theorems show

    - Atomicity of the pipeline: a rejected request, a failed drop-copy call, a
      refused retirement and a failed adjustment batch undo everything, the batch
      naming its first refused adjustment; an accepted request can be given back; a
      reservation is finalized once; a dry run is free.  Stages are related to plain
      sequences of hook calls, and answer by what the policies answered.
    - Spot funds: a reservation passes exactly when funds and position limit allow
      it, is a flow between balances, and is undone by the inverse flow at any later
      moment; an order for a quantity, or for a volume that divides exactly, gives back
      exactly what it reserved by its last report; the dry run answers as the live hook,
      also where both steps of an order meet on one slot; the P&L axes block exactly
      when a barrier is breached; adjustments and assertions roll back under concurrent
      deltas.
    - Blocking: the flags agree with the tables in every state between mutators, the
      check refines an abstract blocked set, and read without a lock, in the middle of
      whatever mutators, it never misses a block whose mutator has returned until one
      that takes it away begins; deferring is transparent; a failed finalizer always
      blocks.
    - Configuration: which builds succeed, retuning as a transaction with a sweep,
      joining a group enforces its barrier, no update of a settings cell is lost.
    - Storage under its strategies: each section of an accessor, from the first
      guard to the last, is one atomic step; there is no data race, no access to a
      slot that is gone, and no deadlock - under full locking always, under index
      locking when calls for one account do not overlap, without locks when no
      calls do.  The accessors' programs compute what [Storage] says.
    - Requests: a binding's order, report, balance adjustment or adjustment of the
      account's P&L, with a payload or without, is answered as the core request with the
      same fields, by every entry point and any built-in policies; one of a position,
      which names no balance, is refused by the spot funds policy; an order that leaves
      out a field some policy always reads is refused.
    - Concurrency: mutual exclusion and progress of the lease, reconciliation of the holdings index, the
      long-run bound of the lock-free counter and the burst its documentation does
      not allow for, exactness of the debug check of an engine without a lease.
    - Market data: which quote a read answers, atomicity under interleaving.
    - Arithmetic: the values of the non-negative types are so, whatever made them,
      unless a negative decimal was deserialized; conservative rounding, margins,
      conservation of quantity by holdings, and of value up to the rounding of an
      average; rollback by deltas.
    - Rate limiting: precision of the sliding logs, flood protection, dry-run
      verdicts, retuning without reset.
    - Order size: which cap of which axis decides, and which reject wins.
    - P&L kill switch: no report is lost whatever barriers were in force, each counting
      with its P&L less its fee, and a report blocks exactly when the next order would
      be rejected.
    - Round trips: the lock's serialized form, group registration, quotes.
    - The C boundary: what is accepted is handed back unchanged, what is valid can
      cross; the raw layout of a lock reads back; a call writes its result exactly
      when it succeeds and its error exactly when it fails, and computes what the
      core computes.  A pre-trade call on policies that undo themselves exactly, those made
      of C callbacks included, leaves no trace unless it hands a reservation out; a handle is finalized once, whatever
      its owner calls; a callback that fails blocks everyone; a retuning that fails
      changes nothing, whatever its setters wrote before the one that failed; a multi-threaded engine reads prices under real locks; a
      resolver that fails is never taken for an account without a group.
    - The Python boundary: no call touches what is parked for the operations around it;
      a call raises the exception raised first, after every policy was asked, and
      answers as the methods say if none raised; a finalizer runs every callable, raises
      the first exception and then blocks everyone, and uses its handle up; a decimal is
      read exactly when its coefficient stays below 2^96 and its scale within 28, and
      refused otherwise.

    ** Choices and limits

    - Interleavings are sequentially consistent; one critical section or atomic
      access is one step.  Memory orderings are not modelled.
    - Statements about sums, products and quotients say where they round: most ask for
      amounts on a common scale ([on_grid]) or that the exact result be representable.
    - A closure does not panic; a documented panic is [None] of an option.
      Test-only hooks are left out.
    - Fuel: [next_mutation_owner_id] gets two rounds, enough since only 0 is
      skipped; the search for an instrument identifier gets one round more than the
      registry has entries; the binary search gets the length of the log, and it
      halves its range each round; the digits of a duration's fraction get nine
      rounds.  The theorems about their users show these suffice.
    - Identity matters where the source shares an object: the counters behind [Arc]
      live in a heap and slots hold addresses.
    - [len] of collections and the [usize] of the host are unbounded here, except in
      the lease, whose counters saturate, and its debug check, whose word wraps.
    - Not modelled: the choice of pointer types and auto traits by a
      synchronization mode and the typestate of the builders, which constrain what
      compiles and not what runs; the derive crate, which generates accessors; the
      JavaScript binding, which marshals through wasm-bindgen; of the FFI crate the
      freeing of handles, the lifetime of what views borrow, and the version strings;
      of the Python binding the arithmetic, setters, hashes and texts of its value
      classes.  Allocating a Python object for a result is taken to succeed. *)
From stdpp Require Export base gmap strings list fin_maps.
From Stdlib Require Export ZArith Lia.

(** Machine integers are [Z] with their bounds written out. *)
Definition U16_MAX : Z := 2 ^ 16 - 1.
Definition U32_MAX : Z := 2 ^ 32 - 1.
Definition U64_MAX : Z := 2 ^ 64 - 1.
Definition I64_MIN : Z := - 2 ^ 63.
Definition I64_MAX : Z := 2 ^ 63 - 1.

(** [Result<T, E>]; the error comes first so that [result E] is a monad. *)
Inductive result (E T : Type) : Type :=
| Ok (value : T)
| Err (error : E).
Arguments Ok {E T} value.
Arguments Err {E T} error.

#[export] Instance result_ret E : MRet (result E) := fun _ x => Ok x.
#[export] Instance result_bind E : MBind (result E) :=
  fun _ _ f r => match r with Ok x => f x | Err e => Err e end.
#[export] Instance result_fmap E : FMap (result E) :=
  fun _ _ f r => match r with Ok x => Ok (f x) | Err e => Err e end.
#[export] Instance result_eq_dec E T `{EqDecision E} `{EqDecision T} :
  EqDecision (result E T).
Proof. solve_decision. Defined.

(** [Option::is_some], [Option::ok_or], [Result::map_err], [Result::ok],
    [Result::is_ok]. *)
Definition is_some {T} (o : option T) : bool := match o with Some _ => true | None => false end.
Definition ok_or {E T} (o : option T) (e : E) : result E T :=
  match o with Some x => Ok x | None => Err e end.
Definition map_err {E F T} (f : E -> F) (r : result E T) : result F T :=
  match r with Ok x => Ok x | Err e => Err (f e) end.
Definition result_ok {E T} (r : result E T) : option T :=
  match r with Ok x => Some x | Err _ => None end.
Definition is_ok {E T} (r : result E T) : bool :=
  match r with Ok _ => true | Err _ => false end.

(** Inversion of [Ok] results and of the option steps feeding them. *)
Lemma result_bind_Ok {E A B} (f : A -> result E B) (r : result E A) y :
  (r ≫= f) = Ok y <-> exists x, r = Ok x /\ f x = Ok y.
Proof. destruct r; cbn; naive_solver. Qed.

Lemma result_fmap_Ok {E A B} (f : A -> B) (r : result E A) y :
  (f <$> r) = Ok y <-> exists x, r = Ok x /\ y = f x.
Proof. destruct r; cbn; naive_solver. Qed.

Lemma ok_or_Ok {E A} (o : option A) (e : E) x : ok_or o e = Ok x <-> o = Some x.
Proof. destruct o; cbn; naive_solver. Qed.

Lemma ok_or_Err {E A} (o : option A) (e e' : E) : ok_or o e = Err e' <-> o = None /\ e' = e.
Proof. destruct o; cbn; naive_solver. Qed.

Lemma map_err_Ok {E F A} (f : E -> F) (r : result E A) x : map_err f r = Ok x <-> r = Ok x.
Proof. destruct r; cbn; naive_solver. Qed.

(** [inv_ok H] opens a hypothesis [_ = Ok _] built from binds, [ok_or],
    [map_err], [if] and [<$>], leaving one equation per step. *)
Ltac inv_ok_steps H :=
  first
    [ apply result_bind_Ok in H;
      let x := fresh "x" in let Hx := fresh "H" x in
      destruct H as (x & Hx & H); inv_ok_steps Hx; inv_ok_steps H
    | apply result_fmap_Ok in H;
      let x := fresh "x" in let Hx := fresh "H" x in
      destruct H as (x & Hx & H); inv_ok_steps Hx
    | apply ok_or_Ok in H; inv_ok_steps H
    | apply map_err_Ok in H; inv_ok_steps H
    | apply fmap_Some in H;
      let x := fresh "x" in let Hx := fresh "H" x in
      destruct H as (x & Hx & H); inv_ok_steps Hx
    | idtac ].
Ltac inv_ok H := inv_ok_steps H; simplify_eq.
