(* ===== verification/Decimal.v ===== *)
(** * Decimal: the interface to the [rust_decimal] crate

    Every monetary value of the engine wraps [rust_decimal::Decimal], a
    third-party type.  It is a parameter here: [DecimalOps] lists the operations
    the sources call and [DecimalLaws] what they rely on.  The number format is
    the one documented in src/crates/openpit/src/param/mod.rs (lines 31-41): a
    sign, a 96-bit coefficient and a scale from 0 to 28.  [DecimalRef] gives a
    concrete instance. *)
From S2P Require Import Prelude.
From Stdlib Require Import SpecFloat.
Open Scope Z_scope.

(** A [str] is the list of its Unicode scalar values. *)
Definition ustr : Type := list Z.

(** An [f64] is a value of the standard library's model of IEEE 754. *)
Definition f64 : Type := spec_float.

(** [f64::is_finite]. *)
Definition f64_is_finite (x : f64) : bool :=
  match x with
  | S754_zero _ | S754_finite _ _ _ => true
  | S754_infinity _ | S754_nan => false
  end.

(** The exact value of a decimal is counted in units of 10^-28. *)
Definition DEC_UNIT : Z := 10 ^ 28.
Definition DEC_COEFF : Z := 2 ^ 96.
Definition DEC_MAX_SCALE : nat := 28.

(** The weight of one coefficient step at scale [s]. *)
Definition scale_weight (s : nat) : Z := 10 ^ Z.of_nat (DEC_MAX_SCALE - s).

(** [z] units are [coefficient / 10^scale] for an admissible coefficient and
    scale. *)
Definition representable (z : Z) : Prop :=
  exists (s : nat) (m : Z),
    (s <= DEC_MAX_SCALE)%nat /\ Z.abs m < DEC_COEFF /\ z = m * scale_weight s.

(** [rust_decimal::RoundingStrategy], the variants the sources use. *)
Inductive DecRounding : Set :=
| DecMidpointNearestEven
| DecMidpointAwayFromZero
| DecToPositiveInfinity
| DecToNegativeInfinity.

Class DecimalOps : Type := {
  Dec : Type;
  dec_val : Dec -> Z;
  dec_cmp : Dec -> Dec -> comparison;
  dec_zero : Dec;
  dec_of_int : Z -> Dec;
  dec_neg : Dec -> Dec;
  dec_abs : Dec -> Dec;
  dec_add : Dec -> Dec -> option Dec;
  dec_sub : Dec -> Dec -> option Dec;
  dec_mul : Dec -> Dec -> option Dec;
  dec_div : Dec -> Dec -> option Dec;
  dec_rem : Dec -> Dec -> option Dec;
  dec_round : Dec -> Z -> DecRounding -> Dec;
  dec_from_str_exact : ustr -> option Dec;
  dec_parse : ustr -> option Dec;
  dec_try_from_f64 : f64 -> option Dec
}.

(** [Display] of a [Decimal]; the value types delegate to it. *)
Class DecimalFormat {D : DecimalOps} : Type := dec_fmt : Dec -> string.

(** [c] lies on the same side of zero as the exact result [z]. *)
Definition same_side (z c : Z) : Prop := (0 <= z -> 0 <= c) /\ (z <= 0 -> c <= 0).

Class DecimalLaws (D : DecimalOps) : Prop := {
  dec_val_repr : forall d, representable (dec_val d);
  dec_cmp_val : forall a b, dec_cmp a b = (dec_val a ?= dec_val b);
  dec_zero_val : dec_val dec_zero = 0;
  dec_of_int_val : forall z, Z.abs z <= U64_MAX -> dec_val (dec_of_int z) = z * DEC_UNIT;
  dec_neg_val : forall d, dec_val (dec_neg d) = - dec_val d;
  dec_abs_val : forall d, dec_val (dec_abs d) = Z.abs (dec_val d);
  dec_add_exact : forall a b, representable (dec_val a + dec_val b) ->
    exists c, dec_add a b = Some c /\ dec_val c = dec_val a + dec_val b;
  dec_add_side : forall a b c, dec_add a b = Some c ->
    same_side (dec_val a + dec_val b) (dec_val c);
  dec_sub_exact : forall a b, representable (dec_val a - dec_val b) ->
    exists c, dec_sub a b = Some c /\ dec_val c = dec_val a - dec_val b;
  dec_sub_side : forall a b c, dec_sub a b = Some c ->
    same_side (dec_val a - dec_val b) (dec_val c);
  dec_mul_exact : forall a b z, representable z ->
    dec_val a * dec_val b = z * DEC_UNIT ->
    exists c, dec_mul a b = Some c /\ dec_val c = z;
  dec_mul_side : forall a b c, dec_mul a b = Some c ->
    same_side (dec_val a * dec_val b) (dec_val c);
  dec_div_exact : forall a b z, dec_val b <> 0 -> representable z ->
    dec_val a * DEC_UNIT = z * dec_val b ->
    exists c, dec_div a b = Some c /\ dec_val c = z;
  dec_div_side : forall a b c, dec_div a b = Some c ->
    same_side (dec_val a * dec_val b) (dec_val c);
  dec_div_zero : forall a b, dec_val b = 0 -> dec_div a b = None;
  dec_rem_side : forall a b c, dec_rem a b = Some c ->
    same_side (dec_val a) (dec_val c) /\ Z.abs (dec_val c) < Z.abs (dec_val b);
  dec_rem_zero : forall a b, dec_val b = 0 -> dec_rem a b = None;
  dec_round_down : forall d s, dec_val (dec_round d s DecToNegativeInfinity) <= dec_val d;
  dec_round_up : forall d s, dec_val d <= dec_val (dec_round d s DecToPositiveInfinity)
}.

(** The comparison operators of [Decimal]. *)
Section Comparisons.
Context {D : DecimalOps}.

Definition dec_eqb (a b : Dec) : bool := match dec_cmp a b with Eq => true | _ => false end.
Definition dec_ltb (a b : Dec) : bool := match dec_cmp a b with Lt => true | _ => false end.
Definition dec_leb (a b : Dec) : bool := match dec_cmp a b with Gt => false | _ => true end.
Definition dec_gtb (a b : Dec) : bool := dec_ltb b a.
Definition dec_geb (a b : Dec) : bool := dec_leb b a.

(** Numeric equality, the [==] of [Decimal], is coarser than identity: 1.0 and
    1.00 are equal. *)
#[export] Instance dec_equiv : Equiv Dec := fun a b => dec_val a = dec_val b.

#[export] Instance dec_equivalence : Equivalence (≡@{Dec}).
Proof. split; repeat intro; unfold equiv, dec_equiv in *; congruence. Qed.

#[export] Instance dec_val_proper : Proper ((≡) ==> (=)) dec_val.
Proof. intros a b H. exact H. Qed.

Context {L : DecimalLaws D}.

Lemma dec_eqb_val a b : dec_eqb a b = (dec_val a =? dec_val b).
Proof.
  unfold dec_eqb. rewrite dec_cmp_val, Z.eqb_compare. by destruct (_ ?= _).
Qed.

Lemma dec_ltb_val a b : dec_ltb a b = (dec_val a <? dec_val b).
Proof. unfold dec_ltb. by rewrite dec_cmp_val. Qed.

Lemma dec_leb_val a b : dec_leb a b = (dec_val a <=? dec_val b).
Proof. unfold dec_leb. by rewrite dec_cmp_val. Qed.

Lemma dec_gtb_val a b : dec_gtb a b = (dec_val b <? dec_val a).
Proof. apply dec_ltb_val. Qed.

Lemma dec_geb_val a b : dec_geb a b = (dec_val b <=? dec_val a).
Proof. apply dec_leb_val. Qed.

#[export] Instance dec_cmp_proper : Proper ((≡) ==> (≡) ==> (=)) dec_cmp.
Proof. intros a a' Ha b b' Hb. by rewrite !dec_cmp_val, Ha, Hb. Qed.

#[export] Instance dec_eqb_proper : Proper ((≡) ==> (≡) ==> (=)) dec_eqb.
Proof. intros a a' Ha b b' Hb. by rewrite !dec_eqb_val, Ha, Hb. Qed.

#[export] Instance dec_ltb_proper : Proper ((≡) ==> (≡) ==> (=)) dec_ltb.
Proof. intros a a' Ha b b' Hb. by rewrite !dec_ltb_val, Ha, Hb. Qed.

(** A checked sum (difference) that returns is exact when its exact value is
    representable. *)
Lemma dec_add_val a b c :
  representable (dec_val a + dec_val b) -> dec_add a b = Some c ->
  dec_val c = dec_val a + dec_val b.
Proof. intros HR H. destruct (dec_add_exact a b HR) as (c' & ? & ?). congruence. Qed.

Lemma dec_sub_val a b c :
  representable (dec_val a - dec_val b) -> dec_sub a b = Some c ->
  dec_val c = dec_val a - dec_val b.
Proof. intros HR H. destruct (dec_sub_exact a b HR) as (c' & ? & ?). congruence. Qed.

End Comparisons.

Create Rewrite HintDb dec.
#[export] Hint Rewrite @dec_eqb_val @dec_ltb_val @dec_leb_val @dec_gtb_val @dec_geb_val
  @dec_zero_val @dec_neg_val @dec_abs_val using (typeclasses eauto) : dec.

(** [dec_norm] turns comparisons of decimals into comparisons of units. *)
Ltac dec_norm := autorewrite with dec in *.

Lemma representable_0 : representable 0.
Proof. exists 0%nat, 0. unfold DEC_MAX_SCALE, DEC_COEFF. split_and!; lia. Qed.

Lemma representable_opp z : representable z -> representable (- z).
Proof.
  intros (s & m & Hs & Hm & ->). exists s, (- m). rewrite Z.abs_opp. split_and!; [done..|lia].
Qed.

Lemma representable_abs z : representable z -> representable (Z.abs z).
Proof. destruct (Z.abs_spec z) as [[_ ->]|[_ ->]]; auto using representable_opp. Qed.

(** Whole units up to the coefficient's capacity fit at scale 28; integers up
    to it fit at scale 0. *)
Lemma representable_small z : Z.abs z < DEC_COEFF -> representable z.
Proof.
  intros H. exists DEC_MAX_SCALE, z. split_and!; [done..|].
  unfold scale_weight. rewrite Nat.sub_diag. cbn. lia.
Qed.

Lemma representable_int z : Z.abs z < DEC_COEFF -> representable (z * DEC_UNIT).
Proof. intros H. exists 0%nat, z. split_and!; [unfold DEC_MAX_SCALE; lia|done|done]. Qed.

Create HintDb decimal.
#[export] Hint Resolve representable_0 representable_opp representable_abs
  representable_small representable_int : decimal.
#[export] Hint Resolve dec_val_repr : decimal.
