(* ===== verification/DecimalRef.v ===== *)
(** * DecimalRef: a concrete instance of the decimal interface

    A decimal is its exact value in units of 10^-28 with a proof that some
    96-bit coefficient and scale denote it.  Results that do not fit are
    truncated to the largest scale that holds them, and only an integral part
    beyond 96 bits overflows.  It instantiates the parameter [DecimalOps] where a
    theorem is evaluated at concrete inputs; it is not the source of
    [rust_decimal]. *)
From S2P Require Import Prelude.
From S2P Require Import Decimal.
From Stdlib Require Import SpecFloat.
Open Scope Z_scope.

Definition fits_scale (z : Z) (s : nat) : bool :=
  (z mod scale_weight s =? 0) && (Z.abs (z / scale_weight s) <? DEC_COEFF).

Definition representable_b (z : Z) : bool := existsb (fits_scale z) (seq 0 (S DEC_MAX_SCALE)).

Record RefDec : Type := mkRefDec {
  rd_units : Z;
  rd_ok : representable_b rd_units = true
}.

Definition rd_make (z : Z) : option RefDec :=
  match Sumbool.sumbool_of_bool (representable_b z) with
  | left H => Some (mkRefDec z H)
  | right _ => None
  end.

Definition rd_zero : RefDec := mkRefDec 0 eq_refl.
Definition rd_make_or (d : RefDec) (z : Z) : RefDec := default d (rd_make z).

(** [num / den] units, truncated to the largest scale at most [s] whose
    coefficient fits. *)
Fixpoint fit (num den : Z) (s : nat) : option Z :=
  let w := scale_weight s in
  let m := Z.quot num (den * w) in
  if Z.abs m <? DEC_COEFF then Some (m * w)
  else match s with O => None | S s' => fit num den s' end.

Definition rd_fit (num den : Z) : option RefDec := fit num den DEC_MAX_SCALE ≫= rd_make.

Definition rd_round_units (z : Z) (s : nat) (r : DecRounding) : Z :=
  let w := scale_weight s in
  let lo := z / w * w in
  let hi := - ((- z) / w) * w in
  let half := 2 * (z - lo) in
  match r with
  | DecToNegativeInfinity => lo
  | DecToPositiveInfinity => hi
  | DecMidpointNearestEven =>
      if half <? w then lo else if w <? half then hi
      else if Z.even (z / w) then lo else hi
  | DecMidpointAwayFromZero =>
      if half <? w then lo else if w <? half then hi
      else if 0 <=? z then hi else lo
  end.

Fixpoint rd_digits (acc : Z) (frac : option nat) (cs : ustr) : option (Z * nat) :=
  match cs with
  | [] => Some (acc, default 0%nat frac)
  | c :: cs =>
      if (48 <=? c) && (c <=? 57) then
        rd_digits (acc * 10 + (c - 48)) (S <$> frac) cs
      else if (c =? 46) then
        match frac with None => rd_digits acc (Some 0%nat) cs | Some _ => None end
      else None
  end.

(** Optional minus sign, digits, optional fraction of at most 28 digits. *)
Definition rd_of_str (cs : ustr) : option RefDec :=
  let '(sg, body) := match cs with 45 :: r => (-1, r) | _ => (1, cs) end in
  match body with
  | [] => None
  | _ =>
      '(m, n) ← rd_digits 0 None body;
      if (n <=? DEC_MAX_SCALE)%nat then rd_make (sg * m * scale_weight n) else None
  end.

Definition rd_of_f64 (x : spec_float) : option RefDec :=
  match x with
  | S754_zero _ => Some rd_zero
  | S754_finite s m e =>
      let num := (if s then Z.neg m else Z.pos m) * 2 ^ Z.max e 0 * DEC_UNIT in
      rd_fit num (2 ^ Z.max (- e) 0)
  | _ => None
  end.

Definition RefDecimal : DecimalOps := {|
  Dec := RefDec;
  dec_val := rd_units;
  dec_cmp a b := rd_units a ?= rd_units b;
  dec_zero := rd_zero;
  dec_of_int z := rd_make_or rd_zero (z * DEC_UNIT);
  dec_neg d := rd_make_or rd_zero (- rd_units d);
  dec_abs d := rd_make_or rd_zero (Z.abs (rd_units d));
  dec_add a b := rd_fit (rd_units a + rd_units b) 1;
  dec_sub a b := rd_fit (rd_units a - rd_units b) 1;
  dec_mul a b := rd_fit (rd_units a * rd_units b) DEC_UNIT;
  dec_div a b :=
    if rd_units b =? 0 then None
    else rd_fit (rd_units a * DEC_UNIT * Z.sgn (rd_units b)) (Z.abs (rd_units b));
  dec_rem a b :=
    if rd_units b =? 0 then None else rd_make (Z.rem (rd_units a) (rd_units b));
  dec_round d s r := rd_make_or d (rd_round_units (rd_units d) (Z.to_nat s) r);
  dec_from_str_exact := rd_of_str;
  dec_parse := rd_of_str;
  dec_try_from_f64 := rd_of_f64
|}.

Lemma scale_weight_pos s : 0 < scale_weight s.
Proof. unfold scale_weight. apply Z.pow_pos_nonneg; lia. Qed.

Lemma representable_b_true z : representable_b z = true <-> representable z.
Proof.
  unfold representable_b. rewrite existsb_exists. split.
  - intros (s & Hin & H). apply in_seq in Hin. unfold fits_scale in H.
    apply andb_true_iff in H as [H1 H2]. apply Z.eqb_eq in H1. apply Z.ltb_lt in H2.
    exists s, (z / scale_weight s). pose proof (scale_weight_pos s).
    split_and!; [lia|done|]. pose proof (Z.div_mod z (scale_weight s)). lia.
  - intros (s & m & Hs & Hm & ->). exists s. split; [apply in_seq; lia|].
    pose proof (scale_weight_pos s). unfold fits_scale.
    rewrite Z.mod_mul, Z.div_mul by lia. cbn. by apply Z.ltb_lt.
Qed.

Lemma rd_make_some z : representable z -> exists d, rd_make z = Some d /\ rd_units d = z.
Proof.
  intros H%representable_b_true. unfold rd_make.
  destruct (Sumbool.sumbool_of_bool _); [eauto|congruence].
Qed.

Lemma rd_make_units z d : rd_make z = Some d -> rd_units d = z.
Proof. unfold rd_make. destruct (Sumbool.sumbool_of_bool _); [by intros [= <-]|done]. Qed.

Lemma rd_make_or_units d z : representable z -> rd_units (rd_make_or d z) = z.
Proof. intros H. unfold rd_make_or. by destruct (rd_make_some z H) as (? & -> & ?). Qed.

Lemma rd_repr d : representable (rd_units d).
Proof. destruct d as [z H]. by apply representable_b_true. Qed.

(** A representable quotient is returned exactly: the search stops at a scale at
    least as fine as one that holds it. *)
Lemma fit_exact den z s s0 m :
  0 < den -> (s0 <= s)%nat -> (s <= DEC_MAX_SCALE)%nat ->
  Z.abs m < DEC_COEFF -> z = m * scale_weight s0 -> fit (z * den) den s = Some z.
Proof.
  intros Hden Hle Hmax Hm Hz. induction s as [|s IH].
  all: assert (Hdiv : exists k, z = k * scale_weight (Nat.max s0 0)) by
    (exists m; by rewrite Nat.max_0_r).
  - replace s0 with 0%nat in * by lia. pose proof (scale_weight_pos 0). cbn -[scale_weight DEC_COEFF].
    rewrite (Z.mul_comm z), Z.quot_mul_cancel_l by lia.
    rewrite Hz, Z.quot_mul by lia. by rewrite (proj2 (Z.ltb_lt _ _) Hm).
  - assert (Hk : exists k, z = k * scale_weight (S s)).
    { exists (m * 10 ^ Z.of_nat (S s - s0)). rewrite Hz. unfold scale_weight.
      rewrite <- Z.mul_assoc, <- Z.pow_add_r by lia. do 2 f_equal. lia. }
    destruct Hk as [k Hk]. pose proof (scale_weight_pos (S s)).
    cbn -[scale_weight DEC_COEFF].
    rewrite (Z.mul_comm z), Z.quot_mul_cancel_l by lia.
    rewrite Hk, Z.quot_mul by lia.
    destruct (Z.ltb_spec (Z.abs k) DEC_COEFF); [done|].
    destruct (decide (s0 = S s)) as [->|].
    + assert (k = m) by nia. lia.
    + rewrite (Z.mul_comm den). rewrite <- Hk. apply IH; lia.
Qed.

Lemma fit_side num den s z : 0 < den -> fit num den s = Some z -> same_side num z.
Proof.
  intros Hden. induction s as [|s IH]; cbn -[scale_weight DEC_COEFF].
  all: match goal with |- context [scale_weight ?t] => pose proof (scale_weight_pos t) as Hw;
         set (w := scale_weight t) in * end.
  all: destruct (_ <? _); try done; auto.
  all: intros [= <-]; split; intros ?; pose proof (Z.quot_pos num (den * w));
    pose proof (Z.quot_pos (- num) (den * w)); rewrite Z.quot_opp_l in * by nia; nia.
Qed.

Lemma rd_fit_exact z num den :
  0 < den -> representable z -> num = z * den ->
  exists c, rd_fit num den = Some c /\ rd_units c = z.
Proof.
  intros Hden HR ->. pose proof HR as (s & m & ? & ? & ?). unfold rd_fit.
  rewrite (fit_exact den z DEC_MAX_SCALE s m) by done. cbn. by apply rd_make_some.
Qed.

Lemma rd_fit_side num den c : 0 < den -> rd_fit num den = Some c -> same_side num (rd_units c).
Proof.
  unfold rd_fit. intros Hden (z & Hz & Hc)%bind_Some. apply rd_make_units in Hc as ->.
  by eapply fit_side.
Qed.

Lemma rd_round_units_down z s : rd_round_units z s DecToNegativeInfinity <= z.
Proof.
  cbn -[scale_weight]. pose proof (Z.mul_div_le z _ (scale_weight_pos s)). lia.
Qed.

Lemma rd_round_units_up z s : z <= rd_round_units z s DecToPositiveInfinity.
Proof.
  cbn -[scale_weight]. pose proof (Z.mul_div_le (- z) _ (scale_weight_pos s)). lia.
Qed.

Lemma rd_round_bound (P : Z -> Prop) d z :
  P z -> P (rd_units d) -> P (rd_units (rd_make_or d z)).
Proof.
  intros Hz Hd. unfold rd_make_or. destruct (rd_make z) eqn:E; cbn; [|done].
  by apply rd_make_units in E as ->.
Qed.

#[export] Instance RefDecimal_laws : DecimalLaws RefDecimal.
Proof.
  assert (HU : 0 < DEC_UNIT) by (unfold DEC_UNIT; lia).
  assert (H1 : 0 < 1) by lia.
  split; cbn -[DEC_UNIT DEC_COEFF U64_MAX rd_fit rd_make Z.mul rd_round_units].
  - apply rd_repr.
  - done.
  - done.
  - intros z Hz. apply rd_make_or_units, representable_int, (Z.le_lt_trans _ _ _ Hz). done.
  - intros d. apply rd_make_or_units, representable_opp, rd_repr.
  - intros d. apply rd_make_or_units, representable_abs, rd_repr.
  - intros a b H. apply rd_fit_exact; [exact H1|exact H|lia].
  - intros a b c H. exact (rd_fit_side _ _ _ H1 H).
  - intros a b H. apply rd_fit_exact; [exact H1|exact H|lia].
  - intros a b c H. exact (rd_fit_side _ _ _ H1 H).
  - intros a b z HR H. exact (rd_fit_exact _ _ _ HU HR H).
  - intros a b c H. exact (rd_fit_side _ _ _ HU H).
  - intros a b z Hb HR H. destruct (Z.eqb_spec (rd_units b) 0); [done|].
    apply rd_fit_exact; [lia|done|]. rewrite H.
    rewrite <- Z.mul_assoc. f_equal. lia.
  - intros a b c. destruct (Z.eqb_spec (rd_units b) 0); [done|]. intros H.
    apply rd_fit_side in H; [|lia]. revert H. unfold same_side. destruct (Z.sgn_spec (rd_units b)) as [[? ->]|[[? ->]|[? ->]]]; nia.
  - intros a b ->. done.
  - intros a b c. destruct (Z.eqb_spec (rd_units b) 0); [done|]. intros ->%rd_make_units.
    pose proof (Z.rem_bound_abs (rd_units a) (rd_units b)).
    split; [split|lia]; intros ?.
    + pose proof (Z.rem_nonneg (rd_units a) (rd_units b)). lia.
    + pose proof (Z.rem_nonpos (rd_units a) (rd_units b)). lia.
  - intros a b ->. done.
  - intros d s. apply (rd_round_bound (fun z => z <= rd_units d)); [apply rd_round_units_down|lia].
  - intros d s. apply (rd_round_bound (fun z => rd_units d <= z)); [apply rd_round_units_up|lia].
Qed.

(** Decimals from a mantissa and a number of fractional digits. *)
Definition rd (m : Z) (frac : nat) : RefDec := rd_make_or rd_zero (m * scale_weight frac).
