(* ===== verification/Param.v ===== *)
(** * Param: error model and the decimal value-type macros

    src/crates/openpit/src/param/mod.rs.  The two macros
    [define_non_negative_value_type] and [define_signed_value_type] stamp one type
    per [ParamKind]; here they are the families [NonNeg k] and [Signed k], with
    the operations of the macro bodies under the prefixes [nn_] and [sg_].  The derived
    deserializer is [nn_deserialize]; which values the interface as a whole can build
    is stated in [ParamTypes], where the conversions between the kinds are. *)
From S2P Require Import Prelude.
From S2P Require Import Decimal.
Open Scope Z_scope.

(** ** Kinds and errors *)

Inductive ParamKind : Set :=
| PK_Quantity | PK_Volume | PK_Notional | PK_Price | PK_Pnl | PK_CashFlow
| PK_PositionSize | PK_Fee | PK_Leverage.

#[export] Instance ParamKind_eq_dec : EqDecision ParamKind.
Proof. solve_decision. Defined.

Definition ParamKind_fmt (k : ParamKind) : string :=
  match k with
  | PK_Quantity => "Quantity"
  | PK_Volume => "Volume"
  | PK_Notional => "Notional"
  | PK_Price => "Price"
  | PK_Pnl => "Pnl"
  | PK_CashFlow => "CashFlow"
  | PK_PositionSize => "PositionSize"
  | PK_Fee => "Fee"
  | PK_Leverage => "Leverage"
  end.

Inductive RoundingStrategy : Set :=
| MidpointNearestEven
| MidpointAwayFromZero
| RoundUp
| RoundDown.

Definition DEFAULT_ROUNDING : RoundingStrategy := MidpointNearestEven.
Definition BANKER : RoundingStrategy := MidpointNearestEven.
Definition CONSERVATIVE_PROFIT : RoundingStrategy := RoundDown.
Definition CONSERVATIVE_LOSS : RoundingStrategy := RoundDown.

(** [impl From<RoundingStrategy> for rust_decimal::RoundingStrategy]. *)
Definition dec_rounding (s : RoundingStrategy) : DecRounding :=
  match s with
  | MidpointNearestEven => DecMidpointNearestEven
  | MidpointAwayFromZero => DecMidpointAwayFromZero
  | RoundUp => DecToPositiveInfinity
  | RoundDown => DecToNegativeInfinity
  end.

Inductive ErrorCode : Set :=
| EC_Unspecified | EC_Negative | EC_DivisionByZero | EC_Overflow | EC_Underflow
| EC_InvalidFloat | EC_InvalidFormat | EC_InvalidPrice | EC_InvalidLeverage
| EC_AssetEmpty | EC_AccountIdEmpty | EC_Other.

(** The [repr(u32)] discriminants. *)
Definition ErrorCode_u32 (c : ErrorCode) : Z :=
  match c with
  | EC_Unspecified => 0
  | EC_Negative => 1
  | EC_DivisionByZero => 2
  | EC_Overflow => 3
  | EC_Underflow => 4
  | EC_InvalidFloat => 5
  | EC_InvalidFormat => 6
  | EC_InvalidPrice => 7
  | EC_InvalidLeverage => 8
  | EC_AssetEmpty => 9
  | EC_AccountIdEmpty => 10
  | EC_Other => U32_MAX
  end.

Inductive ParamError : Type :=
| Negative (param : ParamKind)
| DivisionByZero (param : ParamKind)
| Overflow (param : ParamKind)
| Underflow (param : ParamKind)
| InvalidFloat
| InvalidFormat (param : ParamKind) (input : ustr)
| InvalidPrice
| InvalidLeverage
| AssetEmpty
| AccountIdEmpty
| OtherError.

#[export] Instance ParamError_eq_dec : EqDecision ParamError.
Proof. solve_decision. Defined.

Definition ParamError_code (e : ParamError) : ErrorCode :=
  match e with
  | Negative _ => EC_Negative
  | DivisionByZero _ => EC_DivisionByZero
  | Overflow _ => EC_Overflow
  | Underflow _ => EC_Underflow
  | InvalidFloat => EC_InvalidFloat
  | InvalidFormat _ _ => EC_InvalidFormat
  | InvalidPrice => EC_InvalidPrice
  | InvalidLeverage => EC_InvalidLeverage
  | AssetEmpty => EC_AssetEmpty
  | AccountIdEmpty => EC_AccountIdEmpty
  | OtherError => EC_Other
  end.

(** ** The tuple structs *)

Record NonNeg {D : DecimalOps} (k : ParamKind) : Type := mkNonNeg { nn_to_decimal : Dec }.
Record Signed {D : DecimalOps} (k : ParamKind) : Type := mkSigned { sg_to_decimal : Dec }.
Arguments mkNonNeg {D k}.
Arguments nn_to_decimal {D k}.
Arguments mkSigned {D k}.
Arguments sg_to_decimal {D k}.

Section Constructors.
Context {D : DecimalOps}.

Definition decimal_from_f64 (value : f64) : result ParamError Dec :=
  if negb (f64_is_finite value) then Err InvalidFloat
  else ok_or (dec_try_from_f64 value) InvalidFloat.

Definition ensure_non_negative (value : Dec) (param : ParamKind) : result ParamError Dec :=
  if dec_ltb value dec_zero then Err (Negative param) else Ok value.
End Constructors.

(** ** [define_non_negative_value_type] *)
Section NonNegative.
Context {D : DecimalOps} {k : ParamKind}.
Implicit Types (self other : NonNeg k) (s : ustr).

Definition nn_ZERO : NonNeg k := mkNonNeg dec_zero.

Definition nn_new (value : Dec) : result ParamError (NonNeg k) :=
  mkNonNeg <$> ensure_non_negative value k.

Definition nn_from_f64 (value : f64) : result ParamError (NonNeg k) :=
  decimal ← decimal_from_f64 value; nn_new decimal.

Definition nn_from_str s : result ParamError (NonNeg k) :=
  decimal ← ok_or (dec_from_str_exact s) (InvalidFormat k s); nn_new decimal.

Definition nn_from_str_rounded s (scale : Z) (rounding : RoundingStrategy) :
    result ParamError (NonNeg k) :=
  decimal ← ok_or (dec_parse s) (InvalidFormat k s);
  nn_new (dec_round decimal scale (dec_rounding rounding)).

Definition nn_from_f64_rounded (value : f64) (scale : Z) (rounding : RoundingStrategy) :
    result ParamError (NonNeg k) :=
  decimal ← decimal_from_f64 value;
  nn_new (dec_round decimal scale (dec_rounding rounding)).

Definition nn_from_decimal_rounded (decimal : Dec) (scale : Z) (rounding : RoundingStrategy) :
    result ParamError (NonNeg k) :=
  nn_new (dec_round decimal scale (dec_rounding rounding)).

(** The derived [Deserialize] (feature serde) takes any decimal: it does not go through
    [new]. *)
Definition nn_deserialize (value : Dec) : NonNeg k := mkNonNeg value.

(** The debug assertion [value >= 0] is a property: [nn_reachable_wf] of [ParamTypes]. *)
Definition nn_new_unchecked (value : Dec) : NonNeg k := mkNonNeg value.

Definition nn_is_zero self : bool := dec_eqb (nn_to_decimal self) dec_zero.

Definition nn_checked_add self other : result ParamError (NonNeg k) :=
  ok_or (nn_new_unchecked <$> dec_add (nn_to_decimal self) (nn_to_decimal other)) (Overflow k).

Definition nn_checked_sub self other : result ParamError (NonNeg k) :=
  res ← ok_or (dec_sub (nn_to_decimal self) (nn_to_decimal other)) (Overflow k);
  map_err (fun _ => Underflow k) (nn_new res).

Definition nn_checked_mul_i64 self (scalar : Z) : result ParamError (NonNeg k) :=
  if scalar <? 0 then Err (Negative k)
  else ok_or (nn_new_unchecked <$> dec_mul (nn_to_decimal self) (dec_of_int scalar)) (Overflow k).

Definition nn_checked_mul_u64 self (scalar : Z) : result ParamError (NonNeg k) :=
  ok_or (nn_new_unchecked <$> dec_mul (nn_to_decimal self) (dec_of_int scalar)) (Overflow k).

Definition nn_checked_mul_f64 self (factor : f64) : result ParamError (NonNeg k) :=
  factor ← decimal_from_f64 factor;
  if dec_ltb factor dec_zero then Err (Negative k)
  else ok_or (nn_new_unchecked <$> dec_mul (nn_to_decimal self) factor) (Overflow k).

Definition nn_checked_div_i64 self (divisor : Z) : result ParamError (NonNeg k) :=
  if divisor =? 0 then Err (DivisionByZero k)
  else if divisor <? 0 then Err (Negative k)
  else ok_or (nn_new_unchecked <$> dec_div (nn_to_decimal self) (dec_of_int divisor)) (Overflow k).

Definition nn_checked_div_u64 self (divisor : Z) : result ParamError (NonNeg k) :=
  if divisor =? 0 then Err (DivisionByZero k)
  else ok_or (nn_new_unchecked <$> dec_div (nn_to_decimal self) (dec_of_int divisor)) (Overflow k).

Definition nn_checked_div_f64 self (divisor : f64) : result ParamError (NonNeg k) :=
  divisor ← decimal_from_f64 divisor;
  if dec_eqb divisor dec_zero then Err (DivisionByZero k)
  else if dec_ltb divisor dec_zero then Err (Negative k)
  else ok_or (nn_new_unchecked <$> dec_div (nn_to_decimal self) divisor) (Overflow k).

Definition nn_checked_rem_i64 self (divisor : Z) : result ParamError (NonNeg k) :=
  if divisor =? 0 then Err (DivisionByZero k)
  else if divisor <? 0 then Err (Negative k)
  else ok_or (nn_new_unchecked <$> dec_rem (nn_to_decimal self) (dec_of_int divisor)) (Overflow k).

Definition nn_checked_rem_u64 self (divisor : Z) : result ParamError (NonNeg k) :=
  if divisor =? 0 then Err (DivisionByZero k)
  else ok_or (nn_new_unchecked <$> dec_rem (nn_to_decimal self) (dec_of_int divisor)) (Overflow k).

Definition nn_checked_rem_f64 self (divisor : f64) : result ParamError (NonNeg k) :=
  divisor ← decimal_from_f64 divisor;
  if dec_eqb divisor dec_zero then Err (DivisionByZero k)
  else if dec_ltb divisor dec_zero then Err (Negative k)
  else ok_or (nn_new_unchecked <$> dec_rem (nn_to_decimal self) divisor) (Overflow k).

End NonNegative.

(** ** [define_signed_value_type] *)
Section SignedValue.
Context {D : DecimalOps} {k : ParamKind}.
Implicit Types (self other : Signed k) (s : ustr).

Definition sg_ZERO : Signed k := mkSigned dec_zero.

Definition sg_new (value : Dec) : Signed k := mkSigned value.

Definition sg_from_f64 (value : f64) : result ParamError (Signed k) :=
  decimal ← decimal_from_f64 value; Ok (sg_new decimal).

Definition sg_from_str s : result ParamError (Signed k) :=
  decimal ← ok_or (dec_from_str_exact s) (InvalidFormat k s); Ok (sg_new decimal).

Definition sg_from_str_rounded s (scale : Z) (rounding : RoundingStrategy) :
    result ParamError (Signed k) :=
  decimal ← ok_or (dec_parse s) (InvalidFormat k s);
  Ok (sg_new (dec_round decimal scale (dec_rounding rounding))).

Definition sg_from_f64_rounded (value : f64) (scale : Z) (rounding : RoundingStrategy) :
    result ParamError (Signed k) :=
  decimal ← decimal_from_f64 value;
  Ok (sg_new (dec_round decimal scale (dec_rounding rounding))).

Definition sg_from_decimal_rounded (decimal : Dec) (scale : Z) (rounding : RoundingStrategy) :
    result ParamError (Signed k) :=
  Ok (sg_new (dec_round decimal scale (dec_rounding rounding))).

Definition sg_is_zero self : bool := dec_eqb (sg_to_decimal self) dec_zero.

Definition sg_checked_add self other : result ParamError (Signed k) :=
  ok_or (mkSigned <$> dec_add (sg_to_decimal self) (sg_to_decimal other)) (Overflow k).

Definition sg_checked_sub self other : result ParamError (Signed k) :=
  ok_or (mkSigned <$> dec_sub (sg_to_decimal self) (sg_to_decimal other)) (Overflow k).

Definition sg_checked_neg self : result ParamError (Signed k) :=
  ok_or (mkSigned <$> dec_sub dec_zero (sg_to_decimal self)) (Overflow k).

Definition sg_checked_mul_i64 self (scalar : Z) : result ParamError (Signed k) :=
  ok_or (mkSigned <$> dec_mul (sg_to_decimal self) (dec_of_int scalar)) (Overflow k).

Definition sg_checked_mul_u64 self (scalar : Z) : result ParamError (Signed k) :=
  ok_or (mkSigned <$> dec_mul (sg_to_decimal self) (dec_of_int scalar)) (Overflow k).

Definition sg_checked_mul_f64 self (factor : f64) : result ParamError (Signed k) :=
  factor ← decimal_from_f64 factor;
  ok_or (mkSigned <$> dec_mul (sg_to_decimal self) factor) (Overflow k).

Definition sg_checked_div_i64 self (divisor : Z) : result ParamError (Signed k) :=
  if divisor =? 0 then Err (DivisionByZero k)
  else ok_or (mkSigned <$> dec_div (sg_to_decimal self) (dec_of_int divisor)) (Overflow k).

Definition sg_checked_div_u64 self (divisor : Z) : result ParamError (Signed k) :=
  if divisor =? 0 then Err (DivisionByZero k)
  else ok_or (mkSigned <$> dec_div (sg_to_decimal self) (dec_of_int divisor)) (Overflow k).

Definition sg_checked_div_f64 self (divisor : f64) : result ParamError (Signed k) :=
  divisor ← decimal_from_f64 divisor;
  if dec_eqb divisor dec_zero then Err (DivisionByZero k)
  else ok_or (mkSigned <$> dec_div (sg_to_decimal self) divisor) (Overflow k).

Definition sg_checked_rem_i64 self (divisor : Z) : result ParamError (Signed k) :=
  if divisor =? 0 then Err (DivisionByZero k)
  else ok_or (mkSigned <$> dec_rem (sg_to_decimal self) (dec_of_int divisor)) (Overflow k).

Definition sg_checked_rem_u64 self (divisor : Z) : result ParamError (Signed k) :=
  if divisor =? 0 then Err (DivisionByZero k)
  else ok_or (mkSigned <$> dec_rem (sg_to_decimal self) (dec_of_int divisor)) (Overflow k).

Definition sg_checked_rem_f64 self (divisor : f64) : result ParamError (Signed k) :=
  divisor ← decimal_from_f64 divisor;
  if dec_eqb divisor dec_zero then Err (DivisionByZero k)
  else ok_or (mkSigned <$> dec_rem (sg_to_decimal self) divisor) (Overflow k).

(** The derived comparisons of the tuple struct. *)
Definition sg_eqb self other : bool := dec_eqb (sg_to_decimal self) (sg_to_decimal other).
Definition sg_ltb self other : bool := dec_ltb (sg_to_decimal self) (sg_to_decimal other).
Definition sg_gtb self other : bool := dec_gtb (sg_to_decimal self) (sg_to_decimal other).
Definition sg_leb self other : bool := dec_leb (sg_to_decimal self) (sg_to_decimal other).
Definition sg_geb self other : bool := dec_geb (sg_to_decimal self) (sg_to_decimal other).

End SignedValue.

Definition nn_gtb {D : DecimalOps} {k} (a b : NonNeg k) : bool :=
  dec_gtb (nn_to_decimal a) (nn_to_decimal b).

Definition nn_fmt {D : DecimalOps} {F : DecimalFormat} {k} (v : NonNeg k) : string :=
  dec_fmt (nn_to_decimal v).
Definition sg_fmt {D : DecimalOps} {F : DecimalFormat} {k} (v : Signed k) : string :=
  dec_fmt (sg_to_decimal v).

Abbreviation Quantity := (NonNeg PK_Quantity).
Abbreviation Volume := (NonNeg PK_Volume).
Abbreviation Notional := (NonNeg PK_Notional).
Abbreviation Price := (Signed PK_Price).
Abbreviation Pnl := (Signed PK_Pnl).
Abbreviation CashFlow := (Signed PK_CashFlow).
Abbreviation PositionSize := (Signed PK_PositionSize).
Abbreviation Fee := (Signed PK_Fee).

(** ** Values and the non-negativity invariant *)

Definition nn_val {D : DecimalOps} {k} (v : NonNeg k) : Z := dec_val (nn_to_decimal v).
Definition sg_val {D : DecimalOps} {k} (v : Signed k) : Z := dec_val (sg_to_decimal v).
Definition nn_wf {D : DecimalOps} {k} (v : NonNeg k) : Prop := 0 <= nn_val v.

Section ParamFacts.
Context {D : DecimalOps} {L : DecimalLaws D} {k : ParamKind}.
Implicit Types (a b v : NonNeg k).

Lemma ensure_non_negative_spec d (p : ParamKind) :
  ensure_non_negative d p = if dec_val d <? 0 then Err (Negative p) else Ok d.
Proof. unfold ensure_non_negative. by rewrite dec_ltb_val, dec_zero_val. Qed.

Lemma ensure_non_negative_Ok d (p : ParamKind) x : ensure_non_negative d p = Ok x -> 0 <= dec_val x.
Proof.
  rewrite ensure_non_negative_spec. destruct (Z.ltb_spec (dec_val d) 0); [done|]. by intros [= <-].
Qed.

Lemma nn_new_Ok d v : nn_new d = Ok v <-> 0 <= dec_val d /\ v = mkNonNeg d.
Proof.
  unfold nn_new. rewrite ensure_non_negative_spec.
  destruct (Z.ltb_spec (dec_val d) 0); cbn; naive_solver lia.
Qed.

Lemma nn_new_wf d v : nn_new d = Ok v -> nn_wf v.
Proof. by intros [? ->]%nn_new_Ok. Qed.

Lemma nn_add_wf a b c : nn_wf a -> nn_wf b ->
  dec_add (nn_to_decimal a) (nn_to_decimal b) = Some c -> 0 <= dec_val c.
Proof. unfold nn_wf, nn_val. intros ? ? [H _]%dec_add_side. lia. Qed.

(** A product or quotient by a non-negative decimal keeps the sign. *)
Lemma nn_mul_wf a d c : nn_wf a -> 0 <= dec_val d ->
  dec_mul (nn_to_decimal a) d = Some c -> 0 <= dec_val c.
Proof. unfold nn_wf, nn_val. intros ? ? [H _]%dec_mul_side. nia. Qed.

Lemma nn_div_wf a d c : nn_wf a -> 0 <= dec_val d ->
  dec_div (nn_to_decimal a) d = Some c -> 0 <= dec_val c.
Proof. unfold nn_wf, nn_val. intros ? ? [H _]%dec_div_side. nia. Qed.

Lemma nn_rem_wf a d c : nn_wf a -> dec_rem (nn_to_decimal a) d = Some c -> 0 <= dec_val c.
Proof. unfold nn_wf, nn_val. intros ? [[H _] _]%dec_rem_side. lia. Qed.

Lemma dec_of_int_nonneg n : 0 <= n <= U64_MAX -> 0 <= dec_val (dec_of_int n).
Proof. intros H. rewrite dec_of_int_val by lia. unfold DEC_UNIT. lia. Qed.

Lemma dec_of_i64_nonneg n : 0 <= n -> I64_MIN <= n <= I64_MAX -> 0 <= dec_val (dec_of_int n).
Proof. intros ? H. apply dec_of_int_nonneg. unfold I64_MAX, U64_MAX in *. lia. Qed.

(** [checked_sub] of a non-negative type subtracts exactly when the minuend
    is large enough and reports [Underflow], never [Negative], otherwise. *)
Theorem nn_checked_sub_spec a b :
  representable (nn_val a - nn_val b) ->
  if nn_val a <? nn_val b then nn_checked_sub a b = Err (Underflow k)
  else exists c, nn_checked_sub a b = Ok c /\ nn_val c = nn_val a - nn_val b.
Proof.
  intros (c & Hc & Hv)%dec_sub_exact. unfold nn_checked_sub. rewrite Hc. cbn.
  unfold nn_new. rewrite ensure_non_negative_spec. unfold nn_val in *.
  destruct (Z.ltb_spec (dec_val (nn_to_decimal a)) (dec_val (nn_to_decimal b)));
    destruct (Z.ltb_spec (dec_val c) 0); try lia; cbn; eauto.
Qed.

(** The conservative strategies never overstate a parsed signed amount, and
    rounding up never understates it. *)
Theorem sg_from_str_rounded_conservative s n (v : Signed k) d :
  dec_parse s = Some d ->
  (sg_from_str_rounded s n CONSERVATIVE_PROFIT = Ok v -> sg_val v <= dec_val d) /\
  (sg_from_str_rounded s n CONSERVATIVE_LOSS = Ok v -> sg_val v <= dec_val d) /\
  (sg_from_str_rounded s n RoundUp = Ok v -> dec_val d <= sg_val v).
Proof.
  intros Hd. unfold sg_from_str_rounded. rewrite Hd. unfold sg_val. cbn.
  split_and!; intros [= <-]; [apply dec_round_down..|apply dec_round_up].
Qed.

(** Checked sums and differences of signed values, in units. *)
Lemma sg_add_val (a b : Signed k) : representable (sg_val a + sg_val b) ->
  exists c, sg_checked_add a b = Ok c /\ sg_val c = sg_val a + sg_val b.
Proof.
  intros (c & Hc & Hv)%dec_add_exact. exists (mkSigned c). split; [|done].
  unfold sg_checked_add. by rewrite Hc.
Qed.

Lemma sg_sub_val (a b : Signed k) : representable (sg_val a - sg_val b) ->
  exists c, sg_checked_sub a b = Ok c /\ sg_val c = sg_val a - sg_val b.
Proof.
  intros (c & Hc & Hv)%dec_sub_exact. exists (mkSigned c). split; [|done].
  unfold sg_checked_sub. by rewrite Hc.
Qed.

Lemma sg_add_Ok (a b c : Signed k) : representable (sg_val a + sg_val b) ->
  sg_checked_add a b = Ok c -> sg_val c = sg_val a + sg_val b.
Proof. intros (c' & Hc & Hv)%sg_add_val. congruence. Qed.

Lemma sg_sub_Ok (a b c : Signed k) : representable (sg_val a - sg_val b) ->
  sg_checked_sub a b = Ok c -> sg_val c = sg_val a - sg_val b.
Proof. intros (c' & Hc & Hv)%sg_sub_val. congruence. Qed.

Lemma sg_is_zero_val (a : Signed k) : sg_is_zero a = (sg_val a =? 0).
Proof. unfold sg_is_zero, sg_val. by rewrite dec_eqb_val, dec_zero_val. Qed.

Lemma sg_val_repr (a : Signed k) : representable (sg_val a).
Proof. apply dec_val_repr. Qed.

Lemma sg_ltb_val (a b : Signed k) : sg_ltb a b = (sg_val a <? sg_val b).
Proof. apply dec_ltb_val. Qed.

Lemma sg_gtb_val (a b : Signed k) : sg_gtb a b = (sg_val b <? sg_val a).
Proof. apply dec_gtb_val. Qed.

Lemma sg_leb_val (a b : Signed k) : sg_leb a b = (sg_val a <=? sg_val b).
Proof. apply dec_leb_val. Qed.

Lemma sg_geb_val (a b : Signed k) : sg_geb a b = (sg_val b <=? sg_val a).
Proof. apply dec_geb_val. Qed.

Lemma sg_eqb_val (a b : Signed k) : sg_eqb a b = (sg_val a =? sg_val b).
Proof. apply dec_eqb_val. Qed.

Lemma sg_ZERO_val : sg_val (sg_ZERO : Signed k) = 0.
Proof. apply dec_zero_val. Qed.

End ParamFacts.

#[export] Hint Rewrite @sg_is_zero_val @sg_ltb_val @sg_gtb_val @sg_leb_val @sg_geb_val
  @sg_eqb_val @sg_ZERO_val using (typeclasses eauto) : dec.
#[export] Hint Resolve sg_val_repr : decimal.

(** The guards of the macro bodies, opened. *)
Ltac open_guards :=
  repeat match goal with
  | H : (if ?b then _ else _) = Ok _ |- _ => destruct b eqn:?; [discriminate|]
  end;
  dec_norm; rewrite ?Z.eqb_neq, ?Z.ltb_ge in *.

Create HintDb nonneg.
#[export] Hint Resolve nn_new_wf nn_add_wf nn_mul_wf nn_div_wf nn_rem_wf
  dec_of_int_nonneg dec_of_i64_nonneg : nonneg.
