(* ===== verification/ParamTypes.v ===== *)
(** * ParamTypes: sides, conversions between value types, leverage

    src/crates/openpit/src/param/: side.rs, position_side.rs, position_effect.rs,
    position_mode.rs, fill_type.rs, price.rs, quantity.rs, volume.rs, notional.rs,
    pnl.rs, cash_flow.rs, fee.rs, position_size.rs, trade.rs, trade_amount.rs,
    adjustment_amount.rs and leverage.rs.  The values of the non-negative kinds that the
    interface can build, conversions and margins included, are characterised after
    them. *)
From S2P Require Import Prelude.
From S2P Require Import Decimal.
From S2P Require Import DecimalRef.
From S2P Require Import Param.
From Stdlib Require Import SpecFloat.
Open Scope Z_scope.

(** ** Enumerations *)

Inductive Side : Set := Buy | Sell.
Inductive PositionSide : Set := Long | Short.
Inductive PositionEffect : Set := Open | Close.
Inductive PositionMode : Set := Netting | Hedged.
Inductive FillType : Set := FillTrade | Liquidation | AutoDeleverage | Settlement | Funding.

#[export] Instance Side_eq_dec : EqDecision Side.
Proof. solve_decision. Defined.
#[export] Instance PositionSide_eq_dec : EqDecision PositionSide.
Proof. solve_decision. Defined.

Definition Side_fmt (s : Side) : string := match s with Buy => "BUY" | Sell => "SELL" end.
Definition is_buy (s : Side) : bool := match s with Buy => true | Sell => false end.
Definition is_sell (s : Side) : bool := match s with Buy => false | Sell => true end.
Definition opposite (s : Side) : Side := match s with Buy => Sell | Sell => Buy end.
Definition sign (s : Side) : Z := match s with Buy => 1 | Sell => -1 end.

Definition PositionSide_fmt (s : PositionSide) : string :=
  match s with Long => "LONG" | Short => "SHORT" end.
Definition is_long (s : PositionSide) : bool := match s with Long => true | Short => false end.
Definition is_short (s : PositionSide) : bool := match s with Long => false | Short => true end.
Definition position_side_opposite (s : PositionSide) : PositionSide :=
  match s with Long => Short | Short => Long end.

Definition PositionEffect_fmt (e : PositionEffect) : string :=
  match e with Open => "OPEN" | Close => "CLOSE" end.
Definition PositionMode_fmt (m : PositionMode) : string :=
  match m with Netting => "netting" | Hedged => "hedged" end.
Definition FillType_fmt (t : FillType) : string :=
  match t with
  | FillTrade => "TRADE"
  | Liquidation => "LIQUIDATION"
  | AutoDeleverage => "AUTO_DELEVERAGE"
  | Settlement => "SETTLEMENT"
  | Funding => "FUNDING"
  end.

(** ** Conversions between value types *)
Section Conversions.
Context {D : DecimalOps}.

(** [Trade]: a fill's price and quantity. *)
Record Trade : Type := mkTrade { trade_price : Price; trade_quantity : Quantity }.

(** [TradeAmount]: instrument units or settlement units. *)
Inductive TradeAmount : Type :=
| TA_Quantity (quantity : Quantity)
| TA_Volume (volume : Volume).

(** [AdjustmentAmount]: a signed change or a target value. *)
Inductive AdjustmentAmount : Type :=
| Delta (d : PositionSize)
| Absolute (v : PositionSize).

Definition price_calculate_position_size (self : Price) (quantity : Quantity) :
    result ParamError PositionSize :=
  sg_new <$> ok_or (dec_mul (sg_to_decimal self) (nn_to_decimal quantity)) (Overflow PK_Price).

Definition price_calculate_volume (self : Price) (quantity : Quantity) :
    result ParamError Volume :=
  volume_decimal ←
    ok_or (dec_mul (dec_abs (sg_to_decimal self)) (dec_abs (nn_to_decimal quantity)))
      (Overflow PK_Price);
  nn_new volume_decimal.

Definition quantity_calculate_volume (self : Quantity) (price : Price) :
    result ParamError Volume :=
  price_calculate_volume price self.

Definition quantity_to_position_size (self : Quantity) : PositionSize :=
  sg_new (nn_to_decimal self).

Definition volume_from_notional (notional : Notional) : Volume :=
  nn_new_unchecked (nn_to_decimal notional).
Definition volume_to_cash_flow_inflow (self : Volume) : CashFlow := sg_new (nn_to_decimal self).
Definition volume_to_cash_flow_outflow (self : Volume) : CashFlow :=
  sg_new (dec_neg (nn_to_decimal self)).
Definition volume_to_position_size (self : Volume) : PositionSize := sg_new (nn_to_decimal self).

Definition volume_calculate_quantity (self : Volume) (price : Price) :
    result ParamError Quantity :=
  if sg_is_zero price then Ok nn_ZERO
  else
    quantity_decimal ←
      ok_or (dec_div (nn_to_decimal self) (dec_abs (sg_to_decimal price))) (Overflow PK_Volume);
    map_err (fun _ => Underflow PK_Quantity) (nn_new quantity_decimal).

Definition notional_from_price_quantity (price : Price) (quantity : Quantity) :
    result ParamError Notional :=
  notional ←
    ok_or (dec_mul (dec_abs (sg_to_decimal price)) (nn_to_decimal quantity)) (Overflow PK_Price);
  Ok (nn_new_unchecked notional).

Definition notional_from_volume (volume : Volume) : Notional :=
  nn_new_unchecked (nn_to_decimal volume).
Definition notional_to_volume (self : Notional) : Volume :=
  nn_new_unchecked (nn_to_decimal self).

Definition pnl_to_position_size (self : Pnl) : PositionSize := sg_new (sg_to_decimal self).
Definition pnl_from_fee (fee : Fee) : Pnl := sg_new (dec_neg (sg_to_decimal fee)).

Definition cash_flow_from_pnl (pnl : Pnl) : CashFlow := sg_new (sg_to_decimal pnl).
Definition cash_flow_from_fee (fee : Fee) : CashFlow := sg_new (dec_neg (sg_to_decimal fee)).
Definition cash_flow_from_volume_inflow (volume : Volume) : CashFlow :=
  sg_new (nn_to_decimal volume).
Definition cash_flow_from_volume_outflow (volume : Volume) : CashFlow :=
  sg_new (dec_neg (nn_to_decimal volume)).

Definition pnl_to_cash_flow (self : Pnl) : CashFlow := cash_flow_from_pnl self.

Definition fee_to_pnl (self : Fee) : Pnl := sg_new (dec_neg (sg_to_decimal self)).
Definition fee_to_position_size (self : Fee) : PositionSize :=
  sg_new (dec_neg (sg_to_decimal self)).
Definition fee_to_cash_flow (self : Fee) : CashFlow := cash_flow_from_fee self.

Definition from_quantity_and_side (quantity : Quantity) (side : Side) : PositionSize :=
  let value :=
    match side with
    | Buy => nn_to_decimal quantity
    | Sell => dec_neg (nn_to_decimal quantity)
    end in
  sg_new value.

Definition position_size_from_pnl (pnl : Pnl) : PositionSize := sg_new (sg_to_decimal pnl).
Definition position_size_from_fee (fee : Fee) : PositionSize :=
  sg_new (dec_neg (sg_to_decimal fee)).

Definition to_open_quantity (self : PositionSize) : Quantity * Side :=
  if sg_eqb self sg_ZERO then (nn_ZERO, Buy)
  else
    let side := if sg_gtb self sg_ZERO then Buy else Sell in
    (nn_new_unchecked (dec_abs (sg_to_decimal self)), side).

Definition to_close_quantity (self : PositionSize) : Quantity * option Side :=
  if sg_eqb self sg_ZERO then (nn_ZERO, None)
  else
    let side := if sg_ltb self sg_ZERO then Buy else Sell in
    (nn_new_unchecked (dec_abs (sg_to_decimal self)), Some side).

Definition checked_add_quantity (self : PositionSize) (qty : Quantity) (side : Side) :
    result ParamError PositionSize :=
  let delta :=
    match side with
    | Buy => nn_to_decimal qty
    | Sell => dec_neg (nn_to_decimal qty)
    end in
  sum ← ok_or (dec_add (sg_to_decimal self) delta) (Overflow PK_PositionSize);
  Ok (sg_new sum).

(** [impl Neg for PositionSize]. *)
Definition position_size_neg (self : PositionSize) : PositionSize :=
  sg_new (dec_neg (sg_to_decimal self)).

End Conversions.
Arguments Trade {D}.
Arguments TradeAmount {D}.
Arguments AdjustmentAmount {D}.

(** ** Leverage *)

Record Leverage : Set := mkLeverage { leverage_raw : Z }.

#[export] Instance Leverage_eq_dec : EqDecision Leverage.
Proof. solve_decision. Defined.

Definition LEVERAGE_SCALE : Z := 10.
Definition LEVERAGE_MIN : Z := 1.
Definition LEVERAGE_MAX : Z := 3000.
Definition LEVERAGE_MIN_RAW : Z := LEVERAGE_MIN * LEVERAGE_SCALE.
Definition LEVERAGE_MAX_RAW : Z := LEVERAGE_MAX * LEVERAGE_SCALE.

Definition leverage_from_raw (raw : Z) : result ParamError Leverage :=
  if negb ((LEVERAGE_MIN_RAW <=? raw) && (raw <=? LEVERAGE_MAX_RAW)) then Err InvalidLeverage
  else Ok (mkLeverage raw).

(** [u16::checked_mul]. *)
Definition u16_checked_mul (a b : Z) : option Z :=
  if a * b <=? U16_MAX then Some (a * b) else None.

Definition leverage_from_u16 (multiplier : Z) : result ParamError Leverage :=
  raw ← ok_or (u16_checked_mul multiplier LEVERAGE_SCALE) (Overflow PK_Leverage);
  leverage_from_raw raw.

(** The standard library's [f64] operations used by [from_f64]: products and
    differences round to nearest even, [round] goes half away from zero, and
    [as i64] saturates. *)
Definition f64_mul : f64 -> f64 -> f64 := SFmul 53 1024.
Definition f64_sub : f64 -> f64 -> f64 := SFsub 53 1024.
Definition f64_of_int (z : Z) : f64 := binary_normalize 53 1024 z 0 false.
Definition f64_abs : f64 -> f64 := SFabs.
Definition f64_gt (a b : f64) : bool := SFltb b a.

(** The integer nearest to [m * 2^e], halves away from zero. *)
Definition round_half_away (m : Z) (e : Z) : Z :=
  if 0 <=? e then m * 2 ^ e
  else Z.sgn m * ((2 * Z.abs m + 2 ^ (- e)) / (2 * 2 ^ (- e))).

Definition f64_round (x : f64) : f64 :=
  match x with
  | S754_finite s m e =>
      let z := round_half_away (if s then Z.neg m else Z.pos m) e in
      if z =? 0 then S754_zero s else f64_of_int z
  | _ => x
  end.

(** [x as i64]: truncation, saturating, NaN to 0. *)
Definition f64_as_i64 (x : f64) : Z :=
  match x with
  | S754_finite s m e =>
      let v := if s then Z.neg m else Z.pos m in
      let t := if 0 <=? e then v * 2 ^ e else Z.quot v (2 ^ (- e)) in
      Z.max I64_MIN (Z.min I64_MAX t)
  | S754_infinity true => I64_MIN
  | S754_infinity false => I64_MAX
  | S754_zero _ | S754_nan => 0
  end.

(** The literal [1e-9]. *)
Definition F64_1E_9 : f64 := S754_finite false 4835703278458517 (-82).

(** [x as u16] from an [i64] keeps the low 16 bits. *)
Definition i64_as_u16 (z : Z) : Z := z mod 2 ^ 16.

Definition leverage_from_f64 (multiplier : f64) : result ParamError Leverage :=
  if negb (f64_is_finite multiplier) then Err InvalidLeverage
  else
    let scaled := f64_mul multiplier (f64_of_int LEVERAGE_SCALE) in
    let rounded := f64_round scaled in
    if f64_gt (f64_abs (f64_sub scaled rounded)) F64_1E_9 then Err InvalidLeverage
    else
      let raw_i64 := f64_as_i64 rounded in
      if (raw_i64 <? LEVERAGE_MIN_RAW) || (LEVERAGE_MAX_RAW <? raw_i64) then Err InvalidLeverage
      else leverage_from_raw (i64_as_u16 raw_i64).

(** [value]: the [f32] quotient of two exactly converted integers. *)
Definition leverage_value (self : Leverage) : spec_float :=
  SFdiv 24 128 (binary_normalize 24 128 (leverage_raw self) 0 false)
    (binary_normalize 24 128 LEVERAGE_SCALE 0 false).

Definition leverage_calculate_margin_required {D : DecimalOps} (self : Leverage)
    (notional : Notional) : result ParamError Notional :=
  let raw := dec_of_int (leverage_raw self) in
  let scale := dec_of_int LEVERAGE_SCALE in
  numerator ← ok_or (dec_mul (nn_to_decimal notional) scale) (Overflow PK_Notional);
  margin ← ok_or (dec_div numerator raw) (Overflow PK_Notional);
  Ok (nn_new_unchecked margin).

Definition notional_calculate_margin_required {D : DecimalOps} (self : Notional)
    (leverage : Leverage) : result ParamError Notional :=
  leverage_calculate_margin_required leverage self.

(** ** Properties *)
Section ConversionFacts.
Context {D : DecimalOps} {L : DecimalLaws D}.

Lemma from_quantity_and_side_val q s :
  sg_val (from_quantity_and_side q s) = sign s * nn_val q.
Proof.
  unfold from_quantity_and_side, sg_val, nn_val.
  destruct s; cbn [sg_new sg_to_decimal sign]; dec_norm; lia.
Qed.

Lemma checked_add_quantity_val p q s : representable (sg_val p + sign s * nn_val q) ->
  exists r, checked_add_quantity p q s = Ok r /\ sg_val r = sg_val p + sign s * nn_val q.
Proof.
  intros HR. unfold checked_add_quantity.
  destruct (dec_add_exact (sg_to_decimal p) (sg_to_decimal (from_quantity_and_side q s)))
    as (c & Hc & Hv).
  { pose proof (from_quantity_and_side_val q s) as E. unfold sg_val in *. by rewrite E. }
  exists (sg_new c). split.
  - destruct s; cbn in *; by rewrite Hc.
  - pose proof (from_quantity_and_side_val q s) as E. unfold sg_val in *. cbn. lia.
Qed.

(** [to_open_quantity] and [from_quantity_and_side] round-trip, and trading
    the result of [to_close_quantity] flattens the position exactly; both
    quantities are non-negative. *)
Theorem position_open_close (p : PositionSize) :
  (let '(q, s) := to_open_quantity p in
   nn_wf q /\ sg_val (from_quantity_and_side q s) = sg_val p) /\
  (let '(q, os) := to_close_quantity p in
   nn_wf q /\
   match os with
   | None => sg_val p = 0 /\ nn_val q = 0
   | Some s => exists r, checked_add_quantity p q s = Ok r /\ sg_val r = 0
   end).
Proof.
  unfold to_open_quantity, to_close_quantity. dec_norm.
  destruct (Z.eqb_spec (sg_val p) 0) as [Hz|Hz].
  { rewrite from_quantity_and_side_val. unfold nn_wf, nn_val.
    cbn [nn_ZERO nn_to_decimal sign]. rewrite Z.mul_1_l. dec_norm. split_and!; lia. }
  assert (Habs : nn_val (nn_new_unchecked (dec_abs (sg_to_decimal p)) : Quantity) =
    Z.abs (sg_val p)) by (unfold nn_val, sg_val; cbn; by dec_norm).
  rewrite from_quantity_and_side_val. unfold nn_wf. rewrite Habs.
  split; [split; [lia|]|split; [lia|]].
  - destruct (Z.ltb_spec 0 (sg_val p)); cbn; lia.
  - set (s := if sg_val p <? 0 then Buy else Sell).
    assert (sg_val p + sign s * Z.abs (sg_val p) = 0)
      by (subst s; destruct (Z.ltb_spec (sg_val p) 0); cbn; lia).
    rewrite <- Habs in H.
    destruct (checked_add_quantity_val p (nn_new_unchecked (dec_abs (sg_to_decimal p))) s)
      as (r & Hr & Hv); rewrite H in *; [apply representable_0|by exists r].
Qed.

(** The volume of a price and a quantity is [|price| * quantity], exactly
    whenever that product is representable; it is never negative, the only error
    is [Overflow] of the price, and the position notional agrees with it. *)
Theorem price_calculate_volume_spec (p : Price) (q : Quantity) :
  nn_wf q ->
  (forall e, price_calculate_volume p q = Err e -> e = Overflow PK_Price) /\
  (forall v, price_calculate_volume p q = Ok v -> nn_wf v) /\
  (forall z, representable z -> Z.abs (sg_val p) * nn_val q = z * DEC_UNIT ->
     (exists v, price_calculate_volume p q = Ok v /\ nn_val v = z) /\
     (exists n, notional_from_price_quantity p q = Ok n /\ nn_val n = z)).
Proof.
  unfold nn_wf, nn_val, sg_val. intros Hq. unfold price_calculate_volume, nn_new.
  split_and!.
  - intros e. destruct (dec_mul _ _) as [c|] eqn:Hc; cbn; [|naive_solver].
    apply dec_mul_side in Hc as [Hc _]. dec_norm. rewrite ensure_non_negative_spec.
    destruct (Z.ltb_spec (dec_val c) 0); [nia|done].
  - intros v H. inv_ok H. by eapply ensure_non_negative_Ok.
  - intros z Hz HE. split.
    + destruct (dec_mul_exact (dec_abs (sg_to_decimal p)) (dec_abs (nn_to_decimal q)) z)
        as (c & Hc & Hv); [done|dec_norm; lia|].
      rewrite Hc. cbn. rewrite ensure_non_negative_spec.
      destruct (Z.ltb_spec (dec_val c) 0); [unfold DEC_UNIT in *; nia|]. by eexists.
    + destruct (dec_mul_exact (dec_abs (sg_to_decimal p)) (nn_to_decimal q) z)
        as (c & Hc & Hv); [done|dec_norm; lia|].
      unfold notional_from_price_quantity. rewrite Hc. by eexists.
Qed.

(** The invariant of the leverage field. *)
Definition leverage_wf (l : Leverage) : Prop :=
  LEVERAGE_MIN_RAW <= leverage_raw l <= LEVERAGE_MAX_RAW.

Lemma leverage_from_raw_wf raw l : leverage_from_raw raw = Ok l -> leverage_wf l.
Proof.
  unfold leverage_from_raw, leverage_wf.
  destruct (Z.leb_spec LEVERAGE_MIN_RAW raw), (Z.leb_spec raw LEVERAGE_MAX_RAW); try done.
  by intros [= <-].
Qed.

(** The margin for a notional at a leverage is [notional * 10 / raw]: exact
    whenever both steps are representable, never negative, and division by zero
    cannot occur, so the only error is [Overflow] of the notional. *)
Theorem margin_required_spec (l : Leverage) (n : Notional) :
  leverage_wf l -> nn_wf n ->
  (forall m, leverage_calculate_margin_required l n = Ok m -> nn_wf m) /\
  (forall e, leverage_calculate_margin_required l n = Err e -> e = Overflow PK_Notional) /\
  (forall z, representable (nn_val n * 10) -> representable z ->
     nn_val n * 10 = z * leverage_raw l ->
     exists m, leverage_calculate_margin_required l n = Ok m /\ nn_val m = z).
Proof.
  unfold leverage_wf, nn_wf, nn_val, LEVERAGE_MIN_RAW, LEVERAGE_MAX_RAW, LEVERAGE_MIN,
    LEVERAGE_MAX, LEVERAGE_SCALE. cbn -[dec_val]. intros Hl Hn.
  assert (Hraw : dec_val (dec_of_int (leverage_raw l)) = leverage_raw l * DEC_UNIT)
    by (apply dec_of_int_val; unfold U64_MAX; lia).
  assert (Hten : dec_val (dec_of_int 10) = 10 * DEC_UNIT)
    by (apply dec_of_int_val; unfold U64_MAX; lia).
  assert (HU : 0 < DEC_UNIT) by (unfold DEC_UNIT; lia).
  unfold leverage_calculate_margin_required, LEVERAGE_SCALE. split_and!.
  - intros m H. inv_ok H. apply dec_mul_side in Hx as [Hx _]. apply dec_div_side in Hx0 as [Hx0 _].
    cbn. rewrite Hten in Hx. rewrite Hraw in Hx0. apply Hx0, Z.mul_nonneg_nonneg; [apply Hx|]; lia.
  - intros e. destruct (dec_mul _ _) as [c|]; cbn; [|naive_solver].
    destruct (dec_div _ _); cbn; naive_solver.
  - intros z HR Hz HE.
    destruct (dec_mul_exact (nn_to_decimal n) (dec_of_int 10) (dec_val (nn_to_decimal n) * 10))
      as (c & Hc & Hcv); [done|rewrite Hten; lia|].
    destruct (dec_div_exact c (dec_of_int (leverage_raw l)) z) as (m & Hm & Hmv);
      [nia|done|rewrite Hcv, Hraw, HE; lia|].
    rewrite Hc. cbn. rewrite Hm. cbn. by eexists.
Qed.
End ConversionFacts.

(** ** Everything the API can build *)

(** The values of the non-negative types a program can come by: the constructors and the
    arithmetic of each type and the conversions between the types, closed under each
    other, and what the derived deserializer made of the decimals it was handed.
    Scalars range over their Rust types. *)
Inductive nn_reachable {D : DecimalOps} (deserialized : ParamKind -> Dec -> Prop) :
    forall {k : ParamKind}, NonNeg k -> Prop :=
| nnr_deserialized k d : deserialized k d -> nn_reachable deserialized (nn_deserialize (k:=k) d)
| nnr_zero k : nn_reachable deserialized (nn_ZERO (k:=k))
| nnr_new k d (v : NonNeg k) : nn_new d = Ok v -> nn_reachable deserialized v
| nnr_from_f64 k x (v : NonNeg k) : nn_from_f64 x = Ok v -> nn_reachable deserialized v
| nnr_from_str k s (v : NonNeg k) : nn_from_str s = Ok v -> nn_reachable deserialized v
| nnr_from_str_rounded k s n r (v : NonNeg k) : nn_from_str_rounded s n r = Ok v -> nn_reachable deserialized v
| nnr_from_f64_rounded k x n r (v : NonNeg k) : nn_from_f64_rounded x n r = Ok v -> nn_reachable deserialized v
| nnr_from_decimal_rounded k d n r (v : NonNeg k) :
    nn_from_decimal_rounded d n r = Ok v -> nn_reachable deserialized v
| nnr_add k (a b v : NonNeg k) : nn_reachable deserialized a -> nn_reachable deserialized b ->
    nn_checked_add a b = Ok v -> nn_reachable deserialized v
| nnr_sub k (a b v : NonNeg k) : nn_reachable deserialized a -> nn_reachable deserialized b ->
    nn_checked_sub a b = Ok v -> nn_reachable deserialized v
| nnr_mul_i64 k (a v : NonNeg k) n : nn_reachable deserialized a -> I64_MIN <= n <= I64_MAX ->
    nn_checked_mul_i64 a n = Ok v -> nn_reachable deserialized v
| nnr_mul_u64 k (a v : NonNeg k) n : nn_reachable deserialized a -> 0 <= n <= U64_MAX ->
    nn_checked_mul_u64 a n = Ok v -> nn_reachable deserialized v
| nnr_mul_f64 k (a v : NonNeg k) x : nn_reachable deserialized a ->
    nn_checked_mul_f64 a x = Ok v -> nn_reachable deserialized v
| nnr_div_i64 k (a v : NonNeg k) n : nn_reachable deserialized a -> I64_MIN <= n <= I64_MAX ->
    nn_checked_div_i64 a n = Ok v -> nn_reachable deserialized v
| nnr_div_u64 k (a v : NonNeg k) n : nn_reachable deserialized a -> 0 <= n <= U64_MAX ->
    nn_checked_div_u64 a n = Ok v -> nn_reachable deserialized v
| nnr_div_f64 k (a v : NonNeg k) x : nn_reachable deserialized a ->
    nn_checked_div_f64 a x = Ok v -> nn_reachable deserialized v
| nnr_rem_i64 k (a v : NonNeg k) n : nn_reachable deserialized a -> I64_MIN <= n <= I64_MAX ->
    nn_checked_rem_i64 a n = Ok v -> nn_reachable deserialized v
| nnr_rem_u64 k (a v : NonNeg k) n : nn_reachable deserialized a -> 0 <= n <= U64_MAX ->
    nn_checked_rem_u64 a n = Ok v -> nn_reachable deserialized v
| nnr_rem_f64 k (a v : NonNeg k) x : nn_reachable deserialized a ->
    nn_checked_rem_f64 a x = Ok v -> nn_reachable deserialized v
| nnr_price_volume p q v : nn_reachable deserialized q -> price_calculate_volume p q = Ok v -> nn_reachable deserialized v
| nnr_quantity_volume q p v : nn_reachable deserialized q -> quantity_calculate_volume q p = Ok v ->
    nn_reachable deserialized v
| nnr_volume_quantity v p q : nn_reachable deserialized v -> volume_calculate_quantity v p = Ok q ->
    nn_reachable deserialized q
| nnr_volume_from_notional n : nn_reachable deserialized n -> nn_reachable deserialized (volume_from_notional n)
| nnr_notional_from_volume v : nn_reachable deserialized v -> nn_reachable deserialized (notional_from_volume v)
| nnr_notional_to_volume n : nn_reachable deserialized n -> nn_reachable deserialized (notional_to_volume n)
| nnr_notional p q n : nn_reachable deserialized q -> notional_from_price_quantity p q = Ok n ->
    nn_reachable deserialized n
| nnr_open_quantity p : nn_reachable deserialized (to_open_quantity p).1
| nnr_close_quantity p : nn_reachable deserialized (to_close_quantity p).1
| nnr_leverage_margin l n m : 0 <= leverage_raw l <= U16_MAX -> nn_reachable deserialized n ->
    leverage_calculate_margin_required l n = Ok m -> nn_reachable deserialized m
| nnr_notional_margin l n m : 0 <= leverage_raw l <= U16_MAX -> nn_reachable deserialized n ->
    notional_calculate_margin_required n l = Ok m -> nn_reachable deserialized m.

Section Reachable.
Context {D : DecimalOps} {L : DecimalLaws D}.

(** The conversions between kinds keep the sign: products and quotients by absolute
    values, and the margin. *)
Lemma abs_price_wf (p : Price) : 0 <= dec_val (dec_abs (sg_to_decimal p)).
Proof. dec_norm. lia. Qed.

Lemma notional_from_price_quantity_wf p (q : Quantity) n :
  nn_wf q -> notional_from_price_quantity p q = Ok n -> nn_wf n.
Proof.
  unfold notional_from_price_quantity, nn_wf, nn_val. intros Hq H. inv_ok H. apply dec_mul_side in Hx as [Hx _].
  cbn. pose proof (abs_price_wf p). nia.
Qed.

Lemma volume_calculate_quantity_wf (v : Volume) p q : volume_calculate_quantity v p = Ok q -> nn_wf q.
Proof.
  unfold volume_calculate_quantity. destruct (sg_is_zero p).
  - intros [= <-]. unfold nn_wf, nn_val. cbn. dec_norm. lia.
  - intros H. inv_ok H. unfold nn_wf, nn_val. cbn. by eapply ensure_non_negative_Ok.
Qed.

Lemma margin_required_wf l (n m : Notional) :
  0 <= leverage_raw l <= U16_MAX -> nn_wf n -> leverage_calculate_margin_required l n = Ok m -> nn_wf m.
Proof.
  unfold leverage_calculate_margin_required, nn_wf, nn_val, LEVERAGE_SCALE. intros Hl Hn H. inv_ok H.
  apply dec_mul_side in Hx as [Hx _]. apply dec_div_side in Hx0 as [Hx0 _]. cbn.
  rewrite dec_of_int_val in Hx by (unfold U64_MAX; lia).
  rewrite dec_of_int_val in Hx0 by (unfold U16_MAX, U64_MAX in *; lia).
  assert (0 < DEC_UNIT) by done. apply Hx0, Z.mul_nonneg_nonneg; [apply Hx|]; nia.
Qed.

(** C40: every value of a non-negative type is non-negative, whatever constructors,
    arithmetic and conversions between the types made it and in whatever order, exactly
    when the derived deserializer was handed no negative decimal; the debug assertion of
    [new_unchecked] fires in no other case.  Without the feature serde nothing is
    deserialized, and the types keep their promise unconditionally. *)
Theorem nn_reachable_wf (deserialized : ParamKind -> Dec -> Prop) :
  (forall k (v : NonNeg k), nn_reachable deserialized v -> nn_wf v) <->
  (forall k d, deserialized k d -> 0 <= dec_val d).
Proof.
  split; [intros H k d Hd; exact (H k _ (nnr_deserialized _ k d Hd))|]. intros Hd k v Hv.
  induction Hv; unfold nn_from_f64, nn_from_str, nn_from_str_rounded, nn_from_f64_rounded,
    nn_from_decimal_rounded, nn_checked_sub, nn_checked_mul_i64, nn_checked_mul_u64,
    nn_checked_mul_f64, nn_checked_div_i64, nn_checked_div_u64, nn_checked_div_f64,
    nn_checked_rem_i64, nn_checked_rem_u64, nn_checked_rem_f64 in *;
  try (match goal with H : price_calculate_volume _ _ = Ok _ |- _ => by eapply price_calculate_volume_spec in H end);
  try (match goal with H : quantity_calculate_volume _ _ = Ok _ |- _ => by eapply price_calculate_volume_spec in H end);
  eauto using notional_from_price_quantity_wf, volume_calculate_quantity_wf, margin_required_wf;
  try (by destruct (position_open_close p) as [Ho Hc]; destruct (to_open_quantity p), (to_close_quantity p); apply Ho || apply Hc);
  try match goal with H : _ = Ok _ |- _ => inv_ok H end; open_guards;
  try match goal with H : ok_or _ _ = Ok _ |- _ => inv_ok H end;
  unfold nn_wf, nn_val; cbn; dec_norm; eauto with nonneg.
  all: first [done | by eapply ensure_non_negative_Ok].
Qed.

(** Deserializing does break the promise: minus one is taken as a quantity that [new]
    refuses. *)
Example deserialized_negative_quantity :
  let d := dec_neg (dec_of_int 1) in
  ~ nn_wf (nn_deserialize (k:=PK_Quantity) d) /\ nn_new (k:=PK_Quantity) d = Err (Negative PK_Quantity).
Proof.
  cbv zeta. unfold nn_new, nn_wf, nn_val. cbn. rewrite ensure_non_negative_spec, dec_neg_val, dec_of_int_val by (unfold U64_MAX; lia).
  split; [unfold DEC_UNIT; lia|done].
Qed.

End Reachable.

Lemma i64_as_u16_small z : 0 <= z <= U16_MAX -> i64_as_u16 z = z.
Proof. intros H. apply Z.mod_small. unfold U16_MAX in H. lia. Qed.

(** Whatever the constructor and its input, floats included, an accepted
    leverage lies between 1.0x and 3000.0x. *)
Theorem leverage_constructors_wf :
  (forall raw l, leverage_from_raw raw = Ok l -> leverage_wf l) /\
  (forall m l, leverage_from_u16 m = Ok l -> leverage_wf l /\ leverage_raw l = m * 10) /\
  (forall x l, leverage_from_f64 x = Ok l ->
     leverage_wf l /\
     leverage_raw l = f64_as_i64 (f64_round (f64_mul x (f64_of_int LEVERAGE_SCALE)))).
Proof.
  split; [exact leverage_from_raw_wf|split].
  - unfold leverage_from_u16, u16_checked_mul. intros m l H. inv_ok H.
    destruct (_ <=? _) in Hx; simplify_eq. split; [by eapply leverage_from_raw_wf|].
    unfold leverage_from_raw in H. destruct (negb _); [done|]. by injection H as <-.
  - intros x l. unfold leverage_from_f64. destruct (negb _); [done|]. cbv zeta.
    destruct (f64_gt _ _); [done|]. set (r := f64_as_i64 _).
    destruct (Z.ltb_spec r LEVERAGE_MIN_RAW), (Z.ltb_spec LEVERAGE_MAX_RAW r); try done; cbn.
    rewrite i64_as_u16_small by (unfold LEVERAGE_MIN_RAW, LEVERAGE_MAX_RAW, LEVERAGE_MIN, LEVERAGE_MAX,
      LEVERAGE_SCALE, U16_MAX in *; lia).
    intros H'. split; [by eapply leverage_from_raw_wf|].
    unfold leverage_from_raw in H'. destruct (negb _); [done|]. by injection H' as <-.
Qed.

(** The f64 nearest to [raw / 10]. *)
Definition f64_of_tenths (raw : Z) : f64 := SFdiv 53 1024 (f64_of_int raw) (f64_of_int 10).

(** The values of the constructor's documentation, and two refusals: 0.9x is
    below the minimum, 1.05x is off the 0.1 grid. *)
Example leverage_from_f64_examples :
  leverage_from_f64 (f64_of_tenths 1005) = Ok (mkLeverage 1005) /\
  leverage_from_f64 (f64_of_tenths 11) = Ok (mkLeverage 11) /\
  leverage_from_f64 (f64_of_tenths 30000) = Ok (mkLeverage 30000) /\
  leverage_from_f64 (f64_of_tenths 9) = Err InvalidLeverage /\
  leverage_from_f64 (SFdiv 53 1024 (f64_of_int 105) (f64_of_int 100)) = Err InvalidLeverage /\
  leverage_from_f64 S754_nan = Err InvalidLeverage.
Proof. vm_compute. repeat split. Qed.
