(* ===== verification/Identifiers.v ===== *)
(** * Identifiers: accounts, account groups and assets

    src/crates/openpit/src/param/account_id.rs, account_group_id.rs, asset.rs and
    monetary_amount.rs.  A [str] is its list of Unicode scalar values; [bytes]
    yields its UTF-8 encoding, which the FNV-1a hashes consume. *)
From S2P Require Import Prelude.
From S2P Require Import Decimal.
From S2P Require Import Param.
Open Scope Z_scope.

(** ** The standard library's view of a [str] *)

(** [char::is_whitespace]: the Unicode White_Space property. *)
Definition is_white_space (c : Z) : bool :=
  ((9 <=? c) && (c <=? 13)) || (c =? 32) || (c =? 133) || (c =? 160) || (c =? 5760) ||
  ((8192 <=? c) && (c <=? 8202)) || (c =? 8232) || (c =? 8233) || (c =? 8239) ||
  (c =? 8287) || (c =? 12288).

(** [s.trim().is_empty()]: trimming leaves nothing exactly when every character
    is white space. *)
Definition trim_is_empty (s : ustr) : bool := forallb is_white_space s.

(** The UTF-8 bytes of one scalar value. *)
Definition utf8_char (c : Z) : list Z :=
  if c <? 128 then [c]
  else if c <? 2048 then [192 + c / 64; 128 + c mod 64]
  else if c <? 65536 then [224 + c / 4096; 128 + c / 64 mod 64; 128 + c mod 64]
  else [240 + c / 262144; 128 + c / 4096 mod 64; 128 + c / 64 mod 64; 128 + c mod 64].

Definition str_bytes (s : ustr) : list Z := s ≫= utf8_char.

(** A scalar value is a code point outside the surrogate range. *)
Definition is_scalar (c : Z) : bool :=
  (0 <=? c) && (c <=? 1114111) && negb ((55296 <=? c) && (c <=? 57343)).

(** ** FNV-1a *)

(** [hash ^= byte; hash = hash.wrapping_mul(PRIME)] on [w]-bit words. *)
Definition fnv1a_step (w prime : Z) (hash byte : Z) : Z :=
  Z.lxor hash byte * prime mod 2 ^ w.

Definition fnv1a_64 (s : ustr) : Z :=
  foldl (fnv1a_step 64 1099511628211) 14695981039346656037 (str_bytes s).

Definition fnv1a_32 (s : ustr) : Z :=
  foldl (fnv1a_step 32 16777619) 2166136261 (str_bytes s).

(** ** [AccountId] *)

Record AccountId : Set := mkAccountId { account_as_u64 : Z }.

Inductive AccountIdError : Set := AccountIdError_Empty.

Definition account_from_u64 (value : Z) : AccountId := mkAccountId value.

Definition account_from_str (value : ustr) : result AccountIdError AccountId :=
  if trim_is_empty value then Err AccountIdError_Empty
  else Ok (mkAccountId (fnv1a_64 value)).

Definition AccountIdError_into (e : AccountIdError) : ParamError :=
  match e with AccountIdError_Empty => AccountIdEmpty end.

(** ** [AccountGroupId] *)

Record AccountGroupId : Set := mkAccountGroupId { group_as_u32 : Z }.

Definition DEFAULT_ACCOUNT_GROUP : AccountGroupId := mkAccountGroupId 0.

Inductive AccountGroupIdError : Set := GroupEmpty | GroupReserved.

Definition group_from_u32 (value : Z) : result AccountGroupIdError AccountGroupId :=
  if value =? group_as_u32 DEFAULT_ACCOUNT_GROUP then Err GroupReserved
  else Ok (mkAccountGroupId value).

Definition non_default_hash (hash : Z) : Z :=
  if hash =? group_as_u32 DEFAULT_ACCOUNT_GROUP then 1 else hash.

Definition group_from_str (value : ustr) : result AccountGroupIdError AccountGroupId :=
  if trim_is_empty value then Err GroupEmpty
  else Ok (mkAccountGroupId (non_default_hash (fnv1a_32 value))).

(** ** [Asset] *)

Record Asset : Type := mkAsset { asset_str : ustr }.

Inductive AssetError : Set := AssetError_Empty.

Definition AssetError_into (e : AssetError) : ParamError :=
  match e with AssetError_Empty => AssetEmpty end.

Definition asset_new (value : ustr) : result AssetError Asset :=
  if trim_is_empty value then Err AssetError_Empty else Ok (mkAsset value).

(** [MonetaryAmount]: a signed amount with its currency. *)
Record MonetaryAmount {D : DecimalOps} : Type := mkMonetaryAmount {
  ma_amount : Fee;
  ma_currency : Asset
}.

(** ** Keys of maps *)

#[export] Instance AccountId_eq_dec : EqDecision AccountId.
Proof. solve_decision. Defined.
#[export] Instance AccountId_countable : Countable AccountId.
Proof. by refine (inj_countable' account_as_u64 mkAccountId _); intros []. Defined.

#[export] Instance AccountGroupId_eq_dec : EqDecision AccountGroupId.
Proof. solve_decision. Defined.
#[export] Instance AccountGroupId_countable : Countable AccountGroupId.
Proof. by refine (inj_countable' group_as_u32 mkAccountGroupId _); intros []. Defined.

#[export] Instance Asset_eq_dec : EqDecision Asset.
Proof. solve_decision. Defined.
#[export] Instance Asset_countable : Countable Asset.
Proof. by refine (inj_countable' asset_str mkAsset _); intros []. Defined.

(** [Display]: the text itself, as bytes. *)
Definition Asset_fmt (self : Asset) : string :=
  String.string_of_list_ascii
    ((fun b => Ascii.ascii_of_N (Z.to_N b)) <$> str_bytes (asset_str self)).

(** ASCII text as a [str]. *)
Definition ustr_of (s : string) : ustr :=
  (fun a => Z.of_N (Ascii.N_of_ascii a)) <$> String.list_ascii_of_string s.

(** ** Properties *)

Lemma fnv1a_step_range w prime hash byte : 0 < w -> 0 <= fnv1a_step w prime hash byte < 2 ^ w.
Proof. intros Hw. apply Z.mod_pos_bound, Z.pow_pos_nonneg; lia. Qed.

Lemma fnv1a_range w prime h bs : 0 < w -> 0 <= h < 2 ^ w ->
  0 <= foldl (fnv1a_step w prime) h bs < 2 ^ w.
Proof.
  intros Hw. revert h. induction bs as [|b bs IH]; intros h Hh; [done|].
  apply IH, fnv1a_step_range, Hw.
Qed.

Lemma trim_is_empty_spec s :
  trim_is_empty s = true <-> Forall (fun c => is_white_space c = true) s.
Proof.
  unfold trim_is_empty. rewrite forallb_forall, Forall_forall.
  by setoid_rewrite list_elem_of_In.
Qed.

(** Whatever the string, the string constructors refuse exactly the blank
    ones, the hashes stay in their machine words, and no constructor of
    [AccountGroupId] yields the reserved default group. *)
Theorem identifier_constructors (s : ustr) (v : Z) :
  0 <= v <= U32_MAX ->
  (account_from_str s = Err AccountIdError_Empty <-> Forall (fun c => is_white_space c = true) s) /\
  (forall a, account_from_str s = Ok a -> 0 <= account_as_u64 a <= U64_MAX) /\
  (forall g, group_from_str s = Ok g \/ group_from_u32 v = Ok g ->
     g <> DEFAULT_ACCOUNT_GROUP /\ 0 <= group_as_u32 g <= U32_MAX).
Proof.
  intros Hv. unfold account_from_str, group_from_str, group_from_u32.
  assert (H64 : 0 <= fnv1a_64 s < 2 ^ 64) by (apply fnv1a_range; lia).
  assert (H32 : 0 <= fnv1a_32 s < 2 ^ 32) by (apply fnv1a_range; lia).
  split_and!.
  - rewrite <- trim_is_empty_spec. by destruct (trim_is_empty s).
  - intros a. destruct (trim_is_empty s); [done|]. intros [= <-]. cbn. unfold U64_MAX. lia.
  - intros g. cbn. intros [H|H].
    + destruct (trim_is_empty s); [done|]. injection H as <-. unfold non_default_hash. cbn.
      unfold DEFAULT_ACCOUNT_GROUP, U32_MAX.
      destruct (Z.eqb_spec (fnv1a_32 s) 0); cbn; (split; [intros [=]|]; lia).
    + destruct (Z.eqb_spec v 0); [done|]. injection H as <-. split; [intros [=]; lia|done].
Qed.

(** The FNV-1a reference vectors of the empty string and of "a". *)
Example fnv1a_vectors :
  fnv1a_64 [] = 14695981039346656037 /\ fnv1a_64 (ustr_of "a") = 12638187200555641996 /\
  fnv1a_32 (ustr_of "a") = 3826002220 /\ str_bytes [8364] = [226; 130; 172].
Proof. vm_compute. repeat split. Qed.
