(* ===== verification/Utf8.v ===== *)
(** * Utf8: bytes that should be a [str]

    [std::str::from_utf8] and [String::from_utf8_lossy] over the scalar values of
    [Identifiers].  Bytes are [Z]; a [String] of the errors and rejects is the Stdlib
    string of its bytes. *)
From S2P Require Import Prelude.
From S2P Require Import Decimal.
From S2P Require Import Param.
From S2P Require Import Identifiers.
From stdpp Require Import pretty.
Open Scope Z_scope.

(** ** Validation *)

(** [Utf8Error]: the length of the valid prefix, and that of the invalid sequence
    unless the input ends in the middle of a character. *)
Record Utf8Error : Set := mkUtf8Error { valid_up_to : nat; error_len : option nat }.

Definition nat_fmt (n : nat) : string := pretty (Z.of_nat n).

Definition Utf8Error_fmt (e : Utf8Error) : string :=
  match error_len e with
  | Some n => "invalid utf-8 sequence of " +:+ nat_fmt n +:+ " bytes from index " +:+ nat_fmt (valid_up_to e)
  | None => "incomplete utf-8 byte sequence from index " +:+ nat_fmt (valid_up_to e)
  end.

Definition within (low high b : Z) : bool := (low <=? b) && (b <=? high).

Definition is_continuation (b : Z) : bool := within 128 191 b.

(** The second byte a first byte allows. *)
Definition second_of_three (b0 b1 : Z) : bool :=
  if b0 =? 224 then within 160 191 b1 else if b0 =? 237 then within 128 159 b1 else is_continuation b1.
Definition second_of_four (b0 b1 : Z) : bool :=
  if b0 =? 240 then within 144 191 b1 else if b0 =? 244 then within 128 143 b1 else is_continuation b1.

(** The next character: what it is and how many bytes it takes, or how many bytes
    are invalid ([None]: to the end of the input). *)
Definition next_char (bytes : list Z) : result (option nat) (Z * nat) :=
  match bytes with
  | [] => Err None
  | b0 :: t =>
      if within 0 127 b0 then Ok (b0, 1%nat)
      else if within 194 223 b0 then
        match t with
        | [] => Err None
        | b1 :: _ => if is_continuation b1 then Ok ((b0 - 192) * 64 + (b1 - 128), 2%nat) else Err (Some 1%nat)
        end
      else if within 224 239 b0 then
        match t with
        | [] => Err None
        | b1 :: t =>
            if negb (second_of_three b0 b1) then Err (Some 1%nat)
            else match t with
                 | [] => Err None
                 | b2 :: _ => if is_continuation b2 then Ok ((b0 - 224) * 4096 + (b1 - 128) * 64 + (b2 - 128), 3%nat)
                              else Err (Some 2%nat)
                 end
        end
      else if within 240 244 b0 then
        match t with
        | [] => Err None
        | b1 :: t =>
            if negb (second_of_four b0 b1) then Err (Some 1%nat)
            else match t with
                 | [] => Err None
                 | b2 :: t =>
                     if negb (is_continuation b2) then Err (Some 2%nat)
                     else match t with
                          | [] => Err None
                          | b3 :: _ =>
                              if is_continuation b3
                              then Ok ((b0 - 240) * 262144 + (b1 - 128) * 4096 + (b2 - 128) * 64 + (b3 - 128), 4%nat)
                              else Err (Some 3%nat)
                          end
                 end
        end
      else Err (Some 1%nat)
  end.

(** Both loops take at most one round per byte. *)
Fixpoint validate (fuel : nat) (position : nat) (bytes : list Z) : result Utf8Error ustr :=
  match fuel, bytes with
  | _, [] => Ok []
  | O, _ => Err (mkUtf8Error position None)
  | S fuel, _ =>
      match next_char bytes with
      | Ok (c, n) => cons c <$> validate fuel (position + n) (drop n bytes)
      | Err len => Err (mkUtf8Error position len)
      end
  end.

Definition from_utf8 (bytes : list Z) : result Utf8Error ustr := validate (length bytes) 0 bytes.

Definition REPLACEMENT_CHARACTER : Z := 65533.

Fixpoint lossy (fuel : nat) (bytes : list Z) : ustr :=
  match fuel, bytes with
  | _, [] => []
  | O, _ => []
  | S fuel, _ =>
      match next_char bytes with
      | Ok (c, n) => c :: lossy fuel (drop n bytes)
      | Err (Some n) => REPLACEMENT_CHARACTER :: lossy fuel (drop n bytes)
      | Err None => [REPLACEMENT_CHARACTER]
      end
  end.

Definition from_utf8_lossy (bytes : list Z) : ustr := lossy (length bytes) bytes.

(** A [str] as the bytes of a [String], and back. *)
Definition string_of_bytes (bytes : list Z) : string :=
  String.string_of_list_ascii ((fun b => Ascii.ascii_of_N (Z.to_N b)) <$> bytes).
Definition bytes_of_string (s : string) : list Z :=
  (fun a => Z.of_N (Ascii.N_of_ascii a)) <$> String.list_ascii_of_string s.
Definition string_of_ustr (s : ustr) : string := string_of_bytes (str_bytes s).

(** ** Encoding and decoding are inverse *)

Lemma within_range low high b : within low high b = true <-> low <= b <= high.
Proof. unfold within. rewrite andb_true_iff, !Z.leb_le. done. Qed.

Ltac byte_bool :=
  repeat match goal with
         | H : _ && _ = true |- _ => apply andb_true_iff in H as [? ?]
         | H : within _ _ _ = true |- _ => apply within_range in H
         | H : within _ _ _ = false |- _ => unfold within in H; rewrite andb_false_iff, !Z.leb_gt in H
         | H : is_continuation _ = _ |- _ => unfold is_continuation in H
         | H : (_ <=? _) = true |- _ => apply Z.leb_le in H
         | H : (_ <? _) = true |- _ => apply Z.ltb_lt in H
         | H : (_ <? _) = false |- _ => apply Z.ltb_ge in H
         | H : (_ =? _) = true |- _ => apply Z.eqb_eq in H
         | H : (_ =? _) = false |- _ => apply Z.eqb_neq in H
         | H : negb _ = true |- _ => apply negb_true_iff in H
         | H : negb _ = false |- _ => apply negb_false_iff in H
         end.


Lemma within_true low high b : low <= b <= high -> within low high b = true.
Proof. apply within_range. Qed.
Lemma within_false low high b : b < low \/ high < b -> within low high b = false.
Proof. unfold within. rewrite andb_false_iff, !Z.leb_gt. done. Qed.

(** Decides the range tests of a goal by arithmetic. *)
Ltac decide_ranges :=
  repeat first
    [ rewrite within_true by lia | rewrite within_false by lia
    | match goal with |- context [?a =? ?b] => first [rewrite (proj2 (Z.eqb_eq a b)) by lia | rewrite (proj2 (Z.eqb_neq a b)) by lia] end
    | progress cbn [negb] ].

(** A character of a [str] is read back, whatever follows it. *)
Lemma next_char_encoded c rest : is_scalar c = true ->
  next_char (utf8_char c ++ rest) = Ok (c, length (utf8_char c)).
Proof.
  unfold is_scalar. intros H. apply andb_true_iff in H as [Hr Hs]. byte_bool. apply andb_false_iff in Hs. rewrite !Z.leb_gt in Hs.
  pose proof (Z.div_mod c 64 ltac:(lia)) as D1. pose proof (Z.mod_pos_bound c 64 ltac:(lia)) as B1.
  assert (E1 : c / 4096 = c / 64 / 64) by (rewrite Z.div_div by lia; done).
  assert (E2 : c / 262144 = c / 64 / 64 / 64) by (rewrite !Z.div_div by lia; done).
  pose proof (Z.div_mod (c / 64) 64 ltac:(lia)) as D2. pose proof (Z.mod_pos_bound (c / 64) 64 ltac:(lia)) as B2.
  pose proof (Z.div_mod (c / 64 / 64) 64 ltac:(lia)) as D3. pose proof (Z.mod_pos_bound (c / 64 / 64) 64 ltac:(lia)) as B3.
  unfold utf8_char, next_char, second_of_three, second_of_four, is_continuation.
  destruct (c <? 128) eqn:C1; [|destruct (c <? 2048) eqn:C2; [|destruct (c <? 65536) eqn:C3]]; byte_bool; cbn [app length];
    rewrite ?E1, ?E2; generalize dependent (c mod 64); intros x D1 B1; generalize dependent (c / 64); intros y E1 E2 D2 B2 D3 B3 D1;
    generalize dependent (y mod 64); intros x' D2 B2; generalize dependent (y / 64); intros y' E1 E2 D3 B3 D2;
    generalize dependent (y' mod 64); intros x'' D3 B3; generalize dependent (y' / 64); intros y'' E2 D3; clear E1 E2.
  - decide_ranges. done.
  - decide_ranges. do 2 f_equal. lia.
  - destruct (224 + y' =? 224) eqn:Q1; [|destruct (224 + y' =? 237) eqn:Q2]; byte_bool; decide_ranges; do 2 f_equal; lia.
  - destruct (240 + y'' =? 240) eqn:Q1; [|destruct (240 + y'' =? 244) eqn:Q2]; byte_bool; decide_ranges; do 2 f_equal; lia.
Qed.

Lemma utf8_char_length c : (1 <= length (utf8_char c) <= 4)%nat.
Proof. unfold utf8_char. repeat case_match; cbn; lia. Qed.

(** Conversely, what is read is a scalar value and its encoding is what was read. *)
Lemma split64 a r : 0 <= r < 64 -> (a * 64 + r) / 64 = a /\ (a * 64 + r) mod 64 = r.
Proof.
  intros Hr. split; [symmetry; apply (Z.div_unique _ _ _ r); lia|symmetry; apply (Z.mod_unique _ _ a); lia].
Qed.

Lemma encode_two a r : 2 <= a < 32 -> 0 <= r < 64 -> utf8_char (a * 64 + r) = [192 + a; 128 + r].
Proof.
  intros Ha Hr. unfold utf8_char. destruct (split64 a r Hr) as [-> ->].
  rewrite (proj2 (Z.ltb_ge _ 128)), (proj2 (Z.ltb_lt _ 2048)) by lia. done.
Qed.

Lemma encode_three a m r : 0 <= a < 16 -> 0 <= m < 64 -> 0 <= r < 64 -> 32 <= a * 64 + m ->
  utf8_char ((a * 64 + m) * 64 + r) = [224 + a; 128 + m; 128 + r].
Proof.
  intros Ha Hm Hr Hl. unfold utf8_char. replace 4096 with (64 * 64) by done. rewrite <- Z.div_div by lia.
  destruct (split64 (a * 64 + m) r Hr) as [-> ->], (split64 a m Hm) as [-> ->].
  rewrite (proj2 (Z.ltb_ge _ 128)), (proj2 (Z.ltb_ge _ 2048)), (proj2 (Z.ltb_lt _ 65536)) by lia. done.
Qed.

Lemma encode_four a l m r : 0 <= l < 64 -> 0 <= m < 64 -> 0 <= r < 64 -> 16 <= a * 64 + l ->
  utf8_char (((a * 64 + l) * 64 + m) * 64 + r) = [240 + a; 128 + l; 128 + m; 128 + r].
Proof.
  intros Hl Hm Hr Hg. unfold utf8_char. replace 262144 with (64 * (64 * 64)) by done. replace 4096 with (64 * 64) by done.
  rewrite <- !Z.div_div by lia.
  destruct (split64 ((a * 64 + l) * 64 + m) r Hr) as [-> ->], (split64 (a * 64 + l) m Hm) as [-> ->], (split64 a l Hl) as [-> ->].
  rewrite (proj2 (Z.ltb_ge _ 128)), (proj2 (Z.ltb_ge _ 2048)), (proj2 (Z.ltb_ge _ 65536)) by lia. done.
Qed.

Lemma is_scalar_spec c : is_scalar c = true <-> 0 <= c <= 1114111 /\ ~ (55296 <= c <= 57343).
Proof. unfold is_scalar. rewrite !andb_true_iff, negb_true_iff, andb_false_iff, !Z.leb_le, !Z.leb_gt. lia. Qed.

Lemma next_char_decoded bytes c n : next_char bytes = Ok (c, n) ->
  is_scalar c = true /\ take n bytes = utf8_char c /\ n = length (utf8_char c).
Proof.
  unfold next_char, second_of_three, second_of_four, is_continuation. intros H.
  repeat case_match; try discriminate H; injection H as <- <-; byte_bool; rewrite is_scalar_spec.
  all: lazymatch goal with
       | |- context [_ * 262144 + (?b1 - _) * 4096 + (?b2 - _) * 64 + (?b3 - _)] =>
           match goal with |- context [(?b0 - 240) * 262144] =>
             replace ((b0 - 240) * 262144 + (b1 - 128) * 4096 + (b2 - 128) * 64 + (b3 - 128))
               with ((((b0 - 240) * 64 + (b1 - 128)) * 64 + (b2 - 128)) * 64 + (b3 - 128)) by lia end;
           rewrite encode_four by lia
       | |- context [(?b0 - 224) * 4096 + (?b1 - _) * 64 + (?b2 - _)] =>
           replace ((b0 - 224) * 4096 + (b1 - 128) * 64 + (b2 - 128))
             with (((b0 - 224) * 64 + (b1 - 128)) * 64 + (b2 - 128)) by lia; rewrite encode_three by lia
       | |- context [(?b0 - 192) * 64 + (?b1 - _)] => rewrite encode_two by lia
       | |- context [utf8_char ?b] => unfold utf8_char; rewrite (proj2 (Z.ltb_lt b 128)) by lia
       end.
  all: split_and!; try lia; try done; cbn; repeat (f_equal; try lia).
Qed.

Lemma next_char_advances bytes c n : next_char bytes = Ok (c, n) -> (1 <= n <= length bytes)%nat.
Proof.
  intros H. destruct (next_char_decoded bytes c n H) as (_ & Ht & Hn). pose proof (utf8_char_length c).
  apply (f_equal length) in Ht. rewrite length_take in Ht. lia.
Qed.

(** More rounds than bytes change nothing. *)
Lemma validate_fuel fuel position bytes : (length bytes <= fuel)%nat ->
  validate fuel position bytes = validate (length bytes) position bytes.
Proof.
  revert position bytes. induction fuel as [fuel IH] using lt_wf_ind. intros position bytes Hf.
  destruct bytes as [|b bytes]; [by destruct fuel|]. destruct fuel as [|fuel]; [cbn in Hf; lia|]. cbn [length] in *.
  cbn [validate]. destruct (next_char (b :: bytes)) as [[c n]|len] eqn:E; [|done].
  apply next_char_advances in E. cbn [length] in E. f_equal.
  assert (Hd : (length (drop n (b :: bytes)) <= length bytes)%nat) by (rewrite length_drop; cbn; lia).
  rewrite (IH fuel) by lia. symmetry. apply IH; lia.
Qed.

Lemma validate_encoded s fuel position : Forall (fun c => is_scalar c = true) s -> (length (str_bytes s) <= fuel)%nat ->
  validate fuel position (str_bytes s) = Ok s.
Proof.
  intros Hs. revert fuel position. induction Hs as [|c s Hc _ IH]; intros fuel position Hf; [by destruct fuel|].
  unfold str_bytes in *. cbn [mbind list_bind] in *. rewrite length_app in Hf. pose proof (utf8_char_length c).
  destruct fuel as [|fuel]; [lia|]. pose proof (next_char_encoded c (s ≫= utf8_char) Hc) as E.
  destruct (utf8_char c ++ (s ≫= utf8_char)) as [|b t] eqn:Eb.
  { apply (f_equal length) in Eb. rewrite length_app in Eb. cbn in Eb. lia. }
  cbn [validate]. rewrite E, <- Eb, drop_app_length, IH by lia. done.
Qed.

Lemma validate_sound fuel position bytes s : validate fuel position bytes = Ok s ->
  str_bytes s = bytes /\ Forall (fun c => is_scalar c = true) s.
Proof.
  revert position bytes s. induction fuel as [|fuel IH]; intros position bytes s; (destruct bytes as [|b t]; [by intros [= <-]|]); [done|].
  cbn [validate]. destruct (next_char (b :: t)) as [[c n]|] eqn:E; [|done].
  destruct (validate fuel _ _) as [s'|] eqn:Ev; [|done]. intros [= <-].
  destruct (next_char_decoded _ _ _ E) as (Hc & Ht & _), (IH _ _ _ Ev) as [Hb Hs]. split; [|by constructor].
  unfold str_bytes in *. cbn [mbind list_bind]. rewrite <- Ht, Hb. apply take_drop.
Qed.

(** UTF-8 is decoded to what was encoded, and only encodings are accepted. *)
Theorem from_utf8_spec bytes s :
  from_utf8 bytes = Ok s <-> str_bytes s = bytes /\ Forall (fun c => is_scalar c = true) s.
Proof.
  split; [apply validate_sound|]. intros [<- Hs]. by apply validate_encoded.
Qed.

(** A refusal names a proper prefix that is valid. *)
Lemma validate_error fuel position bytes e : (length bytes <= fuel)%nat -> validate fuel position bytes = Err e ->
  exists n s, valid_up_to e = (position + n)%nat /\ (n < length bytes)%nat /\ from_utf8 (take n bytes) = Ok s.
Proof.
  revert position bytes. induction fuel as [|fuel IH]; intros position bytes Hf; (destruct bytes as [|b t]; [done|]); [cbn in Hf; lia|].
  cbn [validate]. destruct (next_char (b :: t)) as [[c n]|len] eqn:E.
  - destruct (validate fuel _ _) as [s'|e'] eqn:Ev; [done|]. intros [= <-].
    pose proof (next_char_advances _ _ _ E) as Hn. destruct (next_char_decoded _ _ _ E) as (Hc & Ht & _).
    destruct (IH (position + n)%nat (drop n (b :: t))) as (k & s & Hk & Hl & Hs); [rewrite length_drop; lia|done|].
    rewrite length_drop in Hl. exists (n + k)%nat, (c :: s). split_and!; [lia|lia|].
    apply from_utf8_spec in Hs as [Hs Hsc]. apply from_utf8_spec. split; [|by constructor].
    unfold str_bytes in *. cbn [mbind list_bind]. rewrite Hs, <- Ht, <- take_take_drop. done.
  - intros [= <-]. exists 0%nat, []. cbn. split_and!; [lia|lia|done].
Qed.

Theorem from_utf8_refuses bytes e : from_utf8 bytes = Err e ->
  (valid_up_to e < length bytes)%nat /\ exists s, from_utf8 (take (valid_up_to e) bytes) = Ok s.
Proof. intros H. destruct (validate_error _ _ _ _ (le_n _) H) as (n & s & -> & Hn & Hs). split; [done|by exists s]. Qed.

(** The lossy conversion loses nothing of a [str] and always yields one. *)
Lemma lossy_valid fuel position bytes s : validate fuel position bytes = Ok s -> lossy fuel bytes = s.
Proof.
  revert position bytes s. induction fuel as [|fuel IH]; intros position bytes s; (destruct bytes as [|b t]; [by intros [= <-]|]); [done|].
  cbn [validate lossy]. destruct (next_char (b :: t)) as [[c n]|]; [|done].
  destruct (validate fuel _ _) as [s'|] eqn:Ev; [|done]. intros [= <-]. f_equal. by eapply IH.
Qed.

Theorem from_utf8_lossy_spec bytes :
  (forall s, from_utf8 bytes = Ok s -> from_utf8_lossy bytes = s) /\
  Forall (fun c => is_scalar c = true) (from_utf8_lossy bytes).
Proof.
  split; [apply lossy_valid|]. unfold from_utf8_lossy. generalize (length bytes) as fuel. intros fuel. revert bytes.
  induction fuel as [|fuel IH]; intros [|b t]; cbn [lossy]; [constructor..|].
  destruct (next_char (b :: t)) as [[c n]|[n|]] eqn:E; rewrite ?Forall_cons; split_and!; try done; try apply IH.
  by destruct (next_char_decoded _ _ _ E).
Qed.

Lemma from_utf8_encoded s : Forall (fun c => is_scalar c = true) s -> from_utf8 (str_bytes s) = Ok s.
Proof. intros Hs. by apply from_utf8_spec. Qed.

(** Every form of an invalid sequence, as the documentation of [Utf8Error] lists. *)
Example utf8_vectors :
  from_utf8 [226; 130; 172] = Ok [8364] /\ from_utf8 [97; 226; 130] = Err (mkUtf8Error 1 None) /\
  from_utf8 [97; 237; 160; 128] = Err (mkUtf8Error 1 (Some 1%nat)) /\ from_utf8 [240; 159; 146; 150] = Ok [128150] /\
  from_utf8_lossy [72; 240; 144; 128; 87] = [72; 65533; 87].
Proof. vm_compute. done. Qed.
