(* ===== verification/Mutation.v ===== *)
(** * Mutation: commit and rollback pairs and their batches

    src/crates/openpit/src/core/mutation.rs.  A closure is a function on the state
    [St] it captures; a fallible one also returns its outcome.  The guard of a
    mutation is kept as the effect of dropping it. *)
From S2P Require Import Prelude.
Open Scope Z_scope.

Inductive MutationProvenance : Set := EngineOwned | CustomPolicy.
Inductive MutationFailureScope : Set := ScopeAccount | ScopeGlobal.

#[export] Instance MutationProvenance_eq_dec : EqDecision MutationProvenance.
Proof. solve_decision. Defined.
#[export] Instance MutationFailureScope_eq_dec : EqDecision MutationFailureScope.
Proof. solve_decision. Defined.

(** ** Collected finalizer failures *)

Record MutationFailure : Type := mkMutationFailure {
  mf_details : list string;
  mf_scope : option MutationFailureScope
}.

Definition failure_default : MutationFailure := mkMutationFailure [] None.

Definition failure_widen (self : MutationFailure) (scope : MutationFailureScope) :
    MutationFailure :=
  if bool_decide (scope = ScopeGlobal) || bool_decide (mf_scope self = None)
  then mkMutationFailure (mf_details self) (Some scope)
  else self.

Definition provenance_scope (p : MutationProvenance) : MutationFailureScope :=
  match p with EngineOwned => ScopeAccount | CustomPolicy => ScopeGlobal end.

Definition failure_record (self : MutationFailure) (provenance : MutationProvenance)
    (details : string) : MutationFailure :=
  let self := failure_widen self (provenance_scope provenance) in
  mkMutationFailure (mf_details self ++ [details]) (mf_scope self).

Definition failure_append (self other : MutationFailure) : MutationFailure :=
  let self := match mf_scope other with Some scope => failure_widen self scope | None => self end in
  mkMutationFailure (mf_details self ++ mf_details other) (mf_scope self).

Definition failure_failed (self : MutationFailure) : bool :=
  match mf_scope self with Some _ => true | None => false end.

Definition failure_details (self : MutationFailure) : string :=
  String.concat "; " (mf_details self).

(** Outside test builds a rollback result holds its failure only. *)
Record MutationRollbackResult : Type := mkRollbackResult { rr_failure : MutationFailure }.

Definition rollback_default : MutationRollbackResult := mkRollbackResult failure_default.

Definition rollback_append (self other : MutationRollbackResult) : MutationRollbackResult :=
  mkRollbackResult (failure_append (rr_failure self) (rr_failure other)).

Definition callback_failure (provenance : MutationProvenance) (details : string) :
    MutationRollbackResult :=
  mkRollbackResult (failure_record failure_default provenance details).

Definition callback_failed (self : MutationRollbackResult) : bool :=
  failure_failed (rr_failure self).

Definition callback_failure_details (self : MutationRollbackResult) : string :=
  failure_details (rr_failure self).

(** ** Owner identifiers *)

(** The loop of [next_mutation_owner_id] on the value of the atomic counter;
    returns the identifier and the counter left behind. *)
Fixpoint next_mutation_owner_id (fuel : nat) (counter : Z) : option (Z * Z) :=
  match fuel with
  | O => None
  | S fuel =>
      let id := counter in
      let counter := (counter + 1) mod 2 ^ 64 in
      if negb (id =? 0) then Some (id, counter) else next_mutation_owner_id fuel counter
  end.

(** ** Mutations *)

Record Mutation (St : Type) : Type := mkMutation {
  mut_commit : option (St -> result string unit * St);
  mut_rollback : St -> MutationRollbackResult * St;
  mut_lifetime_guard : option (St -> St);
  mut_provenance : MutationProvenance
}.
Arguments mkMutation {St}.
Arguments mut_commit {St}.
Arguments mut_rollback {St}.
Arguments mut_lifetime_guard {St}.
Arguments mut_provenance {St}.

Record Mutations (St : Type) : Type := mkMutations {
  ms_mutations : list (Mutation St);
  ms_owner_id : Z
}.
Arguments mkMutations {St}.
Arguments ms_mutations {St}.
Arguments ms_owner_id {St}.

Section Mutations.
Context {St : Type}.
Implicit Types (m : Mutation St) (st : St).

(** [then_some(()).ok_or_else(..)] on the answer of a boundary callback. *)
Definition fallible (details : string) (f : St -> bool * St) (st : St) : result string unit * St :=
  let '(ok, st) := f st in (if ok : bool then Ok tt else Err details, st).

Definition new_reporting_with_error (provenance : MutationProvenance)
    (commit : St -> result string unit * St) (rollback : St -> MutationRollbackResult * St) :
    Mutation St :=
  mkMutation (Some commit) rollback None provenance.

Definition new_infallible (provenance : MutationProvenance) (commit rollback : St -> St) :
    Mutation St :=
  new_reporting_with_error provenance (fun st => (Ok tt, commit st))
    (fun st => (rollback_default, rollback st)).

Definition mutation_new (commit rollback : St -> St) : Mutation St :=
  new_infallible CustomPolicy commit rollback.

Definition new_engine_owned (commit rollback : St -> St) : Mutation St :=
  new_infallible EngineOwned commit rollback.

Definition with_guard (m : Mutation St) (guard : St -> St) : Mutation St :=
  mkMutation (mut_commit m) (mut_rollback m) (Some guard) (mut_provenance m).

Definition new_engine_owned_with_guard (commit rollback guard : St -> St) : Mutation St :=
  with_guard (new_engine_owned commit rollback) guard.

Definition new_fallible_with_error (commit rollback : St -> result string unit * St) :
    Mutation St :=
  new_reporting_with_error CustomPolicy commit (fun st =>
    match rollback st with
    | (Ok _, st) => (rollback_default, st)
    | (Err details, st) => (callback_failure CustomPolicy details, st)
    end).

Definition new_fallible (commit rollback : St -> bool * St) : Mutation St :=
  new_fallible_with_error (fallible "mutation commit callback failed" commit)
    (fallible "mutation rollback callback failed" rollback).

Definition new_reporting (commit : St -> bool * St)
    (rollback : St -> MutationRollbackResult * St) : Mutation St :=
  new_reporting_with_error EngineOwned
    (fallible "mutation commit callback failed" commit) rollback.

Definition new_reporting_with_guard (commit : St -> bool * St)
    (rollback : St -> MutationRollbackResult * St) (guard : St -> St) : Mutation St :=
  with_guard (new_reporting commit rollback) guard.

Definition drop_guard (m : Mutation St) (st : St) : St :=
  match mut_lifetime_guard m with Some guard => guard st | None => st end.

(** [commit(&mut self)] takes the closure out; the guard stays. *)
Definition mutation_commit (m : Mutation St) (st : St) : result string unit * St :=
  match mut_commit m with Some commit => commit st | None => (Ok tt, st) end.

Definition mutation_rollback (m : Mutation St) (st : St) : MutationRollbackResult * St :=
  let '(result, st) := mut_rollback m st in (result, drop_guard m st).

Definition mutations_push (self : Mutations St) (mutation : Mutation St) : Mutations St :=
  mkMutations (ms_mutations self ++ [mutation]) (ms_owner_id self).

Definition mutations_append (self other : Mutations St) : Mutations St :=
  mkMutations (ms_mutations self ++ ms_mutations other) (ms_owner_id self).

(** One iteration of the commit loop; the mutation is dropped at its end. *)
Definition commit_step (acc : MutationFailure * St) (m : Mutation St) : MutationFailure * St :=
  let '(failure, st) := acc in
  let '(r, st) := mutation_commit m st in
  (match r with Err details => failure_record failure (mut_provenance m) details | Ok _ => failure end,
   drop_guard m st).

Definition commit_all (self : Mutations St) (st : St) : MutationFailure * St :=
  foldl commit_step (failure_default, st) (ms_mutations self).

Definition rollback_step (acc : MutationRollbackResult * St) (m : Mutation St) :
    MutationRollbackResult * St :=
  let '(result, st) := acc in
  let '(r, st) := mutation_rollback m st in (rollback_append result r, st).

Definition rollback_all (self : Mutations St) (st : St) : MutationRollbackResult * St :=
  foldl rollback_step (rollback_default, st) (rev (ms_mutations self)).

(** Dropping a collector that was never finalized drops the guards. *)
Definition mutations_drop (self : Mutations St) (st : St) : St :=
  foldl (fun st m => drop_guard m st) st (ms_mutations self).

(** ** Specification of the batches *)

(** The finalizers run one after the other, whatever each answers. *)
Fixpoint run_all {R} (run : Mutation St -> St -> R * St) (ms : list (Mutation St)) (st : St) :
    list (MutationProvenance * R) * St :=
  match ms with
  | [] => ([], st)
  | m :: ms =>
      let '(r, st) := run m st in
      let '(rs, st) := run_all run ms st in ((mut_provenance m, r) :: rs, st)
  end.

Definition commit_then_drop (m : Mutation St) (st : St) : result string unit * St :=
  let '(r, st) := mutation_commit m st in (r, drop_guard m st).

End Mutations.

(** The failing entries of a batch, as (provenance, details). *)
Definition failing (rs : list (MutationProvenance * result string unit)) :
    list (MutationProvenance * string) :=
  omap (fun '(p, r) => match r with Err d => Some (p, d) | Ok _ => None end) rs.

(** The reach of the kill switch a set of failures calls for. *)
Definition widest_scope (fs : list (MutationProvenance * string)) : option MutationFailureScope :=
  if decide (Exists (fun f => f.1 = CustomPolicy) fs) then Some ScopeGlobal
  else if decide (fs = []) then None else Some ScopeAccount.

(** ** Properties *)

Lemma failure_append_default_l f : failure_append failure_default f = f.
Proof. by destruct f as [? [[]|]]. Qed.

Lemma failure_append_default_r f : failure_append f failure_default = f.
Proof. destruct f as [? [[]|]]; unfold failure_append; cbn; by rewrite app_nil_r. Qed.

Lemma failure_append_assoc a b c :
  failure_append (failure_append a b) c = failure_append a (failure_append b c).
Proof.
  destruct a as [? [[]|]], b as [? [[]|]], c as [? [[]|]]; unfold failure_append; cbn;
    by rewrite app_assoc.
Qed.

(** Recording a failure appends the singleton failure. *)
Lemma failure_record_append f p d :
  failure_record f p d = failure_append f (failure_record failure_default p d).
Proof. by destruct f as [? [[]|]], p. Qed.

Lemma rollback_append_default_l r : rollback_append rollback_default r = r.
Proof. destruct r. unfold rollback_append; cbn. by rewrite failure_append_default_l. Qed.

Lemma rollback_append_assoc a b c :
  rollback_append (rollback_append a b) c = rollback_append a (rollback_append b c).
Proof. unfold rollback_append; cbn. by rewrite failure_append_assoc. Qed.

Lemma failed_append a b :
  callback_failed (rollback_append a b) = callback_failed a || callback_failed b.
Proof. by destruct a as [[? [[]|]]], b as [[? [[]|]]]. Qed.

Definition failure_of (fs : list (MutationProvenance * string)) : MutationFailure :=
  mkMutationFailure (snd <$> fs) (widest_scope fs).

Lemma widest_scope_snoc fs p d :
  widest_scope (fs ++ [(p, d)]) =
  Some (match p, widest_scope fs with
        | EngineOwned, Some ScopeGlobal => ScopeGlobal
        | EngineOwned, _ => ScopeAccount
        | CustomPolicy, _ => ScopeGlobal
        end).
Proof.
  unfold widest_scope.
  assert (Hs : Exists (fun f : _ * string => f.1 = CustomPolicy) (fs ++ [(p, d)]) <->
               Exists (fun f => f.1 = CustomPolicy) fs \/ p = CustomPolicy).
  { rewrite Exists_app, Exists_cons, Exists_nil. naive_solver. }
  destruct (decide (Exists _ (fs ++ _))) as [H|H]; destruct (decide (Exists _ fs)) as [H'|H'];
    destruct p; try naive_solver.
  by destruct fs.
Qed.

Lemma failure_record_of fs p d : failure_record (failure_of fs) p d = failure_of (fs ++ [(p, d)]).
Proof.
  unfold failure_of at 2. rewrite widest_scope_snoc, fmap_app.
  unfold failure_record, failure_widen, failure_of; cbn.
  by destruct p, (widest_scope fs) as [[]|].
Qed.

Section Batches.
Context {St : Type}.
Implicit Types (m : Mutation St) (ms : list (Mutation St)) (st : St).

Lemma commit_fold fs ms st :
  foldl commit_step (failure_of fs, st) ms =
  let '(rs, st') := run_all commit_then_drop ms st in (failure_of (fs ++ failing rs), st').
Proof.
  revert fs st. induction ms as [|m ms IH]; intros fs st; cbn; [by rewrite app_nil_r|].
  unfold commit_then_drop at 1. destruct (mutation_commit m st) as [[[]|d] st1]; cbn.
  - rewrite IH. by destruct (run_all _ ms _).
  - rewrite failure_record_of, IH. destruct (run_all _ ms _). by rewrite <- app_assoc.
Qed.

(** A commit batch runs every commit in registration order whatever fails on
    the way, reports the failures' texts in that order, and asks for the global
    kill switch exactly when a custom policy's finalizer is among the failures. *)
Theorem commit_all_spec (self : Mutations St) st :
  commit_all self st =
  let '(rs, st') := run_all commit_then_drop (ms_mutations self) st in
  (failure_of (failing rs), st').
Proof. apply (commit_fold []). Qed.

Lemma rollback_fold r ms st :
  foldl rollback_step (r, st) ms =
  let '(r', st') := foldl rollback_step (rollback_default, st) ms in (rollback_append r r', st').
Proof.
  revert r st. induction ms as [|m ms IH]; intros r st; cbn.
  - destruct r. unfold rollback_append; cbn. by rewrite failure_append_default_r.
  - destruct (mutation_rollback m st) as [r1 st1]. rewrite IH, (IH (rollback_append _ r1)).
    destruct (foldl _ _ ms) as [r2 st2]. by rewrite rollback_append_default_l, rollback_append_assoc.
Qed.

Lemma rollback_all_nil o st : rollback_all (mkMutations [] o) st = (rollback_default, st).
Proof. done. Qed.

Lemma rollback_fold_spec r ms st :
  foldl rollback_step (r, st) ms =
  let '(rs, st') := run_all mutation_rollback ms st in
  (foldl rollback_append r (snd <$> rs), st').
Proof.
  revert r st. induction ms as [|m ms IH]; intros r st; [done|]; cbn.
  destruct (mutation_rollback m st) as [r1 st1]. rewrite IH. by destruct (run_all _ ms st1).
Qed.

(** A rollback batch runs every rollback in reverse registration order
    whatever fails on the way, and reports the failures of all of them. *)
Theorem rollback_all_spec (self : Mutations St) st :
  rollback_all self st =
  let '(rs, st') := run_all mutation_rollback (rev (ms_mutations self)) st in
  (foldl rollback_append rollback_default (snd <$> rs), st').
Proof. apply rollback_fold_spec. Qed.

Lemma rollback_all_app (self other : Mutations St) st :
  rollback_all (mutations_append self other) st =
  let '(r2, st2) := rollback_all other st in
  let '(r1, st1) := rollback_all self st2 in (rollback_append r2 r1, st1).
Proof.
  unfold rollback_all, mutations_append; cbn. rewrite rev_app_distr, foldl_app.
  destruct (foldl _ _ (rev (ms_mutations other))) as [r2 st2]. apply rollback_fold.
Qed.

Lemma rollback_all_push (self : Mutations St) m st :
  rollback_all (mutations_push self m) st =
  let '(r2, st2) := mutation_rollback m st in
  let '(r1, st1) := rollback_all self st2 in (rollback_append r2 r1, st1).
Proof.
  unfold rollback_all, mutations_push; cbn. rewrite rev_app_distr. cbn.
  destruct (mutation_rollback m st) as [r2 st2]. rewrite rollback_append_default_l. apply rollback_fold.
Qed.

End Batches.

(** From any value of the 64-bit counter two rounds of the loop always give
    an identifier; it is never the reserved 0 and the counter moves past it. *)
Theorem next_mutation_owner_id_spec (counter : Z) :
  0 <= counter <= U64_MAX ->
  exists id counter', next_mutation_owner_id 2 counter = Some (id, counter') /\
    0 < id <= U64_MAX /\ counter' = (id + 1) mod 2 ^ 64 /\ 0 <= counter' <= U64_MAX.
Proof.
  intros H. unfold U64_MAX in *. cbn [next_mutation_owner_id].
  assert (Hm : forall x, 0 <= x mod 2 ^ 64 <= 2 ^ 64 - 1)
    by (intros x; pose proof (Z.mod_pos_bound x (2 ^ 64) ltac:(lia)); lia).
  destruct (Z.eqb_spec counter 0) as [->|Hne]; cbn [negb].
  - rewrite (Z.mod_small (0 + 1)) by lia. cbn [Z.eqb negb Z.add].
    exists 1, ((1 + 1) mod 2 ^ 64). split_and!; try done; apply Hm.
  - exists counter, ((counter + 1) mod 2 ^ 64). split_and!; try done; try lia; apply Hm.
Qed.

Arguments commit_all {St} self st : simpl never.
Arguments rollback_all {St} self st : simpl never.
