(* ===== verification/Reject.v ===== *)
(** * Reject: reject codes, rejects and account blocks

    src/crates/openpit/src/pretrade/reject.rs.  Text is [string], the UTF-8
    bytes of a Rust [String]. *)
From S2P Require Import Prelude.
Open Scope Z_scope.

Inductive RejectScope : Set := RS_Order | RS_Account.

Inductive RejectCode : Set :=
| RC_MissingRequiredField | RC_InvalidFieldFormat | RC_InvalidFieldValue
| RC_UnsupportedOrderType | RC_UnsupportedTimeInForce | RC_UnsupportedOrderAttribute
| RC_DuplicateClientOrderId | RC_TooLateToEnter | RC_ExchangeClosed
| RC_UnknownInstrument | RC_UnknownAccount | RC_UnknownVenue
| RC_UnknownClearingAccount | RC_UnknownCollateralAsset | RC_InsufficientFunds
| RC_InsufficientMargin | RC_InsufficientPosition | RC_CreditLimitExceeded
| RC_RiskLimitExceeded | RC_OrderExceedsLimit | RC_OrderQtyExceedsLimit
| RC_OrderNotionalExceedsLimit | RC_PositionLimitExceeded
| RC_ConcentrationLimitExceeded | RC_LeverageLimitExceeded | RC_RateLimitExceeded
| RC_PnlKillSwitchTriggered | RC_AccountBlocked | RC_AccountNotAuthorized
| RC_ComplianceRestriction | RC_InstrumentRestricted | RC_JurisdictionRestriction
| RC_WashTradePrevention | RC_SelfMatchPrevention | RC_ShortSaleRestriction
| RC_RiskConfigurationMissing | RC_ReferenceDataUnavailable
| RC_OrderValueCalculationFailed | RC_SystemUnavailable | RC_MarkPriceUnavailable
| RC_AccountAdjustmentBoundsExceeded | RC_ArithmeticOverflow | RC_Custom | RC_Other.

#[export] Instance RejectScope_eq_dec : EqDecision RejectScope.
Proof. solve_decision. Defined.
#[export] Instance RejectCode_eq_dec : EqDecision RejectCode.
Proof. solve_decision. Defined.

Definition is_evaluation_failure (self : RejectCode) : bool :=
  match self with
  | RC_MissingRequiredField | RC_UnknownInstrument | RC_UnknownAccount
  | RC_UnknownVenue | RC_UnknownClearingAccount | RC_UnknownCollateralAsset
  | RC_RiskConfigurationMissing | RC_ReferenceDataUnavailable
  | RC_OrderValueCalculationFailed | RC_SystemUnavailable | RC_MarkPriceUnavailable
  | RC_ArithmeticOverflow => true
  | RC_InvalidFieldFormat | RC_InvalidFieldValue | RC_UnsupportedOrderType
  | RC_UnsupportedTimeInForce | RC_UnsupportedOrderAttribute
  | RC_DuplicateClientOrderId | RC_TooLateToEnter | RC_ExchangeClosed
  | RC_InsufficientFunds | RC_InsufficientMargin | RC_InsufficientPosition
  | RC_CreditLimitExceeded | RC_RiskLimitExceeded | RC_OrderExceedsLimit
  | RC_OrderQtyExceedsLimit | RC_OrderNotionalExceedsLimit | RC_PositionLimitExceeded
  | RC_ConcentrationLimitExceeded | RC_LeverageLimitExceeded | RC_RateLimitExceeded
  | RC_PnlKillSwitchTriggered | RC_AccountBlocked | RC_AccountNotAuthorized
  | RC_ComplianceRestriction | RC_InstrumentRestricted | RC_JurisdictionRestriction
  | RC_WashTradePrevention | RC_SelfMatchPrevention | RC_ShortSaleRestriction
  | RC_AccountAdjustmentBoundsExceeded | RC_Custom | RC_Other => false
  end.

Definition RejectCode_as_str (self : RejectCode) : string :=
  match self with
  | RC_MissingRequiredField => "MissingRequiredField"
  | RC_InvalidFieldFormat => "InvalidFieldFormat"
  | RC_InvalidFieldValue => "InvalidFieldValue"
  | RC_UnsupportedOrderType => "UnsupportedOrderType"
  | RC_UnsupportedTimeInForce => "UnsupportedTimeInForce"
  | RC_UnsupportedOrderAttribute => "UnsupportedOrderAttribute"
  | RC_DuplicateClientOrderId => "DuplicateClientOrderId"
  | RC_TooLateToEnter => "TooLateToEnter"
  | RC_ExchangeClosed => "ExchangeClosed"
  | RC_UnknownInstrument => "UnknownInstrument"
  | RC_UnknownAccount => "UnknownAccount"
  | RC_UnknownVenue => "UnknownVenue"
  | RC_UnknownClearingAccount => "UnknownClearingAccount"
  | RC_UnknownCollateralAsset => "UnknownCollateralAsset"
  | RC_InsufficientFunds => "InsufficientFunds"
  | RC_InsufficientMargin => "InsufficientMargin"
  | RC_InsufficientPosition => "InsufficientPosition"
  | RC_CreditLimitExceeded => "CreditLimitExceeded"
  | RC_RiskLimitExceeded => "RiskLimitExceeded"
  | RC_OrderExceedsLimit => "OrderExceedsLimit"
  | RC_OrderQtyExceedsLimit => "OrderQtyExceedsLimit"
  | RC_OrderNotionalExceedsLimit => "OrderNotionalExceedsLimit"
  | RC_PositionLimitExceeded => "PositionLimitExceeded"
  | RC_ConcentrationLimitExceeded => "ConcentrationLimitExceeded"
  | RC_LeverageLimitExceeded => "LeverageLimitExceeded"
  | RC_RateLimitExceeded => "RateLimitExceeded"
  | RC_PnlKillSwitchTriggered => "PnlKillSwitchTriggered"
  | RC_AccountBlocked => "AccountBlocked"
  | RC_AccountNotAuthorized => "AccountNotAuthorized"
  | RC_ComplianceRestriction => "ComplianceRestriction"
  | RC_InstrumentRestricted => "InstrumentRestricted"
  | RC_JurisdictionRestriction => "JurisdictionRestriction"
  | RC_WashTradePrevention => "WashTradePrevention"
  | RC_SelfMatchPrevention => "SelfMatchPrevention"
  | RC_ShortSaleRestriction => "ShortSaleRestriction"
  | RC_RiskConfigurationMissing => "RiskConfigurationMissing"
  | RC_ReferenceDataUnavailable => "ReferenceDataUnavailable"
  | RC_OrderValueCalculationFailed => "OrderValueCalculationFailed"
  | RC_SystemUnavailable => "SystemUnavailable"
  | RC_MarkPriceUnavailable => "MarkPriceUnavailable"
  | RC_AccountAdjustmentBoundsExceeded => "AccountAdjustmentBoundsExceeded"
  | RC_ArithmeticOverflow => "ArithmeticOverflow"
  | RC_Custom => "Custom"
  | RC_Other => "Other"
  end.

Record Reject : Set := mkReject {
  reject_reason : string;
  reject_details : string;
  reject_policy : string;
  reject_user_data : Z;
  reject_code : RejectCode;
  reject_scope : RejectScope
}.

Record AccountBlock : Set := mkAccountBlock {
  block_reason : string;
  block_details : string;
  block_policy : string;
  block_user_data : Z;
  block_code : RejectCode;
  block_provenance : option Z
}.

#[export] Instance Reject_eq_dec : EqDecision Reject.
Proof. solve_decision. Defined.

(** [Reject::new], [Reject::with_user_data] and its [Display]. *)
Definition reject_new (policy : string) (scope : RejectScope) (code : RejectCode)
    (reason details : string) : Reject :=
  mkReject reason details policy 0 code scope.

Definition reject_with_user_data (self : Reject) (user_data : Z) : Reject :=
  mkReject (reject_reason self) (reject_details self) (reject_policy self) user_data
    (reject_code self) (reject_scope self).

Definition Reject_fmt (self : Reject) : string :=
  "[" +:+ reject_policy self +:+ "] " +:+ reject_reason self +:+ ": " +:+ reject_details self.

(** [AccountBlock::new], [with_user_data], [with_provenance]. *)
Definition account_block_new (policy : string) (code : RejectCode) (reason details : string) :
    AccountBlock :=
  mkAccountBlock reason details policy 0 code None.

Definition block_with_user_data (self : AccountBlock) (user_data : Z) : AccountBlock :=
  mkAccountBlock (block_reason self) (block_details self) (block_policy self) user_data
    (block_code self) (block_provenance self).

Definition block_with_provenance (self : AccountBlock) (provenance : option Z) : AccountBlock :=
  mkAccountBlock (block_reason self) (block_details self) (block_policy self)
    (block_user_data self) (block_code self) provenance.

(** The [==] of [AccountBlock] leaves the provenance out: an equivalence coarser
    than identity. *)
#[export] Instance AccountBlock_equiv : Equiv AccountBlock := fun a b =>
  block_reason a = block_reason b /\ block_details a = block_details b /\
  block_policy a = block_policy b /\ block_user_data a = block_user_data b /\
  block_code a = block_code b.

Definition AccountBlock_eqb (a b : AccountBlock) : bool :=
  bool_decide (block_reason a = block_reason b) &&
  bool_decide (block_details a = block_details b) &&
  bool_decide (block_policy a = block_policy b) &&
  (block_user_data a =? block_user_data b) &&
  bool_decide (block_code a = block_code b).

(** [impl From<AccountBlock> for Reject]. *)
Definition reject_from_block (block : AccountBlock) : Reject :=
  mkReject (block_reason block) (block_details block) (block_policy block)
    (block_user_data block) (block_code block) RS_Account.

Definition account_block_with_code (self : Reject) (code : RejectCode) : AccountBlock :=
  block_with_user_data
    (account_block_new (reject_policy self) code (reject_reason self) (reject_details self))
    (reject_user_data self).

(** ** [Rejects]

    [PR] is the policy result a collection may carry. *)
Record Rejects (PR : Type) : Type := mkRejects {
  rejects_list : list Reject;
  rejects_policy_result : option PR
}.
Arguments mkRejects {PR}.
Arguments rejects_list {PR}.
Arguments rejects_policy_result {PR}.

Definition rejects_new {PR} (rejects : list Reject) : Rejects PR := mkRejects rejects None.

Definition with_policy_result {PR} (self : Rejects PR) (result : PR) : Rejects PR :=
  mkRejects (rejects_list self) (Some result).

Definition into_vec {PR} (self : Rejects PR) : list Reject := rejects_list self.

Definition into_parts {PR} (self : Rejects PR) : list Reject * option PR :=
  (rejects_list self, rejects_policy_result self).

Definition rejects_from_reject {PR} (value : Reject) : Rejects PR := rejects_new [value].

(** [==] compares the rejects only. *)
#[export] Instance Rejects_equiv {PR} : Equiv (Rejects PR) := fun a b =>
  rejects_list a = rejects_list b.

Definition Rejects_fmt {PR} (self : Rejects PR) : string :=
  String.concat "; " (Reject_fmt <$> rejects_list self).

(** ** Facts *)

#[export] Instance AccountBlock_equivalence : Equivalence (≡@{AccountBlock}).
Proof. split; repeat intro; unfold equiv, AccountBlock_equiv in *; intuition congruence. Qed.

#[export] Instance Rejects_equivalence {PR} : Equivalence (≡@{Rejects PR}).
Proof. split; repeat intro; unfold equiv, Rejects_equiv in *; congruence. Qed.

Lemma AccountBlock_eqb_equiv a b : AccountBlock_eqb a b = true <-> a ≡ b.
Proof.
  unfold AccountBlock_eqb, equiv, AccountBlock_equiv.
  rewrite !andb_true_iff, !bool_decide_eq_true, Z.eqb_eq. tauto.
Qed.

(** What a block tells the next caller does not depend on its provenance. *)
#[export] Instance reject_from_block_proper : Proper ((≡) ==> (=)) reject_from_block.
Proof.
  intros [] [] (? & ? & ? & ? & ?). cbn in *. by subst.
Qed.

#[export] Instance into_vec_proper {PR} : Proper ((≡) ==> (=)) (@into_vec PR).
Proof. intros a b H. exact H. Qed.

(** Turning a reject into the block it latches and reading that block back
    changes the code and the scope, and nothing else. *)
Lemma account_block_roundtrip (r : Reject) (code : RejectCode) (p : option Z) :
  reject_from_block (block_with_provenance (account_block_with_code r code) p) =
  mkReject (reject_reason r) (reject_details r) (reject_policy r) (reject_user_data r) code RS_Account.
Proof. done. Qed.

(** [as_str] gives distinct codes distinct names. *)
Lemma RejectCode_as_str_inj (a b : RejectCode) :
  RejectCode_as_str a = RejectCode_as_str b -> a = b.
Proof. destruct a, b; first [done | discriminate 1]. Qed.
