(* ===== verification/AccountControl.v ===== *)
(** * AccountControl: account groups and the blocked set

    src/crates/openpit/src/core/account_groups.rs and account_control.rs.  The
    storages are finite maps; every mutator runs inside one exclusive section of
    the source and is one function here.  [check] takes no lock: its reads are
    separate, see [with_blocking_cause], and may fall between the single writes of a
    mutator, see [mutator_writes]. *)
From S2P Require Import Prelude.
From S2P Require Import Decimal.
From S2P Require Import Param.
From S2P Require Import Identifiers.
From S2P Require Import Mutation.
From S2P Require Import Reject.
Open Scope Z_scope.

(** ** [AccountGroups] *)

Inductive AccountGroupError : Set :=
| AG_ReservedGroup
| AG_AlreadyRegistered (account : AccountId) (current_group : AccountGroupId)
| AG_NotInGroup (account : AccountId) (requested_group : AccountGroupId)
    (current_group : option AccountGroupId).

Abbreviation AccountGroups := (gmap AccountId AccountGroupId).

Definition group_of (self : AccountGroups) (account : AccountId) : option AccountGroupId :=
  self !! account.

(** The first loop of [register_group]: an account that has a group. *)
Fixpoint find_registered (self : AccountGroups) (accounts : list AccountId) :
    option (AccountId * AccountGroupId) :=
  match accounts with
  | [] => None
  | account :: accounts =>
      match self !! account with
      | Some current_group => Some (account, current_group)
      | None => find_registered self accounts
      end
  end.

Definition register_group (self : AccountGroups) (accounts : list AccountId)
    (group : AccountGroupId) : result AccountGroupError unit * AccountGroups :=
  if decide (group = DEFAULT_ACCOUNT_GROUP) then (Err AG_ReservedGroup, self)
  else match find_registered self accounts with
       | Some (account, current_group) => (Err (AG_AlreadyRegistered account current_group), self)
       | None => (Ok tt, foldl (fun m account => <[account := group]> m) self accounts)
       end.

Fixpoint find_not_in_group (self : AccountGroups) (accounts : list AccountId)
    (group : AccountGroupId) : option (AccountId * option AccountGroupId) :=
  match accounts with
  | [] => None
  | account :: accounts =>
      if decide (self !! account = Some group) then find_not_in_group self accounts group
      else Some (account, self !! account)
  end.

Definition unregister_group (self : AccountGroups) (accounts : list AccountId)
    (group : AccountGroupId) : result AccountGroupError unit * AccountGroups :=
  if decide (group = DEFAULT_ACCOUNT_GROUP) then (Err AG_ReservedGroup, self)
  else match find_not_in_group self accounts group with
       | Some (account, current_group) => (Err (AG_NotInGroup account group current_group), self)
       | None => (Ok tt, foldl (fun m account => delete account m) self accounts)
       end.

Definition groups_retire_account (self : AccountGroups) (account : AccountId) : AccountGroups :=
  delete account self.

Definition memberships (self : AccountGroups) : list (AccountId * AccountGroupId) :=
  map_to_list self.

(** ** [BlockedAccounts] *)

Inductive AccountBlockError : Set :=
| AB_ReservedGroup
| AB_AccountNotBlocked (account : AccountId)
| AB_GroupNotBlocked (group : AccountGroupId).

Record BlockedAccounts : Type := mkBlockedAccounts {
  ba_any_flag : bool;
  ba_all_flag : bool;
  ba_blocked_groups_any_flag : bool;
  ba_accounts : gmap AccountId AccountBlock;
  ba_blocked_groups : gmap AccountGroupId AccountBlock;
  ba_global_block : option AccountBlock
}.

Definition blocked_accounts_new : BlockedAccounts :=
  mkBlockedAccounts false false false ∅ ∅ None.

Definition map_is_empty {K A} `{Countable K} (m : gmap K A) : bool := bool_decide (m = ∅).

(** [insert_if_absent] of a storage; returns whether it inserted. *)
Definition insert_if_absent {K A} `{Countable K} (key : K) (value : A) (m : gmap K A) :
    bool * gmap K A :=
  match m !! key with Some _ => (false, m) | None => (true, <[key := value]> m) end.

Definition set_accounts (self : BlockedAccounts) (m : gmap AccountId AccountBlock) (any : bool) :
    BlockedAccounts :=
  mkBlockedAccounts any (ba_all_flag self) (ba_blocked_groups_any_flag self) m
    (ba_blocked_groups self) (ba_global_block self).

Definition set_groups (self : BlockedAccounts) (m : gmap AccountGroupId AccountBlock)
    (any : bool) : BlockedAccounts :=
  mkBlockedAccounts (ba_any_flag self) (ba_all_flag self) any (ba_accounts self) m
    (ba_global_block self).

Definition block_account (self : BlockedAccounts) (id : AccountId) (cause : AccountBlock) :
    bool * BlockedAccounts :=
  let '(inserted, m) := insert_if_absent id cause (ba_accounts self) in
  (inserted, set_accounts self m true).

(** The flag store shared by the removals. *)
Definition after_account_removal (self : BlockedAccounts) (m : gmap AccountId AccountBlock) :
    BlockedAccounts :=
  set_accounts self m
    (if map_is_empty m && negb (ba_all_flag self) then false else ba_any_flag self).

Definition invalidate_provenance (self : BlockedAccounts) (id : AccountId) (provenance : Z) :
    option AccountBlock * BlockedAccounts :=
  match ba_accounts self !! id with
  | Some cause =>
      if bool_decide (block_provenance cause = Some provenance)
      then (Some cause, after_account_removal self (delete id (ba_accounts self)))
      else (None, self)
  | None => (None, self)
  end.

Definition block_all (self : BlockedAccounts) : BlockedAccounts :=
  mkBlockedAccounts true true (ba_blocked_groups_any_flag self) (ba_accounts self)
    (ba_blocked_groups self) (ba_global_block self).

Definition block_all_with_cause (self : BlockedAccounts) (cause : AccountBlock) :
    BlockedAccounts :=
  mkBlockedAccounts true true (ba_blocked_groups_any_flag self) (ba_accounts self)
    (ba_blocked_groups self)
    (match ba_global_block self with Some b => Some b | None => Some cause end).

Definition unblock_all (self : BlockedAccounts) : BlockedAccounts :=
  mkBlockedAccounts (if map_is_empty (ba_accounts self) then false else ba_any_flag self) false
    (ba_blocked_groups_any_flag self) (ba_accounts self) (ba_blocked_groups self) None.

Definition unblock_account (self : BlockedAccounts) (id : AccountId) : BlockedAccounts :=
  after_account_removal self (delete id (ba_accounts self)).

Definition replace_reason (self : BlockedAccounts) (id : AccountId) (block : AccountBlock) :
    result AccountBlockError unit * BlockedAccounts :=
  match ba_accounts self !! id with
  | Some _ => (Ok tt, set_accounts self (<[id := block]> (ba_accounts self)) (ba_any_flag self))
  | None => (Err (AB_AccountNotBlocked id), self)
  end.

Definition block_group (self : BlockedAccounts) (group : AccountGroupId) (cause : AccountBlock) :
    result AccountBlockError unit * BlockedAccounts :=
  if decide (group = DEFAULT_ACCOUNT_GROUP) then (Err AB_ReservedGroup, self)
  else (Ok tt, set_groups self (insert_if_absent group cause (ba_blocked_groups self)).2 true).

Definition unblock_group (self : BlockedAccounts) (group : AccountGroupId) :
    result AccountBlockError unit * BlockedAccounts :=
  if decide (group = DEFAULT_ACCOUNT_GROUP) then (Err AB_ReservedGroup, self)
  else let m := delete group (ba_blocked_groups self) in
       (Ok tt, set_groups self m
                 (if map_is_empty m then false else ba_blocked_groups_any_flag self)).

Definition replace_group_reason (self : BlockedAccounts) (group : AccountGroupId)
    (block : AccountBlock) : result AccountBlockError unit * BlockedAccounts :=
  if decide (group = DEFAULT_ACCOUNT_GROUP) then (Err AB_ReservedGroup, self)
  else match ba_blocked_groups self !! group with
       | Some _ => (Ok tt, set_groups self (<[group := block]> (ba_blocked_groups self))
                             (ba_blocked_groups_any_flag self))
       | None => (Err (AB_GroupNotBlocked group), self)
       end.

(** [report.account_id()] is the argument; an unreadable account blocks all. *)
Definition record_execution_report {E} (self : BlockedAccounts) (report_account : result E AccountId)
    (cause : AccountBlock) : BlockedAccounts :=
  match report_account with
  | Ok id => (block_account self id cause).2
  | Err _ => block_all self
  end.

Definition record_pre_trade (self : BlockedAccounts) (account : option AccountId)
    (cause : AccountBlock) : BlockedAccounts :=
  match account with Some account => (block_account self account cause).2 | None => self end.

Definition new_mutation_finalizer_block : AccountBlock :=
  account_block_new "Engine" RC_SystemUnavailable "mutation finalizer failed"
    "a mutation commit or rollback callback failed; engine state may be inconsistent".

(** [AccountBlockHandle::record_mutation_failure]. *)
Definition handle_record_mutation_failure (self : BlockedAccounts) (account : option AccountId)
    (scope : MutationFailureScope) : BlockedAccounts :=
  match scope, account with
  | ScopeAccount, Some account => (block_account self account new_mutation_finalizer_block).2
  | ScopeAccount, None | ScopeGlobal, _ => block_all_with_cause self new_mutation_finalizer_block
  end.

(** ** [check] *)

(** What the lock-free check observes: each shared read may see a different
    moment of the registry and of the blocked set, also one in the middle of a
    mutator ([BlockedSystem]).  The fields follow the order in which the source
    performs the reads. *)
Record Observed : Type := mkObserved {
  at_all_flag : BlockedAccounts;
  at_any_flag : BlockedAccounts;
  at_groups_flag : BlockedAccounts;
  at_accounts : BlockedAccounts;
  at_registry : AccountGroups;
  at_blocked_groups : BlockedAccounts;
  at_global_block : BlockedAccounts
}.

Definition with_blocking_cause {Output} (o : Observed) (account_id : option AccountId)
    (on_specific : AccountBlock -> Output) (on_global on_unverifiable : Output) :
    option Output :=
  let all_blocking := ba_all_flag (at_all_flag o) in
  let account_blocking := all_blocking || ba_any_flag (at_any_flag o) in
  let group_blocking := ba_blocked_groups_any_flag (at_groups_flag o) in
  if negb account_blocking && negb group_blocking then None
  else match account_id with
  | None => Some on_unverifiable
  | Some id =>
      let by_account := if account_blocking then ba_accounts (at_accounts o) !! id else None in
      let by_group :=
        if group_blocking
        then group ← group_of (at_registry o) id; ba_blocked_groups (at_blocked_groups o) !! group
        else None in
      match by_account, by_group with
      | Some block, _ => Some (on_specific block)
      | None, Some block => Some (on_specific block)
      | None, None =>
          if negb all_blocking then None
          else match ba_global_block (at_global_block o) with
               | Some block => Some (on_specific block)
               | None => Some on_global
               end
      end
  end.

Definition new_account_blocked_rejects {PR} : Rejects PR :=
  rejects_new [reject_new "Engine" RS_Account RC_AccountBlocked
    "account is blocked due to kill-switch"
    "kill-switch was previously triggered for this account"].

Definition new_unverifiable_block_check_rejects {PR} (scope : RejectScope) : Rejects PR :=
  rejects_new [reject_new "Engine" scope RC_MissingRequiredField
    "account could not be verified as account ID is missing"
    "unable to check account for blocking"].

Definition check_observed {PR} (o : Observed) (account : option AccountId)
    (operation_scope : RejectScope) : option (Rejects PR) :=
  with_blocking_cause o account (fun block => rejects_new [reject_from_block block])
    new_account_blocked_rejects (new_unverifiable_block_check_rejects operation_scope).

(** A check during which nothing changes. *)
Definition quiescent (self : BlockedAccounts) (groups : AccountGroups) : Observed :=
  mkObserved self self self self groups self self.

Definition check {PR} (self : BlockedAccounts) (groups : AccountGroups)
    (account : option AccountId) (operation_scope : RejectScope) : option (Rejects PR) :=
  check_observed (quiescent self groups) account operation_scope.

Definition is_blocked (self : BlockedAccounts) (groups : AccountGroups) (id : AccountId) : bool :=
  match with_blocking_cause (quiescent self groups) (Some id) (fun _ => tt) tt tt with
  | Some _ => true
  | None => false
  end.

(** ** [DeferredAccountOperations] *)

Inductive DeferredAccountOperation : Type :=
| DeferredBlock (account : AccountId) (block : AccountBlock)
| DeferredInvalidateProvenance (account : AccountId) (provenance : Z).

Record DeferredAccountOperations : Type := mkDeferred {
  df_first_block : option AccountBlock;
  df_operations : list DeferredAccountOperation;
  df_is_active : bool
}.

Definition deferred_default : DeferredAccountOperations := mkDeferred None [] true.

Definition record_block (self : DeferredAccountOperations) (account : AccountId)
    (block : AccountBlock) : result AccountBlock unit * DeferredAccountOperations :=
  if negb (df_is_active self) then (Err block, self)
  else (Ok tt, mkDeferred
                 (match df_first_block self with Some b => Some b | None => Some block end)
                 (df_operations self ++ [DeferredBlock account block]) true).

Definition record_invalidate_provenance (self : DeferredAccountOperations) (account : AccountId)
    (provenance : Z) : bool * DeferredAccountOperations :=
  if negb (df_is_active self) then (false, self)
  else (true, mkDeferred (df_first_block self)
                (df_operations self ++ [DeferredInvalidateProvenance account provenance]) true).

Definition apply_operation (blocked : BlockedAccounts) (op : DeferredAccountOperation) :
    BlockedAccounts :=
  match op with
  | DeferredBlock account block => (block_account blocked account block).2
  | DeferredInvalidateProvenance account provenance =>
      (invalidate_provenance blocked account provenance).2
  end.

Definition deferred_apply (self : DeferredAccountOperations) (blocked : BlockedAccounts) :
    DeferredAccountOperations * BlockedAccounts :=
  (mkDeferred None [] false, foldl apply_operation blocked (df_operations self)).

Definition deferred_abandon (self : DeferredAccountOperations) : DeferredAccountOperations :=
  mkDeferred None [] false.

(** [AccountControl::block] and [AccountControl::invalidate_provenance] on the
    control's deferred operations, if it has them, and the shared blocked set. *)
Definition control_block (deferred : option DeferredAccountOperations) (blocked : BlockedAccounts)
    (account : AccountId) (block : AccountBlock) :
    option DeferredAccountOperations * BlockedAccounts :=
  match deferred with
  | Some d =>
      match record_block d account block with
      | (Ok _, d) => (Some d, blocked)
      | (Err block, d) => (Some d, (block_account blocked account block).2)
      end
  | None => (None, (block_account blocked account block).2)
  end.

Definition control_invalidate_provenance (deferred : option DeferredAccountOperations)
    (blocked : BlockedAccounts) (account : AccountId) (provenance : Z) :
    option AccountBlock * option DeferredAccountOperations * BlockedAccounts :=
  match deferred with
  | Some d =>
      match record_invalidate_provenance d account provenance with
      | (true, d) => (None, Some d, blocked)
      | (false, d) =>
          let '(removed, blocked) := invalidate_provenance blocked account provenance in
          (removed, Some d, blocked)
      end
  | None =>
      let '(removed, blocked) := invalidate_provenance blocked account provenance in
      (removed, None, blocked)
  end.

(** ** Transitions and invariant of the blocked set *)

Inductive ba_step (s : BlockedAccounts) : BlockedAccounts -> Prop :=
| step_block_account id cause : ba_step s (block_account s id cause).2
| step_invalidate_provenance id p : ba_step s (invalidate_provenance s id p).2
| step_block_all : ba_step s (block_all s)
| step_block_all_with_cause cause : ba_step s (block_all_with_cause s cause)
| step_unblock_all : ba_step s (unblock_all s)
| step_unblock_account id : ba_step s (unblock_account s id)
| step_replace_reason id b : ba_step s (replace_reason s id b).2
| step_block_group g cause : ba_step s (block_group s g cause).2
| step_unblock_group g : ba_step s (unblock_group s g).2
| step_replace_group_reason g b : ba_step s (replace_group_reason s g b).2.

Inductive ba_reachable : BlockedAccounts -> Prop :=
| ba_init : ba_reachable blocked_accounts_new
| ba_next s s' : ba_reachable s -> ba_step s s' -> ba_reachable s'.

(** The flags say exactly what the tables hold. *)
Record ba_inv (s : BlockedAccounts) : Prop := {
  inv_any : ba_any_flag s = true <-> ba_accounts s <> ∅ \/ ba_all_flag s = true;
  inv_groups : ba_blocked_groups_any_flag s = true <-> ba_blocked_groups s <> ∅;
  inv_global : ba_global_block s <> None -> ba_all_flag s = true;
  inv_default : ba_blocked_groups s !! DEFAULT_ACCOUNT_GROUP = None
}.

(** The abstract blocked set: the cause in force for an account, if any; [None]
    inside means the global block without a stored cause. *)
Definition blocking_cause (s : BlockedAccounts) (groups : AccountGroups) (id : AccountId) :
    option (option AccountBlock) :=
  match ba_accounts s !! id, group_of groups id ≫= (ba_blocked_groups s !!.), ba_all_flag s with
  | Some b, _, _ => Some (Some b)
  | None, Some b, _ => Some (Some b)
  | None, None, true => Some (ba_global_block s)
  | None, None, false => None
  end.

Definition nothing_blocked (s : BlockedAccounts) : Prop :=
  ba_accounts s = ∅ /\ ba_blocked_groups s = ∅ /\ ba_all_flag s = false.

Section MapFacts.
Context `{Countable K} {A : Type}.
Implicit Types m : gmap K A.

Lemma map_is_empty_spec m : reflect (m = ∅) (map_is_empty m).
Proof. apply bool_decide_reflect. Qed.

Lemma insert_if_absent_lookup k v m k' :
  (insert_if_absent k v m).2 !! k' =
  if decide (k' = k) then Some (default v (m !! k)) else m !! k'.
Proof.
  unfold insert_if_absent. destruct (m !! k) eqn:E; cbn; case_decide; subst;
    by rewrite ?E, ?lookup_insert_eq, ?lookup_insert_ne.
Qed.

Lemma insert_if_absent_nonempty k v m : (insert_if_absent k v m).2 <> ∅.
Proof.
  intros E. assert (Hl : (insert_if_absent k v m).2 !! k = None) by by rewrite E, lookup_empty.
  rewrite insert_if_absent_lookup, decide_True in Hl by done. done.
Qed.

Lemma lookup_nonempty m k x : m !! k = Some x -> m <> ∅.
Proof. intros Hl ->. by rewrite lookup_empty in Hl. Qed.

Lemma insert_present_nonempty m k (x : A) : <[k := x]> m <> ∅.
Proof. apply insert_non_empty. Qed.
End MapFacts.

Create HintDb blocked.
#[export] Hint Resolve insert_if_absent_nonempty lookup_nonempty insert_present_nonempty : blocked.

Lemma block_account_accounts s id cause :
  (block_account s id cause).2 = set_accounts s (insert_if_absent id cause (ba_accounts s)).2 true.
Proof. unfold block_account. by destruct (insert_if_absent _ _ _). Qed.

(** Propositional reasoning on flags and emptiness facts. *)
Ltac solve_flags := intuition congruence.

Lemma after_account_removal_inv s m : ba_inv s ->
  (ba_any_flag s = false -> m = ∅) -> ba_inv (after_account_removal s m).
Proof.
  intros [Ha Hg Hgl Hd] Hm. unfold after_account_removal. split; cbn; try done.
  destruct (map_is_empty_spec m) as [->|E], (ba_all_flag s) eqn:Eall; destruct (ba_any_flag s) eqn:Eany; cbn; solve_flags.
Qed.

Lemma delete_any_flag s id : ba_inv s -> ba_any_flag s = false -> delete id (ba_accounts s) = ∅.
Proof.
  intros Hi Hf. assert (E : ba_accounts s = ∅).
  { destruct (decide (ba_accounts s = ∅)) as [|Hne]; [done|].
    destruct (inv_any _ Hi) as [_ H]. rewrite H in Hf by auto. done. }
  by rewrite E, delete_empty.
Qed.

Lemma set_groups_inv s m b : ba_inv s -> (b = true <-> m <> ∅) ->
  m !! DEFAULT_ACCOUNT_GROUP = None -> ba_inv (set_groups s m b).
Proof. intros [Ha Hg Hgl Hd] Hb Hm. by split. Qed.

Lemma ba_step_inv s s' : ba_inv s -> ba_step s s' -> ba_inv s'.
Proof.
  intros Hi [id cause|id p| |cause| |id|id b|g cause|g|g b].
  - rewrite block_account_accounts. destruct Hi. split; cbn; try done.
    split; [auto using insert_if_absent_nonempty|done].
  - unfold invalidate_provenance. destruct (ba_accounts s !! id) eqn:E; [|done].
    case_bool_decide; [|done]. apply after_account_removal_inv; [done|].
    by apply delete_any_flag.
  - destruct Hi. split; cbn; solve_flags.
  - destruct Hi. split; cbn; solve_flags.
  - destruct Hi as [Ha Hg Hgl Hd]. split; cbn; try done.
    destruct (map_is_empty_spec (ba_accounts s)); solve_flags.
  - apply after_account_removal_inv; [done|]. by apply delete_any_flag.
  - unfold replace_reason. destruct (ba_accounts s !! id) eqn:E; [|done].
    destruct Hi as [Ha Hg Hgl Hd]. split; cbn; try done.
    apply lookup_nonempty in E. pose proof (insert_present_nonempty (ba_accounts s) id b).
    solve_flags.
  - unfold block_group. case_decide; [done|]. apply set_groups_inv; [done| |].
    + split; [auto with blocked|done].
    + rewrite insert_if_absent_lookup, decide_False by congruence. apply Hi.
  - unfold unblock_group. case_decide; [done|]. apply set_groups_inv; [done| |].
    + destruct (map_is_empty_spec (delete g (ba_blocked_groups s))) as [E|Hne]; [solve_flags|].
      rewrite (inv_groups _ Hi). split; [done|]. intros _ Hs. apply Hne. by rewrite Hs, delete_empty.
    + rewrite lookup_delete_ne by congruence. apply Hi.
  - unfold replace_group_reason. case_decide; [done|].
    destruct (ba_blocked_groups s !! g) eqn:E; [|done]. apply set_groups_inv; [done| |].
    + rewrite (inv_groups _ Hi). apply lookup_nonempty in E.
      pose proof (insert_present_nonempty (ba_blocked_groups s) g b). solve_flags.
    + rewrite lookup_insert_ne by congruence. apply Hi.
Qed.

Lemma ba_new_inv : ba_inv blocked_accounts_new.
Proof. split; cbn; try done; naive_solver. Qed.

Lemma ba_inv_of_reachable s : ba_reachable s -> ba_inv s.
Proof. induction 1; [apply ba_new_inv|eauto using ba_step_inv]. Qed.

(** Whatever sequence of block, unblock, replace and provenance operations
    the engine and the operator perform, the three fast-path flags agree with the
    tables: no block is ever hidden behind a cleared flag and no cleared table
    keeps the slow path armed. *)
Theorem ba_reachable_inv s : ba_reachable s -> ba_inv s.
Proof. apply ba_inv_of_reachable. Qed.

Lemma any_flag_of_account s id b : ba_inv s -> ba_accounts s !! id = Some b -> ba_any_flag s = true.
Proof. intros [Ha _ _ _] Hl. apply Ha. eauto with blocked. Qed.

Lemma groups_flag_of_group s g b : ba_inv s -> ba_blocked_groups s !! g = Some b ->
  ba_blocked_groups_any_flag s = true.
Proof. intros [_ Hg _ _] Hl. apply Hg. eauto with blocked. Qed.

Lemma flags_clear s : ba_inv s ->
  (ba_any_flag s = false /\ ba_blocked_groups_any_flag s = false <-> nothing_blocked s).
Proof.
  intros [Ha Hg _ _]. unfold nothing_blocked.
  destruct (ba_any_flag s), (ba_blocked_groups_any_flag s), (ba_all_flag s);
    destruct (decide (ba_accounts s = ∅)), (decide (ba_blocked_groups s = ∅)); solve_flags.
Qed.

Lemma with_blocking_cause_quiescent {Output} s groups id (f : AccountBlock -> Output) g u :
  ba_inv s ->
  with_blocking_cause (quiescent s groups) (Some id) f g u =
  (fun c => match c with Some b => f b | None => g end) <$> blocking_cause s groups id.
Proof.
  intros Hi. unfold with_blocking_cause, blocking_cause, quiescent; cbn.
  assert (Hacc : (if ba_all_flag s || ba_any_flag s then ba_accounts s !! id else None)
                 = ba_accounts s !! id).
  { destruct (ba_accounts s !! id) as [b|] eqn:E; [|by destruct (_ || _)].
    by rewrite (any_flag_of_account _ _ _ Hi E), orb_true_r. }
  assert (Hgrp : forall o, (if ba_blocked_groups_any_flag s then o ≫= (ba_blocked_groups s !!.)
                 else None) = o ≫= (ba_blocked_groups s !!.)).
  { intros [g'|]; cbn; [|by destruct (ba_blocked_groups_any_flag s)].
    destruct (ba_blocked_groups s !! g') as [b|] eqn:E; [|by destruct (ba_blocked_groups_any_flag s)].
    by rewrite (groups_flag_of_group _ _ _ Hi E). }
  rewrite Hacc, Hgrp.
  destruct (negb _ && negb _) eqn:E.
  - apply andb_true_iff in E as [[E1 E2]%negb_true_iff%orb_false_iff E3%negb_true_iff].
    destruct (proj1 (flags_clear s Hi) (conj E2 E3)) as (-> & -> & ->).
    rewrite lookup_empty. by destruct (group_of groups id) as [g'|]; cbn; rewrite ?lookup_empty.
  - destruct (ba_accounts s !! id); [done|].
    destruct (mbind (ba_blocked_groups s !!.) (group_of groups id)); [done|].
    by destruct (ba_all_flag s), (ba_global_block s).
Qed.

(** C17: [check] refines the abstract blocked set: for a readable account it
    rejects exactly when a cause is in force and reports that cause, the
    account's own before its group's before the global one; an unreadable account
    passes exactly when nothing at all is blocked.  [is_blocked] agrees. *)
Theorem check_spec {PR} (s : BlockedAccounts) (groups : AccountGroups) (scope : RejectScope) :
  ba_reachable s ->
  (forall id, check (PR:=PR) s groups (Some id) scope =
     (fun c => match c with
               | Some b => rejects_new [reject_from_block b]
               | None => new_account_blocked_rejects
               end) <$> blocking_cause s groups id) /\
  (forall id, is_blocked s groups id = bool_decide (blocking_cause s groups id <> None)) /\
  (check (PR:=PR) s groups None scope = None <-> nothing_blocked s) /\
  (forall r, check (PR:=PR) s groups None scope = Some r ->
     r = new_unverifiable_block_check_rejects scope).
Proof.
  intros Hi%ba_inv_of_reachable. split_and!.
  - intros id. unfold check, check_observed. by rewrite with_blocking_cause_quiescent.
  - intros id. unfold is_blocked. rewrite with_blocking_cause_quiescent by done.
    by destruct (blocking_cause s groups id).
  - rewrite <- flags_clear by done. unfold check, check_observed, with_blocking_cause; cbn.
    pose proof (proj2 (inv_any _ Hi)).
    destruct (ba_all_flag s), (ba_any_flag s), (ba_blocked_groups_any_flag s); cbn; solve_flags.
  - intros r. unfold check, check_observed, with_blocking_cause; cbn. destruct (_ && _); congruence.
Qed.

(** The cause in force for an account at one moment. *)
Definition account_cause (s : BlockedAccounts) (id : AccountId) (b : AccountBlock) : Prop :=
  ba_accounts s !! id = Some b.
(** ** The check beside running mutators *)

(** The mutators, each of which holds the mutation guard while it runs. *)
Inductive Mutator : Type :=
| M_BlockAccount (id : AccountId) (cause : AccountBlock)
| M_InvalidateProvenance (id : AccountId) (provenance : Z)
| M_BlockAll
| M_BlockAllWithCause (cause : AccountBlock)
| M_UnblockAll
| M_UnblockAccount (id : AccountId)
| M_ReplaceReason (id : AccountId) (block : AccountBlock)
| M_BlockGroup (group : AccountGroupId) (cause : AccountBlock)
| M_UnblockGroup (group : AccountGroupId)
| M_ReplaceGroupReason (group : AccountGroupId) (block : AccountBlock).

Definition mutate (m : Mutator) (s : BlockedAccounts) : BlockedAccounts :=
  match m with
  | M_BlockAccount id cause => (block_account s id cause).2
  | M_InvalidateProvenance id provenance => (invalidate_provenance s id provenance).2
  | M_BlockAll => block_all s
  | M_BlockAllWithCause cause => block_all_with_cause s cause
  | M_UnblockAll => unblock_all s
  | M_UnblockAccount id => unblock_account s id
  | M_ReplaceReason id block => (replace_reason s id block).2
  | M_BlockGroup group cause => (block_group s group cause).2
  | M_UnblockGroup group => (unblock_group s group).2
  | M_ReplaceGroupReason group block => (replace_group_reason s group block).2
  end.

(** One write to a table or to a flag.  A flag is disarmed only while its table is
    empty, the flag of the accounts mostly also only while no global block is active:
    these reads need no step of their own, since the guard keeps other writers out. *)
Inductive Write : Type :=
| W_InsertAccount (id : AccountId) (cause : AccountBlock)
| W_ReplaceAccount (id : AccountId) (block : AccountBlock)
| W_RemoveAccount (id : AccountId)
| W_ArmAny
| W_DisarmAny (unless_all : bool)
| W_StoreAll (active : bool)
| W_InsertGlobal (cause : AccountBlock)
| W_RemoveGlobal
| W_InsertGroup (group : AccountGroupId) (cause : AccountBlock)
| W_ReplaceGroup (group : AccountGroupId) (block : AccountBlock)
| W_RemoveGroup (group : AccountGroupId)
| W_ArmGroups
| W_DisarmGroups.

Definition set_global (self : BlockedAccounts) (all : bool) (cause : option AccountBlock) : BlockedAccounts :=
  mkBlockedAccounts (ba_any_flag self) all (ba_blocked_groups_any_flag self) (ba_accounts self)
    (ba_blocked_groups self) cause.

Definition run_write (s : BlockedAccounts) (w : Write) : BlockedAccounts :=
  match w with
  | W_InsertAccount id cause => set_accounts s (insert_if_absent id cause (ba_accounts s)).2 (ba_any_flag s)
  | W_ReplaceAccount id block => set_accounts s (<[id := block]> (ba_accounts s)) (ba_any_flag s)
  | W_RemoveAccount id => set_accounts s (delete id (ba_accounts s)) (ba_any_flag s)
  | W_ArmAny => set_accounts s (ba_accounts s) true
  | W_DisarmAny unless_all =>
      set_accounts s (ba_accounts s)
        (if map_is_empty (ba_accounts s) && negb (unless_all && ba_all_flag s) then false else ba_any_flag s)
  | W_StoreAll active => set_global s active (ba_global_block s)
  | W_InsertGlobal cause =>
      set_global s (ba_all_flag s) (match ba_global_block s with Some b => Some b | None => Some cause end)
  | W_RemoveGlobal => set_global s (ba_all_flag s) None
  | W_InsertGroup group cause =>
      set_groups s (insert_if_absent group cause (ba_blocked_groups s)).2 (ba_blocked_groups_any_flag s)
  | W_ReplaceGroup group block => set_groups s (<[group := block]> (ba_blocked_groups s)) (ba_blocked_groups_any_flag s)
  | W_RemoveGroup group => set_groups s (delete group (ba_blocked_groups s)) (ba_blocked_groups_any_flag s)
  | W_ArmGroups => set_groups s (ba_blocked_groups s) true
  | W_DisarmGroups =>
      set_groups s (ba_blocked_groups s)
        (if map_is_empty (ba_blocked_groups s) then false else ba_blocked_groups_any_flag s)
  end.

(** The writes of a mutator that took the guard in a state, in their order. *)
Definition mutator_writes (m : Mutator) (s : BlockedAccounts) : list Write :=
  match m with
  | M_BlockAccount id cause => [W_InsertAccount id cause; W_ArmAny]
  | M_InvalidateProvenance id provenance =>
      match ba_accounts s !! id with
      | Some cause =>
          if bool_decide (block_provenance cause = Some provenance) then [W_RemoveAccount id; W_DisarmAny true] else []
      | None => []
      end
  | M_BlockAll => [W_ArmAny; W_StoreAll true]
  | M_BlockAllWithCause cause => [W_InsertGlobal cause; W_ArmAny; W_StoreAll true]
  | M_UnblockAll => [W_RemoveGlobal; W_StoreAll false; W_DisarmAny false]
  | M_UnblockAccount id => [W_RemoveAccount id; W_DisarmAny true]
  | M_ReplaceReason id block =>
      match ba_accounts s !! id with Some _ => [W_ReplaceAccount id block] | None => [] end
  | M_BlockGroup group cause =>
      if decide (group = DEFAULT_ACCOUNT_GROUP) then [] else [W_InsertGroup group cause; W_ArmGroups]
  | M_UnblockGroup group =>
      if decide (group = DEFAULT_ACCOUNT_GROUP) then [] else [W_RemoveGroup group; W_DisarmGroups]
  | M_ReplaceGroupReason group block =>
      if decide (group = DEFAULT_ACCOUNT_GROUP) then []
      else match ba_blocked_groups s !! group with Some _ => [W_ReplaceGroup group block] | None => [] end
  end.

(** Uninterrupted, a mutator's writes are the mutator. *)
Lemma mutator_writes_run m s : foldl run_write s (mutator_writes m s) = mutate m s.
Proof.
  destruct s as [any all groups_any accounts groups global], m as [id c|id p| |c| |id|id b|g c|g|g b];
    cbn [mutator_writes mutate].
  - by rewrite block_account_accounts.
  - unfold invalidate_provenance. cbn. destruct (accounts !! id); [|done]. by case_bool_decide.
  - done.
  - done.
  - cbn. unfold unblock_all. cbn. by rewrite andb_true_r.
  - done.
  - unfold replace_reason. cbn. by destruct (accounts !! id).
  - unfold block_group. by case_decide.
  - unfold unblock_group. by case_decide.
  - unfold replace_group_reason. case_decide; [done|]. cbn. by destruct (groups !! g).
Qed.

Lemma mutate_step m s : ba_step s (mutate m s).
Proof. destruct m; constructor. Qed.

(** The shared set and, while the guard is held, its holder with the writes it has
    yet to make. *)
Record BlockedSystem : Type := mkBlockedSystem {
  bs_set : BlockedAccounts;
  bs_running : option (Mutator * list Write)
}.

Definition blocked_system_new : BlockedSystem := mkBlockedSystem blocked_accounts_new None.

Inductive bs_step : BlockedSystem -> BlockedSystem -> Prop :=
| bs_lock s m : bs_step (mkBlockedSystem s None) (mkBlockedSystem s (Some (m, mutator_writes m s)))
| bs_write s m w ws : bs_step (mkBlockedSystem s (Some (m, w :: ws))) (mkBlockedSystem (run_write s w) (Some (m, ws)))
| bs_unlock s m : bs_step (mkBlockedSystem s (Some (m, []))) (mkBlockedSystem s None).

(** Between mutators the set is one that whole mutators make. *)
Definition guarded (x : BlockedSystem) : Prop := exists s, ba_reachable s /\
  match bs_running x with
  | None => bs_set x = s
  | Some (m, ws) => exists made, mutator_writes m s = made ++ ws /\ bs_set x = foldl run_write s made
  end.

Lemma bs_reachable_guarded x : rtc bs_step blocked_system_new x -> guarded x.
Proof.
  revert x. apply rtc_ind_r; [exists blocked_accounts_new; split; [apply ba_init|done]|].
  intros y z _ Hstep (s & Hs & Hy). destruct Hstep as [s' m|s' m w ws|s' m]; cbn in Hy.
  - subst s'. exists s. split; [done|]. by exists [].
  - destruct Hy as (made & E & ->). exists s. split; [done|]. exists (made ++ [w]). by rewrite <- app_assoc, foldl_app.
  - destruct Hy as (made & E & ->). exists (mutate m s). split; [by eapply ba_next, mutate_step|].
    rewrite app_nil_r in E. by rewrite <- mutator_writes_run, E.
Qed.

(** What a block is on, and the mutators that put it there and take it away. *)
Inductive BlockTarget : Type := T_Account (id : AccountId) | T_Group (group : AccountGroupId) | T_All.

Definition imposes (m : Mutator) (t : BlockTarget) : Prop :=
  match t, m with
  | T_Account id, M_BlockAccount id' _ => id' = id
  | T_Group group, M_BlockGroup group' _ => group' = group /\ group <> DEFAULT_ACCOUNT_GROUP
  | T_All, (M_BlockAll | M_BlockAllWithCause _) => True
  | _, _ => False
  end.

Definition lifts (m : Mutator) (t : BlockTarget) : Prop :=
  match t, m with
  | T_Account id, (M_UnblockAccount id' | M_InvalidateProvenance id' _) => id' = id
  | T_Group group, M_UnblockGroup group' => group' = group
  | T_All, M_UnblockAll => True
  | _, _ => False
  end.

(** The block was put there by a mutator that has just returned. *)
Inductive block_returned (t : BlockTarget) : BlockedSystem -> Prop :=
| br_intro s m ws s' : imposes m t -> ws = mutator_writes m s -> s' = foldl run_write s ws ->
    block_returned t (mkBlockedSystem s' None).

(** A step that does not begin to take it away: one that invalidates a provenance the
    block does not carry writes nothing. *)
Inductive keeping (t : BlockTarget) (x y : BlockedSystem) : Prop :=
| keeping_intro : bs_step x y -> (forall m ws, bs_running y = Some (m, ws) -> ws = [] \/ ~ lifts m t) -> keeping t x y.

(** What the check finds of a block: its entry and its flag. *)
Definition in_force (t : BlockTarget) (s : BlockedAccounts) : Prop :=
  match t with
  | T_Account id => ba_accounts s !! id <> None /\ ba_any_flag s = true
  | T_Group group => ba_blocked_groups s !! group <> None /\ ba_blocked_groups_any_flag s = true
  | T_All => ba_all_flag s = true
  end.

Lemma imposed_in_force m t s : imposes m t -> in_force t (foldl run_write s (mutator_writes m s)).
Proof.
  destruct t as [id|g|], m; cbn [imposes]; try done.
  - intros ->. cbn. rewrite insert_if_absent_lookup. by rewrite decide_True.
  - intros [-> Hd]. cbn. rewrite decide_False by done. cbn. rewrite insert_if_absent_lookup. by rewrite decide_True.
Qed.

(** No single write of a mutator that does not lift the block hides it. *)
Definition hides (w : Write) (t : BlockTarget) : Prop :=
  match t, w with
  | T_Account id, W_RemoveAccount id' => id' = id
  | T_Group group, W_RemoveGroup group' => group' = group
  | T_All, W_StoreAll false => True
  | _, _ => False
  end.

Lemma writes_hide m t s w : w ∈ mutator_writes m s -> hides w t -> lifts m t.
Proof.
  intros Hw Hh. destruct m; cbn [mutator_writes] in Hw; try case_match; try case_bool_decide; try case_decide;
    try case_match; repeat (apply elem_of_cons in Hw as [->|Hw]); try (by apply not_elem_of_nil in Hw);
    destruct t; cbn in *; done.
Qed.

Lemma map_is_empty_lookup {K A} `{Countable K} (m : gmap K A) k : m !! k <> None -> map_is_empty m = false.
Proof. destruct (map_is_empty_spec m) as [->|]; [by rewrite lookup_empty|done]. Qed.

Lemma write_in_force t s w : ~ hides w t -> in_force t s -> in_force t (run_write s w).
Proof.
  intros Hh Hf. destruct t as [id|g|]; cbn in Hf |- *.
  - destruct Hf as [Hk Hf]. destruct w as [id' c|id' b|id'| | |a| | | | | | |]; cbn in *; try (by split).
    + split; [|done]. rewrite insert_if_absent_lookup. by case_decide.
    + split; [|done]. rewrite lookup_insert. by case_decide.
    + split; [by rewrite lookup_delete_ne|done].
    + split; [done|]. by rewrite (map_is_empty_lookup _ id Hk).
  - destruct Hf as [Hk Hf]. destruct w as [| | | | | | | |g' c|g' b|g'| |]; cbn in *; try (by split).
    + split; [|done]. rewrite insert_if_absent_lookup. by case_decide.
    + split; [|done]. rewrite lookup_insert. by case_decide.
    + split; [by rewrite lookup_delete_ne|done].
    + split; [done|]. by rewrite (map_is_empty_lookup _ g Hk).
  - destruct w as [| | | | |[]| | | | | | |]; cbn in *; try done.
Qed.

Lemma kept_in_force t x y : in_force t (bs_set x) ->
  (forall m ws, bs_running x = Some (m, ws) -> ws = [] \/ ~ lifts m t /\ exists s, ws ⊆ mutator_writes m s) ->
  rtc (keeping t) x y -> in_force t (bs_set y).
Proof.
  intros Hf Hr H. revert Hf Hr. induction H as [x|x y z [Hstep Hk] _ IH]; intros Hf Hr; [done|].
  destruct Hstep as [s m|s m w ws|s m]; cbn in *; apply IH; cbn; try done.
  - intros m' ws E. destruct (Hk _ _ E) as [->|Hl]; [by left|]. right. injection E as <- <-. split; [done|]. by exists s.
  - destruct (Hr _ _ eq_refl) as [|[Hl [s0 Hs]]]; [done|].
    apply write_in_force; [|done]. intros Hh. eapply Hl, writes_hide; [apply Hs; by left|done].
  - intros m' ws' E. injection E as <- <-. destruct (Hr _ _ eq_refl) as [|[Hl [s0 Hs]]]; [done|].
    right. split; [done|]. exists s0. set_solver.
Qed.

(** Whom a block is on: an account, whoever is in the group when the registry is
    read, or everyone. *)
Definition blocks (t : BlockTarget) (id : AccountId) (groups : AccountGroups) : Prop :=
  match t with T_Account id' => id' = id | T_Group group => group_of groups id = Some group | T_All => True end.

(** C18: concurrent soundness of the lock-free check.  The mutators hold a guard but
    the check does not, so each of its reads may see the tables and flags at any moment,
    also between two writes of a mutator.  A block whose mutator has returned is
    nevertheless never missed, by whatever moments the check's reads fall on, as long as
    no mutator that takes this block away began before them: whatever others are blocked and
    unblocked meanwhile, a check of the account, of a member of the group, or of anyone
    when everyone is blocked - and one of an account that cannot be read - rejects. *)
Theorem check_never_misses {PR} (o : Observed) (t : BlockTarget) (x : BlockedSystem) (id : AccountId)
    (account : option AccountId) (scope : RejectScope) :
  block_returned t x ->
  Forall (fun s => exists y, rtc (keeping t) x y /\ bs_set y = s)
    [at_all_flag o; at_any_flag o; at_groups_flag o; at_accounts o; at_blocked_groups o; at_global_block o] ->
  blocks t id (at_registry o) -> account = Some id \/ account = None ->
  exists r, check_observed (PR:=PR) o account scope = Some r.
Proof.
  intros Hx Ho Hb Ha.
  assert (Hf : Forall (in_force t) [at_all_flag o; at_any_flag o; at_groups_flag o; at_accounts o; at_blocked_groups o;
    at_global_block o]).
  { eapply Forall_impl; [exact Ho|]. intros s (y & Hy & <-). destruct Hx as [s0 m ws s1 Hm -> ->].
    refine (kept_in_force t _ _ _ _ Hy); [by apply imposed_in_force|by intros m0 ws0 [=]]. }
  rewrite !Forall_cons in Hf. destruct Hf as (F1 & F2 & F3 & F4 & F5 & F6 & _). unfold check_observed, with_blocking_cause.
  destruct t as [id'|g|]; cbn in *; subst.
  - destruct F2 as [_ ->], F4 as [[b Hb]%not_eq_None_Some _]. rewrite orb_true_r. cbn.
    destruct Ha as [->| ->]; [|by eexists]. rewrite Hb. by eexists.
  - destruct F3 as [_ ->], F5 as [[b Hb']%not_eq_None_Some _]. rewrite andb_false_r. cbn.
    destruct Ha as [->| ->]; [|by eexists]. rewrite Hb. cbn. rewrite Hb'. destruct (if _ || _ then _ else _); by eexists.
  - rewrite F1. cbn. destruct Ha as [->| ->]; [|by eexists]. destruct (ba_accounts _ !! id); [by eexists|].
    destruct (if ba_blocked_groups_any_flag _ then _ else _); [by eexists|]. destruct (ba_global_block _); by eexists.
Qed.

(** The first cause of an account wins: blocking a blocked account changes
    nothing, and only unblocking it, invalidating the provenance its own cause
    carries or replacing its reason changes the cause in force. *)
Theorem account_cause_stable (s s' : BlockedAccounts) (id : AccountId) (b : AccountBlock) :
  account_cause s id b -> ba_step s s' ->
  account_cause s' id b \/ s' = unblock_account s id \/
  (exists p, block_provenance b = Some p /\ s' = (invalidate_provenance s id p).2) \/
  (exists b', s' = (replace_reason s id b').2).
Proof.
  unfold account_cause. intros Hb Hs. inversion Hs as [id' cause|id' p| |cause| |id'|id' b'|g cause|g|g b']; subst.
  - left. rewrite block_account_accounts. cbn. rewrite insert_if_absent_lookup.
    case_decide; [subst|done]. by rewrite Hb.
  - unfold invalidate_provenance in *. destruct (decide (id' = id)) as [->|Hne].
    + rewrite Hb. case_bool_decide as Hp; [|by left]. right; right; left. exists p.
      split; [done|]. by rewrite bool_decide_true.
    + left. destruct (ba_accounts s !! id'); [|done]. case_bool_decide; [|done].
      cbn. by rewrite lookup_delete_ne.
  - by left.
  - by left.
  - by left.
  - destruct (decide (id' = id)) as [->|Hne]; [auto|]. left. cbn. by rewrite lookup_delete_ne.
  - destruct (decide (id' = id)) as [->|Hne]; [eauto|]. left. unfold replace_reason.
    destruct (ba_accounts s !! id'); [|done]. cbn. by rewrite lookup_insert_ne.
  - left. unfold block_group. by case_decide.
  - left. unfold unblock_group. by case_decide.
  - left. unfold replace_group_reason. case_decide; [done|]. by destruct (ba_blocked_groups s !! g).
Qed.

(** ** Groups *)

Lemma find_registered_None m accounts :
  find_registered m accounts = None <-> Forall (fun a => m !! a = None) accounts.
Proof.
  induction accounts as [|a accounts IH]; cbn; [done|].
  rewrite Forall_cons. destruct (m !! a); naive_solver.
Qed.

Lemma find_registered_Some m accounts a g :
  find_registered m accounts = Some (a, g) -> In a accounts /\ m !! a = Some g.
Proof.
  induction accounts as [|a' accounts IH]; cbn; [done|].
  destruct (m !! a') eqn:E; naive_solver.
Qed.

Lemma find_not_in_group_None m accounts g :
  find_not_in_group m accounts g = None <-> Forall (fun a => m !! a = Some g) accounts.
Proof.
  induction accounts as [|a accounts IH]; cbn; [done|].
  rewrite Forall_cons. case_decide; naive_solver.
Qed.

Lemma insert_all_lookup (m : AccountGroups) accounts g a :
  foldl (fun m account => <[account := g]> m) m accounts !! a =
  if decide (a ∈ accounts) then Some g else m !! a.
Proof.
  revert m. induction accounts as [|a' accounts IH]; intros m; cbn.
  - by rewrite decide_False by apply not_elem_of_nil.
  - rewrite IH. destruct (decide (a = a')) as [->|Hne].
    + rewrite lookup_insert_eq, (decide_True _ _ (P := a' ∈ a' :: accounts)) by left.
      by case_decide.
    + rewrite lookup_insert_ne by done. apply decide_ext. set_solver.
Qed.

Lemma delete_all_lookup (m : AccountGroups) accounts a :
  foldl (fun m account => delete account m) m accounts !! a =
  if decide (a ∈ accounts) then None else m !! a.
Proof.
  revert m. induction accounts as [|a' accounts IH]; intros m; cbn.
  - by rewrite decide_False by apply not_elem_of_nil.
  - rewrite IH. destruct (decide (a = a')) as [->|Hne].
    + rewrite lookup_delete_eq, (decide_True _ _ (P := a' ∈ a' :: accounts)) by left.
      by case_decide.
    + rewrite lookup_delete_ne by done. apply decide_ext. set_solver.
Qed.

(** Registration is all or nothing: it succeeds exactly when the group is not
    the reserved one and no listed account has a group, and then every listed
    account, and no other, is in the group; unregistering the same accounts
    restores the registry.  A refusal changes nothing and names an offender. *)
Theorem register_group_spec (m : AccountGroups) (accounts : list AccountId) (g : AccountGroupId) :
  let '(r, m') := register_group m accounts g in
  (r = Ok tt <-> g <> DEFAULT_ACCOUNT_GROUP /\ Forall (fun a => group_of m a = None) accounts) /\
  (r = Ok tt ->
     (forall a, group_of m' a = if decide (a ∈ accounts) then Some g else group_of m a) /\
     unregister_group m' accounts g = (Ok tt, m)) /\
  (forall e, r = Err e -> m' = m /\
     (e = AG_ReservedGroup \/
      exists a g', e = AG_AlreadyRegistered a g' /\ In a accounts /\ group_of m a = Some g')).
Proof.
  unfold register_group, group_of. case_decide as Hg; [naive_solver|].
  destruct (find_registered m accounts) as [[a g']|] eqn:E.
  - split_and!; [|done|].
    + split; [done|]. intros [_ H%find_registered_None]. congruence.
    + intros e [= <-]. split; [done|]. apply find_registered_Some in E. eauto.
  - apply find_registered_None in E as HF. rewrite Forall_forall in HF.
    split_and!; [by rewrite <- find_registered_None| |done]. intros _. split; [apply insert_all_lookup|].
    unfold unregister_group. rewrite decide_False by done.
    rewrite (proj2 (find_not_in_group_None _ _ _)).
    + f_equal. apply map_eq. intros a. rewrite delete_all_lookup, insert_all_lookup.
      case_decide as Ha; [|done]. symmetry. by apply HF.
    + apply Forall_forall. intros a Ha. by rewrite insert_all_lookup, decide_True.
Qed.

(** ** Deferred operations *)

(** What the engine does with the operations a drop-copy call deferred. *)
Inductive deferred_outcome (d : DeferredAccountOperations) (blocked : BlockedAccounts) :
    DeferredAccountOperations -> BlockedAccounts -> Prop :=
| outcome_apply : deferred_outcome d blocked (deferred_apply d blocked).1 (deferred_apply d blocked).2
| outcome_abandon : deferred_outcome d blocked (deferred_abandon d) blocked.

(** Operations issued through the control before the outcome, in order. *)
Inductive ControlCall : Type :=
| CallBlock (account : AccountId) (block : AccountBlock)
| CallInvalidate (account : AccountId) (provenance : Z).

Definition run_call (s : option DeferredAccountOperations * BlockedAccounts) (c : ControlCall) :
    option DeferredAccountOperations * BlockedAccounts :=
  match c with
  | CallBlock account block => control_block s.1 s.2 account block
  | CallInvalidate account p =>
      let '(_, d, b) := control_invalidate_provenance s.1 s.2 account p in (d, b)
  end.

Definition op_of_call (c : ControlCall) : DeferredAccountOperation :=
  match c with
  | CallBlock account block => DeferredBlock account block
  | CallInvalidate account p => DeferredInvalidateProvenance account p
  end.

Lemma run_calls_active d b cs : df_is_active d = true ->
  exists d', foldl run_call (Some d, b) cs = (Some d', b) /\ df_is_active d' = true /\
    df_operations d' = df_operations d ++ (op_of_call <$> cs).
Proof.
  revert d. induction cs as [|c cs IH]; intros d Hd; cbn.
  - exists d. by rewrite app_nil_r.
  - assert (H : exists d1, run_call (Some d, b) c = (Some d1, b) /\ df_is_active d1 = true /\
      df_operations d1 = df_operations d ++ [op_of_call c]).
    { destruct c; cbn; unfold record_block, record_invalidate_provenance; rewrite Hd; cbn; eauto. }
    destruct H as (d1 & -> & H1 & H2). destruct (IH d1 H1) as (d' & -> & H3 & H4).
    exists d'. by rewrite H4, H2, <- app_assoc.
Qed.

Lemma run_calls_write_through d b cs :
  match d with Some d => df_is_active d = false | None => True end ->
  foldl run_call (d, b) cs = (d, foldl apply_operation b (op_of_call <$> cs)).
Proof.
  revert b. induction cs as [|c cs IH]; intros b Hd; [done|].
  cbn [foldl fmap list_fmap]. rewrite <- IH by done. f_equal.
  destruct c, d as [d|]; cbn; unfold record_block, record_invalidate_provenance; rewrite ?Hd; cbn; try done;
    by destruct (invalidate_provenance _ _ _).
Qed.

(** Deferring is transparent: calls made through a drop-copy control leave the
    blocked set untouched until the outcome; applying them then gives exactly the
    blocked set that immediate calls would have given, abandoning them gives the
    untouched one, and after either outcome the control writes through. *)
Theorem deferred_operations_spec (b : BlockedAccounts) (cs late : list ControlCall) :
  exists d, foldl run_call (Some deferred_default, b) cs = (Some d, b) /\
  (deferred_apply d b).2 = (foldl run_call (None, b) cs).2 /\
  (forall d' b', deferred_outcome d b d' b' ->
     foldl run_call (Some d', b') late = (Some d', (foldl run_call (None, b') late).2)).
Proof.
  destruct (run_calls_active deferred_default b cs eq_refl) as (d & H1 & _ & H2).
  exists d. split_and!; [done| |].
  - rewrite run_calls_write_through by done. cbn. by rewrite H2.
  - intros d' b' Ho. rewrite !run_calls_write_through; [done|done|]. by destruct Ho.
Qed.
