(* ===== verification/Accounts.v ===== *)
(** * Accounts: currencies, membership changes and the transition lease

    src/crates/openpit/src/core/accounts.rs.  [StateTransitionCoordinator] is the
    reader/writer lease that orders membership changes against account-state
    writers; it is modelled as a step relation over threads.  The rest is the
    operator-facing [Accounts] handle over the registry, the blocked set and the
    currencies. *)
From S2P Require Import Prelude.
From S2P Require Import Decimal.
From S2P Require Import Param.
From S2P Require Import Identifiers.
From S2P Require Import Mutation.
From S2P Require Import Reject.
From S2P Require Import AccountControl.
Open Scope Z_scope.

(** ** [StateTransitionCoordinator] *)

(** [usize] of the 64-bit targets. *)
Definition USIZE_MAX : Z := U64_MAX.

Record StateTransitionAccess : Set := mkAccess {
  sta_readers : Z;
  sta_waiting_writers : Z;
  sta_writer : bool
}.

Definition access_default : StateTransitionAccess := mkAccess 0 0 false.

Inductive StateTransitionAccessKind : Set := KindShared | KindExclusive.

Definition saturating_add (a b : Z) : Z := Z.min (a + b) USIZE_MAX.
Definition saturating_sub (a b : Z) : Z := Z.max (a - b) 0.
Definition checked_add (a b : Z) : option Z := if a + b <=? USIZE_MAX then Some (a + b) else None.

(** One round of the loop of [acquire_shared]; [None] is a back-off. *)
Definition try_acquire_shared (bypass_waiting_writer : bool) (access : StateTransitionAccess) :
    option StateTransitionAccess :=
  if negb (sta_writer access) && (bypass_waiting_writer || (sta_waiting_writers access =? 0))
  then readers ← checked_add (sta_readers access) 1;
       Some (mkAccess readers (sta_waiting_writers access) (sta_writer access))
  else None.

(** The first block of [acquire_exclusive], then one round of its loop. *)
Definition register_waiting_writer (access : StateTransitionAccess) : StateTransitionAccess :=
  mkAccess (sta_readers access) (saturating_add (sta_waiting_writers access) 1) (sta_writer access).

Definition try_acquire_exclusive (access : StateTransitionAccess) : option StateTransitionAccess :=
  if negb (sta_writer access) && (sta_readers access =? 0)
  then Some (mkAccess (sta_readers access) (saturating_sub (sta_waiting_writers access) 1) true)
  else None.

(** [Drop for StateTransitionAccessGuard]. *)
Definition access_release (kind : StateTransitionAccessKind) (access : StateTransitionAccess) :
    StateTransitionAccess :=
  match kind with
  | KindShared => mkAccess (saturating_sub (sta_readers access) 1) (sta_waiting_writers access)
                    (sta_writer access)
  | KindExclusive => mkAccess (sta_readers access) (sta_waiting_writers access) false
  end.

(** What a thread is doing with the coordinator. *)
Inductive Phase : Set :=
| Idle
| AcquiringShared (bypass : bool)
| HoldingShared
| AcquiringExclusive
| HoldingExclusive.

#[export] Instance Phase_eq_dec : EqDecision Phase.
Proof. solve_decision. Defined.

(** [with_shared], [with_rollback_shared] and [with_exclusive] of a serialized
    coordinator, one critical section of the mutex per step; the threads are the
    positions of the list. *)
Inductive coord_step : StateTransitionAccess * list Phase -> StateTransitionAccess * list Phase -> Prop :=
| coord_begin_shared acc ts i bypass : ts !! i = Some Idle ->
    coord_step (acc, ts) (acc, <[i := AcquiringShared bypass]> ts)
| coord_acquire_shared acc acc' ts i bypass : ts !! i = Some (AcquiringShared bypass) ->
    try_acquire_shared bypass acc = Some acc' ->
    coord_step (acc, ts) (acc', <[i := HoldingShared]> ts)
| coord_release_shared acc ts i : ts !! i = Some HoldingShared ->
    coord_step (acc, ts) (access_release KindShared acc, <[i := Idle]> ts)
| coord_begin_exclusive acc ts i : ts !! i = Some Idle ->
    coord_step (acc, ts) (register_waiting_writer acc, <[i := AcquiringExclusive]> ts)
| coord_acquire_exclusive acc acc' ts i : ts !! i = Some AcquiringExclusive ->
    try_acquire_exclusive acc = Some acc' ->
    coord_step (acc, ts) (acc', <[i := HoldingExclusive]> ts)
| coord_release_exclusive acc ts i : ts !! i = Some HoldingExclusive ->
    coord_step (acc, ts) (access_release KindExclusive acc, <[i := Idle]> ts).

Inductive coord_reachable (n : nat) : StateTransitionAccess * list Phase -> Prop :=
| coord_init : coord_reachable n (access_default, replicate n Idle)
| coord_next s s' : coord_reachable n s -> coord_step s s' -> coord_reachable n s'.

(** The number of threads in a phase. *)
Definition count (p : Phase) (ts : list Phase) : Z := Z.of_nat (length (filter (p =.) ts)).

(** ** [AccountCurrencies] *)

Record AccountCurrencies : Type := mkAccountCurrencies {
  ac_accounts : gmap AccountId Asset;
  ac_groups : gmap AccountGroupId Asset
}.

Definition set_account_currency (self : AccountCurrencies) (account : AccountId)
    (currency : Asset) : AccountCurrencies :=
  mkAccountCurrencies (<[account := currency]> (ac_accounts self)) (ac_groups self).

Definition clear_account_currency (self : AccountCurrencies) (account : AccountId) :
    AccountCurrencies :=
  mkAccountCurrencies (delete account (ac_accounts self)) (ac_groups self).

Definition set_group_currency (self : AccountCurrencies) (group : AccountGroupId)
    (currency : Asset) : AccountCurrencies :=
  mkAccountCurrencies (ac_accounts self) (<[group := currency]> (ac_groups self)).

Definition clear_group_currency (self : AccountCurrencies) (group : AccountGroupId) :
    AccountCurrencies :=
  mkAccountCurrencies (ac_accounts self) (delete group (ac_groups self)).

(** [or_else] between options. *)
Definition or_else {A} (o : option A) (f : option A) : option A :=
  match o with Some x => Some x | None => f end.

Definition currency_of (self : AccountCurrencies) (account : AccountId)
    (account_group : option AccountGroupId) : option Asset :=
  or_else (or_else (ac_accounts self !! account) (account_group ≫= (ac_groups self !!.)))
    (ac_groups self !! DEFAULT_ACCOUNT_GROUP).

(** ** [Accounts] *)

(** The engine facilities an [Accounts] handle shares. *)
Record AccountsState : Type := mkAccountsState {
  as_groups : AccountGroups;
  as_blocked : BlockedAccounts;
  as_currencies : AccountCurrencies
}.

Definition accounts_state_new : AccountsState :=
  mkAccountsState ∅ blocked_accounts_new (mkAccountCurrencies ∅ ∅).

Definition with_blocked (self : AccountsState) (b : BlockedAccounts) : AccountsState :=
  mkAccountsState (as_groups self) b (as_currencies self).

(** [ConfigRegistry::account_pnl_membership_change_blocks]: what the registered
    policy configurations report for one account whose group changed. *)
Definition MembershipChangeBlocks : Type :=
  AccountId -> option AccountGroupId -> option AccountGroupId -> option Asset -> option Asset ->
  list AccountBlock.

Section Accounts.
Context (membership_change_blocks : MembershipChangeBlocks).

Definition block_all_of (blocked : BlockedAccounts) (account : AccountId)
    (blocks : list AccountBlock) : BlockedAccounts :=
  foldl (fun b block => (block_account b account block).2) blocked blocks.

Definition block_effective_barrier_changes (self : AccountsState)
    (previous : list (AccountId * option AccountGroupId)) : AccountsState :=
  with_blocked self
    (foldl (fun blocked '(account, previous_group) =>
       let current_group := group_of (as_groups self) account in
       let previous_currency := currency_of (as_currencies self) account previous_group in
       let current_currency := currency_of (as_currencies self) account current_group in
       block_all_of blocked account
         (membership_change_blocks account previous_group current_group previous_currency
            current_currency))
     (as_blocked self) previous).

Definition membership_operation (self : AccountsState) (accounts : list AccountId)
    (operation : AccountGroups -> result AccountGroupError unit * AccountGroups) :
    result AccountGroupError unit * AccountsState :=
  let previous_groups := (fun a => (a, group_of (as_groups self) a)) <$> accounts in
  match operation (as_groups self) with
  | (Err e, groups) => (Err e, mkAccountsState groups (as_blocked self) (as_currencies self))
  | (Ok _, groups) =>
      (Ok tt, block_effective_barrier_changes
                (mkAccountsState groups (as_blocked self) (as_currencies self)) previous_groups)
  end.

Definition accounts_register_group (self : AccountsState) (accounts : list AccountId)
    (group : AccountGroupId) : result AccountGroupError unit * AccountsState :=
  membership_operation self accounts (fun m => register_group m accounts group).

Definition accounts_unregister_group (self : AccountsState) (accounts : list AccountId)
    (group : AccountGroupId) : result AccountGroupError unit * AccountsState :=
  membership_operation self accounts (fun m => unregister_group m accounts group).

End Accounts.

Definition engine_block (reason : string) : AccountBlock :=
  account_block_new "Engine" RC_AccountBlocked reason reason.

Definition accounts_block (self : AccountsState) (account : AccountId) (reason : string) :
    AccountsState :=
  with_blocked self (block_account (as_blocked self) account (engine_block reason)).2.

Definition accounts_block_with_cause (self : AccountsState) (account : AccountId)
    (cause : AccountBlock) : AccountsState :=
  with_blocked self (block_account (as_blocked self) account (block_with_provenance cause None)).2.

Definition accounts_unblock (self : AccountsState) (account : AccountId) : AccountsState :=
  with_blocked self (unblock_account (as_blocked self) account).

Definition accounts_unblock_all (self : AccountsState) : AccountsState :=
  with_blocked self (unblock_all (as_blocked self)).

Definition accounts_replace_block_reason (self : AccountsState) (account : AccountId)
    (reason : string) : result AccountBlockError unit * AccountsState :=
  let '(r, b) := replace_reason (as_blocked self) account (engine_block reason) in
  (r, with_blocked self b).

Definition accounts_block_group (self : AccountsState) (group : AccountGroupId)
    (reason : string) : result AccountBlockError unit * AccountsState :=
  let '(r, b) := block_group (as_blocked self) group (engine_block reason) in
  (r, with_blocked self b).

Definition accounts_unblock_group (self : AccountsState) (group : AccountGroupId) :
    result AccountBlockError unit * AccountsState :=
  let '(r, b) := unblock_group (as_blocked self) group in (r, with_blocked self b).

Definition accounts_replace_group_block_reason (self : AccountsState) (group : AccountGroupId)
    (reason : string) : result AccountBlockError unit * AccountsState :=
  let '(r, b) := replace_group_reason (as_blocked self) group (engine_block reason) in
  (r, with_blocked self b).

(** The calls on the currencies re-evaluate nothing. *)
Definition with_currencies (self : AccountsState) (c : AccountCurrencies) : AccountsState :=
  mkAccountsState (as_groups self) (as_blocked self) c.
Definition accounts_set_currency (self : AccountsState) (account : AccountId) (currency : Asset) : AccountsState :=
  with_currencies self (set_account_currency (as_currencies self) account currency).
Definition accounts_clear_currency (self : AccountsState) (account : AccountId) : AccountsState :=
  with_currencies self (clear_account_currency (as_currencies self) account).
Definition accounts_set_group_currency (self : AccountsState) (group : AccountGroupId) (currency : Asset) :
    AccountsState :=
  with_currencies self (set_group_currency (as_currencies self) group currency).
Definition accounts_clear_group_currency (self : AccountsState) (group : AccountGroupId) : AccountsState :=
  with_currencies self (clear_group_currency (as_currencies self) group).

(** ** Properties of the lease *)

Lemma count_insert p q q' ts i : ts !! i = Some q ->
  count p (<[i := q']> ts) =
  count p ts - (if decide (p = q) then 1 else 0) + (if decide (p = q') then 1 else 0).
Proof.
  unfold count. revert i. induction ts as [|t ts IH]; intros i Hi; [done|].
  destruct i as [|i]; cbn in Hi; [injection Hi as ->|].
  - change (<[0%nat := q']> (q :: ts)) with (q' :: ts). rewrite !filter_cons. repeat case_decide; cbn [length]; try congruence; lia.
  - specialize (IH i Hi). change (<[S i := q']> (t :: ts)) with (t :: <[i := q']> ts).
    rewrite !filter_cons.
    repeat case_decide; cbn [length] in *; lia.
Qed.

Lemma count_nonneg p ts : 0 <= count p ts <= Z.of_nat (length ts).
Proof. unfold count. pose proof (length_filter (p =.) ts). lia. Qed.

Lemma count_pos p ts i : ts !! i = Some p -> 1 <= count p ts.
Proof.
  unfold count. intros Hi%list_elem_of_lookup_2.
  assert (H : p ∈ filter (p =.) ts) by by apply list_elem_of_filter.
  destruct (filter _ ts); cbn; [by apply not_elem_of_nil in H|lia].
Qed.

(** The counters of the mutex are the numbers of threads in each phase. *)
Record coord_inv (n : nat) (s : StateTransitionAccess * list Phase) : Prop := {
  ci_length : length s.2 = n;
  ci_readers : sta_readers s.1 = count HoldingShared s.2;
  ci_waiting : sta_waiting_writers s.1 = count AcquiringExclusive s.2;
  ci_writer : count HoldingExclusive s.2 = (if sta_writer s.1 then 1 else 0);
  ci_exclusive : sta_writer s.1 = true -> sta_readers s.1 = 0
}.

(** [count_solve] settles the bookkeeping of one step: the counts after the
    update, the bounds of the counts and the threads known to be in a phase. *)
Ltac count_solve n :=
  repeat match goal with
  | H : ?ts !! ?i = Some ?q |- context [count ?p (<[?i := ?q']> ?ts)] =>
      rewrite (count_insert p q q' ts i H)
  end;
  repeat case_decide; try congruence; cbn in *; lia.

Lemma try_shared_Some b acc acc' : try_acquire_shared b acc = Some acc' ->
  sta_writer acc = false /\ (b = true \/ sta_waiting_writers acc = 0) /\
  acc' = mkAccess (sta_readers acc + 1) (sta_waiting_writers acc) false.
Proof.
  unfold try_acquire_shared, checked_add. destruct (sta_writer acc); cbn; [done|].
  destruct (b || _) eqn:E; [|done]. cbn. case_match; [|done]. cbn. intros [= <-].
  apply orb_true_iff in E. rewrite Z.eqb_eq in E. naive_solver.
Qed.

Lemma try_exclusive_Some acc acc' : try_acquire_exclusive acc = Some acc' ->
  sta_writer acc = false /\ sta_readers acc = 0 /\
  acc' = mkAccess 0 (Z.max (sta_waiting_writers acc - 1) 0) true.
Proof.
  unfold try_acquire_exclusive. destruct (sta_writer acc); cbn; [done|].
  destruct (Z.eqb_spec (sta_readers acc) 0) as [E|]; [|done]. intros [= <-]. by rewrite E.
Qed.

Lemma coord_step_inv n s s' : Z.of_nat n <= USIZE_MAX -> coord_inv n s -> coord_step s s' -> coord_inv n s'.
Proof.
  intros Hn [Hl Hr Hw Hwr Hex] Hs.
  assert (Hb : forall p, 0 <= count p s.2 <= Z.of_nat n) by (intros p; rewrite <- Hl; apply count_nonneg).
  destruct Hs as [acc ts i b Hi|acc acc' ts i b Hi (Hf & _ & ->)%try_shared_Some|acc ts i Hi|acc ts i Hi
    |acc acc' ts i Hi (Hf & H0 & ->)%try_exclusive_Some|acc ts i Hi]; cbn in *;
    pose proof (count_pos _ _ _ Hi) as Hp; pose proof (Hb HoldingShared); pose proof (Hb AcquiringExclusive);
    pose proof (Hb HoldingExclusive).
  all: try (rewrite Hf in *; clear Hf).
  all: split; cbn; rewrite ?length_insert; try done;
    unfold saturating_sub, saturating_add in *; try (destruct (sta_writer acc); count_solve n).
  all: try count_solve n.
  pose proof (count_nonneg AcquiringExclusive (<[i := AcquiringExclusive]> ts)) as Hc.
  rewrite length_insert, Hl in Hc. rewrite Z.min_l; [count_solve n|].
  rewrite (count_insert _ Idle) in Hc by done. repeat case_decide; try congruence; lia.
Qed.

Lemma coord_init_inv n : coord_inv n (access_default, replicate n Idle).
Proof.
  assert (H : forall p, p <> Idle -> count p (replicate n Idle) = 0).
  { intros p Hp. unfold count. induction n as [|n IH]; [done|]. cbn [replicate].
    by rewrite filter_cons, decide_False. }
  split; cbn; rewrite ?length_replicate, ?H by done; done.
Qed.

Lemma coord_reachable_inv n s : Z.of_nat n <= USIZE_MAX -> coord_reachable n s -> coord_inv n s.
Proof. intros Hn. induction 1; eauto using coord_step_inv, coord_init_inv. Qed.

(** C20: the transition lease excludes: with any number of threads that fits a
    [usize], whatever their interleaving, at most one holds it exclusively, never
    together with a shared holder, and the counters never saturate or drift from
    the threads they count. *)
Theorem lease_mutual_exclusion (n : nat) acc (ts : list Phase) :
  Z.of_nat n <= USIZE_MAX -> coord_reachable n (acc, ts) ->
  count HoldingExclusive ts <= 1 /\
  (0 < count HoldingExclusive ts -> count HoldingShared ts = 0) /\
  sta_readers acc = count HoldingShared ts /\
  sta_waiting_writers acc = count AcquiringExclusive ts /\
  sta_writer acc = bool_decide (0 < count HoldingExclusive ts).
Proof.
  intros Hn [Hl Hr Hw Hwr Hex]%coord_reachable_inv; [|done]. cbn in *.
  rewrite Hwr. destruct (sta_writer acc); split_and!; try done; try lia.
Qed.

(** The lease prefers waiting writers without locking rollbacks out: while a
    writer waits no ordinary state writer is let in, a rollback is admitted
    whenever no writer holds the lease, and once the last holder has left a
    waiting writer is admitted. *)
Theorem lease_admission (n : nat) acc (ts : list Phase) :
  Z.of_nat n < USIZE_MAX -> coord_reachable n (acc, ts) ->
  (0 < count AcquiringExclusive ts -> try_acquire_shared false acc = None) /\
  (is_Some (try_acquire_shared true acc) <-> count HoldingExclusive ts = 0) /\
  (is_Some (try_acquire_exclusive acc) <->
     count HoldingExclusive ts = 0 /\ count HoldingShared ts = 0).
Proof.
  intros Hn [Hl Hr Hw Hwr Hex]%coord_reachable_inv; [|lia]. cbn in *.
  pose proof (count_nonneg HoldingShared ts). rewrite Hl in *.
  unfold try_acquire_shared, try_acquire_exclusive, checked_add.
  rewrite Hw, Hr, Hwr, (proj2 (Z.leb_le _ USIZE_MAX)) by lia. split_and!.
  - intros Hp. rewrite (proj2 (Z.eqb_neq _ 0)) by lia. by destruct (sta_writer acc).
  - destruct (sta_writer acc); cbn; split; intros [? ?] || intros Hx; try done; eauto.
  - destruct (sta_writer acc); cbn; [split; [by intros []|intros [? ?]; lia]|].
    destruct (Z.eqb_spec (count HoldingShared ts) 0); split; try (by intros []); try by eauto.
Qed.

(** The steps that finish what has begun, and how many a thread has left. *)
Inductive settle_step : StateTransitionAccess * list Phase -> StateTransitionAccess * list Phase -> Prop :=
| settle s s' i : coord_step s s' -> s.2 !! i <> s'.2 !! i -> s.2 !! i <> Some Idle -> settle_step s s'.

Definition phase_work (p : Phase) : nat :=
  match p with
  | Idle => 0
  | AcquiringShared _ | AcquiringExclusive => 2
  | HoldingShared | HoldingExclusive => 1
  end.

Definition lease_work (ts : list Phase) : nat := sum_list_with phase_work ts.

Lemma lease_work_insert ts i p p' : ts !! i = Some p ->
  (lease_work (<[i := p']> ts) + phase_work p = lease_work ts + phase_work p')%nat.
Proof.
  unfold lease_work. revert i. induction ts as [|t ts IH]; intros [|i] Hi; [done..| |]; cbn in Hi.
  - injection Hi as ->. change (<[0%nat := p']> (p :: ts)) with (p' :: ts). cbn [sum_list_with]. lia.
  - specialize (IH i Hi). change (<[S i := p']> (t :: ts)) with (t :: <[i := p']> ts).
    cbn [sum_list_with]. lia.
Qed.

Lemma settle_step_work s s' : settle_step s s' -> (lease_work s'.2 < lease_work s.2)%nat.
Proof.
  intros [s0 s1 j Hs Hne Hj].
  destruct Hs as [acc ts i b Hi|acc acc' ts i b Hi _|acc ts i Hi|acc ts i Hi|acc acc' ts i Hi _|acc ts i Hi]; cbn in *;
    (destruct (decide (i = j)) as [->|Hij]; [|by rewrite list_lookup_insert_ne in Hne]); try congruence;
    match goal with |- context [<[_ := ?p']> _] => pose proof (lease_work_insert ts j _ p' Hi) as H end;
    cbn [phase_work] in H; unfold lease_work in H; lia.
Qed.

Lemma settle_intro acc acc' ts i p p' : ts !! i = Some p -> p <> Idle -> p <> p' ->
  coord_step (acc, ts) (acc', <[i := p']> ts) -> settle_step (acc, ts) (acc', <[i := p']> ts).
Proof.
  intros Hi Hp Hpp Hs. apply settle with i; cbn; [done|rewrite Hi|by rewrite Hi; intros [=]].
  rewrite list_lookup_insert_eq by (by eapply lookup_lt_Some). by intros [=].
Qed.

Lemma count_zero p ts : count p ts = 0 -> forall i, ts !! i <> Some p.
Proof. intros H i Hi%count_pos. lia. Qed.

(** No state is stuck while a thread is busy. *)
Lemma lease_settles n s : Z.of_nat n < USIZE_MAX -> coord_reachable n s ->
  Forall (eq Idle) s.2 \/ exists s', settle_step s s'.
Proof.
  intros Hn Hr. destruct s as [acc ts]. destruct (lease_admission n acc ts Hn Hr) as (_ & Hb & He). cbn.
  destruct (coord_reachable_inv n _ (Z.lt_le_incl _ _ Hn) Hr) as [Hl Hrd Hw Hwr Hex]. cbn in *.
  destruct (decide (Exists (fun p => p <> Idle) ts)) as [Hx|Hx]; [right|left].
  2:{ apply not_Exists_Forall in Hx; [|intros p; apply _]. eapply Forall_impl; [exact Hx|].
      intros p Hp. destruct (decide (p = Idle)) as [->|]; [done|]. by destruct Hp. }
  apply Exists_exists in Hx as (p & Hp & Hpi). apply list_elem_of_lookup in Hp as (i & Hi).
  destruct (decide (0 < count HoldingExclusive ts)) as [H1|H1].
  { unfold count in H1. destruct (filter (HoldingExclusive =.) ts) as [|q l] eqn:E; [cbn in H1; lia|].
    assert (Hq : q ∈ filter (HoldingExclusive =.) ts) by (rewrite E; set_solver).
    apply list_elem_of_filter in Hq as [<- (j & Hj)%list_elem_of_lookup]. eexists.
    by eapply settle_intro, coord_release_exclusive. }
  destruct (decide (0 < count HoldingShared ts)) as [H2|H2].
  { unfold count in H2. destruct (filter (HoldingShared =.) ts) as [|q l] eqn:E; [cbn in H2; lia|].
    assert (Hq : q ∈ filter (HoldingShared =.) ts) by (rewrite E; set_solver).
    apply list_elem_of_filter in Hq as [<- (j & Hj)%list_elem_of_lookup]. eexists.
    by eapply settle_intro, coord_release_shared. }
  pose proof (count_nonneg HoldingExclusive ts). pose proof (count_nonneg HoldingShared ts).
  destruct (decide (0 < count AcquiringExclusive ts)) as [H3|H3].
  { unfold count in H3. destruct (filter (AcquiringExclusive =.) ts) as [|q l] eqn:E; [cbn in H3; lia|].
    assert (Hq : q ∈ filter (AcquiringExclusive =.) ts) by (rewrite E; set_solver).
    apply list_elem_of_filter in Hq as [<- (j & Hj)%list_elem_of_lookup].
    destruct (proj2 He) as [acc' Ha]; [lia|]. eexists. by eapply settle_intro, coord_acquire_exclusive. }
  pose proof (count_nonneg AcquiringExclusive ts).
  assert (Hz : forall q, count q ts = 0 -> p <> q) by (intros q Hq ->; by eapply count_zero in Hq).
  destruct p as [|b| | |]; [done| |exfalso; apply (Hz HoldingShared); [lia|done]|
    exfalso; apply (Hz AcquiringExclusive); [lia|done]|exfalso; apply (Hz HoldingExclusive); [lia|done]].
  assert (Ha : is_Some (try_acquire_shared b acc)).
  { assert (Ht : is_Some (try_acquire_shared true acc)) by (apply Hb; lia).
    destruct b; [done|]. unfold try_acquire_shared in *.
    rewrite (proj2 (Z.eqb_eq (sta_waiting_writers acc) 0)) by lia. exact Ht. }
  destruct Ha as [acc' Ha]. eexists. by eapply settle_intro, coord_acquire_shared.
Qed.

(** C21: Nobody waits for the lease for good: however the busy threads of a reachable
    state are scheduled, each acquires and releases within two steps of its own,
    and as long as one is busy some step is possible, so a run in which nobody
    else begins ends, after at most [lease_work] steps, with every waiting thread
    served. *)
Theorem lease_live (n k : nat) s s' :
  Z.of_nat n < USIZE_MAX -> coord_reachable n s -> nsteps settle_step k s s' ->
  (k + lease_work s'.2 <= lease_work s.2)%nat /\
  (Forall (eq Idle) s'.2 \/ exists s'', settle_step s' s'') /\
  exists m z, nsteps settle_step m s' z /\ Forall (eq Idle) z.2.
Proof.
  intros Hn Hr Hs. assert (H : (k + lease_work s'.2 <= lease_work s.2)%nat /\ coord_reachable n s').
  { induction Hs as [s|k s x y Hsx _ IH]; [by split|].
    destruct IH as [IH Hy]; [by destruct Hsx; eapply coord_next|]. apply settle_step_work in Hsx. split; [lia|done]. }
  destruct H as [Hk Hr']. split_and!; [done|by eapply lease_settles|].
  clear k s Hr Hs Hk. remember (lease_work s'.2) as w eqn:Ew. revert s' Hr' Ew.
  induction w as [w IH] using lt_wf_ind. intros s Hr ->.
  destruct (lease_settles n s Hn Hr) as [Hi|[x Hx]]; [exists 0%nat, s; split; [constructor|done]|].
  destruct (IH (lease_work x.2) (settle_step_work _ _ Hx) x) as (m & z & Hm & Hz); [by destruct Hx; eapply coord_next|done|].
  exists (S m), z. split; [by econstructor|done].
Qed.

(** ** Membership changes *)

Section Membership.
Context (mcb : MembershipChangeBlocks).

Lemma block_all_of_lookup blocked account blocks a :
  ba_accounts (block_all_of blocked account blocks) !! a =
  if decide (a = account) then or_else (ba_accounts blocked !! a) (head blocks)
  else ba_accounts blocked !! a.
Proof.
  revert blocked. induction blocks as [|b bs IH]; intros blocked.
  - cbn. case_decide; [|done]. by destruct (ba_accounts blocked !! a).
  - change (block_all_of blocked account (b :: bs))
      with (block_all_of (block_account blocked account b).2 account bs).
    rewrite IH, block_account_accounts. cbn. rewrite insert_if_absent_lookup.
    case_decide; subst; [|done]. by destruct (ba_accounts blocked !! account).
Qed.

(** What the configurations report for one listed account. *)
Definition change_blocks (self : AccountsState) (groups : AccountGroups) (a : AccountId) :
    list AccountBlock :=
  mcb a (group_of (as_groups self) a) (group_of groups a)
    (currency_of (as_currencies self) a (group_of (as_groups self) a))
    (currency_of (as_currencies self) a (group_of groups a)).

Lemma barrier_changes_lookup (self : AccountsState) groups accounts a :
  ba_accounts (as_blocked (block_effective_barrier_changes mcb
     (mkAccountsState groups (as_blocked self) (as_currencies self))
     ((fun a => (a, group_of (as_groups self) a)) <$> accounts))) !! a =
  or_else (ba_accounts (as_blocked self) !! a)
    (if decide (a ∈ accounts) then head (change_blocks self groups a) else None).
Proof.
  unfold block_effective_barrier_changes. cbn [as_blocked with_blocked as_groups as_currencies].
  generalize (as_blocked self). induction accounts as [|x xs IH]; intros blocked.
  - cbn. by destruct (ba_accounts blocked !! a).
  - rewrite fmap_cons. cbn [foldl]. rewrite IH, block_all_of_lookup. fold (change_blocks self groups x).
    destruct (decide (a = x)) as [->|Hne].
    + rewrite (decide_True _ _ (P := x ∈ x :: xs)) by set_solver.
      destruct (ba_accounts blocked !! x); [done|]. cbn. destruct (head (change_blocks self groups x)); [done|].
      by case_decide.
    + f_equal. apply decide_ext. set_solver.
Qed.

(** A membership change through the operator's handle is atomic: refused, it
    changes nothing; accepted, it re-routes the registry and latches, for each
    listed account that carries no block yet, the first block the policy
    configurations report for its move - and touches no other account. *)
Theorem accounts_register_group_spec (self : AccountsState) accounts g :
  let '(r, self') := accounts_register_group mcb self accounts g in
  (forall e, r = Err e -> self' = self) /\
  (r = Ok tt ->
     as_currencies self' = as_currencies self /\
     forall a,
       group_of (as_groups self') a = (if decide (a ∈ accounts) then Some g else group_of (as_groups self) a) /\
       ba_accounts (as_blocked self') !! a =
         or_else (ba_accounts (as_blocked self) !! a)
           (if decide (a ∈ accounts) then head (change_blocks self (as_groups self') a) else None)).
Proof.
  unfold accounts_register_group, membership_operation, register_group.
  case_decide; [by destruct self|].
  destruct (find_registered _ accounts) as [[a0 g0]|]; [by destruct self|].
  split; [done|]. intros _. split; [done|]. intros a. split.
  - cbn. unfold group_of. apply insert_all_lookup.
  - apply barrier_changes_lookup.
Qed.

End Membership.

(** The account's own currency wins over its group's, which wins over the
    default group's; clearing an override reveals the next one. *)
Theorem currency_of_spec (self : AccountCurrencies) a (g : option AccountGroupId) (c : Asset) :
  currency_of (set_account_currency self a c) a g = Some c /\
  (ac_accounts self !! a = None -> forall g', g = Some g' ->
     currency_of (set_group_currency self g' c) a g = Some c) /\
  (currency_of (clear_account_currency self a) a g =
     or_else (g ≫= (ac_groups self !!.)) (ac_groups self !! DEFAULT_ACCOUNT_GROUP)) /\
  (forall b, b <> a -> currency_of (set_account_currency self a c) b g = currency_of self b g).
Proof.
  unfold currency_of. cbn. split_and!.
  - by rewrite lookup_insert_eq.
  - intros -> g' ->. cbn. by rewrite lookup_insert_eq.
  - by rewrite lookup_delete_eq.
  - intros b Hb. by rewrite lookup_insert_ne.
Qed.
