(* ===== verification/Contracts.v ===== *)
(** * Contracts: the checks debug builds make of their callers' contracts

    The guard against re-entering a storage from its own closure (storage/storage.rs)
    and the check that exclusive engine operations overlap nothing when the engine
    takes no lease (core/accounts.rs).  [None] is the panic of an assertion. *)
From S2P Require Import Prelude.
Open Scope Z_scope.

(** ** Re-entry of a storage *)

Record LocalValuesState : Set := mkLocalValues { read_depth : nat; write_held : bool }.
(** What a thread holds, by storage. *)
Abbreviation LocalHolds := (gmap Z LocalValuesState).

Definition holds_of (holds : LocalHolds) (key : Z) : LocalValuesState :=
  default (mkLocalValues 0 false) (holds !! key).

Definition acquire_values_read (holds : LocalHolds) (key : Z) : option LocalHolds :=
  let state := holds_of holds key in
  if write_held state then None
  else Some (<[key := mkLocalValues (S (read_depth state)) (write_held state)]> holds).

Definition acquire_values_write (holds : LocalHolds) (key : Z) : option LocalHolds :=
  let state := holds_of holds key in
  if negb (Nat.eqb (read_depth state) 0) then None
  else if write_held state then None
  else Some (<[key := mkLocalValues (read_depth state) true]> holds).

Definition drop_read_guard (holds : LocalHolds) (key : Z) : LocalHolds :=
  match holds !! key with
  | Some state =>
      let depth := pred (read_depth state) in
      if Nat.eqb depth 0 && negb (write_held state) then delete key holds
      else <[key := mkLocalValues depth (write_held state)]> holds
  | None => holds
  end.

Definition drop_write_guard (holds : LocalHolds) (key : Z) : LocalHolds :=
  match holds !! key with
  | Some state =>
      if Nat.eqb (read_depth state) 0 then delete key holds
      else <[key := mkLocalValues (read_depth state) false]> holds
  | None => holds
  end.

(** An access of a storage and the accesses its closure makes. *)
Inductive Access : Type :=
| ReadAccess (key : Z) (nested : list Access)
| WriteAccess (key : Z) (nested : list Access).

Fixpoint run_access (a : Access) (holds : LocalHolds) : option LocalHolds :=
  match a with
  | ReadAccess key nested =>
      holds ← acquire_values_read holds key;
      holds ← foldl (fun acc a => acc ≫= run_access a) (Some holds) nested;
      Some (drop_read_guard holds key)
  | WriteAccess key nested =>
      holds ← acquire_values_write holds key;
      holds ← foldl (fun acc a => acc ≫= run_access a) (Some holds) nested;
      Some (drop_write_guard holds key)
  end.

(** An access inside another of the same storage, unless both read. *)
Fixpoint conflicts (reading writing : list Z) (a : Access) : bool :=
  match a with
  | ReadAccess key nested =>
      existsb (Z.eqb key) writing || existsb (conflicts (key :: reading) writing) nested
  | WriteAccess key nested =>
      existsb (Z.eqb key) (reading ++ writing) || existsb (conflicts reading (key :: writing)) nested
  end.

(** The thread's holds are those of the accesses it is inside of. *)
Definition holds_are (reading writing : list Z) (holds : LocalHolds) : Prop :=
  forall key,
    holds !! key =
      (let depth := count_occ Z.eq_dec reading key in
       let write := existsb (Z.eqb key) writing in
       if Nat.eqb depth 0 && negb write then None else Some (mkLocalValues depth write)).

Lemma holds_of_are reading writing holds key : holds_are reading writing holds ->
  holds_of holds key = mkLocalValues (count_occ Z.eq_dec reading key) (existsb (Z.eqb key) writing).
Proof.
  intros H. unfold holds_of. rewrite H. cbv zeta.
  destruct (Nat.eqb_spec (count_occ Z.eq_dec reading key) 0) as [->|]; cbn; [|done].
  by destruct (existsb (Z.eqb key) writing).
Qed.

Lemma existsb_count key l : existsb (Z.eqb key) l = negb (Nat.eqb (count_occ Z.eq_dec l key) 0).
Proof.
  induction l as [|x l IH]; [done|]. cbn. destruct (Z.eq_dec x key) as [->|Hne].
  - by rewrite Z.eqb_refl.
  - rewrite (proj2 (Z.eqb_neq key x)) by done. exact IH.
Qed.

Lemma nested_run (f : Access -> LocalHolds -> option LocalHolds) (g : Access -> bool) (x : LocalHolds) (l : list Access) :
  (forall a, a ∈ l -> f a x = if g a then None else Some x) ->
  foldl (fun acc a => acc ≫= f a) (Some x) l = if existsb g l then None else Some x.
Proof.
  assert (Hn : forall l : list Access, foldl (fun acc a => acc ≫= f a) None l = None) by (clear; intros l; induction l; done).
  induction l as [|a l IH]; intros H; [done|]. cbn [foldl existsb mbind option_bind].
  rewrite (H a) by set_solver. destruct (g a); cbn; [apply Hn|]. apply IH. set_solver.
Qed.

(** The guard panics exactly when a closure re-enters a storage with a conflicting
    access, however deep; otherwise the guards are dropped again and the thread
    holds what it held. *)
Theorem run_access_spec : forall a reading writing holds, holds_are reading writing holds ->
  run_access a holds = if conflicts reading writing a then None else Some holds.
Proof.
  fix IH 1. intros [key nested|key nested] reading writing holds Hh; cbn [run_access conflicts].
  - unfold acquire_values_read. rewrite (holds_of_are _ _ _ _ Hh). cbn [write_held read_depth].
    destruct (existsb (Z.eqb key) writing) eqn:Ew; [done|]. cbn [mbind option_bind orb].
    set (inner := <[key := _]> holds).
    assert (Hi : holds_are (key :: reading) writing inner).
    { intros k. unfold inner. cbn [count_occ]. destruct (Z.eq_dec key k) as [<-|Hk].
      - by rewrite lookup_insert_eq, Ew.
      - by rewrite lookup_insert_ne, Hh. }
    rewrite (nested_run run_access (conflicts (key :: reading) writing) inner nested).
    2:{ clear - IH Hi. induction nested as [|a nested IHn]; intros b Hb; [by apply not_elem_of_nil in Hb|].
        apply elem_of_cons in Hb as [->|Hb]; [apply IH, Hi|by apply IHn]. }
    destruct (existsb _ nested); [done|]. cbn [mbind option_bind]. f_equal.
    unfold drop_read_guard, inner. rewrite lookup_insert_eq. cbn [read_depth write_held pred].
    pose proof (Hh key) as Hk. cbv zeta in Hk. rewrite Ew in Hk.
    destruct (Nat.eqb (count_occ Z.eq_dec reading key) 0); cbn [andb negb] in *.
    + by rewrite delete_insert_eq, delete_id.
    + by rewrite insert_insert_eq, insert_id.
  - unfold acquire_values_write. rewrite (holds_of_are _ _ _ _ Hh). cbn [write_held read_depth].
    rewrite existsb_app, (existsb_count key reading).
    destruct (Nat.eqb_spec (count_occ Z.eq_dec reading key) 0) as [Er|]; [|done].
    destruct (existsb (Z.eqb key) writing) eqn:Ew; [done|]. cbn [mbind option_bind orb negb].
    set (inner := <[key := _]> holds).
    assert (Hi : holds_are reading (key :: writing) inner).
    { intros k. unfold inner. cbn [existsb]. destruct (decide (key = k)) as [<-|Hk].
      - by rewrite lookup_insert_eq, Er, Z.eqb_refl.
      - rewrite lookup_insert_ne, Hh by done. by rewrite (proj2 (Z.eqb_neq k key)) by done. }
    rewrite (nested_run run_access (conflicts reading (key :: writing)) inner nested).
    2:{ clear - IH Hi. induction nested as [|a nested IHn]; intros b Hb; [by apply not_elem_of_nil in Hb|].
        apply elem_of_cons in Hb as [->|Hb]; [apply IH, Hi|by apply IHn]. }
    destruct (existsb _ nested); [done|]. cbn [mbind option_bind]. f_equal.
    unfold drop_write_guard, inner. rewrite lookup_insert_eq. cbn [read_depth]. rewrite Er. cbn [Nat.eqb].
    rewrite delete_insert_eq, delete_id; [done|]. rewrite Hh. cbv zeta. by rewrite Er, Ew.
Qed.

(** ** The contract of an engine without a lease *)

(** [!(usize::MAX >> 1)]. *)
Definition CONTRACT_EXCLUSIVE : Z := 2 ^ 63.
Definition USIZE_MOD : Z := 2 ^ 64.

(** Where a thread is: without a mark, with one that passed its check, with one
    whose check failed and is unwinding, or done for. *)
Inductive Mark : Set := NoMark | SharedMark | SharedUnwinding | ExclusiveMark | Panicked.

#[export] Instance Mark_eq_dec : EqDecision Mark.
Proof. solve_decision. Defined.

Definition fetch_add (state : Z) : Z := (state + 1) mod USIZE_MOD.
Definition fetch_sub (state : Z) : Z := (state - 1) mod USIZE_MOD.
Definition clear_exclusive (state : Z) : Z := Z.land state (USIZE_MOD - 1 - CONTRACT_EXCLUSIVE).

Definition enter_shared (previous : Z) : Mark :=
  if Z.land previous CONTRACT_EXCLUSIVE =? 0 then SharedMark else SharedUnwinding.

(** One read-modify-write of the word by one thread. *)
Inductive contract_step : Z * list Mark -> Z * list Mark -> Prop :=
| cs_shared state ts i : ts !! i = Some NoMark ->
    contract_step (state, ts) (fetch_add state, <[i := enter_shared state]> ts)
| cs_shared_drop state ts i : ts !! i = Some SharedMark ->
    contract_step (state, ts) (fetch_sub state, <[i := NoMark]> ts)
| cs_unwind state ts i : ts !! i = Some SharedUnwinding ->
    contract_step (state, ts) (fetch_sub state, <[i := Panicked]> ts)
| cs_exclusive ts i : ts !! i = Some NoMark ->
    contract_step (0, ts) (CONTRACT_EXCLUSIVE, <[i := ExclusiveMark]> ts)
| cs_exclusive_panic state ts i : ts !! i = Some NoMark -> state <> 0 ->
    contract_step (state, ts) (state, <[i := Panicked]> ts)
| cs_exclusive_drop state ts i : ts !! i = Some ExclusiveMark ->
    contract_step (state, ts) (clear_exclusive state, <[i := NoMark]> ts).

Definition marks (m : Mark) (ts : list Mark) : Z := Z.of_nat (length (filter (m =.) ts)).

Lemma marks_insert m ts i (t t' : Mark) : ts !! i = Some t ->
  marks m (<[i := t']> ts) = marks m ts - (if decide (m = t) then 1 else 0) + (if decide (m = t') then 1 else 0).
Proof.
  unfold marks. revert i. induction ts as [|x ts IH]; intros [|i] Hi; [done..| |]; cbn in Hi.
  - injection Hi as ->. change (<[0%nat := t']> (t :: ts)) with (t' :: ts). rewrite !filter_cons.
    repeat case_decide; cbn [length]; lia.
  - specialize (IH i Hi). change (<[S i := t']> (x :: ts)) with (x :: <[i := t']> ts). rewrite !filter_cons.
    repeat case_decide; cbn [length]; lia.
Qed.

Lemma marks_nonneg m ts : 0 <= marks m ts.
Proof. unfold marks. lia. Qed.

Lemma marks_le m ts : marks m ts <= Z.of_nat (length ts).
Proof. unfold marks. pose proof (length_filter (m =.) ts). lia. Qed.

Lemma marks_pos m ts i : ts !! i = Some m -> 1 <= marks m ts.
Proof.
  intros Hi. unfold marks. assert (Hin : m ∈ filter (m =.) ts).
  { apply list_elem_of_filter. split; [done|]. by eapply list_elem_of_lookup_2. }
  destruct (filter (m =.) ts); [set_solver|cbn; lia].
Qed.

(** The word counts the shared marks and carries the top bit of the one exclusive
    mark, under which no shared mark has passed. *)
Record contract_inv (s : Z * list Mark) : Prop := {
  ct_word : s.1 = marks SharedMark s.2 + marks SharedUnwinding s.2 + CONTRACT_EXCLUSIVE * marks ExclusiveMark s.2;
  ct_one : marks ExclusiveMark s.2 <= 1;
  ct_apart : marks ExclusiveMark s.2 = 1 -> marks SharedMark s.2 = 0
}.

Lemma exclusive_bit k e : 0 <= k < CONTRACT_EXCLUSIVE -> 0 <= e <= 1 ->
  (Z.land (k + CONTRACT_EXCLUSIVE * e) CONTRACT_EXCLUSIVE =? 0) = (e =? 0) /\
  clear_exclusive (k + CONTRACT_EXCLUSIVE * e) = k.
Proof.
  intros Hk He. unfold clear_exclusive, CONTRACT_EXCLUSIVE, USIZE_MOD in *.
  change (2 ^ 64 - 1 - 2 ^ 63) with (Z.ones 63). rewrite Z.land_ones by lia.
  assert (Hb : e = 0 \/ e = 1) by lia. destruct Hb as [-> | ->].
  - rewrite Z.mul_0_r, Z.add_0_r. split; [|apply Z.mod_small; lia].
    replace (Z.land k (2 ^ 63)) with 0; [done|]. symmetry. apply Z.bits_inj'. intros n Hn.
    rewrite Z.land_spec, Z.bits_0, Z.pow2_bits_eqb by lia. destruct (Z.eqb_spec 63 n) as [<-|]; [|by rewrite andb_false_r].
    rewrite (Z.bits_above_log2 k 63); [done|lia|]. destruct (Z.eq_dec k 0) as [->|]; [done|]. apply Z.log2_lt_pow2; lia.
  - rewrite Z.mul_1_r. split.
    + apply Z.eqb_neq. intros E. assert (Hz : Z.testbit (Z.land (k + 2 ^ 63) (2 ^ 63)) 63 = false) by (by rewrite E, Z.bits_0).
      rewrite Z.land_spec, Z.pow2_bits_true, andb_true_r in Hz by lia.
      assert (Ht : Z.testbit (k + 2 ^ 63) 63 = true); [|congruence].
      apply Z.testbit_true; [lia|]. replace (k + 2 ^ 63) with (k + 1 * 2 ^ 63) by lia.
      rewrite Z.div_add, Z.div_small by lia. done.
    + replace (k + 2 ^ 63) with (k + 1 * 2 ^ 63) by lia. rewrite Z.mod_add by lia. apply Z.mod_small. lia.
Qed.

Ltac after_mark Hi :=
  split; cbn [fst snd]; rewrite !(marks_insert _ _ _ _ _ Hi);
  repeat (case_decide; try congruence); generalize dependent CONTRACT_EXCLUSIVE; intros; nia.

Lemma contract_step_inv s s' : Z.of_nat (length s.2) * 2 + 2 < CONTRACT_EXCLUSIVE -> contract_inv s -> contract_step s s' ->
  contract_inv s' /\ length s'.2 = length s.2.
Proof.
  intros Hn [Hw H1 Ha] Hs.
  assert (He : 2 ^ 64 = 2 * CONTRACT_EXCLUSIVE) by done.
  assert (HE : 0 < CONTRACT_EXCLUSIVE) by done.
  destruct Hs as [state ts i Hi|state ts i Hi|state ts i Hi|ts i Hi|state ts i Hi Hz|state ts i Hi];
    cbn [fst snd] in *; (split; [|by rewrite length_insert]);
    pose proof (marks_nonneg SharedMark ts); pose proof (marks_nonneg SharedUnwinding ts);
    pose proof (marks_nonneg ExclusiveMark ts);
    pose proof (marks_le SharedMark ts); pose proof (marks_le SharedUnwinding ts); pose proof (marks_pos _ _ _ Hi);
    (destruct (exclusive_bit (marks SharedMark ts + marks SharedUnwinding ts) (marks ExclusiveMark ts)) as [Hbit Hclr]; [lia|lia|]).
  - unfold enter_shared. rewrite Hw, Hbit. unfold fetch_add, USIZE_MOD. rewrite Z.mod_small by nia.
    destruct (Z.eqb_spec (marks ExclusiveMark ts) 0) as [E0|E0]; after_mark Hi.
  - unfold fetch_sub, USIZE_MOD. rewrite Z.mod_small by nia. after_mark Hi.
  - unfold fetch_sub, USIZE_MOD. rewrite Z.mod_small by nia. after_mark Hi.
  - after_mark Hi.
  - after_mark Hi.
  - rewrite Hw, Hclr. after_mark Hi.
Qed.

Definition contract_init (n : nat) : Z * list Mark := (0, replicate n NoMark).

Lemma marks_init m n : m <> NoMark -> marks m (replicate n NoMark) = 0.
Proof.
  intros Hm. unfold marks. induction n as [|n IH]; [done|]. cbn [replicate]. rewrite filter_cons, decide_False by done. exact IH.
Qed.

Lemma contract_reachable_inv n s : Z.of_nat n * 2 + 2 < CONTRACT_EXCLUSIVE -> rtc contract_step (contract_init n) s ->
  contract_inv s /\ length s.2 = n.
Proof.
  intros Hn. revert s. apply (rtc_ind_r (fun s => contract_inv s /\ length s.2 = n)).
  - unfold contract_init. cbn. rewrite length_replicate. split; [|done]. split; cbn; rewrite ?marks_init by done; lia.
  - intros s s' _ Hs [Hi Hl]. destruct (contract_step_inv s s') as [Hi' Hl']; [by rewrite Hl|done|done|]. split; [done|lia].
Qed.

(** The check is exact under any interleaving: an exclusive operation and another
    operation are never both past their checks; a state write fails its check
    exactly while an exclusive operation is under way, and an exclusive operation
    exactly while anything is; and once all marks are dropped the word is clean,
    whoever panicked. *)
Theorem contract_check_exact n s : Z.of_nat n * 2 + 2 < CONTRACT_EXCLUSIVE -> rtc contract_step (contract_init n) s ->
  (forall i j m, s.2 !! i = Some ExclusiveMark -> s.2 !! j = Some m -> i <> j -> m <> ExclusiveMark /\ m <> SharedMark) /\
  (enter_shared s.1 = SharedUnwinding <-> exists i, s.2 !! i = Some ExclusiveMark) /\
  (s.1 <> 0 <-> exists i m, s.2 !! i = Some m /\ (m = SharedMark \/ m = SharedUnwinding \/ m = ExclusiveMark)).
Proof.
  intros Hn Hr. destruct (contract_reachable_inv n s Hn Hr) as [[Hw H1 Ha] Hl]. destruct s as [state ts]. cbn [fst snd] in *.
  pose proof (marks_nonneg SharedMark ts). pose proof (marks_nonneg SharedUnwinding ts). pose proof (marks_nonneg ExclusiveMark ts).
  pose proof (marks_le SharedMark ts). pose proof (marks_le SharedUnwinding ts). assert (HE : 0 < CONTRACT_EXCLUSIVE) by done.
  assert (Hex : forall m, marks m ts <> 0 -> exists i, ts !! i = Some m).
  { intros m Hm. unfold marks in Hm. destruct (filter (m =.) ts) as [|x l] eqn:E; [done|].
    assert (Hin : x ∈ filter (m =.) ts) by (rewrite E; set_solver).
    apply list_elem_of_filter in Hin as [<- Hin]. by apply list_elem_of_lookup_1. }
  destruct (exclusive_bit (marks SharedMark ts + marks SharedUnwinding ts) (marks ExclusiveMark ts)) as [Hbit _]; [lia|lia|].
  split_and!.
  - intros i j m Hi Hj Hne. pose proof (marks_pos _ _ _ Hi). split; intros ->.
    + assert (E := marks_insert ExclusiveMark ts i _ NoMark Hi). rewrite decide_True, decide_False in E by done.
      assert (Hj' : <[i := NoMark]> ts !! j = Some ExclusiveMark) by (by rewrite list_lookup_insert_ne).
      pose proof (marks_pos _ _ _ Hj'). lia.
    + pose proof (marks_pos _ _ _ Hj). lia.
  - unfold enter_shared. rewrite Hw, Hbit. destruct (Z.eqb_spec (marks ExclusiveMark ts) 0) as [E0|E0].
    + split; [done|]. intros [i Hi%marks_pos]. lia.
    + split; [|done]. intros _. by apply Hex.
  - rewrite Hw. split.
    + intros Hz. destruct (Z.eq_dec (marks SharedMark ts) 0) as [E1|E1]; [|destruct (Hex _ E1); eauto 7].
      destruct (Z.eq_dec (marks SharedUnwinding ts) 0) as [E2|E2]; [|destruct (Hex _ E2); eauto 7].
      destruct (Z.eq_dec (marks ExclusiveMark ts) 0) as [E3|E3]; [nia|]. destruct (Hex _ E3); eauto 8.
    + intros (i & m & Hi & Hm). pose proof (marks_pos _ _ _ Hi). destruct Hm as [->|[->| ->]]; nia.
Qed.
