(* ===== verification/Lock.v ===== *)
(** * Lock: the price lock of a reservation

    src/crates/openpit/src/pretrade/lock.rs and the [PolicyGroupId] of
    core/mod.rs.  The binary format behind serde is third-party; [SerdeFormat]
    lists what the serializer and the visitors of the source call. *)
From S2P Require Import Prelude.
From S2P Require Import Decimal.
From S2P Require Import Param.
Open Scope Z_scope.

Record PolicyGroupId : Set := mkPolicyGroupId { policy_group_value : Z }.

Definition DEFAULT_POLICY_GROUP_ID : PolicyGroupId := mkPolicyGroupId 0.

#[export] Instance PolicyGroupId_eq_dec : EqDecision PolicyGroupId.
Proof. solve_decision. Defined.

Section Lock.
Context {D : DecimalOps}.

Record GroupSection : Type := mkGroupSection {
  section_group_id : PolicyGroupId;
  section_prices : list Price
}.

Record PreTradeLock : Type := mkLock {
  default_prices : list Price;
  other_sections : list GroupSection
}.

Definition lock_new : PreTradeLock := mkLock [] [].

Definition sections_len (sections : list GroupSection) : nat :=
  sum_list ((fun s => length (section_prices s)) <$> sections).

Definition lock_len (self : PreTradeLock) : nat :=
  (length (default_prices self) + sections_len (other_sections self))%nat.

Definition is_nil {A} (l : list A) : bool := match l with [] => true | _ => false end.

Definition lock_is_empty (self : PreTradeLock) : bool :=
  is_nil (default_prices self) && forallb (fun s => is_nil (section_prices s)) (other_sections self).

(** The search of [push], [push_many] and [merge]: extend the first section of
    the group, or append a new one. *)
Fixpoint extend_section (sections : list GroupSection) (group_id : PolicyGroupId)
    (prices : list Price) : list GroupSection :=
  match sections with
  | [] => [mkGroupSection group_id prices]
  | s :: rest =>
      if decide (section_group_id s = group_id)
      then mkGroupSection group_id (section_prices s ++ prices) :: rest
      else s :: extend_section rest group_id prices
  end.

Definition lock_push (self : PreTradeLock) (group_id : PolicyGroupId) (price : Price) :
    PreTradeLock :=
  if decide (group_id = DEFAULT_POLICY_GROUP_ID)
  then mkLock (default_prices self ++ [price]) (other_sections self)
  else mkLock (default_prices self) (extend_section (other_sections self) group_id [price]).

Definition lock_push_many (self : PreTradeLock) (group_id : PolicyGroupId) (prices : list Price) :
    PreTradeLock :=
  if is_nil prices then self
  else if decide (group_id = DEFAULT_POLICY_GROUP_ID)
  then mkLock (default_prices self ++ prices) (other_sections self)
  else mkLock (default_prices self) (extend_section (other_sections self) group_id prices).

Definition lock_merge (self other : PreTradeLock) : PreTradeLock :=
  mkLock (default_prices self ++ default_prices other)
    (foldl (fun acc s => extend_section acc (section_group_id s) (section_prices s))
       (other_sections self) (other_sections other)).

Definition lock_append (self : PreTradeLock) (entries : list (PolicyGroupId * Price)) :
    PreTradeLock :=
  foldl (fun lock e => lock_push lock e.1 e.2) self entries.

Definition lock_from_entries (entries : list (PolicyGroupId * Price)) : PreTradeLock :=
  lock_append lock_new entries.

Fixpoint find_section (sections : list GroupSection) (group_id : PolicyGroupId) : list Price :=
  match sections with
  | [] => []
  | s :: rest =>
      if decide (section_group_id s = group_id) then section_prices s
      else find_section rest group_id
  end.

Definition prices_of (self : PreTradeLock) (group_id : PolicyGroupId) : list Price :=
  if decide (group_id = DEFAULT_POLICY_GROUP_ID) then default_prices self
  else find_section (other_sections self) group_id.

(** ** The [Entries] iterator *)

Record Entries : Type := mkEntries {
  it_default : list Price;
  it_sections : list GroupSection;
  it_current : option (PolicyGroupId * list Price)
}.

Definition lock_entries (self : PreTradeLock) : Entries :=
  mkEntries (default_prices self) (other_sections self) None.

(** The [loop] of [next]: each round either yields or takes the next section. *)
Fixpoint next_in_sections (sections : list GroupSection)
    (current : option (PolicyGroupId * list Price)) :
    option (PolicyGroupId * Price * Entries) :=
  match current with
  | Some (group_id, price :: prices) =>
      Some (group_id, price, mkEntries [] sections (Some (group_id, prices)))
  | _ =>
      match sections with
      | [] => None
      | s :: sections => next_in_sections sections (Some (section_group_id s, section_prices s))
      end
  end.

Definition entries_next (self : Entries) : option (PolicyGroupId * Price * Entries) :=
  match it_default self with
  | price :: prices =>
      Some (DEFAULT_POLICY_GROUP_ID, price, mkEntries prices (it_sections self) (it_current self))
  | [] => next_in_sections (it_sections self) (it_current self)
  end.

Definition entries_size_hint (self : Entries) : nat :=
  (length (it_default self) +
   match it_current self with Some (_, prices) => length prices | None => 0 end +
   sections_len (it_sections self))%nat.

(** Calling [next] [n] times; [None] where the iterator ends early. *)
Fixpoint entries_take (n : nat) (self : Entries) : option (list (PolicyGroupId * Price) * Entries) :=
  match n with
  | O => Some ([], self)
  | S n =>
      '(g, p, self) ← entries_next self;
      '(items, self) ← entries_take n self;
      Some ((g, p) :: items, self)
  end.

(** ** Serialization *)

(** The serde data model as the source uses it: a value type with sequences, and
    the encodings of a [u16] and of a [Price]. *)
Class SerdeFormat : Type := {
  Ser : Type;
  ser_seq : list Ser -> Ser;
  de_seq : Ser -> option (list Ser);
  ser_u16 : Z -> Ser;
  de_u16 : Ser -> option Z;
  ser_price : Price -> Ser;
  de_price : Ser -> option Price
}.

(** A format reads back what it writes. *)
Class SerdeLaws (F : SerdeFormat) : Prop := {
  de_ser_seq : forall l, de_seq (ser_seq l) = Some l;
  de_ser_u16 : forall z, 0 <= z <= U16_MAX -> de_u16 (ser_u16 z) = Some z;
  de_ser_price : forall p, de_price (ser_price p) = Some p
}.

Inductive LockDeError : Set := DeElement | DeInvalidLength | DeDefaultGroupTagged.

Context {F : SerdeFormat}.

Definition ser_section (s : GroupSection) : Ser :=
  ser_seq (ser_u16 (policy_group_value (section_group_id s)) :: (ser_price <$> section_prices s)).

Definition lock_serialize (self : PreTradeLock) : Ser :=
  if lock_is_empty self then ser_seq []
  else ser_seq (ser_seq (ser_price <$> default_prices self) ::
                (ser_section <$> other_sections self)).

(** [while let Some(price) = entries.next_element()? { lock.push(..) }]. *)
Fixpoint de_prices (lock : PreTradeLock) (group_id : PolicyGroupId) (entries : list Ser) :
    result LockDeError PreTradeLock :=
  match entries with
  | [] => Ok lock
  | e :: entries =>
      price ← ok_or (de_price e) DeElement;
      de_prices (lock_push lock group_id price) group_id entries
  end.

Definition de_default (lock : PreTradeLock) (s : Ser) : result LockDeError PreTradeLock :=
  entries ← ok_or (de_seq s) DeElement; de_prices lock DEFAULT_POLICY_GROUP_ID entries.

Definition de_section (lock : PreTradeLock) (s : Ser) : result LockDeError PreTradeLock :=
  entries ← ok_or (de_seq s) DeElement;
  match entries with
  | [] => Err DeInvalidLength
  | e :: entries =>
      raw_group_id ← ok_or (de_u16 e) DeElement;
      let group_id := mkPolicyGroupId raw_group_id in
      if decide (group_id = DEFAULT_POLICY_GROUP_ID) then Err DeDefaultGroupTagged
      else de_prices lock group_id entries
  end.

Fixpoint de_sections (lock : PreTradeLock) (entries : list Ser) : result LockDeError PreTradeLock :=
  match entries with
  | [] => Ok lock
  | s :: entries => lock ← de_section lock s; de_sections lock entries
  end.

Definition lock_deserialize (s : Ser) : result LockDeError PreTradeLock :=
  entries ← ok_or (de_seq s) DeElement;
  match entries with
  | [] => Ok lock_new
  | s :: entries => lock ← de_default lock_new s; de_sections lock entries
  end.

(** ** Invariant *)

(** Sections are tagged, distinct and not empty, and their ids fit in 16 bits. *)
Definition section_wf (s : GroupSection) : Prop :=
  section_group_id s <> DEFAULT_POLICY_GROUP_ID /\ section_prices s <> [] /\
  0 <= policy_group_value (section_group_id s) <= U16_MAX.

Definition lock_wf (self : PreTradeLock) : Prop :=
  Forall section_wf (other_sections self) /\ NoDup (section_group_id <$> other_sections self).

(** The entries a lock stands for, default group first. *)
Definition section_entries (s : GroupSection) : list (PolicyGroupId * Price) :=
  (fun p => (section_group_id s, p)) <$> section_prices s.
Definition entries_list (self : PreTradeLock) : list (PolicyGroupId * Price) :=
  ((fun p => (DEFAULT_POLICY_GROUP_ID, p)) <$> default_prices self) ++
  (other_sections self ≫= section_entries).

Definition gid_ok (g : PolicyGroupId) : Prop := 0 <= policy_group_value g <= U16_MAX.

End Lock.

Arguments SerdeLaws {D} F.

(** ** Properties *)

Section LockFacts.
Context {D : DecimalOps}.
Implicit Types (lock self other : PreTradeLock) (sections : list GroupSection).

Lemma find_extend sections g ps g' :
  find_section (extend_section sections g ps) g' =
  find_section sections g' ++ (if decide (g' = g) then ps else []).
Proof.
  induction sections as [|s rest IH]; cbn.
  - repeat case_decide; congruence.
  - repeat (case_decide; cbn); try congruence; by rewrite ?IH, ?app_nil_r.
Qed.

Lemma extend_gids sections g ps :
  section_group_id <$> extend_section sections g ps =
  (section_group_id <$> sections) ++
  (if decide (g ∈ section_group_id <$> sections) then [] else [g]).
Proof.
  induction sections as [|s rest IH]; cbn; [done|].
  destruct (decide (section_group_id s = g)) as [<-|Hs]; cbn.
  - rewrite decide_True by set_solver. by rewrite app_nil_r.
  - rewrite IH. do 2 f_equal. apply decide_ext. set_solver.
Qed.

Lemma extend_wf sections g ps :
  ps <> [] -> g <> DEFAULT_POLICY_GROUP_ID -> gid_ok g ->
  Forall section_wf sections -> Forall section_wf (extend_section sections g ps).
Proof.
  intros Hps Hg Hok. induction 1 as [|s rest Hs Hrest IH]; cbn.
  - apply Forall_singleton. by split.
  - case_decide; constructor; try done. destruct Hs as (? & ? & ?). split; [|split]; cbn; try done.
    by destruct (section_prices s).
Qed.

Lemma extend_NoDup sections g ps :
  NoDup (section_group_id <$> sections) -> NoDup (section_group_id <$> extend_section sections g ps).
Proof.
  rewrite extend_gids. intros H. case_decide; [by rewrite app_nil_r|].
  apply NoDup_app. split_and!; [done|set_solver|apply NoDup_singleton].
Qed.

Lemma push_many_spec lock g ps g' :
  prices_of (lock_push_many lock g ps) g' =
  prices_of lock g' ++ (if decide (g' = g) then ps else []).
Proof.
  unfold lock_push_many, prices_of. destruct ps as [|p ps]; cbn [is_nil].
  { assert (Hn : (if decide (g' = g) then @nil Price else []) = []) by by case_decide.
    by rewrite Hn, app_nil_r. }
  repeat case_decide; subst; cbn; try congruence; rewrite ?find_extend, ?app_nil_r; try done.
  - by rewrite decide_True.
  - by rewrite decide_False, app_nil_r.
Qed.

Lemma push_as_push_many lock g p : lock_push lock g p = lock_push_many lock g [p].
Proof. done. Qed.

Lemma push_many_wf lock g ps : gid_ok g -> lock_wf lock -> lock_wf (lock_push_many lock g ps).
Proof.
  intros Hg [H1 H2]. unfold lock_push_many. destruct ps as [|p ps]; [done|]. cbn [is_nil].
  case_decide; [done|]. split; cbn [other_sections]; [by apply extend_wf|by apply extend_NoDup].
Qed.

Lemma push_wf lock g p : gid_ok g -> lock_wf lock -> lock_wf (lock_push lock g p).
Proof. rewrite push_as_push_many. apply push_many_wf. Qed.

Lemma append_spec lock es g :
  prices_of (lock_append lock es) g =
  prices_of lock g ++ (filter (fun e => e.1 = g) es).*2.
Proof.
  revert lock. induction es as [|[g1 p] es IH]; intros lock; [cbn; by rewrite app_nil_r|].
  change (lock_append lock ((g1, p) :: es)) with (lock_append (lock_push lock g1 p) es).
  rewrite IH, push_as_push_many, push_many_spec, filter_cons.
  cbn. rewrite <- app_assoc. f_equal.
  destruct (decide (g = g1)) as [->|Hne]; [by rewrite decide_True|by rewrite decide_False].
Qed.

(** A lock built from tagged prices gives each group back exactly its own
    prices, in the order in which they came, whatever the interleaving of the
    groups; and it is well formed. *)
Theorem lock_from_entries_spec (es : list (PolicyGroupId * Price)) :
  Forall (fun e => gid_ok e.1) es ->
  lock_wf (lock_from_entries es) /\
  forall g, prices_of (lock_from_entries es) g = (filter (fun e => e.1 = g) es).*2.
Proof.
  intros Hes. split.
  - unfold lock_from_entries, lock_append.
    assert (Hw : lock_wf lock_new) by by split; constructor.
    revert Hw. generalize lock_new. induction Hes as [|[g p] es Hg _ IH]; intros lock Hw; cbn; [done|].
    apply IH. by apply push_wf.
  - intros g. unfold lock_from_entries. rewrite append_spec. unfold prices_of. cbn. by case_decide.
Qed.

Lemma find_absent sections g : g ∉ (section_group_id <$> sections) -> find_section sections g = [].
Proof.
  induction sections as [|s rest IH]; cbn; [done|]. intros [Hne Hin]%not_elem_of_cons.
  rewrite decide_False by done. auto.
Qed.

Lemma merge_sections acc sections g :
  NoDup (section_group_id <$> sections) ->
  find_section (foldl (fun acc s => extend_section acc (section_group_id s) (section_prices s))
                  acc sections) g =
  find_section acc g ++ find_section sections g.
Proof.
  revert acc. induction sections as [|s rest IH]; intros acc; cbn; [by rewrite app_nil_r|].
  intros [Hs Hrest]%NoDup_cons. rewrite IH, find_extend, <- app_assoc by done. f_equal.
  destruct (decide (section_group_id s = g)) as [<-|Hne].
  - by rewrite decide_True, find_absent, app_nil_r.
  - by rewrite decide_False.
Qed.

(** Merging appends, group by group, the other lock's prices. *)
Theorem lock_merge_spec self other g :
  lock_wf other ->
  prices_of (lock_merge self other) g = prices_of self g ++ prices_of other g.
Proof.
  intros [_ Hnd]. unfold prices_of, lock_merge. cbn. case_decide; [done|]. by apply merge_sections.
Qed.

(** What remains to be yielded. *)
Definition remaining (it : Entries) : list (PolicyGroupId * Price) :=
  ((fun p => (DEFAULT_POLICY_GROUP_ID, p)) <$> it_default it) ++
  match it_current it with Some (g, ps) => (fun p => (g, p)) <$> ps | None => [] end ++
  (it_sections it ≫= section_entries).

Lemma next_in_sections_spec sections cur :
  let it := mkEntries [] sections cur in
  match next_in_sections sections cur with
  | Some (g, p, it') => remaining it = (g, p) :: remaining it'
  | None => remaining it = []
  end.
Proof.
  revert cur. induction sections as [|s rest IH]; intros cur; cbn.
  - destruct cur as [[g [|p ps]]|]; done.
  - destruct cur as [[g [|p ps]]|]; [|done|]; specialize (IH (Some (section_group_id s, section_prices s)));
      cbn in IH; destruct (next_in_sections _ _) as [[[g' p'] it']|]; exact IH.
Qed.

Lemma entries_next_spec (it : Entries) :
  match entries_next it with
  | Some (g, p, it') => remaining it = (g, p) :: remaining it'
  | None => remaining it = []
  end.
Proof.
  destruct it as [[|p ps] sections cur]; unfold entries_next; cbn [it_default];
    [apply next_in_sections_spec|done].
Qed.

Lemma size_hint_remaining (it : Entries) : entries_size_hint it = length (remaining it).
Proof.
  unfold entries_size_hint, remaining, sections_len.
  rewrite !length_app, length_fmap.
  assert (H : forall ss : list GroupSection,
    sum_list ((fun s => length (section_prices s)) <$> ss) = length (ss ≫= section_entries)).
  { induction ss as [|s ss IH]; cbn; [done|]. rewrite length_app, IH. unfold section_entries.
    by rewrite length_fmap. }
  rewrite H. destruct (it_current it) as [[g ps]|]; rewrite ?length_fmap; cbn; lia.
Qed.

Lemma entries_take_all (it : Entries) :
  exists it', entries_take (length (remaining it)) it = Some (remaining it, it') /\ remaining it' = [].
Proof.
  remember (remaining it) as l eqn:Hl. revert it Hl.
  induction l as [|[g p] l IH]; intros it Hl; cbn; [by eauto|].
  pose proof (entries_next_spec it) as Hn. destruct (entries_next it) as [[[g' p'] it1]|]; [|congruence].
  rewrite <- Hl in Hn. simplify_eq. destruct (IH it1) as (it' & H1 & H2); [done|].
  cbn. rewrite H1. cbn. eauto.
Qed.

(** The iterator over a lock terminates: it yields exactly as many entries as
    its size hint (and [len]) announces, they are the lock's prices with their
    groups, default group first, and the next call answers [None]. *)
Theorem lock_entries_spec self :
  exists it, entries_take (entries_size_hint (lock_entries self)) (lock_entries self) =
               Some (entries_list self, it) /\
             entries_next it = None /\ length (entries_list self) = lock_len self.
Proof.
  rewrite size_hint_remaining. destruct (entries_take_all (lock_entries self)) as (it & H1 & H2).
  exists it. split_and!; [exact H1| |].
  - pose proof (entries_next_spec it) as Hn. destruct (entries_next it) as [[[??]?]|]; [congruence|done].
  - change (entries_list self) with (remaining (lock_entries self)).
    rewrite <- size_hint_remaining. unfold entries_size_hint, lock_len. cbn -[sections_len]. lia.
Qed.

Section Serde.
Context {F : SerdeFormat} {L : SerdeLaws F}.

Lemma de_prices_ser lock g ps :
  de_prices lock g (ser_price <$> ps) = Ok (foldl (fun l p => lock_push l g p) lock ps).
Proof.
  revert lock. induction ps as [|p ps IH]; intros lock; cbn; [done|].
  rewrite de_ser_price. cbn. apply IH.
Qed.

Lemma push_default_all ds os ps :
  foldl (fun l p => lock_push l DEFAULT_POLICY_GROUP_ID p) (mkLock ds os) ps = mkLock (ds ++ ps) os.
Proof.
  revert ds. induction ps as [|p ps IH]; intros ds; cbn; [by rewrite app_nil_r|].
  unfold lock_push at 2. rewrite decide_True by done. cbn. by rewrite IH, <- app_assoc.
Qed.

Lemma extend_absent sections g ps : g ∉ (section_group_id <$> sections) ->
  extend_section sections g ps = sections ++ [mkGroupSection g ps].
Proof.
  induction sections as [|s rest IH]; cbn; [done|]. intros [Hne Hin]%not_elem_of_cons.
  rewrite decide_False by done. f_equal. auto.
Qed.

Lemma extend_last sections g ps qs : g ∉ (section_group_id <$> sections) ->
  extend_section (sections ++ [mkGroupSection g ps]) g qs = sections ++ [mkGroupSection g (ps ++ qs)].
Proof.
  induction sections as [|s rest IH]; cbn; [by rewrite decide_True|].
  intros [Hne Hin]%not_elem_of_cons. rewrite decide_False by done. f_equal. auto.
Qed.

Lemma push_section_all ds os g ps qs : g <> DEFAULT_POLICY_GROUP_ID ->
  g ∉ (section_group_id <$> os) ->
  foldl (fun l p => lock_push l g p) (mkLock ds (os ++ [mkGroupSection g ps])) qs =
  mkLock ds (os ++ [mkGroupSection g (ps ++ qs)]).
Proof.
  intros Hg Hin. revert ps. induction qs as [|q qs IH]; intros ps; cbn; [by rewrite app_nil_r|].
  unfold lock_push at 2. rewrite decide_False by done. cbn [default_prices other_sections].
  rewrite extend_last by done. by rewrite IH, <- app_assoc.
Qed.

Lemma de_section_ser ds os s : section_wf s -> section_group_id s ∉ (section_group_id <$> os) ->
  de_section (mkLock ds os) (ser_section s) = Ok (mkLock ds (os ++ [s])).
Proof.
  destruct s as [[g] ps]. intros (Hd & Hp & Hg) Hin. unfold de_section, ser_section.
  rewrite de_ser_seq. cbn. rewrite de_ser_u16 by done. cbn. cbn in Hd. rewrite decide_False by done.
  rewrite de_prices_ser. destruct ps as [|p ps]; [done|]. cbn. unfold lock_push at 2.
  rewrite decide_False by done. cbn [default_prices other_sections].
  rewrite extend_absent by done. by rewrite push_section_all.
Qed.

Lemma de_sections_ser ds os ss : Forall section_wf ss ->
  NoDup (section_group_id <$> (os ++ ss)) ->
  de_sections (mkLock ds os) (ser_section <$> ss) = Ok (mkLock ds (os ++ ss)).
Proof.
  intros Hss. revert os. induction Hss as [|s ss Hs Hss IH]; intros os Hnd; [by rewrite app_nil_r|].
  cbn. rewrite de_section_ser; [|done|].
  - cbn. rewrite IH; rewrite <- app_assoc; done.
  - rewrite fmap_app, fmap_cons in Hnd. apply NoDup_app in Hnd. set_solver.
Qed.

Lemma lock_empty_wf self : lock_wf self -> lock_is_empty self = true -> self = lock_new.
Proof.
  destruct self as [[|? ?] [|s ss]]; intros [Hw _]; try done. apply Forall_cons in Hw as [(_ & Hp & _) _].
  unfold lock_is_empty. cbn. by destruct (section_prices s).
Qed.

(** Serializing any lock the API can build and deserializing the outcome gives
    the same lock back; in every well-formed format. *)
Theorem lock_serde_roundtrip self : lock_wf self -> lock_deserialize (lock_serialize self) = Ok self.
Proof.
  intros Hw. unfold lock_deserialize, lock_serialize. destruct (lock_is_empty self) eqn:E.
  - rewrite de_ser_seq. cbn. by rewrite (lock_empty_wf self).
  - rewrite de_ser_seq. cbn. unfold de_default. rewrite de_ser_seq. cbn.
    rewrite de_prices_ser. unfold lock_new. rewrite push_default_all. cbn.
    destruct self as [ds os], Hw as [H1 H2]. by rewrite de_sections_ser.
Qed.
End Serde.
End LockFacts.
