(* ===== verification/Policy.v ===== *)
(** * Policy: outcomes, contexts and the interface of a pre-trade policy

    src/crates/openpit/src/core/account_outcome.rs, core/account_retirement.rs,
    core/request_trait.rs, core/account_adjustment_context.rs, pretrade/context.rs,
    pretrade/post_trade_context.rs, pretrade/policy_result.rs,
    pretrade/post_trade_result.rs, pretrade/start_pre_trade_time.rs and
    pretrade/policy.rs.

    A hook is a state transformer: it receives the engine state and what the
    context's shared cells hold, and returns both.  [W] is the state the
    policies of an engine own. *)
From S2P Require Import Prelude.
From S2P Require Import Decimal.
From S2P Require Import Param.
From S2P Require Import ParamTypes.
From S2P Require Import Identifiers.
From S2P Require Import Mutation.
From S2P Require Import Reject.
From S2P Require Import AccountControl.
From S2P Require Import Accounts.
From S2P Require Import Lock.
Open Scope Z_scope.

(** ** Outcomes *)

Inductive PnlHaltReason : Set :=
| MissingFx | MissingAccountCurrency | MissingInitialPnl | MissingCostBasis | ArithmeticOverflow.

#[export] Instance PnlHaltReason_eq_dec : EqDecision PnlHaltReason.
Proof. solve_decision. Defined.

Section Outcomes.
Context {D : DecimalOps}.

Record OutcomeAmount : Type := mkOutcomeAmount {
  oa_delta : PositionSize;
  oa_absolute : PositionSize
}.

Record PnlOutcomeAmount : Type := mkPnlOutcomeAmount {
  poa_delta : Pnl;
  poa_absolute : Pnl
}.

Definition PnlOutcome : Type := result PnlHaltReason PnlOutcomeAmount.

Inductive PnlState : Type := PnlValue (value : Pnl) | PnlHalted (reason : PnlHaltReason).

Record AccountPnlOutcome : Type := mkAccountPnlOutcome {
  apo_result : PnlOutcome;
  apo_account_id : AccountId;
  apo_policy_group_id : PolicyGroupId
}.

Record AccountOutcomeEntry : Type := mkAccountOutcomeEntry {
  aoe_asset : Asset;
  aoe_balance : option OutcomeAmount;
  aoe_held : option OutcomeAmount;
  aoe_incoming : option OutcomeAmount;
  aoe_realized_pnl : option PnlOutcome;
  aoe_average_entry_price : option Price
}.

Record AccountAdjustmentOutcome : Type := mkAccountAdjustmentOutcome {
  aao_policy_group_id : PolicyGroupId;
  aao_entry : AccountOutcomeEntry
}.

Record AccountAdjustmentBatchResult : Type := mkBatchResult {
  abr_outcomes : list AccountAdjustmentOutcome;
  abr_account_blocks : list AccountBlock
}.

Record PolicyPreTradeResult : Type := mkPolicyPreTradeResult {
  ppr_account_adjustments : list AccountOutcomeEntry;
  ppr_lock_prices : list Price
}.

Record PolicyAccountAdjustmentResult : Type := mkPolicyAccountAdjustmentResult {
  paar_account_adjustments : list AccountOutcomeEntry;
  paar_account_blocks : list AccountBlock
}.

Record PostTradeResult : Type := mkPostTradeResult {
  ptr_account_blocks : list AccountBlock;
  ptr_account_pnls : list AccountPnlOutcome;
  ptr_account_adjustments : list AccountAdjustmentOutcome
}.

Definition blocks_only (account_blocks : list AccountBlock) : PostTradeResult :=
  mkPostTradeResult account_blocks [] [].

End Outcomes.

Inductive AccountRetirementRefusal : Set :=
| ConfigurationReferencesAccount | NonZeroState | OperationInProgress | EvaluationFailed.

Record AccountRetirementPolicyRefusal : Set := mkPolicyRefusal {
  pr_policy : string;
  pr_refusal : AccountRetirementRefusal
}.

Inductive AccountRetirementError : Set :=
| Refused (refusals : list AccountRetirementPolicyRefusal)
| FinalizerFailed.

(** ** Request fields *)

Record RequestFieldAccessError : Set := mkFieldAccessError { rfae_field : string }.

Definition RequestFieldAccessError_fmt (e : RequestFieldAccessError) : string :=
  "failed to access field '" +:+ rfae_field e +:+ "'".

(** The accessor is the caller's code and need not answer twice the same; the
    number counts the engine's reads of one value. *)
Class HasAccountId (T : Type) : Type :=
  account_id : T -> nat -> result RequestFieldAccessError AccountId.

(** core/instrument.rs, and the accessors the policies read an order through;
    a policy reads each field once at most. *)
Record Instrument : Type := mkInstrument { underlying_asset : Asset; settlement_asset : Asset }.

Class HasInstrument (Order : Type) : Type :=
  instrument : Order -> result RequestFieldAccessError Instrument.
Class HasTradeAmount {D : DecimalOps} (Order : Type) : Type :=
  trade_amount : Order -> result RequestFieldAccessError TradeAmount.
Class HasOrderPrice {D : DecimalOps} (Order : Type) : Type :=
  price : Order -> result RequestFieldAccessError (option Price).
Class HasPnl {D : DecimalOps} (Report : Type) : Type :=
  report_pnl : Report -> result RequestFieldAccessError Pnl.
Class HasFee {D : DecimalOps} (Report : Type) : Type :=
  report_fee : Report -> result RequestFieldAccessError Fee.

(** A component's state inside the world of an engine's policies. *)
Class Owns (W S : Type) : Type := {
  own_get : W -> S;
  own_set : S -> W -> W;
  own_get_set x w : own_get (own_set x w) = x;
  own_set_get w : own_set (own_get w) w = w;
  own_set_set x y w : own_set x (own_set y w) = own_set x w
}.

(** ** Engine state *)

(** [es_next_owner] is the process-wide counter of mutation owners and
    [es_start_now] the thread-local slot of start_pre_trade_time.rs. *)
Record EngineState (W : Type) : Type := mkEngineState {
  es_world : W;
  es_accounts : AccountsState;
  es_next_owner : Z;
  es_start_now : option Z
}.
Arguments mkEngineState {W}.
Arguments es_world {W}.
Arguments es_accounts {W}.
Arguments es_next_owner {W}.
Arguments es_start_now {W}.

Definition with_world {W} (st : EngineState W) (w : W) : EngineState W :=
  mkEngineState w (es_accounts st) (es_next_owner st) (es_start_now st).
Definition with_accounts {W} (st : EngineState W) (a : AccountsState) : EngineState W :=
  mkEngineState (es_world st) a (es_next_owner st) (es_start_now st).
Definition with_start_now {W} (st : EngineState W) (now : option Z) : EngineState W :=
  mkEngineState (es_world st) (es_accounts st) (es_next_owner st) now.
Definition es_blocked {W} (st : EngineState W) : BlockedAccounts := as_blocked (es_accounts st).
Definition es_groups {W} (st : EngineState W) : AccountGroups := as_groups (es_accounts st).
Definition set_blocked {W} (st : EngineState W) (b : BlockedAccounts) : EngineState W :=
  with_accounts st (with_blocked (es_accounts st) b).

(** [Mutations::new]; two rounds of the identifier loop always suffice. *)
Definition mutations_new {W} (st : EngineState W) : Mutations (EngineState W) * EngineState W :=
  let '(id, counter) := default (0, es_next_owner st) (next_mutation_owner_id 2 (es_next_owner st)) in
  (mkMutations [] id, mkEngineState (es_world st) (es_accounts st) counter (es_start_now st)).

(** [with_start_pre_trade_now] installs the clock reading and restores the
    previous one; [start_pre_trade_now] reads it, or the clock. *)
Definition with_start_pre_trade_now {W C T} (now : Z)
    (f : C * EngineState W -> T * (C * EngineState W)) (s : C * EngineState W) :
    T * (C * EngineState W) :=
  let previous := es_start_now s.2 in
  let '(r, (c, st)) := f (s.1, with_start_now s.2 (Some now)) in
  (r, (c, with_start_now st previous)).

Definition start_pre_trade_now {W} (st : EngineState W) (clock : Z) : Z :=
  default clock (es_start_now st).

(** ** Contexts *)

(** [GroupLookup]: the [OnceCell] of a context; [Some] once it was asked. *)
Definition GroupCell : Type := option (option AccountGroupId).

Definition group_lookup {W} (account : option AccountId) (cell : GroupCell) (st : EngineState W) :
    option AccountGroupId * GroupCell :=
  match cell with
  | Some cached => (cached, cell)
  | None => let g := account ≫= group_of (es_groups st) in (g, Some g)
  end.

(** A pre-trade context: its immutable part, and below the contents of the cells
    it shares with its clones.  [ptc_drop_copy] says whether [drop_copy] is
    [Some]; the account control is present exactly when the account is
    readable. *)
Record PreTradeContext : Type := mkPreTradeContext {
  ptc_account : result RequestFieldAccessError AccountId;
  ptc_drop_copy : bool
}.

Record ContextCells (W : Type) : Type := mkContextCells {
  cc_group : GroupCell;
  cc_operations : DeferredAccountOperations;
  cc_start_mutations : option (Mutations (EngineState W))
}.
Arguments mkContextCells {W}.
Arguments cc_group {W}.
Arguments cc_operations {W}.
Arguments cc_start_mutations {W}.

Definition HookState (W : Type) : Type := ContextCells W * EngineState W.

Section Context_.
Context {W : Type}.
Implicit Types (s : HookState W) (ctx : PreTradeContext).

Definition with_accounts_ctx (account : result RequestFieldAccessError AccountId) :
    PreTradeContext * ContextCells W :=
  (mkPreTradeContext account false, mkContextCells None deferred_default None).

Definition with_accounts_and_drop_copy (account : AccountId) (st : EngineState W) :
    PreTradeContext * HookState W :=
  let '(mutations, st) := mutations_new st in
  (mkPreTradeContext (Ok account) true,
   (mkContextCells None deferred_default (Some mutations), st)).

Definition is_drop_copy ctx : bool := ptc_drop_copy ctx.
Definition known_account ctx : option AccountId := result_ok (ptc_account ctx).

Definition account_group ctx s : option AccountGroupId * HookState W :=
  let '(g, cell) := group_lookup (known_account ctx) (cc_group s.1) s.2 in
  (g, (mkContextCells cell (cc_operations s.1) (cc_start_mutations s.1), s.2)).

(** [state_account_group] bypasses the cache: the engine's contexts carry
    [accounts]. *)
Definition state_account_group ctx s : option AccountGroupId :=
  known_account ctx ≫= group_of (es_groups s.2).

Definition account_currency ctx s (account_group : option AccountGroupId) : option Asset :=
  account ← known_account ctx;
  currency_of (as_currencies (es_accounts s.2)) account account_group.

(** [account_control.block] through the context's control. *)
Definition context_block ctx (account : AccountId) (block : AccountBlock) s : HookState W :=
  let '(d, b) := control_block (if is_drop_copy ctx then Some (cc_operations s.1) else None)
                   (es_blocked s.2) account block in
  (mkContextCells (cc_group s.1) (default (cc_operations s.1) d) (cc_start_mutations s.1),
   set_blocked s.2 b).

Definition record_drop_copy_account_block ctx (block : AccountBlock) s : HookState W :=
  match is_drop_copy ctx, known_account ctx with
  | true, Some account => context_block ctx account block s
  | _, _ => s
  end.

Definition drop_copy_account_id ctx : option AccountId :=
  if is_drop_copy ctx then known_account ctx else None.

(** [DropCopyStartMutationRecorder::record]; the mutation comes back when the
    recorder is gone or closed. *)
Definition record_drop_copy_start_mutation ctx (mutation : Mutation (EngineState W)) s :
    result (Mutation (EngineState W)) unit * HookState W :=
  match is_drop_copy ctx, cc_start_mutations s.1 with
  | true, Some mutations =>
      (Ok tt, (mkContextCells (cc_group s.1) (cc_operations s.1)
                 (Some (mutations_push mutations mutation)), s.2))
  | _, _ => (Err mutation, s)
  end.

Definition drop_copy_account_block ctx s : option AccountBlock :=
  if is_drop_copy ctx then df_first_block (cc_operations s.1) else None.

Definition apply_drop_copy_account_operations ctx s : HookState W :=
  if is_drop_copy ctx
  then let '(d, b) := deferred_apply (cc_operations s.1) (es_blocked s.2) in
       (mkContextCells (cc_group s.1) d (cc_start_mutations s.1), set_blocked s.2 b)
  else s.

Definition abandon_drop_copy_account_operations ctx s : HookState W :=
  if is_drop_copy ctx
  then (mkContextCells (cc_group s.1) (deferred_abandon (cc_operations s.1))
          (cc_start_mutations s.1), s.2)
  else s.

(** [take], which leaves the recorder closed; [unwrap_or_default] when there is
    none. *)
Definition take_drop_copy_start_mutations ctx s : Mutations (EngineState W) * HookState W :=
  match is_drop_copy ctx, cc_start_mutations s.1 with
  | true, Some mutations =>
      (mutations, (mkContextCells (cc_group s.1) (cc_operations s.1) None, s.2))
  | _, _ =>
      let '(mutations, st) := mutations_new s.2 in
      (mutations, (mkContextCells (cc_group s.1) (cc_operations s.1) None, st))
  end.

End Context_.

(** Post-trade and account-adjustment contexts hold a group cell only. *)
Record PostTradeContext : Type := mkPostTradeContext { pstc_account : option AccountId }.
Record AccountAdjustmentContext : Type := mkAdjustmentContext { aac_account : AccountId }.

(** ** The policy interface *)

Section Policy.
Context {D : DecimalOps} {W Order ExecutionReport AccountAdjustment : Type}.

Abbreviation St := (EngineState W).
Abbreviation PRejects := (Rejects PolicyPreTradeResult).

(** The trait object; the hooks of [trait PreTradePolicy]. *)
Record PreTradePolicy : Type := mkPolicy {
  pol_name : string;
  policy_group_id : PolicyGroupId;
  check_pre_trade_start :
    PreTradeContext -> Order -> HookState W -> result PRejects unit * HookState W;
  check_pre_trade_start_dry_run :
    PreTradeContext -> Order -> HookState W -> result PRejects unit * HookState W;
  perform_pre_trade_check :
    PreTradeContext -> Order -> Mutations St -> HookState W ->
    result PRejects (option PolicyPreTradeResult) * Mutations St * HookState W;
  perform_pre_trade_check_dry_run :
    PreTradeContext -> Order -> Mutations St -> HookState W ->
    result PRejects (option PolicyPreTradeResult) * Mutations St * HookState W;
  pol_apply_execution_report :
    PostTradeContext -> ExecutionReport -> GroupCell * St ->
    option PostTradeResult * (GroupCell * St);
  pol_apply_account_adjustment :
    AccountAdjustmentContext -> AccountId -> AccountAdjustment -> Mutations St -> GroupCell * St ->
    result PRejects PolicyAccountAdjustmentResult * Mutations St * (GroupCell * St);
  pol_retire_account :
    AccountId -> Mutations St -> St -> result AccountRetirementRefusal unit * Mutations St * St
}.

(** The provided methods of the trait. *)
Definition start_default : PreTradeContext -> Order -> HookState W -> result PRejects unit * HookState W :=
  fun _ _ s => (Ok tt, s).
Definition perform_default : PreTradeContext -> Order -> Mutations St -> HookState W ->
    result PRejects (option PolicyPreTradeResult) * Mutations St * HookState W :=
  fun _ _ ms s => (Ok None, ms, s).
Definition report_default : PostTradeContext -> ExecutionReport -> GroupCell * St ->
    option PostTradeResult * (GroupCell * St) :=
  fun _ _ s => (None, s).
Definition adjustment_default : AccountAdjustmentContext -> AccountId -> AccountAdjustment ->
    Mutations St -> GroupCell * St ->
    result PRejects PolicyAccountAdjustmentResult * Mutations St * (GroupCell * St) :=
  fun _ _ _ ms s => (Ok (mkPolicyAccountAdjustmentResult [] []), ms, s).
Definition retire_default : AccountId -> Mutations St -> St ->
    result AccountRetirementRefusal unit * Mutations St * St :=
  fun _ ms st => (Ok tt, ms, st).

(** A policy that implements the start and the retirement hook, and the second
    registers nothing. *)
Definition start_retire_policy (name : string) (group : PolicyGroupId)
    (start : PreTradeContext -> Order -> HookState W -> result PRejects unit * HookState W)
    (retire : AccountId -> St -> result AccountRetirementRefusal unit) : PreTradePolicy :=
  mkPolicy name group start start perform_default perform_default report_default
    adjustment_default (fun account ms st => (retire account st, ms, st)).

(** A policy that implements the start hook only. *)
Definition start_only_policy (name : string) (group : PolicyGroupId)
    (start : PreTradeContext -> Order -> HookState W -> result PRejects unit * HookState W) :
    PreTradePolicy :=
  start_retire_policy name group start (fun _ _ => Ok tt).

End Policy.
Arguments PreTradePolicy {D} W Order ExecutionReport AccountAdjustment.

(** ** Reject helpers of pretrade/policy.rs *)

Definition missing_required_field_reject (policy_name field_name : string)
    (error : RequestFieldAccessError) : Reject :=
  reject_new policy_name RS_Order RC_MissingRequiredField
    ("failed to access required field '" +:+ field_name +:+ "'")
    (RequestFieldAccessError_fmt error).

Definition missing_required_field_account_adjustment_reject (policy_name field_name : string)
    (error : RequestFieldAccessError) : Reject :=
  reject_new policy_name RS_Account RC_MissingRequiredField
    ("failed to access required field '" +:+ field_name +:+ "'")
    (RequestFieldAccessError_fmt error).

Definition field_access_error_account_adjustment_reject (policy_name field_name : string)
    (error : RequestFieldAccessError) : Reject :=
  reject_new policy_name RS_Account RC_InvalidFieldFormat
    ("failed to access field '" +:+ field_name +:+ "'")
    (RequestFieldAccessError_fmt error).

Definition missing_required_field_account_block (policy_name field_name : string)
    (error : RequestFieldAccessError) : AccountBlock :=
  account_block_new policy_name RC_MissingRequiredField
    ("failed to access required field '" +:+ field_name +:+ "'")
    (RequestFieldAccessError_fmt error).
