(* ===== verification/Ffi.v ===== *)
(** * Ffi: what crosses the C boundary

    src/crates/openpit-ffi/src: string.rs, bytes.rs, last_error.rs, instrument.rs and
    account_group_id.rs.  A pointer into the caller's memory is [None] when null and
    otherwise the readable bytes from it on; the places a call may write to are
    null or not, and a call says what it wrote.  Who frees a handle is not
    modelled. *)
From S2P Require Import Prelude.
From S2P Require Import Decimal.
From S2P Require Import Param.
From S2P Require Import ParamTypes.
From S2P Require Import Identifiers.
From S2P Require Import Utf8.
From S2P Require Import Policy.
From stdpp Require Import pretty.
Open Scope Z_scope.

(** ** Views *)

(** The same for text ([OpenPitStringView]) and bytes ([OpenPitBytesView]). *)
Record OpenPitStringView : Type := mkStringView { sv_ptr : option (list Z); sv_len : Z }.

Definition view_not_set : OpenPitStringView := mkStringView None 0.

Definition view_of_bytes (value : list Z) : OpenPitStringView := mkStringView (Some value) (Z.of_nat (length value)).

Definition view_from_utf8 (value : string) : OpenPitStringView := view_of_bytes (bytes_of_string value).

(** An asset's code. *)
Definition view_of_asset (asset : Asset) : OpenPitStringView := view_of_bytes (str_bytes (asset_str asset)).

(** [slice::from_raw_parts]: exactly [len] of the readable bytes. *)
Definition from_raw_parts (bytes : list Z) (len : Z) : list Z := take (Z.to_nat len) bytes.

(** A handle to a shared string: its text, or null. *)
Definition SharedString : Type := option string.

Definition openpit_create_shared_string (value : OpenPitStringView) : SharedString :=
  match sv_ptr value with
  | None => None
  | Some bytes => Some (string_of_ustr (from_utf8_lossy (from_raw_parts bytes (sv_len value))))
  end.

Definition openpit_shared_string_view (handle : SharedString) : OpenPitStringView :=
  match handle with None => view_not_set | Some text => view_from_utf8 text end.

Definition openpit_shared_bytes_view (handle : option (list Z)) : OpenPitStringView :=
  match handle with None => view_not_set | Some bytes => view_of_bytes bytes end.

(** ** Errors *)

Inductive OpenPitParamErrorCode : Set :=
| PEC_Unspecified | PEC_Negative | PEC_DivisionByZero | PEC_Overflow | PEC_Underflow | PEC_InvalidFloat
| PEC_InvalidFormat | PEC_InvalidPrice | PEC_InvalidLeverage | PEC_AssetEmpty | PEC_AccountIdEmpty | PEC_Other.

#[export] Instance OpenPitParamErrorCode_eq_dec : EqDecision OpenPitParamErrorCode.
Proof. solve_decision. Defined.

Definition param_error_code_u32 (code : OpenPitParamErrorCode) : Z :=
  match code with
  | PEC_Unspecified => ErrorCode_u32 EC_Unspecified
  | PEC_Negative => ErrorCode_u32 EC_Negative
  | PEC_DivisionByZero => ErrorCode_u32 EC_DivisionByZero
  | PEC_Overflow => ErrorCode_u32 EC_Overflow
  | PEC_Underflow => ErrorCode_u32 EC_Underflow
  | PEC_InvalidFloat => ErrorCode_u32 EC_InvalidFloat
  | PEC_InvalidFormat => ErrorCode_u32 EC_InvalidFormat
  | PEC_InvalidPrice => ErrorCode_u32 EC_InvalidPrice
  | PEC_InvalidLeverage => ErrorCode_u32 EC_InvalidLeverage
  | PEC_AssetEmpty => ErrorCode_u32 EC_AssetEmpty
  | PEC_AccountIdEmpty => ErrorCode_u32 EC_AccountIdEmpty
  | PEC_Other => ErrorCode_u32 EC_Other
  end.

Record OpenPitParamError : Set := mkParamError { pe_code : OpenPitParamErrorCode; pe_message : string }.

(** [Display] of the core's parameter errors. *)
Definition ParamError_fmt (e : ParamError) : string :=
  match e with
  | Negative param => "value must be non-negative for " +:+ ParamKind_fmt param
  | DivisionByZero param => "division by zero in " +:+ ParamKind_fmt param
  | Overflow param => "arithmetic overflow in " +:+ ParamKind_fmt param
  | Underflow param => "arithmetic underflow in " +:+ ParamKind_fmt param
  | InvalidFloat => "invalid float value"
  | InvalidPrice => "invalid price value"
  | InvalidLeverage => "invalid leverage value"
  | AssetEmpty => "asset must not be empty"
  | AccountIdEmpty => "account id string must not be empty"
  | InvalidFormat param input =>
      "invalid format for " +:+ ParamKind_fmt param +:+ ": '" +:+ string_of_ustr input +:+ "'"
  | OtherError => "other parameter error"
  end.

(** Whether the caller's result and error places are null. *)
Record Places : Set := mkPlaces { out_null : bool; error_null : bool }.

(** What a call returned and what it wrote to its two places. *)
Record Call (E T : Type) : Type := mkCall { call_ok : bool; call_out : option T; call_error : option E }.
Arguments mkCall {E T}.
Arguments call_ok {E T}.
Arguments call_out {E T}.
Arguments call_error {E T}.

Definition write_error (p : Places) (msg : string) : option string := if error_null p then None else Some msg.

Definition write_param_error (p : Places) code (msg : string) : option OpenPitParamError :=
  if error_null p then None else Some (mkParamError code msg).

Definition write_param_error_unspecified (p : Places) (msg : string) : option OpenPitParamError :=
  write_param_error p PEC_Unspecified msg.

Definition consume_param_error_with_code (p : Places) (code : ParamError) : option OpenPitParamError :=
  let error_code :=
    match ParamError_code code with
    | EC_Negative => PEC_Negative
    | EC_DivisionByZero => PEC_DivisionByZero
    | EC_Overflow => PEC_Overflow
    | EC_Underflow => PEC_Underflow
    | EC_InvalidFloat => PEC_InvalidFloat
    | EC_InvalidFormat => PEC_InvalidFormat
    | EC_InvalidPrice => PEC_InvalidPrice
    | EC_InvalidLeverage => PEC_InvalidLeverage
    | EC_AssetEmpty => PEC_AssetEmpty
    | EC_AccountIdEmpty => PEC_AccountIdEmpty
    | EC_Other => PEC_Other
    | EC_Unspecified => PEC_Other
    end in
  write_param_error p error_code (ParamError_fmt code).

(** The shapes of a call's end, and the early returns of its [match]es. *)
Section Calls.
Context {T U : Type} (p : Places).

Definition fail_unspecified (msg : string) : Call OpenPitParamError T :=
  mkCall false None (write_param_error_unspecified p msg).

Definition fail_coded (e : ParamError) : Call OpenPitParamError T :=
  mkCall false None (consume_param_error_with_code p e).

Definition write_out (value : T) : Call OpenPitParamError T :=
  if out_null p then fail_unspecified "result place pointer is null" else mkCall true (Some value) None.

Definition or_unspecified (r : result string U) (k : U -> Call OpenPitParamError T) : Call OpenPitParamError T :=
  match r with Ok x => k x | Err msg => fail_unspecified msg end.

Definition or_coded (r : result ParamError U) (k : U -> Call OpenPitParamError T) : Call OpenPitParamError T :=
  match r with Ok x => k x | Err e => fail_coded e end.
End Calls.

(** ** Instruments *)

(** [parse_string_view] of instrument.rs: nothing for the unset view. *)
Definition parse_string_view_of (value : OpenPitStringView) (field : string) : result string (option ustr) :=
  match sv_ptr value with
  | None => if sv_len value =? 0 then Ok None else Err (field +:+ " pointer is null")
  | Some bytes =>
      text ← map_err (fun err => field +:+ " is not valid utf-8: " +:+ Utf8Error_fmt err)
               (from_utf8 (from_raw_parts bytes (sv_len value)));
      Ok (Some text)
  end.

Definition AssetError_fmt (e : AssetError) : string := match e with AssetError_Empty => "asset must not be empty" end.

Definition parse_asset_view (value : OpenPitStringView) (field : string) : result string (option Asset) :=
  text ← parse_string_view_of value field;
  match text with
  | None => Ok None
  | Some text => map_err (fun err => "invalid " +:+ field +:+ ": " +:+ AssetError_fmt err) (Some <$> asset_new text)
  end.

Record OpenPitInstrument : Type := mkOpenPitInstrument {
  oi_underlying_asset : OpenPitStringView;
  oi_settlement_asset : OpenPitStringView
}.

Definition OpenPitInstrument_default : OpenPitInstrument := mkOpenPitInstrument view_not_set view_not_set.

Definition import_instrument (value : OpenPitInstrument) : result string (option Instrument) :=
  underlying ← parse_asset_view (oi_underlying_asset value) "instrument.underlying_asset";
  settlement ← parse_asset_view (oi_settlement_asset value) "instrument.settlement_asset";
  match underlying, settlement with
  | Some underlying, Some settlement => Ok (Some (mkInstrument underlying settlement))
  | None, None => Ok None
  | _, _ => Err "instrument must provide both underlying_asset and settlement_asset or neither"
  end.

(** [parse_string_view] of param.rs: the empty text for the unset view. *)
Definition parse_string_view (value : OpenPitStringView) : result string ustr :=
  match sv_ptr value with
  | None => if sv_len value =? 0 then Ok [] else Err "string view pointer is null"
  | Some bytes =>
      map_err (fun error => "string view is not valid utf-8: " +:+ Utf8Error_fmt error)
        (from_utf8 (from_raw_parts bytes (sv_len value)))
  end.

(** The text of the identifier constructors: what cannot be read counts as empty. *)
Definition identifier_text (value : OpenPitStringView) : ustr :=
  from_utf8_lossy
    match sv_ptr value with
    | None => []
    | Some bytes => if sv_len value =? 0 then [] else from_raw_parts bytes (sv_len value)
    end.

(** ** Account groups *)

Definition OPENPIT_DEFAULT_ACCOUNT_GROUP : Z := 0.

Definition AccountGroupIdError_fmt (e : AccountGroupIdError) : string :=
  match e with
  | GroupEmpty => "account group id string must not be empty"
  | GroupReserved => "account group id must not equal the reserved default group"
  end.

(** A null result place only loses the identifier. *)
Definition group_id_call (p : Places) (r : result AccountGroupIdError AccountGroupId) : Call string Z :=
  match r with
  | Ok id => mkCall true (if out_null p then None else Some (group_as_u32 id)) None
  | Err e => mkCall false None (write_error p (AccountGroupIdError_fmt e))
  end.

Definition openpit_create_param_account_group_id_from_uint32 (p : Places) (value : Z) : Call string Z :=
  group_id_call p (group_from_u32 value).

Definition openpit_create_param_account_group_id_from_string (p : Places) (value : OpenPitStringView) : Call string Z :=
  group_id_call p (group_from_str (identifier_text value)).

Definition OPENPIT_DEFAULT_POLICY_GROUP_ID : Z := 0.

(** ** Calls that answer a status *)

(** What such a call answers, and what it wrote to its result and error places. *)
Record StatusCall (S T : Type) : Type := mkStatus { sc_status : S; sc_out : option T; sc_error : option string }.
Arguments mkStatus {S T}.
Arguments sc_status {S T}.
Arguments sc_out {S T}.
Arguments sc_error {S T}.

(** An early return with a message. *)
Definition refuse {S T} (p : Places) (status : S) (msg : string) : StatusCall S T :=
  mkStatus status None (write_error p msg).

(** The answer, whether the steps before it returned early or not. *)
Definition answer {A} (r : result A A) : A := match r with Ok a => a | Err a => a end.

(** An instrument a call cannot do without; [Err] is what was written instead. *)
Definition import_required_instrument (p : Places) (instrument : OpenPitInstrument) :
    result (option string) Instrument :=
  match import_instrument instrument with
  | Ok (Some instrument) => Ok instrument
  | Ok None => Err (write_error p "instrument is not set")
  | Err message => Err (write_error p message)
  end.
