(* ===== verification/FfiParam.v ===== *)
(** * FfiParam: parameter values on the wire

    src/crates/openpit-ffi/src/param.rs: the wire form of values and enumerations,
    the wrappers of the value types with their operations, and the composite
    amounts, conversions and identifiers. *)
From S2P Require Import Prelude.
From S2P Require Import Decimal.
From S2P Require Import Param.
From S2P Require Import ParamTypes.
From S2P Require Import Identifiers.
From S2P Require Import Utf8.
From S2P Require Import Policy.
From S2P Require Import Ffi.
From stdpp Require Import pretty.
Open Scope Z_scope.

(** ** Parameter values on the wire

    src/crates/openpit-ffi/src/param.rs.  A decimal crosses as the two halves of its
    coefficient and a scale; an enumeration as a byte with a code for "not set".
    The macros that wrap every value type are functions of a [ParamDomain]. *)

(** *** Decimals *)

(** What the crate asks of a [Decimal] beyond its arithmetic; the first component of
    a failed construction is the text of the error. *)
Class DecimalWire {D : DecimalOps} : Type := {
  dec_mantissa : Dec -> Z;
  dec_scale : Dec -> Z;
  dec_from_i128_with_scale : Z -> Z -> result string Dec;
  dec_to_f64 : Dec -> option f64
}.

(** A decimal is its coefficient and scale but for the sign of zero, and every
    coefficient of 96 bits with a scale up to 28 is one. *)
Class DecimalWireLaws (D : DecimalOps) (DW : DecimalWire) : Prop := {
  dw_mantissa : forall d, Z.abs (dec_mantissa d) < DEC_COEFF;
  dw_scale : forall d, 0 <= dec_scale d <= 28;
  dw_val : forall d, dec_val d = dec_mantissa d * scale_weight (Z.to_nat (dec_scale d));
  dw_from : forall m s, Z.abs m < DEC_COEFF -> 0 <= s <= 28 ->
    exists d, dec_from_i128_with_scale m s = Ok d /\ dec_mantissa d = m /\ dec_scale d = s;
  dw_refuse : forall m s, ~ (Z.abs m < DEC_COEFF /\ 0 <= s <= 28) -> exists e, dec_from_i128_with_scale m s = Err e
}.

Record OpenPitParamDecimal : Set := mkParamDecimal { mantissa_lo : Z; mantissa_hi : Z; wire_scale : Z }.

#[export] Instance OpenPitParamDecimal_eq_dec : EqDecision OpenPitParamDecimal.
Proof. solve_decision. Defined.

Definition OpenPitParamDecimal_default : OpenPitParamDecimal := mkParamDecimal 0 0 0.

(** [as i64]. *)
Definition as_i64 (z : Z) : Z := (z + 2 ^ 63) mod 2 ^ 64 - 2 ^ 63.

(** An integer in a message. *)
Definition int_fmt (z : Z) : string := pretty z.

Section Wire.
Context {D : DecimalOps} {DW : DecimalWire}.

Definition from_decimal (d : Dec) : OpenPitParamDecimal :=
  let m := dec_mantissa d in mkParamDecimal (as_i64 m) (as_i64 (Z.shiftr m 64)) (dec_scale d).

Definition to_mantissa (self : OpenPitParamDecimal) : Z :=
  Z.lor (Z.shiftl (mantissa_hi self) 64) (mantissa_lo self mod 2 ^ 64).

(** [try_into] an unsigned word, with the text of [TryFromIntError]. *)
Definition scale_u32 (scale : Z) : result string Z :=
  if 0 <=? scale then Ok scale else Err "out of range integral type conversion attempted".

Definition import_decimal (value : OpenPitParamDecimal) : result string Dec :=
  scale ← map_err (fun e => "invalid decimal scale " +:+ int_fmt (wire_scale value) +:+ " for decimal: " +:+ e)
            (scale_u32 (wire_scale value));
  map_err (fun err => "invalid decimal representation: " +:+ err) (dec_from_i128_with_scale (to_mantissa value) scale).

Definition compare_decimals (lhs rhs : Dec) : Z := match dec_cmp lhs rhs with Lt => -1 | Eq => 0 | Gt => 1 end.
End Wire.

(** *** Codes *)

Definition OPENPIT_PARAM_LEVERAGE_NOT_SET : Z := 0.

(** What is not a leverage counts as not set. *)
Definition import_leverage (value : Z) : option Leverage :=
  if value =? OPENPIT_PARAM_LEVERAGE_NOT_SET then None
  else match leverage_from_raw value with Ok leverage => Some leverage | Err _ => None end.

Definition export_leverage (value : option Leverage) : Z :=
  match value with Some v => leverage_raw v | None => OPENPIT_PARAM_LEVERAGE_NOT_SET end.

Definition OPENPIT_PARAM_SIDE_NOT_SET : Z := 0.
Definition OPENPIT_PARAM_SIDE_BUY : Z := 1.
Definition OPENPIT_PARAM_SIDE_SELL : Z := 2.

Definition import_side (value : Z) : result string (option Side) :=
  if value =? OPENPIT_PARAM_SIDE_BUY then Ok (Some Buy)
  else if value =? OPENPIT_PARAM_SIDE_SELL then Ok (Some Sell)
  else if value =? OPENPIT_PARAM_SIDE_NOT_SET then Ok None
  else Err ("invalid side code " +:+ int_fmt value).

Definition export_side (value : Side) : Z :=
  match value with Buy => OPENPIT_PARAM_SIDE_BUY | Sell => OPENPIT_PARAM_SIDE_SELL end.

Definition OPENPIT_PARAM_POSITION_SIDE_NOT_SET : Z := 0.
Definition OPENPIT_PARAM_POSITION_SIDE_LONG : Z := 1.
Definition OPENPIT_PARAM_POSITION_SIDE_SHORT : Z := 2.

Definition import_position_side (value : Z) : result string (option PositionSide) :=
  if value =? OPENPIT_PARAM_POSITION_SIDE_LONG then Ok (Some Long)
  else if value =? OPENPIT_PARAM_POSITION_SIDE_SHORT then Ok (Some Short)
  else if value =? OPENPIT_PARAM_POSITION_SIDE_NOT_SET then Ok None
  else Err ("invalid position side code " +:+ int_fmt value).

Definition export_position_side (value : PositionSide) : Z :=
  match value with Long => OPENPIT_PARAM_POSITION_SIDE_LONG | Short => OPENPIT_PARAM_POSITION_SIDE_SHORT end.

Definition OPENPIT_PARAM_POSITION_EFFECT_NOT_SET : Z := 0.
Definition OPENPIT_PARAM_POSITION_EFFECT_OPEN : Z := 1.
Definition OPENPIT_PARAM_POSITION_EFFECT_CLOSE : Z := 2.

Definition import_position_effect (value : Z) : result string (option PositionEffect) :=
  if value =? OPENPIT_PARAM_POSITION_EFFECT_OPEN then Ok (Some Open)
  else if value =? OPENPIT_PARAM_POSITION_EFFECT_CLOSE then Ok (Some Close)
  else if value =? OPENPIT_PARAM_POSITION_EFFECT_NOT_SET then Ok None
  else Err ("invalid position effect code " +:+ int_fmt value).

Definition export_position_effect (value : PositionEffect) : Z :=
  match value with Open => OPENPIT_PARAM_POSITION_EFFECT_OPEN | Close => OPENPIT_PARAM_POSITION_EFFECT_CLOSE end.

Definition OPENPIT_PARAM_POSITION_MODE_NOT_SET : Z := 0.
Definition OPENPIT_PARAM_POSITION_MODE_NETTING : Z := 1.
Definition OPENPIT_PARAM_POSITION_MODE_HEDGED : Z := 2.

Definition import_position_mode (value : Z) : result string (option PositionMode) :=
  if value =? OPENPIT_PARAM_POSITION_MODE_NETTING then Ok (Some Netting)
  else if value =? OPENPIT_PARAM_POSITION_MODE_HEDGED then Ok (Some Hedged)
  else if value =? OPENPIT_PARAM_POSITION_MODE_NOT_SET then Ok None
  else Err ("invalid position mode code " +:+ int_fmt value).

Definition export_position_mode (value : PositionMode) : Z :=
  match value with Netting => OPENPIT_PARAM_POSITION_MODE_NETTING | Hedged => OPENPIT_PARAM_POSITION_MODE_HEDGED end.

Definition OPENPIT_TRI_BOOL_NOT_SET : Z := 0.
Definition OPENPIT_TRI_BOOL_FALSE : Z := 1.
Definition OPENPIT_TRI_BOOL_TRUE : Z := 2.

Definition import_bool (value : Z) : result string (option bool) :=
  if value =? OPENPIT_TRI_BOOL_FALSE then Ok (Some false)
  else if value =? OPENPIT_TRI_BOOL_TRUE then Ok (Some true)
  else if value =? OPENPIT_TRI_BOOL_NOT_SET then Ok None
  else Err ("invalid tri-state boolean code " +:+ int_fmt value).

Definition export_bool (value : bool) : Z := if value then OPENPIT_TRI_BOOL_TRUE else OPENPIT_TRI_BOOL_FALSE.

Definition OPENPIT_PARAM_ROUNDING_STRATEGY_MIDPOINT_NEAREST_EVEN : Z := 0.
Definition OPENPIT_PARAM_ROUNDING_STRATEGY_MIDPOINT_AWAY_FROM_ZERO : Z := 1.
Definition OPENPIT_PARAM_ROUNDING_STRATEGY_UP : Z := 2.
Definition OPENPIT_PARAM_ROUNDING_STRATEGY_DOWN : Z := 3.
Definition OPENPIT_PARAM_ROUNDING_STRATEGY_DEFAULT : Z := OPENPIT_PARAM_ROUNDING_STRATEGY_MIDPOINT_NEAREST_EVEN.
Definition OPENPIT_PARAM_ROUNDING_STRATEGY_BANKER : Z := OPENPIT_PARAM_ROUNDING_STRATEGY_MIDPOINT_NEAREST_EVEN.
Definition OPENPIT_PARAM_ROUNDING_STRATEGY_CONSERVATIVE_PROFIT : Z := OPENPIT_PARAM_ROUNDING_STRATEGY_DOWN.
Definition OPENPIT_PARAM_ROUNDING_STRATEGY_CONSERVATIVE_LOSS : Z := OPENPIT_PARAM_ROUNDING_STRATEGY_DOWN.

Definition import_rounding_strategy (value : Z) : result string RoundingStrategy :=
  if value =? OPENPIT_PARAM_ROUNDING_STRATEGY_MIDPOINT_NEAREST_EVEN then Ok MidpointNearestEven
  else if value =? OPENPIT_PARAM_ROUNDING_STRATEGY_MIDPOINT_AWAY_FROM_ZERO then Ok MidpointAwayFromZero
  else if value =? OPENPIT_PARAM_ROUNDING_STRATEGY_UP then Ok RoundUp
  else if value =? OPENPIT_PARAM_ROUNDING_STRATEGY_DOWN then Ok RoundDown
  else Err ("invalid rounding strategy code " +:+ int_fmt value).

Definition export_rounding_strategy (value : RoundingStrategy) : Z :=
  match value with
  | MidpointNearestEven => OPENPIT_PARAM_ROUNDING_STRATEGY_MIDPOINT_NEAREST_EVEN
  | MidpointAwayFromZero => OPENPIT_PARAM_ROUNDING_STRATEGY_MIDPOINT_AWAY_FROM_ZERO
  | RoundUp => OPENPIT_PARAM_ROUNDING_STRATEGY_UP
  | RoundDown => OPENPIT_PARAM_ROUNDING_STRATEGY_DOWN
  end.

(** The assertions the crate compiles with. *)
Lemma rounding_aliases :
  OPENPIT_PARAM_ROUNDING_STRATEGY_DEFAULT = export_rounding_strategy DEFAULT_ROUNDING /\
  OPENPIT_PARAM_ROUNDING_STRATEGY_BANKER = export_rounding_strategy BANKER /\
  OPENPIT_PARAM_ROUNDING_STRATEGY_CONSERVATIVE_PROFIT = export_rounding_strategy CONSERVATIVE_PROFIT /\
  OPENPIT_PARAM_ROUNDING_STRATEGY_CONSERVATIVE_LOSS = export_rounding_strategy CONSERVATIVE_LOSS.
Proof. done. Qed.

(** ** The value-type wrappers and their operations

    The macros of src/crates/openpit-ffi/src/param.rs stamp one wrapper and one set of
    C functions per value type of the core.  Here they are functions of the type's
    [ParamDomain]: what the macro bodies call on it. *)

(** *** The value types *)

Class ParamDomain {D : DecimalOps} (T : Type) : Type := {
  pd_name : string;
  pd_to_decimal : T -> Dec;
  pd_new : Dec -> result ParamError T;
  pd_from_str : ustr -> result ParamError T;
  pd_from_f64 : f64 -> result ParamError T;
  pd_from_str_rounded : ustr -> Z -> RoundingStrategy -> result ParamError T;
  pd_from_f64_rounded : f64 -> Z -> RoundingStrategy -> result ParamError T;
  pd_from_decimal_rounded : Dec -> Z -> RoundingStrategy -> result ParamError T;
  pd_is_zero : T -> bool;
  pd_checked_add : T -> T -> result ParamError T;
  pd_checked_sub : T -> T -> result ParamError T;
  pd_checked_mul_i64 : T -> Z -> result ParamError T;
  pd_checked_mul_u64 : T -> Z -> result ParamError T;
  pd_checked_mul_f64 : T -> f64 -> result ParamError T;
  pd_checked_div_i64 : T -> Z -> result ParamError T;
  pd_checked_div_u64 : T -> Z -> result ParamError T;
  pd_checked_div_f64 : T -> f64 -> result ParamError T;
  pd_checked_rem_i64 : T -> Z -> result ParamError T;
  pd_checked_rem_u64 : T -> Z -> result ParamError T;
  pd_checked_rem_f64 : T -> f64 -> result ParamError T
}.

(** [new] of a signed type cannot fail: [into_typed_param_result] is [Ok]. *)
#[export] Instance signed_domain {D : DecimalOps} (k : ParamKind) : ParamDomain (Signed k) := {|
  pd_name := ParamKind_fmt k;
  pd_to_decimal := sg_to_decimal;
  pd_new d := Ok (sg_new d);
  pd_from_str := sg_from_str;
  pd_from_f64 := sg_from_f64;
  pd_from_str_rounded := sg_from_str_rounded;
  pd_from_f64_rounded := sg_from_f64_rounded;
  pd_from_decimal_rounded := sg_from_decimal_rounded;
  pd_is_zero := sg_is_zero;
  pd_checked_add := sg_checked_add;
  pd_checked_sub := sg_checked_sub;
  pd_checked_mul_i64 := sg_checked_mul_i64;
  pd_checked_mul_u64 := sg_checked_mul_u64;
  pd_checked_mul_f64 := sg_checked_mul_f64;
  pd_checked_div_i64 := sg_checked_div_i64;
  pd_checked_div_u64 := sg_checked_div_u64;
  pd_checked_div_f64 := sg_checked_div_f64;
  pd_checked_rem_i64 := sg_checked_rem_i64;
  pd_checked_rem_u64 := sg_checked_rem_u64;
  pd_checked_rem_f64 := sg_checked_rem_f64
|}.

#[export] Instance nonneg_domain {D : DecimalOps} (k : ParamKind) : ParamDomain (NonNeg k) := {|
  pd_name := ParamKind_fmt k;
  pd_to_decimal := nn_to_decimal;
  pd_new := nn_new;
  pd_from_str := nn_from_str;
  pd_from_f64 := nn_from_f64;
  pd_from_str_rounded := nn_from_str_rounded;
  pd_from_f64_rounded := nn_from_f64_rounded;
  pd_from_decimal_rounded := nn_from_decimal_rounded;
  pd_is_zero := nn_is_zero;
  pd_checked_add := nn_checked_add;
  pd_checked_sub := nn_checked_sub;
  pd_checked_mul_i64 := nn_checked_mul_i64;
  pd_checked_mul_u64 := nn_checked_mul_u64;
  pd_checked_mul_f64 := nn_checked_mul_f64;
  pd_checked_div_i64 := nn_checked_div_i64;
  pd_checked_div_u64 := nn_checked_div_u64;
  pd_checked_div_f64 := nn_checked_div_f64;
  pd_checked_rem_i64 := nn_checked_rem_i64;
  pd_checked_rem_u64 := nn_checked_rem_u64;
  pd_checked_rem_f64 := nn_checked_rem_f64
|}.

(** [define_decimal_param_wrapper!]: a tuple struct over the decimal. *)
Record OpenPitParam (T : Type) : Set := mkParam { param_decimal : OpenPitParamDecimal }.
Arguments mkParam {T}.
Arguments param_decimal {T}.

#[export] Instance OpenPitParam_eq_dec T : EqDecision (OpenPitParam T).
Proof. solve_decision. Defined.

(** The sources' names of the instances. *)
Abbreviation OpenPitParamPnl := (OpenPitParam Pnl).
Abbreviation OpenPitParamPrice := (OpenPitParam Price).
Abbreviation OpenPitParamQuantity := (OpenPitParam Quantity).
Abbreviation OpenPitParamVolume := (OpenPitParam Volume).
Abbreviation OpenPitParamCashFlow := (OpenPitParam CashFlow).
Abbreviation OpenPitParamPositionSize := (OpenPitParam PositionSize).
Abbreviation OpenPitParamFee := (OpenPitParam Fee).
Abbreviation OpenPitParamNotional := (OpenPitParam Notional).

(** [define_optional!]. *)
Record Optional (T : Type) : Type := mkOptional { opt_value : T; opt_is_set : bool }.
Arguments mkOptional {T}.
Arguments opt_value {T}.
Arguments opt_is_set {T}.

(** The two ways the sources build one, and the test every import makes. *)
Definition optional {A T} (default : T) (export : A -> T) (value : option A) : Optional T :=
  match value with Some x => mkOptional (export x) true | None => mkOptional default false end.

Definition import_optional {A T} (import : T -> result string A) (value : Optional T) : result string (option A) :=
  if opt_is_set value then Some <$> import (opt_value value) else Ok None.

(** [Default] of a wrapper. *)
Definition OpenPitParam_default {T} : OpenPitParam T := mkParam OpenPitParamDecimal_default.

Section Wrapper.
Context {D : DecimalOps} {DW : DecimalWire} {DF : DecimalFormat} {T : Type} {P : ParamDomain T}.
Implicit Types (self : OpenPitParam T) (p : Places).

Definition into_param_result {E A} (fmt : E -> string) (r : result E A) (type_name : string) : result string A :=
  map_err (fun e => "invalid typed param." +:+ type_name +:+ " value: " +:+ fmt e) r.

Definition to_param self : result string T :=
  let inner := param_decimal self in
  scale ← map_err (fun e => "invalid decimal scale " +:+ int_fmt (wire_scale inner) +:+ " for typed param." +:+
                            pd_name +:+ ": " +:+ e)
            (scale_u32 (wire_scale inner));
  decimal ← map_err (fun err => "invalid decimal for typed param." +:+ pd_name +:+ ": " +:+ err)
              (dec_from_i128_with_scale (to_mantissa inner) scale);
  into_param_result ParamError_fmt (pd_new decimal) pd_name.

Definition to_param_typed self : result (option ParamError) T :=
  let inner := param_decimal self in
  scale ← map_err (fun _ => None) (scale_u32 (wire_scale inner));
  decimal ← map_err (fun _ => None) (dec_from_i128_with_scale (to_mantissa inner) scale);
  map_err Some (pd_new decimal).

Definition create p (value : OpenPitParamDecimal) : Call OpenPitParamError (OpenPitParam T) :=
  if out_null p then fail_unspecified p "result place pointer is null"
  else match to_param_typed (mkParam value) with
       | Ok _ => mkCall true (Some (mkParam value)) None
       | Err (Some error) => fail_coded p error
       | Err None =>
           fail_unspecified p (if wire_scale value <? 0 then "invalid decimal scale for typed param"
                               else "invalid decimal representation for typed param")
       end.

Definition get_decimal (value : OpenPitParam T) : OpenPitParamDecimal :=
  match to_param value with Ok inner => from_decimal (pd_to_decimal inner) | Err _ => param_decimal value end.

(** The wrapper every function writes for the value it computed. *)
Definition wrap (parsed : T) : OpenPitParam T := mkParam (from_decimal (pd_to_decimal parsed)).

(** *** Construction *)

Definition from_string p (value : OpenPitStringView) : Call OpenPitParamError (OpenPitParam T) :=
  or_unspecified p (parse_string_view value) (fun text =>
  or_coded p (pd_from_str text) (fun parsed => write_out p (wrap parsed))).

Definition from_f64 p (value : f64) : Call OpenPitParamError (OpenPitParam T) :=
  or_coded p (pd_from_f64 value) (fun parsed => write_out p (wrap parsed)).

Definition from_int64 p (value : Z) : Call OpenPitParamError (OpenPitParam T) :=
  or_coded p (pd_new (dec_of_int value)) (fun parsed => write_out p (wrap parsed)).

Definition from_uint64 p (value : Z) : Call OpenPitParamError (OpenPitParam T) :=
  or_coded p (pd_new (dec_of_int value)) (fun parsed => write_out p (wrap parsed)).

Definition from_string_rounded p (value : OpenPitStringView) (scale rounding : Z) :
    Call OpenPitParamError (OpenPitParam T) :=
  or_unspecified p (parse_string_view value) (fun text =>
  or_unspecified p (import_rounding_strategy rounding) (fun rounding =>
  or_coded p (pd_from_str_rounded text scale rounding) (fun parsed => write_out p (wrap parsed)))).

Definition from_f64_rounded p (value : f64) (scale rounding : Z) : Call OpenPitParamError (OpenPitParam T) :=
  or_unspecified p (import_rounding_strategy rounding) (fun rounding =>
  or_coded p (pd_from_f64_rounded value scale rounding) (fun parsed => write_out p (wrap parsed))).

Definition from_decimal_rounded p (value : OpenPitParamDecimal) (scale rounding : Z) :
    Call OpenPitParamError (OpenPitParam T) :=
  or_unspecified p (import_decimal value) (fun decimal =>
  or_unspecified p (import_rounding_strategy rounding) (fun rounding =>
  or_coded p (pd_from_decimal_rounded decimal scale rounding) (fun parsed => write_out p (wrap parsed)))).

(** *** Reading *)

Definition to_f64 p (value : OpenPitParam T) : Call OpenPitParamError f64 :=
  or_unspecified p (to_param value) (fun parsed =>
  or_unspecified p (ok_or (dec_to_f64 (pd_to_decimal parsed)) "decimal cannot be represented as f64") (fun as_f64 =>
  write_out p as_f64)).

Definition is_zero p (value : OpenPitParam T) : Call OpenPitParamError bool :=
  or_unspecified p (to_param value) (fun parsed => write_out p (pd_is_zero parsed)).

Definition compare p (lhs rhs : OpenPitParam T) : Call OpenPitParamError Z :=
  or_unspecified p (to_param lhs) (fun lhs =>
  or_unspecified p (to_param rhs) (fun rhs =>
  write_out p (compare_decimals (pd_to_decimal lhs) (pd_to_decimal rhs)))).

(** A call that returns a handle: the text or null, and the error written. *)
Definition rendered {E A} (fmt : A -> string) (error : string -> option E) (r : result string A) : SharedString * option E :=
  match r with Ok x => (Some (fmt x), None) | Err e => (None, error e) end.

Definition to_string p (value : OpenPitParam T) : SharedString * option OpenPitParamError :=
  rendered (fun parsed => dec_fmt (pd_to_decimal parsed)) (write_param_error_unspecified p) (to_param value).

(** *** Arithmetic *)

Definition binary p (op : T -> T -> result ParamError T) (lhs rhs : OpenPitParam T) : Call OpenPitParamError (OpenPitParam T) :=
  or_unspecified p (to_param lhs) (fun lhs =>
  or_unspecified p (to_param rhs) (fun rhs =>
  or_coded p (op lhs rhs) (fun parsed => write_out p (wrap parsed)))).

Definition scalar {S} p (op : T -> S -> result ParamError T) (value : OpenPitParam T) (s : S) : Call OpenPitParamError (OpenPitParam T) :=
  or_unspecified p (to_param value) (fun value =>
  or_coded p (op value s) (fun parsed => write_out p (wrap parsed))).

Definition checked_add p := binary p pd_checked_add.
Definition checked_sub p := binary p pd_checked_sub.
Definition checked_mul_i64 p := scalar p pd_checked_mul_i64.
Definition checked_mul_u64 p := scalar p pd_checked_mul_u64.
Definition checked_mul_f64 p := scalar p pd_checked_mul_f64.
Definition checked_div_i64 p := scalar p pd_checked_div_i64.
Definition checked_div_u64 p := scalar p pd_checked_div_u64.
Definition checked_div_f64 p := scalar p pd_checked_div_f64.
Definition checked_rem_i64 p := scalar p pd_checked_rem_i64.
Definition checked_rem_u64 p := scalar p pd_checked_rem_u64.
Definition checked_rem_f64 p := scalar p pd_checked_rem_f64.
End Wrapper.

(** [define_decimal_param_ffi_signed!]. *)
Definition checked_neg {D : DecimalOps} {DW : DecimalWire} {k} (p : Places) (value : OpenPitParam (Signed k)) :
    Call OpenPitParamError (OpenPitParam (Signed k)) :=
  or_unspecified p (to_param value) (fun value =>
  or_coded p (sg_checked_neg value) (fun parsed => write_out p (wrap parsed))).

(** ** Amounts, conversions and identifiers on the wire

    The rest of src/crates/openpit-ffi/src/param.rs: composite amounts, one C function
    per conversion between value types, the constructors of identifiers and the
    rendering of the enumerations. *)

Definition OPENPIT_PARAM_TRADE_AMOUNT_KIND_NOT_SET : Z := 0.
Definition OPENPIT_PARAM_TRADE_AMOUNT_KIND_QUANTITY : Z := 1.
Definition OPENPIT_PARAM_TRADE_AMOUNT_KIND_VOLUME : Z := 2.

Record OpenPitParamTradeAmount : Set := mkParamTradeAmount { pta_value : OpenPitParamDecimal; pta_kind : Z }.

Definition OpenPitParamTradeAmount_default : OpenPitParamTradeAmount :=
  mkParamTradeAmount OpenPitParamDecimal_default OPENPIT_PARAM_TRADE_AMOUNT_KIND_NOT_SET.

Section Convert.
Context {D : DecimalOps} {DW : DecimalWire} {DF : DecimalFormat}.
Implicit Types (p : Places).

(** *** Amounts *)

Record OpenPitParamMonetaryAmount : Type := mkParamMonetaryAmount {
  pma_amount : OpenPitParamFee;
  pma_currency : OpenPitStringView
}.

Definition import_monetary_amount (value : OpenPitParamMonetaryAmount) : result string MonetaryAmount :=
  currency ← parse_asset_view (pma_currency value) "monetary_amount.currency";
  currency ← ok_or currency "monetary_amount.currency is not set";
  amount ← to_param (pma_amount value);
  Ok {| ma_amount := amount; ma_currency := currency |}.

Definition export_monetary_amount (value : MonetaryAmount) : OpenPitParamMonetaryAmount := {|
  pma_amount := wrap (ma_amount value);
  pma_currency := view_of_asset (ma_currency value)
|}.

Definition import_trade_amount (value : OpenPitParamTradeAmount) : result string (option TradeAmount) :=
  if pta_kind value =? OPENPIT_PARAM_TRADE_AMOUNT_KIND_NOT_SET then Ok None
  else if pta_kind value =? OPENPIT_PARAM_TRADE_AMOUNT_KIND_QUANTITY then
    quantity ← to_param (mkParam (pta_value value)); Ok (Some (TA_Quantity quantity))
  else if pta_kind value =? OPENPIT_PARAM_TRADE_AMOUNT_KIND_VOLUME then
    volume ← to_param (mkParam (pta_value value)); Ok (Some (TA_Volume volume))
  else Err ("invalid trade amount kind " +:+ int_fmt (pta_kind value)).

Definition export_trade_amount (value : option TradeAmount) : OpenPitParamTradeAmount :=
  match value with
  | Some (TA_Quantity quantity) =>
      mkParamTradeAmount (from_decimal (nn_to_decimal quantity)) OPENPIT_PARAM_TRADE_AMOUNT_KIND_QUANTITY
  | Some (TA_Volume volume) =>
      mkParamTradeAmount (from_decimal (nn_to_decimal volume)) OPENPIT_PARAM_TRADE_AMOUNT_KIND_VOLUME
  | None => OpenPitParamTradeAmount_default
  end.

(** [Display] of the core's [TradeAmount]. *)
Definition TradeAmount_fmt (self : TradeAmount) : string :=
  match self with
  | TA_Quantity qty => "qty: " +:+ nn_fmt qty
  | TA_Volume vol => "vol: " +:+ nn_fmt vol
  end.

(** *** Conversions *)

(** A conversion that cannot fail once its operand decodes. *)
Definition converted {A B} {PA : ParamDomain A} {PB : ParamDomain B} p (convert : A -> B) (value : OpenPitParam A) :
    Call OpenPitParamError (OpenPitParam B) :=
  or_unspecified p (to_param value) (fun parsed => write_out p (wrap (convert parsed))).

(** One of two operands that can fail. *)
Definition combined {A B R} {PA : ParamDomain A} {PB : ParamDomain B} {PR : ParamDomain R} p
    (op : A -> B -> result ParamError R) (a : OpenPitParam A) (b : OpenPitParam B) : Call OpenPitParamError (OpenPitParam R) :=
  or_unspecified p (to_param a) (fun a =>
  or_unspecified p (to_param b) (fun b =>
  or_coded p (op a b) (fun r => write_out p (wrap r)))).

(** The side a position operation asks for. *)
Definition required_side (side : Z) : result string Side :=
  side ← import_side side; ok_or side "side is not set".

Definition required_leverage (leverage : Z) : result string Leverage :=
  ok_or (import_leverage leverage) "leverage is not set".

Definition openpit_param_leverage_calculate_margin_required p (leverage : Z) (notional : OpenPitParamNotional) :
    Call OpenPitParamError OpenPitParamNotional :=
  or_unspecified p (required_leverage leverage) (fun leverage =>
  or_unspecified p (to_param notional) (fun notional =>
  or_coded p (leverage_calculate_margin_required leverage notional) (fun margin => write_out p (wrap margin)))).

Definition openpit_param_price_calculate_volume p := combined p price_calculate_volume.
Definition openpit_param_price_calculate_position_size p := combined p price_calculate_position_size.
Definition openpit_param_quantity_calculate_volume p := combined p quantity_calculate_volume.
Definition openpit_param_volume_calculate_quantity p := combined p volume_calculate_quantity.

Definition openpit_param_pnl_to_cash_flow p := converted p pnl_to_cash_flow.
Definition openpit_param_pnl_to_position_size p := converted p pnl_to_position_size.
Definition openpit_param_quantity_to_position_size p := converted p quantity_to_position_size.
Definition openpit_param_volume_to_position_size p := converted p volume_to_position_size.
Definition openpit_param_pnl_from_fee p := converted p pnl_from_fee.
Definition openpit_param_cash_flow_from_pnl p := converted p cash_flow_from_pnl.
Definition openpit_param_cash_flow_from_fee p := converted p cash_flow_from_fee.
Definition openpit_param_cash_flow_from_volume_inflow p := converted p cash_flow_from_volume_inflow.
Definition openpit_param_cash_flow_from_volume_outflow p := converted p cash_flow_from_volume_outflow.
Definition openpit_param_fee_to_pnl p := converted p fee_to_pnl.
Definition openpit_param_fee_to_position_size p := converted p fee_to_position_size.
Definition openpit_param_fee_to_cash_flow p := converted p fee_to_cash_flow.
Definition openpit_param_volume_to_cash_flow_inflow p := converted p volume_to_cash_flow_inflow.
Definition openpit_param_volume_to_cash_flow_outflow p := converted p volume_to_cash_flow_outflow.
Definition openpit_param_position_size_from_pnl p := converted p position_size_from_pnl.
Definition openpit_param_position_size_from_fee p := converted p position_size_from_fee.

Definition openpit_param_position_size_from_quantity_and_side p (quantity : OpenPitParamQuantity) (side : Z) :
    Call OpenPitParamError OpenPitParamPositionSize :=
  or_unspecified p (to_param quantity) (fun parsed =>
  or_unspecified p (required_side side) (fun parsed_side =>
  write_out p (wrap (from_quantity_and_side parsed parsed_side)))).

(** Both result places are checked first, so both are written or neither. *)
Definition openpit_param_position_size_to_open_quantity (out_quantity_null out_side_null error_null : bool)
    (value : OpenPitParamPositionSize) : Call OpenPitParamError (OpenPitParamQuantity * Z) :=
  let p := mkPlaces (out_quantity_null || out_side_null) error_null in
  if out_null p then fail_unspecified p "result place pointer is null"
  else or_unspecified p (to_param value) (fun position_size =>
         let '(quantity, side) := to_open_quantity position_size in
         mkCall true (Some (wrap quantity, export_side side)) None).

Definition openpit_param_position_size_to_close_quantity (out_quantity_null out_side_null error_null : bool)
    (value : OpenPitParamPositionSize) : Call OpenPitParamError (OpenPitParamQuantity * Z) :=
  let p := mkPlaces (out_quantity_null || out_side_null) error_null in
  if out_null p then fail_unspecified p "result place pointer is null"
  else or_unspecified p (to_param value) (fun position_size =>
         let '(quantity, side) := to_close_quantity position_size in
         mkCall true (Some (wrap quantity, from_option export_side OPENPIT_PARAM_SIDE_NOT_SET side)) None).

Definition openpit_param_position_size_checked_add_quantity p (value : OpenPitParamPositionSize)
    (quantity : OpenPitParamQuantity) (side : Z) : Call OpenPitParamError OpenPitParamPositionSize :=
  or_unspecified p (to_param value) (fun value =>
  or_unspecified p (to_param quantity) (fun quantity =>
  or_unspecified p (required_side side) (fun side =>
  or_coded p (checked_add_quantity value quantity side) (fun position => write_out p (wrap position))))).

Definition openpit_param_price_calculate_notional p := combined p notional_from_price_quantity.
Definition openpit_param_quantity_calculate_notional p :=
  combined p (fun quantity price => notional_from_price_quantity price quantity).
Definition openpit_param_notional_from_volume p := converted p notional_from_volume.
Definition openpit_param_notional_to_volume p := converted p notional_to_volume.

Definition openpit_param_notional_calculate_margin_required p (notional : OpenPitParamNotional) (leverage : Z) :
    Call OpenPitParamError OpenPitParamNotional :=
  or_unspecified p (to_param notional) (fun notional =>
  or_unspecified p (required_leverage leverage) (fun leverage =>
  or_coded p (notional_calculate_margin_required notional leverage) (fun margin => write_out p (wrap margin)))).

Definition openpit_param_volume_from_notional p := converted p volume_from_notional.

(** *** Identifiers *)

Definition openpit_create_param_account_id_from_uint64 (value : Z) : Z := account_as_u64 (account_from_u64 value).

Definition openpit_create_param_account_id_from_string p (value : OpenPitStringView) : Call OpenPitParamError Z :=
  or_coded p (map_err AccountIdError_into (account_from_str (identifier_text value)))
    (fun id => write_out p (account_as_u64 id)).

Definition openpit_create_param_asset_from_string p (value : OpenPitStringView) :
    SharedString * option OpenPitParamError :=
  match parse_string_view value with
  | Err error => (None, write_param_error_unspecified p error)
  | Ok text =>
      match asset_new text with
      | Ok asset => (Some (Asset_fmt asset), None)
      | Err error => (None, consume_param_error_with_code p (AssetError_into error))
      end
  end.

(** *** Text *)

(** The text of a code that must be set. *)
Definition code_to_string {A} p (imported : result string (option A)) (what : string) (fmt : A -> string) :
    SharedString * option OpenPitParamError :=
  rendered fmt (write_param_error_unspecified p) (value ← imported; ok_or value (what +:+ " is not set")).

Definition openpit_param_side_to_string p (value : Z) := code_to_string p (import_side value) "side" Side_fmt.
Definition openpit_param_position_side_to_string p (value : Z) :=
  code_to_string p (import_position_side value) "position side" PositionSide_fmt.
Definition openpit_param_position_effect_to_string p (value : Z) :=
  code_to_string p (import_position_effect value) "position effect" PositionEffect_fmt.
Definition openpit_param_position_mode_to_string p (value : Z) :=
  code_to_string p (import_position_mode value) "position mode" PositionMode_fmt.
Definition openpit_param_trade_amount_to_string p (value : OpenPitParamTradeAmount) :=
  code_to_string p (import_trade_amount value) "trade amount" TradeAmount_fmt.
End Convert.
