(* ===== verification/FfiOutcomes.v ===== *)
(** * FfiOutcomes: rejects, account blocks, outcomes and P&L states on the wire

    src/crates/openpit-ffi/src/reject.rs: scopes, codes and the lists of rejects and
    blocks; a list handle is [None] when null, and a call whose pointer contract is
    asserted returns [None] where it would abort.  src/crates/openpit-ffi/src/
    account_outcome.rs: the outcomes policies report, the lists a client reads them
    from and the collectors a custom policy fills. *)
From S2P Require Import Prelude.
From S2P Require Import Decimal.
From S2P Require Import Param.
From S2P Require Import ParamTypes.
From S2P Require Import Identifiers.
From S2P Require Import Utf8.
From S2P Require Import Reject.
From S2P Require Import Lock.
From S2P Require Import Policy.
From S2P Require Import Ffi.
From S2P Require Import FfiParam.
Open Scope Z_scope.

(** ** Scopes and codes *)

Definition OPENPIT_PRETRADE_REJECT_SCOPE_ORDER : Z := 1.
Definition OPENPIT_PRETRADE_REJECT_SCOPE_ACCOUNT : Z := 2.

Definition export_reject_scope (value : RejectScope) : Z :=
  match value with
  | RS_Order => OPENPIT_PRETRADE_REJECT_SCOPE_ORDER
  | RS_Account => OPENPIT_PRETRADE_REJECT_SCOPE_ACCOUNT
  end.

Definition import_reject_scope (value : Z) : option RejectScope :=
  if value =? OPENPIT_PRETRADE_REJECT_SCOPE_ORDER then Some RS_Order
  else if value =? OPENPIT_PRETRADE_REJECT_SCOPE_ACCOUNT then Some RS_Account
  else None.

Definition OPENPIT_PRETRADE_REJECT_CODE_MISSING_REQUIRED_FIELD : Z := 1.
Definition OPENPIT_PRETRADE_REJECT_CODE_INVALID_FIELD_FORMAT : Z := 2.
Definition OPENPIT_PRETRADE_REJECT_CODE_INVALID_FIELD_VALUE : Z := 3.
Definition OPENPIT_PRETRADE_REJECT_CODE_UNSUPPORTED_ORDER_TYPE : Z := 4.
Definition OPENPIT_PRETRADE_REJECT_CODE_UNSUPPORTED_TIME_IN_FORCE : Z := 5.
Definition OPENPIT_PRETRADE_REJECT_CODE_UNSUPPORTED_ORDER_ATTRIBUTE : Z := 6.
Definition OPENPIT_PRETRADE_REJECT_CODE_DUPLICATE_CLIENT_ORDER_ID : Z := 7.
Definition OPENPIT_PRETRADE_REJECT_CODE_TOO_LATE_TO_ENTER : Z := 8.
Definition OPENPIT_PRETRADE_REJECT_CODE_EXCHANGE_CLOSED : Z := 9.
Definition OPENPIT_PRETRADE_REJECT_CODE_UNKNOWN_INSTRUMENT : Z := 10.
Definition OPENPIT_PRETRADE_REJECT_CODE_UNKNOWN_ACCOUNT : Z := 11.
Definition OPENPIT_PRETRADE_REJECT_CODE_UNKNOWN_VENUE : Z := 12.
Definition OPENPIT_PRETRADE_REJECT_CODE_UNKNOWN_CLEARING_ACCOUNT : Z := 13.
Definition OPENPIT_PRETRADE_REJECT_CODE_UNKNOWN_COLLATERAL_ASSET : Z := 14.
Definition OPENPIT_PRETRADE_REJECT_CODE_INSUFFICIENT_FUNDS : Z := 15.
Definition OPENPIT_PRETRADE_REJECT_CODE_INSUFFICIENT_MARGIN : Z := 16.
Definition OPENPIT_PRETRADE_REJECT_CODE_INSUFFICIENT_POSITION : Z := 17.
Definition OPENPIT_PRETRADE_REJECT_CODE_CREDIT_LIMIT_EXCEEDED : Z := 18.
Definition OPENPIT_PRETRADE_REJECT_CODE_RISK_LIMIT_EXCEEDED : Z := 19.
Definition OPENPIT_PRETRADE_REJECT_CODE_ORDER_EXCEEDS_LIMIT : Z := 20.
Definition OPENPIT_PRETRADE_REJECT_CODE_ORDER_QTY_EXCEEDS_LIMIT : Z := 21.
Definition OPENPIT_PRETRADE_REJECT_CODE_ORDER_NOTIONAL_EXCEEDS_LIMIT : Z := 22.
Definition OPENPIT_PRETRADE_REJECT_CODE_POSITION_LIMIT_EXCEEDED : Z := 23.
Definition OPENPIT_PRETRADE_REJECT_CODE_CONCENTRATION_LIMIT_EXCEEDED : Z := 24.
Definition OPENPIT_PRETRADE_REJECT_CODE_LEVERAGE_LIMIT_EXCEEDED : Z := 25.
Definition OPENPIT_PRETRADE_REJECT_CODE_RATE_LIMIT_EXCEEDED : Z := 26.
Definition OPENPIT_PRETRADE_REJECT_CODE_PNL_KILL_SWITCH_TRIGGERED : Z := 27.
Definition OPENPIT_PRETRADE_REJECT_CODE_ACCOUNT_BLOCKED : Z := 28.
Definition OPENPIT_PRETRADE_REJECT_CODE_ACCOUNT_NOT_AUTHORIZED : Z := 29.
Definition OPENPIT_PRETRADE_REJECT_CODE_COMPLIANCE_RESTRICTION : Z := 30.
Definition OPENPIT_PRETRADE_REJECT_CODE_INSTRUMENT_RESTRICTED : Z := 31.
Definition OPENPIT_PRETRADE_REJECT_CODE_JURISDICTION_RESTRICTION : Z := 32.
Definition OPENPIT_PRETRADE_REJECT_CODE_WASH_TRADE_PREVENTION : Z := 33.
Definition OPENPIT_PRETRADE_REJECT_CODE_SELF_MATCH_PREVENTION : Z := 34.
Definition OPENPIT_PRETRADE_REJECT_CODE_SHORT_SALE_RESTRICTION : Z := 35.
Definition OPENPIT_PRETRADE_REJECT_CODE_RISK_CONFIGURATION_MISSING : Z := 36.
Definition OPENPIT_PRETRADE_REJECT_CODE_REFERENCE_DATA_UNAVAILABLE : Z := 37.
Definition OPENPIT_PRETRADE_REJECT_CODE_ORDER_VALUE_CALCULATION_FAILED : Z := 38.
Definition OPENPIT_PRETRADE_REJECT_CODE_SYSTEM_UNAVAILABLE : Z := 39.
Definition OPENPIT_PRETRADE_REJECT_CODE_MARK_PRICE_UNAVAILABLE : Z := 40.
Definition OPENPIT_PRETRADE_REJECT_CODE_ACCOUNT_ADJUSTMENT_BOUNDS_EXCEEDED : Z := 41.
Definition OPENPIT_PRETRADE_REJECT_CODE_ARITHMETIC_OVERFLOW : Z := 42.
Definition OPENPIT_PRETRADE_REJECT_CODE_CUSTOM : Z := 254.
Definition OPENPIT_PRETRADE_REJECT_CODE_OTHER : Z := 255.

Definition export_reject_code (value : RejectCode) : Z :=
  match value with
  | RC_MissingRequiredField => OPENPIT_PRETRADE_REJECT_CODE_MISSING_REQUIRED_FIELD
  | RC_InvalidFieldFormat => OPENPIT_PRETRADE_REJECT_CODE_INVALID_FIELD_FORMAT
  | RC_InvalidFieldValue => OPENPIT_PRETRADE_REJECT_CODE_INVALID_FIELD_VALUE
  | RC_UnsupportedOrderType => OPENPIT_PRETRADE_REJECT_CODE_UNSUPPORTED_ORDER_TYPE
  | RC_UnsupportedTimeInForce => OPENPIT_PRETRADE_REJECT_CODE_UNSUPPORTED_TIME_IN_FORCE
  | RC_UnsupportedOrderAttribute => OPENPIT_PRETRADE_REJECT_CODE_UNSUPPORTED_ORDER_ATTRIBUTE
  | RC_DuplicateClientOrderId => OPENPIT_PRETRADE_REJECT_CODE_DUPLICATE_CLIENT_ORDER_ID
  | RC_TooLateToEnter => OPENPIT_PRETRADE_REJECT_CODE_TOO_LATE_TO_ENTER
  | RC_ExchangeClosed => OPENPIT_PRETRADE_REJECT_CODE_EXCHANGE_CLOSED
  | RC_UnknownInstrument => OPENPIT_PRETRADE_REJECT_CODE_UNKNOWN_INSTRUMENT
  | RC_UnknownAccount => OPENPIT_PRETRADE_REJECT_CODE_UNKNOWN_ACCOUNT
  | RC_UnknownVenue => OPENPIT_PRETRADE_REJECT_CODE_UNKNOWN_VENUE
  | RC_UnknownClearingAccount => OPENPIT_PRETRADE_REJECT_CODE_UNKNOWN_CLEARING_ACCOUNT
  | RC_UnknownCollateralAsset => OPENPIT_PRETRADE_REJECT_CODE_UNKNOWN_COLLATERAL_ASSET
  | RC_InsufficientFunds => OPENPIT_PRETRADE_REJECT_CODE_INSUFFICIENT_FUNDS
  | RC_InsufficientMargin => OPENPIT_PRETRADE_REJECT_CODE_INSUFFICIENT_MARGIN
  | RC_InsufficientPosition => OPENPIT_PRETRADE_REJECT_CODE_INSUFFICIENT_POSITION
  | RC_CreditLimitExceeded => OPENPIT_PRETRADE_REJECT_CODE_CREDIT_LIMIT_EXCEEDED
  | RC_RiskLimitExceeded => OPENPIT_PRETRADE_REJECT_CODE_RISK_LIMIT_EXCEEDED
  | RC_OrderExceedsLimit => OPENPIT_PRETRADE_REJECT_CODE_ORDER_EXCEEDS_LIMIT
  | RC_OrderQtyExceedsLimit => OPENPIT_PRETRADE_REJECT_CODE_ORDER_QTY_EXCEEDS_LIMIT
  | RC_OrderNotionalExceedsLimit => OPENPIT_PRETRADE_REJECT_CODE_ORDER_NOTIONAL_EXCEEDS_LIMIT
  | RC_PositionLimitExceeded => OPENPIT_PRETRADE_REJECT_CODE_POSITION_LIMIT_EXCEEDED
  | RC_ConcentrationLimitExceeded => OPENPIT_PRETRADE_REJECT_CODE_CONCENTRATION_LIMIT_EXCEEDED
  | RC_LeverageLimitExceeded => OPENPIT_PRETRADE_REJECT_CODE_LEVERAGE_LIMIT_EXCEEDED
  | RC_RateLimitExceeded => OPENPIT_PRETRADE_REJECT_CODE_RATE_LIMIT_EXCEEDED
  | RC_PnlKillSwitchTriggered => OPENPIT_PRETRADE_REJECT_CODE_PNL_KILL_SWITCH_TRIGGERED
  | RC_AccountBlocked => OPENPIT_PRETRADE_REJECT_CODE_ACCOUNT_BLOCKED
  | RC_AccountNotAuthorized => OPENPIT_PRETRADE_REJECT_CODE_ACCOUNT_NOT_AUTHORIZED
  | RC_ComplianceRestriction => OPENPIT_PRETRADE_REJECT_CODE_COMPLIANCE_RESTRICTION
  | RC_InstrumentRestricted => OPENPIT_PRETRADE_REJECT_CODE_INSTRUMENT_RESTRICTED
  | RC_JurisdictionRestriction => OPENPIT_PRETRADE_REJECT_CODE_JURISDICTION_RESTRICTION
  | RC_WashTradePrevention => OPENPIT_PRETRADE_REJECT_CODE_WASH_TRADE_PREVENTION
  | RC_SelfMatchPrevention => OPENPIT_PRETRADE_REJECT_CODE_SELF_MATCH_PREVENTION
  | RC_ShortSaleRestriction => OPENPIT_PRETRADE_REJECT_CODE_SHORT_SALE_RESTRICTION
  | RC_RiskConfigurationMissing => OPENPIT_PRETRADE_REJECT_CODE_RISK_CONFIGURATION_MISSING
  | RC_ReferenceDataUnavailable => OPENPIT_PRETRADE_REJECT_CODE_REFERENCE_DATA_UNAVAILABLE
  | RC_OrderValueCalculationFailed => OPENPIT_PRETRADE_REJECT_CODE_ORDER_VALUE_CALCULATION_FAILED
  | RC_SystemUnavailable => OPENPIT_PRETRADE_REJECT_CODE_SYSTEM_UNAVAILABLE
  | RC_MarkPriceUnavailable => OPENPIT_PRETRADE_REJECT_CODE_MARK_PRICE_UNAVAILABLE
  | RC_AccountAdjustmentBoundsExceeded => OPENPIT_PRETRADE_REJECT_CODE_ACCOUNT_ADJUSTMENT_BOUNDS_EXCEEDED
  | RC_ArithmeticOverflow => OPENPIT_PRETRADE_REJECT_CODE_ARITHMETIC_OVERFLOW
  | RC_Custom => OPENPIT_PRETRADE_REJECT_CODE_CUSTOM
  | RC_Other => OPENPIT_PRETRADE_REJECT_CODE_OTHER
  end.

(** The arms of [import_reject_code], in their order. *)
Definition reject_code_arms : list (Z * RejectCode) := [
  (OPENPIT_PRETRADE_REJECT_CODE_MISSING_REQUIRED_FIELD, RC_MissingRequiredField);
  (OPENPIT_PRETRADE_REJECT_CODE_INVALID_FIELD_FORMAT, RC_InvalidFieldFormat);
  (OPENPIT_PRETRADE_REJECT_CODE_INVALID_FIELD_VALUE, RC_InvalidFieldValue);
  (OPENPIT_PRETRADE_REJECT_CODE_UNSUPPORTED_ORDER_TYPE, RC_UnsupportedOrderType);
  (OPENPIT_PRETRADE_REJECT_CODE_UNSUPPORTED_TIME_IN_FORCE, RC_UnsupportedTimeInForce);
  (OPENPIT_PRETRADE_REJECT_CODE_UNSUPPORTED_ORDER_ATTRIBUTE, RC_UnsupportedOrderAttribute);
  (OPENPIT_PRETRADE_REJECT_CODE_DUPLICATE_CLIENT_ORDER_ID, RC_DuplicateClientOrderId);
  (OPENPIT_PRETRADE_REJECT_CODE_TOO_LATE_TO_ENTER, RC_TooLateToEnter);
  (OPENPIT_PRETRADE_REJECT_CODE_EXCHANGE_CLOSED, RC_ExchangeClosed);
  (OPENPIT_PRETRADE_REJECT_CODE_UNKNOWN_INSTRUMENT, RC_UnknownInstrument);
  (OPENPIT_PRETRADE_REJECT_CODE_UNKNOWN_ACCOUNT, RC_UnknownAccount);
  (OPENPIT_PRETRADE_REJECT_CODE_UNKNOWN_VENUE, RC_UnknownVenue);
  (OPENPIT_PRETRADE_REJECT_CODE_UNKNOWN_CLEARING_ACCOUNT, RC_UnknownClearingAccount);
  (OPENPIT_PRETRADE_REJECT_CODE_UNKNOWN_COLLATERAL_ASSET, RC_UnknownCollateralAsset);
  (OPENPIT_PRETRADE_REJECT_CODE_INSUFFICIENT_FUNDS, RC_InsufficientFunds);
  (OPENPIT_PRETRADE_REJECT_CODE_INSUFFICIENT_MARGIN, RC_InsufficientMargin);
  (OPENPIT_PRETRADE_REJECT_CODE_INSUFFICIENT_POSITION, RC_InsufficientPosition);
  (OPENPIT_PRETRADE_REJECT_CODE_CREDIT_LIMIT_EXCEEDED, RC_CreditLimitExceeded);
  (OPENPIT_PRETRADE_REJECT_CODE_RISK_LIMIT_EXCEEDED, RC_RiskLimitExceeded);
  (OPENPIT_PRETRADE_REJECT_CODE_ORDER_EXCEEDS_LIMIT, RC_OrderExceedsLimit);
  (OPENPIT_PRETRADE_REJECT_CODE_ORDER_QTY_EXCEEDS_LIMIT, RC_OrderQtyExceedsLimit);
  (OPENPIT_PRETRADE_REJECT_CODE_ORDER_NOTIONAL_EXCEEDS_LIMIT, RC_OrderNotionalExceedsLimit);
  (OPENPIT_PRETRADE_REJECT_CODE_POSITION_LIMIT_EXCEEDED, RC_PositionLimitExceeded);
  (OPENPIT_PRETRADE_REJECT_CODE_CONCENTRATION_LIMIT_EXCEEDED, RC_ConcentrationLimitExceeded);
  (OPENPIT_PRETRADE_REJECT_CODE_LEVERAGE_LIMIT_EXCEEDED, RC_LeverageLimitExceeded);
  (OPENPIT_PRETRADE_REJECT_CODE_RATE_LIMIT_EXCEEDED, RC_RateLimitExceeded);
  (OPENPIT_PRETRADE_REJECT_CODE_PNL_KILL_SWITCH_TRIGGERED, RC_PnlKillSwitchTriggered);
  (OPENPIT_PRETRADE_REJECT_CODE_ACCOUNT_BLOCKED, RC_AccountBlocked);
  (OPENPIT_PRETRADE_REJECT_CODE_ACCOUNT_NOT_AUTHORIZED, RC_AccountNotAuthorized);
  (OPENPIT_PRETRADE_REJECT_CODE_COMPLIANCE_RESTRICTION, RC_ComplianceRestriction);
  (OPENPIT_PRETRADE_REJECT_CODE_INSTRUMENT_RESTRICTED, RC_InstrumentRestricted);
  (OPENPIT_PRETRADE_REJECT_CODE_JURISDICTION_RESTRICTION, RC_JurisdictionRestriction);
  (OPENPIT_PRETRADE_REJECT_CODE_WASH_TRADE_PREVENTION, RC_WashTradePrevention);
  (OPENPIT_PRETRADE_REJECT_CODE_SELF_MATCH_PREVENTION, RC_SelfMatchPrevention);
  (OPENPIT_PRETRADE_REJECT_CODE_SHORT_SALE_RESTRICTION, RC_ShortSaleRestriction);
  (OPENPIT_PRETRADE_REJECT_CODE_RISK_CONFIGURATION_MISSING, RC_RiskConfigurationMissing);
  (OPENPIT_PRETRADE_REJECT_CODE_REFERENCE_DATA_UNAVAILABLE, RC_ReferenceDataUnavailable);
  (OPENPIT_PRETRADE_REJECT_CODE_ORDER_VALUE_CALCULATION_FAILED, RC_OrderValueCalculationFailed);
  (OPENPIT_PRETRADE_REJECT_CODE_SYSTEM_UNAVAILABLE, RC_SystemUnavailable);
  (OPENPIT_PRETRADE_REJECT_CODE_MARK_PRICE_UNAVAILABLE, RC_MarkPriceUnavailable);
  (OPENPIT_PRETRADE_REJECT_CODE_ACCOUNT_ADJUSTMENT_BOUNDS_EXCEEDED, RC_AccountAdjustmentBoundsExceeded);
  (OPENPIT_PRETRADE_REJECT_CODE_ARITHMETIC_OVERFLOW, RC_ArithmeticOverflow);
  (OPENPIT_PRETRADE_REJECT_CODE_CUSTOM, RC_Custom);
  (OPENPIT_PRETRADE_REJECT_CODE_OTHER, RC_Other)
].

(** The first arm whose constant the value is. *)
Fixpoint first_arm {A} (arms : list (Z * A)) (default : A) (value : Z) : A :=
  match arms with
  | [] => default
  | (code, a) :: arms => if value =? code then a else first_arm arms default value
  end.

Definition import_reject_code (value : Z) : RejectCode := first_arm reject_code_arms RC_Other value.

Definition openpit_pretrade_reject_code_is_evaluation_failure (code : Z) : bool :=
  is_evaluation_failure (import_reject_code code).

(** ** Rejects *)

Record OpenPitPretradeReject : Type := mkPretradeReject {
  opr_policy : OpenPitStringView;
  opr_reason : OpenPitStringView;
  opr_details : OpenPitStringView;
  opr_user_data : Z;
  opr_code : Z;
  opr_scope : Z
}.

Definition import_string (ptr : OpenPitStringView) : string :=
  match sv_ptr ptr with
  | None => ""
  | Some bytes => string_of_ustr (from_utf8_lossy (from_raw_parts bytes (sv_len ptr)))
  end.

Definition from_reject (inner : Reject) : OpenPitPretradeReject := {|
  opr_policy := view_from_utf8 (reject_policy inner);
  opr_reason := view_from_utf8 (reject_reason inner);
  opr_details := view_from_utf8 (reject_details inner);
  opr_user_data := reject_user_data inner;
  opr_code := export_reject_code (reject_code inner);
  opr_scope := export_reject_scope (reject_scope inner)
|}.

Definition to_reject (self : OpenPitPretradeReject) : option Reject :=
  scope ← import_reject_scope (opr_scope self);
  Some (reject_with_user_data
          (reject_new (import_string (opr_policy self)) scope (import_reject_code (opr_code self))
             (import_string (opr_reason self)) (import_string (opr_details self)))
          (opr_user_data self)).

(** A handle to a reject list: null, the shared accept list, or a list of its own. *)
Inductive RejectList : Type := RL_Null | RL_Accepted | RL_Owned (items : list Reject).

Definition is_accepted_reject_list (value : RejectList) : bool :=
  match value with RL_Accepted => true | _ => false end.

(** The rejects behind a handle; [None] where the assertion fails. *)
Definition reject_items (value : RejectList) : option (list Reject) :=
  match value with RL_Null => None | RL_Accepted => Some [] | RL_Owned items => Some items end.

Definition rejects_to_list_owned {PR} (values : Rejects PR) : RejectList := RL_Owned (rejects_list values).

Definition openpit_create_pretrade_reject_list : RejectList := RL_Owned [].
Definition openpit_pretrade_reject_list_get_accept_sentinel : RejectList := RL_Accepted.
Definition openpit_pretrade_reject_list_is_accept_sentinel (value : RejectList) : bool := is_accepted_reject_list value.

Definition openpit_pretrade_reject_list_push (value : RejectList) (reject : OpenPitPretradeReject) :
    option (bool * RejectList) :=
  match value with
  | RL_Null => None
  | RL_Accepted => Some (false, value)
  | RL_Owned items =>
      Some match to_reject reject with
           | None => (false, value)
           | Some reject => (true, RL_Owned (items ++ [reject]))
           end
  end.

(** [len] and [get] of every list of the crate. *)
Definition list_len {A} (items : option (list A)) : option nat := length <$> items.

Definition list_get {A B} (export : A -> B) (items : option (list A)) (index : nat) (out_null : bool) :
    option (bool * option B) :=
  match items with
  | None => None
  | Some items =>
      if out_null then None
      else Some match items !! index with None => (false, None) | Some x => (true, Some (export x)) end
  end.

Definition openpit_pretrade_reject_list_len (value : RejectList) : option nat := list_len (reject_items value).

Definition openpit_pretrade_reject_list_get (value : RejectList) (index : nat) (out_null : bool) :=
  list_get from_reject (reject_items value) index out_null.

(** ** Account blocks *)

Record OpenPitPretradeAccountBlock : Type := mkPretradeAccountBlock {
  opb_policy : OpenPitStringView;
  opb_reason : OpenPitStringView;
  opb_details : OpenPitStringView;
  opb_user_data : Z;
  opb_code : Z
}.

Definition from_block (inner : AccountBlock) : OpenPitPretradeAccountBlock := {|
  opb_policy := view_from_utf8 (block_policy inner);
  opb_reason := view_from_utf8 (block_reason inner);
  opb_details := view_from_utf8 (block_details inner);
  opb_user_data := block_user_data inner;
  opb_code := export_reject_code (block_code inner)
|}.

Definition to_block (self : OpenPitPretradeAccountBlock) : AccountBlock :=
  block_with_user_data
    (account_block_new (import_string (opb_policy self)) (import_reject_code (opb_code self))
       (import_string (opb_reason self)) (import_string (opb_details self)))
    (opb_user_data self).

(** The strict import: no unknown code, no ill-formed text. *)
Definition try_to_block (self : OpenPitPretradeAccountBlock) : result string AccountBlock :=
  let code := import_reject_code (opb_code self) in
  if bool_decide (code = RC_Other) && negb (opb_code self =? OPENPIT_PRETRADE_REJECT_CODE_OTHER)
  then Err "account block code is not recognized"
  else
    let parse_field value field :=
      string_of_ustr <$>
        map_err (fun error => "account block " +:+ field +:+ ": " +:+ error) (parse_string_view value) in
    policy ← parse_field (opb_policy self) "policy";
    reason ← parse_field (opb_reason self) "reason";
    details ← parse_field (opb_details self) "details";
    Ok (block_with_user_data (account_block_new policy code reason details) (opb_user_data self)).

Definition openpit_create_pretrade_account_block_list : option (list AccountBlock) := Some [].

Definition openpit_pretrade_account_block_list_push (items : option (list AccountBlock))
    (block : OpenPitPretradeAccountBlock) : option (list AccountBlock) :=
  (fun items => items ++ [to_block block]) <$> items.

Definition openpit_pretrade_account_block_list_len (items : option (list AccountBlock)) := list_len items.

Definition openpit_pretrade_account_block_list_get (items : option (list AccountBlock)) (index : nat) (out_null : bool) :=
  list_get from_block items index out_null.

Record OpenPitPretradeAccountBlockOutcome : Type := mkPretradeAccountBlockOutcome {
  opbo_account_id : Z;
  opbo_block : OpenPitPretradeAccountBlock
}.

Definition block_from_outcome (inner : AccountId * AccountBlock) : OpenPitPretradeAccountBlockOutcome :=
  mkPretradeAccountBlockOutcome (account_as_u64 inner.1) (from_block inner.2).

Definition openpit_pretrade_account_block_outcome_list_len (items : option (list (AccountId * AccountBlock))) := list_len items.

Definition openpit_pretrade_account_block_outcome_list_get (items : option (list (AccountId * AccountBlock)))
    (index : nat) (out_null : bool) :=
  list_get block_from_outcome items index out_null.

(** ** Halts *)

Definition OPENPIT_PNL_HALT_REASON_NONE : Z := 0.
Definition OPENPIT_PNL_HALT_REASON_MISSING_FX : Z := 1.
Definition OPENPIT_PNL_HALT_REASON_MISSING_ACCOUNT_CURRENCY : Z := 2.
Definition OPENPIT_PNL_HALT_REASON_MISSING_INITIAL_PNL : Z := 3.
Definition OPENPIT_PNL_HALT_REASON_MISSING_COST_BASIS : Z := 4.
Definition OPENPIT_PNL_HALT_REASON_ARITHMETIC_OVERFLOW : Z := 5.

Definition export_pnl_halt_reason (value : PnlHaltReason) : Z :=
  match value with
  | MissingFx => OPENPIT_PNL_HALT_REASON_MISSING_FX
  | MissingAccountCurrency => OPENPIT_PNL_HALT_REASON_MISSING_ACCOUNT_CURRENCY
  | MissingInitialPnl => OPENPIT_PNL_HALT_REASON_MISSING_INITIAL_PNL
  | MissingCostBasis => OPENPIT_PNL_HALT_REASON_MISSING_COST_BASIS
  | ArithmeticOverflow => OPENPIT_PNL_HALT_REASON_ARITHMETIC_OVERFLOW
  end.

Definition import_pnl_halt_reason (value : Z) : result string PnlHaltReason :=
  if value =? OPENPIT_PNL_HALT_REASON_MISSING_FX then Ok MissingFx
  else if value =? OPENPIT_PNL_HALT_REASON_MISSING_ACCOUNT_CURRENCY then Ok MissingAccountCurrency
  else if value =? OPENPIT_PNL_HALT_REASON_MISSING_INITIAL_PNL then Ok MissingInitialPnl
  else if value =? OPENPIT_PNL_HALT_REASON_MISSING_COST_BASIS then Ok MissingCostBasis
  else if value =? OPENPIT_PNL_HALT_REASON_ARITHMETIC_OVERFLOW then Ok ArithmeticOverflow
  else Err ("invalid PnL halt reason code " +:+ int_fmt value).

Definition OPENPIT_PNL_STATE_VALUE : Z := 0.
Definition OPENPIT_PNL_STATE_HALTED : Z := 1.

Section Outcomes.
Context {D : DecimalOps} {DW : DecimalWire}.

(** ** The structures *)

Record OpenPitOutcomeAmount : Type := mkWireOutcomeAmount {
  woa_delta : OpenPitParamPositionSize;
  woa_absolute : OpenPitParamPositionSize
}.

Record OpenPitPnlOutcomeAmount : Type := mkWirePnlOutcomeAmount {
  wpoa_delta : OpenPitParamPnl;
  wpoa_absolute : OpenPitParamPnl
}.

Record OpenPitPnlOutcome : Type := mkWirePnlOutcome {
  wpo_halt_reason : Z;
  wpo_amount : Optional OpenPitPnlOutcomeAmount
}.

Record OpenPitPnlState : Type := mkWirePnlState {
  wps_kind : Z;
  wps_value : OpenPitParamPnl;
  wps_halt_reason : Z
}.

Record OpenPitAccountPnlOutcome : Type := mkWireAccountPnlOutcome {
  wapo_account_id : Z;
  wapo_policy_group_id : Z;
  wapo_halt_reason : Z;
  wapo_amount : Optional OpenPitPnlOutcomeAmount
}.

Record OpenPitAccountOutcomeEntry : Type := mkWireOutcomeEntry {
  woe_asset : OpenPitStringView;
  woe_balance : Optional OpenPitOutcomeAmount;
  woe_held : Optional OpenPitOutcomeAmount;
  woe_incoming : Optional OpenPitOutcomeAmount;
  woe_realized_pnl : Optional OpenPitPnlOutcome;
  woe_average_entry_price : Optional OpenPitParamPrice
}.

Record OpenPitAccountAdjustmentOutcome : Type := mkWireAdjustmentOutcome {
  wao_policy_group_id : Z;
  wao_entry : OpenPitAccountOutcomeEntry
}.

Definition outcome_amount_default : OpenPitOutcomeAmount := mkWireOutcomeAmount OpenPitParam_default OpenPitParam_default.
Definition pnl_outcome_amount_default : OpenPitPnlOutcomeAmount :=
  mkWirePnlOutcomeAmount OpenPitParam_default OpenPitParam_default.
Definition pnl_outcome_default : OpenPitPnlOutcome :=
  mkWirePnlOutcome OPENPIT_PNL_HALT_REASON_NONE (mkOptional pnl_outcome_amount_default false).
Definition pnl_state_default : OpenPitPnlState :=
  mkWirePnlState OPENPIT_PNL_STATE_VALUE OpenPitParam_default OPENPIT_PNL_HALT_REASON_NONE.

(** ** Export *)

Definition export_outcome_amount (value : OutcomeAmount) : OpenPitOutcomeAmount :=
  mkWireOutcomeAmount (wrap (oa_delta value)) (wrap (oa_absolute value)).

Definition export_outcome_amount_optional (value : option OutcomeAmount) : Optional OpenPitOutcomeAmount :=
  optional outcome_amount_default export_outcome_amount value.

Definition export_pnl_outcome_amount (value : PnlOutcomeAmount) : OpenPitPnlOutcomeAmount :=
  mkWirePnlOutcomeAmount (wrap (poa_delta value)) (wrap (poa_absolute value)).

Definition export_pnl_state (value : PnlState) : OpenPitPnlState :=
  match value with
  | PnlValue value => mkWirePnlState OPENPIT_PNL_STATE_VALUE (wrap value) OPENPIT_PNL_HALT_REASON_NONE
  | PnlHalted reason => mkWirePnlState OPENPIT_PNL_STATE_HALTED OpenPitParam_default (export_pnl_halt_reason reason)
  end.

Definition export_pnl_outcome (value : PnlOutcome) : OpenPitPnlOutcome :=
  match value with
  | Ok amount =>
      mkWirePnlOutcome OPENPIT_PNL_HALT_REASON_NONE (mkOptional (export_pnl_outcome_amount amount) true)
  | Err reason =>
      mkWirePnlOutcome (export_pnl_halt_reason reason) (mkOptional pnl_outcome_amount_default false)
  end.

Definition export_pnl_outcome_optional (value : option PnlOutcome) : Optional OpenPitPnlOutcome :=
  optional pnl_outcome_default export_pnl_outcome value.

Definition export_price_optional (value : option Price) : Optional OpenPitParamPrice :=
  optional OpenPitParam_default wrap value.

Definition export_outcome_entry (value : AccountOutcomeEntry) : OpenPitAccountOutcomeEntry := {|
  woe_asset := view_of_asset (aoe_asset value);
  woe_balance := export_outcome_amount_optional (aoe_balance value);
  woe_held := export_outcome_amount_optional (aoe_held value);
  woe_incoming := export_outcome_amount_optional (aoe_incoming value);
  woe_realized_pnl := export_pnl_outcome_optional (aoe_realized_pnl value);
  woe_average_entry_price := export_price_optional (aoe_average_entry_price value)
|}.

(** [from_outcome] of the two outcome structures. *)
Definition adjustment_from_outcome (inner : AccountAdjustmentOutcome) : OpenPitAccountAdjustmentOutcome :=
  mkWireAdjustmentOutcome (policy_group_value (aao_policy_group_id inner)) (export_outcome_entry (aao_entry inner)).

Definition account_pnl_from_outcome (inner : AccountPnlOutcome) : OpenPitAccountPnlOutcome :=
  let pnl := export_pnl_outcome (apo_result inner) in
  {| wapo_account_id := account_as_u64 (apo_account_id inner);
     wapo_policy_group_id := policy_group_value (apo_policy_group_id inner);
     wapo_halt_reason := wpo_halt_reason pnl;
     wapo_amount := wpo_amount pnl |}.

(** ** Import *)

Definition import_outcome_amount (value : OpenPitOutcomeAmount) : result string OutcomeAmount :=
  delta ← to_param (woa_delta value);
  absolute ← to_param (woa_absolute value);
  Ok (mkOutcomeAmount delta absolute).

Definition import_outcome_amount_optional (value : Optional OpenPitOutcomeAmount) : result string (option OutcomeAmount) :=
  import_optional import_outcome_amount value.

Definition import_pnl_outcome_amount (value : OpenPitPnlOutcomeAmount) : result string PnlOutcomeAmount :=
  delta ← to_param (wpoa_delta value);
  absolute ← to_param (wpoa_absolute value);
  Ok (mkPnlOutcomeAmount delta absolute).

Definition import_pnl_outcome (value : OpenPitPnlOutcome) : result string PnlOutcome :=
  let raw := wpo_halt_reason value in
  let is_set := opt_is_set (wpo_amount value) in
  if (raw =? OPENPIT_PNL_HALT_REASON_NONE) && is_set
  then amount ← import_pnl_outcome_amount (opt_value (wpo_amount value)); Ok (Ok amount)
  else if raw =? OPENPIT_PNL_HALT_REASON_NONE then Err "pnl outcome amount is required"
  else if is_set then Err ("halted pnl outcome with reason " +:+ int_fmt raw +:+ " must not contain an amount")
  else reason ← import_pnl_halt_reason raw; Ok (Err reason).

Definition import_pnl_state (value : OpenPitPnlState) : result string PnlState :=
  let none := wps_halt_reason value =? OPENPIT_PNL_HALT_REASON_NONE in
  if wps_kind value =? OPENPIT_PNL_STATE_VALUE then
    if none then pnl ← to_param (wps_value value); Ok (PnlValue pnl)
    else Err "value PnL state must use OPENPIT_PNL_HALT_REASON_NONE"
  else if wps_kind value =? OPENPIT_PNL_STATE_HALTED then
    if none then Err "halted PnL state requires a halt reason"
    else reason ← import_pnl_halt_reason (wps_halt_reason value); Ok (PnlHalted reason)
  else Err ("invalid PnL state kind " +:+ int_fmt (wps_kind value)).

Definition import_pnl_outcome_optional (value : Optional OpenPitPnlOutcome) : result string (option PnlOutcome) :=
  import_optional import_pnl_outcome value.

Definition to_outcome (self : OpenPitAccountPnlOutcome) : result string AccountPnlOutcome :=
  outcome ← import_pnl_outcome (mkWirePnlOutcome (wapo_halt_reason self) (wapo_amount self));
  Ok {| apo_result := outcome;
        apo_account_id := account_from_u64 (wapo_account_id self);
        apo_policy_group_id := mkPolicyGroupId (wapo_policy_group_id self) |}.

Definition to_entry (self : OpenPitAccountOutcomeEntry) : result string AccountOutcomeEntry :=
  asset_code ← match sv_ptr (woe_asset self) with
               | None => Ok []
               | Some bytes =>
                   map_err (fun _ => "outcome entry asset is not valid string")
                     (from_utf8 (from_raw_parts bytes (sv_len (woe_asset self))))
               end;
  asset ← map_err AssetError_fmt (asset_new asset_code);
  balance ← import_outcome_amount_optional (woe_balance self);
  held ← import_outcome_amount_optional (woe_held self);
  incoming ← import_outcome_amount_optional (woe_incoming self);
  realized_pnl ← import_pnl_outcome_optional (woe_realized_pnl self);
  average_entry_price ← import_optional to_param (woe_average_entry_price self);
  Ok {| aoe_asset := asset; aoe_balance := balance; aoe_held := held; aoe_incoming := incoming;
        aoe_realized_pnl := realized_pnl; aoe_average_entry_price := average_entry_price |}.

(** ** Lists *)

Definition openpit_account_adjustment_outcome_list_len (items : option (list AccountAdjustmentOutcome)) := list_len items.
Definition openpit_account_adjustment_outcome_list_get (items : option (list AccountAdjustmentOutcome)) index out_null :=
  list_get adjustment_from_outcome items index out_null.

Definition openpit_account_pnl_outcome_list_len (items : option (list AccountPnlOutcome)) := list_len items.
Definition openpit_account_pnl_outcome_list_get (items : option (list AccountPnlOutcome)) index out_null :=
  list_get account_pnl_from_outcome items index out_null.

(** ** Collectors *)

(** What a push leaves: the value it returned, the collector, the error written. *)
Record Push (C : Type) : Type := mkPush { push_ok : bool; push_target : option C; push_error : option string }.
#[global] Arguments mkPush {C}.
#[global] Arguments push_ok {C}.
#[global] Arguments push_target {C}.
#[global] Arguments push_error {C}.

(** A push checks its collector, then its payload, and appends to a collector of
    which it is the only user. *)
Definition push_onto {C A} (p : Places) (target : option C) (null : string) (payload : result string A)
    (append : A -> C -> C) : Push C :=
  match target with
  | None => mkPush false None (write_error p null)
  | Some c =>
      match payload with
      | Ok parsed => mkPush true (Some (append parsed c)) None
      | Err message => mkPush false target (write_error p message)
      end
  end.

Record OpenPitPretradePreTradeResult : Type := mkPreTradeResult {
  ptr_lock_prices : list Price;
  ptr_account_adjustments : list AccountOutcomeEntry
}.

Definition openpit_pretrade_pre_trade_result_push_lock_price (p : Places)
    (result : option OpenPitPretradePreTradeResult) (price : OpenPitParamPrice) :=
  push_onto p result "pre-trade result pointer is null" (to_param price)
    (fun parsed r => mkPreTradeResult (ptr_lock_prices r ++ [parsed]) (ptr_account_adjustments r)).

Definition openpit_pretrade_pre_trade_result_push_account_adjustment (p : Places)
    (result : option OpenPitPretradePreTradeResult) (entry : OpenPitAccountOutcomeEntry) :=
  push_onto p result "pre-trade result pointer is null" (to_entry entry)
    (fun parsed r => mkPreTradeResult (ptr_lock_prices r) (ptr_account_adjustments r ++ [parsed])).

Definition openpit_pretrade_post_trade_adjustment_list_push (p : Places)
    (items : option (list AccountAdjustmentOutcome)) (policy_group_id : Z) (entry : OpenPitAccountOutcomeEntry) :=
  push_onto p items "post-trade adjustment list pointer is null" (to_entry entry)
    (fun parsed items => items ++ [mkAccountAdjustmentOutcome (mkPolicyGroupId policy_group_id) parsed]).

Definition openpit_pretrade_post_trade_account_pnl_list_push (p : Places)
    (items : option (list AccountPnlOutcome)) (outcome : OpenPitAccountPnlOutcome) :=
  push_onto p items "post-trade account PnL list pointer is null" (to_outcome outcome)
    (fun parsed items => items ++ [parsed]).

Record OpenPitPretradeAccountAdjustmentResult : Type := mkAdjustmentResult {
  par_account_outcomes : list AccountOutcomeEntry;
  par_account_blocks : list AccountBlock
}.

Definition OpenPitPretradeAccountAdjustmentResult_default := mkAdjustmentResult [] [].

Definition openpit_pretrade_account_adjustment_result_push_account_outcome (p : Places)
    (result : option OpenPitPretradeAccountAdjustmentResult) (entry : OpenPitAccountOutcomeEntry) :=
  push_onto p result "account-adjustment result pointer is null" (to_entry entry)
    (fun parsed r => mkAdjustmentResult (par_account_outcomes r ++ [parsed]) (par_account_blocks r)).

Definition openpit_pretrade_account_adjustment_result_push_account_block
    (result : option OpenPitPretradeAccountAdjustmentResult) (block : OpenPitPretradeAccountBlock) :
    option OpenPitPretradeAccountAdjustmentResult :=
  (fun r => mkAdjustmentResult (par_account_outcomes r) (par_account_blocks r ++ [to_block block])) <$> result.
End Outcomes.
