(* ===== verification/FfiLock.v ===== *)
(** * FfiLock: pre-trade locks on the wire

    src/crates/openpit-ffi/src/pre_trade_lock.rs: the handle operations, the snapshots
    and the raw binary layout.  The text and self-describing codecs are third-party
    ([LockCodecs]), as is the 16-byte form of a decimal ([DecimalRaw]).  What
    [encode_raw] writes of a lock, [decode_raw] reads as the same lock. *)
From S2P Require Import Prelude.
From S2P Require Import Decimal.
From S2P Require Import Param.
From S2P Require Import Identifiers.
From S2P Require Import Utf8.
From S2P Require Import Lock.
From S2P Require Import Ffi.
From S2P Require Import FfiParam.
From S2P Require Import FfiOutcomes.
Open Scope Z_scope.

(** [Decimal::serialize] and [Decimal::deserialize]. *)
Class DecimalRaw {D : DecimalOps} : Type := {
  dec_serialize : Dec -> list Z;
  dec_deserialize : list Z -> Dec
}.

Class DecimalRawLaws (D : DecimalOps) (R : DecimalRaw) : Prop := {
  dr_length : forall d, length (dec_serialize d) = 16%nat;
  dr_roundtrip : forall d, dec_deserialize (dec_serialize d) = d
}.

(** The codecs of the MessagePack, CBOR and JSON crates over a lock; an error is its
    text. *)
Class LockCodecs {D : DecimalOps} : Type := {
  rmp_to_vec : PreTradeLock -> result string (list Z);
  rmp_from_slice : list Z -> result string PreTradeLock;
  cbor_into_writer : PreTradeLock -> result string (list Z);
  cbor_from_reader : list Z -> result string PreTradeLock;
  json_to_string : PreTradeLock -> result string string;
  json_from_str : ustr -> result string PreTradeLock
}.

Section FfiLock.
Context {D : DecimalOps} {DW : DecimalWire} {R : DecimalRaw} {C : LockCodecs}.
Implicit Types (p : Places) (lock : PreTradeLock).

(** A handle to a lock, or null. *)
Definition LockHandle : Type := option PreTradeLock.

Inductive OpenPitPretradePreTradeLockPricesStatus : Set := LPS_Error | LPS_Empty | LPS_One | LPS_List.

Record OpenPitPretradePreTradeLockEntry : Type := mkLockEntry {
  ole_policy_group_id : Z;
  ole_price : OpenPitParamPrice
}.

Definition export_price (price : Price) : OpenPitParamPrice := mkParam (from_decimal (sg_to_decimal price)).

Fixpoint parse_all (entries : list OpenPitPretradePreTradeLockEntry) : result string (list (PolicyGroupId * Price)) :=
  match entries with
  | [] => Ok []
  | entry :: entries =>
      parsed ← to_param (ole_price entry);
      rest ← parse_all entries;
      Ok ((mkPolicyGroupId (ole_policy_group_id entry), parsed) :: rest)
  end.

(** The array may be null only when it is empty. *)
Definition parse_entries (entries_ptr : option (list OpenPitPretradePreTradeLockEntry)) (entries_len : nat) :
    result string (list (PolicyGroupId * Price)) :=
  match entries_ptr with
  | None => if (entries_len =? 0)%nat then Ok [] else Err "entries pointer must be non-null"
  | Some entries => parse_all (take entries_len entries)
  end.

(** ** Handles *)

Definition openpit_create_pretrade_pre_trade_lock : LockHandle := Some lock_new.
Definition openpit_pretrade_pre_trade_lock_clone (handle : LockHandle) : LockHandle := handle.
Definition openpit_pretrade_pre_trade_lock_len (handle : LockHandle) : option nat := lock_len <$> handle.
Definition openpit_pretrade_pre_trade_lock_is_empty (handle : LockHandle) : option bool := lock_is_empty <$> handle.

Definition openpit_pretrade_pre_trade_lock_push p (handle : LockHandle) (policy_group_id : Z) (price : OpenPitParamPrice) :
    Push PreTradeLock :=
  push_onto p handle "lock pointer must be non-null" (to_param price)
    (fun parsed lock => lock_push lock (mkPolicyGroupId policy_group_id) parsed).

Definition openpit_pretrade_pre_trade_lock_push_many p (handle : LockHandle)
    (entries_ptr : option (list OpenPitPretradePreTradeLockEntry)) (entries_len : nat) : Push PreTradeLock :=
  push_onto p handle "lock pointer must be non-null" (parse_entries entries_ptr entries_len)
    (fun parsed lock => lock_append lock parsed).

(** A call that returns a new handle: null with an error on failure. *)
Definition new_handle {A} p (r : result string A) : option A * option string :=
  match r with Ok x => (Some x, None) | Err e => (None, write_error p e) end.

Definition openpit_create_pretrade_pre_trade_lock_from_entries p
    (entries_ptr : option (list OpenPitPretradePreTradeLockEntry)) (entries_len : nat) : LockHandle * option string :=
  new_handle p (lock_from_entries <$> parse_entries entries_ptr entries_len).

(** The two handles are distinct: one is borrowed mutably. *)
Definition openpit_pretrade_pre_trade_lock_merge p (dst src : LockHandle) : Push PreTradeLock :=
  push_onto p dst "destination lock pointer must be non-null"
    (ok_or src "source lock pointer must be non-null") (fun source lock => lock_merge lock source).

(** ** Reading *)

(** What [prices_of] returned and wrote: a price, or a list of its own. *)
Record PricesOf : Type := mkPricesOf {
  po_status : OpenPitPretradePreTradeLockPricesStatus;
  po_price : option OpenPitParamPrice;
  po_prices : option (list OpenPitParamPrice);
  po_error : option string
}.

Definition openpit_pretrade_pre_trade_lock_prices_of (error_null out_price_null out_prices_null : bool)
    (handle : LockHandle) (policy_group_id : Z) : PricesOf :=
  let error msg := mkPricesOf LPS_Error None None (write_error (mkPlaces false error_null) msg) in
  match handle with
  | None => error "lock pointer must be non-null"
  | Some lock =>
      if out_price_null then error "out_price pointer must be non-null"
      else if out_prices_null then error "out_prices pointer must be non-null"
      else match prices_of lock (mkPolicyGroupId policy_group_id) with
           | [] => mkPricesOf LPS_Empty None None None
           | [first] => mkPricesOf LPS_One (Some (export_price first)) None None
           | first :: prices => mkPricesOf LPS_List None (Some (export_price first :: (export_price <$> prices))) None
           end
  end.

(** A view of a list: null when there is nothing in it. *)
Definition from_slice {A} (values : list A) : option (list A) * nat :=
  if is_nil values then (None, 0%nat) else (Some values, length values).

Definition openpit_pretrade_pre_trade_lock_prices_view (items : option (list OpenPitParamPrice)) := from_slice <$> items.

(** The loop over an [Entries] iterator; one round more than it has items. *)
Fixpoint drain (fuel : nat) (it : Entries) : list (PolicyGroupId * Price) :=
  match fuel with
  | O => []
  | S fuel => match entries_next it with None => [] | Some (g, price, it) => (g, price) :: drain fuel it end
  end.

Definition all_entries lock : list (PolicyGroupId * Price) :=
  let it := lock_entries lock in drain (S (entries_size_hint it)) it.

Definition openpit_pretrade_pre_trade_lock_entries (handle : LockHandle) : option (list OpenPitPretradePreTradeLockEntry) :=
  (fun lock => (fun e => mkLockEntry (policy_group_value e.1) (export_price e.2)) <$> all_entries lock) <$> handle.

Definition openpit_pretrade_pre_trade_lock_entries_view (items : option (list OpenPitPretradePreTradeLockEntry)) :=
  from_slice <$> items.

(** ** Third-party codecs *)

Definition encoded {B} p (what : string) (encode : PreTradeLock -> result string B) (handle : LockHandle) : option B * option string :=
  new_handle p
    (lock ← ok_or handle "lock pointer must be non-null";
     map_err (fun error => "lock " +:+ what +:+ " encode failed: " +:+ error) (encode lock)).

Definition decoded p (what : string) (decode : list Z -> result string PreTradeLock) (data_ptr : option (list Z)) (data_len : Z) :
    LockHandle * option string :=
  new_handle p
    (bytes ← ok_or data_ptr (what +:+ " input pointer must be non-null");
     map_err (fun error => "lock " +:+ what +:+ " decode failed: " +:+ error) (decode (from_raw_parts bytes data_len))).

Definition openpit_pretrade_pre_trade_lock_to_msgpack p := encoded p "msgpack" rmp_to_vec.
Definition openpit_create_pretrade_pre_trade_lock_from_msgpack p := decoded p "msgpack" rmp_from_slice.
Definition openpit_pretrade_pre_trade_lock_to_cbor p := encoded p "cbor" cbor_into_writer.
Definition openpit_create_pretrade_pre_trade_lock_from_cbor p := decoded p "cbor" cbor_from_reader.
Definition openpit_pretrade_pre_trade_lock_to_json p := encoded p "json" json_to_string.

Definition openpit_create_pretrade_pre_trade_lock_from_json p (text_ptr : option (list Z)) (text_len : Z) :
    LockHandle * option string :=
  new_handle p
    (bytes ← ok_or text_ptr "json input pointer must be non-null";
     text ← map_err (fun error => "json input is not valid UTF-8: " +:+ Utf8Error_fmt error)
              (from_utf8 (from_raw_parts bytes text_len));
     map_err (fun error => "lock json decode failed: " +:+ error) (json_from_str text)).

(** ** The raw layout *)

Definition SERIALIZED_DECIMAL_SIZE : nat := 16.

(** [to_le_bytes] and [from_le_bytes] on [n] bytes. *)
Fixpoint to_le_bytes (n : nat) (value : Z) : list Z :=
  match n with O => [] | S n => value mod 256 :: to_le_bytes n (value / 256) end.
Fixpoint from_le_bytes (bytes : list Z) : Z :=
  match bytes with [] => 0 | b :: bytes => b + 256 * from_le_bytes bytes end.

(** [len() as u32]. *)
Definition len_u32 {A} (l : list A) : Z := Z.of_nat (length l) mod 2 ^ 32.

(** The groups in order of their first entry. *)
Fixpoint add_to_group (groups : list (PolicyGroupId * list Price)) (group_id : PolicyGroupId) (price : Price) :
    list (PolicyGroupId * list Price) :=
  match groups with
  | [] => [(group_id, [price])]
  | (g, prices) :: groups =>
      if decide (g = group_id) then (g, prices ++ [price]) :: groups
      else (g, prices) :: add_to_group groups group_id price
  end.

Definition collect_groups (entries : list (PolicyGroupId * Price)) : list (PolicyGroupId * list Price) :=
  foldl (fun groups e => if decide (e.1 = DEFAULT_POLICY_GROUP_ID) then groups else add_to_group groups e.1 e.2) [] entries.

Definition encode_prices (prices : list Price) : list Z :=
  prices ≫= (fun price => dec_serialize (sg_to_decimal price)).

Definition encode_raw lock : list Z :=
  let default_prices := prices_of lock DEFAULT_POLICY_GROUP_ID in
  let groups := collect_groups (all_entries lock) in
  to_le_bytes 4 (len_u32 default_prices) ++ encode_prices default_prices ++
  to_le_bytes 4 (len_u32 groups) ++
  (groups ≫= (fun g => to_le_bytes 2 (policy_group_value g.1) ++ to_le_bytes 4 (len_u32 g.2) ++ encode_prices g.2)).

Record RawCursor : Type := mkRawCursor { rc_bytes : list Z; rc_pos : nat }.

Definition cursor_new (bytes : list Z) : RawCursor := mkRawCursor bytes 0.

Definition cursor_take (self : RawCursor) (len : nat) : result string (list Z * RawCursor) :=
  if (length (rc_bytes self) <? rc_pos self + len)%nat
  then Err ("raw lock decode: unexpected end of input (need " +:+ nat_fmt len +:+ " bytes at offset " +:+
            nat_fmt (rc_pos self) +:+ ", total " +:+ nat_fmt (length (rc_bytes self)) +:+ ")")
  else Ok (take len (drop (rc_pos self) (rc_bytes self)), mkRawCursor (rc_bytes self) (rc_pos self + len)).

Definition read_u16 (self : RawCursor) : result string (Z * RawCursor) :=
  '(slice, self) ← cursor_take self 2; Ok (from_le_bytes slice, self).
Definition read_u32 (self : RawCursor) : result string (Z * RawCursor) :=
  '(slice, self) ← cursor_take self 4; Ok (from_le_bytes slice, self).
Definition read_price (self : RawCursor) : result string (Price * RawCursor) :=
  '(slice, self) ← cursor_take self SERIALIZED_DECIMAL_SIZE; Ok (sg_new (dec_deserialize slice), self).

Definition cursor_is_empty (self : RawCursor) : bool := (rc_pos self =? length (rc_bytes self))%nat.
Definition cursor_remaining (self : RawCursor) : nat := (length (rc_bytes self) - rc_pos self)%nat.

(** [for _ in 0..count { .. }]. *)
Fixpoint times {S} (count : nat) (body : S -> result string S) (s : S) : result string S :=
  match count with O => Ok s | S count => s ← body s; times count body s end.

Definition read_into (group_id : PolicyGroupId) (s : PreTradeLock * RawCursor) : result string (PreTradeLock * RawCursor) :=
  '(price, cursor) ← read_price s.2; Ok (lock_push s.1 group_id price, cursor).

Definition read_group (s : PreTradeLock * RawCursor) : result string (PreTradeLock * RawCursor) :=
  '(group_id, cursor) ← read_u16 s.2;
  '(prices_count, cursor) ← read_u32 cursor;
  times (Z.to_nat prices_count) (read_into (mkPolicyGroupId group_id)) (s.1, cursor).

Definition decode_raw (bytes : list Z) : result string PreTradeLock :=
  let cursor := cursor_new bytes in
  '(default_count, cursor) ← read_u32 cursor;
  '(lock, cursor) ← times (Z.to_nat default_count) (read_into DEFAULT_POLICY_GROUP_ID) (lock_new, cursor);
  '(group_count, cursor) ← read_u32 cursor;
  '(lock, cursor) ← times (Z.to_nat group_count) read_group (lock, cursor);
  if cursor_is_empty cursor then Ok lock
  else Err ("raw lock decode: " +:+ nat_fmt (cursor_remaining cursor) +:+ " trailing bytes").

Definition openpit_pretrade_pre_trade_lock_to_raw (handle : LockHandle) : option (list Z) := encode_raw <$> handle.

Definition openpit_create_pretrade_pre_trade_lock_from_raw p (data_ptr : option (list Z)) (data_len : Z) :
    LockHandle * option string :=
  new_handle p
    (bytes ← ok_or data_ptr "raw input pointer must be non-null";
     decode_raw (from_raw_parts bytes data_len)).
End FfiLock.

(** ** Little-endian words *)

Lemma le_bytes_length n z : length (to_le_bytes n z) = n.
Proof. revert z. induction n as [|n IH]; intros z; cbn; [done|]. by rewrite IH. Qed.

Lemma le_bytes_back n z : 0 <= z < 2 ^ (8 * Z.of_nat n) -> from_le_bytes (to_le_bytes n z) = z.
Proof.
  revert z. induction n as [|n IH]; intros z Hz; [cbn in *; lia|].
  rewrite Nat2Z.inj_succ, Z.mul_succ_r, Z.pow_add_r in Hz by lia. change (2 ^ 8) with 256 in Hz.
  cbn [to_le_bytes from_le_bytes]. rewrite IH.
  - pose proof (Z.div_mod z 256). lia.
  - split; [apply Z.div_pos; lia|apply Z.div_lt_upper_bound; lia].
Qed.

(** ** The raw layout reads back

    What [encode_raw] writes of a lock, [decode_raw] reads as the same lock; nothing
    shorter or longer is accepted for it. *)

Section Entries.
Context {D : DecimalOps}.

Lemma drain_all fuel (it : Entries) : (length (remaining it) < fuel)%nat -> drain fuel it = remaining it.
Proof.
  revert it. induction fuel as [|fuel IH]; intros it Hf; [lia|]. cbn. pose proof (entries_next_spec it) as Hn.
  destruct (entries_next it) as [[[g p] it']|]; [|done]. rewrite Hn in *. f_equal. apply IH. cbn in Hf. lia.
Qed.

Lemma all_entries_list lock : all_entries lock = entries_list lock.
Proof. unfold all_entries. apply drain_all. rewrite size_hint_remaining. cbn. lia. Qed.

Lemma push_whole_section ds os s : section_wf s -> section_group_id s ∉ (section_group_id <$> os) ->
  foldl (fun l p => lock_push l (section_group_id s) p) (mkLock ds os) (section_prices s) = mkLock ds (os ++ [s]).
Proof.
  destruct s as [g ps]. intros (Hd & Hp & _) Hin. cbn in *. destruct ps as [|p ps]; [done|]. cbn.
  unfold lock_push at 2. rewrite decide_False by done. cbn [default_prices other_sections].
  rewrite extend_absent by done. by rewrite push_section_all.
Qed.

(** *** Groups *)

Definition as_pair (s : GroupSection) : PolicyGroupId * list Price := (section_group_id s, section_prices s).

Lemma add_to_group_section ss g p : add_to_group (as_pair <$> ss) g p = as_pair <$> extend_section ss g [p].
Proof. induction ss as [|s ss IH]; cbn; [done|]. case_decide as E; cbn; [by rewrite <- E|by rewrite IH]. Qed.

(** Collecting the entries by group is what pushing them does to the sections. *)
Lemma collect_from ss es :
  foldl (fun groups e => if decide (e.1 = DEFAULT_POLICY_GROUP_ID) then groups else add_to_group groups e.1 e.2)
    (as_pair <$> ss) es =
  as_pair <$> other_sections (lock_append (mkLock [] ss) es).
Proof.
  enough (H : forall ds, foldl (fun groups e => if decide (e.1 = DEFAULT_POLICY_GROUP_ID) then groups else add_to_group groups e.1 e.2)
    (as_pair <$> ss) es = as_pair <$> other_sections (lock_append (mkLock ds ss) es)) by apply H.
  revert ss. induction es as [|[g p] es IH]; intros ss ds; [done|]. cbn. unfold lock_push at 2. cbn. case_decide; [apply IH|].
  rewrite add_to_group_section. apply IH.
Qed.

(** A lock is what its entries build. *)
Lemma append_sections ds os ss : Forall section_wf ss -> NoDup (section_group_id <$> (os ++ ss)) ->
  lock_append (mkLock ds os) (ss ≫= section_entries) = mkLock ds (os ++ ss).
Proof.
  intros Hss. revert os. induction Hss as [|s ss Hs Hss IH]; intros os Hnd; [by rewrite app_nil_r|].
  cbn. unfold lock_append in *. rewrite foldl_app.
  assert (Hp : forall l ps, foldl (fun l e => lock_push l e.1 e.2) l ((fun p => (section_group_id s, p)) <$> ps) =
                            foldl (fun l p => lock_push l (section_group_id s) p) l ps).
  { intros l ps. revert l. induction ps as [|p ps IHp]; intros l; cbn; [done|]. apply IHp. }
  change (section_entries s) with ((fun p => (section_group_id s, p)) <$> section_prices s). rewrite Hp, push_whole_section; [|done|].
  - rewrite IH by by rewrite <- app_assoc. by rewrite <- app_assoc.
  - rewrite fmap_app, fmap_cons in Hnd. apply NoDup_app in Hnd. set_solver.
Qed.

Lemma append_entries lock : lock_wf lock -> lock_append lock_new (entries_list lock) = lock.
Proof.
  destruct lock as [ds os]. intros [Hw Hn]. unfold entries_list, lock_append. cbn in *. rewrite foldl_app.
  assert (Hd : forall l, foldl (fun l e => lock_push l e.1 e.2) l ((fun p => (DEFAULT_POLICY_GROUP_ID, p)) <$> ds) =
                         foldl (fun l p => lock_push l DEFAULT_POLICY_GROUP_ID p) l ds).
  { clear. induction ds as [|p ds IH]; intros l; cbn; [done|]. apply IH. }
  rewrite Hd. unfold lock_new. rewrite push_default_all. by apply append_sections.
Qed.

Lemma collect_groups_sections lock : lock_wf lock -> collect_groups (all_entries lock) = as_pair <$> other_sections lock.
Proof.
  intros Hw. rewrite all_entries_list. unfold collect_groups. rewrite (collect_from []).
  change (mkLock [] []) with lock_new. by rewrite (append_entries lock Hw).
Qed.
End Entries.

(** *** The cursor *)

(** What a cursor inside its bytes has not read yet. *)
Definition unread (c : RawCursor) (rest : list Z) : Prop :=
  (rc_pos c <= length (rc_bytes c))%nat /\ drop (rc_pos c) (rc_bytes c) = rest.

Lemma take_unread c l rest : l <> [] -> unread c (l ++ rest) ->
  exists c', cursor_take c (length l) = Ok (l, c') /\ unread c' rest.
Proof.
  destruct c as [bytes pos]. unfold unread, cursor_take. cbn [rc_bytes rc_pos]. intros Hl [_ H].
  assert (Hlen : (pos + length l <= length bytes)%nat).
  { apply (f_equal length) in H. rewrite length_drop, length_app in H. destruct l; [done|]. cbn in *. lia. }
  destruct (Nat.ltb_spec (length bytes) (pos + length l)); [lia|].
  eexists. split; [by rewrite H, take_app_length|]. cbn [rc_bytes rc_pos]. split; [done|]. by rewrite <- drop_drop, H, drop_app_length.
Qed.

Lemma read_word_back n c z rest : n <> 0%nat -> 0 <= z < 2 ^ (8 * Z.of_nat n) -> unread c (to_le_bytes n z ++ rest) ->
  exists c', cursor_take c n = Ok (to_le_bytes n z, c') /\ from_le_bytes (to_le_bytes n z) = z /\ unread c' rest.
Proof.
  intros Hn Hz H. destruct (take_unread c (to_le_bytes n z) rest) as (c' & Ht & Hr); [by destruct n|done|].
  rewrite le_bytes_length in Ht. exists c'. by rewrite le_bytes_back.
Qed.

Lemma read_u16_back c z rest : 0 <= z < 2 ^ 16 -> unread c (to_le_bytes 2 z ++ rest) ->
  exists c', read_u16 c = Ok (z, c') /\ unread c' rest.
Proof.
  intros Hz H. destruct (read_word_back 2 c z rest) as (c' & Ht & Hv & Hr); [done..|].
  exists c'. unfold read_u16. rewrite Ht. cbn [mbind result_bind]. by rewrite Hv.
Qed.

Lemma read_u32_back c z rest : 0 <= z < 2 ^ 32 -> unread c (to_le_bytes 4 z ++ rest) ->
  exists c', read_u32 c = Ok (z, c') /\ unread c' rest.
Proof.
  intros Hz H. destruct (read_word_back 4 c z rest) as (c' & Ht & Hv & Hr); [done..|].
  exists c'. unfold read_u32. rewrite Ht. cbn [mbind result_bind]. by rewrite Hv.
Qed.

(** *** Reading back *)

Section Raw.
Context {D : DecimalOps} {DW : DecimalWire} {R : DecimalRaw} {RL : DecimalRawLaws D R}.

Lemma read_price_back c (p : Price) rest : unread c (dec_serialize (sg_to_decimal p) ++ rest) ->
  exists c', read_price c = Ok (p, c') /\ unread c' rest.
Proof.
  intros H. pose proof (dr_length (sg_to_decimal p)) as Hl.
  destruct (take_unread c (dec_serialize (sg_to_decimal p)) rest) as (c' & Ht & Hr); [by intros E; rewrite E in Hl|done|].
  exists c'. unfold read_price, SERIALIZED_DECIMAL_SIZE. rewrite <- Hl, Ht. cbn. rewrite dr_roundtrip. by destruct p.
Qed.

(** The counted loops over what was written one item after the other. *)
Lemma times_read {A S} (write : A -> list Z) (body : S * RawCursor -> result string (S * RawCursor)) (step : S -> A -> S) (ok : S -> A -> Prop) :
  (forall s a c rest, ok s a -> unread c (write a ++ rest) ->
     exists c', body (s, c) = Ok (step s a, c') /\ unread c' rest) ->
  forall l s c rest,
    (forall k a, l !! k = Some a -> ok (foldl step s (take k l)) a) ->
    unread c ((l ≫= write) ++ rest) ->
    exists c', times (length l) body (s, c) = Ok (foldl step s l, c') /\ unread c' rest.
Proof.
  intros Hbody. induction l as [|a l IH]; intros s c rest Hok Hc; [by exists c|]. cbn in *. rewrite <- app_assoc in Hc.
  destruct (Hbody s a c _ (Hok 0%nat a eq_refl) Hc) as (c1 & -> & Hc1). cbn.
  apply (IH _ c1 rest); [|done]. intros k b Hk. apply (Hok (Datatypes.S k) b Hk).
Qed.

Lemma read_prices_back g lock ps c rest : unread c (encode_prices ps ++ rest) ->
  exists c', times (length ps) (read_into g) (lock, c) = Ok (foldl (fun l p => lock_push l g p) lock ps, c') /\ unread c' rest.
Proof.
  apply (times_read (fun p : Price => dec_serialize (sg_to_decimal p)) _ (fun l p => lock_push l g p) (fun _ _ => True)); [|done].
  intros s p c1 rest1 _ Hc1. unfold read_into. cbn. destruct (read_price_back c1 p rest1 Hc1) as (c' & -> & Hr). by exists c'.
Qed.

Lemma len_u32_small {A} (l : list A) : Z.of_nat (length l) < 2 ^ 32 -> len_u32 l = Z.of_nat (length l).
Proof. intros H. unfold len_u32. rewrite Z.mod_small; lia. Qed.

(** A count is written in 32 bits. *)
Definition counts_fit (lock : PreTradeLock) : Prop :=
  Z.of_nat (length (default_prices lock)) < 2 ^ 32 /\ Z.of_nat (length (other_sections lock)) < 2 ^ 32 /\
  Forall (fun s => Z.of_nat (length (section_prices s)) < 2 ^ 32) (other_sections lock).

Definition write_section (s : GroupSection) : list Z :=
  to_le_bytes 2 (policy_group_value (section_group_id s)) ++ to_le_bytes 4 (len_u32 (section_prices s)) ++
  encode_prices (section_prices s).

Lemma read_group_back ds os s c rest : section_wf s -> section_group_id s ∉ (section_group_id <$> os) ->
  Z.of_nat (length (section_prices s)) < 2 ^ 32 -> unread c (write_section s ++ rest) ->
  exists c', read_group (mkLock ds os, c) = Ok (mkLock ds (os ++ [s]), c') /\ unread c' rest.
Proof.
  intros Hs Hin Hl Hc. pose proof (proj2 (proj2 Hs)) as Hg. unfold U16_MAX in Hg. unfold write_section in Hc. rewrite <- !app_assoc in Hc.
  unfold read_group. cbn [snd fst].
  destruct (read_u16_back c (policy_group_value (section_group_id s)) _ ltac:(lia) Hc) as (c1 & -> & Hc1). cbn [mbind result_bind].
  rewrite len_u32_small in Hc1 by done.
  destruct (read_u32_back c1 (Z.of_nat (length (section_prices s))) _ ltac:(lia) Hc1) as (c2 & -> & Hc2). cbn [mbind result_bind].
  rewrite Nat2Z.id. destruct s as [[g] ps]. cbn in *.
  destruct (read_prices_back (mkPolicyGroupId g) (mkLock ds os) ps c2 rest Hc2) as (c3 & -> & Hc3).
  exists c3. split; [|done].
  pose proof (push_whole_section ds os (mkGroupSection (mkPolicyGroupId g) ps) Hs Hin) as E. cbn in E. by rewrite E.
Qed.

Lemma read_groups_back ds ss c rest : Forall section_wf ss -> NoDup (section_group_id <$> ss) ->
  Forall (fun s => Z.of_nat (length (section_prices s)) < 2 ^ 32) ss -> unread c ((ss ≫= write_section) ++ rest) ->
  exists c', times (length ss) read_group (mkLock ds [], c) = Ok (mkLock ds ss, c') /\ unread c' rest.
Proof.
  enough (H : forall os, Forall section_wf ss -> NoDup (section_group_id <$> (os ++ ss)) ->
    Forall (fun s => Z.of_nat (length (section_prices s)) < 2 ^ 32) ss -> unread c ((ss ≫= write_section) ++ rest) ->
    exists c', times (length ss) read_group (mkLock ds os, c) = Ok (mkLock ds (os ++ ss), c') /\ unread c' rest) by apply (H []).
  intros os Hw. revert os c. induction Hw as [|s ss Hs Hss IH]; intros os c Hn Hl Hc; [exists c; by rewrite app_nil_r|].
  apply Forall_cons in Hl as [Hl Hls]. cbn in Hc. rewrite <- app_assoc in Hc.
  destruct (read_group_back ds os s c ((ss ≫= write_section) ++ rest) Hs) as (c1 & E & Hc1); [|done..|].
  { rewrite fmap_app, fmap_cons in Hn. apply NoDup_app in Hn. set_solver. }
  cbn [times length]. rewrite E. cbn [mbind result_bind].
  destruct (IH (os ++ [s]) c1) as (c2 & E2 & Hc2); [by rewrite <- app_assoc|done..|].
  exists c2. by rewrite E2, <- app_assoc.
Qed.

(** C32: A lock written in the raw layout is read back as it was, whatever its groups
    and however many prices 32-bit counts allow. *)
Theorem raw_roundtrip lock : lock_wf lock -> counts_fit lock -> decode_raw (encode_raw lock) = Ok lock.
Proof.
  intros Hw (Hd & Ho & Hs). unfold decode_raw, encode_raw. rewrite (collect_groups_sections lock Hw).
  destruct lock as [ds os], Hw as [Hw Hn]. cbn [default_prices other_sections] in *. unfold prices_of. rewrite decide_True by done.
  cbn [default_prices].
  replace ((as_pair <$> os) ≫= _) with (os ≫= write_section)
    by (clear; induction os as [|s os IH]; [done|]; rewrite fmap_cons, !bind_cons; by rewrite IH).
  set (bytes := _ ++ _). assert (Hc : unread (cursor_new bytes) bytes) by (split; [apply Nat.le_0_l|done]).
  unfold bytes in Hc at 2. rewrite (len_u32_small ds Hd), (len_u32_small (as_pair <$> os)), length_fmap in Hc by by rewrite length_fmap.
  destruct (read_u32_back (cursor_new bytes) (Z.of_nat (length ds)) _ ltac:(lia) Hc) as (c1 & -> & Hc1). cbn [mbind result_bind].
  rewrite Nat2Z.id. destruct (read_prices_back DEFAULT_POLICY_GROUP_ID lock_new ds c1 _ Hc1) as (c2 & -> & Hc2). cbn [mbind result_bind].
  unfold lock_new. rewrite push_default_all. cbn [app].
  destruct (read_u32_back c2 (Z.of_nat (length os)) _ ltac:(lia) Hc2) as (c3 & -> & Hc3). cbn [mbind result_bind].
  rewrite Nat2Z.id. rewrite <- (app_nil_r (os ≫= _)) in Hc3.
  destruct (read_groups_back ds os c3 [] Hw Hn Hs Hc3) as (c4 & -> & Hc4 & Hc5). cbn [mbind result_bind].
  unfold cursor_is_empty. apply (f_equal length) in Hc5. rewrite length_drop in Hc5. cbn in Hc5.
  by rewrite (proj2 (Nat.eqb_eq _ _)) by lia.
Qed.
End Raw.
