(* ===== verification/Engine.v ===== *)
(** * Engine: the pre-trade pipeline

    src/crates/openpit/src/core/engine.rs with pretrade/handle.rs,
    pretrade/request.rs, pretrade/reservation.rs, pretrade/drop_copy_operation.rs
    and pretrade/dry_run_report.rs.  Each entry point is one function from the
    engine state to its answer and the state it leaves; debug assertions are left
    out. *)
From S2P Require Import Prelude.
From S2P Require Import Decimal.
From S2P Require Import Param.
From S2P Require Import Identifiers.
From S2P Require Import Mutation.
From S2P Require Import Reject.
From S2P Require Import AccountControl.
From S2P Require Import Accounts.
From S2P Require Import Lock.
From S2P Require Import Policy.
Open Scope Z_scope.

Section Engine.
Context {D : DecimalOps} {W Order ExecutionReport AccountAdjustment : Type}.
Context `{HasAccountId Order} `{HasAccountId ExecutionReport}.

Abbreviation St := (EngineState W).
Abbreviation PRejects := (Rejects PolicyPreTradeResult).
Abbreviation Policy := (PreTradePolicy W Order ExecutionReport AccountAdjustment).
Implicit Types (st : St) (s : HookState W) (ctx : PreTradeContext) (policies : list Policy).

(** ** Mutation failures *)

(** [record_mutation_failure]; also [MutationFailureKillSwitch::arm] on the
    engine's closure. *)
Definition record_mutation_failure (account : option AccountId) (failure : MutationFailure) st : St :=
  match mf_scope failure with
  | Some scope => set_blocked st (handle_record_mutation_failure (es_blocked st) account scope)
  | None => st
  end.

(** ** Stages *)

Definition merge_reject_lists (lists : list PRejects) (len : nat) : option PRejects :=
  match len with
  | O => None
  | S _ => Some (rejects_new (foldl (fun out rejects => out ++ into_vec rejects) [] lists))
  end.

Definition append_pre_trade_policy_result (outcome : PolicyPreTradeResult) (group : PolicyGroupId)
    (lock : PreTradeLock) (outcomes : list AccountAdjustmentOutcome) :
    PreTradeLock * list AccountAdjustmentOutcome :=
  (lock_push_many lock group (ppr_lock_prices outcome),
   outcomes ++ (mkAccountAdjustmentOutcome group <$> ppr_account_adjustments outcome)).

(** The first account-scope reject, as the block it latches. *)
Definition reject_account_block (rejects : list Reject) : option AccountBlock :=
  (fun r => account_block_with_code r RC_AccountBlocked) <$>
    List.find (fun r => bool_decide (reject_scope r = RS_Account)) rejects.

Definition record_reject_block ctx (block : option AccountBlock) s : HookState W :=
  match is_drop_copy ctx, block with
  | true, Some block => record_drop_copy_account_block ctx block s
  | _, _ => s
  end.

Definition StartHook : Type :=
  Policy -> PreTradeContext -> Order -> HookState W -> result PRejects unit * HookState W.

(** The accumulators of the loop of [run_pre_trade_start_stage]. *)
Record StartAcc : Type := mkStartAcc {
  sa_rejects_collection : list PRejects;
  sa_total_rejects_len : nat;
  sa_account_block : option AccountBlock
}.

Definition start_step (hook : StartHook) ctx (order : Order) (acc : StartAcc * HookState W)
    (policy : Policy) : StartAcc * HookState W :=
  let '(a, s) := acc in
  match hook policy ctx order s with
  | (Ok _, s) => (a, s)
  | (Err rejects, s) =>
      let block := reject_account_block (into_vec rejects) in
      let s := record_reject_block ctx block s in
      (mkStartAcc (sa_rejects_collection a ++ [rejects])
         (sa_total_rejects_len a + length (into_vec rejects))
         (match sa_account_block a with Some b => Some b | None => block end), s)
  end.

Definition run_pre_trade_start_stage (hook : StartHook) policies ctx (order : Order) s :
    option PRejects * option AccountBlock * HookState W :=
  let '(a, s) := foldl (start_step hook ctx order) (mkStartAcc [] 0 None, s) policies in
  (merge_reject_lists (sa_rejects_collection a) (sa_total_rejects_len a), sa_account_block a, s).

Definition MainHook : Type :=
  Policy -> PreTradeContext -> Order -> Mutations St -> HookState W ->
  result PRejects (option PolicyPreTradeResult) * Mutations St * HookState W.

Record MainAcc : Type := mkMainAcc {
  ma_mutations : Mutations St;
  ma_rejects_collection : list PRejects;
  ma_total_rejects_len : nat;
  ma_outcomes : list AccountAdjustmentOutcome;
  ma_lock : PreTradeLock;
  ma_first_account_block : option AccountBlock
}.

Definition main_step (hook : MainHook) ctx (order : Order) (acc : MainAcc * HookState W)
    (policy : Policy) : MainAcc * HookState W :=
  let '(a, s) := acc in
  match hook policy ctx order (ma_mutations a) s with
  | (Ok None, mutations, s) =>
      (mkMainAcc mutations (ma_rejects_collection a) (ma_total_rejects_len a) (ma_outcomes a)
         (ma_lock a) (ma_first_account_block a), s)
  | (Ok (Some outcome), mutations, s) =>
      let '(lock, outcomes) := append_pre_trade_policy_result outcome (policy_group_id policy)
                                 (ma_lock a) (ma_outcomes a) in
      (mkMainAcc mutations (ma_rejects_collection a) (ma_total_rejects_len a) outcomes lock
         (ma_first_account_block a), s)
  | (Err rejects, mutations, s) =>
      let '(rejects, recorded_result) := into_parts rejects in
      let '(lock, outcomes) :=
        if is_drop_copy ctx && negb (existsb (fun r => is_evaluation_failure (reject_code r)) rejects)
        then match recorded_result with
             | Some outcome => append_pre_trade_policy_result outcome (policy_group_id policy)
                                 (ma_lock a) (ma_outcomes a)
             | None => (ma_lock a, ma_outcomes a)
             end
        else (ma_lock a, ma_outcomes a) in
      let block := reject_account_block rejects in
      let s := record_reject_block ctx block s in
      (mkMainAcc mutations (ma_rejects_collection a ++ [rejects_new rejects])
         (ma_total_rejects_len a + length rejects) outcomes lock
         (match ma_first_account_block a with Some b => Some b | None => block end), s)
  end.

(** The tuple the main stage returns. *)
Record MainResult : Type := mkMainResult {
  mr_rejects : option PRejects;
  mr_first_account_block : option AccountBlock;
  mr_mutations : Mutations St;
  mr_lock : PreTradeLock;
  mr_outcomes : list AccountAdjustmentOutcome
}.

Definition run_pre_trade_main_stage (hook : MainHook) policies ctx (order : Order) s :
    MainResult * HookState W :=
  let '(mutations, st) := mutations_new s.2 in
  let '(a, s) := foldl (main_step hook ctx order)
                   (mkMainAcc mutations [] 0 [] lock_new None, (s.1, st)) policies in
  (mkMainResult (merge_reject_lists (ma_rejects_collection a) (ma_total_rejects_len a))
     (ma_first_account_block a) (ma_mutations a) (ma_lock a) (ma_outcomes a), s).

(** ** Reservations *)

(** [ReservationHandleImpl]: the collected mutations and the account its kill
    switch was built for. *)
Record ReservationHandle : Type := mkReservationHandle {
  rh_mutations : Mutations St;
  rh_account : option AccountId
}.

Definition handle_commit (self : ReservationHandle) st : St :=
  let '(failure, st) := commit_all (rh_mutations self) st in
  record_mutation_failure (rh_account self) failure st.

Definition handle_rollback (self : ReservationHandle) st : St :=
  let '(result, st) := rollback_all (rh_mutations self) st in
  record_mutation_failure (rh_account self) (rr_failure result) st.

Record PreTradeReservation : Type := mkReservation {
  res_account_adjustments : list AccountAdjustmentOutcome;
  res_lock : PreTradeLock;
  res_inner : option ReservationHandle
}.

Definition reservation_taken (self : PreTradeReservation) : PreTradeReservation :=
  mkReservation (res_account_adjustments self) (res_lock self) None.

(** [None] is the panic of [expect]. *)
Definition reservation_commit (self : PreTradeReservation) st : option (PreTradeReservation * St) :=
  match res_inner self with
  | Some inner => Some (reservation_taken self, handle_commit inner st)
  | None => None
  end.

Definition reservation_rollback (self : PreTradeReservation) st : PreTradeReservation * St :=
  match res_inner self with
  | Some inner => (reservation_taken self, handle_rollback inner st)
  | None => (self, st)
  end.

Definition reservation_drop (self : PreTradeReservation) st : St :=
  match res_inner self with Some inner => handle_rollback inner st | None => st end.

Record DropCopyOperation : Type := mkDropCopyOperation {
  dco_account_block : option AccountBlock;
  dco_lock : PreTradeLock;
  dco_account_adjustments : list AccountAdjustmentOutcome;
  dco_inner : option ReservationHandle;
  dco_account_blocked : bool
}.

Definition operation_taken (self : DropCopyOperation) : DropCopyOperation :=
  mkDropCopyOperation (dco_account_block self) (dco_lock self) (dco_account_adjustments self) None
    (dco_account_blocked self).

Definition operation_commit (self : DropCopyOperation) st : option (DropCopyOperation * St) :=
  match dco_inner self with
  | Some inner => Some (operation_taken self, handle_commit inner st)
  | None => None
  end.

Definition operation_rollback (self : DropCopyOperation) st : DropCopyOperation * St :=
  match dco_inner self with
  | Some inner => (operation_taken self, handle_rollback inner st)
  | None => (self, st)
  end.

Definition operation_drop (self : DropCopyOperation) st : St :=
  match dco_inner self with Some inner => handle_rollback inner st | None => st end.

(** ** Pre-trade *)

(** The closure a request handle runs. *)
Record PreTradeRequest : Type := mkPreTradeRequest {
  req_ctx : PreTradeContext;
  req_cells : ContextCells W;
  req_order : Order
}.

Definition start_pre_trade policies (now : Z) (order : Order) st : result PRejects PreTradeRequest * St :=
  let account := account_id order 0 in
  let known_account := result_ok account in
  match check (es_blocked st) (es_groups st) known_account RS_Order with
  | Some rejects => (Err rejects, st)
  | None =>
      let '(ctx, cells) := with_accounts_ctx account in
      let '(start_rejects, account_block, (cells, st)) :=
        with_start_pre_trade_now now
          (run_pre_trade_start_stage check_pre_trade_start policies ctx order) (cells, st) in
      match start_rejects with
      | Some rejects =>
          let st := match account_block with
                    | Some block => set_blocked st (record_pre_trade (es_blocked st) known_account block)
                    | None => st
                    end in
          (Err rejects, st)
      | None => (Ok (mkPreTradeRequest ctx cells order), st)
      end
  end.

Definition engine_unavailable_rejects : PRejects :=
  rejects_new [reject_new "Engine" RS_Order RC_SystemUnavailable "engine is no longer available"
    "request handle outlived engine instance"].

(** [alive] is the answer of [upgrade]. *)
Definition execute_pre_trade_request (alive : bool) policies (request : PreTradeRequest) st :
    result PRejects PreTradeReservation * St :=
  if negb alive then (Err engine_unavailable_rejects, st)
  else
    let ctx := req_ctx request in
    let account := result_ok (ptc_account ctx) in
    match check (es_blocked st) (es_groups st) account RS_Order with
    | Some rejects => (Err rejects, st)
    | None =>
        let '(r, (_, st)) := run_pre_trade_main_stage perform_pre_trade_check policies ctx
                               (req_order request) (req_cells request, st) in
        match mr_rejects r with
        | Some rejects =>
            let '(rollback, st) := rollback_all (mr_mutations r) st in
            let st := record_mutation_failure account (rr_failure rollback) st in
            let st := match mr_first_account_block r with
                      | Some block => set_blocked st (record_pre_trade (es_blocked st) account block)
                      | None => st
                      end in
            (Err rejects, st)
        | None =>
            (Ok (mkReservation (mr_outcomes r) (mr_lock r)
                   (Some (mkReservationHandle (mr_mutations r) account))), st)
        end
    end.

Definition execute_pre_trade policies (now : Z) (order : Order) st :
    result PRejects PreTradeReservation * St :=
  match start_pre_trade policies now order st with
  | (Ok request, st) => execute_pre_trade_request true policies request st
  | (Err rejects, st) => (Err rejects, st)
  end.

(** ** Dry run *)

Record PreTradeDryRunReport : Type := mkDryRunReport {
  dr_rejects : option PRejects;
  dr_lock : PreTradeLock;
  dr_account_adjustments : list AccountAdjustmentOutcome;
  dr_account_block : option AccountBlock
}.

Definition is_pass (self : PreTradeDryRunReport) : bool :=
  match dr_rejects self with None => true | Some _ => false end.

Definition start_pre_trade_dry_run policies (now : Z) (order : Order) st : PreTradeDryRunReport * St :=
  let account := account_id order 0 in
  match check (es_blocked st) (es_groups st) (result_ok account) RS_Order with
  | Some rejects => (mkDryRunReport (Some rejects) lock_new [] None, st)
  | None =>
      let '(ctx, cells) := with_accounts_ctx account in
      let '(rejects, account_block, (_, st)) :=
        with_start_pre_trade_now now
          (run_pre_trade_start_stage check_pre_trade_start_dry_run policies ctx order) (cells, st) in
      (mkDryRunReport rejects lock_new [] account_block, st)
  end.

(** The collected mutations are dropped at the end of the call. *)
Definition execute_pre_trade_dry_run policies (now : Z) (order : Order) st : PreTradeDryRunReport * St :=
  let account := account_id order 0 in
  match check (es_blocked st) (es_groups st) (result_ok account) RS_Order with
  | Some rejects => (mkDryRunReport (Some rejects) lock_new [] None, st)
  | None =>
      let '(ctx, cells) := with_accounts_ctx account in
      let '(start_rejects, start_account_block, s) :=
        with_start_pre_trade_now now
          (run_pre_trade_start_stage check_pre_trade_start_dry_run policies ctx order) (cells, st) in
      match start_rejects with
      | Some rejects => (mkDryRunReport (Some rejects) lock_new [] start_account_block, s.2)
      | None =>
          let '(r, (_, st)) :=
            run_pre_trade_main_stage perform_pre_trade_check_dry_run policies ctx order s in
          (mkDryRunReport (mr_rejects r) (mr_lock r) (mr_outcomes r) (mr_first_account_block r),
           mutations_drop (mr_mutations r) st)
      end
  end.

(** ** Drop-copy *)

Definition new_drop_copy_unreadable_account_rejects : PRejects :=
  rejects_from_reject (reject_new "Engine" RS_Order RC_MissingRequiredField
    "drop-copy requires a readable account ID"
    "the account ID routes the drop-copy pipeline and its account control").

Definition fatal_drop_copy_rejects (rejects : option PRejects) : option PRejects :=
  rejects ← rejects;
  let fatal := List.filter (fun r => is_evaluation_failure (reject_code r)) (into_vec rejects) in
  if is_nil fatal then None else Some (rejects_new fatal).

Definition drop_copy_mutation_callback_rejects (details : string) : PRejects :=
  rejects_from_reject (reject_new "Engine" RS_Order RC_SystemUnavailable
    "mutation callback failed" details).

Definition append_drop_copy_mutation_callback_rejects (rejects : PRejects) (details : string) : PRejects :=
  rejects_new (into_vec rejects ++ into_vec (drop_copy_mutation_callback_rejects details)).

(** The exit shared by the two fatal branches. *)
Definition drop_copy_fatal_exit (account : AccountId) (rejects : PRejects)
    (rollback : MutationRollbackResult) st : result PRejects DropCopyOperation * St :=
  if callback_failed rollback
  then (Err (append_drop_copy_mutation_callback_rejects rejects (callback_failure_details rollback)),
        record_mutation_failure (Some account) (rr_failure rollback) st)
  else (Err rejects, st).

Definition apply_drop_copy policies (now : Z) (order : Order) st :
    result PRejects DropCopyOperation * St :=
  match account_id order 0 with
  | Err _ => (Err new_drop_copy_unreadable_account_rejects, st)
  | Ok account =>
      let '(ctx, s) := with_accounts_and_drop_copy account st in
      let '(start_rejects, _, s) :=
        with_start_pre_trade_now now
          (run_pre_trade_start_stage check_pre_trade_start policies ctx order) s in
      match fatal_drop_copy_rejects start_rejects with
      | Some rejects =>
          let s := abandon_drop_copy_account_operations ctx s in
          let '(start_mutations, s) := take_drop_copy_start_mutations ctx s in
          let '(rollback, st) := rollback_all start_mutations s.2 in
          drop_copy_fatal_exit account rejects rollback st
      | None =>
          let '(r, s) := run_pre_trade_main_stage perform_pre_trade_check policies ctx order s in
          match fatal_drop_copy_rejects (mr_rejects r) with
          | Some rejects =>
              let s := abandon_drop_copy_account_operations ctx s in
              let '(rollback, st) := rollback_all (mr_mutations r) s.2 in
              let '(start_mutations, s) := take_drop_copy_start_mutations ctx (s.1, st) in
              let '(start_rollback, st) := rollback_all start_mutations s.2 in
              drop_copy_fatal_exit account rejects (rollback_append rollback start_rollback) st
          | None =>
              let '(start_mutations, s) := take_drop_copy_start_mutations ctx s in
              let all_mutations := mutations_append start_mutations (mr_mutations r) in
              let account_block := drop_copy_account_block ctx s in
              let s := apply_drop_copy_account_operations ctx s in
              let account_blocked := is_blocked (es_blocked s.2) (es_groups s.2) account in
              (Ok (mkDropCopyOperation account_block (mr_lock r) (mr_outcomes r)
                     (Some (mkReservationHandle all_mutations (Some account))) account_blocked), s.2)
          end
      end
  end.

(** ** Execution reports *)

Definition report_step (ctx : PostTradeContext) (report : ExecutionReport)
    (acc : PostTradeResult * (GroupCell * St)) (policy : Policy) : PostTradeResult * (GroupCell * St) :=
  let '(out, s) := acc in
  match pol_apply_execution_report policy ctx report s with
  | (None, s) => (out, s)
  | (Some result, s) =>
      (mkPostTradeResult (ptr_account_blocks out ++ ptr_account_blocks result)
         (ptr_account_pnls out ++ ptr_account_pnls result)
         (ptr_account_adjustments out ++ ptr_account_adjustments result), s)
  end.

(** The report's account is read twice: for the context and for the block. *)
Definition apply_execution_report policies (report : ExecutionReport) st : PostTradeResult * St :=
  let ctx := mkPostTradeContext (result_ok (account_id report 0)) in
  let '(out, (_, st)) := foldl (report_step ctx report) (mkPostTradeResult [] [] [], (None, st)) policies in
  let st := match head (ptr_account_blocks out) with
            | Some first =>
                set_blocked st (record_execution_report (es_blocked st) (account_id report 1) first)
            | None => st
            end in
  (out, st).

(** ** Account adjustments *)

Record AccountAdjustmentBatchError : Type := mkBatchError {
  abe_rejects : PRejects;
  abe_failed_adjustment_index : nat
}.

Record AdjustAcc : Type := mkAdjustAcc {
  aa_mutations : Mutations St;
  aa_outcomes : list AccountAdjustmentOutcome;
  aa_account_blocks : list AccountBlock
}.

(** The inner loop; [Err] is [break 'outer]. *)
Fixpoint adjust_policies (ctx : AccountAdjustmentContext) (account : AccountId)
    (adjustment : AccountAdjustment) policies (a : AdjustAcc) (s : GroupCell * St) :
    result PRejects unit * AdjustAcc * (GroupCell * St) :=
  match policies with
  | [] => (Ok tt, a, s)
  | policy :: policies =>
      match pol_apply_account_adjustment policy ctx account adjustment (aa_mutations a) s with
      | (Ok result, mutations, s) =>
          adjust_policies ctx account adjustment policies
            (mkAdjustAcc mutations
               (aa_outcomes a ++
                (mkAccountAdjustmentOutcome (policy_group_id policy) <$> paar_account_adjustments result))
               (aa_account_blocks a ++ paar_account_blocks result)) s
      | (Err rejects, mutations, s) =>
          (Err rejects, mkAdjustAcc mutations (aa_outcomes a) (aa_account_blocks a), s)
      end
  end.

Fixpoint adjust_batch (ctx : AccountAdjustmentContext) (account : AccountId) policies (index : nat)
    (adjustments : list AccountAdjustment) (a : AdjustAcc) (s : GroupCell * St) :
    option AccountAdjustmentBatchError * AdjustAcc * (GroupCell * St) :=
  match adjustments with
  | [] => (None, a, s)
  | adjustment :: adjustments =>
      match adjust_policies ctx account adjustment policies a s with
      | (Ok _, a, s) => adjust_batch ctx account policies (S index) adjustments a s
      | (Err rejects, a, s) => (Some (mkBatchError rejects index), a, s)
      end
  end.

Definition apply_account_adjustment policies (account : AccountId)
    (adjustments : list AccountAdjustment) st :
    result AccountAdjustmentBatchError AccountAdjustmentBatchResult * St :=
  match adjustments with
  | [] => (Ok (mkBatchResult [] []), st)
  | _ =>
      let '(mutations, st) := mutations_new st in
      let '(batch_error, a, (_, st)) :=
        adjust_batch (mkAdjustmentContext account) account policies 0 adjustments
          (mkAdjustAcc mutations [] []) (None, st) in
      match batch_error with
      | Some err =>
          let '(rollback, st) := rollback_all (aa_mutations a) st in
          (Err err, record_mutation_failure (Some account) (rr_failure rollback) st)
      | None =>
          let '(failure, st) := commit_all (aa_mutations a) st in
          let st := record_mutation_failure (Some account) failure st in
          (Ok (mkBatchResult (aa_outcomes a) (aa_account_blocks a)),
           set_blocked st (block_all_of (es_blocked st) account (aa_account_blocks a)))
      end
  end.

(** ** Account retirement *)

Definition retire_step (account : AccountId)
    (acc : list AccountRetirementPolicyRefusal * Mutations St * St) (policy : Policy) :
    list AccountRetirementPolicyRefusal * Mutations St * St :=
  let '(refusals, mutations, st) := acc in
  match pol_retire_account policy account mutations st with
  | (Ok _, mutations, st) => (refusals, mutations, st)
  | (Err refusal, mutations, st) =>
      (refusals ++ [mkPolicyRefusal (pol_name policy) refusal], mutations, st)
  end.

Definition forget_account (account : AccountId) st : St :=
  let a := es_accounts st in
  with_accounts st
    (mkAccountsState (groups_retire_account (as_groups a) account)
       (unblock_account (as_blocked a) account)
       (clear_account_currency (as_currencies a) account)).

Definition retire_account policies (account : AccountId) st : result AccountRetirementError unit * St :=
  let '(mutations, st) := mutations_new st in
  let '(refusals, mutations, st) := foldl (retire_step account) ([], mutations, st) policies in
  if negb (is_nil refusals)
  then let '(rollback, st) := rollback_all mutations st in
       (Err (Refused refusals), record_mutation_failure (Some account) (rr_failure rollback) st)
  else let '(commit, st) := commit_all mutations st in
       if failure_failed commit
       then (Err FinalizerFailed, record_mutation_failure (Some account) commit st)
       else (Ok tt, forget_account account st).

End Engine.
