(* ===== verification/EngineFacts.v ===== *)
(** * EngineFacts: what the pipeline of [Engine] guarantees

    The stages are related to plain sequences of hook calls; [Transactional] is
    the contract policies give the engine, and the atomicity theorems are proved
    against it. *)
From S2P Require Import Prelude.
From S2P Require Import Decimal.
From S2P Require Import Param.
From S2P Require Import Identifiers.
From S2P Require Import Mutation.
From S2P Require Import Reject.
From S2P Require Import AccountControl.
From S2P Require Import Accounts.
From S2P Require Import Lock.
From S2P Require Import Policy.
From S2P Require Import Engine.
Open Scope Z_scope.

Section EngineFacts.
Context {D : DecimalOps} {W Order ExecutionReport AccountAdjustment : Type}.
Context `{HasAccountId Order} `{HasAccountId ExecutionReport}.

Abbreviation St := (EngineState W).
Abbreviation PRejects := (Rejects PolicyPreTradeResult).
Abbreviation Policy := (PreTradePolicy W Order ExecutionReport AccountAdjustment).
Implicit Types (st : St) (s : HookState W) (ctx : PreTradeContext) (policies : list Policy).

(** ** Reference semantics of the stages *)

(** Every policy is asked once, in registration order, whatever the earlier ones
    answered. *)
Fixpoint ask_start (hook : StartHook) ctx (order : Order) policies s :
    list (result PRejects unit) * HookState W :=
  match policies with
  | [] => ([], s)
  | p :: policies =>
      let '(r, s) := hook p ctx order s in
      let s := match r with
               | Err rejects => record_reject_block ctx (reject_account_block (into_vec rejects)) s
               | Ok _ => s
               end in
      let '(rs, s) := ask_start hook ctx order policies s in (r :: rs, s)
  end.

(** All rejects of a stage, in order. *)
Definition all_rejects {T} (rs : list (result PRejects T)) : list Reject :=
  rs ≫= fun r => match r with Err rejects => into_vec rejects | Ok _ => [] end.

Definition merged (l : list Reject) : option PRejects := if is_nil l then None else Some (rejects_new l).

Lemma reject_account_block_app (l1 l2 : list Reject) :
  reject_account_block (l1 ++ l2) =
  match reject_account_block l1 with Some b => Some b | None => reject_account_block l2 end.
Proof.
  unfold reject_account_block. induction l1 as [|r l1 IH]; [done|]. cbn.
  case_bool_decide; [done|]. exact IH.
Qed.

Lemma merge_reject_lists_spec (lists : list PRejects) (len : nat) :
  len = length (lists ≫= into_vec) -> merge_reject_lists lists len = merged (lists ≫= into_vec).
Proof.
  intros ->. assert (Hf : forall (acc : list Reject),
    foldl (fun out rejects => out ++ into_vec rejects) acc lists = acc ++ (lists ≫= into_vec)).
  { induction lists as [|r lists IH]; intros acc; cbn; [by rewrite app_nil_r|].
    by rewrite IH, <- app_assoc. }
  unfold merge_reject_lists, merged. rewrite Hf. by destruct (lists ≫= into_vec).
Qed.

Lemma start_fold (hook : StartHook) ctx (order : Order) policies lists len block s :
  len = length (lists ≫= into_vec) -> block = reject_account_block (lists ≫= into_vec) ->
  let '(a, s') := foldl (start_step hook ctx order) (mkStartAcc lists len block, s) policies in
  let '(rs, s'') := ask_start hook ctx order policies s in
  s' = s'' /\
  sa_rejects_collection a ≫= into_vec = (lists ≫= into_vec) ++ all_rejects rs /\
  sa_total_rejects_len a = length (sa_rejects_collection a ≫= into_vec) /\
  sa_account_block a = reject_account_block (sa_rejects_collection a ≫= into_vec).
Proof.
  revert lists len block s. induction policies as [|p ps IH]; intros lists len block s Hl Hb; cbn.
  { by rewrite app_nil_r. }
  destruct (hook p ctx order s) as [[[]|rejects] s1].
  - specialize (IH lists len block s1 Hl Hb).
    destruct (foldl _ _ ps) as [a s'], (ask_start hook ctx order ps s1) as [rs s'']. exact IH.
  - pose proof (IH (lists ++ [rejects]) (len + length (into_vec rejects))%nat
      (match block with Some b => Some b | None => reject_account_block (into_vec rejects) end)
      (record_reject_block ctx (reject_account_block (into_vec rejects)) s1)) as IH'.
    destruct (foldl _ _ ps) as [a s'], (ask_start hook ctx order ps _) as [rs s''].
    rewrite bind_app in IH'. cbn in IH'. rewrite app_nil_r, <- app_assoc in IH'.
    apply IH'; [rewrite length_app; lia|]. by rewrite reject_account_block_app, <- Hb.
Qed.

Lemma run_start_spec (hook : StartHook) policies ctx (order : Order) s :
  run_pre_trade_start_stage hook policies ctx order s =
  let '(rs, s') := ask_start hook ctx order policies s in
  (merged (all_rejects rs), reject_account_block (all_rejects rs), s').
Proof.
  unfold run_pre_trade_start_stage.
  pose proof (start_fold hook ctx order policies [] 0 None s eq_refl eq_refl) as Hf.
  destruct (foldl _ _ policies) as [a s'], (ask_start hook ctx order policies s) as [rs s''].
  destruct Hf as (-> & H1 & H2 & H3). cbn in H1.
  by rewrite (merge_reject_lists_spec _ _ H2), H3, H1.
Qed.

(** The start stage asks every policy exactly once in registration order,
    never stops at a reject, merges all rejects in that order and latches the
    first account-scope reject of the merged list. *)
Theorem run_pre_trade_start_stage_spec (hook : StartHook) policies ctx (order : Order) s :
  run_pre_trade_start_stage hook policies ctx order s =
  let '(rs, s') := ask_start hook ctx order policies s in
  (merged (all_rejects rs), reject_account_block (all_rejects rs), s').
Proof. apply run_start_spec. Qed.

(** The main stage threads the collector as well. *)
Fixpoint ask_main (hook : MainHook) ctx (order : Order) policies (ms : Mutations St) s :
    list (PolicyGroupId * result PRejects (option PolicyPreTradeResult)) * Mutations St * HookState W :=
  match policies with
  | [] => ([], ms, s)
  | p :: policies =>
      let '(r, ms, s) := hook p ctx order ms s in
      let s := match r with
               | Err rejects => record_reject_block ctx (reject_account_block (into_vec rejects)) s
               | Ok _ => s
               end in
      let '(rs, ms, s) := ask_main hook ctx order policies ms s in
      ((policy_group_id p, r) :: rs, ms, s)
  end.

(** The policy output a verdict contributes: an accepting one its result, and in
    drop-copy a rejecting one the result it carries, unless it failed to
    evaluate the order. *)
Definition contribution ctx (r : result PRejects (option PolicyPreTradeResult)) :
    option PolicyPreTradeResult :=
  match r with
  | Ok o => o
  | Err rejects =>
      if is_drop_copy ctx &&
         negb (existsb (fun r => is_evaluation_failure (reject_code r)) (into_vec rejects))
      then rejects_policy_result rejects else None
  end.

Definition contributions ctx
    (rs : list (PolicyGroupId * result PRejects (option PolicyPreTradeResult))) :
    list (PolicyGroupId * PolicyPreTradeResult) :=
  omap (fun '(g, r) => (fun o => (g, o)) <$> contribution ctx r) rs.

Definition lock_of (lock : PreTradeLock) (cs : list (PolicyGroupId * PolicyPreTradeResult)) : PreTradeLock :=
  foldl (fun l c => lock_push_many l c.1 (ppr_lock_prices c.2)) lock cs.

Definition outcomes_of (cs : list (PolicyGroupId * PolicyPreTradeResult)) : list AccountAdjustmentOutcome :=
  cs ≫= fun c => mkAccountAdjustmentOutcome c.1 <$> ppr_account_adjustments c.2.

Lemma lock_of_app lock cs1 cs2 : lock_of lock (cs1 ++ cs2) = lock_of (lock_of lock cs1) cs2.
Proof. apply foldl_app. Qed.

Definition err_list (r : result PRejects (option PolicyPreTradeResult)) : list PRejects :=
  match r with Err rejects => [rejects_new (into_vec rejects)] | Ok _ => [] end.

(** The hook state after a verdict was recorded. *)
Definition after_verdict {T} ctx (r : result PRejects T) s : HookState W :=
  match r with
  | Err rejects => record_reject_block ctx (reject_account_block (into_vec rejects)) s
  | Ok _ => s
  end.

Lemma main_step_spec (hook : MainHook) ctx (order : Order) a s (p : Policy) r ms s1 :
  hook p ctx order (ma_mutations a) s = (r, ms, s1) ->
  main_step hook ctx order (a, s) p =
  (mkMainAcc ms (ma_rejects_collection a ++ err_list r)
     (ma_total_rejects_len a + length (all_rejects [r]))
     (ma_outcomes a ++ outcomes_of (contributions ctx [(policy_group_id p, r)]))
     (lock_of (ma_lock a) (contributions ctx [(policy_group_id p, r)]))
     (match ma_first_account_block a with Some b => Some b | None => reject_account_block (all_rejects [r]) end),
   after_verdict ctx r s1).
Proof.
  intros Hh. unfold main_step. rewrite Hh. unfold contributions, outcomes_of, all_rejects, append_pre_trade_policy_result.
  destruct r as [[o|]|rejects]; cbn.
  - rewrite !app_nil_r, Nat.add_0_r. by destruct (ma_first_account_block a).
  - rewrite !app_nil_r, Nat.add_0_r. by destruct (ma_first_account_block a).
  - unfold contribution, into_vec. rewrite app_nil_r. destruct (_ && _); cbn; [|by rewrite app_nil_r].
    destruct (rejects_policy_result rejects); cbn; by rewrite app_nil_r.
Qed.

Lemma all_rejects_app {T} (rs1 rs2 : list (result PRejects T)) :
  all_rejects (rs1 ++ rs2) = all_rejects rs1 ++ all_rejects rs2.
Proof. apply bind_app. Qed.

Lemma err_list_vec r : err_list r ≫= into_vec = all_rejects [r].
Proof. by destruct r. Qed.

Lemma contributions_cons ctx g r rs :
  contributions ctx ((g, r) :: rs) = contributions ctx [(g, r)] ++ contributions ctx rs.
Proof. unfold contributions; cbn. by destruct (contribution ctx r). Qed.

Lemma ask_main_cons (hook : MainHook) ctx (order : Order) p policies ms s :
  ask_main hook ctx order (p :: policies) ms s =
  let '(r, ms, s) := hook p ctx order ms s in
  let '(rs, ms, s) := ask_main hook ctx order policies ms (after_verdict ctx r s) in
  ((policy_group_id p, r) :: rs, ms, s).
Proof. done. Qed.

Lemma main_fold (hook : MainHook) ctx (order : Order) policies a s :
  ma_total_rejects_len a = length (ma_rejects_collection a ≫= into_vec) ->
  ma_first_account_block a = reject_account_block (ma_rejects_collection a ≫= into_vec) ->
  let '(a', s') := foldl (main_step hook ctx order) (a, s) policies in
  let '(rs, ms, s'') := ask_main hook ctx order policies (ma_mutations a) s in
  s' = s'' /\ ma_mutations a' = ms /\
  ma_rejects_collection a' ≫= into_vec = (ma_rejects_collection a ≫= into_vec) ++ all_rejects (rs.*2) /\
  ma_total_rejects_len a' = length (ma_rejects_collection a' ≫= into_vec) /\
  ma_first_account_block a' = reject_account_block (ma_rejects_collection a' ≫= into_vec) /\
  ma_lock a' = lock_of (ma_lock a) (contributions ctx rs) /\
  ma_outcomes a' = ma_outcomes a ++ outcomes_of (contributions ctx rs).
Proof.
  revert a s. induction policies as [|p ps IH]; intros a s Hl Hb.
  { cbn. by rewrite !app_nil_r. }
  rewrite ask_main_cons. cbn [foldl].
  destruct (hook p ctx order (ma_mutations a) s) as [[r ms1] s1] eqn:Hh.
  rewrite (main_step_spec _ _ _ _ _ _ _ _ _ Hh).
  specialize (IH (mkMainAcc ms1 (ma_rejects_collection a ++ err_list r)
     (ma_total_rejects_len a + length (all_rejects [r]))
     (ma_outcomes a ++ outcomes_of (contributions ctx [(policy_group_id p, r)]))
     (lock_of (ma_lock a) (contributions ctx [(policy_group_id p, r)]))
     (match ma_first_account_block a with Some b => Some b | None => reject_account_block (all_rejects [r]) end))
     (after_verdict ctx r s1)).
  cbn [ma_mutations ma_rejects_collection ma_total_rejects_len ma_outcomes ma_lock ma_first_account_block] in IH.
  assert (Hv : (ma_rejects_collection a ++ err_list r) ≫= into_vec =
               (ma_rejects_collection a ≫= into_vec) ++ all_rejects [r])
    by by rewrite bind_app, err_list_vec.
  rewrite Hv in IH.
  destruct (foldl _ _ ps) as [a' s'], (ask_main hook ctx order ps ms1 _) as [[rs ms] s''].
  destruct IH as (H1 & H2 & H3 & H4 & H5 & H6 & H7).
  { by rewrite length_app, Hl. }
  { by rewrite reject_account_block_app, Hb. }
  split_and!; try done.
  - cbn [fmap list_fmap]. by rewrite H3, <- app_assoc, <- all_rejects_app.
  - by rewrite contributions_cons, lock_of_app.
  - rewrite contributions_cons. unfold outcomes_of at 1. by rewrite bind_app, app_assoc.
Qed.

Lemma run_main_spec (hook : MainHook) policies ctx (order : Order) s :
  run_pre_trade_main_stage hook policies ctx order s =
  let '(ms0, st) := mutations_new s.2 in
  let '(rs, ms, s') := ask_main hook ctx order policies ms0 (s.1, st) in
  (mkMainResult (merged (all_rejects (rs.*2))) (reject_account_block (all_rejects (rs.*2))) ms
     (lock_of lock_new (contributions ctx rs)) (outcomes_of (contributions ctx rs)), s').
Proof.
  unfold run_pre_trade_main_stage. destruct (mutations_new s.2) as [ms0 st].
  pose proof (main_fold hook ctx order policies (mkMainAcc ms0 [] 0 [] lock_new None) (s.1, st)
    eq_refl eq_refl) as Hf. cbn [ma_mutations] in Hf.
  destruct (foldl _ _ policies) as [a s'], (ask_main hook ctx order policies ms0 _) as [[rs ms] s''].
  destruct Hf as (-> & H1 & H2 & H3 & H4 & H5 & H6). cbn in H2, H5, H6.
  by rewrite (merge_reject_lists_spec _ _ H3), H4, H2, H1, H5, H6.
Qed.

(** The main stage asks every policy exactly once in registration order with
    the collector the earlier ones filled, merges all rejects, and builds the lock
    and the outcomes from the accepting policies' results in that order; in
    drop-copy also from the results rejects carry, except those of a policy that
    failed to evaluate. *)
Theorem run_pre_trade_main_stage_spec (hook : MainHook) policies ctx (order : Order) s :
  run_pre_trade_main_stage hook policies ctx order s =
  let '(ms0, st) := mutations_new s.2 in
  let '(rs, ms, s') := ask_main hook ctx order policies ms0 (s.1, st) in
  (mkMainResult (merged (all_rejects (rs.*2))) (reject_account_block (all_rejects (rs.*2))) ms
     (lock_of lock_new (contributions ctx rs)) (outcomes_of (contributions ctx rs)), s').
Proof. apply run_main_spec. Qed.

(** ** The contract of a policy *)

(** Rolling [new] back from a state with world [after] gives world [before],
    reports no failure and leaves the accounts alone. *)
Definition undoes (new : list (Mutation St)) (after before : W) : Prop :=
  forall o st, es_world st = after ->
    let '(rb, st') := rollback_all (mkMutations new o) st in
    callback_failed rb = false /\ es_world st' = before /\ es_accounts st' = es_accounts st.

Lemma undoes_nil w : undoes [] w w.
Proof. intros o st Hw. by rewrite rollback_all_nil. Qed.

Lemma undoes_app n1 n2 w0 w1 w2 : undoes n1 w1 w0 -> undoes n2 w2 w1 -> undoes (n1 ++ n2) w2 w0.
Proof.
  intros H1 H2 o st Hw. change (mkMutations (n1 ++ n2) o) with
    (mutations_append (mkMutations n1 o) (mkMutations n2 o)). rewrite rollback_all_app.
  specialize (H2 o st Hw). destruct (rollback_all (mkMutations n2 o) st) as [r2 st2].
  destruct H2 as (F2 & Hw2 & Ha2). specialize (H1 o st2 Hw2).
  destruct (rollback_all (mkMutations n1 o) st2) as [r1 st1]. destruct H1 as (F1 & Hw1 & Ha1).
  rewrite failed_append, F1, F2. by rewrite Ha1.
Qed.

(** The same for a whole collector, whatever its owner. *)
Lemma undoes_all (ms : Mutations St) after before st :
  undoes (ms_mutations ms) after before -> es_world st = after ->
  exists rb st', rollback_all ms st = (rb, st') /\ callback_failed rb = false /\
    es_world st' = before /\ es_accounts st' = es_accounts st.
Proof.
  intros Hu Hw. specialize (Hu (ms_owner_id ms) st Hw). destruct ms as [l o]. cbn [ms_mutations ms_owner_id] in Hu.
  destruct (rollback_all (mkMutations l o) st) as [rb st']. destruct Hu as (? & ? & ?). eauto 6.
Qed.

(** The collectors a drop-copy call shares with its hooks are open. *)
Definition drop_open s (ms : Mutations St) : Prop :=
  cc_start_mutations s.1 = Some ms /\ df_is_active (cc_operations s.1) = true.
Definition deferring ctx s : Prop :=
  is_drop_copy ctx = true -> df_is_active (cc_operations s.1) = true.

(** A hook only appends to the collector, and what it appends undoes what it did
    to the policies' world; blocks go through verdicts, not around them.  The
    start hook has no collector: what it does is final. *)
Class Transactional (p : Policy) : Prop := {
  tx_start ctx order s r s' :
    check_pre_trade_start p ctx order s = (r, s') -> deferring ctx s ->
    es_accounts s'.2 = es_accounts s.2;
  tx_perform ctx order ms s r ms' s' :
    perform_pre_trade_check p ctx order ms s = (r, ms', s') -> deferring ctx s ->
    es_accounts s'.2 = es_accounts s.2 /\
    cc_start_mutations s'.1 = cc_start_mutations s.1 /\ deferring ctx s' /\
    exists new, ms_mutations ms' = ms_mutations ms ++ new /\
                undoes new (es_world s'.2) (es_world s.2);
  tx_adjust actx account adjustment ms (s s' : GroupCell * St) r ms' :
    pol_apply_account_adjustment p actx account adjustment ms s = (r, ms', s') ->
    es_accounts s'.2 = es_accounts s.2 /\
    exists new, ms_mutations ms' = ms_mutations ms ++ new /\
                undoes new (es_world s'.2) (es_world s.2);
  tx_retire account ms st r ms' st' :
    pol_retire_account p account ms st = (r, ms', st') ->
    es_accounts st' = es_accounts st /\
    exists new, ms_mutations ms' = ms_mutations ms ++ new /\
                undoes new (es_world st') (es_world st)
}.

(** In drop-copy a start hook has a collector; the policies that use it for all
    they do are undone as a whole. *)
Class DropCopyTransactional (p : Policy) : Prop := {
  dc_transactional : Transactional p;
  dc_start ctx order s r s' ms :
    check_pre_trade_start p ctx order s = (r, s') -> is_drop_copy ctx = true -> drop_open s ms ->
    exists new ms', drop_open s' ms' /\ ms_mutations ms' = ms_mutations ms ++ new /\
                    undoes new (es_world s'.2) (es_world s.2)
}.

Lemma set_blocked_id st : set_blocked st (es_blocked st) = st.
Proof. by destruct st as [? [] ? ?]. Qed.

(** Recording a block in a drop-copy call only defers it. *)
Lemma record_reject_block_quiet ctx b s : deferring ctx s ->
  let s' := record_reject_block ctx b s in
  s'.2 = s.2 /\ cc_start_mutations s'.1 = cc_start_mutations s.1 /\ deferring ctx s'.
Proof.
  unfold deferring, record_reject_block, record_drop_copy_account_block, context_block, control_block, record_block.
  destruct (is_drop_copy ctx), b; cbn; try done. intros Ha.
  destruct (known_account ctx); [|done]. rewrite Ha by done. cbn. by rewrite set_blocked_id.
Qed.

Lemma after_verdict_quiet {T} ctx (r : result PRejects T) s : deferring ctx s ->
  let s' := after_verdict ctx r s in
  s'.2 = s.2 /\ cc_start_mutations s'.1 = cc_start_mutations s.1 /\ deferring ctx s'.
Proof. destruct r; [done|]. apply record_reject_block_quiet. Qed.

Lemma ask_main_tx ctx order policies ms s rs ms' s' :
  Forall Transactional policies -> deferring ctx s ->
  ask_main perform_pre_trade_check ctx order policies ms s = (rs, ms', s') ->
  es_accounts s'.2 = es_accounts s.2 /\ cc_start_mutations s'.1 = cc_start_mutations s.1 /\
  deferring ctx s' /\
  exists new, ms_mutations ms' = ms_mutations ms ++ new /\ undoes new (es_world s'.2) (es_world s.2).
Proof.
  intros Hp. revert ms s rs. induction Hp as [|p ps Hp _ IH]; intros ms s rs Hd.
  { intros [= <- <- <-]. split_and!; try done. exists []. by rewrite app_nil_r. }
  rewrite ask_main_cons.
  destruct (perform_pre_trade_check p ctx order ms s) as [[r ms1] s1] eqn:E.
  destruct (tx_perform _ _ _ _ _ _ _ E Hd) as (Ha & Hc & Hd1 & n1 & Hn1 & Hu1).
  destruct (after_verdict_quiet ctx r s1 Hd1) as (Hq & Hqc & Hqd).
  destruct (ask_main _ ctx order ps ms1 _) as [[rs1 ms2] s2] eqn:E2. intros [= <- <- <-].
  destruct (IH _ _ _ Hqd E2) as (Ha2 & Hc2 & Hd2 & n2 & Hn2 & Hu2). rewrite Hq in *.
  split_and!; try done; [congruence..|].
  exists (n1 ++ n2). rewrite Hn2, Hn1, <- app_assoc. split; [done|]. by eapply undoes_app.
Qed.

Lemma mutations_new_state (st : St) ms st' : mutations_new st = (ms, st') ->
  ms_mutations ms = [] /\ es_world st' = es_world st /\ es_accounts st' = es_accounts st.
Proof. unfold mutations_new. destruct (default _ _). by intros [= <- <-]. Qed.

Lemma main_stage_tx policies ctx order s r s' :
  Forall Transactional policies -> deferring ctx s ->
  run_pre_trade_main_stage perform_pre_trade_check policies ctx order s = (r, s') ->
  es_accounts s'.2 = es_accounts s.2 /\ cc_start_mutations s'.1 = cc_start_mutations s.1 /\
  deferring ctx s' /\
  undoes (ms_mutations (mr_mutations r)) (es_world s'.2) (es_world s.2) /\
  (forall rejects, mr_rejects r = Some rejects ->
     mr_first_account_block r = reject_account_block (into_vec rejects)).
Proof.
  intros Hp Hd. rewrite run_main_spec. destruct (mutations_new s.2) as [ms0 st0] eqn:Em.
  destruct (mutations_new_state _ _ _ Em) as (Hn0 & Hw0 & Ha0).
  destruct (ask_main _ ctx order policies ms0 _) as [[rs ms] s1] eqn:E. intros [= <- <-].
  destruct (ask_main_tx ctx order policies ms0 (s.1, st0) _ _ _ Hp Hd E) as (Ha & Hc & Hd1 & new & Hn & Hu).
  cbn in *. rewrite Hn, Hn0, <- Hw0. split_and!; try done; [congruence|].
  intros rejects. unfold merged. destruct (is_nil _); [done|]. by intros [= <-].
Qed.

Lemma record_no_failure account rb st : callback_failed rb = false ->
  record_mutation_failure account (rr_failure rb) st = st.
Proof. unfold callback_failed, failure_failed, record_mutation_failure. by destruct (mf_scope _). Qed.

Lemma rejection_restores policies (request : PreTradeRequest) st rejects st' :
  Forall Transactional policies -> is_drop_copy (req_ctx request) = false ->
  check (PR:=PolicyPreTradeResult) (es_blocked st) (es_groups st) (result_ok (ptc_account (req_ctx request))) RS_Order = None ->
  execute_pre_trade_request true policies request st = (Err rejects, st') ->
  es_world st' = es_world st /\
  es_accounts st' = with_blocked (es_accounts st)
    (match ptc_account (req_ctx request), reject_account_block (into_vec rejects) with
     | Ok account, Some block => (block_account (es_blocked st) account block).2
     | _, _ => es_blocked st
     end).
Proof.
  intros Hp Hd Hc. unfold execute_pre_trade_request. rewrite Hc. cbn [negb].
  destruct (run_pre_trade_main_stage _ _ _ _ _) as [r [cells st1]] eqn:E.
  apply main_stage_tx in E as (Ha & _ & _ & Hu & Hb); [|done|by intros ?; congruence]. cbn in Ha, Hu.
  destruct (mr_rejects r) as [rej|] eqn:Er; [|done].
  destruct (undoes_all _ _ _ st1 Hu eq_refl) as (rb & st2 & -> & Hf & Hw2 & Ha2).
  rewrite record_no_failure by done. rewrite (Hb rej eq_refl). intros [= <- <-].
  assert (Hacc : es_accounts st2 = es_accounts st) by congruence.
  unfold es_blocked, record_pre_trade, result_ok.
  destruct (reject_account_block (into_vec rej)), (ptc_account (req_ctx request)); cbn;
    rewrite ?Hw2, ?Hacc; split; try done; by destruct (es_accounts st).
Qed.

(** C1: a rejected request leaves no trace but the block: every mutation the
    policies registered is undone, in whatever number and order they registered
    them, so their world is the one before the call; and the blocked set gains at
    most the block of the first account-scope reject, on the request's account. *)
Theorem rejected_request_restores policies (request : PreTradeRequest) st rejects st' :
  Forall Transactional policies -> is_drop_copy (req_ctx request) = false ->
  check (PR:=PolicyPreTradeResult) (es_blocked st) (es_groups st) (result_ok (ptc_account (req_ctx request))) RS_Order = None ->
  execute_pre_trade_request true policies request st = (Err rejects, st') ->
  es_world st' = es_world st /\
  es_accounts st' = with_blocked (es_accounts st)
    (match ptc_account (req_ctx request), reject_account_block (into_vec rejects) with
     | Ok account, Some block => (block_account (es_blocked st) account block).2
     | _, _ => es_blocked st
     end).
Proof. apply rejection_restores. Qed.

Lemma acceptance_reverts policies (request : PreTradeRequest) st res st' :
  Forall Transactional policies -> is_drop_copy (req_ctx request) = false ->
  execute_pre_trade_request true policies request st = (Ok res, st') ->
  es_accounts st' = es_accounts st /\
  forall st1, es_world st1 = es_world st' ->
    reservation_drop res st1 = (reservation_rollback res st1).2 /\
    es_world (reservation_drop res st1) = es_world st /\
    es_accounts (reservation_drop res st1) = es_accounts st1.
Proof.
  intros Hp Hd. unfold execute_pre_trade_request. cbn [negb].
  destruct (check _ _ _ _); [done|].
  destruct (run_pre_trade_main_stage _ _ _ _ _) as [r [cells st1]] eqn:E.
  apply main_stage_tx in E as (Ha & _ & _ & Hu & _); [|done|by intros ?; congruence]. cbn in Ha, Hu.
  destruct (mr_rejects r) as [rej|]; [by destruct (rollback_all _ _)|].
  intros [= <- <-]. split; [done|]. intros st2 Hw. split; [done|]. cbn. unfold handle_rollback. cbn.
  destruct (undoes_all _ _ _ st2 Hu Hw) as (rb & st3 & -> & Hf & Hw2 & Ha2).
  by rewrite record_no_failure.
Qed.

(** C2: an accepted request changes the accounts in nothing, and giving its
    reservation back - explicitly or by dropping it - while the policies' world
    is the one the request left restores the world from before the request. *)
Theorem accepted_request_reverts policies (request : PreTradeRequest) st res st' :
  Forall Transactional policies -> is_drop_copy (req_ctx request) = false ->
  execute_pre_trade_request true policies request st = (Ok res, st') ->
  es_accounts st' = es_accounts st /\
  forall st1, es_world st1 = es_world st' ->
    reservation_drop res st1 = (reservation_rollback res st1).2 /\
    es_world (reservation_drop res st1) = es_world st /\
    es_accounts (reservation_drop res st1) = es_accounts st1.
Proof. apply acceptance_reverts. Qed.
(** ** Reservations *)

Inductive ReservationOp : Set := OpCommit | OpRollback | OpDrop.

#[local] Instance ReservationOp_eq_dec : EqDecision ReservationOp.
Proof. solve_decision. Defined.

(** A use of a reservation by its owner; dropping it ends its life.  [None] is a
    panic. *)
Fixpoint use_reservation (res : PreTradeReservation) (ops : list ReservationOp) st : option St :=
  match ops with
  | [] => Some st
  | OpCommit :: ops => '(res, st) ← reservation_commit res st; use_reservation res ops st
  | OpRollback :: ops => let '(res, st) := reservation_rollback res st in use_reservation res ops st
  | OpDrop :: _ => Some (reservation_drop res st)
  end.

(** The part of a use that happens before the drop. *)
Fixpoint before_drop (ops : list ReservationOp) : list ReservationOp :=
  match ops with
  | [] | OpDrop :: _ => []
  | op :: ops => op :: before_drop ops
  end.

Lemma use_consumed res ops st : res_inner res = None ->
  use_reservation res ops st = if decide (OpCommit ∈ before_drop ops) then None else Some st.
Proof.
  intros Hr. assert (Hres : reservation_rollback res st = (res, st)).
  { unfold reservation_rollback. by rewrite Hr. }
  induction ops as [|[] ops IH]; cbn [use_reservation before_drop].
  - by rewrite decide_False by apply not_elem_of_nil.
  - unfold reservation_commit. rewrite Hr. by rewrite decide_True by set_solver.
  - rewrite Hres, IH. apply decide_ext. set_solver.
  - unfold reservation_drop. rewrite Hr. by rewrite decide_False by apply not_elem_of_nil.
Qed.

(** A reservation is finalized exactly once: whatever its owner does with it,
    the first operation alone decides - commit commits, rollback and drop roll
    back - later rollbacks and the final drop change nothing, and the only panic
    is a commit after the reservation was consumed. *)
Theorem reservation_finalized_once outs lock (h : ReservationHandle) op ops st :
  use_reservation (mkReservation outs lock (Some h)) (op :: ops) st =
  match op with
  | OpCommit => if decide (OpCommit ∈ before_drop ops) then None else Some (handle_commit h st)
  | OpRollback => if decide (OpCommit ∈ before_drop ops) then None else Some (handle_rollback h st)
  | OpDrop => Some (handle_rollback h st)
  end.
Proof. destruct op; cbn; [by rewrite use_consumed..|done]. Qed.

(** ** The start stage of an order *)

Lemma ask_start_quiet ctx order policies s rs s' :
  Forall Transactional policies -> is_drop_copy ctx = false ->
  ask_start check_pre_trade_start ctx order policies s = (rs, s') ->
  es_accounts s'.2 = es_accounts s.2.
Proof.
  intros Hp Hd. revert s rs. induction Hp as [|p ps Hp _ IH]; intros s rs; [by intros [= <- <-]|].
  cbn. destruct (check_pre_trade_start p ctx order s) as [r s1] eqn:E.
  assert (Hdef : forall s, deferring ctx s) by (intros ? ?; congruence).
  pose proof (tx_start _ _ _ _ _ E (Hdef s)) as Ha.
  destruct (after_verdict_quiet ctx r s1 (Hdef s1)) as (Hq & _ & _). unfold after_verdict in Hq.
  destruct (ask_start _ ctx order ps _) as [rs1 s2] eqn:E2. intros [= <- <-].
  rewrite (IH _ _ E2). by rewrite Hq.
Qed.

(** What the policies answer when each start hook is called once, in registration
    order, on the state the one before it left. *)
Fixpoint start_verdicts ctx (order : Order) policies s : list (result PRejects unit) * HookState W :=
  match policies with
  | [] => ([], s)
  | p :: policies =>
      let '(verdict, s) := check_pre_trade_start p ctx order s in
      let '(verdicts, s) := start_verdicts ctx order policies s in (verdict :: verdicts, s)
  end.

Lemma ask_start_verdicts ctx order policies s :
  is_drop_copy ctx = false -> ask_start check_pre_trade_start ctx order policies s = start_verdicts ctx order policies s.
Proof.
  intros Hd. revert s. induction policies as [|p ps IH]; intros s; [done|]. cbn.
  destruct (check_pre_trade_start p ctx order s) as [[[]|rejects] s1]; [by rewrite IH|].
  unfold record_reject_block. by rewrite Hd, IH.
Qed.

(** C16: starting a request.  A blocked account is answered from the blocked set and no
    policy is asked.  Otherwise every policy is asked, at the given time; the request is
    handed out exactly when no answer carries a reject, with the state the policies
    left, and else all their rejects are returned in order and the block of the first
    account-scope one is latched on a readable account - an unreadable one is never
    blocked for it, nor is anything else. *)
Theorem start_pre_trade_spec policies now (order : Order) st :
  Forall Transactional policies ->
  let account := result_ok (account_id order 0) in
  let '(r, st') := start_pre_trade policies now order st in
  match check (es_blocked st) (es_groups st) account RS_Order with
  | Some rejects => r = Err rejects /\ st' = st
  | None =>
      let '(ctx, cells) := with_accounts_ctx (account_id order 0) in
      let '(verdicts, (cells1, st1)) :=
        with_start_pre_trade_now now (start_verdicts ctx order policies) (cells, st) in
      let rejects := verdicts ≫= fun verdict => match verdict with Err r => into_vec r | Ok _ => [] end in
      ptc_account ctx = account_id order 0 /\ is_drop_copy ctx = false /\ es_accounts st1 = es_accounts st /\
      if is_nil rejects then r = Ok (mkPreTradeRequest ctx cells1 order) /\ st' = st1
      else
        r = Err (rejects_new rejects) /\ es_world st' = es_world st1 /\
        es_accounts st' = with_blocked (es_accounts st)
          (match account, reject_account_block rejects with
           | Some a, Some block => (block_account (es_blocked st) a block).2
           | _, _ => es_blocked st
           end)
  end.
Proof.
  intros Hp. unfold start_pre_trade. cbv zeta. destruct (check _ _ _ _) as [rej|]; [done|].
  cbn. unfold with_start_pre_trade_now. rewrite run_start_spec. cbn.
  rewrite ask_start_verdicts by done.
  destruct (start_verdicts _ order policies _) as [rs [cells st1]] eqn:E.
  rewrite <- ask_start_verdicts in E by done. apply ask_start_quiet in E; [|done..]. cbn in E.
  unfold merged. fold (all_rejects rs). destruct (is_nil (all_rejects rs)) eqn:En; [done|]. cbn -[reject_account_block].
  unfold es_blocked, record_pre_trade, result_ok.
  destruct (reject_account_block (all_rejects rs)), (account_id order 0); cbn;
    rewrite ?E; split_and!; try done; by destruct (es_accounts st).
Qed.
End EngineFacts.
