(* ===== verification/EngineOps.v ===== *)
(** * EngineOps: drop-copy, dry run, reports, adjustments and retirement

    The guarantees of the entry points of [Engine] beside the order pipeline,
    against the same policy contract as in [EngineFacts]. *)
From S2P Require Import Prelude.
From S2P Require Import Decimal.
From S2P Require Import Param.
From S2P Require Import Identifiers.
From S2P Require Import Mutation.
From S2P Require Import Reject.
From S2P Require Import AccountControl.
From S2P Require Import Accounts.
From S2P Require Import Lock.
From S2P Require Import Policy.
From S2P Require Import Engine.
From S2P Require Import EngineFacts.
Open Scope Z_scope.

Section EngineOps.
Context {D : DecimalOps} {W Order ExecutionReport AccountAdjustment : Type}.
Context `{HasAccountId Order} `{HasAccountId ExecutionReport}.

Abbreviation St := (EngineState W).
Abbreviation PRejects := (Rejects PolicyPreTradeResult).
Abbreviation Policy := (PreTradePolicy W Order ExecutionReport AccountAdjustment).
Implicit Types (st : St) (s : HookState W) (ctx : PreTradeContext) (policies : list Policy).

(** ** Drop-copy *)

Lemma after_verdict_open {T} ctx (r : result PRejects T) s ms : is_drop_copy ctx = true ->
  drop_open s ms -> (after_verdict ctx r s).2 = s.2 /\ drop_open (after_verdict ctx r s) ms.
Proof.
  intros Hd [H1 H2]. destruct (after_verdict_quiet ctx r s (fun _ => H2)) as (Hq & Hc & Ha).
  split_and!; [done|]. split; [congruence|by apply Ha].
Qed.

Lemma ask_start_tx ctx order policies s ms rs s' :
  Forall DropCopyTransactional policies -> is_drop_copy ctx = true -> drop_open s ms ->
  ask_start check_pre_trade_start ctx order policies s = (rs, s') ->
  es_accounts s'.2 = es_accounts s.2 /\
  exists new ms', drop_open s' ms' /\ ms_mutations ms' = ms_mutations ms ++ new /\
                  undoes new (es_world s'.2) (es_world s.2).
Proof.
  intros Hp Hd. revert s ms rs. induction Hp as [|p ps Hp _ IH]; intros s ms rs Ho.
  { intros [= <- <-]. split; [done|]. exists [], ms. by rewrite app_nil_r. }
  cbn. destruct (check_pre_trade_start p ctx order s) as [r s1] eqn:E.
  pose proof (tx_start (Transactional:=dc_transactional) _ _ _ _ _ E (fun _ => proj2 Ho)) as Ha.
  destruct (dc_start _ _ _ _ _ _ E Hd Ho) as (n1 & ms1 & Ho1 & Hn1 & Hu1).
  destruct (after_verdict_open ctx r s1 ms1 Hd Ho1) as [Hq Ho2]. unfold after_verdict in Hq, Ho2.
  destruct (ask_start _ ctx order ps _) as [rs1 s2] eqn:E2. intros [= <- <-].
  destruct (IH _ _ _ Ho2 E2) as (Ha2 & n2 & ms2 & Ho3 & Hn2 & Hu2). rewrite Hq in *.
  split; [congruence|]. exists (n1 ++ n2), ms2. rewrite Hn2, Hn1, <- app_assoc.
  split_and!; [done..|]. by eapply undoes_app.
Qed.

Lemma drop_copy_all policies : Forall DropCopyTransactional policies -> Forall Transactional policies.
Proof. intros Hp. eapply Forall_impl; [exact Hp|]. intros p Hd. exact dc_transactional. Qed.

Lemma fatal_spec (rejects : option PRejects) fatal :
  fatal_drop_copy_rejects rejects = Some fatal ->
  into_vec fatal <> [] /\
  Forall (fun r => is_evaluation_failure (reject_code r) = true) (into_vec fatal).
Proof.
  unfold fatal_drop_copy_rejects. destruct rejects as [rej|]; [|done]. cbn.
  destruct (is_nil _) eqn:En; [done|]. intros [= <-]. cbn. split.
  - intros E. by rewrite E in En.
  - apply Forall_forall. intros r Hr%list_elem_of_In%filter_In. apply Hr.
Qed.

(** The start stage of a drop-copy call, from the fresh context on. *)
Lemma drop_copy_start policies now (order : Order) account st ctx s0 :
  Forall DropCopyTransactional policies -> with_accounts_and_drop_copy account st = (ctx, s0) ->
  ctx = mkPreTradeContext (Ok account) true /\
  exists rejects block s1 ms1,
    with_start_pre_trade_now now
      (run_pre_trade_start_stage check_pre_trade_start policies ctx order) s0 = (rejects, block, s1) /\
    drop_open s1 ms1 /\ undoes (ms_mutations ms1) (es_world s1.2) (es_world st) /\
    es_accounts s1.2 = es_accounts st.
Proof.
  intros Hp. unfold with_accounts_and_drop_copy. destruct (mutations_new st) as [ms0 st0] eqn:Em.
  destruct (mutations_new_state _ _ _ Em) as (Hn0 & Hw0 & Ha0). intros [= <- <-]. split; [done|].
  unfold with_start_pre_trade_now. rewrite run_start_spec. cbn [fst snd].
  destruct (ask_start _ _ order policies _) as [rs [cells1 st1]] eqn:E1.
  eapply (ask_start_tx _ _ _ _ ms0) in E1 as (Ha1 & n1 & ms1 & [Ho1 Hact1] & Hn1 & Hu1); [|done|done|done].
  cbn in *. rewrite Hn0 in Hn1. cbn in Hn1. rewrite Hw0, <- Hn1 in Hu1.
  do 4 eexists. split; [done|]. split; [by split|]. split; [done|]. cbn. congruence.
Qed.

Lemma take_open ctx s ms : is_drop_copy ctx = true -> cc_start_mutations s.1 = Some ms ->
  exists cells, take_drop_copy_start_mutations ctx s = (ms, (cells, s.2)).
Proof. unfold take_drop_copy_start_mutations. intros -> ->. eauto. Qed.

Lemma fatal_exit_clean account rejects rb st : callback_failed rb = false ->
  drop_copy_fatal_exit account rejects rb st = (Err rejects, st).
Proof. unfold drop_copy_fatal_exit. by intros ->. Qed.

Lemma fatal_exit_err account rejects rb st op st' :
  drop_copy_fatal_exit account rejects rb st <> (Ok op, st').
Proof. unfold drop_copy_fatal_exit. by destruct (callback_failed rb). Qed.

(** C3: a drop-copy call fails only on an order whose account cannot be read or
    that some policy could not evaluate - never on an ordinary verdict, and
    whether or not the account is blocked - and then it leaves no trace: both
    stages are undone, main stage first, and the blocks raised on the way are
    forgotten. *)
Theorem drop_copy_failure_restores policies now (order : Order) st rejects st' :
  Forall DropCopyTransactional policies ->
  apply_drop_copy policies now order st = (Err rejects, st') ->
  es_world st' = es_world st /\ es_accounts st' = es_accounts st /\
  ((exists e, account_id order 0 = Err e) /\ rejects = new_drop_copy_unreadable_account_rejects \/
   into_vec rejects <> [] /\
   Forall (fun r => is_evaluation_failure (reject_code r) = true) (into_vec rejects)).
Proof.
  intros Hp. unfold apply_drop_copy. destruct (account_id order 0) as [account|e].
  2: { intros [= <- <-]. split_and!; [done..|left; eauto]. }
  destruct (with_accounts_and_drop_copy account st) as [ctx s0] eqn:E0.
  destruct (drop_copy_start policies now order account st ctx s0 Hp E0)
    as (-> & rej & block & s1 & ms1 & -> & [Ho1 Hact1] & Hu1 & Ha1).
  destruct (fatal_drop_copy_rejects rej) as [fatal|] eqn:Ef.
  - edestruct (take_open (mkPreTradeContext (Ok account) true)
      (abandon_drop_copy_account_operations (mkPreTradeContext (Ok account) true) s1))
      as [cells ->]; [done|exact Ho1|].
    destruct (undoes_all ms1 _ _ s1.2 Hu1 eq_refl) as (rb & st2 & Hrb & Hf & Hw2 & Ha2). cbn.
    rewrite Hrb, fatal_exit_clean by done. intros [= <- <-].
    split_and!; [done|congruence|right; by eapply fatal_spec].
  - destruct (run_pre_trade_main_stage _ _ _ _ _) as [r s2] eqn:E2.
    apply main_stage_tx in E2 as (Ha2 & Hc2 & _ & Hu2 & _); [|by apply drop_copy_all|intros _; exact Hact1].
    destruct (fatal_drop_copy_rejects (mr_rejects r)) as [fatal|] eqn:Ef2.
    2: { by destruct (take_drop_copy_start_mutations _ _). }
    destruct (undoes_all _ _ _ s2.2 Hu2 eq_refl) as (rb & st3 & Hrb & Hf & Hw3 & Ha3).
    cbv zeta. change ((abandon_drop_copy_account_operations _ s2).2) with s2.2. rewrite Hrb.
    edestruct (take_open (mkPreTradeContext (Ok account) true)) as [cells ->];
      [done|cbn; by rewrite Hc2|].
    destruct (undoes_all _ _ _ st3 Hu1 Hw3) as (rb' & st4 & Hrb' & Hf' & Hw4 & Ha4). cbn.
    rewrite Hrb', fatal_exit_clean by by rewrite failed_append, Hf, Hf'. intros [= <- <-].
    split_and!; [done|congruence|right; by eapply fatal_spec].
Qed.

(** C4: a recorded drop-copy operation can be given back: rolling it back from the
    world it left restores the world before the call, the main stage's mutations
    first; its commit and rollback are final as for a reservation; and it reports
    whether its account is blocked now. *)
Theorem drop_copy_operation_reverts policies now (order : Order) st op st' :
  Forall DropCopyTransactional policies ->
  apply_drop_copy policies now order st = (Ok op, st') ->
  exists account, account_id order 0 = Ok account /\
  dco_account_blocked op = is_blocked (es_blocked st') (es_groups st') account /\
  es_groups st' = es_groups st /\
  (forall st1, es_world st1 = es_world st' ->
     let '(op', st2) := operation_rollback op st1 in
     es_world st2 = es_world st /\ es_accounts st2 = es_accounts st1 /\
     operation_commit op' st2 = None /\ operation_drop op' st2 = st2 /\ operation_drop op st1 = st2).
Proof.
  intros Hp. unfold apply_drop_copy. destruct (account_id order 0) as [account|e]; [|done].
  destruct (with_accounts_and_drop_copy account st) as [ctx s0] eqn:E0.
  destruct (drop_copy_start policies now order account st ctx s0 Hp E0)
    as (-> & rej & block & s1 & ms1 & -> & [Ho1 Hact1] & Hu1 & Ha1).
  destruct (fatal_drop_copy_rejects rej) as [fatal|].
  { destruct (take_drop_copy_start_mutations _ _). destruct (rollback_all _ _).
    by intros ?%fatal_exit_err. }
  destruct (run_pre_trade_main_stage _ _ _ _ _) as [r s2] eqn:E2.
  apply main_stage_tx in E2 as (Ha2 & Hc2 & _ & Hu2 & _); [|by apply drop_copy_all|intros _; exact Hact1].
  destruct (fatal_drop_copy_rejects (mr_rejects r)) as [fatal|].
  { destruct (rollback_all _ _). destruct (take_drop_copy_start_mutations _ _). destruct (rollback_all _ _).
    by intros ?%fatal_exit_err. }
  edestruct (take_open (mkPreTradeContext (Ok account) true) s2) as [cells ->]; [done|by rewrite Hc2|].
  cbn. intros [= <- <-]. exists account.
  split_and!; [done|done|unfold es_groups in *; cbn; congruence|].
  intros st3 Hw. cbn. unfold handle_rollback. cbn. rewrite rollback_all_app.
  destruct (undoes_all _ _ _ st3 Hu2 Hw) as (rb & st4 & -> & Hf & Hw4 & Ha4).
  destruct (undoes_all _ _ _ st4 Hu1 Hw4) as (rb' & st5 & -> & Hf' & Hw5 & Ha5).
  rewrite record_no_failure by by rewrite failed_append, Hf, Hf'.
  split_and!; [done|congruence|done..].
Qed.

(** ** The kill switch *)

Lemma block_account_blocks b groups account cause :
  is_blocked (block_account b account cause).2 groups account = true.
Proof.
  unfold is_blocked, with_blocking_cause. cbn. rewrite block_account_accounts. cbn.
  rewrite orb_true_r. cbn. by rewrite insert_if_absent_lookup, decide_True.
Qed.

Lemma all_flag_blocks b groups account : ba_all_flag b = true -> is_blocked b groups account = true.
Proof.
  intros Hb. unfold is_blocked, with_blocking_cause. cbn. rewrite Hb. cbn.
  destruct (ba_accounts _ !! account); [done|].
  destruct (if ba_blocked_groups_any_flag _ then _ else _); [done|]. by destruct (ba_global_block _).
Qed.

(** A failed finalizer always arms the kill switch for the account it ran
    for: whatever the provenance, and whether or not the account is known, the
    account is blocked afterwards; a custom policy's failure blocks everyone. *)
Theorem mutation_failure_blocks account (failure : MutationFailure) st groups :
  mf_scope failure <> None ->
  let st' := record_mutation_failure account failure st in
  (forall a, account = Some a -> is_blocked (es_blocked st') groups a = true) /\
  (mf_scope failure = Some ScopeGlobal \/ account = None ->
     forall a, is_blocked (es_blocked st') groups a = true).
Proof.
  intros Hs. unfold record_mutation_failure. destruct (mf_scope failure) as [[]|]; [| |done];
    destruct account as [a0|]; cbn; split; try naive_solver; intros; simplify_eq;
    solve [apply block_account_blocks | by apply all_flag_blocks].
Qed.

Lemma record_mutation_failure_blocks account (failure : MutationFailure) st groups :
  mf_scope failure <> None ->
  is_blocked (es_blocked (record_mutation_failure (Some account) failure st)) groups account = true.
Proof.
  intros Hs. unfold record_mutation_failure. destruct (mf_scope failure) as [[]|]; [| |done]; cbn;
    [apply block_account_blocks|by apply all_flag_blocks].
Qed.

(** ** Account adjustments *)

Lemma adjust_policies_tx actx account adjustment policies a (s s' : GroupCell * St) r a' :
  Forall Transactional policies ->
  adjust_policies actx account adjustment policies a s = (r, a', s') ->
  es_accounts s'.2 = es_accounts s.2 /\
  exists new, ms_mutations (aa_mutations a') = ms_mutations (aa_mutations a) ++ new /\
              undoes new (es_world s'.2) (es_world s.2).
Proof.
  intros Hp. revert a s. induction Hp as [|p ps Hp _ IH]; intros a s; cbn.
  { intros [= <- <- <-]. split; [done|]. exists []. by rewrite app_nil_r. }
  destruct (pol_apply_account_adjustment p actx account adjustment (aa_mutations a) s)
    as [[[result|rejects] ms1] s1] eqn:E; destruct (tx_adjust _ _ _ _ _ _ _ _ E) as (Ha & n1 & Hn1 & Hu1).
  - intros E2. destruct (IH _ _ E2) as (Ha2 & n2 & Hn2 & Hu2). split; [congruence|].
    exists (n1 ++ n2). cbn in Hn2. rewrite Hn2, Hn1, <- app_assoc. split; [done|]. by eapply undoes_app.
  - intros [= <- <- <-]. eauto.
Qed.

Lemma adjust_batch_tx actx account policies index adjustments a (s s' : GroupCell * St) e a' :
  Forall Transactional policies ->
  adjust_batch actx account policies index adjustments a s = (e, a', s') ->
  es_accounts s'.2 = es_accounts s.2 /\
  exists new, ms_mutations (aa_mutations a') = ms_mutations (aa_mutations a) ++ new /\
              undoes new (es_world s'.2) (es_world s.2).
Proof.
  intros Hp. revert index a s. induction adjustments as [|adj adjs IH]; intros index a s; cbn.
  { intros [= <- <- <-]. split; [done|]. exists []. by rewrite app_nil_r. }
  destruct (adjust_policies actx account adj policies a s) as [[[[]|rejects] a1] s1] eqn:E;
    apply adjust_policies_tx in E as (Ha & n1 & Hn1 & Hu1); [|done| |done].
  - intros E2. destruct (IH _ _ _ E2) as (Ha2 & n2 & Hn2 & Hu2). split; [congruence|].
    exists (n1 ++ n2). rewrite Hn2, Hn1, <- app_assoc. split; [done|]. by eapply undoes_app.
  - intros [= <- <- <-]. eauto.
Qed.

(** The plain order of the hook calls of a batch: adjustment by adjustment, policy by
    policy. *)
Definition adjustment_calls (adjustments : list AccountAdjustment) policies : list (AccountAdjustment * Policy) :=
  adjustments ≫= fun adjustment => (adjustment,.) <$> policies.

(** Makes the calls as long as they are accepted: the collector and the state after
    them, or [None] once one was refused. *)
Fixpoint all_accepted actx (account : AccountId) (calls : list (AccountAdjustment * Policy)) (ms : Mutations St)
    (s : GroupCell * St) : option (Mutations St * (GroupCell * St)) :=
  match calls with
  | [] => Some (ms, s)
  | (adjustment, policy) :: calls =>
      match pol_apply_account_adjustment policy actx account adjustment ms s with
      | (Ok _, ms, s) => all_accepted actx account calls ms s
      | (Err _, _, _) => None
      end
  end.

Lemma all_accepted_app actx account calls1 calls2 ms (s : GroupCell * St) :
  all_accepted actx account (calls1 ++ calls2) ms s =
  '(ms, s) ← all_accepted actx account calls1 ms s; all_accepted actx account calls2 ms s.
Proof.
  revert ms s. induction calls1 as [|[adj p] calls1 IH]; intros ms s; [done|]. cbn.
  destruct (pol_apply_account_adjustment _ _ _ _ _ _) as [[[|] ms1] s1]; [apply IH|done].
Qed.

(** The inner loop refuses at the first policy that does. *)
Lemma adjust_policies_calls actx account adjustment policies a (s s' : GroupCell * St) r a' :
  adjust_policies actx account adjustment policies a s = (r, a', s') ->
  match r with
  | Ok _ => all_accepted actx account ((adjustment,.) <$> policies) (aa_mutations a) s = Some (aa_mutations a', s')
  | Err rejects => exists earlier p later ms1 (s1 : GroupCell * St), policies = earlier ++ p :: later /\
      all_accepted actx account ((adjustment,.) <$> earlier) (aa_mutations a) s = Some (ms1, s1) /\
      pol_apply_account_adjustment p actx account adjustment ms1 s1 = (Err rejects, aa_mutations a', s')
  end.
Proof.
  revert a s. induction policies as [|p ps IH]; intros a s; cbn; [by intros [= <- <- <-]|].
  destruct (pol_apply_account_adjustment p actx account adjustment (aa_mutations a) s)
    as [[[result|rejects] ms1] s1] eqn:E.
  - intros Hr%IH. destruct r as [u|rejects]; [exact Hr|].
    destruct Hr as (earlier & p1 & later & ms2 & s2 & -> & Hacc & Hp). exists (p :: earlier), p1, later, ms2, s2.
    cbn. by rewrite E.
  - intros [= <- <- <-]. exists [], p, ps, (aa_mutations a), s. by rewrite E.
Qed.

(** The outer loop stops at the first adjustment that is refused, and says so. *)
Lemma adjust_batch_calls actx account policies index adjustments a (s s' : GroupCell * St) e a' :
  adjust_batch actx account policies index adjustments a s = (e, a', s') ->
  match e with
  | None => all_accepted actx account (adjustment_calls adjustments policies) (aa_mutations a) s =
              Some (aa_mutations a', s')
  | Some e => exists before adjustment after earlier p later ms1 (s1 : GroupCell * St),
      adjustments = before ++ adjustment :: after /\ policies = earlier ++ p :: later /\
      abe_failed_adjustment_index e = (index + length before)%nat /\
      all_accepted actx account (adjustment_calls before policies ++ ((adjustment,.) <$> earlier))
        (aa_mutations a) s = Some (ms1, s1) /\
      pol_apply_account_adjustment p actx account adjustment ms1 s1 = (Err (abe_rejects e), aa_mutations a', s')
  end.
Proof.
  revert index a s. induction adjustments as [|adj adjs IH]; intros index a s; cbn; [by intros [= <- <- <-]|].
  destruct (adjust_policies actx account adj policies a s) as [[r a1] s1] eqn:E.
  pose proof (adjust_policies_calls _ _ _ _ _ _ _ _ _ E) as Hc. destruct r as [[]|rejects].
  - intros Hb%IH. destruct e as [e|].
    + destruct Hb as (before & adjustment & after & earlier & p & later & ms2 & s2 & -> & -> & Hi & Hacc & Hp).
      exists (adj :: before), adjustment, after, earlier, p, later, ms2, s2.
      split_and!; [done|done|rewrite Hi; cbn; lia| |done].
      unfold adjustment_calls in *. cbn. by rewrite <- app_assoc, all_accepted_app, Hc.
    + unfold adjustment_calls in *. cbn. by rewrite all_accepted_app, Hc.
  - destruct Hc as (earlier & p & later & ms2 & s2 & -> & Hacc & Hp). intros [= <- <- <-].
    exists [], adj, adjs, earlier, p, later, ms2, s2. cbn. split_and!; [done|done|lia|done|done].
Qed.

(** C10: an adjustment batch is all or nothing.  It succeeds only if every policy
    accepted every adjustment, asked one after another in order.  When it fails, the
    reported index is that of the first refused adjustment - the calls for the earlier
    ones, and those of the policies before the one that refused, were accepted, from
    the state of the caller on - with exactly the rejects of that refusal, and the whole
    batch is undone: the policies' world and the blocked set are as before. *)
Theorem adjustment_batch_atomic policies account adjustments st :
  Forall Transactional policies ->
  let actx := mkAdjustmentContext account in
  let '(ms0, st0) := mutations_new st in
  let '(r, st') := apply_account_adjustment policies account adjustments st in
  match r with
  | Ok _ => is_Some (all_accepted actx account (adjustment_calls adjustments policies) ms0 (None, st0))
  | Err e =>
      es_world st' = es_world st /\ es_accounts st' = es_accounts st /\
      exists before adjustment after earlier p later ms1 ms2 (s1 s2 : GroupCell * St),
        adjustments = before ++ adjustment :: after /\ policies = earlier ++ p :: later /\
        abe_failed_adjustment_index e = length before /\
        all_accepted actx account (adjustment_calls before policies ++ ((adjustment,.) <$> earlier))
          ms0 (None, st0) = Some (ms1, s1) /\
        pol_apply_account_adjustment p actx account adjustment ms1 s1 = (Err (abe_rejects e), ms2, s2)
  end.
Proof.
  intros Hp. cbv zeta. unfold apply_account_adjustment.
  destruct (mutations_new st) as [ms st0] eqn:Em.
  destruct (mutations_new_state _ _ _ Em) as (Hn0 & Hw0 & Ha0).
  destruct adjustments as [|adj adjs]; [by eexists|]. set (adjustments := adj :: adjs).
  destruct (adjust_batch _ _ _ _ _ _ _) as [[err a] [cell st1]] eqn:E.
  pose proof (adjust_batch_calls _ _ _ _ _ _ _ _ _ _ E) as Hc. cbn [aa_mutations] in Hc. destruct err as [err|].
  2: { destruct (commit_all _ _). by eexists. }
  apply adjust_batch_tx in E as (Ha1 & new & Hn & Hu); [|done].
  cbn in Hn, Hu, Ha1. rewrite Hn0 in Hn. cbn in Hn. rewrite Hw0, <- Hn in Hu.
  destruct (undoes_all _ _ _ st1 Hu eq_refl) as (rb & st2 & -> & Hf & Hw2 & Ha2).
  rewrite record_no_failure by done. split_and!; [done|congruence|].
  destruct Hc as (before & adjustment & after & earlier & p & later & ms1 & s1 & Hs & Hps & Hi & Hacc & Hr).
  exists before, adjustment, after, earlier, p, later, ms1. eexists _, s1, _. by split_and!.
Qed.

(** An accepted batch commits once and then latches, unless the account is
    already blocked, the most severe cause first: the failed finalizer of an
    engine-owned mutation before the first block a policy reported. *)
Theorem adjustment_batch_blocks policies account adjustments st r st' :
  adjustments <> [] ->
  apply_account_adjustment policies account adjustments st = (Ok r, st') ->
  let '(ms, st0) := mutations_new st in
  let '(e, a, (_, st1)) := adjust_batch (mkAdjustmentContext account) account policies 0 adjustments
                             (mkAdjustAcc ms [] []) (None, st0) in
  let '(failure, st2) := commit_all (aa_mutations a) st1 in
  e = None /\ r = mkBatchResult (aa_outcomes a) (aa_account_blocks a) /\
  ba_accounts (es_blocked st') !! account =
    or_else (ba_accounts (es_blocked st2) !! account)
      (or_else (match mf_scope failure with
                | Some ScopeAccount => Some new_mutation_finalizer_block
                | _ => None
                end) (head (abr_account_blocks r))).
Proof.
  intros Hne. unfold apply_account_adjustment. destruct adjustments as [|adj adjs]; [done|].
  destruct (mutations_new st) as [ms st0].
  destruct (adjust_batch _ _ _ _ _ _ _) as [[[err|] a] [cell st1]]; [by destruct (rollback_all _ _)|].
  destruct (commit_all (aa_mutations a) st1) as [failure st2] eqn:E. intros [= <- <-].
  split_and!; [done..|]. cbn. rewrite block_all_of_lookup, decide_True by done.
  unfold record_mutation_failure, or_else.
  destruct (mf_scope failure) as [[]|]; cbn; [|by destruct (ba_accounts _ !! account)..].
  rewrite block_account_accounts. cbn. rewrite insert_if_absent_lookup, decide_True by done.
  by destruct (ba_accounts (es_blocked st2) !! account).
Qed.

(** ** Retirement *)

Lemma retire_fold policies account refusals (ms : Mutations St) st refusals' ms' st' :
  Forall Transactional policies ->
  foldl (retire_step account) (refusals, ms, st) policies = (refusals', ms', st') ->
  es_accounts st' = es_accounts st /\
  exists new, ms_mutations ms' = ms_mutations ms ++ new /\ undoes new (es_world st') (es_world st).
Proof.
  intros Hp. revert refusals ms st. induction Hp as [|p ps Hp _ IH]; intros refusals ms st; cbn.
  { intros [= <- <- <-]. split; [done|]. exists []. by rewrite app_nil_r. }
  destruct (pol_retire_account p account ms st) as [[r ms1] st1] eqn:E.
  destruct (tx_retire _ _ _ _ _ _ E) as (Ha & n1 & Hn1 & Hu1).
  assert (Hs : exists rf, (match r with
     | Ok _ => (refusals, ms1, st1)
     | Err refusal => (refusals ++ [mkPolicyRefusal (pol_name p) refusal], ms1, st1) end) = (rf, ms1, st1))
    by (destruct r; eauto).
  destruct Hs as [rf ->]. intros E2. destruct (IH _ _ _ E2) as (Ha2 & n2 & Hn2 & Hu2).
  split; [congruence|]. exists (n1 ++ n2). rewrite Hn2, Hn1, <- app_assoc. split; [done|].
  by eapply undoes_app.
Qed.

(** Retirement is decided by all policies together: one refusal undoes what
    any of them did and leaves every facility as it was; success leaves the
    account as if it had never been seen - no group, no currency of its own, no
    block - whatever it was before; a failed finalizer leaves it blocked. *)
Theorem retire_account_spec policies account st :
  Forall Transactional policies ->
  let '(r, st') := retire_account policies account st in
  match r with
  | Err (Refused refusals) =>
      refusals <> [] /\ es_world st' = es_world st /\ es_accounts st' = es_accounts st
  | Err FinalizerFailed => forall groups, is_blocked (es_blocked st') groups account = true
  | Ok _ =>
      group_of (es_groups st') account = None /\
      ba_accounts (es_blocked st') !! account = None /\
      ac_accounts (as_currencies (es_accounts st')) !! account = None
  end.
Proof.
  intros Hp. unfold retire_account. destruct (mutations_new st) as [ms st0] eqn:Em.
  destruct (mutations_new_state _ _ _ Em) as (Hn0 & Hw0 & Ha0).
  destruct (foldl _ _ policies) as [[refusals ms1] st1] eqn:E.
  apply retire_fold in E as (Ha1 & new & Hn & Hu); [|done].
  rewrite Hn0 in Hn. cbn in Hn. rewrite Hw0, <- Hn in Hu.
  destruct refusals as [|rf rfs]; cbn [is_nil negb].
  - destruct (commit_all ms1 st1) as [f st2] eqn:Ec. destruct (failure_failed f) eqn:Ef.
    + intros groups. apply record_mutation_failure_blocks. unfold failure_failed in Ef.
      by destruct (mf_scope f).
    + split_and!; apply lookup_delete_eq.
  - destruct (undoes_all _ _ _ st1 Hu eq_refl) as (rb & st2 & -> & Hf & Hw2 & Ha2).
    rewrite record_no_failure by done. split_and!; [done|done|congruence].
Qed.

(** ** Execution reports *)

Fixpoint ask_report (ctx : PostTradeContext) (report : ExecutionReport) policies (s : GroupCell * St) :
    list PostTradeResult * (GroupCell * St) :=
  match policies with
  | [] => ([], s)
  | p :: policies =>
      let '(r, s) := pol_apply_execution_report p ctx report s in
      let '(rs, s) := ask_report ctx report policies s in
      (match r with Some r => r :: rs | None => rs end, s)
  end.

Lemma report_fold (pctx : PostTradeContext) report policies out (s : GroupCell * St) :
  foldl (report_step pctx report) (out, s) policies =
  let '(rs, s') := ask_report pctx report policies s in
  (mkPostTradeResult (ptr_account_blocks out ++ (rs ≫= ptr_account_blocks))
     (ptr_account_pnls out ++ (rs ≫= ptr_account_pnls))
     (ptr_account_adjustments out ++ (rs ≫= ptr_account_adjustments)), s').
Proof.
  revert out s. induction policies as [|p ps IH]; intros out s; cbn.
  { rewrite !app_nil_r. by destruct out. }
  destruct (pol_apply_execution_report p pctx report s) as [[r|] s1].
  - rewrite IH. destruct (ask_report pctx report ps s1) as [rs s2]. cbn. by rewrite <- !app_assoc.
  - rewrite IH. by destruct (ask_report pctx report ps s1) as [rs s2].
Qed.

(** An execution report is offered to every policy once, in order, and its
    results are concatenated; if any block is reported, the account of the report
    is blocked when the call returns - and if that account cannot be read, every
    account is. *)
Theorem apply_execution_report_spec policies report st :
  let ctx := mkPostTradeContext (result_ok (account_id report 0)) in
  let '(out, st') := apply_execution_report policies report st in
  (let '(rs, _) := ask_report ctx report policies (None, st) in
   out = mkPostTradeResult (rs ≫= ptr_account_blocks) (rs ≫= ptr_account_pnls)
           (rs ≫= ptr_account_adjustments)) /\
  (ptr_account_blocks out <> [] ->
     forall account, (account_id report 1 = Ok account \/ exists e, account_id report 1 = Err e) ->
     is_blocked (es_blocked st') (es_groups st') account = true).
Proof.
  cbv zeta. unfold apply_execution_report. rewrite report_fold.
  destruct (ask_report _ report policies _) as [rs [cell st1]]. cbn. split; [done|].
  destruct (rs ≫= ptr_account_blocks) as [|b bs]; [done|]. intros _ account Ha. cbn.
  destruct Ha as [->|[e ->]]; [apply block_account_blocks|by apply all_flag_blocks].
Qed.

(** ** Dry run *)

(** The dry-run hooks of a policy neither change anything nor register a
    mutation whose disposal would. *)
Class DryRunQuiet (p : Policy) : Prop := {
  dq_start ctx order s r s' :
    check_pre_trade_start_dry_run p ctx order s = (r, s') -> is_drop_copy ctx = false ->
    es_world s'.2 = es_world s.2 /\ es_accounts s'.2 = es_accounts s.2;
  dq_perform ctx order ms s r ms' s' :
    perform_pre_trade_check_dry_run p ctx order ms s = (r, ms', s') -> is_drop_copy ctx = false ->
    es_world s'.2 = es_world s.2 /\ es_accounts s'.2 = es_accounts s.2 /\
    (Forall (fun m => mut_lifetime_guard m = None) (ms_mutations ms) ->
     Forall (fun m => mut_lifetime_guard m = None) (ms_mutations ms'))
}.

Lemma after_verdict_normal {T} ctx (r : result PRejects T) s : is_drop_copy ctx = false ->
  after_verdict ctx r s = s.
Proof. unfold after_verdict, record_reject_block. intros ->. by destruct r. Qed.

Lemma ask_start_dry ctx order policies s rs s' :
  Forall DryRunQuiet policies -> is_drop_copy ctx = false ->
  ask_start check_pre_trade_start_dry_run ctx order policies s = (rs, s') ->
  es_world s'.2 = es_world s.2 /\ es_accounts s'.2 = es_accounts s.2.
Proof.
  intros Hp Hd. revert s rs. induction Hp as [|p ps Hp _ IH]; intros s rs; [by intros [= <- <-]|].
  cbn. destruct (check_pre_trade_start_dry_run p ctx order s) as [r s1] eqn:E.
  destruct (dq_start _ _ _ _ _ E Hd) as [Hw Ha]. fold (after_verdict ctx r s1).
  rewrite after_verdict_normal by done.
  destruct (ask_start _ ctx order ps s1) as [rs1 s2] eqn:E2. intros [= <- <-].
  destruct (IH _ _ E2). split; congruence.
Qed.

Lemma ask_main_dry ctx order policies ms s rs ms' s' :
  Forall DryRunQuiet policies -> is_drop_copy ctx = false ->
  ask_main perform_pre_trade_check_dry_run ctx order policies ms s = (rs, ms', s') ->
  es_world s'.2 = es_world s.2 /\ es_accounts s'.2 = es_accounts s.2 /\
  (Forall (fun m => mut_lifetime_guard m = None) (ms_mutations ms) ->
   Forall (fun m => mut_lifetime_guard m = None) (ms_mutations ms')).
Proof.
  intros Hp Hd. revert ms s rs. induction Hp as [|p ps Hp _ IH]; intros ms s rs; [by intros [= <- <- <-]|].
  rewrite ask_main_cons.
  destruct (perform_pre_trade_check_dry_run p ctx order ms s) as [[r ms1] s1] eqn:E.
  destruct (dq_perform _ _ _ _ _ _ _ E Hd) as (Hw & Ha & Hg). rewrite after_verdict_normal by done.
  destruct (ask_main _ ctx order ps ms1 s1) as [[rs1 ms2] s2] eqn:E2. intros [= <- <- <-].
  destruct (IH _ _ _ E2) as (? & ? & ?). split_and!; [congruence..|auto].
Qed.

Lemma mutations_drop_none (ms : Mutations St) st :
  Forall (fun m => mut_lifetime_guard m = None) (ms_mutations ms) -> mutations_drop ms st = st.
Proof.
  destruct ms as [l o]. unfold mutations_drop. cbn. revert st. induction l as [|m l IH]; intros st; [done|].
  intros [Hm Hl]%Forall_cons. cbn. unfold drop_guard. rewrite Hm. auto.
Qed.

(** C15: a dry run is free: neither entry point changes the policies' world, the
    groups, the currencies or the blocked set, even when it reports the block a
    real call would latch; a blocked account is answered from the blocked set. *)
Theorem dry_run_changes_nothing policies now (order : Order) st :
  Forall DryRunQuiet policies ->
  (let '(report, st') := execute_pre_trade_dry_run policies now order st in
   es_world st' = es_world st /\ es_accounts st' = es_accounts st /\
   forall rejects, check (es_blocked st) (es_groups st) (result_ok (account_id order 0)) RS_Order = Some rejects ->
     dr_rejects report = Some rejects /\ dr_account_block report = None) /\
  (let '(_, st') := start_pre_trade_dry_run policies now order st in
   es_world st' = es_world st /\ es_accounts st' = es_accounts st).
Proof.
  intros Hp. unfold execute_pre_trade_dry_run, start_pre_trade_dry_run.
  destruct (check _ _ _ _) as [rej|] eqn:Ec.
  { split; [|done]. split_and!; [done..|]. by intros rejects [= ->]. }
  cbn. unfold with_start_pre_trade_now. rewrite run_start_spec. cbn.
  destruct (ask_start _ _ order policies _) as [rs [cells st1]] eqn:E.
  apply ask_start_dry in E as [Hw Ha]; [|done..]. cbn in Hw, Ha.
  split; [|done]. unfold merged. destruct (is_nil (all_rejects rs)); [|done].
  cbn -[run_pre_trade_main_stage]. rewrite run_main_spec. destruct (mutations_new _) as [ms0 st2] eqn:Em.
  destruct (mutations_new_state _ _ _ Em) as (Hn0 & Hw0 & Ha0). cbn in Hw0, Ha0.
  destruct (ask_main _ _ order policies ms0 _) as [[rs1 ms] [cells1 st3]] eqn:E2.
  apply ask_main_dry in E2 as (Hw2 & Ha2 & Hg); [|done..]. cbn in Hw2, Ha2.
  cbn -[mutations_drop]. rewrite mutations_drop_none by (apply Hg; by rewrite Hn0).
  split_and!; [congruence..|done].
Qed.
End EngineOps.
