(* ===== verification/Storage.v ===== *)
(** * Storage: the keyed storage every component keeps its state in

    src/crates/openpit/src/storage/storage.rs.  A storage is a finite map.  An
    accessor that upgrades from the shared to the exclusive index lock is two
    atomic phases, and the map may change in between. *)
From S2P Require Import Prelude.

Section Storage.
Context `{Countable Key} {Value : Type}.
Implicit Types (m : gmap Key Value) (key : Key).

Definition storage_len m : nat := size m.
Definition storage_is_empty m : bool := Nat.eqb (storage_len m) 0.
Definition storage_keys m : list Key := (map_to_list m).*1.

Definition storage_with {Output} m key (reader : Value -> Output) : option Output :=
  reader <$> m !! key.

(** A mutator returns its output and the value it leaves in the slot. *)
Definition with_mut_if_present {Output} m key (mutator : Value -> Output * Value) :
    option Output * gmap Key Value :=
  match m !! key with
  | Some value => let '(output, value) := mutator value in (Some output, <[key := value]> m)
  | None => (None, m)
  end.

(** The fast path under the shared index and the slow path under the exclusive
    one, which looks the key up again. *)
Definition with_mut_fast {Output} m key (mutator : Value -> bool -> Output * Value) :
    option (Output * gmap Key Value) :=
  match m !! key with
  | Some value => let '(output, value) := mutator value false in Some (output, <[key := value]> m)
  | None => None
  end.

Definition with_mut_slow {Output} m key (default : Value)
    (mutator : Value -> bool -> Output * Value) : Output * gmap Key Value :=
  let '(value, already_present) :=
    match m !! key with Some value => (value, true) | None => (default, false) end in
  let '(output, value) := mutator value (negb already_present) in
  (output, <[key := value]> m).

(** The accessor whose fast path sees [m1] and whose slow path [m2]; the map it
    leaves replaces the one its last phase saw. *)
Definition with_mut_phased {Output} m1 m2 key (default : Value)
    (mutator : Value -> bool -> Output * Value) : Output * gmap Key Value :=
  match with_mut_fast m1 key mutator with
  | Some r => r
  | None => with_mut_slow m2 key default mutator
  end.

Definition with_mut {Output} m key (default : Value) (mutator : Value -> bool -> Output * Value) :
    Output * gmap Key Value :=
  with_mut_phased m m key default mutator.

(** The variants of an engine-wide storage, under the exclusive index throughout:
    one atomic phase on a hit and on a miss. *)
Definition with_mut_if_present_exclusive_index {Output} m key (mutator : Value -> Output * Value) :
    option Output * gmap Key Value :=
  match m !! key with
  | Some value => let '(output, value) := mutator value in (Some output, <[key := value]> m)
  | None => (None, m)
  end.

Definition with_mut_exclusive_index {Output} m key (default : Value)
    (mutator : Value -> bool -> Output * Value) : Output * gmap Key Value :=
  let '(value, inserted) :=
    match m !! key with Some value => (value, false) | None => (default, true) end in
  let '(output, value) := mutator value inserted in
  (output, <[key := value]> m).

Definition prune_new_slow {Output Error} m key (default : Value) (prune_if : Value -> bool)
    (mutator : Value -> bool -> result Error Output * Value) :
    result Error Output * gmap Key Value :=
  let '(value, already_present) :=
    match m !! key with Some value => (value, true) | None => (default, false) end in
  let '(r, value) := mutator value (negb already_present) in
  let m := <[key := value]> m in
  if negb already_present
  then let should_remove := match r with Err _ => true | Ok _ => prune_if value end in
       (r, if should_remove then delete key m else m)
  else (r, m).

Definition prune_new_phased {Output Error} m1 m2 key (default : Value) (prune_if : Value -> bool)
    (mutator : Value -> bool -> result Error Output * Value) :
    result Error Output * gmap Key Value :=
  match with_mut_fast m1 key mutator with
  | Some r => r
  | None => prune_new_slow m2 key default prune_if mutator
  end.

Definition with_mut_or_insert_prune_new_if {Output Error} m key (default : Value)
    (prune_if : Value -> bool) (mutator : Value -> bool -> result Error Output * Value) :
    result Error Output * gmap Key Value :=
  prune_new_phased m m key default prune_if mutator.

Definition with_mut_or_insert {Output Error} m key (default : Value)
    (mutator : Value -> bool -> result Error Output * Value) : result Error Output * gmap Key Value :=
  with_mut_or_insert_prune_new_if m key default (fun _ => false) mutator.

Definition insert_if_absent_phased m1 m2 key (default : Value) : bool * gmap Key Value :=
  match m1 !! key with
  | Some _ => (false, m1)
  | None => match m2 !! key with
            | Some _ => (false, m2)
            | None => (true, <[key := default]> m2)
            end
  end.

Definition storage_remove m key : bool * gmap Key Value :=
  match m !! key with Some _ => (true, delete key m) | None => (false, m) end.

Definition storage_remove_if m key (predicate : Value -> bool) : bool * gmap Key Value :=
  match m !! key with
  | Some value => if predicate value then (true, delete key m) else (false, m)
  | None => (false, m)
  end.

(** ** Properties *)

(** The double-checked accessors are atomic: whatever happened to the map
    between their two phases, each behaves as its one-step version on one of the
    two maps it saw - the first when it found the key there, the second
    otherwise; in particular a key that appeared in between is not initialized
    again. *)
Theorem storage_accessors_atomic {Output Error} m1 m2 key (d : Value) prune_if
    (f : Value -> bool -> Output * Value) (g : Value -> bool -> result Error Output * Value) :
  let m := if decide (is_Some (m1 !! key)) then m1 else m2 in
  with_mut_phased m1 m2 key d f = with_mut m key d f /\
  prune_new_phased m1 m2 key d prune_if g = with_mut_or_insert_prune_new_if m key d prune_if g /\
  insert_if_absent_phased m1 m2 key d = insert_if_absent_phased m m key d.
Proof.
  cbv zeta. unfold with_mut, with_mut_or_insert_prune_new_if, with_mut_phased, prune_new_phased,
    insert_if_absent_phased, with_mut_fast. case_decide as Hs.
  - destruct Hs as [v Hv]. rewrite Hv. by destruct (f v false), (g v false).
  - apply eq_None_not_Some in Hs. rewrite Hs. destruct (m2 !! key) as [v|] eqn:E; [|done].
    unfold with_mut_slow, prune_new_slow. rewrite E. cbn. by destruct (f v false), (g v false).
Qed.

(** Holding the exclusive index throughout changes who waits for whom, not what an
    accessor does: the engine-wide variant agrees with the double-checked accessor
    on whichever map that one settled on. *)
Lemma exclusive_index_agrees {Output} m1 m2 key (d : Value) (f : Value -> bool -> Output * Value) :
  let m := if decide (is_Some (m1 !! key)) then m1 else m2 in
  with_mut_phased m1 m2 key d f = with_mut_exclusive_index m key d f.
Proof.
  cbv zeta. unfold with_mut_phased, with_mut_fast, with_mut_slow, with_mut_exclusive_index. case_decide as Hs.
  - destruct Hs as [v Hv]. rewrite Hv. by destruct (f v false).
  - apply eq_None_not_Some in Hs. rewrite Hs. by destruct (m2 !! key).
Qed.

(** An accessor that may fail leaves no phantom entry: a slot it had to create
    survives only when the mutator succeeded and the value is worth keeping; a
    slot that existed keeps what the mutator wrote even on an error, and no other
    slot is touched. *)
Theorem with_mut_or_insert_prune_new_if_spec {Output Error} m key (d : Value) prune_if
    (f : Value -> bool -> result Error Output * Value) :
  let '(r, m') := with_mut_or_insert_prune_new_if m key d prune_if f in
  (forall k, k <> key -> m' !! k = m !! k) /\
  match m !! key with
  | Some v => (r, m' !! key) = ((f v false).1, Some (f v false).2)
  | None =>
      r = (f d true).1 /\
      (m' !! key = None <-> is_ok r = false \/ prune_if (f d true).2 = true) /\
      (forall v, m' !! key = Some v -> v = (f d true).2)
  end.
Proof.
  unfold with_mut_or_insert_prune_new_if, prune_new_phased, with_mut_fast, prune_new_slow.
  destruct (m !! key) as [v|] eqn:E.
  - destruct (f v false) as [r v']. split; [|by rewrite lookup_insert_eq].
    intros k Hk. by rewrite lookup_insert_ne.
  - cbn. destruct (f d true) as [[o|e] v']; cbn.
    + destruct (prune_if v'); (split; [intros k Hk|split; [done|]]);
        rewrite ?lookup_delete_ne, ?lookup_delete_eq, ?lookup_insert_ne, ?lookup_insert_eq by done;
        naive_solver.
    + split; [intros k Hk|split; [done|]];
        rewrite ?lookup_delete_ne, ?lookup_delete_eq, ?lookup_insert_ne by done; naive_solver.
Qed.

End Storage.
