(* ===== verification/Locking.v ===== *)
(** * Locking: the storage accessors under their locking strategies

    src/crates/openpit/src/storage/storage.rs as programs of lock acquisitions and
    accesses to the map, run by any number of threads under the strategies of
    storage/policies.  The index domain covers the set of keys, the values domain
    what is stored under them.  [Storage] has what an accessor computes; here is
    the order in which it locks, looks and writes. *)
From S2P Require Import Prelude.
From S2P Require Import Storage.

Inductive Domain : Set := Index | Values.
Inductive LockMode : Set := Shared | Exclusive.

#[export] Instance Domain_eq_dec : EqDecision Domain.
Proof. solve_decision. Defined.
#[export] Instance LockMode_eq_dec : EqDecision LockMode.
Proof. solve_decision. Defined.

(** storage/policies/full_locking.rs, index_locking.rs and no_locking.rs. *)
Inductive Strategy : Set := FullLocking | IndexLocking | NoLocking.

(** Which domains a strategy has a lock for: the guards of the others are units. *)
Definition full_locks (d : Domain) : bool := match d with Index => true | Values => true end.
Definition index_locks (d : Domain) : bool := match d with Index => true | Values => false end.
Definition no_locks (d : Domain) : bool := match d with Index => false | Values => false end.

Definition locks (strategy : Strategy) : Domain -> bool :=
  match strategy with
  | FullLocking => full_locks
  | IndexLocking => index_locks
  | NoLocking => no_locks
  end.

(** A strategy without an engine-side lease leaves it to the caller to run the
    exclusive operations alone. *)
Definition serializes_state_transitions (strategy : Strategy) : bool :=
  match strategy with FullLocking => true | IndexLocking | NoLocking => false end.

(** core/sync_mode.rs, by the storage strategy a mode picks, and the mode bindings
    choose at run time, whose storage dispatches on a [PolicyImpl]. *)
Inductive SyncMode : Set := LocalSync | FullSync | AccountSync.
Inductive RuntimeSyncMode : Set := RuntimeNone | RuntimeFull | RuntimeAccount.

Definition storage_locking_policy_factory (mode : SyncMode) : Strategy :=
  match mode with LocalSync => NoLocking | FullSync => FullLocking | AccountSync => IndexLocking end.

Definition create_policy (mode : RuntimeSyncMode) : Strategy :=
  match mode with RuntimeNone => NoLocking | RuntimeFull => FullLocking | RuntimeAccount => IndexLocking end.

(** Whether a guard of [StorageLockingPolicy] is a lock and not [Noop]. *)
Definition runtime_locks (mode : RuntimeSyncMode) (d : Domain) : bool :=
  match create_policy mode, d with
  | FullLocking, _ => true
  | NoLocking, _ => false
  | IndexLocking, Index => true
  | IndexLocking, Values => false
  end.

Definition runtime_serializes_state_transitions (mode : RuntimeSyncMode) : bool :=
  match mode with RuntimeFull => true | RuntimeNone | RuntimeAccount => false end.

(** [new_lock] of the market data service is a lock and not a no-op. *)
Definition runtime_market_data_locks (mode : RuntimeSyncMode) : bool :=
  match mode with RuntimeNone => false | RuntimeFull | RuntimeAccount => true end.

(** Holds of two threads on one domain that may coexist. *)
Definition compatible (a b : option LockMode) : Prop :=
  match a, b with
  | None, _ | _, None => True
  | Some Shared, Some Shared => True
  | _, _ => False
  end.

#[export] Instance compatible_dec a b : Decision (compatible a b).
Proof. destruct a as [[]|], b as [[]|]; cbn; apply _. Defined.

Section Locking.
Context `{Countable Key} {Value Output : Type}.
Implicit Types (m : gmap Key Value) (k : Key).

(** ** Programs *)

(** [Inspect] looks at the set of keys; a value is read and written through the
    reference the lookup gave, so its key must still be there. *)
Inductive Prog : Type :=
| Done (o : Output)
| Acquire (d : Domain) (mode : LockMode) (p : Prog)
| Release (d : Domain) (p : Prog)
| Inspect (c : gset Key -> Prog)
| InsertEntry k (v : Value) (p : Prog)
| RemoveEntry k (p : Prog)
| ReadValue k (c : Value -> Prog)
| WriteValue k (v : Value) (p : Prog).

(** [get(key)] *)
Definition Find k (c : bool -> Prog) : Prog := Inspect (fun keys => c (bool_decide (k ∈ keys))).

(** A program to its next release, run by one thread alone; [None] is a reference
    to an entry that is gone. *)
Fixpoint run_section (p : Prog) m : option (Prog * gmap Key Value) :=
  match p with
  | Done _ | Release _ _ => Some (p, m)
  | Acquire _ _ p => run_section p m
  | Inspect c => run_section (c (dom m)) m
  | InsertEntry k v p => run_section p (<[k := v]> m)
  | RemoveEntry k p => run_section p (delete k m)
  | ReadValue k c => m !! k ≫= fun v => run_section (c v) m
  | WriteValue k v p =>
      match m !! k with Some _ => run_section p (<[k := v]> m) | None => None end
  end.

Fixpoint skip_releases (p : Prog) : Prog :=
  match p with Release _ p => skip_releases p | _ => p end.

(** The output of a program and the map it leaves, when its sections run one after
    another on the maps of the list. *)
Fixpoint run_phases (p : Prog) (ms : list (gmap Key Value)) : option (Output * gmap Key Value) :=
  match ms with
  | [] => None
  | m :: ms =>
      '(q, m') ← run_section p m;
      match skip_releases q with
      | Done o => Some (o, m')
      | p => run_phases p ms
      end
  end.

(** ** The accessors *)

Definition prog_len (output : nat -> Output) : Prog :=
  Acquire Index Shared (Inspect (fun keys => Release Index (Done (output (size keys))))).

(** [keys] hands out a copy of the key set, in no order. *)
Definition prog_keys (output : gset Key -> Output) : Prog :=
  Acquire Index Shared (Inspect (fun keys => Release Index (Done (output keys)))).

Definition prog_with k (reader : Value -> Output) (missing : Output) : Prog :=
  Acquire Index Shared (Find k (fun found =>
    if found then
      Acquire Values Shared (ReadValue k (fun value =>
        Release Values (Release Index (Done (reader value)))))
    else Release Index (Done missing))).

Definition prog_with_mut_if_present k (mutator : Value -> Output * Value) (missing : Output) : Prog :=
  Acquire Index Shared (Find k (fun found =>
    if found then
      Acquire Values Exclusive (ReadValue k (fun value =>
        let '(output, value) := mutator value in
        WriteValue k value (Release Values (Release Index (Done output)))))
    else Release Index (Done missing))).

Definition prog_with_mut_if_present_exclusive_index k (mutator : Value -> Output * Value)
    (missing : Output) : Prog :=
  Acquire Index Exclusive (Find k (fun found =>
    if found then
      Acquire Values Exclusive (ReadValue k (fun value =>
        let '(output, value) := mutator value in
        WriteValue k value (Release Values (Release Index (Done output)))))
    else Release Index (Done missing))).

(** The section that has the index exclusively: the entry, then the mutator. *)
Definition prog_entry k (default : Value) (body : bool -> Prog) : Prog :=
  Acquire Index Exclusive (Find k (fun found =>
    if found then Acquire Values Exclusive (body true)
    else InsertEntry k default (Acquire Values Exclusive (body false)))).

(** [drop(index_guard)] of the fast path comes before the values guard's end of
    scope. *)
Definition prog_fast k (mutator : Value -> bool -> Output * Value) (slow : Prog) : Prog :=
  Acquire Index Shared (Find k (fun found =>
    if found then
      Acquire Values Exclusive (ReadValue k (fun value =>
        let '(output, value) := mutator value false in
        WriteValue k value (Release Index (Release Values (Done output)))))
    else Release Index slow)).

Definition prog_mutate k (mutator : Value -> bool -> Output * Value) (already_present : bool) : Prog :=
  ReadValue k (fun value =>
    let '(output, value) := mutator value (negb already_present) in
    WriteValue k value (Release Values (Release Index (Done output)))).

Definition prog_with_mut k (default : Value) (mutator : Value -> bool -> Output * Value) : Prog :=
  prog_fast k mutator (prog_entry k default (prog_mutate k mutator)).

Definition prog_with_mut_exclusive_index k (default : Value)
    (mutator : Value -> bool -> Output * Value) : Prog :=
  prog_entry k default (prog_mutate k mutator).

(** [is_err] tells an [Err] among the outputs. *)
Definition prog_with_mut_or_insert_prune_new_if k (default : Value) (prune_if : Value -> bool)
    (is_err : Output -> bool) (mutator : Value -> bool -> Output * Value) : Prog :=
  let leave output := Release Values (Release Index (Done output)) in
  prog_fast k mutator (prog_entry k default (fun already_present =>
    ReadValue k (fun value =>
      let '(output, value) := mutator value (negb already_present) in
      WriteValue k value (
        if already_present then leave output
        else if is_err output then RemoveEntry k (leave output)
        else ReadValue k (fun value =>
          if prune_if value then RemoveEntry k (leave output) else leave output))))).

Definition prog_insert_if_absent k (default : Value) (output : bool -> Output) : Prog :=
  Acquire Index Shared (Find k (fun found =>
    Release Index (
      if found then Done (output false)
      else Acquire Index Exclusive (Find k (fun found =>
        if found then Release Index (Done (output false))
        else InsertEntry k default (Release Index (Done (output true)))))))).

Definition prog_remove k (output : bool -> Output) : Prog :=
  Acquire Index Exclusive (Acquire Values Exclusive (Find k (fun found =>
    RemoveEntry k (Release Values (Release Index (Done (output found))))))).

Definition prog_remove_if k (predicate : Value -> bool) (output : bool -> Output) : Prog :=
  let leave removed := Release Values (Release Index (Done (output removed))) in
  Acquire Index Exclusive (Acquire Values Exclusive (Find k (fun found =>
    if found then
      ReadValue k (fun value => if predicate value then RemoveEntry k (leave true) else leave false)
    else leave false))).

(** *** The accessors as data

    Everything a thread can be inside of, with the key whose value the call works on. *)
Inductive Accessor : Type :=
| AccLen (output : nat -> Output)
| AccKeys (output : gset Key -> Output)
| AccWith k (reader : Value -> Output) (missing : Output)
| AccWithMutIfPresent k (mutator : Value -> Output * Value) (missing : Output)
| AccWithMutIfPresentExclusiveIndex k (mutator : Value -> Output * Value) (missing : Output)
| AccWithMut k (default : Value) (mutator : Value -> bool -> Output * Value)
| AccWithMutExclusiveIndex k (default : Value) (mutator : Value -> bool -> Output * Value)
| AccWithMutOrInsertPruneNewIf k (default : Value) (prune_if : Value -> bool) (is_err : Output -> bool)
    (mutator : Value -> bool -> Output * Value)
| AccInsertIfAbsent k (default : Value) (output : bool -> Output)
| AccRemove k (output : bool -> Output)
| AccRemoveIf k (predicate : Value -> bool) (output : bool -> Output).

Definition accessor_prog (a : Accessor) : Prog :=
  match a with
  | AccLen output => prog_len output
  | AccKeys output => prog_keys output
  | AccWith k reader missing => prog_with k reader missing
  | AccWithMutIfPresent k mutator missing => prog_with_mut_if_present k mutator missing
  | AccWithMutIfPresentExclusiveIndex k mutator missing => prog_with_mut_if_present_exclusive_index k mutator missing
  | AccWithMut k default mutator => prog_with_mut k default mutator
  | AccWithMutExclusiveIndex k default mutator => prog_with_mut_exclusive_index k default mutator
  | AccWithMutOrInsertPruneNewIf k default prune_if is_err mutator =>
      prog_with_mut_or_insert_prune_new_if k default prune_if is_err mutator
  | AccInsertIfAbsent k default output => prog_insert_if_absent k default output
  | AccRemove k output => prog_remove k output
  | AccRemoveIf k predicate output => prog_remove_if k predicate output
  end.

Definition accessor_key (a : Accessor) : option Key :=
  match a with
  | AccLen _ | AccKeys _ => None
  | AccWith k _ _ | AccWithMutIfPresent k _ _ | AccWithMutIfPresentExclusiveIndex k _ _ | AccWithMut k _ _
  | AccWithMutExclusiveIndex k _ _ | AccWithMutOrInsertPruneNewIf k _ _ _ _ | AccInsertIfAbsent k _ _
  | AccRemove k _ | AccRemoveIf k _ _ => Some k
  end.

(** ** Threads *)

(** The key whose value the program works on, and the guards the thread has. *)
Record Thread : Type := mkThread {
  th_key : option Key;
  th_prog : Prog;
  th_index : option LockMode;
  th_values : option LockMode
}.

Definition held (th : Thread) (d : Domain) : option LockMode :=
  match d with Index => th_index th | Values => th_values th end.

Definition set_held (th : Thread) (d : Domain) (mode : option LockMode) (p : Prog) : Thread :=
  match d with
  | Index => mkThread (th_key th) p mode (th_values th)
  | Values => mkThread (th_key th) p (th_index th) mode
  end.

Definition with_prog (th : Thread) (p : Prog) : Thread :=
  mkThread (th_key th) p (th_index th) (th_values th).

(** A lock is granted when no other thread's guard conflicts; a strategy without a
    lock for the domain grants at once. *)
Definition granted (strategy : Strategy) (ts : list (option Thread)) (i : nat) (d : Domain)
    (mode : LockMode) : Prop :=
  locks strategy d = true ->
  forall j th, j <> i -> ts !! j = Some (Some th) -> compatible (Some mode) (held th d).

(** The table a storage serves: one that a policy shards by account, or one of the
    engine's own (storage/engine_wide.rs), which calls for any account read and
    which writes values only under the exclusive index. *)
Inductive TableKind : Set := Sharded | EngineWide.

(** The accessors each of them has; [upsert] of an engine-wide table and its
    [with_mut_if_present] are the variants under the exclusive index. *)
Definition offers (table : TableKind) (a : Accessor) : bool :=
  match table, a with
  | Sharded, _ => true
  | EngineWide, AccLen _ | EngineWide, AccWith _ _ _ | EngineWide, AccInsertIfAbsent _ _ _
  | EngineWide, AccWithMutExclusiveIndex _ _ _ | EngineWide, AccWithMutIfPresentExclusiveIndex _ _ _
  | EngineWide, AccRemove _ _ => true
  | EngineWide, _ => false
  end.

(** What the threading contract of each synchronization mode promises when a call
    begins: nothing under full locking; under index locking that calls for one
    account do not overlap; without locking that nothing overlaps. *)
Definition may_begin (strategy : Strategy) (table : TableKind) (ts : list (option Thread))
    (key : option Key) : Prop :=
  match strategy with
  | FullLocking => True
  | IndexLocking =>
      match table with
      | EngineWide => True
      | Sharded => forall j th, ts !! j = Some (Some th) -> key = None \/ th_key th <> key
      end
  | NoLocking => forall j, ts !! j <> None -> ts !! j = Some None
  end.

(** The discipline of the accessors, by what is held and whether the key is known
    to be there: index before values, nothing acquired or accessed after the first
    release until everything is released, structure changes under the exclusive
    index, values accessed under the values guard. *)
Inductive disciplined (table : TableKind) (key : option Key) :
    bool -> option LockMode -> option LockMode -> bool -> Prog -> Prop :=
| dis_done growing here o : disciplined table key growing None None here (Done o)
| dis_index mode growing here p :
    disciplined table key true (Some mode) None false p ->
    disciplined table key growing None None here (Acquire Index mode p)
| dis_values im mode here p :
    (table = EngineWide -> mode = Exclusive -> im = Exclusive) ->
    disciplined table key true (Some im) (Some mode) here p ->
    disciplined table key true (Some im) None here (Acquire Values mode p)
| dis_inspect im vm here c :
    (forall keys, disciplined table key true (Some im) vm
       (match key with Some k => bool_decide (k ∈ keys) | None => false end) (c keys)) ->
    disciplined table key true (Some im) vm here (Inspect c)
| dis_insert vm here k v p : key = Some k ->
    disciplined table key true (Some Exclusive) vm true p ->
    disciplined table key true (Some Exclusive) vm here (InsertEntry k v p)
| dis_remove here k p : key = Some k ->
    disciplined table key true (Some Exclusive) (Some Exclusive) false p ->
    disciplined table key true (Some Exclusive) (Some Exclusive) here (RemoveEntry k p)
| dis_read im vm k c : key = Some k ->
    (forall v, disciplined table key true (Some im) (Some vm) true (c v)) ->
    disciplined table key true (Some im) (Some vm) true (ReadValue k c)
| dis_write im k v p : key = Some k ->
    disciplined table key true (Some im) (Some Exclusive) true p ->
    disciplined table key true (Some im) (Some Exclusive) true (WriteValue k v p)
| dis_release_index growing im vm here p :
    disciplined table key false None vm false p ->
    disciplined table key growing (Some im) vm here (Release Index p)
| dis_release_values growing im vm here p :
    disciplined table key false im None false p ->
    disciplined table key growing im (Some vm) here (Release Values p).

(** ** The machine of interleaved steps *)

(** What a client sees. *)
Inductive Event : Type :=
| Begin (i : nat) (key : option Key) (p : Prog)
| Finish (i : nat) (o : Output).

Definition State : Type := (gmap Key Value * list (option Thread))%type.

(** One access by one thread. *)
Inductive access : gmap Key Value -> Prog -> gmap Key Value -> Prog -> Prop :=
| acc_inspect m c : access m (Inspect c) m (c (dom m))
| acc_insert m k v p : access m (InsertEntry k v p) (<[k := v]> m) p
| acc_remove m k p : access m (RemoveEntry k p) (delete k m) p
| acc_read m k v c : m !! k = Some v -> access m (ReadValue k c) m (c v)
| acc_write m k v p : is_Some (m !! k) -> access m (WriteValue k v p) (<[k := v]> m) p.

Inductive step (strategy : Strategy) (table : TableKind) : State -> option Event -> State -> Prop :=
| st_begin m ts i a : ts !! i = Some None -> offers table a = true ->
    may_begin strategy table ts (accessor_key a) ->
    step strategy table (m, ts) (Some (Begin i (accessor_key a) (accessor_prog a)))
      (m, <[i := Some (mkThread (accessor_key a) (accessor_prog a) None None)]> ts)
| st_acquire m ts i th d mode p : ts !! i = Some (Some th) -> th_prog th = Acquire d mode p ->
    granted strategy ts i d mode ->
    step strategy table (m, ts) None (m, <[i := Some (set_held th d (Some mode) p)]> ts)
| st_release m ts i th d p : ts !! i = Some (Some th) -> th_prog th = Release d p ->
    step strategy table (m, ts) None (m, <[i := Some (set_held th d None p)]> ts)
| st_access m m' ts i th p : ts !! i = Some (Some th) -> access m (th_prog th) m' p ->
    step strategy table (m, ts) None (m', <[i := Some (with_prog th p)]> ts)
| st_finish m ts i th o : ts !! i = Some (Some th) -> th_prog th = Done o ->
    step strategy table (m, ts) (Some (Finish i o)) (m, <[i := None]> ts).

(** ** The machine of atomic sections *)

Definition AState : Type := (gmap Key Value * list (option Prog))%type.

Inductive astep : AState -> option Event -> AState -> Prop :=
| at_begin m ps i key p : ps !! i = Some None ->
    astep (m, ps) (Some (Begin i key p)) (m, <[i := Some p]> ps)
| at_section m m' ps i p q : ps !! i = Some (Some p) -> run_section p m = Some (q, m') ->
    astep (m, ps) None (m', <[i := Some q]> ps)
| at_release m ps i d p : ps !! i = Some (Some (Release d p)) ->
    astep (m, ps) None (m, <[i := Some p]> ps)
| at_finish m ps i o : ps !! i = Some (Some (Done o)) ->
    astep (m, ps) (Some (Finish i o)) (m, <[i := None]> ps).

(** Any number of steps and the events they show. *)
Inductive steps {S : Type} (R : S -> option Event -> S -> Prop) : S -> list Event -> S -> Prop :=
| steps_nil s : steps R s [] s
| steps_snoc s events s' e s'' : steps R s events s' -> R s' e s'' ->
    steps R s (events ++ match e with Some e => [e] | None => [] end) s''.

Definition initial (m : gmap Key Value) (n : nat) : State := (m, replicate n None).
Definition ainitial (m : gmap Key Value) (n : nat) : AState := (m, replicate n None).

(** The accesses two threads are about to make collide. *)
Definition touches_structure (p : Prog) : option LockMode :=
  match p with
  | Inspect _ => Some Shared
  | InsertEntry _ _ _ | RemoveEntry _ _ => Some Exclusive
  | _ => None
  end.

Definition touches_value (p : Prog) : option (Key * LockMode) :=
  match p with
  | ReadValue k _ => Some (k, Shared)
  | WriteValue k _ _ | RemoveEntry k _ => Some (k, Exclusive)
  | _ => None
  end.

Definition race (p q : Prog) : Prop :=
  ~ compatible (touches_structure p) (touches_structure q) \/
  exists k a b, touches_value p = Some (k, a) /\ touches_value q = Some (k, b) /\
    ~ compatible (Some a) (Some b).

End Locking.
Arguments Prog Key {_ _} Value Output.
Arguments Accessor Key {_ _} Value Output.
Arguments Thread Key {_ _} Value Output.
Arguments State Key {_ _} Value Output.
Arguments AState Key {_ _} Value Output.
Arguments Event Key {_ _} Value Output.
