(* ===== verification/LockingFacts.v ===== *)
(** * LockingFacts: the storage accessors are atomic and free of races

    Under every strategy and the threading contract that goes with it, the machine
    of interleaved accesses only shows what a machine of atomic sections can show:
    it is the license to treat an accessor, or each of its two phases, as one step,
    as [Storage] and the rest of the library do. *)
From S2P Require Import Prelude.
From S2P Require Import Storage.
From S2P Require Import Locking.

Section LockingFacts.
Context `{Countable Key} {Value Output : Type}.
Implicit Types (m A M : gmap Key Value) (k : Key).
Abbreviation Prog := (Prog Key Value Output).
Abbreviation Thread := (Thread Key Value Output).

(** ** The accessors keep the discipline *)

Lemma dis_find table k im vm here (c : bool -> Prog) :
  (forall found, disciplined table (Some k) true (Some im) vm found (c found)) ->
  disciplined table (Some k) true (Some im) vm here (Find k c).
Proof. intros Hc. constructor. intros keys. apply Hc. Qed.

Ltac discipline := repeat first
  [ progress intros | apply dis_find | case_match
  | match goal with |- disciplined _ _ _ _ _ _ (let '(_, _) := ?x in _) => destruct x end
  | econstructor; [done|] | constructor ].

(** Of both kinds of tables. With the index shared, [with_mut] may write a value that a
    call for another account reads, which is why an engine-wide table does not offer
    it. *)
Lemma accessor_disciplined table (a : Accessor Key Value Output) :
  offers table a = true -> disciplined table (accessor_key a) true None None false (accessor_prog a).
Proof. destruct table, a; try done; intros _; cbn [accessor_key accessor_prog]; discipline. Qed.

(** ** The simulation invariant *)

(** A thread, the program the atomic machine still has for it, and whether it is
    before the first release of a section. *)
Record Ghost : Type := mkGhost { gh_th : Thread; gh_atomic : Prog; gh_growing : bool }.

Definition may_differ (th : Thread) : Prop := th_index th = Some Exclusive \/ th_values th = Some Exclusive.

(** What the thread's guards keep as it is. *)
Definition guarded (th : Thread) (m m' : gmap Key Value) : Prop :=
  (th_index th <> None -> dom m = dom m') /\
  (th_values th <> None -> forall k, th_key th = Some k -> m !! k = m' !! k) /\
  (th_index th = Some Exclusive -> m = m').

(** [A'] and [M'] are the same but for what the thread may have written. *)
Definition aligned (th : Thread) (A' M' : gmap Key Value) : Prop :=
  forall k, A' !! k = M' !! k \/ (may_differ th /\ th_key th = Some k).

Definition key_known (th : Thread) (here : bool) M : Prop :=
  here = true -> exists k, th_key th = Some k /\ k ∈ dom M.

Record thread_ok (table : TableKind) (A M : gmap Key Value) (g : Ghost) : Prop := {
  tk_disciplined : exists here, key_known (gh_th g) here M /\
    disciplined table (th_key (gh_th g)) (gh_growing g) (th_index (gh_th g)) (th_values (gh_th g)) here (th_prog (gh_th g));
  tk_wide : gh_growing g = true -> table = EngineWide -> th_values (gh_th g) = Some Exclusive ->
    th_index (gh_th g) = Some Exclusive;
  tk_order : gh_growing g = true -> th_values (gh_th g) <> None -> th_index (gh_th g) <> None;
  tk_shrinking : gh_growing g = false -> gh_atomic g = th_prog (gh_th g);
  tk_growing : gh_growing g = true -> forall A' M', guarded (gh_th g) A A' -> guarded (gh_th g) M M' ->
    aligned (gh_th g) A' M' -> run_section (gh_atomic g) A' = run_section (th_prog (gh_th g)) M'
}.

Abbreviation ghosts := (list (option Ghost)).
Definition threads_of (cs : ghosts) : list (option Thread) := fmap (M:=list) (fmap (M:=option) gh_th) cs.
Definition atomics_of (cs : ghosts) : list (option Prog) := fmap (M:=list) (fmap (M:=option) gh_atomic) cs.

(** Growing threads never hold conflicting guards, values guards of one key. *)
Definition separate (g g' : Ghost) : Prop :=
  gh_growing g = true -> gh_growing g' = true ->
  compatible (th_index (gh_th g)) (th_index (gh_th g')) /\
  (th_key (gh_th g) = th_key (gh_th g') -> th_key (gh_th g) <> None ->
   compatible (th_values (gh_th g)) (th_values (gh_th g'))).

Definition pairwise (P : Ghost -> Ghost -> Prop) (cs : ghosts) : Prop :=
  forall i j g g', i <> j -> cs !! i = Some (Some g) -> cs !! j = Some (Some g') -> P g g'.

(** What a strategy and its contract keep between two threads. *)
Definition mode_ok (strategy : Strategy) (table : TableKind) (g g' : Ghost) : Prop :=
  match strategy with
  | FullLocking => forall d, compatible (held (gh_th g) d) (held (gh_th g') d)
  | IndexLocking => compatible (th_index (gh_th g)) (th_index (gh_th g')) /\
      (table = Sharded -> th_key (gh_th g) = None \/ th_key (gh_th g') <> th_key (gh_th g))
  | NoLocking => False
  end.

Record sim (strategy : Strategy) (table : TableKind) (A M : gmap Key Value) (cs : ghosts) : Prop := {
  sm_threads : forall i g, cs !! i = Some (Some g) -> thread_ok table A M g;
  sm_mode : pairwise (mode_ok strategy table) cs;
  sm_values : forall k, A !! k = M !! k \/
    exists i g, cs !! i = Some (Some g) /\ gh_growing g = true /\ may_differ (gh_th g) /\ th_key (gh_th g) = Some k;
  sm_keys : dom A = dom M \/
    exists i g, cs !! i = Some (Some g) /\ gh_growing g = true /\ th_index (gh_th g) = Some Exclusive
}.

(** ** Separation *)

Lemma compatible_sym a b : compatible a b -> compatible b a.
Proof. by destruct a as [[]|], b as [[]|]. Qed.

Lemma compatible_exclusive a : compatible (Some Exclusive) a -> a = None.
Proof. by destruct a as [[]|]. Qed.

Lemma mode_ok_sym strategy table g g' : mode_ok strategy table g g' -> mode_ok strategy table g' g.
Proof.
  destruct strategy; cbn; [|intros [Hc Hk]|done].
  - intros Hc d. apply compatible_sym, Hc.
  - split; [by apply compatible_sym|]. intros Hs. destruct (Hk Hs) as [Hn|Hn].
    + destruct (th_key (gh_th g')) eqn:E; [|by left]. right. congruence.
    + right. congruence.
Qed.

(** The part of [thread_ok] about the order of the guards. *)
Definition ordered (table : TableKind) (g : Ghost) : Prop := gh_growing g = true ->
  (table = EngineWide -> th_values (gh_th g) = Some Exclusive -> th_index (gh_th g) = Some Exclusive) /\
  (th_values (gh_th g) <> None -> th_index (gh_th g) <> None).

Lemma thread_ordered table A M g : thread_ok table A M g -> ordered table g.
Proof. intros [_ Hw Ho _ _] Hg. auto. Qed.

Lemma mode_separate strategy table g g' : mode_ok strategy table g g' -> ordered table g -> ordered table g' -> separate g g'.
Proof.
  intros Hmode Hg1 Hg2 Hg Hg'. destruct (Hg1 Hg) as [Hwi Hoi]. destruct (Hg2 Hg') as [Hwj Hoj].
  destruct strategy; cbn in Hmode; [|destruct Hmode as [Hc Hk]|done].
  - split; [apply (Hmode Index)|intros _ _; apply (Hmode Values)].
  - split; [done|]. intros Hkey Hsome. destruct table; [destruct (Hk eq_refl); congruence|].
    specialize (Hwi eq_refl). specialize (Hwj eq_refl).
    destruct (th_values (gh_th g)) as [[]|] eqn:E1, (th_values (gh_th g')) as [[]|] eqn:E2; cbn; try done.
    + rewrite Hwj in Hc by done. apply compatible_sym, compatible_exclusive in Hc. by apply Hoi.
    + rewrite Hwi in Hc by done. apply compatible_exclusive in Hc. by apply Hoj.
    + rewrite Hwi, Hwj in Hc by done. done.
Qed.

Lemma sim_separate strategy table A M cs i j g g' : sim strategy table A M cs -> i <> j ->
  cs !! i = Some (Some g) -> cs !! j = Some (Some g') -> separate g g'.
Proof.
  intros [Ht Hm _ _] Hij Hi Hj. eapply mode_separate; [by apply (Hm i j)|eapply thread_ordered, (Ht i g Hi)|eapply thread_ordered, (Ht j g' Hj)].
Qed.

(** ** What a thread's steps leave alone *)

(** A change the thread's guards allow it to make. *)
Definition change_ok (th : Thread) (X X' : gmap Key Value) : Prop :=
  (forall k, X !! k = X' !! k \/ th_key th = Some k) /\
  (th_index th = Some Exclusive \/ (th_values th = Some Exclusive /\ dom X = dom X') \/ X = X').

Lemma guarded_refl th X : guarded th X X.
Proof. done. Qed.

Lemma guarded_trans th X Y Z : guarded th X Y -> guarded th Y Z -> guarded th X Z.
Proof.
  intros (H1 & H2 & H3) (H1' & H2' & H3'). split_and!; intros Hh.
  - by rewrite H1, H1'.
  - intros k Hk. by rewrite (H2 Hh k Hk), (H2' Hh k Hk).
  - by rewrite H3, H3'.
Qed.

Lemma guarded_other table A M gi gj X X' : thread_ok table A M gi -> thread_ok table A M gj -> separate gi gj ->
  gh_growing gi = true -> gh_growing gj = true -> change_ok (gh_th gi) X X' -> guarded (gh_th gj) X X'.
Proof.
  intros [_ _ Hoi _ _] [_ _ Hoj _ _] Hs Hi Hj [Hout Hright]. destruct (Hs Hi Hj) as [Hc Hv].
  specialize (Hoi Hi). specialize (Hoj Hj). destruct Hright as [He|[[He Hd]| ->]]; [| |done].
  - rewrite He in Hc. apply compatible_exclusive in Hc.
    split_and!; intros Hh; [congruence| |congruence]. by destruct Hoj.
  - rewrite He in *. split_and!; intros Hh; [done| |].
    + intros k Hk. destruct (Hout k) as [|Hk']; [done|]. rewrite Hk, Hk' in Hv.
      specialize (Hv eq_refl). destruct Hh. by apply compatible_exclusive, Hv.
    + rewrite Hh in Hc. apply compatible_sym, compatible_exclusive in Hc. by destruct Hoi.
Qed.

Lemma disciplined_here table key growing im vm here here' (p : Prog) : growing = false \/ im = None ->
  disciplined table key growing im vm here p -> disciplined table key growing im vm here' p.
Proof. intros Hg Hd. destruct Hg as [-> | ->]; inversion Hd; subst; by constructor. Qed.

Lemma disciplined_growing table key growing vm here (p : Prog) :
  disciplined table key growing None vm here p -> vm = None -> disciplined table key true None vm here p.
Proof. intros Hd ->. inversion Hd; subst; by constructor. Qed.

Lemma thread_ok_other table A A' M M' g : thread_ok table A M g ->
  (gh_growing g = true -> guarded (gh_th g) A A' /\ guarded (gh_th g) M M') -> thread_ok table A' M' g.
Proof.
  intros [(here & Hk & Hd) Hw Ho Hsh Hgr] Hother. split; [|done..|].
  - destruct (gh_growing g) eqn:Eg; [destruct (th_index (gh_th g)) as [im|] eqn:Ei|].
    + exists here. split; [|done]. intros Hh. destruct (Hk Hh) as (k & Hkey & Hin). exists k. split; [done|].
      destruct (Hother eq_refl) as [_ [Hdom _]]. rewrite <- Hdom; [done|congruence].
    + exists false. split; [done|]. eapply disciplined_here; [by right|done].
    + exists false. split; [done|]. eapply disciplined_here; [by left|done].
  - intros Hg A'' M'' HA HM Hal. destruct (Hother Hg) as [HA' HM'].
    apply Hgr; [done|by eapply guarded_trans|by eapply guarded_trans|done].
Qed.

Hint Resolve guarded_refl : core.

(** ** The two maps as a thread sees them *)

(** Another thread answers for the difference at [k], or of the key sets. *)
Definition blamed (cs : ghosts) (i : nat) k : Prop :=
  exists j g, j <> i /\ cs !! j = Some (Some g) /\ gh_growing g = true /\ may_differ (gh_th g) /\ th_key (gh_th g) = Some k.
Definition keys_blamed (cs : ghosts) (i : nat) : Prop :=
  exists j g, j <> i /\ cs !! j = Some (Some g) /\ gh_growing g = true /\ th_index (gh_th g) = Some Exclusive.

Definition answers (g : Ghost) k : Prop := gh_growing g = true /\ may_differ (gh_th g) /\ th_key (gh_th g) = Some k.
Definition answers_keys (g : Ghost) : Prop := gh_growing g = true /\ th_index (gh_th g) = Some Exclusive.

Lemma sim_blame strategy table A M cs i g : sim strategy table A M cs -> cs !! i = Some (Some g) ->
  (forall k, A !! k = M !! k \/ answers g k \/ blamed cs i k) /\
  (dom A = dom M \/ answers_keys g \/ keys_blamed cs i).
Proof.
  intros Hs Hi. split.
  - intros k. destruct (sm_values _ _ _ _ _ Hs k) as [|(j & g' & Hj & Hr)]; [by left|right].
    destruct (decide (j = i)) as [->|Hij]; [left; simplify_eq; exact Hr|right]. exists j, g'. tauto.
  - destruct (sm_keys _ _ _ _ _ Hs) as [|(j & g' & Hj & Hr)]; [by left|right].
    destruct (decide (j = i)) as [->|Hij]; [left; simplify_eq; exact Hr|right]. exists j, g'. tauto.
Qed.

Lemma not_keys_blamed strategy table A M cs i g : sim strategy table A M cs -> ordered table g ->
  (forall j gj, j <> i -> cs !! j = Some (Some gj) -> mode_ok strategy table g gj) ->
  gh_growing g = true -> th_index (gh_th g) <> None -> ~ keys_blamed cs i.
Proof.
  intros Hs Ho Hm Hg Hh (j & gj & Hj & Hcj & Hgj & He).
  destruct (mode_separate _ _ _ _ (Hm j gj Hj Hcj) Ho (thread_ordered _ _ _ _ (sm_threads _ _ _ _ _ Hs j gj Hcj)) Hg Hgj) as [Hc _].
  rewrite He in Hc. by apply compatible_sym, compatible_exclusive in Hc.
Qed.

Lemma not_blamed strategy table A M cs i g k : sim strategy table A M cs -> ordered table g ->
  (forall j gj, j <> i -> cs !! j = Some (Some gj) -> mode_ok strategy table g gj) ->
  gh_growing g = true -> th_index (gh_th g) = Some Exclusive \/ th_values (gh_th g) <> None /\ th_key (gh_th g) = Some k ->
  ~ blamed cs i k.
Proof.
  intros Hs Ho Hm Hg Hh (j & gj & Hj & Hcj & Hgj & Hd & Hk).
  pose proof (thread_ordered _ _ _ _ (sm_threads _ _ _ _ _ Hs j gj Hcj)) as Hoj.
  destruct (mode_separate _ _ _ _ (Hm j gj Hj Hcj) Ho Hoj Hg Hgj) as [Hc Hv].
  destruct (Ho Hg) as [_ Ho1], (Hoj Hgj) as [_ Ho2]. destruct Hh as [He|[Hh Hkey]].
  - rewrite He in Hc. apply compatible_exclusive in Hc. destruct Hd as [Hd|Hd]; [congruence|]. apply Ho2; congruence.
  - destruct Hd as [Hd|Hd]; rewrite Hd in *.
    + apply compatible_sym, compatible_exclusive in Hc. by apply Ho1.
    + rewrite Hk, Hkey in Hv. apply Hh, compatible_exclusive, compatible_sym, Hv; done.
Qed.

Section Views.
Context (strategy : Strategy) (table : TableKind) (A M : gmap Key Value) (cs : ghosts).
Context (Hsim : sim strategy table A M cs) (i : nat) (g : Ghost).
Context (Hi : cs !! i = Some (Some g)) (Hg : gh_growing g = true).

Lemma own_ordered : ordered table g.
Proof using Hsim Hi. eapply thread_ordered, (sm_threads _ _ _ _ _ Hsim i g Hi). Qed.

Lemma own_mode j gj : j <> i -> cs !! j = Some (Some gj) -> mode_ok strategy table g gj.
Proof using Hsim Hi. intros Hj. apply (sm_mode _ _ _ _ _ Hsim i j); congruence. Qed.

Lemma view_keys : th_index (gh_th g) <> None -> th_index (gh_th g) <> Some Exclusive -> dom A = dom M.
Proof using Hsim Hi Hg.
  intros Hh He. destruct (sim_blame _ _ _ _ _ i g Hsim Hi) as [_ [|[[_ Hx]|Hb]]]; [done|done|].
  by destruct (not_keys_blamed strategy table A M cs i g Hsim own_ordered own_mode Hg Hh).
Qed.

Lemma view_value k : th_key (gh_th g) = Some k -> th_values (gh_th g) <> None \/ th_index (gh_th g) = Some Exclusive ->
  A !! k = M !! k \/ may_differ (gh_th g).
Proof using Hsim Hi Hg.
  intros Hk Hh. destruct (sim_blame _ _ _ _ _ i g Hsim Hi) as [Hv _]. destruct (Hv k) as [|[(_ & Hx & _)|Hb]]; [by left|by right|].
  destruct (not_blamed strategy table A M cs i g k Hsim own_ordered own_mode Hg ltac:(tauto) Hb).
Qed.

Lemma view_all k : th_index (gh_th g) = Some Exclusive -> A !! k = M !! k \/ th_key (gh_th g) = Some k.
Proof using Hsim Hi Hg.
  intros He. destruct (sim_blame _ _ _ _ _ i g Hsim Hi) as [Hv _]. destruct (Hv k) as [|[(_ & _ & Hx)|Hb]]; [by left|by right|].
  destruct (not_blamed strategy table A M cs i g k Hsim own_ordered own_mode Hg ltac:(tauto) Hb).
Qed.
End Views.

(** ** Replacing one thread *)

Lemma sim_update strategy table A A' M M' cs i (new : option Ghost) : sim strategy table A M cs -> is_Some (cs !! i) ->
  (forall j gj, j <> i -> cs !! j = Some (Some gj) -> gh_growing gj = true -> guarded (gh_th gj) A A' /\ guarded (gh_th gj) M M') ->
  (forall g', new = Some g' -> thread_ok table A' M' g') ->
  (forall g' j gj, new = Some g' -> j <> i -> cs !! j = Some (Some gj) -> mode_ok strategy table g' gj) ->
  (forall k, A' !! k = M' !! k \/ (exists g', new = Some g' /\ answers g' k) \/ blamed cs i k) ->
  (dom A' = dom M' \/ (exists g', new = Some g' /\ answers_keys g') \/ keys_blamed cs i) ->
  sim strategy table A' M' (<[i := new]> cs).
Proof.
  intros [Ht Hm _ _] Hi Hother Hok Hmode Hv Hk.
  assert (Hlk : forall j g, (<[i := new]> cs) !! j = Some (Some g) -> (j = i /\ new = Some g) \/ (j <> i /\ cs !! j = Some (Some g))).
  { intros j g Hj. apply list_lookup_insert_Some in Hj as [(-> & Hn & _)|[Hne Hj]]; [by left|right; split; congruence]. }
  assert (Hnew : forall g, new = Some g -> (<[i := new]> cs) !! i = Some (Some g)).
  { intros g Hn. rewrite list_lookup_insert_eq by (by apply lookup_lt_is_Some_1). by rewrite Hn. }
  assert (Hkeep : forall j g, j <> i -> cs !! j = Some (Some g) -> (<[i := new]> cs) !! j = Some (Some g)).
  { intros j g Hj Hc. by rewrite list_lookup_insert_ne. }
  split.
  - intros j g [[-> Hn]|[Hne Hj]]%Hlk; [by apply Hok|]. eapply thread_ok_other; [by apply (Ht j)|by apply (Hother j)].
  - intros a b g g' Hab [[-> Ha]|[Hna Ha]]%Hlk [[-> Hb]|[Hnb Hb]]%Hlk; [done|by eapply Hmode| |exact (Hm a b g g' Hab Ha Hb)].
    apply mode_ok_sym. by eapply Hmode.
  - intros k. destruct (Hv k) as [|[(g' & Hn & Hr)|(j & g' & Hne & Hj & Hr)]]; [by left|right; exists i, g'; split; [by apply Hnew|exact Hr]|right; exists j, g'; split; [by apply Hkeep|exact Hr]].
  - destruct Hk as [|[(g' & Hn & Hr)|(j & g' & Hne & Hj & Hr)]]; [by left|right; exists i, g'; split; [by apply Hnew|exact Hr]|right; exists j, g'; split; [by apply Hkeep|exact Hr]].
Qed.

Lemma mode_ok_holds strategy table g g' gj : th_key (gh_th g') = th_key (gh_th g) ->
  (forall d, held (gh_th g') d = held (gh_th g) d \/ held (gh_th g') d = None \/
     (locks strategy d = true -> compatible (held (gh_th g') d) (held (gh_th gj) d))) ->
  mode_ok strategy table g gj -> mode_ok strategy table g' gj.
Proof.
  intros Hkey Hh Hm. destruct strategy; cbn in *; [|destruct Hm as [Hc Hk]|done].
  - intros d. destruct (Hh d) as [-> |[-> |Hl]]; [apply Hm|done|apply Hl; by destruct d].
  - rewrite Hkey. split; [|done]. destruct (Hh Index) as [E|[E|Hl]]; cbn in *; [by rewrite E|by rewrite E|by apply Hl].
Qed.

(** ** The steps *)

(** What a growing thread writes back when its section ends. *)
Definition committed (th : Thread) A M : gmap Key Value :=
  match th_key th with
  | Some k =>
      if decide (th_index th = Some Exclusive \/ th_values th = Some Exclusive)
      then partial_alter (fun _ => M !! k) k A else A
  | None => A
  end.

Lemma committed_lookup th A M k :
  committed th A M !! k = if decide (may_differ th /\ th_key th = Some k) then M !! k else A !! k.
Proof.
  unfold committed, may_differ. destruct (th_key th) as [k'|].
  - destruct (decide (th_index th = Some Exclusive \/ th_values th = Some Exclusive)) as [Hd|Hd].
    + destruct (decide (k' = k)) as [->|Hne].
      * rewrite lookup_partial_alter_eq, decide_True; done.
      * rewrite lookup_partial_alter_ne, decide_False by (done || naive_solver). done.
    + rewrite decide_False by tauto. done.
  - rewrite decide_False by naive_solver. done.
Qed.

Section Commit.
Context (strategy : Strategy) (table : TableKind) (A M : gmap Key Value) (cs : ghosts).
Context (Hsim : sim strategy table A M cs) (i : nat) (g : Ghost).
Context (Hi : cs !! i = Some (Some g)) (Hg : gh_growing g = true) (Hheld : th_index (gh_th g) <> None).

Lemma committed_guarded : guarded (gh_th g) M (committed (gh_th g) A M).
Proof using Hsim Hi Hg Hheld.
  pose proof (view_keys _ _ _ _ _ Hsim i g Hi Hg) as Hkeys.
  pose proof (view_value _ _ _ _ _ Hsim i g Hi Hg) as Hval.
  pose proof (view_all _ _ _ _ _ Hsim i g Hi Hg) as Hall.
  assert (Hex : th_index (gh_th g) = Some Exclusive -> M = committed (gh_th g) A M).
  { intros He. apply map_eq. intros k. rewrite committed_lookup. case_decide as Hd; [done|].
    destruct (Hall k He) as [|Hk]; [done|]. destruct Hd. split; [by left|done]. }
  destruct (decide (th_index (gh_th g) = Some Exclusive)) as [He|He]; [by rewrite <- Hex|].
  split_and!; intros Hh; [|intros k Hk|done].
  - apply set_eq. intros k. rewrite !elem_of_dom, committed_lookup. case_decide as Hd; [done|].
    rewrite <- !elem_of_dom, Hkeys; done.
  - rewrite committed_lookup. case_decide as Hd; [done|]. destruct (Hval k Hk) as [|Hm]; [by left|done|].
    by destruct Hd.
Qed.

Lemma committed_aligned : aligned (gh_th g) A (committed (gh_th g) A M).
Proof using. intros k. rewrite committed_lookup. case_decide; [by right|by left]. Qed.

Lemma committed_change : change_ok (gh_th g) A (committed (gh_th g) A M).
Proof using Hsim Hi Hg Hheld.
  split.
  - intros k. rewrite committed_lookup. case_decide; [right; tauto|by left].
  - destruct (decide (th_index (gh_th g) = Some Exclusive)) as [He|He]; [by left|].
    destruct (decide (th_values (gh_th g) = Some Exclusive)) as [Hv|Hv].
    + right; left. split; [done|]. apply set_eq. intros k. rewrite !elem_of_dom, committed_lookup. case_decide; [|done].
      rewrite <- !elem_of_dom, (view_keys _ _ _ _ _ Hsim i g Hi Hg); done.
    + right; right. unfold committed. destruct (th_key (gh_th g)); [|done]. rewrite decide_False by tauto. done.
Qed.

Lemma committed_section q : th_prog (gh_th g) = q -> (forall M', run_section q M' = Some (q, M')) ->
  run_section (gh_atomic g) A = Some (q, committed (gh_th g) A M).
Proof using Hsim Hi Hg Hheld.
  intros Hq Hrun. pose proof (sm_threads _ _ _ _ _ Hsim i g Hi) as [_ _ _ _ Hgr].
  rewrite (Hgr Hg A (committed (gh_th g) A M)), Hq;
    [apply Hrun|done|apply committed_guarded|apply committed_aligned].
Qed.
End Commit.

(** An access is one its guards allow, and the rest of the section keeps running as
    the atomic one would. *)
Lemma access_change table th here M M' p :
  disciplined table (th_key th) true (th_index th) (th_values th) here (th_prog th) -> key_known th here M ->
  access M (th_prog th) M' p ->
  change_ok th M M' /\
  (exists here', key_known (with_prog th p) here' M' /\
     disciplined table (th_key th) true (th_index th) (th_values th) here' p) /\
  (forall N', guarded th M' N' -> exists N, guarded th M N /\ aligned th N N' /\
     run_section (th_prog th) N = run_section p N').
Proof.
  intros Hd Hkn Ha. destruct th as [key prog im vm]. cbn [th_key th_prog th_index th_values with_prog] in *.
  destruct Ha as [m c|m k v q|m k q|m k v c Hv|m k v q Hv]; inversion Hd; subst.
  - split; [by split; [left|right; right]|]. split; [eexists; split; [|eauto]; cbn|].
    + intros Hh. cbn. destruct key as [k|]; [|done]. exists k. by apply bool_decide_eq_true in Hh.
    + intros N' HN. exists N'. split; [exact HN|]. split; [by left|]. cbn. destruct HN as [-> _]; [done|]. done.
  - split; [|split].
    + split; [|by left]. intros k'. destruct (decide (k' = k)) as [->|]; [by right|left]. by rewrite lookup_insert_ne.
    + exists true. split; [|done]. intros _. exists k. split; [done|]. set_solver.
    + intros N' (_ & _ & HN). rewrite <- HN by done. exists m. split; [done|]. split; [|done].
      intros k'. destruct (decide (k' = k)) as [->|]; [right; split; [by left|done]|left]. by rewrite lookup_insert_ne.
  - split; [|split].
    + split; [|by left]. intros k'. destruct (decide (k' = k)) as [->|]; [by right|left]. by rewrite lookup_delete_ne.
    + by exists false.
    + intros N' (_ & _ & HN). rewrite <- HN by done. exists m. split; [done|]. split; [|done].
      intros k'. destruct (decide (k' = k)) as [->|]; [right; split; [by left|done]|left]. by rewrite lookup_delete_ne.
  - split; [by split; [left|right; right]|]. split.
    + exists true. split; [|by eauto]. intros _. exists k. split; [done|]. by apply elem_of_dom_2 in Hv.
    + intros N' HN. exists N'. split; [exact HN|]. split; [by left|]. cbn.
      destruct HN as (_ & HN & _). rewrite <- (HN ltac:(done) k eq_refl), Hv. done.
  - destruct Hv as [v0 Hv]. assert (Hk : k ∈ dom m) by (by apply elem_of_dom_2 in Hv).
    split; [|split].
    + split; [|right; left; split; [done|set_solver]].
      intros k'. destruct (decide (k' = k)) as [->|]; [by right|left]. by rewrite lookup_insert_ne.
    + exists true. split; [|done]. intros _. exists k. split; [done|]. set_solver.
    + intros N' (HN1 & HN2 & HN3). cbn in HN1, HN2, HN3. exists (<[k := v0]> N'). split; [|split].
      * split_and!; cbn; intros Hh.
        -- specialize (HN1 Hh). set_solver.
        -- intros k' [= <-]. by rewrite lookup_insert_eq.
        -- rewrite <- HN3 by done. by rewrite insert_insert_eq, insert_id.
      * intros k'. destruct (decide (k' = k)) as [->|]; [right; split; [by right|done]|left]. by rewrite lookup_insert_ne.
      * cbn. rewrite lookup_insert_eq, insert_insert_eq. rewrite insert_id; [done|].
        rewrite <- (HN2 ltac:(done) k eq_refl). by rewrite lookup_insert_eq.
Qed.

Lemma access_grows table key growing im vm here M M' (p q : Prog) :
  access M p M' q -> disciplined table key growing im vm here p -> growing = true.
Proof. intros Ha Hd. destruct Ha; by inversion Hd. Qed.

Lemma aligned_trans th X Y Z : aligned th X Y -> aligned th Y Z -> aligned th X Z.
Proof.
  intros H1 H2 k. destruct (H1 k) as [->|]; [apply H2|by right].
Qed.

Lemma sim_access strategy table A M M' cs i g p : sim strategy table A M cs -> cs !! i = Some (Some g) ->
  access M (th_prog (gh_th g)) M' p ->
  sim strategy table A M' (<[i := Some (mkGhost (with_prog (gh_th g) p) (gh_atomic g) (gh_growing g))]> cs).
Proof.
  intros Hs Hi Ha. pose proof (sm_threads _ _ _ _ _ Hs i g Hi) as Hok. destruct (sim_blame _ _ _ _ _ i g Hs Hi) as [Hv Hk].
  destruct Hok as [(here & Hkn & Hd) Hw Ho Hsh Hgr] eqn:E. clear E.
  pose proof (access_grows _ _ _ _ _ _ _ _ _ _ Ha Hd) as Hg. rewrite Hg in Hd.
  destruct (access_change _ _ _ _ _ _ Hd Hkn Ha) as (Hc & Hnext & Hrun).
  apply (sim_update strategy table A A M M'); [done|done|..].
  - intros j gj Hj Hcj Hgj. split; [apply guarded_refl|].
    eapply guarded_other; [exact Hok|exact (sm_threads _ _ _ _ _ Hs j gj Hcj)|apply (sim_separate _ _ _ _ _ i j g gj Hs); [congruence|done|done]|done|done|done].
  - intros g' [= <-]. split; cbn; [|done|done|congruence|].
    + rewrite Hg. exact Hnext.
    + intros _ A' N' HA HN Hal. destruct (Hrun N' HN) as (N & HN' & Hal' & <-).
      apply Hgr; [done|done|done|]. eapply aligned_trans; [exact Hal|]. intros k. destruct (Hal' k) as [->|]; [by left|by right].
  - intros g' j gj [= <-] Hj Hcj. eapply (mode_ok_holds _ _ g); [done|by left|].
    by apply (sm_mode _ _ _ _ _ Hs i j).
  - intros k. destruct (Hv k) as [Hk'|[Hk'|Hk']]; [|right; left; eexists; split; [done|exact Hk']|by right; right].
    destruct (proj1 Hc k) as [<-|Hkey]; [by left|]. destruct (proj2 Hc) as [He|[[He _]| ->]]; [| |by left];
      right; left; (eexists; split; [done|]; split_and!; [done| |done]); [by left|by right].
  - destruct Hk as [Hk'|[Hk'|Hk']]; [|right; left; eexists; split; [done|exact Hk']|by right; right].
    destruct (proj2 Hc) as [He|[[_ <-]| ->]]; [|by left|by left]. right; left. eexists; split; [done|by split].
Qed.

Lemma granted_compatible strategy (cs : ghosts) i d mode j gj : granted strategy (threads_of cs) i d mode ->
  locks strategy d = true -> j <> i -> cs !! j = Some (Some gj) -> compatible (Some mode) (held (gh_th gj) d).
Proof.
  intros Hg Hl Hj Hcj. apply (Hg Hl j); [done|]. unfold threads_of. by rewrite list_lookup_fmap, Hcj.
Qed.

(** Taking a guard: a thread that had none starts a section. *)
Lemma acquire_thread strategy table A M cs i g d mode p : sim strategy table A M cs -> cs !! i = Some (Some g) ->
  th_prog (gh_th g) = Acquire d mode p ->
  let g' := mkGhost (set_held (gh_th g) d (Some mode) p) (gh_atomic g) true in
  (forall j gj, j <> i -> cs !! j = Some (Some gj) -> mode_ok strategy table g' gj) ->
  thread_ok table A M g'.
Proof.
  intros Hs Hi Hp g' Hm. pose proof (sm_threads _ _ _ _ _ Hs i g Hi) as [(here & Hkn & Hd) Hw Ho Hsh Hgr].
  rewrite Hp in Hd. destruct g as [[key prog im vm] q growing]. cbn in *. subst prog.
  assert (Hord : ordered table g').
  { intros _. inversion Hd; subst; cbn; split; naive_solver. }
  destruct (sim_blame _ _ _ _ _ i _ Hs Hi) as [Hbl _].
  assert (Hnb : forall k, th_index (gh_th g') = Some Exclusive \/ th_values (gh_th g') <> None /\ key = Some k -> ~ blamed cs i k).
  { intros k Hh. eapply (not_blamed strategy table A M cs i g' k); [exact Hs|exact Hord|exact Hm|done|]. by destruct d. }
  inversion Hd as [|? ? ? ? Hd'|im' ? ? ? Hwide Hd'| | | | | | |]; subst; cbn in *.
  - split; [by exists false|by apply Hord|by apply Hord|done|]. intros _ A' M' HA HM Hal.
    assert (Hq : forall X, run_section q X = run_section p X).
    { intros X. destruct growing; [|by rewrite (Hsh eq_refl)]. rewrite (Hgr eq_refl X X); [done|by split_and!..|by left]. }
    replace M' with A'; [apply Hq|]. apply map_eq. intros k. destruct (Hal k) as [|[[Hx|Hx] _]]; [done| |done].
    cbn in Hx. simplify_eq. rewrite <- (proj2 (proj2 HA) eq_refl), <- (proj2 (proj2 HM) eq_refl).
    destruct (Hbl k) as [|[(_ & [Hy|Hy] & _)|Hb]]; [done..|]. destruct (Hnb k); [by left|done].
  - split; [by exists here|by apply Hord|by apply Hord|done|]. intros _ A' M' HA HM Hal.
    destruct HA as (HA1 & HA2 & HA3), HM as (HM1 & HM2 & HM3). cbn in *.
    apply (Hgr eq_refl); [by split_and!..|]. intros k. destruct (Hal k) as [|[[Hx|Hx] Hkey]]; cbn in *; [by left|right; by split; [left|]|].
    destruct (Hbl k) as [E|[Hy|Hb]]; [left|right; split; [apply Hy|done]|destruct (Hnb k); [by right|done]].
    rewrite <- HA2, <- HM2 by done. done.
Qed.

Lemma sim_acquire strategy table A M cs i g d mode p : sim strategy table A M cs -> cs !! i = Some (Some g) ->
  th_prog (gh_th g) = Acquire d mode p -> granted strategy (threads_of cs) i d mode ->
  sim strategy table A M (<[i := Some (mkGhost (set_held (gh_th g) d (Some mode) p) (gh_atomic g) true)]> cs).
Proof.
  intros Hs Hi Hp Hgr. set (g' := mkGhost (set_held (gh_th g) d (Some mode) p) (gh_atomic g) true).
  assert (Hm : forall j gj, j <> i -> cs !! j = Some (Some gj) -> mode_ok strategy table g' gj).
  { intros j gj Hj Hcj. apply (mode_ok_holds _ _ g); [by destruct d| |by apply (own_mode _ _ _ _ _ Hs i g Hi j)].
    intros d'. destruct (decide (d' = d)) as [->|Hne]; [|left; by destruct d, d'].
    right; right. intros Hl. replace (held (gh_th g') d) with (Some mode) by (by destruct d). by eapply granted_compatible. }
  destruct (sim_blame _ _ _ _ _ i g Hs Hi) as [Hv Hk].
  apply (sim_update strategy table A A M M); [done|done|done| | | |].
  - intros x [= <-]. by eapply acquire_thread.
  - by intros x j gj [= <-]; apply Hm.
  - intros k. destruct (Hv k) as [|[(_ & Hd & Hkey)|]]; [by left| |by right; right]. right; left. exists g'. split; [done|].
    split_and!; [done| |by destruct d]. pose proof (sm_threads _ _ _ _ _ Hs i g Hi) as [(here & _ & Hdis) _ _ _ _].
    rewrite Hp in Hdis. unfold may_differ in *. destruct Hd as [Hd|Hd]; rewrite Hd in Hdis; inversion Hdis; subst; cbn; auto.
  - destruct Hk as [|[(_ & He)|]]; [by left| |by right; right]. right; left. exists g'. split; [done|]. split; [done|].
    pose proof (sm_threads _ _ _ _ _ Hs i g Hi) as [(here & _ & Hdis) _ _ _ _].
    rewrite Hp, He in Hdis. inversion Hdis; subst; cbn. auto.
Qed.

(** Dropping a guard: the first drop of a section is where its effect takes place. *)
Lemma sim_release strategy table A M cs i g d p : sim strategy table A M cs -> cs !! i = Some (Some g) ->
  th_prog (gh_th g) = Release d p ->
  let g' := mkGhost (set_held (gh_th g) d None p) p false in
  exists A', sim strategy table A' M (<[i := Some g']> cs) /\
    rtc (fun a b => astep a None b) (A, atomics_of cs) (A', <[i := Some p]> (atomics_of cs)).
Proof.
  intros Hs Hi Hp g'. pose proof (sm_threads _ _ _ _ _ Hs i g Hi) as Hok. destruct Hok as [(here & Hkn & Hd) Hw Ho Hsh Hgr] eqn:E. clear E.
  assert (Hai : atomics_of cs !! i = Some (Some (gh_atomic g))) by (unfold atomics_of; by rewrite list_lookup_fmap, Hi).
  assert (Hlt : i < length (atomics_of cs)) by (by eapply lookup_lt_Some).
  assert (Hok' : forall A', thread_ok table A' M g').
  { intros A'. rewrite Hp in Hd. split; [|by destruct d..]. exists false. split; [done|].
    inversion Hd; subst; by eapply disciplined_here; [left|]. }
  assert (Hm : forall x j gj, Some g' = Some x -> j <> i -> cs !! j = Some (Some gj) -> mode_ok strategy table x gj).
  { intros x j gj [= <-] Hj Hcj. apply (mode_ok_holds _ _ g); [by destruct d| |by apply (own_mode _ _ _ _ _ Hs i g Hi j)].
    intros d'. destruct (decide (d' = d)) as [->|Hne]; [right; left; by destruct d|left; by destruct d, d']. }
  destruct (sim_blame _ _ _ _ _ i g Hs Hi) as [Hv Hk].
  destruct (gh_growing g) eqn:Hg.
  - assert (Hheld : th_index (gh_th g) <> None).
    { rewrite Hp in Hd. inversion Hd; subst; [congruence|]. apply (Ho eq_refl). congruence. }
    exists (committed (gh_th g) A M).
    assert (Hc : change_ok (gh_th g) A (committed (gh_th g) A M)) by (by eapply committed_change).
    split.
    + apply (sim_update strategy table A _ M M); [done|done| |intros x [= <-]; apply Hok'|exact Hm| |].
      * intros j gj Hj Hcj Hgj. split; [|done]. eapply guarded_other;
          [exact Hok|exact (sm_threads _ _ _ _ _ Hs j gj Hcj)|apply (sim_separate _ _ _ _ _ i j g gj Hs); [congruence|done|done]|done|done|done].
      * intros k. rewrite committed_lookup. case_decide as Hdk; [by left|].
        destruct (Hv k) as [|[(_ & Hy)|]]; [by left|by destruct Hdk|by right; right].
      * destruct Hk as [Hk|[(_ & He)|]]; [|left|by right; right].
        -- left. apply set_eq. intros k. rewrite !elem_of_dom, committed_lookup. case_decide; [done|]. by rewrite <- !elem_of_dom, Hk.
        -- pose proof (committed_guarded _ _ _ _ _ Hs i g Hi Hg Hheld) as (_ & _ & Hx). by rewrite <- Hx.
    + eapply rtc_l; [eapply at_section; [exact Hai|]|].
      * eapply (committed_section strategy table A M cs Hs i g Hi Hg Hheld); [exact Hp|done].
      * eapply rtc_l; [eapply (at_release _ _ i d p); by rewrite list_lookup_insert_eq|].
        rewrite list_insert_insert_eq. reflexivity.
  - exists A. split.
    + apply (sim_update strategy table A A M M); [done|done|done|intros x [= <-]; apply Hok'|exact Hm| |].
      * intros k. destruct (Hv k) as [|[(Hy & _)|]]; [by left|congruence|by right; right].
      * destruct Hk as [|[(Hy & _)|]]; [by left|congruence|by right; right].
    + apply rtc_once, (at_release _ _ i d p). rewrite Hai, (Hsh eq_refl), Hp. done.
Qed.

Lemma sim_begin strategy table A M cs i key p : sim strategy table A M cs -> cs !! i = Some None ->
  may_begin strategy table (threads_of cs) key -> disciplined table key true None None false p ->
  sim strategy table A M (<[i := Some (mkGhost (mkThread key p None None) p true)]> cs).
Proof.
  intros Hs Hi Hb Hd.
  assert (Hlk : forall j gj, cs !! j = Some (Some gj) -> threads_of cs !! j = Some (Some (gh_th gj))).
  { intros j gj Hj. unfold threads_of. by rewrite list_lookup_fmap, Hj. }
  apply (sim_update strategy table A A M M); [done|done|done| | | |].
  - intros g' [= <-]. split; cbn; [by exists false|done|done|done|]. intros _ A' M' _ _ Hal. f_equal.
    apply map_eq. intros k. by destruct (Hal k) as [|[[Hx|Hx] _]].
  - intros g' j gj [= <-] Hj Hcj. destruct strategy; cbn in Hb |- *; [by intros []| |].
    + split; [done|]. intros ->. destruct (Hb j (gh_th gj) (Hlk j gj Hcj)); [by left|right; congruence].
    + specialize (Hb j). rewrite (Hlk j gj Hcj) in Hb. specialize (Hb ltac:(done)). congruence.
  - intros k. destruct (sm_values _ _ _ _ _ Hs k) as [|(j & g & Hj & Hr)]; [by left|right; right]. exists j, g.
    split; [congruence|]. tauto.
  - destruct (sm_keys _ _ _ _ _ Hs) as [|(j & g & Hj & Hr)]; [by left|right; right]. exists j, g. split; [congruence|]. tauto.
Qed.

Lemma sim_finish strategy table A M cs i g o : sim strategy table A M cs -> cs !! i = Some (Some g) ->
  th_prog (gh_th g) = Done o ->
  sim strategy table A M (<[i := None]> cs) /\
  rtc (fun a b => astep a None b) (A, atomics_of cs) (A, <[i := Some (Done o)]> (atomics_of cs)).
Proof.
  intros Hs Hi Hp. pose proof (sm_threads _ _ _ _ _ Hs i g Hi) as [(here & Hkn & Hd) Hw Ho Hsh Hgr].
  assert (Hai : atomics_of cs !! i = Some (Some (gh_atomic g))) by (unfold atomics_of; by rewrite list_lookup_fmap, Hi).
  rewrite Hp in Hd. inversion Hd as [? ? ? Hg Hidx Hval| | | | | | | | |]; subst.
  destruct (sim_blame _ _ _ _ _ i g Hs Hi) as [Hv Hk]. split.
  - apply (sim_update strategy table A A M M); [done|done|done|done|done| |].
    + intros k. destruct (Hv k) as [|[(_ & [Hy|Hy] & _)|]]; [by left|congruence|congruence|by right; right].
    + destruct Hk as [|[(_ & Hy)|]]; [by left|congruence|by right; right].
  - destruct (gh_growing g) eqn:Hg'.
    + apply rtc_once. eapply at_section; [exact Hai|]. rewrite (Hgr eq_refl A A), Hp; [done|..|by left].
      * apply guarded_refl.
      * split_and!; congruence.
    + rewrite list_insert_id; [done|]. rewrite Hai, (Hsh eq_refl), Hp. done.
Qed.

(** ** The theorems *)

Lemma steps_silent (a b c : AState Key Value Output) events : steps astep a events b ->
  rtc (fun a b => astep a None b) b c -> steps astep a events c.
Proof.
  intros Hs Hr. revert c Hr. apply (rtc_ind_r (fun c => steps astep a events c)); [done|].
  intros x y _ Hxy IH. rewrite <- (app_nil_r events). exact (steps_snoc _ _ _ _ None _ IH Hxy).
Qed.

Lemma threads_insert (cs : ghosts) i g : threads_of (<[i := g]> cs) = <[i := fmap gh_th g]> (threads_of cs).
Proof. apply list_fmap_insert. Qed.

Lemma atomics_insert (cs : ghosts) i g : atomics_of (<[i := g]> cs) = <[i := fmap gh_atomic g]> (atomics_of cs).
Proof. apply list_fmap_insert. Qed.

Lemma threads_ghost (cs : ghosts) i th : threads_of cs !! i = Some (Some th) ->
  exists g, cs !! i = Some (Some g) /\ gh_th g = th.
Proof.
  unfold threads_of. rewrite list_lookup_fmap. destruct (cs !! i) as [[g|]|] eqn:E; cbn; [|done..]. intros [= <-]. by exists g.
Qed.

Lemma sim_step strategy table A M cs e s' : sim strategy table A M cs -> step strategy table (M, threads_of cs) e s' ->
  exists A' cs', sim strategy table A' s'.1 cs' /\ s'.2 = threads_of cs' /\
    steps astep (A, atomics_of cs) (match e with Some e => [e] | None => [] end) (A', atomics_of cs').
Proof.
  intros Hs Hst. inversion Hst as [? ? i a Hi Hd Hb|? ? i th d mode p Hi Hp Hgr|? ? i th d p Hi Hp|? M' ? i th p Hi Ha|? ? i th o Hi Hp]; subst; cbn [fst snd].
  - assert (Hci : cs !! i = Some None).
    { unfold threads_of in Hi. rewrite list_lookup_fmap in Hi. destruct (cs !! i) as [[|]|]; done. }
    exists A, (<[i := Some (mkGhost (mkThread (accessor_key a) (accessor_prog a) None None) (accessor_prog a) true)]> cs).
    split_and!; [by apply sim_begin, accessor_disciplined|by rewrite threads_insert|].
    rewrite atomics_insert. apply (steps_snoc _ _ [] _ (Some _) _ (steps_nil _ _)), at_begin.
    unfold atomics_of. by rewrite list_lookup_fmap, Hci.
  - destruct (threads_ghost _ _ _ Hi) as (g & Hci & <-). eexists A, _. split_and!; [by eapply sim_acquire|by rewrite threads_insert|].
    rewrite atomics_insert. cbn. rewrite list_insert_id; [apply steps_nil|]. unfold atomics_of. by rewrite list_lookup_fmap, Hci.
  - destruct (threads_ghost _ _ _ Hi) as (g & Hci & <-). destruct (sim_release _ _ _ _ _ _ _ _ _ Hs Hci Hp) as (A' & Hs' & Hr).
    eexists A', _. split_and!; [exact Hs'|by rewrite threads_insert|]. rewrite atomics_insert. eapply steps_silent; [apply steps_nil|exact Hr].
  - destruct (threads_ghost _ _ _ Hi) as (g & Hci & <-). eexists A, _. split_and!; [by eapply sim_access|by rewrite threads_insert|].
    rewrite atomics_insert. cbn. rewrite list_insert_id; [apply steps_nil|]. unfold atomics_of. by rewrite list_lookup_fmap, Hci.
  - destruct (threads_ghost _ _ _ Hi) as (g & Hci & <-). destruct (sim_finish _ _ _ _ _ _ _ _ Hs Hci Hp) as [Hs' Hr].
    exists A, (<[i := None]> cs). split_and!; [exact Hs'|by rewrite threads_insert|]. rewrite atomics_insert. cbn.
    apply (steps_snoc _ _ [] (A, <[i := Some (Done o)]> (atomics_of cs)) (Some (Finish i o))); [eapply steps_silent; [apply steps_nil|exact Hr]|].
    replace (<[i := None]> (atomics_of cs)) with (<[i := None]> (<[i := Some (Done o)]> (atomics_of cs))) by apply list_insert_insert_eq.
    apply at_finish. rewrite list_lookup_insert_eq; [done|]. eapply lookup_lt_Some. unfold atomics_of. by rewrite list_lookup_fmap, Hci.
Qed.

Lemma steps_app (a b c : AState Key Value Output) ev ev' : steps astep a ev b -> steps astep b ev' c -> steps astep a (ev ++ ev') c.
Proof.
  intros Ha Hb. induction Hb as [|b ev' c e d Hb IH Hd]; [by rewrite app_nil_r|]. rewrite app_assoc. by eapply steps_snoc; [apply IH|].
Qed.

Lemma sim_initial strategy table m n : sim strategy table m m (replicate n None).
Proof.
  split; [intros i g Hi|intros i j g g' _ Hi|by left|by left]; by apply lookup_replicate in Hi as [? _].
Qed.

Lemma sim_reachable strategy table m n events s : steps (step strategy table) (initial m n) events s ->
  exists A cs, sim strategy table A s.1 cs /\ s.2 = threads_of cs /\ steps astep (ainitial m n) events (A, atomics_of cs).
Proof.
  intros Hr. remember (initial m n) as s0 eqn:E0. induction Hr as [s|s events s' e s'' Hr IH Hst]; subst.
  - exists m, (replicate n None). split_and!; [apply sim_initial|unfold threads_of, initial; by rewrite fmap_replicate|].
    unfold atomics_of. rewrite fmap_replicate. apply steps_nil.
  - destruct IH as (A & cs & Hs & Hts & Ha); [done|]. destruct s' as [M ts]. cbn in *. subst ts.
    destruct (sim_step _ _ _ _ _ _ _ Hs Hst) as (A' & cs' & Hs' & Hts' & Ha'). exists A', cs'. split_and!; [done|done|].
    by eapply steps_app.
Qed.

Lemma disciplined_structure table key growing im vm here (p : Prog) a :
  disciplined table key growing im vm here p -> touches_structure p = Some a ->
  growing = true /\ exists mode, im = Some mode /\ (a = Exclusive -> mode = Exclusive).
Proof.
  intros Hd Ha. destruct p; inversion Ha; subst; inversion Hd; subst; (split; [done|]; eexists; split; [done|]; done).
Qed.

Lemma disciplined_value table key growing im vm here (p : Prog) k a :
  disciplined table key growing im vm here p -> touches_value p = Some (k, a) ->
  growing = true /\ key = Some k /\ exists mode, vm = Some mode /\ (a = Exclusive -> mode = Exclusive).
Proof.
  intros Hd Ha. destruct p; inversion Ha; subst; inversion Hd; subst; (split; [done|]; split; [done|]; eexists; split; [done|]; done).
Qed.

Lemma compatible_weaken a b (ma mb : LockMode) : (a = Exclusive -> ma = Exclusive) -> (b = Exclusive -> mb = Exclusive) ->
  compatible (Some ma) (Some mb) -> compatible (Some a) (Some b).
Proof. destruct a, b, ma, mb; cbn; naive_solver. Qed.

(** No data race and no dangling reference: two threads are never about to make
    colliding accesses, and a value is only touched while its entry is there. *)
Theorem storage_race_free strategy table m n events (s : State Key Value Output) :
  steps (step strategy table) (initial m n) events s ->
  (forall i j th th', i <> j -> s.2 !! i = Some (Some th) -> s.2 !! j = Some (Some th') -> ~ race (th_prog th) (th_prog th')) /\
  (forall i th k c, s.2 !! i = Some (Some th) -> th_prog th = ReadValue k c -> k ∈ dom s.1) /\
  (forall i th k v p, s.2 !! i = Some (Some th) -> th_prog th = WriteValue k v p -> k ∈ dom s.1).
Proof.
  intros Hr. destruct (sim_reachable _ _ _ _ _ _ Hr) as (A & cs & Hs & Hts & _). destruct s as [M ts]. cbn in *. subst ts.
  split_and!.
  - intros i j th th' Hij (g & Hi & <-)%threads_ghost (g' & Hj & <-)%threads_ghost Hrace.
    pose proof (sim_separate _ _ _ _ _ _ _ _ _ Hs Hij Hi Hj) as Hsep.
    pose proof (sm_threads _ _ _ _ _ Hs i g Hi) as [(here & _ & Hd) _ _ _ _].
    pose proof (sm_threads _ _ _ _ _ Hs j g' Hj) as [(here' & _ & Hd') _ _ _ _].
    destruct Hrace as [Hrace|(k & a & b & Ha & Hb & Hrace)]; apply Hrace; clear Hrace.
    + destruct (touches_structure (th_prog (gh_th g))) as [a|] eqn:Ea; [|done].
      destruct (touches_structure (th_prog (gh_th g'))) as [b|] eqn:Eb; [|by destruct a].
      destruct (disciplined_structure _ _ _ _ _ _ _ _ Hd Ea) as (Hg & ma & Hma & Hwa).
      destruct (disciplined_structure _ _ _ _ _ _ _ _ Hd' Eb) as (Hg' & mb & Hmb & Hwb).
      destruct (Hsep Hg Hg') as [Hc _]. rewrite Hma, Hmb in Hc. by eapply compatible_weaken.
    + destruct (disciplined_value _ _ _ _ _ _ _ _ _ Hd Ha) as (Hg & Hka & ma & Hma & Hwa).
      destruct (disciplined_value _ _ _ _ _ _ _ _ _ Hd' Hb) as (Hg' & Hkb & mb & Hmb & Hwb).
      destruct (Hsep Hg Hg') as [_ Hc]. rewrite Hma, Hmb in Hc. eapply compatible_weaken; [done|done|apply Hc; congruence].
  - intros i th k c (g & Hi & <-)%threads_ghost Hp. pose proof (sm_threads _ _ _ _ _ Hs i g Hi) as [(here & Hk & Hd) _ _ _ _].
    rewrite Hp in Hd. inversion Hd; subst. destruct (Hk eq_refl) as (k' & ? & ?). congruence.
  - intros i th k v p (g & Hi & <-)%threads_ghost Hp. pose proof (sm_threads _ _ _ _ _ Hs i g Hi) as [(here & Hk & Hd) _ _ _ _].
    rewrite Hp in Hd. inversion Hd; subst. destruct (Hk eq_refl) as (k' & ? & ?). congruence.
Qed.

(** The lock a thread is about to take. *)
Definition wants (p : Prog) : option Domain := match p with Acquire d _ _ => Some d | _ => None end.

Lemma wants_nothing strategy table A M cs i g : sim strategy table A M cs -> cs !! i = Some (Some g) ->
  wants (th_prog (gh_th g)) = None -> exists e m' new, step strategy table (M, threads_of cs) e (m', <[i := new]> (threads_of cs)).
Proof.
  intros Hs Hi Hw. pose proof (sm_threads _ _ _ _ _ Hs i g Hi) as [(here & Hk & Hd) _ _ _ _].
  assert (Hti : threads_of cs !! i = Some (Some (gh_th g))) by (unfold threads_of; by rewrite list_lookup_fmap, Hi).
  destruct (th_prog (gh_th g)) as [o|d mode p|d p|c|k v p|k p|k c|k v p] eqn:Hp; [| done | | | | | |].
  - do 3 eexists. by eapply st_finish.
  - do 3 eexists. by eapply st_release.
  - do 3 eexists. eapply st_access; [done|]. rewrite Hp. constructor.
  - do 3 eexists. eapply st_access; [done|]. rewrite Hp. constructor.
  - do 3 eexists. eapply st_access; [done|]. rewrite Hp. constructor.
  - inversion Hd; subst. destruct (Hk eq_refl) as (k' & ? & Hin). simplify_eq. apply elem_of_dom in Hin as [v Hv].
    do 3 eexists. eapply st_access; [done|]. rewrite Hp. by constructor.
  - inversion Hd; subst. destruct (Hk eq_refl) as (k' & ? & Hin). simplify_eq. apply elem_of_dom in Hin as [v' Hv].
    do 3 eexists. eapply st_access; [done|]. rewrite Hp. by constructor.
Qed.

Lemma wants_granted strategy table A M cs i g d : sim strategy table A M cs -> cs !! i = Some (Some g) ->
  wants (th_prog (gh_th g)) = Some d ->
  (forall j gj, cs !! j = Some (Some gj) -> held (gh_th gj) d = None) ->
  exists e m' new, step strategy table (M, threads_of cs) e (m', <[i := new]> (threads_of cs)).
Proof.
  intros Hs Hi Hw Hfree.
  assert (Hti : threads_of cs !! i = Some (Some (gh_th g))) by (unfold threads_of; by rewrite list_lookup_fmap, Hi).
  destruct (th_prog (gh_th g)) as [|d' mode p| | | | | |] eqn:Hp; try done. injection Hw as ->.
  do 3 eexists. eapply st_acquire; [exact Hti|exact Hp|]. intros _ j th _ (gj & Hj & <-)%threads_ghost. rewrite (Hfree j gj Hj). by destruct mode.
Qed.

Lemma wants_holds table A M g d : thread_ok table A M g -> wants (th_prog (gh_th g)) = Some d ->
  th_values (gh_th g) = None /\ (d = Index -> th_index (gh_th g) = None).
Proof.
  intros [(here & _ & Hd) _ _ _ _] Hw. destruct (th_prog (gh_th g)); try done. injection Hw as ->. by inversion Hd.
Qed.

(** Progress: while any thread is inside an accessor, one of them can take a step;
    index before values leaves no cycle to wait in. *)
Theorem storage_deadlock_free strategy table m n events (s : State Key Value Output) :
  steps (step strategy table) (initial m n) events s ->
  (exists i th, s.2 !! i = Some (Some th)) ->
  exists i th e m' new, s.2 !! i = Some (Some th) /\ step strategy table s e (m', <[i := new]> s.2).
Proof.
  intros Hr (i & th & Hi). destruct (sim_reachable _ _ _ _ _ _ Hr) as (A & cs & Hs & Hts & _). destruct s as [M ts]. cbn in *. subst ts.
  assert (Hgoal : forall i g, cs !! i = Some (Some g) ->
    (exists e m' new, step strategy table (M, threads_of cs) e (m', <[i := new]> (threads_of cs))) ->
    exists i th e m' new, threads_of cs !! i = Some (Some th) /\ step strategy table (M, threads_of cs) e (m', <[i := new]> (threads_of cs))).
  { intros j g Hj (e & m' & new & Hst). exists j, (gh_th g), e, m', new. split; [|done]. unfold threads_of. by rewrite list_lookup_fmap, Hj. }
  set (is_at (w : option Domain) (c : option Ghost) := match c with Some g => bool_decide (wants (th_prog (gh_th g)) = w) | None => false end).
  assert (Hfind : forall w, (exists j g, cs !! j = Some (Some g) /\ wants (th_prog (gh_th g)) = w) \/
    forall j g, cs !! j = Some (Some g) -> wants (th_prog (gh_th g)) <> w).
  { intros w. destruct (existsb (is_at w) cs) eqn:E.
    - left. apply existsb_exists in E as ([g|] & Hin & Hat); [|done]. apply list_elem_of_In, list_elem_of_lookup in Hin as [j Hj].
      exists j, g. split; [done|]. exact (bool_decide_eq_true_1 _ Hat).
    - right. intros j g Hj Hw. assert (Ht : existsb (is_at w) cs = true); [|congruence].
      apply existsb_exists. exists (Some g). split; [by apply list_elem_of_In, list_elem_of_lookup; exists j|]. exact (bool_decide_eq_true_2 _ Hw). }
  destruct (Hfind None) as [(j & g & Hj & Hw)|Hbusy]; [eapply Hgoal; [exact Hj|by eapply wants_nothing]|].
  assert (Hholds : forall j g, cs !! j = Some (Some g) -> th_values (gh_th g) = None /\ (wants (th_prog (gh_th g)) = Some Index -> th_index (gh_th g) = None)).
  { intros j g Hj. pose proof (sm_threads _ _ _ _ _ Hs j g Hj) as Hok. destruct (wants (th_prog (gh_th g))) as [d|] eqn:Ew; [|by destruct (Hbusy j g)].
    destruct (wants_holds _ _ _ _ _ Hok Ew) as [Hv Hx]. split; [done|]. intros [= ->]. by apply Hx. }
  destruct (Hfind (Some Values)) as [(j & g & Hj & Hw)|Hno].
  - eapply Hgoal; [exact Hj|]. eapply wants_granted; [done..|]. intros j' g' Hj'. by apply (Hholds j').
  - destruct (threads_ghost _ _ _ Hi) as (g & Hci & _). eapply Hgoal; [exact Hci|].
    assert (Hall : forall j g, cs !! j = Some (Some g) -> wants (th_prog (gh_th g)) = Some Index).
    { intros j g' Hj. specialize (Hbusy j g' Hj). specialize (Hno j g' Hj). by destruct (wants (th_prog (gh_th g'))) as [[]|]. }
    eapply wants_granted; [done|done|by eapply Hall|]. intros j' g' Hj'. apply (Hholds j'); [done|by eapply Hall].
Qed.

(** ** The accessors *)

Lemma with_mut_undisciplined k d (f : Value -> bool -> Output * Value) :
  ~ disciplined EngineWide (Some k) true None None false (prog_with_mut k d f).
Proof.
  intros Hd. inversion Hd as [|? ? ? ? Hd1| | | | | | | |]; subst. inversion Hd1 as [| | |? ? ? ? Hd2| | | | | |]; subst.
  specialize (Hd2 {[k]}). rewrite bool_decide_eq_true_2 in Hd2 by set_solver. cbn in Hd2.
  inversion Hd2 as [| |? ? ? ? Hw| | | | | | |]; subst. by specialize (Hw eq_refl eq_refl).
Qed.

Lemma find_run {O} k (c : bool -> Locking.Prog Key Value O) m :
  run_section (Find k c) m = run_section (c (match m !! k with Some _ => true | None => false end)) m.
Proof.
  unfold Find. cbn. destruct (m !! k) as [v|] eqn:E.
  - rewrite bool_decide_eq_true_2; [done|]. by apply elem_of_dom_2 in E.
  - rewrite bool_decide_eq_false_2; [done|]. by apply not_elem_of_dom.
Qed.

Ltac run_prog :=
  repeat first
    [ progress cbn [run_phases run_section skip_releases mbind option_bind fst snd negb]
    | rewrite find_run
    | rewrite lookup_insert_eq | rewrite insert_insert_eq | rewrite delete_insert_eq
    | match goal with
      | |- context [match ?m !! ?k with Some _ => _ | None => _ end] => destruct (m !! k) eqn:?
      | |- context [let '(_, _) := ?f ?x ?y in _] => destruct (f x y) eqn:?
      | |- context [let '(_, _) := ?f ?x in _] => destruct (f x) eqn:?
      | |- context [if ?b then _ else _] => lazymatch b with bool_decide _ => fail | _ => destruct b eqn:? end
      | H : ?m !! ?k = _ |- context [?m !! ?k] => rewrite H
      end ].

(** What [Storage] says an accessor answers and leaves, when its sections see these
    maps. *)
Definition as_result (is_err : Output -> bool) (f : Value -> bool -> Output * Value) (v : Value) (fresh : bool) :
    result Output Output * Value :=
  let '(o, v) := f v fresh in (if is_err o then Err o else Ok o, v).
Definition of_result (r : result Output Output) : Output := match r with Ok o | Err o => o end.

Definition accessor_result (a : Accessor Key Value Output) m1 m2 : Output * gmap Key Value :=
  match a with
  | AccLen output => (output (storage_len m1), m1)
  | AccKeys output => (output (list_to_set (storage_keys m1)), m1)
  | AccWith k reader missing => (default missing (storage_with m1 k reader), m1)
  | AccWithMutIfPresent k mutator missing => let '(o, m) := with_mut_if_present m1 k mutator in (default missing o, m)
  | AccWithMutIfPresentExclusiveIndex k mutator missing =>
      let '(o, m) := with_mut_if_present_exclusive_index m1 k mutator in (default missing o, m)
  | AccWithMut k default mutator => with_mut_phased m1 m2 k default mutator
  | AccWithMutExclusiveIndex k default mutator => with_mut_exclusive_index m1 k default mutator
  | AccWithMutOrInsertPruneNewIf k default prune_if is_err mutator =>
      let '(r, m) := prune_new_phased m1 m2 k default prune_if (as_result is_err mutator) in (of_result r, m)
  | AccInsertIfAbsent k default output =>
      let '(inserted, m) := insert_if_absent_phased m1 m2 k default in (output inserted, m)
  | AccRemove k output => let '(removed, m) := storage_remove m1 k in (output removed, m)
  | AccRemoveIf k predicate output => let '(removed, m) := storage_remove_if m1 k predicate in (output removed, m)
  end.

Lemma accessor_computes a m1 m2 : run_phases (accessor_prog a) [m1; m2] = Some (accessor_result a m1 m2).
Proof.
  destruct a; cbn [accessor_prog accessor_result];
    unfold prog_len, prog_keys, prog_with, prog_with_mut_if_present, prog_with_mut_if_present_exclusive_index,
      prog_with_mut, prog_with_mut_exclusive_index, prog_with_mut_or_insert_prune_new_if, prog_insert_if_absent,
      prog_remove, prog_remove_if, prog_fast, prog_entry, prog_mutate, storage_len, storage_keys, storage_with,
      with_mut_if_present, with_mut_if_present_exclusive_index, storage_remove, storage_remove_if, with_mut_phased,
      insert_if_absent_phased, prune_new_phased, prune_new_slow, with_mut_fast, with_mut_slow, with_mut_exclusive_index, as_result, of_result;
    run_prog; try done; try congruence.
  all: run_prog; cbn in *; repeat case_match; simplify_eq; try done.
  all: rewrite ?size_dom, ?delete_id, ?delete_insert_eq, ?lookup_insert_eq by done; try done.
  do 3 f_equal. apply set_eq. intros k. rewrite elem_of_dom, elem_of_list_to_set, list_elem_of_fmap. split.
  - intros [v Hv]. exists (k, v). by rewrite elem_of_map_to_list.
  - intros ([k' v] & -> & Hv%elem_of_map_to_list). by exists v.
Qed.

(** C28: Atomicity.  Threads call the accessors their table offers.  Under each strategy
    with its contract, whatever the interleaving of their single lockings and accesses
    shows - the accessors begun and the answers they give, in order - a machine that
    runs every section, from the first guard to the last, in one step shows too, and
    when all threads are idle both hold the same map.  The sections of an accessor, run
    on the maps they see, answer and leave what [Storage] says. *)
Theorem storage_sections_atomic strategy table m n events (s : State Key Value Output) :
  steps (step strategy table) (initial m n) events s ->
  (exists a, steps astep (ainitial m n) events a /\
    ((forall i, s.2 !! i <> None -> s.2 !! i = Some None) -> a = (s.1, replicate (length s.2) None))) /\
  forall (a : Accessor Key Value Output) m1 m2, run_phases (accessor_prog a) [m1; m2] = Some (accessor_result a m1 m2).
Proof.
  intros Hr. split; [|apply accessor_computes].
  destruct (sim_reachable _ _ _ _ _ _ Hr) as (A & cs & Hs & Hts & Ha). exists (A, atomics_of cs). split; [done|].
  intros Hidle. destruct s as [M ts]. cbn in *. subst ts.
  assert (Hn : forall i g, cs !! i <> Some (Some g)).
  { intros i g Hi. specialize (Hidle i). unfold threads_of in Hidle. rewrite list_lookup_fmap, Hi in Hidle. by specialize (Hidle ltac:(done)). }
  f_equal.
  - apply map_eq. intros k. destruct (sm_values _ _ _ _ _ Hs k) as [|(i & g & Hi & _)]; [done|]. by destruct (Hn i g).
  - unfold threads_of, atomics_of. rewrite length_fmap. apply list_eq. intros i. rewrite list_lookup_fmap.
    destruct (cs !! i) as [[g|]|] eqn:Ei; cbn; [by destruct (Hn i g)| |].
    + symmetry. apply lookup_replicate. split; [done|]. by eapply lookup_lt_Some.
    + symmetry. apply lookup_replicate_None. by apply lookup_ge_None.
Qed.

End LockingFacts.

(** The mode chosen at run time locks and serializes as the strategy of the mode it
    stands for, and the lease is taken exactly where the contract does not already
    rule out an overlap. *)
Theorem runtime_mode_agrees mode d :
  runtime_locks mode d = locks (create_policy mode) d /\
  runtime_serializes_state_transitions mode = serializes_state_transitions (create_policy mode) /\
  (serializes_state_transitions (create_policy mode) = true <-> locks (create_policy mode) Values = true).
Proof. by destruct mode, d. Qed.
