(* ===== verification/Holdings.v ===== *)
(** * Holdings: one (account, asset) slot

    src/crates/openpit/src/pretrade/holdings/holdings.rs and error.rs: available,
    held and incoming quantities with the average entry price and the realized
    P&L of the position.  Every operation returns the new slot. *)
From S2P Require Import Prelude.
From S2P Require Import Decimal.
From S2P Require Import Param.
From S2P Require Import ParamTypes.
From S2P Require Import Identifiers.
From S2P Require Import Mutation.
From S2P Require Import Reject.
From S2P Require Import AccountControl.
From S2P Require Import Accounts.
From S2P Require Import Lock.
From S2P Require Import Policy.
Open Scope Z_scope.

Section Holdings.
Context {D : DecimalOps}.

Inductive AdjustmentOverflowError : Set := AOE_ArithmeticOverflow.

Inductive HoldError : Type :=
| InsufficientAvailable (available requested : PositionSize)
| HE_ArithmeticOverflow.

Inductive PositionPnlState : Type :=
| StatePnl (pnl : Pnl)
| StateHalted (reason : PnlHaltReason).

Record Holdings : Type := mkHoldings {
  h_available : PositionSize;
  h_held : PositionSize;
  h_incoming : PositionSize;
  h_avg_entry_price : option Price;
  h_realized_pnl : option PositionPnlState
}.

Record PositionPnlOperation : Type := mkPnlOperation {
  po_holdings : Holdings;
  po_outcome : option PnlOutcome;
  po_realized_delta : option Pnl;
  po_average_entry_price : option Price
}.

Implicit Types (self : Holdings) (amount : PositionSize).

Definition op_unchanged (holdings : Holdings) : PositionPnlOperation :=
  mkPnlOperation holdings None None None.

Definition op_updated (holdings : Holdings) (outcome : option PnlOutcome)
    (realized_delta : option Pnl) (average_entry_price : option Price) : PositionPnlOperation :=
  mkPnlOperation holdings outcome realized_delta average_entry_price.

Inductive AdjustmentTarget : Set := TargetAvailable | TargetHeld | TargetIncoming.

Definition holdings_zero : Holdings := mkHoldings sg_ZERO sg_ZERO sg_ZERO None None.

Definition holdings_new (available held : PositionSize) : Holdings :=
  mkHoldings available held sg_ZERO None None.

(** The struct updates [Self { field, ..*self }]. *)
Definition set_quantities self (available held incoming : PositionSize) : Holdings :=
  mkHoldings available held incoming (h_avg_entry_price self) (h_realized_pnl self).
Definition set_pnl self (avg : option Price) (pnl : option PositionPnlState) : Holdings :=
  mkHoldings (h_available self) (h_held self) (h_incoming self) avg pnl.

Definition realized_pnl self : option Pnl :=
  match h_realized_pnl self with Some (StatePnl value) => Some value | _ => None end.

Definition realized_pnl_halt_reason self : option PnlHaltReason :=
  match h_realized_pnl self with Some (StateHalted reason) => Some reason | _ => None end.

Definition realized_pnl_is_halted self : bool :=
  match realized_pnl_halt_reason self with Some _ => true | None => false end.

Definition with_realized_pnl self (pnl : Pnl) : Holdings :=
  set_pnl self (h_avg_entry_price self) (Some (StatePnl pnl)).

Definition force_set_realized_pnl_state self (state : PositionPnlState) : Holdings :=
  set_pnl self (match state with StatePnl _ => h_avg_entry_price self | StateHalted _ => None end)
    (Some state).

Definition with_realized_pnl_opt self (pnl : option Pnl) : Holdings :=
  set_pnl self (h_avg_entry_price self)
    (match h_realized_pnl self, pnl with
     | _, Some value => Some (StatePnl value)
     | Some (StateHalted reason), None => Some (StateHalted reason)
     | _, None => None
     end).

Definition with_realized_pnl_state self (state : option PositionPnlState) : Holdings :=
  set_pnl self (h_avg_entry_price self) state.

Definition halt_realized_pnl_with_average self (reason : PnlHaltReason)
    (avg_entry_price : option Price) : PositionPnlOperation :=
  if realized_pnl_is_halted self then op_unchanged self
  else op_updated (set_pnl self avg_entry_price (Some (StateHalted reason))) (Some (Err reason))
         None None.

Definition halt_realized_pnl self (reason : PnlHaltReason) : PositionPnlOperation :=
  halt_realized_pnl_with_average self reason None.

Definition halt_realized_pnl_preserving_average self (reason : PnlHaltReason) : PositionPnlOperation :=
  halt_realized_pnl_with_average self reason (h_avg_entry_price self).

(** [map_err(|_| ArithmeticOverflow)]. *)
Definition or_overflow {E T} (r : result E T) : result AdjustmentOverflowError T :=
  map_err (fun _ => AOE_ArithmeticOverflow) r.
Definition or_hold_overflow {E T} (r : result E T) : result HoldError T :=
  map_err (fun _ => HE_ArithmeticOverflow) r.

(** [(a > ZERO) == (b > ZERO)]. *)
Definition same_direction (a b : Dec) : bool := eqb (dec_gtb a dec_zero) (dec_gtb b dec_zero).

Definition halt_realized_pnl_for_unpriced_fill self (signed_quantity : PositionSize)
    (reason : PnlHaltReason) : result AdjustmentOverflowError PositionPnlOperation :=
  owned ← or_overflow (sg_checked_add (h_available self) (h_held self));
  new_owned ← or_overflow (sg_checked_add owned signed_quantity);
  let owned := sg_to_decimal owned in
  let quantity := sg_to_decimal signed_quantity in
  let avg_entry_price :=
    if dec_eqb quantity dec_zero then h_avg_entry_price self
    else if dec_eqb owned dec_zero || same_direction owned quantity ||
            dec_gtb (dec_abs quantity) (dec_abs owned) || sg_is_zero new_owned
    then None
    else h_avg_entry_price self in
  let '(pnl, outcome) :=
    match h_realized_pnl self with
    | Some (StateHalted existing) => (StateHalted existing, None)
    | _ => (StateHalted reason, Some (Err reason))
    end in
  Ok (op_updated (set_pnl self avg_entry_price (Some pnl)) outcome None avg_entry_price).

Definition without_position_tracking self : Holdings := set_pnl self None None.

Definition spendable self : result HoldError PositionSize :=
  if sg_ltb (h_held self) sg_ZERO
  then or_hold_overflow (sg_checked_add (h_available self) (h_held self))
  else Ok (h_available self).

Definition hold_allow_negative self amount : result HoldError Holdings :=
  available ← or_hold_overflow (sg_checked_sub (h_available self) amount);
  held ← or_hold_overflow (sg_checked_add (h_held self) amount);
  Ok (set_quantities self available held (h_incoming self)).

Definition try_hold self amount : result HoldError Holdings :=
  spendable ← spendable self;
  if sg_gtb amount spendable then Err (InsufficientAvailable spendable amount)
  else
    available ← or_hold_overflow (sg_checked_sub (h_available self) amount);
    held ← or_hold_overflow (sg_checked_add (h_held self) amount);
    Ok (set_quantities self available held (h_incoming self)).

Definition release self amount : result AdjustmentOverflowError Holdings :=
  available ← or_overflow (sg_checked_add (h_available self) amount);
  held ← or_overflow (sg_checked_sub (h_held self) amount);
  Ok (set_quantities self available held (h_incoming self)).

Definition apply_fill_outflow self amount : result AdjustmentOverflowError Holdings :=
  held ← or_overflow (sg_checked_sub (h_held self) amount);
  Ok (set_quantities self (h_available self) held (h_incoming self)).

Definition apply_fill_inflow self amount : result AdjustmentOverflowError Holdings :=
  available ← or_overflow (sg_checked_add (h_available self) amount);
  Ok (set_quantities self available (h_held self) (h_incoming self)).

Definition reserve_incoming self amount : result AdjustmentOverflowError Holdings :=
  incoming ← or_overflow (sg_checked_add (h_incoming self) amount);
  Ok (set_quantities self (h_available self) (h_held self) incoming).

Definition consume_incoming self amount : result AdjustmentOverflowError Holdings :=
  incoming ← or_overflow (sg_checked_sub (h_incoming self) amount);
  Ok (set_quantities self (h_available self) (h_held self) incoming).

(** ** Weighted-average-cost accounting *)

(** [ok_or(ArithmeticOverflow)] of the decimal operations. *)
Definition dec_or_overflow (o : option Dec) : result AdjustmentOverflowError Dec :=
  ok_or o AOE_ArithmeticOverflow.

(** What the case analysis of a fill yields: the new average and the realized
    amount, or the early return for a missing cost basis. *)
Inductive FillCase : Type :=
| FillRealized (new_avg : option Price) (realized : Dec)
| FillMissingBasis.

Definition fill_add_position (owned new_owned : PositionSize) (delta price : Dec)
    (avg_entry_price : option Price) : result AdjustmentOverflowError FillCase :=
  match avg_entry_price with
  | Some avg =>
      weighted_existing ← dec_or_overflow (dec_mul (sg_to_decimal owned) (sg_to_decimal avg));
      weighted_fill ← dec_or_overflow (dec_mul delta price);
      numerator ← dec_or_overflow (dec_add weighted_existing weighted_fill);
      new_avg ← dec_or_overflow (dec_div numerator (sg_to_decimal new_owned));
      Ok (FillRealized (Some (sg_new new_avg)) dec_zero)
  | None => if dec_eqb delta dec_zero then Ok (FillRealized None dec_zero) else Ok FillMissingBasis
  end.

Definition fill_reduce_position (owned new_owned : PositionSize) (delta : Dec) (price : Price)
    (avg_entry_price : option Price) : result AdjustmentOverflowError FillCase :=
  match avg_entry_price with
  | Some avg =>
      price_minus_avg ← dec_or_overflow (dec_sub (sg_to_decimal price) (sg_to_decimal avg));
      if dec_leb (dec_abs delta) (dec_abs (sg_to_decimal owned))
      then
        realized ← dec_or_overflow (dec_mul price_minus_avg (dec_neg delta));
        Ok (FillRealized (if sg_is_zero new_owned then None else Some avg) realized)
      else
        realized ← dec_or_overflow (dec_mul price_minus_avg (sg_to_decimal owned));
        Ok (FillRealized (Some price) realized)
  | None => Ok FillMissingBasis
  end.

Definition fill_case (owned new_owned signed_qty : PositionSize) (price : Price)
    (avg_entry_price : option Price) : result AdjustmentOverflowError FillCase :=
  let owned_dec := sg_to_decimal owned in
  let delta := sg_to_decimal signed_qty in
  if dec_eqb owned_dec dec_zero
  then Ok (FillRealized (if dec_eqb delta dec_zero then None else Some price) dec_zero)
  else if same_direction owned_dec delta
  then fill_add_position owned new_owned delta (sg_to_decimal price) avg_entry_price
  else fill_reduce_position owned new_owned delta price avg_entry_price.

Definition realizes (owned signed_qty : PositionSize) : bool :=
  negb (dec_eqb (sg_to_decimal owned) dec_zero) && negb (dec_eqb (sg_to_decimal signed_qty) dec_zero) &&
  negb (same_direction (sg_to_decimal owned) (sg_to_decimal signed_qty)).

(** The accumulation after the case analysis. *)
Definition accumulate_pnl (state : option PositionPnlState) (realizes : bool) (delta : Pnl) :
    option PositionPnlState * option PnlOutcome :=
  match state with
  | Some (StatePnl current) =>
      match sg_checked_add current delta with
      | Ok absolute =>
          (Some (StatePnl absolute),
           if realizes then Some (Ok (mkPnlOutcomeAmount delta absolute)) else None)
      | Err _ => (Some (StateHalted ArithmeticOverflow), Some (Err ArithmeticOverflow))
      end
  | None =>
      if realizes then (Some (StatePnl delta), Some (Ok (mkPnlOutcomeAmount delta delta)))
      else (None, None)
  | Some (StateHalted reason) => (Some (StateHalted reason), None)
  end.

Definition realize_position_fill self (signed_qty : PositionSize) (price : Price) :
    result AdjustmentOverflowError PositionPnlOperation :=
  owned ← or_overflow (sg_checked_add (h_available self) (h_held self));
  new_owned ← or_overflow (sg_checked_add owned signed_qty);
  let realizes := realizes owned signed_qty in
  case ← fill_case owned new_owned signed_qty price (h_avg_entry_price self);
  match case with
  | FillMissingBasis =>
      if realized_pnl_is_halted self then Ok (op_unchanged self)
      else Ok (op_updated (set_pnl self (h_avg_entry_price self) (Some (StateHalted MissingCostBasis)))
                 (Some (Err MissingCostBasis)) None None)
  | FillRealized new_avg realized =>
      let realized_delta : Pnl := sg_new realized in
      let '(pnl, outcome) := accumulate_pnl (h_realized_pnl self) realizes realized_delta in
      Ok (op_updated (set_pnl self new_avg pnl) outcome
            (if realizes then Some realized_delta else None) new_avg)
  end.

Definition add_realized_pnl_contribution self (delta : Pnl) : PositionPnlOperation :=
  let contribute current :=
    match sg_checked_add current delta with
    | Ok absolute =>
        op_updated (set_pnl self (h_avg_entry_price self) (Some (StatePnl absolute)))
          (Some (Ok (mkPnlOutcomeAmount delta absolute))) None None
    | Err _ =>
        op_updated (set_pnl self (h_avg_entry_price self) (Some (StateHalted ArithmeticOverflow)))
          (Some (Err ArithmeticOverflow)) None None
    end in
  match h_realized_pnl self with
  | Some (StatePnl current) => contribute current
  | None => contribute sg_ZERO
  | Some (StateHalted _) => op_unchanged self
  end.

Definition apply_delta_rollback self (available_delta held_delta incoming_delta : PositionSize) :
    result AdjustmentOverflowError Holdings :=
  available ← or_overflow (sg_checked_sub (h_available self) available_delta);
  held ← or_overflow (sg_checked_sub (h_held self) held_delta);
  incoming ← or_overflow (sg_checked_sub (h_incoming self) incoming_delta);
  Ok (set_quantities self available held incoming).

Definition apply_adjustment self (target : AdjustmentTarget) (amount : AdjustmentAmount) :
    result AdjustmentOverflowError Holdings :=
  let adjusted field :=
    match amount with
    | Absolute v => Ok v
    | Delta d => or_overflow (sg_checked_add field d)
    end in
  match target with
  | TargetAvailable =>
      available ← adjusted (h_available self);
      Ok (set_quantities self available (h_held self) (h_incoming self))
  | TargetHeld =>
      held ← adjusted (h_held self);
      Ok (set_quantities self (h_available self) held (h_incoming self))
  | TargetIncoming =>
      incoming ← adjusted (h_incoming self);
      Ok (set_quantities self (h_available self) (h_held self) incoming)
  end.

Definition with_avg_entry_price self (avg_entry_price : option Price) : Holdings :=
  set_pnl self avg_entry_price (h_realized_pnl self).

Definition is_none {A} (o : option A) : bool := match o with None => true | Some _ => false end.

Definition holdings_is_zero self : bool :=
  sg_is_zero (h_available self) && sg_is_zero (h_held self) && sg_is_zero (h_incoming self) &&
  is_none (h_realized_pnl self) && is_none (h_avg_entry_price self).

Definition is_retirable self : bool :=
  sg_is_zero (h_available self) && sg_is_zero (h_held self) && sg_is_zero (h_incoming self) &&
  is_none (h_avg_entry_price self) &&
  match h_realized_pnl self with
  | None => true
  | Some (StatePnl pnl) => sg_eqb pnl sg_ZERO
  | Some (StateHalted _) => false
  end.

(** [is_none_or] on both bounds. *)
Definition within_bounds (value : PositionSize) (lower upper : option PositionSize) : bool :=
  match lower with None => true | Some b => sg_geb value b end &&
  match upper with None => true | Some b => sg_leb value b end.

Definition available_within_bounds self := within_bounds (h_available self).
Definition held_within_bounds self := within_bounds (h_held self).
Definition incoming_within_bounds self := within_bounds (h_incoming self).

End Holdings.
