(* ===== verification/HoldingsFacts.v ===== *)
(** * HoldingsFacts: conservation and weighted-average accounting

    Statements are in units of 10^-28 and ask that the exact results involved be
    representable.  The one result that need not be is the average of a fill added to
    a position: its rounding is measured, and the value a fill conserves is stated up
    to it. *)
From S2P Require Import Prelude.
From S2P Require Import Decimal.
From S2P Require Import Param.
From S2P Require Import ParamTypes.
From S2P Require Import Identifiers.
From S2P Require Import Mutation.
From S2P Require Import Reject.
From S2P Require Import AccountControl.
From S2P Require Import Accounts.
From S2P Require Import Lock.
From S2P Require Import Policy.
From S2P Require Import Holdings.
Open Scope Z_scope.

Section HoldingsFacts.
Context {D : DecimalOps} {L : DecimalLaws D}.
Implicit Types (h self : Holdings) (a b : PositionSize).

(** The quantities of a slot, in units. *)
Definition av h : Z := sg_val (h_available h).
Definition hd h : Z := sg_val (h_held h).
Definition inc h : Z := sg_val (h_incoming h).
Definition owned h : Z := av h + hd h.

(** Numerically equal slots with the same position P&L. *)
#[export] Instance holdings_equiv : Equiv Holdings := fun h1 h2 =>
  av h1 = av h2 /\ hd h1 = hd h2 /\ inc h1 = inc h2 /\
  h_avg_entry_price h1 = h_avg_entry_price h2 /\ h_realized_pnl h1 = h_realized_pnl h2.

#[export] Instance holdings_equivalence : Equivalence (≡@{Holdings}).
Proof. split; repeat intro; unfold equiv, holdings_equiv in *; intuition congruence. Qed.

#[export] Instance av_proper : Proper ((≡) ==> (=)) av.
Proof. intros h1 h2 H. apply H. Qed.
#[export] Instance hd_proper : Proper ((≡) ==> (=)) hd.
Proof. intros h1 h2 H. apply H. Qed.
#[export] Instance owned_proper : Proper ((≡) ==> (=)) owned.
Proof. intros h1 h2 H. unfold owned. by rewrite H. Qed.

(** What an operation that moves quantities does: the three changes, and nothing
    else. *)
Definition moved h h' (da dh di : Z) : Prop :=
  av h' = av h + da /\ hd h' = hd h + dh /\ inc h' = inc h + di /\
  h_avg_entry_price h' = h_avg_entry_price h /\ h_realized_pnl h' = h_realized_pnl h.

Lemma moved_equiv h h' : moved h h' 0 0 0 -> h' ≡ h.
Proof. unfold moved, equiv, holdings_equiv. intuition lia. Qed.

Lemma moved_trans h1 h2 h3 x1 y1 z1 x2 y2 z2 :
  moved h1 h2 x1 y1 z1 -> moved h2 h3 x2 y2 z2 -> moved h1 h3 (x1 + x2) (y1 + y2) (z1 + z2).
Proof. unfold moved. intuition (first [lia | congruence]). Qed.

Lemma add_map {E} (f : ParamError -> E) a b : representable (sg_val a + sg_val b) ->
  exists c, map_err f (sg_checked_add a b) = Ok c /\ sg_val c = sg_val a + sg_val b.
Proof. intros (c & -> & Hc)%sg_add_val. by exists c. Qed.

Lemma sub_map {E} (f : ParamError -> E) a b : representable (sg_val a - sg_val b) ->
  exists c, map_err f (sg_checked_sub a b) = Ok c /\ sg_val c = sg_val a - sg_val b.
Proof. intros (c & -> & Hc)%sg_sub_val. by exists c. Qed.

(** [step_exact] runs the next checked operation of the goal with its exact
    value, given a representability fact in the context. *)
Ltac step_exact :=
  unfold or_overflow, or_hold_overflow in *;
  match goal with
  | |- context [map_err ?f (sg_checked_add ?a ?b)] =>
      let c := fresh "c" in let E := fresh "E" in let V := fresh "V" in
      destruct (add_map f a b) as (c & E & V); [first [eassumption | by eauto with decimal]|];
      rewrite E; clear E; cbn [mbind result_bind]
  | |- context [map_err ?f (sg_checked_sub ?a ?b)] =>
      let c := fresh "c" in let E := fresh "E" in let V := fresh "V" in
      destruct (sub_map f a b) as (c & E & V); [first [eassumption | by eauto with decimal]|];
      rewrite E; clear E; cbn [mbind result_bind]
  end.
Ltac moved_done := eexists; split; [reflexivity|]; unfold moved, av, hd, inc in *; cbn in *; intuition lia.

Lemma hold_allow_negative_moved self a :
  representable (av self - sg_val a) -> representable (hd self + sg_val a) ->
  exists h, hold_allow_negative self a = Ok h /\ moved self h (- sg_val a) (sg_val a) 0.
Proof. intros H1 H2. unfold hold_allow_negative, av, hd in *. do 2 step_exact. moved_done. Qed.

Lemma release_moved self a :
  representable (av self + sg_val a) -> representable (hd self - sg_val a) ->
  exists h, release self a = Ok h /\ moved self h (sg_val a) (- sg_val a) 0.
Proof. intros H1 H2. unfold release, av, hd in *. do 2 step_exact. moved_done. Qed.

Lemma fill_outflow_moved self a : representable (hd self - sg_val a) ->
  exists h, apply_fill_outflow self a = Ok h /\ moved self h 0 (- sg_val a) 0.
Proof. intros H. unfold apply_fill_outflow, hd in *. step_exact. moved_done. Qed.

Lemma fill_inflow_moved self a : representable (av self + sg_val a) ->
  exists h, apply_fill_inflow self a = Ok h /\ moved self h (sg_val a) 0 0.
Proof. intros H. unfold apply_fill_inflow, av in *. step_exact. moved_done. Qed.

Lemma reserve_incoming_moved self a : representable (inc self + sg_val a) ->
  exists h, reserve_incoming self a = Ok h /\ moved self h 0 0 (sg_val a).
Proof. intros H. unfold reserve_incoming, inc in *. step_exact. moved_done. Qed.

Lemma consume_incoming_moved self a : representable (inc self - sg_val a) ->
  exists h, consume_incoming self a = Ok h /\ moved self h 0 0 (- sg_val a).
Proof. intros H. unfold consume_incoming, inc in *. step_exact. moved_done. Qed.

Lemma delta_rollback_moved self da dh di :
  representable (av self - sg_val da) -> representable (hd self - sg_val dh) ->
  representable (inc self - sg_val di) ->
  exists h, apply_delta_rollback self da dh di = Ok h /\
    moved self h (- sg_val da) (- sg_val dh) (- sg_val di).
Proof. intros H1 H2 H3. unfold apply_delta_rollback, av, hd, inc in *. do 3 step_exact. moved_done. Qed.

(** The funds a reservation may take. *)
Definition capacity h : Z := av h + Z.min (hd h) 0.

Lemma spendable_val self : representable (av self + hd self) ->
  exists s, spendable self = Ok s /\ sg_val s = capacity self.
Proof.
  intros H. unfold spendable, capacity, av, hd in *. dec_norm.
  destruct (Z.ltb_spec (sg_val (h_held self)) 0).
  - step_exact. eexists. split; [done|]. lia.
  - eexists. split; [done|]. lia.
Qed.

(** The reservation gate: an amount is held exactly when it does not exceed
    what is available, less a negative held balance; the slot then has it moved
    from available to held and is otherwise unchanged, and a refusal reports the
    capacity and the request. *)
Theorem try_hold_spec self a :
  representable (owned self) -> representable (av self - sg_val a) ->
  representable (hd self + sg_val a) ->
  if sg_val a <=? capacity self
  then exists h, try_hold self a = Ok h /\ moved self h (- sg_val a) (sg_val a) 0
  else exists s, try_hold self a = Err (InsufficientAvailable s a) /\ sg_val s = capacity self.
Proof.
  intros Ho H1 H2. unfold try_hold. destruct (spendable_val self Ho) as (s & -> & Hs).
  cbn [mbind result_bind]. dec_norm. rewrite Hs.
  destruct (Z.ltb_spec (capacity self) (sg_val a)), (Z.leb_spec (sg_val a) (capacity self)); try lia.
  - by exists s.
  - destruct (hold_allow_negative_moved self a H1 H2) as (h & Hh & Hm). exists h. split; [exact Hh|done].
Qed.

(** ** A reservation's life *)

(** A reservation conserves: holding, filling part of it and releasing the
    rest leaves exactly the fill gone from available and the held balance as it
    was; without a fill, releasing gives back an equal slot. *)
Theorem reservation_lifecycle self a b c :
  sg_val c = sg_val a - sg_val b ->
  representable (av self - sg_val a) -> representable (hd self + sg_val a) ->
  representable (hd self + sg_val c) -> representable (av self - sg_val b) ->
  exists h1 h2 h3,
    hold_allow_negative self a = Ok h1 /\ apply_fill_outflow h1 b = Ok h2 /\ release h2 c = Ok h3 /\
    moved self h3 (- sg_val b) 0 0 /\ owned h3 = owned self - sg_val b /\
    (sg_val b = 0 -> h3 ≡ self).
Proof.
  intros Hc R1 R2 R3 R4.
  destruct (hold_allow_negative_moved self a R1 R2) as (h1 & E1 & M1).
  pose proof M1 as (A1 & B1 & _).
  destruct (fill_outflow_moved h1 b) as (h2 & E2 & M2).
  { by replace (hd h1 - sg_val b) with (hd self + sg_val c) by lia. }
  pose proof M2 as (A2 & B2 & _).
  destruct (release_moved h2 c) as (h3 & E3 & M3).
  { by replace (av h2 + sg_val c) with (av self - sg_val b) by lia. }
  { replace (hd h2 - sg_val c) with (sg_val (h_held self)) by (unfold hd in *; lia). apply sg_val_repr. }
  exists h1, h2, h3. pose proof (moved_trans _ _ _ _ _ _ _ _ _ (moved_trans _ _ _ _ _ _ _ _ _ M1 M2) M3) as M.
  replace (- sg_val a + 0 + sg_val c) with (- sg_val b) in M by lia.
  replace (sg_val a + - sg_val b + - sg_val c) with 0 in M by lia.
  split_and!; try done.
  - destruct M as (Ma & Mh & _). unfold owned. lia.
  - intros Hb. apply moved_equiv. by rewrite Hb in M.
Qed.

(** Undoing by deltas composes with concurrent updates: rolling back the
    changes one operation made, after others have changed the slot further,
    leaves exactly the others' changes and keeps the position P&L they left. *)
Theorem delta_rollback_interleaved self h1 h2 da dh di ea eh ei :
  moved self h1 (sg_val da) (sg_val dh) (sg_val di) ->
  av h2 = av h1 + ea -> hd h2 = hd h1 + eh -> inc h2 = inc h1 + ei ->
  representable (av self + ea) -> representable (hd self + eh) -> representable (inc self + ei) ->
  exists h3, apply_delta_rollback h2 da dh di = Ok h3 /\
    av h3 = av self + ea /\ hd h3 = hd self + eh /\ inc h3 = inc self + ei /\
    h_avg_entry_price h3 = h_avg_entry_price h2 /\ h_realized_pnl h3 = h_realized_pnl h2.
Proof.
  intros (A & B & C & _ & _) Ea Eh Ei R1 R2 R3.
  destruct (delta_rollback_moved h2 da dh di) as (h3 & E & (A3 & B3 & C3 & D3 & P3)).
  - by replace (av h2 - sg_val da) with (av self + ea) by lia.
  - by replace (hd h2 - sg_val dh) with (hd self + eh) by lia.
  - by replace (inc h2 - sg_val di) with (inc self + ei) by lia.
  - exists h3. split_and!; [done|lia..|done|done].
Qed.

(** ** Average entry price and realized P&L *)

(** [z] is the exact product of two amounts in units. *)
Definition exact_mul (x y z : Z) : Prop := representable z /\ x * y = z * DEC_UNIT.

(** The decimals divide [x] by [y] and are at most [err] units off. *)
Definition near_div (err x y : Z) : Prop := forall n d, dec_val n = x -> dec_val d = y ->
  exists c, dec_div n d = Some c /\ Z.abs (dec_val c * y - x * DEC_UNIT) <= err * Z.abs y.

Lemma exact_near_div x y z : y <> 0 -> representable z -> x * DEC_UNIT = z * y -> near_div 0 x y.
Proof.
  intros Hy Hz E n d Hn Hd. rewrite <- Hn, <- Hd in E. destruct (dec_div_exact n d z) as (c & Hc & V); [lia|done|done|].
  exists c. split; [done|]. rewrite V, <- Hn, <- Hd, E. lia.
Qed.

(** What a fill of [d] at price [p] on a position [o] with average [a] computes on
    the way: its products and sums are exact, and the new average is at most [err]
    units off. *)
Definition fill_fits (err o d p a : Z) : Prop :=
  (0 <= o * d -> exists we wf, exact_mul o a we /\ exact_mul d p wf /\ representable (we + wf) /\
     near_div err (we + wf) (o + d)) /\
  (o * d <= 0 -> representable (p - a) /\
     (Z.abs d <= Z.abs o -> exists r, exact_mul (p - a) (- d) r) /\
     (Z.abs o < Z.abs d -> exists r, exact_mul (p - a) o r)).

(** The entry price a position is valued against: flat or unknown, the market
    price [p] itself. *)
Definition basis (avg : option Price) (p : Z) : Z := match avg with Some a => sg_val a | None => p end.

(** The unrealized P&L of [o] units of position at price [p], scaled by one unit. *)
Definition unrealized (o : Z) (avg : option Price) (p : Z) : Z := (p - basis avg p) * o.

Definition realized_units (op : PositionPnlOperation) : Z :=
  match po_realized_delta op with Some r => sg_val r | None => 0 end.

Lemma mul_ok (x y : Dec) z : exact_mul (dec_val x) (dec_val y) z ->
  exists c, dec_or_overflow (dec_mul x y) = Ok c /\ dec_val c = z.
Proof. intros [R E]. destruct (dec_mul_exact x y z R E) as (c & Hc & V). exists c. by rewrite Hc. Qed.

Lemma div_ok err (x y : Dec) : near_div err (dec_val x) (dec_val y) ->
  exists c, dec_or_overflow (dec_div x y) = Ok c /\
    Z.abs (dec_val c * dec_val y - dec_val x * DEC_UNIT) <= err * Z.abs (dec_val y).
Proof. intros H. destruct (H x y eq_refl eq_refl) as (c & Hc & V). exists c. by rewrite Hc. Qed.

Lemma add_ok (x y : Dec) : representable (dec_val x + dec_val y) ->
  exists c, dec_or_overflow (dec_add x y) = Ok c /\ dec_val c = dec_val x + dec_val y.
Proof. intros R. destruct (dec_add_exact x y R) as (c & Hc & V). exists c. by rewrite Hc. Qed.

Lemma sub_ok (x y : Dec) : representable (dec_val x - dec_val y) ->
  exists c, dec_or_overflow (dec_sub x y) = Ok c /\ dec_val c = dec_val x - dec_val y.
Proof. intros R. destruct (dec_sub_exact x y R) as (c & Hc & V). exists c. by rewrite Hc. Qed.

Lemma same_direction_val (x y : Dec) : same_direction x y = eqb (0 <? dec_val x) (0 <? dec_val y).
Proof. unfold same_direction. by rewrite !dec_gtb_val, dec_zero_val. Qed.

Lemma realizes_val (o q : PositionSize) :
  realizes o q = negb (sg_val o =? 0) && negb (sg_val q =? 0) && negb (eqb (0 <? sg_val o) (0 <? sg_val q)).
Proof. unfold realizes. by rewrite !dec_eqb_val, same_direction_val, dec_zero_val. Qed.

(** The case analysis returns, and its realized amount and new basis conserve
    the value of the position, up to the error of the average on the new position. *)
Lemma fill_case_value err (o n q : PositionSize) (price : Price) (avg : option Price) : 0 <= err ->
  sg_val n = sg_val o + sg_val q -> (avg = None -> sg_val o = 0) ->
  (forall pa, avg = Some pa -> fill_fits err (sg_val o) (sg_val q) (sg_val price) (sg_val pa)) ->
  exists new_avg r, fill_case o n q price avg = Ok (FillRealized new_avg r) /\
    Z.abs (dec_val r * DEC_UNIT + unrealized (sg_val n) new_avg (sg_val price) -
      unrealized (sg_val o) avg (sg_val price)) <= err * Z.abs (sg_val n) /\
    (realizes o q = false -> dec_val r = 0).
Proof.
  intros Herr Hn Hnone Hex.
  assert (Hrem : 0 <= err * Z.abs (sg_val n)) by (apply Z.mul_nonneg_nonneg; lia).
  unfold fill_case. rewrite same_direction_val, realizes_val. dec_norm.
  fold (sg_val o) (sg_val q).
  destruct (Z.eqb_spec (sg_val o) 0) as [Ho|Ho].
  { eexists _, _. split; [done|]. rewrite dec_zero_val. split; [|done]. unfold unrealized.
    rewrite Ho. destruct (Z.eqb_spec (sg_val q) 0); cbn [basis]; rewrite ?Z.sub_diag; lia. }
  destruct avg as [a|]; [|by specialize (Hnone eq_refl)]. destruct (Hex a eq_refl) as [Hsame Hopp].
  assert (HU : 0 < DEC_UNIT) by (unfold DEC_UNIT; lia). unfold unrealized; cbn [basis].
  destruct (eqb _ _) eqn:Edir; cbn [negb andb].
  - apply eqb_prop in Edir. destruct Hsame as (we & wf & Hwe & Hwf & Hs & Hna).
    { destruct (Z.ltb_spec 0 (sg_val o)), (Z.ltb_spec 0 (sg_val q)); try done; nia. }
    unfold fill_add_position. destruct (mul_ok (sg_to_decimal o) (sg_to_decimal a) we Hwe) as (c1 & -> & V1).
    cbn [mbind result_bind]. destruct (mul_ok (sg_to_decimal q) (sg_to_decimal price) wf Hwf) as (c2 & -> & V2).
    cbn [mbind result_bind]. destruct (add_ok c1 c2) as (c3 & -> & V3); [by rewrite V1, V2|].
    cbn [mbind result_bind]. destruct (div_ok err c3 (sg_to_decimal n)) as (c4 & -> & V4).
    { fold (sg_val n). by rewrite V3, V1, V2, Hn. }
    cbn [mbind result_bind]. eexists _, _. split; [done|]. rewrite dec_zero_val. split; [|done].
    cbn [basis]. change (sg_val (sg_new c4 : Price)) with (dec_val c4).
    destruct Hwe as [_ Hwe], Hwf as [_ Hwf]. fold (sg_val n) in V4. rewrite V3, V1, V2 in V4.
    rewrite <- Z.abs_opp. refine (eq_ind _ (fun z => Z.abs z <= _) V4 _ _). rewrite Hn. lia.
  - assert (Hneg : sg_val o * sg_val q <= 0).
    { destruct (Z.ltb_spec 0 (sg_val o)), (Z.ltb_spec 0 (sg_val q)); try done; nia. }
    destruct (Hopp Hneg) as (Hd & Hred & Hflip). unfold fill_reduce_position.
    destruct (sub_ok (sg_to_decimal price) (sg_to_decimal a) Hd) as (c1 & -> & V1). cbn [mbind result_bind].
    dec_norm. fold (sg_val o) (sg_val q) in *. fold (sg_val price) (sg_val a) in V1.
    destruct (Z.leb_spec (Z.abs (sg_val q)) (Z.abs (sg_val o))).
    + destruct Hred as [r Hr]; [done|].
      destruct (mul_ok c1 (dec_neg (sg_to_decimal q)) r) as (c2 & -> & V2).
      { rewrite dec_neg_val, V1. exact Hr. }
      cbn [mbind result_bind]. eexists _, _. split; [done|]. destruct Hr as [_ Hr]. rewrite V2, Hn.
      split.
      * refine (eq_ind 0 (fun z => Z.abs z <= _) _ _ _); [rewrite Hn in Hrem; lia|].
        destruct (Z.eqb_spec (sg_val o + sg_val q) 0); cbn [basis]; nia.
      * destruct (Z.eqb_spec (sg_val q) 0) as [E|]; cbn; [|done].
        intros _. rewrite E in Hr. nia.
    + destruct Hflip as [r Hr]; [lia|].
      destruct (mul_ok c1 (sg_to_decimal o) r) as (c2 & -> & V2); [by rewrite V1|].
      cbn [mbind result_bind]. eexists _, _. split; [done|]. destruct Hr as [_ Hr]. rewrite V2.
      cbn [basis]. split; [refine (eq_ind 0 (fun z => Z.abs z <= _) _ _ _); [lia|nia]|]. destruct (Z.eqb_spec (sg_val q) 0); cbn; [lia|done].
Qed.

(** An open position whose average nobody knows. *)
Definition without_basis self : bool := is_none (h_avg_entry_price self) && negb (owned self =? 0).

(** On such a position the case analysis gives up, but for an empty fill. *)
Lemma fill_case_without_basis (o n q : PositionSize) (price : Price) : sg_val o <> 0 ->
  exists case, fill_case o n q price None = Ok case /\
    (case = FillMissingBasis \/ case = FillRealized None dec_zero /\ sg_val q = 0 /\ realizes o q = false).
Proof.
  intros Ho. unfold fill_case, fill_add_position, fill_reduce_position. rewrite realizes_val. dec_norm.
  fold (sg_val o) (sg_val q). destruct (Z.eqb_spec (sg_val o) 0); [done|]. destruct (same_direction _ _); [|eauto].
  destruct (Z.eqb_spec (sg_val q) 0); cbn; eauto 6.
Qed.

(** C26: a fill neither creates nor destroys value.  When the products and sums it
    computes fit the decimals it succeeds and touches no quantity.  On a flat position
    or one with a known average, the P&L it realizes plus what the new position is
    worth against its new average equals what the old position was worth against the
    old one at the fill price, but for the rounding of the new average: off by [err],
    it moves the value by at most [err] times the new position, so nothing where the
    division is exact ([exact_near_div]) or is not made - for openings, additions,
    reductions, closings and reversals, long and short alike.  On an open position
    without an average nothing is realized and no average is made up; unless the fill
    is empty the position's P&L is then halted for a missing basis, or as it was. *)
Theorem position_fill_conserves_value err self (q : PositionSize) (price : Price) : 0 <= err ->
  representable (owned self) -> representable (owned self + sg_val q) ->
  (forall pa, h_avg_entry_price self = Some pa ->
     fill_fits err (owned self) (sg_val q) (sg_val price) (sg_val pa)) ->
  exists op, realize_position_fill self q price = Ok op /\
    h_available (po_holdings op) = h_available self /\ h_held (po_holdings op) = h_held self /\
    h_incoming (po_holdings op) = h_incoming self /\
    if without_basis self
    then
      po_realized_delta op = None /\ h_avg_entry_price (po_holdings op) = None /\
      (sg_val q <> 0 ->
       h_realized_pnl (po_holdings op) =
         Some (StateHalted (default MissingCostBasis (realized_pnl_halt_reason self))))
    else
      Z.abs (realized_units op * DEC_UNIT +
        unrealized (owned self + sg_val q) (h_avg_entry_price (po_holdings op)) (sg_val price) -
        unrealized (owned self) (h_avg_entry_price self) (sg_val price)) <= err * Z.abs (owned self + sg_val q).
Proof.
  intros Herr Ro Rn Hex. unfold realize_position_fill, without_basis, owned, av, hd in *.
  step_exact. assert (R2 : representable (sg_val c + sg_val q)) by by rewrite V. step_exact. rewrite <- V in *.
  destruct (is_none (h_avg_entry_price self) && negb (sg_val c =? 0)) eqn:Eb.
  - apply andb_true_iff in Eb as [Ea Eo]. apply negb_true_iff, Z.eqb_neq in Eo.
    destruct (h_avg_entry_price self) eqn:Eavg; [done|].
    destruct (fill_case_without_basis c c0 q price Eo) as (case & -> & [->|(-> & Hq & ->)]); cbn [mbind result_bind].
    + unfold realized_pnl_is_halted, realized_pnl_halt_reason.
      destruct (h_realized_pnl self) as [[pnl|reason]|] eqn:Ep; eexists; (split; [reflexivity|]); cbn; by rewrite ?Ep, ?Eavg.
    + destruct (accumulate_pnl _ _ _) as [pnl outcome]. eexists. split; [reflexivity|]. by cbn.
  - edestruct (fill_case_value err c c0 q price (h_avg_entry_price self)) as (na & r & -> & Hv & Hz); [done|done| |done|].
    { intros En. rewrite En in Eb. by apply negb_false_iff, Z.eqb_eq in Eb. }
    cbn [mbind result_bind]. unfold realized_units. destruct (accumulate_pnl _ _ _) as [pnl outcome].
    eexists. split; [reflexivity|]. cbn. split_and!; [done..|]. rewrite V0 in Hv.
    destruct (realizes c q); [exact Hv|]. by rewrite (Hz eq_refl) in Hv.
Qed.

(** The realized P&L of a slot is the sum of what its operations report: a
    tracked slot adds each delta exactly, an untracked one starts at the first
    realized delta, and the reported absolute is the slot's new value. *)
Theorem accumulate_pnl_spec (state : option PositionPnlState) (b : bool) (delta : Pnl) :
  (forall cur, state = Some (StatePnl cur) -> representable (sg_val cur + sg_val delta)) ->
  let '(state', outcome) := accumulate_pnl state b delta in
  match state with
  | Some (StateHalted reason) => state' = state /\ outcome = None
  | Some (StatePnl cur) =>
      exists absolute, state' = Some (StatePnl absolute) /\ sg_val absolute = sg_val cur + sg_val delta /\
        outcome = if b then Some (Ok (mkPnlOutcomeAmount delta absolute)) else None
  | None => if b then state' = Some (StatePnl delta) /\ outcome = Some (Ok (mkPnlOutcomeAmount delta delta))
            else state' = None /\ outcome = None
  end.
Proof.
  intros HR. destruct state as [[cur|reason]|]; cbn; [|done|by destruct b].
  destruct (sg_add_val cur delta (HR cur eq_refl)) as (c & -> & Hc). exists c. by destruct b.
Qed.

(** A halt is sticky: once a slot's position P&L is halted, no fill, fee
    contribution or further halt changes the reason or reports anything, whatever
    the prices; only an explicit new value re-arms it. *)
Theorem halted_pnl_is_sticky self (reason : PnlHaltReason) :
  h_realized_pnl self = Some (StateHalted reason) ->
  let stays op := h_realized_pnl (po_holdings op) = Some (StateHalted reason) /\ po_outcome op = None in
  (forall q p op, realize_position_fill self q p = Ok op -> stays op) /\
  (forall q r op, halt_realized_pnl_for_unpriced_fill self q r = Ok op -> stays op) /\
  (forall d, stays (add_realized_pnl_contribution self d)) /\
  (forall r, stays (halt_realized_pnl self r) /\ stays (halt_realized_pnl_preserving_average self r)) /\
  h_realized_pnl (with_realized_pnl_opt self None) = Some (StateHalted reason) /\
  (forall v, realized_pnl (with_realized_pnl self v) = Some v).
Proof.
  intros Hs. cbv zeta. split_and!.
  - intros q p op. unfold realize_position_fill. intros E. inv_ok E.
    match goal with c : FillCase |- _ => destruct c end; [rewrite Hs in E; cbn in E; by simplify_eq|].
    unfold realized_pnl_is_halted, realized_pnl_halt_reason in E. rewrite Hs in E. by simplify_eq.
  - intros q r op. unfold halt_realized_pnl_for_unpriced_fill. intros E. inv_ok E.
    rewrite Hs in E. by simplify_eq.
  - intros d. unfold add_realized_pnl_contribution. by rewrite Hs.
  - intros r. unfold halt_realized_pnl, halt_realized_pnl_preserving_average,
      halt_realized_pnl_with_average, realized_pnl_is_halted, realized_pnl_halt_reason. by rewrite Hs.
  - unfold with_realized_pnl_opt. by rewrite Hs.
  - done.
Qed.

(** A fill of zero quantity on a position without a cost basis: a short keeps
    its P&L, a long is halted. *)
Lemma zero_fill_without_basis self (q : PositionSize) (price : Price) cur :
  representable (owned self) -> sg_val q = 0 -> h_avg_entry_price self = None ->
  h_realized_pnl self = Some (StatePnl cur) -> representable (sg_val cur + 0) ->
  exists op, realize_position_fill self q price = Ok op /\
    (owned self < 0 -> exists v, h_realized_pnl (po_holdings op) = Some (StatePnl v)) /\
    (0 < owned self -> h_realized_pnl (po_holdings op) = Some (StateHalted MissingCostBasis)).
Proof.
  intros Ro Hq Ha Hp Rc. unfold realize_position_fill, owned, av, hd in *.
  step_exact. assert (R2 : representable (sg_val c + sg_val q)) by (rewrite Hq, Z.add_0_r, V; done).
  step_exact. unfold fill_case, fill_add_position, fill_reduce_position.
  rewrite same_direction_val, Ha. dec_norm. fold (sg_val c) (sg_val q). rewrite V, Hq.
  destruct (Z.eqb_spec (sg_val (h_available self) + sg_val (h_held self)) 0) as [E|E].
  { cbn. unfold accumulate_pnl. rewrite Hp.
    destruct (sg_add_val cur (sg_new dec_zero)) as (v & -> & Hv).
    { unfold sg_val at 2. cbn. by rewrite dec_zero_val. }
    eexists. split; [reflexivity|]. split; intros; lia. }
  destruct (Z.ltb_spec 0 (sg_val (h_available self) + sg_val (h_held self))); cbn.
  - unfold realized_pnl_is_halted, realized_pnl_halt_reason. rewrite Hp.
    eexists. split; [reflexivity|]. split; [lia|done].
  - unfold accumulate_pnl. rewrite Hp. destruct (sg_add_val cur (sg_new dec_zero)) as (v & -> & Hv).
    { unfold sg_val at 2. cbn. by rewrite dec_zero_val. }
    eexists. split; [reflexivity|]. split; [intros _; by exists v|lia].
Qed.

End HoldingsFacts.
