(* ===== verification/HoldingsStore.v ===== *)
(** * HoldingsStore: the slots and their per-account index

    src/crates/openpit/src/pretrade/holdings/store.rs.  Each operation is one
    atomic step on the slots followed, after the slot's locks are released, by a
    separate step on the index; the interleaved semantics keeps the index steps
    that are still to come. *)
From S2P Require Import Prelude.
From S2P Require Import Decimal.
From S2P Require Import Param.
From S2P Require Import ParamTypes.
From S2P Require Import Identifiers.
From S2P Require Import Mutation.
From S2P Require Import Reject.
From S2P Require Import AccountControl.
From S2P Require Import Accounts.
From S2P Require Import Lock.
From S2P Require Import Policy.
From S2P Require Import Storage.
From S2P Require Import Holdings.

Abbreviation SlotKey := (AccountId * Asset)%type.

Section HoldingsStore.
Context {D : DecimalOps}.
Implicit Types (key : SlotKey).

Record HoldingsStore : Type := mkStore {
  hs_inner : gmap SlotKey Holdings;
  hs_index : gmap AccountId (gset Asset)
}.
Implicit Types (store : HoldingsStore).

Definition store_new : HoldingsStore := mkStore ∅ ∅.

Definition store_get store key : option Holdings := hs_inner store !! key.
Definition account_assets store (account : AccountId) : option (gset Asset) := hs_index store !! account.
Definition store_len store : nat := storage_len (hs_inner store).
Definition store_is_empty store : bool := storage_is_empty (hs_inner store).
Definition store_keys store : list SlotKey := storage_keys (hs_inner store).

Definition set_inner store (inner : gmap SlotKey Holdings) : HoldingsStore :=
  mkStore inner (hs_index store).
Definition set_index store (index : gmap AccountId (gset Asset)) : HoldingsStore :=
  mkStore (hs_inner store) index.

Definition gset_is_empty (s : gset Asset) : bool := bool_decide (s = ∅).

(** [index_created_slot]. *)
Definition index_created_slot store key : HoldingsStore :=
  let '(_, index) :=
    with_mut_or_insert_prune_new_if (Error:=Empty_set) (hs_index store) key.1 ∅ gset_is_empty
      (fun assets _ =>
         (Ok tt, if hs_inner store !! key then {[ key.2 ]} ∪ assets else assets)) in
  set_index store index.

(** [unindex_removed_slot], its two steps on the index storage. *)
Definition unindex_asset store key : option bool * HoldingsStore :=
  let '(is_empty, index) :=
    with_mut_if_present (hs_index store) key.1
      (fun assets =>
         let assets := if hs_inner store !! key then assets else assets ∖ {[ key.2 ]} in
         (gset_is_empty assets, assets)) in
  (is_empty, set_index store index).

Definition prune_account store (account : AccountId) : HoldingsStore :=
  set_index store (storage_remove_if (hs_index store) account gset_is_empty).2.

Definition unindex_removed_slot store key : HoldingsStore :=
  let '(is_empty, store) := unindex_asset store key in
  match is_empty with Some true => prune_account store key.1 | _ => store end.

(** ** Operations *)

Definition store_with_mut_if_present {Output} store key (mutator : Holdings -> Output * Holdings) :
    option Output * HoldingsStore :=
  let '(output, inner) := with_mut_if_present (hs_inner store) key mutator in
  (output, set_inner store inner).

(** [was_new] is captured by the closure handed to the storage. *)
Definition store_with_mut {Output} store key (default : Holdings)
    (mutator : Holdings -> bool -> Output * Holdings) : Output * HoldingsStore :=
  let '(output, was_new, inner) :=
    with_mut (hs_inner store) key default
      (fun slot is_new => let '(output, slot) := mutator slot is_new in (output, is_new, slot)) in
  let store := set_inner store inner in
  (output, if was_new : bool then index_created_slot store key else store).

Definition tag_new {Output Error : Type} (mutator : Holdings -> bool -> result Error Output * Holdings)
    (slot : Holdings) (is_new : bool) : result (Error * bool) (Output * bool) * Holdings :=
  let '(r, slot) := mutator slot is_new in
  (match r with Ok o => Ok (o, is_new) | Err e => Err (e, is_new) end, slot).

Definition store_with_mut_or_insert {Output Error} store key (default : Holdings)
    (mutator : Holdings -> bool -> result Error Output * Holdings) : result Error Output * HoldingsStore :=
  let '(r, inner) := with_mut_or_insert (hs_inner store) key default (tag_new mutator) in
  let store := set_inner store inner in
  match r with
  | Ok (output, was_new) => (Ok output, if was_new then index_created_slot store key else store)
  | Err (e, _) => (Err e, store)
  end.

(** [was_pruned] is the answer of the predicate, asked on a new slot only. *)
Definition store_with_mut_or_insert_prune_new_if_zero {Output Error} store key (default : Holdings)
    (mutator : Holdings -> bool -> result Error Output * Holdings) : result Error Output * HoldingsStore :=
  let '(r, inner) :=
    with_mut_or_insert_prune_new_if (hs_inner store) key default holdings_is_zero (tag_new mutator) in
  let was_pruned := match inner !! key with None => true | Some _ => false end in
  let store := set_inner store inner in
  match r with
  | Ok (output, was_new) =>
      (Ok output, if was_new && negb was_pruned then index_created_slot store key else store)
  | Err (e, _) => (Err e, store)
  end.

Definition store_remove store key : bool * HoldingsStore :=
  let '(removed, inner) := storage_remove (hs_inner store) key in
  let store := set_inner store inner in
  (removed, if removed : bool then unindex_removed_slot store key else store).

Definition store_remove_if store key (predicate : Holdings -> bool) : bool * HoldingsStore :=
  let '(removed, inner) := storage_remove_if (hs_inner store) key predicate in
  let store := set_inner store inner in
  (removed, if removed : bool then unindex_removed_slot store key else store).

Definition store_remove_if_zero store key : bool * HoldingsStore :=
  store_remove_if store key holdings_is_zero.

(** ** Interleavings *)

(** An index step some thread still has to make. *)
Inductive PendingIndex : Type :=
| PendingCreated (key : SlotKey)
| PendingRemoved (key : SlotKey)
| PendingPrune (account : AccountId).

(** One atomic step of some thread.  A write to the slots leaves any value in
    one slot; it owes an index step when it created or removed the slot. *)
Inductive store_step : HoldingsStore * list PendingIndex -> HoldingsStore * list PendingIndex -> Prop :=
| ss_update store ps key h h' : hs_inner store !! key = Some h ->
    store_step (store, ps) (set_inner store (<[key := h']> (hs_inner store)), ps)
| ss_create store ps key h : hs_inner store !! key = None ->
    store_step (store, ps)
      (set_inner store (<[key := h]> (hs_inner store)), PendingCreated key :: ps)
| ss_remove store ps key h : hs_inner store !! key = Some h ->
    store_step (store, ps) (set_inner store (delete key (hs_inner store)), PendingRemoved key :: ps)
| ss_created store ps1 ps2 key :
    store_step (store, ps1 ++ PendingCreated key :: ps2) (index_created_slot store key, ps1 ++ ps2)
| ss_removed store store' ps1 ps2 key is_empty : unindex_asset store key = (is_empty, store') ->
    store_step (store, ps1 ++ PendingRemoved key :: ps2)
      (store', (match is_empty with Some true => [PendingPrune key.1] | _ => [] end) ++ ps1 ++ ps2)
| ss_prune store ps1 ps2 account :
    store_step (store, ps1 ++ PendingPrune account :: ps2) (prune_account store account, ps1 ++ ps2).

Inductive store_reachable : HoldingsStore * list PendingIndex -> Prop :=
| sr_init : store_reachable (store_new, [])
| sr_next s s' : store_reachable s -> store_step s s' -> store_reachable s'.

Definition indexed store key : Prop := exists assets, hs_index store !! key.1 = Some assets /\ key.2 ∈ assets.

(** A slot and its index entry disagree only while the step that will reconcile
    them is owed; likewise for an empty account set. *)
Record store_inv (s : HoldingsStore * list PendingIndex) : Prop := {
  si_missing key : is_Some (hs_inner s.1 !! key) -> ~ indexed s.1 key -> PendingCreated key ∈ s.2;
  si_stale key : hs_inner s.1 !! key = None -> indexed s.1 key -> PendingRemoved key ∈ s.2;
  si_empty account : hs_index s.1 !! account = Some ∅ -> PendingPrune account ∈ s.2
}.

(** ** Lemmas: what an index step does *)

Lemma index_created_inner store key : hs_inner (index_created_slot store key) = hs_inner store.
Proof. unfold index_created_slot. by destruct (with_mut_or_insert_prune_new_if _ _ _ _ _). Qed.

Lemma index_created_lookup store key (a : AccountId) :
  hs_index (index_created_slot store key) !! a =
  if decide (a = key.1) then
    match hs_index store !! a, hs_inner store !! key with
    | Some assets, Some _ => Some ({[ key.2 ]} ∪ assets)
    | None, Some _ => Some {[ key.2 ]}
    | entry, None => entry
    end
  else hs_index store !! a.
Proof.
  unfold index_created_slot, with_mut_or_insert_prune_new_if, prune_new_phased, with_mut_fast,
    prune_new_slow, gset_is_empty.
  destruct (hs_index store !! key.1) as [assets|] eqn:E; cbn.
  - case_decide as Hd; [subst; rewrite E, lookup_insert_eq|by rewrite lookup_insert_ne].
    by destruct (hs_inner store !! key).
  - destruct (hs_inner store !! key) as [h|]; cbn.
    + rewrite bool_decide_false by set_solver. case_decide as Hd;
        [subst; rewrite E, lookup_insert_eq; f_equal; set_solver|by rewrite lookup_insert_ne].
    + rewrite bool_decide_true by done. case_decide as Hd;
        [subst; by rewrite lookup_delete_eq, E|by rewrite lookup_delete_ne, lookup_insert_ne].
Qed.

Lemma unindex_asset_inner store key : hs_inner (unindex_asset store key).2 = hs_inner store.
Proof. unfold unindex_asset. by destruct (with_mut_if_present _ _ _). Qed.

Lemma unindex_asset_lookup store key (a : AccountId) :
  hs_index (unindex_asset store key).2 !! a =
  if decide (a = key.1) then
    match hs_index store !! a, hs_inner store !! key with
    | Some assets, None => Some (assets ∖ {[ key.2 ]})
    | entry, _ => entry
    end
  else hs_index store !! a.
Proof.
  unfold unindex_asset, with_mut_if_present.
  destruct (hs_index store !! key.1) as [assets|] eqn:E; cbn; case_decide as Hd; subst; rewrite ?E; try done.
  - rewrite lookup_insert_eq. by destruct (hs_inner store !! key).
  - by rewrite lookup_insert_ne.
Qed.

(** The answer of [unindex_asset] is whether the account's set is now empty. *)
Lemma unindex_asset_empty store key :
  hs_index (unindex_asset store key).2 !! key.1 = Some ∅ -> (unindex_asset store key).1 = Some true.
Proof.
  unfold unindex_asset, with_mut_if_present, gset_is_empty.
  destruct (hs_index store !! key.1) as [assets|] eqn:E; cbn; [|by rewrite E].
  rewrite lookup_insert_eq. intros [= ->]. by rewrite bool_decide_true.
Qed.

Lemma prune_account_lookup store (account a : AccountId) :
  hs_index (prune_account store account) !! a =
  if decide (a = account /\ hs_index store !! a = Some ∅) then None else hs_index store !! a.
Proof.
  unfold prune_account, storage_remove_if, gset_is_empty. cbn.
  destruct (hs_index store !! account) as [assets|] eqn:E; cbn.
  - case_bool_decide as Hb; cbn.
    + subst assets. case_decide as Hd; [destruct Hd as [-> _]; apply lookup_delete_eq|].
      apply lookup_delete_ne. intros <-. tauto.
    + case_decide as Hd; [|done]. destruct Hd as [-> He]. congruence.
  - case_decide as Hd; [|done]. destruct Hd as [-> He]. congruence.
Qed.

Lemma indexed_created store key k :
  indexed (index_created_slot store key) k <->
  indexed store k \/ (k = key /\ is_Some (hs_inner store !! key)).
Proof.
  unfold indexed. rewrite index_created_lookup.
  destruct k as [a x], key as [b y]. cbn [fst snd]. case_decide as Hd.
  - subst b. destruct (hs_inner store !! (a, y)) as [h|] eqn:Eh.
    + destruct (hs_index store !! a) as [assets|]; split.
      * intros (S & [= <-] & Hin). destruct (decide (x = y)) as [->|]; [eauto|].
        left. eexists. split; [done|set_solver].
      * intros [(S & [= <-] & Hin)|[[= ->] _]]; eexists; (split; [done|set_solver]).
      * intros (S & [= <-] & Hin). right. apply elem_of_singleton in Hin. subst. eauto.
      * intros [(S & [=] & _)|[[= ->] _]]. eexists. split; [done|set_solver].
    + split; [destruct (hs_index store !! a); by left|].
      intros [H|[_ [? [=]]]]. by destruct (hs_index store !! a).
  - split; [by left|]. intros [H|[[= -> ->] _]]; done.
Qed.

Lemma indexed_unindex store key k :
  indexed (unindex_asset store key).2 k <->
  indexed store k /\ (k = key -> is_Some (hs_inner store !! key)).
Proof.
  unfold indexed. rewrite unindex_asset_lookup.
  destruct k as [a x], key as [b y]. cbn [fst snd]. case_decide as Hd.
  - subst b. destruct (hs_index store !! a) as [assets|] eqn:E, (hs_inner store !! (a, y)) as [h|] eqn:Eh.
    + split; [intros H; split; eauto|by intros [H _]].
    + split.
      * intros (S & [= <-] & Hin). split; [eexists; split; [done|set_solver]|].
        intros [= ->]. set_solver.
      * intros [(S & [= <-] & Hin) Hne]. eexists. split; [done|].
        apply elem_of_difference. split; [done|]. intros Hx. apply elem_of_singleton in Hx. subst x.
        destruct (Hne eq_refl). congruence.
    + split; [intros (S & H & _)|intros [(S & H & _) _]]; done.
    + split; [intros (S & H & _)|intros [(S & H & _) _]]; done.
  - split; [intros H; split; [done|intros [= -> ->]; done]|by intros [H _]].
Qed.

Lemma indexed_prune store account k : indexed (prune_account store account) k <-> indexed store k.
Proof.
  unfold indexed. rewrite prune_account_lookup. case_decide as Hd; [|done].
  destruct Hd as [_ He]. rewrite He. split; intros (S & H & Hin); [done|].
  injection H as <-. set_solver.
Qed.

(** ** The invariant is inductive *)

Lemma store_inv_write store ps key (slot : option Holdings) :
  store_inv (store, ps) ->
  store_inv (set_inner store (partial_alter (fun _ => slot) key (hs_inner store)),
             (match hs_inner store !! key, slot with
              | None, Some _ => [PendingCreated key]
              | Some _, None => [PendingRemoved key]
              | _, _ => []
              end) ++ ps).
Proof.
  intros [Hm Hs He]. split; cbn in *.
  - intros k. destruct (decide (k = key)) as [->|Hne].
    + rewrite lookup_partial_alter_eq. intros Hk Hi. apply elem_of_app.
      destruct slot; [|by destruct Hk]. destruct (hs_inner store !! key) eqn:E; [|left; set_solver].
      right. apply Hm; [by rewrite E|done].
    + rewrite lookup_partial_alter_ne by done. intros Hk Hi. apply elem_of_app. right. by apply Hm.
  - intros k. destruct (decide (k = key)) as [->|Hne].
    + rewrite lookup_partial_alter_eq. intros -> Hi. apply elem_of_app.
      destruct (hs_inner store !! key) eqn:E; [left; set_solver|right; by apply Hs].
    + rewrite lookup_partial_alter_ne by done. intros Hk Hi. apply elem_of_app. right. by apply Hs.
  - intros account Ha. apply elem_of_app. right. by apply He.
Qed.

Lemma elem_of_middle_ne {A} (x y : A) l1 l2 : x <> y -> x ∈ l1 ++ y :: l2 -> x ∈ l1 ++ l2.
Proof. rewrite !elem_of_app, elem_of_cons. naive_solver. Qed.

Lemma store_inv_created store ps1 ps2 key :
  store_inv (store, ps1 ++ PendingCreated key :: ps2) -> store_inv (index_created_slot store key, ps1 ++ ps2).
Proof.
  intros [Hm Hs He]. split; cbn in *.
  - intros k. rewrite index_created_inner. intros Hk Hi.
    apply (elem_of_middle_ne _ (PendingCreated key)).
    + intros [= ->]. apply Hi. apply indexed_created. by right.
    + apply Hm; [done|]. intros H. apply Hi, indexed_created. by left.
  - intros k. rewrite index_created_inner, indexed_created. intros Hk [Hi|[-> [? Hx]]]; [|congruence].
    apply (elem_of_middle_ne _ (PendingCreated key)); [done|]. by apply Hs.
  - intros account. rewrite index_created_lookup. intros Ha.
    apply (elem_of_middle_ne _ (PendingCreated key)); [done|]. apply He.
    case_decide; [|done]. destruct (hs_index store !! account), (hs_inner store !! key); try done;
      injection Ha as Ha; set_solver.
Qed.

Lemma store_inv_removed store store' ps1 ps2 key is_empty :
  unindex_asset store key = (is_empty, store') ->
  store_inv (store, ps1 ++ PendingRemoved key :: ps2) ->
  store_inv (store', (match is_empty with Some true => [PendingPrune key.1] | _ => [] end) ++ ps1 ++ ps2).
Proof.
  intros Hu [Hm Hs He].
  assert (store' = (unindex_asset store key).2) as -> by by rewrite Hu.
  split; cbn in *.
  - intros k. rewrite unindex_asset_inner. intros Hk Hi. apply elem_of_app. right.
    apply (elem_of_middle_ne _ (PendingRemoved key)); [done|]. apply Hm; [done|].
    intros H. apply Hi, indexed_unindex. split; [done|]. by intros ->.
  - intros k. rewrite unindex_asset_inner, indexed_unindex. intros Hk [Hi Hne]. apply elem_of_app. right.
    apply (elem_of_middle_ne _ (PendingRemoved key)); [|by apply Hs].
    intros [= ->]. destruct (Hne eq_refl). congruence.
  - intros account Ha. apply elem_of_app. destruct (decide (account = key.1)) as [->|Hne].
    + left. apply unindex_asset_empty in Ha. rewrite Hu in Ha. cbn in Ha. subst. set_solver.
    + right. apply (elem_of_middle_ne _ (PendingRemoved key)); [done|]. apply He.
      rewrite unindex_asset_lookup in Ha. by rewrite decide_False in Ha by done.
Qed.

Lemma store_inv_prune store ps1 ps2 account :
  store_inv (store, ps1 ++ PendingPrune account :: ps2) -> store_inv (prune_account store account, ps1 ++ ps2).
Proof.
  intros [Hm Hs He]. split; cbn [fst snd] in *.
  - intros k Hk. rewrite indexed_prune. intros Hi.
    apply (elem_of_middle_ne _ (PendingPrune account)); [done|]. by apply Hm.
  - intros k Hk. rewrite indexed_prune. intros Hi.
    apply (elem_of_middle_ne _ (PendingPrune account)); [done|]. by apply Hs.
  - intros a. rewrite prune_account_lookup. case_decide as Hd; [done|]. intros Ha.
    apply (elem_of_middle_ne _ (PendingPrune account)); [|by apply He].
    intros [= ->]. tauto.
Qed.

Lemma store_step_inv s s' : store_step s s' -> store_inv s -> store_inv s'.
Proof.
  intros Hstep Hinv. destruct Hstep.
  - pose proof (store_inv_write store ps key (Some h') Hinv) as H'. rewrite H in H'. exact H'.
  - pose proof (store_inv_write store ps key (Some h) Hinv) as H'. rewrite H in H'. exact H'.
  - pose proof (store_inv_write store ps key None Hinv) as H'. rewrite H in H'. exact H'.
  - by apply store_inv_created.
  - by eapply store_inv_removed.
  - by apply store_inv_prune.
Qed.

Lemma store_new_inv : store_inv (store_new, []).
Proof.
  split; cbn; intros k; rewrite ?lookup_empty; [by intros [? [=]]| |done].
  intros _ (S & Hk & _). unfold store_new in Hk. cbn in Hk. by rewrite lookup_empty in Hk.
Qed.

Lemma store_reachable_inv s : store_reachable s -> store_inv s.
Proof. induction 1; [apply store_new_inv|eauto using store_step_inv]. Qed.

(** The index of a store no thread owes a step to. *)
Definition index_exact store : Prop :=
  (forall key, is_Some (hs_inner store !! key) <-> indexed store key) /\
  (forall account, hs_index store !! account <> Some ∅).

Lemma indexed_dec store key : indexed store key \/ ~ indexed store key.
Proof.
  unfold indexed. destruct (hs_index store !! key.1) as [S|]; [|right; by intros (S & [=] & _)].
  destruct (decide (key.2 ∈ S)); [left; eauto|right; intros (S' & [= <-] & ?); done].
Qed.

Lemma store_inv_quiescent store : store_inv (store, []) <-> index_exact store.
Proof.
  split.
  - intros [Hm Hs He]. cbn in *. split; [|intros a Ha; by apply He in Ha; set_solver].
    intros key. split.
    + intros Hk. destruct (indexed_dec store key) as [|Hn]; [done|]. apply Hm in Hn; [set_solver|done].
    + intros Hi. destruct (hs_inner store !! key) eqn:E; [done|]. apply Hs in Hi; [set_solver|done].
  - intros [Hx He]. split; cbn.
    + intros key Hk Hn. by apply Hx in Hk.
    + intros key Hk Hi. apply Hx in Hi. rewrite Hk in Hi. by destruct Hi.
    + intros a Ha. by destruct (He a).
Qed.

(** ** The operations are runs of the atomic steps *)

Lemma run_one s s' : store_step s s' -> rtc store_step s s'.
Proof. apply rtc_once. Qed.

(** What one thread's write to the slots followed by its index step runs. *)
Lemma run_created store ps key h :
  hs_inner store !! key = None ->
  rtc store_step (store, ps)
    (index_created_slot (set_inner store (<[key := h]> (hs_inner store))) key, ps).
Proof.
  intros Hk. eapply rtc_l; [by apply (ss_create _ _ key h)|].
  apply run_one, (ss_created _ [] ps key).
Qed.

Lemma run_updated store ps key h h' :
  hs_inner store !! key = Some h ->
  rtc store_step (store, ps) (set_inner store (<[key := h']> (hs_inner store)), ps).
Proof. intros Hk. by apply run_one, (ss_update _ _ key h). Qed.

Lemma run_removed store ps key h :
  hs_inner store !! key = Some h ->
  rtc store_step (store, ps)
    (unindex_removed_slot (set_inner store (delete key (hs_inner store))) key, ps).
Proof.
  intros Hk. eapply rtc_l; [by apply (ss_remove _ _ key h)|].
  unfold unindex_removed_slot. destruct (unindex_asset _ key) as [e store'] eqn:Hu.
  eapply rtc_l; [by apply (ss_removed _ store' [] ps key e)|].
  destruct e as [[|]|]; cbn; [|done|done]. apply run_one, (ss_prune _ [] ps key.1).
Qed.

Lemma set_inner_same store : set_inner store (hs_inner store) = store.
Proof. by destruct store. Qed.

Lemma set_inner_delete_insert store key h :
  hs_inner store !! key = None ->
  set_inner store (delete key (<[key := h]> (hs_inner store))) = store.
Proof. intros Hk. rewrite delete_insert_id by done. apply set_inner_same. Qed.

Lemma run_with_mut {Output} store ps key d (f : Holdings -> bool -> Output * Holdings) :
  rtc store_step (store, ps) ((store_with_mut store key d f).2, ps).
Proof.
  unfold store_with_mut, with_mut, with_mut_phased, with_mut_fast, with_mut_slow.
  destruct (hs_inner store !! key) as [h|] eqn:E.
  - destruct (f h false) as [o h']. by eapply run_updated.
  - cbn. destruct (f d true) as [o h']. by apply run_created.
Qed.

Lemma run_with_mut_if_present {Output} store ps key (f : Holdings -> Output * Holdings) :
  rtc store_step (store, ps) ((store_with_mut_if_present store key f).2, ps).
Proof.
  unfold store_with_mut_if_present, with_mut_if_present.
  destruct (hs_inner store !! key) as [h|] eqn:E.
  - destruct (f h) as [o h']. by eapply run_updated.
  - cbn. by rewrite set_inner_same.
Qed.

Lemma run_prune_new {Output Error} store ps key d
    (f : Holdings -> bool -> result Error Output * Holdings) :
  rtc store_step (store, ps) ((store_with_mut_or_insert_prune_new_if_zero store key d f).2, ps).
Proof.
  unfold store_with_mut_or_insert_prune_new_if_zero, with_mut_or_insert_prune_new_if,
    prune_new_phased, with_mut_fast, prune_new_slow, tag_new.
  destruct (hs_inner store !! key) as [h|] eqn:E.
  - destruct (f h false) as [[o|e] h']; cbn; by eapply run_updated.
  - cbn. destruct (f d true) as [[o|e] h']; cbn.
    + destruct (holdings_is_zero h'); cbn.
      * rewrite lookup_delete_eq. cbn. by rewrite set_inner_delete_insert.
      * rewrite lookup_insert_eq. cbn. by apply run_created.
    + by rewrite set_inner_delete_insert.
Qed.

Lemma run_or_insert {Output Error} store ps key d
    (f : Holdings -> bool -> result Error Output * Holdings) :
  rtc store_step (store, ps) ((store_with_mut_or_insert store key d f).2, ps).
Proof.
  unfold store_with_mut_or_insert, with_mut_or_insert, with_mut_or_insert_prune_new_if,
    prune_new_phased, with_mut_fast, prune_new_slow, tag_new.
  destruct (hs_inner store !! key) as [h|] eqn:E.
  - destruct (f h false) as [[o|e] h']; cbn; by eapply run_updated.
  - cbn. destruct (f d true) as [[o|e] h']; cbn.
    + by apply run_created.
    + by rewrite set_inner_delete_insert.
Qed.

Lemma run_remove_if store ps key predicate :
  rtc store_step (store, ps) ((store_remove_if store key predicate).2, ps).
Proof.
  unfold store_remove_if, storage_remove_if.
  destruct (hs_inner store !! key) as [h|] eqn:E; [|cbn; by rewrite set_inner_same].
  destruct (predicate h); [by eapply run_removed|cbn; by rewrite set_inner_same].
Qed.

Lemma run_remove store ps key : rtc store_step (store, ps) ((store_remove store key).2, ps).
Proof.
  unfold store_remove, storage_remove.
  destruct (hs_inner store !! key) as [h|] eqn:E; [by eapply run_removed|cbn; by rewrite set_inner_same].
Qed.

Lemma rtc_inv s s' : rtc store_step s s' -> store_inv s -> store_inv s'.
Proof. induction 1; eauto using store_step_inv. Qed.

Lemma run_exact store store' :
  index_exact store -> rtc store_step (store, []) (store', []) -> index_exact store'.
Proof. rewrite <- !store_inv_quiescent. eauto using rtc_inv. Qed.

(** ** Properties *)

(** C27: under any interleaving of the atomic steps of any number of threads the
    per-account index never loses a slot: a slot that exists and is not listed
    has its listing step still owed by the call that created it, a listed asset
    without a slot has its removal step owed, an empty account set is about to be
    pruned; when no step is owed the index lists exactly the existing slots and
    keeps no empty set. *)
Theorem holdings_index_reconciled store ps :
  store_reachable (store, ps) ->
  (forall key, is_Some (hs_inner store !! key) -> PendingCreated key ∉ ps -> indexed store key) /\
  (forall key, indexed store key -> PendingRemoved key ∉ ps -> is_Some (hs_inner store !! key)) /\
  (forall account, hs_index store !! account = Some ∅ -> PendingPrune account ∈ ps) /\
  (ps = [] -> index_exact store).
Proof.
  intros Hr%store_reachable_inv. pose proof Hr as [Hm Hs He]. cbn in *. split_and!; [| |done|].
  - intros key Hk Hp. destruct (indexed_dec store key) as [|Hn]; [done|]. by destruct (Hp (Hm _ Hk Hn)).
  - intros key Hi Hp. destruct (hs_inner store !! key) eqn:E; [done|]. by destruct (Hp (Hs _ E Hi)).
  - intros ->. by apply store_inv_quiescent.
Qed.

(** Every operation of the store - a write that may create a slot, create it
    and roll it back on an error, or create it and prune it when it is left
    zero, and a conditional or unconditional removal - is a run of those atomic
    steps that owes nothing at its end, so executed alone it keeps the index
    exact. *)
Theorem holdings_store_operations_exact {Output Error} store key d predicate
    (f : Holdings -> Output * Holdings) (g : Holdings -> bool -> Output * Holdings)
    (h : Holdings -> bool -> result Error Output * Holdings) :
  index_exact store ->
  index_exact (store_with_mut_if_present store key f).2 /\
  index_exact (store_with_mut store key d g).2 /\
  index_exact (store_with_mut_or_insert store key d h).2 /\
  index_exact (store_with_mut_or_insert_prune_new_if_zero store key d h).2 /\
  index_exact (store_remove_if store key predicate).2 /\
  index_exact (store_remove store key).2.
Proof.
  intros He. split_and!; apply (run_exact store _ He); auto using run_with_mut_if_present, run_with_mut,
    run_or_insert, run_prune_new, run_remove_if, run_remove.
Qed.

End HoldingsStore.
