(* ===== verification/Instruments.v ===== *)
(** * Instruments: instrument identities and their automatic assignment

    src/crates/openpit/src/core/instrument_id.rs, and the counter that
    core/reference_book.rs and marketdata/service.rs both keep over a registry of
    taken identifiers. *)
From S2P Require Import Prelude.
From S2P Require Import Identifiers.
From S2P Require Import Policy.
Open Scope Z_scope.

Record InstrumentId : Set := mkInstrumentId { instrument_as_u64 : Z }.

#[export] Instance InstrumentId_eq_dec : EqDecision InstrumentId.
Proof. solve_decision. Defined.
#[export] Instance InstrumentId_countable : Countable InstrumentId.
Proof. by refine (inj_countable' instrument_as_u64 mkInstrumentId _); intros []. Defined.

#[export] Instance Instrument_eq_dec : EqDecision Instrument.
Proof. solve_decision. Defined.
#[export] Instance Instrument_countable : Countable Instrument.
Proof.
  by refine (inj_countable' (fun i => (underlying_asset i, settlement_asset i))
               (fun p => mkInstrument p.1 p.2) _); intros [].
Defined.

(** [+= 1] on a [u64], as a release build runs it. *)
Definition u64_succ (n : Z) : Z := (n + 1) mod 2 ^ 64.

Definition is_u64 (n : Z) : Prop := 0 <= n <= U64_MAX.

Section Counter.
Context {A : Type}.
Implicit Types (by_id : gmap InstrumentId A) (next : Z).

(** The loop of [next_auto_id], for [fuel] rounds; it returns the identifier
    and the counter it leaves. *)
Fixpoint next_auto_id_loop (fuel : nat) by_id next : option (InstrumentId * Z) :=
  match fuel with
  | O => None
  | S fuel =>
      let candidate := mkInstrumentId next in
      let next := u64_succ next in
      match by_id !! candidate with
      | Some _ => next_auto_id_loop fuel by_id next
      | None => Some (candidate, next)
      end
  end.

(** One round more than there are identifiers to skip. *)
Definition next_auto_id by_id next : option (InstrumentId * Z) :=
  next_auto_id_loop (S (size by_id)) by_id next.

(** The bump of [insert] and [insert_id]. *)
Definition bump_auto_id next (instrument_id : InstrumentId) : Z :=
  if next =? instrument_as_u64 instrument_id then u64_succ next else next.

(** ** Termination *)

(** The [n]-th identifier after [next], around the end of the words. *)
Definition nth_id next (n : nat) : InstrumentId := mkInstrumentId ((next + Z.of_nat n) mod 2 ^ 64).

Lemma u64_succ_range n : is_u64 (u64_succ n).
Proof. unfold is_u64, u64_succ, U64_MAX. pose proof (Z.mod_pos_bound (n + 1) (2 ^ 64)). lia. Qed.

Lemma nth_id_0 next : is_u64 next -> nth_id next 0 = mkInstrumentId next.
Proof. unfold is_u64, U64_MAX, nth_id. intros H. rewrite Z.add_0_r, Z.mod_small by lia. done. Qed.

Lemma nth_id_succ next n : nth_id (u64_succ next) n = nth_id next (S n).
Proof.
  unfold nth_id, u64_succ. f_equal. rewrite Zplus_mod_idemp_l. f_equal. lia.
Qed.

Lemma nth_id_inj next n m : Z.of_nat n < 2 ^ 64 -> Z.of_nat m < 2 ^ 64 -> nth_id next n = nth_id next m -> n = m.
Proof.
  intros Hn Hm [= E].
  assert (H : (Z.of_nat n - Z.of_nat m) mod 2 ^ 64 = 0).
  { replace (Z.of_nat n - Z.of_nat m) with ((next + Z.of_nat n) - (next + Z.of_nat m)) by lia.
    rewrite Zminus_mod, E, Z.sub_diag. done. }
  apply Z.mod_divide in H as [k Hk]; [|lia]. nia.
Qed.

(** A loop that gives up met only taken identifiers. *)
Lemma next_auto_id_loop_None fuel by_id next :
  is_u64 next -> next_auto_id_loop fuel by_id next = None ->
  forall n, (n < fuel)%nat -> is_Some (by_id !! nth_id next n).
Proof.
  revert next. induction fuel as [|fuel IH]; intros next Hr H n Hn; [lia|]. cbn in H.
  destruct (by_id !! mkInstrumentId next) as [a|] eqn:E; [|done].
  destruct n as [|n]; [by rewrite nth_id_0, E|].
  rewrite <- nth_id_succ. apply IH; [apply u64_succ_range|done|lia].
Qed.

(** A loop that returns gives the first free identifier from the counter on. *)
Lemma next_auto_id_loop_Some fuel by_id next id next' :
  is_u64 next -> next_auto_id_loop fuel by_id next = Some (id, next') ->
  exists n, (n < fuel)%nat /\ id = nth_id next n /\ next' = u64_succ (instrument_as_u64 id) /\
    by_id !! id = None /\ (forall k, (k < n)%nat -> is_Some (by_id !! nth_id next k)).
Proof.
  revert next. induction fuel as [|fuel IH]; intros next Hr H; [done|]. cbn in H.
  destruct (by_id !! mkInstrumentId next) as [a|] eqn:E.
  - destruct (IH (u64_succ next) (u64_succ_range next) H) as (n & Hn & Hi & Hx & Hf & Ht).
    exists (S n). rewrite <- nth_id_succ. split_and!; [lia|done..|]. intros [|k] Hk.
    + by rewrite nth_id_0, E.
    + rewrite <- nth_id_succ. apply Ht. lia.
  - injection H as <- <-. exists 0%nat. rewrite nth_id_0 by done. split_and!; [lia|done..|lia].
Qed.

(** Among as many candidates as there are identifiers and one, one is free. *)
Lemma next_auto_id_is_Some by_id next :
  is_u64 next -> Z.of_nat (size by_id) < 2 ^ 64 -> is_Some (next_auto_id by_id next).
Proof.
  intros Hr Hs. unfold next_auto_id.
  destruct (next_auto_id_loop (S (size by_id)) by_id next) as [x|] eqn:E; [by eexists|].
  exfalso. pose proof (next_auto_id_loop_None _ _ _ Hr E) as Ht.
  set (ids := nth_id next <$> seq 0 (S (size by_id))).
  assert (Hd : NoDup ids).
  { apply NoDup_fmap_2_strong; [|apply NoDup_seq].
    intros x y Hx%elem_of_seq Hy%elem_of_seq. apply nth_id_inj; lia. }
  assert (Hsub : (list_to_set ids : gset InstrumentId) ⊆ dom by_id).
  { intros id Hid%elem_of_list_to_set%list_elem_of_fmap. destruct Hid as (n & -> & Hn%elem_of_seq).
    apply elem_of_dom, Ht. lia. }
  apply subseteq_size in Hsub. rewrite size_list_to_set, size_dom in Hsub by done.
  unfold ids in Hsub. rewrite length_fmap, length_seq in Hsub. lia.
Qed.

Lemma next_auto_id_fresh by_id next :
  is_u64 next -> Z.of_nat (size by_id) < 2 ^ 64 ->
  exists id, next_auto_id by_id next = Some (id, u64_succ (instrument_as_u64 id)) /\ by_id !! id = None.
Proof.
  intros Hr Hs. destruct (next_auto_id_is_Some by_id next Hr Hs) as [[id next'] E].
  destruct (next_auto_id_loop_Some _ _ _ _ _ Hr E) as (n & _ & _ & -> & Hf & _). eauto.
Qed.

(** C39: The loop of [next_auto_id] terminates: while the registry holds fewer than
    2^64 identifiers it finds a free one within one round per registered one and a
    last, the first free one from the counter on, and leaves the counter behind
    it. *)
Theorem next_auto_id_terminates by_id next :
  is_u64 next -> Z.of_nat (size by_id) < 2 ^ 64 ->
  exists n id, next_auto_id by_id next = Some (id, u64_succ (instrument_as_u64 id)) /\
    id = nth_id next n /\ (n <= size by_id)%nat /\ by_id !! id = None /\
    (forall k, (k < n)%nat -> is_Some (by_id !! nth_id next k)).
Proof.
  intros Hr Hs. destruct (next_auto_id_is_Some by_id next Hr Hs) as [[id next'] E].
  destruct (next_auto_id_loop_Some _ _ _ _ _ Hr E) as (n & Hn & Hi & -> & Hf & Ht).
  exists n, id. split_and!; [done|done|lia|done|done].
Qed.

End Counter.
