(* ===== verification/ReferenceBook.v ===== *)
(** * ReferenceBook: reference data per instrument

    src/crates/openpit/src/core/reference_book.rs. *)
From S2P Require Import Prelude.
From S2P Require Import Identifiers.
From S2P Require Import Policy.
From S2P Require Import Instruments.
Open Scope Z_scope.

(** ** Settlement *)

Inductive SettlementUnit : Set := BusinessDays | CalendarDays.

Record SettlementLag : Set := mkSettlementLag { lag_n : Z; lag_unit : SettlementUnit }.

Record SettlementScheme : Set := mkSettlementScheme {
  scheme_delivery : SettlementLag;
  scheme_payment : SettlementLag
}.

Definition scheme_uniform (n : Z) : SettlementScheme :=
  let lag := mkSettlementLag n BusinessDays in mkSettlementScheme lag lag.

(** ** The book *)

Inductive ReferenceBookRegistrationError : Type :=
| Book_DuplicateId (instrument_id : InstrumentId)
| Book_DuplicateInstrument (instrument : Instrument).

Record UnknownReferenceBookInstrumentId : Set := mkUnknownBookId { unknown_book_id : InstrumentId }.

Record ReferenceBookEntry : Set := mkBookEntry { entry_settlement_scheme : option SettlementScheme }.

Record ReferenceBook : Type := mkBook {
  book_by_id : gmap InstrumentId ReferenceBookEntry;
  book_by_instrument : gmap Instrument InstrumentId;
  book_next_auto_id : Z
}.

Definition book_new : ReferenceBook := mkBook ∅ ∅ 0.

Definition book_insert (self : ReferenceBook) (instrument : Instrument) (instrument_id : InstrumentId) :
    ReferenceBook :=
  mkBook (<[instrument_id := mkBookEntry None]> (book_by_id self))
    (<[instrument := instrument_id]> (book_by_instrument self))
    (bump_auto_id (book_next_auto_id self) instrument_id).

(** [None] only when every identifier is taken, where the source's loop does not
    return. *)
Definition book_register (self : ReferenceBook) (instrument : Instrument) :
    option (result ReferenceBookRegistrationError InstrumentId * ReferenceBook) :=
  match book_by_instrument self !! instrument with
  | Some _ => Some (Err (Book_DuplicateInstrument instrument), self)
  | None =>
      '(instrument_id, next) ← next_auto_id (book_by_id self) (book_next_auto_id self);
      let self := mkBook (book_by_id self) (book_by_instrument self) next in
      Some (Ok instrument_id, book_insert self instrument instrument_id)
  end.

Definition book_register_with_id (self : ReferenceBook) (instrument : Instrument) (instrument_id : InstrumentId) :
    result ReferenceBookRegistrationError InstrumentId * ReferenceBook :=
  match book_by_instrument self !! instrument with
  | Some _ => (Err (Book_DuplicateInstrument instrument), self)
  | None =>
      match book_by_id self !! instrument_id with
      | Some _ => (Err (Book_DuplicateId instrument_id), self)
      | None => (Ok instrument_id, book_insert self instrument instrument_id)
      end
  end.

Definition book_resolve (self : ReferenceBook) (instrument : Instrument) : option InstrumentId :=
  book_by_instrument self !! instrument.

Definition book_write_scheme (self : ReferenceBook) (instrument_id : InstrumentId)
    (scheme : option SettlementScheme) :
    result UnknownReferenceBookInstrumentId unit * ReferenceBook :=
  match book_by_id self !! instrument_id with
  | Some _ =>
      (Ok tt, mkBook (<[instrument_id := mkBookEntry scheme]> (book_by_id self)) (book_by_instrument self)
                (book_next_auto_id self))
  | None => (Err (mkUnknownBookId instrument_id), self)
  end.

Definition set_settlement_scheme (self : ReferenceBook) (instrument_id : InstrumentId)
    (scheme : SettlementScheme) := book_write_scheme self instrument_id (Some scheme).

Definition clear_settlement_scheme (self : ReferenceBook) (instrument_id : InstrumentId) :=
  book_write_scheme self instrument_id None.

Definition settlement_scheme (self : ReferenceBook) (instrument_id : InstrumentId) :
    result UnknownReferenceBookInstrumentId (option SettlementScheme) :=
  ok_or (entry_settlement_scheme <$> book_by_id self !! instrument_id) (mkUnknownBookId instrument_id).

(** ** Properties *)

(** Names and identifiers correspond one to one, and the counter is a word. *)
Record book_wf (b : ReferenceBook) : Prop := {
  bw_named id : is_Some (book_by_id b !! id) <-> exists i, book_by_instrument b !! i = Some id;
  bw_inj i j id : book_by_instrument b !! i = Some id -> book_by_instrument b !! j = Some id -> i = j;
  bw_next : is_u64 (book_next_auto_id b)
}.

Lemma book_new_wf : book_wf book_new.
Proof.
  split; cbn; [|done|done]. intros id. rewrite lookup_empty. split; [by intros [? ?]|].
  intros [i Hi]. by rewrite lookup_empty in Hi.
Qed.

Lemma bump_auto_id_range next id : is_u64 next -> is_u64 (bump_auto_id next id).
Proof. unfold bump_auto_id. destruct (_ =? _); [intros _; apply u64_succ_range|done]. Qed.

Lemma book_insert_wf b i id :
  book_wf b -> book_by_instrument b !! i = None -> book_by_id b !! id = None -> book_wf (book_insert b i id).
Proof.
  intros [Hn Hi Hx] Hfi Hfid. split; cbn.
  - intros id'. destruct (decide (id' = id)) as [->|Hne].
    + rewrite lookup_insert_eq. split; [|by eexists]. intros _. exists i. apply lookup_insert_eq.
    + rewrite lookup_insert_ne by congruence. rewrite Hn. split; intros [j Hj]; exists j.
      * rewrite lookup_insert_ne; [done|congruence].
      * apply lookup_insert_Some in Hj as [[_ [= ->]]|[_ Hj]]; [congruence|done].
  - intros j k id' [[<- <-]|[Hj1 Hj]]%lookup_insert_Some [[<- Hk]|[Hk1 Hk]]%lookup_insert_Some;
      [done| | |by eapply Hi].
    + assert (Hs : is_Some (book_by_id b !! id)) by (apply Hn; eauto). rewrite Hfid in Hs. by destruct Hs.
    + subst id'. assert (Hs : is_Some (book_by_id b !! id)) by (apply Hn; eauto).
      rewrite Hfid in Hs. by destruct Hs.
  - by apply bump_auto_id_range.
Qed.

Lemma book_write_scheme_wf b id scheme : book_wf b -> book_wf (book_write_scheme b id scheme).2.
Proof.
  intros [Hn Hi Hx]. unfold book_write_scheme. destruct (book_by_id b !! id) eqn:E; [|by split].
  split; cbn; [|done|done]. intros id'. rewrite <- Hn.
  destruct (decide (id' = id)) as [->|Hne]; [rewrite lookup_insert_eq, E|by rewrite lookup_insert_ne].
  by split; eexists.
Qed.

(** Everything a client can do to a book. *)
Inductive book_reachable : ReferenceBook -> Prop :=
| br_new : book_reachable book_new
| br_register b i r b' : book_reachable b -> book_register b i = Some (r, b') -> book_reachable b'
| br_register_with_id b i id : book_reachable b -> is_u64 (instrument_as_u64 id) ->
    book_reachable (book_register_with_id b i id).2
| br_write b id scheme : book_reachable b -> book_reachable (book_write_scheme b id scheme).2.

(** In every reachable book names and identifiers correspond one to one. *)
Theorem book_reachable_wf b : book_reachable b -> book_wf b.
Proof.
  induction 1 as [|b i r b' _ IH H|b i id _ IH _|b id scheme _ IH].
  - apply book_new_wf.
  - unfold book_register in H. destruct (book_by_instrument b !! i) eqn:Ei; [by simplify_eq|].
    destruct (next_auto_id _ _) as [[id next]|] eqn:En; [|done]. cbn in H. simplify_eq.
    destruct (next_auto_id_loop_Some _ _ _ _ _ (bw_next b IH) En) as (n & _ & _ & -> & Hf & _).
    apply book_insert_wf; [|done|done]. destruct IH. split; [done|done|apply u64_succ_range].
  - unfold book_register_with_id. destruct (book_by_instrument b !! i) eqn:Ei; [done|].
    destruct (book_by_id b !! id) eqn:Eid; [done|]. by apply book_insert_wf.
  - by apply book_write_scheme_wf.
Qed.

(** Registration: a known name is refused and nothing changes; otherwise the name
    resolves to a fresh identifier without a scheme, no other name or scheme
    changes, and the loop that looks for the identifier terminates while fewer than
    2^64 are taken. *)
Theorem book_register_spec b i :
  book_wf b -> Z.of_nat (size (book_by_id b)) < 2 ^ 64 ->
  exists r b', book_register b i = Some (r, b') /\
  match book_resolve b i with
  | Some _ => r = Err (Book_DuplicateInstrument i) /\ b' = b
  | None => exists id, r = Ok id /\ settlement_scheme b id = Err (mkUnknownBookId id) /\
      book_resolve b' i = Some id /\ settlement_scheme b' id = Ok None /\
      (forall j, j <> i -> book_resolve b' j = book_resolve b j) /\
      (forall id', id' <> id -> settlement_scheme b' id' = settlement_scheme b id')
  end.
Proof.
  intros Hw Hs. unfold book_register, book_resolve, settlement_scheme.
  destruct (book_by_instrument b !! i) eqn:Ei; [by eexists _, _|].
  destruct (next_auto_id_fresh _ _ (bw_next b Hw) Hs) as (id & -> & Hf).
  eexists _, _. split; [reflexivity|]. exists id. split_and!; [done|by rewrite Hf|apply lookup_insert_eq| | |].
  - cbn [book_insert book_by_id]. by rewrite lookup_insert_eq.
  - intros j Hj. by apply lookup_insert_ne.
  - intros id' Hj. cbn [book_insert book_by_id]. by rewrite lookup_insert_ne.
Qed.

(** What is set is read back, cleared is read as none, and other instruments and
    all names stay. *)
Theorem settlement_scheme_roundtrip b id scheme :
  let '(r, b') := book_write_scheme b id scheme in
  book_by_instrument b' = book_by_instrument b /\
  (forall id', id' <> id -> settlement_scheme b' id' = settlement_scheme b id') /\
  (r = Ok tt -> settlement_scheme b' id = Ok scheme) /\
  (r = Ok tt <-> is_Some (book_by_id b !! id)) /\
  (r <> Ok tt -> r = Err (mkUnknownBookId id) /\ b' = b).
Proof.
  unfold book_write_scheme, settlement_scheme. destruct (book_by_id b !! id) eqn:E; cbn.
  - split_and!; [done|intros id' H; by rewrite lookup_insert_ne|by rewrite lookup_insert_eq| |done].
    by split; [eexists|].
  - split_and!; [done|done|done| |done]. split; [done|by intros [? ?]].
Qed.
