(* ===== verification/MarketData.v ===== *)
(** * MarketData: the live market data service

    src/crates/openpit/src/marketdata/service.rs with quote.rs, ttl.rs,
    resolution.rs, internals.rs, error.rs, builder.rs and the gate of lock.rs.
    Durations and instants are nanoseconds in [Z].

    An operation that resolves an identifier under the registry's lock and then
    works under the lock of the slots is written over the two moments it reads
    ([_observed]); the operation itself is the case in which nothing happened in
    between.  MarketDataFacts.v shows what the second moment may have changed. *)
From S2P Require Import Prelude.
From S2P Require Import Decimal.
From S2P Require Import Param.
From S2P Require Import ParamTypes.
From S2P Require Import Identifiers.
From S2P Require Import Policy.
From S2P Require Import Instruments.
From stdpp Require Import pretty.
Open Scope Z_scope.

(** ** Lifetimes *)

Inductive QuoteTtl : Set := QuoteInfinite | QuoteWithin (duration : Z).

Definition quote_ttl_as_duration (self : QuoteTtl) : option Z :=
  match self with QuoteInfinite => None | QuoteWithin d => Some d end.

Inductive TtlSetting : Set := TtlInfinite | TtlFinite (duration : Z).

Definition from_quote_ttl (ttl : QuoteTtl) : TtlSetting :=
  match ttl with QuoteInfinite => TtlInfinite | QuoteWithin duration => TtlFinite duration end.

Definition as_duration (self : TtlSetting) : option Z :=
  match self with TtlInfinite => None | TtlFinite duration => Some duration end.

(** [Duration::MAX], [Duration::saturating_add] and
    [Instant::saturating_duration_since]. *)
Definition DURATION_MAX : Z := 2 ^ 64 * 1000000000 - 1.
Definition duration_saturating_add (a b : Z) : Z := Z.min DURATION_MAX (a + b).
Definition saturating_duration_since (later earlier : Z) : Z := Z.max 0 (later - earlier).

(** ** Resolution *)

Inductive QuoteResolution : Set := AccountOnly | AccountThenGroup | AccountThenGroupThenDefault.

(** The caller's [AccountInfo::group]: what it answers the [n]-th time it is
    asked within one read. *)
Definition AccountInfo : Type := nat -> option AccountGroupId.

Definition account_info_of_option (self : option AccountGroupId) : AccountInfo := fun _ => self.
Definition account_info_of_group (self : AccountGroupId) : AccountInfo := fun _ => Some self.

(** The memo of a read ([group_cell]) and how often the caller was asked. *)
Record GroupMemo : Set := mkGroupMemo { group_cell : option (option AccountGroupId); group_asked : nat }.

Definition group_cell_new : GroupMemo := mkGroupMemo None 0.

Definition resolve_group (account_info : AccountInfo) (c : GroupMemo) : option AccountGroupId * GroupMemo :=
  match group_cell c with
  | Some group => (group, c)
  | None =>
      let group := account_info (group_asked c) in
      (group, mkGroupMemo (Some group) (S (group_asked c)))
  end.

(** ** The registry of instruments *)

(** [+= 1] on a [u32], as a release build runs it. *)
Definition u32_succ (n : Z) : Z := (n + 1) mod 2 ^ 32.

Record InstrumentRegistry : Type := mkInstrumentRegistry {
  by_id : gmap InstrumentId Z;
  by_instrument : gmap Instrument InstrumentId;
  next_auto : Z;
  next_slot : Z
}.

Definition registry_new : InstrumentRegistry := mkInstrumentRegistry ∅ ∅ 0 0.

Definition alloc_slot (self : InstrumentRegistry) : Z * InstrumentRegistry :=
  (next_slot self, mkInstrumentRegistry (by_id self) (by_instrument self) (next_auto self)
                     (u32_succ (next_slot self))).

Definition registry_next_auto_id (self : InstrumentRegistry) : option (InstrumentId * InstrumentRegistry) :=
  '(candidate, next) ← next_auto_id (by_id self) (next_auto self);
  Some (candidate, mkInstrumentRegistry (by_id self) (by_instrument self) next (next_slot self)).

Definition insert_id (self : InstrumentRegistry) (instrument_id : InstrumentId) (slot : Z) : InstrumentRegistry :=
  mkInstrumentRegistry (<[instrument_id := slot]> (by_id self)) (by_instrument self)
    (bump_auto_id (next_auto self) instrument_id) (next_slot self).

Definition insert_name (self : InstrumentRegistry) (instrument : Instrument) (instrument_id : InstrumentId) :
    InstrumentRegistry :=
  mkInstrumentRegistry (by_id self) (<[instrument := instrument_id]> (by_instrument self)) (next_auto self)
    (next_slot self).

(** ** Errors *)

Record UnknownInstrumentId : Set := mkUnknownInstrumentId { unknown_id : InstrumentId }.

Definition UnknownInstrumentId_fmt (e : UnknownInstrumentId) : string :=
  "unknown instrument id: " +:+ pretty (instrument_as_u64 (unknown_id e)).

Record AlreadyRegistered : Type := mkAlreadyRegistered { registered_instrument : Instrument }.

Inductive RegistrationError : Type :=
| DuplicateId (instrument_id : InstrumentId)
| DuplicateInstrument (instrument : Instrument).

Inductive PushForError : Set :=
| PushFor_UnknownInstrument (instrument_id : InstrumentId)
| PushFor_NoTarget.

Definition PushForError_fmt (e : PushForError) : string :=
  match e with
  | PushFor_UnknownInstrument instrument_id =>
      "unknown instrument id: " +:+ pretty (instrument_as_u64 instrument_id)
  | PushFor_NoTarget => "push_for requires at least one account or group target"
  end.

Section MarketData.
Context {D : DecimalOps}.

(** ** Quotes and slots *)

Record Quote : Type := mkQuote {
  quote_mark : option Price;
  quote_bid : option Price;
  quote_ask : option Price
}.

Definition quote_new : Quote := mkQuote None None None.
Definition with_mark (self : Quote) (mark : Price) : Quote := mkQuote (Some mark) (quote_bid self) (quote_ask self).
Definition with_bid (self : Quote) (bid : Price) : Quote := mkQuote (quote_mark self) (Some bid) (quote_ask self).
Definition with_ask (self : Quote) (ask : Price) : Quote := mkQuote (quote_mark self) (quote_bid self) (Some ask).

Inductive MarketDataError : Type := UnknownInstrument | QuoteUnavailable | QuoteExpired (quote : Quote).

Definition MarketDataError_fmt (e : MarketDataError) : string :=
  match e with
  | UnknownInstrument => "unknown instrument"
  | QuoteUnavailable => "quote unavailable"
  | QuoteExpired _ => "quote expired"
  end.

Record QuoteState : Type := mkQuoteState { qs_quote : Quote; qs_pushed_at : Z; qs_source_age : Z }.

Record SlotQuotes : Type := mkSlotQuotes {
  sq_accounts : gmap AccountId QuoteState;
  sq_groups : gmap AccountGroupId QuoteState
}.

Record SlotTtls : Type := mkSlotTtls {
  st_accounts : gmap AccountId TtlSetting;
  st_groups : gmap AccountGroupId TtlSetting;
  st_instrument : option TtlSetting
}.

Record SlotState : Type := mkSlotState { slot_quotes : SlotQuotes; slot_ttls : SlotTtls }.

Definition slot_quotes_new : SlotQuotes := mkSlotQuotes ∅ ∅.
Definition slot_ttls_new (instrument : option TtlSetting) : SlotTtls := mkSlotTtls ∅ ∅ instrument.
Definition slot_state_new (instrument_ttl : option TtlSetting) : SlotState :=
  mkSlotState slot_quotes_new (slot_ttls_new instrument_ttl).

Definition set_slot_ttls (s : SlotState) (ttls : SlotTtls) : SlotState := mkSlotState (slot_quotes s) ttls.
Definition set_slot_quotes (s : SlotState) (quotes : SlotQuotes) : SlotState := mkSlotState quotes (slot_ttls s).

(** ** The service *)

Record MarketDataService : Type := mkService {
  default_ttl : option Z;
  account_ttl : gmap AccountId TtlSetting;
  group_ttl : gmap AccountGroupId TtlSetting;
  registry : InstrumentRegistry;
  slots : list SlotState;
  has_service_level_ttl : bool
}.

(** [MarketDataBuilder::build]. *)
Definition build (ttl : QuoteTtl) : MarketDataService :=
  mkService (quote_ttl_as_duration ttl) ∅ ∅ registry_new [] false.

Definition set_account_ttls (s : MarketDataService) m : MarketDataService :=
  mkService (default_ttl s) m (group_ttl s) (registry s) (slots s) (has_service_level_ttl s).
Definition set_group_ttls (s : MarketDataService) m : MarketDataService :=
  mkService (default_ttl s) (account_ttl s) m (registry s) (slots s) (has_service_level_ttl s).
Definition set_registry (s : MarketDataService) r : MarketDataService :=
  mkService (default_ttl s) (account_ttl s) (group_ttl s) r (slots s) (has_service_level_ttl s).
Definition set_slots (s : MarketDataService) l : MarketDataService :=
  mkService (default_ttl s) (account_ttl s) (group_ttl s) (registry s) l (has_service_level_ttl s).
(** [ServiceTtlGate::mark_present]. *)
Definition mark_present (s : MarketDataService) : MarketDataService :=
  mkService (default_ttl s) (account_ttl s) (group_ttl s) (registry s) (slots s) true.

(** *** Registration *)

Definition ensure_slot_storage (self : MarketDataService) (instrument_ttl : option TtlSetting) : MarketDataService :=
  set_slots self (slots self ++ [slot_state_new instrument_ttl]).

(** The part every registration shares, under the registry's write lock. *)
Definition bind_instrument (self : MarketDataService) (reg : InstrumentRegistry) (instrument : Instrument)
    (instrument_id : InstrumentId) (instrument_ttl : option TtlSetting) : Z * MarketDataService :=
  let '(slot_idx, reg) := alloc_slot reg in
  let reg := insert_id (insert_name reg instrument instrument_id) instrument_id slot_idx in
  (slot_idx, ensure_slot_storage (set_registry self reg) instrument_ttl).

(** The check under the read lock decides what the check under the write lock
    decides, a name once taken being taken for good, so one moment is enough.
    [None] only when every identifier is taken, where the source's loop does not
    return. *)
Definition register_inner (self : MarketDataService) (instrument : Instrument)
    (instrument_ttl : option TtlSetting) : option (result AlreadyRegistered InstrumentId * MarketDataService) :=
  match by_instrument (registry self) !! instrument with
  | Some _ => Some (Err (mkAlreadyRegistered instrument), self)
  | None =>
      '(instrument_id, reg) ← registry_next_auto_id (registry self);
      Some (Ok instrument_id, (bind_instrument self reg instrument instrument_id instrument_ttl).2)
  end.

Definition register (self : MarketDataService) (instrument : Instrument) := register_inner self instrument None.
Definition register_with_ttl (self : MarketDataService) (instrument : Instrument) (ttl : QuoteTtl) :=
  register_inner self instrument (Some (from_quote_ttl ttl)).

Definition register_with_id_inner (self : MarketDataService) (instrument : Instrument)
    (instrument_id : InstrumentId) (instrument_ttl : option TtlSetting) :
    result RegistrationError InstrumentId * MarketDataService :=
  match by_instrument (registry self) !! instrument with
  | Some _ => (Err (DuplicateInstrument instrument), self)
  | None =>
      match by_id (registry self) !! instrument_id with
      | Some _ => (Err (DuplicateId instrument_id), self)
      | None =>
          (Ok instrument_id, (bind_instrument self (registry self) instrument instrument_id instrument_ttl).2)
      end
  end.

Definition register_with_id (self : MarketDataService) (instrument : Instrument) (instrument_id : InstrumentId) :=
  register_with_id_inner self instrument instrument_id None.
Definition register_with_id_and_ttl (self : MarketDataService) (instrument : Instrument)
    (instrument_id : InstrumentId) (ttl : QuoteTtl) :=
  register_with_id_inner self instrument instrument_id (Some (from_quote_ttl ttl)).

Definition resolve (self : MarketDataService) (instrument : Instrument) : option InstrumentId :=
  by_instrument (registry self) !! instrument.

(** [None] where the index of the source's map lookup panics or its loop does not
    return; [resolve_or_register_named_total] shows that neither happens. *)
Definition resolve_or_register_named (self : MarketDataService) (instrument : Instrument) :
    option ((InstrumentId * Z) * MarketDataService) :=
  match by_instrument (registry self) !! instrument with
  | Some instrument_id =>
      slot_idx ← by_id (registry self) !! instrument_id;
      Some ((instrument_id, slot_idx), self)
  | None =>
      '(instrument_id, reg) ← registry_next_auto_id (registry self);
      let '(slot_idx, self) := bind_instrument self reg instrument instrument_id None in
      Some ((instrument_id, slot_idx), self)
  end.

(** *** Service-level lifetimes *)

Definition set_account_ttl (self : MarketDataService) (account_id : AccountId) (ttl : QuoteTtl) :
    MarketDataService :=
  mark_present (set_account_ttls self (<[account_id := from_quote_ttl ttl]> (account_ttl self))).
Definition clear_account_ttl (self : MarketDataService) (account_id : AccountId) : MarketDataService :=
  set_account_ttls self (delete account_id (account_ttl self)).
Definition set_account_group_ttl (self : MarketDataService) (account_group_id : AccountGroupId) (ttl : QuoteTtl) :
    MarketDataService :=
  mark_present (set_group_ttls self (<[account_group_id := from_quote_ttl ttl]> (group_ttl self))).
Definition clear_account_group_ttl (self : MarketDataService) (account_group_id : AccountGroupId) :
    MarketDataService :=
  set_group_ttls self (delete account_group_id (group_ttl self)).

(** *** Slots *)

(** What an operation does to the slot under its lock; an index out of range is
    left alone. *)
Definition with_slot (self : MarketDataService) (slot_idx : Z) (mutate : SlotState -> SlotState) :
    MarketDataService :=
  set_slots self (alter mutate (Z.to_nat slot_idx) (slots self)).

Definition slot_for_id (reg : InstrumentRegistry) (instrument_id : InstrumentId) : result UnknownInstrumentId Z :=
  ok_or (by_id reg !! instrument_id) (mkUnknownInstrumentId instrument_id).

Definition with_slot_ttls_observed (reg : InstrumentRegistry) (self : MarketDataService)
    (instrument_id : InstrumentId) (mutate : SlotTtls -> SlotTtls) :
    result UnknownInstrumentId unit * MarketDataService :=
  match slot_for_id reg instrument_id with
  | Err e => (Err e, self)
  | Ok slot_idx => (Ok tt, with_slot self slot_idx (fun state => set_slot_ttls state (mutate (slot_ttls state))))
  end.

Definition with_slot_ttls (self : MarketDataService) := with_slot_ttls_observed (registry self) self.

Definition write_instrument (o : option TtlSetting) (t : SlotTtls) : SlotTtls :=
  mkSlotTtls (st_accounts t) (st_groups t) o.
Definition write_account (a : AccountId) (o : option TtlSetting) (t : SlotTtls) : SlotTtls :=
  mkSlotTtls (partial_alter (fun _ => o) a (st_accounts t)) (st_groups t) (st_instrument t).
Definition write_group (g : AccountGroupId) (o : option TtlSetting) (t : SlotTtls) : SlotTtls :=
  mkSlotTtls (st_accounts t) (partial_alter (fun _ => o) g (st_groups t)) (st_instrument t).

Definition set_instrument_ttl (self : MarketDataService) (instrument_id : InstrumentId) (ttl : QuoteTtl) :=
  with_slot_ttls self instrument_id (write_instrument (Some (from_quote_ttl ttl))).
Definition clear_instrument_ttl (self : MarketDataService) (instrument_id : InstrumentId) :=
  with_slot_ttls self instrument_id (write_instrument None).
Definition set_instrument_account_ttl (self : MarketDataService) (instrument_id : InstrumentId)
    (account_id : AccountId) (ttl : QuoteTtl) :=
  with_slot_ttls self instrument_id (write_account account_id (Some (from_quote_ttl ttl))).
Definition clear_instrument_account_ttl (self : MarketDataService) (instrument_id : InstrumentId)
    (account_id : AccountId) :=
  with_slot_ttls self instrument_id (write_account account_id None).
Definition set_instrument_account_group_ttl (self : MarketDataService) (instrument_id : InstrumentId)
    (account_group_id : AccountGroupId) (ttl : QuoteTtl) :=
  with_slot_ttls self instrument_id (write_group account_group_id (Some (from_quote_ttl ttl))).
Definition clear_instrument_account_group_ttl (self : MarketDataService) (instrument_id : InstrumentId)
    (account_group_id : AccountGroupId) :=
  with_slot_ttls self instrument_id (write_group account_group_id None).

Definition clear_quotes (state : SlotState) : SlotState := set_slot_quotes state (mkSlotQuotes ∅ ∅).

Definition clear_observed (reg : InstrumentRegistry) (self : MarketDataService) (instrument_id : InstrumentId) :
    MarketDataService :=
  match by_id reg !! instrument_id with
  | Some slot_idx => with_slot self slot_idx clear_quotes
  | None => self
  end.

Definition clear (self : MarketDataService) := clear_observed (registry self) self.

(** *** Publication *)

Definition store_into {K} `{Countable K} (map : gmap K QuoteState) (key : K) (now : Z) (quote : Quote)
    (source_age : Z) : gmap K QuoteState :=
  <[key := mkQuoteState quote now source_age]> map.

Definition store_account (now : Z) (quote : Quote) (source_age : Z) (state : SlotState) (account_id : AccountId) :
    SlotState :=
  set_slot_quotes state
    (mkSlotQuotes (store_into (sq_accounts (slot_quotes state)) account_id now quote source_age)
       (sq_groups (slot_quotes state))).

Definition store_group (now : Z) (quote : Quote) (source_age : Z) (state : SlotState) (group : AccountGroupId) :
    SlotState :=
  set_slot_quotes state
    (mkSlotQuotes (sq_accounts (slot_quotes state))
       (store_into (sq_groups (slot_quotes state)) group now quote source_age)).

Definition store_default_at (self : MarketDataService) (slot_idx now : Z) (quote : Quote) (source_age : Z) :
    MarketDataService :=
  with_slot self slot_idx (fun state => store_group now quote source_age state DEFAULT_ACCOUNT_GROUP).

Definition store_default_by_id_observed (reg : InstrumentRegistry) (self : MarketDataService)
    (instrument_id : InstrumentId) (now : Z) (quote : Quote) (source_age : Z) :
    result UnknownInstrumentId unit * MarketDataService :=
  match slot_for_id reg instrument_id with
  | Err e => (Err e, self)
  | Ok slot_idx =>
      (Ok tt, with_slot self slot_idx (fun state => store_group now quote source_age state DEFAULT_ACCOUNT_GROUP))
  end.

Definition push (self : MarketDataService) := store_default_by_id_observed (registry self) self.

Definition store_targets (now : Z) (quote : Quote) (source_age : Z) (account_ids : list AccountId)
    (account_group_ids : list AccountGroupId) (state : SlotState) : SlotState :=
  let state := fold_left (store_account now quote source_age) account_ids state in
  fold_left (store_group now quote source_age) account_group_ids state.

Definition store_for_observed (reg : InstrumentRegistry) (self : MarketDataService) (instrument_id : InstrumentId)
    (now : Z) (quote : Quote) (source_age : Z) (account_ids : list AccountId)
    (account_group_ids : list AccountGroupId) : result PushForError unit * MarketDataService :=
  match account_ids, account_group_ids with
  | [], [] => (Err PushFor_NoTarget, self)
  | _, _ =>
      match by_id reg !! instrument_id with
      | None => (Err (PushFor_UnknownInstrument instrument_id), self)
      | Some slot_idx =>
          (Ok tt, with_slot self slot_idx (store_targets now quote source_age account_ids account_group_ids))
      end
  end.

Definition push_for (self : MarketDataService) := store_for_observed (registry self) self.

Definition push_by_instrument (self : MarketDataService) (instrument : Instrument) (now : Z) (quote : Quote)
    (source_age : Z) : option (InstrumentId * MarketDataService) :=
  '((instrument_id, slot_idx), self) ← resolve_or_register_named self instrument;
  Some (instrument_id, store_default_at self slot_idx now quote source_age).

(** *** Reading *)

Definition select_quote (quotes : SlotQuotes) (account_id : AccountId) (account_info : AccountInfo)
    (resolution : QuoteResolution) (cell : GroupMemo) : option QuoteState * GroupMemo :=
  match sq_accounts quotes !! account_id with
  | Some state => (Some state, cell)
  | None =>
      match resolution with
      | AccountOnly => (None, cell)
      | AccountThenGroup =>
          let '(group, cell) := resolve_group account_info cell in
          (group ≫= (fun group => sq_groups quotes !! group), cell)
      | AccountThenGroupThenDefault =>
          let '(group, cell) := resolve_group account_info cell in
          match group ≫= (fun group => sq_groups quotes !! group) with
          | Some state => (Some state, cell)
          | None => (sq_groups quotes !! DEFAULT_ACCOUNT_GROUP, cell)
          end
      end
  end.

(** The tiers of a group's own entry and of the default group's. *)
Definition group_tiers (groups : gmap AccountGroupId TtlSetting) (account_info : AccountInfo) (cell : GroupMemo) :
    option TtlSetting * GroupMemo :=
  let '(group, cell) := resolve_group account_info cell in
  match group ≫= (fun group => groups !! group) with
  | Some setting => (Some setting, cell)
  | None => (groups !! DEFAULT_ACCOUNT_GROUP, cell)
  end.

(** [gate], [accounts] and [groups] are what the reads of the three service-level
    cells, each under a lock of its own, found. *)
Definition effective_ttl_observed (default : option Z) (gate : bool) (accounts : gmap AccountId TtlSetting)
    (groups : gmap AccountGroupId TtlSetting) (ttls : SlotTtls) (account_id : AccountId)
    (account_info : AccountInfo) (cell : GroupMemo) : option Z * GroupMemo :=
  match st_accounts ttls !! account_id with
  | Some setting => (as_duration setting, cell)
  | None =>
      let '(tier, cell) := group_tiers (st_groups ttls) account_info cell in
      match tier with
      | Some setting => (as_duration setting, cell)
      | None =>
          let '(tier, cell) :=
            if gate then
              match accounts !! account_id with
              | Some setting => (Some setting, cell)
              | None => group_tiers groups account_info cell
              end
            else (None, cell) in
          match tier with
          | Some setting => (as_duration setting, cell)
          | None =>
              (match st_instrument ttls with Some setting => as_duration setting | None => default end, cell)
          end
      end
  end.

Definition effective_ttl (self : MarketDataService) :=
  effective_ttl_observed (default_ttl self) (has_service_level_ttl self) (account_ttl self) (group_ttl self).

(** The age of a quote at [now], and whether a lifetime has passed. *)
Definition effective_age (now : Z) (state : QuoteState) : Z :=
  duration_saturating_add (saturating_duration_since now (qs_pushed_at state)) (qs_source_age state).

Definition expired (now : Z) (state : QuoteState) (ttl : option Z) : bool :=
  match ttl with Some ttl => ttl <=? effective_age now state | None => false end.

(** What a read does under the slot's guard; [now] is read last. *)
Definition get_slot (ttl_of : SlotTtls -> GroupMemo -> option Z * GroupMemo) (state : SlotState) (now : Z)
    (account_id : AccountId) (account_info : AccountInfo) (resolution : QuoteResolution) :
    result MarketDataError Quote * GroupMemo :=
  let '(selected, cell) := select_quote (slot_quotes state) account_id account_info resolution group_cell_new in
  match selected with
  | None => (Err QuoteUnavailable, cell)
  | Some selected =>
      let '(effective_ttl, cell) := ttl_of (slot_ttls state) cell in
      (if expired now selected effective_ttl then Err (QuoteExpired (qs_quote selected))
       else Ok (qs_quote selected), cell)
  end.

Definition get_observed (reg : InstrumentRegistry) (slots : list SlotState) (default : option Z) (gate : bool)
    (accounts : gmap AccountId TtlSetting) (groups : gmap AccountGroupId TtlSetting) (now : Z)
    (instrument_id : InstrumentId) (account_id : AccountId) (account_info : AccountInfo)
    (resolution : QuoteResolution) : result MarketDataError Quote * GroupMemo :=
  match by_id reg !! instrument_id with
  | None => (Err UnknownInstrument, group_cell_new)
  | Some slot_idx =>
      match slots !! Z.to_nat slot_idx with
      | None => (Err QuoteUnavailable, group_cell_new)
      | Some state =>
          get_slot
            (fun ttls => effective_ttl_observed default gate accounts groups ttls account_id account_info)
            state now account_id account_info resolution
      end
  end.

Definition get (self : MarketDataService) (now : Z) (instrument_id : InstrumentId) (account_id : AccountId)
    (account_info : AccountInfo) (resolution : QuoteResolution) : result MarketDataError Quote :=
  (get_observed (registry self) (slots self) (default_ttl self) (has_service_level_ttl self) (account_ttl self)
     (group_ttl self) now instrument_id account_id account_info resolution).1.

End MarketData.
