(* ===== verification/MarketDataFacts.v ===== *)
(** * MarketDataFacts: what the market data service guarantees

    The steps other threads may take between two critical sections, the
    invariant they keep, the abstract service the registry and its slots
    implement, and what a read answers. *)
From S2P Require Import Prelude.
From S2P Require Import Decimal.
From S2P Require Import Param.
From S2P Require Import ParamTypes.
From S2P Require Import Identifiers.
From S2P Require Import Policy.
From S2P Require Import Instruments.
From S2P Require Import MarketData.
Open Scope Z_scope.

(** The first set entry of a cascade. *)
Fixpoint first_set {A} (l : list (option A)) : option A :=
  match l with
  | [] => None
  | Some x :: _ => Some x
  | None :: l => first_set l
  end.

Section MarketDataFacts.
Context {D : DecimalOps}.
Implicit Types (s : MarketDataService) (st : SlotState) (id : InstrumentId) (i : Instrument).

(** ** Steps and invariant *)

(** The part of the invariant every registration keeps: identifiers own slots of
    their own, names and identifiers correspond one to one, and the counters are
    words. *)
Record registry_wf s : Prop := {
  rw_slot id k : by_id (registry s) !! id = Some k -> 0 <= k < Z.of_nat (length (slots s));
  rw_slot_inj id id' k : by_id (registry s) !! id = Some k -> by_id (registry s) !! id' = Some k -> id = id';
  rw_named id : is_Some (by_id (registry s) !! id) <-> exists i, by_instrument (registry s) !! i = Some id;
  rw_name_inj i j id : by_instrument (registry s) !! i = Some id ->
    by_instrument (registry s) !! j = Some id -> i = j;
  rw_size : size (by_id (registry s)) = length (slots s);
  rw_next : next_slot (registry s) = Z.of_nat (length (slots s)) mod 2 ^ 32;
  rw_auto : is_u64 (next_auto (registry s))
}.

(** A service with the number of setters that have inserted a service-level
    lifetime and not yet marked the gate. *)
Record SharedService : Type := mkShared { shared : MarketDataService; unmarked : nat }.

(** One critical section of one thread.  Everything an operation does to a slot
    is [ss_slot], whatever registry the index came from; a registration finds
    room among the 2^32 slots. *)
Inductive shared_step : SharedService -> SharedService -> Prop :=
| ss_register s n i ttl r s' : Z.of_nat (length (slots s)) < 2 ^ 32 ->
    register_inner s i ttl = Some (r, s') -> shared_step (mkShared s n) (mkShared s' n)
| ss_register_with_id s n i id ttl : Z.of_nat (length (slots s)) < 2 ^ 32 -> is_u64 (instrument_as_u64 id) ->
    shared_step (mkShared s n) (mkShared (register_with_id_inner s i id ttl).2 n)
| ss_resolve s n i r s' : Z.of_nat (length (slots s)) < 2 ^ 32 ->
    resolve_or_register_named s i = Some (r, s') -> shared_step (mkShared s n) (mkShared s' n)
| ss_slot s n k f : shared_step (mkShared s n) (mkShared (with_slot s k f) n)
| ss_insert_account s n a t :
    shared_step (mkShared s n) (mkShared (set_account_ttls s (<[a := t]> (account_ttl s))) (S n))
| ss_insert_group s n g t :
    shared_step (mkShared s n) (mkShared (set_group_ttls s (<[g := t]> (group_ttl s))) (S n))
| ss_mark s n : shared_step (mkShared s (S n)) (mkShared (mark_present s) n)
| ss_clear_account s n a : shared_step (mkShared s n) (mkShared (clear_account_ttl s a) n)
| ss_clear_group s n g : shared_step (mkShared s n) (mkShared (clear_account_group_ttl s g) n).

Definition shared_reachable (x : SharedService) : Prop :=
  exists ttl, rtc shared_step (mkShared (build ttl) 0) x.

Record service_wf (x : SharedService) : Prop := {
  sw_registry : registry_wf (shared x);
  sw_room : Z.of_nat (length (slots (shared x))) <= 2 ^ 32;
  sw_gate : has_service_level_ttl (shared x) = false -> unmarked x = 0%nat ->
    account_ttl (shared x) = ∅ /\ group_ttl (shared x) = ∅
}.

(** What never shrinks: an identifier keeps its slot, a name its identifier. *)
Definition extends s s' : Prop :=
  by_id (registry s) ⊆ by_id (registry s') /\ by_instrument (registry s) ⊆ by_instrument (registry s') /\
  (length (slots s) <= length (slots s'))%nat /\ default_ttl s = default_ttl s' /\
  (has_service_level_ttl s = true -> has_service_level_ttl s' = true).

#[global] Instance extends_preorder : PreOrder extends.
Proof.
  split; [by intros s|]. intros s1 s2 s3 (A1 & B1 & C1 & E1 & G1) (A2 & B2 & C2 & E2 & G2).
  split_and!; [by etrans|by etrans|lia|congruence|auto].
Qed.

(** [registry_wf] reads the registry and the number of slots only. *)
Lemma registry_wf_same s s' :
  registry s' = registry s -> length (slots s') = length (slots s) -> registry_wf s -> registry_wf s'.
Proof. intros Hr Hl [A B C E F G H]. split; rewrite ?Hr, ?Hl; done. Qed.

Lemma with_slot_length s k f : length (slots (with_slot s k f)) = length (slots s).
Proof. apply length_alter. Qed.

(** ** Registration *)

(** What binding a fresh name to a fresh identifier does. *)
Definition bound s s' i id ttl : Prop :=
  by_instrument (registry s) !! i = None /\ by_id (registry s) !! id = None /\
  by_id (registry s') = <[id := Z.of_nat (length (slots s))]> (by_id (registry s)) /\
  by_instrument (registry s') = <[i := id]> (by_instrument (registry s)) /\
  slots s' = slots s ++ [slot_state_new ttl] /\
  next_slot (registry s') = Z.of_nat (length (slots s')) mod 2 ^ 32 /\ is_u64 (next_auto (registry s')) /\
  default_ttl s' = default_ttl s /\ account_ttl s' = account_ttl s /\ group_ttl s' = group_ttl s /\
  has_service_level_ttl s' = has_service_level_ttl s.

Lemma bump_auto_range next id : is_u64 next -> is_u64 (bump_auto_id next id).
Proof. unfold bump_auto_id. destruct (_ =? _); [intros _; apply u64_succ_range|done]. Qed.

Lemma bind_instrument_bound s reg i id ttl :
  registry_wf s -> Z.of_nat (length (slots s)) < 2 ^ 32 ->
  by_instrument (registry s) !! i = None -> by_id (registry s) !! id = None ->
  by_id reg = by_id (registry s) -> by_instrument reg = by_instrument (registry s) ->
  next_slot reg = next_slot (registry s) -> is_u64 (next_auto reg) ->
  bound s (bind_instrument s reg i id ttl).2 i id ttl /\
  (bind_instrument s reg i id ttl).1 = Z.of_nat (length (slots s)).
Proof.
  intros Hw Hl Hi Hid E1 E2 E3 Ha. unfold bound, bind_instrument, alloc_slot, insert_id, insert_name. cbn -[Z.pow].
  rewrite E1, E2, E3, (rw_next s Hw), Z.mod_small by lia. split_and!; try done.
  - unfold u32_succ. rewrite length_app. cbn [length]. f_equal. lia.
  - by apply bump_auto_range.
Qed.

Lemma bound_wf s s' i id ttl : registry_wf s -> bound s s' i id ttl -> registry_wf s'.
Proof.
  intros [A B C E F G H] (Hi & Hid & Eb & En & Es & Ex & Ha & _). split; rewrite ?Eb, ?En, ?Es, ?length_app; cbn [length].
  - intros id' k [[<- <-]|[_ Hk]]%lookup_insert_Some; [lia|]. apply A in Hk. lia.
  - intros a b k [[<- <-]|[Hna Hk]]%lookup_insert_Some [[<- Hk']|[Hnb Hk']]%lookup_insert_Some; [done| | |by eapply B].
    + apply A in Hk'. lia.
    + subst k. apply A in Hk. lia.
  - intros id'. destruct (decide (id' = id)) as [->|Hne].
    + rewrite lookup_insert_eq. split; [|by eexists]. intros _. exists i. apply lookup_insert_eq.
    + rewrite lookup_insert_ne by congruence. rewrite C. split; intros [j Hj]; exists j.
      * rewrite lookup_insert_ne; [done|congruence].
      * apply lookup_insert_Some in Hj as [[_ [= ->]]|[_ Hj]]; [congruence|done].
  - assert (Hn : forall j, by_instrument (registry s) !! j = Some id -> False).
    { intros j Hj. assert (Hs : is_Some (by_id (registry s) !! id)) by (apply C; eauto).
      rewrite Hid in Hs. by destruct Hs. }
    intros j k id' [[<- <-]|[Hj1 Hj]]%lookup_insert_Some [[<- Hk]|[Hk1 Hk]]%lookup_insert_Some;
      [done|by apply Hn in Hk| |by eapply E]. subst id'. by apply Hn in Hj.
  - rewrite map_size_insert_None by done. rewrite F. lia.
  - rewrite Ex, Es, length_app. done.
  - done.
Qed.

Lemma bound_extends s s' i id ttl : bound s s' i id ttl -> extends s s'.
Proof.
  intros (Hi & Hid & Eb & En & Es & _ & _ & Ed & _ & _ & Eg). split_and!; [| | |done|by rewrite Eg].
  - rewrite Eb. by apply insert_subseteq.
  - rewrite En. by apply insert_subseteq.
  - rewrite Es, length_app. lia.
Qed.

(** An automatic registration binds the name to an identifier, and cannot loop. *)
Lemma register_auto s i ttl :
  registry_wf s -> Z.of_nat (length (slots s)) < 2 ^ 32 -> by_instrument (registry s) !! i = None ->
  exists id reg s', registry_next_auto_id (registry s) = Some (id, reg) /\
    bind_instrument s reg i id ttl = (Z.of_nat (length (slots s)), s') /\ bound s s' i id ttl.
Proof.
  intros Hw Hl Hi. unfold registry_next_auto_id.
  destruct (next_auto_id_fresh (by_id (registry s)) (next_auto (registry s))) as (id & E & Hf).
  { apply Hw. }
  { rewrite (rw_size s Hw). lia. }
  rewrite E. cbn [mbind option_bind]. eexists id, _, _. split; [reflexivity|].
  match goal with |- context [bind_instrument s ?reg i id ttl] =>
    destruct (bind_instrument_bound s reg i id ttl Hw Hl Hi Hf) as [Hb Hk]; try done end.
  { apply u64_succ_range. }
  split; [|exact Hb]. rewrite <- Hk. apply surjective_pairing.
Qed.

Lemma register_inner_cases s i ttl :
  registry_wf s -> Z.of_nat (length (slots s)) < 2 ^ 32 ->
  (is_Some (resolve s i) /\ register_inner s i ttl = Some (Err (mkAlreadyRegistered i), s)) \/
  (exists id s', register_inner s i ttl = Some (Ok id, s') /\ bound s s' i id ttl).
Proof.
  intros Hw Hl. unfold register_inner, resolve. destruct (by_instrument (registry s) !! i) eqn:Ei; [by eauto|].
  right. destruct (register_auto s i ttl Hw Hl Ei) as (id & reg & s' & E & Eb & Hb).
  rewrite E. cbn [mbind option_bind]. rewrite Eb. eauto.
Qed.

Lemma register_with_id_cases s i id ttl :
  registry_wf s -> Z.of_nat (length (slots s)) < 2 ^ 32 ->
  (is_Some (resolve s i) /\ register_with_id_inner s i id ttl = (Err (DuplicateInstrument i), s)) \/
  (resolve s i = None /\ is_Some (by_id (registry s) !! id) /\
    register_with_id_inner s i id ttl = (Err (DuplicateId id), s)) \/
  (exists s', register_with_id_inner s i id ttl = (Ok id, s') /\ bound s s' i id ttl).
Proof.
  intros Hw Hl. unfold register_with_id_inner, resolve.
  destruct (by_instrument (registry s) !! i) eqn:Ei; [by eauto|].
  destruct (by_id (registry s) !! id) eqn:Eid; [by eauto|]. right; right.
  eexists. split; [done|]. apply bind_instrument_bound; try done. apply Hw.
Qed.

Lemma resolve_or_register_cases s i :
  registry_wf s -> Z.of_nat (length (slots s)) < 2 ^ 32 ->
  exists id k s', resolve_or_register_named s i = Some ((id, k), s') /\
    by_id (registry s') !! id = Some k /\ resolve s' i = Some id /\
    ((resolve s i = Some id /\ s' = s) \/ bound s s' i id None).
Proof.
  intros Hw Hl. unfold resolve_or_register_named, resolve.
  destruct (by_instrument (registry s) !! i) as [id|] eqn:Ei.
  - destruct (proj2 (rw_named s Hw id)) as [k Hk]; [eauto|]. rewrite Hk.
    exists id, k, s. split_and!; [done..|by left].
  - destruct (register_auto s i None Hw Hl Ei) as (id & reg & s' & E & Eb & Hb).
    rewrite E. cbn [mbind option_bind]. rewrite Eb. eexists id, _, s'. split; [done|].
    pose proof Hb as (_ & _ & -> & -> & _). rewrite !lookup_insert_eq. eauto.
Qed.

(** ** The invariant is kept *)

Lemma service_wf_bound s s' n i id ttl :
  service_wf (mkShared s n) -> Z.of_nat (length (slots s)) < 2 ^ 32 -> bound s s' i id ttl ->
  service_wf (mkShared s' n).
Proof.
  intros [Hr _ Hg] Hl Hb. split; cbn.
  - by eapply bound_wf.
  - destruct Hb as (_ & _ & _ & _ & -> & _). rewrite length_app. cbn [length]. lia.
  - destruct Hb as (_ & _ & _ & _ & _ & _ & _ & _ & -> & -> & ->). exact Hg.
Qed.

Lemma shared_step_wf x y : service_wf x -> shared_step x y -> service_wf y.
Proof.
  intros Hw Hs. destruct Hs as [s n i ttl r s' Hl E|s n i id ttl Hl Hid|s n i r s' Hl E|s n k f|s n a t|s n g t|s n|
    s n a|s n g].
  - destruct (register_inner_cases s i ttl (sw_registry _ Hw) Hl) as [[_ E']|(id & s1 & E' & Hb)];
      rewrite E' in E; simplify_eq; [done|by eapply service_wf_bound].
  - destruct (register_with_id_cases s i id ttl (sw_registry _ Hw) Hl) as [[_ ->]|[(_ & _ & ->)|(s1 & -> & Hb)]];
      [done|done|by eapply service_wf_bound].
  - destruct (resolve_or_register_cases s i (sw_registry _ Hw) Hl) as (id & k & s1 & E' & _ & _ & H).
    rewrite E' in E. simplify_eq. destruct H as [[_ ->]|Hb]; [done|by eapply service_wf_bound].
  - destruct Hw as [Hr Hl Hg]. cbn in *. split; cbn; [|by rewrite length_alter|done].
    by eapply registry_wf_same, Hr; [|apply with_slot_length].
  - destruct Hw as [Hr Hl Hg]. by split; [eapply registry_wf_same, Hr|..].
  - destruct Hw as [Hr Hl Hg]. by split; [eapply registry_wf_same, Hr|..].
  - destruct Hw as [Hr Hl Hg]. by split; [eapply registry_wf_same, Hr|..].
  - destruct Hw as [Hr Hl Hg]. split; [by eapply registry_wf_same, Hr|done|]. cbn in *. intros Hf Hn.
    destruct (Hg Hf Hn) as [-> ->]. by rewrite delete_empty.
  - destruct Hw as [Hr Hl Hg]. split; [by eapply registry_wf_same, Hr|done|]. cbn in *. intros Hf Hn.
    destruct (Hg Hf Hn) as [-> ->]. by rewrite delete_empty.
Qed.

Lemma build_wf ttl : service_wf (mkShared (build ttl) 0).
Proof.
  split; [split|..]; cbn; try done.
  intros id. rewrite lookup_empty. split; [by intros [? ?]|]. intros [i Hi]. by rewrite lookup_empty in Hi.
Qed.

(** In every state threads can bring a service into, identifiers own slots of
    their own, names and identifiers correspond one to one, and with no setter
    under way a gate that is still unset proves both service-level tables
    empty. *)
Theorem shared_reachable_wf x : shared_reachable x -> service_wf x.
Proof.
  intros [ttl H]. pose proof (build_wf ttl) as Hw. induction H as [|x y z Hs _ IH]; [done|].
  eapply IH, shared_step_wf; eauto.
Qed.

Lemma shared_step_extends x y : service_wf x -> shared_step x y -> extends (shared x) (shared y).
Proof.
  intros Hw Hs. destruct Hs as [s n i ttl r s' Hl E|s n i id ttl Hl Hid|s n i r s' Hl E|s n k f|s n a t|s n g t|s n|
    s n a|s n g]; try by split_and!.
  - destruct (register_inner_cases s i ttl (sw_registry _ Hw) Hl) as [[_ E']|(id & s1 & E' & Hb)];
      rewrite E' in E; simplify_eq; [done|by eapply bound_extends].
  - destruct (register_with_id_cases s i id ttl (sw_registry _ Hw) Hl) as [[_ ->]|[(_ & _ & ->)|(s1 & -> & Hb)]];
      [done|done|by eapply bound_extends].
  - destruct (resolve_or_register_cases s i (sw_registry _ Hw) Hl) as (id & k & s1 & E' & _ & _ & H).
    rewrite E' in E. simplify_eq. destruct H as [[_ ->]|Hb]; [done|by eapply bound_extends].
  - split_and!; [done|done| |done|done]. cbn. by rewrite length_alter.
Qed.

Lemma shared_steps_extend x y : service_wf x -> rtc shared_step x y -> extends (shared x) (shared y) /\ service_wf y.
Proof.
  intros Hw H. induction H as [x|x y z Hs _ IH]; [by split|].
  destruct IH as [He Hz]; [by eapply shared_step_wf|]. split; [|done]. etrans; [|exact He].
  by apply shared_step_extends.
Qed.

(** ** The abstract service *)

(** A table from identifiers to slots; the indices are gone. *)
Definition slot_of s id : option SlotState :=
  k ← by_id (registry s) !! id; slots s !! Z.to_nat k.

Definition states s : gmap InstrumentId SlotState :=
  omap (fun k => slots s !! Z.to_nat k) (by_id (registry s)).

Lemma states_lookup s id : states s !! id = slot_of s id.
Proof. unfold states, slot_of. by rewrite lookup_omap. Qed.

Lemma slot_of_Some s id k : registry_wf s -> by_id (registry s) !! id = Some k ->
  exists st, slots s !! Z.to_nat k = Some st /\ slot_of s id = Some st.
Proof.
  intros Hw Hk. destruct (lookup_lt_is_Some_2 (slots s) (Z.to_nat k)) as [st Hst].
  { pose proof (rw_slot s Hw id k Hk). lia. }
  exists st. unfold slot_of. by rewrite Hk.
Qed.

Lemma slot_of_is_Some s id : registry_wf s -> is_Some (slot_of s id) <-> is_Some (by_id (registry s) !! id).
Proof.
  intros Hw. split.
  - unfold slot_of. destruct (by_id (registry s) !! id); [by eexists|by intros [? ?]].
  - intros [k Hk]. destruct (slot_of_Some s id k Hw Hk) as (st & _ & ->). by eexists.
Qed.

(** Writing an identifier's slot writes that identifier alone. *)
Lemma with_slot_states s id k f : registry_wf s -> by_id (registry s) !! id = Some k ->
  states (with_slot s k f) = alter f id (states s).
Proof.
  intros Hw Hk. apply map_eq. intros id'. rewrite states_lookup. unfold slot_of. cbn.
  destruct (decide (id' = id)) as [->|Hne].
  - rewrite lookup_alter_eq, states_lookup. unfold slot_of. rewrite Hk. cbn. by rewrite list_lookup_alter_eq.
  - rewrite lookup_alter_ne by done. rewrite states_lookup. unfold slot_of.
    destruct (by_id (registry s) !! id') as [k'|] eqn:Hk'; [|done]. cbn. apply list_lookup_alter_ne.
    intros E. apply Hne. apply (rw_slot_inj s Hw id' id k); [|done].
    rewrite Hk'. f_equal. pose proof (rw_slot s Hw _ _ Hk). pose proof (rw_slot s Hw _ _ Hk'). lia.
Qed.

Lemma bound_states s s' i id ttl : registry_wf s -> bound s s' i id ttl ->
  states s !! id = None /\ states s' = <[id := slot_state_new ttl]> (states s).
Proof.
  intros Hw (Hi & Hid & Eb & _ & Es & _). split; [by rewrite states_lookup; unfold slot_of; rewrite Hid|].
  apply map_eq. intros id'. rewrite states_lookup. unfold slot_of. rewrite Eb, Es.
  destruct (decide (id' = id)) as [->|Hne].
  - rewrite !lookup_insert_eq. cbn -[Z.of_nat Z.to_nat]. rewrite Nat2Z.id. by rewrite list_lookup_middle.
  - rewrite !lookup_insert_ne, states_lookup by done. unfold slot_of.
    destruct (by_id (registry s) !! id') as [k|] eqn:Hk; [|done]. cbn.
    apply lookup_app_l. pose proof (rw_slot s Hw _ _ Hk). lia.
Qed.

(** The service without its slot indices, counters and gate. *)
Record Table : Type := mkTable {
  t_default : option Z;
  t_accounts : gmap AccountId TtlSetting;
  t_groups : gmap AccountGroupId TtlSetting;
  t_names : gmap Instrument InstrumentId;
  t_states : gmap InstrumentId SlotState
}.

Definition table s : Table :=
  mkTable (default_ttl s) (account_ttl s) (group_ttl s) (by_instrument (registry s)) (states s).

(** Abstract operations: write one instrument, bind a new one. *)
Definition t_write (T : Table) id (f : SlotState -> SlotState) : option Table :=
  st ← t_states T !! id;
  Some (mkTable (t_default T) (t_accounts T) (t_groups T) (t_names T) (<[id := f st]> (t_states T))).

Definition t_bind (T : Table) i id ttl : Table :=
  mkTable (t_default T) (t_accounts T) (t_groups T) (<[i := id]> (t_names T))
    (<[id := slot_state_new ttl]> (t_states T)).

(** The buckets a resolution allows and the tiers of the cascade, in their
    order. *)
Definition candidates (q : SlotQuotes) (a : AccountId) (g : option AccountGroupId) (res : QuoteResolution) :
    list (option QuoteState) :=
  (sq_accounts q !! a) ::
  match res with
  | AccountOnly => []
  | AccountThenGroup => [g ≫= (sq_groups q !!.)]
  | AccountThenGroupThenDefault => [g ≫= (sq_groups q !!.); sq_groups q !! DEFAULT_ACCOUNT_GROUP]
  end.

Definition tiers (T : Table) (t : SlotTtls) (a : AccountId) (g : option AccountGroupId) : list (option TtlSetting) :=
  [st_accounts t !! a; g ≫= (st_groups t !!.); st_groups t !! DEFAULT_ACCOUNT_GROUP;
   t_accounts T !! a; g ≫= (t_groups T !!.); t_groups T !! DEFAULT_ACCOUNT_GROUP; st_instrument t].

Definition t_ttl (T : Table) (t : SlotTtls) (a : AccountId) (g : option AccountGroupId) : option Z :=
  match first_set (tiers T t a g) with Some setting => as_duration setting | None => t_default T end.

Definition t_get (T : Table) (now : Z) id (a : AccountId) (g : option AccountGroupId) (res : QuoteResolution) :
    result MarketDataError Quote :=
  match t_states T !! id with
  | None => Err UnknownInstrument
  | Some st =>
      match first_set (candidates (slot_quotes st) a g res) with
      | None => Err QuoteUnavailable
      | Some q =>
          if expired now q (t_ttl T (slot_ttls st) a g) then Err (QuoteExpired (qs_quote q)) else Ok (qs_quote q)
      end
  end.

(** *** Writes *)

Lemma table_with_slot s id k f : registry_wf s -> by_id (registry s) !! id = Some k ->
  t_write (table s) id f = Some (table (with_slot s k f)).
Proof.
  intros Hw Hk. destruct (slot_of_Some s id k Hw Hk) as (st & _ & Hst).
  unfold t_write, table. cbn [t_states]. rewrite (with_slot_states s id k f Hw Hk).
  rewrite states_lookup, Hst. cbn. do 2 f_equal. symmetry. apply map_eq. intros id'.
  destruct (decide (id' = id)) as [->|Hne].
  - by rewrite lookup_alter_eq, lookup_insert_eq, states_lookup, Hst.
  - by rewrite lookup_alter_ne, lookup_insert_ne.
Qed.

Lemma table_unknown s id f : by_id (registry s) !! id = None -> t_write (table s) id f = None.
Proof. intros H. unfold t_write, table. cbn. rewrite states_lookup. unfold slot_of. by rewrite H. Qed.

Lemma table_bound s s' i id ttl : registry_wf s -> bound s s' i id ttl ->
  table s' = t_bind (table s) i id ttl /\ t_states (table s) !! id = None /\ t_names (table s) !! i = None.
Proof.
  intros Hw Hb. destruct (bound_states s s' i id ttl Hw Hb) as [Hn Hs]. split; [|split; [exact Hn|apply Hb]].
  destruct Hb as (_ & _ & _ & En & _ & _ & _ & Ed & Ea & Eg & _). unfold table, t_bind. cbn.
  by rewrite Hs, En, Ed, Ea, Eg.
Qed.

(** An operation that writes a slot refines the abstract write: it is refused
    exactly when that is, with its error, and otherwise does what that does. *)
Definition refines_write {E} s id f (e : E) (r : result E unit * MarketDataService) : Prop :=
  match t_write (table s) id f with
  | Some T => r.1 = Ok tt /\ table r.2 = T
  | None => r = (Err e, s)
  end.

Lemma refines_write_intro {E} s id f (e : E) : registry_wf s ->
  refines_write s id f e
    (match by_id (registry s) !! id with Some k => (Ok tt, with_slot s k f) | None => (Err e, s) end).
Proof.
  intros Hw. unfold refines_write. destruct (by_id (registry s) !! id) as [k|] eqn:Hk.
  - by rewrite (table_with_slot s id k f Hw Hk).
  - by rewrite (table_unknown s id f Hk).
Qed.

(** Seen through [table] the service is a table from identifiers to slots: every
    writing operation changes the one instrument it names the way the abstract
    write does, and is refused, changing nothing, exactly when that instrument is
    unknown. *)
Theorem writes_refine_table s id now quote age accounts groups f : registry_wf s ->
  refines_write s id (fun st => set_slot_ttls st (f (slot_ttls st))) (mkUnknownInstrumentId id)
    (with_slot_ttls s id f) /\
  refines_write s id (fun st => store_group now quote age st DEFAULT_ACCOUNT_GROUP) (mkUnknownInstrumentId id)
    (push s id now quote age) /\
  (accounts <> [] \/ groups <> [] ->
   refines_write s id (store_targets now quote age accounts groups) (PushFor_UnknownInstrument id)
     (push_for s id now quote age accounts groups)) /\
  push_for s id now quote age [] [] = (Err PushFor_NoTarget, s) /\
  table (clear s id) = default (table s) (t_write (table s) id clear_quotes).
Proof.
  intros Hw. split_and!.
  - pose proof (refines_write_intro s id (fun st => set_slot_ttls st (f (slot_ttls st)))
      (mkUnknownInstrumentId id) Hw) as H.
    unfold with_slot_ttls, with_slot_ttls_observed, slot_for_id. by destruct (by_id (registry s) !! id).
  - pose proof (refines_write_intro s id (fun st => store_group now quote age st DEFAULT_ACCOUNT_GROUP)
      (mkUnknownInstrumentId id) Hw) as H.
    unfold push, store_default_by_id_observed, slot_for_id. by destruct (by_id (registry s) !! id).
  - intros Hne. pose proof (refines_write_intro s id (store_targets now quote age accounts groups)
      (PushFor_UnknownInstrument id) Hw) as H.
    unfold push_for, store_for_observed. destruct accounts as [|a accounts], groups as [|g groups]; [by destruct Hne|..];
      by destruct (by_id (registry s) !! id).
  - done.
  - unfold clear, clear_observed. destruct (by_id (registry s) !! id) as [k|] eqn:Hk.
    + by rewrite (table_with_slot s id k _ Hw Hk).
    + by rewrite (table_unknown s id _ Hk).
Qed.

(** Registration refines the abstract binding: a known name, and a known
    identifier, are refused and nothing changes; otherwise the name is bound to an
    identifier no instrument had, with an empty slot, and nothing else changes.
    Every automatic registration returns. *)
Theorem registration_refines_table s i id ttl :
  registry_wf s -> Z.of_nat (length (slots s)) < 2 ^ 32 ->
  (exists r s', register_inner s i ttl = Some (r, s') /\
    match t_names (table s) !! i with
    | Some _ => r = Err (mkAlreadyRegistered i) /\ s' = s
    | None => exists fresh, r = Ok fresh /\ t_states (table s) !! fresh = None /\
        table s' = t_bind (table s) i fresh ttl
    end) /\
  match t_names (table s) !! i, t_states (table s) !! id with
  | Some _, _ => register_with_id_inner s i id ttl = (Err (DuplicateInstrument i), s)
  | None, Some _ => register_with_id_inner s i id ttl = (Err (DuplicateId id), s)
  | None, None => exists s', register_with_id_inner s i id ttl = (Ok id, s') /\
      table s' = t_bind (table s) i id ttl
  end.
Proof.
  intros Hw Hl. split.
  - destruct (register_inner_cases s i ttl Hw Hl) as [[[x Hx] E]|(fresh & s' & E & Hb)]; rewrite E.
    + eexists _, _. split; [done|]. unfold resolve in Hx. cbn. by rewrite Hx.
    + eexists _, _. split; [done|]. destruct (table_bound _ _ _ _ _ Hw Hb) as (Et & Hf & ->). eauto.
  - destruct (register_with_id_cases s i id ttl Hw Hl) as [[[x Hx] E]|[(Hx & Hs & E)|(s' & E & Hb)]]; rewrite E.
    + unfold resolve in Hx. cbn. by rewrite Hx.
    + unfold resolve in Hx. cbn. rewrite Hx, states_lookup.
      apply slot_of_is_Some in Hs as [st ->]; [done|exact Hw].
    + destruct (table_bound _ _ _ _ _ Hw Hb) as (Et & -> & ->). eauto.
Qed.

(** Publishing by name always returns: to the slot of a known name, or to a new
    one bound on the way, and a second publication finds the same identifier. *)
Theorem push_by_instrument_total s i now quote age :
  registry_wf s -> Z.of_nat (length (slots s)) < 2 ^ 32 ->
  exists id s', push_by_instrument s i now quote age = Some (id, s') /\ registry_wf s' /\
    let T := match resolve s i with Some _ => table s | None => t_bind (table s) i id None end in
    t_write T id (fun st => store_group now quote age st DEFAULT_ACCOUNT_GROUP) = Some (table s') /\
    resolve s' i = Some id /\
    (forall now' quote' age', exists s'', push_by_instrument s' i now' quote' age' = Some (id, s'')).
Proof.
  intros Hw Hl. unfold push_by_instrument.
  destruct (resolve_or_register_cases s i Hw Hl) as (id & k & s1 & E & Hk & Hn & H). rewrite E. cbn [mbind option_bind].
  eexists id, _. split; [done|].
  assert (Hw1 : registry_wf s1) by (destruct H as [[_ ->]|Hb]; [done|by eapply bound_wf]).
  assert (Hw2 : registry_wf (store_default_at s1 k now quote age)).
  { by eapply registry_wf_same, Hw1; [|apply with_slot_length]. }
  split_and!; [done| |done|].
  - unfold store_default_at. rewrite <- (table_with_slot s1 id k _ Hw1 Hk). destruct H as [[Hr ->]|Hb].
    + by rewrite Hr.
    + pose proof Hb as (Hi & _). unfold resolve. rewrite Hi.
      by destruct (table_bound _ _ _ _ _ Hw Hb) as (-> & _).
  - intros now' quote' age'. unfold resolve_or_register_named. unfold resolve in Hn. cbn. rewrite Hn, Hk.
    by eexists.
Qed.

(** *** Reads *)

(** The memo holds nothing before the caller is asked, its first answer after. *)
Definition cell_ok (info : AccountInfo) (c : GroupMemo) : Prop :=
  c = group_cell_new \/ c = mkGroupMemo (Some (info 0%nat)) 1.

Lemma resolve_group_spec info c : cell_ok info c ->
  resolve_group info c = (info 0%nat, mkGroupMemo (Some (info 0%nat)) 1).
Proof. by intros [-> | ->]. Qed.

Lemma cell_ok_asked info c : cell_ok info c -> (group_asked c <= 1)%nat.
Proof. intros [-> | ->]; cbn; lia. Qed.

Lemma select_quote_spec q a info res c : cell_ok info c ->
  (select_quote q a info res c).1 = first_set (candidates q a (info 0%nat) res) /\
  cell_ok info (select_quote q a info res c).2.
Proof.
  intros Hc. unfold select_quote, candidates. destruct (sq_accounts q !! a) as [st|]; [done|].
  destruct res; cbn [first_set]; [done|rewrite resolve_group_spec by done..].
  - destruct (info 0%nat ≫= _); (split; [done|by right]).
  - destruct (info 0%nat ≫= _); [|destruct (_ !! _)]; (split; [done|by right]).
Qed.

Lemma group_tiers_spec m info c : cell_ok info c ->
  group_tiers m info c =
    (first_set [info 0%nat ≫= (m !!.); m !! DEFAULT_ACCOUNT_GROUP], mkGroupMemo (Some (info 0%nat)) 1).
Proof.
  intros Hc. unfold group_tiers. rewrite resolve_group_spec by done. cbn [first_set].
  destruct (info 0%nat ≫= _); [done|]. by destruct (_ !! DEFAULT_ACCOUNT_GROUP).
Qed.

Lemma first_set_app {A} (l k : list (option A)) : first_set (l ++ k) =
  match first_set l with Some x => Some x | None => first_set k end.
Proof. induction l as [|[x|] l IH]; [done..|]. exact IH. Qed.

(** The walk finds the first set tier; an unset gate is transparent where it
    proves the service-level tiers empty. *)
Lemma effective_ttl_spec d gate m g ttls a info c names sts : cell_ok info c ->
  (gate = false -> m = ∅ /\ g = ∅) ->
  (effective_ttl_observed d gate m g ttls a info c).1 = t_ttl (mkTable d m g names sts) ttls a (info 0%nat) /\
  cell_ok info (effective_ttl_observed d gate m g ttls a info c).2.
Proof.
  intros Hc Hg. unfold effective_ttl_observed, t_ttl, tiers. cbn [t_accounts t_groups t_default].
  change (?x :: ?y :: ?z :: ?l) with ([x] ++ [y; z] ++ l). rewrite !first_set_app. cbn [first_set].
  destruct (st_accounts ttls !! a) as [t|]; [done|]. rewrite group_tiers_spec by done. cbn [first_set].
  destruct (info 0%nat ≫= (st_groups ttls !!.)) as [t|]; [by split; [|right]|].
  destruct (st_groups ttls !! DEFAULT_ACCOUNT_GROUP) as [t|]; [by split; [|right]|].
  destruct gate.
  - destruct (m !! a) as [t|]; [by split; [|right]|]. rewrite group_tiers_spec by (by right). cbn [first_set].
    destruct (info 0%nat ≫= (g !!.)) as [t|]; [by split; [|right]|].
    destruct (g !! DEFAULT_ACCOUNT_GROUP) as [t|]; [by split; [|right]|].
    by destruct (st_instrument ttls); split; [|right| |right].
  - destruct (Hg eq_refl) as [-> ->]. rewrite !lookup_empty.
    replace (info 0%nat ≫= (λ j, (∅ : gmap AccountGroupId TtlSetting) !! j)) with (@None TtlSetting)
      by (destruct (info 0%nat); [symmetry; apply lookup_empty|done]).
    destruct (st_instrument ttls); (split; [done|by right]).
Qed.

Lemma get_slot_spec d gate m g st now a info res names sts : (gate = false -> m = ∅ /\ g = ∅) ->
  let r := get_slot (fun ttls => effective_ttl_observed d gate m g ttls a info) st now a info res in
  r.1 = match first_set (candidates (slot_quotes st) a (info 0%nat) res) with
        | None => Err QuoteUnavailable
        | Some q => if expired now q (t_ttl (mkTable d m g names sts) (slot_ttls st) a (info 0%nat))
                    then Err (QuoteExpired (qs_quote q)) else Ok (qs_quote q)
        end /\ (group_asked r.2 <= 1)%nat.
Proof.
  intros Hg. unfold get_slot. cbn zeta.
  destruct (select_quote_spec (slot_quotes st) a info res group_cell_new (or_introl eq_refl)) as [H1 H2].
  destruct (select_quote _ _ _ _ _) as [q c]. cbn [fst snd] in H1, H2. subst q.
  destruct (first_set _) as [q|]; [|split; [done|by eapply cell_ok_asked]].
  destruct (effective_ttl_spec d gate m g (slot_ttls st) a info c names sts H2 Hg) as [H3 H4].
  destruct (effective_ttl_observed _ _ _ _ _ _ _ _) as [t c']. cbn [fst snd] in H3, H4. subst t.
  split; [done|by eapply cell_ok_asked].
Qed.

Lemma get_table s now id a info res :
  service_wf (mkShared s 0) ->
  get s now id a info res = t_get (table s) now id a (info 0%nat) res /\
  (group_asked (get_observed (registry s) (slots s) (default_ttl s) (has_service_level_ttl s) (account_ttl s)
     (group_ttl s) now id a info res).2 <= 1)%nat.
Proof.
  intros [Hw _ Hg]. cbn [shared unmarked] in *. unfold get, get_observed, t_get, table. cbn [t_states].
  rewrite states_lookup. destruct (by_id (registry s) !! id) as [k|] eqn:Hk.
  - destruct (slot_of_Some s id k Hw Hk) as (st & Hst & ->). rewrite Hst.
    exact (get_slot_spec _ _ _ _ st now a info res (by_instrument (registry s)) (states s)
             (fun H => Hg H eq_refl)).
  - unfold slot_of. rewrite Hk. split; [done|cbn; lia].
Qed.

(** A read answers what the table answers: the first non-empty bucket the
    resolution allows, in the order account, group, default group, held against
    the first set tier of the cascade, whatever bucket the quote came from; the
    caller is asked for the group at most once and only its first answer
    counts. *)
Theorem get_spec s now id a info res :
  service_wf (mkShared s 0) ->
  get s now id a info res = t_get (table s) now id a (info 0%nat) res /\
  (group_asked (get_observed (registry s) (slots s) (default_ttl s) (has_service_level_ttl s) (account_ttl s)
     (group_ttl s) now id a info res).2 <= 1)%nat.
Proof. apply get_table. Qed.

(** ** Interleaving *)

(** An operation that found its identifier and then waited for the slots, while
    other threads ran [y] out of [x], does what the whole operation does at [y];
    one that did not find it fails as at [x] and changes nothing.  Publishing by
    name, its slot resolved at [x], writes the slot that belongs to the name at
    [y]. *)
Theorem phased_operations_atomic x y id : service_wf x -> rtc shared_step x y ->
  let s := shared x in let s' := shared y in
  match by_id (registry s) !! id with
  | Some k =>
      (forall f, with_slot_ttls_observed (registry s) s' id f = with_slot_ttls s' id f) /\
      (forall now q age, store_default_by_id_observed (registry s) s' id now q age = push s' id now q age) /\
      (forall now q age l g, store_for_observed (registry s) s' id now q age l g = push_for s' id now q age l g) /\
      clear_observed (registry s) s' id = clear s' id /\
      (forall d gate m g now a info res, get_observed (registry s) (slots s') d gate m g now id a info res =
         get_observed (registry s') (slots s') d gate m g now id a info res) /\
      (forall now q age, t_write (table s') id (fun st => store_group now q age st DEFAULT_ACCOUNT_GROUP) =
         Some (table (store_default_at s' k now q age)))
  | None =>
      (forall f, with_slot_ttls_observed (registry s) s' id f = (Err (mkUnknownInstrumentId id), s')) /\
      (forall now q age, store_default_by_id_observed (registry s) s' id now q age =
         (Err (mkUnknownInstrumentId id), s')) /\
      (forall now q age l g, (store_for_observed (registry s) s' id now q age l g).2 = s') /\
      clear_observed (registry s) s' id = s'
  end.
Proof.
  intros Hw Hs. destruct (shared_steps_extend x y Hw Hs) as [(Hi & _) Hy]. cbn zeta.
  unfold with_slot_ttls, with_slot_ttls_observed, push, store_default_by_id_observed, slot_for_id, push_for,
    store_for_observed, clear, clear_observed, get_observed.
  destruct (by_id (registry (shared x)) !! id) as [k|] eqn:Hk.
  - rewrite (lookup_weaken _ _ _ _ Hk Hi). split_and!; try done.
    intros now q age. apply table_with_slot; [apply Hy|by eapply lookup_weaken].
  - split_and!; [done|done| |done]. by intros now q age [] [].
Qed.

(** A service-level lifetime whose setter had returned at [x] is never skipped by a
    read that looks at the gate later, and it is in the tables unless cleared. *)
Lemma gate_stays_set x y : service_wf x -> rtc shared_step x y ->
  has_service_level_ttl (shared x) = true -> has_service_level_ttl (shared y) = true.
Proof. intros Hw Hs. by destruct (shared_steps_extend x y Hw Hs) as [(_ & _ & _ & _ & H) _]. Qed.

(** ** Freshness *)

(** Saturation is invisible: against any lifetime a [Duration] can hold, the age
    compares as if it were exact. *)
Lemma expired_exact now q ttl : ttl <= DURATION_MAX ->
  expired now q (Some ttl) = (ttl <=? Z.max 0 (now - qs_pushed_at q) + qs_source_age q).
Proof.
  intros H. unfold expired, effective_age, duration_saturating_add, saturating_duration_since.
  destruct (Z.leb_spec ttl (Z.max 0 (now - qs_pushed_at q) + qs_source_age q));
    [apply Z.leb_le|apply Z.leb_gt]; lia.
Qed.

Lemma expired_monotone now now' q ttl : now <= now' -> expired now q ttl = true -> expired now' q ttl = true.
Proof.
  intros H. destruct ttl as [ttl|]; [|done]. unfold expired, effective_age, duration_saturating_add,
    saturating_duration_since. rewrite !Z.leb_le. lia.
Qed.

(** Between changes a quote only gets older: once a read reports it expired every
    later read does, with the same quote, and one still live was live at every
    earlier moment. *)
Theorem expiry_is_final T now now' id a g res : now <= now' ->
  (forall q, t_get T now id a g res = Err (QuoteExpired q) -> t_get T now' id a g res = Err (QuoteExpired q)) /\
  (forall q, t_get T now' id a g res = Ok q -> t_get T now id a g res = Ok q) /\
  (t_get T now id a g res = Err QuoteUnavailable <-> t_get T now' id a g res = Err QuoteUnavailable).
Proof.
  intros Hle. unfold t_get. destruct (t_states T !! id) as [st|]; [|by split_and!].
  destruct (first_set _) as [q0|]; [|by split_and!].
  destruct (expired now q0 _) eqn:E.
  - rewrite (expired_monotone now now' _ _ Hle E). by split_and!.
  - destruct (expired now' q0 _); split_and!; try done; naive_solver.
Qed.

(** ** Publication and reading *)

Lemma store_account_fold now q age l : forall st,
  let st' := fold_left (store_account now q age) l st in
  slot_ttls st' = slot_ttls st /\ sq_groups (slot_quotes st') = sq_groups (slot_quotes st) /\
  forall a, sq_accounts (slot_quotes st') !! a =
    if decide (a ∈ l) then Some (mkQuoteState q now age) else sq_accounts (slot_quotes st) !! a.
Proof.
  induction l as [|b l IH]; intros st; cbn [fold_left].
  - split_and!; [done|done|]. intros a. by rewrite decide_False by apply not_elem_of_nil.
  - destruct (IH (store_account now q age st b)) as (E1 & E2 & E3). split_and!; [by rewrite E1|by rewrite E2|].
    intros a. rewrite E3. destruct (decide (a ∈ l)) as [Hl|Hl]; [by rewrite decide_True by set_solver|].
    cbn. unfold store_into. destruct (decide (a = b)) as [->|Hne].
    + by rewrite lookup_insert_eq, decide_True by set_solver.
    + by rewrite lookup_insert_ne, decide_False by set_solver.
Qed.

Lemma store_group_fold now q age l : forall st,
  let st' := fold_left (store_group now q age) l st in
  slot_ttls st' = slot_ttls st /\ sq_accounts (slot_quotes st') = sq_accounts (slot_quotes st) /\
  forall g, sq_groups (slot_quotes st') !! g =
    if decide (g ∈ l) then Some (mkQuoteState q now age) else sq_groups (slot_quotes st) !! g.
Proof.
  induction l as [|b l IH]; intros st; cbn [fold_left].
  - split_and!; [done|done|]. intros a. by rewrite decide_False by apply not_elem_of_nil.
  - destruct (IH (store_group now q age st b)) as (E1 & E2 & E3). split_and!; [by rewrite E1|by rewrite E2|].
    intros a. rewrite E3. destruct (decide (a ∈ l)) as [Hl|Hl]; [by rewrite decide_True by set_solver|].
    cbn. unfold store_into. destruct (decide (a = b)) as [->|Hne].
    + by rewrite lookup_insert_eq, decide_True by set_solver.
    + by rewrite lookup_insert_ne, decide_False by set_solver.
Qed.

(** A publication changes every listed bucket of the slot to the one new state
    and nothing else. *)
Lemma store_targets_spec now q age accounts groups st :
  let st' := store_targets now q age accounts groups st in
  slot_ttls st' = slot_ttls st /\
  (forall a, sq_accounts (slot_quotes st') !! a =
     if decide (a ∈ accounts) then Some (mkQuoteState q now age) else sq_accounts (slot_quotes st) !! a) /\
  (forall g, sq_groups (slot_quotes st') !! g =
     if decide (g ∈ groups) then Some (mkQuoteState q now age) else sq_groups (slot_quotes st) !! g).
Proof.
  unfold store_targets. destruct (store_account_fold now q age accounts st) as (A1 & A2 & A3).
  destruct (store_group_fold now q age groups (fold_left (store_account now q age) accounts st)) as (B1 & B2 & B3).
  split_and!; [by rewrite B1|intros a; by rewrite B2|intros g; by rewrite B3, A2].
Qed.

(** What is published is what the targets read, until it expires: the listed
    accounts whatever resolution they ask for, the members of a listed group that
    have no quote of their own and ask for their group's.  Readers outside the
    targets, and readers of any other instrument, read what they read before. *)
Theorem publish_read_roundtrip s s' id t q age accounts groups now a g res :
  registry_wf s -> push_for s id t q age accounts groups = (Ok tt, s') ->
  let answer := match slot_of s id with
    | Some st => if expired now (mkQuoteState q t age) (t_ttl (table s) (slot_ttls st) a g)
                 then Err (QuoteExpired q) else Ok q
    | None => Err UnknownInstrument
    end in
  let read := fun T id => t_get T now id a g res in
  (a ∈ accounts -> read (table s') id = answer) /\
  (slot_of s id ≫= (fun st => sq_accounts (slot_quotes st) !! a) = None -> a ∉ accounts -> res <> AccountOnly ->
     (exists x, g = Some x /\ x ∈ groups) -> read (table s') id = answer) /\
  (a ∉ accounts -> (forall x, g = Some x -> x ∉ groups) -> DEFAULT_ACCOUNT_GROUP ∉ groups ->
     read (table s') id = read (table s) id) /\
  (forall id', id' <> id -> read (table s') id' = read (table s) id').
Proof.
  intros Hw Hp. cbn zeta. unfold push_for, store_for_observed in Hp.
  assert (Hk : exists k, by_id (registry s) !! id = Some k /\
    s' = with_slot s k (store_targets t q age accounts groups)).
  { destruct (by_id (registry s) !! id) as [k|]; [|by destruct accounts, groups].
    exists k. split; [done|]. by destruct accounts, groups; simplify_eq. }
  destruct Hk as (k & Hk & ->). clear Hp. destruct (slot_of_Some s id k Hw Hk) as (st & _ & Hst).
  unfold t_get, table. cbn [t_states]. rewrite (with_slot_states s id k _ Hw Hk), lookup_alter_eq.
  rewrite !states_lookup, Hst. cbn [fmap option_fmap option_map mbind option_bind].
  destruct (store_targets_spec t q age accounts groups st) as (E1 & E2 & E3). rewrite E1.
  unfold candidates. rewrite E2. split_and!.
  - intros Ha. by rewrite decide_True.
  - intros Hn Ha Hr (x & -> & Hx). rewrite decide_False by done. rewrite Hn.
    destruct res; [done|..]; cbn [mbind option_bind first_set]; by rewrite E3, decide_True.
  - intros Ha Hg Hd. rewrite decide_False by done. rewrite E3, decide_False by done.
    replace (g ≫= (sq_groups (slot_quotes (store_targets t q age accounts groups st)) !!.))
      with (g ≫= (sq_groups (slot_quotes st) !!.)); [done|].
    destruct g as [x|]; [|done]. cbn [mbind option_bind]. rewrite E3. by rewrite decide_False by auto.
  - intros id' Hne. by rewrite lookup_alter_ne, states_lookup by done.
Qed.

End MarketDataFacts.
