(* ===== verification/FfiServices.v ===== *)
(** * FfiServices: the reference book and the market data service behind C handles

    src/crates/openpit-ffi/src/reference_book.rs and marketdata.rs. *)
From S2P Require Import Prelude.
From S2P Require Import Decimal.
From S2P Require Import Param.
From S2P Require Import ParamTypes.
From S2P Require Import Identifiers.
From S2P Require Import Utf8.
From S2P Require Import Policy.
From S2P Require Import Ffi.
From S2P Require Import FfiParam.
From S2P Require Import Locking.
From S2P Require Import Instruments.
From S2P Require Import ReferenceBook.
From S2P Require Import MarketData.
From stdpp Require Import pretty.
Open Scope Z_scope.

(** ** The reference book behind a C handle

    src/crates/openpit-ffi/src/reference_book.rs.  A handle is the book it points
    to, or null; a call returns what it answers with the book it leaves. *)

(** *** Settlement *)

Definition OPENPIT_SETTLEMENT_UNIT_BUSINESS_DAYS : Z := 0.
Definition OPENPIT_SETTLEMENT_UNIT_CALENDAR_DAYS : Z := 1.

Record OpenPitSettlementLag : Set := mkWireLag { wl_n : Z; wl_unit : Z }.
Record OpenPitSettlementScheme : Set := mkWireScheme { ws_delivery : OpenPitSettlementLag; ws_payment : OpenPitSettlementLag }.

Definition settlement_lag_from_raw (value : OpenPitSettlementLag) (field : string) : result string SettlementLag :=
  unit ← (if wl_unit value =? OPENPIT_SETTLEMENT_UNIT_BUSINESS_DAYS then Ok BusinessDays
          else if wl_unit value =? OPENPIT_SETTLEMENT_UNIT_CALENDAR_DAYS then Ok CalendarDays
          else Err (field +:+ ".unit has invalid settlement-unit value " +:+ pretty (wl_unit value)));
  Ok (mkSettlementLag (wl_n value) unit).

Definition settlement_lag_to_raw (value : SettlementLag) : OpenPitSettlementLag :=
  mkWireLag (lag_n value)
    match lag_unit value with
    | BusinessDays => OPENPIT_SETTLEMENT_UNIT_BUSINESS_DAYS
    | CalendarDays => OPENPIT_SETTLEMENT_UNIT_CALENDAR_DAYS
    end.

Definition to_scheme (self : OpenPitSettlementScheme) : result string SettlementScheme :=
  delivery ← settlement_lag_from_raw (ws_delivery self) "delivery";
  payment ← settlement_lag_from_raw (ws_payment self) "payment";
  Ok (mkSettlementScheme delivery payment).

Definition from_scheme (value : SettlementScheme) : OpenPitSettlementScheme :=
  mkWireScheme (settlement_lag_to_raw (scheme_delivery value)) (settlement_lag_to_raw (scheme_payment value)).

(** *** Calls *)

Inductive OpenPitReferenceBookRegisterStatus : Set :=
| RegisterOk | RegisterDuplicateId | RegisterDuplicateInstrument | RegisterError.
Inductive OpenPitReferenceBookStatus : Set := BookOk | BookUnknownInstrument | BookError.

(** The book behind the pointer, or null. *)
Definition OpenPitReferenceBook : Type := option ReferenceBook.
Implicit Types (p : Places) (book : OpenPitReferenceBook).

Definition openpit_create_reference_book : OpenPitReferenceBook := Some book_new.

Abbreviation RegisterCall := (StatusCall OpenPitReferenceBookRegisterStatus Z).

(** What both registrations ask of their arguments. *)
Definition book_register_args p book (instrument : option OpenPitInstrument) :
    result RegisterCall (ReferenceBook * Instrument) :=
  book ← ok_or book (refuse p RegisterError "reference book is null");
  instrument ← ok_or instrument (refuse p RegisterError "instrument is null");
  _ ← (if out_null p then Err (refuse p RegisterError "out_id is null") else Ok tt);
  instrument ← map_err (mkStatus RegisterError None) (import_required_instrument p instrument);
  Ok (book, instrument).

(** The errors have no variant but these two. *)
Definition register_answer (r : result ReferenceBookRegistrationError InstrumentId) : RegisterCall :=
  match r with
  | Ok instrument_id => mkStatus RegisterOk (Some (instrument_as_u64 instrument_id)) None
  | Err (Book_DuplicateInstrument _) => mkStatus RegisterDuplicateInstrument None None
  | Err (Book_DuplicateId _) => mkStatus RegisterDuplicateId None None
  end.

(** [None] only when every identifier is taken, where the call does not return. *)
Definition openpit_reference_book_register p book (instrument : option OpenPitInstrument) :
    option (RegisterCall * OpenPitReferenceBook) :=
  match book_register_args p book instrument with
  | Err refused => Some (refused, book)
  | Ok (inner, instrument) =>
      '(r, inner) ← book_register inner instrument;
      Some (register_answer r, Some inner)
  end.

Definition openpit_reference_book_register_with_id p book (instrument : option OpenPitInstrument) (instrument_id : Z) :
    RegisterCall * OpenPitReferenceBook :=
  match book_register_args p book instrument with
  | Err refused => (refused, book)
  | Ok (inner, instrument) =>
      let '(r, inner) := book_register_with_id inner instrument (mkInstrumentId instrument_id) in
      (register_answer r, Some inner)
  end.

(** What the call writes to [out_id], and [None] for [false]. *)
Definition openpit_reference_book_resolve book (instrument : option OpenPitInstrument) (out_id_null : bool) : option Z :=
  match book, instrument with
  | Some inner, Some instrument =>
      if out_id_null then None
      else match import_instrument instrument with
           | Ok (Some instrument) => instrument_as_u64 <$> book_resolve inner instrument
           | _ => None
           end
  | _, _ => None
  end.

(** The error place of a call that has no result place. *)
Definition error_place (error_null : bool) : Places := mkPlaces false error_null.

Definition scheme_answer (r : result UnknownReferenceBookInstrumentId unit * ReferenceBook) :
    StatusCall OpenPitReferenceBookStatus Empty_set * OpenPitReferenceBook :=
  (mkStatus match r.1 with Ok _ => BookOk | Err _ => BookUnknownInstrument end None None, Some r.2).

Definition openpit_reference_book_set_settlement_scheme (error_null : bool) book (instrument_id : Z)
    (settlement_scheme : OpenPitSettlementScheme) : StatusCall OpenPitReferenceBookStatus Empty_set * OpenPitReferenceBook :=
  match book with
  | None => (refuse (error_place error_null) BookError "reference book is null", book)
  | Some inner =>
      match to_scheme settlement_scheme with
      | Err error => (refuse (error_place error_null) BookError error, book)
      | Ok scheme => scheme_answer (set_settlement_scheme inner (mkInstrumentId instrument_id) scheme)
      end
  end.

Definition openpit_reference_book_clear_settlement_scheme (error_null : bool) book (instrument_id : Z) :
    StatusCall OpenPitReferenceBookStatus Empty_set * OpenPitReferenceBook :=
  match book with
  | None => (refuse (error_place error_null) BookError "reference book is null", book)
  | Some inner => scheme_answer (clear_settlement_scheme inner (mkInstrumentId instrument_id))
  end.

(** The result is what the call writes to [out_is_set], with the scheme when it
    also writes [out_scheme]. *)
Definition openpit_reference_book_get_settlement_scheme (error_null : bool) book (instrument_id : Z)
    (out_scheme_null out_is_set_null : bool) : StatusCall OpenPitReferenceBookStatus (option OpenPitSettlementScheme) :=
  let p := error_place error_null in
  answer
    (inner ← ok_or book (refuse p BookError "reference book is null");
     _ ← (if out_scheme_null then Err (refuse p BookError "out_scheme is null") else Ok tt);
     _ ← (if out_is_set_null then Err (refuse p BookError "out_is_set is null") else Ok tt);
     Ok match settlement_scheme inner (mkInstrumentId instrument_id) with
        | Ok (Some scheme) => mkStatus BookOk (Some (Some (from_scheme scheme))) None
        | Ok None => mkStatus BookOk (Some None) None
        | Err _ => mkStatus BookUnknownInstrument None None
        end).

(** ** The market data service behind a C handle

    src/crates/openpit-ffi/src/marketdata.rs.  A handle refers to a service of the
    heap [Services], which its clones share, or is null; a call returns what it
    answers with the heap it leaves, and [None] where it aborts or does not return:
    an asserted handle that is null, a duration that does not fit, a registration
    with every identifier taken. *)

(** *** Lifetimes *)

Record OpenPitMarketDataQuoteTtl : Set := mkWireTtl { qt_secs : Z; qt_nanos : Z; qt_is_infinite : bool }.

(** [Duration::new]: the seconds the nanoseconds carry must fit. *)
Definition duration_new (secs nanos : Z) : option Z :=
  if secs + nanos / 1000000000 <=? U64_MAX then Some (secs * 1000000000 + nanos) else None.

Definition to_quote_ttl (self : OpenPitMarketDataQuoteTtl) : option QuoteTtl :=
  if qt_is_infinite self then Some QuoteInfinite
  else QuoteWithin <$> duration_new (qt_secs self) (qt_nanos self).

Definition openpit_create_marketdata_quote_ttl_infinite : OpenPitMarketDataQuoteTtl := mkWireTtl 0 0 true.
Definition openpit_create_marketdata_quote_ttl_within (secs nanos : Z) : OpenPitMarketDataQuoteTtl :=
  mkWireTtl secs nanos false.

Definition duration_from_parts_saturating (secs nanos : Z) : Z := duration_saturating_add (secs * 1000000000) nanos.

(** *** Resolution *)

Definition OPENPIT_MARKET_DATA_QUOTE_RESOLUTION_ACCOUNT_ONLY : Z := 0.
Definition OPENPIT_MARKET_DATA_QUOTE_RESOLUTION_ACCOUNT_THEN_GROUP : Z := 1.
Definition OPENPIT_MARKET_DATA_QUOTE_RESOLUTION_ACCOUNT_THEN_GROUP_THEN_DEFAULT : Z := 2.

Definition import_quote_resolution (value : Z) : option QuoteResolution :=
  if value =? OPENPIT_MARKET_DATA_QUOTE_RESOLUTION_ACCOUNT_ONLY then Some AccountOnly
  else if value =? OPENPIT_MARKET_DATA_QUOTE_RESOLUTION_ACCOUNT_THEN_GROUP then Some AccountThenGroup
  else if value =? OPENPIT_MARKET_DATA_QUOTE_RESOLUTION_ACCOUNT_THEN_GROUP_THEN_DEFAULT then
    Some AccountThenGroupThenDefault
  else None.

Definition import_group (raw : Z) : AccountGroupId :=
  if raw =? 0 then DEFAULT_ACCOUNT_GROUP
  else match group_from_u32 raw with Ok group => group | Err _ => DEFAULT_ACCOUNT_GROUP end.

(** What the resolver answers; any other byte counts as [Failed]. *)
Inductive OpenPitMarketDataAccountGroupResolution : Set := Resolution_NoGroup | Resolution_Found | Resolution_Failed.

Definition resolution_u8 (r : OpenPitMarketDataAccountGroupResolution) : Z :=
  match r with Resolution_NoGroup => 0 | Resolution_Found => 1 | Resolution_Failed => 2 end.

(** [CallbackAccountInfo]: the byte the callback returns the [n]-th time it is
    asked, and the group it wrote. *)
Definition CallbackAccountInfo : Type := nat -> Z * Z.

Definition callback_group (self : CallbackAccountInfo) : AccountInfo := fun n =>
  let '(value, raw) := self n in
  if value =? resolution_u8 Resolution_Found then Some (import_group raw) else None.

(** The cell [failed] after [asked] calls. *)
Definition callback_failed (self : CallbackAccountInfo) (asked : nat) : bool :=
  existsb (fun n => let value := (self n).1 in
             negb (value =? resolution_u8 Resolution_Found) && negb (value =? resolution_u8 Resolution_NoGroup))
    (seq 0 asked).

Inductive OpenPitMarketDataGetStatus : Set :=
| Get_Found | Get_Unavailable | Get_UnknownInstrument | Get_QuoteExpired | Get_AccountGroupResolutionFailed | Get_Error.

Inductive OpenPitMarketDataRegisterStatus : Set :=
| Md_Ok | Md_AlreadyRegistered | Md_DuplicateId | Md_DuplicateInstrument | Md_UnknownInstrument | Md_Error | Md_NoTarget.

Section MarketDataService.
Context {D : DecimalOps} {DW : DecimalWire} {DF : DecimalFormat}.

(** *** Quotes *)

Record OpenPitMarketDataQuote : Type := mkWireQuote {
  wq_mark : Optional OpenPitParamPrice;
  wq_bid : Optional OpenPitParamPrice;
  wq_ask : Optional OpenPitParamPrice
}.

Definition export_price (price : Price) : OpenPitParamPrice := mkParam (from_decimal (sg_to_decimal price)).

Definition export_optional_price (price : option Price) : Optional OpenPitParamPrice :=
  optional OpenPitParam_default export_price price.

Definition from_quote (quote : Quote) : OpenPitMarketDataQuote :=
  mkWireQuote (export_optional_price (quote_mark quote)) (export_optional_price (quote_bid quote))
    (export_optional_price (quote_ask quote)).

(** One field of [to_quote]. *)
Definition to_quote_field (field : string) (value : Optional OpenPitParamPrice) (set : Quote -> Price -> Quote)
    (quote : Quote) : result string Quote :=
  if opt_is_set value
  then price ← map_err (fun e => field +:+ ": " +:+ e) (to_param (opt_value value)); Ok (set quote price)
  else Ok quote.

Definition to_quote (self : OpenPitMarketDataQuote) : result string Quote :=
  quote ← to_quote_field "mark" (wq_mark self) with_mark quote_new;
  quote ← to_quote_field "bid" (wq_bid self) with_bid quote;
  to_quote_field "ask" (wq_ask self) with_ask quote.

Definition openpit_create_marketdata_quote : OpenPitMarketDataQuote :=
  mkWireQuote (optional OpenPitParam_default export_price None) (optional OpenPitParam_default export_price None)
    (optional OpenPitParam_default export_price None).

(** *** Handles *)

Record OpenPitMarketDataService : Type := mkServiceHandle { md_handle : nat; md_mode : RuntimeSyncMode }.

Definition Services : Type := list MarketDataService.
Implicit Types (services : Services) (service : option OpenPitMarketDataService).

(** The call of the service behind a handle. *)
Definition on_service {A} services (h : OpenPitMarketDataService)
    (f : MarketDataService -> option (A * MarketDataService)) : option (A * Services) :=
  inner ← services !! md_handle h;
  '(a, inner) ← f inner;
  Some (a, <[md_handle h := inner]> services).

Definition openpit_create_marketdata_service p services (mode : Z) (ttl : OpenPitMarketDataQuoteTtl) :
    option (option OpenPitMarketDataService * option string * Services) :=
  match (if mode =? 0 then Some RuntimeNone else if mode =? 1 then Some RuntimeFull else None) with
  | None =>
      Some (None,
            write_error p ("openpit_create_marketdata_service: invalid mode byte " +:+ pretty mode +:+
                           ", expected 0 (None) or 1 (Full)"), services)
  | Some sync_mode =>
      ttl ← to_quote_ttl ttl;
      Some (Some (mkServiceHandle (length services) sync_mode), None, services ++ [build ttl])
  end.

Definition openpit_marketdata_service_clone service : option OpenPitMarketDataService :=
  svc ← service; Some (mkServiceHandle (md_handle svc) (md_mode svc)).

(** *** Registration *)

Abbreviation RegisterCall := (StatusCall OpenPitMarketDataRegisterStatus Z).

(** What every registration asks of its arguments. *)
Definition register_args p service (instrument : option OpenPitInstrument) :
    result RegisterCall (OpenPitMarketDataService * Instrument) :=
  service ← ok_or service (refuse p Md_Error "market-data service is null");
  instrument ← ok_or instrument (refuse p Md_Error "instrument is null");
  _ ← (if out_null p then Err (refuse p Md_Error "out_id is null") else Ok tt);
  parsed ← map_err (mkStatus Md_Error None) (import_required_instrument p instrument);
  Ok (service, parsed).

Definition registered (id : InstrumentId) : RegisterCall := mkStatus Md_Ok (Some (instrument_as_u64 id)) None.

(** The errors have no variants but these. *)
Definition auto_answer (r : result AlreadyRegistered InstrumentId) : RegisterCall :=
  match r with Ok id => registered id | Err _ => mkStatus Md_AlreadyRegistered None None end.
Definition with_id_answer (r : result RegistrationError InstrumentId) : RegisterCall :=
  match r with
  | Ok id => registered id
  | Err (DuplicateId _) => mkStatus Md_DuplicateId None None
  | Err (DuplicateInstrument _) => mkStatus Md_DuplicateInstrument None None
  end.

(** A call that refuses its arguments or runs on the service. *)
Definition registering p services service (instrument : option OpenPitInstrument)
    (f : Instrument -> MarketDataService -> option (RegisterCall * MarketDataService)) :
    option (RegisterCall * Services) :=
  match register_args p service instrument with
  | Err refused => Some (refused, services)
  | Ok (svc, parsed) => on_service services svc (f parsed)
  end.

Definition openpit_marketdata_service_register p services service (instrument : option OpenPitInstrument) :
    option (RegisterCall * Services) :=
  registering p services service instrument (fun parsed inner =>
    '(r, inner) ← register inner parsed; Some (auto_answer r, inner)).

Definition openpit_marketdata_service_register_with_ttl p services service (instrument : option OpenPitInstrument)
    (ttl : OpenPitMarketDataQuoteTtl) : option (RegisterCall * Services) :=
  registering p services service instrument (fun parsed inner =>
    ttl ← to_quote_ttl ttl;
    '(r, inner) ← register_with_ttl inner parsed ttl; Some (auto_answer r, inner)).

Definition openpit_marketdata_service_register_with_id p services service (instrument : option OpenPitInstrument)
    (instrument_id : Z) : option (RegisterCall * Services) :=
  registering p services service instrument (fun parsed inner =>
    let '(r, inner) := register_with_id inner parsed (mkInstrumentId instrument_id) in
    Some (with_id_answer r, inner)).

Definition openpit_marketdata_service_register_with_id_and_ttl p services service
    (instrument : option OpenPitInstrument) (instrument_id : Z) (ttl : OpenPitMarketDataQuoteTtl) :
    option (RegisterCall * Services) :=
  registering p services service instrument (fun parsed inner =>
    ttl ← to_quote_ttl ttl;
    let '(r, inner) := register_with_id_and_ttl inner parsed (mkInstrumentId instrument_id) ttl in
    Some (with_id_answer r, inner)).

(** *** Lifetimes *)

(** A call whose handle is asserted. *)
Definition asserting services service (f : MarketDataService -> option MarketDataService) : option Services :=
  svc ← service;
  snd <$> on_service services svc (fun inner => (pair tt) <$> f inner).

Definition openpit_marketdata_service_set_account_ttl services service (account_id : Z)
    (ttl : OpenPitMarketDataQuoteTtl) : option Services :=
  asserting services service (fun inner =>
    ttl ← to_quote_ttl ttl; Some (set_account_ttl inner (mkAccountId account_id) ttl)).

Definition openpit_marketdata_service_clear_account_ttl services service (account_id : Z) : option Services :=
  asserting services service (fun inner => Some (clear_account_ttl inner (mkAccountId account_id))).

Definition openpit_marketdata_service_set_account_group_ttl services service (account_group_id : Z)
    (ttl : OpenPitMarketDataQuoteTtl) : option Services :=
  asserting services service (fun inner =>
    ttl ← to_quote_ttl ttl; Some (set_account_group_ttl inner (import_group account_group_id) ttl)).

Definition openpit_marketdata_service_clear_account_group_ttl services service (account_group_id : Z) :
    option Services :=
  asserting services service (fun inner => Some (clear_account_group_ttl inner (import_group account_group_id))).

Definition openpit_marketdata_service_clear services service (instrument_id : Z) : option Services :=
  asserting services service (fun inner => Some (clear inner (mkInstrumentId instrument_id))).

(** A call that answers a status, a null handle among them. *)
Definition updating services service
    (f : MarketDataService -> option (result UnknownInstrumentId unit * MarketDataService)) :
    option (OpenPitMarketDataRegisterStatus * Services) :=
  match service with
  | None => Some (Md_Error, services)
  | Some svc =>
      on_service services svc (fun inner =>
        '(r, inner) ← f inner;
        Some (match r with Ok _ => Md_Ok | Err _ => Md_UnknownInstrument end, inner))
  end.

Definition openpit_marketdata_service_set_instrument_ttl services service (instrument_id : Z)
    (ttl : OpenPitMarketDataQuoteTtl) :=
  updating services service (fun inner =>
    ttl ← to_quote_ttl ttl; Some (set_instrument_ttl inner (mkInstrumentId instrument_id) ttl)).

Definition openpit_marketdata_service_clear_instrument_ttl services service (instrument_id : Z) :=
  updating services service (fun inner => Some (clear_instrument_ttl inner (mkInstrumentId instrument_id))).

Definition openpit_marketdata_service_set_instrument_account_ttl services service (instrument_id account_id : Z)
    (ttl : OpenPitMarketDataQuoteTtl) :=
  updating services service (fun inner =>
    ttl ← to_quote_ttl ttl;
    Some (set_instrument_account_ttl inner (mkInstrumentId instrument_id) (mkAccountId account_id) ttl)).

Definition openpit_marketdata_service_clear_instrument_account_ttl services service (instrument_id account_id : Z) :=
  updating services service (fun inner =>
    Some (clear_instrument_account_ttl inner (mkInstrumentId instrument_id) (mkAccountId account_id))).

Definition openpit_marketdata_service_set_instrument_account_group_ttl services service
    (instrument_id account_group_id : Z) (ttl : OpenPitMarketDataQuoteTtl) :=
  updating services service (fun inner =>
    ttl ← to_quote_ttl ttl;
    Some (set_instrument_account_group_ttl inner (mkInstrumentId instrument_id) (import_group account_group_id) ttl)).

Definition openpit_marketdata_service_clear_instrument_account_group_ttl services service
    (instrument_id account_group_id : Z) :=
  updating services service (fun inner =>
    Some (clear_instrument_account_group_ttl inner (mkInstrumentId instrument_id) (import_group account_group_id))).

(** *** Publication *)

Abbreviation PushCall := (StatusCall OpenPitMarketDataRegisterStatus Empty_set).

(** What both pushes by identifier ask first, and the call they make. *)
Definition pushing (error_null : bool) services service (quote : OpenPitMarketDataQuote)
    (f : Quote -> MarketDataService -> OpenPitMarketDataRegisterStatus * MarketDataService) :
    option (PushCall * Services) :=
  let p := mkPlaces false error_null in
  match service with
  | None => Some (refuse p Md_Error "market-data service is null", services)
  | Some svc =>
      match to_quote quote with
      | Err message => Some (refuse p Md_Error message, services)
      | Ok parsed =>
          on_service services svc (fun inner =>
            let '(status, inner) := f parsed inner in Some (mkStatus status None None, inner))
      end
  end.

(** [now] is what the service's clock answers. *)
Definition openpit_marketdata_service_push (error_null : bool) services service (now instrument_id : Z)
    (quote : OpenPitMarketDataQuote) (source_age_secs source_age_nanos : Z) : option (PushCall * Services) :=
  pushing error_null services service quote (fun parsed inner =>
    let '(r, inner) :=
      push inner (mkInstrumentId instrument_id) now parsed
        (duration_from_parts_saturating source_age_secs source_age_nanos) in
    (match r with Ok _ => Md_Ok | Err _ => Md_UnknownInstrument end, inner)).

(** The lists are the words the pointers show, read as they are. *)
Definition openpit_marketdata_service_push_for (error_null : bool) services service (now instrument_id : Z)
    (quote : OpenPitMarketDataQuote) (source_age_secs source_age_nanos : Z) (account_ids account_group_ids : list Z) :
    option (PushCall * Services) :=
  pushing error_null services service quote (fun parsed inner =>
    let '(r, inner) :=
      push_for inner (mkInstrumentId instrument_id) now parsed
        (duration_from_parts_saturating source_age_secs source_age_nanos)
        (mkAccountId <$> account_ids) (mkAccountGroupId <$> account_group_ids) in
    (match r with
     | Ok _ => Md_Ok
     | Err (PushFor_UnknownInstrument _) => Md_UnknownInstrument
     | Err PushFor_NoTarget => Md_NoTarget
     end, inner)).

Definition openpit_marketdata_service_push_by_instrument p services service (now : Z)
    (instrument : option OpenPitInstrument) (quote : OpenPitMarketDataQuote) (source_age_secs source_age_nanos : Z) :
    option (Call string Z * Services) :=
  let failed message := Some (mkCall false None (write_error p message), services) in
  match service, instrument with
  | None, _ => failed "market-data service is null"
  | Some _, None => failed "instrument is null"
  | Some svc, Some instrument =>
      if out_null p then failed "out_id is null"
      else
        match import_required_instrument p instrument with
        | Err error => Some (mkCall false None error, services)
        | Ok parsed_instrument =>
            match to_quote quote with
            | Err message => failed message
            | Ok parsed_quote =>
                on_service services svc (fun inner =>
                  '(id, inner) ← push_by_instrument inner parsed_instrument now parsed_quote
                                   (duration_from_parts_saturating source_age_secs source_age_nanos);
                  Some (mkCall true (Some (instrument_as_u64 id)) None, inner))
            end
        end
  end.

(** *** Reading *)

(** The status, the quote where one is written, and how often the resolver was
    asked. *)
Record GetCall : Type := mkGetCall {
  gc_status : OpenPitMarketDataGetStatus;
  gc_quote : option OpenPitMarketDataQuote;
  gc_asked : nat
}.

Definition get_refused : GetCall := mkGetCall Get_Error None 0.

Definition get_answer (resolve : CallbackAccountInfo) (outcome : result MarketDataError Quote) (asked : nat) : GetCall :=
  if callback_failed resolve asked then mkGetCall Get_AccountGroupResolutionFailed None asked
  else match outcome with
       | Ok quote => mkGetCall Get_Found (Some (from_quote quote)) asked
       | Err UnknownInstrument => mkGetCall Get_UnknownInstrument None asked
       | Err QuoteUnavailable => mkGetCall Get_Unavailable None asked
       | Err (QuoteExpired quote) => mkGetCall Get_QuoteExpired (Some (from_quote quote)) asked
       end.

Definition openpit_marketdata_service_get (out_quote_null : bool) services service (now instrument_id account_id : Z)
    (resolve_account_group : option CallbackAccountInfo) (resolution : Z) : option GetCall :=
  match service, resolve_account_group, import_quote_resolution resolution with
  | Some svc, Some resolve, Some resolution =>
      if out_quote_null then Some get_refused
      else
        inner ← services !! md_handle svc;
        let '(outcome, memo) :=
          get_observed (registry inner) (slots inner) (default_ttl inner) (has_service_level_ttl inner)
            (account_ttl inner) (group_ttl inner) now (mkInstrumentId instrument_id) (mkAccountId account_id)
            (callback_group resolve) resolution in
        Some (get_answer resolve outcome (group_asked memo))
  | _, _, _ => Some get_refused
  end.

(** What the call writes to [out_id], and no identifier for [false]. *)
Definition openpit_marketdata_service_resolve services service (instrument : option OpenPitInstrument)
    (out_id_null : bool) : option (option Z) :=
  match service, instrument with
  | Some svc, Some instrument =>
      if out_id_null then Some None
      else match import_instrument instrument with
           | Ok (Some parsed) =>
               inner ← services !! md_handle svc;
               Some (instrument_as_u64 <$> resolve inner parsed)
           | _ => Some None
           end
  | _, _ => Some None
  end.
End MarketDataService.
