(* ===== verification/OrderValidation.v ===== *)
(** * OrderValidation: the built-in order validation policy

    src/crates/openpit/src/pretrade/policies/order_validation.rs.  The policy
    implements the start hook only and owns no state; it is the simplest policy
    that honours both contracts the engine's theorems ask for. *)
From S2P Require Import Prelude.
From S2P Require Import Decimal.
From S2P Require Import Param.
From S2P Require Import ParamTypes.
From S2P Require Import Identifiers.
From S2P Require Import Mutation.
From S2P Require Import Reject.
From S2P Require Import AccountControl.
From S2P Require Import Accounts.
From S2P Require Import Lock.
From S2P Require Import Policy.
From S2P Require Import Engine.
From S2P Require Import EngineFacts.
From S2P Require Import EngineOps.
Open Scope Z_scope.

(** ** Policies without mutations of their own

    What a start hook that touches nothing gives the engine. *)
Section StartRetire.
Context {D : DecimalOps} {W Order ExecutionReport AccountAdjustment : Type}.
Context (name : string) (group : PolicyGroupId).
Context (start : PreTradeContext -> Order -> HookState W ->
                 result (Rejects PolicyPreTradeResult) unit * HookState W).
Context (retire : AccountId -> EngineState W -> result AccountRetirementRefusal unit).
Context (start_pure : forall ctx order s, (start ctx order s).2 = s).

Abbreviation policy :=
  (start_retire_policy (ExecutionReport:=ExecutionReport) (AccountAdjustment:=AccountAdjustment)
     name group start retire).

Lemma undoes_nothing (w : W) (ms : Mutations (EngineState W)) :
  exists new, ms_mutations ms = ms_mutations ms ++ new /\ undoes new w w.
Proof. exists []. rewrite app_nil_r. split; [done|]. apply undoes_nil. Qed.

Lemma start_retire_transactional : Transactional policy.
Proof.
  split; cbn.
  - intros ctx order s r s' E _. pose proof (start_pure ctx order s) as Hp. rewrite E in Hp.
    cbn in Hp. by subst s'.
  - intros ctx order ms s r ms' s' [= <- <- <-] Hd. split_and!; [done..|]. apply undoes_nothing.
  - intros actx account adj ms s s' r ms' [= <- <- <-]. split; [done|]. apply undoes_nothing.
  - intros account ms st r ms' st' [= <- <- <-]. split; [done|]. apply undoes_nothing.
Qed.

Lemma start_retire_drop_copy : DropCopyTransactional policy.
Proof.
  split; [apply start_retire_transactional|]. cbn. intros ctx order s r s' ms E _ Ho.
  pose proof (start_pure ctx order s) as Hp. rewrite E in Hp. cbn in Hp. subst s'.
  destruct (undoes_nothing (es_world s.2) ms) as (new & Hn & Hu). exists new, ms. auto.
Qed.

Lemma start_retire_quiet : DryRunQuiet policy.
Proof.
  split; cbn.
  - intros ctx order s r s' E _. pose proof (start_pure ctx order s) as Hp. rewrite E in Hp.
    cbn in Hp. by subst s'.
  - by intros ctx order ms s r ms' s' [= <- <- <-] Hd.
Qed.

End StartRetire.

(** ** The policy *)

Definition OrderValidationPolicy_NAME : string := "OrderValidationPolicy".

Section OrderValidation.
Context {D : DecimalOps} {W Order ExecutionReport AccountAdjustment : Type}.
Context {HTA : HasTradeAmount Order}.

Record OrderValidationPolicy : Set := mkOrderValidation { ov_group_id : PolicyGroupId }.

Definition order_validation_new : OrderValidationPolicy := mkOrderValidation DEFAULT_POLICY_GROUP_ID.

Definition order_validation_with_policy_group_id (self : OrderValidationPolicy) (id : PolicyGroupId) :
    OrderValidationPolicy := mkOrderValidation id.

Definition zero_amount_reject (what : string) : Reject :=
  reject_new OrderValidationPolicy_NAME RS_Order RC_InvalidFieldValue
    ("order " +:+ what +:+ " must be non-zero") ("requested " +:+ what +:+ " 0 is not allowed").

Definition order_validation_check (ctx : PreTradeContext) (order : Order) :
    result (Rejects PolicyPreTradeResult) unit :=
  if is_drop_copy ctx then Ok tt
  else
    match map_err (fun e => rejects_from_reject
                     (missing_required_field_reject OrderValidationPolicy_NAME "trade amount" e))
            (trade_amount order) with
    | Err rejects => Err rejects
    | Ok (TA_Quantity quantity) =>
        if nn_is_zero quantity then Err (rejects_from_reject (zero_amount_reject "quantity")) else Ok tt
    | Ok (TA_Volume volume) =>
        if nn_is_zero volume then Err (rejects_from_reject (zero_amount_reject "volume")) else Ok tt
    end.

Definition order_validation_check_pre_trade_start (ctx : PreTradeContext) (order : Order)
    (s : HookState W) : result (Rejects PolicyPreTradeResult) unit * HookState W :=
  (order_validation_check ctx order, s).

Definition order_validation_policy (self : OrderValidationPolicy) :
    PreTradePolicy W Order ExecutionReport AccountAdjustment :=
  start_only_policy OrderValidationPolicy_NAME (ov_group_id self) order_validation_check_pre_trade_start.

#[export] Instance order_validation_transactional self :
  DropCopyTransactional (order_validation_policy self).
Proof. by apply start_retire_drop_copy. Qed.

#[export] Instance order_validation_quiet self : DryRunQuiet (order_validation_policy self).
Proof. by apply start_retire_quiet. Qed.

Context {L : DecimalLaws D}.

(** Whether the order carries an amount, and it is not zero. *)
Definition amount_valid (order : Order) : Prop :=
  match trade_amount order with
  | Ok (TA_Quantity quantity) => nn_val quantity <> 0
  | Ok (TA_Volume volume) => nn_val volume <> 0
  | Err _ => False
  end.

(** Outside drop-copy an order passes exactly when its trade amount can be
    read and is not zero; otherwise it gets one order-scope reject - an
    evaluation failure exactly when the amount could not be read - that never
    blocks the account; in drop-copy every order passes. *)
Theorem order_validation_check_spec self ctx order (s : HookState W) :
  let '(r, s') := check_pre_trade_start (order_validation_policy self) ctx order s in
  s' = s /\
  (r = Ok tt <-> is_drop_copy ctx = true \/ amount_valid order) /\
  (forall rejects, r = Err rejects ->
     exists reject, into_vec rejects = [reject] /\ reject_scope reject = RS_Order /\
       (is_evaluation_failure (reject_code reject) = true <-> is_ok (trade_amount order) = false)).
Proof.
  cbn. unfold order_validation_check, amount_valid. split; [done|].
  destruct (is_drop_copy ctx); [split; [by split; [left|]|done]|].
  destruct (trade_amount order) as [[q|v]|e]; cbn.
  1,2: unfold nn_is_zero, nn_val; rewrite dec_eqb_val, dec_zero_val;
    match goal with |- context [dec_val ?x =? 0] => destruct (Z.eqb_spec (dec_val x) 0) as [Hz|Hz] end;
    (split; [naive_solver|]); intros rejects [= <-]; eexists; by split_and!.
  split; [naive_solver|]. intros rejects [= <-]. eexists. by split_and!.
Qed.

End OrderValidation.
