(* ===== verification/OrderSizeLimit.v ===== *)
(** * OrderSizeLimit: the built-in order size limit policy

    src/crates/openpit/src/pretrade/policies/order_size_limit.rs.  A start-stage
    policy with caps on the quantity and the notional of one order, on three
    axes.  Its settings live in the world of the engine's policies, where the
    configuration interface replaces them. *)
From S2P Require Import Prelude.
From S2P Require Import Decimal.
From S2P Require Import Param.
From S2P Require Import ParamTypes.
From S2P Require Import Identifiers.
From S2P Require Import Mutation.
From S2P Require Import Reject.
From S2P Require Import AccountControl.
From S2P Require Import Accounts.
From S2P Require Import Lock.
From S2P Require Import Policy.
From S2P Require Import Engine.
From S2P Require Import EngineFacts.
From S2P Require Import EngineOps.
From S2P Require Import OrderValidation.
Open Scope Z_scope.

Definition OrderSizeLimitPolicy_NAME : string := "OrderSizeLimitPolicy".

(** ** Limits, barriers and settings *)
Section Settings.
Context {D : DecimalOps}.

Record OrderSizeLimit : Type := mkOrderSizeLimit {
  max_quantity : option Quantity;
  max_notional : option Volume
}.

Record OrderSizeBrokerBarrier : Type := mkSizeBroker { osb_limit : OrderSizeLimit }.
Record OrderSizeAssetBarrier : Type := mkSizeAsset {
  osa_limit : OrderSizeLimit;
  osa_asset : Asset
}.
Record OrderSizeAccountAssetBarrier : Type := mkSizeAccountAsset {
  osaa_limit : OrderSizeLimit;
  osaa_account_id : AccountId;
  osaa_asset : Asset
}.

Inductive OrderSizeLimitPolicyError : Type :=
| NoCapsConfigured
| DuplicateAssetBarrier (asset : Asset)
| DuplicateAccountAssetBarrier (asset : Asset).

Definition OrderSizeLimitPolicyError_fmt (self : OrderSizeLimitPolicyError) : string :=
  match self with
  | NoCapsConfigured => "at least one of max_quantity or max_notional must be configured"
  | DuplicateAssetBarrier asset => "duplicate asset barrier for asset " +:+ Asset_fmt asset
  | DuplicateAccountAssetBarrier asset =>
      "duplicate account+asset barrier for asset " +:+ Asset_fmt asset
  end.

Record OrderSizeLimitSettings : Type := mkSizeSettings {
  oss_account_asset_limits : gmap (AccountId * Asset) OrderSizeLimit;
  oss_asset_limits : gmap Asset OrderSizeLimit;
  oss_broker : option OrderSizeBrokerBarrier
}.

Definition validate_size_limit (limit : OrderSizeLimit) : result OrderSizeLimitPolicyError unit :=
  match max_quantity limit, max_notional limit with
  | None, None => Err NoCapsConfigured
  | _, _ => Ok tt
  end.

Definition validate_broker (broker : option OrderSizeBrokerBarrier) :
    result OrderSizeLimitPolicyError unit :=
  match broker with Some barrier => validate_size_limit (osb_limit barrier) | None => Ok tt end.

(** The loop both collections run: [key] and [limit] read a barrier,
    [duplicate] is the error of an occupied entry. *)
Fixpoint collect_barriers `{Countable K} {B : Type} (key : B -> K) (limit : B -> OrderSizeLimit)
    (duplicate : K -> OrderSizeLimitPolicyError) (barriers : list B) (limits : gmap K OrderSizeLimit) :
    result OrderSizeLimitPolicyError (gmap K OrderSizeLimit) :=
  match barriers with
  | [] => Ok limits
  | barrier :: barriers =>
      _ ← validate_size_limit (limit barrier);
      match limits !! key barrier with
      | None => collect_barriers key limit duplicate barriers (<[key barrier := limit barrier]> limits)
      | Some _ => Err (duplicate (key barrier))
      end
  end.

Definition collect_asset_limits (barriers : list OrderSizeAssetBarrier) :
    result OrderSizeLimitPolicyError (gmap Asset OrderSizeLimit) :=
  collect_barriers osa_asset osa_limit DuplicateAssetBarrier barriers ∅.

Definition account_asset_key (barrier : OrderSizeAccountAssetBarrier) : AccountId * Asset :=
  (osaa_account_id barrier, osaa_asset barrier).

Definition collect_account_asset_limits (barriers : list OrderSizeAccountAssetBarrier) :
    result OrderSizeLimitPolicyError (gmap (AccountId * Asset) OrderSizeLimit) :=
  collect_barriers account_asset_key osaa_limit (fun key => DuplicateAccountAssetBarrier key.2) barriers ∅.

(** [OrderSizeLimitSettings::new] and the setters; on an error the settings of a
    setter's caller stay as they were. *)
Definition size_settings_new (broker : option OrderSizeBrokerBarrier)
    (asset_barriers : list OrderSizeAssetBarrier)
    (account_asset_barriers : list OrderSizeAccountAssetBarrier) :
    result OrderSizeLimitPolicyError OrderSizeLimitSettings :=
  _ ← validate_broker broker;
  asset_limits ← collect_asset_limits asset_barriers;
  account_asset_limits ← collect_account_asset_limits account_asset_barriers;
  Ok (mkSizeSettings account_asset_limits asset_limits broker).

Definition size_set_broker (self : OrderSizeLimitSettings) (broker : option OrderSizeBrokerBarrier) :
    result OrderSizeLimitPolicyError OrderSizeLimitSettings :=
  _ ← validate_broker broker;
  Ok (mkSizeSettings (oss_account_asset_limits self) (oss_asset_limits self) broker).

Definition size_set_asset_barriers (self : OrderSizeLimitSettings)
    (barriers : list OrderSizeAssetBarrier) :
    result OrderSizeLimitPolicyError OrderSizeLimitSettings :=
  asset_limits ← collect_asset_limits barriers;
  Ok (mkSizeSettings (oss_account_asset_limits self) asset_limits (oss_broker self)).

Definition size_set_account_asset_barriers (self : OrderSizeLimitSettings)
    (barriers : list OrderSizeAccountAssetBarrier) :
    result OrderSizeLimitPolicyError OrderSizeLimitSettings :=
  account_asset_limits ← collect_account_asset_limits barriers;
  Ok (mkSizeSettings account_asset_limits (oss_asset_limits self) (oss_broker self)).

(** ** Selecting and resolving caps *)

Record SelectedMetricLimit (MetricValue : Type) : Type := mkSelected { sel_maximum : MetricValue }.
Record ResolvedMetricLimit (MetricValue : Type) : Type := mkResolved {
  requested : MetricValue;
  maximum : MetricValue
}.

Definition selected_resolve {M} (self : SelectedMetricLimit M) (value : M) : ResolvedMetricLimit M :=
  mkResolved M value (sel_maximum M self).

Definition select_asset_limit {M} (settings : OrderSizeLimitSettings) (account_id : option AccountId)
    (asset : Asset) (metric : OrderSizeLimit -> option M) : option (SelectedMetricLimit M) :=
  match (account ← account_id;
         limit ← oss_account_asset_limits settings !! (account, asset);
         metric limit) with
  | Some maximum => Some (mkSelected M maximum)
  | None => limit ← oss_asset_limits settings !! asset; mkSelected M <$> metric limit
  end.

Definition resolve_metric_limits {M} (axis_limit broker_limit : option (SelectedMetricLimit M))
    (resolve : unit -> result Reject M) :
    result Reject (option (ResolvedMetricLimit M) * option (ResolvedMetricLimit M)) :=
  match axis_limit, broker_limit with
  | None, None => Ok (None, None)
  | _, _ =>
      value ← resolve tt;
      Ok ((fun limit => selected_resolve limit value) <$> axis_limit,
          (fun limit => selected_resolve limit value) <$> broker_limit)
  end.

Definition order_value_calculation_failed_reject (policy details : string) : Reject :=
  reject_new policy RS_Order RC_OrderValueCalculationFailed "order value calculation failed" details.

Definition resolve_notional (policy : string) (trade_amount : TradeAmount) (price : option Price) :
    result Reject Volume :=
  match trade_amount, price with
  | TA_Volume volume, _ => Ok volume
  | TA_Quantity quantity, Some price =>
      map_err (fun _ => order_value_calculation_failed_reject policy
                 "price or quantity could not be used to evaluate order notional")
        (price_calculate_volume price quantity)
  | TA_Quantity _, None =>
      Err (order_value_calculation_failed_reject policy
             "price not provided for evaluating cash flow/notional/volume")
  end.

Definition resolve_quantity (policy : string) (trade_amount : TradeAmount) (price : option Price) :
    result Reject Quantity :=
  match trade_amount, price with
  | TA_Quantity quantity, _ => Ok quantity
  | TA_Volume volume, Some price =>
      map_err (fun _ => order_value_calculation_failed_reject policy
                 "price or volume could not be used to evaluate order quantity")
        (volume_calculate_quantity volume price)
  | TA_Volume _, None =>
      Err (order_value_calculation_failed_reject policy
             "price not provided for evaluating cash flow/notional/volume")
  end.

Context {F : DecimalFormat}.

Definition exceeded {k} (limit : option (ResolvedMetricLimit (NonNeg k))) :
    option (ResolvedMetricLimit (NonNeg k)) :=
  limit ← limit;
  if nn_gtb (requested _ limit) (maximum _ limit) then Some limit else None.

Definition check_limit_optional (policy : string) (quantity : option (ResolvedMetricLimit Quantity))
    (notional : option (ResolvedMetricLimit Volume)) (assets : option (Asset * Asset)) : option Reject :=
  match exceeded quantity, exceeded notional with
  | None, None => None
  | Some quantity, None =>
      Some (reject_new policy RS_Order RC_OrderQtyExceedsLimit "order quantity exceeded"
        ("requested " +:+ nn_fmt (requested _ quantity) +:+ ", max allowed: " +:+ nn_fmt (maximum _ quantity)))
  | None, Some notional =>
      Some (reject_new policy RS_Order RC_OrderNotionalExceedsLimit "order notional exceeded"
        ("requested " +:+ nn_fmt (requested _ notional) +:+ ", max allowed: " +:+ nn_fmt (maximum _ notional)))
  | Some quantity, Some notional =>
      let details :=
        match assets with
        | Some (quantity_asset, notional_asset) =>
            "requested quantity " +:+ nn_fmt (requested _ quantity) +:+ " for asset " +:+
            Asset_fmt quantity_asset +:+ ", max allowed: " +:+ nn_fmt (maximum _ quantity) +:+
            "; requested notional " +:+ nn_fmt (requested _ notional) +:+ " for asset " +:+
            Asset_fmt notional_asset +:+ ", max allowed: " +:+ nn_fmt (maximum _ notional)
        | None =>
            "requested quantity " +:+ nn_fmt (requested _ quantity) +:+ ", max allowed: " +:+
            nn_fmt (maximum _ quantity) +:+ "; requested notional " +:+ nn_fmt (requested _ notional) +:+
            ", max allowed: " +:+ nn_fmt (maximum _ notional)
        end in
      Some (reject_new policy RS_Order RC_OrderExceedsLimit "order size exceeded" details)
  end.

End Settings.
Arguments OrderSizeLimit {D}.
Arguments OrderSizeBrokerBarrier {D}.
Arguments OrderSizeAssetBarrier {D}.
Arguments OrderSizeAccountAssetBarrier {D}.
Arguments OrderSizeLimitSettings {D}.
Arguments sel_maximum {MetricValue}.
Arguments requested {MetricValue}.
Arguments maximum {MetricValue}.

(** ** The policy *)

Record OrderSizeLimitPolicy : Set := mkOrderSizeLimitPolicy { osp_group_id : PolicyGroupId }.

Section Check_.
Context {D : DecimalOps} {F : DecimalFormat} {W Order ExecutionReport AccountAdjustment : Type}.
Context {HI : HasInstrument Order} {HTA : HasTradeAmount Order} {HP : HasOrderPrice Order}.
Context {O : Owns W OrderSizeLimitSettings}.

Abbreviation PRejects := (Rejects PolicyPreTradeResult).

(** [OrderSizeLimitPolicy::new] also creates the cell of the settings. *)
Definition order_size_limit_new (settings : OrderSizeLimitSettings) (w : W) :
    OrderSizeLimitPolicy * W :=
  (mkOrderSizeLimitPolicy DEFAULT_POLICY_GROUP_ID, own_set settings w).

Definition order_size_limit_with_policy_group_id (self : OrderSizeLimitPolicy) (id : PolicyGroupId) :
    OrderSizeLimitPolicy := mkOrderSizeLimitPolicy id.

(** Reading a required field of the order. *)
Definition required {T} (field : string) (r : result RequestFieldAccessError T) : result PRejects T :=
  map_err (fun e => rejects_from_reject (missing_required_field_reject OrderSizeLimitPolicy_NAME field e)) r.

Definition read_if {T} (needed : bool) (field : string) (r : result RequestFieldAccessError T) :
    result PRejects (option T) :=
  if needed then Some <$> required field r else Ok None.

Definition size_needs_account (settings : OrderSizeLimitSettings) : bool :=
  negb (map_is_empty (oss_account_asset_limits settings)).

Definition size_needs_instrument (settings : OrderSizeLimitSettings) : bool :=
  negb (map_is_empty (oss_asset_limits settings)) || size_needs_account settings.

Definition is_volume_amount (amount : TradeAmount) : bool :=
  match amount with TA_Volume _ => true | TA_Quantity _ => false end.

(** The closure [with_snapshot] runs, from the early return on ... *)
Definition enforce_size_limits (quantity_axis_limit quantity_broker_limit : option (SelectedMetricLimit Quantity))
    (notional_axis_limit notional_broker_limit : option (SelectedMetricLimit Volume))
    (assets : option (Asset * Asset)) (order : Order) : result PRejects unit :=
  let quantity_needed := is_some quantity_axis_limit || is_some quantity_broker_limit in
  let notional_needed := is_some notional_axis_limit || is_some notional_broker_limit in
  if negb quantity_needed && negb notional_needed then Ok tt
  else
    trade_amount ← required "trade amount" (trade_amount order);
    let quantity_needs_price := is_volume_amount trade_amount && quantity_needed in
    let notional_needs_price := negb (is_volume_amount trade_amount) && notional_needed in
    price ← (if quantity_needs_price || notional_needs_price
             then required "price" (price order) else Ok None);
    '(quantity_axis, quantity_broker) ←
      map_err rejects_from_reject
        (resolve_metric_limits quantity_axis_limit quantity_broker_limit
           (fun _ => resolve_quantity OrderSizeLimitPolicy_NAME trade_amount price));
    '(notional_axis, notional_broker) ←
      map_err rejects_from_reject
        (resolve_metric_limits notional_axis_limit notional_broker_limit
           (fun _ => resolve_notional OrderSizeLimitPolicy_NAME trade_amount price));
    let axis_reject :=
      check_limit_optional OrderSizeLimitPolicy_NAME quantity_axis notional_axis assets in
    let broker_reject :=
      check_limit_optional OrderSizeLimitPolicy_NAME quantity_broker notional_broker None in
    match or_else axis_reject broker_reject with
    | Some reject => Err (rejects_from_reject reject)
    | None => Ok tt
    end.

(** ... and from its start. *)
Definition check_size_snapshot (settings : OrderSizeLimitSettings) (ctx : PreTradeContext) (order : Order) :
    result PRejects unit :=
  instrument ← read_if (size_needs_instrument settings) "instrument" (instrument order);
  account_id ← read_if (size_needs_account settings) "account ID" (ptc_account ctx);
  let quantity_axis_limit :=
    instrument ≫= fun i => select_asset_limit settings account_id (underlying_asset i) max_quantity in
  let notional_axis_limit :=
    instrument ≫= fun i => select_asset_limit settings account_id (settlement_asset i) max_notional in
  let broker_limit := osb_limit <$> oss_broker settings in
  let quantity_broker_limit := mkSelected Quantity <$> (broker_limit ≫= max_quantity) in
  let notional_broker_limit := mkSelected Volume <$> (broker_limit ≫= max_notional) in
  enforce_size_limits quantity_axis_limit quantity_broker_limit notional_axis_limit notional_broker_limit
    ((fun i => (underlying_asset i, settlement_asset i)) <$> instrument) order.

Definition order_size_check_pre_trade_start (ctx : PreTradeContext) (order : Order) (s : HookState W) :
    result PRejects unit * HookState W :=
  if is_drop_copy ctx then (Ok tt, s)
  else (check_size_snapshot (own_get (es_world s.2)) ctx order, s).

Definition order_size_retire_account (account : AccountId) (st : EngineState W) :
    result AccountRetirementRefusal unit :=
  if existsb (fun key => bool_decide (key.1 = account))
       (map_to_list (oss_account_asset_limits (own_get (es_world st)))).*1
  then Err ConfigurationReferencesAccount
  else Ok tt.

Definition order_size_limit_policy (self : OrderSizeLimitPolicy) :
    PreTradePolicy W Order ExecutionReport AccountAdjustment :=
  start_retire_policy OrderSizeLimitPolicy_NAME (osp_group_id self) order_size_check_pre_trade_start
    order_size_retire_account.

#[export] Instance order_size_transactional self : DropCopyTransactional (order_size_limit_policy self).
Proof.
  apply start_retire_drop_copy. intros ctx order s. unfold order_size_check_pre_trade_start.
  by destruct (is_drop_copy ctx).
Qed.

#[export] Instance order_size_quiet self : DryRunQuiet (order_size_limit_policy self).
Proof.
  apply start_retire_quiet. intros ctx order s. unfold order_size_check_pre_trade_start.
  by destruct (is_drop_copy ctx).
Qed.

End Check_.
