(* ===== verification/OrderSizeLimitFacts.v ===== *)
(** * OrderSizeLimitFacts: what the order size limit policy admits

    Which caps apply to an order, when an order passes, which reject it gets
    otherwise, which settings the constructor and the setters accept, and when
    an account can retire. *)
From S2P Require Import Prelude.
From S2P Require Import Decimal.
From S2P Require Import Param.
From S2P Require Import ParamTypes.
From S2P Require Import Identifiers.
From S2P Require Import Mutation.
From S2P Require Import Reject.
From S2P Require Import AccountControl.
From S2P Require Import Accounts.
From S2P Require Import Lock.
From S2P Require Import Policy.
From S2P Require Import OrderSizeLimit.
Open Scope Z_scope.

(** ** The caps that apply *)
Section Caps.
Context {D : DecimalOps} {M : Type}.
Implicit Types (settings : OrderSizeLimitSettings) (metric : OrderSizeLimit -> option M).

(** The chain of the asset axes: the barrier of the account and the asset, and
    the barrier of the asset where that one has no cap for the metric. *)
Inductive AxisCap settings (account : option AccountId) (asset : Asset) metric : M -> Prop :=
| cap_account_asset a limit cap :
    account = Some a -> oss_account_asset_limits settings !! (a, asset) = Some limit ->
    metric limit = Some cap -> AxisCap settings account asset metric cap
| cap_asset limit cap :
    (forall a l, account = Some a -> oss_account_asset_limits settings !! (a, asset) = Some l ->
       metric l = None) ->
    oss_asset_limits settings !! asset = Some limit -> metric limit = Some cap ->
    AxisCap settings account asset metric cap.

Lemma select_asset_limit_spec settings account asset metric cap :
  select_asset_limit settings account asset metric = Some (mkSelected M cap) <->
  AxisCap settings account asset metric cap.
Proof.
  unfold select_asset_limit. split.
  - destruct (account ≫= _) as [c|] eqn:E.
    + intros [= ->]. destruct account as [a|]; [|done]. cbn in E.
      destruct (_ !! _) as [l|] eqn:El in E; [|done]. by eapply cap_account_asset.
    + destruct (oss_asset_limits settings !! asset) as [l|] eqn:El; [|done]. cbn.
      destruct (metric l) as [c|] eqn:Em; [|done]. intros [= ->].
      eapply cap_asset; [|done..]. intros a l' -> Hl. cbn in E. by rewrite Hl in E.
  - intros [a l c -> El Em|l c Hn El Em].
    + cbn. rewrite El. cbn. by rewrite Em.
    + destruct account as [a|]; cbn; [|by rewrite El; cbn; rewrite Em].
      destruct (oss_account_asset_limits settings !! (a, asset)) as [l'|] eqn:El'; cbn;
        [rewrite (Hn a l' eq_refl El')|]; by rewrite El; cbn; rewrite Em.
Qed.

(** Without barriers of an axis there is nothing to select there. *)
Lemma select_asset_limit_unkeyed settings account account' asset metric :
  (oss_account_asset_limits settings = ∅ \/ account = account') ->
  select_asset_limit settings account asset metric = select_asset_limit settings account' asset metric.
Proof.
  unfold select_asset_limit. intros [->| ->]; [|done].
  by destruct account, account'; cbn; rewrite ?lookup_empty.
Qed.

Lemma select_asset_limit_empty settings account asset metric :
  oss_asset_limits settings = ∅ -> oss_account_asset_limits settings = ∅ ->
  select_asset_limit settings account asset metric = None.
Proof. unfold select_asset_limit. intros -> ->. by destruct account; cbn; rewrite ?lookup_empty. Qed.

Lemma size_needs_account_false settings :
  size_needs_account settings = false -> oss_account_asset_limits settings = ∅.
Proof. unfold size_needs_account, map_is_empty. by intros H%negb_false_iff%bool_decide_eq_true. Qed.

Lemma size_needs_instrument_false settings :
  size_needs_instrument settings = false ->
  oss_asset_limits settings = ∅ /\ oss_account_asset_limits settings = ∅.
Proof.
  unfold size_needs_instrument, map_is_empty. intros [H1%negb_false_iff%bool_decide_eq_true H2]%orb_false_iff.
  split; [done|by apply size_needs_account_false].
Qed.

End Caps.

(** ** The check *)
Section CheckFacts.
Context {D : DecimalOps} {L : DecimalLaws D} {F : DecimalFormat} {W Order : Type}.
Context {HI : HasInstrument Order} {HTA : HasTradeAmount Order} {HP : HasOrderPrice Order}.
Context {O : Owns W OrderSizeLimitSettings}.
Implicit Types (settings : OrderSizeLimitSettings) (ctx : PreTradeContext) (order : Order).

(** What the order asks for, as far as its fields say. *)
Definition order_price order : option Price :=
  match price order with Ok p => p | Err _ => None end.

Definition order_quantity order : option Quantity :=
  match trade_amount order with
  | Ok (TA_Quantity q) => Some q
  | Ok (TA_Volume v) => p ← order_price order; result_ok (volume_calculate_quantity v p)
  | Err _ => None
  end.

Definition order_notional order : option Volume :=
  match trade_amount order with
  | Ok (TA_Volume v) => Some v
  | Ok (TA_Quantity q) => p ← order_price order; result_ok (price_calculate_volume p q)
  | Err _ => None
  end.

Definition resolved {T} (limit : option (SelectedMetricLimit T)) (value : option T) :
    option (ResolvedMetricLimit T) :=
  l ← limit; selected_resolve l <$> value.

(** A metric some cap bounds can be computed. *)
Definition obtained {T} (axis broker : option (SelectedMetricLimit T)) (value : option T) : bool :=
  is_some value || negb (is_some axis || is_some broker).

(** Either every metric that is needed is at hand and the two levels are
    compared, or the order cannot be evaluated. *)
Lemma enforce_size_limits_spec qa qb na nb assets order :
  enforce_size_limits qa qb na nb assets order =
    match or_else
            (check_limit_optional OrderSizeLimitPolicy_NAME (resolved qa (order_quantity order))
               (resolved na (order_notional order)) assets)
            (check_limit_optional OrderSizeLimitPolicy_NAME (resolved qb (order_quantity order))
               (resolved nb (order_notional order)) None) with
    | Some reject => Err (rejects_from_reject reject)
    | None => Ok tt
    end /\ obtained qa qb (order_quantity order) && obtained na nb (order_notional order) = true \/
  (exists reject, enforce_size_limits qa qb na nb assets order = Err (rejects_from_reject reject) /\
     reject_scope reject = RS_Order /\ is_evaluation_failure (reject_code reject) = true) /\
  obtained qa qb (order_quantity order) && obtained na nb (order_notional order) = false.
Proof.
  unfold enforce_size_limits, order_quantity, order_notional, order_price.
  destruct (trade_amount order) as [[q|v]|e]; destruct (price order) as [[p|]|e'];
    try destruct (price_calculate_volume p q) as [v|e''] eqn:E;
    try destruct (volume_calculate_quantity v p) as [q|e''] eqn:E;
    destruct qa, qb, na, nb; cbn; rewrite ?E; cbn;
    first [left; split; reflexivity | right; split; [eexists; split_and!; reflexivity|reflexivity]].
Qed.

(** The reject of one level, by which of its caps are exceeded. *)
Definition breach_code (quantity notional : bool) : option RejectCode :=
  match quantity, notional with
  | true, true => Some RC_OrderExceedsLimit
  | true, false => Some RC_OrderQtyExceedsLimit
  | false, true => Some RC_OrderNotionalExceedsLimit
  | false, false => None
  end.

Lemma check_limit_optional_spec policy q n assets :
  reject_code <$> check_limit_optional policy q n assets =
    breach_code (is_some (exceeded q)) (is_some (exceeded n)) /\
  (forall r, check_limit_optional policy q n assets = Some r ->
     reject_scope r = RS_Order /\ is_evaluation_failure (reject_code r) = false).
Proof.
  unfold check_limit_optional. destruct (exceeded q), (exceeded n); cbn;
    (split; [reflexivity|]); [intros reject [= <-]; done..|discriminate].
Qed.

Lemma breach_code_None q n : breach_code q n = None <-> q = false /\ n = false.
Proof. destruct q, n; cbn; naive_solver. Qed.

(** [value] exceeds the cap a level selected. *)
Definition over {k} (limit : option (SelectedMetricLimit (NonNeg k))) (value : option (NonNeg k)) : bool :=
  is_some (exceeded (resolved limit value)).

Lemma over_spec {k} (limit : option (SelectedMetricLimit (NonNeg k))) value :
  over limit value = true <->
  exists cap v, limit = Some (mkSelected _ cap) /\ value = Some v /\ nn_val cap < nn_val v.
Proof.
  unfold over, exceeded, resolved. destruct limit as [[cap]|], value as [v|]; cbn;
    [|naive_solver..].
  unfold nn_gtb. rewrite dec_gtb_val. change (dec_val (nn_to_decimal ?x)) with (nn_val x).
  destruct (Z.ltb_spec (nn_val cap) (nn_val v)); cbn;
    (split; [try done|intros (c & x & [= ->] & [= ->] & ?); try done; lia]).
  intros _. by exists cap, v.
Qed.

(** *** The caps of one order *)

(** The broker's cap, and the chain of the asset axes read at the asset of the
    instrument that the metric belongs to. *)
Definition broker_cap {T} settings (metric : OrderSizeLimit -> option T) (cap : T) : Prop :=
  exists barrier, oss_broker settings = Some barrier /\ metric (osb_limit barrier) = Some cap.

Definition axis_cap {T} settings ctx order (asset_of : Instrument -> Asset)
    (metric : OrderSizeLimit -> option T) (cap : T) : Prop :=
  exists i, instrument order = Ok i /\
    AxisCap settings (known_account ctx) (asset_of i) metric cap.

(** The order's keys can be read when some barrier needs them. *)
Definition keys_readable settings ctx order : bool :=
  implb (size_needs_instrument settings) (is_ok (instrument order)) &&
  implb (size_needs_account settings) (is_ok (ptc_account ctx)).

Definition selected_axis {T} settings ctx order (asset_of : Instrument -> Asset)
    (metric : OrderSizeLimit -> option T) : option (SelectedMetricLimit T) :=
  i ← result_ok (instrument order);
  select_asset_limit settings (known_account ctx) (asset_of i) metric.

Definition selected_broker {T} settings (metric : OrderSizeLimit -> option T) :
    option (SelectedMetricLimit T) :=
  mkSelected T <$> ((osb_limit <$> oss_broker settings) ≫= metric).

Lemma selected_axis_spec {T} settings ctx order asset_of (metric : _ -> option T) cap :
  selected_axis settings ctx order asset_of metric = Some (mkSelected T cap) <->
  axis_cap settings ctx order asset_of metric cap.
Proof.
  unfold selected_axis, axis_cap. setoid_rewrite <- select_asset_limit_spec.
  destruct (instrument order) as [i|e]; cbn; [|by split; [|intros (? & ? & _)]].
  split; [by exists i|]. by intros (? & [= <-] & ?).
Qed.

Lemma selected_broker_spec {T} settings (metric : _ -> option T) cap :
  selected_broker settings metric = Some (mkSelected T cap) <-> broker_cap settings metric cap.
Proof.
  unfold selected_broker, broker_cap. destruct (oss_broker settings) as [b|]; cbn; [|naive_solver].
  destruct (metric (osb_limit b)) as [c|] eqn:E; cbn; split; [|intros (? & [= <-] & H)|done|
    intros (? & [= <-] & H)]; [intros [= ->]; by exists b|congruence..].
Qed.


Lemma check_size_snapshot_keys settings ctx order :
  keys_readable settings ctx order = true ->
  exists assets, check_size_snapshot settings ctx order =
    enforce_size_limits (selected_axis settings ctx order underlying_asset max_quantity)
      (selected_broker settings max_quantity)
      (selected_axis settings ctx order settlement_asset max_notional)
      (selected_broker settings max_notional) assets order.
Proof.
  unfold keys_readable, check_size_snapshot, read_if, required, selected_axis, selected_broker, known_account.
  destruct (size_needs_instrument settings) eqn:Hi.
  - destruct (instrument order) as [i|e]; [|done]. destruct (size_needs_account settings) eqn:Ha.
    + destruct (ptc_account ctx) as [a|e]; [|done]. intros _. by eexists.
    + intros _. cbn -[select_asset_limit].
      rewrite !(select_asset_limit_unkeyed settings None (result_ok (ptc_account ctx)))
        by (left; by apply size_needs_account_false). by eexists.
  - apply size_needs_instrument_false in Hi as [Hm Hk]. unfold size_needs_account, map_is_empty.
    rewrite bool_decide_true by done. intros _. cbn -[select_asset_limit]. exists None.
    by destruct (instrument order); cbn -[select_asset_limit]; rewrite ?select_asset_limit_empty.
Qed.


Lemma check_size_snapshot_unreadable settings ctx order :
  keys_readable settings ctx order = false ->
  exists reject, check_size_snapshot settings ctx order = Err (rejects_from_reject reject) /\
    reject_scope reject = RS_Order /\ is_evaluation_failure (reject_code reject) = true.
Proof.
  unfold keys_readable, check_size_snapshot, read_if, required.
  destruct (size_needs_instrument settings), (instrument order), (size_needs_account settings),
    (ptc_account ctx); cbn; try done; by eexists.
Qed.

(** Every cap that applies bounds a metric that can be computed. *)
Definition evaluable settings ctx order : Prop :=
  keys_readable settings ctx order = true /\
  (forall cap, axis_cap settings ctx order underlying_asset max_quantity cap \/
               broker_cap settings max_quantity cap -> is_Some (order_quantity order)) /\
  (forall cap, axis_cap settings ctx order settlement_asset max_notional cap \/
               broker_cap settings max_notional cap -> is_Some (order_notional order)).

Definition exceeds {k} (P : NonNeg k -> Prop) (value : option (NonNeg k)) : Prop :=
  exists cap v, P cap /\ value = Some v /\ nn_val cap < nn_val v.

Lemma over_axis settings ctx order asset_of {k} (metric : _ -> option (NonNeg k)) value :
  over (selected_axis settings ctx order asset_of metric) value = true <->
  exceeds (axis_cap settings ctx order asset_of metric) value.
Proof. unfold exceeds. rewrite over_spec. by setoid_rewrite selected_axis_spec. Qed.

Lemma over_broker settings {k} (metric : _ -> option (NonNeg k)) value :
  over (selected_broker settings metric) value = true <-> exceeds (broker_cap settings metric) value.
Proof. unfold exceeds. rewrite over_spec. by setoid_rewrite selected_broker_spec. Qed.

Lemma obtained_spec {T} settings ctx order asset_of (metric : _ -> option T) value :
  obtained (selected_axis settings ctx order asset_of metric) (selected_broker settings metric) value = true <->
  (forall cap, axis_cap settings ctx order asset_of metric cap \/ broker_cap settings metric cap -> is_Some value).
Proof.
  unfold obtained. setoid_rewrite <- selected_axis_spec. setoid_rewrite <- selected_broker_spec.
  destruct value as [v|]; cbn; [naive_solver|].
  destruct (selected_axis _ _ _ _ _) as [[c]|], (selected_broker _ _) as [[c']|]; cbn.
  - split; [done|]. intros H. destruct (H c) as [? [=]]; auto.
  - split; [done|]. intros H. destruct (H c) as [? [=]]; auto.
  - split; [done|]. intros H. destruct (H c') as [? [=]]; auto.
  - naive_solver.
Qed.


(** Every one of the caps is met. *)
Definition within {k} (P : NonNeg k -> Prop) (value : option (NonNeg k)) : Prop :=
  forall cap, P cap -> exists v, value = Some v /\ nn_val v <= nn_val cap.

Lemma within_spec {k} (P : NonNeg k -> Prop) value :
  within P value <-> (forall cap, P cap -> is_Some value) /\ ~ exceeds P value.
Proof.
  unfold within, exceeds. split.
  - intros H. split.
    + intros cap Hc. destruct (H cap Hc) as (v & -> & _). by eexists.
    + intros (cap & v & Hc & -> & Hlt). destruct (H cap Hc) as (? & [= <-] & ?). lia.
  - intros [Hs Hn] cap Hc. destruct (Hs cap Hc) as [v ->]. exists v. split; [done|].
    destruct (Z.le_gt_cases (nn_val v) (nn_val cap)); [done|]. exfalso. apply Hn. by exists cap, v.
Qed.

Lemma exceeds_or {k} (P Q : NonNeg k -> Prop) value :
  exceeds (fun cap => P cap \/ Q cap) value <-> exceeds P value \/ exceeds Q value.
Proof. unfold exceeds. naive_solver. Qed.

(** The reject of the two levels together. *)
Lemma two_levels_spec policy qa qb na nb assets (q : option Quantity) (n : option Volume) :
  let r := or_else (check_limit_optional policy (resolved qa q) (resolved na n) assets)
                   (check_limit_optional policy (resolved qb q) (resolved nb n) None) in
  reject_code <$> r = or_else (breach_code (over qa q) (over na n)) (breach_code (over qb q) (over nb n)) /\
  (forall reject, r = Some reject ->
     reject_scope reject = RS_Order /\ is_evaluation_failure (reject_code reject) = false).
Proof.
  destruct (check_limit_optional_spec policy (resolved qa q) (resolved na n) assets) as [Ha Hsa].
  destruct (check_limit_optional_spec policy (resolved qb q) (resolved nb n) None) as [Hb Hsb].
  unfold over. rewrite <- Ha, <- Hb.
  destruct (check_limit_optional _ _ _ assets); cbn; [|destruct (check_limit_optional _ _ _ _); cbn];
    split; auto; discriminate.
Qed.

(** The verdict on an order outside drop-copy. *)
Definition size_verdict settings ctx order (code : option RejectCode) : Prop :=
  exists qa na qb nb : bool,
    (qa = true <-> exceeds (axis_cap settings ctx order underlying_asset max_quantity) (order_quantity order)) /\
    (na = true <-> exceeds (axis_cap settings ctx order settlement_asset max_notional) (order_notional order)) /\
    (qb = true <-> exceeds (broker_cap settings max_quantity) (order_quantity order)) /\
    (nb = true <-> exceeds (broker_cap settings max_notional) (order_notional order)) /\
    code = or_else (breach_code qa na) (breach_code qb nb).

Lemma check_size_snapshot_spec settings ctx order :
  (evaluable settings ctx order /\
   ((check_size_snapshot settings ctx order = Ok tt /\ size_verdict settings ctx order None) \/
    exists reject, check_size_snapshot settings ctx order = Err (rejects_from_reject reject) /\
      reject_scope reject = RS_Order /\ is_evaluation_failure (reject_code reject) = false /\
      size_verdict settings ctx order (Some (reject_code reject)))) \/
  (~ evaluable settings ctx order /\
   exists reject, check_size_snapshot settings ctx order = Err (rejects_from_reject reject) /\
     reject_scope reject = RS_Order /\ is_evaluation_failure (reject_code reject) = true).
Proof.
  destruct (keys_readable settings ctx order) eqn:Hk.
  2: { right. split; [intros [? _]; congruence|by apply check_size_snapshot_unreadable]. }
  destruct (check_size_snapshot_keys _ _ _ Hk) as [assets ->].
  destruct (enforce_size_limits_spec (selected_axis settings ctx order underlying_asset max_quantity)
    (selected_broker settings max_quantity) (selected_axis settings ctx order settlement_asset max_notional)
    (selected_broker settings max_notional) assets order) as [[-> Ho]|[Hr Ho]].
  - left. apply andb_true_iff in Ho. rewrite !obtained_spec in Ho. split; [by split|].
    destruct (two_levels_spec OrderSizeLimitPolicy_NAME
      (selected_axis settings ctx order underlying_asset max_quantity) (selected_broker settings max_quantity)
      (selected_axis settings ctx order settlement_asset max_notional) (selected_broker settings max_notional)
      assets (order_quantity order) (order_notional order)) as [Hc Hs].
    match type of Hc with _ = ?code => assert (Hv : size_verdict settings ctx order code) end.
    { eexists _, _, _, _. split; [apply over_axis|]. split; [apply over_axis|].
      split; [apply over_broker|]. by split; [apply over_broker|]. }
    rewrite <- Hc in Hv. destruct (or_else _ _) as [r|]; [right|by left].
    exists r. destruct (Hs r eq_refl). auto.
  - right. split; [|done]. intros (_ & Hq & Hn). apply obtained_spec in Hq, Hn.
    by rewrite Hq, Hn in Ho.
Qed.

Lemma size_verdict_functional settings ctx order c1 c2 :
  size_verdict settings ctx order c1 -> size_verdict settings ctx order c2 -> c1 = c2.
Proof.
  intros (qa & na & qb & nb & H1 & H2 & H3 & H4 & ->) (qa' & na' & qb' & nb' & H1' & H2' & H3' & H4' & ->).
  rewrite <- H1 in H1'. rewrite <- H2 in H2'. rewrite <- H3 in H3'. rewrite <- H4 in H4'.
  apply eq_true_iff_eq in H1', H2', H3', H4'. by subst.
Qed.

Lemma size_verdict_None settings ctx order :
  evaluable settings ctx order -> size_verdict settings ctx order None <->
  within (fun cap => axis_cap settings ctx order underlying_asset max_quantity cap \/
                     broker_cap settings max_quantity cap) (order_quantity order) /\
  within (fun cap => axis_cap settings ctx order settlement_asset max_notional cap \/
                     broker_cap settings max_notional cap) (order_notional order).
Proof.
  intros (_ & Hq & Hn). rewrite !within_spec, !exceeds_or. split.
  - intros (qa & na & qb & nb & Ha & Hna & Hb & Hnb & Hc).
    destruct qa, na, qb, nb; try discriminate Hc; naive_solver.
  - intros [[_ Hq'] [_ Hn']]. exists false, false, false, false. naive_solver.
Qed.


Context {ExecutionReport AccountAdjustment : Type}.

(** C36: outside drop-copy an order passes exactly when the fields its barriers
    need can be read and every cap that applies - the broker's, and for each
    metric the account's cap at its asset or else the asset's - is met.  Otherwise
    it gets one order-scope reject: an evaluation failure exactly when a key or a
    capped metric is unavailable, and else the code of what the asset axes exceed,
    or of what the broker's caps do when the asset axes are met.  In drop-copy every
    order passes; nothing is changed. *)
Theorem order_size_check_spec self ctx order (s : HookState W) :
  let '(r, s') := check_pre_trade_start (order_size_limit_policy (ExecutionReport:=ExecutionReport)
                    (AccountAdjustment:=AccountAdjustment) self) ctx order s in
  let settings := own_get (es_world s.2) in
  s' = s /\
  (r = Ok tt <->
     is_drop_copy ctx = true \/
     keys_readable settings ctx order = true /\
     within (fun cap => axis_cap settings ctx order underlying_asset max_quantity cap \/
                        broker_cap settings max_quantity cap) (order_quantity order) /\
     within (fun cap => axis_cap settings ctx order settlement_asset max_notional cap \/
                        broker_cap settings max_notional cap) (order_notional order)) /\
  (forall rejects, r = Err rejects ->
     exists reject, into_vec rejects = [reject] /\ reject_scope reject = RS_Order /\
       (is_evaluation_failure (reject_code reject) = true <-> ~ evaluable settings ctx order) /\
       (evaluable settings ctx order -> size_verdict settings ctx order (Some (reject_code reject)))).
Proof.
  cbn. unfold order_size_check_pre_trade_start. destruct (is_drop_copy ctx) eqn:Hd.
  { split; [done|]. split; [by split; [left|]|done]. }
  set (settings := own_get (es_world s.2)). split; [done|].
  destruct (check_size_snapshot_spec settings ctx order)
    as [[He [[-> Hv]|(r & -> & Hsc & Hf & Hv)]]|[He (r & -> & Hsc & Hf)]].
  - split; [|done]. apply (size_verdict_None settings ctx order He) in Hv. split; [|done].
    intros _. right. split; [apply He|done].
  - split.
    + split; [done|]. intros [|[_ Hw]]; [done|]. exfalso.
      apply (size_verdict_None settings ctx order He) in Hw.
      by pose proof (size_verdict_functional _ _ _ _ _ Hw Hv).
    + intros rejects [= <-]. exists r. split_and!; [done|done| |done]. rewrite Hf. naive_solver.
  - split.
    + split; [done|]. intros [|(Hk & Hq & Hn)]; [done|]. destruct He.
      apply within_spec in Hq as [Hq _], Hn as [Hn _]. by split.
    + intros rejects [= <-]. exists r. by split_and!.
Qed.

End CheckFacts.

(** ** Settings and retirement *)
Section SettingsFacts.
Context {D : DecimalOps}.

Definition has_cap (limit : OrderSizeLimit) : Prop :=
  is_Some (max_quantity limit) \/ is_Some (max_notional limit).

Lemma validate_size_limit_spec limit :
  validate_size_limit limit = Ok tt /\ has_cap limit \/
  validate_size_limit limit = Err NoCapsConfigured /\ ~ has_cap limit.
Proof.
  unfold validate_size_limit, has_cap. destruct limit as [[q|] [n|]]; cbn; [left; eauto..|].
  right. split; [done|]. by intros [[? [=]]|[? [=]]].
Qed.

Section Collect.
Context {K : Type} `{Countable K} {B : Type}.
Context (key : B -> K) (limit : B -> OrderSizeLimit) (duplicate : K -> OrderSizeLimitPolicyError).
Implicit Types (bs : list B) (m : gmap K OrderSizeLimit).

(** Barriers a fresh axis takes: capped, and no key twice. *)
Definition axis_ok bs : Prop := Forall (fun b => has_cap (limit b)) bs /\ NoDup (key <$> bs).

Definition axis_map bs : gmap K OrderSizeLimit := list_to_map ((fun b => (key b, limit b)) <$> bs).

(** The first barrier that is refused, and why. *)
Definition offender m bs (e : OrderSizeLimitPolicyError) : Prop :=
  exists before b after, bs = before ++ b :: after /\
    axis_ok before /\ (forall x, x ∈ before -> m !! key x = None) /\
    (~ has_cap (limit b) /\ e = NoCapsConfigured \/
     has_cap (limit b) /\ (is_Some (m !! key b) \/ key b ∈ key <$> before) /\ e = duplicate (key b)).

Lemma fresh_after bs m k l :
  (forall b, b ∈ bs -> <[k := l]> m !! key b = None) ->
  k ∉ key <$> bs /\ (forall b, b ∈ bs -> m !! key b = None).
Proof.
  intros Hf. split.
  - intros (b & -> & Hb)%list_elem_of_fmap. specialize (Hf _ Hb). by rewrite lookup_insert_eq in Hf.
  - intros b Hb. by apply Hf, lookup_insert_None in Hb as [? ?].
Qed.

Lemma collect_barriers_spec bs m :
  match collect_barriers key limit duplicate bs m with
  | Ok m' => axis_ok bs /\ (forall b, b ∈ bs -> m !! key b = None) /\ m' = axis_map bs ∪ m
  | Err e => offender m bs e
  end.
Proof.
  revert m. induction bs as [|b bs IH]; intros m; cbn.
  { split; [split; constructor|]. split; [set_solver|]. unfold axis_map. cbn. by rewrite (left_id_L ∅ (∪)). }
  destruct (validate_size_limit_spec (limit b)) as [[-> Hc]|[-> Hc]]; cbn.
  2: { exists [], b, bs. split_and!; [done|split; constructor|set_solver|by left]. }
  destruct (m !! key b) as [old|] eqn:Hm.
  { exists [], b, bs. split_and!; [done|split; constructor|set_solver|]. right. rewrite Hm. by eauto. }
  specialize (IH (<[key b := limit b]> m)). destruct (collect_barriers _ _ _ _ _) as [m'|e].
  - destruct IH as ([Hcs Hnd] & Hf & ->). pose proof (fresh_after _ _ _ _ Hf) as [Hk Hf'].
    split; [split; [by constructor|by constructor]|].
    split; [intros b' [->|Hb]%elem_of_cons; [done|by apply Hf']|].
    unfold axis_map. cbn. rewrite <- insert_union_l, insert_union_r; [done|].
    apply not_elem_of_list_to_map. by rewrite <- list_fmap_compose.
  - destruct IH as (before & b' & after & -> & [Hcs Hnd] & Hf & He).
    pose proof (fresh_after _ _ _ _ Hf) as [Hk Hf'].
    exists (b :: before), b', after. split; [done|].
    split; [split; by constructor|]. split; [intros x [->|Hx]%elem_of_cons; [done|by apply Hf']|].
    destruct He as [He|(Hc' & He & ->)]; [by left|right]. split_and!; [done| |done].
    rewrite fmap_cons, elem_of_cons. destruct He as [He|He]; [|by auto].
    destruct (decide (key b' = key b)) as [E|E]; [by auto|]. left. by rewrite lookup_insert_ne in He.
Qed.

Lemma offender_not_ok bs e : offender ∅ bs e -> ~ axis_ok bs.
Proof.
  intros (before & b & after & -> & _ & _ & [[Hc _]|(_ & Hk & _)]) [Hcs Hnd].
  - apply Forall_app in Hcs as [_ Hcs]. by apply Forall_cons_1 in Hcs as [? _].
  - rewrite lookup_empty in Hk. destruct Hk as [[? [=]]|Hk].
    rewrite fmap_app, fmap_cons in Hnd. apply NoDup_app in Hnd as (_ & Hd & _).
    by apply (Hd _ Hk), elem_of_cons; left.
Qed.

(** A fresh axis takes exactly the lists that are in order, whole. *)
Lemma collect_fresh_spec bs :
  (axis_ok bs -> collect_barriers key limit duplicate bs ∅ = Ok (axis_map bs)) /\
  (~ axis_ok bs -> exists e, collect_barriers key limit duplicate bs ∅ = Err e /\ offender ∅ bs e).
Proof.
  pose proof (collect_barriers_spec bs ∅) as Hs. destruct (collect_barriers _ _ _ bs ∅) as [m|e].
  - destruct Hs as (Hok & _ & ->). rewrite (right_id_L ∅ (∪)). by split.
  - split; [|by exists e]. intros Hok. by destruct (offender_not_ok _ _ Hs).
Qed.

Lemma axis_map_capped bs : axis_ok bs -> map_Forall (fun _ l => has_cap l) (axis_map bs).
Proof.
  intros [Hc _] k l Hl. apply elem_of_list_to_map_2, list_elem_of_fmap in Hl as (b & [= -> ->] & Hb).
  by rewrite Forall_forall in Hc; apply Hc.
Qed.

End Collect.

(** Settings as the constructor and the setters leave them. *)
Definition settings_capped (s : OrderSizeLimitSettings) : Prop :=
  map_Forall (fun _ l => has_cap l) (oss_account_asset_limits s) /\
  map_Forall (fun _ l => has_cap l) (oss_asset_limits s) /\
  (forall barrier, oss_broker s = Some barrier -> has_cap (osb_limit barrier)).

Definition broker_ok (broker : option OrderSizeBrokerBarrier) : Prop :=
  forall barrier, broker = Some barrier -> has_cap (osb_limit barrier).

Lemma validate_broker_spec broker :
  (broker_ok broker -> validate_broker broker = Ok tt) /\
  (~ broker_ok broker -> validate_broker broker = Err NoCapsConfigured).
Proof.
  unfold broker_ok, validate_broker. destruct broker as [b|]; [|by split; [|intros []]].
  destruct (validate_size_limit_spec (osb_limit b)) as [[-> Hc]|[-> Hc]].
  - split; [done|]. intros []. by intros ? [= <-].
  - split; [|done]. intros H. destruct Hc. by apply H.
Qed.

Abbreviation asset_axis_ok := (axis_ok osa_asset osa_limit).
Abbreviation account_asset_axis_ok := (axis_ok account_asset_key osaa_limit).

Definition size_settings_empty : OrderSizeLimitSettings := mkSizeSettings ∅ ∅ None.

(** A setter replaces its axis and nothing else, exactly when every barrier has a
    cap and no key comes twice; otherwise it names the first barrier that is at
    fault.  The constructor is the three setters in turn. *)
Theorem size_setters_spec s broker assets account_assets :
  (asset_axis_ok assets -> size_set_asset_barriers s assets =
     Ok (mkSizeSettings (oss_account_asset_limits s) (axis_map osa_asset osa_limit assets) (oss_broker s))) /\
  (~ asset_axis_ok assets -> exists e, size_set_asset_barriers s assets = Err e /\
     offender osa_asset osa_limit DuplicateAssetBarrier ∅ assets e) /\
  (account_asset_axis_ok account_assets -> size_set_account_asset_barriers s account_assets =
     Ok (mkSizeSettings (axis_map account_asset_key osaa_limit account_assets) (oss_asset_limits s) (oss_broker s))) /\
  (~ account_asset_axis_ok account_assets -> exists e, size_set_account_asset_barriers s account_assets = Err e /\
     offender account_asset_key osaa_limit (fun key => DuplicateAccountAssetBarrier key.2) ∅ account_assets e) /\
  (broker_ok broker -> size_set_broker s broker =
     Ok (mkSizeSettings (oss_account_asset_limits s) (oss_asset_limits s) broker)) /\
  (~ broker_ok broker -> size_set_broker s broker = Err NoCapsConfigured) /\
  size_settings_new broker assets account_assets =
    (s ← size_set_broker size_settings_empty broker;
     s ← size_set_asset_barriers s assets;
     size_set_account_asset_barriers s account_assets).
Proof.
  destruct (collect_fresh_spec osa_asset osa_limit DuplicateAssetBarrier assets) as [HA1 HA2].
  destruct (collect_fresh_spec account_asset_key osaa_limit (fun key => DuplicateAccountAssetBarrier key.2)
    account_assets) as [HB1 HB2].
  destruct (validate_broker_spec broker) as [HC1 HC2].
  unfold size_set_asset_barriers, size_set_account_asset_barriers, size_set_broker, size_settings_new,
    collect_asset_limits, collect_account_asset_limits.
  split_and!.
  - intros H. by rewrite HA1.
  - intros (e & -> & ?)%HA2. by exists e.
  - intros H. by rewrite HB1.
  - intros (e & -> & ?)%HB2. by exists e.
  - intros H. by rewrite HC1.
  - intros H. by rewrite HC2.
  - destruct (validate_broker broker); [|done]. cbn.
    by destruct (collect_barriers osa_asset _ _ _ _).
Qed.

(** Whatever the history of settings, every barrier in them has a cap. *)
Inductive size_settings_reachable : OrderSizeLimitSettings -> Prop :=
| ssr_new broker assets account_assets s :
    size_settings_new broker assets account_assets = Ok s -> size_settings_reachable s
| ssr_broker s broker s' :
    size_settings_reachable s -> size_set_broker s broker = Ok s' -> size_settings_reachable s'
| ssr_assets s assets s' :
    size_settings_reachable s -> size_set_asset_barriers s assets = Ok s' -> size_settings_reachable s'
| ssr_account_assets s account_assets s' :
    size_settings_reachable s -> size_set_account_asset_barriers s account_assets = Ok s' ->
    size_settings_reachable s'.

Lemma size_set_broker_capped s broker s' :
  settings_capped s -> size_set_broker s broker = Ok s' -> settings_capped s'.
Proof.
  intros (H1 & H2 & _). unfold size_set_broker.
  destruct broker as [b|]; cbn; [|by intros [= <-]].
  destruct (validate_size_limit_spec (osb_limit b)) as [[-> Hc]|[-> _]]; [|done].
  intros [= <-]. split_and!; [done..|]. by intros ? [= <-].
Qed.

Lemma size_set_asset_barriers_capped s assets s' :
  settings_capped s -> size_set_asset_barriers s assets = Ok s' -> settings_capped s'.
Proof.
  intros (H1 & _ & H3). unfold size_set_asset_barriers, collect_asset_limits.
  pose proof (collect_barriers_spec osa_asset osa_limit DuplicateAssetBarrier assets ∅) as H.
  destruct (collect_barriers _ _ _ _ _) as [m|e]; [|done]. destruct H as (Hok & _ & ->). intros [= <-].
  rewrite (right_id_L ∅ (∪)). split_and!; [done|by apply axis_map_capped|done].
Qed.

Lemma size_set_account_asset_barriers_capped s account_assets s' :
  settings_capped s -> size_set_account_asset_barriers s account_assets = Ok s' -> settings_capped s'.
Proof.
  intros (_ & H2 & H3). unfold size_set_account_asset_barriers, collect_account_asset_limits.
  pose proof (collect_barriers_spec account_asset_key osaa_limit
    (fun key => DuplicateAccountAssetBarrier key.2) account_assets ∅) as H.
  destruct (collect_barriers _ _ _ _ _) as [m|e]; [|done]. destruct H as (Hok & _ & ->). intros [= <-].
  rewrite (right_id_L ∅ (∪)). split_and!; [by apply axis_map_capped|done..].
Qed.

Theorem size_settings_reachable_capped s : size_settings_reachable s -> settings_capped s.
Proof.
  induction 1 as [broker assets account_assets s H| | |];
    eauto using size_set_broker_capped, size_set_asset_barriers_capped, size_set_account_asset_barriers_capped.
  destruct (size_setters_spec size_settings_empty broker assets account_assets) as (_ & _ & _ & _ & _ & _ & E).
  rewrite E in H. clear E. apply result_bind_Ok in H as (s1 & H1 & H).
  apply result_bind_Ok in H as (s2 & H2 & H).
  eapply size_set_account_asset_barriers_capped; [|done].
  eapply size_set_asset_barriers_capped; [|done].
  eapply size_set_broker_capped; [|done]. split_and!; [apply map_Forall_empty..|done].
Qed.

End SettingsFacts.

(** An account cannot retire exactly while a barrier names it. *)
Theorem order_size_retire_account_spec {D : DecimalOps} {W} {O : Owns W OrderSizeLimitSettings}
    account (st : EngineState W) :
  let limits := oss_account_asset_limits (own_get (es_world st)) in
  (order_size_retire_account account st = Err ConfigurationReferencesAccount <->
   exists asset, is_Some (limits !! (account, asset))) /\
  (order_size_retire_account account st = Ok tt <-> forall asset, limits !! (account, asset) = None).
Proof.
  intros limits.
  assert (Hex : existsb (fun key => bool_decide (key.1 = account)) (map_to_list limits).*1 = true <->
    exists asset, is_Some (limits !! (account, asset))).
  { rewrite existsb_exists. setoid_rewrite bool_decide_eq_true. setoid_rewrite <- list_elem_of_In. split.
    - intros ([a asset] & ([k l] & -> & Hl)%list_elem_of_fmap & <-). cbn. exists k.2, l.
      apply elem_of_map_to_list in Hl. by destruct k.
    - intros (asset & l & Hl). exists (account, asset). split; [|done].
      apply list_elem_of_fmap. exists ((account, asset), l). split; [done|by apply elem_of_map_to_list]. }
  unfold order_size_retire_account. fold limits.
  destruct (existsb _ _).
  - split; [by split; [intros _; apply Hex|]|]. split; [done|]. intros Hn.
    destruct Hex as [Hex _]. destruct (Hex eq_refl) as (asset & Hs). rewrite Hn in Hs. by destruct Hs.
  - split; [split; [done|by intros ?%Hex]|]. split; [|done]. intros _ asset.
    apply eq_None_not_Some. intros Hs. by assert (false = true) by (apply Hex; by exists asset).
Qed.
