(* ===== verification/PnlBounds.v ===== *)
(** * PnlBounds: the built-in P&L kill switch policy

    src/crates/openpit/src/pretrade/policies/pnl_bounds.rs and
    pnl_bounds_killswitch.rs, and the force-set of core/configure.rs.  The policy
    owns its settings and a ledger of realized P&L per account and settlement
    asset; execution reports add to the ledger whatever barriers exist. *)
From S2P Require Import Prelude.
From S2P Require Import Decimal.
From S2P Require Import Param.
From S2P Require Import ParamTypes.
From S2P Require Import Identifiers.
From S2P Require Import Mutation.
From S2P Require Import Reject.
From S2P Require Import AccountControl.
From S2P Require Import Accounts.
From S2P Require Import Lock.
From S2P Require Import Policy.
From S2P Require Import Storage.
Open Scope Z_scope.

(** ** pnl_bounds.rs: bounds, shared with the spot-funds policy *)
Section Bounds.
Context {D : DecimalOps}.

Definition REALIZED_PNL_LABEL : string := "realized pnl".

Definition has_configured_bound (lower_bound upper_bound : option Pnl) : bool :=
  is_some lower_bound || is_some upper_bound.

Definition breached_sides (lower_bound upper_bound : option Pnl) (realized : Pnl) : list string :=
  match lower_bound with Some lb => if sg_ltb realized lb then ["lower"] else [] | None => [] end ++
  match upper_bound with Some ub => if sg_gtb realized ub then ["upper"] else [] | None => [] end.

Definition is_nil_list {A} (l : list A) : bool := match l with [] => true | _ => false end.

Definition outside_bounds (lower_bound upper_bound : option Pnl) (realized : Pnl) : bool :=
  negb (is_nil_list (breached_sides lower_bound upper_bound realized)).

Context {F : DecimalFormat}.

Definition labelled_barrier_breach_details (breached_sides : list string)
    (lower_bound upper_bound : option Pnl) (value : Pnl) (label asset_label : string) (asset : Asset) :
    string :=
  let desc := String.concat " and " breached_sides in
  desc +:+ " bound breached: " +:+ label +:+ " " +:+ sg_fmt value +:+
  match lower_bound with Some lower => ", lower bound " +:+ sg_fmt lower | None => "" end +:+
  match upper_bound with Some upper => ", upper bound " +:+ sg_fmt upper | None => "" end +:+
  ", " +:+ asset_label +:+ " " +:+ Asset_fmt asset.

Definition barrier_breach_details (breached_sides : list string) (lower_bound upper_bound : option Pnl)
    (realized : Pnl) (asset_label : string) (asset : Asset) : string :=
  labelled_barrier_breach_details breached_sides lower_bound upper_bound realized REALIZED_PNL_LABEL
    asset_label asset.

Definition barrier_breach_reject (policy_name reason : string) (breached_sides : list string)
    (lower_bound upper_bound : option Pnl) (realized : Pnl) (asset_label : string) (asset : Asset) :
    Reject :=
  reject_new policy_name RS_Account RC_PnlKillSwitchTriggered reason
    (barrier_breach_details breached_sides lower_bound upper_bound realized asset_label asset).

Definition pnl_breach_account_block (policy_name details : string) : AccountBlock :=
  account_block_new policy_name RC_PnlKillSwitchTriggered "pnl kill switch triggered" details.

Definition pnl_calculation_failed_block (policy_name reason details : string) : AccountBlock :=
  account_block_new policy_name RC_OrderValueCalculationFailed reason details.

End Bounds.

(** ** Barriers and settings *)

Definition PnlBoundsKillSwitchPolicy_NAME : string := "PnlBoundsKillSwitchPolicy".

Section Settings.
Context {D : DecimalOps}.

Record PnlBoundsBrokerBarrier : Type := mkPnlBroker {
  pb_settlement_asset : Asset;
  pb_lower_bound : option Pnl;
  pb_upper_bound : option Pnl
}.

Record PnlBoundsAccountAssetBarrier : Type := mkPnlAccountAsset {
  pa_barrier : PnlBoundsBrokerBarrier;
  pa_account_id : AccountId;
  pa_initial_pnl : Pnl
}.

Record PnlBoundsAccountAssetBarrierUpdate : Type := mkPnlUpdate {
  pu_barrier : PnlBoundsBrokerBarrier;
  pu_account_id : AccountId
}.

Inductive PnlBoundsKillSwitchPolicyError : Type :=
| NoBarriersConfigured
| NoBoundsConfigured (settlement_asset : Asset).

Definition PnlBoundsKillSwitchPolicyError_fmt (self : PnlBoundsKillSwitchPolicyError) : string :=
  match self with
  | NoBarriersConfigured => "at least one broker or account+asset barrier must be configured"
  | NoBoundsConfigured settlement_asset =>
      "at least one of lower_bound or upper_bound must be configured for settlement asset " +:+
      Asset_fmt settlement_asset
  end.

Abbreviation AccountBarriers := (gmap AccountId (gmap Asset PnlBoundsAccountAssetBarrierUpdate)).

Record PnlBoundsKillSwitchSettings : Type := mkPnlSettings {
  ps_account_barriers : AccountBarriers;
  ps_broker_barriers : gmap Asset PnlBoundsBrokerBarrier;
  ps_initial_pnl : gmap (AccountId * Asset) Pnl;
  ps_group_id : PolicyGroupId
}.

Definition validate_bounds (lower_bound upper_bound : option Pnl) (settlement_asset : Asset) :
    result PnlBoundsKillSwitchPolicyError unit :=
  if negb (has_configured_bound lower_bound upper_bound)
  then Err (NoBoundsConfigured settlement_asset)
  else Ok tt.

Definition validate_barrier (barrier : PnlBoundsBrokerBarrier) :
    result PnlBoundsKillSwitchPolicyError unit :=
  validate_bounds (pb_lower_bound barrier) (pb_upper_bound barrier) (pb_settlement_asset barrier).

Fixpoint collect_broker_barriers (barriers : list PnlBoundsBrokerBarrier)
    (broker : gmap Asset PnlBoundsBrokerBarrier) :
    result PnlBoundsKillSwitchPolicyError (gmap Asset PnlBoundsBrokerBarrier) :=
  match barriers with
  | [] => Ok broker
  | barrier :: barriers =>
      _ ← validate_barrier barrier;
      collect_broker_barriers barriers (<[pb_settlement_asset barrier := barrier]> broker)
  end.

(** [entry(account_id).or_insert_with(HashMap::new).insert(..)]. *)
Definition insert_account_barrier (update : PnlBoundsAccountAssetBarrierUpdate) (account : AccountBarriers) :
    AccountBarriers :=
  <[pu_account_id update :=
      <[pb_settlement_asset (pu_barrier update) := update]> (default ∅ (account !! pu_account_id update))]>
    account.

Fixpoint collect_account_updates (barriers : list PnlBoundsAccountAssetBarrierUpdate)
    (account : AccountBarriers) : result PnlBoundsKillSwitchPolicyError AccountBarriers :=
  match barriers with
  | [] => Ok account
  | barrier :: barriers =>
      _ ← validate_barrier (pu_barrier barrier);
      collect_account_updates barriers (insert_account_barrier barrier account)
  end.

(** The constructor's loop also collects the seeds. *)
Fixpoint collect_account_barriers_new (barriers : list PnlBoundsAccountAssetBarrier)
    (account : AccountBarriers) (initial_pnl : gmap (AccountId * Asset) Pnl) :
    result PnlBoundsKillSwitchPolicyError (AccountBarriers * gmap (AccountId * Asset) Pnl) :=
  match barriers with
  | [] => Ok (account, initial_pnl)
  | barrier :: barriers =>
      _ ← validate_barrier (pa_barrier barrier);
      let initial_pnl :=
        <[(pa_account_id barrier, pb_settlement_asset (pa_barrier barrier)) := pa_initial_pnl barrier]>
          initial_pnl in
      collect_account_barriers_new barriers
        (insert_account_barrier (mkPnlUpdate (pa_barrier barrier) (pa_account_id barrier)) account)
        initial_pnl
  end.

Definition pnl_settings_new (broker_barriers : list PnlBoundsBrokerBarrier)
    (account_barriers : list PnlBoundsAccountAssetBarrier) :
    result PnlBoundsKillSwitchPolicyError PnlBoundsKillSwitchSettings :=
  broker ← collect_broker_barriers broker_barriers ∅;
  '(account, initial_pnl) ← collect_account_barriers_new account_barriers ∅ ∅;
  if map_is_empty broker && map_is_empty account then Err NoBarriersConfigured
  else Ok (mkPnlSettings account broker initial_pnl DEFAULT_POLICY_GROUP_ID).

Definition set_broker_barriers (self : PnlBoundsKillSwitchSettings)
    (barriers : list PnlBoundsBrokerBarrier) :
    result PnlBoundsKillSwitchPolicyError PnlBoundsKillSwitchSettings :=
  broker ← collect_broker_barriers barriers ∅;
  if map_is_empty broker && map_is_empty (ps_account_barriers self) then Err NoBarriersConfigured
  else Ok (mkPnlSettings (ps_account_barriers self) broker (ps_initial_pnl self) (ps_group_id self)).

Definition set_pnl_account_barriers (self : PnlBoundsKillSwitchSettings)
    (barriers : list PnlBoundsAccountAssetBarrierUpdate) :
    result PnlBoundsKillSwitchPolicyError PnlBoundsKillSwitchSettings :=
  account ← collect_account_updates barriers ∅;
  if map_is_empty (ps_broker_barriers self) && map_is_empty account then Err NoBarriersConfigured
  else Ok (mkPnlSettings account (ps_broker_barriers self) (ps_initial_pnl self) (ps_group_id self)).

(** ** The policy's state *)

Abbreviation Ledger := (gmap (AccountId * Asset) Pnl).

Record KillSwitchState : Type := mkKillSwitch {
  pks_settings : PnlBoundsKillSwitchSettings;
  pks_realized : Ledger
}.

Definition ledger_set (realized : Ledger) (key : AccountId * Asset) (value : Pnl) : Ledger :=
  (with_mut realized key sg_ZERO (fun _ _ => (tt, value))).2.

(** [PnlBoundsKillSwitchPolicy::new]; the seeds have distinct keys, so the order
    the map is drained in does not matter. *)
Definition pnl_policy_new (settings : PnlBoundsKillSwitchSettings) : KillSwitchState :=
  mkKillSwitch
    (mkPnlSettings (ps_account_barriers settings) (ps_broker_barriers settings) ∅ (ps_group_id settings))
    (foldr (fun seed realized => ledger_set realized seed.1 seed.2) ∅ (map_to_list (ps_initial_pnl settings))).

Definition pnl_with_policy_group_id (self : KillSwitchState) (id : PolicyGroupId) : KillSwitchState :=
  let s := pks_settings self in
  mkKillSwitch (mkPnlSettings (ps_account_barriers s) (ps_broker_barriers s) (ps_initial_pnl s) id)
    (pks_realized self).

(** [Configurator::set_account_pnl]. *)
Definition set_account_pnl (account : AccountId) (settlement_asset : Asset) (pnl : Pnl) (self : KillSwitchState) :
    KillSwitchState :=
  mkKillSwitch (pks_settings self) (ledger_set (pks_realized self) (account, settlement_asset) pnl).

Definition is_outside_bounds (broker_barriers : gmap Asset PnlBoundsBrokerBarrier)
    (account_barriers : AccountBarriers) (pnl : Pnl) (settlement : Asset) (account_id : AccountId) : bool :=
  let broker_outside :=
    match broker_barriers !! settlement with
    | Some b => outside_bounds (pb_lower_bound b) (pb_upper_bound b) pnl
    | None => false
    end in
  if broker_outside then true
  else
    match account_barriers !! account_id ≫= (.!! settlement) with
    | Some b => outside_bounds (pb_lower_bound (pu_barrier b)) (pb_upper_bound (pu_barrier b)) pnl
    | None => false
    end.

End Settings.
Arguments PnlBoundsBrokerBarrier {D}.
Arguments PnlBoundsAccountAssetBarrier {D}.
Arguments PnlBoundsAccountAssetBarrierUpdate {D}.
Arguments PnlBoundsKillSwitchSettings {D}.
Arguments KillSwitchState {D}.

(** ** The hooks *)
Section Hooks.
Context {D : DecimalOps} {F : DecimalFormat} {W Order ExecutionReport AccountAdjustment : Type}.
Context {HI : HasInstrument Order}.
Context {RI : HasInstrument ExecutionReport} {RP : HasPnl ExecutionReport} {RF : HasFee ExecutionReport}.
Context {RA : HasAccountId ExecutionReport}.
Context {O : Owns W KillSwitchState}.
(** How often the report's account was read before the hook reads it. *)
Context (reads : nat).

Abbreviation St := (EngineState W).
Abbreviation PRejects := (Rejects PolicyPreTradeResult).

Definition pnl_required {T} (field : string) (r : result RequestFieldAccessError T) : result PRejects T :=
  map_err (fun e => rejects_from_reject
             (missing_required_field_reject PnlBoundsKillSwitchPolicy_NAME field e)) r.

Definition barrier_breach (barrier : PnlBoundsBrokerBarrier) (reason : string) (current_pnl : Pnl) :
    option Reject :=
  let sides := breached_sides (pb_lower_bound barrier) (pb_upper_bound barrier) current_pnl in
  if is_nil_list sides then None
  else Some (barrier_breach_reject PnlBoundsKillSwitchPolicy_NAME reason sides (pb_lower_bound barrier)
               (pb_upper_bound barrier) current_pnl "settlement asset" (pb_settlement_asset barrier)).

(** The closure of the second snapshot. *)
Definition pnl_breaches (state : KillSwitchState) (account_id : AccountId) (settlement : Asset) :
    option Reject * option Reject :=
  let broker_barrier := ps_broker_barriers (pks_settings state) !! settlement in
  let account_barrier := ps_account_barriers (pks_settings state) !! account_id ≫= (.!! settlement) in
  match broker_barrier, account_barrier with
  | None, None => (None, None)
  | _, _ =>
      let current_pnl :=
        default sg_ZERO (storage_with (pks_realized state) (account_id, settlement) (fun entry => entry)) in
      (b ← broker_barrier;
       barrier_breach b "pnl kill switch triggered: broker barrier" current_pnl,
       a ← account_barrier;
       barrier_breach (pu_barrier a) "pnl kill switch triggered: account + asset barrier" current_pnl)
  end.

(** The hook with the states its two snapshots see: the order's accessors run
    in between and may let others publish. *)
Definition pnl_check_observed (first second : KillSwitchState) (ctx : PreTradeContext) (order : Order) :
    result PRejects unit :=
  let possible account_id :=
    negb (map_is_empty (ps_broker_barriers (pks_settings first)) &&
          negb (is_some (ps_account_barriers (pks_settings first) !! account_id))) in
  target ←
    match drop_copy_account_id ctx with
    | Some account_id =>
        if negb (possible account_id) then Ok None
        else
          instrument ← pnl_required "instrument" (instrument order);
          Ok (Some (instrument, account_id))
    | None =>
        instrument ← pnl_required "instrument" (instrument order);
        account_id ← pnl_required "account ID" (ptc_account ctx);
        Ok (Some (instrument, account_id))
    end;
  match target with
  | None => Ok tt
  | Some (instrument, account_id) =>
      match pnl_breaches second account_id (settlement_asset instrument) with
      | (Some reject, _) | (None, Some reject) => Err (rejects_from_reject reject)
      | (None, None) => Ok tt
      end
  end.

Definition pnl_check_pre_trade_start (ctx : PreTradeContext) (order : Order) (s : HookState W) :
    result PRejects unit * HookState W :=
  let state := own_get (es_world s.2) in
  (pnl_check_observed state state ctx order, s).

Definition report_required {T} (field : string) (r : result RequestFieldAccessError T) :
    result AccountBlock T :=
  map_err (fun e => missing_required_field_account_block PnlBoundsKillSwitchPolicy_NAME field e) r.

(** The mutator run on the ledger's slot. *)
Definition accumulate (settings : PnlBoundsKillSwitchSettings) (account_id : AccountId) (settlement : Asset)
    (pnl_with_fee : Pnl) (entry : Pnl) : option AccountBlock * Pnl :=
  let previous := entry in
  match sg_checked_add previous pnl_with_fee with
  | Err _ =>
      (Some (pnl_calculation_failed_block PnlBoundsKillSwitchPolicy_NAME "pnl accumulation overflow"
         ("realized pnl + pnl_with_fee overflow: previous " +:+ sg_fmt previous +:+ ", increment " +:+
          sg_fmt pnl_with_fee +:+ ", settlement asset " +:+ Asset_fmt settlement)), entry)
  | Ok updated =>
      let outside :=
        is_outside_bounds (ps_broker_barriers settings) (ps_account_barriers settings) updated settlement
          account_id in
      (if outside
       then Some (pnl_breach_account_block PnlBoundsKillSwitchPolicy_NAME
              ("realized pnl " +:+ sg_fmt updated +:+ ", settlement asset " +:+ Asset_fmt settlement))
       else None, updated)
  end.

(** What the report says: the slot and the change, or the block it earns. *)
Definition report_increment (report : ExecutionReport) : result AccountBlock (AccountId * Asset * Pnl) :=
  instrument ← report_required "instrument" (instrument report);
  account_id ← report_required "account ID" (account_id report reads);
  pnl_delta ← report_required "P&L" (report_pnl report);
  fee ← report_required "fee" (report_fee report);
  let settlement := settlement_asset instrument in
  match sg_checked_add pnl_delta (fee_to_pnl fee) with
  | Ok pnl_with_fee => Ok (account_id, settlement, pnl_with_fee)
  | Err _ =>
      Err (pnl_calculation_failed_block PnlBoundsKillSwitchPolicy_NAME "pnl accumulation overflow"
             ("pnl + fee overflow: pnl " +:+ sg_fmt pnl_delta +:+ ", fee " +:+ sg_fmt fee +:+
              ", settlement asset " +:+ Asset_fmt settlement))
  end.

Definition apply_report_state (report : ExecutionReport) (state : KillSwitchState) :
    option PostTradeResult * KillSwitchState :=
  match report_increment report with
  | Err block => (Some (blocks_only [block]), state)
  | Ok (account_id, settlement, pnl_with_fee) =>
      let '(block, realized) :=
        with_mut (pks_realized state) (account_id, settlement) sg_ZERO
          (fun entry _ => accumulate (pks_settings state) account_id settlement pnl_with_fee entry) in
      ((fun b => blocks_only [b]) <$> block, mkKillSwitch (pks_settings state) realized)
  end.

Definition pnl_apply_execution_report (ctx : PostTradeContext) (report : ExecutionReport)
    (s : GroupCell * St) : option PostTradeResult * (GroupCell * St) :=
  let '(r, state) := apply_report_state report (own_get (es_world s.2)) in
  (r, (s.1, with_world s.2 (own_set state (es_world s.2)))).

(** ** Retirement *)

Definition forget_zero_entry (key : AccountId * Asset) (st : St) : bool * St :=
  let state := own_get (es_world st) in
  let '(removed, realized) := storage_remove_if (pks_realized state) key (fun pnl => sg_eqb pnl sg_ZERO) in
  (removed, with_world st (own_set (mkKillSwitch (pks_settings state) realized) (es_world st))).

Definition forget_mutation (key : AccountId * Asset) : Mutation St :=
  new_reporting (forget_zero_entry key) (fun st => (rollback_default, st)).

Definition account_keys (account : AccountId) (realized : gmap (AccountId * Asset) Pnl) :
    list (AccountId * Asset) :=
  List.filter (fun key => bool_decide (key.1 = account)) (storage_keys realized).

Definition pnl_retire_account (account : AccountId) (mutations : Mutations St) (st : St) :
    result AccountRetirementRefusal unit * Mutations St * St :=
  let state := own_get (es_world st) in
  let keys := account_keys account (pks_realized state) in
  if existsb (fun key => match storage_with (pks_realized state) key (fun pnl => pnl) with
                         | Some pnl => negb (sg_eqb pnl sg_ZERO)
                         | None => false
                         end) keys
  then (Err NonZeroState, mutations, st)
  else if is_some (ps_account_barriers (pks_settings state) !! account)
  then (Err ConfigurationReferencesAccount, mutations, st)
  else (Ok tt, foldl (fun ms key => mutations_push ms (forget_mutation key)) mutations keys, st).

(** The group tag travels in the settings; no setter changes it. *)
Definition pnl_killswitch_policy (group_id : PolicyGroupId) :
    PreTradePolicy W Order ExecutionReport AccountAdjustment :=
  mkPolicy PnlBoundsKillSwitchPolicy_NAME group_id pnl_check_pre_trade_start pnl_check_pre_trade_start
    perform_default perform_default pnl_apply_execution_report adjustment_default pnl_retire_account.

End Hooks.
