(* ===== verification/PnlBoundsFacts.v ===== *)
(** * PnlBoundsFacts: what the P&L kill switch policy guarantees

    When an order passes, what a report adds to the ledger and when it blocks,
    that the two agree, that the ledger loses nothing across reports and
    reconfigurations, which settings are accepted, and retirement. *)
From S2P Require Import Prelude.
From S2P Require Import Decimal.
From S2P Require Import Param.
From S2P Require Import ParamTypes.
From S2P Require Import Identifiers.
From S2P Require Import Mutation.
From S2P Require Import Reject.
From S2P Require Import AccountControl.
From S2P Require Import Accounts.
From S2P Require Import Lock.
From S2P Require Import Policy.
From S2P Require Import Engine.
From S2P Require Import EngineFacts.
From S2P Require Import EngineOps.
From S2P Require Import Storage.
From S2P Require Import OrderValidation.
From S2P Require Import PnlBounds.
Open Scope Z_scope.

(** ** Bounds *)
Section BoundsFacts.
Context {D : DecimalOps} {L : DecimalLaws D}.

Definition in_bounds (lower upper : option Pnl) (pnl : Pnl) : Prop :=
  (forall lb, lower = Some lb -> sg_val lb <= sg_val pnl) /\
  (forall ub, upper = Some ub -> sg_val pnl <= sg_val ub).

Lemma breached_sides_spec lower upper pnl :
  is_nil_list (breached_sides lower upper pnl) = true <-> in_bounds lower upper pnl.
Proof.
  unfold breached_sides, in_bounds. destruct lower as [lb|], upper as [ub|]; rewrite ?sg_ltb_val, ?sg_gtb_val;
    repeat match goal with |- context [?a <? ?b] => destruct (Z.ltb_spec a b) end; cbn;
    (split; [try done|]); intros; try (split; intros ? [= <-]; lia); try done;
    match goal with H : _ /\ _ |- _ => destruct H as [H1 H2] end;
    first [specialize (H1 _ eq_refl); lia | specialize (H2 _ eq_refl); lia].
Qed.

Lemma outside_bounds_spec lower upper pnl :
  outside_bounds lower upper pnl = false <-> in_bounds lower upper pnl.
Proof. unfold outside_bounds. by rewrite negb_false_iff, breached_sides_spec. Qed.

(** A barrier holds at a value. *)
Definition barrier_holds (barrier : PnlBoundsBrokerBarrier) (pnl : Pnl) : Prop :=
  in_bounds (pb_lower_bound barrier) (pb_upper_bound barrier) pnl.

(** Every barrier that covers the account and the asset holds. *)
Definition admissible (settings : PnlBoundsKillSwitchSettings) (account : AccountId) (settlement : Asset)
    (pnl : Pnl) : Prop :=
  (forall b, ps_broker_barriers settings !! settlement = Some b -> barrier_holds b pnl) /\
  (forall m a, ps_account_barriers settings !! account = Some m -> m !! settlement = Some a ->
     barrier_holds (pu_barrier a) pnl).

Lemma is_outside_bounds_spec settings pnl settlement account :
  is_outside_bounds (ps_broker_barriers settings) (ps_account_barriers settings) pnl settlement account = false <->
  admissible settings account settlement pnl.
Proof.
  unfold is_outside_bounds, admissible, barrier_holds. setoid_rewrite <- outside_bounds_spec.
  destruct (ps_broker_barriers settings !! settlement) as [b|];
    [destruct (outside_bounds (pb_lower_bound b) _ _) eqn:Eb|];
    (destruct (ps_account_barriers settings !! account) as [m|]; cbn;
      [destruct (m !! settlement) as [a|] eqn:Ea; cbn|]); try naive_solver.
Qed.

Definition ledger_pnl (state : KillSwitchState) (key : AccountId * Asset) : Pnl :=
  default sg_ZERO (pks_realized state !! key).

End BoundsFacts.

(** ** The start check *)
Section CheckFacts.
Context {D : DecimalOps} {L : DecimalLaws D} {F : DecimalFormat} {W Order : Type}.
Context {HI : HasInstrument Order}.
Implicit Types (ctx : PreTradeContext) (order : Order) (state first second : KillSwitchState).

Lemma barrier_breach_spec barrier reason pnl :
  match barrier_breach barrier reason pnl with
  | None => barrier_holds barrier pnl
  | Some r => ~ barrier_holds barrier pnl /\ reject_code r = RC_PnlKillSwitchTriggered /\
              reject_scope r = RS_Account /\ reject_reason r = reason
  end.
Proof.
  unfold barrier_breach, barrier_holds.
  pose proof (breached_sides_spec (pb_lower_bound barrier) (pb_upper_bound barrier) pnl) as H.
  destruct (is_nil_list _); [by apply H|]. split_and!; [|done..]. by rewrite <- H.
Qed.

(** The broker's breach is reported before the account's. *)
Lemma pnl_breaches_spec state account settlement :
  let pnl := ledger_pnl state (account, settlement) in
  match pnl_breaches state account settlement with
  | (Some r, _) | (None, Some r) =>
      ~ admissible (pks_settings state) account settlement pnl /\
      reject_code r = RC_PnlKillSwitchTriggered /\ reject_scope r = RS_Account
  | (None, None) => admissible (pks_settings state) account settlement pnl
  end.
Proof.
  cbv zeta. unfold pnl_breaches, admissible, ledger_pnl, storage_with.
  rewrite option_fmap_id. set (pnl := default _ _).
  destruct (ps_broker_barriers (pks_settings state) !! settlement) as [b|];
    [pose proof (barrier_breach_spec b "pnl kill switch triggered: broker barrier" pnl) as Hb|];
    (destruct (ps_account_barriers (pks_settings state) !! account) as [m|]; cbn;
      [destruct (m !! settlement) as [a|] eqn:Ea; cbn;
        [pose proof (barrier_breach_spec (pu_barrier a)
           "pnl kill switch triggered: account + asset barrier" pnl) as Ha|]|]);
    repeat match goal with H : context [barrier_breach ?x ?y ?z] |- _ =>
      destruct (barrier_breach x y z); revert H end; intros; naive_solver.
Qed.

(** A drop-copy call of an account that no barrier can concern. *)
Definition exempt first ctx : Prop :=
  exists account, drop_copy_account_id ctx = Some account /\
    ps_broker_barriers (pks_settings first) = ∅ /\
    ps_account_barriers (pks_settings first) !! account = None.


(** What the fields of an order say about where it belongs. *)
Definition order_target ctx order : option (AccountId * Asset) :=
  match instrument order, ptc_account ctx with
  | Ok i, Ok account => Some (account, settlement_asset i)
  | _, _ => None
  end.

Lemma exempt_dec first ctx account : drop_copy_account_id ctx = Some account ->
  map_is_empty (ps_broker_barriers (pks_settings first)) &&
    negb (is_some (ps_account_barriers (pks_settings first) !! account)) = true <->
  exempt first ctx.
Proof.
  intros Ha. unfold exempt, map_is_empty. rewrite andb_true_iff, bool_decide_eq_true, negb_true_iff.
  destruct (ps_account_barriers (pks_settings first) !! account) eqn:E; cbn; naive_solver.
Qed.

(** The hook splits into the exemption, the fields and the bounds. *)
Lemma pnl_check_observed_spec first second ctx order :
  (pnl_check_observed first second ctx order = Ok tt /\ exempt first ctx) \/
  ~ exempt first ctx /\
  match order_target ctx order with
  | None => exists r, pnl_check_observed first second ctx order = Err (rejects_from_reject r) /\
              reject_code r = RC_MissingRequiredField /\ reject_scope r = RS_Order
  | Some key =>
      match pnl_breaches second key.1 key.2 with
      | (Some r, _) | (None, Some r) =>
          pnl_check_observed first second ctx order = Err (rejects_from_reject r)
      | (None, None) => pnl_check_observed first second ctx order = Ok tt
      end
  end.
Proof.
  unfold pnl_check_observed, order_target, pnl_required.
  destruct (drop_copy_account_id ctx) as [account|] eqn:Ha.
  - assert (Hp : ptc_account ctx = Ok account).
    { revert Ha. unfold drop_copy_account_id, known_account. destruct (is_drop_copy ctx); [|done].
      destruct (ptc_account ctx); [|done]. by intros [= ->]. }
    pose proof (exempt_dec first ctx account Ha) as Hx. rewrite Hp, negb_involutive.
    destruct (_ && _); cbn.
    + left. split; [done|]. by apply Hx.
    + right. split; [by intros ?%Hx|]. destruct (instrument order) as [i|e]; cbn; [|by eexists].
      by destruct (pnl_breaches _ _ _) as [[] []].
  - right. split; [intros (a & ? & _); congruence|].
    destruct (instrument order) as [i|e]; cbn; [|by eexists].
    destruct (ptc_account ctx) as [a|e]; cbn; [|by eexists].
    by destruct (pnl_breaches _ _ _) as [[] []].
Qed.

(** An order passes exactly when it is a drop-copy call of an account that, when
    the call looked first, no barrier concerned, or its fields can be read and the
    ledger's value for its account and settlement asset is within every barrier
    that covers them when the call looks last; a breach is an account-scope reject,
    an unreadable field an order-scope one. *)
Theorem pnl_check_spec first second ctx order :
  let r := pnl_check_observed first second ctx order in
  (r = Ok tt <->
     exempt first ctx \/
     exists key, order_target ctx order = Some key /\
       admissible (pks_settings second) key.1 key.2 (ledger_pnl second key)) /\
  (forall rejects, r = Err rejects ->
     exists reject, into_vec rejects = [reject] /\
       (order_target ctx order = None /\ reject_code reject = RC_MissingRequiredField /\
          reject_scope reject = RS_Order \/
        is_Some (order_target ctx order) /\ reject_code reject = RC_PnlKillSwitchTriggered /\
          reject_scope reject = RS_Account)).
Proof.
  cbv zeta. destruct (pnl_check_observed_spec first second ctx order) as [[-> Hx]|[Hx H]].
  { split; [|done]. split; [by left|done]. }
  destruct (order_target ctx order) as [[account settlement]|] eqn:E.
  - pose proof (pnl_breaches_spec second account settlement) as Hb. cbn in H, Hb.
    destruct (pnl_breaches second account settlement) as [[r|] [r'|]]; rewrite H.
    4: { split; [|done]. split; [|done]. intros _. right. by exists (account, settlement). }
    all: destruct Hb as (Hn & Hc & Hs);
      (split; [split; [done|]; intros [?|(? & [= <-] & ?)]; done|]);
      intros rejects [= <-]; eexists; (split; [done|]); right; by split_and!.
  - destruct H as (r & -> & Hc & Hs). split; [split; [done|]; naive_solver|].
    intros rejects [= <-]. exists r. split; [done|]. by left.
Qed.

End CheckFacts.

(** ** Execution reports *)
Section ReportFacts.
Context {D : DecimalOps} {L : DecimalLaws D} {F : DecimalFormat} {ExecutionReport : Type}.
Context {RI : HasInstrument ExecutionReport} {RP : HasPnl ExecutionReport} {RF : HasFee ExecutionReport}.
Context {RA : HasAccountId ExecutionReport}.
Context (reads : nat).
Implicit Types (report : ExecutionReport) (state : KillSwitchState).

Lemma accumulate_spec settings account settlement d entry :
  let '(block, value) := accumulate settings account settlement d entry in
  match sg_checked_add entry d with
  | Err _ => value = entry /\ exists b, block = Some b /\ block_code b = RC_OrderValueCalculationFailed
  | Ok sum => value = sum /\
      match block with
      | None => admissible settings account settlement sum
      | Some b => ~ admissible settings account settlement sum /\ block_code b = RC_PnlKillSwitchTriggered
      end
  end.
Proof.
  unfold accumulate. destruct (sg_checked_add entry d) as [sum|e]; [|split; [done|by eexists]].
  split; [done|]. pose proof (is_outside_bounds_spec settings sum settlement account) as H.
  destruct (is_outside_bounds _ _ _ _ _); [|by apply H]. split; [by rewrite <- H|done].
Qed.

Lemma with_mut_eq {K V Out} `{Countable K} (m : gmap K V) k d (f : V -> bool -> Out * V) :
  (forall v b, f v b = f v true) ->
  with_mut m k d f = ((f (default d (m !! k)) true).1, <[k := (f (default d (m !! k)) true).2]> m).
Proof.
  intros Hf. unfold with_mut, with_mut_phased, with_mut_fast, with_mut_slow.
  destruct (m !! k) as [v|]; cbn; rewrite ?Hf; by destruct (f _ true).
Qed.

(** A report whose fields cannot be read, or whose P&L and fee do not add up,
    leaves the ledger alone and blocks.  Any other report adds P&L minus fee to
    the slot of its account and settlement asset, whether a barrier covers them
    or not, and to no other slot; exactly when the new value leaves a barrier that
    covers them the account is blocked.  A sum that does not fit keeps the old
    value and blocks.  Settings never change. *)
Theorem apply_report_spec report state :
  let '(r, state') := apply_report_state reads report state in
  pks_settings state' = pks_settings state /\
  match report_increment reads report with
  | Err block => state' = state /\ r = Some (blocks_only [block])
  | Ok (account, settlement, d) =>
      (forall key, key <> (account, settlement) -> pks_realized state' !! key = pks_realized state !! key) /\
      let old := ledger_pnl state (account, settlement) in
      let new := ledger_pnl state' (account, settlement) in
      (representable (sg_val old + sg_val d) ->
         sg_val new = sg_val old + sg_val d /\
         (r = None <-> admissible (pks_settings state) account settlement new) /\
         (forall res, r = Some res ->
            exists b, res = blocks_only [b] /\ block_code b = RC_PnlKillSwitchTriggered)) /\
      (is_ok (sg_checked_add old d) = false ->
         new = old /\ exists b, r = Some (blocks_only [b]) /\ block_code b = RC_OrderValueCalculationFailed)
  end.
Proof.
  unfold apply_report_state. destruct (report_increment reads report) as [[[account settlement] d]|b]; [|done].
  rewrite with_mut_eq by done. unfold ledger_pnl. set (old := default sg_ZERO _).
  pose proof (accumulate_spec (pks_settings state) account settlement d old) as H.
  destruct (accumulate _ _ _ _ old) as [block value]. cbn. rewrite lookup_insert_eq. cbn.
  split; [done|]. split; [intros key Hk; by apply lookup_insert_ne|].
  split.
  - intros Hr. destruct (sg_add_val old d Hr) as (sum & Hs & Hv). rewrite Hs in H.
    destruct H as [-> H]. split; [done|]. destruct block as [b|]; cbn.
    + destruct H as [Hn Hc]. split; [done|]. intros res [= <-]. by exists b.
    + by split.
  - destruct (sg_checked_add old d); [done|]. destruct H as [-> (b & -> & Hc)]. intros _.
    split; [done|]. by exists b.
Qed.


(** The two halves of the kill switch agree: a report blocks its account exactly
    when the next live order on the same settlement asset would be rejected. *)
Theorem report_and_check_agree {Order} {HI : HasInstrument Order} report state account settlement d
    ctx (order : Order) :
  report_increment reads report = Ok (account, settlement, d) ->
  representable (sg_val (ledger_pnl state (account, settlement)) + sg_val d) ->
  is_drop_copy ctx = false -> order_target ctx order = Some (account, settlement) ->
  let '(r, state') := apply_report_state reads report state in
  r = None <-> pnl_check_observed state' state' ctx order = Ok tt.
Proof.
  intros Hi Hr Hd Ht. pose proof (apply_report_spec report state) as H.
  destruct (apply_report_state reads report state) as [r state']. rewrite Hi in H.
  destruct H as (Hs & _ & H & _). destruct (H Hr) as (_ & Hn & _).
  destruct (pnl_check_spec state' state' ctx order) as [-> _]. rewrite Hn, Hs. split.
  - intros Ha. right. by exists (account, settlement).
  - intros [(a & Ha & _)|(key & Hk & Ha)].
    + unfold drop_copy_account_id in Ha. by rewrite Hd in Ha.
    + rewrite Ht in Hk. by injection Hk as <-.
Qed.

(** *** The ledger across a history *)

(** What changes the policy's state: reports, new settings, and force-sets. *)
Inductive KillSwitchOp : Type :=
| OpReport (report : ExecutionReport)
| OpConfigure (settings : PnlBoundsKillSwitchSettings)
| OpSetPnl (account : AccountId) (settlement : Asset) (pnl : Pnl).

Definition run_op (state : KillSwitchState) (op : KillSwitchOp) : KillSwitchState :=
  match op with
  | OpReport report => (apply_report_state reads report state).2
  | OpConfigure settings => mkKillSwitch settings (pks_realized state)
  | OpSetPnl account settlement pnl => set_account_pnl account settlement pnl state
  end.

(** What a report says of a slot, read off its fields: the account, the settlement asset
    and the P&L less the fee; [None] when one of the four is missing. *)
Definition reported report : option (AccountId * Asset * Z) :=
  match instrument report, account_id report reads, report_pnl report, report_fee report with
  | Ok i, Ok account, Ok pnl, Ok fee => Some (account, settlement_asset i, sg_val pnl - sg_val fee)
  | _, _, _, _ => None
  end.

(** The exact running total of one slot. *)
Definition total_op (key : AccountId * Asset) (total : Z) (op : KillSwitchOp) : Z :=
  match op with
  | OpReport report =>
      match reported report with
      | Some (account, settlement, d) => if decide ((account, settlement) = key) then total + d else total
      | None => total
      end
  | OpConfigure _ => total
  | OpSetPnl account settlement pnl => if decide ((account, settlement) = key) then sg_val pnl else total
  end.

(** Decimals can hold the P&L less the fee of each report on the slot, and the totals. *)
Definition op_fits (key : AccountId * Asset) (op : KillSwitchOp) : Prop :=
  match op with
  | OpReport report => forall d, reported report = Some (key.1, key.2, d) -> representable d
  | _ => True
  end.
Definition totals_fit (key : AccountId * Asset) (total : Z) (ops : list KillSwitchOp) : Prop :=
  Forall (op_fits key) ops /\ forall n, representable (foldl (total_op key) total (take n ops)).

Lemma ledger_set_eq realized (key : AccountId * Asset) (value : Pnl) :
  ledger_set realized key value = <[key := value]> realized.
Proof. unfold ledger_set. by rewrite with_mut_eq. Qed.

(** The increment the policy books is what the report says, where a decimal can hold
    it. *)
Lemma report_increment_reported report :
  match reported report with
  | None => exists b, report_increment reads report = Err b
  | Some (account, settlement, d) =>
      (forall a s x, report_increment reads report = Ok (a, s, x) -> a = account /\ s = settlement) /\
      (representable d -> exists x, report_increment reads report = Ok (account, settlement, x) /\ sg_val x = d)
  end.
Proof.
  unfold reported, report_increment, report_required.
  destruct (instrument report) as [i|e]; [|cbn; eauto]. destruct (account_id report reads) as [a|e]; [|cbn; eauto].
  destruct (report_pnl report) as [p|e]; [|cbn; eauto]. destruct (report_fee report) as [f|e]; [|cbn; eauto]. cbn.
  assert (Hf : sg_val (fee_to_pnl f) = - sg_val f) by (unfold fee_to_pnl, sg_val; cbn; apply dec_neg_val). split.
  - intros a' s' x. destruct (sg_checked_add p (fee_to_pnl f)); [|done]. by intros [= <- <- _].
  - intros Hr. destruct (sg_add_val p (fee_to_pnl f)) as (c & -> & Hc); [rewrite Hf; by replace (_ + _) with (sg_val p - sg_val f) by lia|].
    exists c. split; [done|]. rewrite Hc, Hf. lia.
Qed.

Lemma run_op_total state op key :
  op_fits key op -> representable (total_op key (sg_val (ledger_pnl state key)) op) ->
  sg_val (ledger_pnl (run_op state op) key) = total_op key (sg_val (ledger_pnl state key)) op.
Proof.
  destruct op as [report|settings|account settlement pnl]; cbn -[apply_report_state]; [|done|].
  - intros Hfit. pose proof (apply_report_spec report state) as H. pose proof (report_increment_reported report) as Hi.
    destruct (apply_report_state reads report state) as [r state']. cbn [snd].
    destruct (reported report) as [[[account settlement] d]|].
    2: { destruct Hi as [b Hb]. rewrite Hb in H. by destruct H as (_ & -> & _). }
    destruct Hi as [Hk Hd]. destruct (decide ((account, settlement) = key)) as [<-|Hne].
    + intros Hr. destruct (Hd (Hfit d eq_refl)) as (x & Hx & Vx). rewrite Hx in H. rewrite <- Vx in *.
      destruct H as (_ & _ & Hn & _). by destruct (Hn Hr) as [? _].
    + intros _. destruct (report_increment reads report) as [[[a s] x]|b]; [|by destruct H as (_ & -> & _)].
      destruct (Hk _ _ _ eq_refl) as [-> ->]. destruct H as (_ & Ho & _). unfold ledger_pnl.
      by rewrite (Ho key) by congruence.
  - intros _ _. unfold ledger_pnl. cbn. rewrite ledger_set_eq.
    destruct (decide ((account, settlement) = key)) as [<-|Hk].
    + by rewrite lookup_insert_eq.
    + by rewrite lookup_insert_ne.
Qed.

(** C29: Whatever reports, reconfigurations and force-sets happen in whatever order, a
    slot of the ledger holds exactly what was last set plus the P&L minus the fee of
    every report for its account and settlement asset since - the report's own fields,
    exactly added up - as long as decimals can hold these sums: no report is lost because
    no barrier, or another one, was in force, and none is booked to another slot. *)
Theorem ledger_conserved state ops key :
  totals_fit key (sg_val (ledger_pnl state key)) ops ->
  sg_val (ledger_pnl (foldl run_op state ops) key) =
  foldl (total_op key) (sg_val (ledger_pnl state key)) ops.
Proof.
  revert state. induction ops as [|op ops IH]; intros state [Ho Hf]; [done|]. cbn [foldl].
  apply Forall_cons in Ho as [Ho Hos].
  pose proof (run_op_total state op key Ho (Hf 1%nat)) as E. rewrite IH, E; [done|].
  rewrite E. split; [done|]. intros n. exact (Hf (S n)).
Qed.

End ReportFacts.

(** ** Settings *)
Section SettingsFacts.
Context {D : DecimalOps}.

Definition bounded (barrier : PnlBoundsBrokerBarrier) : Prop :=
  is_Some (pb_lower_bound barrier) \/ is_Some (pb_upper_bound barrier).

Lemma validate_barrier_spec barrier :
  validate_barrier barrier = Ok tt /\ bounded barrier \/
  validate_barrier barrier = Err (NoBoundsConfigured (pb_settlement_asset barrier)) /\ ~ bounded barrier.
Proof.
  unfold validate_barrier, validate_bounds, has_configured_bound, bounded.
  destruct (pb_lower_bound barrier), (pb_upper_bound barrier); cbn; [left; eauto..|right].
  split; [done|]. by intros [[? [=]]|[? [=]]].
Qed.

(** Later barriers replace earlier ones of the same key. *)
Definition last_for {B K} `{EqDecision K} (key : B -> K) (k : K) (barriers : list B) : option B :=
  last (filter (fun b => key b = k) barriers).

Lemma last_for_cons {B K} `{EqDecision K} (key : B -> K) k (b : B) bs :
  last_for key k (b :: bs) =
  match last_for key k bs with Some x => Some x | None => if decide (key b = k) then Some b else None end.
Proof.
  unfold last_for. rewrite filter_cons. destruct (decide (key b = k)); [|by destruct (last _)].
  by rewrite last_cons.
Qed.

Lemma collect_broker_spec barriers acc :
  match collect_broker_barriers barriers acc with
  | Ok broker => Forall bounded barriers /\
      forall asset, broker !! asset =
        match last_for pb_settlement_asset asset barriers with Some b => Some b | None => acc !! asset end
  | Err e => exists before b after, barriers = before ++ b :: after /\ Forall bounded before /\
               ~ bounded b /\ e = NoBoundsConfigured (pb_settlement_asset b)
  end.
Proof.
  revert acc. induction barriers as [|b barriers IH]; intros acc; [split; [constructor|done]|].
  cbn [collect_broker_barriers].
  destruct (validate_barrier_spec b) as [[-> Hb]|[-> Hb]]; cbn -[last_for].
  - specialize (IH (<[pb_settlement_asset b := b]> acc)).
    destruct (collect_broker_barriers _ _) as [broker|e].
    + destruct IH as [Hf Hl]. split; [by constructor|]. intros asset. rewrite Hl, last_for_cons.
      destruct (last_for _ _ _); [done|]. destruct (decide (pb_settlement_asset b = asset)) as [<-|Hne].
      * by rewrite lookup_insert_eq.
      * by rewrite lookup_insert_ne.
    + destruct IH as (before & b' & after & -> & Hf & H). exists (b :: before), b', after.
      split_and!; [done|by constructor|apply H..].
  - exists [], b, barriers. split_and!; [done|constructor|done..].
Qed.

(** The barrier an account has for a settlement asset. *)
Definition account_barrier (m : gmap AccountId (gmap Asset PnlBoundsAccountAssetBarrierUpdate))
    (key : AccountId * Asset) : option PnlBoundsAccountAssetBarrierUpdate :=
  m !! key.1 ≫= (.!! key.2).

Definition update_key (u : PnlBoundsAccountAssetBarrierUpdate) : AccountId * Asset :=
  (pu_account_id u, pb_settlement_asset (pu_barrier u)).

Lemma insert_account_barrier_lookup u m key :
  account_barrier (insert_account_barrier u m) key =
  if decide (update_key u = key) then Some u else account_barrier m key.
Proof.
  destruct key as [account asset]. unfold account_barrier, insert_account_barrier, update_key. cbn [fst snd].
  destruct (decide (pu_account_id u = account)) as [<-|Ha].
  - rewrite lookup_insert_eq. cbn.
    destruct (decide (pb_settlement_asset (pu_barrier u) = asset)) as [<-|Hs].
    + rewrite lookup_insert_eq. by rewrite decide_True.
    + rewrite lookup_insert_ne, decide_False by (try done; congruence).
      destruct (m !! pu_account_id u); cbn; [done|apply lookup_empty].
  - rewrite lookup_insert_ne, decide_False by (try done; congruence). done.
Qed.

Lemma collect_updates_spec barriers acc :
  match collect_account_updates barriers acc with
  | Ok account => Forall (fun u => bounded (pu_barrier u)) barriers /\
      forall key, account_barrier account key =
        match last_for update_key key barriers with Some b => Some b | None => account_barrier acc key end
  | Err e => exists before b after, barriers = before ++ b :: after /\
               Forall (fun u => bounded (pu_barrier u)) before /\
               ~ bounded (pu_barrier b) /\ e = NoBoundsConfigured (pb_settlement_asset (pu_barrier b))
  end.
Proof.
  revert acc. induction barriers as [|b barriers IH]; intros acc; [split; [constructor|done]|].
  cbn [collect_account_updates].
  destruct (validate_barrier_spec (pu_barrier b)) as [[-> Hb]|[-> Hb]]; cbn -[last_for insert_account_barrier].
  - specialize (IH (insert_account_barrier b acc)).
    destruct (collect_account_updates _ _) as [account|e].
    + destruct IH as [Hf Hl]. split; [by constructor|]. intros key.
      rewrite Hl, last_for_cons, insert_account_barrier_lookup.
      destruct (last_for _ _ _); [done|]. by destruct (decide (update_key b = key)).
    + destruct IH as (before & b' & after & -> & Hf & H). exists (b :: before), b', after.
      split_and!; [done|by constructor|apply H..].
  - exists [], b, barriers. split_and!; [done|constructor|done..].
Qed.


Lemma last_for_first {B K} `{EqDecision K} (key : B -> K) (b : B) bs :
  last_for key (key b) (b :: bs) <> None.
Proof. rewrite last_for_cons. destruct (last_for _ _ _); [done|]. by rewrite decide_True. Qed.

Lemma no_last_for {B K} `{EqDecision K} (key : B -> K) (bs : list B) :
  (forall k, last_for key k bs = None) -> bs = [].
Proof. destruct bs as [|b bs]; [done|]. intros H. by destruct (last_for_first key b bs). Qed.

(** The setters replace one axis by the last barrier of each key, exactly when
    every barrier has a bound and some barrier is left on either axis; otherwise
    they report the first barrier without bounds, or that none would be left. *)
Theorem pnl_setters_spec s brokers updates :
  match set_broker_barriers s brokers with
  | Ok s' =>
      Forall bounded brokers /\ (brokers <> [] \/ ps_account_barriers s <> ∅) /\
      (forall asset, ps_broker_barriers s' !! asset = last_for pb_settlement_asset asset brokers) /\
      ps_account_barriers s' = ps_account_barriers s /\ ps_group_id s' = ps_group_id s
  | Err NoBarriersConfigured => brokers = [] /\ ps_account_barriers s = ∅
  | Err (NoBoundsConfigured asset) =>
      exists before b after, brokers = before ++ b :: after /\ Forall bounded before /\ ~ bounded b /\
        asset = pb_settlement_asset b
  end /\
  match set_pnl_account_barriers s updates with
  | Ok s' =>
      Forall (fun u => bounded (pu_barrier u)) updates /\ (updates <> [] \/ ps_broker_barriers s <> ∅) /\
      (forall key, account_barrier (ps_account_barriers s') key = last_for update_key key updates) /\
      ps_broker_barriers s' = ps_broker_barriers s /\ ps_group_id s' = ps_group_id s
  | Err NoBarriersConfigured => updates = [] /\ ps_broker_barriers s = ∅
  | Err (NoBoundsConfigured asset) =>
      exists before b after, updates = before ++ b :: after /\
        Forall (fun u => bounded (pu_barrier u)) before /\ ~ bounded (pu_barrier b) /\
        asset = pb_settlement_asset (pu_barrier b)
  end.
Proof.
  unfold set_broker_barriers, set_pnl_account_barriers, map_is_empty. split.
  - pose proof (collect_broker_spec brokers ∅) as H.
    destruct (collect_broker_barriers brokers ∅) as [broker|e] eqn:E; cbn [mbind result_bind].
    2: { destruct H as (before & b & after & -> & Hf & Hb & ->). by exists before, b, after. }
    destruct H as [Hf Hl].
    assert (Hl' : forall asset, broker !! asset = last_for pb_settlement_asset asset brokers)
      by (intros asset; rewrite Hl, lookup_empty; by destruct (last_for _ _ _)).
    destruct (bool_decide_reflect (broker = ∅)) as [->|He]; cbn.
    + assert (brokers = []) as -> by (eapply no_last_for; intros k; by rewrite <- Hl').
      destruct (bool_decide_reflect (ps_account_barriers s = ∅)); cbn; [done|]. split_and!; auto.
    + split_and!; try done. left. intros ->. cbn in E. congruence.
  - pose proof (collect_updates_spec updates ∅) as H.
    destruct (collect_account_updates updates ∅) as [account|e] eqn:E; cbn [mbind result_bind].
    2: { destruct H as (before & b & after & -> & Hf & Hb & ->). by exists before, b, after. }
    destruct H as [Hf Hl].
    assert (Hl' : forall key, account_barrier account key = last_for update_key key updates).
    { intros key. rewrite Hl. unfold account_barrier at 1. rewrite lookup_empty. by destruct (last_for _ _ _). }
    destruct (bool_decide_reflect (ps_broker_barriers s = ∅)); cbn; [|split_and!; auto].
    destruct (bool_decide_reflect (account = ∅)) as [->|He]; cbn.
    + split; [|done]. eapply no_last_for. intros k. rewrite <- Hl'. unfold account_barrier.
      by rewrite lookup_empty.
    + split_and!; try done. left. intros ->. cbn in E. congruence.
Qed.

(** Construction seeds the ledger and nothing else does: a slot starts at its
    seed, or is absent. *)
Theorem pnl_policy_new_spec settings :
  let state := pnl_policy_new settings in
  (forall key, pks_realized state !! key = ps_initial_pnl settings !! key) /\
  ps_initial_pnl (pks_settings state) = ∅ /\
  ps_broker_barriers (pks_settings state) = ps_broker_barriers settings /\
  ps_account_barriers (pks_settings state) = ps_account_barriers settings.
Proof.
  cbv zeta. split_and!; try done. intros key. unfold pnl_policy_new. cbn [pks_realized].
  assert (E : foldr (fun seed realized => ledger_set realized seed.1 seed.2) ∅ (map_to_list (ps_initial_pnl settings))
    = list_to_map (map_to_list (ps_initial_pnl settings))).
  { induction (map_to_list (ps_initial_pnl settings)) as [|[k v] l IH]; [done|]. cbn.
    rewrite IH. unfold ledger_set. by rewrite with_mut_eq. }
  by rewrite E, list_to_map_to_list.
Qed.

End SettingsFacts.

(** ** What the policy gives the engine, and retirement *)
Section AsPolicy.
Context {D : DecimalOps} {F : DecimalFormat} {W Order ExecutionReport AccountAdjustment : Type}.
Context {HI : HasInstrument Order}.
Context {RI : HasInstrument ExecutionReport} {RP : HasPnl ExecutionReport} {RF : HasFee ExecutionReport}.
Context {RA : HasAccountId ExecutionReport}.
Context {O : Owns W KillSwitchState}.
Context (reads : nat).

Abbreviation St := (EngineState W).
Abbreviation policy group :=
  (pnl_killswitch_policy (Order:=Order) (ExecutionReport:=ExecutionReport)
     (AccountAdjustment:=AccountAdjustment) reads group).

(** Committed by the engine these forget, rolled back they do nothing. *)
Lemma undoes_forget keys (w : W) : undoes (forget_mutation <$> keys) w w.
Proof.
  induction keys as [|key keys IH]; [apply undoes_nil|].
  change (forget_mutation <$> key :: keys) with ([forget_mutation key] ++ (forget_mutation <$> keys)).
  eapply undoes_app; [|exact IH]. intros o st Hw. by split_and!.
Qed.

Lemma push_all_mutations (ms : Mutations St) (keys : list (AccountId * Asset)) :
  ms_mutations (foldl (fun ms key => mutations_push ms (forget_mutation key)) ms keys) =
  ms_mutations ms ++ (forget_mutation <$> keys).
Proof.
  revert ms. induction keys as [|key keys IH]; intros ms; cbn; [by rewrite app_nil_r|].
  rewrite IH. cbn. by rewrite <- app_assoc.
Qed.

#[export] Instance pnl_drop_copy group : DropCopyTransactional (policy group).
Proof.
  split; [split; cbn|cbn].
  - by intros ctx order s r s' [= _ <-].
  - intros ctx order ms s r ms' s' [= <- <- <-] Hd. split_and!; [done..|]. apply undoes_nothing.
  - intros actx account adj ms s s' r ms' [= <- <- <-]. split; [done|]. apply undoes_nothing.
  - unfold pnl_retire_account. intros account ms st r ms' st'.
    destruct (existsb _ _); [|destruct (is_some _)]; intros [= <- <- <-]; (split; [done|]);
      [apply undoes_nothing..|].
    exists (forget_mutation <$> account_keys account (pks_realized (own_get (es_world st)))).
    split; [apply push_all_mutations|apply undoes_forget].
  - intros ctx order s r s' ms [= _ <-] _ Ho.
    destruct (undoes_nothing (es_world s.2) ms) as (new & Hn & Hu). by exists new, ms.
Qed.

#[export] Instance pnl_quiet group : DryRunQuiet (policy group).
Proof.
  split; cbn; [by intros ctx order s r s' [= _ <-]|].
  by intros ctx order ms s r ms' s' [= <- <- <-] Hd.
Qed.

Context {L : DecimalLaws D}.

Abbreviation ledger_of st := (pks_realized (own_get (es_world st))).

Lemma account_keys_spec (account : AccountId) (realized : gmap (AccountId * Asset) Pnl) (key : AccountId * Asset) :
  key ∈ account_keys account realized <-> key.1 = account /\ is_Some (realized !! key).
Proof.
  unfold account_keys, storage_keys. rewrite list_elem_of_In, filter_In, <- list_elem_of_In,
    bool_decide_eq_true, list_elem_of_fmap. split.
  - intros [([k v] & -> & Hk%elem_of_map_to_list) Ha]. split; [done|by exists v].
  - intros [Ha [v Hv]]. split; [|done]. exists (key, v). split; [done|by apply elem_of_map_to_list].
Qed.

Lemma account_keys_NoDup (account : AccountId) (realized : gmap (AccountId * Asset) Pnl) :
  NoDup (account_keys account realized).
Proof. apply NoDup_ListNoDup, List.NoDup_filter, NoDup_ListNoDup, NoDup_fst_map_to_list. Qed.

Lemma commit_forget keys failure (st : St) :
  NoDup keys ->
  (forall key, key ∈ keys -> exists pnl, ledger_of st !! key = Some pnl /\ sg_val pnl = 0) ->
  exists st', foldl commit_step (failure, st) (forget_mutation <$> keys) = (failure, st') /\
    pks_settings (own_get (es_world st')) = pks_settings (own_get (es_world st)) /\
    forall key, ledger_of st' !! key = if decide (key ∈ keys) then None else ledger_of st !! key.
Proof.
  revert st. induction keys as [|k keys IH]; intros st Hd Hz.
  { exists st. split_and!; [done..|]. intros key. by rewrite decide_False by apply not_elem_of_nil. }
  apply NoDup_cons in Hd as [Hk Hd]. cbn -[forget_zero_entry].
  destruct (Hz k) as (pnl & Hp & Hv); [by left|].
  unfold fallible, forget_zero_entry at 1, storage_remove_if. rewrite Hp, sg_eqb_val, Hv, sg_ZERO_val. cbn.
  match goal with |- context [foldl commit_step (failure, ?s) _] => set (st1 := s) end.
  assert (E1 : own_get (es_world st1) =
    mkKillSwitch (pks_settings (own_get (es_world st))) (delete k (ledger_of st)))
    by (subst st1; cbn; apply own_get_set).
  destruct (IH st1 Hd) as (st' & Hf & Hs & Hl).
  { intros key Hkey. destruct (Hz key) as (p & ? & ?); [by right|]. exists p.
    rewrite E1. cbn. rewrite lookup_delete_ne by congruence. done. }
  exists st'. split; [done|]. rewrite E1 in Hs, Hl. split; [done|]. intros key. rewrite Hl. cbn.
  destruct (decide (key ∈ keys)), (decide (key ∈ k :: keys)) as [Hin|Hin]; try done.
  - destruct Hin. by right.
  - apply elem_of_cons in Hin as [->|Hin]; [apply lookup_delete_eq|done].
  - rewrite lookup_delete_ne; [done|]. intros ->. destruct Hin. by left.
Qed.

(** An account with realized P&L in some asset, or else one a barrier names,
    cannot retire, and nothing happens.  Any other can: the hook changes nothing
    and registers mutations that, rolled back, do nothing and, committed on the
    ledger the hook saw, forget every entry of the account without a failure and
    leave all other entries and the settings alone. *)
Theorem pnl_retirement group account (ms : Mutations St) (st : St) :
  let state := own_get (es_world st) in
  let nonzero := exists asset pnl, pks_realized state !! (account, asset) = Some pnl /\ sg_val pnl <> 0 in
  let '(r, ms', st') := pol_retire_account (policy group) account ms st in
  st' = st /\
  (r = Err NonZeroState <-> nonzero) /\
  (r = Err ConfigurationReferencesAccount <->
     ~ nonzero /\ is_Some (ps_account_barriers (pks_settings state) !! account)) /\
  (r <> Ok tt -> ms' = ms) /\
  (r = Ok tt -> exists new, ms_mutations ms' = ms_mutations ms ++ new /\
     undoes new (es_world st) (es_world st) /\
     forall o st1, own_get (es_world st1) = state ->
       let '(failure, st2) := commit_all (mkMutations new o) st1 in
       failure_failed failure = false /\
       pks_settings (own_get (es_world st2)) = pks_settings state /\
       forall key, ledger_of st2 !! key = if decide (key.1 = account) then None else pks_realized state !! key).
Proof.
  cbv zeta. cbn -[commit_all]. unfold pnl_retire_account. set (state := own_get (es_world st)).
  set (nonzero := exists asset pnl, pks_realized state !! (account, asset) = Some pnl /\ sg_val pnl <> 0).
  match goal with |- context [existsb ?f ?l] =>
    assert (Hnz : existsb f l = true <-> nonzero) end.
  { rewrite existsb_exists. setoid_rewrite <- list_elem_of_In. setoid_rewrite account_keys_spec.
    unfold storage_with. split.
    - intros ([a asset] & [Ha [pnl Hp]] & Hz). cbn in Ha. subst a. exists asset, pnl. split; [done|].
      rewrite Hp in Hz. cbn in Hz. rewrite sg_eqb_val, sg_ZERO_val in Hz.
      by apply negb_true_iff, Z.eqb_neq in Hz.
    - intros (asset & pnl & Hp & Hz). exists (account, asset). split; [by rewrite Hp|].
      rewrite Hp. cbn. rewrite sg_eqb_val, sg_ZERO_val. by apply negb_true_iff, Z.eqb_neq. }
  destruct (existsb _ _).
  { assert (nonzero) by by apply Hnz. split_and!; try done; naive_solver. }
  assert (Hn : ~ nonzero) by (intros H%Hnz; done).
  destruct (ps_account_barriers (pks_settings state) !! account) eqn:Eb; cbn -[commit_all].
  { split_and!; try done; naive_solver. }
  split_and!; try done; [split; [done|by intros [_ [? ?]]]|].
  intros _. eexists. split; [apply push_all_mutations|]. split; [apply undoes_forget|].
  intros o st1 Hst1. unfold commit_all. cbn [ms_mutations].
  destruct (commit_forget (account_keys account (pks_realized state)) failure_default st1)
    as (st2 & -> & Hs & Hl); [apply account_keys_NoDup| |].
  - rewrite Hst1. intros [a asset] [Ha [pnl Hp]]%account_keys_spec. cbn in Ha. subst a. exists pnl.
    split; [done|]. destruct (decide (sg_val pnl = 0)); [done|]. destruct Hn. by exists asset, pnl.
  - rewrite Hst1 in Hs, Hl. split; [done|]. split; [done|]. intros key. rewrite Hl.
    destruct (decide (key ∈ _)) as [Hk|Hk], (decide (key.1 = account)) as [Ha|Ha]; try done.
    + apply account_keys_spec in Hk as [? _]. done.
    + apply eq_None_not_Some. intros Hs'. destruct Hk. by apply account_keys_spec.
Qed.

End AsPolicy.
