(* ===== verification/ConfigCell.v ===== *)
(** * ConfigCell: the cells that share a policy's settings

    [LocalConfigCell] with the borrow flag of its [RefCell], and the lock-free reads
    and serialized updates of [ArcSwapConfigCell] as a step relation of threads. *)
From S2P Require Import Prelude.
Open Scope Z_scope.

(** ** [LocalConfigCell] *)

Section Local.
Context {T : Type}.

(** The stored value and the shared borrows that are out. *)
Record LocalConfigCell : Type := mkLocalCell { lc_value : T; lc_borrows : nat }.

(** Code that may use the cell; [None] is the panic of a [RefCell]. *)
Definition CellCode (A : Type) : Type := LocalConfigCell -> option (A * LocalConfigCell).
#[export] Instance cell_ret : MRet CellCode := fun _ x c => Some (x, c).
#[export] Instance cell_bind : MBind CellCode := fun _ _ f m c => '(x, c) ← m c; f x c.

Definition local_new (value : T) : LocalConfigCell := mkLocalCell value 0.

Definition local_with {R} (f : T -> CellCode R) : CellCode R := fun c =>
  '(r, c) ← f (lc_value c) (mkLocalCell (lc_value c) (S (lc_borrows c)));
  Some (r, mkLocalCell (lc_value c) (pred (lc_borrows c))).

Definition local_with_snapshot {R} (f : T -> CellCode R) : CellCode R := fun c => f (lc_value c) c.

(** The closure works on a copy of the value and answers with the result and what it
    made of the copy; publishing takes the exclusive borrow. *)
Definition local_update {E} (f : T -> CellCode (result E unit * T)) : CellCode (result E unit) := fun c =>
  '((r, next), c) ← f (lc_value c) c;
  match r with
  | Err e => Some (Err e, c)
  | Ok _ => if Nat.eqb (lc_borrows c) 0 then Some (Ok tt, mkLocalCell next 0) else None
  end.

(** A closure that leaves the cell alone. *)
Definition plain {E} (f : T -> result E unit * T) : T -> CellCode (result E unit * T) := fun v => mret (f v).

(** An update is a transaction: the copy is published exactly when the closure
    answers [Ok], a rejected one leaves the cell as the closure left it, and a
    snapshot taken around it keeps its own version while later reads see the new
    one.  Reading through [with] while updating panics, unless the update is
    rejected. *)
Theorem local_update_spec {E} (f : T -> result E unit * T) c : lc_borrows c = 0%nat ->
  local_update (plain f) c =
    Some (match f (lc_value c) with (Ok _, next) => (Ok tt, mkLocalCell next 0) | (Err e, _) => (Err e, c) end) /\
  (local_with (fun _ => local_update (plain f)) c = None <-> is_ok (f (lc_value c)).1 = true) /\
  local_with_snapshot (fun v => local_update (plain f) ≫= fun r => local_with (fun w => mret (r, v, w))) c =
    Some (let '(r, next) := f (lc_value c) in
          match r with Ok _ => ((Ok tt, lc_value c, next), mkLocalCell next 0)
                  | Err e => ((Err e, lc_value c, lc_value c), c) end).
Proof.
  destruct c as [v b]. cbn. intros ->. unfold local_update, local_with, local_with_snapshot, plain, mret, cell_ret, mbind, cell_bind.
  cbn. destruct (f v) as [[[]|e] next]; cbn; split_and!; done.
Qed.

End Local.
Arguments LocalConfigCell : clear implicits.

(** ** [ArcSwapConfigCell] *)

Section ArcSwap.
Context {T E : Type}.
Implicit Types (v w : T) (i : nat).

(** An update closure, and where its thread is. *)
Definition UpdateFn : Type := T -> result E unit * T.

Inductive CellThread : Type :=
| Updating (f : UpdateFn)                            (* waits for the writer mutex *)
| UpdateLocked (f : UpdateFn)
| UpdateLoaded (f : UpdateFn) (current : T)
| UpdateRan (f : UpdateFn) (r : result E unit) (next : T)
| UpdateStored (f : UpdateFn)
| Updated (f : UpdateFn) (r : result E unit)
| Reading
| ReadGuard (value : T)                              (* runs its closure on [value] *)
| ReadDone (value : T).

Record ArcCell : Type := mkArcCell { arc_value : T; arc_writer : option nat; arc_threads : list CellThread }.

Definition set_thread (c : ArcCell) i (t : CellThread) : ArcCell :=
  mkArcCell (arc_value c) (arc_writer c) (<[i := t]> (arc_threads c)).

Inductive arc_step : ArcCell -> ArcCell -> Prop :=
| as_lock c i f : arc_threads c !! i = Some (Updating f) -> arc_writer c = None ->
    arc_step c (mkArcCell (arc_value c) (Some i) (<[i := UpdateLocked f]> (arc_threads c)))
| as_load c i f : arc_threads c !! i = Some (UpdateLocked f) ->
    arc_step c (set_thread c i (UpdateLoaded f (arc_value c)))
| as_run c i f v r next : arc_threads c !! i = Some (UpdateLoaded f v) -> f v = (r, next) ->
    arc_step c (set_thread c i (UpdateRan f r next))
| as_store c i f next : arc_threads c !! i = Some (UpdateRan f (Ok tt) next) ->
    arc_step c (mkArcCell next (arc_writer c) (<[i := UpdateStored f]> (arc_threads c)))
| as_reject c i f e next : arc_threads c !! i = Some (UpdateRan f (Err e) next) ->
    arc_step c (mkArcCell (arc_value c) None (<[i := Updated f (Err e)]> (arc_threads c)))
| as_unlock c i f : arc_threads c !! i = Some (UpdateStored f) ->
    arc_step c (mkArcCell (arc_value c) None (<[i := Updated f (Ok tt)]> (arc_threads c)))
| as_guard c i : arc_threads c !! i = Some Reading ->
    arc_step c (set_thread c i (ReadGuard (arc_value c)))
| as_read c i v : arc_threads c !! i = Some (ReadGuard v) ->
    arc_step c (set_thread c i (ReadDone v)).

(** Threads that have not begun. *)
Definition fresh_thread (t : CellThread) : Prop := match t with Updating _ | Reading => True | _ => False end.

Definition arc_init v (threads : list CellThread) : ArcCell := mkArcCell v None threads.

(** ** The value is the published updates in some order *)

(** The closures of [published] ran one after another, each on what the one before
    left and each answering [Ok]. *)
Fixpoint runs v (published : list (nat * UpdateFn)) w : Prop :=
  match published with
  | [] => w = v
  | (_, f) :: published => exists next, f v = (Ok tt, next) /\ runs next published w
  end.

Lemma runs_snoc v l i f u w : runs v l u -> f u = (Ok tt, w) -> runs v (l ++ [(i, f)]) w.
Proof. revert v. induction l as [|[j g] l IH]; intros v; cbn; [intros ->; eauto|]. intros (n & Hg & Hr) Hf. eauto. Qed.

(** Some prefix of the published updates leads to [w]. *)
Definition once_value v (published : list (nat * UpdateFn)) w : Prop :=
  exists l, l `prefix_of` published /\ runs v l w.

Lemma once_value_now v published w : runs v published w -> once_value v published w.
Proof. intros H. by exists published. Qed.

Lemma once_value_snoc v published x w : once_value v published w -> once_value v (published ++ [x]) w.
Proof. intros (l & Hl & Hr). exists l. split; [by apply prefix_app_r|done]. Qed.

(** What the phase of a thread says. *)
Definition thread_ok v0 (published : list (nat * UpdateFn)) (cur : T) (writer : option nat) i (t : CellThread) : Prop :=
  match t with
  | Updating _ | Reading => writer <> Some i
  | UpdateLocked _ => writer = Some i
  | UpdateLoaded _ v => writer = Some i /\ v = cur
  | UpdateRan f r next => writer = Some i /\ f cur = (r, next)
  | UpdateStored f => writer = Some i
  | Updated f (Ok _) => writer <> Some i
  | Updated f (Err e) => writer <> Some i /\ exists v next, once_value v0 published v /\ f v = (Err e, next)
  | ReadGuard v | ReadDone v => writer <> Some i /\ once_value v0 published v
  end.

(** The closure a thread has published. *)
Definition stored_of (t : CellThread) : option UpdateFn :=
  match t with UpdateStored f | Updated f (Ok _) => Some f | _ => None end.

Record arc_inv v0 (published : list (nat * UpdateFn)) (c : ArcCell) : Prop := {
  ai_runs : runs v0 published (arc_value c);
  ai_nodup : NoDup published.*1;
  ai_published i f : (i, f) ∈ published <-> arc_threads c !! i ≫= stored_of = Some f;
  ai_threads i t : arc_threads c !! i = Some t -> thread_ok v0 published (arc_value c) (arc_writer c) i t
}.

Lemma arc_init_inv v0 threads : Forall fresh_thread threads -> arc_inv v0 [] (arc_init v0 threads).
Proof.
  intros Hf. split; cbn; [done|constructor| |].
  - intros i f. split; [intros H; by apply not_elem_of_nil in H|]. intros H.
    destruct (threads !! i) as [t|] eqn:Hi; [|done]. rewrite Forall_lookup in Hf. specialize (Hf i t Hi). by destruct t.
  - intros i t Ht. rewrite Forall_lookup in Hf. specialize (Hf i t Ht). by destruct t.
Qed.

(** A step that publishes nothing keeps the invariant. *)
Lemma arc_inv_quiet v0 published c (writer : option nat) i t t' : arc_inv v0 published c -> arc_threads c !! i = Some t ->
  stored_of t' = stored_of t ->
  thread_ok v0 published (arc_value c) writer i t' ->
  (forall j tj, j <> i -> arc_threads c !! j = Some tj ->
     thread_ok v0 published (arc_value c) (arc_writer c) j tj -> thread_ok v0 published (arc_value c) writer j tj) ->
  arc_inv v0 published (mkArcCell (arc_value c) writer (<[i := t']> (arc_threads c))).
Proof.
  intros [Hr Hn Hp Ht] Hi Hs Hok Hother. assert (Hlt := lookup_lt_Some _ _ _ Hi). split; cbn; [done|done| |].
  - intros j f. rewrite Hp. destruct (decide (j = i)) as [->|Hj].
    + rewrite list_lookup_insert_eq by done. rewrite Hi. cbn. by rewrite Hs.
    + by rewrite list_lookup_insert_ne by done.
  - intros j tj. destruct (decide (j = i)) as [->|Hj].
    + rewrite list_lookup_insert_eq by done. by intros [= <-].
    + rewrite list_lookup_insert_ne by done. intros Hj'. by eapply Hother, Ht.
Qed.

(** Who does not hold the writer mutex does not mind who does. *)
Lemma thread_ok_writer v0 published cur (writer writer' : option nat) j t : (writer = Some j <-> writer' = Some j) ->
  thread_ok v0 published cur writer j t -> thread_ok v0 published cur writer' j t.
Proof. intros Hw. destruct t as [| | | | |f [[]|e]| | |]; cbn; rewrite ?Hw; done. Qed.

Lemma arc_step_inv v0 published c c' : arc_inv v0 published c -> arc_step c c' ->
  exists published', published `prefix_of` published' /\ arc_inv v0 published' c'.
Proof.
  intros Hinv Hs. destruct (Hinv) as [Hr Hn Hp Ht].
  destruct Hs as [c i f Hi Hw|c i f Hi|c i f v r next Hi Hf|c i f next Hi|c i f e next Hi|c i f Hi|c i Hi|c i v Hi];
    pose proof (Ht i _ Hi) as Hok; cbn in Hok.
  4:{ (* the store *)
    destruct Hok as [Hw Hf]. exists (published ++ [(i, f)]). split; [by apply prefix_app_r|].
    assert (Hlt := lookup_lt_Some _ _ _ Hi).
    assert (Hni : forall g, (i, g) ∉ published) by (intros g Hg%Hp; by rewrite Hi in Hg).
    split; cbn.
    - by eapply runs_snoc.
    - rewrite fmap_app. apply NoDup_app. split_and!; [done| |cbn; apply NoDup_singleton].
      intros j Hj. cbn. rewrite list_elem_of_singleton. intros ->. apply list_elem_of_fmap in Hj as ([j g] & -> & Hj). by eapply Hni.
    - intros j g. rewrite elem_of_app, list_elem_of_singleton. destruct (decide (j = i)) as [->|Hj].
      + rewrite list_lookup_insert_eq by done. cbn. split; [intros [H|[= ->]]; [by apply Hni in H|done]|intros [= ->]; by right].
      + rewrite list_lookup_insert_ne by done. rewrite <- Hp. split; [intros [H|[= ? ?]]; done|by left].
    - intros j tj. destruct (decide (j = i)) as [->|Hj].
      + rewrite list_lookup_insert_eq by done. by intros [= <-].
      + rewrite list_lookup_insert_ne by done. intros Hj'. specialize (Ht j tj Hj'). rewrite Hw in *.
        destruct tj as [| | | | |g [[]|e]| | |]; cbn in *; try naive_solver.
        all: destruct Ht as [H1 H2]; split; [done|]; try by apply once_value_snoc.
        destruct H2 as (v & n & Hv & Hg). exists v, n. split; [by apply once_value_snoc|done]. }
  all: exists published; split; [done|].
  - eapply arc_inv_quiet; [done..|]. intros j tj Hj _. apply thread_ok_writer. rewrite Hw. naive_solver.
  - by eapply arc_inv_quiet.
  - destruct Hok as [Hw ->]. by eapply arc_inv_quiet.
  - destruct Hok as [Hw Hf]. eapply arc_inv_quiet; [done..| |].
    + split; [done|]. exists (arc_value c), next. split; [by apply once_value_now|done].
    + intros j tj Hj _. apply thread_ok_writer. rewrite Hw. naive_solver.
  - eapply arc_inv_quiet; [done..|]. intros j tj Hj _. apply thread_ok_writer. rewrite Hok. naive_solver.
  - eapply arc_inv_quiet; [done..| |done]. split; [done|by apply once_value_now].
  - by eapply arc_inv_quiet.
Qed.

(** C19: updates of the shared cell never lose one another.  However the threads
    interleave, the value is the initial one with the closures of exactly the
    updates that stored, applied one after another in some order, each to what the
    one before it left; a rejected update was rejected on one of those values and
    changed nothing; and every reader works on one of those values, whole, for as
    long as it reads. *)
Theorem arc_cell_linearizable v0 threads c : Forall fresh_thread threads ->
  rtc arc_step (arc_init v0 threads) c ->
  exists published, runs v0 published (arc_value c) /\ NoDup published.*1 /\
    (forall i f, (i, f) ∈ published <-> arc_threads c !! i ≫= stored_of = Some f) /\
    forall i t, arc_threads c !! i = Some t ->
      match t with
      | Updated f (Err e) => exists v next, once_value v0 published v /\ f v = (Err e, next)
      | ReadGuard v | ReadDone v => once_value v0 published v
      | _ => True
      end.
Proof.
  intros Hf Hs. assert (H : exists published, arc_inv v0 published c).
  { revert c Hs. apply (rtc_ind_r (fun c => exists published, arc_inv v0 published c)).
    - exists []. by apply arc_init_inv.
    - intros c1 c2 _ Hs [published IH]. destruct (arc_step_inv _ _ _ _ IH Hs) as (published' & _ & H). by exists published'. }
  destruct H as (published & [Hr Hn Hp Ht]). exists published. split_and!; [done..|].
  intros i t Hi. specialize (Ht i t Hi). by destruct t as [| | | | |f [[]|e]| | |]; try apply Ht.
Qed.

End ArcSwap.
