(* ===== verification/RateLimit.v ===== *)
(** * RateLimit: the built-in rate limit policy

    src/crates/openpit/src/pretrade/policies/rate_limit.rs.  Instants and
    durations are nanoseconds in [Z].  The fixed-window counters are shared
    objects behind [Arc]: a slot holds the address of its counter in a heap that
    a settings clone and the policy both point into. *)
From S2P Require Import Prelude.
From S2P Require Import Decimal.
From S2P Require Import Param.
From S2P Require Import Identifiers.
From S2P Require Import Mutation.
From S2P Require Import Reject.
From S2P Require Import AccountControl.
From S2P Require Import Accounts.
From S2P Require Import Lock.
From S2P Require Import Policy.
From S2P Require Import Storage.
From stdpp Require Import pretty.
Open Scope Z_scope.

Definition RATE_LIMIT_POLICY_NAME : string := "RateLimitPolicy".

(** ** Durations *)

Definition as_nanos (window : Z) : Z := window.
Definition cast_u64 (v : Z) : Z := v mod 2 ^ 64.

(** [checked_duration_since]. *)
Definition checked_duration_since (later earlier : Z) : option Z :=
  if earlier <=? later then Some (later - earlier) else None.

(** [{:?}] of a [Duration]: the digits of the fraction stop at the last non-zero
    one; nine of them exhaust a second. *)
Fixpoint fraction_digits (fuel : nat) (fractional_part divisor : Z) : string :=
  match fuel with
  | O => ""
  | S fuel =>
      if 0 <? fractional_part
      then pretty (fractional_part / divisor) +:+
           fraction_digits fuel (fractional_part mod divisor) (divisor / 10)
      else ""
  end.

Definition fmt_decimal (integer_part fractional_part divisor : Z) (postfix : string) : string :=
  let digits := fraction_digits 9 fractional_part divisor in
  pretty integer_part +:+ (if bool_decide (digits = "") then "" else "." +:+ digits) +:+ postfix.

Definition micro_sign : string := String (Ascii.ascii_of_nat 194) (String (Ascii.ascii_of_nat 181) "").

Definition Duration_fmt (d : Z) : string :=
  let secs := d / 1000000000 in
  let nanos := d mod 1000000000 in
  if 0 <? secs then fmt_decimal secs nanos 100000000 "s"
  else if 1000000 <=? nanos then fmt_decimal (nanos / 1000000) (nanos mod 1000000) 100000 "ms"
  else if 1000 <=? nanos then fmt_decimal (nanos / 1000) (nanos mod 1000) 100 (micro_sign +:+ "s")
  else fmt_decimal nanos 0 1 "ns".

(** ** Limits and barriers *)

Record RateLimit : Set := mkRateLimit { rl_max_orders : Z; rl_window : Z }.

Record RateLimitBrokerBarrier : Set := mkBrokerBarrier { bb_limit : RateLimit }.
Record RateLimitAssetBarrier : Type := mkAssetBarrier { ab_limit : RateLimit; ab_settlement_asset : Asset }.
Record RateLimitAccountBarrier : Set := mkAccountBarrier { acb_limit : RateLimit; acb_account_id : AccountId }.
Record RateLimitAccountAssetBarrier : Type := mkAccountAssetBarrier {
  aab_limit : RateLimit;
  aab_account_id : AccountId;
  aab_settlement_asset : Asset
}.

Inductive RateLimitPolicyError : Set := InvalidWindow (window : Z).

Definition RateLimitPolicyError_fmt (e : RateLimitPolicyError) : string :=
  match e with
  | InvalidWindow window =>
      "rate limit window must be positive and fit in u64 nanoseconds, got " +:+ Duration_fmt window
  end.

Definition validate_limit (limit : RateLimit) : result RateLimitPolicyError RateLimit :=
  if (rl_window limit =? 0) || (U64_MAX <? as_nanos (rl_window limit))
  then Err (InvalidWindow (rl_window limit))
  else Ok limit.

Definition window_nanos (limit : RateLimit) : Z := cast_u64 (as_nanos (rl_window limit)).

(** ** The fixed-window counter *)

Record WindowCounter : Set := mkCounter { wc_count : Z; wc_window_start_nanos : Z }.

Definition counter_new (now_nanos : Z) : WindowCounter := mkCounter 0 now_nanos.

Definition rolled_over (now_nanos win_start window_nanos : Z) : bool :=
  match checked_duration_since now_nanos win_start with
  | Some elapsed => window_nanos <=? elapsed
  | None => false
  end.

(** [push] run without interference: the exchange then cannot fail. *)
Definition counter_push (c : WindowCounter) (now_nanos window_nanos : Z) : Z * WindowCounter :=
  let win_start := wc_window_start_nanos c in
  if rolled_over now_nanos win_start window_nanos
  then (1, mkCounter 1 now_nanos)
  else let count := cast_u64 (wc_count c + 1) in (count, mkCounter count win_start).

Definition counter_peek (c : WindowCounter) (now_nanos window_nanos : Z) : Z :=
  if rolled_over now_nanos (wc_window_start_nanos c) window_nanos then 1
  else cast_u64 (wc_count c + 1).

(** ** Sliding-window logs *)

Definition entry_expired (entry now window : Z) : bool :=
  match checked_duration_since now entry with
  | Some elapsed => window <=? elapsed
  | None => false
  end.

Fixpoint advance_window (timestamps : list Z) (now window : Z) : list Z :=
  match timestamps with
  | oldest :: rest => if entry_expired oldest now window then advance_window rest now window else timestamps
  | [] => []
  end.

(** [partition_point]: the binary search of the standard library.  Each round
    halves [size], so the length bounds the rounds. *)
Fixpoint partition_search (fuel : nat) (l : list Z) (pred : Z -> bool) (base size : nat) : nat :=
  match fuel with
  | O => base
  | S fuel =>
      if (size <=? 1)%nat then base
      else
        let half := (size / 2)%nat in
        let mid := (base + half)%nat in
        let base := match l !! mid with Some x => if pred x then mid else base | None => base end in
        partition_search fuel l pred base (size - half)
  end.

Definition partition_point (l : list Z) (pred : Z -> bool) : nat :=
  match l with
  | [] => 0%nat
  | _ =>
      let base := partition_search (length l) l pred 0 (length l) in
      match l !! base with Some x => if pred x then S base else base | None => base end
  end.

Definition insert_in_time_order (timestamps : list Z) (now : Z) : list Z :=
  if match last timestamps with Some newest => now <? newest | None => false end
  then let at_ := partition_point timestamps (fun entry => entry <=? now) in
       take at_ timestamps ++ now :: drop at_ timestamps
  else timestamps ++ [now].

Definition window_count (timestamps : list Z) (now window : Z) : Z :=
  let expired := partition_point timestamps (fun entry => entry_expired entry now window) in
  Z.of_nat (length timestamps - expired) + 1.

Definition sliding_window_count `{Countable Key} (logs : gmap Key (list Z)) (key : Key)
    (now window : Z) (record : bool) : Z * gmap Key (list Z) :=
  if negb record
  then (default 1 (storage_with logs key (fun log => window_count log now window)), logs)
  else with_mut logs key [] (fun log _ =>
         let count := window_count log now window in
         let log := advance_window log now window in
         (count, insert_in_time_order log now)).

(** ** Settings *)

Definition CounterRef : Set := nat.

(** The heap of counters; the next address is the number of [Arc::new] so far. *)
Record CounterHeap : Type := mkHeap { ch_counters : gmap CounterRef WindowCounter; ch_next : nat }.

Definition heap_new : CounterHeap := mkHeap ∅ 0.
Definition heap_alloc (h : CounterHeap) (c : WindowCounter) : CounterRef * CounterHeap :=
  (ch_next h, mkHeap (<[ch_next h := c]> (ch_counters h)) (S (ch_next h))).
Definition heap_set (h : CounterHeap) (r : CounterRef) (c : WindowCounter) : CounterHeap :=
  mkHeap (<[r := c]> (ch_counters h)) (ch_next h).

Record RateLimitSlot : Set := mkSlot { slot_counter : CounterRef; slot_limit : RateLimit }.

Record RateLimitSettings : Type := mkSettings {
  asset_limits : gmap Asset RateLimitSlot;
  account_limits : gmap AccountId RateLimit;
  account_asset_limits : gmap (AccountId * Asset) RateLimit;
  broker : option RateLimitSlot
}.

Definition fresh_slot (limit : RateLimit) (h : CounterHeap) : RateLimitSlot * CounterHeap :=
  let '(counter, h) := heap_alloc h (counter_new 0) in (mkSlot counter limit, h).

(** The carried-over counter of a surviving slot, or a new one. *)
Definition carry_counter (slot : option RateLimitSlot) (h : CounterHeap) : CounterRef * CounterHeap :=
  match slot with
  | Some slot => (slot_counter slot, h)
  | None => heap_alloc h (counter_new 0)
  end.

(** [None] for [old] builds every slot fresh, as [RateLimitSettings::new] does. *)
Fixpoint collect_assets (old : gmap Asset RateLimitSlot) (barriers : list RateLimitAssetBarrier)
    (acc : gmap Asset RateLimitSlot) (h : CounterHeap) :
    result RateLimitPolicyError (gmap Asset RateLimitSlot * CounterHeap) :=
  match barriers with
  | [] => Ok (acc, h)
  | barrier :: barriers =>
      limit ← validate_limit (ab_limit barrier);
      let '(counter, h) := carry_counter (old !! ab_settlement_asset barrier) h in
      collect_assets old barriers (<[ab_settlement_asset barrier := mkSlot counter limit]> acc) h
  end.

Fixpoint collect_accounts (barriers : list RateLimitAccountBarrier) (acc : gmap AccountId RateLimit) :
    result RateLimitPolicyError (gmap AccountId RateLimit) :=
  match barriers with
  | [] => Ok acc
  | barrier :: barriers =>
      limit ← validate_limit (acb_limit barrier);
      collect_accounts barriers (<[acb_account_id barrier := limit]> acc)
  end.

Fixpoint collect_account_assets (barriers : list RateLimitAccountAssetBarrier)
    (acc : gmap (AccountId * Asset) RateLimit) :
    result RateLimitPolicyError (gmap (AccountId * Asset) RateLimit) :=
  match barriers with
  | [] => Ok acc
  | barrier :: barriers =>
      limit ← validate_limit (aab_limit barrier);
      collect_account_assets barriers
        (<[(aab_account_id barrier, aab_settlement_asset barrier) := limit]> acc)
  end.

Definition settings_new (broker : option RateLimitBrokerBarrier)
    (asset_barriers : list RateLimitAssetBarrier) (account_barriers : list RateLimitAccountBarrier)
    (account_asset_barriers : list RateLimitAccountAssetBarrier) (h : CounterHeap) :
    result RateLimitPolicyError (RateLimitSettings * CounterHeap) :=
  '(broker, h) ← match broker with
                 | Some b => limit ← validate_limit (bb_limit b);
                             let '(slot, h) := fresh_slot limit h in Ok (Some slot, h)
                 | None => Ok (None, h)
                 end;
  '(asset_limits, h) ← collect_assets ∅ asset_barriers ∅ h;
  account_limits ← collect_accounts account_barriers ∅;
  account_asset_limits ← collect_account_assets account_asset_barriers ∅;
  Ok (mkSettings asset_limits account_limits account_asset_limits broker, h).

Definition set_broker (self : RateLimitSettings) (b : option RateLimitBrokerBarrier) (h : CounterHeap) :
    result RateLimitPolicyError (RateLimitSettings * CounterHeap) :=
  '(next, h) ← match b with
               | Some b => limit ← validate_limit (bb_limit b);
                           let '(counter, h) := carry_counter (broker self) h in
                           Ok (Some (mkSlot counter limit), h)
               | None => Ok (None, h)
               end;
  Ok (mkSettings (asset_limits self) (account_limits self) (account_asset_limits self) next, h).

Definition set_asset_barriers (self : RateLimitSettings) (barriers : list RateLimitAssetBarrier)
    (h : CounterHeap) : result RateLimitPolicyError (RateLimitSettings * CounterHeap) :=
  '(limits, h) ← collect_assets (asset_limits self) barriers ∅ h;
  Ok (mkSettings limits (account_limits self) (account_asset_limits self) (broker self), h).

Definition set_account_barriers (self : RateLimitSettings) (barriers : list RateLimitAccountBarrier) :
    result RateLimitPolicyError RateLimitSettings :=
  limits ← collect_accounts barriers ∅;
  Ok (mkSettings (asset_limits self) limits (account_asset_limits self) (broker self)).

Definition set_account_asset_barriers (self : RateLimitSettings)
    (barriers : list RateLimitAccountAssetBarrier) : result RateLimitPolicyError RateLimitSettings :=
  limits ← collect_account_assets barriers ∅;
  Ok (mkSettings (asset_limits self) (account_limits self) limits (broker self)).

(** [rearm]: [values_mut] visits the slots in some order; [map_to_list] fixes
    one. *)
Definition rearm_assets (slots : list (Asset * RateLimitSlot)) (h : CounterHeap) :
    gmap Asset RateLimitSlot * CounterHeap :=
  foldr (fun '(a, slot) '(m, h) =>
           let '(slot, h) := fresh_slot (slot_limit slot) h in (<[a := slot]> m, h)) (∅, h) slots.

Definition rearm (self : RateLimitSettings) (h : CounterHeap) : RateLimitSettings * CounterHeap :=
  let '(b, h) := match broker self with
                 | Some slot => let '(slot, h) := fresh_slot (slot_limit slot) h in (Some slot, h)
                 | None => (None, h)
                 end in
  let '(assets, h) := rearm_assets (map_to_list (asset_limits self)) h in
  (mkSettings assets (account_limits self) (account_asset_limits self) b, h).

(** ** The policy *)

Record RateLimitState : Type := mkRateLimitState {
  rls_settings : RateLimitSettings;
  rls_heap : CounterHeap;
  rls_per_account_timestamps : gmap AccountId (list Z);
  rls_per_account_asset_timestamps : gmap (AccountId * Asset) (list Z)
}.

Record RateLimitPolicy : Set := mkRateLimitPolicy { rlp_group_id : PolicyGroupId; rlp_epoch : Z }.

(** [RateLimitPolicy::new]; [now] is the clock's reading. *)
Definition rate_limit_policy_new (settings : RateLimitSettings) (now : Z) (h : CounterHeap) :
    RateLimitPolicy * RateLimitState :=
  let '(settings, h) := rearm settings h in
  (mkRateLimitPolicy DEFAULT_POLICY_GROUP_ID now, mkRateLimitState settings h ∅ ∅).

Definition rate_limit_with_policy_group_id (self : RateLimitPolicy) (id : PolicyGroupId) : RateLimitPolicy :=
  mkRateLimitPolicy id (rlp_epoch self).

Definition fixed_window_count (slot : RateLimitSlot) (now_nanos : Z) (record : bool) (h : CounterHeap) :
    Z * CounterHeap :=
  let window := window_nanos (slot_limit slot) in
  let counter := default (counter_new 0) (ch_counters h !! slot_counter slot) in
  if record
  then let '(count, counter) := counter_push counter now_nanos window in
       (count, heap_set h (slot_counter slot) counter)
  else (counter_peek counter now_nanos window, h).

Definition rate_limit_reject {PR} (barrier : string) (count max_orders window : Z) : Rejects PR :=
  rejects_from_reject (reject_new RATE_LIMIT_POLICY_NAME RS_Order RC_RateLimitExceeded
    ("rate limit exceeded: " +:+ barrier)
    ("submitted " +:+ pretty count +:+ " orders in " +:+ Duration_fmt window +:+
     " window, max allowed: " +:+ pretty max_orders)).

Definition over_limit {PR} (count : Z) (limit : RateLimit) (reason : string) : option (Rejects PR) :=
  if cast_u64 (rl_max_orders limit) <? count
  then Some (rate_limit_reject reason count (cast_u64 (rl_max_orders limit)) (rl_window limit))
  else None.

Section CheckStart.
Context {D : DecimalOps}.

Abbreviation PRejects := (Rejects PolicyPreTradeResult).
Implicit Types (s : RateLimitState) (now : Z) (record : bool).

(** One axis: whether it applies, and then its verdict; the state is threaded
    through the four of them. *)
Definition broker_axis s (now_nanos : Z) record : option PRejects * RateLimitState :=
  match broker (rls_settings s) with
  | Some slot =>
      let '(count, h) := fixed_window_count slot now_nanos record (rls_heap s) in
      (over_limit count (slot_limit slot) "broker barrier",
       mkRateLimitState (rls_settings s) h (rls_per_account_timestamps s)
         (rls_per_account_asset_timestamps s))
  | None => (None, s)
  end.

Definition asset_axis (settlement : option Asset) s (now_nanos : Z) record :
    option PRejects * RateLimitState :=
  match settlement ≫= fun a => asset_limits (rls_settings s) !! a with
  | Some slot =>
      let '(count, h) := fixed_window_count slot now_nanos record (rls_heap s) in
      (over_limit count (slot_limit slot) "asset barrier",
       mkRateLimitState (rls_settings s) h (rls_per_account_timestamps s)
         (rls_per_account_asset_timestamps s))
  | None => (None, s)
  end.

Definition account_axis (account : option AccountId) s now record : option PRejects * RateLimitState :=
  match (account_id ← account; limit ← account_limits (rls_settings s) !! account_id;
         Some (account_id, limit)) with
  | Some (account_id, limit) =>
      let '(count, logs) := sliding_window_count (rls_per_account_timestamps s) account_id now
                              (rl_window limit) record in
      (over_limit count limit "account barrier",
       mkRateLimitState (rls_settings s) (rls_heap s) logs (rls_per_account_asset_timestamps s))
  | None => (None, s)
  end.

Definition account_asset_axis (account : option AccountId) (settlement : option Asset) s now record :
    option PRejects * RateLimitState :=
  match (account_id ← account; a ← settlement;
         limit ← account_asset_limits (rls_settings s) !! (account_id, a);
         Some ((account_id, a), limit)) with
  | Some (key, limit) =>
      let '(count, logs) := sliding_window_count (rls_per_account_asset_timestamps s) key now
                              (rl_window limit) record in
      (over_limit count limit "account+asset barrier",
       mkRateLimitState (rls_settings s) (rls_heap s) (rls_per_account_timestamps s) logs)
  | None => (None, s)
  end.

Definition map_is_empty {K V} `{Countable K} (m : gmap K V) : bool := bool_decide (m = ∅).

Definition nanos_since (epoch now : Z) : Z := cast_u64 (default 0 (checked_duration_since now epoch)).

(** [settlement_opt] and [account_id_opt]: [instr] and [account] are what the
    order's and the context's accessors answer, asked only when an axis needs
    them. *)
Definition settlement_opt (settings : RateLimitSettings)
    (instr : result RequestFieldAccessError Instrument) : result PRejects (option Asset) :=
  let needs_settlement := negb (map_is_empty (asset_limits settings)) ||
                          negb (map_is_empty (account_asset_limits settings)) in
  if needs_settlement
  then (fun i => Some (settlement_asset i)) <$>
       map_err (fun e => rejects_from_reject
                  (missing_required_field_reject RATE_LIMIT_POLICY_NAME "instrument" e)) instr
  else Ok None.

Definition account_id_opt (settings : RateLimitSettings)
    (account : result RequestFieldAccessError AccountId) : result PRejects (option AccountId) :=
  let needs_account := negb (map_is_empty (account_limits settings)) ||
                       negb (map_is_empty (account_asset_limits settings)) in
  if needs_account
  then Some <$> map_err (fun e => rejects_from_reject
                  (missing_required_field_reject RATE_LIMIT_POLICY_NAME "account ID" e)) account
  else Ok None.

(** The body of the snapshot read. *)
Definition check_start_state (epoch : Z) (instr : result RequestFieldAccessError Instrument)
    (account : result RequestFieldAccessError AccountId) now record s :
    result PRejects unit * RateLimitState :=
  let now_nanos := nanos_since epoch now in
  match settlement_opt (rls_settings s) instr with
  | Err rejects => (Err rejects, s)
  | Ok settlement =>
      match account_id_opt (rls_settings s) account with
      | Err rejects => (Err rejects, s)
      | Ok account =>
          let '(broker, s) := broker_axis s now_nanos record in
          let '(asset, s) := asset_axis settlement s now_nanos record in
          let '(by_account, s) := account_axis account s now record in
          let '(account_asset, s) := account_asset_axis account settlement s now record in
          (match or_else broker (or_else asset (or_else by_account account_asset)) with
           | Some reject => Err reject
           | None => Ok tt
           end, s)
      end
  end.

(** *** The trait implementation *)

Context {W Order ExecutionReport AccountAdjustment : Type}.
Context `{!Owns W RateLimitState} {HI : HasInstrument Order}.
(** What [Instant::now] answers outside an engine entry point. *)
Context (clock : Z).

Abbreviation St := (EngineState W).

Definition check_start (self : RateLimitPolicy) (ctx : PreTradeContext) (order : Order) record
    (hs : HookState W) : result PRejects unit * HookState W :=
  let now := start_pre_trade_now hs.2 clock in
  let '(r, w) := check_start_state (rlp_epoch self) (instrument order) (ptc_account ctx) now record
                   (own_get (es_world hs.2)) in
  (r, (hs.1, with_world hs.2 (own_set w (es_world hs.2)))).

(** [keys] is collected when the hook runs, the commit closure removes them. *)
Definition forget_logs (account : AccountId) (keys : list (AccountId * Asset)) (w : W) : W :=
  let s := own_get w in
  own_set (mkRateLimitState (rls_settings s) (rls_heap s)
             (storage_remove (rls_per_account_timestamps s) account).2
             (foldl (fun m key => (storage_remove m key).2) (rls_per_account_asset_timestamps s) keys)) w.

Definition settings_reference (settings : RateLimitSettings) (account : AccountId) : bool :=
  match account_limits settings !! account with Some _ => true | None => false end ||
  existsb (fun key => bool_decide (key.1 = account)) (map_to_list (account_asset_limits settings)).*1.

Definition rate_limit_retire_account (account : AccountId) (mutations : Mutations St) (st : St) :
    result AccountRetirementRefusal unit * Mutations St * St :=
  let s := own_get (es_world st) in
  if settings_reference (rls_settings s) account
  then (Err ConfigurationReferencesAccount, mutations, st)
  else
    let keys := List.filter (fun key => bool_decide (key.1 = account))
                  (storage_keys (rls_per_account_asset_timestamps s)) in
    (Ok tt,
     mutations_push mutations
       (mutation_new (fun st => with_world st (forget_logs account keys (es_world st))) (fun st => st)),
     st).

Definition rate_limit_policy (self : RateLimitPolicy) :
    PreTradePolicy W Order ExecutionReport AccountAdjustment :=
  mkPolicy RATE_LIMIT_POLICY_NAME (rlp_group_id self)
    (fun ctx order => check_start self ctx order true)
    (fun ctx order => check_start self ctx order false)
    perform_default perform_default report_default adjustment_default rate_limit_retire_account.

End CheckStart.
