(* ===== verification/SlidingWindow.v ===== *)
(** * SlidingWindow: the precise logs of the rate limit policy

    What [partition_point], [advance_window], [insert_in_time_order] and
    [window_count] of rate_limit.rs compute on the logs that occur, and the limit
    they enforce together. *)
From stdpp Require Import sorting.
From S2P Require Import Prelude.
From S2P Require Import Reject.
From S2P Require Import Policy.
From S2P Require Import Storage.
From S2P Require Import RateLimit.
Open Scope Z_scope.

(** ** The binary search *)

(** [n] elements satisfy [pred], then none does. *)
Definition partitioned (pred : Z -> bool) (l : list Z) (n : nat) : Prop :=
  (n <= length l)%nat /\ forall i x, l !! i = Some x -> pred x = bool_decide (i < n)%nat.

Lemma partition_search_spec pred l n fuel base size :
  partitioned pred l n -> (size <= S fuel)%nat -> (1 <= size)%nat ->
  (base + size <= length l)%nat -> (base = 0 \/ base < n)%nat -> (n <= base + size)%nat ->
  let b := partition_search fuel l pred base size in
  (b < length l /\ (b = 0 \/ b < n) /\ n <= S b)%nat.
Proof.
  intros [Hn Hp]. revert base size. induction fuel as [|fuel IH]; intros base size Hf Hs Hl Hb Hns; cbn.
  { lia. }
  destruct (Nat.leb_spec size 1) as [H1|H1]; [lia|].
  pose proof (Nat.div_mod_eq size 2) as Hd. pose proof (Nat.mod_upper_bound size 2 ltac:(lia)) as Hm.
  change (fst (Nat.divmod size 1 0 1)) with (size / 2)%nat.
  destruct (lookup_lt_is_Some_2 l (base + size / 2)) as [x Hx]; [lia|].
  rewrite Hx, (Hp _ _ Hx). case_bool_decide; apply IH; lia.
Qed.

Lemma partition_point_spec pred l n : partitioned pred l n -> partition_point l pred = n.
Proof.
  intros Hpt. destruct l as [|y l]; [destruct Hpt; cbn in *; lia|].
  unfold partition_point. set (l' := y :: l) in *.
  destruct (partition_search_spec pred l' n (length l') 0 (length l') Hpt) as (Hlt & Hb & Hn);
    [lia|cbn; lia|lia|lia|destruct Hpt; lia|].
  set (b := partition_search _ _ _ _ _) in *.
  destruct (lookup_lt_is_Some_2 l' b Hlt) as [x Hx]. rewrite Hx.
  rewrite (proj2 Hpt _ _ Hx). case_bool_decide; lia.
Qed.

(** ** Sorted logs *)

Definition log_sorted (l : list Z) : Prop := StronglySorted Z.le l.

Abbreviation upto t l := (filter (fun e => e <= t) l).
Abbreviation after t l := (filter (fun e => t < e) l).

Lemma filter_later t l : Forall (fun e => t < e) l -> after t l = l /\ upto t l = [].
Proof.
  induction 1 as [|e l He _ [IH1 IH2]]; [done|].
  rewrite filter_cons_True, (filter_cons_False (fun e => e <= t)) by lia. by rewrite IH1.
Qed.

Lemma sorted_split t l : log_sorted l -> l = upto t l ++ after t l.
Proof.
  induction 1 as [|x l Hs IH Hx]; [done|].
  destruct (decide (x <= t)) as [Hle|Hgt].
  - rewrite filter_cons_True, (filter_cons_False (fun e => t < e)) by lia. cbn. by rewrite <- IH.
  - rewrite (filter_cons_False (fun e => e <= t)), (filter_cons_True (fun e => t < e)) by lia.
    destruct (filter_later t l) as [-> ->]; [|done]. eapply Forall_impl; [exact Hx|cbn; lia].
Qed.

Lemma sorted_partition t l : log_sorted l -> partitioned (fun e => e <=? t) l (length (upto t l)).
Proof.
  intros Hs. split; [apply length_filter|]. intros i x Hx.
  rewrite (sorted_split t l Hs) in Hx at 1. apply lookup_app_Some in Hx as [Hx|[Hi Hx]].
  - rewrite bool_decide_true by (by eapply lookup_lt_Some). apply list_elem_of_lookup_2 in Hx.
    apply list_elem_of_filter in Hx as [Hx _]. lia.
  - rewrite bool_decide_false by lia. apply list_elem_of_lookup_2 in Hx.
    apply list_elem_of_filter in Hx as [Hx _]. lia.
Qed.

Lemma entry_expired_spec e now window : 0 <= window -> entry_expired e now window = (e <=? now - window).
Proof. intros Hw. unfold entry_expired, checked_duration_since. destruct (Z.leb_spec e now); lia. Qed.

Lemma window_count_spec l now window : 0 <= window -> log_sorted l ->
  window_count l now window = Z.of_nat (length (after (now - window) l)) + 1.
Proof.
  intros Hw Hs. unfold window_count.
  rewrite (partition_point_spec _ l (length (upto (now - window) l))).
  - rewrite (sorted_split (now - window) l Hs) at 1. rewrite length_app. lia.
  - destruct (sorted_partition (now - window) l Hs) as [Hn Hp]. split; [done|].
    intros i x Hx. rewrite entry_expired_spec by done. by apply (Hp i x).
Qed.

Lemma advance_window_spec l now window : 0 <= window -> log_sorted l ->
  advance_window l now window = after (now - window) l.
Proof.
  intros Hw. induction 1 as [|x l Hs IH Hx]; [done|]. cbn [advance_window]. rewrite entry_expired_spec by done.
  destruct (Z.leb_spec x (now - window)).
  - by rewrite filter_cons_False by lia.
  - rewrite filter_cons_True by lia. destruct (filter_later (now - window) l) as [-> _]; [|done].
    eapply Forall_impl; [exact Hx|cbn; lia].
Qed.

Lemma sorted_last l newest : log_sorted l -> last l = Some newest -> Forall (fun e => e <= newest) l.
Proof.
  induction 1 as [|x l Hs IH Hx]; [done|]. intros Hl. destruct l as [|y l].
  - injection Hl as ->. repeat constructor. lia.
  - specialize (IH Hl). constructor; [|done]. inversion Hx; inversion IH; subst. lia.
Qed.

Lemma filter_earlier t l : Forall (fun e => e <= t) l -> upto t l = l /\ after t l = [].
Proof.
  induction 1 as [|e l He _ [IH1 IH2]]; [done|].
  rewrite filter_cons_True, (filter_cons_False (fun e => t < e)) by lia. by rewrite IH1.
Qed.

Lemma insert_in_time_order_spec l now : log_sorted l ->
  insert_in_time_order l now = upto now l ++ now :: after now l.
Proof.
  intros Hs. unfold insert_in_time_order. destruct (last l) as [newest|] eqn:El.
  - destruct (Z.ltb_spec now newest).
    + rewrite (partition_point_spec _ l _ (sorted_partition now l Hs)).
      rewrite (sorted_split now l Hs) at 2 4. by rewrite take_app_length, drop_app_length.
    + destruct (filter_earlier now l) as [-> ->]; [|done].
      eapply Forall_impl; [by eapply sorted_last|cbn; lia].
  - apply last_None in El. by subst.
Qed.

Lemma sorted_filter (P : Z -> Prop) `{forall x, Decision (P x)} l : log_sorted l -> log_sorted (filter P l).
Proof.
  induction 1 as [|x l Hs IH Hx]; [constructor|]. rewrite filter_cons. destruct (decide (P x)); [|done].
  constructor; [done|]. apply Forall_forall. intros y [_ Hy]%list_elem_of_filter.
  by apply (proj1 (Forall_forall _ _) Hx).
Qed.

Lemma sorted_app l1 l2 : log_sorted l1 -> log_sorted l2 ->
  (forall x y, x ∈ l1 -> y ∈ l2 -> x <= y) -> log_sorted (l1 ++ l2).
Proof.
  intros H1 H2. induction H1 as [|x l1 Hs IH Hx]; intros Hxy; [done|]. cbn. constructor.
  - apply IH. intros. apply Hxy; [by right|done].
  - apply Forall_app. split; [done|]. apply Forall_forall. intros y Hy. apply Hxy; [by left|done].
Qed.

Lemma insert_sorted l now : log_sorted l -> log_sorted (insert_in_time_order l now).
Proof.
  intros Hs. rewrite insert_in_time_order_spec by done.
  apply sorted_app; [by apply sorted_filter| |].
  - constructor; [by apply sorted_filter|]. apply Forall_forall.
    intros y [Hy _]%list_elem_of_filter. lia.
  - intros x y [Hx _]%list_elem_of_filter [->|[Hy _]%list_elem_of_filter]%elem_of_cons; lia.
Qed.

Lemma insert_perm l now : log_sorted l -> insert_in_time_order l now ≡ₚ now :: l.
Proof.
  intros Hs. rewrite insert_in_time_order_spec by done.
  rewrite <- Permutation_middle. constructor. by rewrite <- sorted_split.
Qed.

(** ** A log over a run of recorded orders *)

(** The writer of [sliding_window_count]. *)
Definition log_record (window : Z) (log : list Z) (now : Z) : list Z :=
  insert_in_time_order (advance_window log now window) now.

(** The log after the orders with the readings [times], in arrival order. *)
Definition log_after (window : Z) (times : list Z) : list Z := foldl (log_record window) [] times.

(** The readings of the orders the limit lets through. *)
Definition admit_step (window max_orders : Z) (acc : list Z * list Z) (now : Z) : list Z * list Z :=
  (acc.1 ++ (if window_count acc.2 now window <=? max_orders then [now] else []),
   log_record window acc.2 now).
Definition admitted (window max_orders : Z) (times : list Z) : list Z :=
  (foldl (admit_step window max_orders) ([], []) times).1.

Lemma log_after_snoc window times now :
  log_after window (times ++ [now]) = log_record window (log_after window times) now.
Proof. unfold log_after. by rewrite foldl_app. Qed.

Lemma log_after_sorted window times : 0 <= window -> log_sorted (log_after window times).
Proof.
  intros Hw. induction times as [|now times IH] using rev_ind; [constructor|].
  rewrite log_after_snoc. apply insert_sorted. rewrite advance_window_spec by done. by apply sorted_filter.
Qed.

(** Whatever the order of the readings, no attempt later than every expiry line
    is ever lost. *)
Lemma log_after_keeps window times c : 0 <= window -> Forall (fun t => t - window <= c) times ->
  after c (log_after window times) ≡ₚ after c times.
Proof.
  intros Hw. induction times as [|now times IH] using rev_ind; [done|].
  intros [Ht [Hn _]%Forall_cons]%Forall_app. cbn in Hn. specialize (IH Ht).
  rewrite log_after_snoc. unfold log_record.
  pose proof (log_after_sorted window times Hw) as Hs.
  rewrite advance_window_spec by done.
  rewrite insert_perm by (by apply sorted_filter).
  change (now :: after ?t ?l) with ([now] ++ after t l). rewrite !filter_app.
  rewrite (Permutation_app_comm _ (after c [now])), <- IH.
  by rewrite (list_filter_filter_l (fun e => c < e) (fun e => now - window < e))
    by lia.
Qed.

Lemma log_after_sub window times : 0 <= window -> log_after window times ⊆+ times.
Proof.
  intros Hw. induction times as [|now times IH] using rev_ind; [done|].
  rewrite log_after_snoc. unfold log_record.
  pose proof (log_after_sorted window times Hw) as Hs.
  rewrite advance_window_spec by done. rewrite insert_perm by (by apply sorted_filter).
  rewrite (Permutation_app_comm times [now]). cbn. apply submseteq_skip.
  etrans; [|exact IH]. apply sublist_submseteq, sublist_filter.
Qed.

Lemma log_after_count window times now : 0 <= window -> Forall (fun t => t <= now) times ->
  window_count (log_after window times) now window = Z.of_nat (length (after (now - window) times)) + 1.
Proof.
  intros Hw Ht. rewrite window_count_spec by (try done; by apply log_after_sorted).
  rewrite (log_after_keeps window times); [done|done|]. eapply Forall_impl; [exact Ht|cbn; lia].
Qed.

Lemma admitted_snoc window max_orders times now :
  admitted window max_orders (times ++ [now]) =
  admitted window max_orders times ++
  (if window_count (log_after window times) now window <=? max_orders then [now] else []).
Proof.
  assert (Hlog : forall ts, (foldl (admit_step window max_orders) ([], []) ts).2 = log_after window ts).
  { intros ts. unfold log_after. generalize (@nil Z) at 1 as acc. generalize (@nil Z) as log.
    induction ts as [|x ts IH]; intros log acc; [done|]. apply IH. }
  unfold admitted. rewrite foldl_app. cbn [foldl]. unfold admit_step at 1. cbn [fst]. by rewrite Hlog.
Qed.

Lemma admitted_sublist window max_orders times : admitted window max_orders times `sublist_of` times.
Proof.
  induction times as [|now times IH] using rev_ind; [done|]. rewrite admitted_snoc.
  apply sublist_app; [done|]. destruct (_ <=? _); [done|]. apply sublist_nil_l.
Qed.

Lemma length_filter_le (P Q : Z -> Prop) `{forall x, Decision (P x), forall x, Decision (Q x)} l k :
  l `sublist_of` k -> (forall x, P x -> Q x) -> (length (filter P l) <= length (filter Q k))%nat.
Proof.
  intros Hs HPQ. induction Hs as [|x l k Hs IH|x l k Hs IH]; [done| |];
    rewrite ?filter_cons; repeat case_decide; cbn; naive_solver lia.
Qed.

Lemma sorted_snoc_bound times now : StronglySorted Z.le (times ++ [now]) ->
  StronglySorted Z.le times /\ Forall (fun t => t <= now) times.
Proof.
  induction times as [|x times IH]; [repeat constructor|]. inversion 1 as [|? ? Hs Hx]; subst.
  destruct (IH Hs) as [H1 H2]. apply Forall_app in Hx as [Hx [Hn _]%Forall_cons].
  split; constructor; done.
Qed.

(** ** Properties *)

(** A sliding-window log is kept in time order even when readings arrive late,
    holds only attempts that were made, and never loses one that is still inside
    the window of every reading so far; a reading no earlier than all before it
    is therefore counted exactly, as the attempts inside its window plus
    itself. *)
Theorem sliding_log_exact window times :
  0 <= window ->
  StronglySorted Z.le (log_after window times) /\
  log_after window times ⊆+ times /\
  (forall c, Forall (fun t => t - window <= c) times ->
     filter (fun e => c < e) (log_after window times) ≡ₚ filter (fun e => c < e) times) /\
  (forall now, Forall (fun t => t <= now) times ->
     window_count (log_after window times) now window =
     Z.of_nat (length (filter (fun e => now - window < e) times)) + 1).
Proof.
  intros Hw. split_and!; [by apply log_after_sorted|by apply log_after_sub| |].
  - intros c Hc. by apply log_after_keeps.
  - intros now Ht. by apply log_after_count.
Qed.

(** C38: with readings in time order the limit is precise: whatever the traffic, no
    interval of the configured length ever holds more admitted orders than the
    limit allows. *)
Theorem sliding_window_limit window max_orders times t :
  0 <= window -> 0 <= max_orders -> StronglySorted Z.le times ->
  Z.of_nat (length (filter (fun e => t - window < e /\ e <= t) (admitted window max_orders times)))
    <= max_orders.
Proof.
  intros Hw Hm. induction times as [|now times IH] using rev_ind; [done|].
  intros [Hs Hb]%sorted_snoc_bound. rewrite admitted_snoc, filter_app, length_app.
  destruct (Z.leb_spec (window_count (log_after window times) now window) max_orders) as [Hc|Hc].
  - rewrite log_after_count in Hc by done.
    rewrite filter_cons, filter_nil. case_decide as Ht; cbn; [|specialize (IH Hs); lia].
    pose proof (length_filter_le (fun e => t - window < e /\ e <= t) (fun e => now - window < e)
      _ _ (admitted_sublist window max_orders times) ltac:(cbn; intros; lia)) as Hle. cbn in Hle. lia.
  - rewrite filter_nil. cbn. specialize (IH Hs). lia.
Qed.
