(* ===== verification/FixedWindow.v ===== *)
(** * FixedWindow: the lock-free counter of the rate limit policy

    [AtomicWindowCounter] of rate_limit.rs is two atomics.  A push is up to three
    atomic accesses, and any number of threads push at once; the accesses are
    interleaved sequentially. *)
From S2P Require Import Prelude.
From S2P Require Import Reject.
From S2P Require Import Policy.
From S2P Require Import Storage.
From S2P Require Import RateLimit.
Open Scope Z_scope.

(** What a thread inside [push] does next; [now] is its clock reading. *)
Inductive PushPc : Set :=
| CasDue (now win_start : Z)
| StoreDue (now : Z)
| AddDue (now : Z).

(** The counter, the threads inside [push], the readings and counts of the pushes
    that returned, and the number of rollovers that won their exchange. *)
Record PushState : Type := mkPushState {
  ps_counter : WindowCounter;
  ps_threads : list PushPc;
  ps_answers : list (Z * Z);
  ps_rollovers : Z
}.

Section FixedWindow.
(** The window length, and a bound on every clock reading. *)
Context (window horizon : Z).

Inductive push_step : PushState -> PushState -> Prop :=
| push_load c ts ans n now : 0 <= now <= horizon ->
    push_step (mkPushState c ts ans n)
      (mkPushState c
         ((if rolled_over now (wc_window_start_nanos c) window
           then CasDue now (wc_window_start_nanos c) else AddDue now) :: ts) ans n)
| push_cas_ok c ts1 ts2 ans n now win_start : wc_window_start_nanos c = win_start ->
    push_step (mkPushState c (ts1 ++ CasDue now win_start :: ts2) ans n)
      (mkPushState (mkCounter (wc_count c) now) (ts1 ++ StoreDue now :: ts2) ans (n + 1))
| push_cas_failed c ts1 ts2 ans n now win_start : wc_window_start_nanos c <> win_start ->
    push_step (mkPushState c (ts1 ++ CasDue now win_start :: ts2) ans n)
      (mkPushState c (ts1 ++ AddDue now :: ts2) ans n)
| push_store c ts1 ts2 ans n now :
    push_step (mkPushState c (ts1 ++ StoreDue now :: ts2) ans n)
      (mkPushState (mkCounter 1 (wc_window_start_nanos c)) (ts1 ++ ts2) ((now, 1) :: ans) n)
| push_add c ts1 ts2 ans n now :
    push_step (mkPushState c (ts1 ++ AddDue now :: ts2) ans n)
      (mkPushState (mkCounter (cast_u64 (wc_count c + 1)) (wc_window_start_nanos c)) (ts1 ++ ts2)
         ((now, cast_u64 (wc_count c + 1)) :: ans) n).

Definition push_init : PushState := mkPushState (counter_new 0) [] [] 0.

Inductive push_reachable : PushState -> Prop :=
| pr_init : push_reachable push_init
| pr_step s s' : push_reachable s -> push_step s s' -> push_reachable s'.

(** Pushes the limit lets through. *)
Definition admitted_pushes (max_orders : Z) (ans : list (Z * Z)) : list (Z * Z) :=
  filter (fun a => a.2 <= max_orders) ans.

Definition store_due (pc : PushPc) : bool := match pc with StoreDue _ => true | _ => false end.
Definition stores_due (ts : list PushPc) : Z := Z.of_nat (length (List.filter store_due ts)).

Definition pc_ok (pc : PushPc) : Prop :=
  match pc with
  | CasDue now win_start => window <= now - win_start /\ now <= horizon
  | _ => True
  end.

(** Rollovers are a window apart, and every store of 1 was paid by one. *)
Record push_inv (max_orders : Z) (s : PushState) : Prop := {
  pi_start : window * ps_rollovers s <= wc_window_start_nanos (ps_counter s) <= horizon;
  pi_threads : Forall pc_ok (ps_threads s);
  pi_count : 0 <= wc_count (ps_counter s) <= Z.of_nat (length (ps_answers s));
  pi_admitted :
    Z.of_nat (length (admitted_pushes max_orders (ps_answers s))) <=
    max_orders * (ps_rollovers s - stores_due (ps_threads s)) +
    Z.min (wc_count (ps_counter s)) max_orders
}.

Lemma stores_due_app ts1 ts2 : stores_due (ts1 ++ ts2) = stores_due ts1 + stores_due ts2.
Proof. unfold stores_due. rewrite List.filter_app, length_app. lia. Qed.

Lemma stores_due_cons pc ts :
  stores_due (pc :: ts) = (if store_due pc then 1 else 0) + stores_due ts.
Proof. unfold stores_due. cbn. destruct (store_due pc); cbn; lia. Qed.

Lemma admitted_cons max_orders now count ans :
  Z.of_nat (length (admitted_pushes max_orders ((now, count) :: ans))) =
  (if count <=? max_orders then 1 else 0) + Z.of_nat (length (admitted_pushes max_orders ans)).
Proof.
  unfold admitted_pushes. rewrite filter_cons. cbn [snd].
  destruct (Z.leb_spec count max_orders); [rewrite decide_True by done|rewrite decide_False by lia]; cbn; lia.
Qed.

Lemma rolled_over_spec now win_start :
  rolled_over now win_start window = true -> window <= now - win_start.
Proof.
  unfold rolled_over, checked_duration_since. destruct (Z.leb_spec win_start now); [|done]. lia.
Qed.

Lemma push_step_inv max_orders s s' : 0 <= max_orders ->
  push_step s s' -> Z.of_nat (length (ps_answers s')) < 2 ^ 64 -> push_inv max_orders s -> push_inv max_orders s'.
Proof.
  intros Hm Hstep Hlen [H1 H2 H3 H4]. destruct Hstep; cbn -[admitted_pushes] in *;
    rewrite ?Forall_app, ?Forall_cons in H2; rewrite ?stores_due_app, ?stores_due_cons in H4; cbn -[admitted_pushes] in H4.
  - split; cbn -[admitted_pushes]; rewrite ?stores_due_cons; try done.
    + constructor; [|done]. destruct (rolled_over _ _ _) eqn:E; [|done].
      apply rolled_over_spec in E. cbn. lia.
    + destruct (rolled_over _ _ _); cbn -[admitted_pushes]; lia.
  - destruct H2 as (Ht1 & Hpc & Ht2). cbn in Hpc. split; cbn -[admitted_pushes]; rewrite ?stores_due_app, ?stores_due_cons; cbn -[admitted_pushes].
    + lia.
    + by rewrite Forall_app, Forall_cons.
    + lia.
    + lia.
  - destruct H2 as (Ht1 & Hpc & Ht2). split; cbn -[admitted_pushes]; rewrite ?stores_due_app, ?stores_due_cons; cbn -[admitted_pushes]; try lia.
    by rewrite Forall_app, Forall_cons.
  - destruct H2 as (Ht1 & Hpc & Ht2). split; cbn -[admitted_pushes]; rewrite ?stores_due_app, ?admitted_cons; try lia.
    + by apply Forall_app.
    + destruct (Z.leb_spec 1 max_orders); nia.
  - destruct H2 as (Ht1 & Hpc & Ht2).
    assert (Hc : cast_u64 (wc_count c + 1) = wc_count c + 1) by (apply Z.mod_small; lia).
    split; cbn -[admitted_pushes]; rewrite ?stores_due_app, ?admitted_cons, ?Hc; try lia.
    + by apply Forall_app.
    + destruct (Z.leb_spec (wc_count c + 1) max_orders); lia.
Qed.

Lemma push_init_inv max_orders : 0 <= max_orders -> 0 <= horizon -> push_inv max_orders push_init.
Proof.
  intros Hm Hh. split; cbn; [lia|by apply Forall_nil|lia|]. unfold stores_due. cbn. lia.
Qed.

Lemma push_step_answers s s' : push_step s s' ->
  (length (ps_answers s) <= length (ps_answers s'))%nat.
Proof. destruct 1; cbn; lia. Qed.

Lemma push_reachable_inv max_orders s : 0 <= max_orders -> 0 <= horizon ->
  push_reachable s -> Z.of_nat (length (ps_answers s)) < 2 ^ 64 -> push_inv max_orders s.
Proof.
  intros Hm Hh. induction 1 as [|s s' _ IH Hstep]; intros Hlen; [by apply push_init_inv|].
  pose proof (push_step_answers _ _ Hstep). eapply push_step_inv; eauto. apply IH. lia.
Qed.

(** A push that runs without interference is [counter_push]. *)
Lemma counter_push_run c ts ans n now : 0 <= now <= horizon ->
  exists n', rtc push_step (mkPushState c ts ans n)
    (mkPushState (counter_push c now window).2 ts ((now, (counter_push c now window).1) :: ans) n').
Proof.
  intros Hn. pose proof (push_load c ts ans n now Hn) as Hl. unfold counter_push.
  destruct (rolled_over _ _ _) eqn:E.
  - exists (n + 1). eapply rtc_l; [exact Hl|].
    eapply rtc_l; [by apply (push_cas_ok c [] ts)|]. apply rtc_once.
    exact (push_store (mkCounter (wc_count c) now) [] ts ans (n + 1) now).
  - exists n. eapply rtc_l; [exact Hl|]. apply rtc_once. exact (push_add c [] ts ans n now).
Qed.

(** ** Properties *)

(** C37: however the threads interleave, the counter admits in the long run no more
    than the limit per window: the admitted pushes are at most the limit for each
    rollover and once more, rollovers are at least a window apart, and the window
    start never passes the latest clock reading. *)
Theorem fixed_window_counter_bounded max_orders s :
  0 <= max_orders -> 0 < window -> 0 <= horizon ->
  push_reachable s -> Z.of_nat (length (ps_answers s)) < 2 ^ 64 ->
  window * ps_rollovers s <= wc_window_start_nanos (ps_counter s) <= horizon /\
  Z.of_nat (length (admitted_pushes max_orders (ps_answers s))) <= max_orders * (ps_rollovers s + 1) /\
  Z.of_nat (length (admitted_pushes max_orders (ps_answers s))) <= max_orders * (horizon / window + 1).
Proof.
  intros Hm Hw Hh Hr Hlen.
  destruct (push_reachable_inv max_orders s Hm Hh Hr Hlen) as [H1 _ H3 H4].
  assert (Hd : 0 <= stores_due (ps_threads s)) by (unfold stores_due; lia).
  assert (Hn : ps_rollovers s <= horizon / window) by (apply Z.div_le_lower_bound; lia).
  split_and!; [lia|lia|nia|nia].
Qed.

End FixedWindow.

(** The burst at one window boundary is not limited to twice the limit: with
    two orders allowed per window of ten nanoseconds, two threads that won their
    exchanges in consecutive windows and store their counts late let five orders
    with readings in the current window through. *)
Theorem counter_burst_exceeds_twice :
  exists s, push_reachable 10 20 s /\ ps_threads s = [] /\
    wc_window_start_nanos (ps_counter s) = 20 /\
    (length (filter (fun a => (20 <= a.1)%Z) (admitted_pushes 2 (ps_answers s))) = 5)%nat.
Proof.
  pose (run := fun s s' => rtc (push_step 10 20) s s').
  assert (Hrun : forall s s', push_reachable 10 20 s -> run s s' -> push_reachable 10 20 s').
  { intros s s' Hs Hr. induction Hr; eauto using push_reachable. }
  eexists. split.
  - eapply Hrun; [constructor|]. unfold run, push_init.
    (* two rollovers win their exchanges and stall before their stores *)
    eapply rtc_l; [apply (push_load 10 20 _ _ _ _ 10); lia|]. cbn.
    eapply rtc_l; [by apply (push_cas_ok 10 20 _ [] [])|]. cbn.
    eapply rtc_l; [apply (push_load 10 20 _ _ _ _ 20); lia|]. cbn.
    eapply rtc_l; [by apply (push_cas_ok 10 20 _ [] [StoreDue 10])|]. cbn.
    (* two orders are counted on the stale count *)
    eapply rtc_l; [apply (push_load 10 20 _ _ _ _ 20); lia|]. cbn.
    eapply rtc_l; [apply (push_add 10 20 _ [] [StoreDue 20; StoreDue 10])|]. cbn.
    eapply rtc_l; [apply (push_load 10 20 _ _ _ _ 20); lia|]. cbn.
    eapply rtc_l; [apply (push_add 10 20 _ [] [StoreDue 20; StoreDue 10])|]. cbn.
    (* each late store starts the count over, and one more order follows it *)
    eapply rtc_l; [apply (push_store 10 20 _ [StoreDue 20] [])|]. cbn.
    eapply rtc_l; [apply (push_load 10 20 _ _ _ _ 20); lia|]. cbn.
    eapply rtc_l; [apply (push_add 10 20 _ [] [StoreDue 20])|]. cbn.
    eapply rtc_l; [apply (push_store 10 20 _ [] [])|]. cbn.
    eapply rtc_l; [apply (push_load 10 20 _ _ _ _ 20); lia|]. cbn.
    eapply rtc_l; [apply (push_add 10 20 _ [] [])|]. cbn. apply rtc_refl.
  - by vm_compute.
Qed.
