(* ===== verification/RateLimitFacts.v ===== *)
(** * RateLimitFacts: settings, check and retirement of the rate limit policy

    The setters of [RateLimitSettings] against the counters they share, the
    start-stage check on its four axes, and what the policy gives the engine. *)
From S2P Require Import Prelude.
From S2P Require Import Decimal.
From S2P Require Import Param.
From S2P Require Import Identifiers.
From S2P Require Import Mutation.
From S2P Require Import Reject.
From S2P Require Import AccountControl.
From S2P Require Import Accounts.
From S2P Require Import Lock.
From S2P Require Import Policy.
From S2P Require Import Storage.
From S2P Require Import Engine.
From S2P Require Import EngineFacts.
From S2P Require Import EngineOps.
From S2P Require Import RateLimit.
From S2P Require Import SlidingWindow.
Open Scope Z_scope.

(** ** The counters of a settings value *)

Definition heap_wf (h : CounterHeap) : Prop :=
  forall r, is_Some (ch_counters h !! r) -> (r < ch_next h)%nat.

(** Every slot points at a live counter, and no two slots share one. *)
Record settings_wf (s : RateLimitSettings) (h : CounterHeap) : Prop := {
  sw_heap : heap_wf h;
  sw_asset a slot : asset_limits s !! a = Some slot -> is_Some (ch_counters h !! slot_counter slot);
  sw_broker slot : broker s = Some slot -> is_Some (ch_counters h !! slot_counter slot);
  sw_asset_inj a1 a2 s1 s2 : asset_limits s !! a1 = Some s1 -> asset_limits s !! a2 = Some s2 ->
    slot_counter s1 = slot_counter s2 -> a1 = a2;
  sw_broker_asset a sb sa : broker s = Some sb -> asset_limits s !! a = Some sa ->
    slot_counter sb <> slot_counter sa
}.

(** [h'] has the counters of [h], unchanged, and possibly newer ones. *)
Definition heap_extends (h h' : CounterHeap) : Prop := ch_counters h ⊆ ch_counters h'.

Lemma heap_alloc_spec h c r h' : heap_wf h -> heap_alloc h c = (r, h') ->
  heap_wf h' /\ heap_extends h h' /\ ch_counters h !! r = None /\ ch_counters h' !! r = Some c.
Proof.
  intros Hw [= <- <-].
  assert (Hn : ch_counters h !! ch_next h = None).
  { destruct (ch_counters h !! ch_next h) eqn:E; [|done].
    assert (is_Some (ch_counters h !! ch_next h)) as ?%Hw by eauto. lia. }
  split_and!; [|by apply insert_subseteq|done|apply lookup_insert_eq].
  intros r. cbn. destruct (decide (r = ch_next h)) as [->|Hne]; [lia|].
  rewrite lookup_insert_ne by done. intros ?%Hw. lia.
Qed.

Lemma heap_extends_lookup h h' r c : heap_extends h h' -> ch_counters h !! r = Some c ->
  ch_counters h' !! r = Some c.
Proof. intros He Hx. by eapply lookup_weaken. Qed.

Lemma carry_counter_spec slot h r h' : heap_wf h -> carry_counter slot h = (r, h') ->
  heap_wf h' /\ heap_extends h h' /\
  match slot with
  | Some slot => r = slot_counter slot /\ h' = h
  | None => ch_counters h !! r = None /\ ch_counters h' !! r = Some (counter_new 0)
  end.
Proof.
  intros Hw. destruct slot as [slot|]; cbn [carry_counter].
  - intros [= <- <-]. by split_and!; [|unfold heap_extends| |].
  - intros Ha. destruct (heap_alloc_spec _ _ _ _ Hw Ha) as (? & ? & ? & ?). by split_and!.
Qed.

(** The last barrier listed for an asset decides. *)
Definition last_limit (barriers : list RateLimitAssetBarrier) (a : Asset) : option RateLimit :=
  ab_limit <$> last (filter (fun b => ab_settlement_asset b = a) barriers).

(** What [collect_assets] built so far: [h0] is the heap it started from. *)
Record collected (old : gmap Asset RateLimitSlot) (h0 : CounterHeap)
    (acc : gmap Asset RateLimitSlot) (h : CounterHeap) : Prop := {
  co_heap : heap_wf h;
  co_ext : heap_extends h0 h;
  co_slot a slot : acc !! a = Some slot ->
    match old !! a with
    | Some o => slot_counter slot = slot_counter o
    | None => ch_counters h0 !! slot_counter slot = None /\
              ch_counters h !! slot_counter slot = Some (counter_new 0)
    end;
  co_inj a1 a2 s1 s2 : acc !! a1 = Some s1 -> acc !! a2 = Some s2 ->
    slot_counter s1 = slot_counter s2 -> a1 = a2
}.

Definition slots_live (slots : gmap Asset RateLimitSlot) (h : CounterHeap) : Prop :=
  forall a slot, slots !! a = Some slot -> is_Some (ch_counters h !! slot_counter slot).
Definition slots_inj (slots : gmap Asset RateLimitSlot) : Prop :=
  forall a1 a2 s1 s2, slots !! a1 = Some s1 -> slots !! a2 = Some s2 ->
    slot_counter s1 = slot_counter s2 -> a1 = a2.

Lemma collected_live old h0 acc h a slot : slots_live old h0 -> collected old h0 acc h ->
  acc !! a = Some slot -> is_Some (ch_counters h !! slot_counter slot).
Proof.
  intros Hl Hc Ha. pose proof (co_slot _ _ _ _ Hc a slot Ha) as Hs.
  destruct (old !! a) as [o|] eqn:Eo; [|destruct Hs as [_ ->]; eauto].
  rewrite Hs. destruct (Hl _ _ Eo) as [c Hx]. exists c.
  eapply heap_extends_lookup; [by eapply co_ext|done].
Qed.

Lemma collected_insert old h0 acc h a limit r h' : slots_live old h0 -> slots_inj old ->
  collected old h0 acc h -> carry_counter (old !! a) h = (r, h') ->
  collected old h0 (<[a := mkSlot r limit]> acc) h'.
Proof.
  intros Hl Hi Hc Hcar. pose proof Hc as [Hw He Hs Hj].
  destruct (carry_counter_spec _ _ _ _ Hw Hcar) as (Hw' & He' & Hr).
  assert (Hsub : heap_extends h0 h') by (unfold heap_extends in *; by etrans).
  (* the new counter is shared with no other slot collected so far *)
  assert (Hnew : forall b sb, acc !! b = Some sb -> slot_counter sb = r -> b = a).
  { intros b sb Hb Heq. pose proof (Hs b sb Hb) as Hsb.
    destruct (old !! a) as [oa|] eqn:Ea.
    - destruct Hr as [-> ->]. destruct (old !! b) as [ob|] eqn:Eb.
      + apply (Hi b a ob oa Eb Ea). congruence.
      + destruct Hsb as [Hn _]. destruct (Hl _ _ Ea) as [c Hx]. congruence.
    - destruct Hr as [Hn _]. destruct (collected_live _ _ _ _ _ _ Hl Hc Hb) as [c Hx]. congruence. }
  split; [done|done| |].
  - intros b slot. rewrite lookup_insert_Some. intros [[<- <-]|[Hne Hb]]; cbn [slot_counter].
    + destruct (old !! a) as [oa|] eqn:Ea; [by destruct Hr|]. destruct Hr as [Hn Hnew']. split; [|done].
      destruct (ch_counters h0 !! r) eqn:E0; [|done].
      by rewrite (heap_extends_lookup _ _ _ _ He E0) in Hn.
    + specialize (Hs b slot Hb). destruct (old !! b); [done|]. destruct Hs as [? ?]. split; [done|].
      by apply (heap_extends_lookup h h').
  - intros a1 a2 s1 s2. rewrite !lookup_insert_Some.
    intros [[<- <-]|[Hn1 H1]] [[<- <-]|[Hn2 H2]]; cbn [slot_counter]; intros Heq; [done| | |by eapply Hj].
    + symmetry. by eapply Hnew.
    + by eapply Hnew.
Qed.

Lemma collect_assets_spec old barriers acc h h0 acc' h' :
  slots_live old h0 -> slots_inj old -> collected old h0 acc h ->
  collect_assets old barriers acc h = Ok (acc', h') ->
  collected old h0 acc' h' /\
  (forall a, slot_limit <$> acc' !! a =
     match last_limit barriers a with Some l => Some l | None => slot_limit <$> acc !! a end) /\
  Forall (fun b => validate_limit (ab_limit b) = Ok (ab_limit b)) barriers.
Proof.
  intros Hl Hi. revert acc h. induction barriers as [|b bs IH]; intros acc h Hc; cbn.
  { intros [= <- <-]. split_and!; [done|done|by apply Forall_nil]. }
  unfold validate_limit at 1. destruct (_ || _) eqn:Ev; cbn; [done|].
  destruct (carry_counter _ h) as [r h1] eqn:Hcar. intros Hrec.
  pose proof (collected_insert _ _ _ _ _ (ab_limit b) _ _ Hl Hi Hc Hcar) as Hc1.
  destruct (IH _ _ Hc1 Hrec) as (Hc' & Hlim & Hval). split_and!; [done| |].
  - intros a. rewrite Hlim. unfold last_limit. rewrite filter_cons.
    destruct (last (filter _ bs)) as [x|] eqn:El.
    + case_decide; [|by rewrite El]. rewrite last_cons, El. done.
    + apply last_None in El. rewrite El. case_decide as Hd.
      * subst a. by rewrite lookup_insert_eq.
      * by rewrite lookup_insert_ne.
  - apply Forall_cons. split; [|done]. unfold validate_limit. by rewrite Ev.
Qed.

Lemma collect_assets_err old barriers acc h e : collect_assets old barriers acc h = Err e ->
  exists b, b ∈ barriers /\ validate_limit (ab_limit b) = Err e.
Proof.
  revert acc h. induction barriers as [|b bs IH]; intros acc h; cbn; [done|].
  destruct (validate_limit (ab_limit b)) as [l|e'] eqn:Ev; cbn.
  - destruct (carry_counter _ h) as [r h1]. intros (b' & Hb & He)%IH. exists b'. split; [by right|done].
  - intros [= ->]. exists b. split; [by left|done].
Qed.

Lemma collected_start old h : heap_wf h -> collected old h ∅ h.
Proof.
  intros Hw. split; [done|unfold heap_extends; done| |].
  - intros a slot. by rewrite lookup_empty.
  - intros a1 a2 s1 s2. by rewrite lookup_empty.
Qed.

Lemma no_slots_live h : slots_live ∅ h.
Proof. intros a slot. by rewrite lookup_empty. Qed.
Lemma no_slots_inj : slots_inj ∅.
Proof. intros a1 a2 s1 s2. by rewrite lookup_empty. Qed.

Lemma settings_slots_live s h : settings_wf s h -> slots_live (asset_limits s) h.
Proof. intros Hw a slot. by apply sw_asset. Qed.
Lemma settings_slots_inj s h : settings_wf s h -> slots_inj (asset_limits s).
Proof. intros Hw a1 a2 s1 s2. by eapply sw_asset_inj. Qed.

(** Slots collected next to a broker whose counter they could not have taken. *)
Lemma collected_settings_wf old h0 acc h b accounts account_assets :
  slots_live old h0 -> collected old h0 acc h ->
  (forall slot, b = Some slot -> is_Some (ch_counters h0 !! slot_counter slot)) ->
  (forall a o slot, b = Some slot -> old !! a = Some o -> slot_counter slot <> slot_counter o) ->
  settings_wf (mkSettings acc accounts account_assets b) h.
Proof.
  intros Hl Hc Hb Hd. pose proof Hc as [Hw He Hs Hj]. split; cbn; [done| | |done|].
  - intros a slot. by eapply collected_live.
  - intros slot [c Hx]%Hb. exists c. by apply (heap_extends_lookup h0 h).
  - intros a sb sa Hsb Ha Heq. specialize (Hs a sa Ha).
    destruct (old !! a) as [o|] eqn:Eo; [by apply (Hd a o sb Hsb Eo); congruence|].
    destruct Hs as [Hn _]. destruct (Hb sb Hsb) as [c Hx]. congruence.
Qed.

Lemma rearm_assets_collected slots h : heap_wf h ->
  let '(m, h') := rearm_assets slots h in
  collected ∅ h m h' /\ forall a, slot_limit <$> m !! a = slot_limit <$> (list_to_map slots : gmap _ _) !! a.
Proof.
  intros Hw. induction slots as [|[a slot] slots IH].
  { cbn. split; [by apply collected_start|done]. }
  cbn. unfold rearm_assets in IH. destruct (foldr _ _ slots) as [m h1]. destruct IH as [Hc Hlim].
  unfold fresh_slot. destruct (heap_alloc h1 (counter_new 0)) as [r h2] eqn:Ea. split.
  - apply (collected_insert ∅ h m h1); [apply no_slots_live|apply no_slots_inj|done|].
    by rewrite lookup_empty.
  - intros b. destruct (decide (b = a)) as [->|Hne];
      [by rewrite !lookup_insert_eq|by rewrite !lookup_insert_ne].
Qed.

(** [rearm] detaches every counter from the settings it was given. *)
Lemma rearm_spec s h : heap_wf h ->
  let '(s', h') := rearm s h in
  settings_wf s' h' /\ heap_extends h h' /\
  account_limits s' = account_limits s /\ account_asset_limits s' = account_asset_limits s /\
  slot_limit <$> broker s' = slot_limit <$> broker s /\
  (forall a, slot_limit <$> asset_limits s' !! a = slot_limit <$> asset_limits s !! a) /\
  (forall slot, broker s' = Some slot \/ (exists a, asset_limits s' !! a = Some slot) ->
     ch_counters h !! slot_counter slot = None /\ ch_counters h' !! slot_counter slot = Some (counter_new 0)).
Proof.
  intros Hw. unfold rearm.
  set (bh := match broker s with Some slot => _ | None => _ end).
  assert (Hb : exists b h1, bh = (b, h1) /\ heap_wf h1 /\ heap_extends h h1 /\
    slot_limit <$> b = slot_limit <$> broker s /\
    forall slot, b = Some slot -> ch_counters h !! slot_counter slot = None /\
                                  ch_counters h1 !! slot_counter slot = Some (counter_new 0)).
  { unfold bh, fresh_slot. destruct (broker s) as [slot|].
    2: { exists None, h. by split_and!; [..|unfold heap_extends| |]. }
    destruct (heap_alloc h (counter_new 0)) as [r h1] eqn:Ea.
    destruct (heap_alloc_spec _ _ _ _ Hw Ea) as (? & ? & ? & ?).
    eexists _, h1. split_and!; [done..|]. by intros slot' [= <-]. }
  destruct Hb as (b & h1 & -> & Hw1 & He1 & Hbl & Hbf).
  pose proof (rearm_assets_collected (map_to_list (asset_limits s)) h1 Hw1) as Hr.
  destruct (rearm_assets _ h1) as [m h2]. destruct Hr as [Hc Hlim]. pose proof Hc as [Hw2 He2 Hs2 Hj2].
  cbn. split_and!; [|unfold heap_extends in *; by etrans|done|done|done| |].
  - apply (collected_settings_wf ∅ h1); [apply no_slots_live|done| |].
    + intros slot Hsl. destruct (Hbf slot Hsl) as [_ ->]. eauto.
    + intros a o slot _. by rewrite lookup_empty.
  - intros a. by rewrite Hlim, list_to_map_to_list.
  - intros slot [Hsl|[a Ha]].
    + destruct (Hbf slot Hsl) as [Hn Hx]. split; [done|]. by apply (heap_extends_lookup h1 h2).
    + specialize (Hs2 a slot Ha). rewrite lookup_empty in Hs2. destruct Hs2 as [Hn Hx]. split; [|done].
      destruct (ch_counters h !! slot_counter slot) eqn:E; [|done].
      by rewrite (heap_extends_lookup h h1 _ _ He1 E) in Hn.
Qed.

Lemma set_asset_barriers_spec s h bs : settings_wf s h ->
  match set_asset_barriers s bs h with
  | Ok (s', h') =>
      settings_wf s' h' /\ heap_extends h h' /\
      broker s' = broker s /\ account_limits s' = account_limits s /\
      account_asset_limits s' = account_asset_limits s /\
      (forall a, slot_limit <$> asset_limits s' !! a = last_limit bs a) /\
      (forall a slot, asset_limits s' !! a = Some slot ->
         match asset_limits s !! a with
         | Some old => slot_counter slot = slot_counter old
         | None => ch_counters h !! slot_counter slot = None /\
                   ch_counters h' !! slot_counter slot = Some (counter_new 0)
         end)
  | Err e => exists b, b ∈ bs /\ validate_limit (ab_limit b) = Err e
  end.
Proof.
  intros Hw. unfold set_asset_barriers.
  destruct (collect_assets (asset_limits s) bs ∅ h) as [[m h']|e] eqn:E; cbn;
    [|by eapply collect_assets_err].
  apply (collect_assets_spec _ _ _ _ h) in E as (Hc & Hlim & _);
    [|by apply settings_slots_live|by eapply settings_slots_inj|by apply collected_start, Hw].
  split_and!; try done.
  - apply (collected_settings_wf (asset_limits s) h); [by apply settings_slots_live|done| |].
    + apply (sw_broker s h Hw).
    + intros a o slot Hb Ha. by eapply sw_broker_asset.
  - by eapply co_ext.
  - intros a. rewrite Hlim, lookup_empty. by destruct (last_limit bs a).
  - intros a slot. by eapply co_slot.
Qed.

Lemma set_broker_spec s h b : settings_wf s h ->
  match set_broker s b h with
  | Ok (s', h') =>
      settings_wf s' h' /\ heap_extends h h' /\
      asset_limits s' = asset_limits s /\ account_limits s' = account_limits s /\
      account_asset_limits s' = account_asset_limits s /\
      slot_limit <$> broker s' = bb_limit <$> b /\
      (forall slot, broker s' = Some slot ->
         match broker s with
         | Some old => slot_counter slot = slot_counter old
         | None => ch_counters h !! slot_counter slot = None /\
                   ch_counters h' !! slot_counter slot = Some (counter_new 0)
         end)
  | Err e => exists limit, b = Some (mkBrokerBarrier limit) /\ validate_limit limit = Err e
  end.
Proof.
  intros Hw. unfold set_broker. destruct b as [[limit]|]; cbn.
  2: { split_and!; [|unfold heap_extends; done|done..]. destruct Hw. by split. }
  unfold validate_limit at 1. destruct (_ || _) eqn:Ev; cbn.
  { eexists. split; [done|]. unfold validate_limit. by rewrite Ev. }
  destruct (carry_counter (broker s) h) as [r h'] eqn:Ec. cbn.
  destruct (carry_counter_spec _ _ _ _ (sw_heap _ _ Hw) Ec) as (Hw' & He & Hr).
  split_and!; try done; [|intros slot [= <-]; cbn; by destruct (broker s); [destruct Hr|]].
  pose proof Hw as [H1 H2 H3 H4 H5]. split; cbn; [done| | |done|].
  - intros a slot Ha. destruct (H2 a slot Ha) as [c Hx]. exists c. by apply (heap_extends_lookup h h').
  - intros slot [= <-]. cbn. destruct (broker s) as [old|] eqn:Eb.
    + destruct Hr as [-> ->]. by apply H3.
    + destruct Hr as [_ ->]. eauto.
  - intros a sb sa [= <-] Ha Heq. cbn in Heq. destruct (broker s) as [old|] eqn:Eb.
    + destruct Hr as [-> ->]. by apply (H5 a old sa).
    + destruct Hr as [Hn _]. destruct (H2 a sa Ha) as [c Hx]. congruence.
Qed.

(** ** The start-stage check *)

Definition state_wf (s : RateLimitState) : Prop := settings_wf (rls_settings s) (rls_heap s).

Section Check.
Context {D : DecimalOps}.
Implicit Types (rs : RateLimitState).

Definition counter_at rs (r : CounterRef) : WindowCounter :=
  default (counter_new 0) (ch_counters (rls_heap rs) !! r).

(** The counts the four axes of an order would reach, [None] where no barrier
    applies. *)
Definition slot_count rs (slot : option RateLimitSlot) (now_nanos : Z) : option (Z * RateLimit) :=
  slot ← slot;
  Some ((counter_push (counter_at rs (slot_counter slot)) now_nanos (window_nanos (slot_limit slot))).1,
        slot_limit slot).

Definition log_count `{Countable K} (logs : gmap K (list Z)) (limits : gmap K RateLimit) (key : option K)
    (now : Z) : option (Z * RateLimit) :=
  key ← key; limit ← limits !! key;
  Some (window_count (default [] (logs !! key)) now (rl_window limit), limit).

Definition asset_slot rs (settlement : option Asset) : option RateLimitSlot :=
  settlement ≫= fun a => asset_limits (rls_settings rs) !! a.

Definition pair_key (account : option AccountId) (settlement : option Asset) : option (AccountId * Asset) :=
  account_id ← account; a ← settlement; Some (account_id, a).

(** The counts of all axes, in the order a breach is reported. *)
Definition axis_counts rs (account : option AccountId) (settlement : option Asset) (now_nanos now : Z) :
    list (string * option (Z * RateLimit)) :=
  [("broker barrier", slot_count rs (broker (rls_settings rs)) now_nanos);
   ("asset barrier", slot_count rs (asset_slot rs settlement) now_nanos);
   ("account barrier", log_count (rls_per_account_timestamps rs) (account_limits (rls_settings rs)) account now);
   ("account+asset barrier", log_count (rls_per_account_asset_timestamps rs)
      (account_asset_limits (rls_settings rs)) (pair_key account settlement) now)].

(** The reject of the first breached axis. *)
Fixpoint first_breach (counts : list (string * option (Z * RateLimit))) : option (Rejects PolicyPreTradeResult) :=
  match counts with
  | [] => None
  | (barrier, Some (count, limit)) :: counts => or_else (over_limit count limit barrier) (first_breach counts)
  | (_, None) :: counts => first_breach counts
  end.

(** Both paths of [sliding_window_count] count by one rule. *)
Lemma sliding_count_same `{Countable K} (logs : gmap K (list Z)) key now window record :
  (sliding_window_count logs key now window record).1 = window_count (default [] (logs !! key)) now window.
Proof.
  unfold sliding_window_count, storage_with, with_mut, with_mut_phased, with_mut_fast, with_mut_slow.
  destruct record; cbn; destruct (logs !! key) as [log|] eqn:E; cbn; try done; by rewrite ?E.
Qed.

Lemma fixed_count_same slot now_nanos record h :
  (fixed_window_count slot now_nanos record h).1 =
  (counter_push (default (counter_new 0) (ch_counters h !! slot_counter slot)) now_nanos
     (window_nanos (slot_limit slot))).1.
Proof.
  unfold fixed_window_count, counter_push, counter_peek. destruct record; cbn.
  - by destruct (rolled_over _ _ _).
  - by destruct (rolled_over _ _ _).
Qed.

Lemma fixed_count_other slot now_nanos record h r : r <> slot_counter slot ->
  ch_counters (fixed_window_count slot now_nanos record h).2 !! r = ch_counters h !! r.
Proof.
  intros Hr. unfold fixed_window_count. destruct record; [|done].
  destruct (counter_push _ _ _) as [count c]. cbn. by apply lookup_insert_ne.
Qed.

Definition verdict (breach : option (Rejects PolicyPreTradeResult)) :
    result (Rejects PolicyPreTradeResult) unit :=
  match breach with Some reject => Err reject | None => Ok tt end.

Definition axis_verdict (barrier : string) (c : option (Z * RateLimit)) :
    option (Rejects PolicyPreTradeResult) :=
  c ← c; over_limit c.1 c.2 barrier.

Lemma broker_axis_spec rs now_nanos record :
  let '(v, rs') := broker_axis rs now_nanos record in
  v = axis_verdict "broker barrier" (slot_count rs (broker (rls_settings rs)) now_nanos) /\
  rls_settings rs' = rls_settings rs /\
  rls_per_account_timestamps rs' = rls_per_account_timestamps rs /\
  rls_per_account_asset_timestamps rs' = rls_per_account_asset_timestamps rs /\
  (record = false -> rs' = rs) /\
  (forall r, (forall slot, broker (rls_settings rs) = Some slot -> r <> slot_counter slot) ->
     ch_counters (rls_heap rs') !! r = ch_counters (rls_heap rs) !! r).
Proof.
  unfold broker_axis. destruct (broker (rls_settings rs)) as [slot|]; [|done].
  pose proof (fixed_count_same slot now_nanos record (rls_heap rs)) as Hc.
  pose proof (fixed_count_other slot now_nanos record (rls_heap rs)) as Ho.
  assert (Hf : record = false -> (fixed_window_count slot now_nanos record (rls_heap rs)).2 = rls_heap rs)
    by by intros ->.
  destruct (fixed_window_count _ _ _ _) as [count h]. cbn in *. subst count. split_and!; try done.
  - intros ->. rewrite Hf by done. by destruct rs.
  - intros r Hr. apply Ho. by apply Hr.
Qed.

Lemma asset_axis_spec settlement rs now_nanos record :
  let '(v, rs') := asset_axis settlement rs now_nanos record in
  v = axis_verdict "asset barrier" (slot_count rs (asset_slot rs settlement) now_nanos) /\
  rls_settings rs' = rls_settings rs /\
  rls_per_account_timestamps rs' = rls_per_account_timestamps rs /\
  rls_per_account_asset_timestamps rs' = rls_per_account_asset_timestamps rs /\
  (record = false -> rs' = rs) /\
  (forall r, (forall slot, asset_slot rs settlement = Some slot -> r <> slot_counter slot) ->
     ch_counters (rls_heap rs') !! r = ch_counters (rls_heap rs) !! r).
Proof.
  unfold asset_axis. fold (asset_slot rs settlement).
  destruct (asset_slot rs settlement) as [slot|]; [|done].
  pose proof (fixed_count_same slot now_nanos record (rls_heap rs)) as Hc.
  pose proof (fixed_count_other slot now_nanos record (rls_heap rs)) as Ho.
  assert (Hf : record = false -> (fixed_window_count slot now_nanos record (rls_heap rs)).2 = rls_heap rs)
    by by intros ->.
  destruct (fixed_window_count _ _ _ _) as [count h]. cbn in *. subst count. split_and!; try done.
  - intros ->. rewrite Hf by done. by destruct rs.
  - intros r Hr. apply Ho. by apply Hr.
Qed.

Lemma account_axis_spec account rs now record :
  let '(v, rs') := account_axis account rs now record in
  v = axis_verdict "account barrier"
        (log_count (rls_per_account_timestamps rs) (account_limits (rls_settings rs)) account now) /\
  rls_settings rs' = rls_settings rs /\ rls_heap rs' = rls_heap rs /\
  rls_per_account_asset_timestamps rs' = rls_per_account_asset_timestamps rs /\
  (record = false -> rs' = rs).
Proof.
  unfold account_axis, log_count. destruct account as [a|]; cbn; [|done].
  destruct (account_limits (rls_settings rs) !! a) as [limit|]; cbn; [|done].
  pose proof (sliding_count_same (rls_per_account_timestamps rs) a now (rl_window limit) record) as Hc.
  assert (Hf : record = false ->
    (sliding_window_count (rls_per_account_timestamps rs) a now (rl_window limit) record).2 =
    rls_per_account_timestamps rs) by by intros ->.
  destruct (sliding_window_count _ _ _ _ _) as [count logs]. cbn in *. subst count. split_and!; try done.
  intros ->. rewrite Hf by done. by destruct rs.
Qed.

Lemma account_asset_axis_spec account settlement rs now record :
  let '(v, rs') := account_asset_axis account settlement rs now record in
  v = axis_verdict "account+asset barrier"
        (log_count (rls_per_account_asset_timestamps rs) (account_asset_limits (rls_settings rs))
           (pair_key account settlement) now) /\
  rls_settings rs' = rls_settings rs /\ rls_heap rs' = rls_heap rs /\
  rls_per_account_timestamps rs' = rls_per_account_timestamps rs /\
  (record = false -> rs' = rs).
Proof.
  unfold account_asset_axis, log_count, pair_key.
  destruct account as [a|]; cbn; [|done]. destruct settlement as [x|]; cbn; [|done].
  destruct (account_asset_limits (rls_settings rs) !! (a, x)) as [limit|]; cbn; [|done].
  pose proof (sliding_count_same (rls_per_account_asset_timestamps rs) (a, x) now (rl_window limit) record) as Hc.
  assert (Hf : record = false ->
    (sliding_window_count (rls_per_account_asset_timestamps rs) (a, x) now (rl_window limit) record).2 =
    rls_per_account_asset_timestamps rs) by by intros ->.
  destruct (sliding_window_count _ _ _ _ _) as [count logs]. cbn in *. subst count. split_and!; try done.
  intros ->. rewrite Hf by done. by destruct rs.
Qed.

Lemma first_breach_or_else rs account settlement now_nanos now :
  first_breach (axis_counts rs account settlement now_nanos now) =
  or_else (axis_verdict "broker barrier" (slot_count rs (broker (rls_settings rs)) now_nanos))
   (or_else (axis_verdict "asset barrier" (slot_count rs (asset_slot rs settlement) now_nanos))
    (or_else (axis_verdict "account barrier"
       (log_count (rls_per_account_timestamps rs) (account_limits (rls_settings rs)) account now))
     (axis_verdict "account+asset barrier"
       (log_count (rls_per_account_asset_timestamps rs) (account_asset_limits (rls_settings rs))
          (pair_key account settlement) now)))).
Proof.
  unfold axis_counts, axis_verdict. cbn [first_breach].
  repeat match goal with |- context [match ?c with Some _ => _ | None => _ end] =>
    match type of c with option (Z * RateLimit) => destruct c as [[]|]; cbn end end;
  unfold or_else; repeat case_match; congruence.
Qed.

Lemma asset_slot_cong rs rs' settlement : rls_settings rs' = rls_settings rs ->
  asset_slot rs' settlement = asset_slot rs settlement.
Proof. unfold asset_slot. by intros ->. Qed.

(** The broker's push is invisible to the asset axis. *)
Lemma asset_count_after_broker rs rs' settlement now_nanos : state_wf rs ->
  rls_settings rs' = rls_settings rs ->
  (forall r, (forall slot, broker (rls_settings rs) = Some slot -> r <> slot_counter slot) ->
     ch_counters (rls_heap rs') !! r = ch_counters (rls_heap rs) !! r) ->
  slot_count rs' (asset_slot rs' settlement) now_nanos = slot_count rs (asset_slot rs settlement) now_nanos.
Proof.
  intros Hw Hs Hr. rewrite (asset_slot_cong rs rs' settlement Hs). unfold slot_count, asset_slot.
  destruct settlement as [a|]; cbn; [|done].
  destruct (asset_limits (rls_settings rs) !! a) as [slot|] eqn:Ea; cbn; [|done].
  unfold counter_at. rewrite Hr; [done|]. intros sb Hsb Heq.
  by apply (sw_broker_asset _ _ Hw a sb slot).
Qed.

(** The verdict does not depend on whether the order is recorded. *)
Lemma check_start_verdict epoch instr account now record rs : state_wf rs ->
  (check_start_state epoch instr account now record rs).1 =
  match settlement_opt (rls_settings rs) instr with
  | Err rejects => Err rejects
  | Ok settlement =>
      match account_id_opt (rls_settings rs) account with
      | Err rejects => Err rejects
      | Ok account =>
          verdict (first_breach (axis_counts rs account settlement (nanos_since epoch now) now))
      end
  end.
Proof.
  intros Hw. unfold check_start_state.
  destruct (settlement_opt _ instr) as [settlement|]; [|done].
  destruct (account_id_opt _ account) as [acc|]; [|done].
  rewrite first_breach_or_else.
  pose proof (broker_axis_spec rs (nanos_since epoch now) record) as Hb.
  destruct (broker_axis _ _ _) as [v1 rs1]. destruct Hb as (-> & Hs1 & Ht1 & Hu1 & _ & Ho1).
  pose proof (asset_axis_spec settlement rs1 (nanos_since epoch now) record) as Ha.
  destruct (asset_axis _ _ _ _) as [v2 rs2]. destruct Ha as (-> & Hs2 & Ht2 & Hu2 & _ & _).
  pose proof (account_axis_spec acc rs2 now record) as Hc.
  destruct (account_axis _ _ _ _) as [v3 rs3]. destruct Hc as (-> & Hs3 & _ & Hu3 & _).
  pose proof (account_asset_axis_spec acc settlement rs3 now record) as Hd.
  destruct (account_asset_axis _ _ _ _ _) as [v4 rs4]. destruct Hd as (-> & _).
  cbn. by rewrite (asset_count_after_broker rs rs1), Ht2, Ht1, Hs3, Hs2, Hs1, Hu3, Hu2, Hu1.
Qed.

Lemma check_start_dry epoch instr account now rs :
  (check_start_state epoch instr account now false rs).2 = rs.
Proof.
  unfold check_start_state.
  destruct (settlement_opt _ instr) as [settlement|]; [|done].
  destruct (account_id_opt _ account) as [acc|]; [|done].
  pose proof (broker_axis_spec rs (nanos_since epoch now) false) as Hb.
  destruct (broker_axis _ _ _) as [v1 rs1]. destruct Hb as (_ & _ & _ & _ & Hb & _).
  pose proof (asset_axis_spec settlement rs1 (nanos_since epoch now) false) as Ha.
  destruct (asset_axis _ _ _ _) as [v2 rs2]. destruct Ha as (_ & _ & _ & _ & Ha & _).
  pose proof (account_axis_spec acc rs2 now false) as Hc.
  destruct (account_axis _ _ _ _) as [v3 rs3]. destruct Hc as (_ & _ & _ & _ & Hc).
  pose proof (account_asset_axis_spec acc settlement rs3 now false) as Hd.
  destruct (account_asset_axis _ _ _ _ _) as [v4 rs4]. destruct Hd as (_ & _ & _ & _ & Hd).
  cbn. by rewrite Hd, Hc, Ha, Hb by done.
Qed.

(** *** What a recording call writes *)

Definition counter_pushed rs rs' (slot : option RateLimitSlot) (now_nanos : Z) : Prop :=
  forall s, slot = Some s ->
    ch_counters (rls_heap rs') !! slot_counter s =
    Some (counter_push (counter_at rs (slot_counter s)) now_nanos (window_nanos (slot_limit s))).2.

Definition log_recorded `{Countable K} (logs : gmap K (list Z)) (limits : gmap K RateLimit)
    (key : option K) (now : Z) : gmap K (list Z) :=
  match (key ← key; limit ← limits !! key; Some (key, limit)) with
  | Some (key, limit) => <[key := log_record (rl_window limit) (default [] (logs !! key)) now]> logs
  | None => logs
  end.

Lemma sliding_count_record `{Countable K} (logs : gmap K (list Z)) key now window :
  (sliding_window_count logs key now window true).2 =
  <[key := log_record window (default [] (logs !! key)) now]> logs.
Proof.
  unfold sliding_window_count, with_mut, with_mut_phased, with_mut_fast, with_mut_slow. cbn.
  destruct (logs !! key) as [log|] eqn:E; cbn; [done|]. done.
Qed.

Lemma fixed_count_record slot now_nanos h :
  ch_counters (fixed_window_count slot now_nanos true h).2 !! slot_counter slot =
  Some (counter_push (default (counter_new 0) (ch_counters h !! slot_counter slot)) now_nanos
     (window_nanos (slot_limit slot))).2.
Proof.
  unfold fixed_window_count. destruct (counter_push _ _ _) as [count c]. cbn. apply lookup_insert_eq.
Qed.

Lemma broker_axis_records rs now_nanos :
  counter_pushed rs (broker_axis rs now_nanos true).2 (broker (rls_settings rs)) now_nanos.
Proof.
  unfold counter_pushed, counter_at, broker_axis. destruct (broker (rls_settings rs)) as [slot|]; [|done].
  intros s [= <-]. rewrite <- fixed_count_record.
  by destruct (fixed_window_count slot now_nanos true (rls_heap rs)).
Qed.

Lemma asset_axis_records settlement rs now_nanos :
  counter_pushed rs (asset_axis settlement rs now_nanos true).2 (asset_slot rs settlement) now_nanos.
Proof.
  unfold counter_pushed, counter_at, asset_axis. fold (asset_slot rs settlement).
  destruct (asset_slot rs settlement) as [slot|]; [|done].
  intros s [= <-]. rewrite <- fixed_count_record.
  by destruct (fixed_window_count slot now_nanos true (rls_heap rs)).
Qed.

Lemma account_axis_records account rs now :
  rls_per_account_timestamps (account_axis account rs now true).2 =
  log_recorded (rls_per_account_timestamps rs) (account_limits (rls_settings rs)) account now.
Proof.
  unfold account_axis, log_recorded.
  destruct account as [a|]; cbn -[sliding_window_count]; [|done].
  destruct (account_limits (rls_settings rs) !! a) as [limit|]; cbn -[sliding_window_count]; [|done].
  pose proof (sliding_count_record (rls_per_account_timestamps rs) a now (rl_window limit)) as Hr.
  by destruct (sliding_window_count _ _ _ _ _).
Qed.

Lemma account_asset_axis_records account settlement rs now :
  rls_per_account_asset_timestamps (account_asset_axis account settlement rs now true).2 =
  log_recorded (rls_per_account_asset_timestamps rs) (account_asset_limits (rls_settings rs))
    (pair_key account settlement) now.
Proof.
  unfold account_asset_axis, log_recorded, pair_key.
  destruct account as [a|]; cbn -[sliding_window_count]; [|done]. destruct settlement as [x|]; cbn -[sliding_window_count]; [|done].
  destruct (account_asset_limits (rls_settings rs) !! (a, x)) as [limit|]; cbn -[sliding_window_count]; [|done].
  pose proof (sliding_count_record (rls_per_account_asset_timestamps rs) (a, x) now (rl_window limit)) as Hr.
  by destruct (sliding_window_count _ _ _ _ _).
Qed.

End Check.

(** ** Properties of the settings and of the check *)

(** Replacing barriers never resets a live window: the counter of a surviving
    broker or asset keeps its identity and its value, a new key gets a counter of
    its own that starts at zero, the other axes are untouched, the last barrier
    listed for an asset wins, and no two slots ever share a counter; a setter
    fails exactly on an invalid window and then publishes nothing. *)
Theorem rate_limit_setters_keep_counters s h b bs :
  settings_wf s h ->
  match set_asset_barriers s bs h with
  | Ok (s', h') =>
      settings_wf s' h' /\ heap_extends h h' /\
      broker s' = broker s /\ account_limits s' = account_limits s /\
      account_asset_limits s' = account_asset_limits s /\
      (forall a, slot_limit <$> asset_limits s' !! a = last_limit bs a) /\
      (forall a slot, asset_limits s' !! a = Some slot ->
         match asset_limits s !! a with
         | Some old => slot_counter slot = slot_counter old
         | None => ch_counters h !! slot_counter slot = None /\
                   ch_counters h' !! slot_counter slot = Some (counter_new 0)
         end)
  | Err e => exists b, b ∈ bs /\ validate_limit (ab_limit b) = Err e
  end /\
  match set_broker s b h with
  | Ok (s', h') =>
      settings_wf s' h' /\ heap_extends h h' /\
      asset_limits s' = asset_limits s /\ account_limits s' = account_limits s /\
      account_asset_limits s' = account_asset_limits s /\
      slot_limit <$> broker s' = bb_limit <$> b /\
      (forall slot, broker s' = Some slot ->
         match broker s with
         | Some old => slot_counter slot = slot_counter old
         | None => ch_counters h !! slot_counter slot = None /\
                   ch_counters h' !! slot_counter slot = Some (counter_new 0)
         end)
  | Err e => exists limit, b = Some (mkBrokerBarrier limit) /\ validate_limit limit = Err e
  end.
Proof. intros Hw. split; [by apply set_asset_barriers_spec|by apply set_broker_spec]. Qed.

(** A dry run gives the verdict of the real check on the same state and clock
    reading, rejects and texts included, and consumes nothing. *)
Theorem rate_limit_dry_run_agrees {D : DecimalOps} epoch instr account now (rs : RateLimitState) :
  state_wf rs ->
  (check_start_state epoch instr account now false rs).1 =
  (check_start_state epoch instr account now true rs).1 /\
  (check_start_state epoch instr account now false rs).2 = rs.
Proof. intros Hw. rewrite !check_start_verdict by done. split; [done|apply check_start_dry]. Qed.

(** Flood protection: once the order's fields are read, the check counts the
    order on every applicable axis - broker, settlement asset, account, account
    and asset - whichever of them is breached, changes no other counter, log or
    setting, and reports the first breached axis in that order. *)
Theorem rate_limit_flood_protection {D : DecimalOps} epoch instr account now (rs : RateLimitState) settlement acc :
  state_wf rs ->
  settlement_opt (rls_settings rs) instr = Ok settlement ->
  account_id_opt (rls_settings rs) account = Ok acc ->
  let now_nanos := nanos_since epoch now in
  let '(r, rs') := check_start_state epoch instr account now true rs in
  r = match first_breach (axis_counts rs acc settlement now_nanos now) with
      | Some reject => Err reject
      | None => Ok tt
      end /\
  rls_settings rs' = rls_settings rs /\
  counter_pushed rs rs' (broker (rls_settings rs)) now_nanos /\
  counter_pushed rs rs' (asset_slot rs settlement) now_nanos /\
  (forall c, (forall slot, broker (rls_settings rs) = Some slot \/ asset_slot rs settlement = Some slot ->
                c <> slot_counter slot) ->
     ch_counters (rls_heap rs') !! c = ch_counters (rls_heap rs) !! c) /\
  rls_per_account_timestamps rs' =
    log_recorded (rls_per_account_timestamps rs) (account_limits (rls_settings rs)) acc now /\
  rls_per_account_asset_timestamps rs' =
    log_recorded (rls_per_account_asset_timestamps rs) (account_asset_limits (rls_settings rs))
      (pair_key acc settlement) now.
Proof.
  intros Hw Hset Hacc. pose proof (check_start_verdict epoch instr account now true rs Hw) as Hv.
  unfold check_start_state in *. rewrite Hset, Hacc in *. set (nn := nanos_since epoch now) in *. cbv zeta.
  pose proof (broker_axis_spec rs nn true) as Hb. pose proof (broker_axis_records rs nn) as Rb.
  destruct (broker_axis _ _ _) as [v1 rs1]. destruct Hb as (_ & Hs1 & Ht1 & Hu1 & _ & Ho1).
  pose proof (asset_axis_spec settlement rs1 nn true) as Ha.
  pose proof (asset_axis_records settlement rs1 nn) as Ra.
  destruct (asset_axis _ _ _ _) as [v2 rs2]. destruct Ha as (_ & Hs2 & Ht2 & Hu2 & _ & Ho2).
  pose proof (account_axis_spec acc rs2 now true) as Hc. pose proof (account_axis_records acc rs2 now) as Rc.
  destruct (account_axis _ _ _ _) as [v3 rs3]. destruct Hc as (_ & Hs3 & Hh3 & Hu3 & _).
  pose proof (account_asset_axis_spec acc settlement rs3 now true) as Hd.
  pose proof (account_asset_axis_records acc settlement rs3 now) as Rd.
  destruct (account_asset_axis _ _ _ _ _) as [v4 rs4]. destruct Hd as (_ & Hs4 & Hh4 & Ht4 & _).
  cbn in Hv, Rb, Ra, Rc, Rd.
  rewrite (asset_slot_cong rs rs1 settlement Hs1) in Ra, Ho2.
  assert (Hdisj : forall sb sa, broker (rls_settings rs) = Some sb -> asset_slot rs settlement = Some sa ->
            slot_counter sb <> slot_counter sa).
  { intros sb sa Hsb. unfold asset_slot. destruct settlement as [a|]; cbn; [|done].
    intros Hsa. by apply (sw_broker_asset _ _ Hw a). }
  split_and!; [done|congruence| | | | |].
  - intros s Hs. rewrite Hh4, Hh3, Ho2; [by apply Rb|]. intros sa Hsa. by apply Hdisj.
  - intros s Hs. rewrite Hh4, Hh3, (Ra s Hs). unfold counter_at. rewrite Ho1; [done|].
    intros sb Hsb Heq. by apply (Hdisj sb s).
  - intros c Hx. rewrite Hh4, Hh3, Ho2, Ho1; [done| |]; eauto.
  - rewrite Ht4, Rc, Ht2, Ht1. by rewrite Hs2, Hs1.
  - rewrite Rd, Hu3, Hu2, Hu1. by rewrite Hs3, Hs2, Hs1.
Qed.

(** ** What the policy gives the engine *)

Section AsPolicy.
Context {D : DecimalOps} {W Order ExecutionReport AccountAdjustment : Type}.
Context `{!Owns W RateLimitState} {HI : HasInstrument Order} (clock : Z).

Abbreviation St := (EngineState W).
Abbreviation policy self :=
  (rate_limit_policy (ExecutionReport:=ExecutionReport) (AccountAdjustment:=AccountAdjustment)
     (Order:=Order) clock self).
Implicit Types (self : RateLimitPolicy).

Lemma with_world_id (st : St) : with_world st (es_world st) = st.
Proof. by destruct st. Qed.

(** Consumed budget is never given back: only the collectors of the other hooks
    are undone, and the policy registers nothing there but retirement. *)
#[export] Instance rate_limit_transactional self : Transactional (policy self).
Proof.
  split; cbn.
  - intros ctx order s r s' E _. unfold check_start in E.
    destruct (check_start_state _ _ _ _ _ _) as [v w]. by injection E as <- <-.
  - intros ctx order ms s r ms' s' [= <- <- <-] Hd. split_and!; [done..|].
    exists []. rewrite app_nil_r. split; [done|]. apply undoes_nil.
  - intros actx account adj ms s s' r ms' [= <- <- <-]. split; [done|].
    exists []. rewrite app_nil_r. split; [done|]. apply undoes_nil.
  - intros account ms st r ms' st'. unfold rate_limit_retire_account.
    destruct (settings_reference _ _); intros [= <- <- <-]; (split; [done|]).
    + exists []. rewrite app_nil_r. split; [done|]. apply undoes_nil.
    + eexists. split; [done|]. intros o st1 Hw. cbn. by split_and!.
Qed.

#[export] Instance rate_limit_quiet self : DryRunQuiet (policy self).
Proof.
  split; cbn.
  - intros ctx order s r s' E _. unfold check_start in E.
    pose proof (check_start_dry (rlp_epoch self) (instrument order) (ptc_account ctx)
      (start_pre_trade_now s.2 clock) (own_get (es_world s.2))) as Hd.
    destruct (check_start_state _ _ _ _ _ _) as [v w]. cbn in Hd. subst w.
    injection E as <- <-. cbn. by rewrite own_set_get.
  - by intros ctx order ms s r ms' s' [= <- <- <-] Hd.
Qed.

Lemma settings_reference_spec settings account :
  settings_reference settings account = true <->
  is_Some (account_limits settings !! account) \/
  exists a, is_Some (account_asset_limits settings !! (account, a)).
Proof.
  unfold settings_reference. rewrite orb_true_iff, existsb_exists. split.
  - intros [Ha|(key & Hin & Heq%bool_decide_eq_true)].
    + left. by destruct (account_limits settings !! account).
    + right. destruct key as [b a]. cbn in Heq. subst b. exists a.
      apply list_elem_of_In, list_elem_of_fmap in Hin as ([k v] & Hk & Hin). cbn in Hk. subst k.
      apply elem_of_map_to_list in Hin. eauto.
  - intros [[l Hl]|(a & l & Hl)]; [left; by rewrite Hl|right].
    exists (account, a). split; [|by rewrite bool_decide_true].
    apply list_elem_of_In, list_elem_of_fmap. exists ((account, a), l). split; [done|].
    by apply elem_of_map_to_list.
Qed.

Lemma remove_keys_lookup (keys : list (AccountId * Asset)) (m : gmap (AccountId * Asset) (list Z)) key :
  foldl (fun m key => (storage_remove m key).2) m keys !! key =
  if decide (key ∈ keys) then None else m !! key.
Proof.
  revert m. induction keys as [|k keys IH]; intros m; cbn [foldl].
  { by rewrite decide_False by by apply not_elem_of_nil. }
  rewrite IH. unfold storage_remove.
  assert (Hrm : (match m !! k with Some _ => (true, delete k m) | None => (false, m) end).2 !! key =
                if decide (key = k) then None else m !! key).
  { destruct (m !! k) eqn:E; cbn [snd]; destruct (decide (key = k)) as [Hd|Hd].
    - subst. apply lookup_delete_eq.
    - by rewrite lookup_delete_ne by congruence.
    - by subst.
    - done. }
  rewrite Hrm. clear. repeat case_decide; set_solver.
Qed.

(** Retiring an account is refused exactly when a barrier names it; otherwise
    the hook changes nothing yet and registers one mutation: committing it
    forgets the account's log and its logs per asset, and touches no other
    account's log, no counter and no setting; rolling it back does nothing. *)
Theorem rate_limit_retirement self account (ms : Mutations St) (st : St) :
  let rs := own_get (es_world st) in
  let '(r, ms', st') := pol_retire_account (policy self) account ms st in
  st' = st /\
  (r = Err ConfigurationReferencesAccount <->
     is_Some (account_limits (rls_settings rs) !! account) \/
     exists a, is_Some (account_asset_limits (rls_settings rs) !! (account, a))) /\
  (r <> Ok tt -> ms' = ms) /\
  (r = Ok tt -> exists m, ms' = mutations_push ms m /\
     forall st1, (mutation_rollback m st1).2 = st1 /\
       let rs1 := own_get (es_world st1) in
       let rs2 := own_get (es_world (mutation_commit m st1).2) in
       rls_settings rs2 = rls_settings rs1 /\ rls_heap rs2 = rls_heap rs1 /\
       (forall b, rls_per_account_timestamps rs2 !! b =
          if decide (b = account) then None else rls_per_account_timestamps rs1 !! b) /\
       (forall b a, b <> account -> rls_per_account_asset_timestamps rs2 !! (b, a) =
                                    rls_per_account_asset_timestamps rs1 !! (b, a)) /\
       (forall a, is_Some (rls_per_account_asset_timestamps rs !! (account, a)) ->
          rls_per_account_asset_timestamps rs2 !! (account, a) = None)).
Proof.
  cbv zeta. cbn. unfold rate_limit_retire_account.
  pose proof (settings_reference_spec (rls_settings (own_get (es_world st))) account) as Hr.
  destruct (settings_reference _ account); split_and!; try done.
  - split; [|done]. intros _. by apply Hr.
  - split; [done|]. intros H. by apply Hr in H.
  - intros _. eexists. split; [done|]. intros st1. split; [done|]. cbn -[storage_keys].
    unfold forget_logs. rewrite own_get_set. cbn -[storage_keys].
    split_and!; [done|done| | |].
    + intros b. unfold storage_remove. set (logs := rls_per_account_timestamps _).
      destruct (logs !! account) eqn:E; cbn [snd]; destruct (decide (b = account)) as [->|Hd]; try done.
      * apply lookup_delete_eq.
      * by rewrite lookup_delete_ne by congruence.
    + intros b a Hne. rewrite remove_keys_lookup, decide_False; [done|].
      intros [_ Hb%bool_decide_eq_true]%list_elem_of_In%filter_In. done.
    + intros a [log Hlog]. rewrite remove_keys_lookup, decide_True; [done|].
      apply list_elem_of_In, filter_In. split; [|by apply bool_decide_eq_true].
      unfold storage_keys. apply list_elem_of_In, list_elem_of_fmap. exists ((account, a), log).
      split; [done|]. by apply elem_of_map_to_list.
Qed.

End AsPolicy.
