(* ===== verification/SpotFundsSettings.v ===== *)
(** * SpotFundsSettings: the configuration of the spot funds policy

    src/crates/openpit/src/pretrade/policies/spot_funds/market_data.rs,
    market_order_pricer.rs, limit_mode.rs and pnl.rs: slippage and pricing, limit
    modes, position limits, and the P&L barriers on the realized ledger and on the
    four evaluated axes. *)
From S2P Require Import Prelude.
From S2P Require Import Decimal.
From S2P Require Import Param.
From S2P Require Import ParamTypes.
From S2P Require Import Identifiers.
From S2P Require Import Mutation.
From S2P Require Import Reject.
From S2P Require Import AccountControl.
From S2P Require Import Accounts.
From S2P Require Import Lock.
From S2P Require Import Policy.
From S2P Require Import Instruments.
From S2P Require Import MarketData.
From S2P Require Import PnlBounds.
From stdpp Require Import pretty sorting.
Open Scope Z_scope.

Definition MAX_SLIPPAGE_BPS : Z := 10000.

Inductive SpotFundsLimitMode : Set := Enforce | TrackOnly.

Inductive SpotFundsPnlBoundsAxis : Set :=
| AccountUnrealized | AccountTotal | PositionUnrealized | PositionTotal.

#[export] Instance SpotFundsPnlBoundsAxis_eq_dec : EqDecision SpotFundsPnlBoundsAxis.
Proof. solve_decision. Defined.

Definition ALL_AXES : list SpotFundsPnlBoundsAxis :=
  [AccountUnrealized; AccountTotal; PositionUnrealized; PositionTotal].

Inductive SpotFundsConfigError : Set :=
| SlippageOutOfRange (bps : Z)
| NoPnlBoundsConfigured
| NoPnlBarriersConfigured.

Definition SpotFundsConfigError_fmt (self : SpotFundsConfigError) : string :=
  match self with
  | SlippageOutOfRange bps =>
      "slippage " +:+ pretty bps +:+ " bps is out of range (must be <= 10 000 bps)"
  | NoPnlBoundsConfigured => "spot-funds P&L bounds must configure at least one bound"
  | NoPnlBarriersConfigured => "spot funds P&L bounds require at least one barrier"
  end.

Definition check_slippage_bps (bps : Z) : result SpotFundsConfigError unit :=
  if MAX_SLIPPAGE_BPS <? bps then Err (SlippageOutOfRange bps) else Ok tt.

Inductive SpotFundsPriceError : Set := PE_QuoteUnavailable | PE_CalculationFailed.
Inductive MarketOrderPriceError : Set := PriceUncomputable.
Inductive SpotFundsPricingSource : Set := Mark | BookTop.

Record SpotFundsOverride : Set := mkOverride { slippage_bps : option Z }.

Inductive SpotFundsOverrideTarget : Set :=
| TargetInstrument (instrument_id : InstrumentId)
| TargetInstrumentAccount (instrument_id : InstrumentId) (account_id : AccountId)
| TargetInstrumentAccountGroup (instrument_id : InstrumentId) (account_group_id : AccountGroupId).

(** [set_or_clear] of pnl_bounds.rs. *)
Definition set_or_clear {K V} `{Countable K} (map : gmap K V) (key : K) (value : option V) : gmap K V :=
  match value with Some value => <[key := value]> map | None => delete key map end.

(** The keys of a [BTreeSet] in their order. *)
Definition account_le (a b : AccountId) : Prop := account_as_u64 a <= account_as_u64 b.
#[export] Instance account_le_dec : RelDecision account_le := fun a b => Z_le_dec _ _.
Definition in_order (s : gset AccountId) : list AccountId := merge_sort account_le (elements s).

Section Settings.
Context {D : DecimalOps}.

(** ** The pricer *)

Record WithSlippage : Type := mkWithSlippage { factor : Dec }.

(** The [/] of [Decimal] panics where the checked division has no result;
    [with_slippage_factor] (SpotFundsSettingsFacts) shows that it has one here. *)
Definition with_slippage_new (bps : Z) : WithSlippage :=
  mkWithSlippage (default dec_zero (dec_div (dec_of_int bps) (dec_of_int 10000))).

Definition pricer_effective_buy_price (self : WithSlippage) (mark : Price) : result MarketOrderPriceError Price :=
  if dec_leb (sg_to_decimal mark) dec_zero then Err PriceUncomputable
  else
    factor ← ok_or (dec_add (dec_of_int 1) (factor self)) PriceUncomputable;
    price ← ok_or (dec_mul (sg_to_decimal mark) factor) PriceUncomputable;
    Ok (sg_new price).

Definition pricer_effective_sell_price (self : WithSlippage) (mark : Price) : result MarketOrderPriceError Price :=
  factor ← ok_or (dec_sub (dec_of_int 1) (factor self)) PriceUncomputable;
  price ← ok_or (dec_mul (sg_to_decimal mark) factor) PriceUncomputable;
  if dec_leb price dec_zero then Err PriceUncomputable else Ok (sg_new price).

(** ** P&L barriers *)

Record SpotFundsPnlBoundsBarrier : Type := mkBarrier {
  currency : Asset;
  lower_bound : option Pnl;
  upper_bound : option Pnl
}.

Record SpotFundsPnlBoundsAccountGroupBarrier : Type := mkGroupBarrier {
  gb_barrier : SpotFundsPnlBoundsBarrier;
  gb_account_group_id : AccountGroupId
}.

Record SpotFundsPnlBoundsAccountBarrier : Type := mkAccountBarrier {
  ab_barrier : SpotFundsPnlBoundsBarrier;
  ab_account_id : AccountId
}.

Record SpotFundsPnlBarrierSet : Type := mkBarrierSet {
  global_barrier : option SpotFundsPnlBoundsBarrier;
  account_group_barriers : gmap AccountGroupId SpotFundsPnlBoundsAccountGroupBarrier;
  account_barriers : gmap AccountId SpotFundsPnlBoundsAccountBarrier
}.

Definition barrier_set_default : SpotFundsPnlBarrierSet := mkBarrierSet None ∅ ∅.

(** The derived equality of barriers; amounts compare as numbers. *)
Definition opt_eqb {A} (f : A -> A -> bool) (x y : option A) : bool :=
  match x, y with Some x, Some y => f x y | None, None => true | _, _ => false end.
Definition barrier_eqb (x y : SpotFundsPnlBoundsBarrier) : bool :=
  bool_decide (currency x = currency y) && opt_eqb sg_eqb (lower_bound x) (lower_bound y) &&
  opt_eqb sg_eqb (upper_bound x) (upper_bound y).
Definition group_barrier_eqb (x y : SpotFundsPnlBoundsAccountGroupBarrier) : bool :=
  barrier_eqb (gb_barrier x) (gb_barrier y) && bool_decide (gb_account_group_id x = gb_account_group_id y).
Definition account_barrier_eqb (x y : SpotFundsPnlBoundsAccountBarrier) : bool :=
  barrier_eqb (ab_barrier x) (ab_barrier y) && bool_decide (ab_account_id x = ab_account_id y).

Definition validate_pnl_bounds (barrier : SpotFundsPnlBoundsBarrier) : result SpotFundsConfigError unit :=
  if negb (has_configured_bound (lower_bound barrier) (upper_bound barrier)) then Err NoPnlBoundsConfigured
  else Ok tt.

(** The loop of the two [collect_pnl_*] functions: a later entry for a key
    replaces an earlier one. *)
Fixpoint collect_barriers {K V} `{Countable K} (key : V -> K) (barrier : V -> SpotFundsPnlBoundsBarrier)
    (barriers : list V) (out : gmap K V) : result SpotFundsConfigError (gmap K V) :=
  match barriers with
  | [] => Ok out
  | b :: barriers =>
      _ ← validate_pnl_bounds (barrier b);
      collect_barriers key barrier barriers (<[key b := b]> out)
  end.

Definition collect_pnl_account_group_barriers (barriers : list SpotFundsPnlBoundsAccountGroupBarrier) :=
  collect_barriers gb_account_group_id gb_barrier barriers ∅.
Definition collect_pnl_account_barriers (barriers : list SpotFundsPnlBoundsAccountBarrier) :=
  collect_barriers ab_account_id ab_barrier barriers ∅.

Definition barrier_set_global (self : SpotFundsPnlBarrierSet) (barrier : option SpotFundsPnlBoundsBarrier) :
    result SpotFundsConfigError SpotFundsPnlBarrierSet :=
  _ ← match barrier with Some b => validate_pnl_bounds b | None => Ok tt end;
  Ok (mkBarrierSet barrier (account_group_barriers self) (account_barriers self)).

Definition barrier_set_groups (self : SpotFundsPnlBarrierSet) (barriers : list SpotFundsPnlBoundsAccountGroupBarrier) :
    result SpotFundsConfigError SpotFundsPnlBarrierSet :=
  barriers ← collect_pnl_account_group_barriers barriers;
  Ok (mkBarrierSet (global_barrier self) barriers (account_barriers self)).

Definition barrier_set_accounts (self : SpotFundsPnlBarrierSet) (barriers : list SpotFundsPnlBoundsAccountBarrier) :
    result SpotFundsConfigError SpotFundsPnlBarrierSet :=
  barriers ← collect_pnl_account_barriers barriers;
  Ok (mkBarrierSet (global_barrier self) (account_group_barriers self) barriers).

(** [matches_currency]: an account without a currency matches every barrier. *)
Definition matches_currency (account_currency : option Asset) (barrier : SpotFundsPnlBoundsBarrier) : bool :=
  match account_currency with None => true | Some c => bool_decide (currency barrier = c) end.

Definition opt_filter {A} (f : A -> bool) (o : option A) : option A :=
  x ← o; if f x : bool then Some x else None.

Definition barrier_for (self : SpotFundsPnlBarrierSet) (account_id : AccountId)
    (account_group_id : option AccountGroupId) (account_currency : option Asset) :
    option SpotFundsPnlBoundsBarrier :=
  match account_barriers self !! account_id with
  | Some b => Some (ab_barrier b)
  | None =>
      or_else
        (opt_filter (matches_currency account_currency)
           (gb_barrier <$> (account_group_id ≫= (fun group => account_group_barriers self !! group))))
        (opt_filter (matches_currency account_currency) (global_barrier self))
  end.

Definition set_references_account (self : SpotFundsPnlBarrierSet) (account_id : AccountId) : bool :=
  is_some (account_barriers self !! account_id).

Definition has_scope (self : SpotFundsPnlBarrierSet) (account_id : AccountId)
    (account_group_id : option AccountGroupId) : bool :=
  set_references_account self account_id ||
  is_some (account_group_id ≫= (fun group => account_group_barriers self !! group)) ||
  is_some (global_barrier self).

Definition barrier_set_is_empty (self : SpotFundsPnlBarrierSet) : bool :=
  negb (is_some (global_barrier self)) && bool_decide (account_group_barriers self = ∅) &&
  bool_decide (account_barriers self = ∅).

(** [changed_barriers]: the accounts whose effective barrier the new set changes
    to another one.  The P&L and holdings keys are the accounts of their storages. *)
Definition changed_keys {K V} `{Countable K} (eqb : V -> V -> bool) (previous current : gmap K V) : gset K :=
  filter (fun k => opt_eqb eqb (previous !! k) (current !! k) = false) (dom previous ∪ dom current).

Definition changed_barriers (self previous : SpotFundsPnlBarrierSet) (pnl_keys holdings_accounts : list AccountId)
    (memberships : list (AccountId * AccountGroupId)) (known_accounts : list AccountId)
    (resolve_account_currency : AccountId -> option AccountGroupId -> option Asset) :
    list (AccountId * option AccountGroupId * option Asset * SpotFundsPnlBoundsBarrier) :=
  let global_changed := negb (opt_eqb barrier_eqb (global_barrier previous) (global_barrier self)) in
  let changed_accounts := changed_keys account_barrier_eqb (account_barriers previous) (account_barriers self) in
  let changed_groups :=
    changed_keys group_barrier_eqb (account_group_barriers previous) (account_group_barriers self) in
  if negb global_changed && bool_decide (changed_accounts = ∅) && bool_decide (changed_groups = ∅) then []
  else
    let memberships : gmap AccountId AccountGroupId := list_to_map (reverse memberships) in
    let candidates : gset AccountId :=
      if global_changed then
        changed_accounts ∪ list_to_set pnl_keys ∪ list_to_set holdings_accounts ∪
        dom (account_barriers previous) ∪ dom (account_barriers self) ∪ dom memberships ∪
        list_to_set known_accounts
      else if bool_decide (changed_groups = ∅) then changed_accounts
      else changed_accounts ∪ dom (filter (fun '(_, group) => group ∈ changed_groups) memberships) in
    omap (fun account_id : AccountId =>
            let group := memberships !! account_id in
            let currency := resolve_account_currency account_id group in
            barrier ← barrier_for self account_id group currency;
            if opt_eqb barrier_eqb (barrier_for previous account_id group currency) (Some barrier) then None
            else Some (account_id, group, currency, barrier))
      (in_order candidates).

(** ** The settings *)

Record SpotFundsSettings : Type := mkSpotFundsSettings {
  account_overrides : gmap (InstrumentId * AccountId) WithSlippage;
  account_group_overrides : gmap (InstrumentId * AccountGroupId) WithSlippage;
  instrument_overrides : gmap InstrumentId WithSlippage;
  account_limit_modes : gmap AccountId SpotFundsLimitMode;
  account_group_limit_modes : gmap AccountGroupId SpotFundsLimitMode;
  position_limits : gmap (AccountId * Asset) Quantity;
  pnl_barriers : SpotFundsPnlBarrierSet;
  pnl_account_unrealized_barriers : SpotFundsPnlBarrierSet;
  pnl_account_total_barriers : SpotFundsPnlBarrierSet;
  pnl_position_unrealized_barriers : SpotFundsPnlBarrierSet;
  pnl_position_total_barriers : SpotFundsPnlBarrierSet;
  global_pricer : WithSlippage;
  pricing_source : SpotFundsPricingSource;
  global_limit_mode : SpotFundsLimitMode
}.

Definition pnl_axis_barriers (self : SpotFundsSettings) (axis : SpotFundsPnlBoundsAxis) : SpotFundsPnlBarrierSet :=
  match axis with
  | AccountUnrealized => pnl_account_unrealized_barriers self
  | AccountTotal => pnl_account_total_barriers self
  | PositionUnrealized => pnl_position_unrealized_barriers self
  | PositionTotal => pnl_position_total_barriers self
  end.

(** Field updates, grouped the way the setters write them. *)
Definition with_overrides (s : SpotFundsSettings) a g i : SpotFundsSettings :=
  mkSpotFundsSettings a g i (account_limit_modes s) (account_group_limit_modes s) (position_limits s)
    (pnl_barriers s) (pnl_account_unrealized_barriers s) (pnl_account_total_barriers s)
    (pnl_position_unrealized_barriers s) (pnl_position_total_barriers s) (global_pricer s)
    (pricing_source s) (global_limit_mode s).
Definition with_limits (s : SpotFundsSettings) a g p : SpotFundsSettings :=
  mkSpotFundsSettings (account_overrides s) (account_group_overrides s) (instrument_overrides s) a g p
    (pnl_barriers s) (pnl_account_unrealized_barriers s) (pnl_account_total_barriers s)
    (pnl_position_unrealized_barriers s) (pnl_position_total_barriers s) (global_pricer s)
    (pricing_source s) (global_limit_mode s).
Definition with_globals (s : SpotFundsSettings) p src mode : SpotFundsSettings :=
  mkSpotFundsSettings (account_overrides s) (account_group_overrides s) (instrument_overrides s)
    (account_limit_modes s) (account_group_limit_modes s) (position_limits s)
    (pnl_barriers s) (pnl_account_unrealized_barriers s) (pnl_account_total_barriers s)
    (pnl_position_unrealized_barriers s) (pnl_position_total_barriers s) p src mode.
Definition with_barrier_sets (s : SpotFundsSettings) b au at_ pu pt : SpotFundsSettings :=
  mkSpotFundsSettings (account_overrides s) (account_group_overrides s) (instrument_overrides s)
    (account_limit_modes s) (account_group_limit_modes s) (position_limits s)
    b au at_ pu pt (global_pricer s) (pricing_source s) (global_limit_mode s).
Definition with_realized_barriers (s : SpotFundsSettings) (b : SpotFundsPnlBarrierSet) : SpotFundsSettings :=
  with_barrier_sets s b (pnl_account_unrealized_barriers s) (pnl_account_total_barriers s)
    (pnl_position_unrealized_barriers s) (pnl_position_total_barriers s).
(** [pnl_axis_barriers_mut]. *)
Definition with_axis_barriers (s : SpotFundsSettings) (axis : SpotFundsPnlBoundsAxis) (b : SpotFundsPnlBarrierSet) :
    SpotFundsSettings :=
  let pick x old := if decide (axis = x) then b else old in
  with_barrier_sets s (pnl_barriers s)
    (pick AccountUnrealized (pnl_account_unrealized_barriers s)) (pick AccountTotal (pnl_account_total_barriers s))
    (pick PositionUnrealized (pnl_position_unrealized_barriers s)) (pick PositionTotal (pnl_position_total_barriers s)).

Definition references_account (self : SpotFundsSettings) (account_id : AccountId) : bool :=
  bool_decide (set_Exists (fun k => k.2 = account_id) (dom (account_overrides self))) ||
  is_some (account_limit_modes self !! account_id) ||
  bool_decide (set_Exists (fun k => k.1 = account_id) (dom (position_limits self))) ||
  set_references_account (pnl_barriers self) account_id ||
  existsb (fun axis => set_references_account (pnl_axis_barriers self axis) account_id) ALL_AXES.

(** One round of the loop of [new]. *)
Definition new_override (s : SpotFundsSettings) (target : SpotFundsOverrideTarget) (pricer : option WithSlippage) :
    SpotFundsSettings :=
  match target with
  | TargetInstrument i =>
      with_overrides s (account_overrides s) (account_group_overrides s)
        (set_or_clear (instrument_overrides s) i pricer)
  | TargetInstrumentAccount i a =>
      with_overrides s (set_or_clear (account_overrides s) (i, a) pricer) (account_group_overrides s)
        (instrument_overrides s)
  | TargetInstrumentAccountGroup i g =>
      with_overrides s (account_overrides s) (set_or_clear (account_group_overrides s) (i, g) pricer)
        (instrument_overrides s)
  end.

Fixpoint add_overrides (s : SpotFundsSettings) (overrides : list (SpotFundsOverrideTarget * SpotFundsOverride)) :
    result SpotFundsConfigError SpotFundsSettings :=
  match overrides with
  | [] => Ok s
  | (target, ovr) :: overrides =>
      match slippage_bps ovr with
      | None => add_overrides s overrides
      | Some bps =>
          _ ← check_slippage_bps bps;
          add_overrides (new_override s target (Some (with_slippage_new bps))) overrides
      end
  end.

Definition settings_new (slippage_bps : Z) (pricing_source : SpotFundsPricingSource)
    (overrides : list (SpotFundsOverrideTarget * SpotFundsOverride)) :
    result SpotFundsConfigError SpotFundsSettings :=
  _ ← check_slippage_bps slippage_bps;
  add_overrides
    (mkSpotFundsSettings ∅ ∅ ∅ ∅ ∅ ∅ barrier_set_default barrier_set_default barrier_set_default
       barrier_set_default barrier_set_default (with_slippage_new slippage_bps) pricing_source Enforce)
    overrides.

Definition set_global_slippage_bps (self : SpotFundsSettings) (bps : Z) : result SpotFundsConfigError SpotFundsSettings :=
  _ ← check_slippage_bps bps;
  Ok (with_globals self (with_slippage_new bps) (pricing_source self) (global_limit_mode self)).

Definition set_pricing_source (self : SpotFundsSettings) (source : SpotFundsPricingSource) : SpotFundsSettings :=
  with_globals self (global_pricer self) source (global_limit_mode self).

Definition set_global_limit_mode (self : SpotFundsSettings) (mode : SpotFundsLimitMode) : SpotFundsSettings :=
  with_globals self (global_pricer self) (pricing_source self) mode.

Definition set_account_limit_mode (self : SpotFundsSettings) (account_id : AccountId)
    (mode : option SpotFundsLimitMode) : SpotFundsSettings :=
  with_limits self (set_or_clear (account_limit_modes self) account_id mode) (account_group_limit_modes self)
    (position_limits self).

Definition set_account_group_limit_mode (self : SpotFundsSettings) (account_group_id : AccountGroupId)
    (mode : option SpotFundsLimitMode) : SpotFundsSettings :=
  with_limits self (account_limit_modes self)
    (set_or_clear (account_group_limit_modes self) account_group_id mode) (position_limits self).

Definition set_position_limit (self : SpotFundsSettings) (account_id : AccountId) (asset : Asset)
    (limit : option Quantity) : SpotFundsSettings :=
  with_limits self (account_limit_modes self) (account_group_limit_modes self)
    (set_or_clear (position_limits self) (account_id, asset) limit).

Definition set_pnl_global_barrier (self : SpotFundsSettings) barrier : result SpotFundsConfigError SpotFundsSettings :=
  with_realized_barriers self <$> barrier_set_global (pnl_barriers self) barrier.
Definition set_pnl_account_group_barriers (self : SpotFundsSettings) barriers :
    result SpotFundsConfigError SpotFundsSettings :=
  with_realized_barriers self <$> barrier_set_groups (pnl_barriers self) barriers.
Definition set_pnl_account_barriers (self : SpotFundsSettings) barriers :
    result SpotFundsConfigError SpotFundsSettings :=
  with_realized_barriers self <$> barrier_set_accounts (pnl_barriers self) barriers.
Definition set_pnl_axis_global_barrier (self : SpotFundsSettings) axis barrier :
    result SpotFundsConfigError SpotFundsSettings :=
  with_axis_barriers self axis <$> barrier_set_global (pnl_axis_barriers self axis) barrier.
Definition set_pnl_axis_account_group_barriers (self : SpotFundsSettings) axis barriers :
    result SpotFundsConfigError SpotFundsSettings :=
  with_axis_barriers self axis <$> barrier_set_groups (pnl_axis_barriers self axis) barriers.
Definition set_pnl_axis_account_barriers (self : SpotFundsSettings) axis barriers :
    result SpotFundsConfigError SpotFundsSettings :=
  with_axis_barriers self axis <$> barrier_set_accounts (pnl_axis_barriers self axis) barriers.

Definition with_pnl_account_barriers (self : SpotFundsSettings) barriers := set_pnl_account_barriers self barriers.

Definition with_pnl_barriers (self : SpotFundsSettings) (global : option SpotFundsPnlBoundsBarrier)
    (groups : list SpotFundsPnlBoundsAccountGroupBarrier) (accounts : list SpotFundsPnlBoundsAccountBarrier) :
    result SpotFundsConfigError SpotFundsSettings :=
  self ← set_pnl_global_barrier self global;
  self ← set_pnl_account_group_barriers self groups;
  self ← set_pnl_account_barriers self accounts;
  if barrier_set_is_empty (pnl_barriers self) then Err NoPnlBarriersConfigured else Ok self.

Definition pnl_barrier_for (self : SpotFundsSettings) := barrier_for (pnl_barriers self).
Definition has_pnl_barrier_scope (self : SpotFundsSettings) := has_scope (pnl_barriers self).

Definition set_override (self : SpotFundsSettings) (target : SpotFundsOverrideTarget) (ovr : SpotFundsOverride) :
    result SpotFundsConfigError SpotFundsSettings :=
  _ ← match slippage_bps ovr with Some bps => check_slippage_bps bps | None => Ok tt end;
  Ok (new_override self target (with_slippage_new <$> slippage_bps ovr)).

(** The cascade account, group, default of a per-account setting; the group is
    the account information's, read only when the account has no entry. *)
Definition pricer_for (self : SpotFundsSettings) (instrument_id : InstrumentId) (account_id : AccountId)
    (group : option AccountGroupId) : WithSlippage :=
  match account_overrides self !! (instrument_id, account_id) with
  | Some p => p
  | None =>
      match group ≫= (fun g => account_group_overrides self !! (instrument_id, g)) with
      | Some p => p
      | None => default (global_pricer self) (instrument_overrides self !! instrument_id)
      end
  end.

Definition limit_mode_for (self : SpotFundsSettings) (account_id : AccountId) (group : option AccountGroupId) :
    SpotFundsLimitMode :=
  match account_limit_modes self !! account_id with
  | Some mode => mode
  | None =>
      match group ≫= (fun g => account_group_limit_modes self !! g) with
      | Some mode => mode
      | None => global_limit_mode self
      end
  end.

Definition position_limit_for (self : SpotFundsSettings) (account_id : AccountId) (asset : Asset) : option Quantity :=
  position_limits self !! (account_id, asset).

Definition pricing_base_for_buy (self : SpotFundsSettings) (quote : Quote) : option Price :=
  match pricing_source self with Mark => quote_mark quote | BookTop => quote_ask quote end.
Definition pricing_base_for_sell (self : SpotFundsSettings) (quote : Quote) : option Price :=
  match pricing_source self with Mark => quote_mark quote | BookTop => quote_bid quote end.

Definition effective_buy_price (self : SpotFundsSettings) (quote : Quote) (instrument_id : InstrumentId)
    (account_id : AccountId) (group : option AccountGroupId) : result SpotFundsPriceError Price :=
  base ← ok_or (pricing_base_for_buy self quote) PE_QuoteUnavailable;
  map_err (fun _ => PE_CalculationFailed)
    (pricer_effective_buy_price (pricer_for self instrument_id account_id group) base).

Definition effective_sell_price (self : SpotFundsSettings) (quote : Quote) (instrument_id : InstrumentId)
    (account_id : AccountId) (group : option AccountGroupId) : result SpotFundsPriceError Price :=
  base ← ok_or (pricing_base_for_sell self quote) PE_QuoteUnavailable;
  map_err (fun _ => PE_CalculationFailed)
    (pricer_effective_sell_price (pricer_for self instrument_id account_id group) base).

End Settings.
