(* ===== verification/SpotFundsSettingsFacts.v ===== *)
(** * SpotFundsSettingsFacts: what the spot funds configuration guarantees

    The slippage factor and the prices it gives, the settings every accepted
    configuration leaves, which barrier controls an account, and that the choice of
    candidates in [changed_barriers] is only an optimisation. *)
From S2P Require Import Prelude.
From S2P Require Import Decimal.
From S2P Require Import Param.
From S2P Require Import ParamTypes.
From S2P Require Import Identifiers.
From S2P Require Import Accounts.
From S2P Require Import Policy.
From S2P Require Import Instruments.
From S2P Require Import MarketData.
From S2P Require Import PnlBounds.
From S2P Require Import SpotFundsSettings.
From stdpp Require Import sorting.
Open Scope Z_scope.

(** ** Pricing *)
Section Pricing.
Context {D : DecimalOps} {L : DecimalLaws D}.

(** One basis point, in units. *)
Definition BPS_UNIT : Z := 10 ^ 24.

Lemma representable_bps bps : Z.abs bps <= U64_MAX -> representable (bps * BPS_UNIT).
Proof.
  intros H. exists 4%nat, bps. unfold scale_weight, DEC_MAX_SCALE, DEC_COEFF, BPS_UNIT, U64_MAX in *.
  split_and!; [lia|lia|done].
Qed.

(** The division by 10 000 is exact, so [new] never panics. *)
Lemma with_slippage_factor bps : 0 <= bps <= U64_MAX ->
  exists d, dec_div (dec_of_int bps) (dec_of_int 10000) = Some d /\
    with_slippage_new bps = mkWithSlippage d /\ dec_val d = bps * BPS_UNIT.
Proof.
  intros H. destruct (dec_div_exact (dec_of_int bps) (dec_of_int 10000) (bps * BPS_UNIT)) as (d & Hd & Hv).
  - rewrite dec_of_int_val; [by vm_compute|unfold U64_MAX; lia].
  - apply representable_bps. lia.
  - rewrite !dec_of_int_val by (unfold U64_MAX in *; lia). unfold BPS_UNIT, DEC_UNIT. lia.
  - exists d. unfold with_slippage_new. by rewrite Hd.
Qed.

Definition pricer_wf (p : WithSlippage) : Prop :=
  exists bps, 0 <= bps <= MAX_SLIPPAGE_BPS /\ dec_val (factor p) = bps * BPS_UNIT.

Lemma with_slippage_wf bps : 0 <= bps <= MAX_SLIPPAGE_BPS -> pricer_wf (with_slippage_new bps).
Proof.
  intros H. destruct (with_slippage_factor bps) as (d & _ & -> & Hv); [unfold U64_MAX, MAX_SLIPPAGE_BPS in *; lia|].
  by exists bps.
Qed.

Lemma slippage_up p bps : 0 <= bps <= MAX_SLIPPAGE_BPS -> dec_val (factor p) = bps * BPS_UNIT ->
  exists f, dec_add (dec_of_int 1) (factor p) = Some f /\ dec_val f = (10000 + bps) * BPS_UNIT.
Proof.
  unfold MAX_SLIPPAGE_BPS. intros H Hv.
  assert (dec_val (dec_of_int 1) + dec_val (factor p) = (10000 + bps) * BPS_UNIT) as <-.
  { rewrite Hv, dec_of_int_val by (unfold U64_MAX; lia). unfold DEC_UNIT, BPS_UNIT. lia. }
  apply dec_add_exact. rewrite Hv, dec_of_int_val by (unfold U64_MAX; lia).
  replace (1 * DEC_UNIT + bps * BPS_UNIT) with ((10000 + bps) * BPS_UNIT) by (unfold DEC_UNIT, BPS_UNIT; lia).
  apply representable_bps. unfold U64_MAX. lia.
Qed.

Lemma slippage_down p bps : 0 <= bps <= MAX_SLIPPAGE_BPS -> dec_val (factor p) = bps * BPS_UNIT ->
  exists f, dec_sub (dec_of_int 1) (factor p) = Some f /\ dec_val f = (10000 - bps) * BPS_UNIT.
Proof.
  unfold MAX_SLIPPAGE_BPS. intros H Hv.
  assert (dec_val (dec_of_int 1) - dec_val (factor p) = (10000 - bps) * BPS_UNIT) as <-.
  { rewrite Hv, dec_of_int_val by (unfold U64_MAX; lia). unfold DEC_UNIT, BPS_UNIT. lia. }
  apply dec_sub_exact. rewrite Hv, dec_of_int_val by (unfold U64_MAX; lia).
  replace (1 * DEC_UNIT - bps * BPS_UNIT) with ((10000 - bps) * BPS_UNIT) by (unfold DEC_UNIT, BPS_UNIT; lia).
  apply representable_bps. unfold U64_MAX. lia.
Qed.

(** What a price at [mark] with [bps] of slippage is worth. *)
Definition priced (mark : Price) (factor z : Z) : Prop := sg_val mark * factor = z * 10000.

Lemma priced_mul (mark : Price) f bps z : dec_val f = bps * BPS_UNIT -> priced mark bps z -> representable z ->
  exists c, dec_mul (sg_to_decimal mark) f = Some c /\ dec_val c = z.
Proof.
  intros Hf Hp Hr. apply dec_mul_exact; [done|]. unfold priced, sg_val in Hp. rewrite Hf.
  unfold BPS_UNIT, DEC_UNIT. lia.
Qed.

(** A mark that is not positive has no price, and a sell price is positive. *)
Lemma pricer_signs (p : WithSlippage) (mark : Price) : pricer_wf p ->
  (sg_val mark <= 0 ->
     pricer_effective_buy_price p mark = Err PriceUncomputable /\
     pricer_effective_sell_price p mark = Err PriceUncomputable) /\
  (forall price, pricer_effective_buy_price p mark = Ok price -> 0 <= sg_val price) /\
  (forall price, pricer_effective_sell_price p mark = Ok price -> 0 < sg_val price).
Proof.
  intros (bps & Hb & Hv).
  destruct (slippage_up p bps Hb Hv) as (u & Hu & Hvu), (slippage_down p bps Hb Hv) as (d & Hd & Hvd).
  unfold pricer_effective_buy_price, pricer_effective_sell_price. rewrite Hu, Hd. cbn [ok_or mbind result_bind].
  rewrite dec_leb_val, dec_zero_val. change (dec_val (sg_to_decimal mark)) with (sg_val mark).
  split_and!.
  - intros Hm. rewrite (proj2 (Z.leb_le _ _) Hm). split; [done|].
    destruct (dec_mul (sg_to_decimal mark) d) as [c|] eqn:E; [|done]. cbn [ok_or mbind result_bind].
    rewrite dec_leb_val, dec_zero_val. apply dec_mul_side in E as [_ E].
    rewrite (proj2 (Z.leb_le (dec_val c) 0)); [done|]. unfold sg_val, BPS_UNIT, MAX_SLIPPAGE_BPS in *. nia.
  - intros price. destruct (Z.leb_spec (sg_val mark) 0) as [|Hm]; [done|].
    destruct (dec_mul (sg_to_decimal mark) u) as [c|] eqn:E; [|done]. intros [= <-].
    apply dec_mul_side in E as [E _]. unfold sg_val, BPS_UNIT, MAX_SLIPPAGE_BPS in *. cbn. nia.
  - intros price. destruct (dec_mul (sg_to_decimal mark) d) as [c|] eqn:E; [|done]. cbn [ok_or mbind result_bind].
    rewrite dec_leb_val, dec_zero_val. destruct (Z.leb_spec (dec_val c) 0); [done|]. by intros [= <-].
Qed.

(** The effective prices of the pricer.  A mark that is not positive has no
    price and a sell price is positive; when the exact result is representable both
    prices are exact, the buy price is at least the mark and the sell price at most
    the mark, and a sell is refused only at 100 % slippage. *)
Theorem pricer_spec (p : WithSlippage) (mark : Price) (bps : Z) :
  0 <= bps <= MAX_SLIPPAGE_BPS -> dec_val (factor p) = bps * BPS_UNIT ->
  (sg_val mark <= 0 ->
     pricer_effective_buy_price p mark = Err PriceUncomputable /\
     pricer_effective_sell_price p mark = Err PriceUncomputable) /\
  (forall price, pricer_effective_sell_price p mark = Ok price -> 0 < sg_val price) /\
  (0 < sg_val mark ->
     (forall z, priced mark (10000 + bps) z -> representable z ->
        exists price, pricer_effective_buy_price p mark = Ok price /\ sg_val price = z /\
          sg_val mark <= sg_val price) /\
     (forall z, priced mark (10000 - bps) z -> representable z ->
        if bps <? MAX_SLIPPAGE_BPS then
          exists price, pricer_effective_sell_price p mark = Ok price /\ sg_val price = z /\
            0 < sg_val price <= sg_val mark
        else pricer_effective_sell_price p mark = Err PriceUncomputable)).
Proof.
  intros Hb Hv. destruct (pricer_signs p mark) as (Hneg & _ & Hpos); [by exists bps|].
  split_and!; [done|done|]. clear Hneg Hpos. intros Hm.
  destruct (slippage_up p bps Hb Hv) as (u & Hu & Hvu), (slippage_down p bps Hb Hv) as (d & Hd & Hvd).
  unfold pricer_effective_buy_price, pricer_effective_sell_price. rewrite Hu, Hd. cbn [ok_or mbind result_bind].
  rewrite dec_leb_val, dec_zero_val. change (dec_val (sg_to_decimal mark)) with (sg_val mark).
  rewrite (proj2 (Z.leb_gt _ _) Hm). split; intros z Hp Hr.
  - destruct (priced_mul mark u (10000 + bps) z Hvu Hp Hr) as (c & -> & Hc).
    exists (sg_new c). unfold priced, sg_val in *. cbn. split_and!; [done|done|nia].
  - destruct (priced_mul mark d (10000 - bps) z Hvd Hp Hr) as (c & -> & Hc). cbn [ok_or mbind result_bind].
    rewrite dec_leb_val, dec_zero_val. unfold MAX_SLIPPAGE_BPS, priced, sg_val in *.
    destruct (Z.ltb_spec bps 10000).
    + rewrite (proj2 (Z.leb_gt (dec_val c) 0)) by nia. exists (sg_new c). unfold sg_val; cbn.
      split_and!; [done|done|nia|nia].
    + by rewrite (proj2 (Z.leb_le (dec_val c) 0)) by nia.
Qed.

End Pricing.

(** ** Which barrier controls an account *)
Section Barriers.
Context {D : DecimalOps} {L : DecimalLaws D}.
Implicit Types (self previous : SpotFundsPnlBarrierSet) (b : SpotFundsPnlBoundsBarrier).

(** A barrier of a group or of all accounts applies unless the account is known to
    keep its books in another currency. *)
Definition applies (account_currency : option Asset) b : Prop :=
  forall c, account_currency = Some c -> currency b = c.

Lemma matches_currency_spec cur b : matches_currency cur b = true <-> applies cur b.
Proof.
  unfold matches_currency, applies. destruct cur as [c|]; [|done].
  rewrite bool_decide_eq_true. naive_solver.
Qed.

Lemma opt_filter_Some {A} (f : A -> bool) (o : option A) (x : A) :
  opt_filter f o = Some x <-> o = Some x /\ f x = true.
Proof.
  destruct o as [y|]; cbn; [destruct (f y) eqn:E|]; (split; [intros H|intros [H Hf]]);
    try (injection H as H; subst); (done || congruence).
Qed.

Lemma opt_filter_None {A} (f : A -> bool) (o : option A) :
  opt_filter f o = None <-> forall x, o = Some x -> f x = false.
Proof.
  destruct o as [y|]; cbn; [destruct (f y) eqn:E|]; (split; [intros H x Hx|intros H]);
    try done; try (by injection Hx as <-); specialize (H y eq_refl); congruence.
Qed.

Definition group_barrier self (group : option AccountGroupId) : option SpotFundsPnlBoundsBarrier :=
  gb_barrier <$> (group ≫= (fun g => account_group_barriers self !! g)).

(** The narrowest barrier decides: the account's own one in whatever currency it
    is written, then the group's, then the global one, the last two only in a
    currency that is not known to be another. *)
Theorem barrier_for_spec self account group cur :
  match barrier_for self account group cur with
  | Some b =>
      (exists a, account_barriers self !! account = Some a /\ ab_barrier a = b) \/
      (account_barriers self !! account = None /\ applies cur b /\
       (group_barrier self group = Some b \/
        (global_barrier self = Some b /\ forall g, group_barrier self group = Some g -> ~ applies cur g)))
  | None =>
      account_barriers self !! account = None /\
      (forall g, group_barrier self group = Some g -> ~ applies cur g) /\
      (forall g, global_barrier self = Some g -> ~ applies cur g)
  end.
Proof.
  unfold barrier_for. fold (group_barrier self group).
  assert (Hn : forall b, matches_currency cur b = false -> ~ applies cur b).
  { intros b Hb Ha%matches_currency_spec. congruence. }
  destruct (account_barriers self !! account) as [a|]; [left; eauto|].
  destruct (opt_filter _ (group_barrier self group)) as [b|] eqn:Eg; cbn [or_else].
  - apply opt_filter_Some in Eg as [Hg Hb%matches_currency_spec]. right. auto.
  - rewrite opt_filter_None in Eg.
    destruct (opt_filter _ (global_barrier self)) as [b|] eqn:Eb; cbn [or_else].
    + apply opt_filter_Some in Eb as [Hb Ha%matches_currency_spec]. right. split_and!; [done..|]. right. split; [done|].
      intros g Hg. apply Hn, Eg, Hg.
    + rewrite opt_filter_None in Eb. split_and!; [done|intros g Hg; apply Hn, Eg, Hg|intros g Hg; apply Hn, Eb, Hg].
Qed.

(** A scope is exactly what could give a barrier; without one no barrier is looked
    up. *)
Lemma has_scope_false self account group :
  has_scope self account group = false -> forall cur, barrier_for self account group cur = None.
Proof.
  unfold has_scope, set_references_account, barrier_for.
  destruct (account_barriers self !! account); [done|]. cbn [is_some orb].
  destruct (group ≫= _); [done|]. cbn [is_some orb fmap option_fmap option_map].
  by destruct (global_barrier self).
Qed.

Lemma set_references_account_spec self account :
  set_references_account self account = true <-> is_Some (account_barriers self !! account).
Proof. unfold set_references_account. destruct (_ !! _); cbn; split; [eauto|done|done|by intros []]. Qed.

(** *** Equality of barriers *)

Lemma opt_eqb_refl {A} (f : A -> A -> bool) (o : option A) : (forall x, f x x = true) -> opt_eqb f o o = true.
Proof. intros H. destruct o; cbn; [apply H|done]. Qed.

Lemma barrier_eqb_refl b : barrier_eqb b b = true.
Proof.
  unfold barrier_eqb, sg_eqb. rewrite bool_decide_true by done.
  rewrite !opt_eqb_refl; [done|intros x; rewrite dec_eqb_val; apply Z.eqb_refl..].
Qed.

Lemma barrier_eqb_currency a b : barrier_eqb a b = true -> currency a = currency b.
Proof. unfold barrier_eqb. rewrite !andb_true_iff, bool_decide_eq_true. tauto. Qed.

Lemma matches_currency_eqb cur a b : barrier_eqb a b = true -> matches_currency cur a = matches_currency cur b.
Proof. intros H%barrier_eqb_currency. unfold matches_currency. by rewrite H. Qed.

(** Filters that agree on equal barriers keep equal options equal. *)
Lemma opt_filter_eqb cur (x y : option SpotFundsPnlBoundsBarrier) :
  opt_eqb barrier_eqb x y = true ->
  opt_eqb barrier_eqb (opt_filter (matches_currency cur) x) (opt_filter (matches_currency cur) y) = true.
Proof.
  destruct x as [a|], y as [b|]; try done. cbn. intros H. rewrite (matches_currency_eqb cur a b H).
  by destruct (matches_currency cur b).
Qed.

Lemma or_else_eqb {A} (f : A -> A -> bool) (x y u v : option A) :
  opt_eqb f x y = true -> opt_eqb f u v = true -> opt_eqb f (or_else x u) (or_else y v) = true.
Proof. by destruct x, y. Qed.

(** An account none of whose three scopes changed keeps its barrier. *)
Lemma barrier_for_unchanged self previous account group cur :
  opt_eqb account_barrier_eqb (account_barriers previous !! account) (account_barriers self !! account) = true ->
  (forall g, group = Some g ->
     opt_eqb group_barrier_eqb (account_group_barriers previous !! g) (account_group_barriers self !! g) = true) ->
  opt_eqb barrier_eqb (global_barrier previous) (global_barrier self) = true ->
  opt_eqb barrier_eqb (barrier_for previous account group cur) (barrier_for self account group cur) = true.
Proof.
  unfold barrier_for. intros Ha Hg Hb.
  destruct (account_barriers previous !! account) as [a|], (account_barriers self !! account) as [a'|]; try done.
  { cbn in Ha |- *. unfold account_barrier_eqb in Ha. by apply andb_true_iff in Ha as [? _]. }
  apply or_else_eqb; apply opt_filter_eqb; [|done].
  destruct group as [g|]; [|done]. specialize (Hg g eq_refl). cbn.
  destruct (account_group_barriers previous !! g), (account_group_barriers self !! g); try done.
  cbn in Hg |- *. unfold group_barrier_eqb in Hg. by apply andb_true_iff in Hg as [? _].
Qed.

Lemma changed_keys_spec {K V} `{Countable K} (eqb : V -> V -> bool) (previous current : gmap K V) k :
  k ∉ changed_keys eqb previous current -> opt_eqb eqb (previous !! k) (current !! k) = true.
Proof.
  unfold changed_keys. intros Hk. destruct (opt_eqb eqb (previous !! k) (current !! k)) eqn:E; [done|].
  exfalso. apply Hk. rewrite elem_of_filter, elem_of_union, !elem_of_dom. split; [done|].
  destruct (previous !! k), (current !! k); try done; eauto.
Qed.

(** *** Sorted accounts *)

#[export] Instance account_le_antisym : AntiSymm (=) account_le.
Proof. intros [a] [b]. unfold account_le; cbn. intros. f_equal. lia. Qed.

#[export] Instance account_le_trans : Transitive account_le.
Proof. intros [a] [b] [c]. unfold account_le; cbn. lia. Qed.

#[export] Instance account_le_total : Total account_le.
Proof. intros [a] [b]. unfold account_le; cbn. lia. Qed.

Lemma in_order_perm s : in_order s ≡ₚ elements s.
Proof. apply merge_sort_Permutation. Qed.

Lemma in_order_sorted s : StronglySorted account_le (in_order s).
Proof. apply Sorted_StronglySorted; [apply _|]. apply Sorted_merge_sort, _. Qed.

Lemma elem_of_in_order s a : a ∈ in_order s <-> a ∈ s.
Proof. by rewrite in_order_perm, elem_of_elements. Qed.

Lemma StronglySorted_filter {A} (R : A -> A -> Prop) (P : A -> Prop) `{forall x, Decision (P x)} (l : list A) :
  StronglySorted R l -> StronglySorted R (filter P l).
Proof.
  induction 1 as [|x l Hs IH Hall]; [constructor|]. rewrite filter_cons. case_decide; [|done].
  constructor; [done|]. rewrite Forall_forall in *. intros y [_ Hy]%list_elem_of_filter. by apply Hall.
Qed.

Lemma in_order_filter (s t : gset AccountId) : s ⊆ t -> in_order s = filter (.∈ s) (in_order t).
Proof.
  intros Hsub. apply (StronglySorted_unique account_le); try apply _.
  - apply in_order_sorted.
  - apply StronglySorted_filter, in_order_sorted.
  - apply NoDup_Permutation.
    + rewrite in_order_perm. apply NoDup_elements.
    + apply NoDup_filter. rewrite in_order_perm. apply NoDup_elements.
    + intros x. rewrite list_elem_of_filter, !elem_of_in_order. set_solver.
Qed.

Lemma omap_filter_none {A B} (f : A -> option B) (P : A -> Prop) `{forall x, Decision (P x)} (l : list A) :
  (forall x, ~ P x -> f x = None) -> omap f (filter P l) = omap f l.
Proof.
  intros Hn. induction l as [|x l IH]; [done|]. rewrite filter_cons.
  case_decide as Hd; cbn; rewrite IH; [done|]. by rewrite Hn.
Qed.

Lemma omap_in_order_subset {B} (f : AccountId -> option B) (s t : gset AccountId) :
  s ⊆ t -> (forall a, a ∉ s -> f a = None) -> omap f (in_order s) = omap f (in_order t).
Proof. intros Hs Hn. rewrite (in_order_filter s t Hs). by apply omap_filter_none. Qed.

(** *** The reference definition of a barrier change *)

Definition membership_map (memberships : list (AccountId * AccountGroupId)) : gmap AccountId AccountGroupId :=
  list_to_map (reverse memberships).

Definition change_at self previous (memberships : list (AccountId * AccountGroupId))
    (resolve : AccountId -> option AccountGroupId -> option Asset) (account : AccountId) :
    option (AccountId * option AccountGroupId * option Asset * SpotFundsPnlBoundsBarrier) :=
  let group := membership_map memberships !! account in
  let currency := resolve account group in
  b ← barrier_for self account group currency;
  if opt_eqb barrier_eqb (barrier_for previous account group currency) (Some b) then None
  else Some (account, group, currency, b).

(** Every account the engine knows of in any way. *)
Definition known_universe self previous (pnl_keys holdings_accounts : list AccountId)
    (memberships : list (AccountId * AccountGroupId)) (known : list AccountId) : gset AccountId :=
  list_to_set pnl_keys ∪ list_to_set holdings_accounts ∪ dom (account_barriers previous) ∪
  dom (account_barriers self) ∪ dom (membership_map memberships) ∪ list_to_set known.

Lemma change_at_unchanged self previous ms resolve a :
  a ∉ changed_keys account_barrier_eqb (account_barriers previous) (account_barriers self) ->
  (forall g, membership_map ms !! a = Some g ->
     g ∉ changed_keys group_barrier_eqb (account_group_barriers previous) (account_group_barriers self)) ->
  opt_eqb barrier_eqb (global_barrier previous) (global_barrier self) = true ->
  change_at self previous ms resolve a = None.
Proof.
  intros Ha Hg Hb. unfold change_at.
  pose proof (barrier_for_unchanged self previous a (membership_map ms !! a)
    (resolve a (membership_map ms !! a)) (changed_keys_spec _ _ _ _ Ha)
    (fun g Hm => changed_keys_spec _ _ _ _ (Hg g Hm)) Hb) as H.
  destruct (barrier_for self a _ _) as [b|]; [|done]. cbn. by rewrite H.
Qed.

Lemma changed_keys_dom {V} (eqb : V -> V -> bool) (previous current : gmap AccountId V) :
  changed_keys eqb previous current ⊆ dom previous ∪ dom current.
Proof. unfold changed_keys. intros k. rewrite elem_of_filter. tauto. Qed.

(** Looking only at the accounts a change can reach gives what looking at every
    account the engine knows would. *)
Lemma changed_barriers_scan self previous pnl_keys holdings_accounts memberships known resolve :
  changed_barriers self previous pnl_keys holdings_accounts memberships known resolve =
  omap (change_at self previous memberships resolve)
    (in_order (known_universe self previous pnl_keys holdings_accounts memberships known)).
Proof.
  unfold changed_barriers. fold (membership_map memberships).
  set (ca := changed_keys account_barrier_eqb _ _). set (cg := changed_keys group_barrier_eqb _ _).
  assert (Hca : ca ⊆ dom (account_barriers previous) ∪ dom (account_barriers self)) by apply changed_keys_dom.
  destruct (opt_eqb barrier_eqb (global_barrier previous) (global_barrier self)) eqn:Eb; cbn [negb andb].
  2: { f_equal. f_equal. unfold known_universe. set_solver. }
  assert (Hn : forall a, a ∉ ca -> (forall g, membership_map memberships !! a = Some g -> g ∉ cg) ->
    change_at self previous memberships resolve a = None).
  { intros a H1 H2. by apply change_at_unchanged. }
  set (members := dom (filter (fun '(_, group) => group ∈ cg) (membership_map memberships))).
  assert (Hm : forall a, a ∉ members -> forall g, membership_map memberships !! a = Some g -> g ∉ cg).
  { intros a Ha g Hg Hin. apply Ha. apply elem_of_dom. exists g. by apply map_lookup_filter_Some. }
  assert (Hmd : members ⊆ dom (membership_map memberships)) by apply dom_filter_subseteq.
  assert (Hnil : bool_decide (ca = ∅) && bool_decide (cg = ∅) = true ->
    [] = omap (change_at self previous memberships resolve)
           (in_order (known_universe self previous pnl_keys holdings_accounts memberships known))).
  { rewrite andb_true_iff, !bool_decide_eq_true. intros [Ha Hg].
    rewrite <- (omap_in_order_subset _ ∅); [done|set_solver|]. intros a _. apply Hn; set_solver. }
  destruct (bool_decide (ca = ∅) && bool_decide (cg = ∅)); [by apply Hnil|]. clear Hnil.
  assert (Hu : dom (account_barriers previous) ∪ dom (account_barriers self) ∪ dom (membership_map memberships) ⊆
    known_universe self previous pnl_keys holdings_accounts memberships known) by (unfold known_universe; set_solver).
  case_bool_decide as Hg; apply omap_in_order_subset; [set_solver|set_solver|set_solver|].
  intros a Ha. apply Hn; [set_solver|]. apply Hm. set_solver.
Qed.

(** The keys of a scan are the keys it answered for. *)
Lemma omap_keys {X} (f : AccountId -> option X) (key : X -> AccountId) (l : list AccountId) :
  (forall a x, f a = Some x -> key x = a) -> key <$> omap f l = filter (fun a => is_Some (f a)) l.
Proof.
  intros Hk. induction l as [|a l IH]; [done|]. rewrite filter_cons. cbn [omap list_omap].
  destruct (f a) as [x|] eqn:E.
  - rewrite decide_True by eauto. cbn. rewrite (Hk a x E). by f_equal.
  - rewrite decide_False by (by intros [? ?]). exact IH.
Qed.

Lemma in_order_nodup s : NoDup (in_order s).
Proof. rewrite in_order_perm. apply NoDup_elements. Qed.

Definition change_account (change : AccountId * option AccountGroupId * option Asset * SpotFundsPnlBoundsBarrier) :
    AccountId := change.1.1.1.

Lemma change_at_Some self previous ms resolve a a' g c b :
  change_at self previous ms resolve a = Some (a', g, c, b) <->
  a' = a /\ g = membership_map ms !! a /\ c = resolve a g /\ barrier_for self a g c = Some b /\
  opt_eqb barrier_eqb (barrier_for previous a g c) (Some b) = false.
Proof.
  unfold change_at. destruct (barrier_for self a _ _) as [b'|] eqn:Eb; cbn.
  - destruct (opt_eqb _ _ _) eqn:Ee.
    + split; [done|]. intros (-> & -> & -> & Hb & He). rewrite Eb in Hb. injection Hb as ->. congruence.
    + split; [intros [= <- <- <- <-]; done|]. intros (-> & -> & -> & Hb & He). rewrite Eb in Hb. by injection Hb as ->.
  - split; [done|]. intros (-> & -> & -> & Hb & He). congruence.
Qed.

(** The accounts checked again after a change of barriers are exactly those,
    of all the engine knows of in any way, whose effective barrier is now another
    one than before - an account's own barrier first, then its group's, then
    everyone's, the last two only in the account's currency - each once, in account
    order, with its group, its currency and the barrier that now controls it. *)
Theorem changed_barriers_reference self previous pnl_keys holdings_accounts memberships known resolve :
  let changes := changed_barriers self previous pnl_keys holdings_accounts memberships known resolve in
  NoDup (change_account <$> changes) /\ StronglySorted account_le (change_account <$> changes) /\
  forall a g c b, (a, g, c, b) ∈ changes <->
    a ∈ known_universe self previous pnl_keys holdings_accounts memberships known /\
    g = membership_map memberships !! a /\ c = resolve a g /\ barrier_for self a g c = Some b /\
    opt_eqb barrier_eqb (barrier_for previous a g c) (Some b) = false.
Proof.
  cbv zeta. rewrite changed_barriers_scan. set (U := known_universe _ _ _ _ _ _).
  assert (Hk : forall a x, change_at self previous memberships resolve a = Some x -> change_account x = a).
  { intros a [[[a' g] c] b] (-> & _)%change_at_Some. done. }
  rewrite (omap_keys _ _ _ Hk). split_and!.
  - apply NoDup_filter, in_order_nodup.
  - apply StronglySorted_filter, in_order_sorted.
  - intros a g c b. rewrite list_elem_of_omap. split.
    + intros (a' & Ha%elem_of_in_order & (-> & H)%change_at_Some). done.
    + intros (Ha & H). exists a. rewrite elem_of_in_order, change_at_Some. done.
Qed.

End Barriers.

(** ** The settings of every configuration *)
Section SettingsInvariant.
Context {D : DecimalOps} {L : DecimalLaws D}.
Implicit Types (s : SpotFundsSettings) (bs : SpotFundsPnlBarrierSet).

Definition bounded (b : SpotFundsPnlBoundsBarrier) : Prop :=
  has_configured_bound (lower_bound b) (upper_bound b) = true.

(** Every barrier has a bound and stands under the key it names. *)
Record barrier_set_wf bs : Prop := {
  bw_global b : global_barrier bs = Some b -> bounded b;
  bw_groups g b : account_group_barriers bs !! g = Some b -> gb_account_group_id b = g /\ bounded (gb_barrier b);
  bw_accounts a b : account_barriers bs !! a = Some b -> ab_account_id b = a /\ bounded (ab_barrier b)
}.

Record settings_wf s : Prop := {
  sw_account k p : account_overrides s !! k = Some p -> pricer_wf p;
  sw_group k p : account_group_overrides s !! k = Some p -> pricer_wf p;
  sw_instrument k p : instrument_overrides s !! k = Some p -> pricer_wf p;
  sw_global : pricer_wf (global_pricer s);
  sw_realized : barrier_set_wf (pnl_barriers s);
  sw_axes axis : barrier_set_wf (pnl_axis_barriers s axis)
}.

(** A slippage argument is a [u16]. *)
Definition override_u16 (ovr : SpotFundsOverride) : Prop :=
  forall bps, slippage_bps ovr = Some bps -> 0 <= bps <= U16_MAX.

(** One accepted change of the settings: every setter of the type. *)
Inductive settings_step : SpotFundsSettings -> SpotFundsSettings -> Prop :=
| step_slippage s s' bps : 0 <= bps <= U16_MAX -> set_global_slippage_bps s bps = Ok s' -> settings_step s s'
| step_override s s' target ovr : override_u16 ovr -> set_override s target ovr = Ok s' -> settings_step s s'
| step_source s source : settings_step s (set_pricing_source s source)
| step_mode s mode : settings_step s (set_global_limit_mode s mode)
| step_account_mode s a mode : settings_step s (set_account_limit_mode s a mode)
| step_group_mode s g mode : settings_step s (set_account_group_limit_mode s g mode)
| step_position_limit s a x limit : settings_step s (set_position_limit s a x limit)
| step_global s s' b : set_pnl_global_barrier s b = Ok s' -> settings_step s s'
| step_groups s s' l : set_pnl_account_group_barriers s l = Ok s' -> settings_step s s'
| step_accounts s s' l : set_pnl_account_barriers s l = Ok s' -> settings_step s s'
| step_axis_global s s' axis b : set_pnl_axis_global_barrier s axis b = Ok s' -> settings_step s s'
| step_axis_groups s s' axis l : set_pnl_axis_account_group_barriers s axis l = Ok s' -> settings_step s s'
| step_axis_accounts s s' axis l : set_pnl_axis_account_barriers s axis l = Ok s' -> settings_step s s'
| step_barriers s s' b gs accounts : with_pnl_barriers s b gs accounts = Ok s' -> settings_step s s'.

Inductive settings_reachable : SpotFundsSettings -> Prop :=
| reach_new bps source overrides s : 0 <= bps <= U16_MAX ->
    Forall (fun o => override_u16 o.2) overrides -> settings_new bps source overrides = Ok s ->
    settings_reachable s
| reach_step s s' : settings_reachable s -> settings_step s s' -> settings_reachable s'.

(** *** Validation *)

Lemma check_slippage_Ok bps u : 0 <= bps -> check_slippage_bps bps = Ok u -> 0 <= bps <= MAX_SLIPPAGE_BPS.
Proof. unfold check_slippage_bps. destruct (Z.ltb_spec MAX_SLIPPAGE_BPS bps); [done|]. intros. lia. Qed.

Lemma validate_pnl_bounds_Ok b u : validate_pnl_bounds b = Ok u -> bounded b.
Proof. unfold validate_pnl_bounds, bounded. by destruct (has_configured_bound _ _). Qed.

Lemma collect_barriers_wf {K V} `{Countable K} (key : V -> K) (barrier : V -> SpotFundsPnlBoundsBarrier) l out r :
  (forall k v, out !! k = Some v -> key v = k /\ bounded (barrier v)) ->
  collect_barriers key barrier l out = Ok r ->
  forall k v, r !! k = Some v -> key v = k /\ bounded (barrier v).
Proof.
  revert out. induction l as [|b l IH]; cbn [collect_barriers]; intros out Hout Hr; [by injection Hr as <-|].
  apply result_bind_Ok in Hr as (u & Hv & Hr). refine (IH _ _ Hr).
  intros k v. destruct (decide (k = key b)) as [->|Hne].
  - rewrite lookup_insert_eq. intros [= <-]. split; [done|]. by eapply validate_pnl_bounds_Ok.
  - rewrite lookup_insert_ne by done. apply Hout.
Qed.

Lemma barrier_set_default_wf : barrier_set_wf barrier_set_default.
Proof. by split. Qed.

Lemma barrier_set_global_wf bs b bs' : barrier_set_wf bs -> barrier_set_global bs b = Ok bs' -> barrier_set_wf bs'.
Proof.
  intros [Hg Hgr Ha] H. unfold barrier_set_global in H. apply result_bind_Ok in H as (u & Hv & [= <-]).
  split; cbn; [|done|done]. intros b' ->. by eapply validate_pnl_bounds_Ok.
Qed.

Lemma barrier_set_groups_wf bs l bs' : barrier_set_wf bs -> barrier_set_groups bs l = Ok bs' -> barrier_set_wf bs'.
Proof.
  intros [Hg Hgr Ha] H. unfold barrier_set_groups in H. apply result_bind_Ok in H as (m & Hm & [= <-]).
  split; cbn; [done| |done]. by eapply (collect_barriers_wf _ _ _ _ _ _ Hm).
  Unshelve. done.
Qed.

Lemma barrier_set_accounts_wf bs l bs' : barrier_set_wf bs -> barrier_set_accounts bs l = Ok bs' -> barrier_set_wf bs'.
Proof.
  intros [Hg Hgr Ha] H. unfold barrier_set_accounts in H. apply result_bind_Ok in H as (m & Hm & [= <-]).
  split; cbn; [done|done|]. by eapply (collect_barriers_wf _ _ _ _ _ _ Hm).
  Unshelve. done.
Qed.

(** *** The setters *)

Lemma set_or_clear_Forall {K V} `{Countable K} (P : V -> Prop) (m : gmap K V) k v :
  (forall x, v = Some x -> P x) -> (forall i x, m !! i = Some x -> P x) ->
  forall i x, set_or_clear m k v !! i = Some x -> P x.
Proof.
  intros Hv Hm i x. destruct v as [v|]; cbn.
  - destruct (decide (i = k)) as [->|]; [rewrite lookup_insert_eq; intros [= <-]; by apply Hv|].
    rewrite lookup_insert_ne by done. apply Hm.
  - intros [_ Hi]%lookup_delete_Some. by eapply Hm.
Qed.

Lemma new_override_wf s target p : (forall x, p = Some x -> pricer_wf x) ->
  settings_wf s -> settings_wf (new_override s target p).
Proof.
  intros Hp [Ha Hg Hi Hgl Hr Hx]. destruct target; (split; [..|done|done|done]); cbn; try done;
    by apply set_or_clear_Forall.
Qed.

Lemma with_realized_barriers_wf s bs : barrier_set_wf bs -> settings_wf s -> settings_wf (with_realized_barriers s bs).
Proof. intros Hb [Ha Hg Hi Hgl Hr Hx]. by split. Qed.

Lemma with_axis_barriers_wf s axis bs : barrier_set_wf bs -> settings_wf s -> settings_wf (with_axis_barriers s axis bs).
Proof.
  intros Hb [Ha Hg Hi Hgl Hr Hx]. split; try done. intros x. pose proof (Hx x) as Hx'.
  by destruct axis, x; cbn in *.
Qed.

Lemma set_pnl_wf s s' f (r : result SpotFundsConfigError SpotFundsPnlBarrierSet) :
  (forall bs, barrier_set_wf bs -> settings_wf (f bs)) -> (forall bs, r = Ok bs -> barrier_set_wf bs) ->
  f <$> r = Ok s' -> settings_wf s -> settings_wf s'.
Proof. intros Hf Hr (bs & Hbs & ->)%result_fmap_Ok _. auto. Qed.

Lemma add_overrides_wf s s' overrides : Forall (fun o => override_u16 o.2) overrides ->
  settings_wf s -> add_overrides s overrides = Ok s' -> settings_wf s'.
Proof.
  intros Hall. revert s. induction Hall as [|[target ovr] overrides Ho Hall IH]; cbn [add_overrides]; intros s Hs H.
  { by injection H as <-. }
  destruct (slippage_bps ovr) as [bps|] eqn:E; [|by eapply IH].
  apply result_bind_Ok in H as (u & Hc & H). eapply IH; [|done]. apply new_override_wf; [|done].
  intros x [= <-]. apply with_slippage_wf. destruct (Ho bps E). by eapply check_slippage_Ok.
Qed.

Lemma set_pnl_step s s' : settings_wf s ->
  (exists b, set_pnl_global_barrier s b = Ok s') \/ (exists l, set_pnl_account_group_barriers s l = Ok s') \/
  (exists l, set_pnl_account_barriers s l = Ok s') \/
  (exists axis b, set_pnl_axis_global_barrier s axis b = Ok s') \/
  (exists axis l, set_pnl_axis_account_group_barriers s axis l = Ok s') \/
  (exists axis l, set_pnl_axis_account_barriers s axis l = Ok s') -> settings_wf s'.
Proof.
  intros Hs H. pose proof (sw_realized s Hs). pose proof (sw_axes s Hs).
  destruct H as [[? H]|[[? H]|[[? H]|[(? & ? & H)|[(? & ? & H)|(? & ? & H)]]]]]; eapply set_pnl_wf in H; try done;
    intros; eauto using with_realized_barriers_wf, with_axis_barriers_wf, barrier_set_global_wf,
      barrier_set_groups_wf, barrier_set_accounts_wf.
Qed.

Lemma settings_step_wf s s' : settings_step s s' -> settings_wf s -> settings_wf s'.
Proof.
  intros Hstep Hs. pose proof Hs as [Ha Hg Hi Hgl Hr Hx].
  destruct Hstep as [s s' bps Hb H|s s' target ovr Ho H| | | | | |s s' b H|s s' l H|s s' l H|s s' axis b H
    |s s' axis l H|s s' axis l H|s s' b gs accounts H]; try (by split); try (by eapply set_pnl_step; eauto 12).
  - unfold set_global_slippage_bps in H. apply result_bind_Ok in H as (u & Hc & [= <-]). split; try done. cbn.
    apply with_slippage_wf. destruct Hb. by eapply check_slippage_Ok.
  - unfold set_override in H. apply result_bind_Ok in H as (u & Hc & [= <-]). apply new_override_wf; [|done].
    intros x Hx'. destruct (slippage_bps ovr) as [bps|] eqn:E; [|done]. injection Hx' as <-.
    apply with_slippage_wf. destruct (Ho bps E). by eapply check_slippage_Ok.
  - unfold with_pnl_barriers in H. apply result_bind_Ok in H as (s1 & H1 & H).
    apply result_bind_Ok in H as (s2 & H2 & H). apply result_bind_Ok in H as (s3 & H3 & H).
    destruct (barrier_set_is_empty _); [done|]. injection H as <-.
    eapply set_pnl_step; [eapply set_pnl_step; [eapply set_pnl_step; [done|]|]|]; eauto 12.
Qed.

(** Whatever accepted calls built and changed the settings: no slippage above
    100 % is ever in force, and every P&L barrier, on the realized ledger and on
    each of the four evaluated axes, has a bound and is stored under the account or
    group it names. *)
Theorem settings_reachable_wf s : settings_reachable s -> settings_wf s.
Proof.
  induction 1 as [bps source overrides s Hb Ho H|s s' _ IH Hstep].
  - unfold settings_new in H. apply result_bind_Ok in H as (u & Hc & H). eapply add_overrides_wf; [done| |done].
    split; cbn; try done; [|intros []; apply barrier_set_default_wf].
    apply with_slippage_wf. destruct Hb. by eapply check_slippage_Ok.
  - by eapply settings_step_wf.
Qed.

(** The pricer the cascade picks for an order is always one of those. *)
Lemma pricer_for_wf s instrument account group : settings_wf s -> pricer_wf (pricer_for s instrument account group).
Proof.
  intros [Ha Hg Hi Hgl _ _]. unfold pricer_for. destruct (account_overrides s !! _) eqn:E; [by eapply Ha|].
  destruct group as [g|]; cbn; [destruct (account_group_overrides s !! _) eqn:E2; [by eapply Hg|]|];
    (destruct (instrument_overrides s !! _) eqn:E3; cbn; [by eapply Hi|done]).
Qed.

(** A market order is never priced from a mark that is not positive, nor sold at a
    price that is not positive. *)
Lemma effective_price_sign s q instrument account group price : settings_wf s ->
  (effective_buy_price s q instrument account group = Ok price -> 0 <= sg_val price) /\
  (effective_sell_price s q instrument account group = Ok price -> 0 < sg_val price).
Proof.
  intros Hs. pose proof (pricer_for_wf s instrument account group Hs) as Hp.
  unfold effective_buy_price, effective_sell_price.
  split; intros H; apply result_bind_Ok in H as (base & Hbase & H); apply map_err_Ok in H;
    destruct (pricer_signs _ base Hp) as (_ & H1 & H2); eauto.
Qed.

End SettingsInvariant.
