(* ===== verification/SpotFundsParts.v ===== *)
(** * SpotFundsParts: the pure parts of the spot funds policy

    src/crates/openpit/src/pretrade/policies/spot_funds: views.rs, rejects.rs,
    position_limit.rs, the reservation arithmetic of pre_trade.rs and the lock-price
    arithmetic of execution.rs. *)
From S2P Require Import Prelude.
From S2P Require Import Decimal.
From S2P Require Import Param.
From S2P Require Import ParamTypes.
From S2P Require Import Identifiers.
From S2P Require Import Mutation.
From S2P Require Import Reject.
From S2P Require Import AccountControl.
From S2P Require Import Accounts.
From S2P Require Import Lock.
From S2P Require Import Policy.
From S2P Require Import Storage.
From S2P Require Import Holdings.
From S2P Require Import Instruments.
From S2P Require Import MarketData.
From S2P Require Import PnlBounds.
From S2P Require Import SpotFundsSettings.
From stdpp Require Import pretty.
Open Scope Z_scope.

Definition SPOT_FUNDS_POLICY_NAME : string := "SpotFundsPolicy".

(** [Debug] of a [Decimal], on which the derived [Debug] of the value types rests. *)
Class DecimalDebug {D : DecimalOps} : Type := dec_debug : Dec -> string.

Class HasSide (Order : Type) : Type :=
  side : Order -> result RequestFieldAccessError Side.

Inductive LegKind : Set := Underlying | Settlement.

#[export] Instance LegKind_eq_dec : EqDecision LegKind.
Proof. solve_decision. Defined.

Definition PnlHaltReason_debug (reason : PnlHaltReason) : string :=
  match reason with
  | MissingFx => "MissingFx"
  | MissingAccountCurrency => "MissingAccountCurrency"
  | MissingInitialPnl => "MissingInitialPnl"
  | MissingCostBasis => "MissingCostBasis"
  | ArithmeticOverflow => "ArithmeticOverflow"
  end.

Section Parts.
Context {D : DecimalOps} {F : DecimalFormat} {G : DecimalDebug}.
Implicit Types (asset : Asset) (barrier : SpotFundsPnlBoundsBarrier).

(** ** Derived debug texts *)

Definition signed_debug {k} (name : string) (v : Signed k) : string :=
  name +:+ "(" +:+ dec_debug (sg_to_decimal v) +:+ ")".
Definition option_debug {A} (f : A -> string) (o : option A) : string :=
  match o with Some x => "Some(" +:+ f x +:+ ")" | None => "None" end.
Definition size_debug (v : PositionSize) : string := signed_debug "PositionSize" v.
Definition PositionPnlState_debug (s : PositionPnlState) : string :=
  match s with
  | StatePnl pnl => "Pnl(" +:+ signed_debug "Pnl" pnl +:+ ")"
  | StateHalted reason => "Halted(" +:+ PnlHaltReason_debug reason +:+ ")"
  end.
Definition Holdings_debug (h : Holdings) : string :=
  "Holdings { available: " +:+ size_debug (h_available h) +:+ ", held: " +:+ size_debug (h_held h) +:+
  ", incoming: " +:+ size_debug (h_incoming h) +:+
  ", avg_entry_price: " +:+ option_debug (signed_debug "Price") (h_avg_entry_price h) +:+
  ", realized_pnl: " +:+ option_debug PositionPnlState_debug (h_realized_pnl h) +:+ " }".

Definition size_fmt (v : PositionSize) : string := sg_fmt v.

(** ** rejects.rs *)

Definition pnl_barrier_currency_mismatch_account_block (policy_name details : string) : AccountBlock :=
  account_block_new policy_name RC_PnlKillSwitchTriggered "pnl barrier currency mismatch" details.

Definition account_pnl_barrier_currency_mismatch_block (account_currency : option Asset) barrier :
    option AccountBlock :=
  account_currency ← opt_filter (fun c => negb (bool_decide (c = currency barrier))) account_currency;
  Some (pnl_barrier_currency_mismatch_account_block SPOT_FUNDS_POLICY_NAME
          ("account currency " +:+ Asset_fmt account_currency +:+ ", barrier currency " +:+
           Asset_fmt (currency barrier))).

Definition account_pnl_halted_block (policy : string) (reason : PnlHaltReason) : AccountBlock :=
  account_block_new policy RC_PnlKillSwitchTriggered "account pnl calculation halted"
    ("halt reason " +:+ PnlHaltReason_debug reason).

Definition labelled_pnl_block_for_state (state : PnlState) barrier (label : string) : option AccountBlock :=
  match state with
  | PnlValue absolute =>
      let sides := breached_sides (lower_bound barrier) (upper_bound barrier) absolute in
      if is_nil_list sides then None
      else Some (pnl_breach_account_block SPOT_FUNDS_POLICY_NAME
             (labelled_barrier_breach_details sides (lower_bound barrier) (upper_bound barrier) absolute label
                "currency" (currency barrier)))
  | PnlHalted reason => Some (account_pnl_halted_block SPOT_FUNDS_POLICY_NAME reason)
  end.

Definition account_pnl_block_for_state (account_currency : option Asset) (state : PnlState) barrier
    (provenance : option Z) : option AccountBlock :=
  match account_pnl_barrier_currency_mismatch_block account_currency barrier with
  | Some block => Some block
  | None =>
      (fun block => block_with_provenance block provenance) <$>
        labelled_pnl_block_for_state state barrier REALIZED_PNL_LABEL
  end.

Definition insufficient_funds_reject (policy : string) asset (available requested : PositionSize) : Reject :=
  reject_new policy RS_Order RC_InsufficientFunds "spot funds insufficient"
    ("asset " +:+ Asset_fmt asset +:+ ": available " +:+ size_fmt available +:+ ", requested " +:+
     size_fmt requested).

Definition adj_field {PR T} (policy name : string) (r : result RequestFieldAccessError T) :
    result (Rejects PR) T :=
  map_err (fun e => rejects_from_reject (field_access_error_account_adjustment_reject policy name e)) r.

Definition order_value_calculation_failed_reject (policy details : string) : Reject :=
  reject_new policy RS_Order RC_OrderValueCalculationFailed "order value calculation failed" details.

Definition pnl_axis_label (axis : SpotFundsPnlBoundsAxis) : string :=
  match axis with
  | AccountUnrealized => "account unrealized pnl"
  | AccountTotal => "account total pnl"
  | PositionUnrealized => "position unrealized pnl"
  | PositionTotal => "position total pnl"
  end.

Definition block_with_details (b : AccountBlock) (details : string) : AccountBlock :=
  mkAccountBlock (block_reason b) details (block_policy b) (block_user_data b) (block_code b)
    (block_provenance b).

Definition pnl_axis_currency_mismatch_block (axis : SpotFundsPnlBoundsAxis) (account_currency : option Asset)
    barrier : option AccountBlock :=
  (fun block => block_with_details block (pnl_axis_label axis +:+ ": " +:+ block_details block)) <$>
    account_pnl_barrier_currency_mismatch_block account_currency barrier.

Definition pnl_axis_block_for_state (axis : SpotFundsPnlBoundsAxis) (asset : option Asset) (state : PnlState)
    barrier : option AccountBlock :=
  let label := pnl_axis_label axis in
  block ← labelled_pnl_block_for_state state barrier label;
  let block :=
    match state with
    | PnlHalted _ => block_with_details block (label +:+ ": " +:+ block_details block)
    | PnlValue _ => block
    end in
  Some (match asset with
        | Some asset => block_with_details block (block_details block +:+ ", asset " +:+ Asset_fmt asset)
        | None => block
        end).

Definition arithmetic_overflow_reject (policy : string) (scope : RejectScope) (details : string) : Reject :=
  reject_new policy scope RC_ArithmeticOverflow "arithmetic overflow" details.

Definition arithmetic_overflow_account_block (policy details : string) : AccountBlock :=
  account_block_new policy RC_ArithmeticOverflow "arithmetic overflow" details.

Definition account_adjustment_bounds_exceeded_reject (policy : string) asset (field : string)
    (actual : PositionSize) (lower upper : option PositionSize) : Reject :=
  reject_new policy RS_Account RC_AccountAdjustmentBoundsExceeded "account adjustment bounds exceeded"
    ("asset " +:+ Asset_fmt asset +:+ ": " +:+ field +:+ " " +:+ size_fmt actual +:+ ", lower " +:+
     option_debug size_debug lower +:+ ", upper " +:+ option_debug size_debug upper).

(** ** Reservation arithmetic *)

Record ReservationLegs : Type := mkLegs {
  legs_underlying : PositionSize;
  legs_settlement : PositionSize;
  legs_base_incoming : PositionSize;
  legs_settlement_incoming : PositionSize;
  legs_lock_price : option Price
}.

Record ReservationStep : Type := mkStep {
  step_asset : Asset;
  step_held : PositionSize;
  step_incoming : PositionSize
}.

Definition reservation_steps (legs : ReservationLegs) (underlying settlement : Asset) (side : Side) :
    ReservationStep * ReservationStep :=
  match side with
  | Buy =>
      (mkStep settlement (legs_settlement legs) (legs_settlement_incoming legs),
       mkStep underlying (legs_underlying legs) (legs_base_incoming legs))
  | Sell =>
      (mkStep underlying (legs_underlying legs) (legs_base_incoming legs),
       mkStep settlement (legs_settlement legs) (legs_settlement_incoming legs))
  end.

(** [Ord::max] with zero. *)
Definition non_negative (value : PositionSize) : PositionSize :=
  if sg_ltb sg_ZERO value then value else sg_ZERO.

Definition neg (value : PositionSize) : PositionSize := position_size_neg value.

Definition signed_volume (volume : Volume) (price : Price) : PositionSize :=
  let magnitude := volume_to_position_size volume in
  if sg_gtb price sg_ZERO then magnitude else neg magnitude.

Definition hold_with_mode (holdings : Holdings) (amount : PositionSize) (limit_mode : SpotFundsLimitMode) :
    result HoldError Holdings :=
  match limit_mode with
  | Enforce => try_hold holdings amount
  | TrackOnly => hold_allow_negative holdings amount
  end.

Definition reserve_hold_reject (policy : string) (err : HoldError) asset (amount : PositionSize) :
    Rejects PolicyPreTradeResult :=
  rejects_from_reject
    match err with
    | HE_ArithmeticOverflow =>
        arithmetic_overflow_reject policy RS_Order
          ("pre-trade hold overflow: asset " +:+ Asset_fmt asset +:+ ", requested " +:+ size_fmt amount)
    | InsufficientAvailable available requested => insufficient_funds_reject policy asset available requested
    end.

Definition reservation_outcome_entry asset (held_amount incoming_amount : PositionSize) (new_holdings : Holdings) :
    AccountOutcomeEntry :=
  let '(balance, held) :=
    if sg_is_zero held_amount then (None, None)
    else (Some (mkOutcomeAmount (neg held_amount) (h_available new_holdings)),
          Some (mkOutcomeAmount held_amount (h_held new_holdings))) in
  let incoming :=
    if sg_is_zero incoming_amount then None
    else Some (mkOutcomeAmount incoming_amount (h_incoming new_holdings)) in
  mkAccountOutcomeEntry asset balance held incoming None None.

(** ** position_limit.rs *)

Inductive Check_ : Type :=
| FirstStepTransition
| CheckPosition (limit : Quantity) (earlier_held earlier_incoming : PositionSize).

Inductive ExactArithmeticError : Set := EA_Overflow | EA_Inexact.

Definition result_eqb {E k} (r : result E (Signed k)) (x : Signed k) : bool :=
  match r with Ok y => sg_eqb y x | Err _ => false end.

Definition exact_add (left right : PositionSize) : result ExactArithmeticError PositionSize :=
  r ← map_err (fun _ => EA_Overflow) (sg_checked_add left right);
  if result_eqb (sg_checked_sub r left) right && result_eqb (sg_checked_sub r right) left then Ok r
  else Err EA_Inexact.

Definition exact_sub (left right : PositionSize) : result ExactArithmeticError PositionSize :=
  r ← map_err (fun _ => EA_Overflow) (sg_checked_sub left right);
  if result_eqb (sg_checked_add r right) left && result_eqb (sg_checked_sub left r) right then Ok r
  else Err EA_Inexact.

Definition step_net (held incoming : PositionSize) : result ExactArithmeticError PositionSize :=
  exact_sub incoming held.

Definition aggregate_net (held incoming earlier_held earlier_incoming : PositionSize) :
    result ExactArithmeticError PositionSize :=
  net ← step_net held incoming;
  earlier ← step_net earlier_held earlier_incoming;
  exact_add earlier net.

Definition check_for (settings : SpotFundsSettings) (account_id : AccountId) (step : ReservationStep)
    (earlier : option ReservationStep) : option Check_ :=
  (fun limit =>
     CheckPosition limit
       (match earlier with Some step => step_held step | None => sg_ZERO end)
       (match earlier with Some step => step_incoming step | None => sg_ZERO end)) <$>
    position_limit_for settings account_id (step_asset step).

Definition touches (step : ReservationStep) : bool :=
  negb (sg_is_zero (step_held step)) || negb (sg_is_zero (step_incoming step)).

Definition plan (settings : SpotFundsSettings) (account_id : AccountId)
    (steps : ReservationStep * ReservationStep) : option Check_ * option Check_ :=
  let '(s0, s1) := steps in
  if negb (bool_decide (step_asset s0 = step_asset s1)) then
    (check_for settings account_id s0 None, check_for settings account_id s1 None)
  else
    match touches s0, touches s1 with
    | false, false => (None, None)
    | true, false => (check_for settings account_id s0 None, None)
    | false, true => (None, check_for settings account_id s1 None)
    | true, true =>
        let final_check := check_for settings account_id s1 (Some s0) in
        let first_check :=
          _ ← final_check;
          match aggregate_net (step_held s1) (step_incoming s1) (step_held s0) (step_incoming s0) with
          | Ok net => if sg_is_zero net then None else Some FirstStepTransition
          | Err _ => Some FirstStepTransition
          end in
        (first_check, final_check)
    end.

Definition arithmetic_reject asset (stage : string) (error : ExactArithmeticError) :
    Rejects PolicyPreTradeResult :=
  let cause := match error with EA_Overflow => "overflow" | EA_Inexact => "inexact" end in
  rejects_from_reject
    (arithmetic_overflow_reject SPOT_FUNDS_POLICY_NAME RS_Order
       ("position-limit arithmetic failure: asset " +:+ Asset_fmt asset +:+ ", stage " +:+ stage +:+
        ", cause " +:+ cause)).

Definition or_arithmetic {T} asset (stage : string) (r : result ExactArithmeticError T) :
    result (Rejects PolicyPreTradeResult) T :=
  map_err (arithmetic_reject asset stage) r.

Definition verify_first_step_transition asset (current : Holdings) (held incoming : PositionSize) :
    result (Rejects PolicyPreTradeResult) unit :=
  or_arithmetic asset "first-step transition"
    (_ ← exact_sub (h_available current) held;
     _ ← exact_add (h_held current) held;
     _ ← exact_add (h_incoming current) incoming;
     Ok tt).

Definition position_limit_reject asset (side : string) (projected limit : PositionSize) :
    Rejects PolicyPreTradeResult :=
  rejects_from_reject
    (reject_new SPOT_FUNDS_POLICY_NAME RS_Order RC_PositionLimitExceeded "position limit exceeded"
       ("asset " +:+ Asset_fmt asset +:+ ", side " +:+ side +:+ ", projected worst-case position " +:+
        size_fmt projected +:+ ", limit " +:+ size_fmt limit)).

(** What the order would leave at worst: owned quantity, what is open on the side of
    its net flow, and that flow. *)
Definition projected_position asset (current : Holdings) (earlier_held earlier_incoming net : PositionSize) :
    result (Rejects PolicyPreTradeResult) (string * PositionSize) :=
  available ← or_arithmetic asset "pre-order reconstruction" (exact_add (h_available current) earlier_held);
  held_before ← or_arithmetic asset "pre-order reconstruction" (exact_sub (h_held current) earlier_held);
  incoming_before ←
    or_arithmetic asset "pre-order reconstruction" (exact_sub (h_incoming current) earlier_incoming);
  owned ← or_arithmetic asset "pre-order reconstruction" (exact_add available held_before);
  if sg_gtb net sg_ZERO then
    projected ← or_arithmetic asset "projection"
                  (position ← exact_add owned (non_negative incoming_before); exact_add position net);
    Ok ("long", projected)
  else
    projected ← or_arithmetic asset "projection"
                  (position ← exact_sub owned (non_negative held_before); exact_add position net);
    Ok ("short", projected).

Definition verify (check : option Check_) asset (current : Holdings) (held incoming : PositionSize) :
    result (Rejects PolicyPreTradeResult) unit :=
  match check with
  | None => Ok tt
  | Some FirstStepTransition => verify_first_step_transition asset current held incoming
  | Some (CheckPosition limit earlier_held earlier_incoming) =>
      net ← or_arithmetic asset "net" (aggregate_net held incoming earlier_held earlier_incoming);
      if sg_is_zero net then Ok tt
      else
        '(side, projected) ← projected_position asset current earlier_held earlier_incoming net;
        let limit := quantity_to_position_size limit in
        let exceeded :=
          if sg_gtb net sg_ZERO then sg_gtb projected limit else sg_ltb projected (neg limit) in
        if exceeded then Err (position_limit_reject asset side projected limit) else Ok tt
  end.

(** ** Lock prices *)

Definition optional_lock_price (policy : string) (lock : PreTradeLock) (group_id : PolicyGroupId)
    (purpose : string) : result AccountBlock (option Price) :=
  match prices_of lock group_id with
  | [p] => Ok (Some p)
  | [] => Ok None
  | _ => Err (account_block_new policy RC_Other
                ("pre-trade lock has multiple prices for " +:+ purpose +:+
                 "; two SpotFundsPolicies share a group_id")
                ("group " +:+ pretty (policy_group_value group_id)))
  end.

Definition single_lock_price (policy : string) (lock : PreTradeLock) (group_id : PolicyGroupId)
    (purpose : string) : result AccountBlock Price :=
  p ← optional_lock_price policy lock group_id purpose;
  ok_or p (account_block_new policy RC_MissingRequiredField
             ("pre-trade lock has no price for " +:+ purpose) ("group " +:+ pretty (policy_group_value group_id))).

Definition settlement_lock_price (policy : string) (lock : PreTradeLock) (group_id : PolicyGroupId)
    (purpose : string) : result AccountBlock (option Price) :=
  p ← single_lock_price policy lock group_id purpose; Ok (Some p).

Definition lock_notional (policy what : string) (price : Price) (quantity : Quantity) (settlement_asset : Asset) :
    result AccountBlock PositionSize :=
  map_err (fun _ =>
      arithmetic_overflow_account_block policy
        (what +:+ " overflow: asset " +:+ Asset_fmt settlement_asset +:+ ", lock_px " +:+ sg_fmt price +:+
         ", qty " +:+ nn_fmt quantity))
    (price_calculate_position_size price quantity).

Definition settlement_reserved_amount (policy : string) (side : Side) (lock_price : option Price)
    (quantity : Quantity) (settlement_asset : Asset) : result AccountBlock PositionSize :=
  match lock_price with
  | None => Ok sg_ZERO
  | Some price =>
      notional ← lock_notional policy "settlement notional" price quantity settlement_asset;
      Ok (non_negative (match side with Buy => notional | Sell => neg notional end))
  end.

Definition settlement_incoming_proceeds (policy : string) (side : Side) (lock_price : option Price)
    (quantity : Quantity) (settlement_asset : Asset) : result AccountBlock PositionSize :=
  match side, lock_price with
  | Sell, Some price =>
      notional ← lock_notional policy "settlement proceeds" price quantity settlement_asset;
      Ok (non_negative notional)
  | _, _ => Ok sg_ZERO
  end.

End Parts.
