(* ===== verification/SpotFunds.v ===== *)
(** * SpotFunds: the state of the spot funds policy, its P&L ledger and valuations

    src/crates/openpit/src/pretrade/policies/spot_funds: mod.rs, unrealized.rs,
    retirement.rs and the accounting half of execution.rs.  The stores the policy
    shares behind its handles are one record inside the world of the engine's
    policies.  Taking the account P&L lease may have to wait for another thread:
    [LeaseWaits] is what the other threads do meanwhile. *)
From S2P Require Import Prelude.
From S2P Require Import Decimal.
From S2P Require Import Param.
From S2P Require Import ParamTypes.
From S2P Require Import Identifiers.
From S2P Require Import Mutation.
From S2P Require Import Reject.
From S2P Require Import AccountControl.
From S2P Require Import Accounts.
From S2P Require Import Lock.
From S2P Require Import Policy.
From S2P Require Import Storage.
From S2P Require Import Holdings.
From S2P Require Import HoldingsStore.
From S2P Require Import Instruments.
From S2P Require Import MarketData.
From S2P Require Import PnlBounds.
From S2P Require Import SpotFundsSettings.
From S2P Require Import SpotFundsParts.
From stdpp Require Import sorting.
Open Scope Z_scope.

(** ** State *)

Record AccountPnlLease : Set := mkPnlLease { lease_owner_id : Z; lease_depth : nat }.
Abbreviation LeaseTable := (gmap AccountId (option AccountPnlLease)).
Abbreviation ActiveTable := (gmap AccountId Z).

Section State.
Context {D : DecimalOps}.

Record AccountPnlEntry : Type := mkPnlEntry {
  pe_state : PnlState;
  pe_assertion_token : option Z
}.

Definition pnl_entry_zero : AccountPnlEntry := mkPnlEntry (PnlValue sg_ZERO) None.

Abbreviation PnlTable := (gmap AccountId AccountPnlEntry).

Record SpotFundsState : Type := mkSpotFunds {
  sf_holdings : HoldingsStore;
  sf_settings : SpotFundsSettings;
  sf_pnl : PnlTable;
  sf_active : ActiveTable;
  sf_leases : LeaseTable
}.

Definition spot_funds_new (settings : SpotFundsSettings) : SpotFundsState :=
  mkSpotFunds store_new settings ∅ ∅ ∅.

Definition set_holdings (s : SpotFundsState) (h : HoldingsStore) : SpotFundsState :=
  mkSpotFunds h (sf_settings s) (sf_pnl s) (sf_active s) (sf_leases s).
Definition set_settings (s : SpotFundsState) (x : SpotFundsSettings) : SpotFundsState :=
  mkSpotFunds (sf_holdings s) x (sf_pnl s) (sf_active s) (sf_leases s).
Definition set_pnl_table (s : SpotFundsState) (p : PnlTable) : SpotFundsState :=
  mkSpotFunds (sf_holdings s) (sf_settings s) p (sf_active s) (sf_leases s).
Definition set_active (s : SpotFundsState) (a : ActiveTable) : SpotFundsState :=
  mkSpotFunds (sf_holdings s) (sf_settings s) (sf_pnl s) a (sf_leases s).
Definition set_leases (s : SpotFundsState) (l : LeaseTable) : SpotFundsState :=
  mkSpotFunds (sf_holdings s) (sf_settings s) (sf_pnl s) (sf_active s) l.

(** [ActiveHoldingsMutationGuard]: taken, and dropped. *)
Definition begin_holdings_mutation (s : SpotFundsState) (account_id : AccountId) : SpotFundsState :=
  set_active s (with_mut (sf_active s) account_id 0 (fun count _ => (tt, saturating_add count 1))).2.

Definition end_holdings_mutation (s : SpotFundsState) (account_id : AccountId) : SpotFundsState :=
  let active := (with_mut_if_present (sf_active s) account_id (fun count => (tt, saturating_sub count 1))).2 in
  set_active s (storage_remove_if active account_id (fun count => count =? 0)).2.

(** One attempt of [acquire_account_pnl_lease]; re-entrant for the same owner. *)
Definition try_acquire_lease (leases : LeaseTable) (account_id : AccountId) (owner_id : Z) : bool * LeaseTable :=
  with_mut leases account_id None (fun lease _ =>
    match lease with
    | Some existing =>
        if lease_owner_id existing =? owner_id
        then (true, Some (mkPnlLease (lease_owner_id existing) (S (lease_depth existing))))
        else (false, Some existing)
    | None => (true, Some (mkPnlLease owner_id 1))
    end).

Definition release_account_pnl_lease (leases : LeaseTable) (account_id : AccountId) (owner_id : Z) : LeaseTable :=
  (with_mut_if_present leases account_id (fun lease =>
     (tt, match lease with
          | Some existing =>
              if lease_owner_id existing =? owner_id then
                if Nat.eqb (lease_depth existing) 1 then None
                else Some (mkPnlLease (lease_owner_id existing) (pred (lease_depth existing)))
              else Some existing
          | None => None
          end))).2.

Definition lease_available (leases : LeaseTable) (account_id : AccountId) (owner_id : Z) : bool :=
  match leases !! account_id with
  | Some (Some existing) => lease_owner_id existing =? owner_id
  | _ => true
  end.

(** ** Slots *)

(** [mutate_slot]; the closure may also report what it computed. *)
Definition mutate_slot {E X} (store : HoldingsStore) (key : SlotKey) (mutation : Holdings -> result E (X * Holdings)) :
    result E (X * Holdings) * HoldingsStore :=
  let '(r, store) :=
    store_with_mut_or_insert_prune_new_if_zero store key holdings_zero (fun slot is_new =>
      match mutation slot with
      | Ok (x, new) => (Ok (x, new, is_new), new)
      | Err e => (Err e, slot)
      end) in
  match r with
  | Ok (x, new, was_new) =>
      (Ok (x, new),
       if holdings_is_zero new && negb was_new then (store_remove_if_zero store key).2 else store)
  | Err e => (Err e, store)
  end.

(** ** Arithmetic of the P&L *)

Definition trade_price_with_factor (price : Price) (factor : Dec) : result PnlHaltReason Price :=
  p ← ok_or (dec_mul (sg_to_decimal price) factor) ArithmeticOverflow; Ok (sg_new p).

Definition owned_quantity (holdings : Holdings) : result PnlHaltReason PositionSize :=
  map_err (fun _ => ArithmeticOverflow) (sg_checked_add (h_available holdings) (h_held holdings)).

Definition position_pnl_realizing_owned (holdings : Holdings) (signed_quantity : PositionSize) :
    result PnlHaltReason (option PositionSize) :=
  owned ← owned_quantity holdings;
  let o := sg_to_decimal owned in
  let q := sg_to_decimal signed_quantity in
  Ok (if negb (dec_eqb o dec_zero) && negb (dec_eqb q dec_zero) && negb (same_direction o q)
      then Some owned else None).

Definition pnl_halt_reason_priority (reason : PnlHaltReason) : Z :=
  match reason with
  | ArithmeticOverflow => 0
  | MissingAccountCurrency => 1
  | MissingFx => 2
  | MissingCostBasis => 3
  | MissingInitialPnl => 4
  end.

Definition select_pnl_halt_reason (halt_reason : option PnlHaltReason) (candidate : PnlHaltReason) :
    option PnlHaltReason :=
  match halt_reason with
  | Some current =>
      if pnl_halt_reason_priority candidate <? pnl_halt_reason_priority current then Some candidate
      else Some current
  | None => Some candidate
  end.

Definition account_position_pnl_contribution (holdings : Holdings) (signed_quantity : PositionSize)
    (price : option Price) : result PnlHaltReason (option Pnl) :=
  owned ← position_pnl_realizing_owned holdings signed_quantity;
  match owned with
  | None => Ok None
  | Some owned =>
      price ← ok_or price MissingFx;
      let owned := sg_to_decimal owned in
      let q := sg_to_decimal signed_quantity in
      average_entry_price ← ok_or (h_avg_entry_price holdings) MissingCostBasis;
      let closing_quantity := if dec_leb (dec_abs q) (dec_abs owned) then dec_neg q else owned in
      price_difference ←
        ok_or (dec_sub (sg_to_decimal price) (sg_to_decimal average_entry_price)) ArithmeticOverflow;
      realized ← ok_or (dec_mul price_difference closing_quantity) ArithmeticOverflow;
      Ok (Some (sg_new realized))
  end.

(** One round of the loop of [sum_pnl_states]. *)
Definition sum_pnl_step (acc : Pnl * option PnlHaltReason) (state : PnlState) : Pnl * option PnlHaltReason :=
  let '(sum, halt_reason) := acc in
  match state with
  | PnlValue value =>
      match sg_checked_add sum value with
      | Ok value => (value, halt_reason)
      | Err _ => (sum, select_pnl_halt_reason halt_reason ArithmeticOverflow)
      end
  | PnlHalted reason => (sum, select_pnl_halt_reason halt_reason reason)
  end.

Definition sum_pnl_states (states : list PnlState) : PnlState :=
  let '(sum, halt_reason) := foldl sum_pnl_step (sg_ZERO, None) states in
  match halt_reason with Some reason => PnlHalted reason | None => PnlValue sum end.

End State.
Arguments AccountPnlEntry {D}.
Arguments SpotFundsState {D}.

(** ** The policy's surroundings *)

(** [market_orders] says whether a market-data handle was supplied. *)
Record SpotFundsPolicy : Set := mkSpotFundsPolicy {
  sp_market_orders : bool;
  sp_group_id : PolicyGroupId
}.

Definition sp_with_policy_group_id (self : SpotFundsPolicy) (id : PolicyGroupId) : SpotFundsPolicy :=
  mkSpotFundsPolicy (sp_market_orders self) id.

(** [SpotFundsMarketData]: what the handle answers.  One hook sees one instant. *)
Class MarketDataSource {D : DecimalOps} (W : Type) : Type := {
  md_resolve : W -> Instrument -> option InstrumentId;
  md_get : W -> InstrumentId -> AccountId -> option AccountGroupId -> QuoteResolution ->
           result MarketDataError Quote
}.

(** The service of [MarketData] is such a source. *)
#[export] Instance service_source {D : DecimalOps} {W} {O : Owns W MarketDataService} {C : Owns W Z} :
  MarketDataSource W := {|
  md_resolve w := resolve (own_get (S:=MarketDataService) w);
  md_get w id account group :=
    get (own_get (S:=MarketDataService) w) (own_get (S:=Z) w) id account (account_info_of_option group)
|}.

(** What the other threads do until the lease of the account can be taken. *)
Class LeaseWaits (W : Type) : Type := lease_wait : AccountId -> Z -> EngineState W -> EngineState W.

(** The order of assets: that of their UTF-8 text, which is that of the scalars. *)
Fixpoint str_leb (a b : list Z) : bool :=
  match a, b with
  | [], _ => true
  | _ :: _, [] => false
  | x :: a, y :: b => (x <? y) || ((x =? y) && str_leb a b)
  end.
Definition asset_le (a b : Asset) : Prop := str_leb (asset_str a) (asset_str b) = true.
#[export] Instance asset_le_dec : RelDecision asset_le.
Proof. intros a b. unfold asset_le. apply _. Defined.
Definition assets_in_order (s : gset Asset) : list Asset := merge_sort asset_le (elements s).

Section Ledger.
Context {D : DecimalOps} {F : DecimalFormat} {G : DecimalDebug} {W : Type}.
Context {O : Owns W SpotFundsState} {M : MarketDataSource W} {L : LeaseWaits W}.
Implicit Types (self : SpotFundsPolicy) (account_id : AccountId).

Abbreviation St := (EngineState W).

Definition sf_of (st : St) : SpotFundsState := own_get (es_world st).
Definition sf_put (st : St) (s : SpotFundsState) : St := with_world st (own_set s (es_world st)).
Definition sf_modify (f : SpotFundsState -> SpotFundsState) (st : St) : St := sf_put st (f (sf_of st)).

(** [next_mutation_owner_id] on the engine's counter. *)
Definition next_owner (st : St) : Z * St :=
  let '(id, counter) := default (0, es_next_owner st) (next_mutation_owner_id 2 (es_next_owner st)) in
  (id, mkEngineState (es_world st) (es_accounts st) counter (es_start_now st)).

(** A failed attempt leaves the thread waiting; the attempt after the wait takes
    the lease. *)
Definition acquire_account_pnl_lease account_id (owner_id : Z) (st : St) : St :=
  let '(acquired, leases) := try_acquire_lease (sf_leases (sf_of st)) account_id owner_id in
  let st := sf_modify (fun s => set_leases s leases) st in
  if acquired then st
  else
    let st := lease_wait account_id owner_id st in
    sf_modify (fun s => set_leases s (try_acquire_lease (sf_leases s) account_id owner_id).2) st.

(** The guard of the lease, dropped. *)
Definition drop_account_pnl_lease account_id (owner_id : Z) (st : St) : St :=
  sf_modify (fun s => set_leases s (release_account_pnl_lease (sf_leases s) account_id owner_id)) st.

Definition pnl_with_mut {X} account_id (f : AccountPnlEntry -> bool -> X * AccountPnlEntry) (st : St) : X * St :=
  let '(x, pnl) := with_mut (sf_pnl (sf_of st)) account_id pnl_entry_zero f in
  (x, sf_modify (fun s => set_pnl_table s pnl) st).

Definition account_pnl_state (s : SpotFundsState) account_id : PnlState :=
  default (PnlValue sg_ZERO) (pe_state <$> (sf_pnl s !! account_id)).

(** Acquires a lease for one step of the ledger and drops it again. *)
Definition with_pnl_lease {X} account_id (f : St -> X * St) (st : St) : X * St :=
  let '(owner_id, st) := next_owner st in
  let st := acquire_account_pnl_lease account_id owner_id st in
  let '(x, st) := f st in
  (x, drop_account_pnl_lease account_id owner_id st).

Definition set_account_pnl_state account_id (state : PnlState) (st : St) : option PnlState * St :=
  with_pnl_lease account_id
    (pnl_with_mut account_id (fun entry is_new =>
       (if is_new : bool then None else Some (pe_state entry), mkPnlEntry state None))) st.

Definition halt_account_pnl account_id (reason : PnlHaltReason) (st : St) : (PnlHaltReason * bool) * St :=
  with_pnl_lease account_id
    (pnl_with_mut account_id (fun entry _ =>
       match pe_state entry with
       | PnlValue _ => ((reason, true), mkPnlEntry (PnlHalted reason) None)
       | PnlHalted existing => ((existing, false), entry)
       end)) st.

(** The two attempts of [update_account_pnl]: the first answers [None] when the
    sum overflows. *)
Definition update_first (delta : Pnl) (entry : AccountPnlEntry) :
    option (option PnlOutcome * PnlState * option Z) * AccountPnlEntry :=
  match pe_state entry with
  | PnlHalted reason => (Some (None, PnlHalted reason, pe_assertion_token entry), entry)
  | PnlValue previous =>
      match sg_checked_add previous delta with
      | Ok updated =>
          (Some (Some (Ok (mkPnlOutcomeAmount delta updated)), PnlValue updated, pe_assertion_token entry),
           mkPnlEntry (PnlValue updated) (pe_assertion_token entry))
      | Err _ => (None, entry)
      end
  end.

Definition update_second (delta : Pnl) (entry : AccountPnlEntry) :
    (option PnlOutcome * PnlState * option Z) * AccountPnlEntry :=
  match pe_state entry with
  | PnlHalted reason => ((None, PnlHalted reason, None), entry)
  | PnlValue previous =>
      match sg_checked_add previous delta with
      | Ok updated =>
          ((Some (Ok (mkPnlOutcomeAmount delta updated)), PnlValue updated, None),
           mkPnlEntry (PnlValue updated) (pe_assertion_token entry))
      | Err _ =>
          ((Some (Err ArithmeticOverflow), PnlHalted ArithmeticOverflow, None),
           mkPnlEntry (PnlHalted ArithmeticOverflow) None)
      end
  end.

Definition update_account_pnl account_id (delta : Pnl) (st : St) :
    (option PnlOutcome * PnlState * option Z) * St :=
  let '(first_attempt, st) := pnl_with_mut account_id (fun entry _ => update_first delta entry) st in
  match first_attempt with
  | Some result => (result, st)
  | None => with_pnl_lease account_id (pnl_with_mut account_id (fun entry _ => update_second delta entry)) st
  end.

Definition apply_account_pnl_delta account_id (account_currency : option Asset)
    (barrier : option SpotFundsPnlBoundsBarrier) (delta : Pnl) (st : St) :
    (option PnlOutcome * option AccountBlock) * St :=
  let '((result, state, provenance), st) := update_account_pnl account_id delta st in
  let block :=
    barrier ← barrier;
    account_pnl_block_for_state account_currency state barrier provenance in
  ((result, block), st).

(** ** Market data *)

Definition accounting_quote self account_id (account_group : option AccountGroupId) (instrument : Instrument)
    (w : W) : option Quote :=
  if sp_market_orders self then
    instrument_id ← md_resolve w instrument;
    match md_get w instrument_id account_id account_group AccountThenGroupThenDefault with
    | Ok quote | Err (QuoteExpired quote) => Some quote
    | Err (QuoteUnavailable | UnknownInstrument) => None
    end
  else None.

Definition account_currency_factor self account_id (account_group : option AccountGroupId)
    (source_asset account_currency : Asset) (w : W) : option Dec :=
  if bool_decide (source_asset = account_currency) then Some (dec_of_int 1)
  else
    match accounting_quote self account_id account_group (mkInstrument source_asset account_currency) w ≫=
          quote_mark with
    | Some mark => Some (sg_to_decimal mark)
    | None =>
        match accounting_quote self account_id account_group (mkInstrument account_currency source_asset) w ≫=
              quote_mark with
        | Some mark =>
            if dec_eqb (sg_to_decimal mark) dec_zero then Some dec_zero
            else dec_div (dec_of_int 1) (sg_to_decimal mark)
        | None => None
        end
    end.

Definition account_currency_price self account_id (account_group : option AccountGroupId)
    (quote_asset account_currency : Asset) (trade_price : Price) (w : W) :
    result PnlHaltReason (option Price) :=
  match account_currency_factor self account_id account_group quote_asset account_currency w with
  | None => Ok None
  | Some factor => Some <$> trade_price_with_factor trade_price factor
  end.

Definition fee_pnl_delta self account_id (account_group : option AccountGroupId) (fee : MonetaryAmount)
    (account_currency : Asset) (w : W) : result PnlHaltReason (option Pnl) :=
  match account_currency_factor self account_id account_group (ma_currency fee) account_currency w with
  | None => Ok None
  | Some factor =>
      value ← ok_or (dec_mul (sg_to_decimal (fee_to_pnl (ma_amount fee))) factor) ArithmeticOverflow;
      Ok (Some (sg_new value))
  end.

Definition fee_account_pnl_delta self account_id (account_group : option AccountGroupId) (fee : MonetaryAmount)
    (account_currency : Asset) (w : W) : result PnlHaltReason Pnl :=
  if sg_is_zero (ma_amount fee) then Ok sg_ZERO
  else
    delta ← fee_pnl_delta self account_id account_group fee account_currency w;
    ok_or delta MissingFx.

(** ** unrealized.rs *)

Definition position_unrealized self account_id (account_group : option AccountGroupId)
    (account_currency : option Asset) (asset : Asset) (holdings : Holdings) (w : W) : PnlState :=
  let unrealized :=
    owned ← owned_quantity holdings;
    let price : option Price :=
      currency ← account_currency;
      sg_new <$> account_currency_factor self account_id account_group asset currency w in
    let contribution :=
      account_position_pnl_contribution holdings (sg_new (dec_neg (sg_to_decimal owned))) price in
    match account_currency, contribution with
    | None, Err reason =>
        match select_pnl_halt_reason (Some reason) MissingAccountCurrency with
        | Some reason => Err reason
        | None => contribution
        end
    | None, Ok (Some _) =>
        match select_pnl_halt_reason None MissingAccountCurrency with
        | Some reason => Err reason
        | None => contribution
        end
    | _, _ => contribution
    end in
  match unrealized with
  | Ok (Some value) => PnlValue value
  | Ok None => PnlValue sg_ZERO
  | Err reason => PnlHalted reason
  end.

Definition position_realized (holdings : Holdings) : PnlState :=
  match h_realized_pnl holdings with
  | Some (StatePnl value) => PnlValue value
  | Some (StateHalted reason) => PnlHalted reason
  | None => PnlValue sg_ZERO
  end.

(** The positions an account has: unrealized and total P&L of each. *)
Definition account_positions self account_id (account_group : option AccountGroupId)
    (account_currency : option Asset) (s : SpotFundsState) (w : W) : list (Asset * PnlState * PnlState) :=
  match account_assets (sf_holdings s) account_id with
  | None => []
  | Some assets =>
      omap (fun asset =>
              holdings ← store_get (sf_holdings s) (account_id, asset);
              if is_none (h_avg_entry_price holdings) && negb (realized_pnl_is_halted holdings) then None
              else
                let unrealized := position_unrealized self account_id account_group account_currency asset holdings w in
                Some (asset, unrealized, sum_pnl_states [position_realized holdings; unrealized]))
        (assets_in_order assets)
  end.

(** The first position outside the barrier. *)
Fixpoint position_axis_block (axis : SpotFundsPnlBoundsAxis) (barrier : SpotFundsPnlBoundsBarrier)
    (positions : list (Asset * PnlState * PnlState)) : option AccountBlock :=
  match positions with
  | [] => None
  | (asset, unrealized, total) :: positions =>
      let state := if decide (axis = PositionUnrealized) then unrealized else total in
      match pnl_axis_block_for_state axis (Some asset) state barrier with
      | Some block => Some block
      | None => position_axis_block axis barrier positions
      end
  end.

Definition axis_block (account_currency : option Asset) (carry : bool) (assertion_token : option Z)
    (positions : list (Asset * PnlState * PnlState)) (account_unrealized account_total : PnlState)
    (axis : SpotFundsPnlBoundsAxis) (barrier : SpotFundsPnlBoundsBarrier) : option AccountBlock :=
  match pnl_axis_currency_mismatch_block axis account_currency barrier with
  | Some block => Some block
  | None =>
      match axis with
      | AccountUnrealized => pnl_axis_block_for_state axis None account_unrealized barrier
      | AccountTotal =>
          (fun block => if carry then block_with_provenance block assertion_token else block) <$>
            pnl_axis_block_for_state axis None account_total barrier
      | PositionUnrealized | PositionTotal => position_axis_block axis barrier positions
      end
  end.

Fixpoint first_axis_block (f : SpotFundsPnlBoundsAxis -> SpotFundsPnlBoundsBarrier -> option AccountBlock)
    (axes : list (SpotFundsPnlBoundsAxis * option SpotFundsPnlBoundsBarrier)) : option AccountBlock :=
  match axes with
  | [] => None
  | (_, None) :: axes => first_axis_block f axes
  | (axis, Some barrier) :: axes =>
      match f axis barrier with Some block => Some block | None => first_axis_block f axes end
  end.

Definition pnl_axis_block_for_barriers self (barriers : SpotFundsPnlBoundsAxis -> option SpotFundsPnlBoundsBarrier)
    account_id (account_group : option AccountGroupId) (account_currency : option Asset) (carry : bool)
    (st : St) : option AccountBlock :=
  let s := sf_of st in
  if forallb (fun axis => is_none (barriers axis)) ALL_AXES then None
  else
    let positions := account_positions self account_id account_group account_currency s (es_world st) in
    let account_unrealized := sum_pnl_states ((fun '(_, value, _) => value) <$> positions) in
    let entry := default pnl_entry_zero (sf_pnl s !! account_id) in
    let account_total := sum_pnl_states [pe_state entry; account_unrealized] in
    first_axis_block
      (axis_block account_currency carry (pe_assertion_token entry) positions account_unrealized account_total)
      ((fun axis => (axis, barriers axis)) <$> ALL_AXES).

Definition pnl_axis_block self (settings : SpotFundsSettings) account_id (account_group : option AccountGroupId)
    (account_currency : option Asset) (carry : bool) (st : St) : option AccountBlock :=
  pnl_axis_block_for_barriers self
    (fun axis => barrier_for (pnl_axis_barriers settings axis) account_id account_group account_currency)
    account_id account_group account_currency carry st.

(** ** Configuration *)

Definition pnl_bounds_kill_switch (global : option SpotFundsPnlBoundsBarrier)
    (groups : list SpotFundsPnlBoundsAccountGroupBarrier) (accounts : list SpotFundsPnlBoundsAccountBarrier)
    (market_orders : bool) : result SpotFundsConfigError (SpotFundsPolicy * SpotFundsState) :=
  settings ← settings_new 0 Mark [];
  let settings := set_global_limit_mode settings TrackOnly in
  settings ← with_pnl_barriers settings global groups accounts;
  Ok (mkSpotFundsPolicy market_orders DEFAULT_POLICY_GROUP_ID, spot_funds_new settings).

Definition pnl_keys (s : SpotFundsState) : list AccountId := storage_keys (sf_pnl s).
Definition holdings_accounts (s : SpotFundsState) : list AccountId := (store_keys (sf_holdings s)).*1.

Definition account_pnl_barrier_change_blocks (s : SpotFundsState) (previous current : SpotFundsSettings)
    (memberships : list (AccountId * AccountGroupId)) (known_accounts : list AccountId)
    (resolve_account_currency : AccountId -> option AccountGroupId -> option Asset) :
    list (AccountId * AccountBlock) :=
  omap (fun '(account_id, _, account_currency, current_barrier) =>
          let entry := default pnl_entry_zero (sf_pnl s !! account_id) in
          block ← account_pnl_block_for_state account_currency (pe_state entry) current_barrier
                    (pe_assertion_token entry);
          Some (account_id, block))
    (changed_barriers (pnl_barriers current) (pnl_barriers previous) (pnl_keys s) (holdings_accounts s)
       memberships known_accounts resolve_account_currency).

(** One account's entry of [pnl_axis_barrier_changes]. *)
Record AxisChange : Type := mkAxisChange {
  ax_group : option AccountGroupId;
  ax_currency : option Asset;
  ax_barriers : SpotFundsPnlBoundsAxis -> option SpotFundsPnlBoundsBarrier
}.

Definition note_axis_change (realized_blocks : gset AccountId) (axis : SpotFundsPnlBoundsAxis)
    (changes : gmap AccountId AxisChange)
    (change : AccountId * option AccountGroupId * option Asset * SpotFundsPnlBoundsBarrier) :
    gmap AccountId AxisChange :=
  let '(account, group, currency, barrier) := change in
  if decide (account ∈ realized_blocks) then changes
  else
    let entry := default (mkAxisChange group currency (fun _ => None)) (changes !! account) in
    <[account := mkAxisChange (ax_group entry) (ax_currency entry)
                   (fun x => if decide (x = axis) then Some barrier else ax_barriers entry x)]> changes.

Definition pnl_axis_barrier_changes (s : SpotFundsState) (previous current : SpotFundsSettings)
    (memberships : list (AccountId * AccountGroupId)) (known_accounts : list AccountId)
    (resolve_account_currency : AccountId -> option AccountGroupId -> option Asset)
    (realized_blocks : gset AccountId) : gmap AccountId AxisChange :=
  foldl (fun changes axis =>
           foldl (note_axis_change realized_blocks axis) changes
             (changed_barriers (pnl_axis_barriers current axis) (pnl_axis_barriers previous axis) (pnl_keys s)
                (holdings_accounts s) memberships known_accounts resolve_account_currency))
    ∅ ALL_AXES.

Definition account_pnl_membership_change_block (s : SpotFundsState) (settings : SpotFundsSettings) account_id
    (previous_group current_group : option AccountGroupId) (previous_currency current_currency : option Asset) :
    option AccountBlock :=
  let previous := pnl_barrier_for settings account_id previous_group previous_currency in
  let current := pnl_barrier_for settings account_id current_group current_currency in
  let mismatches (barrier : option SpotFundsPnlBoundsBarrier) (currency_ : option Asset) :=
    match barrier, currency_ with
    | Some barrier, Some c => negb (bool_decide (currency barrier = c))
    | _, _ => false
    end in
  if opt_eqb barrier_eqb previous current &&
     eqb (mismatches previous previous_currency) (mismatches current current_currency) then None
  else
    current ← current;
    let entry := default pnl_entry_zero (sf_pnl s !! account_id) in
    account_pnl_block_for_state current_currency (pe_state entry) current (pe_assertion_token entry).

Inductive PolicyRuntimeConfiguration : Type :=
| CheckSpotFundsPnlAxes (account_id : AccountId) (account_group_id : option AccountGroupId)
    (account_currency : option Asset) (barriers : SpotFundsPnlBoundsAxis -> option SpotFundsPnlBoundsBarrier)
| SetSpotFundsAccountPnl (account_id : AccountId) (account_group_id : option AccountGroupId)
    (account_currency : option Asset) (state : PnlState).

(** [PolicyConfigurationResult] is its list of blocks. *)
Definition apply_runtime_configuration self (configuration : PolicyRuntimeConfiguration) (st : St) :
    list AccountBlock * St :=
  match configuration with
  | CheckSpotFundsPnlAxes account_id group currency barriers =>
      (option_list (pnl_axis_block_for_barriers self barriers account_id group currency true st), st)
  | SetSpotFundsAccountPnl account_id group currency state =>
      let '(_, st) := set_account_pnl_state account_id state st in
      let settings := sf_settings (sf_of st) in
      (option_list (or_else
         (barrier ← pnl_barrier_for settings account_id group currency;
          account_pnl_block_for_state currency state barrier None)
         (pnl_axis_block self settings account_id group currency false st)), st)
  end.

(** ** retirement.rs *)

Definition is_zero_state (state : PnlState) : bool :=
  match state with PnlValue v => sg_eqb v sg_ZERO | PnlHalted _ => false end.

Definition retire_slot (key : SlotKey) (st : St) : bool * St :=
  let '(removed, store) := store_remove_if (sf_holdings (sf_of st)) key is_retirable in
  (removed, sf_modify (fun s => set_holdings s store) st).

Definition retire_pnl account_id (st : St) : bool * St :=
  let '(removed, pnl) :=
    storage_remove_if (sf_pnl (sf_of st)) account_id (fun entry =>
      is_zero_state (pe_state entry) && is_none (pe_assertion_token entry)) in
  (removed, sf_modify (fun s => set_pnl_table s pnl) st).

Definition quiet_rollback (st : St) : MutationRollbackResult * St := (rollback_default, st).

Definition slots_of (s : SpotFundsState) account_id : list SlotKey :=
  filter (fun key => key.1 = account_id) (store_keys (sf_holdings s)).

Definition operation_in_progress (s : SpotFundsState) account_id : bool :=
  match sf_active s !! account_id with Some count => negb (count =? 0) | None => false end ||
  match sf_leases s !! account_id with Some (Some _) => true | _ => false end ||
  match sf_pnl s !! account_id with Some entry => is_some (pe_assertion_token entry) | None => false end.

Definition retire_account_state account_id (mutations : Mutations St) (st : St) :
    result AccountRetirementRefusal unit * Mutations St * St :=
  let s := sf_of st in
  if operation_in_progress s account_id then (Err OperationInProgress, mutations, st)
  else if match sf_pnl s !! account_id with Some entry => negb (is_zero_state (pe_state entry)) | None => false end
  then (Err NonZeroState, mutations, st)
  else
    let holdings_keys := slots_of s account_id in
    if existsb (fun key => match store_get (sf_holdings s) key with
                           | Some holdings => negb (is_retirable holdings)
                           | None => false
                           end) holdings_keys
    then (Err NonZeroState, mutations, st)
    else if references_account (sf_settings s) account_id
    then (Err ConfigurationReferencesAccount, mutations, st)
    else
      let mutations :=
        foldl (fun ms key => mutations_push ms (new_reporting (retire_slot key) quiet_rollback))
          mutations holdings_keys in
      let mutations :=
        if is_some (sf_pnl s !! account_id)
        then mutations_push mutations (new_reporting (retire_pnl account_id) quiet_rollback)
        else mutations in
      (Ok tt,
       mutations_push mutations
         (mutation_new
            (sf_modify (fun s => set_leases s (storage_remove (sf_leases s) account_id).2)) (fun st => st)),
       st).

End Ledger.
