(* ===== verification/SpotFundsReservation.v ===== *)
(** * SpotFundsReservation: reserving funds before an order is sent

    src/crates/openpit/src/pretrade/policies/spot_funds/pre_trade.rs, with the
    rollback of a hold from rollback.rs: pricing, the reserved legs, the ledger's
    kill switch, holds under the funds limit mode and the position limit, and the
    dry run. *)
From S2P Require Import Prelude.
From S2P Require Import Decimal.
From S2P Require Import Param.
From S2P Require Import ParamTypes.
From S2P Require Import Identifiers.
From S2P Require Import Mutation.
From S2P Require Import Reject.
From S2P Require Import AccountControl.
From S2P Require Import Accounts.
From S2P Require Import Lock.
From S2P Require Import Policy.
From S2P Require Import Storage.
From S2P Require Import Holdings.
From S2P Require Import HoldingsStore.
From S2P Require Import Instruments.
From S2P Require Import MarketData.
From S2P Require Import PnlBounds.
From S2P Require Import SpotFundsSettings.
From S2P Require Import SpotFundsParts.
From S2P Require Import SpotFunds.
Open Scope Z_scope.

Section Reservation.
Context {D : DecimalOps} {F : DecimalFormat} {G : DecimalDebug} {W Order : Type}.
Context {HI : HasInstrument Order} {HS : HasSide Order} {HA : HasTradeAmount Order} {HP : HasOrderPrice Order}.
Context {O : Owns W SpotFundsState} {M : MarketDataSource W}.
Implicit Types (self : SpotFundsPolicy) (ctx : PreTradeContext) (s : HookState W).

Abbreviation St := (EngineState W).
Abbreviation PRejects := (Rejects PolicyPreTradeResult).

Record OrderRequestView : Type := mkOrderRequest {
  rq_instrument : Instrument;
  rq_account_id : AccountId;
  rq_side : Side;
  rq_trade_amount : TradeAmount;
  rq_price : option Price
}.

Definition order_required {T} (field : string) (r : result RequestFieldAccessError T) : result PRejects T :=
  map_err (fun e => rejects_from_reject (missing_required_field_reject SPOT_FUNDS_POLICY_NAME field e)) r.

Definition read_order_request ctx (order : Order) : result PRejects OrderRequestView :=
  instrument ← order_required "instrument" (instrument order);
  account_id ← order_required "account ID" (ptc_account ctx);
  side ← order_required "side" (side order);
  trade_amount ← order_required "trade amount" (trade_amount order);
  price ← order_required "price" (price order);
  Ok (mkOrderRequest instrument account_id side trade_amount price).

(** ** Pricing a market order *)

Definition reject_from_price_err (err : SpotFundsPriceError) : Reject :=
  match err with
  | PE_QuoteUnavailable =>
      reject_new SPOT_FUNDS_POLICY_NAME RS_Order RC_MarkPriceUnavailable "mark price unavailable" ""
  | PE_CalculationFailed =>
      reject_new SPOT_FUNDS_POLICY_NAME RS_Order RC_OrderValueCalculationFailed "price calculation failed" ""
  end.

Definition reject_market_orders_unsupported : Reject :=
  reject_new SPOT_FUNDS_POLICY_NAME RS_Order RC_UnsupportedOrderType "market orders not supported" "".

(** [SpotFundsMarketData::quote]. *)
Definition market_quote (w : W) (instrument_id : InstrumentId) (account_id : AccountId)
    (group : option AccountGroupId) : option Quote :=
  result_ok (md_get w instrument_id account_id group AccountThenGroupThenDefault).

Definition compute_with_md self (effective : Quote -> InstrumentId -> result SpotFundsPriceError Price)
    (instrument : Instrument) (account_id : AccountId) (group : option AccountGroupId) (w : W) :
    result Reject Price :=
  if sp_market_orders self then
    instrument_id ← ok_or (md_resolve w instrument) (reject_from_price_err PE_QuoteUnavailable);
    quote ← ok_or (market_quote w instrument_id account_id group) (reject_from_price_err PE_QuoteUnavailable);
    map_err reject_from_price_err (effective quote instrument_id)
  else Err reject_market_orders_unsupported.

Definition compute_buy_with_md self (settings : SpotFundsSettings) (instrument : Instrument)
    (account_id : AccountId) (group : option AccountGroupId) (w : W) : result Reject Price :=
  compute_with_md self (fun quote id => effective_buy_price settings quote id account_id group)
    instrument account_id group w.

Definition compute_sell_with_md self (settings : SpotFundsSettings) (instrument : Instrument)
    (account_id : AccountId) (group : option AccountGroupId) (w : W) : result Reject Price :=
  compute_with_md self (fun quote id => effective_sell_price settings quote id account_id group)
    instrument account_id group w.

(** ** The reserved legs *)

Definition unsizable : Reject :=
  order_value_calculation_failed_reject SPOT_FUNDS_POLICY_NAME
    "price or volume could not be used to evaluate order quantity".
Definition unvalued : Reject := order_value_calculation_failed_reject SPOT_FUNDS_POLICY_NAME "".

(** The quantity a volume buys at a price; zero in drop-copy when the price is. *)
Definition volume_quantity (drop_copy : bool) (v : Volume) (price : Price) : result Reject Quantity :=
  if sg_is_zero price then (if drop_copy then Ok nn_ZERO else Err unsizable)
  else map_err (fun _ => unsizable) (volume_calculate_quantity v price).

Definition buy_legs (drop_copy : bool) (amount : TradeAmount) (buy_price : Price) : result Reject ReservationLegs :=
  '(settlement_notional, base_incoming) ←
    match amount with
    | TA_Quantity q =>
        notional ← map_err (fun _ => unvalued) (price_calculate_position_size buy_price q);
        Ok (notional, quantity_to_position_size q)
    | TA_Volume v =>
        base_incoming ← quantity_to_position_size <$> volume_quantity drop_copy v buy_price;
        Ok (signed_volume v buy_price, base_incoming)
    end;
  Ok (mkLegs sg_ZERO (non_negative settlement_notional) base_incoming sg_ZERO (Some buy_price)).

Definition sell_legs (drop_copy : bool) (amount : TradeAmount) (sell_price : Price) : result Reject ReservationLegs :=
  quantity ←
    match amount with
    | TA_Quantity q => Ok q
    | TA_Volume v => volume_quantity drop_copy v sell_price
    end;
  notional ← map_err (fun _ => unvalued) (price_calculate_position_size sell_price quantity);
  Ok (mkLegs (quantity_to_position_size quantity) (non_negative (neg notional)) sg_ZERO (non_negative notional)
        (Some sell_price)).

Definition compute_reservation_legs self (request : OrderRequestView) (group : option AccountGroupId) ctx
    (settings : SpotFundsSettings) (w : W) : result Reject ReservationLegs :=
  match rq_side request with
  | Buy =>
      buy_price ←
        match rq_price request with
        | Some p => Ok p
        | None => compute_buy_with_md self settings (rq_instrument request) (rq_account_id request) group w
        end;
      buy_legs (is_drop_copy ctx) (rq_trade_amount request) buy_price
  | Sell =>
      sell_price ←
        match rq_price request with
        | Some p => Ok p
        | None => compute_sell_with_md self settings (rq_instrument request) (rq_account_id request) group w
        end;
      sell_legs (is_drop_copy ctx) (rq_trade_amount request) sell_price
  end.

(** ** The kill switch *)

Definition reject_halted_account_pnl self ctx (settings : SpotFundsSettings) (account_id : AccountId)
    (group : option AccountGroupId) s : result PRejects unit :=
  if negb (has_pnl_barrier_scope settings account_id group) &&
     negb (existsb (fun axis => has_scope (pnl_axis_barriers settings axis) account_id group) ALL_AXES)
  then Ok tt
  else
    let currency := account_currency ctx s group in
    let realized_block :=
      barrier ← pnl_barrier_for settings account_id group currency;
      account_pnl_block_for_state currency (account_pnl_state (sf_of s.2) account_id) barrier None in
    match realized_block with
    | Some block => Err (rejects_from_reject (reject_from_block block))
    | None =>
        match pnl_axis_block self settings account_id group currency false s.2 with
        | Some block => Err (rejects_from_reject (reject_from_block block))
        | None => Ok tt
        end
    end.

(** ** Holds *)

Definition incoming_overflow_reject (asset : Asset) (incoming_amount : PositionSize) : PRejects :=
  rejects_from_reject
    (arithmetic_overflow_reject SPOT_FUNDS_POLICY_NAME RS_Order
       ("pre-trade incoming overflow: asset " +:+ Asset_fmt asset +:+ ", requested " +:+ size_fmt incoming_amount)).

(** What one step makes of a slot. *)
Definition reserve_slot (asset : Asset) (held incoming : PositionSize) (limit_mode : SpotFundsLimitMode)
    (position_limit : option Check_) (current : Holdings) : result PRejects Holdings :=
  new ← (if sg_is_zero held then Ok current
         else map_err (fun err => reserve_hold_reject SPOT_FUNDS_POLICY_NAME err asset held)
                (hold_with_mode current held limit_mode));
  new ← map_err (fun _ => incoming_overflow_reject asset incoming) (reserve_incoming new incoming);
  _ ← verify position_limit asset current held incoming;
  Ok new.

Definition push_adjustment (outcome : PolicyPreTradeResult) (entry : AccountOutcomeEntry) : PolicyPreTradeResult :=
  mkPolicyPreTradeResult (ppr_account_adjustments outcome ++ [entry]) (ppr_lock_prices outcome).
Definition push_lock_price (outcome : PolicyPreTradeResult) (p : option Price) : PolicyPreTradeResult :=
  mkPolicyPreTradeResult (ppr_account_adjustments outcome) (ppr_lock_prices outcome ++ option_list p).

Definition reserve_asset_dry_run (store : HoldingsStore) (account_id : AccountId) (step : ReservationStep)
    (limit_mode : SpotFundsLimitMode) (position_limit : option Check_) (current : option Holdings)
    (outcome : PolicyPreTradeResult) : result PRejects (option Holdings * PolicyPreTradeResult) :=
  let '(mkStep asset held incoming) := step in
  if sg_is_zero held && sg_is_zero incoming then Ok (current, outcome)
  else
    let current :=
      match current with
      | Some current => current
      | None => default holdings_zero (store_get store (account_id, asset))
      end in
    new ← reserve_slot asset held incoming limit_mode position_limit current;
    Ok (Some new, push_adjustment outcome (reservation_outcome_entry asset held incoming new)).

(** The block a rollback records when it cannot be carried out. *)
Definition record_rollback_overflow (account_id : AccountId) (details : string) (st : St) : St :=
  set_blocked st
    (block_account (es_blocked st) account_id
       (account_block_new SPOT_FUNDS_POLICY_NAME RC_ArithmeticOverflow
          "rollback overflow: slot left inconsistent" details)).2.

(** What a rollback closure does to its slot: [undo] answers the restored slot,
    and on overflow the account is blocked and the slot kept. *)
Definition rollback_slot (key : SlotKey) (undo : Holdings -> result AdjustmentOverflowError Holdings)
    (details : Holdings -> string) (st : St) : St :=
  let '((became_zero, overflowed), store) :=
    store_with_mut (sf_holdings (sf_of st)) key holdings_zero (fun slot _ =>
      match undo slot with
      | Ok undone => ((holdings_is_zero undone, None), undone)
      | Err _ => ((holdings_is_zero slot, Some slot), slot)
      end) in
  let st := sf_modify (fun x => set_holdings x store) st in
  let st :=
    match overflowed with
    | Some slot => record_rollback_overflow key.1 (details slot) st
    | None => st
    end in
  if became_zero
  then sf_modify (fun x => set_holdings x (store_remove_if_zero (sf_holdings x) key).2) st
  else st.

Definition hold_rollback (key : SlotKey) (held incoming : PositionSize) (st : St) : St :=
  rollback_slot key (fun slot => apply_delta_rollback slot (neg held) held incoming)
    (fun slot => "hold rollback overflow: asset " +:+ Asset_fmt key.2 +:+ ", held " +:+ size_fmt held +:+
       ", incoming " +:+ size_fmt incoming +:+ ", slot " +:+ Holdings_debug slot) st.

Definition drop_holdings_guard (account_id : AccountId) (st : St) : St :=
  sf_modify (fun x => end_holdings_mutation x account_id) st.

(** The mutation [register_hold_rollback] pushes. *)
Definition hold_mutation (key : SlotKey) (held incoming : PositionSize) : Mutation St :=
  new_engine_owned_with_guard (fun st => st) (hold_rollback key held incoming) (drop_holdings_guard key.1).

Definition reserve_asset (account_id : AccountId) (step : ReservationStep) (limit_mode : SpotFundsLimitMode)
    (position_limit : option Check_) (outcome : PolicyPreTradeResult) (mutations : Mutations St) (st : St) :
    result PRejects PolicyPreTradeResult * Mutations St * St :=
  let '(mkStep asset held incoming) := step in
  if sg_is_zero held && sg_is_zero incoming then (Ok outcome, mutations, st)
  else
    let st := sf_modify (fun x => begin_holdings_mutation x account_id) st in
    let key := (account_id, asset) in
    let '(r, store) :=
      mutate_slot (sf_holdings (sf_of st)) key (fun slot =>
        (fun new => (tt, new)) <$> reserve_slot asset held incoming limit_mode position_limit slot) in
    let st := sf_modify (fun x => set_holdings x store) st in
    match r with
    | Err rejects => (Err rejects, mutations, drop_holdings_guard account_id st)
    | Ok (_, new) =>
        (Ok (push_adjustment outcome (reservation_outcome_entry asset held incoming new)),
         mutations_push mutations (hold_mutation key held incoming), st)
    end.

Definition reservation_controls (settings : SpotFundsSettings) (account_id : AccountId)
    (group : option AccountGroupId) (drop_copy : bool) (steps : ReservationStep * ReservationStep) :
    SpotFundsLimitMode * (option Check_ * option Check_) :=
  if drop_copy then (TrackOnly, (None, None))
  else (limit_mode_for settings account_id group, plan settings account_id steps).

Definition outcome_empty : PolicyPreTradeResult := mkPolicyPreTradeResult [] [].

(** ** The hooks *)

Definition missing_limit_price : PRejects :=
  rejects_from_reject
    (reject_new SPOT_FUNDS_POLICY_NAME RS_Order RC_MissingRequiredField "limit price is required for drop-copy"
       "historical market orders cannot be valued at the current market price").

(** The two steps in order; the first reject ends them. *)
Definition reserve_steps (request : OrderRequestView) (legs : ReservationLegs)
    (steps : ReservationStep * ReservationStep) (controls : SpotFundsLimitMode * (option Check_ * option Check_))
    (mutations : Mutations St) (st : St) :
    result PRejects (option PolicyPreTradeResult) * Mutations St * St :=
  let '(limit_mode, (check0, check1)) := controls in
  let '(r, mutations, st) :=
    reserve_asset (rq_account_id request) steps.1 limit_mode check0 outcome_empty mutations st in
  match r with
  | Err rejects => (Err rejects, mutations, st)
  | Ok outcome =>
      let '(r, mutations, st) :=
        reserve_asset (rq_account_id request) steps.2 limit_mode check1 outcome mutations st in
      ((fun outcome => Some (push_lock_price outcome (legs_lock_price legs))) <$> r, mutations, st)
  end.

Definition perform_pre_trade_request_impl self ctx (settings : SpotFundsSettings) (request : OrderRequestView)
    (mutations : Mutations St) s :
    result PRejects (option PolicyPreTradeResult) * Mutations St * HookState W :=
  let group := state_account_group ctx s in
  if is_drop_copy ctx && is_none (rq_price request) then (Err missing_limit_price, mutations, s)
  else
    let pnl_rejects := reject_halted_account_pnl self ctx settings (rq_account_id request) group s in
    let halted :=
      if is_drop_copy ctx then
        Ok match pnl_rejects with
           | Err rejects =>
               match List.find (fun r => bool_decide (reject_scope r = RS_Account)) (rejects_list rejects) with
               | Some reject =>
                   record_drop_copy_account_block ctx (account_block_with_code reject RC_AccountBlocked) s
               | None => s
               end
           | Ok _ => s
           end
      else (fun _ => s) <$> pnl_rejects in
    match halted with
    | Err rejects => (Err rejects, mutations, s)
    | Ok s =>
        match compute_reservation_legs self request group ctx settings (es_world s.2) with
        | Err reject => (Err (rejects_from_reject reject), mutations, s)
        | Ok legs =>
            let steps :=
              reservation_steps legs (underlying_asset (rq_instrument request))
                (settlement_asset (rq_instrument request)) (rq_side request) in
            let controls := reservation_controls settings (rq_account_id request) group (is_drop_copy ctx) steps in
            let '(r, mutations, st) := reserve_steps request legs steps controls mutations s.2 in
            (r, mutations, (s.1, st))
        end
    end.

Definition perform_pre_trade_check_impl self ctx (order : Order) (mutations : Mutations St) s :
    result PRejects (option PolicyPreTradeResult) * Mutations St * HookState W :=
  match read_order_request ctx order with
  | Err rejects => (Err rejects, mutations, s)
  | Ok request => perform_pre_trade_request_impl self ctx (sf_settings (sf_of s.2)) request mutations s
  end.

Definition perform_pre_trade_request_dry_run_impl self ctx (settings : SpotFundsSettings)
    (request : OrderRequestView) s : result PRejects (option PolicyPreTradeResult) :=
  let group := state_account_group ctx s in
  _ ← reject_halted_account_pnl self ctx settings (rq_account_id request) group s;
  legs ← map_err rejects_from_reject (compute_reservation_legs self request group ctx settings (es_world s.2));
  let '(first, second) :=
    reservation_steps legs (underlying_asset (rq_instrument request))
      (settlement_asset (rq_instrument request)) (rq_side request) in
  let '(limit_mode, (check0, check1)) :=
    reservation_controls settings (rq_account_id request) group (is_drop_copy ctx) (first, second) in
  let store := sf_holdings (sf_of s.2) in
  '(first_after, outcome) ←
    reserve_asset_dry_run store (rq_account_id request) first limit_mode check0 None outcome_empty;
  let second_current :=
    if bool_decide (step_asset first = step_asset second) then first_after else None in
  '(_, outcome) ←
    reserve_asset_dry_run store (rq_account_id request) second limit_mode check1 second_current outcome;
  Ok (Some (push_lock_price outcome (legs_lock_price legs))).

Definition perform_pre_trade_check_dry_run_impl self ctx (order : Order) (mutations : Mutations St) s :
    result PRejects (option PolicyPreTradeResult) * Mutations St * HookState W :=
  (match read_order_request ctx order with
   | Err rejects => Err rejects
   | Ok request => perform_pre_trade_request_dry_run_impl self ctx (sf_settings (sf_of s.2)) request s
   end, mutations, s).

End Reservation.
