(* ===== verification/SpotFundsExecution.v ===== *)
(** * SpotFundsExecution: settling execution reports

    src/crates/openpit/src/pretrade/policies/spot_funds/execution.rs.  The handler
    mutates slots, the ledger and its own deltas as it goes and may stop half-way
    with an account block: [Settle] threads both through, and an error keeps what was
    done. *)
From S2P Require Import Prelude.
From S2P Require Import Decimal.
From S2P Require Import Param.
From S2P Require Import ParamTypes.
From S2P Require Import Identifiers.
From S2P Require Import Mutation.
From S2P Require Import Reject.
From S2P Require Import AccountControl.
From S2P Require Import Accounts.
From S2P Require Import Lock.
From S2P Require Import Policy.
From S2P Require Import Storage.
From S2P Require Import Holdings.
From S2P Require Import HoldingsStore.
From S2P Require Import Instruments.
From S2P Require Import MarketData.
From S2P Require Import PnlBounds.
From S2P Require Import SpotFundsSettings.
From S2P Require Import SpotFundsParts.
From S2P Require Import SpotFunds.
Open Scope Z_scope.

(** What the policy reads of an execution report. *)
Class HasExecutionReportLastTrade {D : DecimalOps} (Report : Type) : Type :=
  last_trade : Report -> result RequestFieldAccessError (option Trade).
Class HasExecutionReportFillFee {D : DecimalOps} (Report : Type) : Type :=
  fill_fee : Report -> result RequestFieldAccessError (option MonetaryAmount).
Class HasRemainingReservedQuantity {D : DecimalOps} (Report : Type) : Type :=
  remaining_reserved_quantity : Report -> result RequestFieldAccessError Quantity.
Class HasExecutionReportIsFinal (Report : Type) : Type :=
  is_final : Report -> result RequestFieldAccessError bool.
Class HasPreTradeLock {D : DecimalOps} (Report : Type) : Type :=
  report_lock : Report -> result RequestFieldAccessError PreTradeLock.

(** ** Deltas *)
Section Deltas.
Context {D : DecimalOps}.

Record LegDelta : Type := mkLegDelta {
  ld_held_delta : PositionSize;
  ld_balance_delta : PositionSize;
  ld_incoming_delta : PositionSize;
  ld_pnl_outcome : option PnlOutcome;
  ld_average_entry_price : option Price;
  ld_final_holdings : option Holdings
}.

Record FillCancelDeltas : Type := mkDeltas {
  fd_underlying : LegDelta;
  fd_settlement : LegDelta;
  fd_fee : option (Asset * LegDelta)
}.

Definition leg_delta_new : LegDelta := mkLegDelta sg_ZERO sg_ZERO sg_ZERO None None None.
Definition deltas_new : FillCancelDeltas := mkDeltas leg_delta_new leg_delta_new None.

Definition leg_of (kind : LegKind) (d : FillCancelDeltas) : LegDelta :=
  match kind with Underlying => fd_underlying d | Settlement => fd_settlement d end.
Definition set_leg (kind : LegKind) (l : LegDelta) (d : FillCancelDeltas) : FillCancelDeltas :=
  match kind with
  | Underlying => mkDeltas l (fd_settlement d) (fd_fee d)
  | Settlement => mkDeltas (fd_underlying d) l (fd_fee d)
  end.

Definition leg_set_held (l : LegDelta) x : LegDelta :=
  mkLegDelta x (ld_balance_delta l) (ld_incoming_delta l) (ld_pnl_outcome l) (ld_average_entry_price l)
    (ld_final_holdings l).
Definition leg_set_balance (l : LegDelta) x : LegDelta :=
  mkLegDelta (ld_held_delta l) x (ld_incoming_delta l) (ld_pnl_outcome l) (ld_average_entry_price l)
    (ld_final_holdings l).
Definition leg_set_incoming (l : LegDelta) x : LegDelta :=
  mkLegDelta (ld_held_delta l) (ld_balance_delta l) x (ld_pnl_outcome l) (ld_average_entry_price l)
    (ld_final_holdings l).
Definition leg_set_pnl (l : LegDelta) outcome avg : LegDelta :=
  mkLegDelta (ld_held_delta l) (ld_balance_delta l) (ld_incoming_delta l) outcome avg (ld_final_holdings l).
Definition leg_set_final (l : LegDelta) (h : Holdings) : LegDelta :=
  mkLegDelta (ld_held_delta l) (ld_balance_delta l) (ld_incoming_delta l) (ld_pnl_outcome l)
    (ld_average_entry_price l) (Some h).

(** Which leg of the deltas a fee in [fee_currency] belongs to: [None] is the leg
    of its own, created on demand. *)
Definition fee_leg (fee_currency underlying settlement : Asset) : option LegKind :=
  if bool_decide (fee_currency = underlying) then Some Underlying
  else if bool_decide (fee_currency = settlement) then Some Settlement
  else None.

Definition fee_leg_get (kind : option LegKind) (d : FillCancelDeltas) : LegDelta :=
  match kind with
  | Some kind => leg_of kind d
  | None => match fd_fee d with Some (_, l) => l | None => leg_delta_new end
  end.
Definition fee_leg_set (kind : option LegKind) (fee_currency : Asset) (l : LegDelta) (d : FillCancelDeltas) :
    FillCancelDeltas :=
  match kind with
  | Some kind => set_leg kind l d
  | None =>
      mkDeltas (fd_underlying d) (fd_settlement d)
        (Some (match fd_fee d with Some (asset, _) => asset | None => fee_currency end, l))
  end.

(** [record_position_pnl_operation]; the answer tells an overflow of the summed
    delta. *)
Definition record_position_pnl_operation (d : FillCancelDeltas) (op : PositionPnlOperation) :
    bool * FillCancelDeltas :=
  let leg := fd_underlying d in
  let '(outcome, overflowed) :=
    match ld_pnl_outcome leg, po_outcome op with
    | current, None => (current, false)
    | _, Some (Err reason) => (Some (Err reason), false)
    | None, Some (Ok amount) => (Some (Ok amount), false)
    | Some (Ok current), Some (Ok next) =>
        match sg_checked_add (poa_delta current) (poa_delta next) with
        | Ok delta => (Some (Ok (mkPnlOutcomeAmount delta (poa_absolute next))), false)
        | Err _ => (Some (Err ArithmeticOverflow), true)
        end
    | Some (Err reason), Some (Ok _) => (Some (Err reason), false)
    end in
  let average :=
    match po_average_entry_price op with Some p => Some p | None => ld_average_entry_price leg end in
  (overflowed, set_leg Underlying (leg_set_pnl leg outcome average) d).

Definition nonzero_outcome (delta absolute : PositionSize) : option OutcomeAmount :=
  if sg_is_zero delta then None else Some (mkOutcomeAmount delta absolute).

Definition push_leg_outcome (group_id : PolicyGroupId) (asset : Asset) (leg : LegDelta) (kind : LegKind) :
    list AccountAdjustmentOutcome :=
  match ld_final_holdings leg with
  | None => []
  | Some h =>
      let '(realized_pnl, average_entry_price) :=
        match kind with
        | Underlying =>
            match ld_pnl_outcome leg with
            | Some (Err reason) => (Some (Err reason), None)
            | Some (Ok amount) => (Some (Ok amount), ld_average_entry_price leg)
            | None => (None, ld_average_entry_price leg)
            end
        | Settlement => (None, None)
        end in
      let balance := nonzero_outcome (ld_balance_delta leg) (h_available h) in
      let held := nonzero_outcome (ld_held_delta leg) (h_held h) in
      let incoming := nonzero_outcome (ld_incoming_delta leg) (h_incoming h) in
      if is_none balance && is_none held && is_none incoming && is_none realized_pnl &&
         is_none average_entry_price
      then []
      else [mkAccountAdjustmentOutcome group_id
              (mkAccountOutcomeEntry asset balance held incoming realized_pnl average_entry_price)]
  end.

(** What one leg of a fill makes of a slot: the P&L operation, the account's share
    and the slot. *)
Definition fill_slot (kind : LegKind) (consume flow balance_credit incoming_consume : PositionSize)
    (realize_price : option Price) (halt_reason : option PnlHaltReason) (h : Holdings) :
    result AdjustmentOverflowError
      (option PositionPnlOperation * option (result PnlHaltReason (option Pnl)) * Holdings) :=
  let contribution :=
    match kind with
    | Underlying => Some (account_position_pnl_contribution h flow realize_price)
    | Settlement => None
    end in
  let or_halted (r : result AdjustmentOverflowError PositionPnlOperation) :=
    match r with Ok updated => updated | Err _ => halt_realized_pnl h ArithmeticOverflow end in
  let '(operation, realized) :=
    match kind, realize_price, halt_reason with
    | Underlying, Some price, _ =>
        let updated := or_halted (realize_position_fill h flow price) in (Some updated, po_holdings updated)
    | Underlying, None, Some reason =>
        let updated := or_halted (halt_realized_pnl_for_unpriced_fill h flow reason) in
        (Some updated, po_holdings updated)
    | Underlying, None, None => (None, with_avg_entry_price h None)
    | Settlement, _, _ => (None, h)
    end in
  after_outflow ← apply_fill_outflow realized consume;
  after_credit ← (if sg_is_zero balance_credit then Ok after_outflow
                  else apply_fill_inflow after_outflow balance_credit);
  new ← (if sg_is_zero incoming_consume then Ok after_credit
         else consume_incoming after_credit incoming_consume);
  Ok (operation, contribution, new).

Definition release_slot (held_release incoming_release : PositionSize) (h : Holdings) :
    result AdjustmentOverflowError (unit * Holdings) :=
  after_held ← release h held_release;
  new ← (if sg_is_zero incoming_release then Ok after_held else consume_incoming after_held incoming_release);
  Ok (tt, new).

End Deltas.
Arguments FillCancelDeltas {D}.
Arguments LegDelta {D}.

(** ** The monad of the handler *)

Definition SettleOf (X A : Type) : Type := X -> result AccountBlock A * X.
#[export] Instance settle_ret X : MRet (SettleOf X) := fun _ x s => (Ok x, s).
#[export] Instance settle_bind X : MBind (SettleOf X) := fun _ _ f m s =>
  match m s with (Ok x, s) => f x s | (Err block, s) => (Err block, s) end.
Definition settle_lift {X A} (r : result AccountBlock A) : SettleOf X A := fun s => (r, s).
Definition settle_do {X} (f : X -> X) : SettleOf X unit := fun s => (Ok tt, f s).
Definition settle_get {X} : SettleOf X X := fun s => (Ok s, s).

Section Execution.
Context {D : DecimalOps} {F : DecimalFormat} {G : DecimalDebug} {W Report : Type}.
Context {RA : HasAccountId Report} {RI : HasInstrument Report} {RS : HasSide Report}
  {RT : HasExecutionReportLastTrade Report} {RF : HasExecutionReportFillFee Report}
  {RQ : HasRemainingReservedQuantity Report} {RE : HasExecutionReportIsFinal Report}
  {RL : HasPreTradeLock Report}.
Context {O : Owns W SpotFundsState} {M : MarketDataSource W} {LW : LeaseWaits W}.
(** How often the report's account was read before the hook reads it. *)
Context (reads : nat).
Implicit Types (self : SpotFundsPolicy) (account_id : AccountId) (asset : Asset).

Abbreviation St := (EngineState W).
Abbreviation Settle := (SettleOf (FillCancelDeltas * St)).

Record ExecutionRequestView : Type := mkExecutionRequest {
  ex_instrument : Instrument;
  ex_account_id : AccountId;
  ex_side : Side;
  ex_last_trade : option Trade;
  ex_fee : option MonetaryAmount;
  ex_remaining_reserved_quantity : Quantity;
  ex_is_final : bool;
  ex_lock : PreTradeLock
}.

Record AccountPnlApplication : Type := mkApplication {
  app_account_pnl : option AccountPnlOutcome;
  app_account_block : option AccountBlock
}.

Definition report_field {T} (field : string) (r : result RequestFieldAccessError T) : result AccountBlock T :=
  map_err (fun e => missing_required_field_account_block SPOT_FUNDS_POLICY_NAME field e) r.

Definition read_execution_request (report : Report) : result AccountBlock ExecutionRequestView :=
  account_id ← report_field "account ID" (account_id report reads);
  instrument ← report_field "instrument" (instrument report);
  side ← report_field "side" (side report);
  last_trade ← report_field "last fill" (last_trade report);
  fee ← report_field "fill fee" (fill_fee report);
  remaining ← report_field "remaining reserved quantity" (remaining_reserved_quantity report);
  final ← report_field "order finality" (is_final report);
  lock ← report_field "pre-trade lock" (report_lock report);
  Ok (mkExecutionRequest instrument account_id side last_trade fee remaining final lock).

(** ** Slots and deltas *)

Definition overflow_block {E T} (details : string) (r : result E T) : result AccountBlock T :=
  map_err (fun _ => arithmetic_overflow_account_block SPOT_FUNDS_POLICY_NAME details) r.

Definition settle_slot {X} (key : SlotKey) (details : string)
    (f : Holdings -> result AdjustmentOverflowError (X * Holdings)) : Settle (X * Holdings) :=
  fun '(d, st) =>
    let '(r, store) := mutate_slot (sf_holdings (sf_of st)) key f in
    (overflow_block details r, (d, sf_modify (fun x => set_holdings x store) st)).

(** [holdings.with_mut] with an infallible closure. *)
Definition slot_pnl_operation (key : SlotKey) (f : Holdings -> PositionPnlOperation) (st : St) :
    (Holdings * PositionPnlOperation) * St :=
  let '(r, store) :=
    store_with_mut (sf_holdings (sf_of st)) key holdings_zero (fun slot _ =>
      let op := f slot in ((po_holdings op, op), po_holdings op)) in
  (r, sf_modify (fun x => set_holdings x store) st).

Definition note_final (op : PositionPnlOperation) (h : Holdings) (d : FillCancelDeltas) : FillCancelDeltas :=
  if is_some (po_outcome op) then set_leg Underlying (leg_set_final (fd_underlying d) h) d else d.

Definition halt_position_pnl account_id (underlying : Asset) (reason : PnlHaltReason)
    (x : FillCancelDeltas * St) : FillCancelDeltas * St :=
  let '(d, st) := x in
  let '((h, op), st) :=
    slot_pnl_operation (account_id, underlying)
      (fun slot => halt_realized_pnl_preserving_average slot reason) st in
  let '(_, d) := record_position_pnl_operation d op in
  (note_final op h d, st).

Definition fold_fee_into_realized_pnl account_id (underlying : Asset) (fee_contribution : option Pnl)
    (x : FillCancelDeltas * St) : FillCancelDeltas * St :=
  match fee_contribution with
  | None => x
  | Some fee_delta =>
      let '(d, st) := x in
      let '((h, op), st) :=
        slot_pnl_operation (account_id, underlying) (fun slot => add_realized_pnl_contribution slot fee_delta) st in
      let '(overflowed, d) := record_position_pnl_operation d op in
      if overflowed : bool then halt_position_pnl account_id underlying ArithmeticOverflow (d, st)
      else (note_final op h d, st)
  end.

(** A checked update of one field of a leg. *)
Definition leg_step (get : FillCancelDeltas -> LegDelta) (set : LegDelta -> FillCancelDeltas -> FillCancelDeltas)
    (details : string) (f : LegDelta -> result ParamError LegDelta) : Settle unit :=
  fun '(d, st) =>
    match f (get d) with
    | Ok leg => (Ok tt, (set leg d, st))
    | Err _ => (Err (arithmetic_overflow_account_block SPOT_FUNDS_POLICY_NAME details), (set (get d) d, st))
    end.

Definition add_balance (x : PositionSize) (leg : LegDelta) : result ParamError LegDelta :=
  leg_set_balance leg <$> sg_checked_add (ld_balance_delta leg) x.
Definition sub_held (x : PositionSize) (leg : LegDelta) : result ParamError LegDelta :=
  leg_set_held leg <$> sg_checked_sub (ld_held_delta leg) x.
Definition sub_incoming (x : PositionSize) (leg : LegDelta) : result ParamError LegDelta :=
  leg_set_incoming leg <$> sg_checked_sub (ld_incoming_delta leg) x.

Definition kind_step (kind : LegKind) := leg_step (leg_of kind) (set_leg kind).
Definition set_final (kind : LegKind) (h : Holdings) : Settle unit :=
  settle_do (fun '(d, st) => (set_leg kind (leg_set_final (leg_of kind d) h) d, st)).

Definition apply_fee_debit account_id (underlying settlement : Asset) (fee : MonetaryAmount) : Settle unit :=
  let amount := fee_to_position_size (ma_amount fee) in
  let currency := ma_currency fee in
  if sg_is_zero amount then mret tt
  else
    let about := "currency " +:+ Asset_fmt currency +:+ ", fee " +:+ sg_fmt (ma_amount fee) in
    '(_, new_h) ← settle_slot (account_id, currency) ("fee debit overflow: " +:+ about)
                    (fun h => (fun h => (tt, h)) <$> apply_fill_inflow h amount);
    let kind := fee_leg currency underlying settlement in
    _ ← leg_step (fee_leg_get kind) (fee_leg_set kind currency) ("fee balance delta overflow: " +:+ about)
          (add_balance amount);
    settle_do (fun '(d, st) => (fee_leg_set kind currency (leg_set_final (fee_leg_get kind d) new_h) d, st)).

(** ** One leg of a fill and of a cancel *)

Definition settle_fill_leg account_id asset (kind : LegKind)
    (consume flow_received incoming_consume : PositionSize) (realize_price : option Price)
    (halt_reason : option PnlHaltReason) : Settle (option (result PnlHaltReason (option Pnl))) :=
  balance_credit ← settle_lift (overflow_block
    ("fill balance credit overflow: asset " +:+ Asset_fmt asset +:+ ", consume " +:+ size_fmt consume +:+
     ", flow " +:+ size_fmt flow_received) (sg_checked_add consume flow_received));
  if sg_is_zero consume && sg_is_zero balance_credit && sg_is_zero incoming_consume then mret None
  else
    '((operation, contribution), new_h) ← settle_slot (account_id, asset)
       ("fill leg mutation overflow: asset " +:+ Asset_fmt asset +:+ ", consume " +:+ size_fmt consume +:+
        ", credit " +:+ size_fmt balance_credit)
       (fill_slot kind consume flow_received balance_credit incoming_consume realize_price halt_reason);
    _ ← settle_do (fun '(d, st) =>
          match operation with
          | None => (d, st)
          | Some op =>
              let '(overflowed, d) := record_position_pnl_operation d op in
              if overflowed : bool then halt_position_pnl account_id asset ArithmeticOverflow (d, st) else (d, st)
          end);
    _ ← kind_step kind ("fill held delta overflow: asset " +:+ Asset_fmt asset +:+ ", consume " +:+
          size_fmt consume) (sub_held consume);
    _ ← kind_step kind ("fill incoming delta overflow: asset " +:+ Asset_fmt asset +:+ ", incoming " +:+
          size_fmt incoming_consume) (sub_incoming incoming_consume);
    _ ← kind_step kind ("fill balance delta overflow: asset " +:+ Asset_fmt asset +:+ ", credit " +:+
          size_fmt balance_credit) (add_balance balance_credit);
    _ ← set_final kind new_h;
    mret contribution.

Definition release_leg account_id asset (kind : LegKind) (held_release incoming_release : PositionSize) :
    Settle unit :=
  if sg_is_zero held_release && sg_is_zero incoming_release then mret tt
  else
    '(_, new_h) ← settle_slot (account_id, asset)
       ("cancel release overflow: asset " +:+ Asset_fmt asset +:+ ", held " +:+ size_fmt held_release +:+
        ", incoming " +:+ size_fmt incoming_release)
       (release_slot held_release incoming_release);
    _ ← kind_step kind ("cancel held delta overflow: asset " +:+ Asset_fmt asset +:+ ", release " +:+
          size_fmt held_release) (sub_held held_release);
    _ ← kind_step kind ("cancel balance delta overflow: asset " +:+ Asset_fmt asset +:+ ", release " +:+
          size_fmt held_release) (add_balance held_release);
    _ ← kind_step kind ("cancel incoming delta overflow: asset " +:+ Asset_fmt asset +:+ ", release " +:+
          size_fmt incoming_release) (sub_incoming incoming_release);
    set_final kind new_h.

(** ** Settlement amounts at the lock price *)

Definition settlement_held_at self (purpose : string) (settlement : Asset) (side : Side) (quantity : Quantity)
    (lock : PreTradeLock) : result AccountBlock PositionSize :=
  lock_price ← settlement_lock_price SPOT_FUNDS_POLICY_NAME lock (sp_group_id self) purpose;
  settlement_reserved_amount SPOT_FUNDS_POLICY_NAME side lock_price quantity settlement.

Definition settlement_incoming_at self (purpose : string) (settlement : Asset) (side : Side) (quantity : Quantity)
    (lock : PreTradeLock) : result AccountBlock PositionSize :=
  lock_price ← settlement_lock_price SPOT_FUNDS_POLICY_NAME lock (sp_group_id self) purpose;
  settlement_incoming_proceeds SPOT_FUNDS_POLICY_NAME side lock_price quantity settlement.

Definition settlement_fill_consume self settlement side (trade : Trade) lock :=
  settlement_held_at self "settlement fill" settlement side (trade_quantity trade) lock.
Definition settlement_incoming_amount self settlement side (trade : Trade) lock :=
  settlement_incoming_at self "sell fill" settlement side (trade_quantity trade) lock.
Definition settlement_release self settlement side quantity lock :=
  settlement_held_at self "settlement release" settlement side quantity lock.
Definition settlement_incoming_release self settlement side quantity lock :=
  settlement_incoming_at self "sell release" settlement side quantity lock.

Definition apply_cancel_release self account_id (underlying settlement : Asset) (side : Side)
    (remaining : Quantity) (lock : PreTradeLock) : Settle unit :=
  settlement_held ← settle_lift (settlement_release self settlement side remaining lock);
  settlement_incoming ← settle_lift (settlement_incoming_release self settlement side remaining lock);
  let quantity := quantity_to_position_size remaining in
  let '(underlying_held, underlying_incoming) :=
    match side with Buy => (sg_ZERO, quantity) | Sell => (quantity, sg_ZERO) end in
  _ ← release_leg account_id underlying Underlying underlying_held underlying_incoming;
  release_leg account_id settlement Settlement settlement_held settlement_incoming.

(** ** The account's ledger *)

Definition halted_before (entry : option AccountPnlEntry) : option PnlHaltReason * option Z :=
  match entry with
  | Some (mkPnlEntry (PnlHalted reason) provenance) => (Some reason, provenance)
  | _ => (None, None)
  end.

(** [transitioned.then_some(..)] with the block of the halted state. *)
Definition report_halt self account_id (account_currency : option Asset)
    (barrier : option SpotFundsPnlBoundsBarrier) (reason : PnlHaltReason) (st : St) :
    (option AccountPnlOutcome * option AccountBlock) * St :=
  let '((reason, transitioned), st) := halt_account_pnl account_id reason st in
  let block :=
    barrier ← barrier; account_pnl_block_for_state account_currency (PnlHalted reason) barrier None in
  ((if transitioned : bool then Some (mkAccountPnlOutcome (Err reason) account_id (sp_group_id self)) else None,
    block), st).

Definition report_delta self account_id (account_currency : option Asset)
    (barrier : option SpotFundsPnlBoundsBarrier) (delta : Pnl) (st : St) :
    (option AccountPnlOutcome * option AccountBlock) * St :=
  let '((result, block), st) := apply_account_pnl_delta account_id account_currency barrier delta st in
  (((fun result => mkAccountPnlOutcome result account_id (sp_group_id self)) <$> result, block), st).

Definition stored_halt_block (account_currency : option Asset) (barrier : option SpotFundsPnlBoundsBarrier)
    (before : option PnlHaltReason * option Z) : option AccountBlock :=
  reason ← before.1;
  barrier ← barrier;
  account_pnl_block_for_state account_currency (PnlHalted reason) barrier before.2.

Definition settle_account {A} (f : St -> A * St) : Settle A :=
  fun '(d, st) => let '(a, st) := f st in (Ok a, (d, st)).

Definition mismatch_block (account_currency : option Asset) (barrier : option SpotFundsPnlBoundsBarrier) :
    option AccountBlock :=
  barrier ← barrier; account_pnl_barrier_currency_mismatch_block account_currency barrier.

(** A candidate reason, kept only while [keep] holds. *)
Definition select_if (keep : bool) (halt_reason : option PnlHaltReason) (candidate : option PnlHaltReason) :
    option PnlHaltReason :=
  match candidate with
  | Some reason => if keep then select_pnl_halt_reason halt_reason reason else halt_reason
  | None => halt_reason
  end.

(** *** A fee without a trade *)

Definition apply_execution_fee self (account_group : option AccountGroupId) (account_currency : option Asset)
    (settings : SpotFundsSettings) account_id (underlying settlement : Asset) (fee : MonetaryAmount) :
    Settle AccountPnlApplication :=
  if sg_is_zero (ma_amount fee) then mret (mkApplication None None)
  else
    '(_, st) ← settle_get;
    let s := sf_of st in
    let before := halted_before (sf_pnl s !! account_id) in
    let account_open := is_none before.1 in
    let position_was_halted :=
      match store_get (sf_holdings s) (account_id, underlying) with
      | Some h => realized_pnl_is_halted h
      | None => false
      end in
    let barrier := pnl_barrier_for settings account_id account_group account_currency in
    let '(fee_pnl_delta, failure) :=
      match account_currency with
      | Some currency =>
          match fee_account_pnl_delta self account_id account_group fee currency (es_world st) with
          | Ok delta => (Some delta, None)
          | Err reason => (None, Some reason)
          end
      | None => (None, Some MissingAccountCurrency)
      end in
    let position_halt := is_some failure in
    let position_halt_reason := select_if (negb position_was_halted) None failure in
    let account_halt_reason := select_if account_open None failure in
    _ ← apply_fee_debit account_id underlying settlement fee;
    _ ← settle_do (fun x =>
          match position_halt_reason with
          | Some reason => halt_position_pnl account_id underlying reason x
          | None => x
          end);
    _ ← settle_do (fold_fee_into_realized_pnl account_id underlying
                     (if position_halt then None else fee_pnl_delta));
    '(account_pnl, new_halt_block) ←
      match account_halt_reason, fee_pnl_delta with
      | None, Some delta =>
          if account_open then settle_account (report_delta self account_id account_currency barrier delta)
          else mret (None, None)
      | Some reason, _ =>
          if account_open then settle_account (report_halt self account_id account_currency barrier reason)
          else mret (None, None)
      | None, None => mret (None, None)
      end;
    mret (mkApplication account_pnl
            (or_else (or_else (mismatch_block account_currency barrier)
                        (stored_halt_block account_currency barrier before)) new_halt_block)).

(** *** A trade *)

Definition has_nonzero_fee (fee : option MonetaryAmount) : option MonetaryAmount :=
  opt_filter (fun fee => negb (sg_is_zero (ma_amount fee))) fee.

(** The price of a fill in the account's currency, or why there is none. *)
Definition fill_price self account_id (account_group : option AccountGroupId) (account_currency : option Asset)
    (settlement : Asset) (price : Price) (w : W) : option Price * option PnlHaltReason :=
  match account_currency with
  | None => (None, None)
  | Some currency =>
      match account_currency_price self account_id account_group settlement currency price w with
      | Ok (Some price) => (Some price, None)
      | Ok None => (None, Some MissingFx)
      | Err reason => (None, Some reason)
      end
  end.

(** The fee in the account's currency, or why there is none. *)
Definition fee_in_account_currency self account_id (account_group : option AccountGroupId)
    (account_currency : option Asset) (fee : option MonetaryAmount) (w : W) :
    option Pnl * option PnlHaltReason :=
  match account_currency, fee with
  | Some currency, Some fee =>
      match fee_account_pnl_delta self account_id account_group fee currency w with
      | Ok delta => (Some delta, None)
      | Err reason => (None, Some reason)
      end
  | _, _ => (None, None)
  end.

Abbreviation Contribution := (option (result PnlHaltReason (option Pnl))).

Definition fill_engaged (contribution : Contribution) : bool :=
  match contribution with Some (Ok (Some _)) | Some (Err _) => true | _ => false end.

(** Why the account's ledger halts, the fill's own reasons joining in only when the
    fill engages it. *)
Definition account_halt_reason (account_currency : option Asset) (has_fee : bool)
    (fill_failure fee_failure : option PnlHaltReason) (contribution : Contribution) : option PnlHaltReason :=
  let missing := if is_none account_currency then Some MissingAccountCurrency else None in
  let halt := select_if has_fee None missing in
  let halt := select_if true halt fee_failure in
  let engaged := fill_engaged contribution in
  let halt := select_if engaged halt missing in
  let halt := select_if engaged halt fill_failure in
  match contribution with Some (Err reason) => select_if engaged halt (Some reason) | _ => halt end.

(** The delta the ledger gets from a fill that engages it. *)
Definition account_fill_delta (touches has_fee : bool) (contribution : Contribution) (fee_delta : option Pnl) :
    option Pnl * option PnlHaltReason :=
  let '(position_delta, halt) :=
    if touches then
      match contribution with
      | Some (Ok (Some delta)) => (Some delta, None)
      | Some (Ok None) => (Some sg_ZERO, None)
      | Some (Err _) | None => (None, Some MissingInitialPnl)
      end
    else (Some sg_ZERO, None) in
  match position_delta, (if has_fee then fee_delta else Some sg_ZERO) with
  | Some position_delta, Some fee_delta =>
      match sg_checked_add position_delta fee_delta with
      | Ok delta => (Some delta, halt)
      | Err _ => (None, Some ArithmeticOverflow)
      end
  | _, _ => (None, halt)
  end.

Definition fill_legs account_id (underlying settlement : Asset) (side : Side)
    (qty settlement_consume settlement_flow settlement_incoming : PositionSize) (price : option Price)
    (halt_reason : option PnlHaltReason) : Settle Contribution :=
  let settlement_leg :=
    settle_fill_leg account_id settlement Settlement settlement_consume settlement_flow settlement_incoming
      None None in
  match side with
  | Buy =>
      _ ← settlement_leg;
      settle_fill_leg account_id underlying Underlying sg_ZERO qty qty price halt_reason
  | Sell =>
      contribution ← settle_fill_leg account_id underlying Underlying qty (neg qty) sg_ZERO price halt_reason;
      _ ← settlement_leg;
      mret contribution
  end.

Definition apply_trade_fill self (account_group : option AccountGroupId) (account_currency : option Asset)
    (settings : SpotFundsSettings) account_id (underlying settlement : Asset) (side : Side) (trade : Trade)
    (fee : option MonetaryAmount) (lock : PreTradeLock) : Settle AccountPnlApplication :=
  let fee := has_nonzero_fee fee in
  let has_fee := is_some fee in
  let qty := quantity_to_position_size (trade_quantity trade) in
  notional ← settle_lift (overflow_block
    ("fill notional volume overflow: asset " +:+ Asset_fmt settlement +:+ ", px " +:+ sg_fmt (trade_price trade) +:+
     ", qty " +:+ nn_fmt (trade_quantity trade))
    (price_calculate_position_size (trade_price trade) (trade_quantity trade)));
  let touches := negb (sg_is_zero (match side with Buy => qty | Sell => neg qty end)) in
  let observes := touches || has_fee in
  '(_, st) ← settle_get;
  let w := es_world st in
  let before := halted_before (sf_pnl (sf_of st) !! account_id) in
  let position_before := store_get (sf_holdings (sf_of st)) (account_id, underlying) ≫= realized_pnl_halt_reason in
  let barrier := pnl_barrier_for settings account_id account_group account_currency in
  let no_currency := observes && is_none account_currency in
  let '(price, fill_failure) :=
    if touches then fill_price self account_id account_group account_currency settlement (trade_price trade) w
    else (None, None) in
  settlement_consume ← settle_lift (settlement_fill_consume self settlement side trade lock);
  let settlement_flow := match side with Buy => neg notional | Sell => notional end in
  settlement_incoming ← settle_lift (settlement_incoming_amount self settlement side trade lock);
  let '(fee_pnl_delta, fee_failure) :=
    fee_in_account_currency self account_id account_group account_currency fee w in
  let position_halt := no_currency || is_some fill_failure || is_some fee_failure in
  let position_halt_reason :=
    let fresh := is_none position_before in
    select_if fresh (select_if fresh
      (select_if fresh None (if no_currency then Some MissingAccountCurrency else None)) fill_failure) fee_failure in
  contribution ←
    fill_legs account_id underlying settlement side qty settlement_consume settlement_flow settlement_incoming
      price (if touches then or_else position_halt_reason position_before else None);
  let engaged := has_fee || fill_engaged contribution in
  let halt := account_halt_reason account_currency has_fee fill_failure fee_failure contribution in
  _ ← match fee with Some fee => apply_fee_debit account_id underlying settlement fee | None => mret tt end;
  _ ← settle_do (fun '(d, st) =>
        match position_halt_reason, ld_pnl_outcome (fd_underlying d) with
        | Some reason, (None | Some (Ok _)) => halt_position_pnl account_id underlying reason (d, st)
        | _, _ => (d, st)
        end);
  let '(delta, halt) :=
    match engaged, before.1, halt with
    | true, None, None =>
        let '(delta, late) := account_fill_delta touches has_fee contribution fee_pnl_delta in
        (delta, select_if true halt late)
    | _, _, _ => (None, halt)
    end in
  _ ← settle_do (fold_fee_into_realized_pnl account_id underlying (if position_halt then None else fee_pnl_delta));
  '(account_pnl, new_halt_block) ←
    match halt, delta with
    | Some reason, _ =>
        if engaged && is_none before.1
        then settle_account (report_halt self account_id account_currency barrier reason)
        else mret (None, None)
    | None, Some delta => settle_account (report_delta self account_id account_currency barrier delta)
    | None, None => mret (None, None)
    end;
  mret (mkApplication account_pnl
          (or_else (or_else (mismatch_block account_currency barrier)
                      (if observes then stored_halt_block account_currency barrier before else None))
             new_halt_block)).

(** ** The handler *)

(** [state_account_group] of a post-trade context: an account of its own bypasses
    the cache. *)
Definition post_state_account_group (ctx : PostTradeContext) (s : GroupCell * St) :
    option AccountGroupId * (GroupCell * St) :=
  match pstc_account ctx with
  | Some account => (group_of (es_groups s.2) account, s)
  | None => let '(g, cell) := group_lookup None s.1 s.2 in (g, (cell, s.2))
  end.

Definition post_account_currency (ctx : PostTradeContext) (st : St) (group : option AccountGroupId) : option Asset :=
  account ← pstc_account ctx;
  currency_of (as_currencies (es_accounts st)) account group.

(** The blocks and ledger outcomes one application adds. *)
Definition note_application (r : result AccountBlock AccountPnlApplication) :
    list AccountBlock * list AccountPnlOutcome :=
  match r with
  | Ok application => (option_list (app_account_block application), option_list (app_account_pnl application))
  | Err block => ([block], [])
  end.

(** What the report does to the accounts when it carries something economic. *)
Definition apply_economics self (group : option AccountGroupId) (currency : option Asset)
    (settings : SpotFundsSettings) (request : ExecutionRequestView) (x : FillCancelDeltas * St) :
    (list AccountBlock * list AccountPnlOutcome) * (FillCancelDeltas * St) :=
  let underlying := underlying_asset (ex_instrument request) in
  let settlement := settlement_asset (ex_instrument request) in
  match ex_last_trade request, ex_fee request with
  | Some trade, fee =>
      let '(r, x) :=
        apply_trade_fill self group currency settings (ex_account_id request) underlying settlement
          (ex_side request) trade fee (ex_lock request) x in
      (note_application r, x)
  | None, Some fee =>
      let '(r, x) :=
        apply_execution_fee self group currency settings (ex_account_id request) underlying settlement fee x in
      (note_application r, x)
  | None, None => (([], []), x)
  end.

Definition apply_release self (request : ExecutionRequestView) (x : FillCancelDeltas * St) :
    list AccountBlock * (FillCancelDeltas * St) :=
  if ex_is_final request && negb (nn_is_zero (ex_remaining_reserved_quantity request)) then
    let '(r, x) :=
      apply_cancel_release self (ex_account_id request) (underlying_asset (ex_instrument request))
        (settlement_asset (ex_instrument request)) (ex_side request) (ex_remaining_reserved_quantity request)
        (ex_lock request) x in
    (match r with Ok _ => [] | Err block => [block] end, x)
  else ([], x).

Definition leg_outcomes self (request : ExecutionRequestView) (d : FillCancelDeltas) :
    list AccountAdjustmentOutcome :=
  push_leg_outcome (sp_group_id self) (underlying_asset (ex_instrument request)) (fd_underlying d) Underlying ++
  push_leg_outcome (sp_group_id self) (settlement_asset (ex_instrument request)) (fd_settlement d) Settlement ++
  match fd_fee d with
  | Some (asset, leg) => push_leg_outcome (sp_group_id self) asset leg Settlement
  | None => []
  end.

Definition is_economic (request : ExecutionRequestView) : bool :=
  is_some (ex_last_trade request) ||
  match ex_fee request with Some fee => negb (sg_is_zero (ma_amount fee)) | None => false end.

Definition apply_execution_request_impl self (ctx : PostTradeContext) (request : ExecutionRequestView)
    (s : GroupCell * St) : option PostTradeResult * (GroupCell * St) :=
  let '((blocks, pnls), (deltas, (cell, st))) :=
    if is_economic request then
      let settings := sf_settings (sf_of s.2) in
      let '(group, (cell, st)) := post_state_account_group ctx s in
      let currency := post_account_currency ctx st group in
      let '((blocks, pnls), x) := apply_economics self group currency settings request (deltas_new, st) in
      let '(released, (deltas, st)) := apply_release self request x in
      let blocks := blocks ++ released in
      let blocks :=
        match blocks with
        | [] => option_list (pnl_axis_block self settings (ex_account_id request) group currency true st)
        | _ => blocks
        end in
      ((blocks, pnls), (deltas, (cell, st)))
    else
      let '(released, (deltas, st)) := apply_release self request (deltas_new, s.2) in
      ((released, []), (deltas, (s.1, st))) in
  let adjustments := leg_outcomes self request deltas in
  (match blocks, pnls, adjustments with
   | [], [], [] => None
   | _, _, _ => Some (mkPostTradeResult blocks pnls adjustments)
   end, (cell, st)).

Definition sf_apply_execution_report self (ctx : PostTradeContext) (report : Report) (s : GroupCell * St) :
    option PostTradeResult * (GroupCell * St) :=
  match read_execution_request report with
  | Err block => (Some (blocks_only [block]), s)
  | Ok request => apply_execution_request_impl self ctx request s
  end.

End Execution.
