(* ===== verification/SpotFundsAdjustment.v ===== *)
(** * SpotFundsAdjustment: account adjustments, and the policy as a whole

    src/crates/openpit/src/pretrade/policies/spot_funds/adjustment.rs, the rollbacks
    of adjustments and of P&L assertions from rollback.rs, and the trait
    implementation of mod.rs.  A state writer's lease is what [Accounts] models;
    within it the operations run undisturbed. *)
From S2P Require Import Prelude.
From S2P Require Import Decimal.
From S2P Require Import Param.
From S2P Require Import ParamTypes.
From S2P Require Import Identifiers.
From S2P Require Import Mutation.
From S2P Require Import Reject.
From S2P Require Import AccountControl.
From S2P Require Import Accounts.
From S2P Require Import Lock.
From S2P Require Import Policy.
From S2P Require Import Storage.
From S2P Require Import Holdings.
From S2P Require Import HoldingsStore.
From S2P Require Import Instruments.
From S2P Require Import MarketData.
From S2P Require Import PnlBounds.
From S2P Require Import SpotFundsSettings.
From S2P Require Import SpotFundsParts.
From S2P Require Import SpotFunds.
From S2P Require Import SpotFundsReservation.
From S2P Require Import SpotFundsExecution.
Open Scope Z_scope.

Abbreviation FieldResult T := (result RequestFieldAccessError T).

(** The accessors an adjustment is read through. *)
Class HasAdjustmentFields {D : DecimalOps} (Adjustment : Type) : Type := {
  adjustment_pnl_operation : Adjustment -> FieldResult (option PnlState);
  balance_asset : Adjustment -> FieldResult Asset;
  adj_balance : Adjustment -> FieldResult (option AdjustmentAmount);
  adj_balance_average_entry_price : Adjustment -> FieldResult (option Price);
  adj_balance_realized_pnl : Adjustment -> FieldResult (option PnlState);
  adj_balance_lower : Adjustment -> FieldResult (option PositionSize);
  adj_balance_upper : Adjustment -> FieldResult (option PositionSize);
  adj_held : Adjustment -> FieldResult (option AdjustmentAmount);
  adj_held_lower : Adjustment -> FieldResult (option PositionSize);
  adj_held_upper : Adjustment -> FieldResult (option PositionSize);
  adj_incoming : Adjustment -> FieldResult (option AdjustmentAmount);
  adj_incoming_lower : Adjustment -> FieldResult (option PositionSize);
  adj_incoming_upper : Adjustment -> FieldResult (option PositionSize)
}.

Section SlotAdjustment.
Context {D : DecimalOps} {F : DecimalFormat} {G : DecimalDebug}.

Abbreviation PRejects := (Rejects PolicyPreTradeResult).

Definition AdjustmentAmount_fmt (amount : AdjustmentAmount) : string :=
  match amount with
  | Delta d => "delta: " +:+ size_fmt d
  | Absolute v => "sz: " +:+ size_fmt v
  end.

Record AdjustmentRequestView : Type := mkAdjustmentRequest {
  ar_asset : Asset;
  ar_balance : option AdjustmentAmount;
  ar_balance_average_entry_price : option Price;
  ar_balance_realized_pnl : option PnlState;
  ar_balance_lower : option PositionSize;
  ar_balance_upper : option PositionSize;
  ar_held : option AdjustmentAmount;
  ar_held_lower : option PositionSize;
  ar_held_upper : option PositionSize;
  ar_incoming : option AdjustmentAmount;
  ar_incoming_lower : option PositionSize;
  ar_incoming_upper : option PositionSize
}.

Definition read_adjustment_request {A} {HF : HasAdjustmentFields A} (adjustment : A) :
    result PRejects AdjustmentRequestView :=
  let field {T} := adj_field (PR:=PolicyPreTradeResult) (T:=T) SPOT_FUNDS_POLICY_NAME in
  asset ← map_err (fun e => rejects_from_reject
             (missing_required_field_account_adjustment_reject SPOT_FUNDS_POLICY_NAME "balance asset" e))
             (balance_asset adjustment);
  balance ← field "balance" (adj_balance adjustment);
  average ← field "balance average entry price" (adj_balance_average_entry_price adjustment);
  realized ← field "balance realized pnl" (adj_balance_realized_pnl adjustment);
  balance_lower ← field "balance lower bound" (adj_balance_lower adjustment);
  balance_upper ← field "balance upper bound" (adj_balance_upper adjustment);
  held ← field "held" (adj_held adjustment);
  held_lower ← field "held lower bound" (adj_held_lower adjustment);
  held_upper ← field "held upper bound" (adj_held_upper adjustment);
  incoming ← field "incoming" (adj_incoming adjustment);
  incoming_lower ← field "incoming lower bound" (adj_incoming_lower adjustment);
  incoming_upper ← field "incoming upper bound" (adj_incoming_upper adjustment);
  Ok (mkAdjustmentRequest asset balance average realized balance_lower balance_upper held held_lower held_upper
        incoming incoming_lower incoming_upper).

Record AdjustmentRollback : Type := mkAdjustmentRollback {
  arb_available_delta : PositionSize;
  arb_held_delta : PositionSize;
  arb_incoming_delta : PositionSize;
  arb_asserted : Holdings;
  arb_prior_avg : option (option Price);
  arb_prior_realized : option (option PositionPnlState)
}.

Definition account_overflow (details : string) : PRejects :=
  rejects_from_reject (arithmetic_overflow_reject SPOT_FUNDS_POLICY_NAME RS_Account details).

(** One quantity field: adjusted, then held against its bounds. *)
Definition adjust_field (asset : Asset) (field : string) (target : AdjustmentTarget) (get : Holdings -> PositionSize)
    (lower upper : option PositionSize) (amount : option AdjustmentAmount) (h : Holdings) :
    result PRejects Holdings :=
  match amount with
  | None => Ok h
  | Some amount =>
      new ← map_err (fun _ => account_overflow
               ("account adjustment overflow: asset " +:+ Asset_fmt asset +:+ ", field " +:+ field +:+
                ", current " +:+ size_fmt (get h) +:+ ", applied " +:+ AdjustmentAmount_fmt amount))
               (apply_adjustment h target amount);
      if within_bounds (get new) lower upper then Ok new
      else Err (rejects_from_reject
                  (account_adjustment_bounds_exceeded_reject SPOT_FUNDS_POLICY_NAME asset field (get new) lower upper))
  end.

Definition position_state (state : PnlState) : PositionPnlState :=
  match state with PnlValue value => StatePnl value | PnlHalted reason => StateHalted reason end.

Definition is_halted (state : option PnlState) : bool :=
  match state with Some (PnlHalted _) => true | _ => false end.

Definition field_delta (asset : Asset) (field : string) (new current : PositionSize) : result PRejects PositionSize :=
  map_err (fun _ => account_overflow
             ("account adjustment delta overflow: asset " +:+ Asset_fmt asset +:+ ", field " +:+ field))
    (sg_checked_sub new current).

(** What an adjustment makes of a slot, with what its rollback needs. *)
Definition adjust_slot (request : AdjustmentRequestView) (current : Holdings) :
    result PRejects (AdjustmentRollback * Holdings) :=
  let asset := ar_asset request in
  new ← adjust_field asset "balance" TargetAvailable h_available (ar_balance_lower request)
          (ar_balance_upper request) (ar_balance request) current;
  new ← adjust_field asset "held" TargetHeld h_held (ar_held_lower request) (ar_held_upper request)
          (ar_held request) new;
  new ← adjust_field asset "incoming" TargetIncoming h_incoming (ar_incoming_lower request)
          (ar_incoming_upper request) (ar_incoming request) new;
  let new :=
    match ar_balance_average_entry_price request with
    | Some p => with_avg_entry_price new (Some p)
    | None => new
    end in
  let new :=
    match ar_balance_realized_pnl request with
    | Some state => force_set_realized_pnl_state new (position_state state)
    | None => new
    end in
  let halt_clears_average := is_halted (ar_balance_realized_pnl request) in
  let has_average := is_some (h_avg_entry_price current) in
  let avg_may_change :=
    is_some (ar_balance_average_entry_price request) || halt_clears_average ||
    ((is_some (ar_balance request) || is_some (ar_held request)) && has_average) in
  clear_avg_on_flat ←
    (if avg_may_change then
       net_owned ← map_err (fun _ => account_overflow
                     ("account adjustment net-position overflow: asset " +:+ Asset_fmt asset))
                     (sg_checked_add (h_available new) (h_held new));
       Ok (sg_is_zero net_owned)
     else Ok false);
  let new := if clear_avg_on_flat : bool then with_avg_entry_price new None else new in
  let restore_avg_on_rollback :=
    is_some (ar_balance_average_entry_price request) || halt_clears_average ||
    (clear_avg_on_flat && has_average) in
  available_delta ← field_delta asset "balance" (h_available new) (h_available current);
  held_delta ← field_delta asset "held" (h_held new) (h_held current);
  incoming_delta ← field_delta asset "incoming" (h_incoming new) (h_incoming current);
  Ok (mkAdjustmentRollback available_delta held_delta incoming_delta new
        (if restore_avg_on_rollback then Some (h_avg_entry_price current) else None)
        ((fun _ => h_realized_pnl current) <$> ar_balance_realized_pnl request), new).

(** The derived equality of slots; amounts compare as numbers. *)
Definition pnl_state_eqb (x y : PositionPnlState) : bool :=
  match x, y with
  | StatePnl a, StatePnl b => sg_eqb a b
  | StateHalted a, StateHalted b => bool_decide (a = b)
  | _, _ => false
  end.
Definition Holdings_eqb (x y : Holdings) : bool :=
  sg_eqb (h_available x) (h_available y) && sg_eqb (h_held x) (h_held y) &&
  sg_eqb (h_incoming x) (h_incoming y) && opt_eqb sg_eqb (h_avg_entry_price x) (h_avg_entry_price y) &&
  opt_eqb pnl_state_eqb (h_realized_pnl x) (h_realized_pnl y).

Definition restore_adjusted_snapshots (current_before_rollback asserted rolled_back : Holdings)
    (prior_avg : option (option Price)) (prior_realized : option (option PositionPnlState)) : Holdings :=
  if negb (Holdings_eqb current_before_rollback asserted) then rolled_back
  else
    let restored :=
      match prior_avg with Some previous => with_avg_entry_price rolled_back previous | None => rolled_back end in
    match prior_realized with
    | Some previous => with_realized_pnl_state restored previous
    | None => restored
    end.

Definition undo_adjustment (r : AdjustmentRollback) (slot : Holdings) : result AdjustmentOverflowError Holdings :=
  rolled_back ← apply_delta_rollback slot (arb_available_delta r) (arb_held_delta r) (arb_incoming_delta r);
  Ok (restore_adjusted_snapshots slot (arb_asserted r) rolled_back (arb_prior_avg r) (arb_prior_realized r)).

(** What the outcome reports of the position's P&L. *)
Definition adjusted_pnl_outcome (asset : Asset) (state : option PnlState) (r : AdjustmentRollback) :
    result PRejects (option PnlOutcome) :=
  match state with
  | Some (PnlValue absolute) =>
      delta ←
        match arb_prior_realized r with
        | Some (Some (StatePnl previous)) =>
            map_err (fun _ => account_overflow
                ("account adjustment delta overflow: asset " +:+ Asset_fmt asset +:+ ", field realized pnl"))
              (sg_checked_sub absolute previous)
        | _ => Ok absolute
        end;
      Ok (Some (Ok (mkPnlOutcomeAmount delta absolute)))
  | Some (PnlHalted reason) => Ok (Some (Err reason))
  | None => Ok None
  end.

Definition adjustment_entry (request : AdjustmentRequestView) (r : AdjustmentRollback) (new : Holdings)
    (realized_pnl : option PnlOutcome) : AccountOutcomeEntry :=
  mkAccountOutcomeEntry (ar_asset request)
    ((fun _ => mkOutcomeAmount (arb_available_delta r) (h_available new)) <$> ar_balance request)
    ((fun _ => mkOutcomeAmount (arb_held_delta r) (h_held new)) <$> ar_held request)
    ((fun _ => mkOutcomeAmount (arb_incoming_delta r) (h_incoming new)) <$> ar_incoming request)
    realized_pnl
    (if is_some (ar_balance request) || is_some (ar_balance_average_entry_price request) ||
        is_some (ar_balance_realized_pnl request)
     then h_avg_entry_price new else None).

(** The state a rolled-back assertion leaves in the ledger. *)
Definition restored_state (previous asserted current : PnlState) : PnlState :=
  match previous, asserted, current with
  | PnlValue previous_value, PnlValue asserted_value, PnlValue current_value =>
      match (delta ← sg_checked_sub current_value asserted_value; sg_checked_add delta previous_value) with
      | Ok v => PnlValue v
      | Err _ => PnlHalted ArithmeticOverflow
      end
  | _, _, _ => previous
  end.

End SlotAdjustment.

Section Adjustment.
Context {D : DecimalOps} {F : DecimalFormat} {G : DecimalDebug} {W Adjustment : Type}.
Context {HF : HasAdjustmentFields Adjustment}.
Context {O : Owns W SpotFundsState} {M : MarketDataSource W} {LW : LeaseWaits W}.
Implicit Types (self : SpotFundsPolicy) (account_id : AccountId).

Abbreviation St := (EngineState W).
Abbreviation PRejects := (Rejects PolicyPreTradeResult).

(** [AccountStateSnapshot::with_rollback]: group and currency as they are when the
    rollback runs. *)
Definition rollback_group (account : AccountId) (st : St) : option AccountGroupId := group_of (es_groups st) account.
Definition rollback_currency (account : AccountId) (st : St) : option Asset :=
  currency_of (as_currencies (es_accounts st)) account (rollback_group account st).

Definition adjustment_rollback (key : SlotKey) (r : AdjustmentRollback) (st : St) : St :=
  rollback_slot key (undo_adjustment r)
    (fun slot => "adjustment rollback overflow: asset " +:+ Asset_fmt key.2 +:+ ", available_delta " +:+
       size_fmt (arb_available_delta r) +:+ ", held_delta " +:+ size_fmt (arb_held_delta r) +:+
       ", incoming_delta " +:+ size_fmt (arb_incoming_delta r) +:+ ", slot " +:+ Holdings_debug slot) st.

Definition adjustment_mutation (key : SlotKey) (r : AdjustmentRollback) : Mutation St :=
  new_engine_owned_with_guard (fun st => st) (adjustment_rollback key r) (drop_holdings_guard key.1).

(** *** Assertions of the account's P&L *)

Definition commit_assertion account_id (token : Z) (st : St) : bool * St :=
  let '(_, pnl) :=
    with_mut_if_present (sf_pnl (sf_of st)) account_id (fun entry =>
      (tt, if bool_decide (pe_assertion_token entry = Some token) then mkPnlEntry (pe_state entry) None else entry)) in
  (true, sf_modify (fun x => set_pnl_table x pnl) st).

Definition rollback_assertion account_id (snapshot_account : AccountId) (previous : AccountPnlEntry)
    (asserted : PnlState) (token : Z) (st : St) : MutationRollbackResult * St :=
  let group := rollback_group snapshot_account st in
  let currency := rollback_currency snapshot_account st in
  let '((final_state, final_provenance), st) :=
    pnl_with_mut account_id (fun entry _ =>
      if bool_decide (pe_assertion_token entry = Some token) then
        let restored := restored_state (pe_state previous) asserted (pe_state entry) in
        ((restored, pe_assertion_token previous), mkPnlEntry restored (pe_assertion_token previous))
      else ((pe_state entry, pe_assertion_token entry), entry)) st in
  let st := set_blocked st (invalidate_provenance (es_blocked st) account_id token).2 in
  let block :=
    barrier ← pnl_barrier_for (sf_settings (sf_of st)) account_id group currency;
    account_pnl_block_for_state currency final_state barrier final_provenance in
  (rollback_default,
   match block with
   | Some block => set_blocked st (block_account (es_blocked st) account_id block).2
   | None => st
   end).

Definition assertion_mutation account_id (snapshot_account : AccountId) (previous : AccountPnlEntry)
    (asserted : PnlState) (token owner_id : Z) : Mutation St :=
  new_reporting_with_guard (commit_assertion account_id token)
    (rollback_assertion account_id snapshot_account previous asserted token)
    (drop_account_pnl_lease account_id owner_id).

Definition apply_account_pnl_adjustment self (ctx : AccountAdjustmentContext) account_id (state : PnlState)
    (mutations : Mutations St) (st : St) :
    result PRejects PolicyAccountAdjustmentResult * Mutations St * St :=
  let owner_id := ms_owner_id mutations in
  let st := acquire_account_pnl_lease account_id owner_id st in
  let group := group_of (es_groups st) (aac_account ctx) in
  let currency := currency_of (as_currencies (es_accounts st)) (aac_account ctx) group in
  let settings := sf_settings (sf_of st) in
  let barrier := pnl_barrier_for settings account_id group currency in
  let '(token, st) := next_owner st in
  let '(previous, st) :=
    pnl_with_mut account_id (fun entry _ => (entry, mkPnlEntry state (Some token))) st in
  let mutations :=
    mutations_push mutations (assertion_mutation account_id (aac_account ctx) previous state token owner_id) in
  let blocks :=
    option_list (or_else
      (barrier ← barrier; account_pnl_block_for_state currency state barrier None)
      (pnl_axis_block self settings account_id group currency false st)) in
  (Ok (mkPolicyAccountAdjustmentResult [] blocks), mutations, st).

Definition is_empty_request (request : AdjustmentRequestView) : bool :=
  is_none (ar_balance request) && is_none (ar_balance_average_entry_price request) &&
  is_none (ar_balance_realized_pnl request) && is_none (ar_held request) && is_none (ar_incoming request).

Definition apply_slot_adjustment account_id (request : AdjustmentRequestView) (mutations : Mutations St) (st : St) :
    result PRejects PolicyAccountAdjustmentResult * Mutations St * St :=
  let st := sf_modify (fun x => begin_holdings_mutation x account_id) st in
  let key := (account_id, ar_asset request) in
  let '(r, store) :=
    store_with_mut_or_insert (sf_holdings (sf_of st)) key holdings_zero (fun slot _ =>
      match adjust_slot request slot with
      | Ok (rollback, new) => (Ok (rollback, new), new)
      | Err rejects => (Err rejects, slot)
      end) in
  let st := sf_modify (fun x => set_holdings x store) st in
  match r with
  | Err rejects => (Err rejects, mutations, drop_holdings_guard account_id st)
  | Ok (rollback, new) =>
      let st :=
        if holdings_is_zero new
        then sf_modify (fun x => set_holdings x (store_remove_if_zero (sf_holdings x) key).2) st
        else st in
      let mutations := mutations_push mutations (adjustment_mutation key rollback) in
      match adjusted_pnl_outcome (ar_asset request) (ar_balance_realized_pnl request) rollback with
      | Err rejects => (Err rejects, mutations, st)
      | Ok realized_pnl =>
          (Ok (mkPolicyAccountAdjustmentResult [adjustment_entry request rollback new realized_pnl] []),
           mutations, st)
      end
  end.

Definition apply_account_adjustment_impl self (ctx : AccountAdjustmentContext) account_id (adjustment : Adjustment)
    (mutations : Mutations St) (st : St) :
    result PRejects PolicyAccountAdjustmentResult * Mutations St * St :=
  match adj_field SPOT_FUNDS_POLICY_NAME "account pnl operation" (adjustment_pnl_operation adjustment) with
  | Err rejects => (Err rejects, mutations, st)
  | Ok (Some state) => apply_account_pnl_adjustment self ctx account_id state mutations st
  | Ok None =>
      match read_adjustment_request adjustment with
      | Err rejects => (Err rejects, mutations, st)
      | Ok request =>
          if is_empty_request request then (Ok (mkPolicyAccountAdjustmentResult [] []), mutations, st)
          else apply_slot_adjustment account_id request mutations st
      end
  end.

End Adjustment.

(** ** The policy *)
Section SpotFundsPolicy.
Context {D : DecimalOps} {F : DecimalFormat} {G : DecimalDebug} {W Order Report Adjustment : Type}.
Context {HI : HasInstrument Order} {HS : HasSide Order} {HA : HasTradeAmount Order} {HP : HasOrderPrice Order}.
Context {RA : HasAccountId Report} {RI : HasInstrument Report} {RS : HasSide Report}
  {RT : HasExecutionReportLastTrade Report} {RF : HasExecutionReportFillFee Report}
  {RQ : HasRemainingReservedQuantity Report} {RE : HasExecutionReportIsFinal Report}
  {RL : HasPreTradeLock Report}.
Context {HF : HasAdjustmentFields Adjustment}.
Context {O : Owns W SpotFundsState} {M : MarketDataSource W} {LW : LeaseWaits W}.
Context (reads : nat).

Definition spot_funds_policy (self : SpotFundsPolicy) : PreTradePolicy W Order Report Adjustment :=
  mkPolicy SPOT_FUNDS_POLICY_NAME (sp_group_id self) start_default start_default
    (perform_pre_trade_check_impl self) (perform_pre_trade_check_dry_run_impl self)
    (sf_apply_execution_report reads self)
    (fun ctx account_id adjustment mutations s =>
       let '(r, mutations, st) :=
         apply_account_adjustment_impl self ctx account_id adjustment mutations s.2 in
       (r, mutations, (s.1, st)))
    retire_account_state.

End SpotFundsPolicy.
