(* ===== verification/Requests.v ===== *)
(** * Requests: the request models behind the field accessors

    src/crates/openpit/src/core: order.rs, execution_report.rs and
    account_adjustment.rs with the accessor traits of request_trait.rs and the two
    macros of macros.rs.  A request is a stack of layers; a layer answers for the
    fields of its payload and hands the others through. *)
From S2P Require Import Prelude.
From S2P Require Import Decimal.
From S2P Require Import Param.
From S2P Require Import ParamTypes.
From S2P Require Import Identifiers.
From S2P Require Import Lock.
From S2P Require Import Policy.
From S2P Require Import SpotFundsParts.
From S2P Require Import SpotFundsExecution.
From S2P Require Import SpotFundsAdjustment.
Open Scope string_scope.

(** ** The remaining accessors *)

Class HasReduceOnly (Order : Type) : Type := reduce_only : Order -> FieldResult bool.
Class HasClosePosition (Order : Type) : Type := close_position : Order -> FieldResult bool.
Class HasAutoBorrow (Order : Type) : Type := auto_borrow : Order -> FieldResult bool.
Class HasOrderPositionSide (Order : Type) : Type := order_position_side : Order -> FieldResult (option PositionSide).
Class HasOrderLeverage (Order : Type) : Type := order_leverage : Order -> FieldResult (option Leverage).
Class HasOrderCollateralAsset (Order : Type) : Type := order_collateral_asset : Order -> FieldResult (option Asset).
Class HasExecutionReportPositionEffect (Report : Type) : Type := position_effect : Report -> FieldResult (option PositionEffect).
Class HasExecutionReportPositionSide (Report : Type) : Type := report_position_side : Report -> FieldResult (option PositionSide).
Class HasBalanceAsset (Adjustment : Type) : Type := request_balance_asset : Adjustment -> FieldResult Asset.
Class HasPositionInstrument (Adjustment : Type) : Type := position_instrument : Adjustment -> FieldResult Instrument.
Class HasCollateralAsset (Adjustment : Type) : Type := collateral_asset : Adjustment -> FieldResult Asset.
Class HasPositionMode (Adjustment : Type) : Type := position_mode : Adjustment -> FieldResult PositionMode.
Class HasAccountAdjustmentPositionLeverage (Adjustment : Type) : Type := position_leverage : Adjustment -> FieldResult (option Leverage).
Class HasAverageEntryPrice {D : DecimalOps} (Adjustment : Type) : Type := average_entry_price : Adjustment -> FieldResult Price.
Class HasAccountAdjustmentPnlOperation {D : DecimalOps} (Adjustment : Type) : Type :=
  account_adjustment_pnl_operation : Adjustment -> FieldResult (option PnlState).
Class HasAccountAdjustmentBalanceAverageEntryPrice {D : DecimalOps} (Adjustment : Type) : Type :=
  balance_average_entry_price : Adjustment -> FieldResult (option Price).
(** [balance_realized_pnl] has a default. *)
Class HasAccountAdjustmentBalance {D : DecimalOps} (Adjustment : Type) : Type := {
  request_balance : Adjustment -> FieldResult (option AdjustmentAmount);
  request_balance_realized_pnl : Adjustment -> FieldResult (option PnlState)
}.
Class HasAccountAdjustmentHeld {D : DecimalOps} (Adjustment : Type) : Type :=
  request_held : Adjustment -> FieldResult (option AdjustmentAmount).
Class HasAccountAdjustmentIncoming {D : DecimalOps} (Adjustment : Type) : Type :=
  request_incoming : Adjustment -> FieldResult (option AdjustmentAmount).
Class HasAccountAdjustmentBalanceUpperBound {D : DecimalOps} (Adjustment : Type) : Type :=
  balance_upper : Adjustment -> FieldResult (option PositionSize).
Class HasAccountAdjustmentBalanceLowerBound {D : DecimalOps} (Adjustment : Type) : Type :=
  balance_lower : Adjustment -> FieldResult (option PositionSize).
Class HasAccountAdjustmentHeldUpperBound {D : DecimalOps} (Adjustment : Type) : Type :=
  held_upper : Adjustment -> FieldResult (option PositionSize).
Class HasAccountAdjustmentHeldLowerBound {D : DecimalOps} (Adjustment : Type) : Type :=
  held_lower : Adjustment -> FieldResult (option PositionSize).
Class HasAccountAdjustmentIncomingUpperBound {D : DecimalOps} (Adjustment : Type) : Type :=
  incoming_upper : Adjustment -> FieldResult (option PositionSize).
Class HasAccountAdjustmentIncomingLowerBound {D : DecimalOps} (Adjustment : Type) : Type :=
  incoming_lower : Adjustment -> FieldResult (option PositionSize).

(** What the spot funds policy reads of an adjustment, from the traits it bounds
    adjustments by. *)
#[export] Instance adjustment_fields {D : DecimalOps} {A} `{!HasAccountAdjustmentPnlOperation A} `{!HasBalanceAsset A}
    `{!HasAccountAdjustmentBalance A} `{!HasAccountAdjustmentBalanceAverageEntryPrice A} `{!HasAccountAdjustmentHeld A}
    `{!HasAccountAdjustmentIncoming A} `{!HasAccountAdjustmentBalanceLowerBound A} `{!HasAccountAdjustmentBalanceUpperBound A}
    `{!HasAccountAdjustmentHeldLowerBound A} `{!HasAccountAdjustmentHeldUpperBound A}
    `{!HasAccountAdjustmentIncomingLowerBound A} `{!HasAccountAdjustmentIncomingUpperBound A} : HasAdjustmentFields A := {|
  adjustment_pnl_operation := account_adjustment_pnl_operation;
  balance_asset := request_balance_asset;
  adj_balance := request_balance;
  adj_balance_average_entry_price := balance_average_entry_price;
  adj_balance_realized_pnl := request_balance_realized_pnl;
  adj_balance_lower := balance_lower;
  adj_balance_upper := balance_upper;
  adj_held := request_held;
  adj_held_lower := held_lower;
  adj_held_upper := held_upper;
  adj_incoming := request_incoming;
  adj_incoming_lower := incoming_lower;
  adj_incoming_upper := incoming_upper
|}.

Section Requests.
Context {D : DecimalOps}.

(** ** Orders *)

Record OrderOperation : Type := mkOrderOperation {
  oop_instrument : Instrument;
  oop_account_id : AccountId;
  oop_trade_amount : TradeAmount;
  oop_price : option Price;
  oop_side : Side
}.
Record WithOrderOperation (T : Type) : Type := mkWithOrderOperation { woop_inner : T; woop_operation : OrderOperation }.
Record OrderPosition : Type := mkOrderPosition {
  opos_position_side : option PositionSide;
  opos_reduce_only : bool;
  opos_close_position : bool
}.
Record WithOrderPosition (T : Type) : Type := mkWithOrderPosition { wopos_inner : T; wopos_position : OrderPosition }.
Record OrderMargin : Type := mkOrderMargin {
  om_leverage : option Leverage;
  om_collateral_asset : option Asset;
  om_auto_borrow : bool
}.
Record WithOrderMargin (T : Type) : Type := mkWithOrderMargin { wom_inner : T; wom_margin : OrderMargin }.

#[global] Arguments mkWithOrderOperation {T}.
#[global] Arguments woop_inner {T}.
#[global] Arguments woop_operation {T}.
#[global] Arguments mkWithOrderPosition {T}.
#[global] Arguments wopos_inner {T}.
#[global] Arguments wopos_position {T}.
#[global] Arguments mkWithOrderMargin {T}.
#[global] Arguments wom_inner {T}.
#[global] Arguments wom_margin {T}.

#[export] Instance OrderOperation_instrument : HasInstrument OrderOperation := fun o => Ok (oop_instrument o).
#[export] Instance WithOrderOperation_instrument {T} : HasInstrument (WithOrderOperation T) := fun w => instrument (woop_operation w).
#[export] Instance WithOrderOperation_reduce_only {T} `{!HasReduceOnly T} : HasReduceOnly (WithOrderOperation T) := fun w => reduce_only (woop_inner w).
#[export] Instance WithOrderOperation_close_position {T} `{!HasClosePosition T} : HasClosePosition (WithOrderOperation T) := fun w => close_position (woop_inner w).
#[export] Instance WithOrderOperation_auto_borrow {T} `{!HasAutoBorrow T} : HasAutoBorrow (WithOrderOperation T) := fun w => auto_borrow (woop_inner w).
#[export] Instance WithOrderOperation_report_pnl {T} `{!HasPnl T} : HasPnl (WithOrderOperation T) := fun w => report_pnl (woop_inner w).
#[export] Instance WithOrderOperation_report_fee {T} `{!HasFee T} : HasFee (WithOrderOperation T) := fun w => report_fee (woop_inner w).
#[export] Instance WithOrderOperation_remaining_reserved_quantity {T} `{!HasRemainingReservedQuantity T} : HasRemainingReservedQuantity (WithOrderOperation T) := fun w => remaining_reserved_quantity (woop_inner w).
#[export] Instance WithOrderOperation_report_lock {T} `{!HasPreTradeLock T} : HasPreTradeLock (WithOrderOperation T) := fun w => report_lock (woop_inner w).
#[export] Instance WithOrderOperation_order_position_side {T} `{!HasOrderPositionSide T} : HasOrderPositionSide (WithOrderOperation T) := fun w => order_position_side (woop_inner w).
#[export] Instance WithOrderOperation_order_leverage {T} `{!HasOrderLeverage T} : HasOrderLeverage (WithOrderOperation T) := fun w => order_leverage (woop_inner w).
#[export] Instance WithOrderOperation_order_collateral_asset {T} `{!HasOrderCollateralAsset T} : HasOrderCollateralAsset (WithOrderOperation T) := fun w => order_collateral_asset (woop_inner w).
#[export] Instance WithOrderOperation_last_trade {T} `{!HasExecutionReportLastTrade T} : HasExecutionReportLastTrade (WithOrderOperation T) := fun w => last_trade (woop_inner w).
#[export] Instance WithOrderOperation_is_final {T} `{!HasExecutionReportIsFinal T} : HasExecutionReportIsFinal (WithOrderOperation T) := fun w => is_final (woop_inner w).
#[export] Instance WithOrderOperation_position_effect {T} `{!HasExecutionReportPositionEffect T} : HasExecutionReportPositionEffect (WithOrderOperation T) := fun w => position_effect (woop_inner w).
#[export] Instance WithOrderOperation_report_position_side {T} `{!HasExecutionReportPositionSide T} : HasExecutionReportPositionSide (WithOrderOperation T) := fun w => report_position_side (woop_inner w).
#[export] Instance OrderOperation_account_id : HasAccountId OrderOperation := fun o _ => Ok (oop_account_id o).
#[export] Instance WithOrderOperation_account_id {T} : HasAccountId (WithOrderOperation T) := fun w => account_id (woop_operation w).
#[export] Instance OrderOperation_trade_amount : HasTradeAmount OrderOperation := fun o => Ok (oop_trade_amount o).
#[export] Instance WithOrderOperation_trade_amount {T} : HasTradeAmount (WithOrderOperation T) := fun w => trade_amount (woop_operation w).
#[export] Instance OrderOperation_price : HasOrderPrice OrderOperation := fun o => Ok (oop_price o).
#[export] Instance WithOrderOperation_price {T} : HasOrderPrice (WithOrderOperation T) := fun w => price (woop_operation w).
#[export] Instance OrderOperation_side : HasSide OrderOperation := fun o => Ok (oop_side o).
#[export] Instance WithOrderOperation_side {T} : HasSide (WithOrderOperation T) := fun w => side (woop_operation w).
#[export] Instance WithOrderPosition_instrument {T} `{!HasInstrument T} : HasInstrument (WithOrderPosition T) := fun w => instrument (wopos_inner w).
#[export] Instance WithOrderPosition_account_id {T} `{!HasAccountId T} : HasAccountId (WithOrderPosition T) := fun w => account_id (wopos_inner w).
#[export] Instance WithOrderPosition_trade_amount {T} `{!HasTradeAmount T} : HasTradeAmount (WithOrderPosition T) := fun w => trade_amount (wopos_inner w).
#[export] Instance WithOrderPosition_price {T} `{!HasOrderPrice T} : HasOrderPrice (WithOrderPosition T) := fun w => price (wopos_inner w).
#[export] Instance WithOrderPosition_side {T} `{!HasSide T} : HasSide (WithOrderPosition T) := fun w => side (wopos_inner w).
#[export] Instance WithOrderPosition_auto_borrow {T} `{!HasAutoBorrow T} : HasAutoBorrow (WithOrderPosition T) := fun w => auto_borrow (wopos_inner w).
#[export] Instance WithOrderPosition_report_pnl {T} `{!HasPnl T} : HasPnl (WithOrderPosition T) := fun w => report_pnl (wopos_inner w).
#[export] Instance WithOrderPosition_report_fee {T} `{!HasFee T} : HasFee (WithOrderPosition T) := fun w => report_fee (wopos_inner w).
#[export] Instance WithOrderPosition_remaining_reserved_quantity {T} `{!HasRemainingReservedQuantity T} : HasRemainingReservedQuantity (WithOrderPosition T) := fun w => remaining_reserved_quantity (wopos_inner w).
#[export] Instance WithOrderPosition_report_lock {T} `{!HasPreTradeLock T} : HasPreTradeLock (WithOrderPosition T) := fun w => report_lock (wopos_inner w).
#[export] Instance WithOrderPosition_order_leverage {T} `{!HasOrderLeverage T} : HasOrderLeverage (WithOrderPosition T) := fun w => order_leverage (wopos_inner w).
#[export] Instance WithOrderPosition_order_collateral_asset {T} `{!HasOrderCollateralAsset T} : HasOrderCollateralAsset (WithOrderPosition T) := fun w => order_collateral_asset (wopos_inner w).
#[export] Instance WithOrderPosition_last_trade {T} `{!HasExecutionReportLastTrade T} : HasExecutionReportLastTrade (WithOrderPosition T) := fun w => last_trade (wopos_inner w).
#[export] Instance WithOrderPosition_is_final {T} `{!HasExecutionReportIsFinal T} : HasExecutionReportIsFinal (WithOrderPosition T) := fun w => is_final (wopos_inner w).
#[export] Instance WithOrderPosition_position_effect {T} `{!HasExecutionReportPositionEffect T} : HasExecutionReportPositionEffect (WithOrderPosition T) := fun w => position_effect (wopos_inner w).
#[export] Instance WithOrderPosition_report_position_side {T} `{!HasExecutionReportPositionSide T} : HasExecutionReportPositionSide (WithOrderPosition T) := fun w => report_position_side (wopos_inner w).
#[export] Instance OrderPosition_order_position_side : HasOrderPositionSide OrderPosition := fun o => Ok (opos_position_side o).
#[export] Instance WithOrderPosition_order_position_side {T} : HasOrderPositionSide (WithOrderPosition T) := fun w => order_position_side (wopos_position w).
#[export] Instance OrderPosition_reduce_only : HasReduceOnly OrderPosition := fun o => Ok (opos_reduce_only o).
#[export] Instance WithOrderPosition_reduce_only {T} : HasReduceOnly (WithOrderPosition T) := fun w => reduce_only (wopos_position w).
#[export] Instance OrderPosition_close_position : HasClosePosition OrderPosition := fun o => Ok (opos_close_position o).
#[export] Instance WithOrderPosition_close_position {T} : HasClosePosition (WithOrderPosition T) := fun w => close_position (wopos_position w).
#[export] Instance OrderMargin_order_collateral_asset : HasOrderCollateralAsset OrderMargin := fun o => Ok (om_collateral_asset o).
#[export] Instance WithOrderMargin_order_collateral_asset {T} : HasOrderCollateralAsset (WithOrderMargin T) := fun w => order_collateral_asset (wom_margin w).
#[export] Instance OrderMargin_order_leverage : HasOrderLeverage OrderMargin := fun o => Ok (om_leverage o).
#[export] Instance WithOrderMargin_order_leverage {T} : HasOrderLeverage (WithOrderMargin T) := fun w => order_leverage (wom_margin w).
#[export] Instance OrderMargin_auto_borrow : HasAutoBorrow OrderMargin := fun o => Ok (om_auto_borrow o).
#[export] Instance WithOrderMargin_auto_borrow {T} : HasAutoBorrow (WithOrderMargin T) := fun w => auto_borrow (wom_margin w).
#[export] Instance WithOrderMargin_instrument {T} `{!HasInstrument T} : HasInstrument (WithOrderMargin T) := fun w => instrument (wom_inner w).
#[export] Instance WithOrderMargin_account_id {T} `{!HasAccountId T} : HasAccountId (WithOrderMargin T) := fun w => account_id (wom_inner w).
#[export] Instance WithOrderMargin_trade_amount {T} `{!HasTradeAmount T} : HasTradeAmount (WithOrderMargin T) := fun w => trade_amount (wom_inner w).
#[export] Instance WithOrderMargin_price {T} `{!HasOrderPrice T} : HasOrderPrice (WithOrderMargin T) := fun w => price (wom_inner w).
#[export] Instance WithOrderMargin_side {T} `{!HasSide T} : HasSide (WithOrderMargin T) := fun w => side (wom_inner w).
#[export] Instance WithOrderMargin_order_position_side {T} `{!HasOrderPositionSide T} : HasOrderPositionSide (WithOrderMargin T) := fun w => order_position_side (wom_inner w).
#[export] Instance WithOrderMargin_reduce_only {T} `{!HasReduceOnly T} : HasReduceOnly (WithOrderMargin T) := fun w => reduce_only (wom_inner w).
#[export] Instance WithOrderMargin_close_position {T} `{!HasClosePosition T} : HasClosePosition (WithOrderMargin T) := fun w => close_position (wom_inner w).
#[export] Instance WithOrderMargin_report_pnl {T} `{!HasPnl T} : HasPnl (WithOrderMargin T) := fun w => report_pnl (wom_inner w).
#[export] Instance WithOrderMargin_report_fee {T} `{!HasFee T} : HasFee (WithOrderMargin T) := fun w => report_fee (wom_inner w).
#[export] Instance WithOrderMargin_remaining_reserved_quantity {T} `{!HasRemainingReservedQuantity T} : HasRemainingReservedQuantity (WithOrderMargin T) := fun w => remaining_reserved_quantity (wom_inner w).
#[export] Instance WithOrderMargin_report_lock {T} `{!HasPreTradeLock T} : HasPreTradeLock (WithOrderMargin T) := fun w => report_lock (wom_inner w).
#[export] Instance WithOrderMargin_last_trade {T} `{!HasExecutionReportLastTrade T} : HasExecutionReportLastTrade (WithOrderMargin T) := fun w => last_trade (wom_inner w).
#[export] Instance WithOrderMargin_is_final {T} `{!HasExecutionReportIsFinal T} : HasExecutionReportIsFinal (WithOrderMargin T) := fun w => is_final (wom_inner w).
#[export] Instance WithOrderMargin_position_effect {T} `{!HasExecutionReportPositionEffect T} : HasExecutionReportPositionEffect (WithOrderMargin T) := fun w => position_effect (wom_inner w).
#[export] Instance WithOrderMargin_report_position_side {T} `{!HasExecutionReportPositionSide T} : HasExecutionReportPositionSide (WithOrderMargin T) := fun w => report_position_side (wom_inner w).

(** ** Execution reports *)

Record ExecutionReportOperation : Type := mkExecutionReportOperation {
  ero_instrument : Instrument;
  ero_account_id : AccountId;
  ero_side : Side
}.
Record WithExecutionReportOperation (T : Type) : Type := mkWithExecutionReportOperation { wero_inner : T; wero_operation : ExecutionReportOperation }.
Record FinancialImpact : Type := mkFinancialImpact {
  fi_pnl : Pnl;
  fi_fee : Fee
}.
Record WithFinancialImpact (T : Type) : Type := mkWithFinancialImpact { wfi_inner : T; wfi_financial_impact : FinancialImpact }.
Record ExecutionReportFillDetails : Type := mkExecutionReportFillDetails {
  erfd_last_trade : option Trade;
  erfd_fee : option MonetaryAmount;
  erfd_remaining_reserved_quantity : Quantity;
  erfd_lock : PreTradeLock;
  erfd_is_final : bool
}.
Record WithExecutionReportFillDetails (T : Type) : Type := mkWithExecutionReportFillDetails { werfd_inner : T; werfd_fill : ExecutionReportFillDetails }.
Record ExecutionReportPositionImpact : Type := mkExecutionReportPositionImpact {
  erp_position_effect : option PositionEffect;
  erp_position_side : option PositionSide
}.
Record WithExecutionReportPositionImpact (T : Type) : Type := mkWithExecutionReportPositionImpact { werp_inner : T; werp_position_impact : ExecutionReportPositionImpact }.

#[global] Arguments mkWithExecutionReportOperation {T}.
#[global] Arguments wero_inner {T}.
#[global] Arguments wero_operation {T}.
#[global] Arguments mkWithFinancialImpact {T}.
#[global] Arguments wfi_inner {T}.
#[global] Arguments wfi_financial_impact {T}.
#[global] Arguments mkWithExecutionReportFillDetails {T}.
#[global] Arguments werfd_inner {T}.
#[global] Arguments werfd_fill {T}.
#[global] Arguments mkWithExecutionReportPositionImpact {T}.
#[global] Arguments werp_inner {T}.
#[global] Arguments werp_position_impact {T}.

#[export] Instance ExecutionReportOperation_instrument : HasInstrument ExecutionReportOperation := fun o => Ok (ero_instrument o).
#[export] Instance WithExecutionReportOperation_instrument {T} : HasInstrument (WithExecutionReportOperation T) := fun w => instrument (wero_operation w).
#[export] Instance WithExecutionReportOperation_reduce_only {T} `{!HasReduceOnly T} : HasReduceOnly (WithExecutionReportOperation T) := fun w => reduce_only (wero_inner w).
#[export] Instance WithExecutionReportOperation_close_position {T} `{!HasClosePosition T} : HasClosePosition (WithExecutionReportOperation T) := fun w => close_position (wero_inner w).
#[export] Instance WithExecutionReportOperation_auto_borrow {T} `{!HasAutoBorrow T} : HasAutoBorrow (WithExecutionReportOperation T) := fun w => auto_borrow (wero_inner w).
#[export] Instance WithExecutionReportOperation_report_pnl {T} `{!HasPnl T} : HasPnl (WithExecutionReportOperation T) := fun w => report_pnl (wero_inner w).
#[export] Instance WithExecutionReportOperation_report_fee {T} `{!HasFee T} : HasFee (WithExecutionReportOperation T) := fun w => report_fee (wero_inner w).
#[export] Instance WithExecutionReportOperation_remaining_reserved_quantity {T} `{!HasRemainingReservedQuantity T} : HasRemainingReservedQuantity (WithExecutionReportOperation T) := fun w => remaining_reserved_quantity (wero_inner w).
#[export] Instance WithExecutionReportOperation_report_lock {T} `{!HasPreTradeLock T} : HasPreTradeLock (WithExecutionReportOperation T) := fun w => report_lock (wero_inner w).
#[export] Instance WithExecutionReportOperation_price {T} `{!HasOrderPrice T} : HasOrderPrice (WithExecutionReportOperation T) := fun w => price (wero_inner w).
#[export] Instance WithExecutionReportOperation_order_position_side {T} `{!HasOrderPositionSide T} : HasOrderPositionSide (WithExecutionReportOperation T) := fun w => order_position_side (wero_inner w).
#[export] Instance WithExecutionReportOperation_order_leverage {T} `{!HasOrderLeverage T} : HasOrderLeverage (WithExecutionReportOperation T) := fun w => order_leverage (wero_inner w).
#[export] Instance WithExecutionReportOperation_order_collateral_asset {T} `{!HasOrderCollateralAsset T} : HasOrderCollateralAsset (WithExecutionReportOperation T) := fun w => order_collateral_asset (wero_inner w).
#[export] Instance WithExecutionReportOperation_last_trade {T} `{!HasExecutionReportLastTrade T} : HasExecutionReportLastTrade (WithExecutionReportOperation T) := fun w => last_trade (wero_inner w).
#[export] Instance WithExecutionReportOperation_fill_fee {T} `{!HasExecutionReportFillFee T} : HasExecutionReportFillFee (WithExecutionReportOperation T) := fun w => fill_fee (wero_inner w).
#[export] Instance WithExecutionReportOperation_is_final {T} `{!HasExecutionReportIsFinal T} : HasExecutionReportIsFinal (WithExecutionReportOperation T) := fun w => is_final (wero_inner w).
#[export] Instance WithExecutionReportOperation_position_effect {T} `{!HasExecutionReportPositionEffect T} : HasExecutionReportPositionEffect (WithExecutionReportOperation T) := fun w => position_effect (wero_inner w).
#[export] Instance WithExecutionReportOperation_report_position_side {T} `{!HasExecutionReportPositionSide T} : HasExecutionReportPositionSide (WithExecutionReportOperation T) := fun w => report_position_side (wero_inner w).
#[export] Instance ExecutionReportOperation_account_id : HasAccountId ExecutionReportOperation := fun o _ => Ok (ero_account_id o).
#[export] Instance WithExecutionReportOperation_account_id {T} : HasAccountId (WithExecutionReportOperation T) := fun w => account_id (wero_operation w).
#[export] Instance ExecutionReportOperation_side : HasSide ExecutionReportOperation := fun o => Ok (ero_side o).
#[export] Instance WithExecutionReportOperation_side {T} : HasSide (WithExecutionReportOperation T) := fun w => side (wero_operation w).
#[export] Instance WithFinancialImpact_instrument {T} `{!HasInstrument T} : HasInstrument (WithFinancialImpact T) := fun w => instrument (wfi_inner w).
#[export] Instance WithFinancialImpact_account_id {T} `{!HasAccountId T} : HasAccountId (WithFinancialImpact T) := fun w => account_id (wfi_inner w).
#[export] Instance WithFinancialImpact_side {T} `{!HasSide T} : HasSide (WithFinancialImpact T) := fun w => side (wfi_inner w).
#[export] Instance WithFinancialImpact_trade_amount {T} `{!HasTradeAmount T} : HasTradeAmount (WithFinancialImpact T) := fun w => trade_amount (wfi_inner w).
#[export] Instance WithFinancialImpact_reduce_only {T} `{!HasReduceOnly T} : HasReduceOnly (WithFinancialImpact T) := fun w => reduce_only (wfi_inner w).
#[export] Instance WithFinancialImpact_close_position {T} `{!HasClosePosition T} : HasClosePosition (WithFinancialImpact T) := fun w => close_position (wfi_inner w).
#[export] Instance WithFinancialImpact_auto_borrow {T} `{!HasAutoBorrow T} : HasAutoBorrow (WithFinancialImpact T) := fun w => auto_borrow (wfi_inner w).
#[export] Instance WithFinancialImpact_remaining_reserved_quantity {T} `{!HasRemainingReservedQuantity T} : HasRemainingReservedQuantity (WithFinancialImpact T) := fun w => remaining_reserved_quantity (wfi_inner w).
#[export] Instance WithFinancialImpact_report_lock {T} `{!HasPreTradeLock T} : HasPreTradeLock (WithFinancialImpact T) := fun w => report_lock (wfi_inner w).
#[export] Instance WithFinancialImpact_price {T} `{!HasOrderPrice T} : HasOrderPrice (WithFinancialImpact T) := fun w => price (wfi_inner w).
#[export] Instance WithFinancialImpact_order_position_side {T} `{!HasOrderPositionSide T} : HasOrderPositionSide (WithFinancialImpact T) := fun w => order_position_side (wfi_inner w).
#[export] Instance WithFinancialImpact_order_leverage {T} `{!HasOrderLeverage T} : HasOrderLeverage (WithFinancialImpact T) := fun w => order_leverage (wfi_inner w).
#[export] Instance WithFinancialImpact_order_collateral_asset {T} `{!HasOrderCollateralAsset T} : HasOrderCollateralAsset (WithFinancialImpact T) := fun w => order_collateral_asset (wfi_inner w).
#[export] Instance WithFinancialImpact_last_trade {T} `{!HasExecutionReportLastTrade T} : HasExecutionReportLastTrade (WithFinancialImpact T) := fun w => last_trade (wfi_inner w).
#[export] Instance WithFinancialImpact_fill_fee {T} `{!HasExecutionReportFillFee T} : HasExecutionReportFillFee (WithFinancialImpact T) := fun w => fill_fee (wfi_inner w).
#[export] Instance WithFinancialImpact_is_final {T} `{!HasExecutionReportIsFinal T} : HasExecutionReportIsFinal (WithFinancialImpact T) := fun w => is_final (wfi_inner w).
#[export] Instance WithFinancialImpact_position_effect {T} `{!HasExecutionReportPositionEffect T} : HasExecutionReportPositionEffect (WithFinancialImpact T) := fun w => position_effect (wfi_inner w).
#[export] Instance WithFinancialImpact_report_position_side {T} `{!HasExecutionReportPositionSide T} : HasExecutionReportPositionSide (WithFinancialImpact T) := fun w => report_position_side (wfi_inner w).
#[export] Instance FinancialImpact_report_pnl : HasPnl FinancialImpact := fun o => Ok (fi_pnl o).
#[export] Instance WithFinancialImpact_report_pnl {T} : HasPnl (WithFinancialImpact T) := fun w => report_pnl (wfi_financial_impact w).
#[export] Instance FinancialImpact_report_fee : HasFee FinancialImpact := fun o => Ok (fi_fee o).
#[export] Instance WithFinancialImpact_report_fee {T} : HasFee (WithFinancialImpact T) := fun w => report_fee (wfi_financial_impact w).
#[export] Instance WithExecutionReportFillDetails_instrument {T} `{!HasInstrument T} : HasInstrument (WithExecutionReportFillDetails T) := fun w => instrument (werfd_inner w).
#[export] Instance WithExecutionReportFillDetails_account_id {T} `{!HasAccountId T} : HasAccountId (WithExecutionReportFillDetails T) := fun w => account_id (werfd_inner w).
#[export] Instance WithExecutionReportFillDetails_side {T} `{!HasSide T} : HasSide (WithExecutionReportFillDetails T) := fun w => side (werfd_inner w).
#[export] Instance WithExecutionReportFillDetails_trade_amount {T} `{!HasTradeAmount T} : HasTradeAmount (WithExecutionReportFillDetails T) := fun w => trade_amount (werfd_inner w).
#[export] Instance WithExecutionReportFillDetails_reduce_only {T} `{!HasReduceOnly T} : HasReduceOnly (WithExecutionReportFillDetails T) := fun w => reduce_only (werfd_inner w).
#[export] Instance WithExecutionReportFillDetails_close_position {T} `{!HasClosePosition T} : HasClosePosition (WithExecutionReportFillDetails T) := fun w => close_position (werfd_inner w).
#[export] Instance WithExecutionReportFillDetails_auto_borrow {T} `{!HasAutoBorrow T} : HasAutoBorrow (WithExecutionReportFillDetails T) := fun w => auto_borrow (werfd_inner w).
#[export] Instance WithExecutionReportFillDetails_report_pnl {T} `{!HasPnl T} : HasPnl (WithExecutionReportFillDetails T) := fun w => report_pnl (werfd_inner w).
#[export] Instance WithExecutionReportFillDetails_report_fee {T} `{!HasFee T} : HasFee (WithExecutionReportFillDetails T) := fun w => report_fee (werfd_inner w).
#[export] Instance WithExecutionReportFillDetails_price {T} `{!HasOrderPrice T} : HasOrderPrice (WithExecutionReportFillDetails T) := fun w => price (werfd_inner w).
#[export] Instance WithExecutionReportFillDetails_order_position_side {T} `{!HasOrderPositionSide T} : HasOrderPositionSide (WithExecutionReportFillDetails T) := fun w => order_position_side (werfd_inner w).
#[export] Instance WithExecutionReportFillDetails_order_leverage {T} `{!HasOrderLeverage T} : HasOrderLeverage (WithExecutionReportFillDetails T) := fun w => order_leverage (werfd_inner w).
#[export] Instance WithExecutionReportFillDetails_order_collateral_asset {T} `{!HasOrderCollateralAsset T} : HasOrderCollateralAsset (WithExecutionReportFillDetails T) := fun w => order_collateral_asset (werfd_inner w).
#[export] Instance WithExecutionReportFillDetails_position_effect {T} `{!HasExecutionReportPositionEffect T} : HasExecutionReportPositionEffect (WithExecutionReportFillDetails T) := fun w => position_effect (werfd_inner w).
#[export] Instance WithExecutionReportFillDetails_report_position_side {T} `{!HasExecutionReportPositionSide T} : HasExecutionReportPositionSide (WithExecutionReportFillDetails T) := fun w => report_position_side (werfd_inner w).
#[export] Instance ExecutionReportFillDetails_last_trade : HasExecutionReportLastTrade ExecutionReportFillDetails := fun o => Ok (erfd_last_trade o).
#[export] Instance WithExecutionReportFillDetails_last_trade {T} : HasExecutionReportLastTrade (WithExecutionReportFillDetails T) := fun w => last_trade (werfd_fill w).
#[export] Instance ExecutionReportFillDetails_remaining_reserved_quantity : HasRemainingReservedQuantity ExecutionReportFillDetails := fun o => Ok (erfd_remaining_reserved_quantity o).
#[export] Instance WithExecutionReportFillDetails_remaining_reserved_quantity {T} : HasRemainingReservedQuantity (WithExecutionReportFillDetails T) := fun w => remaining_reserved_quantity (werfd_fill w).
#[export] Instance ExecutionReportFillDetails_report_lock : HasPreTradeLock ExecutionReportFillDetails := fun o => Ok (erfd_lock o).
#[export] Instance WithExecutionReportFillDetails_report_lock {T} : HasPreTradeLock (WithExecutionReportFillDetails T) := fun w => report_lock (werfd_fill w).
#[export] Instance ExecutionReportFillDetails_is_final : HasExecutionReportIsFinal ExecutionReportFillDetails := fun o => Ok (erfd_is_final o).
#[export] Instance WithExecutionReportFillDetails_is_final {T} : HasExecutionReportIsFinal (WithExecutionReportFillDetails T) := fun w => is_final (werfd_fill w).
#[export] Instance ExecutionReportFillDetails_fill_fee : HasExecutionReportFillFee ExecutionReportFillDetails := fun o => Ok (erfd_fee o).
#[export] Instance WithExecutionReportFillDetails_fill_fee {T} : HasExecutionReportFillFee (WithExecutionReportFillDetails T) := fun w => fill_fee (werfd_fill w).
#[export] Instance WithExecutionReportPositionImpact_instrument {T} `{!HasInstrument T} : HasInstrument (WithExecutionReportPositionImpact T) := fun w => instrument (werp_inner w).
#[export] Instance WithExecutionReportPositionImpact_account_id {T} `{!HasAccountId T} : HasAccountId (WithExecutionReportPositionImpact T) := fun w => account_id (werp_inner w).
#[export] Instance WithExecutionReportPositionImpact_side {T} `{!HasSide T} : HasSide (WithExecutionReportPositionImpact T) := fun w => side (werp_inner w).
#[export] Instance WithExecutionReportPositionImpact_trade_amount {T} `{!HasTradeAmount T} : HasTradeAmount (WithExecutionReportPositionImpact T) := fun w => trade_amount (werp_inner w).
#[export] Instance WithExecutionReportPositionImpact_reduce_only {T} `{!HasReduceOnly T} : HasReduceOnly (WithExecutionReportPositionImpact T) := fun w => reduce_only (werp_inner w).
#[export] Instance WithExecutionReportPositionImpact_close_position {T} `{!HasClosePosition T} : HasClosePosition (WithExecutionReportPositionImpact T) := fun w => close_position (werp_inner w).
#[export] Instance WithExecutionReportPositionImpact_auto_borrow {T} `{!HasAutoBorrow T} : HasAutoBorrow (WithExecutionReportPositionImpact T) := fun w => auto_borrow (werp_inner w).
#[export] Instance WithExecutionReportPositionImpact_report_pnl {T} `{!HasPnl T} : HasPnl (WithExecutionReportPositionImpact T) := fun w => report_pnl (werp_inner w).
#[export] Instance WithExecutionReportPositionImpact_report_fee {T} `{!HasFee T} : HasFee (WithExecutionReportPositionImpact T) := fun w => report_fee (werp_inner w).
#[export] Instance WithExecutionReportPositionImpact_remaining_reserved_quantity {T} `{!HasRemainingReservedQuantity T} : HasRemainingReservedQuantity (WithExecutionReportPositionImpact T) := fun w => remaining_reserved_quantity (werp_inner w).
#[export] Instance WithExecutionReportPositionImpact_report_lock {T} `{!HasPreTradeLock T} : HasPreTradeLock (WithExecutionReportPositionImpact T) := fun w => report_lock (werp_inner w).
#[export] Instance WithExecutionReportPositionImpact_price {T} `{!HasOrderPrice T} : HasOrderPrice (WithExecutionReportPositionImpact T) := fun w => price (werp_inner w).
#[export] Instance WithExecutionReportPositionImpact_order_position_side {T} `{!HasOrderPositionSide T} : HasOrderPositionSide (WithExecutionReportPositionImpact T) := fun w => order_position_side (werp_inner w).
#[export] Instance WithExecutionReportPositionImpact_order_leverage {T} `{!HasOrderLeverage T} : HasOrderLeverage (WithExecutionReportPositionImpact T) := fun w => order_leverage (werp_inner w).
#[export] Instance WithExecutionReportPositionImpact_order_collateral_asset {T} `{!HasOrderCollateralAsset T} : HasOrderCollateralAsset (WithExecutionReportPositionImpact T) := fun w => order_collateral_asset (werp_inner w).
#[export] Instance WithExecutionReportPositionImpact_last_trade {T} `{!HasExecutionReportLastTrade T} : HasExecutionReportLastTrade (WithExecutionReportPositionImpact T) := fun w => last_trade (werp_inner w).
#[export] Instance WithExecutionReportPositionImpact_fill_fee {T} `{!HasExecutionReportFillFee T} : HasExecutionReportFillFee (WithExecutionReportPositionImpact T) := fun w => fill_fee (werp_inner w).
#[export] Instance WithExecutionReportPositionImpact_is_final {T} `{!HasExecutionReportIsFinal T} : HasExecutionReportIsFinal (WithExecutionReportPositionImpact T) := fun w => is_final (werp_inner w).
#[export] Instance ExecutionReportPositionImpact_position_effect : HasExecutionReportPositionEffect ExecutionReportPositionImpact := fun o => Ok (erp_position_effect o).
#[export] Instance WithExecutionReportPositionImpact_position_effect {T} : HasExecutionReportPositionEffect (WithExecutionReportPositionImpact T) := fun w => position_effect (werp_position_impact w).
#[export] Instance ExecutionReportPositionImpact_report_position_side : HasExecutionReportPositionSide ExecutionReportPositionImpact := fun o => Ok (erp_position_side o).
#[export] Instance WithExecutionReportPositionImpact_report_position_side {T} : HasExecutionReportPositionSide (WithExecutionReportPositionImpact T) := fun w => report_position_side (werp_position_impact w).

(** ** Account adjustments *)

Record AccountAdjustmentAccountPnlOperation : Type := mkAccountAdjustmentAccountPnlOperation {
  aap_state : PnlState
}.
Record AccountAdjustmentAmount : Type := mkAccountAdjustmentAmount {
  aam_balance : option AdjustmentAmount;
  aam_held : option AdjustmentAmount;
  aam_incoming : option AdjustmentAmount
}.
Record WithAccountAdjustmentAmount (T : Type) : Type := mkWithAccountAdjustmentAmount { waam_inner : T; waam_amount : AccountAdjustmentAmount }.
Record AccountAdjustmentBalanceOperation : Type := mkAccountAdjustmentBalanceOperation {
  abo_asset : Asset;
  abo_average_entry_price : option Price
}.
Record WithAccountAdjustmentBalanceOperation (T : Type) : Type := mkWithAccountAdjustmentBalanceOperation { wabo_inner : T; wabo_operation : AccountAdjustmentBalanceOperation }.
Record WithAccountAdjustmentBalanceRealizedPnl (T : Type) : Type := mkWithAccountAdjustmentBalanceRealizedPnl { wabr_inner : T; wabr_realized_pnl : PnlState }.
Record AccountAdjustmentPositionOperation : Type := mkAccountAdjustmentPositionOperation {
  apo_instrument : Instrument;
  apo_collateral_asset : Asset;
  apo_average_entry_price : Price;
  apo_mode : PositionMode;
  apo_leverage : option Leverage
}.
Record WithAccountAdjustmentPositionOperation (T : Type) : Type := mkWithAccountAdjustmentPositionOperation { wapo_inner : T; wapo_operation : AccountAdjustmentPositionOperation }.
Record AccountAdjustmentBounds : Type := mkAccountAdjustmentBounds {
  abn_balance_upper : option PositionSize;
  abn_balance_lower : option PositionSize;
  abn_held_upper : option PositionSize;
  abn_held_lower : option PositionSize;
  abn_incoming_upper : option PositionSize;
  abn_incoming_lower : option PositionSize
}.
Record WithAccountAdjustmentBounds (T : Type) : Type := mkWithAccountAdjustmentBounds { wabn_inner : T; wabn_bounds : AccountAdjustmentBounds }.

#[global] Arguments mkWithAccountAdjustmentAmount {T}.
#[global] Arguments waam_inner {T}.
#[global] Arguments waam_amount {T}.
#[global] Arguments mkWithAccountAdjustmentBalanceOperation {T}.
#[global] Arguments wabo_inner {T}.
#[global] Arguments wabo_operation {T}.
#[global] Arguments mkWithAccountAdjustmentBalanceRealizedPnl {T}.
#[global] Arguments wabr_inner {T}.
#[global] Arguments wabr_realized_pnl {T}.
#[global] Arguments mkWithAccountAdjustmentPositionOperation {T}.
#[global] Arguments wapo_inner {T}.
#[global] Arguments wapo_operation {T}.
#[global] Arguments mkWithAccountAdjustmentBounds {T}.
#[global] Arguments wabn_inner {T}.
#[global] Arguments wabn_bounds {T}.

#[export] Instance AccountAdjustmentAccountPnlOperation_account_adjustment_pnl_operation : HasAccountAdjustmentPnlOperation AccountAdjustmentAccountPnlOperation := fun o => Ok (Some (aap_state o)).
#[export] Instance AccountAdjustmentAccountPnlOperation_balance_average_entry_price : HasAccountAdjustmentBalanceAverageEntryPrice AccountAdjustmentAccountPnlOperation := fun _ => Ok None.
#[export] Instance AccountAdjustmentAccountPnlOperation_request_balance_asset : HasBalanceAsset AccountAdjustmentAccountPnlOperation := fun _ => Err (mkFieldAccessError "account_pnl.balance_asset").
#[export] Instance AccountAdjustmentAccountPnlOperation_request_balance : HasAccountAdjustmentBalance AccountAdjustmentAccountPnlOperation :=
  {| request_balance := fun _ => Ok None; request_balance_realized_pnl := fun _ => Ok None |}.
#[export] Instance AccountAdjustmentAccountPnlOperation_request_held : HasAccountAdjustmentHeld AccountAdjustmentAccountPnlOperation := fun _ => Ok None.
#[export] Instance AccountAdjustmentAccountPnlOperation_request_incoming : HasAccountAdjustmentIncoming AccountAdjustmentAccountPnlOperation := fun _ => Ok None.
#[export] Instance AccountAdjustmentAccountPnlOperation_balance_upper : HasAccountAdjustmentBalanceUpperBound AccountAdjustmentAccountPnlOperation := fun _ => Ok None.
#[export] Instance AccountAdjustmentAccountPnlOperation_balance_lower : HasAccountAdjustmentBalanceLowerBound AccountAdjustmentAccountPnlOperation := fun _ => Ok None.
#[export] Instance AccountAdjustmentAccountPnlOperation_held_upper : HasAccountAdjustmentHeldUpperBound AccountAdjustmentAccountPnlOperation := fun _ => Ok None.
#[export] Instance AccountAdjustmentAccountPnlOperation_held_lower : HasAccountAdjustmentHeldLowerBound AccountAdjustmentAccountPnlOperation := fun _ => Ok None.
#[export] Instance AccountAdjustmentAccountPnlOperation_incoming_upper : HasAccountAdjustmentIncomingUpperBound AccountAdjustmentAccountPnlOperation := fun _ => Ok None.
#[export] Instance AccountAdjustmentAccountPnlOperation_incoming_lower : HasAccountAdjustmentIncomingLowerBound AccountAdjustmentAccountPnlOperation := fun _ => Ok None.
#[export] Instance AccountAdjustmentAccountPnlOperation_position_instrument : HasPositionInstrument AccountAdjustmentAccountPnlOperation := fun _ => Err (mkFieldAccessError "account_pnl.position_instrument").
#[export] Instance AccountAdjustmentAccountPnlOperation_collateral_asset : HasCollateralAsset AccountAdjustmentAccountPnlOperation := fun _ => Err (mkFieldAccessError "account_pnl.collateral_asset").
#[export] Instance AccountAdjustmentAccountPnlOperation_average_entry_price : HasAverageEntryPrice AccountAdjustmentAccountPnlOperation := fun _ => Err (mkFieldAccessError "account_pnl.average_entry_price").
#[export] Instance AccountAdjustmentAccountPnlOperation_position_mode : HasPositionMode AccountAdjustmentAccountPnlOperation := fun _ => Err (mkFieldAccessError "account_pnl.position_mode").
#[export] Instance AccountAdjustmentAccountPnlOperation_position_leverage : HasAccountAdjustmentPositionLeverage AccountAdjustmentAccountPnlOperation := fun _ => Ok None.
#[export] Instance AccountAdjustmentAmount_request_held : HasAccountAdjustmentHeld AccountAdjustmentAmount := fun o => Ok (aam_held o).
#[export] Instance WithAccountAdjustmentAmount_request_held {T} : HasAccountAdjustmentHeld (WithAccountAdjustmentAmount T) := fun w => request_held (waam_amount w).
#[export] Instance AccountAdjustmentAmount_request_incoming : HasAccountAdjustmentIncoming AccountAdjustmentAmount := fun o => Ok (aam_incoming o).
#[export] Instance WithAccountAdjustmentAmount_request_incoming {T} : HasAccountAdjustmentIncoming (WithAccountAdjustmentAmount T) := fun w => request_incoming (waam_amount w).
#[export] Instance AccountAdjustmentAmount_request_balance : HasAccountAdjustmentBalance AccountAdjustmentAmount :=
  {| request_balance := fun o => Ok (aam_balance o); request_balance_realized_pnl := fun _ => Ok None |}.
#[export] Instance WithAccountAdjustmentAmount_request_balance {T} `{!HasAccountAdjustmentBalance T} : HasAccountAdjustmentBalance (WithAccountAdjustmentAmount T) :=
  {| request_balance := fun w => Ok (aam_balance (waam_amount w)); request_balance_realized_pnl := fun w => request_balance_realized_pnl (waam_inner w) |}.
#[export] Instance WithAccountAdjustmentAmount_account_adjustment_pnl_operation {T} `{!HasAccountAdjustmentPnlOperation T} : HasAccountAdjustmentPnlOperation (WithAccountAdjustmentAmount T) := fun w => account_adjustment_pnl_operation (waam_inner w).
#[export] Instance WithAccountAdjustmentAmount_request_balance_asset {T} `{!HasBalanceAsset T} : HasBalanceAsset (WithAccountAdjustmentAmount T) := fun w => request_balance_asset (waam_inner w).
#[export] Instance WithAccountAdjustmentAmount_balance_average_entry_price {T} `{!HasAccountAdjustmentBalanceAverageEntryPrice T} : HasAccountAdjustmentBalanceAverageEntryPrice (WithAccountAdjustmentAmount T) := fun w => balance_average_entry_price (waam_inner w).
#[export] Instance WithAccountAdjustmentAmount_position_instrument {T} `{!HasPositionInstrument T} : HasPositionInstrument (WithAccountAdjustmentAmount T) := fun w => position_instrument (waam_inner w).
#[export] Instance WithAccountAdjustmentAmount_collateral_asset {T} `{!HasCollateralAsset T} : HasCollateralAsset (WithAccountAdjustmentAmount T) := fun w => collateral_asset (waam_inner w).
#[export] Instance WithAccountAdjustmentAmount_average_entry_price {T} `{!HasAverageEntryPrice T} : HasAverageEntryPrice (WithAccountAdjustmentAmount T) := fun w => average_entry_price (waam_inner w).
#[export] Instance WithAccountAdjustmentAmount_position_mode {T} `{!HasPositionMode T} : HasPositionMode (WithAccountAdjustmentAmount T) := fun w => position_mode (waam_inner w).
#[export] Instance WithAccountAdjustmentAmount_position_leverage {T} `{!HasAccountAdjustmentPositionLeverage T} : HasAccountAdjustmentPositionLeverage (WithAccountAdjustmentAmount T) := fun w => position_leverage (waam_inner w).
#[export] Instance WithAccountAdjustmentAmount_balance_upper {T} `{!HasAccountAdjustmentBalanceUpperBound T} : HasAccountAdjustmentBalanceUpperBound (WithAccountAdjustmentAmount T) := fun w => balance_upper (waam_inner w).
#[export] Instance WithAccountAdjustmentAmount_balance_lower {T} `{!HasAccountAdjustmentBalanceLowerBound T} : HasAccountAdjustmentBalanceLowerBound (WithAccountAdjustmentAmount T) := fun w => balance_lower (waam_inner w).
#[export] Instance WithAccountAdjustmentAmount_held_upper {T} `{!HasAccountAdjustmentHeldUpperBound T} : HasAccountAdjustmentHeldUpperBound (WithAccountAdjustmentAmount T) := fun w => held_upper (waam_inner w).
#[export] Instance WithAccountAdjustmentAmount_held_lower {T} `{!HasAccountAdjustmentHeldLowerBound T} : HasAccountAdjustmentHeldLowerBound (WithAccountAdjustmentAmount T) := fun w => held_lower (waam_inner w).
#[export] Instance WithAccountAdjustmentAmount_incoming_upper {T} `{!HasAccountAdjustmentIncomingUpperBound T} : HasAccountAdjustmentIncomingUpperBound (WithAccountAdjustmentAmount T) := fun w => incoming_upper (waam_inner w).
#[export] Instance WithAccountAdjustmentAmount_incoming_lower {T} `{!HasAccountAdjustmentIncomingLowerBound T} : HasAccountAdjustmentIncomingLowerBound (WithAccountAdjustmentAmount T) := fun w => incoming_lower (waam_inner w).
#[export] Instance AccountAdjustmentBalanceOperation_request_balance_asset : HasBalanceAsset AccountAdjustmentBalanceOperation := fun o => Ok (abo_asset o).
#[export] Instance WithAccountAdjustmentBalanceOperation_request_balance_asset {T} : HasBalanceAsset (WithAccountAdjustmentBalanceOperation T) := fun w => request_balance_asset (wabo_operation w).
#[export] Instance AccountAdjustmentBalanceOperation_account_adjustment_pnl_operation : HasAccountAdjustmentPnlOperation AccountAdjustmentBalanceOperation := fun _ => Ok None.
#[export] Instance WithAccountAdjustmentBalanceOperation_account_adjustment_pnl_operation {T} : HasAccountAdjustmentPnlOperation (WithAccountAdjustmentBalanceOperation T) := fun w => account_adjustment_pnl_operation (wabo_operation w).
#[export] Instance AccountAdjustmentBalanceOperation_balance_average_entry_price : HasAccountAdjustmentBalanceAverageEntryPrice AccountAdjustmentBalanceOperation := fun o => Ok (abo_average_entry_price o).
#[export] Instance WithAccountAdjustmentBalanceOperation_balance_average_entry_price {T} : HasAccountAdjustmentBalanceAverageEntryPrice (WithAccountAdjustmentBalanceOperation T) := fun w => balance_average_entry_price (wabo_operation w).
#[export] Instance WithAccountAdjustmentBalanceOperation_request_balance {T} `{!HasAccountAdjustmentBalance T} : HasAccountAdjustmentBalance (WithAccountAdjustmentBalanceOperation T) :=
  {| request_balance := fun w => request_balance (wabo_inner w); request_balance_realized_pnl := fun w => request_balance_realized_pnl (wabo_inner w) |}.
#[export] Instance WithAccountAdjustmentBalanceOperation_average_entry_price {T} `{!HasAverageEntryPrice T} : HasAverageEntryPrice (WithAccountAdjustmentBalanceOperation T) := fun w => average_entry_price (wabo_inner w).
#[export] Instance WithAccountAdjustmentBalanceOperation_request_held {T} `{!HasAccountAdjustmentHeld T} : HasAccountAdjustmentHeld (WithAccountAdjustmentBalanceOperation T) := fun w => request_held (wabo_inner w).
#[export] Instance WithAccountAdjustmentBalanceOperation_request_incoming {T} `{!HasAccountAdjustmentIncoming T} : HasAccountAdjustmentIncoming (WithAccountAdjustmentBalanceOperation T) := fun w => request_incoming (wabo_inner w).
#[export] Instance WithAccountAdjustmentBalanceOperation_balance_upper {T} `{!HasAccountAdjustmentBalanceUpperBound T} : HasAccountAdjustmentBalanceUpperBound (WithAccountAdjustmentBalanceOperation T) := fun w => balance_upper (wabo_inner w).
#[export] Instance WithAccountAdjustmentBalanceOperation_balance_lower {T} `{!HasAccountAdjustmentBalanceLowerBound T} : HasAccountAdjustmentBalanceLowerBound (WithAccountAdjustmentBalanceOperation T) := fun w => balance_lower (wabo_inner w).
#[export] Instance WithAccountAdjustmentBalanceOperation_held_upper {T} `{!HasAccountAdjustmentHeldUpperBound T} : HasAccountAdjustmentHeldUpperBound (WithAccountAdjustmentBalanceOperation T) := fun w => held_upper (wabo_inner w).
#[export] Instance WithAccountAdjustmentBalanceOperation_held_lower {T} `{!HasAccountAdjustmentHeldLowerBound T} : HasAccountAdjustmentHeldLowerBound (WithAccountAdjustmentBalanceOperation T) := fun w => held_lower (wabo_inner w).
#[export] Instance WithAccountAdjustmentBalanceOperation_incoming_upper {T} `{!HasAccountAdjustmentIncomingUpperBound T} : HasAccountAdjustmentIncomingUpperBound (WithAccountAdjustmentBalanceOperation T) := fun w => incoming_upper (wabo_inner w).
#[export] Instance WithAccountAdjustmentBalanceOperation_incoming_lower {T} `{!HasAccountAdjustmentIncomingLowerBound T} : HasAccountAdjustmentIncomingLowerBound (WithAccountAdjustmentBalanceOperation T) := fun w => incoming_lower (wabo_inner w).
#[export] Instance WithAccountAdjustmentBalanceOperation_position_instrument {T} `{!HasPositionInstrument T} : HasPositionInstrument (WithAccountAdjustmentBalanceOperation T) := fun w => position_instrument (wabo_inner w).
#[export] Instance WithAccountAdjustmentBalanceOperation_collateral_asset {T} `{!HasCollateralAsset T} : HasCollateralAsset (WithAccountAdjustmentBalanceOperation T) := fun w => collateral_asset (wabo_inner w).
#[export] Instance WithAccountAdjustmentBalanceOperation_position_mode {T} `{!HasPositionMode T} : HasPositionMode (WithAccountAdjustmentBalanceOperation T) := fun w => position_mode (wabo_inner w).
#[export] Instance WithAccountAdjustmentBalanceOperation_position_leverage {T} `{!HasAccountAdjustmentPositionLeverage T} : HasAccountAdjustmentPositionLeverage (WithAccountAdjustmentBalanceOperation T) := fun w => position_leverage (wabo_inner w).
#[export] Instance WithAccountAdjustmentBalanceRealizedPnl_request_balance {T} `{!HasAccountAdjustmentBalance T} : HasAccountAdjustmentBalance (WithAccountAdjustmentBalanceRealizedPnl T) :=
  {| request_balance := fun w => request_balance (wabr_inner w); request_balance_realized_pnl := fun w => Ok (Some (wabr_realized_pnl w)) |}.
#[export] Instance WithAccountAdjustmentBalanceRealizedPnl_account_adjustment_pnl_operation {T} `{!HasAccountAdjustmentPnlOperation T} : HasAccountAdjustmentPnlOperation (WithAccountAdjustmentBalanceRealizedPnl T) := fun w => account_adjustment_pnl_operation (wabr_inner w).
#[export] Instance WithAccountAdjustmentBalanceRealizedPnl_request_balance_asset {T} `{!HasBalanceAsset T} : HasBalanceAsset (WithAccountAdjustmentBalanceRealizedPnl T) := fun w => request_balance_asset (wabr_inner w).
#[export] Instance WithAccountAdjustmentBalanceRealizedPnl_balance_average_entry_price {T} `{!HasAccountAdjustmentBalanceAverageEntryPrice T} : HasAccountAdjustmentBalanceAverageEntryPrice (WithAccountAdjustmentBalanceRealizedPnl T) := fun w => balance_average_entry_price (wabr_inner w).
#[export] Instance WithAccountAdjustmentBalanceRealizedPnl_request_held {T} `{!HasAccountAdjustmentHeld T} : HasAccountAdjustmentHeld (WithAccountAdjustmentBalanceRealizedPnl T) := fun w => request_held (wabr_inner w).
#[export] Instance WithAccountAdjustmentBalanceRealizedPnl_request_incoming {T} `{!HasAccountAdjustmentIncoming T} : HasAccountAdjustmentIncoming (WithAccountAdjustmentBalanceRealizedPnl T) := fun w => request_incoming (wabr_inner w).
#[export] Instance WithAccountAdjustmentBalanceRealizedPnl_balance_upper {T} `{!HasAccountAdjustmentBalanceUpperBound T} : HasAccountAdjustmentBalanceUpperBound (WithAccountAdjustmentBalanceRealizedPnl T) := fun w => balance_upper (wabr_inner w).
#[export] Instance WithAccountAdjustmentBalanceRealizedPnl_balance_lower {T} `{!HasAccountAdjustmentBalanceLowerBound T} : HasAccountAdjustmentBalanceLowerBound (WithAccountAdjustmentBalanceRealizedPnl T) := fun w => balance_lower (wabr_inner w).
#[export] Instance WithAccountAdjustmentBalanceRealizedPnl_held_upper {T} `{!HasAccountAdjustmentHeldUpperBound T} : HasAccountAdjustmentHeldUpperBound (WithAccountAdjustmentBalanceRealizedPnl T) := fun w => held_upper (wabr_inner w).
#[export] Instance WithAccountAdjustmentBalanceRealizedPnl_held_lower {T} `{!HasAccountAdjustmentHeldLowerBound T} : HasAccountAdjustmentHeldLowerBound (WithAccountAdjustmentBalanceRealizedPnl T) := fun w => held_lower (wabr_inner w).
#[export] Instance WithAccountAdjustmentBalanceRealizedPnl_incoming_upper {T} `{!HasAccountAdjustmentIncomingUpperBound T} : HasAccountAdjustmentIncomingUpperBound (WithAccountAdjustmentBalanceRealizedPnl T) := fun w => incoming_upper (wabr_inner w).
#[export] Instance WithAccountAdjustmentBalanceRealizedPnl_incoming_lower {T} `{!HasAccountAdjustmentIncomingLowerBound T} : HasAccountAdjustmentIncomingLowerBound (WithAccountAdjustmentBalanceRealizedPnl T) := fun w => incoming_lower (wabr_inner w).
#[export] Instance WithAccountAdjustmentBalanceRealizedPnl_position_instrument {T} `{!HasPositionInstrument T} : HasPositionInstrument (WithAccountAdjustmentBalanceRealizedPnl T) := fun w => position_instrument (wabr_inner w).
#[export] Instance WithAccountAdjustmentBalanceRealizedPnl_collateral_asset {T} `{!HasCollateralAsset T} : HasCollateralAsset (WithAccountAdjustmentBalanceRealizedPnl T) := fun w => collateral_asset (wabr_inner w).
#[export] Instance WithAccountAdjustmentBalanceRealizedPnl_average_entry_price {T} `{!HasAverageEntryPrice T} : HasAverageEntryPrice (WithAccountAdjustmentBalanceRealizedPnl T) := fun w => average_entry_price (wabr_inner w).
#[export] Instance WithAccountAdjustmentBalanceRealizedPnl_position_mode {T} `{!HasPositionMode T} : HasPositionMode (WithAccountAdjustmentBalanceRealizedPnl T) := fun w => position_mode (wabr_inner w).
#[export] Instance WithAccountAdjustmentBalanceRealizedPnl_position_leverage {T} `{!HasAccountAdjustmentPositionLeverage T} : HasAccountAdjustmentPositionLeverage (WithAccountAdjustmentBalanceRealizedPnl T) := fun w => position_leverage (wabr_inner w).
#[export] Instance AccountAdjustmentPositionOperation_position_instrument : HasPositionInstrument AccountAdjustmentPositionOperation := fun o => Ok (apo_instrument o).
#[export] Instance WithAccountAdjustmentPositionOperation_position_instrument {T} : HasPositionInstrument (WithAccountAdjustmentPositionOperation T) := fun w => position_instrument (wapo_operation w).
#[export] Instance AccountAdjustmentPositionOperation_collateral_asset : HasCollateralAsset AccountAdjustmentPositionOperation := fun o => Ok (apo_collateral_asset o).
#[export] Instance WithAccountAdjustmentPositionOperation_collateral_asset {T} : HasCollateralAsset (WithAccountAdjustmentPositionOperation T) := fun w => collateral_asset (wapo_operation w).
#[export] Instance AccountAdjustmentPositionOperation_account_adjustment_pnl_operation : HasAccountAdjustmentPnlOperation AccountAdjustmentPositionOperation := fun _ => Ok None.
#[export] Instance WithAccountAdjustmentPositionOperation_account_adjustment_pnl_operation {T} : HasAccountAdjustmentPnlOperation (WithAccountAdjustmentPositionOperation T) := fun w => account_adjustment_pnl_operation (wapo_operation w).
#[export] Instance AccountAdjustmentPositionOperation_average_entry_price : HasAverageEntryPrice AccountAdjustmentPositionOperation := fun o => Ok (apo_average_entry_price o).
#[export] Instance WithAccountAdjustmentPositionOperation_average_entry_price {T} : HasAverageEntryPrice (WithAccountAdjustmentPositionOperation T) := fun w => average_entry_price (wapo_operation w).
#[export] Instance AccountAdjustmentPositionOperation_position_mode : HasPositionMode AccountAdjustmentPositionOperation := fun o => Ok (apo_mode o).
#[export] Instance WithAccountAdjustmentPositionOperation_position_mode {T} : HasPositionMode (WithAccountAdjustmentPositionOperation T) := fun w => position_mode (wapo_operation w).
#[export] Instance AccountAdjustmentPositionOperation_position_leverage : HasAccountAdjustmentPositionLeverage AccountAdjustmentPositionOperation := fun o => Ok (apo_leverage o).
#[export] Instance WithAccountAdjustmentPositionOperation_position_leverage {T} : HasAccountAdjustmentPositionLeverage (WithAccountAdjustmentPositionOperation T) := fun w => position_leverage (wapo_operation w).
#[export] Instance WithAccountAdjustmentPositionOperation_request_balance {T} `{!HasAccountAdjustmentBalance T} : HasAccountAdjustmentBalance (WithAccountAdjustmentPositionOperation T) :=
  {| request_balance := fun w => request_balance (wapo_inner w); request_balance_realized_pnl := fun w => request_balance_realized_pnl (wapo_inner w) |}.
#[export] Instance WithAccountAdjustmentPositionOperation_request_balance_asset {T} `{!HasBalanceAsset T} : HasBalanceAsset (WithAccountAdjustmentPositionOperation T) := fun w => request_balance_asset (wapo_inner w).
#[export] Instance WithAccountAdjustmentPositionOperation_balance_average_entry_price {T} `{!HasAccountAdjustmentBalanceAverageEntryPrice T} : HasAccountAdjustmentBalanceAverageEntryPrice (WithAccountAdjustmentPositionOperation T) := fun w => balance_average_entry_price (wapo_inner w).
#[export] Instance WithAccountAdjustmentPositionOperation_request_held {T} `{!HasAccountAdjustmentHeld T} : HasAccountAdjustmentHeld (WithAccountAdjustmentPositionOperation T) := fun w => request_held (wapo_inner w).
#[export] Instance WithAccountAdjustmentPositionOperation_request_incoming {T} `{!HasAccountAdjustmentIncoming T} : HasAccountAdjustmentIncoming (WithAccountAdjustmentPositionOperation T) := fun w => request_incoming (wapo_inner w).
#[export] Instance WithAccountAdjustmentPositionOperation_balance_upper {T} `{!HasAccountAdjustmentBalanceUpperBound T} : HasAccountAdjustmentBalanceUpperBound (WithAccountAdjustmentPositionOperation T) := fun w => balance_upper (wapo_inner w).
#[export] Instance WithAccountAdjustmentPositionOperation_balance_lower {T} `{!HasAccountAdjustmentBalanceLowerBound T} : HasAccountAdjustmentBalanceLowerBound (WithAccountAdjustmentPositionOperation T) := fun w => balance_lower (wapo_inner w).
#[export] Instance WithAccountAdjustmentPositionOperation_held_upper {T} `{!HasAccountAdjustmentHeldUpperBound T} : HasAccountAdjustmentHeldUpperBound (WithAccountAdjustmentPositionOperation T) := fun w => held_upper (wapo_inner w).
#[export] Instance WithAccountAdjustmentPositionOperation_held_lower {T} `{!HasAccountAdjustmentHeldLowerBound T} : HasAccountAdjustmentHeldLowerBound (WithAccountAdjustmentPositionOperation T) := fun w => held_lower (wapo_inner w).
#[export] Instance WithAccountAdjustmentPositionOperation_incoming_upper {T} `{!HasAccountAdjustmentIncomingUpperBound T} : HasAccountAdjustmentIncomingUpperBound (WithAccountAdjustmentPositionOperation T) := fun w => incoming_upper (wapo_inner w).
#[export] Instance WithAccountAdjustmentPositionOperation_incoming_lower {T} `{!HasAccountAdjustmentIncomingLowerBound T} : HasAccountAdjustmentIncomingLowerBound (WithAccountAdjustmentPositionOperation T) := fun w => incoming_lower (wapo_inner w).
#[export] Instance AccountAdjustmentBounds_balance_upper : HasAccountAdjustmentBalanceUpperBound AccountAdjustmentBounds := fun o => Ok (abn_balance_upper o).
#[export] Instance WithAccountAdjustmentBounds_balance_upper {T} : HasAccountAdjustmentBalanceUpperBound (WithAccountAdjustmentBounds T) := fun w => balance_upper (wabn_bounds w).
#[export] Instance AccountAdjustmentBounds_balance_lower : HasAccountAdjustmentBalanceLowerBound AccountAdjustmentBounds := fun o => Ok (abn_balance_lower o).
#[export] Instance WithAccountAdjustmentBounds_balance_lower {T} : HasAccountAdjustmentBalanceLowerBound (WithAccountAdjustmentBounds T) := fun w => balance_lower (wabn_bounds w).
#[export] Instance AccountAdjustmentBounds_held_upper : HasAccountAdjustmentHeldUpperBound AccountAdjustmentBounds := fun o => Ok (abn_held_upper o).
#[export] Instance WithAccountAdjustmentBounds_held_upper {T} : HasAccountAdjustmentHeldUpperBound (WithAccountAdjustmentBounds T) := fun w => held_upper (wabn_bounds w).
#[export] Instance AccountAdjustmentBounds_held_lower : HasAccountAdjustmentHeldLowerBound AccountAdjustmentBounds := fun o => Ok (abn_held_lower o).
#[export] Instance WithAccountAdjustmentBounds_held_lower {T} : HasAccountAdjustmentHeldLowerBound (WithAccountAdjustmentBounds T) := fun w => held_lower (wabn_bounds w).
#[export] Instance AccountAdjustmentBounds_incoming_upper : HasAccountAdjustmentIncomingUpperBound AccountAdjustmentBounds := fun o => Ok (abn_incoming_upper o).
#[export] Instance WithAccountAdjustmentBounds_incoming_upper {T} : HasAccountAdjustmentIncomingUpperBound (WithAccountAdjustmentBounds T) := fun w => incoming_upper (wabn_bounds w).
#[export] Instance AccountAdjustmentBounds_incoming_lower : HasAccountAdjustmentIncomingLowerBound AccountAdjustmentBounds := fun o => Ok (abn_incoming_lower o).
#[export] Instance WithAccountAdjustmentBounds_incoming_lower {T} : HasAccountAdjustmentIncomingLowerBound (WithAccountAdjustmentBounds T) := fun w => incoming_lower (wabn_bounds w).
#[export] Instance WithAccountAdjustmentBounds_account_adjustment_pnl_operation {T} `{!HasAccountAdjustmentPnlOperation T} : HasAccountAdjustmentPnlOperation (WithAccountAdjustmentBounds T) := fun w => account_adjustment_pnl_operation (wabn_inner w).
#[export] Instance WithAccountAdjustmentBounds_request_balance_asset {T} `{!HasBalanceAsset T} : HasBalanceAsset (WithAccountAdjustmentBounds T) := fun w => request_balance_asset (wabn_inner w).
#[export] Instance WithAccountAdjustmentBounds_balance_average_entry_price {T} `{!HasAccountAdjustmentBalanceAverageEntryPrice T} : HasAccountAdjustmentBalanceAverageEntryPrice (WithAccountAdjustmentBounds T) := fun w => balance_average_entry_price (wabn_inner w).
#[export] Instance WithAccountAdjustmentBounds_position_instrument {T} `{!HasPositionInstrument T} : HasPositionInstrument (WithAccountAdjustmentBounds T) := fun w => position_instrument (wabn_inner w).
#[export] Instance WithAccountAdjustmentBounds_collateral_asset {T} `{!HasCollateralAsset T} : HasCollateralAsset (WithAccountAdjustmentBounds T) := fun w => collateral_asset (wabn_inner w).
#[export] Instance WithAccountAdjustmentBounds_average_entry_price {T} `{!HasAverageEntryPrice T} : HasAverageEntryPrice (WithAccountAdjustmentBounds T) := fun w => average_entry_price (wabn_inner w).
#[export] Instance WithAccountAdjustmentBounds_position_mode {T} `{!HasPositionMode T} : HasPositionMode (WithAccountAdjustmentBounds T) := fun w => position_mode (wabn_inner w).
#[export] Instance WithAccountAdjustmentBounds_position_leverage {T} `{!HasAccountAdjustmentPositionLeverage T} : HasAccountAdjustmentPositionLeverage (WithAccountAdjustmentBounds T) := fun w => position_leverage (wabn_inner w).
#[export] Instance WithAccountAdjustmentBounds_request_held {T} `{!HasAccountAdjustmentHeld T} : HasAccountAdjustmentHeld (WithAccountAdjustmentBounds T) := fun w => request_held (wabn_inner w).
#[export] Instance WithAccountAdjustmentBounds_request_incoming {T} `{!HasAccountAdjustmentIncoming T} : HasAccountAdjustmentIncoming (WithAccountAdjustmentBounds T) := fun w => request_incoming (wabn_inner w).
#[export] Instance WithAccountAdjustmentBounds_request_balance {T} `{!HasAccountAdjustmentBalance T} : HasAccountAdjustmentBalance (WithAccountAdjustmentBounds T) :=
  {| request_balance := fun w => request_balance (wabn_inner w); request_balance_realized_pnl := fun w => request_balance_realized_pnl (wabn_inner w) |}.

End Requests.
