(* ===== verification/Interop.v ===== *)
(** * Interop: requests whose groups and fields may be missing

    src/crates/openpit-interop/src: the requests language bindings build.  Each
    group of fields is populated or absent, and a required field may be missing in a
    populated group; an accessor answers with the path of the field it could not
    read. *)
From S2P Require Import Prelude.
From S2P Require Import Decimal.
From S2P Require Import Param.
From S2P Require Import ParamTypes.
From S2P Require Import Identifiers.
From S2P Require Import Lock.
From S2P Require Import Policy.
From S2P Require Import SpotFundsParts.
From S2P Require Import SpotFundsExecution.
From S2P Require Import SpotFundsAdjustment.
From S2P Require Import Requests.
Open Scope string_scope.

Section Interop.
Context {D : DecimalOps}.

(** ** The groups *)

Record PopulatedOrderOperation : Type := mkPopulatedOrderOperation {
  poop_instrument : option Instrument;
  poop_account_id : option AccountId;
  poop_side : option Side;
  poop_trade_amount : option TradeAmount;
  poop_price : option Price
}.
Inductive OrderOperationAccess : Type :=
| OrderOperationAccess_Populated (group : PopulatedOrderOperation)
| OrderOperationAccess_Absent.

Record PopulatedOrderPosition : Type := mkPopulatedOrderPosition {
  popo_position_side : option PositionSide;
  popo_reduce_only : bool;
  popo_close_position : bool
}.
Inductive OrderPositionAccess : Type :=
| OrderPositionAccess_Populated (group : PopulatedOrderPosition)
| OrderPositionAccess_Absent.

Record PopulatedOrderMargin : Type := mkPopulatedOrderMargin {
  pom_leverage : option Leverage;
  pom_collateral_asset : option Asset;
  pom_auto_borrow : bool
}.
Inductive OrderMarginAccess : Type :=
| OrderMarginAccess_Populated (group : PopulatedOrderMargin)
| OrderMarginAccess_Absent.

Record PopulatedExecutionReportOperation : Type := mkPopulatedExecutionReportOperation {
  pero_instrument : option Instrument;
  pero_account_id : option AccountId;
  pero_side : option Side
}.
Inductive ExecutionReportOperationAccess : Type :=
| ExecutionReportOperationAccess_Populated (group : PopulatedExecutionReportOperation)
| ExecutionReportOperationAccess_Absent.

Record PopulatedFinancialImpact : Type := mkPopulatedFinancialImpact {
  pfi_pnl : option Pnl;
  pfi_fee : option Fee
}.
Inductive FinancialImpactAccess : Type :=
| FinancialImpactAccess_Populated (group : PopulatedFinancialImpact)
| FinancialImpactAccess_Absent.

Record PopulatedExecutionReportFill : Type := mkPopulatedExecutionReportFill {
  perf_last_trade : option Trade;
  perf_fee : option MonetaryAmount;
  perf_remaining_reserved_quantity : option Quantity;
  perf_lock : option PreTradeLock;
  perf_is_final : option bool
}.
Inductive ExecutionReportFillAccess : Type :=
| ExecutionReportFillAccess_Populated (group : PopulatedExecutionReportFill)
| ExecutionReportFillAccess_Absent.

Record PopulatedExecutionReportPositionImpact : Type := mkPopulatedExecutionReportPositionImpact {
  perpi_position_effect : option PositionEffect;
  perpi_position_side : option PositionSide
}.
Inductive ExecutionReportPositionImpactAccess : Type :=
| ExecutionReportPositionImpactAccess_Populated (group : PopulatedExecutionReportPositionImpact)
| ExecutionReportPositionImpactAccess_Absent.

Record PopulatedBalanceOperation : Type := mkPopulatedBalanceOperation {
  pbo_asset : option Asset;
  pbo_average_entry_price : option Price;
  pbo_realized_pnl : option PnlState
}.
Record PopulatedPositionOperation : Type := mkPopulatedPositionOperation {
  ppo_instrument : option Instrument;
  ppo_collateral_asset : option Asset;
  ppo_average_entry_price : option Price;
  ppo_mode : option PositionMode;
  ppo_leverage : option Leverage
}.
Record PopulatedAccountPnlOperation : Type := mkPopulatedAccountPnlOperation {
  papo_state : PnlState
}.
Inductive PopulatedAccountAdjustmentOperation : Type :=
| OpBalance (operation : PopulatedBalanceOperation)
| OpPosition (operation : PopulatedPositionOperation)
| OpAccountPnl (operation : PopulatedAccountPnlOperation).
Inductive AccountAdjustmentOperationAccess : Type :=
| AccountAdjustmentOperationAccess_Populated (group : PopulatedAccountAdjustmentOperation)
| AccountAdjustmentOperationAccess_Absent.

Inductive AccountAdjustmentAmountAccess : Type :=
| AccountAdjustmentAmountAccess_Populated (group : AccountAdjustmentAmount)
| AccountAdjustmentAmountAccess_Absent.

Inductive AccountAdjustmentBoundsAccess : Type :=
| AccountAdjustmentBoundsAccess_Populated (group : AccountAdjustmentBounds)
| AccountAdjustmentBoundsAccess_Absent.

#[export] Instance PopulatedOrderOperation_instrument : HasInstrument PopulatedOrderOperation :=
  fun o => ok_or (poop_instrument o) (mkFieldAccessError "operation.instrument").
#[export] Instance PopulatedOrderOperation_account_id : HasAccountId PopulatedOrderOperation :=
  fun o _ => ok_or (poop_account_id o) (mkFieldAccessError "operation.account_id").
#[export] Instance PopulatedOrderOperation_side : HasSide PopulatedOrderOperation :=
  fun o => ok_or (poop_side o) (mkFieldAccessError "operation.side").
#[export] Instance PopulatedOrderOperation_trade_amount : HasTradeAmount PopulatedOrderOperation :=
  fun o => ok_or (poop_trade_amount o) (mkFieldAccessError "operation.trade_amount").
#[export] Instance PopulatedOrderOperation_price : HasOrderPrice PopulatedOrderOperation :=
  fun o => Ok (poop_price o).
#[export] Instance OrderOperationAccess_instrument : HasInstrument OrderOperationAccess :=
  fun a => match a with OrderOperationAccess_Populated o => instrument o | OrderOperationAccess_Absent => Err (mkFieldAccessError "operation.instrument") end.
#[export] Instance OrderOperationAccess_account_id : HasAccountId OrderOperationAccess :=
  fun a n => match a with OrderOperationAccess_Populated o => account_id o n | OrderOperationAccess_Absent => Err (mkFieldAccessError "operation.account_id") end.
#[export] Instance OrderOperationAccess_side : HasSide OrderOperationAccess :=
  fun a => match a with OrderOperationAccess_Populated o => side o | OrderOperationAccess_Absent => Err (mkFieldAccessError "operation.side") end.
#[export] Instance OrderOperationAccess_trade_amount : HasTradeAmount OrderOperationAccess :=
  fun a => match a with OrderOperationAccess_Populated o => trade_amount o | OrderOperationAccess_Absent => Err (mkFieldAccessError "operation.trade_amount") end.
#[export] Instance OrderOperationAccess_price : HasOrderPrice OrderOperationAccess :=
  fun a => match a with OrderOperationAccess_Populated o => price o | OrderOperationAccess_Absent => Ok None end.
#[export] Instance PopulatedOrderPosition_order_position_side : HasOrderPositionSide PopulatedOrderPosition :=
  fun o => Ok (popo_position_side o).
#[export] Instance PopulatedOrderPosition_reduce_only : HasReduceOnly PopulatedOrderPosition :=
  fun o => Ok (popo_reduce_only o).
#[export] Instance PopulatedOrderPosition_close_position : HasClosePosition PopulatedOrderPosition :=
  fun o => Ok (popo_close_position o).
#[export] Instance OrderPositionAccess_order_position_side : HasOrderPositionSide OrderPositionAccess :=
  fun a => match a with OrderPositionAccess_Populated o => order_position_side o | OrderPositionAccess_Absent => Ok None end.
#[export] Instance OrderPositionAccess_reduce_only : HasReduceOnly OrderPositionAccess :=
  fun a => match a with OrderPositionAccess_Populated o => reduce_only o | OrderPositionAccess_Absent => Err (mkFieldAccessError "position.reduce_only") end.
#[export] Instance OrderPositionAccess_close_position : HasClosePosition OrderPositionAccess :=
  fun a => match a with OrderPositionAccess_Populated o => close_position o | OrderPositionAccess_Absent => Err (mkFieldAccessError "position.close_position") end.
#[export] Instance PopulatedOrderMargin_order_leverage : HasOrderLeverage PopulatedOrderMargin :=
  fun o => Ok (pom_leverage o).
#[export] Instance PopulatedOrderMargin_order_collateral_asset : HasOrderCollateralAsset PopulatedOrderMargin :=
  fun o => Ok (pom_collateral_asset o).
#[export] Instance PopulatedOrderMargin_auto_borrow : HasAutoBorrow PopulatedOrderMargin :=
  fun o => Ok (pom_auto_borrow o).
#[export] Instance OrderMarginAccess_order_leverage : HasOrderLeverage OrderMarginAccess :=
  fun a => match a with OrderMarginAccess_Populated o => order_leverage o | OrderMarginAccess_Absent => Ok None end.
#[export] Instance OrderMarginAccess_order_collateral_asset : HasOrderCollateralAsset OrderMarginAccess :=
  fun a => match a with OrderMarginAccess_Populated o => order_collateral_asset o | OrderMarginAccess_Absent => Ok None end.
#[export] Instance OrderMarginAccess_auto_borrow : HasAutoBorrow OrderMarginAccess :=
  fun a => match a with OrderMarginAccess_Populated o => auto_borrow o | OrderMarginAccess_Absent => Err (mkFieldAccessError "margin.auto_borrow") end.
#[export] Instance PopulatedExecutionReportOperation_instrument : HasInstrument PopulatedExecutionReportOperation :=
  fun o => ok_or (pero_instrument o) (mkFieldAccessError "operation.instrument").
#[export] Instance PopulatedExecutionReportOperation_account_id : HasAccountId PopulatedExecutionReportOperation :=
  fun o _ => ok_or (pero_account_id o) (mkFieldAccessError "operation.account_id").
#[export] Instance PopulatedExecutionReportOperation_side : HasSide PopulatedExecutionReportOperation :=
  fun o => ok_or (pero_side o) (mkFieldAccessError "operation.side").
#[export] Instance ExecutionReportOperationAccess_instrument : HasInstrument ExecutionReportOperationAccess :=
  fun a => match a with ExecutionReportOperationAccess_Populated o => instrument o | ExecutionReportOperationAccess_Absent => Err (mkFieldAccessError "operation.instrument") end.
#[export] Instance ExecutionReportOperationAccess_account_id : HasAccountId ExecutionReportOperationAccess :=
  fun a n => match a with ExecutionReportOperationAccess_Populated o => account_id o n | ExecutionReportOperationAccess_Absent => Err (mkFieldAccessError "operation.account_id") end.
#[export] Instance ExecutionReportOperationAccess_side : HasSide ExecutionReportOperationAccess :=
  fun a => match a with ExecutionReportOperationAccess_Populated o => side o | ExecutionReportOperationAccess_Absent => Err (mkFieldAccessError "operation.side") end.
#[export] Instance PopulatedFinancialImpact_report_pnl : HasPnl PopulatedFinancialImpact :=
  fun o => ok_or (pfi_pnl o) (mkFieldAccessError "financial_impact.pnl").
#[export] Instance PopulatedFinancialImpact_report_fee : HasFee PopulatedFinancialImpact :=
  fun o => ok_or (pfi_fee o) (mkFieldAccessError "financial_impact.fee").
#[export] Instance FinancialImpactAccess_report_pnl : HasPnl FinancialImpactAccess :=
  fun a => match a with FinancialImpactAccess_Populated o => report_pnl o | FinancialImpactAccess_Absent => Err (mkFieldAccessError "financial_impact.pnl") end.
#[export] Instance FinancialImpactAccess_report_fee : HasFee FinancialImpactAccess :=
  fun a => match a with FinancialImpactAccess_Populated o => report_fee o | FinancialImpactAccess_Absent => Err (mkFieldAccessError "financial_impact.fee") end.
#[export] Instance PopulatedExecutionReportFill_last_trade : HasExecutionReportLastTrade PopulatedExecutionReportFill :=
  fun o => Ok (perf_last_trade o).
#[export] Instance PopulatedExecutionReportFill_is_final : HasExecutionReportIsFinal PopulatedExecutionReportFill :=
  fun o => ok_or (perf_is_final o) (mkFieldAccessError "fill.is_final").
#[export] Instance PopulatedExecutionReportFill_fill_fee : HasExecutionReportFillFee PopulatedExecutionReportFill :=
  fun o => Ok (perf_fee o).
#[export] Instance PopulatedExecutionReportFill_remaining_reserved_quantity : HasRemainingReservedQuantity PopulatedExecutionReportFill :=
  fun o => ok_or (perf_remaining_reserved_quantity o) (mkFieldAccessError "fill.remaining_reserved_quantity").
#[export] Instance PopulatedExecutionReportFill_report_lock : HasPreTradeLock PopulatedExecutionReportFill :=
  fun o => ok_or (perf_lock o) (mkFieldAccessError "fill.lock").
#[export] Instance ExecutionReportFillAccess_last_trade : HasExecutionReportLastTrade ExecutionReportFillAccess :=
  fun a => match a with ExecutionReportFillAccess_Populated o => last_trade o | ExecutionReportFillAccess_Absent => Ok None end.
#[export] Instance ExecutionReportFillAccess_is_final : HasExecutionReportIsFinal ExecutionReportFillAccess :=
  fun a => match a with ExecutionReportFillAccess_Populated o => is_final o | ExecutionReportFillAccess_Absent => Err (mkFieldAccessError "fill.is_final") end.
#[export] Instance ExecutionReportFillAccess_fill_fee : HasExecutionReportFillFee ExecutionReportFillAccess :=
  fun a => match a with ExecutionReportFillAccess_Populated o => fill_fee o | ExecutionReportFillAccess_Absent => Ok None end.
#[export] Instance ExecutionReportFillAccess_remaining_reserved_quantity : HasRemainingReservedQuantity ExecutionReportFillAccess :=
  fun a => match a with ExecutionReportFillAccess_Populated o => remaining_reserved_quantity o | ExecutionReportFillAccess_Absent => Err (mkFieldAccessError "fill.remaining_reserved_quantity") end.
#[export] Instance ExecutionReportFillAccess_report_lock : HasPreTradeLock ExecutionReportFillAccess :=
  fun a => match a with ExecutionReportFillAccess_Populated o => report_lock o | ExecutionReportFillAccess_Absent => Err (mkFieldAccessError "fill.lock") end.
#[export] Instance PopulatedExecutionReportPositionImpact_position_effect : HasExecutionReportPositionEffect PopulatedExecutionReportPositionImpact :=
  fun o => Ok (perpi_position_effect o).
#[export] Instance PopulatedExecutionReportPositionImpact_report_position_side : HasExecutionReportPositionSide PopulatedExecutionReportPositionImpact :=
  fun o => Ok (perpi_position_side o).
#[export] Instance ExecutionReportPositionImpactAccess_position_effect : HasExecutionReportPositionEffect ExecutionReportPositionImpactAccess :=
  fun a => match a with ExecutionReportPositionImpactAccess_Populated o => position_effect o | ExecutionReportPositionImpactAccess_Absent => Ok None end.
#[export] Instance ExecutionReportPositionImpactAccess_report_position_side : HasExecutionReportPositionSide ExecutionReportPositionImpactAccess :=
  fun a => match a with ExecutionReportPositionImpactAccess_Populated o => report_position_side o | ExecutionReportPositionImpactAccess_Absent => Ok None end.
#[export] Instance PopulatedAccountAdjustmentOperation_request_balance : HasAccountAdjustmentBalance PopulatedAccountAdjustmentOperation := {|
  request_balance := fun _ => Ok None;
  request_balance_realized_pnl := fun a => match a with OpBalance o => Ok (pbo_realized_pnl o) | _ => Ok None end
|}.
#[export] Instance PopulatedAccountAdjustmentOperation_request_balance_asset : HasBalanceAsset PopulatedAccountAdjustmentOperation :=
  fun a => match a with OpBalance o => ok_or (pbo_asset o) (mkFieldAccessError "operation.balance_asset") | _ => Err (mkFieldAccessError "operation.balance_asset") end.
#[export] Instance PopulatedAccountAdjustmentOperation_balance_average_entry_price : HasAccountAdjustmentBalanceAverageEntryPrice PopulatedAccountAdjustmentOperation :=
  fun a => match a with OpBalance o => Ok (pbo_average_entry_price o) | _ => Ok None end.
#[export] Instance PopulatedAccountAdjustmentOperation_position_instrument : HasPositionInstrument PopulatedAccountAdjustmentOperation :=
  fun a => match a with OpPosition o => ok_or (ppo_instrument o) (mkFieldAccessError "operation.position_instrument") | _ => Err (mkFieldAccessError "operation.position_instrument") end.
#[export] Instance PopulatedAccountAdjustmentOperation_collateral_asset : HasCollateralAsset PopulatedAccountAdjustmentOperation :=
  fun a => match a with OpPosition o => ok_or (ppo_collateral_asset o) (mkFieldAccessError "operation.collateral_asset") | _ => Err (mkFieldAccessError "operation.collateral_asset") end.
#[export] Instance PopulatedAccountAdjustmentOperation_average_entry_price : HasAverageEntryPrice PopulatedAccountAdjustmentOperation :=
  fun a => match a with OpPosition o => ok_or (ppo_average_entry_price o) (mkFieldAccessError "operation.average_entry_price") | _ => Err (mkFieldAccessError "operation.average_entry_price") end.
#[export] Instance PopulatedAccountAdjustmentOperation_position_mode : HasPositionMode PopulatedAccountAdjustmentOperation :=
  fun a => match a with OpPosition o => ok_or (ppo_mode o) (mkFieldAccessError "operation.position_mode") | _ => Err (mkFieldAccessError "operation.position_mode") end.
#[export] Instance PopulatedAccountAdjustmentOperation_position_leverage : HasAccountAdjustmentPositionLeverage PopulatedAccountAdjustmentOperation :=
  fun a => match a with OpPosition o => Ok (ppo_leverage o) | _ => Ok None end.
#[export] Instance PopulatedAccountAdjustmentOperation_account_adjustment_pnl_operation : HasAccountAdjustmentPnlOperation PopulatedAccountAdjustmentOperation :=
  fun a => match a with OpAccountPnl o => Ok (Some (papo_state o)) | _ => Ok None end.
#[export] Instance AccountAdjustmentOperationAccess_request_balance : HasAccountAdjustmentBalance AccountAdjustmentOperationAccess := {|
  request_balance := fun _ => Ok None;
  request_balance_realized_pnl := fun a => match a with AccountAdjustmentOperationAccess_Populated o => request_balance_realized_pnl o | AccountAdjustmentOperationAccess_Absent => Ok None end
|}.
#[export] Instance AccountAdjustmentOperationAccess_request_balance_asset : HasBalanceAsset AccountAdjustmentOperationAccess :=
  fun a => match a with AccountAdjustmentOperationAccess_Populated o => request_balance_asset o | AccountAdjustmentOperationAccess_Absent => Err (mkFieldAccessError "operation.balance_asset") end.
#[export] Instance AccountAdjustmentOperationAccess_balance_average_entry_price : HasAccountAdjustmentBalanceAverageEntryPrice AccountAdjustmentOperationAccess :=
  fun a => match a with AccountAdjustmentOperationAccess_Populated o => balance_average_entry_price o | AccountAdjustmentOperationAccess_Absent => Ok None end.
#[export] Instance AccountAdjustmentOperationAccess_position_instrument : HasPositionInstrument AccountAdjustmentOperationAccess :=
  fun a => match a with AccountAdjustmentOperationAccess_Populated o => position_instrument o | AccountAdjustmentOperationAccess_Absent => Err (mkFieldAccessError "operation.position_instrument") end.
#[export] Instance AccountAdjustmentOperationAccess_collateral_asset : HasCollateralAsset AccountAdjustmentOperationAccess :=
  fun a => match a with AccountAdjustmentOperationAccess_Populated o => collateral_asset o | AccountAdjustmentOperationAccess_Absent => Err (mkFieldAccessError "operation.collateral_asset") end.
#[export] Instance AccountAdjustmentOperationAccess_average_entry_price : HasAverageEntryPrice AccountAdjustmentOperationAccess :=
  fun a => match a with AccountAdjustmentOperationAccess_Populated o => average_entry_price o | AccountAdjustmentOperationAccess_Absent => Err (mkFieldAccessError "operation.average_entry_price") end.
#[export] Instance AccountAdjustmentOperationAccess_position_mode : HasPositionMode AccountAdjustmentOperationAccess :=
  fun a => match a with AccountAdjustmentOperationAccess_Populated o => position_mode o | AccountAdjustmentOperationAccess_Absent => Err (mkFieldAccessError "operation.position_mode") end.
#[export] Instance AccountAdjustmentOperationAccess_position_leverage : HasAccountAdjustmentPositionLeverage AccountAdjustmentOperationAccess :=
  fun a => match a with AccountAdjustmentOperationAccess_Populated o => position_leverage o | AccountAdjustmentOperationAccess_Absent => Ok None end.
#[export] Instance AccountAdjustmentOperationAccess_account_adjustment_pnl_operation : HasAccountAdjustmentPnlOperation AccountAdjustmentOperationAccess :=
  fun a => match a with AccountAdjustmentOperationAccess_Populated o => account_adjustment_pnl_operation o | AccountAdjustmentOperationAccess_Absent => Ok None end.
#[export] Instance AccountAdjustmentAmountAccess_request_balance : HasAccountAdjustmentBalance AccountAdjustmentAmountAccess := {|
  request_balance := fun a => match a with AccountAdjustmentAmountAccess_Populated o => Ok (aam_balance o) | AccountAdjustmentAmountAccess_Absent => Ok None end;
  request_balance_realized_pnl := fun _ => Ok None
|}.
#[export] Instance AccountAdjustmentAmountAccess_request_held : HasAccountAdjustmentHeld AccountAdjustmentAmountAccess :=
  fun a => match a with AccountAdjustmentAmountAccess_Populated o => Ok (aam_held o) | AccountAdjustmentAmountAccess_Absent => Ok None end.
#[export] Instance AccountAdjustmentAmountAccess_request_incoming : HasAccountAdjustmentIncoming AccountAdjustmentAmountAccess :=
  fun a => match a with AccountAdjustmentAmountAccess_Populated o => Ok (aam_incoming o) | AccountAdjustmentAmountAccess_Absent => Ok None end.
#[export] Instance AccountAdjustmentBoundsAccess_balance_upper : HasAccountAdjustmentBalanceUpperBound AccountAdjustmentBoundsAccess :=
  fun a => match a with AccountAdjustmentBoundsAccess_Populated o => Ok (abn_balance_upper o) | AccountAdjustmentBoundsAccess_Absent => Ok None end.
#[export] Instance AccountAdjustmentBoundsAccess_balance_lower : HasAccountAdjustmentBalanceLowerBound AccountAdjustmentBoundsAccess :=
  fun a => match a with AccountAdjustmentBoundsAccess_Populated o => Ok (abn_balance_lower o) | AccountAdjustmentBoundsAccess_Absent => Ok None end.
#[export] Instance AccountAdjustmentBoundsAccess_held_upper : HasAccountAdjustmentHeldUpperBound AccountAdjustmentBoundsAccess :=
  fun a => match a with AccountAdjustmentBoundsAccess_Populated o => Ok (abn_held_upper o) | AccountAdjustmentBoundsAccess_Absent => Ok None end.
#[export] Instance AccountAdjustmentBoundsAccess_held_lower : HasAccountAdjustmentHeldLowerBound AccountAdjustmentBoundsAccess :=
  fun a => match a with AccountAdjustmentBoundsAccess_Populated o => Ok (abn_held_lower o) | AccountAdjustmentBoundsAccess_Absent => Ok None end.
#[export] Instance AccountAdjustmentBoundsAccess_incoming_upper : HasAccountAdjustmentIncomingUpperBound AccountAdjustmentBoundsAccess :=
  fun a => match a with AccountAdjustmentBoundsAccess_Populated o => Ok (abn_incoming_upper o) | AccountAdjustmentBoundsAccess_Absent => Ok None end.
#[export] Instance AccountAdjustmentBoundsAccess_incoming_lower : HasAccountAdjustmentIncomingLowerBound AccountAdjustmentBoundsAccess :=
  fun a => match a with AccountAdjustmentBoundsAccess_Populated o => Ok (abn_incoming_lower o) | AccountAdjustmentBoundsAccess_Absent => Ok None end.

(** ** The requests *)

Record InteropOrder : Type := mkInteropOrder { io_operation : OrderOperationAccess; io_position : OrderPositionAccess; io_margin : OrderMarginAccess }.
Record InteropExecutionReport : Type := mkInteropExecutionReport { ir_operation : ExecutionReportOperationAccess; ir_financial_impact : FinancialImpactAccess; ir_fill : ExecutionReportFillAccess; ir_position_impact : ExecutionReportPositionImpactAccess }.
Record InteropAccountAdjustment : Type := mkInteropAccountAdjustment { ia_operation : AccountAdjustmentOperationAccess; ia_amount : AccountAdjustmentAmountAccess; ia_bounds : AccountAdjustmentBoundsAccess }.
Record RequestWithPayload (Request Payload : Type) : Type := mkRequestWithPayload { rwp_request : Request; rwp_payload : Payload }.
#[global] Arguments mkRequestWithPayload {Request Payload}.
#[global] Arguments rwp_request {Request Payload}.
#[global] Arguments rwp_payload {Request Payload}.

Definition InteropOrder_default : InteropOrder := mkInteropOrder OrderOperationAccess_Absent OrderPositionAccess_Absent OrderMarginAccess_Absent.
#[export] Instance InteropOrder_instrument : HasInstrument InteropOrder :=
  fun r => instrument (io_operation r).
#[export] Instance InteropOrder_side : HasSide InteropOrder :=
  fun r => side (io_operation r).
#[export] Instance InteropOrder_account_id : HasAccountId InteropOrder :=
  fun r => account_id (io_operation r).
#[export] Instance InteropOrder_trade_amount : HasTradeAmount InteropOrder :=
  fun r => trade_amount (io_operation r).
#[export] Instance InteropOrder_price : HasOrderPrice InteropOrder :=
  fun r => price (io_operation r).
#[export] Instance InteropOrder_order_position_side : HasOrderPositionSide InteropOrder :=
  fun r => order_position_side (io_position r).
#[export] Instance InteropOrder_reduce_only : HasReduceOnly InteropOrder :=
  fun r => reduce_only (io_position r).
#[export] Instance InteropOrder_close_position : HasClosePosition InteropOrder :=
  fun r => close_position (io_position r).
#[export] Instance InteropOrder_order_leverage : HasOrderLeverage InteropOrder :=
  fun r => order_leverage (io_margin r).
#[export] Instance InteropOrder_order_collateral_asset : HasOrderCollateralAsset InteropOrder :=
  fun r => order_collateral_asset (io_margin r).
#[export] Instance InteropOrder_auto_borrow : HasAutoBorrow InteropOrder :=
  fun r => auto_borrow (io_margin r).
Definition InteropExecutionReport_default : InteropExecutionReport := mkInteropExecutionReport ExecutionReportOperationAccess_Absent FinancialImpactAccess_Absent ExecutionReportFillAccess_Absent ExecutionReportPositionImpactAccess_Absent.
#[export] Instance InteropExecutionReport_instrument : HasInstrument InteropExecutionReport :=
  fun r => instrument (ir_operation r).
#[export] Instance InteropExecutionReport_side : HasSide InteropExecutionReport :=
  fun r => side (ir_operation r).
#[export] Instance InteropExecutionReport_account_id : HasAccountId InteropExecutionReport :=
  fun r => account_id (ir_operation r).
#[export] Instance InteropExecutionReport_report_pnl : HasPnl InteropExecutionReport :=
  fun r => report_pnl (ir_financial_impact r).
#[export] Instance InteropExecutionReport_report_fee : HasFee InteropExecutionReport :=
  fun r => report_fee (ir_financial_impact r).
#[export] Instance InteropExecutionReport_last_trade : HasExecutionReportLastTrade InteropExecutionReport :=
  fun r => last_trade (ir_fill r).
#[export] Instance InteropExecutionReport_fill_fee : HasExecutionReportFillFee InteropExecutionReport :=
  fun r => fill_fee (ir_fill r).
#[export] Instance InteropExecutionReport_is_final : HasExecutionReportIsFinal InteropExecutionReport :=
  fun r => is_final (ir_fill r).
#[export] Instance InteropExecutionReport_position_effect : HasExecutionReportPositionEffect InteropExecutionReport :=
  fun r => position_effect (ir_position_impact r).
#[export] Instance InteropExecutionReport_report_position_side : HasExecutionReportPositionSide InteropExecutionReport :=
  fun r => report_position_side (ir_position_impact r).
#[export] Instance InteropExecutionReport_remaining_reserved_quantity : HasRemainingReservedQuantity InteropExecutionReport :=
  fun r => remaining_reserved_quantity (ir_fill r).
#[export] Instance InteropExecutionReport_report_lock : HasPreTradeLock InteropExecutionReport :=
  fun r => report_lock (ir_fill r).
#[export] Instance InteropExecutionReport_price : HasOrderPrice InteropExecutionReport :=
  fun _ => Ok None.
Definition InteropAccountAdjustment_default : InteropAccountAdjustment := mkInteropAccountAdjustment AccountAdjustmentOperationAccess_Absent AccountAdjustmentAmountAccess_Absent AccountAdjustmentBoundsAccess_Absent.
#[export] Instance InteropAccountAdjustment_request_balance_asset : HasBalanceAsset InteropAccountAdjustment :=
  fun r => request_balance_asset (ia_operation r).
#[export] Instance InteropAccountAdjustment_balance_average_entry_price : HasAccountAdjustmentBalanceAverageEntryPrice InteropAccountAdjustment :=
  fun r => balance_average_entry_price (ia_operation r).
#[export] Instance InteropAccountAdjustment_account_adjustment_pnl_operation : HasAccountAdjustmentPnlOperation InteropAccountAdjustment :=
  fun r => account_adjustment_pnl_operation (ia_operation r).
#[export] Instance InteropAccountAdjustment_position_instrument : HasPositionInstrument InteropAccountAdjustment :=
  fun r => position_instrument (ia_operation r).
#[export] Instance InteropAccountAdjustment_collateral_asset : HasCollateralAsset InteropAccountAdjustment :=
  fun r => collateral_asset (ia_operation r).
#[export] Instance InteropAccountAdjustment_average_entry_price : HasAverageEntryPrice InteropAccountAdjustment :=
  fun r => average_entry_price (ia_operation r).
#[export] Instance InteropAccountAdjustment_position_mode : HasPositionMode InteropAccountAdjustment :=
  fun r => position_mode (ia_operation r).
#[export] Instance InteropAccountAdjustment_position_leverage : HasAccountAdjustmentPositionLeverage InteropAccountAdjustment :=
  fun r => position_leverage (ia_operation r).
#[export] Instance InteropAccountAdjustment_request_balance : HasAccountAdjustmentBalance InteropAccountAdjustment := {|
  request_balance := fun r => request_balance (ia_amount r);
  request_balance_realized_pnl := fun r => request_balance_realized_pnl (ia_operation r)
|}.
#[export] Instance InteropAccountAdjustment_request_held : HasAccountAdjustmentHeld InteropAccountAdjustment :=
  fun r => request_held (ia_amount r).
#[export] Instance InteropAccountAdjustment_request_incoming : HasAccountAdjustmentIncoming InteropAccountAdjustment :=
  fun r => request_incoming (ia_amount r).
#[export] Instance InteropAccountAdjustment_balance_upper : HasAccountAdjustmentBalanceUpperBound InteropAccountAdjustment :=
  fun r => balance_upper (ia_bounds r).
#[export] Instance InteropAccountAdjustment_balance_lower : HasAccountAdjustmentBalanceLowerBound InteropAccountAdjustment :=
  fun r => balance_lower (ia_bounds r).
#[export] Instance InteropAccountAdjustment_held_upper : HasAccountAdjustmentHeldUpperBound InteropAccountAdjustment :=
  fun r => held_upper (ia_bounds r).
#[export] Instance InteropAccountAdjustment_held_lower : HasAccountAdjustmentHeldLowerBound InteropAccountAdjustment :=
  fun r => held_lower (ia_bounds r).
#[export] Instance InteropAccountAdjustment_incoming_upper : HasAccountAdjustmentIncomingUpperBound InteropAccountAdjustment :=
  fun r => incoming_upper (ia_bounds r).
#[export] Instance InteropAccountAdjustment_incoming_lower : HasAccountAdjustmentIncomingLowerBound InteropAccountAdjustment :=
  fun r => incoming_lower (ia_bounds r).
#[export] Instance RequestWithPayload_instrument {Request Payload} `{!HasInstrument Request} : HasInstrument (RequestWithPayload Request Payload) :=
  fun r => instrument (rwp_request r).
#[export] Instance RequestWithPayload_side {Request Payload} `{!HasSide Request} : HasSide (RequestWithPayload Request Payload) :=
  fun r => side (rwp_request r).
#[export] Instance RequestWithPayload_account_id {Request Payload} `{!HasAccountId Request} : HasAccountId (RequestWithPayload Request Payload) :=
  fun r => account_id (rwp_request r).
#[export] Instance RequestWithPayload_trade_amount {Request Payload} `{!HasTradeAmount Request} : HasTradeAmount (RequestWithPayload Request Payload) :=
  fun r => trade_amount (rwp_request r).
#[export] Instance RequestWithPayload_price {Request Payload} `{!HasOrderPrice Request} : HasOrderPrice (RequestWithPayload Request Payload) :=
  fun r => price (rwp_request r).
#[export] Instance RequestWithPayload_order_position_side {Request Payload} `{!HasOrderPositionSide Request} : HasOrderPositionSide (RequestWithPayload Request Payload) :=
  fun r => order_position_side (rwp_request r).
#[export] Instance RequestWithPayload_reduce_only {Request Payload} `{!HasReduceOnly Request} : HasReduceOnly (RequestWithPayload Request Payload) :=
  fun r => reduce_only (rwp_request r).
#[export] Instance RequestWithPayload_close_position {Request Payload} `{!HasClosePosition Request} : HasClosePosition (RequestWithPayload Request Payload) :=
  fun r => close_position (rwp_request r).
#[export] Instance RequestWithPayload_order_leverage {Request Payload} `{!HasOrderLeverage Request} : HasOrderLeverage (RequestWithPayload Request Payload) :=
  fun r => order_leverage (rwp_request r).
#[export] Instance RequestWithPayload_order_collateral_asset {Request Payload} `{!HasOrderCollateralAsset Request} : HasOrderCollateralAsset (RequestWithPayload Request Payload) :=
  fun r => order_collateral_asset (rwp_request r).
#[export] Instance RequestWithPayload_auto_borrow {Request Payload} `{!HasAutoBorrow Request} : HasAutoBorrow (RequestWithPayload Request Payload) :=
  fun r => auto_borrow (rwp_request r).
#[export] Instance RequestWithPayload_report_pnl {Request Payload} `{!HasPnl Request} : HasPnl (RequestWithPayload Request Payload) :=
  fun r => report_pnl (rwp_request r).
#[export] Instance RequestWithPayload_report_fee {Request Payload} `{!HasFee Request} : HasFee (RequestWithPayload Request Payload) :=
  fun r => report_fee (rwp_request r).
#[export] Instance RequestWithPayload_remaining_reserved_quantity {Request Payload} `{!HasRemainingReservedQuantity Request} : HasRemainingReservedQuantity (RequestWithPayload Request Payload) :=
  fun r => remaining_reserved_quantity (rwp_request r).
#[export] Instance RequestWithPayload_report_lock {Request Payload} `{!HasPreTradeLock Request} : HasPreTradeLock (RequestWithPayload Request Payload) :=
  fun r => report_lock (rwp_request r).
#[export] Instance RequestWithPayload_last_trade {Request Payload} `{!HasExecutionReportLastTrade Request} : HasExecutionReportLastTrade (RequestWithPayload Request Payload) :=
  fun r => last_trade (rwp_request r).
#[export] Instance RequestWithPayload_fill_fee {Request Payload} `{!HasExecutionReportFillFee Request} : HasExecutionReportFillFee (RequestWithPayload Request Payload) :=
  fun r => fill_fee (rwp_request r).
#[export] Instance RequestWithPayload_is_final {Request Payload} `{!HasExecutionReportIsFinal Request} : HasExecutionReportIsFinal (RequestWithPayload Request Payload) :=
  fun r => is_final (rwp_request r).
#[export] Instance RequestWithPayload_position_effect {Request Payload} `{!HasExecutionReportPositionEffect Request} : HasExecutionReportPositionEffect (RequestWithPayload Request Payload) :=
  fun r => position_effect (rwp_request r).
#[export] Instance RequestWithPayload_report_position_side {Request Payload} `{!HasExecutionReportPositionSide Request} : HasExecutionReportPositionSide (RequestWithPayload Request Payload) :=
  fun r => report_position_side (rwp_request r).
#[export] Instance RequestWithPayload_request_balance_asset {Request Payload} `{!HasBalanceAsset Request} : HasBalanceAsset (RequestWithPayload Request Payload) :=
  fun r => request_balance_asset (rwp_request r).
#[export] Instance RequestWithPayload_balance_average_entry_price {Request Payload} `{!HasAccountAdjustmentBalanceAverageEntryPrice Request} : HasAccountAdjustmentBalanceAverageEntryPrice (RequestWithPayload Request Payload) :=
  fun r => balance_average_entry_price (rwp_request r).
#[export] Instance RequestWithPayload_account_adjustment_pnl_operation {Request Payload} `{!HasAccountAdjustmentPnlOperation Request} : HasAccountAdjustmentPnlOperation (RequestWithPayload Request Payload) :=
  fun r => account_adjustment_pnl_operation (rwp_request r).
#[export] Instance RequestWithPayload_position_instrument {Request Payload} `{!HasPositionInstrument Request} : HasPositionInstrument (RequestWithPayload Request Payload) :=
  fun r => position_instrument (rwp_request r).
#[export] Instance RequestWithPayload_collateral_asset {Request Payload} `{!HasCollateralAsset Request} : HasCollateralAsset (RequestWithPayload Request Payload) :=
  fun r => collateral_asset (rwp_request r).
#[export] Instance RequestWithPayload_average_entry_price {Request Payload} `{!HasAverageEntryPrice Request} : HasAverageEntryPrice (RequestWithPayload Request Payload) :=
  fun r => average_entry_price (rwp_request r).
#[export] Instance RequestWithPayload_position_mode {Request Payload} `{!HasPositionMode Request} : HasPositionMode (RequestWithPayload Request Payload) :=
  fun r => position_mode (rwp_request r).
#[export] Instance RequestWithPayload_position_leverage {Request Payload} `{!HasAccountAdjustmentPositionLeverage Request} : HasAccountAdjustmentPositionLeverage (RequestWithPayload Request Payload) :=
  fun r => position_leverage (rwp_request r).
#[export] Instance RequestWithPayload_request_balance {Request Payload} `{!HasAccountAdjustmentBalance Request} : HasAccountAdjustmentBalance (RequestWithPayload Request Payload) := {|
  request_balance := fun r => request_balance (rwp_request r);
  request_balance_realized_pnl := fun r => request_balance_realized_pnl (rwp_request r)
|}.
#[export] Instance RequestWithPayload_request_held {Request Payload} `{!HasAccountAdjustmentHeld Request} : HasAccountAdjustmentHeld (RequestWithPayload Request Payload) :=
  fun r => request_held (rwp_request r).
#[export] Instance RequestWithPayload_request_incoming {Request Payload} `{!HasAccountAdjustmentIncoming Request} : HasAccountAdjustmentIncoming (RequestWithPayload Request Payload) :=
  fun r => request_incoming (rwp_request r).
#[export] Instance RequestWithPayload_balance_upper {Request Payload} `{!HasAccountAdjustmentBalanceUpperBound Request} : HasAccountAdjustmentBalanceUpperBound (RequestWithPayload Request Payload) :=
  fun r => balance_upper (rwp_request r).
#[export] Instance RequestWithPayload_balance_lower {Request Payload} `{!HasAccountAdjustmentBalanceLowerBound Request} : HasAccountAdjustmentBalanceLowerBound (RequestWithPayload Request Payload) :=
  fun r => balance_lower (rwp_request r).
#[export] Instance RequestWithPayload_held_upper {Request Payload} `{!HasAccountAdjustmentHeldUpperBound Request} : HasAccountAdjustmentHeldUpperBound (RequestWithPayload Request Payload) :=
  fun r => held_upper (rwp_request r).
#[export] Instance RequestWithPayload_held_lower {Request Payload} `{!HasAccountAdjustmentHeldLowerBound Request} : HasAccountAdjustmentHeldLowerBound (RequestWithPayload Request Payload) :=
  fun r => held_lower (rwp_request r).
#[export] Instance RequestWithPayload_incoming_upper {Request Payload} `{!HasAccountAdjustmentIncomingUpperBound Request} : HasAccountAdjustmentIncomingUpperBound (RequestWithPayload Request Payload) :=
  fun r => incoming_upper (rwp_request r).
#[export] Instance RequestWithPayload_incoming_lower {Request Payload} `{!HasAccountAdjustmentIncomingLowerBound Request} : HasAccountAdjustmentIncomingLowerBound (RequestWithPayload Request Payload) :=
  fun r => incoming_lower (rwp_request r).

End Interop.
