(* ===== verification/InteropFacts.v ===== *)
(** * InteropFacts: the engine sees a request through its accessors only

    Two presentations of the same requests - the layered models of [Requests], the
    groups of [Interop], either of them with or without a payload - get the same answers
    from every entry point of the engine and leave it in the same state, whatever
    built-in policies it runs.  A
    request of [Interop] with every group populated is worth the core request with
    those fields; what an absent group costs depends on what the policies in front of
    it read. *)
From S2P Require Import Prelude.
From S2P Require Import Decimal.
From S2P Require Import Param.
From S2P Require Import ParamTypes.
From S2P Require Import Identifiers.
From S2P Require Import Mutation.
From S2P Require Import Reject.
From S2P Require Import AccountControl.
From S2P Require Import Accounts.
From S2P Require Import Lock.
From S2P Require Import Policy.
From S2P Require Import Engine.
From S2P Require Import EngineFacts.
From S2P Require Import OrderValidation.
From S2P Require Import OrderSizeLimit.
From S2P Require Import PnlBounds.
From S2P Require Import RateLimit.
From S2P Require Import SpotFundsParts.
From S2P Require Import SpotFunds.
From S2P Require Import SpotFundsReservation.
From S2P Require Import SpotFundsExecution.
From S2P Require Import SpotFundsAdjustment.
From S2P Require Import Requests.
From S2P Require Import Interop.
Open Scope string_scope.

(** ** The same request to its readers *)

Class SameOrder {D : DecimalOps} {O O' : Type} `{!HasAccountId O, !HasInstrument O, !HasSide O, !HasTradeAmount O, !HasOrderPrice O}
    `{!HasAccountId O', !HasInstrument O', !HasSide O', !HasTradeAmount O', !HasOrderPrice O'} (f : O -> O') : Prop := {
  so_account o n : account_id o n = account_id (f o) n;
  so_instrument o : instrument o = instrument (f o);
  so_side o : side o = side (f o);
  so_trade_amount o : trade_amount o = trade_amount (f o);
  so_price o : price o = price (f o)
}.

Class SameReport {D : DecimalOps} {R R' : Type} `{!HasAccountId R, !HasInstrument R, !HasSide R, !HasPnl R, !HasFee R,
    !HasExecutionReportLastTrade R, !HasExecutionReportFillFee R, !HasRemainingReservedQuantity R,
    !HasExecutionReportIsFinal R, !HasPreTradeLock R}
    `{!HasAccountId R', !HasInstrument R', !HasSide R', !HasPnl R', !HasFee R',
    !HasExecutionReportLastTrade R', !HasExecutionReportFillFee R', !HasRemainingReservedQuantity R',
    !HasExecutionReportIsFinal R', !HasPreTradeLock R'} (f : R -> R') : Prop := {
  sr_account r n : account_id r n = account_id (f r) n;
  sr_instrument r : instrument r = instrument (f r);
  sr_side r : side r = side (f r);
  sr_pnl r : report_pnl r = report_pnl (f r);
  sr_fee r : report_fee r = report_fee (f r);
  sr_last_trade r : last_trade r = last_trade (f r);
  sr_fill_fee r : fill_fee r = fill_fee (f r);
  sr_remaining r : remaining_reserved_quantity r = remaining_reserved_quantity (f r);
  sr_is_final r : is_final r = is_final (f r);
  sr_lock r : report_lock r = report_lock (f r)
}.

(** The fields of a slot matter only when the adjustment is not one of the account's
    P&L. *)
Record same_slot_fields {D : DecimalOps} {A A' : Type} `{!HasAdjustmentFields A} `{!HasAdjustmentFields A'} (a : A) (a' : A') : Prop := {
  sa_asset : balance_asset a = balance_asset a';
  sa_balance : adj_balance a = adj_balance a';
  sa_average : adj_balance_average_entry_price a = adj_balance_average_entry_price a';
  sa_realized : adj_balance_realized_pnl a = adj_balance_realized_pnl a';
  sa_balance_lower : adj_balance_lower a = adj_balance_lower a';
  sa_balance_upper : adj_balance_upper a = adj_balance_upper a';
  sa_held : adj_held a = adj_held a';
  sa_held_lower : adj_held_lower a = adj_held_lower a';
  sa_held_upper : adj_held_upper a = adj_held_upper a';
  sa_incoming : adj_incoming a = adj_incoming a';
  sa_incoming_lower : adj_incoming_lower a = adj_incoming_lower a';
  sa_incoming_upper : adj_incoming_upper a = adj_incoming_upper a'
}.

Class SameAdjustment {D : DecimalOps} {A A' : Type} `{!HasAdjustmentFields A} `{!HasAdjustmentFields A'} (f : A -> A') : Prop := {
  sa_pnl a : adjustment_pnl_operation a = adjustment_pnl_operation (f a);
  sa_slot a : adjustment_pnl_operation a = Ok None -> same_slot_fields a (f a)
}.

(** ** The engine *)

(** Loops over two lists whose elements correspond. *)
Lemma foldl_agree {X Y Z} (R : X -> Y -> Prop) (f : Z -> X -> Z) (g : Z -> Y -> Z) l l' z :
  Forall2 R l l' -> (forall z x y, R x y -> f z x = g z y) -> foldl f z l = foldl g z l'.
Proof. intros Hl Hf. revert z. induction Hl as [|x y l l' Hxy _ IH]; intros z; [done|]. cbn. by rewrite (Hf _ _ _ Hxy). Qed.

Section Agree.
Context {D : DecimalOps} {W O O' R R' A A' : Type}.
Context (fo : O -> O') (fr : R -> R') (fa : A -> A').

(** A policy over one presentation does what one over the other does. *)
Record agrees (p : PreTradePolicy W O R A) (p' : PreTradePolicy W O' R' A') : Prop := {
  ag_name : pol_name p = pol_name p';
  ag_group : policy_group_id p = policy_group_id p';
  ag_start ctx o s : check_pre_trade_start p ctx o s = check_pre_trade_start p' ctx (fo o) s;
  ag_start_dry ctx o s : check_pre_trade_start_dry_run p ctx o s = check_pre_trade_start_dry_run p' ctx (fo o) s;
  ag_main ctx o ms s : perform_pre_trade_check p ctx o ms s = perform_pre_trade_check p' ctx (fo o) ms s;
  ag_main_dry ctx o ms s : perform_pre_trade_check_dry_run p ctx o ms s = perform_pre_trade_check_dry_run p' ctx (fo o) ms s;
  ag_report ctx r s : pol_apply_execution_report p ctx r s = pol_apply_execution_report p' ctx (fr r) s;
  ag_adjust ctx account a ms s : pol_apply_account_adjustment p ctx account a ms s = pol_apply_account_adjustment p' ctx account (fa a) ms s;
  ag_retire account ms st : pol_retire_account p account ms st = pol_retire_account p' account ms st
}.

Context {HO : HasAccountId O} {HO' : HasAccountId O'} {HR : HasAccountId R} {HR' : HasAccountId R'}.
Context (Ho : forall o n, account_id o n = account_id (fo o) n) (Hr : forall r n, account_id r n = account_id (fr r) n).
Context (ps : list (PreTradePolicy W O R A)) (ps' : list (PreTradePolicy W O' R' A')) (Hps : Forall2 agrees ps ps').

Lemma start_stage_agrees (hook : StartHook) (hook' : StartHook) ctx o s :
  (forall p p' s, agrees p p' -> hook p ctx o s = hook' p' ctx (fo o) s) ->
  run_pre_trade_start_stage hook ps ctx o s = run_pre_trade_start_stage hook' ps' ctx (fo o) s.
Proof using Hps.
  intros Hh. unfold run_pre_trade_start_stage.
  rewrite (foldl_agree agrees (start_step hook ctx o) (start_step hook' ctx (fo o)) ps ps'); [done|done|].
  intros [a s'] p p' Hp. unfold start_step. by rewrite (Hh p p' s' Hp).
Qed.

Lemma main_stage_agrees (hook : MainHook) (hook' : MainHook) ctx o s :
  (forall p p' ms s, agrees p p' -> hook p ctx o ms s = hook' p' ctx (fo o) ms s) ->
  run_pre_trade_main_stage hook ps ctx o s = run_pre_trade_main_stage hook' ps' ctx (fo o) s.
Proof using Hps.
  intros Hh. unfold run_pre_trade_main_stage. destruct (mutations_new s.2) as [ms st].
  rewrite (foldl_agree agrees (main_step hook ctx o) (main_step hook' ctx (fo o)) ps ps'); [done|done|].
  intros [a s'] p p' Hp. unfold main_step. rewrite (Hh p p' _ s' Hp). by rewrite (ag_group _ _ Hp).
Qed.

Lemma timed_start_agrees (hook : StartHook) (hook' : StartHook) now ctx o (s : HookState W) :
  (forall p p' s, agrees p p' -> hook p ctx o s = hook' p' ctx (fo o) s) ->
  with_start_pre_trade_now now (run_pre_trade_start_stage hook ps ctx o) s =
  with_start_pre_trade_now now (run_pre_trade_start_stage hook' ps' ctx (fo o)) s.
Proof using Hps. intros Hh. unfold with_start_pre_trade_now. by rewrite (start_stage_agrees hook hook'). Qed.

Lemma started_agrees now ctx o s :
  with_start_pre_trade_now now (run_pre_trade_start_stage check_pre_trade_start ps ctx o) s =
  with_start_pre_trade_now now (run_pre_trade_start_stage check_pre_trade_start ps' ctx (fo o)) s.
Proof using Hps. apply timed_start_agrees. intros p p' s' Hp. apply (ag_start _ _ Hp). Qed.

Lemma started_dry_agrees now ctx o s :
  with_start_pre_trade_now now (run_pre_trade_start_stage check_pre_trade_start_dry_run ps ctx o) s =
  with_start_pre_trade_now now (run_pre_trade_start_stage check_pre_trade_start_dry_run ps' ctx (fo o)) s.
Proof using Hps. apply timed_start_agrees. intros p p' s' Hp. apply (ag_start_dry _ _ Hp). Qed.

Lemma checked_agrees ctx o s :
  run_pre_trade_main_stage perform_pre_trade_check ps ctx o s = run_pre_trade_main_stage perform_pre_trade_check ps' ctx (fo o) s.
Proof using Hps. apply main_stage_agrees. intros p p' ms s' Hp. apply (ag_main _ _ Hp). Qed.

Lemma checked_dry_agrees ctx o s :
  run_pre_trade_main_stage perform_pre_trade_check_dry_run ps ctx o s =
  run_pre_trade_main_stage perform_pre_trade_check_dry_run ps' ctx (fo o) s.
Proof using Hps. apply main_stage_agrees. intros p p' ms s' Hp. apply (ag_main_dry _ _ Hp). Qed.

Lemma request_agrees alive ctx cells o st :
  execute_pre_trade_request alive ps (mkPreTradeRequest ctx cells o) st =
  execute_pre_trade_request alive ps' (mkPreTradeRequest ctx cells (fo o)) st.
Proof using Hps. unfold execute_pre_trade_request. cbn [req_ctx req_cells req_order]. by rewrite checked_agrees. Qed.

(** The same request of another presentation of its order. *)
Definition request_as (request : PreTradeRequest (W:=W) (Order:=O)) : PreTradeRequest (W:=W) (Order:=O') :=
  mkPreTradeRequest (req_ctx request) (req_cells request) (fo (req_order request)).

Lemma start_agrees now o st :
  start_pre_trade ps' now (fo o) st =
  (let '(r, st) := start_pre_trade ps now o st in (request_as <$> r, st)).
Proof using Ho Hps.
  unfold start_pre_trade. rewrite (Ho o 0). destruct (check _ _ _ _); [done|].
  destruct (with_accounts_ctx _) as [ctx cells]. rewrite started_agrees.
  by destruct (with_start_pre_trade_now _ _ _) as [[[rejects|] block] [cells' st']].
Qed.

Lemma execute_agrees now o st : execute_pre_trade ps now o st = execute_pre_trade ps' now (fo o) st.
Proof using Ho Hps.
  unfold execute_pre_trade. rewrite start_agrees. destruct (start_pre_trade _ _ _ _) as [[[ctx cells o1]|rejects] st']; [|done].
  apply request_agrees.
Qed.

Lemma start_dry_agrees now o st : start_pre_trade_dry_run ps now o st = start_pre_trade_dry_run ps' now (fo o) st.
Proof using Ho Hps.
  unfold start_pre_trade_dry_run. rewrite (Ho o 0). destruct (check _ _ _ _); [done|].
  destruct (with_accounts_ctx _) as [ctx cells]. by rewrite started_dry_agrees.
Qed.

Lemma dry_run_agrees now o st : execute_pre_trade_dry_run ps now o st = execute_pre_trade_dry_run ps' now (fo o) st.
Proof using Ho Hps.
  unfold execute_pre_trade_dry_run. rewrite (Ho o 0). destruct (check _ _ _ _); [done|].
  destruct (with_accounts_ctx _) as [ctx cells]. rewrite started_dry_agrees.
  destruct (with_start_pre_trade_now _ _ _) as [[[rejects|] block] s]; [done|]. by rewrite checked_dry_agrees.
Qed.

Lemma drop_copy_agrees now o st : apply_drop_copy ps now o st = apply_drop_copy ps' now (fo o) st.
Proof using Ho Hps.
  unfold apply_drop_copy. rewrite (Ho o 0). destruct (account_id (fo o) 0) as [account|]; [|done].
  destruct (with_accounts_and_drop_copy _ _) as [ctx s]. rewrite started_agrees.
  destruct (with_start_pre_trade_now _ _ _) as [[rejects block] s']. destruct (fatal_drop_copy_rejects rejects); [done|].
  by rewrite checked_agrees.
Qed.

Lemma report_agrees r st : apply_execution_report ps r st = apply_execution_report ps' (fr r) st.
Proof using Hr Hps.
  unfold apply_execution_report. rewrite (Hr r 0), (Hr r 1).
  rewrite (foldl_agree agrees (report_step _ r) (report_step (mkPostTradeContext (result_ok (account_id (fr r) 0))) (fr r)) ps ps'); [done|done|].
  intros [out s] p p' Hp. unfold report_step. by rewrite (ag_report _ _ Hp).
Qed.

Lemma adjust_policies_agree ctx account a acc s :
  adjust_policies ctx account a ps acc s = adjust_policies ctx account (fa a) ps' acc s.
Proof using Hps.
  enough (H : forall l l', Forall2 agrees l l' -> forall acc s,
    adjust_policies ctx account a l acc s = adjust_policies ctx account (fa a) l' acc s) by by apply H.
  clear. induction 1 as [|p p' l l' Hp _ IH]; intros acc s; [done|]. cbn. rewrite (ag_adjust _ _ Hp), (ag_group _ _ Hp).
  destruct (pol_apply_account_adjustment _ _ _ _ _ _) as [[[result|rejects] ms] s']; [apply IH|done].
Qed.

Lemma batch_agrees account l st :
  apply_account_adjustment ps account l st = apply_account_adjustment ps' account (fa <$> l) st.
Proof using Hps.
  assert (E : forall ctx n acc s, adjust_batch ctx account ps n l acc s = adjust_batch ctx account ps' n (fa <$> l) acc s).
  { induction l as [|a l IH]; intros ctx n acc s; [done|]. cbn. rewrite adjust_policies_agree.
    destruct (adjust_policies _ _ _ _ _ _) as [[[]] s']; [|done]. apply IH. }
  destruct l as [|a l]; [done|]. unfold apply_account_adjustment. cbn [fmap list_fmap] in *. destruct (mutations_new st) as [ms st'].
  by rewrite E.
Qed.

Lemma retire_agrees account st : retire_account ps account st = retire_account ps' account st.
Proof using Hps.
  unfold retire_account. destruct (mutations_new st) as [ms st'].
  rewrite (foldl_agree agrees (retire_step account) (retire_step account) ps ps'); [done|done|].
  intros [[refusals ms'] s] p p' Hp. unfold retire_step. by rewrite (ag_retire _ _ Hp), (ag_name _ _ Hp).
Qed.

(** *** Every entry point at once *)

Record answers_alike : Prop := {
  al_start now o st :
    start_pre_trade ps' now (fo o) st = (let '(r, st) := start_pre_trade ps now o st in (request_as <$> r, st));
  al_request alive request st :
    execute_pre_trade_request alive ps request st = execute_pre_trade_request alive ps' (request_as request) st;
  al_execute now o st : execute_pre_trade ps now o st = execute_pre_trade ps' now (fo o) st;
  al_start_dry now o st : start_pre_trade_dry_run ps now o st = start_pre_trade_dry_run ps' now (fo o) st;
  al_execute_dry now o st : execute_pre_trade_dry_run ps now o st = execute_pre_trade_dry_run ps' now (fo o) st;
  al_drop_copy now o st : apply_drop_copy ps now o st = apply_drop_copy ps' now (fo o) st;
  al_report r st : apply_execution_report ps r st = apply_execution_report ps' (fr r) st
}.

Record adjusts_alike : Prop := {
  al_adjustment account l st : apply_account_adjustment ps account l st = apply_account_adjustment ps' account (fa <$> l) st;
  al_retire account st : retire_account ps account st = retire_account ps' account st
}.

Lemma engine_answers_alike : answers_alike.
Proof using Ho Hr Hps.
  split; [apply start_agrees| |apply execute_agrees|apply start_dry_agrees|apply dry_run_agrees|apply drop_copy_agrees
    |apply report_agrees].
  intros alive [ctx cells o] st. apply request_agrees.
Qed.

Lemma engine_adjusts_alike : adjusts_alike.
Proof using Hps. split; [apply batch_agrees|apply retire_agrees]. Qed.
End Agree.

(** ** The built-in policies *)

Section BuiltIn.
Context {D : DecimalOps} {F : DecimalFormat} {G : DecimalDebug} {W : Type}.
Context {M : MarketDataSource W} {LW : LeaseWaits W}.

(** A built-in policy with its place in the world. *)
Inductive BuiltIn : Type :=
| BI_OrderValidation (self : OrderValidationPolicy)
| BI_RateLimit (cell : Owns W RateLimitState) (self : RateLimitPolicy) (clock : Z)
| BI_OrderSizeLimit (cell : Owns W OrderSizeLimitSettings) (self : OrderSizeLimitPolicy)
| BI_PnlBoundsKillSwitch (state : Owns W KillSwitchState) (group_id : PolicyGroupId) (reads : nat)
| BI_SpotFunds (funds : Owns W SpotFundsState) (self : SpotFundsPolicy) (reads : nat).

Section Over.
Context (O R A : Type) `{!HasAccountId O, !HasInstrument O, !HasSide O, !HasTradeAmount O, !HasOrderPrice O}
  `{!HasAccountId R, !HasInstrument R, !HasSide R, !HasPnl R, !HasFee R, !HasExecutionReportLastTrade R,
    !HasExecutionReportFillFee R, !HasRemainingReservedQuantity R, !HasExecutionReportIsFinal R, !HasPreTradeLock R}
  `{!HasAdjustmentFields A}.

(** The policy at given request types. *)
Definition policy_of (b : BuiltIn) : PreTradePolicy W O R A :=
  match b with
  | BI_OrderValidation self => order_validation_policy self
  | BI_RateLimit cell self clock => rate_limit_policy clock self
  | BI_OrderSizeLimit cell self => order_size_limit_policy self
  | BI_PnlBoundsKillSwitch state group_id reads => pnl_killswitch_policy reads group_id
  | BI_SpotFunds funds self reads => spot_funds_policy reads self
  end.
End Over.

Context {O O' R R' A A' : Type}.
Context `{!HasAccountId O, !HasInstrument O, !HasSide O, !HasTradeAmount O, !HasOrderPrice O}
    `{!HasAccountId O', !HasInstrument O', !HasSide O', !HasTradeAmount O', !HasOrderPrice O'} (fo : O -> O') {So : SameOrder fo}.
Context `{!HasAccountId R, !HasInstrument R, !HasSide R, !HasPnl R, !HasFee R, !HasExecutionReportLastTrade R,
    !HasExecutionReportFillFee R, !HasRemainingReservedQuantity R, !HasExecutionReportIsFinal R, !HasPreTradeLock R}
    `{!HasAccountId R', !HasInstrument R', !HasSide R', !HasPnl R', !HasFee R', !HasExecutionReportLastTrade R',
    !HasExecutionReportFillFee R', !HasRemainingReservedQuantity R', !HasExecutionReportIsFinal R', !HasPreTradeLock R'}
    (fr : R -> R') {Sr : SameReport fr}.
Context `{!HasAdjustmentFields A} `{!HasAdjustmentFields A'} (fa : A -> A') {Sa : SameAdjustment fa}.

Lemma order_view_agrees ctx o : read_order_request ctx o = read_order_request ctx (fo o).
Proof using So. unfold read_order_request. by rewrite so_instrument, so_side, so_trade_amount, so_price. Qed.

Lemma execution_view_agrees reads r : read_execution_request reads r = read_execution_request reads (fr r).
Proof using Sr.
  unfold read_execution_request.
  by rewrite sr_account, sr_instrument, sr_side, sr_last_trade, sr_fill_fee, sr_remaining, sr_is_final, sr_lock.
Qed.

Lemma adjustment_view_agrees a :
  adjustment_pnl_operation a = Ok None -> read_adjustment_request a = read_adjustment_request (fa a).
Proof using Sa.
  intros Ha. destruct (sa_slot a Ha) as [E1 E2 E3 E4 E5 E6 E7 E8 E9 E10 E11 E12]. unfold read_adjustment_request.
  by rewrite E1, E2, E3, E4, E5, E6, E7, E8, E9, E10, E11, E12.
Qed.

Lemma increment_agrees reads r : report_increment reads r = report_increment reads (fr r).
Proof using Sr. unfold report_increment. by rewrite sr_instrument, sr_account, sr_pnl, sr_fee. Qed.

Lemma size_check_agrees settings ctx o : check_size_snapshot settings ctx o = check_size_snapshot settings ctx (fo o).
Proof using So. unfold check_size_snapshot, enforce_size_limits. by rewrite so_instrument, so_trade_amount, so_price. Qed.

Lemma adjustment_agrees {funds : Owns W SpotFundsState} self ctx account a ms st :
  apply_account_adjustment_impl self ctx account a ms st = apply_account_adjustment_impl self ctx account (fa a) ms st.
Proof using Sa.
  unfold apply_account_adjustment_impl. rewrite <- (sa_pnl a). destruct (adjustment_pnl_operation a) as [[state|]|e] eqn:E; [done| |done].
  cbn. by rewrite (adjustment_view_agrees a E).
Qed.

Lemma order_validation_agrees self : agrees (W:=W) fo fr fa (order_validation_policy self) (order_validation_policy self).
Proof using So.
  split; try reflexivity; intros ctx o s; cbn; unfold order_validation_check_pre_trade_start, order_validation_check; by rewrite so_trade_amount.
Qed.

Lemma rate_limit_agrees {cell : Owns W RateLimitState} clock self :
  agrees (W:=W) fo fr fa (rate_limit_policy clock self) (rate_limit_policy clock self).
Proof using So. split; try reflexivity; intros ctx o s; cbn; unfold check_start; by rewrite so_instrument. Qed.

Lemma order_size_agrees {cell : Owns W OrderSizeLimitSettings} self :
  agrees (W:=W) fo fr fa (order_size_limit_policy self) (order_size_limit_policy self).
Proof using So.
  split; try reflexivity; intros ctx o s; cbn; unfold order_size_check_pre_trade_start; by rewrite size_check_agrees.
Qed.

Lemma pnl_killswitch_agrees {state : Owns W KillSwitchState} group_id reads :
  agrees (W:=W) fo fr fa (pnl_killswitch_policy reads group_id) (pnl_killswitch_policy reads group_id).
Proof using So Sr.
  split; try reflexivity; cbn.
  - intros ctx o s. unfold pnl_check_pre_trade_start, pnl_check_observed. by rewrite so_instrument.
  - intros ctx o s. unfold pnl_check_pre_trade_start, pnl_check_observed. by rewrite so_instrument.
  - intros ctx r s. unfold pnl_apply_execution_report, apply_report_state. by rewrite increment_agrees.
Qed.

Lemma spot_funds_agrees {funds : Owns W SpotFundsState} self reads :
  agrees (W:=W) fo fr fa (spot_funds_policy reads self) (spot_funds_policy reads self).
Proof using So Sr Sa.
  split; try reflexivity; cbn.
  - intros ctx o ms s. unfold perform_pre_trade_check_impl. by rewrite order_view_agrees.
  - intros ctx o ms s. unfold perform_pre_trade_check_dry_run_impl. by rewrite order_view_agrees.
  - intros ctx r s. unfold sf_apply_execution_report. by rewrite execution_view_agrees.
  - intros ctx account a ms s. by rewrite adjustment_agrees.
Qed.

Lemma builtin_agrees b : agrees fo fr fa (policy_of O R A b) (policy_of O' R' A' b).
Proof using So Sr Sa.
  destruct b; cbn; [apply order_validation_agrees|apply rate_limit_agrees|apply order_size_agrees|apply pnl_killswitch_agrees|
    apply spot_funds_agrees].
Qed.

Lemma builtins_agree l : Forall2 (agrees fo fr fa) (policy_of O R A <$> l) (policy_of O' R' A' <$> l).
Proof using So Sr Sa. induction l as [|b l IH]; cbn; constructor; [apply builtin_agrees|apply IH]. Qed.
End BuiltIn.

Section Interop.
Context {D : DecimalOps}.

(** ** The core requests with all their layers *)

Abbreviation CoreOrder := (WithOrderMargin (WithOrderPosition OrderOperation)).
Abbreviation CoreReport :=
  (WithExecutionReportPositionImpact (WithExecutionReportFillDetails (WithFinancialImpact ExecutionReportOperation))).
Abbreviation CoreBalanceAdjustment :=
  (WithAccountAdjustmentBounds (WithAccountAdjustmentBalanceOperation AccountAdjustmentAmount)).
Abbreviation CoreRealizedAdjustment :=
  (WithAccountAdjustmentBounds (WithAccountAdjustmentBalanceRealizedPnl
     (WithAccountAdjustmentBalanceOperation AccountAdjustmentAmount))).

(** ** Their groups *)

Definition operation_group (o : OrderOperation) : OrderOperationAccess :=
  OrderOperationAccess_Populated
    (mkPopulatedOrderOperation (Some (oop_instrument o)) (Some (oop_account_id o)) (Some (oop_side o))
       (Some (oop_trade_amount o)) (oop_price o)).

Definition position_group (p : OrderPosition) : OrderPositionAccess :=
  OrderPositionAccess_Populated
    (mkPopulatedOrderPosition (opos_position_side p) (opos_reduce_only p) (opos_close_position p)).

Definition margin_group (m : OrderMargin) : OrderMarginAccess :=
  OrderMarginAccess_Populated (mkPopulatedOrderMargin (om_leverage m) (om_collateral_asset m) (om_auto_borrow m)).

Definition populated_order (o : CoreOrder) : InteropOrder :=
  mkInteropOrder (operation_group (wopos_inner (wom_inner o))) (position_group (wopos_position (wom_inner o)))
    (margin_group (wom_margin o)).

Definition report_operation_group (o : ExecutionReportOperation) : ExecutionReportOperationAccess :=
  ExecutionReportOperationAccess_Populated
    (mkPopulatedExecutionReportOperation (Some (ero_instrument o)) (Some (ero_account_id o)) (Some (ero_side o))).

Definition impact_group (f : FinancialImpact) : FinancialImpactAccess :=
  FinancialImpactAccess_Populated (mkPopulatedFinancialImpact (Some (fi_pnl f)) (Some (fi_fee f))).

Definition fill_group (f : ExecutionReportFillDetails) : ExecutionReportFillAccess :=
  ExecutionReportFillAccess_Populated
    (mkPopulatedExecutionReportFill (erfd_last_trade f) (erfd_fee f) (Some (erfd_remaining_reserved_quantity f))
       (Some (erfd_lock f)) (Some (erfd_is_final f))).

Definition position_impact_group (p : ExecutionReportPositionImpact) : ExecutionReportPositionImpactAccess :=
  ExecutionReportPositionImpactAccess_Populated
    (mkPopulatedExecutionReportPositionImpact (erp_position_effect p) (erp_position_side p)).

Definition populated_report (r : CoreReport) : InteropExecutionReport :=
  let fill := werp_inner r in
  let impact := werfd_inner fill in
  mkInteropExecutionReport (report_operation_group (wfi_inner impact)) (impact_group (wfi_financial_impact impact))
    (fill_group (werfd_fill fill)) (position_impact_group (werp_position_impact r)).

Definition balance_group (b : AccountAdjustmentBalanceOperation) (realized : option PnlState) :
    AccountAdjustmentOperationAccess :=
  AccountAdjustmentOperationAccess_Populated
    (OpBalance (mkPopulatedBalanceOperation (Some (abo_asset b)) (abo_average_entry_price b) realized)).

Definition populated_balance (a : CoreBalanceAdjustment) : InteropAccountAdjustment :=
  let operation := wabn_inner a in
  mkInteropAccountAdjustment (balance_group (wabo_operation operation) None)
    (AccountAdjustmentAmountAccess_Populated (wabo_inner operation))
    (AccountAdjustmentBoundsAccess_Populated (wabn_bounds a)).

Definition populated_realized (a : CoreRealizedAdjustment) : InteropAccountAdjustment :=
  let realized := wabn_inner a in
  let operation := wabr_inner realized in
  mkInteropAccountAdjustment (balance_group (wabo_operation operation) (Some (wabr_realized_pnl realized)))
    (AccountAdjustmentAmountAccess_Populated (wabo_inner operation))
    (AccountAdjustmentBoundsAccess_Populated (wabn_bounds a)).

(** Nothing but the operation is read of one on the account's P&L. *)
Definition populated_account_pnl (amount : AccountAdjustmentAmountAccess) (bounds : AccountAdjustmentBoundsAccess)
    (a : AccountAdjustmentAccountPnlOperation) : InteropAccountAdjustment :=
  mkInteropAccountAdjustment
    (AccountAdjustmentOperationAccess_Populated (OpAccountPnl (mkPopulatedAccountPnlOperation (aap_state a))))
    amount bounds.

(** ** They are the same requests *)

#[export] Instance populated_order_same : SameOrder populated_order.
Proof. by split. Qed.
#[export] Instance populated_report_same : SameReport populated_report.
Proof. by split. Qed.
#[export] Instance populated_balance_same : SameAdjustment populated_balance.
Proof. by split. Qed.
#[export] Instance populated_realized_same : SameAdjustment populated_realized.
Proof. by split. Qed.
#[export] Instance populated_account_pnl_same amount bounds : SameAdjustment (populated_account_pnl amount bounds).
Proof. split; [done|]. intros a. by cbn. Qed.

(** A payload changes nothing. *)
Definition with_payload {T Request Payload} (f : T -> Request) (payload : T -> Payload) (x : T) :
    RequestWithPayload Request Payload := mkRequestWithPayload (f x) (payload x).

Section Payload.
Context {T Request Payload : Type} (f : T -> Request) (payload : T -> Payload).

#[export] Instance payload_order_same
    `{!HasAccountId T, !HasInstrument T, !HasSide T, !HasTradeAmount T, !HasOrderPrice T}
    `{!HasAccountId Request, !HasInstrument Request, !HasSide Request, !HasTradeAmount Request, !HasOrderPrice Request}
    `{!SameOrder f} : SameOrder (with_payload f payload).
Proof. split; intros; cbn; apply SameOrder0. Qed.

#[export] Instance payload_report_same
    `{!HasAccountId T, !HasInstrument T, !HasSide T, !HasPnl T, !HasFee T, !HasExecutionReportLastTrade T,
      !HasExecutionReportFillFee T, !HasRemainingReservedQuantity T, !HasExecutionReportIsFinal T, !HasPreTradeLock T}
    `{!HasAccountId Request, !HasInstrument Request, !HasSide Request, !HasPnl Request, !HasFee Request,
      !HasExecutionReportLastTrade Request, !HasExecutionReportFillFee Request, !HasRemainingReservedQuantity Request,
      !HasExecutionReportIsFinal Request, !HasPreTradeLock Request}
    `{!SameReport f} : SameReport (with_payload f payload).
Proof. split; intros; cbn; apply SameReport0. Qed.
End Payload.

#[export] Instance payload_adjustment_same {T Payload} `{!HasAdjustmentFields T} (f : T -> InteropAccountAdjustment)
    (payload : T -> Payload) `{!SameAdjustment f} : SameAdjustment (with_payload f payload).
Proof.
  split; intros a; [by rewrite (sa_pnl (f:=f) a)|]. intros Ha. by destruct (sa_slot (f:=f) a Ha) as [E1 E2 E3 E4 E5 E6 E7 E8 E9 E10 E11 E12]; split.
Qed.

(** ** The engine cannot tell them apart *)

Section Engine.
Context {F : DecimalFormat} {G : DecimalDebug} {W Payload : Type} {M : MarketDataSource W} {LW : LeaseWaits W}.

Abbreviation CorePolicies A policies := (policy_of CoreOrder CoreReport A <$> policies).
Abbreviation InteropPolicies policies :=
  (policy_of InteropOrder InteropExecutionReport InteropAccountAdjustment <$> policies).
Abbreviation PayloadPolicies policies :=
  (policy_of (RequestWithPayload InteropOrder Payload) (RequestWithPayload InteropExecutionReport Payload)
     (RequestWithPayload InteropAccountAdjustment Payload) <$> policies).

(** A policy that refuses an adjustment whatever happened makes the policies refuse. *)
Lemma adjust_policies_refuse {O R A} (p : PreTradePolicy W O R A) ps ctx account a acc s : p ∈ ps ->
  (forall ms s, exists rejects ms' s', pol_apply_account_adjustment p ctx account a ms s = (Err rejects, ms', s')) ->
  exists rejects acc' s', adjust_policies ctx account a ps acc s = (Err rejects, acc', s').
Proof.
  intros Hp Hr. revert acc s. induction ps as [|q ps IH]; intros acc s; [by apply not_elem_of_nil in Hp|]. cbn.
  destruct (pol_apply_account_adjustment q ctx account a (aa_mutations acc) s) as [[[result|rejects] ms] s'] eqn:E; [|by do 3 eexists].
  apply elem_of_cons in Hp as [->|Hp]; [|by apply IH].
  destruct (Hr (aa_mutations acc) s) as (rejects & ms' & s'' & Hr'). congruence.
Qed.

(** An adjustment of a position names no balance: the spot funds policy refuses it, and
    the batch with it. *)
Lemma position_adjustment_refused (policies : list (BuiltIn (W:=W))) funds self reads account operation amount bounds l st :
  BI_SpotFunds funds self reads ∈ policies ->
  let a := mkInteropAccountAdjustment (AccountAdjustmentOperationAccess_Populated (OpPosition operation)) amount bounds in
  exists e st', apply_account_adjustment (InteropPolicies policies) account (a :: l) st = (Err e, st') /\
    abe_failed_adjustment_index e = 0%nat.
Proof.
  intros Hin a. unfold apply_account_adjustment. destruct (mutations_new st) as [ms st0]. cbn [adjust_batch].
  edestruct (adjust_policies_refuse (policy_of InteropOrder InteropExecutionReport InteropAccountAdjustment
    (BI_SpotFunds funds self reads)) (InteropPolicies policies) (mkAdjustmentContext account) account a)
    as (rejects & acc & [cell st1] & ->).
  - by apply list_elem_of_fmap_2.
  - intros ms' [cell s]. do 3 eexists. reflexivity.
  - destruct (rollback_all _ _) as [rb st2]. by do 2 eexists.
Qed.

(** C30: An engine running any built-in policies answers a binding's request with every group populated, with a payload
    and without, as it answers the core request with those fields, and ends in the same state, at every entry point:
    orders started and then executed by their request, executed at once, started and executed dry, and copied; execution
    reports; the retirement of accounts; and batches of balance adjustments, with and without realized P&L, and of
    adjustments of the account's P&L, whose other groups are never looked at.  A binding's adjustment of a position has
    no core request the spot funds policy could read; [position_adjustment_refused] says what becomes of it. *)
Theorem interop_presents_core (policies : list (BuiltIn (W:=W))) (payload : CoreOrder -> Payload)
    (report_payload : CoreReport -> Payload) (balance_payload : CoreBalanceAdjustment -> Payload)
    (realized_payload : CoreRealizedAdjustment -> Payload) (pnl_payload : AccountAdjustmentAccountPnlOperation -> Payload)
    amount bounds :
  let balance := CorePolicies CoreBalanceAdjustment policies in
  let realized := CorePolicies CoreRealizedAdjustment policies in
  let account_pnl := CorePolicies AccountAdjustmentAccountPnlOperation policies in
  (answers_alike populated_order populated_report balance (InteropPolicies policies) /\
   adjusts_alike populated_balance balance (InteropPolicies policies) /\
   adjusts_alike populated_realized realized (InteropPolicies policies) /\
   adjusts_alike (populated_account_pnl amount bounds) account_pnl (InteropPolicies policies)) /\
  (answers_alike (with_payload populated_order payload) (with_payload populated_report report_payload) balance
     (PayloadPolicies policies) /\
   adjusts_alike (with_payload populated_balance balance_payload) balance (PayloadPolicies policies) /\
   adjusts_alike (with_payload populated_realized realized_payload) realized (PayloadPolicies policies) /\
   adjusts_alike (with_payload (populated_account_pnl amount bounds) pnl_payload) account_pnl (PayloadPolicies policies)).
Proof.
  intros balance realized account_pnl. split; split_and!.
  1: eapply engine_answers_alike with (fa := populated_balance); [done..|apply builtins_agree; apply _].
  4: eapply engine_answers_alike with (fa := with_payload populated_balance balance_payload);
       [done..|apply builtins_agree; apply _].
  1-3: eapply engine_adjusts_alike with (fo := populated_order) (fr := populated_report), builtins_agree; apply _.
  1-3: eapply engine_adjusts_alike with (fo := with_payload populated_order payload)
         (fr := with_payload populated_report report_payload), builtins_agree; apply _.
Qed.

(** ** An order without its operation *)

Section Refusals.
Context {O R A : Type} {HO : HasAccountId O} {HR : HasAccountId R}.
Implicit Types (ps : list (PreTradePolicy W O R A)) (s : HookState W).

Lemma verdict_in_rejects {T} (rs : list (result (Rejects PolicyPreTradeResult) T)) r :
  Err r ∈ rs -> into_vec r <> [] -> all_rejects rs <> [].
Proof.
  intros Hr Hv E. destruct (into_vec r) as [|reject l] eqn:Er; [done|].
  assert (Hin : reject ∈ all_rejects rs).
  { apply list_elem_of_bind. exists (Err r). split; [|done]. rewrite Er. by left. }
  rewrite E in Hin. by apply not_elem_of_nil in Hin.
Qed.

Lemma merged_some l : l <> [] -> exists rejects, merged l = Some rejects.
Proof. destruct l; [done|]. by eexists. Qed.

Lemma start_stage_refuses (hook : StartHook) p ps ctx o s :
  p ∈ ps -> (forall s, exists r s', hook p ctx o s = (Err r, s') /\ into_vec r <> []) ->
  exists rejects block s', run_pre_trade_start_stage hook ps ctx o s = (Some rejects, block, s').
Proof.
  intros Hp Hh. assert (Ha : exists r, Err r ∈ (ask_start hook ctx o ps s).1 /\ into_vec r <> []).
  { revert s. induction ps as [|q ps IH]; intros s; [by apply not_elem_of_nil in Hp|]. cbn.
    destruct (hook q ctx o s) as [r1 s1] eqn:E. apply elem_of_cons in Hp as [->|Hp].
    - destruct (Hh s) as (r & s' & Hr & Hv). rewrite Hr in E. injection E as <- <-.
      destruct (ask_start _ _ _ ps _) as [rs s2]. exists r. split; [by left|done].
    - destruct (IH Hp (match r1 with Err rejects => record_reject_block ctx (reject_account_block (into_vec rejects)) s1
                                    | Ok _ => s1 end)) as (r & Hr & Hv).
      destruct (ask_start _ _ _ ps _) as [rs s2]. exists r. split; [by right|done]. }
  rewrite run_start_spec. destruct (ask_start _ _ _ _ _) as [rs s'], Ha as (r & Hr & Hv).
  destruct (merged_some _ (verdict_in_rejects rs r Hr Hv)) as [rejects ->]. by do 3 eexists.
Qed.

Lemma main_stage_refuses (hook : MainHook) p ps ctx o s :
  p ∈ ps -> (forall ms s, exists r ms' s', hook p ctx o ms s = (Err r, ms', s') /\ into_vec r <> []) ->
  exists rejects, mr_rejects (run_pre_trade_main_stage hook ps ctx o s).1 = Some rejects.
Proof.
  intros Hp Hh. assert (Ha : forall ms s, exists r, Err r ∈ (ask_main hook ctx o ps ms s).1.1.*2 /\ into_vec r <> []).
  { induction ps as [|q ps IH]; intros ms s'; [by apply not_elem_of_nil in Hp|]. rewrite ask_main_cons.
    destruct (hook q ctx o ms s') as [[r1 ms1] s1] eqn:E. apply elem_of_cons in Hp as [->|Hp].
    - destruct (Hh ms s') as (r & ms' & s2 & Hr & Hv). rewrite Hr in E. injection E as <- <- <-.
      destruct (ask_main _ _ _ ps _ _) as [[rs ms2] s3]. exists r. split; [by left|done].
    - destruct (IH Hp ms1 (after_verdict ctx r1 s1)) as (r & Hr & Hv).
      destruct (ask_main _ _ _ ps _ _) as [[rs ms2] s3]. exists r. split; [by right|done]. }
  rewrite run_main_spec. destruct (mutations_new s.2) as [ms0 st]. destruct (Ha ms0 (s.1, st)) as (r & Hr & Hv).
  destruct (ask_main _ _ _ _ _ _) as [[rs ms] s']. cbn. by apply merged_some, (verdict_in_rejects _ r).
Qed.

(** What refuses in every context where the account cannot be read makes the engine
    refuse. *)
Lemma refusing_policy_refuses p ps now o st :
  p ∈ ps ->
  (forall ctx s, ptc_account ctx = account_id o 0 -> is_drop_copy ctx = false ->
     exists r s', check_pre_trade_start p ctx o s = (Err r, s') /\ into_vec r <> []) \/
  (forall ctx ms s, ptc_account ctx = account_id o 0 -> is_drop_copy ctx = false ->
     exists r ms' s', perform_pre_trade_check p ctx o ms s = (Err r, ms', s') /\ into_vec r <> []) ->
  exists rejects st', execute_pre_trade ps now o st = (Err rejects, st').
Proof.
  intros Hp Hrefuse. unfold execute_pre_trade, start_pre_trade. destruct (check _ _ _ _) as [rejects|]; [by do 2 eexists|].
  unfold with_accounts_ctx, with_start_pre_trade_now. cbn.
  destruct Hrefuse as [Hs|Hm].
  - match goal with |- context [run_pre_trade_start_stage _ _ ?ctx _ ?s] =>
      destruct (start_stage_refuses check_pre_trade_start p ps ctx o s Hp) as (rejects & block & [cells st'] & ->);
        [intros s'; by apply Hs|] end.
    by do 2 eexists.
  - destruct (run_pre_trade_start_stage _ _ _ _ _) as [[[rejects|] block] [cells st1]]; [by do 2 eexists|].
    unfold execute_pre_trade_request. cbn. destruct (check _ _ _ _) as [rejects|]; [by do 2 eexists|].
    match goal with |- context [run_pre_trade_main_stage _ _ ?ctx _ ?s] =>
      destruct (main_stage_refuses perform_pre_trade_check p ps ctx o s Hp) as [rejects E];
        [intros ms s'; by apply Hm|] end.
    destruct (run_pre_trade_main_stage _ _ _ _ _) as [r [cells' st2]]. cbn in E. rewrite E.
    destruct (rollback_all _ _) as [rb st3]. by do 2 eexists.
Qed.
End Refusals.

(** The fields of the operation a built-in policy reads of every order, whatever its
    settings, and those a request leaves out. *)
Inductive OperationField : Set := OF_Instrument | OF_AccountId | OF_Side | OF_TradeAmount.

Definition always_reads (b : BuiltIn (W:=W)) : list OperationField :=
  match b with
  | BI_OrderValidation _ => [OF_TradeAmount]
  | BI_PnlBoundsKillSwitch _ _ _ => [OF_Instrument; OF_AccountId]
  | BI_SpotFunds _ _ _ => [OF_Instrument; OF_AccountId; OF_Side; OF_TradeAmount]
  | BI_RateLimit _ _ _ | BI_OrderSizeLimit _ _ => []
  end.

Definition left_out (order : InteropOrder) (field : OperationField) : bool :=
  match io_operation order with
  | OrderOperationAccess_Absent => true
  | OrderOperationAccess_Populated group =>
      negb match field with
           | OF_Instrument => is_some (poop_instrument group)
           | OF_AccountId => is_some (poop_account_id group)
           | OF_Side => is_some (poop_side group)
           | OF_TradeAmount => is_some (poop_trade_amount group)
           end
  end.

Lemma left_out_spec order field : left_out order field = true ->
  exists e, match field with
            | OF_Instrument => instrument order = Err e
            | OF_AccountId => account_id order 0 = Err e
            | OF_Side => side order = Err e
            | OF_TradeAmount => trade_amount order = Err e
            end.
Proof.
  unfold left_out. destruct order as [[[i a si t p]|] position margin]; [|destruct field; by eexists].
  destruct field; cbn; [destruct i|destruct a|destruct si|destruct t]; intros Hf; try done; by eexists.
Qed.

Lemma unreadable_view ctx order field : left_out order field = true -> ptc_account ctx = account_id order 0 ->
  exists r, read_order_request ctx order = Err r /\ into_vec r <> [].
Proof.
  intros Hl Hc. destruct (left_out_spec order field Hl) as [e He]. unfold read_order_request. rewrite Hc.
  destruct (instrument order); cbn; [|by eexists]. destruct (account_id order 0); cbn; [|by eexists].
  destruct (side order); cbn; [|by eexists]. destruct (trade_amount order); cbn; [|by eexists]. by destruct field.
Qed.

(** An order that leaves out a field some policy always reads is never accepted. *)
Theorem incomplete_operation_refused (R A : Type) `{!HasAccountId R, !HasInstrument R, !HasSide R, !HasPnl R, !HasFee R,
    !HasExecutionReportLastTrade R, !HasExecutionReportFillFee R, !HasRemainingReservedQuantity R,
    !HasExecutionReportIsFinal R, !HasPreTradeLock R} `{!HasAdjustmentFields A}
    (policies : list (BuiltIn (W:=W))) b field (order : InteropOrder) now st :
  b ∈ policies -> field ∈ always_reads b -> left_out order field = true ->
  exists rejects st', execute_pre_trade (policy_of InteropOrder R A <$> policies) now order st = (Err rejects, st').
Proof.
  intros Hb Hf Hl. apply (refusing_policy_refuses (policy_of InteropOrder R A b)); [by apply list_elem_of_fmap_2|].
  destruct (left_out_spec order field Hl) as [e He]. destruct b; cbn in Hf; try by apply not_elem_of_nil in Hf.
  - left. intros ctx s Hc Hd. apply list_elem_of_singleton in Hf as ->. do 2 eexists. split; [cbn|].
    + unfold order_validation_check_pre_trade_start, order_validation_check. by rewrite Hd, He.
    + done.
  - left. intros ctx s Hc Hd.
    assert (Hv : exists r, pnl_check_observed (own_get (es_world s.2)) (own_get (es_world s.2)) ctx order = Err r /\ into_vec r <> []).
    { unfold pnl_check_observed, drop_copy_account_id. rewrite Hd, Hc. destruct (instrument order) eqn:Ei; cbn; [|by eexists].
      apply elem_of_cons in Hf as [->|Hf]; [done|]. apply list_elem_of_singleton in Hf as ->. rewrite He. by eexists. }
    destruct Hv as (r & Hr & Hv). exists r, s. split; [|done]. cbn. unfold pnl_check_pre_trade_start. by rewrite Hr.
  - right. intros ctx ms s Hc Hd. destruct (unreadable_view ctx order field Hl Hc) as (r & Hr & Hv).
    exists r, ms, s. split; [|done]. cbn. unfold perform_pre_trade_check_impl. by rewrite Hr.
Qed.
End Engine.
End Interop.
