(* ===== verification/FfiWire.v ===== *)
(** * FfiWire: what is exported can be imported

    The conversions of the C boundary come in pairs.  [Wire ok exp imp] states that
    [imp] reads back everything [exp] writes of an acceptable value, and accepts only
    acceptable values; pairs compose as the structures nest. *)
From S2P Require Import Prelude.
From S2P Require Import Decimal.
From S2P Require Import Param.
From S2P Require Import ParamTypes.
From S2P Require Import Identifiers.
From S2P Require Import Utf8.
From S2P Require Import Lock.
From S2P Require Import Policy.
From S2P Require Import Ffi.
From S2P Require Import FfiParam.
From S2P Require Import FfiOutcomes.
Open Scope Z_scope.

#[global] Arguments view_of_asset : simpl never.
#[global] Arguments wrap : simpl never.
#[global] Arguments to_param : simpl never.
#[global] Arguments parse_asset_view : simpl never.

Class Accepts {E A T : Type} (ok : A -> Prop) (imp : T -> result E A) : Prop :=
  wire_sound : forall t a, imp t = Ok a -> ok a.

Class Wire {E A T : Type} (ok : A -> Prop) (exp : A -> T) (imp : T -> result E A) : Prop := {
  wire_back : forall a, ok a -> imp (exp a) = Ok a;
  wire_accepts : Accepts ok imp
}.

#[export] Existing Instance wire_accepts | 10.

Definition any {A} : A -> Prop := fun _ => True.
Definition opt_ok {A} (ok : A -> Prop) (o : option A) : Prop := from_option ok True o.

(** Reads back the import at the head of a chain. *)
Ltac wire_read_at imp exp a :=
  rewrite (wire_back (exp := exp) (imp := imp) a) by first [done | assumption]; cbn beta iota delta [mbind result_bind].
Ltac wire_read :=
  match goal with
  | |- (parse_asset_view (?exp ?a) ?field ≫= _) = _ => wire_read_at (fun v => parse_asset_view v field) exp a
  | |- ((parse_asset_view (?exp ?a) ?field ≫= _) ≫= _) = _ => wire_read_at (fun v => parse_asset_view v field) exp a
  | |- (?imp (?exp ?a) ≫= _) = _ => wire_read_at imp exp a
  | |- ((?imp (?exp ?a) ≫= _) ≫= _) = _ => wire_read_at imp exp a
  end.

(** Splits a chain of imports that succeeded into what its links accept. *)
Ltac wire_split H :=
  repeat (let Hw := fresh "Hw" in
          apply result_bind_Ok in H as (? & Hw & H); try (apply wire_sound in Hw; lazymatch type of Hw with ?P => assert_fails (has_evar P) end)).

#[export] Instance accepts_optional {A T} (ok : A -> Prop) (imp : T -> result string A) :
  Accepts ok imp -> Accepts (opt_ok ok) (import_optional imp).
Proof.
  unfold import_optional. intros W [v []] a; cbn; [|by intros [= <-]].
  destruct (imp v) eqn:E; cbn; intros [= <-]. by apply W in E.
Qed.

#[export] Instance wire_optional {A T} (ok : A -> Prop) default (exp : A -> T) (imp : T -> result string A) :
  Wire ok exp imp -> Wire (opt_ok ok) (optional default exp) (import_optional imp).
Proof.
  intros W. split.
  - intros [a|] Ha; cbn; [|done]. unfold import_optional. cbn. by rewrite (wire_back a Ha).
  - apply _.
Qed.

Lemma import_set {A T} (imp : T -> result string A) v a : imp v = Ok a -> import_optional imp (mkOptional v true) = Ok (Some a).
Proof. unfold import_optional. cbn. by intros ->. Qed.

(** ** Codes *)

Ltac wire_code :=
  split; [by intros [[]|] _ | by intros].

#[export] Instance wire_side : Wire any (from_option export_side OPENPIT_PARAM_SIDE_NOT_SET) import_side.
Proof. wire_code. Qed.
#[export] Instance wire_position_side :
  Wire any (from_option export_position_side OPENPIT_PARAM_POSITION_SIDE_NOT_SET) import_position_side.
Proof. wire_code. Qed.
#[export] Instance wire_position_effect :
  Wire any (from_option export_position_effect OPENPIT_PARAM_POSITION_EFFECT_NOT_SET) import_position_effect.
Proof. wire_code. Qed.
#[export] Instance wire_position_mode :
  Wire any (from_option export_position_mode OPENPIT_PARAM_POSITION_MODE_NOT_SET) import_position_mode.
Proof. wire_code. Qed.
#[export] Instance wire_rounding : Wire any export_rounding_strategy import_rounding_strategy.
Proof. split; [by intros [] _ | by intros]. Qed.
#[export] Instance wire_halt_reason : Wire any export_pnl_halt_reason import_pnl_halt_reason.
Proof. split; [by intros [] _ | by intros]. Qed.

Lemma leverage_back o : opt_ok leverage_wf o -> import_leverage (export_leverage o) = o.
Proof.
  destruct o as [[raw]|]; [|done]. cbn. unfold leverage_wf, import_leverage, leverage_from_raw. cbn. intros [H1 H2].
  rewrite (proj2 (Z.eqb_neq _ _)), (proj2 (Z.leb_le _ _) H1), (proj2 (Z.leb_le _ _) H2); [done|].
  unfold LEVERAGE_MIN_RAW, LEVERAGE_MIN, LEVERAGE_SCALE, OPENPIT_PARAM_LEVERAGE_NOT_SET in *. lia.
Qed.

Lemma leverage_sound v : opt_ok leverage_wf (import_leverage v).
Proof.
  unfold import_leverage. case_match; [done|]. destruct (leverage_from_raw v) eqn:E; [|done]. by eapply leverage_from_raw_wf.
Qed.

(** ** Text *)

Definition text_ok (u : ustr) : Prop := Forall (fun c => is_scalar c = true) u.
Definition asset_ok (a : Asset) : Prop := text_ok (asset_str a) /\ trim_is_empty (asset_str a) = false.
Definition instrument_ok (i : Instrument) : Prop := asset_ok (underlying_asset i) /\ asset_ok (settlement_asset i).

Lemma read_view (u : ustr) : text_ok u ->
  from_utf8 (from_raw_parts (str_bytes u) (Z.of_nat (length (str_bytes u)))) = Ok u.
Proof. intros Hu. unfold from_raw_parts. rewrite Nat2Z.id, firstn_all. by apply from_utf8_encoded. Qed.

Lemma from_utf8_text bytes u : from_utf8 bytes = Ok u -> text_ok u.
Proof. intros H. by apply from_utf8_spec in H as [_ ?]. Qed.

Lemma asset_new_ok u a : text_ok u -> asset_new u = Ok a -> asset_ok a.
Proof. unfold asset_new. intros Hu. destruct (trim_is_empty u) eqn:E; [done|]. by intros [= <-]. Qed.

Lemma asset_new_back a : asset_ok a -> asset_new (asset_str a) = Ok a.
Proof. destruct a as [u]. intros [_ H]. unfold asset_new. cbn in *. by rewrite H. Qed.

Lemma parse_asset_back a field : asset_ok a -> parse_asset_view (view_of_asset a) field = Ok (Some a).
Proof.
  intros Ha. pose proof (proj1 Ha) as Ht. unfold parse_asset_view, parse_string_view_of, view_of_asset. cbn. rewrite read_view by done. cbn.
  by rewrite asset_new_back.
Qed.

Lemma parse_asset_sound v field o : parse_asset_view v field = Ok o -> opt_ok asset_ok o.
Proof.
  unfold parse_asset_view, parse_string_view_of. intros H. apply result_bind_Ok in H as (u & Hu & H).
  destruct (sv_ptr v) as [bytes|].
  - apply result_bind_Ok in Hu as (text & Ht & [= <-]). apply map_err_Ok, from_utf8_text in Ht.
    apply map_err_Ok, result_fmap_Ok in H as (a & Ha & ->). by eapply asset_new_ok.
  - destruct (sv_len v =? 0); [|done]. injection Hu as <-. by injection H as <-.
Qed.

(** Where the name of a field goes between the two. *)
#[export] Instance wire_asset field : Wire (opt_ok asset_ok) (from_option view_of_asset view_not_set) (fun v => parse_asset_view v field).
Proof. split; [intros [a|] Ha; [by apply parse_asset_back|done] | intros t a; apply parse_asset_sound]. Qed.

#[export] Instance accepts_asset v : Accepts (opt_ok asset_ok) (parse_asset_view v).
Proof. intros field a. apply parse_asset_sound. Qed.

#[export] Instance wire_instrument :
  Wire (opt_ok instrument_ok)
    (from_option (fun i => mkOpenPitInstrument (view_of_asset (underlying_asset i)) (view_of_asset (settlement_asset i)))
       OpenPitInstrument_default) import_instrument.
Proof.
  split.
  - intros [[u s]|]; [|done]. intros [Hu Hs]. unfold import_instrument.
    cbn [from_option oi_underlying_asset oi_settlement_asset underlying_asset settlement_asset] in *.
    by rewrite (parse_asset_back u), (parse_asset_back s).
  - unfold import_instrument. intros v o H. wire_split H.
    destruct x as [u|], x0 as [s|]; try discriminate H; injection H as <-; done.
Qed.

(** ** Values *)

(** What the wrapper of a type relies on. *)
Class ParamDomainLaws {D : DecimalOps} (T : Type) (P : ParamDomain T) : Prop :=
  pd_new_to_decimal : forall d x, pd_new d = Ok x -> pd_to_decimal x = d.

#[export] Instance signed_laws {D : DecimalOps} k : ParamDomainLaws (Signed k) (signed_domain k).
Proof. by intros d x [= <-]. Qed.
#[export] Instance nonneg_laws {D : DecimalOps} k : ParamDomainLaws (NonNeg k) (nonneg_domain k).
Proof. intros d x H. cbn in H. unfold nn_new, ensure_non_negative in H. inv_ok H. case_match; [done|]. by simplify_eq. Qed.

Lemma as_i64_range z : - 2 ^ 63 <= as_i64 z < 2 ^ 63.
Proof. unfold as_i64. pose proof (Z.mod_pos_bound (z + 2 ^ 63) (2 ^ 64)). lia. Qed.

Lemma as_i64_mod z : as_i64 z mod 2 ^ 64 = z mod 2 ^ 64.
Proof. unfold as_i64. rewrite Zminus_mod_idemp_l. f_equal. lia. Qed.

Lemma as_i64_small z : - 2 ^ 63 <= z < 2 ^ 63 -> as_i64 z = z.
Proof. intros H. unfold as_i64. rewrite Z.mod_small; lia. Qed.

(** The two halves of a 128-bit coefficient. *)
Lemma mantissa_halves m : - 2 ^ 127 <= m < 2 ^ 127 ->
  Z.lor (Z.shiftl (as_i64 (Z.shiftr m 64)) 64) (as_i64 m mod 2 ^ 64) = m.
Proof.
  intros H. rewrite as_i64_small, as_i64_mod by (rewrite Z.shiftr_div_pow2 by lia;
    split; [apply Z.div_le_lower_bound|apply Z.div_lt_upper_bound]; lia).
  rewrite <- Z.ldiff_ones_r, <- Z.land_ones by lia. apply Z.bits_inj'. intros n _.
  rewrite Z.lor_spec, Z.ldiff_spec, Z.land_spec. by destruct (Z.testbit m n), (Z.testbit (Z.ones 64) n).
Qed.

Section Values.
Context {D : DecimalOps} {DW : DecimalWire} {WL : DecimalWireLaws D DW}.

(** A decimal that is not a negative zero: its coefficient and scale tell it. *)
Definition plain (d : Dec) : Prop := dec_from_i128_with_scale (dec_mantissa d) (dec_scale d) = Ok d.

Definition param_ok {T} {P : ParamDomain T} (x : T) : Prop := plain (pd_to_decimal x) /\ pd_new (pd_to_decimal x) = Ok x.

Lemma to_mantissa_from d : to_mantissa (from_decimal d) = dec_mantissa d.
Proof. unfold to_mantissa, from_decimal. cbn [mantissa_hi mantissa_lo]. apply mantissa_halves. pose proof (dw_mantissa d). unfold DEC_COEFF in *. lia. Qed.

Lemma scale_u32_from d : scale_u32 (wire_scale (from_decimal d)) = Ok (dec_scale d).
Proof. unfold scale_u32, from_decimal. cbn [wire_scale]. pose proof (dw_scale d). by rewrite (proj2 (Z.leb_le 0 _)) by lia. Qed.

Lemma import_decimal_from d : plain d -> import_decimal (from_decimal d) = Ok d.
Proof. intros H. unfold import_decimal. rewrite scale_u32_from. cbn [map_err mbind result_bind]. by rewrite to_mantissa_from, H. Qed.

Lemma from_parts_plain m s d : dec_from_i128_with_scale m s = Ok d -> plain d.
Proof.
  intros H. unfold plain. destruct (decide (Z.abs m < DEC_COEFF /\ 0 <= s <= 28)) as [[Hm Hs]|Hn].
  - destruct (dw_from m s Hm Hs) as (d' & E & <- & <-). rewrite E in H. by injection H as ->.
  - destruct (dw_refuse m s Hn) as [e E]. congruence.
Qed.

#[export] Instance wire_param {T} {P : ParamDomain T} {L : ParamDomainLaws T P} : Wire param_ok wrap to_param.
Proof.
  split.
  - intros x [Hp Hx]. unfold to_param, wrap. cbn [param_decimal]. rewrite scale_u32_from. cbn [map_err mbind result_bind].
    by rewrite to_mantissa_from, Hp; cbn; rewrite Hx.
  - unfold to_param, into_param_result. intros t x H. inv_ok H. split.
    + rewrite (pd_new_to_decimal _ _ H). by eapply from_parts_plain.
    + by rewrite (pd_new_to_decimal _ _ H).
Qed.

Lemma wire_param_bind {T B} {P : ParamDomain T} {L : ParamDomainLaws T P} (x : T) (k : T -> result string B) :
  param_ok x -> (to_param (wrap x) ≫= k) = k x.
Proof. intros Hx. by rewrite (wire_back x Hx). Qed.

(** ** Amounts *)

Definition monetary_ok (m : MonetaryAmount) : Prop := param_ok (ma_amount m) /\ asset_ok (ma_currency m).

#[export] Instance wire_monetary : Wire monetary_ok export_monetary_amount import_monetary_amount.
Proof.
  split.
  - intros [amount currency] [Ha Hc]. cbn in *. unfold import_monetary_amount. cbn [pma_currency pma_amount export_monetary_amount].
    rewrite parse_asset_back by done. cbn [mbind result_bind ok_or]. by rewrite (wire_param_bind amount).
  - unfold import_monetary_amount. intros t m H. wire_split H. apply ok_or_Ok in Hw0 as ->.
    injection H as <-. done.
Qed.

Definition trade_amount_ok (a : TradeAmount) : Prop :=
  match a with TA_Quantity q => param_ok q | TA_Volume v => param_ok v end.

#[export] Instance wire_trade_amount : Wire (opt_ok trade_amount_ok) export_trade_amount import_trade_amount.
Proof.
  split.
  - intros [[q|v]|] Ha; [..|done]; unfold import_trade_amount; cbn in *.
    + change (mkParam (from_decimal (nn_to_decimal q))) with (wrap q). by rewrite wire_param_bind.
    + change (mkParam (from_decimal (nn_to_decimal v))) with (wrap v). by rewrite wire_param_bind.
  - unfold import_trade_amount. intros t o H. repeat case_match; [by injection H as <-|..|done];
      apply result_bind_Ok in H as (x & Hx & [= <-]); by apply wire_sound in Hx.
Qed.

Definition outcome_ok (a : OutcomeAmount) : Prop := param_ok (oa_delta a) /\ param_ok (oa_absolute a).

#[export] Instance wire_outcome : Wire outcome_ok export_outcome_amount import_outcome_amount.
Proof.
  split.
  - intros [delta absolute] [Hd Ha]. unfold import_outcome_amount. cbn in *. by rewrite !wire_param_bind.
  - unfold import_outcome_amount. intros t a H. wire_split H. by injection H as <-.
Qed.

Definition pnl_amount_ok (a : PnlOutcomeAmount) : Prop := param_ok (poa_delta a) /\ param_ok (poa_absolute a).

#[export] Instance wire_pnl_amount : Wire pnl_amount_ok export_pnl_outcome_amount import_pnl_outcome_amount.
Proof.
  split.
  - intros [delta absolute] [Hd Ha]. unfold import_pnl_outcome_amount. cbn in *. by rewrite !wire_param_bind.
  - unfold import_pnl_outcome_amount. intros t a H. wire_split H. by injection H as <-.
Qed.

(** A halt carries no amount. *)
Definition pnl_outcome_ok (o : PnlOutcome) : Prop := match o with Ok a => pnl_amount_ok a | Err _ => True end.

#[export] Instance wire_pnl_outcome : Wire pnl_outcome_ok export_pnl_outcome import_pnl_outcome.
Proof.
  split.
  - intros [amount|reason] Ha; unfold import_pnl_outcome; cbn in *.
    + by rewrite (wire_back amount Ha).
    + by destruct reason.
  - unfold import_pnl_outcome. intros t o H. repeat case_match; try discriminate H;
      apply result_bind_Ok in H as (x & Hx & [= <-]); by apply wire_sound in Hx.
Qed.

Definition pnl_state_ok (s : PnlState) : Prop := match s with PnlValue v => param_ok v | PnlHalted _ => True end.

#[export] Instance wire_pnl_state : Wire pnl_state_ok export_pnl_state import_pnl_state.
Proof.
  split.
  - intros [value|reason] Ha; unfold import_pnl_state; cbn in *.
    + by rewrite wire_param_bind.
    + by destruct reason.
  - unfold import_pnl_state. intros t o H. repeat case_match; try discriminate H;
      apply result_bind_Ok in H as (x & Hx & [= <-]); by apply wire_sound in Hx.
Qed.

(** ** Outcomes *)

Definition entry_ok (e : AccountOutcomeEntry) : Prop :=
  asset_ok (aoe_asset e) /\ opt_ok outcome_ok (aoe_balance e) /\ opt_ok outcome_ok (aoe_held e) /\
  opt_ok outcome_ok (aoe_incoming e) /\ opt_ok pnl_outcome_ok (aoe_realized_pnl e) /\
  opt_ok param_ok (aoe_average_entry_price e).

#[export] Instance wire_entry : Wire entry_ok export_outcome_entry to_entry.
Proof.
  split.
  - intros [asset balance held incoming pnl average] (Hasset & Hb & Hh & Hi & Hp & Ha).
    cbn [aoe_asset aoe_balance aoe_held aoe_incoming aoe_realized_pnl aoe_average_entry_price] in *.
    unfold to_entry, view_of_asset. cbn [woe_asset view_of_bytes sv_ptr sv_len export_outcome_entry aoe_asset woe_balance woe_held woe_incoming woe_realized_pnl woe_average_entry_price
      aoe_balance aoe_held aoe_incoming aoe_realized_pnl aoe_average_entry_price].
    unfold view_of_asset. cbn [view_of_bytes sv_ptr sv_len].
    rewrite read_view by apply Hasset. cbn [map_err mbind result_bind]. rewrite asset_new_back by done. cbn [map_err mbind result_bind].
    by repeat wire_read.
  - unfold to_entry. intros t e H. wire_split H. injection H as <-. split_and!; try done.
    apply map_err_Ok in Hw0. destruct (sv_ptr (woe_asset t)).
    + apply map_err_Ok, from_utf8_text in Hw. by eapply asset_new_ok.
    + injection Hw as <-. by eapply asset_new_ok.
Qed.

Definition account_outcome_ok (o : AccountPnlOutcome) : Prop := pnl_outcome_ok (apo_result o).

#[export] Instance wire_account_outcome : Wire account_outcome_ok account_pnl_from_outcome to_outcome.
Proof.
  split.
  - intros [outcome [account] [group]] Ho. unfold to_outcome. cbn in *. by destruct (export_pnl_outcome outcome) as [reason amount] eqn:E;
      cbn; rewrite <- E, (wire_back outcome Ho).
  - unfold to_outcome. intros t o H. wire_split H. by injection H as <-.
Qed.
End Values.
