(* ===== verification/FfiRequests.v ===== *)
(** * FfiRequests: orders, reports and adjustments on the wire

    src/crates/openpit-ffi/src: order.rs, execution_report.rs and
    account_adjustment.rs.  Each group of fields crosses as a structure with a flag;
    an import decodes the fields in the order of the source and stops at the first
    that is not valid.  The conversions are [Wire] pairs, field by field and group by
    group, up to the three requests. *)
From S2P Require Import Prelude.
From S2P Require Import Decimal.
From S2P Require Import Param.
From S2P Require Import ParamTypes.
From S2P Require Import Identifiers.
From S2P Require Import Lock.
From S2P Require Import Policy.
From S2P Require Import Ffi.
From S2P Require Import FfiParam.
From S2P Require Import FfiOutcomes.
From S2P Require Import SpotFundsParts.
From S2P Require Import SpotFundsExecution.
From S2P Require Import SpotFundsAdjustment.
From S2P Require Import Requests.
From S2P Require Import Interop.
From S2P Require Import FfiWire.
Open Scope Z_scope.

Definition OPENPIT_PARAM_ADJUSTMENT_AMOUNT_KIND_NOT_SET : Z := 0.
Definition OPENPIT_PARAM_ADJUSTMENT_AMOUNT_KIND_DELTA : Z := 1.
Definition OPENPIT_PARAM_ADJUSTMENT_AMOUNT_KIND_ABSOLUTE : Z := 2.

Definition OPENPIT_ACCOUNT_ADJUSTMENT_OPERATION_KIND_ABSENT : Z := 0.
Definition OPENPIT_ACCOUNT_ADJUSTMENT_OPERATION_KIND_BALANCE : Z := 1.
Definition OPENPIT_ACCOUNT_ADJUSTMENT_OPERATION_KIND_POSITION : Z := 2.
Definition OPENPIT_ACCOUNT_ADJUSTMENT_OPERATION_KIND_ACCOUNT_PNL : Z := 3.

Section Requests.
Context {D : DecimalOps} {DW : DecimalWire} {DF : DecimalFormat}.

(** What several of the structures share: an account, a price, a side, an
    instrument, a flag that counts as false when it is not set. *)
Definition import_account_id (value : Optional Z) : result string (option AccountId) :=
  import_optional (fun id => Ok (account_from_u64 id)) value.
Definition export_account_id (value : option AccountId) : Optional Z := optional 0 account_as_u64 value.
Definition import_price (value : Optional OpenPitParamPrice) : result string (option Price) := import_optional to_param value.
Definition export_instrument (value : option Instrument) : OpenPitInstrument :=
  match value with
  | Some i => mkOpenPitInstrument (view_of_asset (underlying_asset i)) (view_of_asset (settlement_asset i))
  | None => OpenPitInstrument_default
  end.
Definition export_asset (value : option Asset) : OpenPitStringView := from_option view_of_asset view_not_set value.
Definition import_flag (value : Z) : result string bool := default false <$> import_bool value.

(** ** Orders *)

Record OpenPitOrderOperation : Type := mkWireOrderOperation {
  woo_trade_amount : OpenPitParamTradeAmount;
  woo_instrument : OpenPitInstrument;
  woo_price : Optional OpenPitParamPrice;
  woo_account_id : Optional Z;
  woo_side : Z
}.
Record OpenPitOrderPosition : Type := mkWireOrderPosition {
  wop_position_side : Z;
  wop_reduce_only : Z;
  wop_close_position : Z
}.
Record OpenPitOrderMargin : Type := mkWireOrderMargin {
  wom_collateral_asset : OpenPitStringView;
  wom_auto_borrow : Z;
  wom_leverage : Z
}.

(** [Payload] is the caller's opaque token. *)
Record OpenPitOrder (Payload : Type) : Type := mkWireOrder {
  wo_operation : Optional OpenPitOrderOperation;
  wo_margin : Optional OpenPitOrderMargin;
  wo_position : Optional OpenPitOrderPosition;
  wo_user_data : Payload
}.
#[global] Arguments mkWireOrder {Payload}.
#[global] Arguments wo_operation {Payload}.
#[global] Arguments wo_margin {Payload}.
#[global] Arguments wo_position {Payload}.
#[global] Arguments wo_user_data {Payload}.

Definition order_operation_default : OpenPitOrderOperation :=
  mkWireOrderOperation OpenPitParamTradeAmount_default OpenPitInstrument_default
    (mkOptional OpenPitParam_default false) (mkOptional 0 false) OPENPIT_PARAM_SIDE_NOT_SET.
Definition order_position_default : OpenPitOrderPosition :=
  mkWireOrderPosition OPENPIT_PARAM_POSITION_SIDE_NOT_SET OPENPIT_TRI_BOOL_NOT_SET OPENPIT_TRI_BOOL_NOT_SET.
Definition order_margin_default : OpenPitOrderMargin :=
  mkWireOrderMargin view_not_set OPENPIT_TRI_BOOL_NOT_SET OPENPIT_PARAM_LEVERAGE_NOT_SET.

Definition order_import_operation (value : Optional OpenPitOrderOperation) : result string (option PopulatedOrderOperation) :=
  import_optional
    (fun v =>
       instrument ← import_instrument (woo_instrument v);
       account_id ← import_account_id (woo_account_id v);
       side ← import_side (woo_side v);
       trade_amount ← import_trade_amount (woo_trade_amount v);
       price ← import_price (woo_price v);
       Ok (mkPopulatedOrderOperation instrument account_id side trade_amount price)) value.

Definition import_position (value : Optional OpenPitOrderPosition) : result string OrderPositionAccess :=
  if negb (opt_is_set value) then Ok OrderPositionAccess_Absent
  else
    let v := opt_value value in
    position_side ← import_position_side (wop_position_side v);
    reduce_only ← import_flag (wop_reduce_only v);
    close_position ← import_flag (wop_close_position v);
    Ok (OrderPositionAccess_Populated (mkPopulatedOrderPosition position_side reduce_only close_position)).

Definition import_margin (value : Optional OpenPitOrderMargin) : result string OrderMarginAccess :=
  if negb (opt_is_set value) then Ok OrderMarginAccess_Absent
  else
    let v := opt_value value in
    collateral_asset ← parse_asset_view (wom_collateral_asset v) "margin.collateral_asset";
    auto_borrow ← import_flag (wom_auto_borrow v);
    Ok (OrderMarginAccess_Populated (mkPopulatedOrderMargin (import_leverage (wom_leverage v)) collateral_asset auto_borrow)).

Definition import_order {Payload} (value : OpenPitOrder Payload) : result string (RequestWithPayload InteropOrder Payload) :=
  operation ← order_import_operation (wo_operation value);
  position ← import_position (wo_position value);
  margin ← import_margin (wo_margin value);
  Ok (mkRequestWithPayload
        (mkInteropOrder (from_option OrderOperationAccess_Populated OrderOperationAccess_Absent operation) position margin)
        (wo_user_data value)).

Definition export_order {Payload} (value : RequestWithPayload InteropOrder Payload) : OpenPitOrder Payload := {|
  wo_operation :=
    match io_operation (rwp_request value) with
    | OrderOperationAccess_Populated v =>
        mkOptional
          {| woo_trade_amount := export_trade_amount (poop_trade_amount v);
             woo_instrument := export_instrument (poop_instrument v);
             woo_price := optional OpenPitParam_default wrap (poop_price v);
             woo_account_id := export_account_id (poop_account_id v);
             woo_side := from_option export_side OPENPIT_PARAM_SIDE_NOT_SET (poop_side v) |} true
    | OrderOperationAccess_Absent => mkOptional order_operation_default false
    end;
  wo_margin :=
    match io_margin (rwp_request value) with
    | OrderMarginAccess_Populated m =>
        mkOptional
          {| wom_collateral_asset := export_asset (pom_collateral_asset m);
             wom_auto_borrow := export_bool (pom_auto_borrow m);
             wom_leverage := export_leverage (pom_leverage m) |} true
    | OrderMarginAccess_Absent => mkOptional order_margin_default false
    end;
  wo_position :=
    match io_position (rwp_request value) with
    | OrderPositionAccess_Populated q =>
        mkOptional
          {| wop_position_side := from_option export_position_side OPENPIT_PARAM_POSITION_SIDE_NOT_SET (popo_position_side q);
             wop_reduce_only := export_bool (popo_reduce_only q);
             wop_close_position := export_bool (popo_close_position q) |} true
    | OrderPositionAccess_Absent => mkOptional order_position_default false
    end;
  wo_user_data := rwp_payload value
|}.

(** ** Execution reports *)

Record OpenPitExecutionReportOperation : Type := mkWireReportOperation {
  wro_instrument : OpenPitInstrument;
  wro_account_id : Optional Z;
  wro_side : Z
}.
Record OpenPitFinancialImpact : Type := mkWireFinancialImpact {
  wfi_pnl : Optional OpenPitParamPnl;
  wfi_fee : Optional OpenPitParamFee
}.
Record OpenPitExecutionReportTrade : Type := mkWireTrade {
  wrt_price : OpenPitParamPrice;
  wrt_quantity : OpenPitParamQuantity
}.
Record OpenPitExecutionReportFill : Type := mkWireFill {
  wrf_last_trade : Optional OpenPitExecutionReportTrade;
  wrf_fee : Optional OpenPitParamMonetaryAmount;
  wrf_remaining_reserved_quantity : Optional OpenPitParamQuantity;
  wrf_lock : option PreTradeLock;
  wrf_is_final : Optional bool
}.
Record OpenPitExecutionReportPositionImpact : Type := mkWirePositionImpact {
  wpi_position_effect : Z;
  wpi_position_side : Z
}.
Record OpenPitExecutionReport (Payload : Type) : Type := mkWireReport {
  wr_operation : Optional OpenPitExecutionReportOperation;
  wr_financial_impact : Optional OpenPitFinancialImpact;
  wr_fill : Optional OpenPitExecutionReportFill;
  wr_position_impact : Optional OpenPitExecutionReportPositionImpact;
  wr_user_data : Payload
}.
#[global] Arguments mkWireReport {Payload}.
#[global] Arguments wr_operation {Payload}.
#[global] Arguments wr_financial_impact {Payload}.
#[global] Arguments wr_fill {Payload}.
#[global] Arguments wr_position_impact {Payload}.
#[global] Arguments wr_user_data {Payload}.

Definition report_operation_default : OpenPitExecutionReportOperation :=
  mkWireReportOperation OpenPitInstrument_default (mkOptional 0 false) OPENPIT_PARAM_SIDE_NOT_SET.
Definition financial_impact_default : OpenPitFinancialImpact :=
  mkWireFinancialImpact (mkOptional OpenPitParam_default false) (mkOptional OpenPitParam_default false).
Definition trade_default : OpenPitExecutionReportTrade := mkWireTrade OpenPitParam_default OpenPitParam_default.
Definition monetary_amount_default : OpenPitParamMonetaryAmount := mkParamMonetaryAmount OpenPitParam_default view_not_set.
Definition fill_default : OpenPitExecutionReportFill :=
  mkWireFill (mkOptional trade_default false) (mkOptional monetary_amount_default false)
    (mkOptional OpenPitParam_default false) None (mkOptional false false).
Definition position_impact_default : OpenPitExecutionReportPositionImpact :=
  mkWirePositionImpact OPENPIT_PARAM_POSITION_EFFECT_NOT_SET OPENPIT_PARAM_POSITION_SIDE_NOT_SET.

Definition report_import_operation (value : Optional OpenPitExecutionReportOperation) :
    result string ExecutionReportOperationAccess :=
  if negb (opt_is_set value) then Ok ExecutionReportOperationAccess_Absent
  else
    let v := opt_value value in
    instrument ← import_instrument (wro_instrument v);
    account_id ← import_account_id (wro_account_id v);
    side ← import_side (wro_side v);
    Ok (ExecutionReportOperationAccess_Populated (mkPopulatedExecutionReportOperation instrument account_id side)).

Definition import_financial_impact (value : Optional OpenPitFinancialImpact) : result string FinancialImpactAccess :=
  if negb (opt_is_set value) then Ok FinancialImpactAccess_Absent
  else
    let v := opt_value value in
    pnl ← import_optional to_param (wfi_pnl v);
    fee ← import_optional to_param (wfi_fee v);
    Ok (FinancialImpactAccess_Populated (mkPopulatedFinancialImpact pnl fee)).

Definition import_last_trade (value : Optional OpenPitExecutionReportTrade) : result string (option Trade) :=
  import_optional
    (fun v => price ← to_param (wrt_price v); quantity ← to_param (wrt_quantity v); Ok (mkTrade price quantity)) value.

Definition import_fill (value : Optional OpenPitExecutionReportFill) : result string ExecutionReportFillAccess :=
  if negb (opt_is_set value) then Ok ExecutionReportFillAccess_Absent
  else
    let v := opt_value value in
    remaining_reserved_quantity ← import_optional to_param (wrf_remaining_reserved_quantity v);
    last_trade ← import_last_trade (wrf_last_trade v);
    fee ← import_optional import_monetary_amount (wrf_fee v);
    is_final ← import_optional Ok (wrf_is_final v);
    Ok (ExecutionReportFillAccess_Populated
          (mkPopulatedExecutionReportFill last_trade fee remaining_reserved_quantity (wrf_lock v) is_final)).

Definition import_position_impact (value : Optional OpenPitExecutionReportPositionImpact) :
    result string ExecutionReportPositionImpactAccess :=
  if negb (opt_is_set value) then Ok ExecutionReportPositionImpactAccess_Absent
  else
    let v := opt_value value in
    position_effect ← import_position_effect (wpi_position_effect v);
    position_side ← import_position_side (wpi_position_side v);
    Ok (ExecutionReportPositionImpactAccess_Populated
          (mkPopulatedExecutionReportPositionImpact position_effect position_side)).

Definition report_export_operation (value : ExecutionReportOperationAccess) : Optional OpenPitExecutionReportOperation :=
  match value with
  | ExecutionReportOperationAccess_Populated operation =>
      mkOptional
        {| wro_instrument := export_instrument (pero_instrument operation);
           wro_account_id := export_account_id (pero_account_id operation);
           wro_side := from_option export_side OPENPIT_PARAM_SIDE_NOT_SET (pero_side operation) |} true
  | ExecutionReportOperationAccess_Absent => mkOptional report_operation_default false
  end.

Definition export_financial_impact (value : FinancialImpactAccess) : Optional OpenPitFinancialImpact :=
  match value with
  | FinancialImpactAccess_Populated f =>
      mkOptional (mkWireFinancialImpact (optional OpenPitParam_default wrap (pfi_pnl f))
                    (optional OpenPitParam_default wrap (pfi_fee f))) true
  | FinancialImpactAccess_Absent => mkOptional financial_impact_default false
  end.

Definition export_last_trade (value : option Trade) : Optional OpenPitExecutionReportTrade :=
  optional trade_default (fun trade => mkWireTrade (wrap (trade_price trade)) (wrap (trade_quantity trade))) value.

Definition export_fill (value : ExecutionReportFillAccess) : Optional OpenPitExecutionReportFill :=
  match value with
  | ExecutionReportFillAccess_Populated fill =>
      mkOptional
        {| wrf_last_trade := export_last_trade (perf_last_trade fill);
           wrf_fee := optional monetary_amount_default export_monetary_amount (perf_fee fill);
           wrf_remaining_reserved_quantity := optional OpenPitParam_default wrap (perf_remaining_reserved_quantity fill);
           wrf_lock := perf_lock fill;
           wrf_is_final := optional false id (perf_is_final fill) |} true
  | ExecutionReportFillAccess_Absent => mkOptional fill_default false
  end.

Definition export_position_impact (value : ExecutionReportPositionImpactAccess) : Optional OpenPitExecutionReportPositionImpact :=
  match value with
  | ExecutionReportPositionImpactAccess_Populated i =>
      mkOptional
        (mkWirePositionImpact
           (from_option export_position_effect OPENPIT_PARAM_POSITION_EFFECT_NOT_SET (perpi_position_effect i))
           (from_option export_position_side OPENPIT_PARAM_POSITION_SIDE_NOT_SET (perpi_position_side i))) true
  | ExecutionReportPositionImpactAccess_Absent => mkOptional position_impact_default false
  end.

Definition import_execution_report {Payload} (value : OpenPitExecutionReport Payload) :
    result string (RequestWithPayload InteropExecutionReport Payload) :=
  operation ← report_import_operation (wr_operation value);
  financial_impact ← import_financial_impact (wr_financial_impact value);
  fill ← import_fill (wr_fill value);
  position_impact ← import_position_impact (wr_position_impact value);
  Ok (mkRequestWithPayload (mkInteropExecutionReport operation financial_impact fill position_impact) (wr_user_data value)).

Definition export_execution_report {Payload} (value : RequestWithPayload InteropExecutionReport Payload) :
    OpenPitExecutionReport Payload :=
  let request := rwp_request value in {|
  wr_operation := report_export_operation (ir_operation request);
  wr_financial_impact := export_financial_impact (ir_financial_impact request);
  wr_fill := export_fill (ir_fill request);
  wr_position_impact := export_position_impact (ir_position_impact request);
  wr_user_data := rwp_payload value
|}.

(** ** Account adjustments *)

Record OpenPitParamAdjustmentAmount : Type := mkWireAdjustmentAmount {
  wpa_value : OpenPitParamPositionSize;
  wpa_kind : Z
}.
Record OpenPitAccountAdjustmentBalanceOperation : Type := mkWireBalanceOperation {
  wbo_asset : OpenPitStringView;
  wbo_average_entry_price : Optional OpenPitParamPrice;
  wbo_realized_pnl : Optional OpenPitPnlState
}.
Record OpenPitAccountAdjustmentPositionOperation : Type := mkWirePositionOperation {
  wpp_instrument : OpenPitInstrument;
  wpp_collateral_asset : OpenPitStringView;
  wpp_average_entry_price : Optional OpenPitParamPrice;
  wpp_leverage : Z;
  wpp_mode : Z
}.
Record OpenPitAccountAdjustmentAccountPnlOperation : Type := mkWireAccountPnlOperation {
  wap_state : OpenPitPnlState
}.
Record OpenPitAccountAdjustmentOperation : Type := mkWireAdjustmentOperation {
  waa_kind : Z;
  waa_balance : OpenPitAccountAdjustmentBalanceOperation;
  waa_position : OpenPitAccountAdjustmentPositionOperation;
  waa_account_pnl : OpenPitAccountAdjustmentAccountPnlOperation
}.
Record OpenPitAccountAdjustmentAmount : Type := mkWireAmount {
  wam_balance : OpenPitParamAdjustmentAmount;
  wam_held : OpenPitParamAdjustmentAmount;
  wam_incoming : OpenPitParamAdjustmentAmount
}.
Record OpenPitAccountAdjustmentBounds : Type := mkWireBounds {
  wab_balance_upper : Optional OpenPitParamPositionSize;
  wab_balance_lower : Optional OpenPitParamPositionSize;
  wab_held_upper : Optional OpenPitParamPositionSize;
  wab_held_lower : Optional OpenPitParamPositionSize;
  wab_incoming_upper : Optional OpenPitParamPositionSize;
  wab_incoming_lower : Optional OpenPitParamPositionSize
}.
Record OpenPitAccountAdjustment (Payload : Type) : Type := mkWireAdjustment {
  wa_operation : OpenPitAccountAdjustmentOperation;
  wa_amount : Optional OpenPitAccountAdjustmentAmount;
  wa_bounds : Optional OpenPitAccountAdjustmentBounds;
  wa_user_data : Payload
}.
#[global] Arguments mkWireAdjustment {Payload}.
#[global] Arguments wa_operation {Payload}.
#[global] Arguments wa_amount {Payload}.
#[global] Arguments wa_bounds {Payload}.
#[global] Arguments wa_user_data {Payload}.

Definition adjustment_amount_default : OpenPitParamAdjustmentAmount :=
  mkWireAdjustmentAmount OpenPitParam_default OPENPIT_PARAM_ADJUSTMENT_AMOUNT_KIND_NOT_SET.
Definition balance_operation_default : OpenPitAccountAdjustmentBalanceOperation :=
  mkWireBalanceOperation view_not_set (mkOptional OpenPitParam_default false) (mkOptional pnl_state_default false).
Definition position_operation_default : OpenPitAccountAdjustmentPositionOperation :=
  mkWirePositionOperation OpenPitInstrument_default view_not_set (mkOptional OpenPitParam_default false)
    OPENPIT_PARAM_LEVERAGE_NOT_SET OPENPIT_PARAM_POSITION_MODE_NOT_SET.
Definition account_pnl_operation_default : OpenPitAccountAdjustmentAccountPnlOperation :=
  mkWireAccountPnlOperation pnl_state_default.
Definition adjustment_operation_default : OpenPitAccountAdjustmentOperation :=
  mkWireAdjustmentOperation OPENPIT_ACCOUNT_ADJUSTMENT_OPERATION_KIND_ABSENT balance_operation_default
    position_operation_default account_pnl_operation_default.
Definition wire_amount_default : OpenPitAccountAdjustmentAmount :=
  mkWireAmount adjustment_amount_default adjustment_amount_default adjustment_amount_default.
Definition wire_bounds_default : OpenPitAccountAdjustmentBounds :=
  let none := mkOptional OpenPitParam_default false in mkWireBounds none none none none none none.

Definition import_adjustment_amount (value : OpenPitParamAdjustmentAmount) : result string (option AdjustmentAmount) :=
  if wpa_kind value =? OPENPIT_PARAM_ADJUSTMENT_AMOUNT_KIND_NOT_SET then Ok None
  else if wpa_kind value =? OPENPIT_PARAM_ADJUSTMENT_AMOUNT_KIND_DELTA then v ← to_param (wpa_value value); Ok (Some (Delta v))
  else if wpa_kind value =? OPENPIT_PARAM_ADJUSTMENT_AMOUNT_KIND_ABSOLUTE then
    v ← to_param (wpa_value value); Ok (Some (Absolute v))
  else Err ("invalid adjustment amount kind " +:+ int_fmt (wpa_kind value)).

Definition openpit_param_adjustment_amount_to_string (p : Places) (value : OpenPitParamAdjustmentAmount) :=
  code_to_string p (import_adjustment_amount value) "adjustment amount" AdjustmentAmount_fmt.

Definition export_adjustment_amount (value : option AdjustmentAmount) : OpenPitParamAdjustmentAmount :=
  match value with
  | Some (Delta v) => mkWireAdjustmentAmount (wrap v) OPENPIT_PARAM_ADJUSTMENT_AMOUNT_KIND_DELTA
  | Some (Absolute v) => mkWireAdjustmentAmount (wrap v) OPENPIT_PARAM_ADJUSTMENT_AMOUNT_KIND_ABSOLUTE
  | None => adjustment_amount_default
  end.

Definition import_balance_operation (value : OpenPitAccountAdjustmentBalanceOperation) : result string PopulatedBalanceOperation :=
  asset ← parse_asset_view (wbo_asset value) "account_adjustment.balance.asset";
  average_entry_price ← import_price (wbo_average_entry_price value);
  realized_pnl ← import_optional import_pnl_state (wbo_realized_pnl value);
  Ok (mkPopulatedBalanceOperation asset average_entry_price realized_pnl).

Definition import_position_operation (value : OpenPitAccountAdjustmentPositionOperation) : result string PopulatedPositionOperation :=
  instrument ← import_instrument (wpp_instrument value);
  collateral_asset ← parse_asset_view (wpp_collateral_asset value) "account_adjustment.position.collateral_asset";
  average_entry_price ← import_price (wpp_average_entry_price value);
  mode ← import_position_mode (wpp_mode value);
  Ok (mkPopulatedPositionOperation instrument collateral_asset average_entry_price mode (import_leverage (wpp_leverage value))).

Definition import_account_pnl_operation (value : OpenPitAccountAdjustmentAccountPnlOperation) :
    result string PopulatedAccountPnlOperation :=
  state ← import_pnl_state (wap_state value); Ok (mkPopulatedAccountPnlOperation state).

Definition adjustment_import_operation (value : OpenPitAccountAdjustmentOperation) : result string AccountAdjustmentOperationAccess :=
  if waa_kind value =? OPENPIT_ACCOUNT_ADJUSTMENT_OPERATION_KIND_ABSENT then Ok AccountAdjustmentOperationAccess_Absent
  else if waa_kind value =? OPENPIT_ACCOUNT_ADJUSTMENT_OPERATION_KIND_BALANCE then
    v ← import_balance_operation (waa_balance value); Ok (AccountAdjustmentOperationAccess_Populated (OpBalance v))
  else if waa_kind value =? OPENPIT_ACCOUNT_ADJUSTMENT_OPERATION_KIND_POSITION then
    v ← import_position_operation (waa_position value); Ok (AccountAdjustmentOperationAccess_Populated (OpPosition v))
  else if waa_kind value =? OPENPIT_ACCOUNT_ADJUSTMENT_OPERATION_KIND_ACCOUNT_PNL then
    v ← import_account_pnl_operation (waa_account_pnl value); Ok (AccountAdjustmentOperationAccess_Populated (OpAccountPnl v))
  else Err ("invalid account adjustment operation kind " +:+ int_fmt (waa_kind value)).

Definition import_amount (value : Optional OpenPitAccountAdjustmentAmount) : result string AccountAdjustmentAmountAccess :=
  if negb (opt_is_set value) then Ok AccountAdjustmentAmountAccess_Absent
  else
    let v := opt_value value in
    balance ← import_adjustment_amount (wam_balance v);
    held ← import_adjustment_amount (wam_held v);
    incoming ← import_adjustment_amount (wam_incoming v);
    Ok (AccountAdjustmentAmountAccess_Populated {| aam_balance := balance; aam_held := held; aam_incoming := incoming |}).

Definition import_bound (value : Optional OpenPitParamPositionSize) : result string (option PositionSize) :=
  import_optional to_param value.

Definition import_bounds (value : Optional OpenPitAccountAdjustmentBounds) : result string AccountAdjustmentBoundsAccess :=
  if negb (opt_is_set value) then Ok AccountAdjustmentBoundsAccess_Absent
  else
    let v := opt_value value in
    balance_upper ← import_bound (wab_balance_upper v);
    balance_lower ← import_bound (wab_balance_lower v);
    held_upper ← import_bound (wab_held_upper v);
    held_lower ← import_bound (wab_held_lower v);
    incoming_upper ← import_bound (wab_incoming_upper v);
    incoming_lower ← import_bound (wab_incoming_lower v);
    Ok (AccountAdjustmentBoundsAccess_Populated
          {| abn_balance_upper := balance_upper; abn_balance_lower := balance_lower; abn_held_upper := held_upper;
             abn_held_lower := held_lower; abn_incoming_upper := incoming_upper; abn_incoming_lower := incoming_lower |}).

Definition export_balance_operation (value : PopulatedBalanceOperation) : OpenPitAccountAdjustmentBalanceOperation := {|
  wbo_asset := export_asset (pbo_asset value);
  wbo_average_entry_price := optional OpenPitParam_default wrap (pbo_average_entry_price value);
  wbo_realized_pnl := optional pnl_state_default export_pnl_state (pbo_realized_pnl value)
|}.

Definition export_position_operation (value : PopulatedPositionOperation) : OpenPitAccountAdjustmentPositionOperation := {|
  wpp_instrument := export_instrument (ppo_instrument value);
  wpp_collateral_asset := export_asset (ppo_collateral_asset value);
  wpp_average_entry_price := optional OpenPitParam_default wrap (ppo_average_entry_price value);
  wpp_leverage := export_leverage (ppo_leverage value);
  wpp_mode := from_option export_position_mode OPENPIT_PARAM_POSITION_MODE_NOT_SET (ppo_mode value)
|}.

Definition export_account_pnl_operation (value : PopulatedAccountPnlOperation) : OpenPitAccountAdjustmentAccountPnlOperation :=
  mkWireAccountPnlOperation (export_pnl_state (papo_state value)).

Definition adjustment_export_operation (value : AccountAdjustmentOperationAccess) : OpenPitAccountAdjustmentOperation :=
  match value with
  | AccountAdjustmentOperationAccess_Populated (OpBalance v) =>
      mkWireAdjustmentOperation OPENPIT_ACCOUNT_ADJUSTMENT_OPERATION_KIND_BALANCE (export_balance_operation v)
        position_operation_default account_pnl_operation_default
  | AccountAdjustmentOperationAccess_Populated (OpPosition v) =>
      mkWireAdjustmentOperation OPENPIT_ACCOUNT_ADJUSTMENT_OPERATION_KIND_POSITION balance_operation_default
        (export_position_operation v) account_pnl_operation_default
  | AccountAdjustmentOperationAccess_Populated (OpAccountPnl v) =>
      mkWireAdjustmentOperation OPENPIT_ACCOUNT_ADJUSTMENT_OPERATION_KIND_ACCOUNT_PNL balance_operation_default
        position_operation_default (export_account_pnl_operation v)
  | AccountAdjustmentOperationAccess_Absent => adjustment_operation_default
  end.

Definition export_amount (value : AccountAdjustmentAmount) : OpenPitAccountAdjustmentAmount := {|
  wam_balance := export_adjustment_amount (aam_balance value);
  wam_held := export_adjustment_amount (aam_held value);
  wam_incoming := export_adjustment_amount (aam_incoming value)
|}.

Definition export_bound (value : option PositionSize) : Optional OpenPitParamPositionSize :=
  optional OpenPitParam_default wrap value.

Definition export_bounds (value : AccountAdjustmentBounds) : OpenPitAccountAdjustmentBounds := {|
  wab_balance_upper := export_bound (abn_balance_upper value);
  wab_balance_lower := export_bound (abn_balance_lower value);
  wab_held_upper := export_bound (abn_held_upper value);
  wab_held_lower := export_bound (abn_held_lower value);
  wab_incoming_upper := export_bound (abn_incoming_upper value);
  wab_incoming_lower := export_bound (abn_incoming_lower value)
|}.

Definition import_account_adjustment {Payload} (value : OpenPitAccountAdjustment Payload) :
    result string (RequestWithPayload InteropAccountAdjustment Payload) :=
  operation ← adjustment_import_operation (wa_operation value);
  amount ← import_amount (wa_amount value);
  bounds ← import_bounds (wa_bounds value);
  Ok (mkRequestWithPayload (mkInteropAccountAdjustment operation amount bounds) (wa_user_data value)).

Definition export_account_adjustment {Payload} (value : RequestWithPayload InteropAccountAdjustment Payload) :
    OpenPitAccountAdjustment Payload :=
  let request := rwp_request value in {|
  wa_operation := adjustment_export_operation (ia_operation request);
  wa_amount :=
    match ia_amount request with
    | AccountAdjustmentAmountAccess_Populated v => mkOptional (export_amount v) true
    | AccountAdjustmentAmountAccess_Absent => mkOptional wire_amount_default false
    end;
  wa_bounds :=
    match ia_bounds request with
    | AccountAdjustmentBoundsAccess_Populated v => mkOptional (export_bounds v) true
    | AccountAdjustmentBoundsAccess_Absent => mkOptional wire_bounds_default false
    end;
  wa_user_data := rwp_payload value
|}.
End Requests.

(** ** A request crosses the boundary unchanged

    The conversions of [FfiRequests] as [Wire] pairs, field by field and group by
    group, up to the three requests. *)

Section Groups.
Context {D : DecimalOps} {DW : DecimalWire} {WL : DecimalWireLaws D DW}.

#[export] Instance wire_account_id : Wire any export_account_id import_account_id.
Proof. split; [by intros [[]|] _ | by intros]. Qed.

#[export] Instance wire_flag : Wire any export_bool import_flag.
Proof. split; [by intros [] _ | by intros]. Qed.

#[export] Instance wire_final : Wire (opt_ok any) (optional false id) (import_optional (@Ok string bool)).
Proof. split; [by intros [[]|] _ | intros t [] _; done]. Qed.

#[export] Instance wire_price : Wire (opt_ok param_ok) (optional OpenPitParam_default wrap) import_price.
Proof. unfold import_price. apply _. Qed.

#[export] Instance wire_bound : Wire (opt_ok param_ok) export_bound import_bound.
Proof. unfold import_bound, export_bound. apply _. Qed.

#[export] Instance wire_export_asset field : Wire (opt_ok asset_ok) export_asset (fun v => parse_asset_view v field).
Proof. apply wire_asset. Qed.

#[export] Instance wire_export_instrument : Wire (opt_ok instrument_ok) export_instrument import_instrument.
Proof. split; [intros [i|] Hi; [by apply (wire_back (Some i))|done] | apply _]. Qed.

(** *** Orders *)

Definition order_operation_ok (o : PopulatedOrderOperation) : Prop :=
  opt_ok instrument_ok (poop_instrument o) /\ opt_ok trade_amount_ok (poop_trade_amount o) /\ opt_ok param_ok (poop_price o).

Definition order_ok (o : InteropOrder) : Prop :=
  match io_operation o with OrderOperationAccess_Populated v => order_operation_ok v | OrderOperationAccess_Absent => True end /\
  match io_margin o with
  | OrderMarginAccess_Populated m => opt_ok leverage_wf (pom_leverage m) /\ opt_ok asset_ok (pom_collateral_asset m)
  | OrderMarginAccess_Absent => True
  end.

Lemma operation_read (v : PopulatedOrderOperation) : order_operation_ok v ->
  order_import_operation
    (mkOptional
       {| woo_trade_amount := export_trade_amount (poop_trade_amount v);
          woo_instrument := export_instrument (poop_instrument v);
          woo_price := optional OpenPitParam_default wrap (poop_price v);
          woo_account_id := export_account_id (poop_account_id v);
          woo_side := from_option export_side OPENPIT_PARAM_SIDE_NOT_SET (poop_side v) |} true) = Ok (Some v).
Proof.
  destruct v as [instrument account side amount price]. intros (Hi & Ha & Hp). apply import_set. cbn in *.
  by repeat wire_read.
Qed.

#[export] Instance accepts_operation : Accepts (opt_ok order_operation_ok) order_import_operation.
Proof. apply accepts_optional. intros t o H. wire_split H. by injection H as <-. Qed.

Definition order_margin_access_ok (a : OrderMarginAccess) : Prop :=
  match a with
  | OrderMarginAccess_Populated m => opt_ok leverage_wf (pom_leverage m) /\ opt_ok asset_ok (pom_collateral_asset m)
  | OrderMarginAccess_Absent => True
  end.

#[export] Instance accepts_margin : Accepts order_margin_access_ok import_margin.
Proof.
  intros t a. unfold import_margin. destruct (opt_is_set t); cbn [negb]; [|by intros [= <-]].
  intros H. wire_split H. injection H as <-. split; [apply leverage_sound|done].
Qed.

#[export] Instance wire_order {Payload} :
  Wire (fun r : RequestWithPayload InteropOrder Payload => order_ok (rwp_request r)) export_order import_order.
Proof.
  split.
  - intros [[operation position margin] payload] [Ho Hm]. cbn in Ho, Hm. unfold import_order, export_order.
    cbn [rwp_request io_operation io_position io_margin wo_operation wo_position wo_margin wo_user_data rwp_payload].
    replace (order_import_operation _)
      with (Ok (E := string) (match operation with OrderOperationAccess_Populated v => Some v | OrderOperationAccess_Absent => None end))
      by (destruct operation as [v|]; [by rewrite operation_read|done]).
    cbn [mbind result_bind].
    replace (import_position _) with (Ok (E := string) position).
    2:{ destruct position as [[position_side reduce_only close_position]|]; [|done]. unfold import_position. cbn. symmetry.
        by repeat wire_read. }
    cbn [mbind result_bind].
    replace (import_margin _) with (Ok (E := string) margin); [by destruct operation|].
    destruct margin as [[leverage collateral auto_borrow]|]; [|done]. destruct Hm as [Hl Hc]. unfold import_margin. cbn in *.
    symmetry. repeat wire_read. by rewrite leverage_back.
  - unfold import_order. intros t o H. wire_split H. injection H as <-. split; cbn; [by destruct x|done].
Qed.

(** *** Execution reports *)

Definition report_operation_access_ok (a : ExecutionReportOperationAccess) : Prop :=
  match a with
  | ExecutionReportOperationAccess_Populated o => opt_ok instrument_ok (pero_instrument o)
  | ExecutionReportOperationAccess_Absent => True
  end.
Definition impact_access_ok (a : FinancialImpactAccess) : Prop :=
  match a with
  | FinancialImpactAccess_Populated f => opt_ok param_ok (pfi_pnl f) /\ opt_ok param_ok (pfi_fee f)
  | FinancialImpactAccess_Absent => True
  end.
Definition trade_ok (t : Trade) : Prop := param_ok (trade_price t) /\ param_ok (trade_quantity t).
Definition fill_access_ok (a : ExecutionReportFillAccess) : Prop :=
  match a with
  | ExecutionReportFillAccess_Populated f =>
      opt_ok trade_ok (perf_last_trade f) /\ opt_ok monetary_ok (perf_fee f) /\
      opt_ok param_ok (perf_remaining_reserved_quantity f)
  | ExecutionReportFillAccess_Absent => True
  end.

Definition report_ok (r : InteropExecutionReport) : Prop :=
  report_operation_access_ok (ir_operation r) /\ impact_access_ok (ir_financial_impact r) /\ fill_access_ok (ir_fill r).

(** The import of a group that may be absent: nothing, or a chain. *)
Ltac group_sound t :=
  destruct (opt_is_set t); cbn [negb]; [|by intros [= <-]];
  let H := fresh "H" in intros H; wire_split H; by injection H as <-.

#[export] Instance wire_report_operation : Wire report_operation_access_ok report_export_operation report_import_operation.
Proof.
  split.
  - intros [[instrument account side]|] Ho; [|done]. unfold report_import_operation. cbn in *. by repeat wire_read.
  - intros t a. unfold report_import_operation. group_sound t.
Qed.

#[export] Instance wire_impact : Wire impact_access_ok export_financial_impact import_financial_impact.
Proof.
  split.
  - intros [[pnl fee]|] Ho; [|done]. destruct Ho as [Hp Hf]. unfold import_financial_impact. cbn in *. by repeat wire_read.
  - intros t a. unfold import_financial_impact. group_sound t.
Qed.

#[export] Instance wire_last_trade : Wire (opt_ok trade_ok) export_last_trade import_last_trade.
Proof.
  unfold export_last_trade, import_last_trade. apply wire_optional. split.
  - intros [price quantity] [Hp Hq]. cbn in *. by rewrite !wire_param_bind.
  - intros t a H. wire_split H. by injection H as <-.
Qed.

#[export] Instance wire_fill : Wire fill_access_ok export_fill import_fill.
Proof.
  split.
  - intros [[last_trade fee remaining lock final]|] Ho; [|done]. destruct Ho as (Ht & Hf & Hr). unfold import_fill. cbn in *.
    repeat wire_read. by destruct final.
  - intros t a. unfold import_fill. group_sound t.
Qed.

#[export] Instance wire_position_impact : Wire any export_position_impact import_position_impact.
Proof.
  split; [|by intros]. intros [[effect side]|] _; [|done]. unfold import_position_impact. cbn. by repeat wire_read.
Qed.

#[export] Instance wire_report {Payload} :
  Wire (fun r : RequestWithPayload InteropExecutionReport Payload => report_ok (rwp_request r))
    export_execution_report import_execution_report.
Proof.
  split.
  - intros [[operation impact fill position] payload] (Ho & Hi & Hf). unfold import_execution_report, export_execution_report.
    cbn in Ho, Hi, Hf.
    cbn [rwp_request rwp_payload ir_operation ir_financial_impact ir_fill ir_position_impact wr_operation wr_financial_impact
         wr_fill wr_position_impact wr_user_data].
    by repeat wire_read.
  - unfold import_execution_report. intros t r H. wire_split H. by injection H as <-.
Qed.

(** *** Account adjustments *)

Definition amount_ok (a : AdjustmentAmount) : Prop := match a with Delta v | Absolute v => param_ok v end.

#[export] Instance wire_adjustment_amount : Wire (opt_ok amount_ok) export_adjustment_amount import_adjustment_amount.
Proof.
  split.
  - intros [[v|v]|] Ha; [..|done]; unfold import_adjustment_amount; cbn in *; by rewrite wire_param_bind.
  - unfold import_adjustment_amount. intros t o H. repeat case_match; [by injection H as <-|..|done];
      apply result_bind_Ok in H as (x & Hx & [= <-]); by apply wire_sound in Hx.
Qed.

Definition operation_access_ok (a : AccountAdjustmentOperationAccess) : Prop :=
  match a with
  | AccountAdjustmentOperationAccess_Populated (OpBalance b) =>
      opt_ok asset_ok (pbo_asset b) /\ opt_ok param_ok (pbo_average_entry_price b) /\ opt_ok pnl_state_ok (pbo_realized_pnl b)
  | AccountAdjustmentOperationAccess_Populated (OpPosition q) =>
      opt_ok instrument_ok (ppo_instrument q) /\ opt_ok asset_ok (ppo_collateral_asset q) /\
      opt_ok param_ok (ppo_average_entry_price q) /\ opt_ok leverage_wf (ppo_leverage q)
  | AccountAdjustmentOperationAccess_Populated (OpAccountPnl s) => pnl_state_ok (papo_state s)
  | AccountAdjustmentOperationAccess_Absent => True
  end.

#[export] Instance wire_operation : Wire operation_access_ok adjustment_export_operation adjustment_import_operation.
Proof.
  split.
  - intros [[[asset average realized]|[instrument collateral average mode leverage]|[state]]|] Ho; [..|done];
      unfold adjustment_import_operation; cbn in *.
    + destruct Ho as (Ha & Hp & Hr). unfold import_balance_operation. cbn. by repeat wire_read.
    + destruct Ho as (Hi & Hc & Hp & Hl). unfold import_position_operation. cbn. repeat wire_read. by rewrite leverage_back.
    + unfold import_account_pnl_operation. cbn. by repeat wire_read.
  - unfold adjustment_import_operation. intros t a H. repeat case_match; try discriminate H;
      [by injection H as <-|apply result_bind_Ok in H as (x & Hx & [= <-])..];
      unfold import_balance_operation, import_position_operation, import_account_pnl_operation in Hx;
      wire_split Hx; injection Hx as <-; try done.
    split_and!; try done. apply leverage_sound.
Qed.

Definition adjustment_ok (a : InteropAccountAdjustment) : Prop :=
  operation_access_ok (ia_operation a) /\
  match ia_amount a with
  | AccountAdjustmentAmountAccess_Populated m =>
      opt_ok amount_ok (aam_balance m) /\ opt_ok amount_ok (aam_held m) /\ opt_ok amount_ok (aam_incoming m)
  | AccountAdjustmentAmountAccess_Absent => True
  end /\
  match ia_bounds a with
  | AccountAdjustmentBoundsAccess_Populated b =>
      opt_ok param_ok (abn_balance_upper b) /\ opt_ok param_ok (abn_balance_lower b) /\ opt_ok param_ok (abn_held_upper b) /\
      opt_ok param_ok (abn_held_lower b) /\ opt_ok param_ok (abn_incoming_upper b) /\ opt_ok param_ok (abn_incoming_lower b)
  | AccountAdjustmentBoundsAccess_Absent => True
  end.

#[export] Instance wire_adjustment {Payload} :
  Wire (fun r : RequestWithPayload InteropAccountAdjustment Payload => adjustment_ok (rwp_request r))
    export_account_adjustment import_account_adjustment.
Proof.
  split.
  - intros [[operation amount bounds] payload] (Ho & Ha & Hb). cbn in Ho, Ha, Hb. unfold import_account_adjustment.
    cbn [rwp_request rwp_payload ia_operation ia_amount ia_bounds wa_operation wa_amount wa_bounds wa_user_data
         export_account_adjustment].
    wire_read.
    replace (import_amount _) with (Ok (E := string) amount).
    2:{ destruct amount as [[balance held incoming]|]; [|done]. destruct Ha as (H1 & H2 & H3). unfold import_amount. cbn in *. symmetry.
        by repeat wire_read. }
    cbn [mbind result_bind].
    replace (import_bounds _) with (Ok (E := string) bounds); [done|].
    destruct bounds as [[bu bl hu hl iu il]|]; [|done]. destruct Hb as (H1 & H2 & H3 & H4 & H5 & H6).
    unfold import_bounds. cbn in *. symmetry. by repeat wire_read.
  - unfold import_account_adjustment, import_amount, import_bounds. intros t r H. wire_split H. injection H as <-. split_and!; [done|..].
    + destruct (opt_is_set (wa_amount t)); cbn [negb] in Hw0; [|by injection Hw0 as <-]. wire_split Hw0. by injection Hw0 as <-.
    + destruct (opt_is_set (wa_bounds t)); cbn [negb] in Hw1; [|by injection Hw1 as <-]. wire_split Hw1. by injection Hw1 as <-.
Qed.
End Groups.

(** C31: A request a C caller hands in, once accepted, is handed back unchanged: what a
    callback receives decodes to the same request with the same token, and every
    request made of valid parts can cross. *)
Theorem requests_cross {D : DecimalOps} {DW : DecimalWire} {WL : DecimalWireLaws D DW} {Payload : Type} :
  (forall (v : OpenPitOrder Payload) r, import_order v = Ok r ->
     rwp_payload r = wo_user_data v /\ import_order (export_order r) = Ok r) /\
  (forall (v : OpenPitExecutionReport Payload) r, import_execution_report v = Ok r ->
     rwp_payload r = wr_user_data v /\ import_execution_report (export_execution_report r) = Ok r) /\
  (forall (v : OpenPitAccountAdjustment Payload) r, import_account_adjustment v = Ok r ->
     rwp_payload r = wa_user_data v /\ import_account_adjustment (export_account_adjustment r) = Ok r) /\
  (forall r : RequestWithPayload InteropOrder Payload, order_ok (rwp_request r) -> import_order (export_order r) = Ok r) /\
  (forall r : RequestWithPayload InteropExecutionReport Payload, report_ok (rwp_request r) ->
     import_execution_report (export_execution_report r) = Ok r) /\
  (forall r : RequestWithPayload InteropAccountAdjustment Payload, adjustment_ok (rwp_request r) ->
     import_account_adjustment (export_account_adjustment r) = Ok r).
Proof.
  split_and!; [intros v r H; split..|apply wire_back|apply wire_back|apply wire_back].
  - unfold import_order in H. by inv_ok H.
  - apply wire_back. by apply wire_sound in H.
  - unfold import_execution_report in H. by inv_ok H.
  - apply wire_back. by apply wire_sound in H.
  - unfold import_account_adjustment in H. by inv_ok H.
  - apply wire_back. by apply wire_sound in H.
Qed.
