(* ===== verification/FfiFacts.v ===== *)
(** * FfiFacts: what a C caller can rely on

    Calls on values report exactly once and compute what the core computes; rejects,
    blocks and the texts they carry survive the boundary; collectors and lists
    change only as documented. *)
From S2P Require Import Prelude.
From S2P Require Import Decimal.
From S2P Require Import Param.
From S2P Require Import ParamTypes.
From S2P Require Import Identifiers.
From S2P Require Import Utf8.
From S2P Require Import Reject.
From S2P Require Import Lock.
From S2P Require Import Policy.
From S2P Require Import Ffi.
From S2P Require Import FfiParam.
From S2P Require Import FfiOutcomes.
From S2P Require Import FfiLock.
From S2P Require Import FfiWire.
Open Scope Z_scope.

(** ** The contract of a call *)

(** It writes its result exactly when it returns [true], which needs a place for
    it, and an error exactly when it returns [false] and has a place for that. *)
Definition reports {E T} (p : Places) (c : Call E T) : Prop :=
  is_some (call_out c) = call_ok c /\
  is_some (call_error c) = negb (call_ok c) && negb (error_null p) /\
  (call_ok c = true -> out_null p = false).

Section Contract.
Context {T U : Type} (p : Places).

Lemma reports_unspecified msg : reports p (fail_unspecified (T := T) p msg).
Proof. by destruct p as [o []]. Qed.
Lemma reports_coded e : reports p (fail_coded (T := T) p e).
Proof. by destruct p as [o []]. Qed.
Lemma reports_write_out (v : T) : reports p (write_out p v).
Proof. by destruct p as [[] []]. Qed.
Lemma reports_or_unspecified r (k : U -> Call OpenPitParamError T) :
  (forall x, reports p (k x)) -> reports p (or_unspecified p r k).
Proof. intros Hk. destruct r; [apply Hk|apply reports_unspecified]. Qed.
Lemma reports_or_coded r (k : U -> Call OpenPitParamError T) : (forall x, reports p (k x)) -> reports p (or_coded p r k).
Proof. intros Hk. destruct r; [apply Hk|apply reports_coded]. Qed.

(** What a chain that returned [true] went through. *)
Lemma or_unspecified_true r (k : U -> Call OpenPitParamError T) v :
  or_unspecified p r k = mkCall true (Some v) None <-> exists x, r = Ok x /\ k x = mkCall true (Some v) None.
Proof. destruct r; cbn; naive_solver. Qed.
Lemma or_coded_true r (k : U -> Call OpenPitParamError T) v :
  or_coded p r k = mkCall true (Some v) None <-> exists x, r = Ok x /\ k x = mkCall true (Some v) None.
Proof. destruct r; cbn; naive_solver. Qed.
Lemma write_out_true (x v : T) : write_out p x = mkCall true (Some v) None <-> out_null p = false /\ v = x.
Proof. unfold write_out. destruct (out_null p); naive_solver. Qed.
End Contract.

Create HintDb reports.
#[export] Hint Resolve reports_unspecified reports_coded reports_write_out reports_or_unspecified reports_or_coded : reports.

(** ** Calls on values *)

Section Values.
Context {D : DecimalOps} {DW : DecimalWire} {T : Type} {P : ParamDomain T} (p : Places).

Lemma create_reports value : reports p (create (T := T) p value).
Proof.
  unfold create. destruct (out_null p) eqn:E; [auto with reports|]. destruct (to_param_typed _) as [x|[e|]]; auto with reports.
  by destruct p as [o []].
Qed.

(** [to_param] and [to_param_typed] accept the same values. *)
Lemma to_param_typed_Ok (value : OpenPitParam T) x : to_param_typed value = Ok x <-> to_param value = Ok x.
Proof.
  unfold to_param_typed, to_param, into_param_result. destruct (scale_u32 _); cbn; [|done].
  destruct (dec_from_i128_with_scale _ _); cbn; [|done]. by rewrite !map_err_Ok.
Qed.
End Values.

(** Every function a value type gets reports as documented, whatever its inputs. *)
Theorem value_calls_report {D : DecimalOps} {DW : DecimalWire} {T : Type} {P : ParamDomain T} (p : Places) :
  (forall v, reports p (create (T := T) p v)) /\
  (forall v, reports p (from_string (T := T) p v)) /\ (forall v, reports p (from_f64 (T := T) p v)) /\
  (forall v, reports p (from_int64 (T := T) p v)) /\ (forall v, reports p (from_uint64 (T := T) p v)) /\
  (forall v s r, reports p (from_string_rounded (T := T) p v s r)) /\
  (forall v s r, reports p (from_f64_rounded (T := T) p v s r)) /\
  (forall v s r, reports p (from_decimal_rounded (T := T) p v s r)) /\
  (forall v, reports p (to_f64 (T := T) p v)) /\ (forall v, reports p (is_zero (T := T) p v)) /\
  (forall a b, reports p (compare (T := T) p a b)) /\
  (forall op a b, reports p (binary (T := T) p op a b)) /\ (forall S op a (s : S), reports p (scalar (T := T) p op a s)).
Proof.
  split_and!; intros; [apply create_reports|..];
    unfold from_string, from_f64, from_int64, from_uint64, from_string_rounded, from_f64_rounded, from_decimal_rounded,
      to_f64, is_zero, compare, binary, scalar; auto with reports.
Qed.

(** The calls compute what the core computes: they succeed exactly when there is
    a place for the result, the operands decode and the core's operation succeeds,
    and then they write its outcome. *)
Theorem value_calls_compute {D : DecimalOps} {DW : DecimalWire} {T : Type} {P : ParamDomain T} (p : Places) :
  (forall value w, create (T := T) p value = mkCall true (Some w) None <->
     out_null p = false /\ w = mkParam value /\ exists x : T, to_param (mkParam value) = Ok x) /\
  (forall op (l r w : OpenPitParam T), binary p op l r = mkCall true (Some w) None <->
     exists a b c, to_param l = Ok a /\ to_param r = Ok b /\ op a b = Ok c /\ out_null p = false /\ w = wrap c) /\
  (forall S op (l w : OpenPitParam T) (s : S), scalar p op l s = mkCall true (Some w) None <->
     exists a c, to_param l = Ok a /\ op a s = Ok c /\ out_null p = false /\ w = wrap c) /\
  (forall (l r : OpenPitParam T) o, compare p l r = mkCall true (Some o) None <->
     exists a b : T, to_param l = Ok a /\ to_param r = Ok b /\ out_null p = false /\
       o = compare_decimals (pd_to_decimal a) (pd_to_decimal b)).
Proof.
  split_and!.
  - intros value w. unfold create. setoid_rewrite <- to_param_typed_Ok.
    destruct (out_null p), (to_param_typed (mkParam value)) as [x|[e|]]; naive_solver.
  - intros op l r w. unfold binary. setoid_rewrite or_unspecified_true. setoid_rewrite or_unspecified_true.
    setoid_rewrite or_coded_true. setoid_rewrite write_out_true. naive_solver.
  - intros S op l w s. unfold scalar. setoid_rewrite or_unspecified_true. setoid_rewrite or_coded_true.
    setoid_rewrite write_out_true. naive_solver.
  - intros l r o. unfold compare. setoid_rewrite or_unspecified_true. setoid_rewrite or_unspecified_true.
    setoid_rewrite write_out_true. naive_solver.
Qed.

(** ** Texts *)

Definition str_ok (s : string) : Prop := exists u, text_ok u /\ s = string_of_ustr u.

Lemma utf8_char_bytes c : is_scalar c = true -> Forall (fun b => 0 <= b < 256) (utf8_char c).
Proof.
  intros [H _]%is_scalar_spec. unfold utf8_char.
  repeat case_match; byte_bool; repeat constructor; Z.to_euclidean_division_equations; lia.
Qed.

Lemma str_bytes_range u : text_ok u -> Forall (fun b => 0 <= b < 256) (str_bytes u).
Proof.
  intros Hu. unfold str_bytes. induction Hu as [|c u Hc Hu IH]; [constructor|]. rewrite bind_cons. apply Forall_app.
  split; [by apply utf8_char_bytes|done].
Qed.

Lemma bytes_back bytes : Forall (fun b => 0 <= b < 256) bytes -> bytes_of_string (string_of_bytes bytes) = bytes.
Proof.
  intros H. unfold bytes_of_string, string_of_bytes. rewrite String.list_ascii_of_string_of_list_ascii.
  induction H as [|b bytes Hb _ IH]; [done|]. rewrite !fmap_cons, IH. f_equal.
  rewrite Ascii.N_ascii_embedding by lia. lia.
Qed.

Lemma import_string_back s : str_ok s -> import_string (view_from_utf8 s) = s.
Proof.
  intros (u & Hu & ->). unfold import_string, view_from_utf8, view_of_bytes, string_of_ustr. cbn.
  rewrite bytes_back by by apply str_bytes_range. f_equal. f_equal. apply from_utf8_lossy_spec. by apply read_view.
Qed.

Lemma parse_string_back s : str_ok s -> exists u, parse_string_view (view_from_utf8 s) = Ok u /\ string_of_ustr u = s.
Proof.
  intros (u & Hu & ->). exists u. split; [|done]. unfold parse_string_view, view_from_utf8, view_of_bytes, string_of_ustr. cbn.
  rewrite bytes_back by by apply str_bytes_range. by rewrite read_view.
Qed.

(** ** Rejects and blocks *)

#[local] Arguments view_from_utf8 : simpl never.
#[local] Arguments import_string : simpl never.
#[local] Arguments parse_string_view : simpl never.
#[local] Arguments import_reject_code : simpl never.

Lemma reject_code_back code : import_reject_code (export_reject_code code) = code.
Proof. by destruct code. Qed.

(** The arms of the import are exactly the codes of the export. *)
Lemma reject_code_arms_exact z code : (z, code) ∈ reject_code_arms <-> z = export_reject_code code.
Proof.
  split.
  - intros H. repeat (apply elem_of_cons in H as [H|H]; [by simplify_eq|]). by apply elem_of_nil in H.
  - intros ->. apply list_elem_of_In. destruct code; cbn; tauto.
Qed.

Lemma first_arm_spec {A} (arms : list (Z * A)) d z :
  (exists a, first_arm arms d z = a /\ (z, a) ∈ arms) \/ first_arm arms d z = d /\ forall a, (z, a) ∉ arms.
Proof.
  induction arms as [|[c a] arms IH]; cbn; [right; set_solver|]. destruct (Z.eqb_spec z c) as [->|Hz]; [left; set_solver|].
  destruct IH as [(b & Hb & Hin)|[Hd Hn]]; [left; set_solver|right]. split; [done|]. intros b Hin.
  apply elem_of_cons in Hin as [Hin|Hin]; [by simplify_eq|by apply (Hn b)].
Qed.

(** An unknown code counts as [Other]; a known one is read exactly. *)
Lemma import_reject_code_spec z :
  z = export_reject_code (import_reject_code z) \/ import_reject_code z = RC_Other /\ forall code, z <> export_reject_code code.
Proof.
  unfold import_reject_code. destruct (first_arm_spec reject_code_arms RC_Other z) as [(a & -> & Hin)|[-> Hn]].
  - left. by apply reject_code_arms_exact.
  - right. split; [done|]. intros code ->. by apply (Hn code), reject_code_arms_exact.
Qed.

Lemma reject_back r : str_ok (reject_policy r) -> str_ok (reject_reason r) -> str_ok (reject_details r) ->
  to_reject (from_reject r) = Some r.
Proof.
  intros Hp Hr Hd. destruct r as [reason details policy data code scope]. cbn in *. unfold to_reject, from_reject. cbn.
  rewrite !import_string_back, reject_code_back by done. by destruct scope.
Qed.

Definition block_texts_ok (b : AccountBlock) : Prop :=
  str_ok (block_policy b) /\ str_ok (block_reason b) /\ str_ok (block_details b).

(** A block comes back equal, but for the provenance that never crosses. *)
Lemma block_back b : block_texts_ok b ->
  to_block (from_block b) = block_with_provenance b None /\ try_to_block (from_block b) = Ok (block_with_provenance b None).
Proof.
  intros (Hp & Hr & Hd). destruct b as [reason details policy data code prov]. cbn in *.
  destruct (parse_string_back policy Hp) as (u1 & E1 & F1), (parse_string_back reason Hr) as (u2 & E2 & F2),
    (parse_string_back details Hd) as (u3 & E3 & F3). split.
  - unfold to_block, from_block. cbn. by rewrite !import_string_back, reject_code_back.
  - unfold try_to_block, from_block. cbn [opb_code opb_policy opb_reason opb_details opb_user_data block_policy block_reason
      block_details block_user_data block_code]. rewrite reject_code_back, E1, E2, E3. cbn. rewrite F1, F2, F3.
    by destruct code.
Qed.

(** The strict import refuses what the lenient one would have to guess. *)
Lemma try_to_block_spec w b : try_to_block w = Ok b ->
  to_block w = b /\ opb_code w = export_reject_code (block_code b) /\ block_provenance b = None.
Proof.
  unfold try_to_block. destruct (bool_decide _ && _) eqn:E; [done|]. intros H. inv_ok H.
  assert (Hv : forall v u, parse_string_view v = Ok u -> import_string v = string_of_ustr u).
  { unfold parse_string_view, import_string. intros v u Hu. destruct (sv_ptr v) as [bytes|].
    - apply map_err_Ok in Hu. by rewrite (proj1 (from_utf8_lossy_spec _) _ Hu).
    - destruct (sv_len v =? 0); [|done]. by injection Hu as <-. }
  split_and!; [|cbn|done].
  - unfold to_block. by erewrite !Hv by done.
  - destruct (import_reject_code_spec (opb_code w)) as [Hc|[Hc Hn]]; [done|].
    rewrite bool_decide_true in E by done. cbn in E. apply negb_false_iff, Z.eqb_eq in E. by rewrite Hc.
Qed.

(** A reject and a block cross the boundary and come back as they were, a block
    but for its provenance, and the strict import accepts no code or text that the
    lenient one would have replaced. *)
Theorem rejects_cross :
  (forall r, str_ok (reject_policy r) -> str_ok (reject_reason r) -> str_ok (reject_details r) ->
     to_reject (from_reject r) = Some r) /\
  (forall b, block_texts_ok b ->
     to_block (from_block b) ≡ b /\ exists b', try_to_block (from_block b) = Ok b' /\ b' ≡ b) /\
  (forall w b, try_to_block w = Ok b ->
     to_block w = b /\ opb_code w = export_reject_code (block_code b) /\ block_provenance b = None) /\
  (forall z, (forall code, z <> export_reject_code code) -> import_reject_code z = RC_Other).
Proof.
  split_and!.
  - apply reject_back.
  - intros b Hb. destruct (block_back b Hb) as [-> ->]. destruct b. split; [by split_and!|]. eexists. split; [done|]. by split_and!.
  - apply try_to_block_spec.
  - intros z Hz. destruct (import_reject_code_spec z) as [H|[H _]]; [by destruct (Hz _ H)|done].
Qed.

(** A push aborts on a null list, leaves the shared accept list and a reject of
    unknown scope alone, and otherwise appends the reject it answers [true] for. *)
Theorem reject_list_push_spec value reject :
  match openpit_pretrade_reject_list_push value reject with
  | None => value = RL_Null
  | Some (ok, value') =>
      is_accepted_reject_list value' = is_accepted_reject_list value /\
      (ok = true <-> is_accepted_reject_list value = false /\ import_reject_scope (opr_scope reject) <> None) /\
      reject_items value' =
        (fun items => items ++ option_list (if ok then to_reject reject else None)) <$> reject_items value
  end.
Proof.
  destruct value as [| |items]; cbn; [done|split_and!; [done|naive_solver|done]|].
  assert (Hs : to_reject reject = None <-> import_reject_scope (opr_scope reject) = None).
  { unfold to_reject. destruct (import_reject_scope _); cbn; naive_solver. }
  destruct (to_reject reject) as [r|]; cbn; split_and!; try done; rewrite ?app_nil_r; naive_solver.
Qed.

(** A collector grows by exactly the payloads that decode, in order. *)
Lemma push_onto_spec {C A} (p : Places) (target : option C) null (payload : result string A) append :
  let r := push_onto p target null payload append in
  push_target r = (match payload with Ok a => append a | Err _ => id end) <$> target /\
  (push_ok r = true <-> is_some target = true /\ is_ok payload = true) /\
  is_some (push_error r) = negb (push_ok r) && negb (error_null p).
Proof. destruct p as [o []], target, payload; cbn; naive_solver. Qed.
