(* ===== verification/Configure.v ===== *)
(** * Configure: building an engine and retuning its policies

    The engine builder with its uniqueness checks, the registry of the built-in
    policies' settings, and the configurator: transactional updates of settings and
    the sweep that blocks accounts a new P&L barrier of the spot funds policy
    catches. *)
From stdpp Require Import pretty.
From S2P Require Import Prelude.
From S2P Require Import Decimal.
From S2P Require Import Param.
From S2P Require Import ParamTypes.
From S2P Require Import Identifiers.
From S2P Require Import Mutation.
From S2P Require Import Reject.
From S2P Require Import AccountControl.
From S2P Require Import Accounts.
From S2P Require Import Lock.
From S2P Require Import Policy.
From S2P Require Import Engine.
From S2P Require Import Storage.
From S2P Require Import Holdings.
From S2P Require Import HoldingsStore.
From S2P Require Import Instruments.
From S2P Require Import MarketData.
From S2P Require Import OrderSizeLimit.
From S2P Require Import PnlBounds.
From S2P Require Import RateLimit.
From S2P Require Import SpotFundsSettings.
From S2P Require Import SpotFundsParts.
From S2P Require Import SpotFunds.
From S2P Require Import SpotFundsReservation.
From S2P Require Import SpotFundsExecution.
From S2P Require Import SpotFundsAdjustment.
Open Scope Z_scope.

(** The settings a registry entry holds, and [std::any::type_name] of their cell. *)
Inductive SettingsKind : Set :=
| RateLimitKind | PnlBoundsKillSwitchKind | SpotFundsKind | OrderSizeLimitKind.
Class CellTypeName : Type := cell_type_name : SettingsKind -> string.

Inductive ConfigureError : Set :=
| UnknownPolicy (name : string)
| PolicyTypeMismatch (name expected found : string)
| Validation (name message : string).

Definition ConfigureError_fmt (e : ConfigureError) : string :=
  match e with
  | UnknownPolicy name => "no configurable policy named " +:+ name
  | PolicyTypeMismatch name expected found =>
      "policy " +:+ name +:+ " has settings type " +:+ found +:+ ", not " +:+ expected
  | Validation name message => "policy " +:+ name +:+ " rejected the update: " +:+ message
  end.

Inductive EngineBuildError : Set :=
| DuplicatePolicyName (name : string)
| DuplicatePolicyGroupId (id : PolicyGroupId).

Definition EngineBuildError_fmt (e : EngineBuildError) : string :=
  match e with
  | DuplicatePolicyName name => "duplicate policy name: " +:+ name
  | DuplicatePolicyGroupId id => "duplicate non-default policy_group_id: " +:+ pretty (policy_group_value id)
  end.

#[export] Instance PolicyGroupId_countable : Countable PolicyGroupId.
Proof. apply (inj_countable' policy_group_value mkPolicyGroupId). by intros []. Defined.

(** ** The re-entry check of debug builds *)

(** [EngineCallTracker]: the calls of a thread that are under way, by engine; [None]
    is the panic of an assertion. *)
Definition calls_enter (identity : Z) (active : list Z) : option (list Z) :=
  if existsb (Z.eqb identity) active then None else Some (active ++ [identity]).

Definition calls_drop (identity : Z) (active : list Z) : option (list Z) :=
  match last active with
  | Some top => if top =? identity then Some (removelast active) else None
  | None => None
  end.

Section Configure.
Context {D : DecimalOps} {F : DecimalFormat} {G : DecimalDebug} {W Order Report Adjustment : Type}.
Context {TN : CellTypeName}.
Abbreviation St := (EngineState W).
Implicit Types (st : St) (name : string).

(** A cell handle shared with a policy is a place in the world. *)
Inductive ConfigEntry : Type :=
| CE_RateLimit (cell : Owns W RateLimitState)
| CE_PnlBoundsKillSwitch (settings_and_realized : Owns W KillSwitchState)
| CE_SpotFunds (funds : Owns W SpotFundsState)
| CE_OrderSizeLimit (cell : Owns W OrderSizeLimitSettings).

Definition settings_type_name (entry : ConfigEntry) : string :=
  cell_type_name
    match entry with
    | CE_RateLimit _ => RateLimitKind
    | CE_PnlBoundsKillSwitch _ => PnlBoundsKillSwitchKind
    | CE_SpotFunds _ => SpotFundsKind
    | CE_OrderSizeLimit _ => OrderSizeLimitKind
    end.

(** A policy object with the two hidden methods of the trait. *)
Record RegisteredPolicy : Type := mkRegistered {
  rp_policy : PreTradePolicy W Order Report Adjustment;
  rp_entry : option ConfigEntry;
  rp_configuration : PolicyRuntimeConfiguration -> St -> list AccountBlock * St
}.

(** Their provided bodies. *)
Definition custom_policy (policy : PreTradePolicy W Order Report Adjustment) : RegisteredPolicy :=
  mkRegistered policy None (fun _ st => ([], st)).

(** ** The builder *)

Record EngineBuilder : Type := mkBuilder {
  eb_policies : list RegisteredPolicy;
  eb_config_entries : list (string * ConfigEntry)
}.

Definition builder_new : EngineBuilder := mkBuilder [] [].

Definition rp_name (p : RegisteredPolicy) : string := pol_name (rp_policy p).
Definition rp_group_id (p : RegisteredPolicy) : PolicyGroupId := policy_group_id (rp_policy p).

Definition pre_trade (self : EngineBuilder) (policy : RegisteredPolicy) : EngineBuilder :=
  mkBuilder (eb_policies self ++ [policy])
    (eb_config_entries self ++ option_list ((fun entry => (rp_name policy, entry)) <$> rp_entry policy)).

(** The loops of the two checks, over the set seen so far. *)
Fixpoint unique_policy_names (unique : gset string) (names : list string) : result EngineBuildError unit :=
  match names with
  | [] => Ok tt
  | name :: names =>
      if decide (name ∈ unique) then Err (DuplicatePolicyName name)
      else unique_policy_names ({[name]} ∪ unique) names
  end.
Definition ensure_unique_policy_names (names : list string) : result EngineBuildError unit :=
  unique_policy_names ∅ names.

Fixpoint unique_group_ids (unique : gset PolicyGroupId) (ids : list PolicyGroupId) : result EngineBuildError unit :=
  match ids with
  | [] => Ok tt
  | id :: ids =>
      if decide (id = DEFAULT_POLICY_GROUP_ID) then unique_group_ids unique ids
      else if decide (id ∈ unique) then Err (DuplicatePolicyGroupId id)
      else unique_group_ids ({[id]} ∪ unique) ids
  end.
Definition ensure_unique_group_ids (ids : list PolicyGroupId) : result EngineBuildError unit := unique_group_ids ∅ ids.

Record EngineInner : Type := mkEngineInner {
  ei_policies : list RegisteredPolicy;
  ei_config_registry : gmap string ConfigEntry
}.

(** Collecting into a [HashMap] keeps the last entry of a name. *)
Definition registry_from_entries (entries : list (string * ConfigEntry)) : gmap string ConfigEntry :=
  list_to_map (reverse entries).

Definition build (self : EngineBuilder) : result EngineBuildError EngineInner :=
  _ ← ensure_unique_policy_names (rp_name <$> eb_policies self);
  _ ← ensure_unique_group_ids (rp_group_id <$> eb_policies self);
  Ok (mkEngineInner (eb_policies self) (registry_from_entries (eb_config_entries self))).

(** ** The registry *)

Implicit Types (engine : EngineInner).

Definition registry_entry engine name : result ConfigureError ConfigEntry :=
  ok_or (ei_config_registry engine !! name) (UnknownPolicy name).

Definition type_mismatch {A} (expected : SettingsKind) name (entry : ConfigEntry) : result ConfigureError A :=
  Err (PolicyTypeMismatch name (cell_type_name expected) (settings_type_name entry)).

(** The registry as the accounts handle consults it. *)
Definition account_pnl_membership_change_blocks engine st : MembershipChangeBlocks :=
  fun account previous_group current_group previous_currency current_currency =>
    omap (fun entry =>
            match entry with
            | CE_SpotFunds funds =>
                let s := own_get (es_world st) in
                account_pnl_membership_change_block s (sf_settings s) account previous_group current_group
                  previous_currency current_currency
            | _ => None
            end) (map_to_list (ei_config_registry engine)).*2.

Definition find_policy engine name : result ConfigureError RegisteredPolicy :=
  ok_or (List.find (fun p => bool_decide (rp_name p = name)) (ei_policies engine)) (UnknownPolicy name).

(** ** The configurator *)

Section Updates.
Context {Error : Type} (error_fmt : Error -> string).

Definition Update (S : Type) : Type := S -> result Error unit * S.

Definition validation {A} name (r : result Error A) : result ConfigureError A :=
  map_err (fun e => Validation name (error_fmt e)) r.

(** [ConfigCell::update] of a cell in the world. *)
Definition cell_update {S} (get : W -> S) (set : S -> W -> W) (f : Update S) st : result Error unit * St :=
  match f (get (es_world st)) with
  | (Ok _, next) => (Ok tt, with_world st (set next (es_world st)))
  | (Err e, _) => (Err e, st)
  end.

(** The setters of the rate limits also create counters. *)
Definition rate_limit_cell (s : RateLimitState) : RateLimitSettings * CounterHeap := (rls_settings s, rls_heap s).
Definition set_rate_limit_cell (s : RateLimitState) (x : RateLimitSettings * CounterHeap) : RateLimitState :=
  mkRateLimitState x.1 x.2 (rls_per_account_timestamps s) (rls_per_account_asset_timestamps s).
Definition set_kill_switch_settings (s : KillSwitchState) (x : PnlBoundsKillSwitchSettings) : KillSwitchState :=
  mkKillSwitch x (pks_realized s).

Definition configure_rate_limit engine name (f : Update (RateLimitSettings * CounterHeap)) st :
    result ConfigureError unit * St :=
  match registry_entry engine name with
  | Err e => (Err e, st)
  | Ok (CE_RateLimit cell) =>
      let '(r, st) := cell_update (fun w => rate_limit_cell (own_get w))
                        (fun x w => own_set (set_rate_limit_cell (own_get w) x) w) f st in
      (validation name r, st)
  | Ok entry => (type_mismatch RateLimitKind name entry, st)
  end.

Definition configure_pnl_bounds_killswitch engine name (f : Update PnlBoundsKillSwitchSettings) st :
    result ConfigureError unit * St :=
  match registry_entry engine name with
  | Err e => (Err e, st)
  | Ok (CE_PnlBoundsKillSwitch cell) =>
      let '(r, st) := cell_update (fun w => pks_settings (own_get w))
                        (fun x w => own_set (set_kill_switch_settings (own_get w) x) w) f st in
      (validation name r, st)
  | Ok entry => (type_mismatch PnlBoundsKillSwitchKind name entry, st)
  end.

Definition configure_order_size_limit engine name (f : Update OrderSizeLimitSettings) st :
    result ConfigureError unit * St :=
  match registry_entry engine name with
  | Err e => (Err e, st)
  | Ok (CE_OrderSizeLimit cell) =>
      let '(r, st) := cell_update own_get own_set f st in (validation name r, st)
  | Ok entry => (type_mismatch OrderSizeLimitKind name entry, st)
  end.

(** [Configurator::set_account_pnl]. *)
Definition configure_account_pnl engine name (account : AccountId) (settlement_asset : Asset) (pnl : Pnl) st :
    result ConfigureError unit * St :=
  match registry_entry engine name with
  | Err e => (Err e, st)
  | Ok (CE_PnlBoundsKillSwitch cell) =>
      (Ok tt, with_world st (own_set (set_account_pnl account settlement_asset pnl (own_get (es_world st))) (es_world st)))
  | Ok entry => (type_mismatch PnlBoundsKillSwitchKind name entry, st)
  end.

(** *** The spot funds policy *)

(** Settings computed under the transition mutex and not yet published. *)
Record PreparedTransition : Type := mkPrepared { pt_previous : SpotFundsSettings; pt_current : SpotFundsSettings }.

Definition prepare_serialized_transition (funds : Owns W SpotFundsState) (update : Update SpotFundsSettings) st :
    result Error PreparedTransition :=
  let previous := sf_settings (own_get (es_world st)) in
  match update previous with
  | (Ok _, current) => Ok (mkPrepared previous current)
  | (Err e, _) => Err e
  end.

Definition active_holdings_accounts (active : gmap AccountId Z) : list AccountId :=
  List.filter (fun account => match active !! account with Some count => negb (count =? 0) | None => false end)
    (storage_keys active).

(** An account and the block the engine recorded for it. *)
Abbreviation AccountBlockOutcomes := (list (AccountId * AccountBlock)).

Definition record_block (outcomes : AccountBlockOutcomes) (account : AccountId) (block : AccountBlock) st :
    AccountBlockOutcomes * St :=
  let '(inserted, blocked) := block_account (es_blocked st) account block in
  (if inserted then outcomes ++ [(account, block)] else outcomes, set_blocked st blocked).

Definition record_blocks (blocks : AccountBlockOutcomes) (x : AccountBlockOutcomes * St) : AccountBlockOutcomes * St :=
  foldl (fun x b => record_block x.1 b.1 b.2 x.2) x blocks.

(** What the sweep reads of the engine's state.  The cache of currencies is keyed
    by the account, which is always asked for with its one group. *)
Definition sweep_memberships st : list (AccountId * AccountGroupId) := memberships (es_groups st).
Definition sweep_known_accounts (funds : Owns W SpotFundsState) st : list AccountId :=
  storage_keys (ac_accounts (as_currencies (es_accounts st))) ++
  active_holdings_accounts (sf_active (own_get (es_world st))).
Definition resolve_currency st (account : AccountId) (group : option AccountGroupId) : option Asset :=
  currency_of (as_currencies (es_accounts st)) account group.

(** One account of the sweep of the changed axes. *)
Definition sweep_axes (policy : RegisteredPolicy) (x : AccountBlockOutcomes * St) (change : AccountId * AxisChange) :
    AccountBlockOutcomes * St :=
  let '(account, change) := change in
  let '(blocks, st) :=
    rp_configuration policy
      (CheckSpotFundsPnlAxes account (ax_group change) (ax_currency change) (ax_barriers change)) x.2 in
  record_blocks ((fun block => (account, block)) <$> blocks) (x.1, st).

(** A [BTreeMap]'s entries. *)
Definition in_account_order (changes : gmap AccountId AxisChange) : list (AccountId * AxisChange) :=
  omap (fun account => (fun change => (account, change)) <$> changes !! account) (in_order (dom changes)).

(** The closure [observe]. *)
Definition barrier_sweep (funds : Owns W SpotFundsState) (policy : RegisteredPolicy)
    (previous current : SpotFundsSettings) st : AccountBlockOutcomes * St :=
  let memberships := sweep_memberships st in
  let known_accounts := sweep_known_accounts funds st in
  let s := own_get (es_world st) in
  let blocks := account_pnl_barrier_change_blocks s previous current memberships known_accounts (resolve_currency st) in
  let realized_blocks : gset AccountId := list_to_set blocks.*1 in
  let x := record_blocks blocks ([], st) in
  let changes :=
    pnl_axis_barrier_changes s previous current memberships known_accounts (resolve_currency st) realized_blocks in
  foldl (sweep_axes policy) x (in_account_order changes).

(** [PreparedTransition::publish] with the sweep as its observer. *)
Definition publish_transition (funds : Owns W SpotFundsState) (policy : RegisteredPolicy)
    (prepared : PreparedTransition) st : AccountBlockOutcomes * St :=
  let st := with_world st (own_set (set_settings (own_get (es_world st)) (pt_current prepared)) (es_world st)) in
  barrier_sweep funds policy (pt_previous prepared) (pt_current prepared) st.

(** [meanwhile] is what the state writers in flight do between the update closure
    and the state transition; the transition mutex keeps the settings theirs. *)
Definition configure_spot_funds (meanwhile : St -> St) engine name (f : Update SpotFundsSettings) st :
    result ConfigureError AccountBlockOutcomes * St :=
  match registry_entry engine name with
  | Err e => (Err e, st)
  | Ok (CE_SpotFunds funds) =>
      match find_policy engine name with
      | Err e => (Err e, st)
      | Ok policy =>
          match validation name (prepare_serialized_transition funds f st) with
          | Err e => (Err e, st)
          | Ok prepared =>
              let '(account_blocks, st) := publish_transition funds policy prepared (meanwhile st) in
              (Ok account_blocks, st)
          end
      end
  | Ok entry => (type_mismatch SpotFundsKind name entry, st)
  end.

End Updates.

(** [Configurator::set_spot_funds_account_pnl]. *)
Definition configure_spot_funds_account_pnl engine name (account : AccountId) (state : PnlState) st :
    result ConfigureError (list AccountBlock) * St :=
  match registry_entry engine name with
  | Err e => (Err e, st)
  | Ok (CE_SpotFunds funds) =>
      match find_policy engine name with
      | Err e => (Err e, st)
      | Ok policy =>
          let group := group_of (es_groups st) account in
          let '(blocks, st) :=
            rp_configuration policy
              (SetSpotFundsAccountPnl account group (resolve_currency st account group) state) st in
          (Ok blocks, set_blocked st (block_all_of (es_blocked st) account blocks))
      end
  | Ok entry => (type_mismatch SpotFundsKind name entry, st)
  end.

End Configure.

(** ** The built-in policies and their registry entries *)
Section BuiltIn.
Context {D : DecimalOps} {F : DecimalFormat} {G : DecimalDebug} {W Order Report Adjustment : Type}.
Context {HI : HasInstrument Order} {HS : HasSide Order} {HA : HasTradeAmount Order} {HP : HasOrderPrice Order}.
Context {RA : HasAccountId Report} {RI : HasInstrument Report} {RS : HasSide Report} {RP : HasPnl Report}
  {RFee : HasFee Report} {RT : HasExecutionReportLastTrade Report} {RF : HasExecutionReportFillFee Report}
  {RQ : HasRemainingReservedQuantity Report} {RE : HasExecutionReportIsFinal Report} {RL : HasPreTradeLock Report}.
Context {HF : HasAdjustmentFields Adjustment}.
Abbreviation Registered := (RegisteredPolicy (W:=W) (Order:=Order) (Report:=Report) (Adjustment:=Adjustment)).

Definition registered_rate_limit {O : Owns W RateLimitState} (clock : Z) (self : RateLimitPolicy) : Registered :=
  mkRegistered (rate_limit_policy clock self) (Some (CE_RateLimit O)) (fun _ st => ([], st)).

Definition registered_pnl_killswitch {O : Owns W KillSwitchState} (reads : nat) (group : PolicyGroupId) : Registered :=
  mkRegistered (pnl_killswitch_policy reads group) (Some (CE_PnlBoundsKillSwitch O)) (fun _ st => ([], st)).

Definition registered_order_size_limit {O : Owns W OrderSizeLimitSettings} (self : OrderSizeLimitPolicy) : Registered :=
  mkRegistered (order_size_limit_policy self) (Some (CE_OrderSizeLimit O)) (fun _ st => ([], st)).

Definition registered_spot_funds {O : Owns W SpotFundsState} {M : MarketDataSource W} {LW : LeaseWaits W} (reads : nat)
    (self : SpotFundsPolicy) : Registered :=
  mkRegistered (spot_funds_policy reads self) (Some (CE_SpotFunds O)) (apply_runtime_configuration self).

End BuiltIn.
