(* ===== verification/FfiErrors.v ===== *)
(** * FfiErrors: the error objects of the engine's C interface

    src/crates/openpit-ffi/src/engine.rs, with the texts of core/account_groups.rs,
    core/account_control.rs and core/account_retirement.rs.  A getter asserts its
    pointers: it answers [None] where an assertion fails. *)
From S2P Require Import Prelude.
From S2P Require Import Decimal.
From S2P Require Import Identifiers.
From S2P Require Import Reject.
From S2P Require Import AccountControl.
From S2P Require Import Lock.
From S2P Require Import Policy.
From S2P Require Import Engine.
From S2P Require Import Ffi.
From S2P Require Import FfiOutcomes.
From S2P Require Import Configure.
Open Scope Z_scope.

(** A getter that answers whether it wrote, and what. *)
Definition get_into {E T} (err : option E) (out_null : bool) (field : E -> option T) : option (bool * option T) :=
  match err with
  | None => None
  | Some err => if out_null then None else Some (bool_decide (is_Some (field err)), field err)
  end.

(** ** Building an engine *)

Inductive OpenPitEngineBuildErrorCode : Set := Build_DuplicatePolicyName | Build_DuplicatePolicyGroupId | Build_Other.

Record OpenPitEngineBuildError : Set := mkWireBuildError {
  wbe_code : OpenPitEngineBuildErrorCode;
  wbe_policy_name : string;
  wbe_policy_group_id : Z
}.

(** The core has no variant but these two. *)
Definition build_error_new (err : EngineBuildError) : OpenPitEngineBuildError :=
  match err with
  | DuplicatePolicyName name => mkWireBuildError Build_DuplicatePolicyName name 0
  | DuplicatePolicyGroupId policy_group_id =>
      mkWireBuildError Build_DuplicatePolicyGroupId "" (policy_group_value policy_group_id)
  end.

Definition openpit_engine_build_error_get_code (e : option OpenPitEngineBuildError) := wbe_code <$> e.
Definition openpit_engine_build_error_get_policy_name (e : option OpenPitEngineBuildError) :=
  (fun e => view_from_utf8 (wbe_policy_name e)) <$> e.
Definition openpit_engine_build_error_get_policy_group_id (e : option OpenPitEngineBuildError) :=
  wbe_policy_group_id <$> e.

(** ** Account adjustments *)

Inductive OpenPitAccountAdjustmentApplyStatus : Set := Apply_Error | Apply_Applied | Apply_Rejected.

Record OpenPitAccountAdjustmentBatchError : Type := mkWireBatchError {
  wae_rejects : RejectList;
  wae_failed_adjustment_index : nat
}.

Definition batch_error_new {D : DecimalOps} (err : AccountAdjustmentBatchError) : OpenPitAccountAdjustmentBatchError :=
  mkWireBatchError (rejects_to_list_owned (abe_rejects err)) (abe_failed_adjustment_index err).

Definition openpit_account_adjustment_batch_error_get_failed_adjustment_index
    (e : option OpenPitAccountAdjustmentBatchError) := wae_failed_adjustment_index <$> e.
Definition openpit_account_adjustment_batch_error_get_rejects
    (e : option OpenPitAccountAdjustmentBatchError) := wae_rejects <$> e.

(** ** Account retirement *)

Definition AccountRetirementError_fmt (e : AccountRetirementError) : string :=
  match e with
  | Refused _ => "account retirement refused by one or more policies"
  | FinalizerFailed => "account retirement finalizer failed"
  end.

Inductive OpenPitAccountRetirementErrorKind : Set := Retirement_Refused | Retirement_FinalizerFailed.
Inductive OpenPitAccountRetirementRefusalKind : Set :=
| Refusal_ConfigurationReferencesAccount | Refusal_NonZeroState | Refusal_OperationInProgress | Refusal_EvaluationFailed.

Record WireRefusal : Set := mkWireRefusal { wpr_policy : string; wpr_refusal : OpenPitAccountRetirementRefusalKind }.

Record OpenPitAccountRetirementError : Set := mkWireRetirementError {
  wre_refusals : list WireRefusal;
  wre_message : string;
  wre_kind : OpenPitAccountRetirementErrorKind
}.

(** The core has no variant the export does not know. *)
Definition export_account_retirement_refusal_kind (refusal : AccountRetirementRefusal) :
    OpenPitAccountRetirementRefusalKind :=
  match refusal with
  | ConfigurationReferencesAccount => Refusal_ConfigurationReferencesAccount
  | NonZeroState => Refusal_NonZeroState
  | OperationInProgress => Refusal_OperationInProgress
  | EvaluationFailed => Refusal_EvaluationFailed
  end.

Definition retirement_error_new (err : AccountRetirementError) : OpenPitAccountRetirementError :=
  let message := AccountRetirementError_fmt err in
  match err with
  | Refused refusals =>
      mkWireRetirementError
        ((fun r => mkWireRefusal (pr_policy r) (export_account_retirement_refusal_kind (pr_refusal r))) <$> refusals)
        message Retirement_Refused
  | FinalizerFailed => mkWireRetirementError [] message Retirement_FinalizerFailed
  end.

Definition openpit_account_retirement_error_get_kind (e : option OpenPitAccountRetirementError) := wre_kind <$> e.
Definition openpit_account_retirement_error_get_message (e : option OpenPitAccountRetirementError) :=
  (fun e => view_from_utf8 (wre_message e)) <$> e.
Definition openpit_account_retirement_error_get_refusal_count (e : option OpenPitAccountRetirementError) :=
  (fun e => length (wre_refusals e)) <$> e.
Definition openpit_account_retirement_error_get_refusal_policy_name (e : option OpenPitAccountRetirementError)
    (index : nat) (out_null : bool) :=
  get_into e out_null (fun e => (fun r => view_from_utf8 (wpr_policy r)) <$> wre_refusals e !! index).
Definition openpit_account_retirement_error_get_refusal_kind (e : option OpenPitAccountRetirementError)
    (index : nat) (out_null : bool) :=
  get_into e out_null (fun e => wpr_refusal <$> wre_refusals e !! index).

(** ** Account groups *)

Definition AccountGroupError_fmt (e : AccountGroupError) : string :=
  match e with
  | AG_ReservedGroup => "the reserved default account group is not a valid target"
  | AG_AlreadyRegistered _ _ => "account is already registered in a different group"
  | AG_NotInGroup _ _ (Some _) => "account is not in the requested group; it belongs to a different group"
  | AG_NotInGroup _ _ None => "account is not in the requested group; it belongs to no group"
  end.

Record OpenPitAccountGroupError : Set := mkWireGroupError {
  wge_message : string;
  wge_account : AccountId;
  wge_current_group : Z;
  wge_current_group_is_set : bool
}.

Definition group_error_new (err : AccountGroupError) : OpenPitAccountGroupError :=
  let message := AccountGroupError_fmt err in
  match err with
  | AG_AlreadyRegistered account current_group => mkWireGroupError message account (group_as_u32 current_group) true
  | AG_NotInGroup account _ current_group =>
      mkWireGroupError message account (from_option group_as_u32 0 current_group) (bool_decide (is_Some current_group))
  | AG_ReservedGroup => mkWireGroupError message (mkAccountId 0) 0 false
  end.

Definition openpit_account_group_error_get_message (e : option OpenPitAccountGroupError) :=
  (fun e => view_from_utf8 (wge_message e)) <$> e.
Definition openpit_account_group_error_get_account (e : option OpenPitAccountGroupError) :=
  (fun e => account_as_u64 (wge_account e)) <$> e.
Definition openpit_account_group_error_get_current_group (e : option OpenPitAccountGroupError) (out_null : bool) :=
  get_into e out_null (fun e => if wge_current_group_is_set e then Some (wge_current_group e) else None).

(** ** Account blocks *)

Definition AccountBlockError_fmt (e : AccountBlockError) : string :=
  match e with
  | AB_ReservedGroup => "the reserved default account group is not a valid target"
  | AB_AccountNotBlocked _ => "account is not blocked"
  | AB_GroupNotBlocked _ => "account group is not blocked"
  end.

Record OpenPitAccountBlockError : Set := mkWireBlockError {
  wke_message : string;
  wke_account : Z;
  wke_account_is_set : bool;
  wke_group : Z;
  wke_group_is_set : bool
}.

Definition block_error_new (err : AccountBlockError) : OpenPitAccountBlockError :=
  let message := AccountBlockError_fmt err in
  match err with
  | AB_AccountNotBlocked account => mkWireBlockError message (account_as_u64 account) true 0 false
  | AB_GroupNotBlocked group => mkWireBlockError message 0 false (group_as_u32 group) true
  | AB_ReservedGroup => mkWireBlockError message 0 false 0 false
  end.

Definition block_error_message (message : string) : OpenPitAccountBlockError :=
  mkWireBlockError message 0 false 0 false.

(** [write_account_block_error] and the writes of the other objects. *)
Definition write_object {E} (out_null : bool) (err : E) : option E := if out_null then None else Some err.

Inductive OpenPitAccountBlockErrorKind : Set := BlockKind_ReservedGroup | BlockKind_AccountNotBlocked | BlockKind_GroupNotBlocked.

Definition openpit_account_block_error_get_message (e : option OpenPitAccountBlockError) :=
  (fun e => view_from_utf8 (wke_message e)) <$> e.
Definition openpit_account_block_error_get_kind (e : option OpenPitAccountBlockError) :=
  (fun e => if wke_account_is_set e then BlockKind_AccountNotBlocked
            else if wke_group_is_set e then BlockKind_GroupNotBlocked
            else BlockKind_ReservedGroup) <$> e.
Definition openpit_account_block_error_get_account (e : option OpenPitAccountBlockError) (out_null : bool) :=
  get_into e out_null (fun e => if wke_account_is_set e then Some (wke_account e) else None).
Definition openpit_account_block_error_get_group (e : option OpenPitAccountBlockError) (out_null : bool) :=
  get_into e out_null (fun e => if wke_group_is_set e then Some (wke_group e) else None).

(** ** Configuration *)

Inductive OpenPitConfigureErrorKind : Set := Configure_Unknown | Configure_TypeMismatch | Configure_Validation.

Record OpenPitConfigureError : Set := mkWireConfigureError {
  wce_message : string;
  wce_kind : OpenPitConfigureErrorKind
}.

Definition configure_error_new (err : ConfigureError) : OpenPitConfigureError :=
  mkWireConfigureError (ConfigureError_fmt err)
    match err with
    | UnknownPolicy _ => Configure_Unknown
    | PolicyTypeMismatch _ _ _ => Configure_TypeMismatch
    | Validation _ _ => Configure_Validation
    end.

Definition configure_validation (message : string) : OpenPitConfigureError :=
  mkWireConfigureError message Configure_Validation.

Definition openpit_configure_error_get_message (e : option OpenPitConfigureError) :=
  (fun e => view_from_utf8 (wce_message e)) <$> e.
Definition openpit_configure_error_get_kind (e : option OpenPitConfigureError) := wce_kind <$> e.
