(* ===== verification/FfiPolicy.v ===== *)
(** * FfiPolicy: policies written behind C callbacks

    src/crates/openpit-ffi/src/policy/mod.rs, policy/custom.rs and
    account_control.rs.  A callback is a state transformer over what it is given:
    its user data is part of the world, the handles it receives are the values it
    may pass to the C functions of this file and of FfiOutcomes, and
    it returns the values they left. *)
From stdpp Require Import pretty.
From S2P Require Import Prelude.
From S2P Require Import Decimal.
From S2P Require Import Param.
From S2P Require Import ParamTypes.
From S2P Require Import Identifiers.
From S2P Require Import Utf8.
From S2P Require Import Mutation.
From S2P Require Import Reject.
From S2P Require Import AccountControl.
From S2P Require Import Accounts.
From S2P Require Import Lock.
From S2P Require Import Policy.
From S2P Require Import Ffi.
From S2P Require Import FfiParam.
From S2P Require Import FfiOutcomes.
From S2P Require Import Interop.
From S2P Require Import FfiRequests.
From S2P Require Import FfiErrors.
Open Scope Z_scope.

(** ** Arguments *)

Definition cstr_arg (ptr : OpenPitStringView) : option ustr :=
  bytes ← sv_ptr ptr;
  result_ok (from_utf8 (from_raw_parts bytes (sv_len ptr))).

(** The elements a pointer shows; [Err] is what was written instead. *)
Definition try_slice_arg {A} (p : Places) (ptr : option (list A)) (len : nat) (label : string) :
    result (option string) (list A) :=
  match len, ptr with
  | O, _ => Ok []
  | S _, None => Err (write_error p (label +:+ " is null"))
  | S _, Some items => Ok (take len items)
  end.

(** Where an element stands, in a message. *)
Definition element_label (label : string) (index : nat) (field : string) : string :=
  label +:+ "[" +:+ pretty index +:+ "] " +:+ field.

(** The two readings of an element's asset differ in the error they build. *)
Definition asset_arg (value : OpenPitStringView) (label : string) (index : nat) (field : string) : result string Asset :=
  raw ← ok_or (cstr_arg value) (element_label label index field +:+ " is not set");
  map_err (fun e => element_label label index field +:+ " is invalid: " +:+ AssetError_fmt e) (asset_new raw).

Definition parse_asset_or_error (p : Places) (value : OpenPitStringView) (label : string) (index : nat) (field : string) :
    result (option string) Asset :=
  map_err (write_error p) (asset_arg value label index field).

Definition parse_configure_asset (value : OpenPitStringView) (label : string) (index : nat) (field : string) :
    result OpenPitConfigureError Asset :=
  map_err configure_validation (asset_arg value label index field).

Section Optional.
Context {D : DecimalOps} {DW : DecimalWire} {DF : DecimalFormat} {T : Type} {P : ParamDomain T}.

(** [define_parse_optional_or_error!] and [define_parse_optional_without_index_or_error!]. *)
Definition parse_optional_or_error (p : Places) (bound : Optional (OpenPitParam T)) (label : string) (index : nat)
    (field : string) : result (option string) (option T) :=
  if negb (opt_is_set bound) then Ok None
  else map_err (fun e => write_error p (element_label label index field +:+ " is invalid: " +:+ e))
         (Some <$> to_param (opt_value bound)).

Definition parse_optional_without_index_or_error (p : Places) (bound : Optional (OpenPitParam T)) (label : string)
    (field : string) : result (option string) (option T) :=
  if negb (opt_is_set bound) then Ok None
  else map_err (fun e => write_error p (label +:+ " " +:+ field +:+ " is invalid: " +:+ e))
         (Some <$> to_param (opt_value bound)).
End Optional.

Section FfiPolicy.
Context {D : DecimalOps} {DW : DecimalWire} {DF : DecimalFormat} {W Payload : Type}.

Abbreviation St := (EngineState W).
Abbreviation PRejects := (Rejects PolicyPreTradeResult).
Abbreviation FfiOrder := (RequestWithPayload InteropOrder Payload).
Abbreviation FfiReport := (RequestWithPayload InteropExecutionReport Payload).
Abbreviation FfiAdjustment := (RequestWithPayload InteropAccountAdjustment Payload).
Abbreviation UnifiedPreTradePolicy := (PreTradePolicy W FfiOrder FfiReport FfiAdjustment).
Implicit Types (st : St) (s : HookState W) (ctx : PreTradeContext) (p : Places) (mutations : Mutations St).

(** ** Mutations *)

(** Whether the callback succeeded, and the string it left for its error. *)
Definition OpenPitMutationFn : Type := St -> bool * SharedString * St.
Definition OpenPitMutationFreeFn : Type := St -> St.

Definition call (callback : OpenPitMutationFn) (fallback : string) st : result string unit * St :=
  let '(succeeded, details, st) := callback st in
  (if succeeded : bool then Ok tt else Err (default fallback details), st).

(** The guard both closures share is dropped with the later one, when the mutation
    is dropped; without a destructor its drop does nothing. *)
Definition FfiMutationGuard_drop (free_fn : option OpenPitMutationFreeFn) : St -> St := default id free_fn.

Definition mutation_from_ffi_callbacks (commit_fn rollback_fn : OpenPitMutationFn)
    (free_fn : option OpenPitMutationFreeFn) : Mutation St :=
  with_guard
    (new_fallible_with_error
       (call commit_fn "mutation commit callback failed without error details")
       (call rollback_fn "mutation rollback callback failed without error details"))
    (FfiMutationGuard_drop free_fn).

(** A handle to the collector, or null, or a handle without one. *)
Definition OpenPitMutations : Type := option (option (Mutations St)).

Definition openpit_mutations_push p (handle : OpenPitMutations) (commit_fn rollback_fn : OpenPitMutationFn)
    (free_fn : option OpenPitMutationFreeFn) : Push (option (Mutations St)) :=
  match handle with
  | None => mkPush false None (write_error p "openpit_mutations_push: mutations is null")
  | Some None => mkPush false (Some None) (write_error p "openpit_mutations_push: inner mutations is null")
  | Some (Some raw_mutations) =>
      mkPush true
        (Some (Some (mutations_push raw_mutations (mutation_from_ffi_callbacks commit_fn rollback_fn free_fn)))) None
  end.

(** ** Account control *)

(** The account a control is bound to, and whether its context defers. *)
Record AccountControlHandle : Set := mkControlHandle { ctl_account : AccountId; ctl_deferred : bool }.
Definition OpenPitAccountControl : Type := option AccountControlHandle.

(** On the deferred operations the control shares and the engine's state. *)
Definition openpit_account_control_block (control : OpenPitAccountControl) (block : OpenPitPretradeAccountBlock)
    (operations : DeferredAccountOperations) st : DeferredAccountOperations * St :=
  match control with
  | None => (operations, st)
  | Some control =>
      let '(d, b) := control_block (if ctl_deferred control then Some operations else None) (es_blocked st)
                       (ctl_account control) (to_block block) in
      (default operations d, set_blocked st b)
  end.

Definition openpit_account_control_clone (control : OpenPitAccountControl) : OpenPitAccountControl := control.

Definition openpit_pretrade_context_get_account_control (c : option PreTradeContext) : OpenPitAccountControl :=
  ctx ← c;
  account ← known_account ctx;
  Some (mkControlHandle account (is_drop_copy ctx)).

Definition openpit_account_adjustment_context_get_account_control (c : option AccountAdjustmentContext) :
    OpenPitAccountControl :=
  x ← c; Some (mkControlHandle (aac_account x) false).

Definition openpit_pretrade_context_is_drop_copy (c : option PreTradeContext) : bool :=
  match c with None => false | Some ctx => is_drop_copy ctx end.

Definition openpit_pretrade_context_record_drop_copy_start_mutation p (c : option PreTradeContext)
    (commit_fn rollback_fn : OpenPitMutationFn) (free_fn : option OpenPitMutationFreeFn) s :
    bool * option string * HookState W :=
  match c with
  | None =>
      (false,
       write_error p "openpit_pretrade_context_record_drop_copy_start_mutation: context is null", s)
  | Some ctx =>
      match record_drop_copy_start_mutation ctx (mutation_from_ffi_callbacks commit_fn rollback_fn free_fn) s with
      | (Ok _, s) => (true, None, s)
      | (Err _, s) => (false, write_error p "pre-trade context is not an active drop-copy operation", s)
      end
  end.

(** The answer of a group getter: whether there is one, and what was written;
    [None] where the output pointer is asserted. *)
Definition group_answer (group : option AccountGroupId) : bool * option Z :=
  (bool_decide (is_Some group), group_as_u32 <$> group).

Definition openpit_pretrade_context_get_account_group (c : option PreTradeContext) (out_null : bool) s :
    option ((bool * option Z) * HookState W) :=
  match c with
  | None => Some (group_answer None, s)
  | Some ctx =>
      if out_null then None
      else let '(group, s) := account_group ctx s in Some (group_answer group, s)
  end.

(** The two contexts that hold a group cell only. *)
Definition get_cell_group (account : option (option AccountId)) (out_null : bool) (s : GroupCell * St) :
    option ((bool * option Z) * (GroupCell * St)) :=
  match account with
  | None => Some (group_answer None, s)
  | Some account =>
      if out_null then None
      else let '(group, cell) := group_lookup account s.1 s.2 in Some (group_answer group, (cell, s.2))
  end.
Definition openpit_account_adjustment_context_get_account_group (c : option AccountAdjustmentContext) :=
  get_cell_group ((fun x => Some (aac_account x)) <$> c).
Definition openpit_post_trade_context_get_account_group (c : option PostTradeContext) :=
  get_cell_group (pstc_account <$> c).

(** ** Callbacks *)

Definition CheckPreTradeStartFn : Type :=
  PreTradeContext -> OpenPitOrder Payload -> HookState W -> RejectList * HookState W.
Definition PerformPreTradeCheckFn : Type :=
  PreTradeContext -> OpenPitOrder Payload -> Mutations St -> OpenPitPretradePreTradeResult -> HookState W ->
  RejectList * Mutations St * OpenPitPretradePreTradeResult * HookState W.
(** The returned list of blocks may be null. *)
Definition ApplyExecutionReportFn : Type :=
  PostTradeContext -> OpenPitExecutionReport Payload -> list AccountAdjustmentOutcome -> list AccountPnlOutcome ->
  GroupCell * St ->
  option (list AccountBlock) * list AccountAdjustmentOutcome * list AccountPnlOutcome * (GroupCell * St).
Definition ApplyAccountAdjustmentFn : Type :=
  AccountAdjustmentContext -> Z -> OpenPitAccountAdjustment Payload -> Mutations St ->
  OpenPitPretradeAccountAdjustmentResult -> GroupCell * St ->
  RejectList * Mutations St * OpenPitPretradeAccountAdjustmentResult * (GroupCell * St).
(** The decision is the byte returned. *)
Definition RetireAccountFn : Type := Z -> Mutations St -> St -> Z * Mutations St * St.
Definition FreeUserDataFn : Type := St -> St.

Inductive RetireAccountDecision : Set :=
| Decision_Accept | Decision_ConfigurationReferencesAccount | Decision_NonZeroState | Decision_OperationInProgress
| Decision_EvaluationFailed.

Definition decision_u8 (d : RetireAccountDecision) : Z :=
  match d with
  | Decision_Accept => 0
  | Decision_ConfigurationReferencesAccount => 1
  | Decision_NonZeroState => 2
  | Decision_OperationInProgress => 3
  | Decision_EvaluationFailed => 4
  end.

Record CustomPreTradePolicy : Type := mkCustomPreTradePolicy {
  cp_name : string;
  cp_policy_group_id : PolicyGroupId;
  check_pre_trade_start_fn : option CheckPreTradeStartFn;
  perform_pre_trade_check_fn : option PerformPreTradeCheckFn;
  check_pre_trade_start_dry_run_fn : option CheckPreTradeStartFn;
  perform_pre_trade_check_dry_run_fn : option PerformPreTradeCheckFn;
  apply_execution_report_fn : option ApplyExecutionReportFn;
  apply_account_adjustment_fn : option ApplyAccountAdjustmentFn;
  retire_account_fn : option RetireAccountFn;
  free_user_data_fn : FreeUserDataFn
}.

Definition callback_failed_reject : Reject :=
  reject_new "openpit.callback" RS_Order RC_SystemUnavailable "custom policy callback failed"
    "callback returned no result".

Definition import_reject_list_result (rejects : RejectList) : result PRejects unit :=
  match rejects with
  | RL_Null => Err (rejects_from_reject callback_failed_reject)
  | RL_Accepted => Ok tt
  | RL_Owned [] => Ok tt
  | RL_Owned items => Err (rejects_new items)
  end.

(** An empty result is none. *)
Definition collected_result (out : OpenPitPretradePreTradeResult) : option PolicyPreTradeResult :=
  match ptr_lock_prices out, FfiOutcomes.ptr_account_adjustments out with
  | [], [] => None
  | lock_prices, account_adjustments => Some (mkPolicyPreTradeResult account_adjustments lock_prices)
  end.

Implicit Types (self : CustomPreTradePolicy).

Definition custom_check_pre_trade_start self ctx (order : FfiOrder) s : result PRejects unit * HookState W :=
  match check_pre_trade_start_fn self with
  | None => (Ok tt, s)
  | Some check_fn => let '(rejects, s) := check_fn ctx (export_order order) s in (import_reject_list_result rejects, s)
  end.

Definition custom_perform_pre_trade_check self ctx (order : FfiOrder) mutations s :
    result PRejects (option PolicyPreTradeResult) * Mutations St * HookState W :=
  match perform_pre_trade_check_fn self with
  | None => (Ok None, mutations, s)
  | Some check_fn =>
      let '(rejects, mutations, out_result, s) :=
        check_fn ctx (export_order order) mutations (mkPreTradeResult [] []) s in
      let result := collected_result out_result in
      (match import_reject_list_result rejects with
       | Ok _ => Ok result
       | Err rejects => Err match result with Some result => with_policy_result rejects result | None => rejects end
       end, mutations, s)
  end.

Definition custom_check_pre_trade_start_dry_run self ctx (order : FfiOrder) s : result PRejects unit * HookState W :=
  match check_pre_trade_start_dry_run_fn self with
  | None => custom_check_pre_trade_start self ctx order s
  | Some check_fn => let '(rejects, s) := check_fn ctx (export_order order) s in (import_reject_list_result rejects, s)
  end.

Definition custom_perform_pre_trade_check_dry_run self ctx (order : FfiOrder) mutations s :
    result PRejects (option PolicyPreTradeResult) * Mutations St * HookState W :=
  match perform_pre_trade_check_dry_run_fn self with
  | None => custom_perform_pre_trade_check self ctx order mutations s
  | Some check_fn =>
      let '(rejects, mutations, out_result, s) :=
        check_fn ctx (export_order order) mutations (mkPreTradeResult [] []) s in
      (match import_reject_list_result rejects with Err rejects => Err rejects | Ok _ => Ok (collected_result out_result) end,
       mutations, s)
  end.

Definition custom_apply_execution_report self (ctx : PostTradeContext) (report : FfiReport) (s : GroupCell * St) :
    option PostTradeResult * (GroupCell * St) :=
  match apply_execution_report_fn self with
  | None => (None, s)
  | Some apply_fn =>
      let '(raw, account_adjustments, account_pnls, s) := apply_fn ctx (export_execution_report report) [] [] s in
      let account_blocks := default [] raw in
      (match account_blocks, account_adjustments, account_pnls with
       | [], [], [] => None
       | _, _, _ => Some (mkPostTradeResult account_blocks account_pnls account_adjustments)
       end, s)
  end.

Definition custom_apply_account_adjustment self (ctx : AccountAdjustmentContext) (account : AccountId)
    (adjustment : FfiAdjustment) mutations (s : GroupCell * St) :
    result PRejects PolicyAccountAdjustmentResult * Mutations St * (GroupCell * St) :=
  match apply_account_adjustment_fn self with
  | None => (Ok (mkPolicyAccountAdjustmentResult [] []), mutations, s)
  | Some apply_fn =>
      let '(rejects, mutations, out_result, s) :=
        apply_fn ctx (account_as_u64 account) (export_account_adjustment adjustment) mutations
          OpenPitPretradeAccountAdjustmentResult_default s in
      (match import_reject_list_result rejects with
       | Err rejects => Err rejects
       | Ok _ => Ok (mkPolicyAccountAdjustmentResult (par_account_outcomes out_result) (par_account_blocks out_result))
       end, mutations, s)
  end.

(** The answer to the decision's byte; one that is none of them counts as failed. *)
Definition import_retire_decision (decision : Z) : result AccountRetirementRefusal unit :=
  if decision =? decision_u8 Decision_Accept then Ok tt
  else if decision =? decision_u8 Decision_ConfigurationReferencesAccount then Err ConfigurationReferencesAccount
  else if decision =? decision_u8 Decision_NonZeroState then Err NonZeroState
  else if decision =? decision_u8 Decision_OperationInProgress then Err OperationInProgress
  else Err EvaluationFailed.

Definition custom_retire_account self (account : AccountId) mutations st :
    result AccountRetirementRefusal unit * Mutations St * St :=
  match retire_account_fn self with
  | None => (Ok tt, mutations, st)
  | Some retire_fn =>
      let '(decision, mutations, st) := retire_fn (account_as_u64 account) mutations st in
      (import_retire_decision decision, mutations, st)
  end.

(** The trait object of a policy, and the wrapper the builder stores. *)
Definition unified_policy self : UnifiedPreTradePolicy := {|
  pol_name := cp_name self;
  policy_group_id := cp_policy_group_id self;
  check_pre_trade_start := custom_check_pre_trade_start self;
  check_pre_trade_start_dry_run := custom_check_pre_trade_start_dry_run self;
  perform_pre_trade_check := custom_perform_pre_trade_check self;
  perform_pre_trade_check_dry_run := custom_perform_pre_trade_check_dry_run self;
  pol_apply_execution_report := custom_apply_execution_report self;
  pol_apply_account_adjustment := custom_apply_account_adjustment self;
  pol_retire_account := custom_retire_account self
|}.

Definition DynPreTradePolicy (inner : UnifiedPreTradePolicy) : UnifiedPreTradePolicy := {|
  pol_name := pol_name inner;
  policy_group_id := policy_group_id inner;
  check_pre_trade_start := check_pre_trade_start inner;
  check_pre_trade_start_dry_run := check_pre_trade_start_dry_run inner;
  perform_pre_trade_check := perform_pre_trade_check inner;
  perform_pre_trade_check_dry_run := perform_pre_trade_check_dry_run inner;
  pol_apply_execution_report := pol_apply_execution_report inner;
  pol_apply_account_adjustment := pol_apply_account_adjustment inner;
  pol_retire_account := pol_retire_account inner
|}.

(** What dropping the last handle to a policy does. *)
Definition custom_drop self st : St := free_user_data_fn self st.

(** ** Construction *)

(** A pointer to a shared policy. *)
Definition OpenPitPretradePreTradePolicy : Type := option UnifiedPreTradePolicy.

Definition parse_policy_name p (name_ptr : OpenPitStringView) : result (option string) string :=
  match sv_ptr name_ptr with
  | None => Err (write_error p "policy name is null")
  | Some bytes =>
      match from_utf8 (from_raw_parts bytes (sv_len name_ptr)) with
      | Err _ => Err (write_error p "policy name is not valid string")
      | Ok [] => Err (write_error p "policy name is empty")
      | Ok value => Ok (string_of_ustr value)
      end
  end.

Record CustomPreTradeCallbacks : Type := mkCallbacks {
  cb_check_pre_trade_start_fn : option CheckPreTradeStartFn;
  cb_perform_pre_trade_check_fn : option PerformPreTradeCheckFn;
  cb_check_pre_trade_start_dry_run_fn : option CheckPreTradeStartFn;
  cb_perform_pre_trade_check_dry_run_fn : option PerformPreTradeCheckFn;
  cb_apply_execution_report_fn : option ApplyExecutionReportFn;
  cb_apply_account_adjustment_fn : option ApplyAccountAdjustmentFn;
  cb_retire_account_fn : option RetireAccountFn
}.

(** The policy, or the error written. *)
Definition build_custom_pre_trade_policy p (name : OpenPitStringView) (group_id : Z)
    (callbacks : CustomPreTradeCallbacks) (free_fn : FreeUserDataFn) :
    result (option string) CustomPreTradePolicy :=
  name ← parse_policy_name p name;
  Ok {| cp_name := name;
        cp_policy_group_id := mkPolicyGroupId group_id;
        check_pre_trade_start_fn := cb_check_pre_trade_start_fn callbacks;
        perform_pre_trade_check_fn := cb_perform_pre_trade_check_fn callbacks;
        check_pre_trade_start_dry_run_fn := cb_check_pre_trade_start_dry_run_fn callbacks;
        perform_pre_trade_check_dry_run_fn := cb_perform_pre_trade_check_dry_run_fn callbacks;
        apply_execution_report_fn := cb_apply_execution_report_fn callbacks;
        apply_account_adjustment_fn := cb_apply_account_adjustment_fn callbacks;
        retire_account_fn := cb_retire_account_fn callbacks;
        free_user_data_fn := free_fn |}.

Definition openpit_create_pretrade_custom_pre_trade_policy p (name : OpenPitStringView) (group_id : Z)
    (start_fn : option CheckPreTradeStartFn) (perform_fn : option PerformPreTradeCheckFn)
    (report_fn : option ApplyExecutionReportFn) (adjustment_fn : option ApplyAccountAdjustmentFn)
    (retire_fn : option RetireAccountFn) (free_fn : FreeUserDataFn) :
    result (option string) CustomPreTradePolicy :=
  build_custom_pre_trade_policy p name group_id
    (mkCallbacks start_fn perform_fn None None report_fn adjustment_fn retire_fn) free_fn.

Definition openpit_create_pretrade_custom_pre_trade_policy_with_dry_run p (name : OpenPitStringView) (group_id : Z)
    (start_fn start_dry_run_fn : option CheckPreTradeStartFn)
    (perform_fn perform_dry_run_fn : option PerformPreTradeCheckFn)
    (report_fn : option ApplyExecutionReportFn) (adjustment_fn : option ApplyAccountAdjustmentFn)
    (retire_fn : option RetireAccountFn) (free_fn : FreeUserDataFn) :
    result (option string) CustomPreTradePolicy :=
  build_custom_pre_trade_policy p name group_id
    (mkCallbacks start_fn perform_fn start_dry_run_fn perform_dry_run_fn report_fn adjustment_fn retire_fn) free_fn.

Definition openpit_pretrade_pre_trade_policy_get_name (policy : OpenPitPretradePreTradePolicy) :
    option OpenPitStringView :=
  (fun policy => view_from_utf8 (pol_name policy)) <$> policy.
End FfiPolicy.
