(* ===== verification/FfiEngine.v ===== *)
(** * FfiEngine: the engine behind a C handle

    src/crates/openpit-ffi/src/engine.rs and the builder calls of policy/mod.rs.  An
    engine handle is the engine it points to, or null, and the calls run on the
    engine's state.  A call that asserts its handle answers [None] where it aborts. *)
From stdpp Require Import pretty.
From S2P Require Import Prelude.
From S2P Require Import Decimal.
From S2P Require Import Param.
From S2P Require Import ParamTypes.
From S2P Require Import Identifiers.
From S2P Require Import Utf8.
From S2P Require Import Mutation.
From S2P Require Import Reject.
From S2P Require Import AccountControl.
From S2P Require Import Accounts.
From S2P Require Import Lock.
From S2P Require Import Policy.
From S2P Require Import Engine.
From S2P Require Import Locking.
From S2P Require Import Ffi.
From S2P Require Import FfiParam.
From S2P Require Import FfiOutcomes.
From S2P Require Import FfiLock.
From S2P Require Import SpotFundsParts.
From S2P Require Import Requests.
From S2P Require Import Interop.
From S2P Require Import FfiRequests.
From S2P Require Import Configure.
From S2P Require Import FfiErrors.
From S2P Require Import FfiPolicy.
Open Scope Z_scope.

Section FfiEngine.
Context {D : DecimalOps} {DW : DecimalWire} {DF : DecimalFormat} {G : DecimalDebug} {W Payload : Type}.

Abbreviation St := (EngineState W).
Abbreviation FfiOrder := (RequestWithPayload InteropOrder Payload).
Abbreviation FfiReport := (RequestWithPayload InteropExecutionReport Payload).
Abbreviation FfiAdjustment := (RequestWithPayload InteropAccountAdjustment Payload).
Abbreviation FfiPolicy := (PreTradePolicy W FfiOrder FfiReport FfiAdjustment).
Abbreviation FfiBuilder := (EngineBuilder (W:=W) (Order:=FfiOrder) (Report:=FfiReport) (Adjustment:=FfiAdjustment)).
Abbreviation FfiEngineInner := (EngineInner (W:=W) (Order:=FfiOrder) (Report:=FfiReport) (Adjustment:=FfiAdjustment)).
Abbreviation FfiRegistered := (RegisteredPolicy (W:=W) (Order:=FfiOrder) (Report:=FfiReport) (Adjustment:=FfiAdjustment)).
Implicit Types (st : St) (p : Places).

(** ** The builder *)

Inductive BuilderState : Type := Builder_Synced (builder : FfiBuilder) | Builder_Ready (builder : FfiBuilder).

Record OpenPitEngineBuilder : Type := mkEngineBuilder {
  ob_inner : option BuilderState;
  ob_sync_mode : RuntimeSyncMode
}.

Definition openpit_create_engine_builder p (sync_policy : Z) : option OpenPitEngineBuilder * option string :=
  match (if sync_policy =? 0 then Some RuntimeNone
         else if sync_policy =? 1 then Some RuntimeFull
         else if sync_policy =? 2 then Some RuntimeAccount
         else None) with
  | Some mode => (Some (mkEngineBuilder (Some (Builder_Synced builder_new)) mode), None)
  | None =>
      (None, write_error p ("openpit_create_engine_builder: invalid sync_policy byte " +:+ pretty sync_policy +:+
                            ", expected 0..=2"))
  end.

(** The registration needs a builder that was not consumed, which it leaves ready. *)
Definition add_pre_trade_policy_to_builder (builder : OpenPitEngineBuilder) (policy : FfiRegistered) :
    result string OpenPitEngineBuilder :=
  state ← ok_or (ob_inner builder) "engine builder is no longer available";
  let b := match state with Builder_Synced b => b | Builder_Ready b => b end in
  Ok (mkEngineBuilder (Some (Builder_Ready (pre_trade b policy))) (ob_sync_mode builder)).

(** The strategy of the storages a policy of this builder is given. *)
Definition policy_storage (builder : OpenPitEngineBuilder) : option Strategy :=
  _ ← ob_inner builder; Some (create_policy (ob_sync_mode builder)).

Definition get_policy_arc {P} (builder : option OpenPitEngineBuilder) (policy : option P) :
    result string (OpenPitEngineBuilder * P) :=
  builder ← ok_or builder "engine builder is null";
  policy ← ok_or policy "policy is null";
  Ok (builder, policy).

(** What a call on a builder answers and the builder it leaves. *)
Definition builder_call p (builder : option OpenPitEngineBuilder) (r : result string OpenPitEngineBuilder) :
    bool * option string * option OpenPitEngineBuilder :=
  match r with
  | Ok builder => (true, None, Some builder)
  | Err err => (false, write_error p err, builder)
  end.

Definition openpit_engine_builder_add_pre_trade_policy p (builder : option OpenPitEngineBuilder)
    (policy : OpenPitPretradePreTradePolicy (W:=W) (Payload:=Payload)) :
    bool * option string * option OpenPitEngineBuilder :=
  builder_call p builder
    ('(b, policy) ← get_policy_arc builder policy;
     add_pre_trade_policy_to_builder b (custom_policy (DynPreTradePolicy policy))).

(** The engine, or what was written to the two error places, and the builder. *)
Record BuildCall : Type := mkBuildCall {
  bc_engine : option FfiEngineInner;
  bc_build_error : option OpenPitEngineBuildError;
  bc_error : option string;
  bc_builder : option OpenPitEngineBuilder
}.

Definition openpit_engine_builder_build (build_error_null : bool) p (builder : option OpenPitEngineBuilder) : BuildCall :=
  match builder with
  | None => mkBuildCall None None (write_error p "engine builder is null") None
  | Some b =>
      let consumed := Some (mkEngineBuilder None (ob_sync_mode b)) in
      match ob_inner b with
      | None => mkBuildCall None None (write_error p "engine builder already consumed") builder
      | Some (Builder_Synced _) => mkBuildCall None None (write_error p "no policies registered") consumed
      | Some (Builder_Ready b) =>
          match build b with
          | Ok engine => mkBuildCall (Some engine) None None consumed
          | Err err => mkBuildCall None (write_object build_error_null (build_error_new err)) None consumed
          end
      end
  end.

(** ** The order pipeline *)

Definition OpenPitEngine : Type := option FfiEngineInner.
Implicit Types (engine : OpenPitEngine).

Definition engine_policies (inner : FfiEngineInner) : list FfiPolicy := rp_policy <$> ei_policies inner.

Definition engine_ref_or_error p engine : result (option string) FfiEngineInner :=
  ok_or engine (write_error p "engine is null").

Inductive OpenPitPretradeStatus : Set := Pretrade_Passed | Pretrade_Rejected | Pretrade_Error.

(** Which of a call's three places are null. *)
Record PretradePlaces : Set := mkPretradePlaces { pp_out_null : bool; pp_rejects_null : bool; pp_error_null : bool }.
Implicit Types (pp : PretradePlaces).

Definition pp_error pp : Places := mkPlaces (pp_out_null pp) (pp_error_null pp).

Record PretradeCall (T : Type) : Type := mkPretradeCall {
  pc_status : OpenPitPretradeStatus;
  pc_out : option T;
  pc_rejects : option RejectList;
  pc_error : option string
}.
#[global] Arguments mkPretradeCall {T}.
#[global] Arguments pc_status {T}.
#[global] Arguments pc_out {T}.
#[global] Arguments pc_rejects {T}.
#[global] Arguments pc_error {T}.

Definition pretrade_error {T} pp (msg : string) : PretradeCall T :=
  mkPretradeCall Pretrade_Error None None (write_error (pp_error pp) msg).

(** The end the calls share: a result without a place is dropped. *)
Definition pretrade_answer {T H} pp (handle : T -> H) (drop : T -> St -> St)
    (r : result (Rejects PolicyPreTradeResult) T * St) : PretradeCall H * St :=
  match r with
  | (Ok value, st) =>
      (mkPretradeCall Pretrade_Passed (if pp_out_null pp then None else Some (handle value)) None None,
       if pp_out_null pp then drop value st else st)
  | (Err rejects, st) =>
      (mkPretradeCall Pretrade_Rejected None
         (if pp_rejects_null pp then None else Some (rejects_to_list_owned rejects)) None, st)
  end.

(** The checks the calls on an order share. *)
Definition import_order_arg engine (order : option (OpenPitOrder Payload)) : result string (FfiEngineInner * FfiOrder) :=
  inner ← ok_or engine "engine is null";
  order ← ok_or order "order is null";
  order ← import_order order;
  Ok (inner, order).

Record OpenPitPretradePreTradeRequest : Type := mkRequestHandle {
  rq_inner : option (PreTradeRequest (W:=W) (Order:=FfiOrder))
}.
Record OpenPitPretradePreTradeReservation : Type := mkReservationHandle_ {
  rv_inner : PreTradeReservation (W:=W);
  rv_finalized : bool
}.
Record OpenPitPretradeDropCopyOperation : Type := mkOperationHandle {
  op_inner : DropCopyOperation (W:=W);
  op_finalized : bool
}.
Record OpenPitPretradePreTradeDryRunReport : Type := mkDryRunHandle { drh_inner : PreTradeDryRunReport }.

Definition reservation_handle_new (inner : PreTradeReservation) : OpenPitPretradePreTradeReservation :=
  mkReservationHandle_ inner false.
Definition operation_handle_new (inner : DropCopyOperation) : OpenPitPretradeDropCopyOperation :=
  mkOperationHandle inner false.

Definition openpit_engine_start_pre_trade pp engine (now : Z) (order : option (OpenPitOrder Payload)) st :
    PretradeCall OpenPitPretradePreTradeRequest * St :=
  match import_order_arg engine order with
  | Err e => (pretrade_error pp e, st)
  | Ok (inner, order) =>
      pretrade_answer pp (fun request => mkRequestHandle (Some request)) (fun _ st => st)
        (start_pre_trade (engine_policies inner) now order st)
  end.

Definition openpit_engine_execute_pre_trade pp engine (now : Z) (order : option (OpenPitOrder Payload)) st :
    PretradeCall OpenPitPretradePreTradeReservation * St :=
  match import_order_arg engine order with
  | Err e => (pretrade_error pp e, st)
  | Ok (inner, order) =>
      pretrade_answer pp reservation_handle_new reservation_drop
        (execute_pre_trade (engine_policies inner) now order st)
  end.

Definition openpit_engine_apply_drop_copy pp engine (now : Z) (order : option (OpenPitOrder Payload)) st :
    PretradeCall OpenPitPretradeDropCopyOperation * St :=
  match import_order_arg engine order with
  | Err e => (pretrade_error pp e, st)
  | Ok (inner, order) =>
      pretrade_answer pp operation_handle_new operation_drop
        (apply_drop_copy (engine_policies inner) now order st)
  end.

(** Both dry runs: a report without a place is dropped, which does nothing. *)
Definition dry_run_call p engine (order : option (OpenPitOrder Payload))
    (run : list FfiPolicy -> FfiOrder -> St -> PreTradeDryRunReport * St) st :
    Call string OpenPitPretradePreTradeDryRunReport * St :=
  match import_order_arg engine order with
  | Err e => (mkCall false None (write_error p e), st)
  | Ok (inner, order) =>
      let '(report, st) := run (engine_policies inner) order st in
      (mkCall true (if out_null p then None else Some (mkDryRunHandle report)) None, st)
  end.

Definition openpit_engine_start_pre_trade_dry_run p engine (now : Z) (order : option (OpenPitOrder Payload)) st :=
  dry_run_call p engine order (fun policies => start_pre_trade_dry_run policies now) st.

Definition openpit_engine_execute_pre_trade_dry_run p engine (now : Z) (order : option (OpenPitOrder Payload)) st :=
  dry_run_call p engine order (fun policies => execute_pre_trade_dry_run policies now) st.

(** [alive] is the engine the request belongs to, if it still exists.  The handle
    is emptied before the request runs. *)
Definition openpit_pretrade_pre_trade_request_execute pp (alive : OpenPitEngine)
    (request : option OpenPitPretradePreTradeRequest) st :
    PretradeCall OpenPitPretradePreTradeReservation * option OpenPitPretradePreTradeRequest * St :=
  match request with
  | None => (pretrade_error pp "request is null", None, st)
  | Some handle =>
      match rq_inner handle with
      | None => (pretrade_error pp "pre-trade request already consumed", request, st)
      | Some inner =>
          let '(call, st) :=
            pretrade_answer pp reservation_handle_new reservation_drop
              (execute_pre_trade_request (bool_decide (is_Some alive)) (from_option engine_policies [] alive) inner st) in
          (call, Some (mkRequestHandle None), st)
      end
  end.

(** ** Reservations and operations *)

(** [None] is a panic of the core's [commit], which the flag rules out. *)
Definition openpit_pretrade_pre_trade_reservation_commit (reservation : option OpenPitPretradePreTradeReservation) st :
    option (option OpenPitPretradePreTradeReservation * St) :=
  match reservation with
  | None => Some (None, st)
  | Some r =>
      if rv_finalized r then Some (reservation, st)
      else '(inner, st) ← reservation_commit (rv_inner r) st; Some (Some (mkReservationHandle_ inner true), st)
  end.

Definition openpit_pretrade_pre_trade_reservation_rollback (reservation : option OpenPitPretradePreTradeReservation) st :
    option OpenPitPretradePreTradeReservation * St :=
  match reservation with
  | None => (None, st)
  | Some r =>
      if rv_finalized r then (reservation, st)
      else let '(inner, st) := reservation_rollback (rv_inner r) st in (Some (mkReservationHandle_ inner true), st)
  end.

Definition openpit_destroy_pretrade_pre_trade_reservation (reservation : option OpenPitPretradePreTradeReservation) st : St :=
  match reservation with None => st | Some r => reservation_drop (rv_inner r) st end.

Definition openpit_pretrade_drop_copy_operation_commit (operation : option OpenPitPretradeDropCopyOperation) st :
    option (option OpenPitPretradeDropCopyOperation * St) :=
  match operation with
  | None => Some (None, st)
  | Some o =>
      if op_finalized o then Some (operation, st)
      else '(inner, st) ← operation_commit (op_inner o) st; Some (Some (mkOperationHandle inner true), st)
  end.

Definition openpit_pretrade_drop_copy_operation_rollback (operation : option OpenPitPretradeDropCopyOperation) st :
    option OpenPitPretradeDropCopyOperation * St :=
  match operation with
  | None => (None, st)
  | Some o =>
      if op_finalized o then (operation, st)
      else let '(inner, st) := operation_rollback (op_inner o) st in (Some (mkOperationHandle inner true), st)
  end.

Definition openpit_destroy_pretrade_drop_copy_operation (operation : option OpenPitPretradeDropCopyOperation) st : St :=
  match operation with None => st | Some o => operation_drop (op_inner o) st end.

(** The getters clone what they show; [None] where the pointer is asserted. *)
Definition export_pre_trade_lock (lock : PreTradeLock) : LockHandle := Some lock.

Definition openpit_pretrade_pre_trade_reservation_get_lock (r : option OpenPitPretradePreTradeReservation) :=
  (fun r => export_pre_trade_lock (res_lock (rv_inner r))) <$> r.
Definition openpit_pretrade_pre_trade_reservation_get_account_adjustments
    (r : option OpenPitPretradePreTradeReservation) := (fun r => res_account_adjustments (rv_inner r)) <$> r.
Definition openpit_pretrade_drop_copy_operation_get_lock (o : option OpenPitPretradeDropCopyOperation) :=
  (fun o => export_pre_trade_lock (dco_lock (op_inner o))) <$> o.
Definition openpit_pretrade_drop_copy_operation_get_account_adjustments
    (o : option OpenPitPretradeDropCopyOperation) := (fun o => dco_account_adjustments (op_inner o)) <$> o.
Definition openpit_pretrade_drop_copy_operation_get_account_block (o : option OpenPitPretradeDropCopyOperation) :=
  (fun o => option_list (dco_account_block (op_inner o))) <$> o.
Definition openpit_pretrade_drop_copy_operation_is_account_blocked (o : option OpenPitPretradeDropCopyOperation) :=
  (fun o => dco_account_blocked (op_inner o)) <$> o.

Definition openpit_pretrade_pre_trade_dry_run_report_is_pass (r : option OpenPitPretradePreTradeDryRunReport) :=
  (fun r => is_pass (drh_inner r)) <$> r.
Definition openpit_pretrade_pre_trade_dry_run_report_get_rejects (r : option OpenPitPretradePreTradeDryRunReport) :=
  (fun r => rejects_to_list_owned (default (rejects_new []) (dr_rejects (drh_inner r)))) <$> r.
Definition openpit_pretrade_pre_trade_dry_run_report_get_lock (r : option OpenPitPretradePreTradeDryRunReport) :=
  (fun r => export_pre_trade_lock (dr_lock (drh_inner r))) <$> r.
Definition openpit_pretrade_pre_trade_dry_run_report_get_account_adjustments
    (r : option OpenPitPretradePreTradeDryRunReport) := (fun r => dr_account_adjustments (drh_inner r)) <$> r.
Definition openpit_pretrade_pre_trade_dry_run_report_get_account_block
    (r : option OpenPitPretradePreTradeDryRunReport) := (fun r => option_list (dr_account_block (drh_inner r))) <$> r.

(** ** Reports, adjustments, retirement *)

Record OpenPitPostTradeResult : Type := mkWirePostTradeResult {
  wptr_account_blocks : list AccountBlock;
  wptr_account_adjustments : list AccountAdjustmentOutcome;
  wptr_account_pnls : list AccountPnlOutcome
}.

Definition from_core (result : PostTradeResult) : OpenPitPostTradeResult :=
  mkWirePostTradeResult (ptr_account_blocks result) (Policy.ptr_account_adjustments result) (ptr_account_pnls result).

Definition openpit_engine_apply_execution_report p engine (report : option (OpenPitExecutionReport Payload)) st :
    Call string OpenPitPostTradeResult * St :=
  match (inner ← ok_or engine "engine is null";
         report ← ok_or report "report is null";
         report ← import_execution_report report;
         Ok (inner, report)) with
  | Err e => (mkCall false None (write_error p e), st)
  | Ok (inner, report) =>
      let '(result, st) := apply_execution_report (engine_policies inner) report st in
      (mkCall true (if out_null p then None else Some (from_core result)) None, st)
  end.

Definition openpit_post_trade_result_get_account_blocks (r : option OpenPitPostTradeResult) := wptr_account_blocks <$> r.
Definition openpit_post_trade_result_get_account_adjustments (r : option OpenPitPostTradeResult) :=
  wptr_account_adjustments <$> r.
Definition openpit_post_trade_result_get_account_pnls (r : option OpenPitPostTradeResult) := wptr_account_pnls <$> r.

(** Which of the four places are null, and what the call wrote. *)
Record AdjustPlaces : Set := mkAdjustPlaces {
  ap_reject_null : bool; ap_outcomes_null : bool; ap_blocks_null : bool; ap_error_null : bool
}.
Record AdjustCall : Type := mkAdjustCall {
  ac_status : OpenPitAccountAdjustmentApplyStatus;
  ac_reject : option OpenPitAccountAdjustmentBatchError;
  ac_outcomes : option (list AccountAdjustmentOutcome);
  ac_blocks : option (list AccountBlock);
  ac_error : option string
}.

(** The loop of imports, which stops at the first failure. *)
Fixpoint import_all {A B} (import : A -> result string B) (views : list A) : result string (list B) :=
  match views with
  | [] => Ok []
  | view :: views => parsed ← import view; values ← import_all import views; Ok (parsed :: values)
  end.

(** The elements of an array, which may be null when it is empty. *)
Definition array_arg {A} (ptr : option (list A)) (len : nat) (null : string) : result string (list A) :=
  match len, ptr with
  | O, _ => Ok []
  | S _, None => Err null
  | S _, Some items => Ok (take len items)
  end.

(** An empty list is not written. *)
Definition write_list {A} (out_null : bool) (l : list A) : option (list A) :=
  if out_null || is_nil l then None else Some l.

Definition openpit_engine_apply_account_adjustment (ap : AdjustPlaces) engine (account : Z)
    (adjustments : option (list (OpenPitAccountAdjustment Payload))) (len : nat) st : AdjustCall * St :=
  let failed e := mkAdjustCall Apply_Error None None None (write_error (mkPlaces false (ap_error_null ap)) e) in
  match (inner ← ok_or engine "engine is null";
         views ← array_arg adjustments len "adjustments is null";
         adjustments ← import_all import_account_adjustment views;
         Ok (inner, adjustments)) with
  | Err e => (failed e, st)
  | Ok (inner, adjustments) =>
      match apply_account_adjustment (engine_policies inner) (mkAccountId account) adjustments st with
      | (Ok batch, st) =>
          (mkAdjustCall Apply_Applied None (write_list (ap_outcomes_null ap) (abr_outcomes batch))
             (write_list (ap_blocks_null ap) (abr_account_blocks batch)) None, st)
      | (Err err, st) =>
          (mkAdjustCall Apply_Rejected (write_object (ap_reject_null ap) (batch_error_new err)) None None None, st)
      end
  end.

(** A call that answers whether it succeeded and writes an error object or a text. *)
Record ObjectCall (E : Type) : Type := mkObjectCall { oc_ok : bool; oc_object : option E; oc_error : option string }.
#[global] Arguments mkObjectCall {E}.
#[global] Arguments oc_ok {E}.
#[global] Arguments oc_object {E}.
#[global] Arguments oc_error {E}.

Definition openpit_engine_retire_account (object_null : bool) p engine (account : Z) st :
    ObjectCall OpenPitAccountRetirementError * St :=
  match engine_ref_or_error p engine with
  | Err e => (mkObjectCall false None e, st)
  | Ok inner =>
      match retire_account (engine_policies inner) (mkAccountId account) st with
      | (Ok _, st) => (mkObjectCall true None None, st)
      | (Err err, st) => (mkObjectCall false (write_object object_null (retirement_error_new err)) None, st)
      end
  end.

(** ** Groups *)

Definition group_args engine (accounts : option (list Z)) (len : nat) :
    result string (FfiEngineInner * list AccountId) :=
  inner ← ok_or engine "engine is null";
  accounts ← array_arg accounts len "accounts is null";
  Ok (inner, fmap (M:=list) mkAccountId accounts).

(** The two calls on a group's accounts. *)
Definition group_call (object_null : bool) p engine (accounts : option (list Z)) (len : nat) (group : Z)
    (f : MembershipChangeBlocks -> AccountsState -> list AccountId -> AccountGroupId ->
         result AccountGroupError unit * AccountsState) st :
    ObjectCall OpenPitAccountGroupError * St :=
  match group_args engine accounts len with
  | Err e => (mkObjectCall false None (write_error p e), st)
  | Ok (inner, account_ids) =>
      match group_from_u32 group with
      | Err _ => (mkObjectCall false (write_object object_null (group_error_new AG_ReservedGroup)) None, st)
      | Ok group =>
          match f (account_pnl_membership_change_blocks inner st) (es_accounts st) account_ids group with
          | (Ok _, accounts) => (mkObjectCall true None None, with_accounts st accounts)
          | (Err err, accounts) =>
              (mkObjectCall false (write_object object_null (group_error_new err)) None, with_accounts st accounts)
          end
      end
  end.

Definition openpit_engine_register_account_group (object_null : bool) p engine (accounts : option (list Z)) (len : nat)
    (group : Z) st := group_call object_null p engine accounts len group accounts_register_group st.

Definition openpit_engine_unregister_account_group (object_null : bool) p engine (accounts : option (list Z))
    (len : nat) (group : Z) st := group_call object_null p engine accounts len group accounts_unregister_group st.

Definition openpit_engine_account_group engine (account : Z) (out_null : bool) st : option (bool * option Z) :=
  match engine with
  | None => None
  | Some _ => if out_null then None else Some (group_answer (group_of (es_groups st) (mkAccountId account)))
  end.

Definition import_account_group_id_allow_default (group : Z) : result unit AccountGroupId :=
  if group =? group_as_u32 DEFAULT_ACCOUNT_GROUP then Ok DEFAULT_ACCOUNT_GROUP
  else map_err (fun _ => tt) (group_from_u32 group).

(** ** Currencies *)

Definition required_asset (asset : OpenPitStringView) : result string Asset :=
  asset ← parse_asset_view asset "asset"; ok_or asset "asset is required".

Definition openpit_engine_set_account_currency p engine (account : Z) (asset : OpenPitStringView) st :
    bool * option string * St :=
  match (_ ← ok_or engine "engine is null"; required_asset asset) with
  | Err e => (false, write_error p e, st)
  | Ok asset => (true, None, with_accounts st (accounts_set_currency (es_accounts st) (mkAccountId account) asset))
  end.

(** A call that asserts its engine. *)
Definition asserting_engine engine (f : AccountsState -> AccountsState) st : option St :=
  _ ← engine; Some (with_accounts st (f (es_accounts st))).

Definition openpit_engine_clear_account_currency engine (account : Z) st : option St :=
  asserting_engine engine (fun a => accounts_clear_currency a (mkAccountId account)) st.

Definition openpit_engine_set_account_group_currency p engine (group : Z) (asset : OpenPitStringView) st :
    bool * option string * St :=
  match (_ ← ok_or engine "engine is null";
         group ← map_err (fun _ => "group is reserved") (import_account_group_id_allow_default group);
         asset ← required_asset asset;
         Ok (group, asset)) with
  | Err e => (false, write_error p e, st)
  | Ok (group, asset) => (true, None, with_accounts st (accounts_set_group_currency (es_accounts st) group asset))
  end.

Definition openpit_engine_clear_account_group_currency engine (group : Z) st : option St :=
  asserting_engine engine
    (fun a => match import_account_group_id_allow_default group with
              | Err _ => a
              | Ok group => accounts_clear_group_currency a group
              end) st.

(** ** Blocks *)

(** A reason's text: what cannot be read counts as empty. *)
Definition reason_text (reason : OpenPitStringView) : string := string_of_ustr (identifier_text reason).

Definition openpit_engine_block_account engine (account : Z) (reason : OpenPitStringView) st : option St :=
  asserting_engine engine (fun a => accounts_block a (mkAccountId account) (reason_text reason)) st.

Definition openpit_engine_block_account_with_cause p engine (account : Z) (cause : OpenPitPretradeAccountBlock) st :
    bool * option OpenPitParamError * St :=
  match (_ ← ok_or engine "engine is null"; try_to_block cause) with
  | Err message => (false, write_param_error_unspecified p message, st)
  | Ok cause => (true, None, with_accounts st (accounts_block_with_cause (es_accounts st) (mkAccountId account) cause))
  end.

Definition openpit_engine_unblock_account engine (account : Z) st : option St :=
  asserting_engine engine (fun a => accounts_unblock a (mkAccountId account)) st.

Definition openpit_engine_unblock_all_accounts engine st : option St := asserting_engine engine accounts_unblock_all st.

(** The end of the calls that write an error object. *)
Definition block_call (object_null : bool)
    (r : result OpenPitAccountBlockError (result AccountBlockError unit * AccountsState)) st :
    bool * option OpenPitAccountBlockError * St :=
  match r with
  | Err e => (false, write_object object_null e, st)
  | Ok (Ok _, accounts) => (true, None, with_accounts st accounts)
  | Ok (Err err, accounts) => (false, write_object object_null (block_error_new err), with_accounts st accounts)
  end.

Definition block_engine engine : result OpenPitAccountBlockError FfiEngineInner :=
  ok_or engine (block_error_message "engine is null").
Definition block_target (group : Z) : result OpenPitAccountBlockError AccountGroupId :=
  map_err (fun _ => block_error_new AB_ReservedGroup) (group_from_u32 group).

Definition openpit_engine_replace_account_block_reason (object_null : bool) engine (account : Z)
    (reason : OpenPitStringView) st :=
  block_call object_null
    (_ ← block_engine engine;
     Ok (accounts_replace_block_reason (es_accounts st) (mkAccountId account) (reason_text reason))) st.

Definition openpit_engine_block_account_group (object_null : bool) engine (group : Z) (reason : OpenPitStringView) st :=
  block_call object_null
    (_ ← block_engine engine; group ← block_target group;
     Ok (accounts_block_group (es_accounts st) group (reason_text reason))) st.

Definition openpit_engine_unblock_account_group (object_null : bool) engine (group : Z) st :=
  block_call object_null
    (_ ← block_engine engine; group ← block_target group; Ok (accounts_unblock_group (es_accounts st) group)) st.

Definition openpit_engine_replace_account_group_block_reason (object_null : bool) engine (group : Z)
    (reason : OpenPitStringView) st :=
  block_call object_null
    (_ ← block_engine engine; group ← block_target group;
     Ok (accounts_replace_group_block_reason (es_accounts st) group (reason_text reason))) st.
End FfiEngine.
