(* ===== verification/FfiEngineFacts.v ===== *)
(** * FfiEngineFacts: what the engine and its C callers owe each other

    [CallbackContract] says what a caller promises of the callbacks of a custom
    policy; it makes the policy [Transactional], so the engine's guarantees hold of
    it.  Then: what each answer of a pre-trade call leaves behind, the life of the
    handles, and the kill switch behind a failed callback. *)
From S2P Require Import Prelude.
From S2P Require Import Decimal.
From S2P Require Import Param.
From S2P Require Import ParamTypes.
From S2P Require Import Identifiers.
From S2P Require Import Mutation.
From S2P Require Import Reject.
From S2P Require Import AccountControl.
From S2P Require Import Accounts.
From S2P Require Import Lock.
From S2P Require Import Policy.
From S2P Require Import Engine.
From S2P Require Import EngineFacts.
From S2P Require Import EngineOps.
From S2P Require Import OrderValidation.
From S2P Require Import OrderSizeLimit.
From S2P Require Import PnlBounds.
From S2P Require Import PnlBoundsFacts.
From S2P Require Import RateLimit.
From S2P Require Import RateLimitFacts.
From S2P Require Import Ffi.
From S2P Require Import FfiParam.
From S2P Require Import FfiOutcomes.
From S2P Require Import Requests.
From S2P Require Import Interop.
From S2P Require Import FfiRequests.
From S2P Require Import Configure.
From S2P Require Import FfiErrors.
From S2P Require Import FfiPolicy.
From S2P Require Import FfiEngine.
Open Scope Z_scope.
Open Scope list_scope.

Section Callbacks.
Context {D : DecimalOps} {DW : DecimalWire} {DF : DecimalFormat} {W Payload : Type}.

Abbreviation St := (EngineState W).
Implicit Types (st : St) (s : HookState W) (ctx : PreTradeContext) (p : Places) (ms : Mutations St).

(** ** Mutations of the caller *)

(** The three functions the caller hands over for one mutation. *)
Record CMutation : Type := mkCMutation {
  cm_commit : OpenPitMutationFn (W:=W);
  cm_rollback : OpenPitMutationFn (W:=W);
  cm_free : option (OpenPitMutationFreeFn (W:=W))
}.

Definition imported (m : CMutation) : Mutation St :=
  mutation_from_ffi_callbacks (cm_commit m) (cm_rollback m) (cm_free m).

(** The calls a callback makes on its handles: pushes, and in a drop-copy start
    hook recordings. *)
Definition push_call p (handle : OpenPitMutations (W:=W)) (m : CMutation) : OpenPitMutations (W:=W) :=
  push_target (openpit_mutations_push p handle (cm_commit m) (cm_rollback m) (cm_free m)).
Definition push_calls p (handle : OpenPitMutations (W:=W)) (l : list CMutation) := foldl (push_call p) handle l.

Definition record_call p ctx s (m : CMutation) : HookState W :=
  (openpit_pretrade_context_record_drop_copy_start_mutation p (Some ctx) (cm_commit m) (cm_rollback m) (cm_free m) s).2.
Definition record_calls p ctx s (l : list CMutation) : HookState W := foldl (record_call p ctx) s l.

(** The rollback callback succeeds where its turn comes, and with the release of
    its data it leaves the world as it was before the callback that registered it. *)
Definition takes_back (m : CMutation) (after before : W) : Prop :=
  forall st, es_world st = after ->
    let '(succeeded, _, st1) := cm_rollback m st in
    let st2 := FfiMutationGuard_drop (cm_free m) st1 in
    succeeded = true /\ es_world st2 = before /\ es_accounts st2 = es_accounts st.

Inductive take_back : list CMutation -> W -> W -> Prop :=
| take_back_nil w : take_back [] w w
| take_back_cons m l w0 w1 w2 : takes_back m w1 w0 -> take_back l w2 w1 -> take_back (m :: l) w2 w0.

Lemma drop_guard_imported m st : drop_guard (imported m) st = FfiMutationGuard_drop (cm_free m) st.
Proof. done. Qed.

Lemma takes_back_undoes m after before : takes_back m after before -> undoes [imported m] after before.
Proof.
  intros Ht o st Hw. specialize (Ht st Hw). unfold rollback_all. cbn. unfold mutation_rollback. cbn. unfold call.
  destruct (cm_rollback m st) as [[succeeded details] st1]. destruct Ht as (-> & Hb & Ha). cbn. done.
Qed.

Lemma take_back_undoes l after before : take_back l after before -> undoes (imported <$> l) after before.
Proof.
  induction 1 as [w|m l w0 w1 w2 Hm _ IH]; [apply undoes_nil|]. cbn.
  change (imported m :: (imported <$> l)) with ([imported m] ++ (imported <$> l)).
  eapply undoes_app; [by apply takes_back_undoes|done].
Qed.

Lemma push_calls_spec p ms l :
  push_calls p (Some (Some ms)) l = Some (Some (mkMutations (ms_mutations ms ++ (imported <$> l)) (ms_owner_id ms))).
Proof.
  revert ms. induction l as [|m l IH]; intros ms; cbn; [by rewrite app_nil_r; destruct ms|].
  etrans; [apply (IH (mutations_push ms (imported m)))|]. cbn. by rewrite <- app_assoc.
Qed.

Lemma record_calls_spec p ctx s ms l : is_drop_copy ctx = true -> drop_open s ms ->
  exists ms', drop_open (record_calls p ctx s l) ms' /\ ms_mutations ms' = ms_mutations ms ++ (imported <$> l).
Proof.
  intros Hd. revert s ms. induction l as [|m l IH]; intros s ms [Hm Ha]; cbn.
  { exists ms. by rewrite app_nil_r. }
  destruct (IH (record_call p ctx s m) (mutations_push ms (imported m))) as (ms' & Ho & Hms').
  { unfold record_call, openpit_pretrade_context_record_drop_copy_start_mutation, record_drop_copy_start_mutation.
    by rewrite Hd, Hm. }
  exists ms'. split; [done|]. rewrite Hms'. cbn. by rewrite <- app_assoc.
Qed.

(** ** The contract *)

(** What a caller promises of the callbacks it gives: they block accounts by their
    verdicts only, and what they change of the world is taken back by the mutations
    they push.  A null callback promises nothing. *)
Class CallbackContract (self : CustomPreTradePolicy (W:=W) (Payload:=Payload)) : Prop := {
  cc_start f ctx order s rejects s' :
    check_pre_trade_start_fn self = Some f -> f ctx order s = (rejects, s') -> deferring ctx s ->
    es_accounts s'.2 = es_accounts s.2;
  cc_drop_copy_start f ctx order s rejects s' ms :
    check_pre_trade_start_fn self = Some f -> f ctx order s = (rejects, s') ->
    is_drop_copy ctx = true -> drop_open s ms ->
    exists p l, s'.1 = (record_calls p ctx s l).1 /\ take_back l (es_world s'.2) (es_world s.2);
  cc_perform f ctx order ms out s rejects ms' out' s' :
    perform_pre_trade_check_fn self = Some f -> f ctx order ms out s = (rejects, ms', out', s') -> deferring ctx s ->
    es_accounts s'.2 = es_accounts s.2 /\
    cc_start_mutations s'.1 = cc_start_mutations s.1 /\ deferring ctx s' /\
    exists p l, Some (Some ms') = push_calls p (Some (Some ms)) l /\ take_back l (es_world s'.2) (es_world s.2);
  cc_adjust f actx account adjustment ms out (s s' : GroupCell * St) rejects ms' out' :
    apply_account_adjustment_fn self = Some f -> f actx account adjustment ms out s = (rejects, ms', out', s') ->
    es_accounts s'.2 = es_accounts s.2 /\
    exists p l, Some (Some ms') = push_calls p (Some (Some ms)) l /\ take_back l (es_world s'.2) (es_world s.2);
  cc_retire f account ms st decision ms' st' :
    retire_account_fn self = Some f -> f account ms st = (decision, ms', st') ->
    es_accounts st' = es_accounts st /\
    exists p l, Some (Some ms') = push_calls p (Some (Some ms)) l /\ take_back l (es_world st') (es_world st)
}.

Lemma pushed_undoes p ms ms' l after before :
  Some (Some ms') = push_calls p (Some (Some ms)) l -> take_back l after before ->
  exists new, ms_mutations ms' = ms_mutations ms ++ new /\ undoes new after before.
Proof.
  rewrite push_calls_spec. intros [= ->] Ht. exists (imported <$> l). split; [done|]. by apply take_back_undoes.
Qed.

Lemma nothing_pushed ms (w : W) : exists new, ms_mutations ms = ms_mutations ms ++ new /\ undoes new w w.
Proof. exists []. rewrite app_nil_r. split; [done|apply undoes_nil]. Qed.

#[local] Hint Resolve nothing_pushed : core.

#[export] Instance unified_transactional self : CallbackContract self -> Transactional (unified_policy self).
Proof.
  intros HC. split; cbn.
  - unfold custom_check_pre_trade_start. intros ctx order s r s' E Hd.
    destruct (check_pre_trade_start_fn self) as [f|] eqn:Ef; [|by injection E as <- <-].
    destruct (f ctx _ s) as [rejects s1] eqn:E1. injection E as <- <-. by eapply cc_start.
  - unfold custom_perform_pre_trade_check. intros ctx order ms s r ms' s' E Hd.
    destruct (perform_pre_trade_check_fn self) as [f|] eqn:Ef; [|by injection E as <- <- <-; auto].
    destruct (f ctx _ ms _ s) as [[[rejects ms1] out] s1] eqn:E1. injection E as _ <- <-.
    destruct (cc_perform _ _ _ _ _ _ _ _ _ _ Ef E1 Hd) as (Ha & Hc & Hd' & p & l & Hl & Ht).
    split_and!; [done..|]. by eapply pushed_undoes.
  - unfold custom_apply_account_adjustment. intros actx account adjustment ms s s' r ms' E.
    destruct (apply_account_adjustment_fn self) as [f|] eqn:Ef; [|by injection E as <- <- <-; auto].
    destruct (f actx _ _ ms _ s) as [[[rejects ms1] out] s1] eqn:E1. injection E as _ <- <-.
    destruct (cc_adjust _ _ _ _ _ _ _ _ _ _ _ Ef E1) as (Ha & p & l & Hl & Ht).
    split; [done|]. by eapply pushed_undoes.
  - unfold custom_retire_account. intros account ms st r ms' st' E.
    destruct (retire_account_fn self) as [f|] eqn:Ef; [|by injection E as <- <- <-; auto].
    destruct (f _ ms st) as [[decision ms1] st1] eqn:E1. injection E as _ <- <-.
    destruct (cc_retire _ _ _ _ _ _ _ Ef E1) as (Ha & p & l & Hl & Ht).
    split; [done|]. by eapply pushed_undoes.
Qed.

#[export] Instance unified_drop_copy self : CallbackContract self -> DropCopyTransactional (unified_policy self).
Proof.
  intros HC. split; [apply _|]. cbn. unfold custom_check_pre_trade_start.
  intros ctx order s r s' ms E Hd Ho.
  destruct (check_pre_trade_start_fn self) as [f|] eqn:Ef.
  2: { injection E as <- <-. exists [], ms. rewrite app_nil_r. split_and!; [done..|apply undoes_nil]. }
  destruct (f ctx _ s) as [rejects s1] eqn:E1. injection E as _ <-.
  destruct (cc_drop_copy_start _ _ _ _ _ _ _ Ef E1 Hd Ho) as (p & l & Hl & Ht).
  destruct (record_calls_spec p ctx s ms l Hd Ho) as (ms' & [Ho1 Ho2] & Hms').
  exists (imported <$> l), ms'. unfold drop_open. rewrite Hl. split_and!; [done..|]. by apply take_back_undoes.
Qed.

(** The builder's wrapper hands every hook through. *)
#[export] Instance dyn_drop_copy (inner : PreTradePolicy W (RequestWithPayload InteropOrder Payload)
    (RequestWithPayload InteropExecutionReport Payload) (RequestWithPayload InteropAccountAdjustment Payload)) :
  DropCopyTransactional inner -> DropCopyTransactional (DynPreTradePolicy inner).
Proof. intros [[H1 H2 H3 H4] H5]. split; [split; [exact H1|exact H2|exact H3|exact H4]|exact H5]. Qed.

End Callbacks.

(** ** What a pre-trade call leaves behind *)
Section Calls.
Context {D : DecimalOps} {DW : DecimalWire} {DF : DecimalFormat} {W Payload : Type}.

Abbreviation St := (EngineState W).
Implicit Types (st : St) (pp : PretradePlaces) (engine : OpenPitEngine (W:=W) (Payload:=Payload)).

Definition policies_of engine := from_option engine_policies [] engine.

(** A policy the engine can undo exactly: a [Transactional] one, as the built-in
    policies without balances are ([exact_builtins_accountable]), or one made of
    callbacks that honour the contract.  The spot funds policy is not one: rolling its
    reservations back leaves equal numbers in slots others may have moved meanwhile,
    not the same world; [SpotFundsReservationFacts.reservation_reverts] is what holds
    of it. *)
Definition accountable (p : PreTradePolicy W (RequestWithPayload InteropOrder Payload)
    (RequestWithPayload InteropExecutionReport Payload) (RequestWithPayload InteropAccountAdjustment Payload)) : Prop :=
  Transactional p \/
  exists self, CallbackContract self /\ p = DynPreTradePolicy (unified_policy self).

Lemma accountable_transactional policies : Forall accountable policies -> Forall Transactional policies.
Proof. intros Hp. eapply Forall_impl; [exact Hp|]. intros p [Hq|(self & HC & ->)]; [done|]. apply (dc_transactional (p:=DynPreTradePolicy _)). Qed.

Lemma exact_builtins_accountable `{DecimalDebug} `{!Owns W OrderSizeLimitSettings, !Owns W RateLimitState, !Owns W KillSwitchState} :
  (forall self, accountable (order_validation_policy self)) /\
  (forall self, accountable (order_size_limit_policy self)) /\
  (forall clock self, accountable (rate_limit_policy clock self)) /\
  (forall reads group, accountable (pnl_killswitch_policy reads group)).
Proof. split_and!; intros; left; (apply _ || apply dc_transactional). Qed.

(** What [start_pre_trade] leaves of the world is final. *)
Definition started engine now (order : option (OpenPitOrder Payload)) st (st1 : St) : Prop :=
  exists order', snd <$> import_order_arg engine order = Ok order' /\
                 st1 = (start_pre_trade (policies_of engine) now order' st).2.

Lemma imported_engine engine (order : option (OpenPitOrder Payload)) inner order' :
  import_order_arg engine order = Ok (inner, order') -> engine = Some inner.
Proof.
  unfold import_order_arg. destruct engine as [e|]; [|done]. cbn. destruct order as [o|]; [|done]. cbn.
  destruct (import_order o); [|done]. cbn. by intros [= <- <-].
Qed.

(** A request of [start_pre_trade] is not a drop-copy one, and starting it blocks
    nobody. *)
Lemma started_ok {Order Report Adjustment} `{HasAccountId Order} (policies : list (PreTradePolicy W Order Report Adjustment))
    now (order : Order) st request st1 :
  Forall Transactional policies -> start_pre_trade policies now order st = (Ok request, st1) ->
  is_drop_copy (req_ctx request) = false /\ es_accounts st1 = es_accounts st.
Proof.
  intros Hp. unfold start_pre_trade. destruct (check _ _ _ _); [done|]. cbn. unfold with_start_pre_trade_now.
  rewrite run_start_spec. cbn. destruct (ask_start _ _ order policies _) as [rs [cells st2]] eqn:E.
  apply ask_start_quiet in E; [|done..]. unfold merged. destruct (is_nil _); [|done]. cbn.
  by intros [= <- <-].
Qed.

(** The world of a request that was not accepted is the one it was executed in. *)
Lemma request_rejected_world {Order Report Adjustment} `{HasAccountId Order}
    (policies : list (PreTradePolicy W Order Report Adjustment)) request st rejects st' :
  Forall Transactional policies -> is_drop_copy (req_ctx request) = false ->
  execute_pre_trade_request true policies request st = (Err rejects, st') -> es_world st' = es_world st.
Proof.
  intros Hp Hd E.
  destruct (check (PR:=PolicyPreTradeResult) (es_blocked st) (es_groups st) (result_ok (ptc_account (req_ctx request))) RS_Order)
    eqn:Ec.
  - unfold execute_pre_trade_request in E. cbn in E. rewrite Ec in E. by injection E as _ <-.
  - by apply (rejection_restores _ _ _ _ _ Hp Hd Ec) in E as [? _].
Qed.

(** C5: what each answer of [openpit_engine_execute_pre_trade] leaves behind.  An
    error - no engine, no order, an order that cannot be read - changes nothing and
    writes a text only.  The policies undo what they do exactly ([accountable]): the
    order validation, order size, rate limit and P&L kill switch policies, and those
    made of C callbacks that honour [CallbackContract], in any mix; the spot funds policy
    is not among them.  A rejection writes the rejects only and leaves the world
    the start stage left, whatever the policies did after it; so does a pass whose
    caller gave no place for the reservation.  A reservation that is handed out is
    not finalized, the accounts are as before the call, and destroying it or rolling
    it back takes back everything done after the start stage. *)
Theorem execute_pre_trade_call_spec pp engine now (order : option (OpenPitOrder Payload)) st call st' :
  Forall accountable (policies_of engine) ->
  openpit_engine_execute_pre_trade pp engine now order st = (call, st') ->
  match pc_status call with
  | Pretrade_Error =>
      st' = st /\ pc_out call = None /\ pc_rejects call = None /\
      is_some (pc_error call) = negb (pp_error_null pp)
  | Pretrade_Rejected =>
      pc_out call = None /\ pc_error call = None /\ is_some (pc_rejects call) = negb (pp_rejects_null pp) /\
      exists st1, started engine now order st st1 /\ es_world st' = es_world st1
  | Pretrade_Passed =>
      pc_rejects call = None /\ pc_error call = None /\ is_some (pc_out call) = negb (pp_out_null pp) /\
      es_accounts st' = es_accounts st /\
      exists st1, started engine now order st st1 /\
      match pc_out call with
      | None => es_world st' = es_world st1
      | Some reservation =>
          rv_finalized reservation = false /\
          forall st2, es_world st2 = es_world st' ->
            let destroyed := openpit_destroy_pretrade_pre_trade_reservation (Some reservation) st2 in
            es_world destroyed = es_world st1 /\ es_accounts destroyed = es_accounts st2 /\
            (openpit_pretrade_pre_trade_reservation_rollback (Some reservation) st2).2 = destroyed
      end
  end.
Proof.
  intros Hp%accountable_transactional. unfold openpit_engine_execute_pre_trade.
  destruct (import_order_arg engine order) as [[inner order']|e] eqn:Ei.
  2: { intros [= <- <-]. cbn. unfold write_error, pp_error. destruct pp as [? ? []]; cbn; by split_and!. }
  pose proof (imported_engine _ _ _ _ Ei) as ->. cbn in Hp.
  assert (Hs : forall st1, st1 = (start_pre_trade (engine_policies inner) now order' st).2 ->
                           started (Some inner) now order st st1).
  { intros st1 ->. exists order'. by rewrite Ei. }
  unfold execute_pre_trade. destruct (start_pre_trade (engine_policies inner) now order' st) as [[request|rejects] st1] eqn:Es.
  2: { intros [= <- <-]. cbn. split_and!; [done|done|by destruct (pp_rejects_null pp)|]. exists st1. eauto. }
  destruct (started_ok _ _ _ _ _ _ Hp Es) as [Hd Ha].
  destruct (execute_pre_trade_request true (engine_policies inner) request st1) as [[res|rejects] st2] eqn:Ee.
  - destruct (acceptance_reverts _ _ _ _ _ Hp Hd Ee) as [Ha2 Hr].
    destruct (Hr st2 eq_refl) as (_ & Hw2 & Ha3).
    intros [= <- <-]. destruct pp as [[] rn en]; cbn; (split_and!; [done..| |]).
    + by rewrite Ha3, Ha2.
    + exists st1. eauto.
    + by rewrite Ha2.
    + exists st1. split; [eauto|]. split; [done|]. intros st3 Hw3. destruct (Hr st3 Hw3) as (Hdrop & Hw & Hacc).
      split_and!; [done..|]. rewrite Hdrop. by destruct (reservation_rollback res st3).
  - pose proof (request_rejected_world _ _ _ _ _ Hp Hd Ee) as Hw.
    intros [= <- <-]. cbn. split_and!; [done|done|by destruct (pp_rejects_null pp)|]. exists st1. eauto.
Qed.

(** ** The life of a handle *)

Inductive HandleCall : Set := CallCommit | CallRollback.

(** The calls on a handle before it is destroyed; [None] is a panic. *)
Fixpoint use_reservation_handle (r : option (OpenPitPretradePreTradeReservation (W:=W))) (calls : list HandleCall) st :=
  match calls with
  | [] => Some (r, st)
  | CallCommit :: calls =>
      '(r, st) ← openpit_pretrade_pre_trade_reservation_commit r st; use_reservation_handle r calls st
  | CallRollback :: calls =>
      let '(r, st) := openpit_pretrade_pre_trade_reservation_rollback r st in use_reservation_handle r calls st
  end.
Fixpoint use_operation_handle (o : option (OpenPitPretradeDropCopyOperation (W:=W))) (calls : list HandleCall) st :=
  match calls with
  | [] => Some (o, st)
  | CallCommit :: calls =>
      '(o, st) ← openpit_pretrade_drop_copy_operation_commit o st; use_operation_handle o calls st
  | CallRollback :: calls =>
      let '(o, st) := openpit_pretrade_drop_copy_operation_rollback o st in use_operation_handle o calls st
  end.

(** What the first of them does; without one, the handle is given back. *)
Definition finalized_by (h : ReservationHandle (W:=W)) (calls : list HandleCall) st : St :=
  match calls with CallCommit :: _ => handle_commit h st | _ => handle_rollback h st end.

Lemma use_finalized_reservation inner calls st :
  use_reservation_handle (Some (mkReservationHandle_ inner true)) calls st = Some (Some (mkReservationHandle_ inner true), st).
Proof. by induction calls as [|[] calls IH]. Qed.
Lemma use_finalized_operation inner calls st :
  use_operation_handle (Some (mkOperationHandle inner true)) calls st = Some (Some (mkOperationHandle inner true), st).
Proof. by induction calls as [|[] calls IH]. Qed.

(** Whatever a C caller does with the handle of a reservation or of a drop-copy
    operation before destroying it - any number of commits and rollbacks in any
    order - never panics, the first call alone decides, or else the destruction,
    which gives it back; and the lock and the outcomes read the same throughout. *)
Theorem handles_finalize_once (res : PreTradeReservation) (op : DropCopyOperation) h calls st :
  res_inner res = Some h -> dco_inner op = Some h ->
  (exists r st', use_reservation_handle (Some (reservation_handle_new res)) calls st = Some (r, st') /\
     openpit_destroy_pretrade_pre_trade_reservation r st' = finalized_by h calls st /\
     openpit_pretrade_pre_trade_reservation_get_lock r = Some (export_pre_trade_lock (res_lock res)) /\
     openpit_pretrade_pre_trade_reservation_get_account_adjustments r = Some (res_account_adjustments res)) /\
  (exists o st', use_operation_handle (Some (operation_handle_new op)) calls st = Some (o, st') /\
     openpit_destroy_pretrade_drop_copy_operation o st' = finalized_by h calls st /\
     openpit_pretrade_drop_copy_operation_get_lock o = Some (export_pre_trade_lock (dco_lock op)) /\
     openpit_pretrade_drop_copy_operation_get_account_adjustments o = Some (dco_account_adjustments op) /\
     openpit_pretrade_drop_copy_operation_is_account_blocked o = Some (dco_account_blocked op)).
Proof.
  intros Hr Ho. split.
  - destruct calls as [|[] calls]; cbn; unfold reservation_commit, reservation_rollback; rewrite ?Hr; cbn;
      rewrite ?use_finalized_reservation; do 2 eexists; (split; [done|]); cbn; unfold reservation_drop; by rewrite ?Hr.
  - destruct calls as [|[] calls]; cbn; unfold operation_commit, operation_rollback; rewrite ?Ho; cbn;
      rewrite ?use_finalized_operation; do 2 eexists; (split; [done|]); cbn; unfold operation_drop; by rewrite ?Ho.
Qed.

(** ** A failed callback *)

Definition global (f : MutationFailure) : Prop := mf_scope f = Some ScopeGlobal.

Lemma global_record f p d : global f -> global (failure_record f p d).
Proof. unfold global. by destruct f as [l [[]|]], p. Qed.
Lemma global_custom f d : global (failure_record f CustomPolicy d).
Proof. by destruct f as [l [[]|]]. Qed.
Lemma global_append f g : global f \/ global g -> global (failure_append f g).
Proof. unfold global. destruct f as [? [[]|]], g as [? [[]|]]; cbn; naive_solver. Qed.
#[local] Hint Resolve global_record global_custom global_append : core.

Lemma commit_fold_global ms f st : global f -> global (foldl commit_step (f, st) ms).1.
Proof.
  revert f st. induction ms as [|m ms IH]; intros f st Hf; cbn; [done|].
  destruct (mutation_commit m st) as [[] st1]; eauto.
Qed.
Lemma rollback_fold_global ms r st :
  global (rr_failure r) -> global (rr_failure (foldl rollback_step (r, st) ms).1).
Proof.
  revert r st. induction ms as [|m ms IH]; intros r st Hf; cbn; [done|].
  destruct (mutation_rollback m st) as [r1 st1]. apply IH. cbn. auto.
Qed.

Lemma global_blocks account f st groups a : global f ->
  is_blocked (es_blocked (record_mutation_failure account f st)) groups a = true.
Proof. unfold global, record_mutation_failure. intros ->. destruct account; cbn; by apply all_flag_blocks. Qed.

Lemma commit_callback_blocks h l1 m l2 st groups a :
  ms_mutations (rh_mutations h) = l1 ++ imported m :: l2 ->
  (cm_commit m (commit_all (mkMutations l1 (ms_owner_id (rh_mutations h))) st).2).1.1 = false ->
  is_blocked (es_blocked (handle_commit h st)) groups a = true.
Proof.
  intros Hl Hc. unfold handle_commit, commit_all in *. cbn in Hc. rewrite Hl, foldl_app. cbn.
  destruct (foldl commit_step _ l1) as [f st1]. cbn in Hc |- *.
  unfold mutation_commit. cbn. unfold call. destruct (cm_commit m st1) as [[ok details] st2]. cbn in Hc. subst ok.
  match goal with |- context [foldl commit_step ?x l2] =>
    pose proof (commit_fold_global l2 x.1 x.2) as Hg; destruct (foldl commit_step x l2) as [f' st3] eqn:E end.
  apply global_blocks. cbn in Hg. rewrite E in Hg. apply Hg. auto.
Qed.

Lemma rollback_callback_blocks h l1 m l2 st groups a :
  ms_mutations (rh_mutations h) = l1 ++ imported m :: l2 ->
  (cm_rollback m (rollback_all (mkMutations l2 (ms_owner_id (rh_mutations h))) st).2).1.1 = false ->
  is_blocked (es_blocked (handle_rollback h st)) groups a = true.
Proof.
  intros Hl Hc. unfold handle_rollback, rollback_all in *. cbn in Hc.
  rewrite Hl, rev_app_distr. cbn. rewrite !foldl_app. cbn.
  destruct (foldl rollback_step _ (rev l2)) as [r st1]. cbn in Hc |- *.
  unfold mutation_rollback. cbn. unfold call. destruct (cm_rollback m st1) as [[ok details] st2]. cbn in Hc. subst ok.
  match goal with |- context [foldl rollback_step ?x (rev l1)] =>
    pose proof (rollback_fold_global (rev l1) x.1 x.2) as Hg; destruct (foldl rollback_step x (rev l1)) as [r' st3] eqn:E end.
  apply global_blocks. cbn in Hg. rewrite E in Hg. apply Hg. cbn. auto.
Qed.

(** C11: a caller's commit or rollback callback that reports failure stops all
    trading: if the callback of any mutation of a reservation fails where its turn
    comes, then after the C call that finalizes the reservation - a commit for the
    first, a rollback or the destruction of the handle for the second - every
    account is blocked, whatever the other callbacks did. *)
Theorem failed_callback_blocks_everyone inner h l1 m l2 st groups account :
  res_inner inner = Some h ->
  ms_mutations (rh_mutations h) = l1 ++ imported m :: l2 ->
  let batch l := mkMutations l (ms_owner_id (rh_mutations h)) in
  let reservation := Some (reservation_handle_new inner) in
  ((cm_commit m (commit_all (batch l1) st).2).1.1 = false ->
   exists r st', openpit_pretrade_pre_trade_reservation_commit reservation st = Some (r, st') /\
                 is_blocked (es_blocked st') groups account = true) /\
  ((cm_rollback m (rollback_all (batch l2) st).2).1.1 = false ->
   is_blocked (es_blocked (openpit_pretrade_pre_trade_reservation_rollback reservation st).2) groups account = true /\
   is_blocked (es_blocked (openpit_destroy_pretrade_pre_trade_reservation reservation st)) groups account = true).
Proof.
  intros Hi Hl batch reservation. cbn. unfold reservation_commit, reservation_rollback, reservation_drop. rewrite Hi. cbn.
  split; intros Hc.
  - do 2 eexists. split; [done|]. by eapply commit_callback_blocks.
  - split; by eapply rollback_callback_blocks.
Qed.

End Calls.
