(* ===== verification/FfiBuiltin.v ===== *)
(** * FfiBuiltin: registering and retuning the built-in policies from C

    src/crates/openpit-ffi/src/policy/order_validation.rs, order_size_limit.rs,
    rate_limit.rs and pnl_bounds_killswitch.rs; FfiSpotFunds has the spot funds
    policy.  A registration parses every argument, builds the settings and stores
    the policy's state at the place of the world it is given; a retuning parses
    every argument before the engine's configurator runs. *)
From S2P Require Import Prelude.
From S2P Require Import Decimal.
From S2P Require Import Param.
From S2P Require Import ParamTypes.
From S2P Require Import Identifiers.
From S2P Require Import Utf8.
From S2P Require Import Mutation.
From S2P Require Import Reject.
From S2P Require Import Lock.
From S2P Require Import Policy.
From S2P Require Import Engine.
From S2P Require Import OrderValidation.
From S2P Require Import OrderSizeLimit.
From S2P Require Import PnlBounds.
From S2P Require Import RateLimit.
From S2P Require Import SpotFundsParts.
From S2P Require Import Ffi.
From S2P Require Import FfiParam.
From S2P Require Import Requests.
From S2P Require Import Interop.
From S2P Require Import FfiRequests.
From S2P Require Import Configure.
From S2P Require Import FfiErrors.
From S2P Require Import FfiPolicy.
From S2P Require Import FfiEngine.
Open Scope Z_scope.

(** ** Arguments *)

(** A pointer and the length passed with it. *)
Record WireArray (A : Type) : Type := mkArray { wa_ptr : option (list A); wa_len : nat }.
Arguments mkArray {A}.
Arguments wa_ptr {A}.
Arguments wa_len {A}.

(** The loops over the entries of an array, with their indices. *)
Fixpoint parse_from {A B E} (parse : nat -> A -> result E B) (index : nat) (entries : list A) : result E (list B) :=
  match entries with
  | [] => Ok []
  | entry :: entries => x ← parse index entry; out ← parse_from parse (S index) entries; Ok (x :: out)
  end.

Definition slice_arg {A} (p : Places) (array : WireArray A) (label : string) : result (option string) (list A) :=
  try_slice_arg p (wa_ptr array) (wa_len array) label.

(** The array of a retuning, read only when it is to be set. *)
Definition configure_array {A B} (has : bool) (array : WireArray A) (label : string)
    (parse : nat -> A -> result OpenPitConfigureError B) : result OpenPitConfigureError (list B) :=
  if has
  then slice ← map_err (fun _ => configure_validation (label +:+ " is null"))
                 (try_slice_arg (mkPlaces true true) (wa_ptr array) (wa_len array) label);
       parse_from parse 0 slice
  else Ok [].

Definition configure_name (name : OpenPitStringView) : result OpenPitConfigureError string :=
  string_of_ustr <$> ok_or (cstr_arg name) (configure_validation "policy name is null or invalid UTF-8").

Definition configure_engine {E} (engine : option E) : result OpenPitConfigureError E :=
  ok_or engine (configure_validation "engine is null").

(** The answer of a retuning: what the core refused becomes an error object. *)
Definition configured {S T} (object_null : bool) (r : result OpenPitConfigureError (result ConfigureError T * S)) (s : S) :
    bool * option OpenPitConfigureError * S :=
  match r with
  | Err e => (false, write_object object_null e, s)
  | Ok (Ok _, s) => (true, None, s)
  | Ok (Err err, s) => (false, write_object object_null (configure_error_new err), s)
  end.

(** The closures of the retunings run the setters asked for in order, and stop at
    the first that fails: the candidate they were given then holds what the setters
    before it wrote.  A setter that fails writes nothing itself. *)
Definition setter {S E} (f : S -> result E S) : Update (Error:=E) S := fun s =>
  match f s with Ok s => (Ok tt, s) | Err e => (Err e, s) end.
Definition unset {S E} : Update (Error:=E) S := fun s => (Ok tt, s).
Definition when {S E} (has : bool) (f : S -> result E S) : Update (Error:=E) S := if has then setter f else unset.
Fixpoint run_setters {S E} (updates : list (Update (Error:=E) S)) : Update (Error:=E) S := fun s =>
  match updates with
  | [] => (Ok tt, s)
  | update :: updates => match update s with (Ok _, s) => run_setters updates s | (Err e, s) => (Err e, s) end
  end.

Section FfiBuiltin.
Context {D : DecimalOps} {DW : DecimalWire} {DF : DecimalFormat} {G : DecimalDebug} {W Payload : Type}.
Context {TN : CellTypeName}.

Abbreviation St := (EngineState W).
Abbreviation Builder := (option (OpenPitEngineBuilder (W:=W) (Payload:=Payload))).
Abbreviation EngineHandle := (OpenPitEngine (W:=W) (Payload:=Payload)).
Implicit Types (st : St) (p : Places) (builder : Builder) (engine : EngineHandle).

(** The end of a registration, with the world it leaves: a failure leaves the
    builder and the world as they were. *)
Definition registered_in builder (w : W)
    (r : result (option string) (OpenPitEngineBuilder (W:=W) (Payload:=Payload) * W)) :
    bool * option string * Builder * W :=
  match r with
  | Err written => (false, written, builder, w)
  | Ok (builder, w) => (true, None, Some builder, w)
  end.

Definition builder_arg p builder : result (option string) (OpenPitEngineBuilder (W:=W) (Payload:=Payload)) :=
  ok_or builder (write_error p "engine builder is null").

(** The step every registration ends with, and the builder storage some need. *)
Definition add_policy p (b : OpenPitEngineBuilder (W:=W) (Payload:=Payload)) policy (w : W) :
    result (option string) (OpenPitEngineBuilder (W:=W) (Payload:=Payload) * W) :=
  b ← map_err (write_error p) (add_pre_trade_policy_to_builder b policy); Ok (b, w).

Definition storage_arg p (b : OpenPitEngineBuilder (W:=W) (Payload:=Payload)) :=
  ok_or (policy_storage b) (write_error p "engine builder is no longer available").

(** ** Order validation *)

Definition openpit_engine_builder_add_builtin_order_validation_policy p builder (group_id : Z) :
    bool * option string * Builder :=
  match builder with
  | None => (false, write_error p "engine builder is null", builder)
  | Some b =>
      builder_call p builder
        (add_pre_trade_policy_to_builder b
           (custom_policy
              (order_validation_policy
                 (order_validation_with_policy_group_id order_validation_new (mkPolicyGroupId group_id)))))
  end.

(** ** Order size limit *)

Record OpenPitPretradePoliciesOrderSizeLimit : Type := mkWireSizeLimit {
  wsl_max_quantity : Optional OpenPitParamQuantity;
  wsl_max_notional : Optional OpenPitParamVolume
}.
Record OpenPitPretradePoliciesOrderSizeBrokerBarrier : Type := mkWireSizeBroker {
  wsb_limit : OpenPitPretradePoliciesOrderSizeLimit
}.
Record OpenPitPretradePoliciesOrderSizeAssetBarrier : Type := mkWireSizeAsset {
  wsa_limit : OpenPitPretradePoliciesOrderSizeLimit;
  wsa_asset : OpenPitStringView
}.
Record OpenPitPretradePoliciesOrderSizeAccountAssetBarrier : Type := mkWireSizeAccountAsset {
  wsaa_limit : OpenPitPretradePoliciesOrderSizeLimit;
  wsaa_account_id : Z;
  wsaa_asset : OpenPitStringView
}.

Definition parse_size_broker p (b : OpenPitPretradePoliciesOrderSizeBrokerBarrier) :
    result (option string) OrderSizeBrokerBarrier :=
  max_quantity ← parse_optional_without_index_or_error p (wsl_max_quantity (wsb_limit b)) "broker" "max_quantity";
  max_notional ← parse_optional_without_index_or_error p (wsl_max_notional (wsb_limit b)) "broker" "max_notional";
  Ok (mkSizeBroker (mkOrderSizeLimit max_quantity max_notional)).

Definition parse_size_limit p (limit : OpenPitPretradePoliciesOrderSizeLimit) (label : string) (index : nat) :
    result (option string) OrderSizeLimit :=
  max_quantity ← parse_optional_or_error p (wsl_max_quantity limit) label index "max_quantity";
  max_notional ← parse_optional_or_error p (wsl_max_notional limit) label index "max_notional";
  Ok (mkOrderSizeLimit max_quantity max_notional).

Definition parse_size_asset p (index : nat) (entry : OpenPitPretradePoliciesOrderSizeAssetBarrier) :
    result (option string) OrderSizeAssetBarrier :=
  asset ← parse_asset_or_error p (wsa_asset entry) "asset" index "asset";
  limit ← parse_size_limit p (wsa_limit entry) "asset" index;
  Ok (mkSizeAsset limit asset).

Definition parse_size_account_asset p (index : nat) (entry : OpenPitPretradePoliciesOrderSizeAccountAssetBarrier) :
    result (option string) OrderSizeAccountAssetBarrier :=
  asset ← parse_asset_or_error p (wsaa_asset entry) "account_asset" index "asset";
  limit ← parse_size_limit p (wsaa_limit entry) "account_asset" index;
  Ok (mkSizeAccountAsset limit (mkAccountId (wsaa_account_id entry)) asset).

(** The broker's barrier, when its pointer is not null. *)
Definition optional_arg {A B E} (parse : A -> result E B) (ptr : option A) : result E (option B) :=
  match ptr with None => Ok None | Some x => Some <$> parse x end.

Definition openpit_engine_builder_add_builtin_order_size_limit_policy p {O : Owns W OrderSizeLimitSettings} builder
    (group_id : Z) (broker : option OpenPitPretradePoliciesOrderSizeBrokerBarrier)
    (asset : WireArray OpenPitPretradePoliciesOrderSizeAssetBarrier)
    (account_asset : WireArray OpenPitPretradePoliciesOrderSizeAccountAssetBarrier) (w : W) :
    bool * option string * Builder * W :=
  registered_in builder w
    (b ← builder_arg p builder;
     asset_slice ← slice_arg p asset "order_size_limit_policy asset";
     account_asset_slice ← slice_arg p account_asset "order_size_limit_policy account_asset";
     broker ← optional_arg (parse_size_broker p) broker;
     asset_barriers ← parse_from (parse_size_asset p) 0 asset_slice;
     account_asset_barriers ← parse_from (parse_size_account_asset p) 0 account_asset_slice;
     settings ← map_err
                  (fun e => write_error p ("order_size_limit_policy creation failed: " +:+ OrderSizeLimitPolicyError_fmt e))
                  (size_settings_new broker asset_barriers account_asset_barriers);
     let '(policy, w) := order_size_limit_new settings w in
     add_policy p b
       (registered_order_size_limit (order_size_limit_with_policy_group_id policy (mkPolicyGroupId group_id))) w).

Definition parse_configure_optional {T} {P : ParamDomain T} (bound : Optional (OpenPitParam T)) (label : string)
    (index : nat) (field : string) : result OpenPitConfigureError (option T) :=
  if opt_is_set bound
  then map_err (fun e => configure_validation (element_label label index field +:+ " is invalid: " +:+ e))
         (Some <$> to_param (opt_value bound))
  else Ok None.

Definition parse_configure_limit (limit : OpenPitPretradePoliciesOrderSizeLimit) (label : string) (index : nat) :
    result OpenPitConfigureError OrderSizeLimit :=
  max_quantity ← parse_configure_optional (wsl_max_quantity limit) label index "max_quantity";
  max_notional ← parse_configure_optional (wsl_max_notional limit) label index "max_notional";
  Ok (mkOrderSizeLimit max_quantity max_notional).

Definition configure_size_asset (index : nat) (entry : OpenPitPretradePoliciesOrderSizeAssetBarrier) :
    result OpenPitConfigureError OrderSizeAssetBarrier :=
  asset ← parse_configure_asset (wsa_asset entry) "asset" index "asset";
  limit ← parse_configure_limit (wsa_limit entry) "asset" index;
  Ok (mkSizeAsset limit asset).

Definition configure_size_account_asset (index : nat) (entry : OpenPitPretradePoliciesOrderSizeAccountAssetBarrier) :
    result OpenPitConfigureError OrderSizeAccountAssetBarrier :=
  asset ← parse_configure_asset (wsaa_asset entry) "account_asset" index "asset";
  limit ← parse_configure_limit (wsaa_limit entry) "account_asset" index;
  Ok (mkSizeAccountAsset limit (mkAccountId (wsaa_account_id entry)) asset).

(** A broker's barrier to set: a null pointer clears it. *)
Definition broker_arg {A B} (has_broker : bool) (parse : A -> result OpenPitConfigureError B) (broker : option A) :
    result OpenPitConfigureError (option B) :=
  if has_broker then optional_arg parse broker else Ok None.

Definition openpit_engine_configure_order_size_limit (object_null : bool) engine (name : OpenPitStringView)
    (broker : option OpenPitPretradePoliciesOrderSizeBrokerBarrier) (has_broker : bool)
    (asset : WireArray OpenPitPretradePoliciesOrderSizeAssetBarrier) (has_asset : bool)
    (account_asset : WireArray OpenPitPretradePoliciesOrderSizeAccountAssetBarrier) (has_account_asset : bool) st :
    bool * option OpenPitConfigureError * St :=
  configured object_null
    (inner ← configure_engine engine;
     name ← configure_name name;
     broker ← broker_arg has_broker
                (fun b => mkSizeBroker <$> parse_configure_limit (wsb_limit b) "broker" 0) broker;
     asset_barriers ← configure_array has_asset asset "order_size_limit asset" configure_size_asset;
     account_asset_barriers ←
       configure_array has_account_asset account_asset "order_size_limit account_asset" configure_size_account_asset;
     Ok (configure_order_size_limit OrderSizeLimitPolicyError_fmt inner name
           (run_setters
              [when has_broker (fun s => size_set_broker s broker);
               when has_asset (fun s => size_set_asset_barriers s asset_barriers);
               when has_account_asset (fun s => size_set_account_asset_barriers s account_asset_barriers)]) st)) st.

(** ** Rate limit *)

Record OpenPitPretradePoliciesRateLimitBrokerBarrier : Set := mkWireRateBroker {
  wrb_max_orders : Z;
  wrb_window_nanoseconds : Z
}.
Record OpenPitPretradePoliciesRateLimitAssetBarrier : Type := mkWireRateAsset {
  wra_settlement_asset : OpenPitStringView;
  wra_max_orders : Z;
  wra_window_nanoseconds : Z
}.
Record OpenPitPretradePoliciesRateLimitAccountBarrier : Set := mkWireRateAccount {
  wrc_account_id : Z;
  wrc_max_orders : Z;
  wrc_window_nanoseconds : Z
}.
Record OpenPitPretradePoliciesRateLimitAccountAssetBarrier : Type := mkWireRateAccountAsset {
  wrca_account_id : Z;
  wrca_settlement_asset : OpenPitStringView;
  wrca_max_orders : Z;
  wrca_window_nanoseconds : Z
}.

Definition rate_limit_window_duration (window_nanoseconds : Z) : result string Z :=
  if window_nanoseconds <=? 0
  then Err ("rate limit window must be positive and fit in u64 nanoseconds, got " +:+ int_fmt window_nanoseconds +:+ "ns")
  else Ok window_nanoseconds.

(** The barriers, over how the two kinds of call fail: [window] wraps the error of
    a window, [asset] reads an element's asset. *)
Section RateBarriers.
Context {E : Type} (window : string -> E) (asset : OpenPitStringView -> string -> nat -> string -> result E Asset).

Definition rate_limit_of (max_orders window_nanoseconds : Z) : result E RateLimit :=
  mkRateLimit max_orders <$> map_err window (rate_limit_window_duration window_nanoseconds).

Definition parse_rate_broker (b : OpenPitPretradePoliciesRateLimitBrokerBarrier) : result E RateLimitBrokerBarrier :=
  mkBrokerBarrier <$> rate_limit_of (wrb_max_orders b) (wrb_window_nanoseconds b).

Definition parse_rate_asset (index : nat) (entry : OpenPitPretradePoliciesRateLimitAssetBarrier) :
    result E RateLimitAssetBarrier :=
  settlement ← asset (wra_settlement_asset entry) "asset" index "settlement_asset";
  limit ← rate_limit_of (wra_max_orders entry) (wra_window_nanoseconds entry);
  Ok (mkAssetBarrier limit settlement).

Definition parse_rate_account (index : nat) (entry : OpenPitPretradePoliciesRateLimitAccountBarrier) :
    result E RateLimitAccountBarrier :=
  limit ← rate_limit_of (wrc_max_orders entry) (wrc_window_nanoseconds entry);
  Ok (mkAccountBarrier limit (mkAccountId (wrc_account_id entry))).

Definition parse_rate_account_asset (index : nat) (entry : OpenPitPretradePoliciesRateLimitAccountAssetBarrier) :
    result E RateLimitAccountAssetBarrier :=
  settlement ← asset (wrca_settlement_asset entry) "account_asset" index "settlement_asset";
  limit ← rate_limit_of (wrca_max_orders entry) (wrca_window_nanoseconds entry);
  Ok (mkAccountAssetBarrier limit (mkAccountId (wrca_account_id entry)) settlement).
End RateBarriers.

(** [now] is the clock's reading when the policy is built, [clock] when it runs. *)
Definition openpit_engine_builder_add_builtin_rate_limit_policy p {O : Owns W RateLimitState} (now clock : Z) builder
    (group_id : Z) (broker : option OpenPitPretradePoliciesRateLimitBrokerBarrier)
    (asset : WireArray OpenPitPretradePoliciesRateLimitAssetBarrier)
    (account : WireArray OpenPitPretradePoliciesRateLimitAccountBarrier)
    (account_asset : WireArray OpenPitPretradePoliciesRateLimitAccountAssetBarrier) (w : W) :
    bool * option string * Builder * W :=
  let failed e := write_error p ("rate_limit_policy creation failed: " +:+ e) in
  registered_in builder w
    (b ← builder_arg p builder;
     asset_slice ← slice_arg p asset "rate_limit_policy asset";
     account_slice ← slice_arg p account "rate_limit_policy account";
     account_asset_slice ← slice_arg p account_asset "rate_limit_policy account_asset";
     broker ← optional_arg (parse_rate_broker failed) broker;
     asset_barriers ← parse_from (parse_rate_asset failed (parse_asset_or_error p)) 0 asset_slice;
     account_barriers ← parse_from (parse_rate_account failed) 0 account_slice;
     account_asset_barriers ← parse_from (parse_rate_account_asset failed (parse_asset_or_error p)) 0 account_asset_slice;
     '(settings, h) ← map_err (fun e => failed (RateLimitPolicyError_fmt e))
                        (settings_new broker asset_barriers account_barriers account_asset_barriers heap_new);
     _ ← storage_arg p b;
     let '(policy, state) := rate_limit_policy_new settings now h in
     add_policy p b (registered_rate_limit clock (rate_limit_with_policy_group_id policy (mkPolicyGroupId group_id)))
       (own_set state w)).

Definition openpit_engine_configure_rate_limit (object_null : bool) engine (name : OpenPitStringView)
    (broker : option OpenPitPretradePoliciesRateLimitBrokerBarrier) (has_broker : bool)
    (asset : WireArray OpenPitPretradePoliciesRateLimitAssetBarrier) (has_asset : bool)
    (account : WireArray OpenPitPretradePoliciesRateLimitAccountBarrier) (has_account : bool)
    (account_asset : WireArray OpenPitPretradePoliciesRateLimitAccountAssetBarrier) (has_account_asset : bool) st :
    bool * option OpenPitConfigureError * St :=
  let '(window, asset_of) := (configure_validation, parse_configure_asset) in
  configured object_null
    (inner ← configure_engine engine;
     name ← configure_name name;
     broker ← broker_arg has_broker (parse_rate_broker window) broker;
     asset_barriers ← configure_array has_asset asset "rate_limit asset" (parse_rate_asset window asset_of);
     account_barriers ← configure_array has_account account "rate_limit account" (parse_rate_account window);
     account_asset_barriers ←
       configure_array has_account_asset account_asset "rate_limit account_asset" (parse_rate_account_asset window asset_of);
     Ok (configure_rate_limit RateLimitPolicyError_fmt inner name
           (run_setters
              [when has_broker (fun c : RateLimitSettings * CounterHeap => set_broker c.1 broker c.2);
               when has_asset (fun c => set_asset_barriers c.1 asset_barriers c.2);
               when has_account (fun c => (fun s => (s, c.2)) <$> set_account_barriers c.1 account_barriers);
               when has_account_asset
                 (fun c => (fun s => (s, c.2)) <$> set_account_asset_barriers c.1 account_asset_barriers)]) st)) st.

(** ** P&L bounds *)

Record OpenPitPretradePoliciesPnlBoundsBarrier : Type := mkWirePnlBarrier {
  wpb_settlement_asset : OpenPitStringView;
  wpb_lower_bound : Optional OpenPitParamPnl;
  wpb_upper_bound : Optional OpenPitParamPnl
}.
Record OpenPitPretradePoliciesPnlBoundsAccountBarrier : Type := mkWirePnlAccount {
  wpa_account_id : Z;
  wpa_settlement_asset : OpenPitStringView;
  wpa_lower_bound : Optional OpenPitParamPnl;
  wpa_upper_bound : Optional OpenPitParamPnl;
  wpa_initial_pnl : OpenPitParamPnl
}.
Record OpenPitPretradePoliciesPnlBoundsAccountBarrierUpdate : Type := mkWirePnlUpdate {
  wpu_account_id : Z;
  wpu_settlement_asset : OpenPitStringView;
  wpu_lower_bound : Optional OpenPitParamPnl;
  wpu_upper_bound : Optional OpenPitParamPnl
}.

Definition parse_configure_optional_pnl (bound : Optional OpenPitParamPnl) (label : string) (index : nat) (field : string) :
    result OpenPitConfigureError (option Pnl) := parse_configure_optional bound label index field.

(** A barrier's three fields, over how the call reads them. *)
Definition parse_pnl_barrier {E} (asset : OpenPitStringView -> string -> nat -> string -> result E Asset)
    (bound : Optional OpenPitParamPnl -> string -> nat -> string -> result E (option Pnl)) (label : string) (index : nat)
    (settlement_asset : OpenPitStringView) (lower upper : Optional OpenPitParamPnl) : result E PnlBoundsBrokerBarrier :=
  settlement ← asset settlement_asset label index "settlement_asset";
  lower_bound ← bound lower label index "lower_bound";
  upper_bound ← bound upper label index "upper_bound";
  Ok (mkPnlBroker settlement lower_bound upper_bound).

Definition parse_pnl_account p (index : nat) (param : OpenPitPretradePoliciesPnlBoundsAccountBarrier) :
    result (option string) PnlBoundsAccountAssetBarrier :=
  barrier ← parse_pnl_barrier (parse_asset_or_error p) (parse_optional_or_error p) "account" index
              (wpa_settlement_asset param) (wpa_lower_bound param) (wpa_upper_bound param);
  initial_pnl ← map_err
                  (fun e => write_error p (element_label "account" index "initial_pnl" +:+ " is invalid: " +:+ e))
                  (to_param (wpa_initial_pnl param));
  Ok (mkPnlAccountAsset barrier (mkAccountId (wpa_account_id param)) initial_pnl).

Definition openpit_engine_builder_add_builtin_pnl_bounds_killswitch_policy p {O : Owns W KillSwitchState} (reads : nat)
    builder (group_id : Z) (broker : WireArray OpenPitPretradePoliciesPnlBoundsBarrier)
    (account : WireArray OpenPitPretradePoliciesPnlBoundsAccountBarrier) (w : W) :
    bool * option string * Builder * W :=
  registered_in builder w
    (b ← builder_arg p builder;
     broker_slice ← slice_arg p broker "pnl_bounds_killswitch_policy broker";
     barriers ← parse_from
                  (fun index param =>
                     parse_pnl_barrier (parse_asset_or_error p) (parse_optional_or_error p) "broker" index
                       (wpb_settlement_asset param) (wpb_lower_bound param) (wpb_upper_bound param)) 0 broker_slice;
     account_slice ← slice_arg p account "pnl_bounds_killswitch_policy account";
     account_barriers ← parse_from (parse_pnl_account p) 0 account_slice;
     settings ← map_err
                  (fun e => write_error p
                     ("pnl_bounds_killswitch_policy creation failed: " +:+ PnlBoundsKillSwitchPolicyError_fmt e))
                  (pnl_settings_new barriers account_barriers);
     _ ← storage_arg p b;
     let group := mkPolicyGroupId group_id in
     add_policy p b (registered_pnl_killswitch reads group)
       (own_set (pnl_with_policy_group_id (pnl_policy_new settings) group) w)).

Definition configure_pnl_account (index : nat) (entry : OpenPitPretradePoliciesPnlBoundsAccountBarrierUpdate) :
    result OpenPitConfigureError PnlBoundsAccountAssetBarrierUpdate :=
  barrier ← parse_pnl_barrier parse_configure_asset parse_configure_optional_pnl "account" index
              (wpu_settlement_asset entry) (wpu_lower_bound entry) (wpu_upper_bound entry);
  Ok (mkPnlUpdate barrier (mkAccountId (wpu_account_id entry))).

Definition openpit_engine_configure_pnl_bounds_killswitch (object_null : bool) engine (name : OpenPitStringView)
    (broker : WireArray OpenPitPretradePoliciesPnlBoundsBarrier) (has_broker : bool)
    (account : WireArray OpenPitPretradePoliciesPnlBoundsAccountBarrierUpdate) (has_account : bool) st :
    bool * option OpenPitConfigureError * St :=
  configured object_null
    (inner ← configure_engine engine;
     name ← configure_name name;
     broker_barriers ← configure_array has_broker broker "pnl_bounds broker"
       (fun index entry => parse_pnl_barrier parse_configure_asset parse_configure_optional_pnl "broker" index
          (wpb_settlement_asset entry) (wpb_lower_bound entry) (wpb_upper_bound entry));
     account_barriers ← configure_array has_account account "pnl_bounds account" configure_pnl_account;
     Ok (configure_pnl_bounds_killswitch PnlBoundsKillSwitchPolicyError_fmt inner name
           (run_setters
              [when has_broker (fun s => set_broker_barriers s broker_barriers);
               when has_account (fun s => set_pnl_account_barriers s account_barriers)]) st)) st.

Definition openpit_engine_configure_pnl_bounds_killswitch_set_account_pnl (object_null : bool) engine
    (name : OpenPitStringView) (account : Z) (settlement_asset : OpenPitStringView) (pnl : OpenPitParamPnl) st :
    bool * option OpenPitConfigureError * St :=
  configured object_null
    (inner ← configure_engine engine;
     name ← configure_name name;
     settlement ← parse_configure_asset settlement_asset "pnl_bounds settlement" 0 "settlement_asset";
     pnl ← map_err (fun e => configure_validation ("pnl is invalid: " +:+ e)) (to_param pnl);
     Ok (configure_account_pnl inner name (mkAccountId account) settlement pnl st)) st.
End FfiBuiltin.
