(* ===== verification/FfiSpotFunds.v ===== *)
(** * FfiSpotFunds: registering and retuning the spot funds policy from C

    src/crates/openpit-ffi/src/policy/spot_funds.rs: the numeric selectors, the
    tagged override targets, the arrays of P&L barriers, the two registrations (with
    slippage settings, and as a P&L kill switch) and the retunings. *)
From S2P Require Import Prelude.
From S2P Require Import Decimal.
From S2P Require Import Param.
From S2P Require Import ParamTypes.
From S2P Require Import Identifiers.
From S2P Require Import Utf8.
From S2P Require Import Mutation.
From S2P Require Import Reject.
From S2P Require Import Accounts.
From S2P Require Import Lock.
From S2P Require Import Policy.
From S2P Require Import Engine.
From S2P Require Import Instruments.
From S2P Require Import MarketData.
From S2P Require Import Locking.
From S2P Require Import SpotFundsParts.
From S2P Require Import SpotFundsSettings.
From S2P Require Import SpotFunds.
From S2P Require Import Ffi.
From S2P Require Import FfiParam.
From S2P Require Import FfiOutcomes.
From S2P Require Import Requests.
From S2P Require Import Interop.
From S2P Require Import FfiRequests.
From S2P Require Import FfiServices.
From S2P Require Import Configure.
From S2P Require Import FfiErrors.
From S2P Require Import FfiPolicy.
From S2P Require Import FfiEngine.
From S2P Require Import FfiBuiltin.
From stdpp Require Import pretty.
Open Scope Z_scope.

(** ** Selectors *)

Definition OPENPIT_PRETRADE_POLICIES_SPOT_FUNDS_LIMIT_MODE_ENFORCE : Z := 0.
Definition OPENPIT_PRETRADE_POLICIES_SPOT_FUNDS_LIMIT_MODE_TRACK_ONLY : Z := 1.

Definition import_spot_funds_limit_mode (value : Z) : result OpenPitConfigureError SpotFundsLimitMode :=
  if value =? OPENPIT_PRETRADE_POLICIES_SPOT_FUNDS_LIMIT_MODE_ENFORCE then Ok Enforce
  else if value =? OPENPIT_PRETRADE_POLICIES_SPOT_FUNDS_LIMIT_MODE_TRACK_ONLY then Ok TrackOnly
  else Err (configure_validation ("spot funds limit_mode must be 0 (Enforce) or 1 (TrackOnly), got " +:+ pretty value)).

Definition OPENPIT_PRETRADE_POLICIES_SPOT_FUNDS_PNL_BOUNDS_AXIS_ACCOUNT_UNREALIZED : Z := 0.
Definition OPENPIT_PRETRADE_POLICIES_SPOT_FUNDS_PNL_BOUNDS_AXIS_ACCOUNT_TOTAL : Z := 1.
Definition OPENPIT_PRETRADE_POLICIES_SPOT_FUNDS_PNL_BOUNDS_AXIS_POSITION_UNREALIZED : Z := 2.
Definition OPENPIT_PRETRADE_POLICIES_SPOT_FUNDS_PNL_BOUNDS_AXIS_POSITION_TOTAL : Z := 3.

Definition import_spot_funds_pnl_bounds_axis (value : Z) : result OpenPitConfigureError SpotFundsPnlBoundsAxis :=
  if value =? OPENPIT_PRETRADE_POLICIES_SPOT_FUNDS_PNL_BOUNDS_AXIS_ACCOUNT_UNREALIZED then Ok AccountUnrealized
  else if value =? OPENPIT_PRETRADE_POLICIES_SPOT_FUNDS_PNL_BOUNDS_AXIS_ACCOUNT_TOTAL then Ok AccountTotal
  else if value =? OPENPIT_PRETRADE_POLICIES_SPOT_FUNDS_PNL_BOUNDS_AXIS_POSITION_UNREALIZED then Ok PositionUnrealized
  else if value =? OPENPIT_PRETRADE_POLICIES_SPOT_FUNDS_PNL_BOUNDS_AXIS_POSITION_TOTAL then Ok PositionTotal
  else Err (configure_validation
              ("spot funds pnl_bounds axis must be 0 (AccountUnrealized), 1 (AccountTotal), 2 (PositionUnrealized) or 3 (PositionTotal), got "
               +:+ pretty value)).

Definition pricing_source_of (value : Z) : result string SpotFundsPricingSource :=
  if value =? 0 then Ok Mark
  else if value =? 1 then Ok BookTop
  else Err ("pricing_source must be 0 (Mark) or 1 (BookTop), got " +:+ pretty value).
Definition configure_pricing_source (value : Z) : result OpenPitConfigureError SpotFundsPricingSource :=
  map_err configure_validation (pricing_source_of value).
Definition import_pricing_source (p : Places) (value : Z) : result (option string) SpotFundsPricingSource :=
  map_err (write_error p) (pricing_source_of value).

(** ** Override targets *)

Definition OPENPIT_PRETRADE_POLICIES_SPOT_FUNDS_OVERRIDE_TARGET_TAG_INSTRUMENT : Z := 0.
Definition OPENPIT_PRETRADE_POLICIES_SPOT_FUNDS_OVERRIDE_TARGET_TAG_INSTRUMENT_ACCOUNT : Z := 1.
Definition OPENPIT_PRETRADE_POLICIES_SPOT_FUNDS_OVERRIDE_TARGET_TAG_INSTRUMENT_ACCOUNT_GROUP : Z := 2.

Record OpenPitPretradePoliciesSpotFundsOverrideTargetInstrument : Set := mkTargetInstrument {
  ti_instrument_id : Z
}.
Record OpenPitPretradePoliciesSpotFundsOverrideTargetInstrumentAccount : Set := mkTargetInstrumentAccount {
  tia_instrument_id : Z;
  tia_account_id : Z
}.
Record OpenPitPretradePoliciesSpotFundsOverrideTargetInstrumentAccountGroup : Set := mkTargetInstrumentGroup {
  tig_instrument_id : Z;
  tig_account_group_id : Z
}.

(** The union: what its bytes read as through each of its fields. *)
Record OpenPitPretradePoliciesSpotFundsOverrideTargetPayload : Set := mkTargetPayload {
  tp_instrument : OpenPitPretradePoliciesSpotFundsOverrideTargetInstrument;
  tp_instrument_account : OpenPitPretradePoliciesSpotFundsOverrideTargetInstrumentAccount;
  tp_instrument_account_group : OpenPitPretradePoliciesSpotFundsOverrideTargetInstrumentAccountGroup
}.

Record OpenPitPretradePoliciesSpotFundsOverrideTarget : Set := mkOverrideTarget {
  ot_tag : Z;
  ot_payload : OpenPitPretradePoliciesSpotFundsOverrideTargetPayload
}.

Record OpenPitPretradePoliciesSpotFundsOverride : Set := mkWireOverride {
  wo_target : OpenPitPretradePoliciesSpotFundsOverrideTarget;
  wo_slippage_bps : Z;
  wo_has_slippage_bps : bool
}.

Definition override_target (entry : OpenPitPretradePoliciesSpotFundsOverride) : result string SpotFundsOverrideTarget :=
  let tag := ot_tag (wo_target entry) in
  let payload := ot_payload (wo_target entry) in
  if tag =? OPENPIT_PRETRADE_POLICIES_SPOT_FUNDS_OVERRIDE_TARGET_TAG_INSTRUMENT then
    Ok (TargetInstrument (mkInstrumentId (ti_instrument_id (tp_instrument payload))))
  else if tag =? OPENPIT_PRETRADE_POLICIES_SPOT_FUNDS_OVERRIDE_TARGET_TAG_INSTRUMENT_ACCOUNT then
    let payload := tp_instrument_account payload in
    Ok (TargetInstrumentAccount (mkInstrumentId (tia_instrument_id payload)) (mkAccountId (tia_account_id payload)))
  else if tag =? OPENPIT_PRETRADE_POLICIES_SPOT_FUNDS_OVERRIDE_TARGET_TAG_INSTRUMENT_ACCOUNT_GROUP then
    let payload := tp_instrument_account_group payload in
    group ← map_err (fun e => "spot funds override account group id is invalid: " +:+ AccountGroupIdError_fmt e)
              (group_from_u32 (tig_account_group_id payload));
    Ok (TargetInstrumentAccountGroup (mkInstrumentId (tig_instrument_id payload)) group)
  else Err ("spot funds override target tag " +:+ pretty tag +:+ " is invalid").

(** One round of the loops over the overrides; [failed] is what an error becomes. *)
Definition parse_override {E} (failed : string -> E) (_ : nat) (entry : OpenPitPretradePoliciesSpotFundsOverride) :
    result E (SpotFundsOverrideTarget * SpotFundsOverride) :=
  target ← map_err failed (override_target entry);
  Ok (target, mkOverride (if wo_has_slippage_bps entry then Some (wo_slippage_bps entry) else None)).

Section FfiSpotFunds.
Context {D : DecimalOps} {DW : DecimalWire} {DF : DecimalFormat} {G : DecimalDebug} {W Payload : Type}.
Context {TN : CellTypeName}.

Abbreviation St := (EngineState W).
Abbreviation Builder := (option (OpenPitEngineBuilder (W:=W) (Payload:=Payload))).
Abbreviation EngineHandle := (OpenPitEngine (W:=W) (Payload:=Payload)).
Abbreviation AccountBlockOutcomes := (list (AccountId * AccountBlock)).
Implicit Types (st : St) (p : Places) (builder : Builder) (engine : EngineHandle).

(** ** P&L barriers *)

Record OpenPitPretradePoliciesSpotFundsPnlBoundsBarrier : Type := mkWireSpotBarrier {
  wsp_currency : OpenPitStringView;
  wsp_lower_bound : Optional OpenPitParamPnl;
  wsp_upper_bound : Optional OpenPitParamPnl
}.
Record OpenPitPretradePoliciesSpotFundsPnlBoundsAccountGroupBarrier : Type := mkWireSpotGroup {
  wspg_account_group_id : Z;
  wspg_barrier : OpenPitPretradePoliciesSpotFundsPnlBoundsBarrier
}.
Record OpenPitPretradePoliciesSpotFundsPnlBoundsAccountBarrier : Type := mkWireSpotAccount {
  wspa_account_id : Z;
  wspa_barrier : OpenPitPretradePoliciesSpotFundsPnlBoundsBarrier
}.

Definition parse_pnl_barrier_or_error p (entry : OpenPitPretradePoliciesSpotFundsPnlBoundsBarrier) (label : string)
    (index : nat) : result (option string) SpotFundsPnlBoundsBarrier :=
  currency ← parse_asset_or_error p (wsp_currency entry) label index "currency";
  lower_bound ← parse_optional_or_error p (wsp_lower_bound entry) label index "lower_bound";
  upper_bound ← parse_optional_or_error p (wsp_upper_bound entry) label index "upper_bound";
  Ok (mkBarrier currency lower_bound upper_bound).

Definition parse_configure_pnl_barrier (entry : OpenPitPretradePoliciesSpotFundsPnlBoundsBarrier) (label : string)
    (index : nat) : result OpenPitConfigureError SpotFundsPnlBoundsBarrier :=
  currency ← parse_configure_asset (wsp_currency entry) label index "currency";
  lower_bound ← parse_configure_optional (wsp_lower_bound entry) label index "lower_bound";
  upper_bound ← parse_configure_optional (wsp_upper_bound entry) label index "upper_bound";
  Ok (mkBarrier currency lower_bound upper_bound).

(** The rounds of the loops over the groups' and the accounts' barriers; [parse]
    is the reading of a barrier and [failed] what another error becomes. *)
Definition parse_group_barrier {E} (failed : string -> E)
    (parse : OpenPitPretradePoliciesSpotFundsPnlBoundsBarrier -> string -> nat -> result E SpotFundsPnlBoundsBarrier)
    (index : nat) (entry : OpenPitPretradePoliciesSpotFundsPnlBoundsAccountGroupBarrier) :
    result E SpotFundsPnlBoundsAccountGroupBarrier :=
  account_group_id ←
    map_err (fun e => failed ("account_group[" +:+ pretty index +:+ "] account group id is invalid: "
                              +:+ AccountGroupIdError_fmt e)) (group_from_u32 (wspg_account_group_id entry));
  barrier ← parse (wspg_barrier entry) "account_group" index;
  Ok (mkGroupBarrier barrier account_group_id).

Definition parse_account_barrier {E}
    (parse : OpenPitPretradePoliciesSpotFundsPnlBoundsBarrier -> string -> nat -> result E SpotFundsPnlBoundsBarrier)
    (index : nat) (entry : OpenPitPretradePoliciesSpotFundsPnlBoundsAccountBarrier) :
    result E SpotFundsPnlBoundsAccountBarrier :=
  barrier ← parse (wspa_barrier entry) "account" index;
  Ok (mkAccountBarrier barrier (mkAccountId (wspa_account_id entry))).

(** The global barrier, the groups' and the accounts'. *)
Definition ParsedPnlBounds : Type :=
  option SpotFundsPnlBoundsBarrier * list SpotFundsPnlBoundsAccountGroupBarrier * list SpotFundsPnlBoundsAccountBarrier.

(** What the C caller passed of each axis: the pointer or array, if it is to be set. *)
Record PnlBoundsArgs : Type := mkPnlBoundsArgs {
  pa_global : option OpenPitPretradePoliciesSpotFundsPnlBoundsBarrier;
  pa_has_global : bool;
  pa_account_group : WireArray OpenPitPretradePoliciesSpotFundsPnlBoundsAccountGroupBarrier;
  pa_has_account_group : bool;
  pa_account : WireArray OpenPitPretradePoliciesSpotFundsPnlBoundsAccountBarrier;
  pa_has_account : bool
}.

Definition parse_configure_pnl_bounds (args : PnlBoundsArgs) : result OpenPitConfigureError ParsedPnlBounds :=
  global ← broker_arg (pa_has_global args) (fun b => parse_configure_pnl_barrier b "global" 0) (pa_global args);
  groups ← configure_array (pa_has_account_group args) (pa_account_group args) "spot_funds_pnl_bounds account_group"
             (parse_group_barrier configure_validation parse_configure_pnl_barrier);
  accounts ← configure_array (pa_has_account args) (pa_account args) "spot_funds_pnl_bounds account"
               (parse_account_barrier parse_configure_pnl_barrier);
  Ok (global, groups, accounts).

(** ** The market data behind a handle *)

(** [SpotFundsMarketData::new]: the clone of the handle keeps its service alive. *)
Definition handle_source {OS : Owns W Services} {OC : Owns W Z} (h : OpenPitMarketDataService) : MarketDataSource W := {|
  md_resolve w instrument :=
    service ← own_get (S:=Services) w !! md_handle h; resolve service instrument;
  md_get w id account group resolution :=
    match own_get (S:=Services) w !! md_handle h with
    | None => Err UnknownInstrument
    | Some service => get service (own_get (S:=Z) w) id account (account_info_of_option group) resolution
    end
|}.

(** The source of a policy without market orders, which asks it nothing. *)
Definition no_source : MarketDataSource W := {|
  md_resolve _ _ := None;
  md_get _ _ _ _ _ := Err UnknownInstrument
|}.

Definition is_multi_threaded (mode : RuntimeSyncMode) : bool :=
  match mode with RuntimeFull | RuntimeAccount => true | RuntimeNone => false end.

(** The mismatch guard of the two registrations. *)
Definition sync_guard p (engine_sync_mode : RuntimeSyncMode) (svc : OpenPitMarketDataService) :
    result (option string) unit :=
  if is_multi_threaded engine_sync_mode && (match md_mode svc with RuntimeNone => true | _ => false end)
  then Err (write_error p "market data service is no-sync (None) but the engine is multi-threaded; rebuild the market-data service with full_sync")
  else Ok tt.

Context {O : Owns W SpotFundsState} {LW : LeaseWaits W} {OS : Owns W Services} {OC : Owns W Z}.

Definition registered_with (market_data : option OpenPitMarketDataService) (reads : nat) (self : SpotFundsPolicy) :=
  registered_spot_funds (M := match market_data with Some h => handle_source h | None => no_source end)
    (Order:=RequestWithPayload InteropOrder Payload) (Report:=RequestWithPayload InteropExecutionReport Payload)
    (Adjustment:=RequestWithPayload InteropAccountAdjustment Payload) reads self.

(** ** Registration *)

(** The settings of the first registration: the slippage, the source and the
    overrides are consulted only with a service. *)
Definition spot_funds_settings p (sync_mode : RuntimeSyncMode) (market_data : option OpenPitMarketDataService)
    (market_slippage_bps : option Z) (pricing_source : Z)
    (instrument_overrides : WireArray OpenPitPretradePoliciesSpotFundsOverride) : result (option string) SpotFundsSettings :=
  let built := map_err (fun e => write_error p ("spot funds settings build failed: " +:+ SpotFundsConfigError_fmt e)) in
  match market_data with
  | None => built (settings_new 0 Mark [])
  | Some svc =>
      _ ← sync_guard p sync_mode svc;
      bps ← ok_or market_slippage_bps (write_error p "market_slippage_bps is required when market_data is provided");
      source ← import_pricing_source p pricing_source;
      overrides_slice ← slice_arg p instrument_overrides "spot_funds_policy instrument_overrides";
      overrides ← parse_from (parse_override (write_error p)) 0 overrides_slice;
      built (settings_new bps source overrides)
  end.

Definition openpit_engine_builder_add_builtin_spot_funds_policy p (reads : nat) builder
    (market_data : option OpenPitMarketDataService) (market_slippage_bps : option Z) (pricing_source : Z)
    (instrument_overrides : WireArray OpenPitPretradePoliciesSpotFundsOverride) (policy_group_id : Z) (w : W) :
    bool * option string * Builder * W :=
  registered_in builder w
    (b ← builder_arg p builder;
     settings ← spot_funds_settings p (ob_sync_mode b) market_data market_slippage_bps pricing_source instrument_overrides;
     _ ← storage_arg p b;
     let policy := sp_with_policy_group_id (mkSpotFundsPolicy (is_some market_data) DEFAULT_POLICY_GROUP_ID)
                     (mkPolicyGroupId policy_group_id) in
     add_policy p b (registered_with market_data reads policy) (own_set (spot_funds_new settings) w)).

Definition openpit_engine_builder_add_builtin_spot_funds_pnl_bounds_killswitch_policy p (reads : nat) builder
    (market_data : option OpenPitMarketDataService) (policy_group_id : Z)
    (global : option OpenPitPretradePoliciesSpotFundsPnlBoundsBarrier)
    (account_group : WireArray OpenPitPretradePoliciesSpotFundsPnlBoundsAccountGroupBarrier)
    (account : WireArray OpenPitPretradePoliciesSpotFundsPnlBoundsAccountBarrier) (w : W) :
    bool * option string * Builder * W :=
  registered_in builder w
    (b ← builder_arg p builder;
     global_barrier ← optional_arg (fun entry => parse_pnl_barrier_or_error p entry "global" 0) global;
     account_group_slice ← slice_arg p account_group "spot_funds_pnl_bounds_policy account_group";
     account_group_barriers ←
       parse_from (parse_group_barrier (write_error p) (parse_pnl_barrier_or_error p)) 0 account_group_slice;
     account_slice ← slice_arg p account "spot_funds_pnl_bounds_policy account";
     account_barriers ← parse_from (parse_account_barrier (parse_pnl_barrier_or_error p)) 0 account_slice;
     _ ← match market_data with Some svc => sync_guard p (ob_sync_mode b) svc | None => Ok tt end;
     _ ← storage_arg p b;
     '(policy, state) ←
       map_err (fun e => write_error p ("spot funds pnl barriers invalid: " +:+ SpotFundsConfigError_fmt e))
         (pnl_bounds_kill_switch global_barrier account_group_barriers account_barriers (is_some market_data));
     add_policy p b
       (registered_with market_data reads (sp_with_policy_group_id policy (mkPolicyGroupId policy_group_id)))
       (own_set state w)).

(** ** Retuning *)

(** The engine, then the name. *)
Definition configure_spot_funds_name engine (name : OpenPitStringView) :=
  inner ← configure_engine engine; name ← configure_name name; Ok (inner, name).

(** [finish_configure_spot_funds]. *)
Definition finish_configure_spot_funds := @configured (EngineState W) AccountBlockOutcomes.

(** The list of the blocks a retuning recorded, or a null pointer. *)
Definition configured_list {A} (object_null : bool)
    (r : result OpenPitConfigureError (result ConfigureError A * St)) st :
    option A * option OpenPitConfigureError * St :=
  match r with
  | Err e => (None, write_object object_null e, st)
  | Ok (Ok blocks, st) => (Some blocks, None, st)
  | Ok (Err err, st) => (None, write_object object_null (configure_error_new err), st)
  end.

Definition spot_funds_update (meanwhile : St -> St) (inner : EngineInner (Order:=RequestWithPayload InteropOrder Payload)
    (Report:=RequestWithPayload InteropExecutionReport Payload)
    (Adjustment:=RequestWithPayload InteropAccountAdjustment Payload)) name f st :=
  configure_spot_funds SpotFundsConfigError_fmt meanwhile inner name f st.

(** The loop of [set_override] calls. *)
Definition set_all_overrides (overrides : list (SpotFundsOverrideTarget * SpotFundsOverride)) :
    Update (Error:=SpotFundsConfigError) SpotFundsSettings :=
  run_setters ((fun '(target, ovr) => setter (fun settings => set_override settings target ovr)) <$> overrides).

Definition openpit_engine_configure_spot_funds (meanwhile : St -> St) (object_null : bool) engine
    (name : OpenPitStringView) (global_slippage_bps : Z) (has_global_slippage_bps : bool)
    (pricing_source : Z) (has_pricing_source : bool)
    (instrument_overrides : WireArray OpenPitPretradePoliciesSpotFundsOverride) (has_overrides : bool) st :
    bool * option OpenPitConfigureError * St :=
  finish_configure_spot_funds object_null
    (inner ← configure_engine engine;
     name ← configure_name name;
     source ← (if has_pricing_source then Some <$> configure_pricing_source pricing_source else Ok None);
     overrides ← configure_array has_overrides instrument_overrides "spot_funds instrument_overrides"
                   (parse_override configure_validation);
     Ok (spot_funds_update meanwhile inner name
           (run_setters
              [when has_global_slippage_bps (fun s => set_global_slippage_bps s global_slippage_bps);
               setter (fun s => Ok (match source with Some source => set_pricing_source s source | None => s end));
               set_all_overrides overrides]) st)) st.

(** The closures of the two retunings of barriers: the three setters asked for. *)
Definition set_bounds (args : PnlBoundsArgs) (bounds : ParsedPnlBounds)
    (set_global : SpotFundsSettings -> option SpotFundsPnlBoundsBarrier -> result SpotFundsConfigError SpotFundsSettings)
    (set_groups : SpotFundsSettings -> list SpotFundsPnlBoundsAccountGroupBarrier -> result SpotFundsConfigError SpotFundsSettings)
    (set_accounts : SpotFundsSettings -> list SpotFundsPnlBoundsAccountBarrier -> result SpotFundsConfigError SpotFundsSettings)
    : Update (Error:=SpotFundsConfigError) SpotFundsSettings :=
  let '(global, groups, accounts) := bounds in
  run_setters
    [when (pa_has_global args) (fun s => set_global s global);
     when (pa_has_account_group args) (fun s => set_groups s groups);
     when (pa_has_account args) (fun s => set_accounts s accounts)].

Definition openpit_engine_configure_spot_funds_pnl_bounds_killswitch (meanwhile : St -> St) (object_null : bool) engine
    (name : OpenPitStringView) (args : PnlBoundsArgs) st : option AccountBlockOutcomes * option OpenPitConfigureError * St :=
  configured_list object_null
    ('(inner, name) ← configure_spot_funds_name engine name;
     bounds ← parse_configure_pnl_bounds args;
     Ok (spot_funds_update meanwhile inner name
           (set_bounds args bounds set_pnl_global_barrier set_pnl_account_group_barriers set_pnl_account_barriers) st)) st.

Definition openpit_engine_configure_spot_funds_pnl_bounds_axis (meanwhile : St -> St) (object_null : bool) engine
    (name : OpenPitStringView) (axis : Z) (args : PnlBoundsArgs) st :
    option AccountBlockOutcomes * option OpenPitConfigureError * St :=
  configured_list object_null
    ('(inner, name) ← configure_spot_funds_name engine name;
     axis ← import_spot_funds_pnl_bounds_axis axis;
     bounds ← parse_configure_pnl_bounds args;
     Ok (spot_funds_update meanwhile inner name
           (set_bounds args bounds (fun s => set_pnl_axis_global_barrier s axis)
              (fun s => set_pnl_axis_account_group_barriers s axis) (fun s => set_pnl_axis_account_barriers s axis)) st)) st.

Definition openpit_engine_configure_spot_funds_set_account_pnl (object_null : bool) engine (name : OpenPitStringView)
    (account_id : Z) (state : OpenPitPnlState) st : option (list AccountBlock) * option OpenPitConfigureError * St :=
  configured_list object_null
    ('(inner, name) ← configure_spot_funds_name engine name;
     state ← map_err (fun error => configure_validation ("pnl state is invalid: " +:+ error)) (import_pnl_state state);
     Ok (configure_spot_funds_account_pnl inner name (mkAccountId account_id) state st)) st.

(** The retunings of one setting, by a setter that cannot fail. *)
Definition configure_one {A} (meanwhile : St -> St) (object_null : bool) engine (name : OpenPitStringView)
    (arg : result OpenPitConfigureError A) (set : SpotFundsSettings -> A -> SpotFundsSettings) st :
    bool * option OpenPitConfigureError * St :=
  finish_configure_spot_funds object_null
    ('(inner, name) ← configure_spot_funds_name engine name;
     x ← arg;
     Ok (spot_funds_update meanwhile inner name (setter (fun settings => Ok (set settings x))) st)) st.

Definition optional_limit_mode (mode : Z) (has_mode : bool) : result OpenPitConfigureError (option SpotFundsLimitMode) :=
  if has_mode then Some <$> import_spot_funds_limit_mode mode else Ok None.

Definition openpit_engine_configure_spot_funds_global_limit_mode (meanwhile : St -> St) (object_null : bool) engine
    (name : OpenPitStringView) (mode : Z) st : bool * option OpenPitConfigureError * St :=
  configure_one meanwhile object_null engine name (import_spot_funds_limit_mode mode) set_global_limit_mode st.

Definition openpit_engine_configure_spot_funds_account_limit_mode (meanwhile : St -> St) (object_null : bool) engine
    (name : OpenPitStringView) (account_id mode : Z) (has_mode : bool) st : bool * option OpenPitConfigureError * St :=
  configure_one meanwhile object_null engine name (optional_limit_mode mode has_mode)
    (fun settings => set_account_limit_mode settings (mkAccountId account_id)) st.

Definition openpit_engine_configure_spot_funds_position_limit (meanwhile : St -> St) (object_null : bool) engine
    (name : OpenPitStringView) (account_id : Z) (asset : OpenPitStringView) (limit : OpenPitParamQuantity)
    (has_limit : bool) st : bool * option OpenPitConfigureError * St :=
  configure_one meanwhile object_null engine name
    (asset ← parse_configure_asset asset "position_limit" 0 "asset";
     limit ← (if has_limit
              then map_err (fun err => configure_validation ("position_limit limit is invalid: " +:+ err))
                     (Some <$> to_param limit)
              else Ok None);
     Ok (asset, limit))
    (fun settings '(asset, limit) => set_position_limit settings (mkAccountId account_id) asset limit) st.

Definition openpit_engine_configure_spot_funds_account_group_limit_mode (meanwhile : St -> St) (object_null : bool) engine
    (name : OpenPitStringView) (account_group_id mode : Z) (has_mode : bool) st :
    bool * option OpenPitConfigureError * St :=
  configure_one meanwhile object_null engine name
    (group ← map_err (fun error => configure_validation
                        ("spot funds account group id is invalid: " +:+ AccountGroupIdError_fmt error))
               (group_from_u32 account_group_id);
     mode ← optional_limit_mode mode has_mode;
     Ok (group, mode))
    (fun settings '(group, mode) => set_account_group_limit_mode settings group mode) st.
End FfiSpotFunds.
