(* ===== verification/FfiServiceFacts.v ===== *)
(** * FfiServiceFacts: the calls on services and built-in policies, seen from C

    Registering a policy extends the builder by it or changes nothing, a policy that
    prices orders never reads a service without locks from several threads, a
    retuning that fails leaves no trace, and reading a quote answers what the table
    of quotes answers unless the caller's resolver failed. *)
From S2P Require Import Prelude.
From S2P Require Import Decimal.
From S2P Require Import Param.
From S2P Require Import ParamTypes.
From S2P Require Import Identifiers.
From S2P Require Import Utf8.
From S2P Require Import Reject.
From S2P Require Import Lock.
From S2P Require Import Policy.
From S2P Require Import Engine.
From S2P Require Import Instruments.
From S2P Require Import Locking.
From S2P Require Import MarketData.
From S2P Require Import MarketDataFacts.
From S2P Require Import OrderValidation.
From S2P Require Import OrderSizeLimit.
From S2P Require Import PnlBounds.
From S2P Require Import RateLimit.
From S2P Require Import SpotFundsParts.
From S2P Require Import SpotFundsSettings.
From S2P Require Import SpotFunds.
From S2P Require Import Ffi.
From S2P Require Import FfiParam.
From S2P Require Import FfiOutcomes.
From S2P Require Import Requests.
From S2P Require Import Interop.
From S2P Require Import FfiRequests.
From S2P Require Import FfiServices.
From S2P Require Import Configure.
From S2P Require Import FfiErrors.
From S2P Require Import FfiPolicy.
From S2P Require Import FfiEngine.
From S2P Require Import FfiBuiltin.
From S2P Require Import FfiSpotFunds.
Open Scope Z_scope.
Open Scope list_scope.

(** ** Registration *)

Section Registration.
Context {D : DecimalOps} {DW : DecimalWire} {DF : DecimalFormat} {G : DecimalDebug} {W Payload : Type}.
Context {TN : CellTypeName}.

Abbreviation FfiBuilder := (OpenPitEngineBuilder (W:=W) (Payload:=Payload)).
Implicit Types (p : Places) (b : FfiBuilder) (builder : option FfiBuilder) (w : W).

(** The policies a builder that was not consumed holds. *)
Definition builder_policies b :=
  (fun state => eb_policies match state with Builder_Synced b => b | Builder_Ready b => b end) <$> ob_inner b.

(** A registration adds one policy at the end, or changes nothing and writes why. *)
Definition registers p builder w (name : string) (c : bool * option string * option FfiBuilder * W) : Prop :=
  let '(ok, written, builder', w') := c in
  if ok : bool then
    written = None /\
    exists b b' policies policy, builder = Some b /\ builder' = Some b' /\ rp_name policy = name /\
      ob_sync_mode b' = ob_sync_mode b /\
      builder_policies b = Some policies /\ builder_policies b' = Some (policies ++ [policy])
  else builder' = builder /\ w' = w /\ is_some written = negb (error_null p).

Lemma write_error_some p e : is_some (write_error p e) = negb (error_null p).
Proof. unfold write_error. by destruct (error_null p). Qed.

Definition failed_with p {T} (r : result (option string) T) : Prop :=
  match r with Ok _ => True | Err written => is_some written = negb (error_null p) end.

Lemma failed_bind p {A B} (r : result (option string) A) (k : A -> result (option string) B) :
  failed_with p r -> (forall x, r = Ok x -> failed_with p (k x)) -> failed_with p (r ≫= k).
Proof. destruct r; cbn; auto. Qed.
Lemma failed_write p {A E} (f : E -> string) (r : result E A) : failed_with p (map_err (fun e => write_error p (f e)) r).
Proof. destruct r; cbn; [done|apply write_error_some]. Qed.
Lemma failed_map p {A B} (f : A -> B) (r : result (option string) A) : failed_with p r -> failed_with p (f <$> r).
Proof. by destruct r. Qed.

(** The argument parsers fail by writing. *)
Lemma failed_slice p {A} (array : WireArray A) label : failed_with p (slice_arg p array label).
Proof.
  unfold slice_arg, try_slice_arg. destruct (wa_len array); [done|].
  destruct (wa_ptr array); cbn; [done|apply write_error_some].
Qed.
Lemma failed_parse_from p {A B} (parse : nat -> A -> result (option string) B) index entries :
  (forall i x, failed_with p (parse i x)) -> failed_with p (parse_from parse index entries).
Proof.
  intros Hp. revert index. induction entries as [|x entries IH]; intros index; cbn; [done|].
  apply failed_bind; [apply Hp|]. intros y _. by apply failed_bind.
Qed.
Lemma failed_optional p {A B} (parse : A -> result (option string) B) ptr :
  (forall x, failed_with p (parse x)) -> failed_with p (optional_arg parse ptr).
Proof. destruct ptr; cbn; [|done]. intros Hp. apply failed_map, Hp. Qed.
Lemma failed_asset p value label index field : failed_with p (parse_asset_or_error p value label index field).
Proof. apply (failed_write p id). Qed.
Lemma failed_bound p {T} {P : ParamDomain T} (bound : Optional (OpenPitParam T)) label index field :
  failed_with p (parse_optional_or_error p bound label index field).
Proof. unfold parse_optional_or_error. destruct (opt_is_set bound); cbn; [|done]. apply failed_write. Qed.
Lemma failed_bound_without p {T} {P : ParamDomain T} (bound : Optional (OpenPitParam T)) label field :
  failed_with p (parse_optional_without_index_or_error p bound label field).
Proof. unfold parse_optional_without_index_or_error. destruct (opt_is_set bound); cbn; [|done]. apply failed_write. Qed.
Lemma failed_ok_or p {A} (o : option A) e : failed_with p (ok_or o (write_error p e)).
Proof. destruct o; cbn; [done|apply write_error_some]. Qed.

(** The shape of a registration: parsers, then the step that adds the policy. *)
Definition adds p builder (name : string) (r : result (option string) (FfiBuilder * W)) : Prop :=
  match r with
  | Ok (b', _) =>
      exists b policy, builder = Some b /\ rp_name policy = name /\ add_pre_trade_policy_to_builder b policy = Ok b'
  | Err written => is_some written = negb (error_null p)
  end.

Lemma adds_registers p builder w name r : adds p builder name r -> registers p builder w name (registered_in builder w r).
Proof.
  destruct r as [[b' w']|written]; cbn; [|done]. intros (b & policy & -> & Hn & Ha). split; [done|].
  unfold add_pre_trade_policy_to_builder, builder_policies in *.
  destruct (ob_inner b) as [state|] eqn:Ei; cbn in Ha; [|discriminate]. injection Ha as <-.
  exists b. eexists _, _, policy. rewrite Ei. split_and!; [done|done|done|done|done|]. by destruct state.
Qed.
Lemma adds_bind p builder name {A} (r : result (option string) A) k :
  failed_with p r -> (forall x, r = Ok x -> adds p builder name (k x)) -> adds p builder name (r ≫= k).
Proof. destruct r; cbn; auto. Qed.
Lemma adds_builder p builder name k :
  (forall b, builder = Some b -> adds p builder name (k b)) -> adds p builder name (builder_arg p builder ≫= k).
Proof. intros Hk. destruct builder; cbn; [by apply Hk|apply write_error_some]. Qed.
Lemma adds_policy p builder b policy w : builder = Some b -> adds p builder (rp_name policy) (add_policy p b policy w).
Proof.
  intros ->. unfold add_policy. destruct (add_pre_trade_policy_to_builder b policy) as [b'|e] eqn:Ea; cbn;
    [by exists b, policy|apply write_error_some].
Qed.
End Registration.

(** The parsers of a registration, down to those above. *)
Ltac head_of r := match r with ?f _ => head_of f | ?f => f end.
Ltac failing :=
  cbv zeta;
  lazymatch goal with
  | |- failed_with _ (Ok _) => exact I
  | |- failed_with _ (Err (write_error _ _)) => apply write_error_some
  | |- failed_with _ (slice_arg _ _ _) => apply failed_slice
  | |- failed_with _ (parse_asset_or_error _ _ _ _ _) => apply failed_asset
  | |- failed_with _ (parse_optional_or_error _ _ _ _ _) => apply failed_bound
  | |- failed_with _ (parse_optional_without_index_or_error _ _ _ _) => apply failed_bound_without
  | |- failed_with _ (ok_or _ _) => apply failed_ok_or
  | |- failed_with _ (storage_arg _ _) => apply failed_ok_or
  | |- failed_with _ (map_err _ _) => apply failed_write
  | |- failed_with _ (parse_from _ _ _) => apply failed_parse_from; intros ? ?; failing
  | |- failed_with _ (optional_arg _ _) => apply failed_optional; intros ?; failing
  | |- failed_with _ (_ ≫= _) => apply failed_bind; [failing|intros ? _; failing]
  | |- failed_with _ (_ <$> _) => apply failed_map; failing
  | |- failed_with _ (match ?o with _ => _ end) => destruct o; failing
  | |- failed_with _ ?r => let f := head_of r in unfold f; failing
  end.

(** A registration: its parsers, then the policy it adds. *)
Ltac adding :=
  cbv zeta;
  lazymatch goal with
  | |- adds _ _ _ (builder_arg _ _ ≫= _) => apply adds_builder; intros ? ?; adding
  | |- adds _ _ _ (_ ≫= _) => apply adds_bind; [failing|intros ? _; adding]
  | |- adds _ _ _ (let '(_, _) := ?x in _) => destruct x; adding
  | |- adds _ ?builder _ (add_policy _ _ _ _) => by apply adds_policy
  end.

Section BuiltIn.
Context {D : DecimalOps} {DW : DecimalWire} {DF : DecimalFormat} {G : DecimalDebug} {W Payload : Type}.
Context {TN : CellTypeName}.
Context {OSize : Owns W OrderSizeLimitSettings} {ORate : Owns W RateLimitState} {OPnl : Owns W KillSwitchState}
  {OFunds : Owns W SpotFundsState} {LW : LeaseWaits W} {OS : Owns W Services} {OC : Owns W Z}.

Abbreviation FfiBuilder := (OpenPitEngineBuilder (W:=W) (Payload:=Payload)).
Implicit Types (p : Places) (builder : option FfiBuilder) (w : W).

Lemma order_size_registers p builder group broker asset account_asset w :
  registers p builder w OrderSizeLimitPolicy_NAME
    (openpit_engine_builder_add_builtin_order_size_limit_policy p builder group broker asset account_asset w).
Proof. apply adds_registers. adding. Qed.

Lemma order_validation_registers p builder group w :
  registers p builder w OrderValidationPolicy_NAME
    (openpit_engine_builder_add_builtin_order_validation_policy p builder group, w).
Proof.
  destruct builder as [b|]; cbn; [|by rewrite write_error_some].
  pose proof (adds_policy p (Some b) b (custom_policy (order_validation_policy
    (order_validation_with_policy_group_id order_validation_new (mkPolicyGroupId group)))) w eq_refl) as Ha.
  apply (adds_registers p (Some b) w) in Ha. unfold add_policy in Ha.
  destruct (add_pre_trade_policy_to_builder b _) in Ha |- *; exact Ha.
Qed.

Lemma rate_limit_registers p now clock builder group broker asset account account_asset w :
  registers p builder w RATE_LIMIT_POLICY_NAME
    (openpit_engine_builder_add_builtin_rate_limit_policy p now clock builder group broker asset account account_asset w).
Proof. apply adds_registers. adding. Qed.

Lemma pnl_registers p reads builder group broker account w :
  registers p builder w PnlBoundsKillSwitchPolicy_NAME
    (openpit_engine_builder_add_builtin_pnl_bounds_killswitch_policy p reads builder group broker account w).
Proof. apply adds_registers. adding. Qed.

Lemma spot_funds_registers p reads builder market_data slippage source overrides group w :
  registers p builder w SPOT_FUNDS_POLICY_NAME
    (openpit_engine_builder_add_builtin_spot_funds_policy p reads builder market_data slippage source overrides group w).
Proof. apply adds_registers. adding. Qed.

Lemma spot_funds_bounds_registers p reads builder market_data group global groups accounts w :
  registers p builder w SPOT_FUNDS_POLICY_NAME
    (openpit_engine_builder_add_builtin_spot_funds_pnl_bounds_killswitch_policy p reads builder market_data group
       global groups accounts w).
Proof. apply adds_registers. adding. Qed.

(** Registering a built-in policy from C adds exactly one policy at the end of
    the builder, under its fixed name and without changing the builder's
    synchronization mode, and writes nothing; or it answers [false], writes why when
    it was given a place, and leaves the builder and the world as they were -
    whatever argument was malformed, however far the parsing went, and when the
    builder was consumed. *)
Theorem builtin_registration p builder w :
  (forall group, registers p builder w OrderValidationPolicy_NAME
     (openpit_engine_builder_add_builtin_order_validation_policy p builder group, w)) /\
  (forall group broker asset account_asset, registers p builder w OrderSizeLimitPolicy_NAME
     (openpit_engine_builder_add_builtin_order_size_limit_policy p builder group broker asset account_asset w)) /\
  (forall now clock group broker asset account account_asset, registers p builder w RATE_LIMIT_POLICY_NAME
     (openpit_engine_builder_add_builtin_rate_limit_policy p now clock builder group broker asset account account_asset w)) /\
  (forall reads group broker account, registers p builder w PnlBoundsKillSwitchPolicy_NAME
     (openpit_engine_builder_add_builtin_pnl_bounds_killswitch_policy p reads builder group broker account w)) /\
  (forall reads market_data slippage source overrides group, registers p builder w SPOT_FUNDS_POLICY_NAME
     (openpit_engine_builder_add_builtin_spot_funds_policy p reads builder market_data slippage source overrides group w)) /\
  (forall reads market_data group global groups accounts, registers p builder w SPOT_FUNDS_POLICY_NAME
     (openpit_engine_builder_add_builtin_spot_funds_pnl_bounds_killswitch_policy p reads builder market_data group
        global groups accounts w)).
Proof.
  split_and!; intros; [apply order_validation_registers|apply order_size_registers|apply rate_limit_registers
    |apply pnl_registers|apply spot_funds_registers|apply spot_funds_bounds_registers].
Qed.

(** ** Locks of the service a policy reads *)

Lemma bind_ok {E A B} (r : result E A) (k : A -> result E B) b : r ≫= k = Ok b -> exists a, r = Ok a /\ k a = Ok b.
Proof. destruct r; cbn; [eauto|done]. Qed.

Lemma registered_in_true builder w r :
  (registered_in (Payload:=Payload) builder w r).1.1.1 = true -> exists x, r = Ok x.
Proof. destruct r; [eauto|done]. Qed.

Lemma builder_arg_ok p builder b : builder_arg p builder = Ok b -> builder = Some b.
Proof. destruct builder; cbn; [by intros [= ->]|done]. Qed.

Lemma sync_guard_ok p mode svc : sync_guard p mode svc = Ok tt -> mode <> RuntimeNone -> md_mode svc <> RuntimeNone.
Proof. unfold sync_guard. by destruct mode, (md_mode svc). Qed.

(** An engine used from several threads never prices orders by a market data
    service whose locks do nothing: if a spot funds policy could be registered - by
    either call, with whatever arguments - on a builder of a multi-threaded mode, with
    a service that [openpit_create_marketdata_service] made, then this service takes
    real locks on both its index and its values. *)
Theorem spot_funds_service_is_locked p reads (b : FfiBuilder) svc w mode ttl services services' d :
  openpit_create_marketdata_service p services mode ttl = Some (Some svc, None, services') ->
  ob_sync_mode b <> RuntimeNone ->
  (exists slippage source overrides group,
     (openpit_engine_builder_add_builtin_spot_funds_policy p reads (Some b) (Some svc) slippage source overrides
        group w).1.1.1 = true) \/
  (exists group global groups accounts,
     (openpit_engine_builder_add_builtin_spot_funds_pnl_bounds_killswitch_policy p reads (Some b) (Some svc) group
        global groups accounts w).1.1.1 = true) ->
  mode = 1 /\ runtime_locks (md_mode svc) d = true.
Proof.
  intros Hc Hb Hr. assert (Hm : md_mode svc <> RuntimeNone).
  { destruct Hr as [(slippage & source & overrides & group & Hr)|(group & global & groups & accounts & Hr)];
      apply registered_in_true in Hr as [x Hr]; apply bind_ok in Hr as (b' & Hb' & Hr);
      apply builder_arg_ok in Hb' as [= <-].
    - apply bind_ok in Hr as (settings & Hs & _). unfold spot_funds_settings in Hs.
      apply bind_ok in Hs as ([] & Hg & _). by eapply sync_guard_ok.
    - do 5 (apply bind_ok in Hr as (? & _ & Hr)). apply bind_ok in Hr as ([] & Hg & _). by eapply sync_guard_ok. }
  unfold openpit_create_marketdata_service in Hc.
  destruct (mode =? 0) eqn:E0; [|destruct (mode =? 1) eqn:E1; [|done]];
    destruct (to_quote_ttl ttl); try done; injection Hc as <- <-; [by destruct Hm|].
  apply Z.eqb_eq in E1. split; [done|by destruct d].
Qed.

(** ** Retuning *)

(** A retuning succeeds and writes nothing, or answers so, writes an error object
    when it was given a place, and leaves the engine as it was. *)
Definition retunes {A} (succeeded : A -> bool) (object_null : bool) (st : EngineState W)
    (c : A * option OpenPitConfigureError * EngineState W) : Prop :=
  let '(answer, object, st') := c in
  if succeeded answer then object = None else st' = st /\ is_some object = negb object_null.

(** The same of the core's retunings. *)
Definition unchanged_on_error {E T} (st : EngineState W) (r : result E T * EngineState W) : Prop :=
  match r with (Err _, st') => st' = st | _ => True end.
Definition retunes_to {T} st (r : result OpenPitConfigureError (result ConfigureError T * EngineState W)) : Prop :=
  match r with Ok r => unchanged_on_error st r | Err _ => True end.

Lemma write_object_some {E} object_null (e : E) : is_some (write_object object_null e) = negb object_null.
Proof. by destruct object_null. Qed.

Lemma configured_retunes {T} object_null st r :
  retunes_to (T:=T) st r -> retunes id object_null st (configured object_null r st).
Proof. destruct r as [[[]]|]; cbn; intros; subst; rewrite ?write_object_some; done. Qed.
Lemma configured_list_retunes {T} object_null st r :
  retunes_to (T:=T) st r -> retunes is_some object_null st (configured_list object_null r st).
Proof. destruct r as [[[]]|]; cbn; intros; subst; rewrite ?write_object_some; done. Qed.

Lemma retunes_bind {A T} st (r : result OpenPitConfigureError A) k :
  (forall x, retunes_to (T:=T) st (k x)) -> retunes_to st (r ≫= k).
Proof. destruct r; cbn; auto. Qed.

Section Core.
Context {Order Report Adjustment E : Type} (fmt : E -> string).
Implicit Types (inner : EngineInner (W:=W) (Order:=Order) (Report:=Report) (Adjustment:=Adjustment)) (name : string).

Lemma cell_update_unchanged {S} name get set (f : Update (Error:=E) S) (st : EngineState W) :
  unchanged_on_error st (let '(r, st) := cell_update get set f st in (validation fmt name r, st)).
Proof. unfold cell_update. by destruct (f (get (es_world st))) as [[] next]. Qed.

Lemma rate_limit_unchanged inner name f st : unchanged_on_error st (configure_rate_limit fmt inner name f st).
Proof.
  unfold configure_rate_limit. destruct (registry_entry inner name) as [[]|]; cbn; try done. apply cell_update_unchanged.
Qed.
Lemma order_size_unchanged inner name f st : unchanged_on_error st (configure_order_size_limit fmt inner name f st).
Proof.
  unfold configure_order_size_limit. destruct (registry_entry inner name) as [[]|]; cbn; try done.
  apply cell_update_unchanged.
Qed.
Lemma pnl_unchanged inner name f st : unchanged_on_error st (configure_pnl_bounds_killswitch fmt inner name f st).
Proof.
  unfold configure_pnl_bounds_killswitch. destruct (registry_entry inner name) as [[]|]; cbn; try done.
  apply cell_update_unchanged.
Qed.
Lemma account_pnl_unchanged inner name account asset pnl st :
  unchanged_on_error st (configure_account_pnl inner name account asset pnl st).
Proof. unfold configure_account_pnl. by destruct (registry_entry inner name) as [[]|]. Qed.
Lemma spot_funds_unchanged meanwhile inner name f st :
  unchanged_on_error st (configure_spot_funds fmt meanwhile inner name f st).
Proof.
  unfold configure_spot_funds. destruct (registry_entry inner name) as [[]|]; cbn; try done.
  destruct (find_policy inner name); cbn; [|done]. destruct (validation fmt name _); cbn; [|done].
  by destruct (publish_transition _ _ _ _).
Qed.
Lemma spot_funds_account_pnl_unchanged inner name account state st :
  unchanged_on_error st (configure_spot_funds_account_pnl inner name account state st).
Proof.
  unfold configure_spot_funds_account_pnl. destruct (registry_entry inner name) as [[]|]; cbn; try done.
  destruct (find_policy inner name); cbn; [|done]. by destruct (rp_configuration _ _ _).
Qed.
End Core.

Create HintDb registers.
#[local] Hint Resolve rate_limit_unchanged order_size_unchanged pnl_unchanged account_pnl_unchanged spot_funds_unchanged
  spot_funds_account_pnl_unchanged : registers.

(** A retuning: its parsers, then the core's. *)
Ltac retuning :=
  cbv zeta;
  lazymatch goal with
  | |- retunes_to _ (_ ≫= _) => apply retunes_bind; intros ?; retuning
  | |- retunes_to _ (let '(_, _) := ?x in _) => destruct x; retuning
  | |- retunes_to _ (Ok _) => unfold retunes_to, spot_funds_update; auto with registers
  end.

(** A closure that fails leaves the candidate as the setters before the failing one
    wrote it; what discards it is the cell. *)
Lemma run_setters_partial {E S} (before after : list (Update (Error:=E) S)) (failing : Update (Error:=E) S) s0 s1 s2 e :
  run_setters before s0 = (Ok tt, s1) -> failing s1 = (Err e, s2) ->
  run_setters (before ++ failing :: after) s0 = (Err e, s2).
Proof.
  revert s0. induction before as [|f before IH]; intros s0; cbn; [by intros [= ->] ->|].
  destruct (f s0) as [[] s]; [|done]. apply IH.
Qed.

Example size_retuning_half_written broker settings asset :
  let limit := mkOrderSizeLimit None None in
  size_set_broker settings None = Ok broker ->
  run_setters
    [when true (fun s => size_set_broker s None);
     when true (fun s => size_set_asset_barriers s [mkSizeAsset limit asset])] settings =
  (Err NoCapsConfigured, broker).
Proof. cbn. by intros [= <-]. Qed.

(** C34: a retuning of a built-in policy from C that does not succeed changes
    nothing - neither the settings nor anything the policies or the engine hold -
    and writes an error object exactly when it was given a place; one that succeeds
    writes none.  This holds of every retuning, whichever of its arguments was
    malformed, whatever setter refused the values after others had accepted theirs,
    and when the engine is null or no policy of the kind is registered. *)
Theorem retunings_atomic (meanwhile : EngineState W -> EngineState W) object_null
    (engine : OpenPitEngine (W:=W) (Payload:=Payload)) name st :
  (forall broker has_broker asset has_asset account_asset has_account_asset, retunes id object_null st
     (openpit_engine_configure_order_size_limit object_null engine name broker has_broker asset has_asset
        account_asset has_account_asset st)) /\
  (forall broker has_broker asset has_asset account has_account account_asset has_account_asset, retunes id object_null st
     (openpit_engine_configure_rate_limit object_null engine name broker has_broker asset has_asset account has_account
        account_asset has_account_asset st)) /\
  (forall broker has_broker account has_account, retunes id object_null st
     (openpit_engine_configure_pnl_bounds_killswitch object_null engine name broker has_broker account has_account st)) /\
  (forall account asset pnl, retunes id object_null st
     (openpit_engine_configure_pnl_bounds_killswitch_set_account_pnl object_null engine name account asset pnl st)) /\
  (forall slippage has_slippage source has_source overrides has_overrides, retunes id object_null st
     (openpit_engine_configure_spot_funds meanwhile object_null engine name slippage has_slippage source has_source
        overrides has_overrides st)) /\
  (forall args, retunes is_some object_null st
     (openpit_engine_configure_spot_funds_pnl_bounds_killswitch meanwhile object_null engine name args st)) /\
  (forall axis args, retunes is_some object_null st
     (openpit_engine_configure_spot_funds_pnl_bounds_axis meanwhile object_null engine name axis args st)) /\
  (forall account state, retunes is_some object_null st
     (openpit_engine_configure_spot_funds_set_account_pnl object_null engine name account state st)) /\
  (forall mode, retunes id object_null st
     (openpit_engine_configure_spot_funds_global_limit_mode meanwhile object_null engine name mode st)) /\
  (forall account mode has_mode, retunes id object_null st
     (openpit_engine_configure_spot_funds_account_limit_mode meanwhile object_null engine name account mode has_mode st)) /\
  (forall account asset limit has_limit, retunes id object_null st
     (openpit_engine_configure_spot_funds_position_limit meanwhile object_null engine name account asset limit
        has_limit st)) /\
  (forall group mode has_mode, retunes id object_null st
     (openpit_engine_configure_spot_funds_account_group_limit_mode meanwhile object_null engine name group mode
        has_mode st)).
Proof.
  split_and!; intros; (apply configured_retunes || apply configured_list_retunes); retuning.
Qed.

End BuiltIn.

(** ** Reading quotes *)

Section Quotes.
Context {D : DecimalOps} {DW : DecimalWire} {DF : DecimalFormat}.

(** The answer of a read by the table's: the quote with the status. *)
Definition answered (outcome : result MarketDataError Quote) (asked : nat) : GetCall :=
  match outcome with
  | Ok quote => mkGetCall Get_Found (Some (from_quote quote)) asked
  | Err (QuoteExpired quote) => mkGetCall Get_QuoteExpired (Some (from_quote quote)) asked
  | Err QuoteUnavailable => mkGetCall Get_Unavailable None asked
  | Err UnknownInstrument => mkGetCall Get_UnknownInstrument None asked
  end.

(** Whether a byte is an answer of the resolver. *)
Definition is_answer (value : Z) : bool :=
  (value =? resolution_u8 Resolution_Found) || (value =? resolution_u8 Resolution_NoGroup).

(** C35: reading a quote from C asks the caller's resolver at most once.  When it was
    asked and answered neither "found" nor "no group", the call says so and writes no
    quote, whatever the service holds; otherwise it answers exactly what the table of
    the service's quotes answers for the group the resolver gave, writing a quote with
    "found" and "expired" and with nothing else. *)
Theorem get_call_spec services svc inner now id account resolve resolution resolution' call :
  services !! md_handle svc = Some inner -> service_wf (mkShared inner 0) ->
  import_quote_resolution resolution = Some resolution' ->
  openpit_marketdata_service_get false services (Some svc) now id account (Some resolve) resolution = Some call ->
  (gc_asked call <= 1)%nat /\
  call =
    if (gc_asked call =? 1)%nat && negb (is_answer (resolve 0%nat).1)
    then mkGetCall Get_AccountGroupResolutionFailed None (gc_asked call)
    else answered (t_get (table inner) now (mkInstrumentId id) (mkAccountId account) (callback_group resolve 0%nat)
                     resolution') (gc_asked call).
Proof.
  intros Hs Hw Hr. unfold openpit_marketdata_service_get. rewrite Hr, Hs. cbn -[get_observed].
  destruct (get_table inner now (mkInstrumentId id) (mkAccountId account) (callback_group resolve) resolution' Hw)
    as [Ht Ha].
  unfold get in Ht. destruct (get_observed _ _ _ _ _ _ _ _ _ _ _) as [outcome memo]. cbn in Ht, Ha |- *. subst outcome.
  intros [= <-]. set (outcome := t_get _ _ _ _ _ _).
  assert (Hasked : gc_asked (get_answer resolve outcome (group_asked memo)) = group_asked memo).
  { unfold get_answer. destruct (callback_failed _ _); [done|]. by destruct outcome as [|[]]. }
  rewrite Hasked. split; [done|].
  assert (Hf : callback_failed resolve (group_asked memo) =
               (group_asked memo =? 1)%nat && negb (is_answer (resolve 0%nat).1)).
  { unfold callback_failed, is_answer. destruct (group_asked memo) as [|[|n]]; [done| |lia]. cbn.
    by destruct (_ =? 1), (_ =? 0). }
  unfold get_answer. rewrite Hf. destruct (_ && _); [done|]. by destruct outcome as [|[]].
Qed.
(** The calls that pin a lifetime are documented never to fail; a lifetime whose
    nanoseconds carry past the last representable second aborts them. *)
Lemma overflowing_ttl_aborts services service account :
  openpit_marketdata_service_set_account_ttl services (Some service) account
    (mkWireTtl U64_MAX 1000000000 false) = None.
Proof.
  unfold openpit_marketdata_service_set_account_ttl, asserting. cbn [mbind option_bind].
  unfold on_service. by destruct (services !! _).
Qed.
End Quotes.
