(* ===== verification/Python.v ===== *)
(** * Python: objects, exceptions and values at the Python boundary

    src/bindings/python/src/lib.rs, the parts every call shares: the stack of parked
    callback exceptions, the readers that turn Python objects into values of the
    engine, and the conversions back.  The interpreter and PyO3 are a parameter
    ([PyModel], [PyRuntime]): each operation on an object may run Python code, so it
    works on the whole state. *)
From stdpp Require Import pretty.
From S2P Require Import Prelude.
From S2P Require Import Decimal.
From S2P Require Import Param.
From S2P Require Import ParamTypes.
From S2P Require Import Identifiers.
From S2P Require Import Utf8.
From S2P Require Import Mutation.
From S2P Require Import Reject.
From S2P Require Import AccountControl.
From S2P Require Import Accounts.
From S2P Require Import Lock.
From S2P Require Import Policy.
From S2P Require Import Instruments.
From S2P Require Import MarketData.
From S2P Require Import Requests.
From S2P Require Import Ffi.
From S2P Require Import FfiParam.
Open Scope Z_scope.

(** ** The interpreter *)

(** The exception classes the binding raises itself. *)
Inductive PyExceptionType : Set :=
| PyTypeError | PyValueError | PyRuntimeError | PyOverflowError | PyPanicException
| PyParamError | PyAccountGroupRegistrationError | PyAccountBlockError | PyPolicyConfigureError
| PyMarketDataError | PyUnknownInstrument | PyQuoteUnavailable | PyQuoteExpired
| PyAlreadyRegistered | PyRegistrationError | PyUnknownInstrumentId
| PyReferenceBookRegistrationError | PyUnknownReferenceBookInstrumentId.

(** Object references and exceptions.  [is_none], [is_ellipsis] and [is_type_error] look
    at what they are, [str_debug] is [Debug] of a string, which escapes by Unicode tables, and
    [f64_display] is the shortest text of a float. *)
Class PyModel : Type := {
  PyObj : Type;
  PyErr : Type;
  new_err : PyExceptionType -> string -> PyErr;
  is_type_error : PyErr -> bool;
  is_none : PyObj -> bool;
  is_ellipsis : PyObj -> bool;
  str_debug : ustr -> string;
  f64_display : f64 -> ustr
}.

(** A call from Rust into the interpreter. *)
Definition PyM {PM : PyModel} (S A : Type) : Type := S -> result PyErr A * S.

#[export] Instance PyM_ret {PM : PyModel} S : MRet (PyM S) := fun _ x s => (Ok x, s).
#[export] Instance PyM_bind {PM : PyModel} S : MBind (PyM S) := fun _ _ f m s =>
  match m s with (Ok x, s) => f x s | (Err e, s) => (Err e, s) end.

Definition raise {PM : PyModel} {S A} (e : PyErr) : PyM S A := fun s => (Err e, s).
Definition lift {PM : PyModel} {S A} (r : result PyErr A) : PyM S A := fun s => (r, s).
(** [if let Ok(..) = ..]: an exception is dropped. *)
Definition try_ok {PM : PyModel} {S A} (m : PyM S A) : PyM S (option A) := fun s =>
  let '(r, s) := m s in (Ok (result_ok r), s).
Definition map_exc {PM : PyModel} {S A} (f : PyErr -> PyErr) (m : PyM S A) : PyM S A := fun s =>
  let '(r, s) := m s in (map_err f r, s).

(** An iterator that ends, whatever it does on the way; one that never ends keeps its
    caller. *)
Inductive PyIter {PM : PyModel} (S : Type) : Type :=
| py_iter (next : S -> result PyErr (option (PyObj * PyIter S)) * S).
Arguments py_iter {PM S}.

Section Iteration.
Context {PM : PyModel} {S A : Type}.

(** [for item in iterator { .. item? .. }]: the accumulator is what the body has
    pushed to, and outlives an exception. *)
Fixpoint py_for (body : PyObj -> A -> S -> result PyErr unit * (A * S)) (it : PyIter S) (acc : A) (s : S) :
    result PyErr unit * (A * S) :=
  match it with
  | py_iter next =>
      match next s with
      | (Err e, s) => (Err e, (acc, s))
      | (Ok None, s) => (Ok tt, (acc, s))
      | (Ok (Some (item, it)), s) =>
          match body item acc s with
          | (Err e, (acc, s)) => (Err e, (acc, s))
          | (Ok _, (acc, s)) => py_for body it acc s
          end
      end
  end.

(** Pushing what [parse] makes of each item. *)
Definition push_parsed (parse : PyObj -> PyM S A) (item : PyObj) (acc : list A) (s : S) :
    result PyErr unit * (list A * S) :=
  match parse item s with
  | (Ok x, s) => (Ok tt, ((acc ++ [x])%list, s))
  | (Err e, s) => (Err e, (acc, s))
  end.
End Iteration.

(** The loops that collect into a fresh vector, which an exception drops. *)
Definition collect {PM : PyModel} {S A} (parse : PyObj -> PyM S A) (it : PyIter S) : PyM S (list A) := fun s =>
  match py_for (push_parsed parse) it [] s with
  | (Ok _, (items, s)) => (Ok items, s)
  | (Err e, (_, s)) => (Err e, s)
  end.

(** ** Parked exceptions *)

(** [PY_CALLBACK_ERRORS]: a frame per running operation of the thread, the innermost
    one first. *)
Definition Frames {PM : PyModel} : Type := list (option PyErr).

Section Frames.
Context {PM : PyModel}.
Implicit Types (frames : Frames) (e : PyErr).

Definition set_python_callback_error e frames : Frames :=
  match frames with
  | None :: rest => Some e :: rest
  | _ => frames
  end.

Definition scope_enter frames : Frames := None :: frames.
(** [finish]; the drop of a scope that was not finished pops the same way. *)
Definition scope_finish frames : option PyErr * Frames := (mjoin (head frames), tail frames).
Definition scope_drop frames : Frames := tail frames.
End Frames.

(** Where a state keeps the frames of its thread. *)
Class HasFrames {PM : PyModel} (S : Type) : Type := {
  frames_of : S -> Frames;
  with_frames : Frames -> S -> S
}.

Definition park {PM : PyModel} {S} {HF : HasFrames S} (e : PyErr) (s : S) : S :=
  with_frames (set_python_callback_error e (frames_of s)) s.

Section FrameInstances.
Context {PM : PyModel} {W : Type} {O : Owns W Frames}.

#[export] Instance engine_frames : HasFrames (EngineState W) := {|
  frames_of st := own_get (es_world st);
  with_frames frames st := with_world st (own_set frames (es_world st))
|}.
#[export] Instance hook_frames : HasFrames (HookState W) := {|
  frames_of s := frames_of s.2;
  with_frames frames s := (s.1, with_frames frames s.2)
|}.
#[export] Instance cell_frames : HasFrames (GroupCell * EngineState W) := {|
  frames_of s := frames_of s.2;
  with_frames frames s := (s.1, with_frames frames s.2)
|}.
End FrameInstances.

(** ** The classes of the binding *)

Inductive PyConfigureErrorKind : Set := PyUnknown | PyTypeMismatch | PyValidation.

Inductive PyPnlHaltReason : Set :=
| PyMissingFx | PyMissingAccountCurrency | PyMissingInitialPnl | PyMissingCostBasis | PyArithmeticOverflow.

Section Classes.
Context {D : DecimalOps}.

Record PyOutcomeAmount : Type := mkPyOutcomeAmount { pyo_delta : PositionSize; pyo_absolute : PositionSize }.
Record PyPnlOutcomeAmount : Type := mkPyPnlOutcomeAmount { pypo_delta : Pnl; pypo_absolute : Pnl }.
Record PyPnlOutcome : Type := mkPyPnlOutcome {
  pyp_pnl : option PyPnlOutcomeAmount;
  pyp_halt_reason : option PyPnlHaltReason
}.
Record PyAccountPnlOutcome : Type := mkPyAccountPnlOutcome {
  pyap_policy_group_id : PolicyGroupId;
  pyap_account_id : AccountId;
  pyap_pnl : option PyPnlOutcomeAmount;
  pyap_halt_reason : option PyPnlHaltReason
}.
Record PyAccountOutcomeEntry : Type := mkPyAccountOutcomeEntry {
  pye_asset : Asset;
  pye_balance : option PyOutcomeAmount;
  pye_held : option PyOutcomeAmount;
  pye_incoming : option PyOutcomeAmount;
  pye_realized_pnl : option PyPnlOutcome;
  pye_average_entry_price : option Price
}.
Record PyAccountAdjustmentOutcome : Type := mkPyAccountAdjustmentOutcome {
  pya_policy_group_id : PolicyGroupId;
  pya_entry : PyAccountOutcomeEntry
}.

Record PyReject : Set := mkPyReject {
  pyr_code : string; pyr_reason : string; pyr_details : string; pyr_policy : string; pyr_scope : string; pyr_user_data : Z
}.
Record PyAccountBlock : Set := mkPyAccountBlock {
  pyb_code : string; pyb_policy : string; pyb_reason : string; pyb_details : string; pyb_user_data : Z
}.

(** The groups of a request; an aggregate refers to the objects of its groups, and
    what is borrowed of one is what they hold then. *)
Record PyOrderOperation : Type := mkPyOrderOperation {
  pyoo_underlying_asset : option Asset;
  pyoo_settlement_asset : option Asset;
  pyoo_account_id : option AccountId;
  pyoo_side : option Side;
  pyoo_trade_amount : option TradeAmount;
  pyoo_price : option Price
}.
Record PyOrderPosition : Type := mkPyOrderPosition {
  pyop_position_side : option PositionSide;
  pyop_reduce_only : bool;
  pyop_close_position : bool
}.
Record PyOrderMargin : Type := mkPyOrderMargin {
  pyom_leverage : option Leverage;
  pyom_collateral_asset : option Asset;
  pyom_auto_borrow : bool
}.
Record PyOrder : Type := mkPyOrder {
  pyor_operation : option PyOrderOperation;
  pyor_position : option PyOrderPosition;
  pyor_margin : option PyOrderMargin
}.

Record PyExecutionReportOperation : Type := mkPyExecutionReportOperation {
  pyro_underlying_asset : option Asset;
  pyro_settlement_asset : option Asset;
  pyro_account_id : option AccountId;
  pyro_side : option Side
}.
Record PyFinancialImpact : Type := mkPyFinancialImpact { pyfi_pnl : Pnl; pyfi_fee : Fee }.
Record PyExecutionReportFillDetails : Type := mkPyExecutionReportFillDetails {
  pyrf_last_trade : option Trade;
  pyrf_fee : option MonetaryAmount;
  pyrf_remaining_reserved_quantity : option Quantity;
  pyrf_lock : PreTradeLock;
  pyrf_is_final : option bool
}.
Record PyExecutionReportPositionImpact : Type := mkPyExecutionReportPositionImpact {
  pyrp_position_effect : option PositionEffect;
  pyrp_position_side : option PositionSide
}.
Record PyExecutionReport : Type := mkPyExecutionReport {
  pyre_operation : option PyExecutionReportOperation;
  pyre_financial_impact : option PyFinancialImpact;
  pyre_fill : option PyExecutionReportFillDetails;
  pyre_position_impact : option PyExecutionReportPositionImpact
}.

Record PyAccountAdjustmentBalanceOperation : Type := mkPyBalanceOperation {
  pybo_asset : option Asset;
  pybo_average_entry_price : option Price;
  pybo_realized_pnl : option PnlState
}.
Record PyAccountAdjustmentAccountPnlOperation : Type := mkPyAccountPnlOperation { pyao_state : PnlState }.
Record PyAccountAdjustmentPositionOperation : Type := mkPyPositionOperation {
  pypp_underlying_asset : option Asset;
  pypp_settlement_asset : option Asset;
  pypp_collateral_asset : option Asset;
  pypp_average_entry_price : option Price;
  pypp_mode : option PositionMode;
  pypp_leverage : option Leverage
}.
Inductive PyAccountAdjustmentOperation : Type :=
| PyOpBalance (value : PyAccountAdjustmentBalanceOperation)
| PyOpPosition (value : PyAccountAdjustmentPositionOperation)
| PyOpAccountPnl (value : PyAccountAdjustmentAccountPnlOperation).
Record PyAccountAdjustmentAmount : Type := mkPyAdjustmentAmount {
  pyaa_balance : option AdjustmentAmount;
  pyaa_held : option AdjustmentAmount;
  pyaa_incoming : option AdjustmentAmount
}.
Record PyAccountAdjustmentBounds : Type := mkPyAdjustmentBounds {
  pyab_balance_upper : option PositionSize;
  pyab_balance_lower : option PositionSize;
  pyab_held_upper : option PositionSize;
  pyab_held_lower : option PositionSize;
  pyab_incoming_upper : option PositionSize;
  pyab_incoming_lower : option PositionSize
}.
Record PyAccountAdjustment : Type := mkPyAccountAdjustment {
  pyaj_operation : option PyAccountAdjustmentOperation;
  pyaj_amount : option PyAccountAdjustmentAmount;
  pyaj_bounds : option PyAccountAdjustmentBounds
}.

(** Contexts as a callback sees them.  The recorder is the one of the pre-trade
    context it was made from, so that what it holds is whether there is one. *)
Record PyAccountControl : Set := mkPyAccountControl { pyc_account : AccountId; pyc_deferred : bool }.
Record PyPreTradeContext : Set := mkPyPreTradeContext {
  pyct_account_control : option PyAccountControl;
  pyct_drop_copy_start_mutations : bool;
  pyct_group : option AccountGroupId;
  pyct_is_drop_copy : bool
}.
Record PyAccountAdjustmentContext : Set := mkPyAccountAdjustmentContext {
  pyac_account_control : PyAccountControl;
  pyac_group : option AccountGroupId
}.
Record PyPostTradeContext : Set := mkPyPostTradeContext { pypc_group : option AccountGroupId }.

(** The caps of an order size limit, as the texts of checked values. *)
Record PyOrderSizeLimit : Set := mkPyOrderSizeLimit {
  pysl_max_quantity : option string;
  pysl_max_notional : option string
}.

(** What an instance of one of the binding's classes wraps. *)
Inductive PyValue : Type :=
| PyV_Quantity (inner : Quantity) | PyV_Price (inner : Price) | PyV_Pnl (inner : Pnl) | PyV_Fee (inner : Fee)
| PyV_Volume (inner : Volume) | PyV_Notional (inner : Notional) | PyV_CashFlow (inner : CashFlow)
| PyV_PositionSize (inner : PositionSize)
| PyV_AccountId (inner : AccountId) | PyV_AccountGroupId (inner : AccountGroupId) | PyV_Instrument (inner : Instrument)
| PyV_InstrumentId (inner : InstrumentId) | PyV_Quote (inner : Quote) | PyV_ConfigureErrorKind (value : PyConfigureErrorKind)
| PyV_OrderSizeLimit (value : PyOrderSizeLimit)
| PyV_OutcomeAmount (value : PyOutcomeAmount) | PyV_PnlOutcomeAmount (value : PyPnlOutcomeAmount)
| PyV_PnlHaltReason (value : PyPnlHaltReason) | PyV_PnlOutcome (value : PyPnlOutcome)
| PyV_AccountPnlOutcome (value : PyAccountPnlOutcome) | PyV_AccountOutcomeEntry (value : PyAccountOutcomeEntry)
| PyV_AccountAdjustmentOutcome (value : PyAccountAdjustmentOutcome)
| PyV_AccountBlock (value : PyAccountBlock) | PyV_PostTradeResult (inner : PostTradeResult)
| PyV_Order (value : PyOrder) | PyV_ExecutionReport (value : PyExecutionReport)
| PyV_AccountAdjustment (value : PyAccountAdjustment)
| PyV_PreTradeContext (value : PyPreTradeContext) | PyV_AccountAdjustmentContext (value : PyAccountAdjustmentContext)
| PyV_PostTradeContext (value : PyPostTradeContext).

(** What Rust asks of the interpreter.  [payload] is the extraction of a reference to
    an instance, which runs no Python code; every other operation may.  [cast_error] is
    the text of the error when it fails, by the name of the class, [err_setattr]
    sets an attribute of an exception's object, [None] for the attribute [None], and
    [err_restore] makes an exception the pending one. *)
Class PyRuntime {PM : PyModel} (S : Type) : Type := {
  py_import : string -> PyM S PyObj;
  getattr : PyObj -> string -> PyM S PyObj;
  hasattr : PyObj -> string -> PyM S bool;
  py_is_instance : PyObj -> PyObj -> PyM S bool;
  py_get_type : PyObj -> S -> PyObj;
  is_callable : PyObj -> S -> bool;
  call0 : PyObj -> PyM S PyObj;
  call_method1 : PyObj -> string -> list PyObj -> PyM S PyObj;
  dict_set_item : string -> PyObj -> PyM S unit;
  call_method : PyObj -> string -> list (string * PyObj) -> PyM S PyObj;
  try_iter : PyObj -> PyM S (PyIter S);
  number_index : PyObj -> PyM S PyObj;
  extract_str : PyObj -> PyM S ustr;
  extract_bool : PyObj -> PyM S bool;
  extract_int : Z -> Z -> PyObj -> PyM S Z;
  extract_f64 : PyObj -> PyM S f64;
  payload : PyObj -> S -> option PyValue;
  py_new : PyValue -> PyM S PyObj;
  err_to_string : PyErr -> S -> string * S;
  cast_error : PyObj -> string -> S -> string * S;
  err_setattr : PyErr -> string -> option PyValue -> PyM S unit;
  err_restore : PyErr -> S -> S
}.
End Classes.

(** ** Decimals *)

Definition DECIMAL_ERROR_EXCERPT_LENGTH : nat := 64.

Definition checked_i128 (z : Z) : option Z := if (- 2 ^ 127 <=? z) && (z <? 2 ^ 127) then Some z else None.
Definition checked_i64 (z : Z) : option Z := if (- 2 ^ 63 <=? z) && (z <? 2 ^ 63) then Some z else None.

Definition is_digit (b : Z) : bool := (48 <=? b) && (b <=? 57).

(** The number a string of digits spells, if it spells one. *)
Fixpoint digits_value (acc : Z) (bytes : list Z) : option Z :=
  match bytes with
  | [] => Some acc
  | b :: bytes => if is_digit b then digits_value (acc * 10 + (b - 48)) bytes else None
  end.

(** [str::parse::<i64>]. *)
Definition parse_i64 (bytes : list Z) : option Z :=
  let '(negative, digits) :=
    match bytes with
    | 43 :: digits => (false, digits)
    | 45 :: digits => (true, digits)
    | _ => (false, bytes)
    end in
  match digits with
  | [] => None
  | _ => value ← digits_value 0 digits; checked_i64 (if negative : bool then - value else value)
  end.

(** The loop over the bytes: the coefficient, the number of fractional digits and the
    exponent; [None] is the range error. *)
Fixpoint scan_decimal (bytes : list Z) (coefficient fractional_digits : Z) (fractional : bool) :
    option (Z * Z * Z) :=
  match bytes with
  | [] => Some (coefficient, fractional_digits, 0)
  | b :: bytes =>
      if is_digit b then
        number ← checked_i128 (coefficient * 10);
        coefficient ← checked_i128 (number + (b - 48));
        fractional_digits ← (if fractional then checked_i64 (fractional_digits + 1) else Some fractional_digits);
        scan_decimal bytes coefficient fractional_digits fractional
      else if b =? 46 then scan_decimal bytes coefficient fractional_digits true
      else if (b =? 69) || (b =? 101) then
        exponent ← parse_i64 bytes; Some (coefficient, fractional_digits, exponent)
      else None
  end.

(** [coefficient.checked_mul(10)], repeated. *)
Fixpoint scale_up (times : nat) (coefficient : Z) : option Z :=
  match times with
  | O => Some coefficient
  | S times => coefficient ← checked_i128 (coefficient * 10); scale_up times coefficient
  end.

Definition decimal_parts (bytes : list Z) : option (Z * Z) :=
  let negative := match bytes with 45 :: _ => true | _ => false end in
  '(coefficient, fractional_digits, exponent) ← scan_decimal (if negative : bool then tail bytes else bytes) 0 0 false;
  exponent ← checked_i64 (exponent - fractional_digits);
  '(coefficient, scale) ←
    (if exponent <? 0 then
       scale ← checked_i64 (- exponent);
       if scale <=? U32_MAX then Some (coefficient, scale) else None
     else
       coefficient ← (if coefficient =? 0 then Some coefficient else scale_up (Z.to_nat exponent) coefficient);
       Some (coefficient, 0));
  Some (if negative : bool then - coefficient else coefficient, scale).

(** A numeric wrapper: its name in Python and its instances. *)
Class PyDecimalParam {D : DecimalOps} (T : Type) : Type := {
  pdp_domain :: ParamDomain T;
  pdp_type_name : string;
  pdp_inner : PyValue -> option T
}.

Section DecimalParams.
Context {D : DecimalOps}.
#[export] Instance py_quantity : PyDecimalParam Quantity :=
  {| pdp_type_name := "Quantity"; pdp_inner v := match v with PyV_Quantity x => Some x | _ => None end |}.
#[export] Instance py_price : PyDecimalParam Price :=
  {| pdp_type_name := "Price"; pdp_inner v := match v with PyV_Price x => Some x | _ => None end |}.
#[export] Instance py_pnl : PyDecimalParam Pnl :=
  {| pdp_type_name := "Pnl"; pdp_inner v := match v with PyV_Pnl x => Some x | _ => None end |}.
#[export] Instance py_fee : PyDecimalParam Fee :=
  {| pdp_type_name := "Fee"; pdp_inner v := match v with PyV_Fee x => Some x | _ => None end |}.
#[export] Instance py_volume : PyDecimalParam Volume :=
  {| pdp_type_name := "Volume"; pdp_inner v := match v with PyV_Volume x => Some x | _ => None end |}.
#[export] Instance py_notional : PyDecimalParam Notional :=
  {| pdp_type_name := "Notional"; pdp_inner v := match v with PyV_Notional x => Some x | _ => None end |}.
#[export] Instance py_cash_flow : PyDecimalParam CashFlow :=
  {| pdp_type_name := "CashFlow"; pdp_inner v := match v with PyV_CashFlow x => Some x | _ => None end |}.
#[export] Instance py_position_size : PyDecimalParam PositionSize :=
  {| pdp_type_name := "PositionSize"; pdp_inner v := match v with PyV_PositionSize x => Some x | _ => None end |}.
End DecimalParams.

Section Values.
Context {D : DecimalOps} {DW : DecimalWire} {DF : DecimalFormat} {PM : PyModel} {S : Type} {R : PyRuntime S}.
Implicit Types (value : PyObj).

Definition create_param_error (message : string) : PyErr := new_err PyParamError message.

Definition is_python_decimal value : PyM S bool :=
  decimal_mod ← py_import "decimal"; decimal_cls ← getattr decimal_mod "Decimal"; py_is_instance value decimal_cls.

Definition parse_python_decimal value (type_name : string) : PyM S Dec :=
  decimal_mod ← py_import "decimal";
  decimal_cls ← getattr decimal_mod "Decimal";
  instance ← py_is_instance value decimal_cls;
  if negb instance then raise (new_err PyTypeError (type_name +:+ ".from_decimal expects decimal.Decimal"))
  else
    answer ← call_method1 decimal_cls "is_finite" [value];
    finite ← extract_bool answer;
    python_text ← call_method1 decimal_cls "__str__" [value];
    text ← extract_str python_text;
    let excerpt := take DECIMAL_ERROR_EXCERPT_LENGTH text in
    let excerpt := string_of_ustr excerpt +:+
      (if Nat.ltb (length (str_bytes excerpt)) (length (str_bytes text)) then "..." else "") in
    if negb finite then raise (create_param_error (type_name +:+ " decimal " +:+ excerpt +:+ " is not finite"))
    else
      let range_error := type_name +:+ " decimal " +:+ excerpt +:+ " exceeds the core decimal range" in
      match decimal_parts (str_bytes text) with
      | None => raise (create_param_error range_error)
      | Some (mantissa, scale) =>
          lift (map_err (fun error => create_param_error (range_error +:+ ": " +:+ error))
                  (dec_from_i128_with_scale mantissa scale))
      end.

(** [if let Ok(value) = value.extract::<PyRef<..>>()]. *)
Definition with_payload {A B} (inner : PyValue -> option A) value (found : A -> PyM S B) (otherwise : PyM S B) : PyM S B :=
  fun s => match payload value s ≫= inner with Some x => found x s | None => otherwise s end.

Definition extract_python_integer value (type_name : string) : PyM S Z :=
  integer ← number_index value;
  map_exc (fun _ => create_param_error (type_name +:+ " integer is outside the core decimal range"))
    (extract_int (- 2 ^ 127) (2 ^ 127 - 1) integer).

Definition decimal_param_types : list string :=
  ["Quantity"; "Volume"; "Notional"; "Price"; "Pnl"; "Fee"; "CashFlow"; "PositionSize"].

Definition is_other_decimal_param_type value (expected_type : string) : PyM S bool := fun s =>
  let py_type := py_get_type value s in
  (module ← getattr py_type "__module__"; module_name ← extract_str module;
   if negb (bool_decide (module_name = ustr_of "openpit.param")) then mret false
   else
     name ← getattr py_type "__name__"; type_name ← extract_str name;
     if bool_decide (type_name = ustr_of expected_type) then mret false
     else mret (existsb (fun known => bool_decide (type_name = ustr_of known)) decimal_param_types)) s.

(** The eight parsers [define_typed_decimal_input_parser!] defines. *)
Section DecimalInput.
Context {T : Type} {P : PyDecimalParam T}.

Definition parse_decimal_str (text : ustr) : result PyErr T :=
  map_err (fun error => create_param_error (ParamError_fmt error)) (pd_from_str text).

Definition parse_decimal_input value : PyM S T :=
  with_payload pdp_inner value mret
    (decimal ← is_python_decimal value;
     if decimal : bool then
       decimal ← parse_python_decimal value pdp_type_name; lift (parse_decimal_str (ustr_of (dec_fmt decimal)))
     else
       let error_message := pdp_type_name +:+ " must be a Decimal, str, int, or float" in
       other ← is_other_decimal_param_type value pdp_type_name;
       if other : bool then raise (new_err PyTypeError error_message)
       else
         truth ← try_ok (extract_bool value);
         if is_some truth then raise (new_err PyValueError error_message)
         else
           text ← try_ok (extract_str value);
           match text with
           | Some text => lift (parse_decimal_str text)
           | None => fun s =>
               match extract_python_integer value pdp_type_name s with
               | (Ok number, s) => (parse_decimal_str (ustr_of (pretty number)), s)
               | (Err error, s) =>
                   if is_type_error error then
                     (float ← try_ok (extract_f64 value);
                      match float with
                      | Some number => lift (parse_decimal_str (f64_display number))
                      | None => raise (new_err PyValueError error_message)
                      end) s
                   else (Err error, s)
               end
           end).
End DecimalInput.

(** ** Identifiers *)

Definition parse_asset (value : ustr) : result PyErr Asset :=
  map_err (fun error => new_err PyValueError (AssetError_fmt error)) (asset_new value).

Definition parse_asset_input value : PyM S Asset :=
  text ← try_ok (extract_str value);
  match text with
  | Some text => lift (parse_asset text)
  | None => raise (new_err PyTypeError "asset must be a str")
  end.

Definition parse_account_id_input value : PyM S AccountId :=
  with_payload (fun v => match v with PyV_AccountId x => Some x | _ => None end) value mret
    (raise (new_err PyTypeError "account_id must be openpit.param.AccountId")).

Definition account_group_inner (v : PyValue) : option AccountGroupId :=
  match v with PyV_AccountGroupId x => Some x | _ => None end.

Definition convert_account_group_id_error (error : AccountGroupIdError) : PyErr :=
  new_err PyValueError (AccountGroupIdError_fmt error).

Definition parse_account_group_id_input value : PyM S AccountGroupId :=
  with_payload account_group_inner value mret
    (raw ← map_exc (fun _ => new_err PyValueError
              "account_group_id must be an AccountGroupId or integer in range 1..=4294967295")
              (extract_int 0 U32_MAX value);
     lift (map_err convert_account_group_id_error (group_from_u32 raw))).

Definition parse_account_group_id_input_allow_default value : PyM S AccountGroupId :=
  with_payload account_group_inner value mret
    (raw ← map_exc (fun _ => new_err PyValueError
              "account_group_id must be an AccountGroupId or integer in range 0..=4294967295")
              (extract_int 0 U32_MAX value);
     if raw =? group_as_u32 DEFAULT_ACCOUNT_GROUP then mret DEFAULT_ACCOUNT_GROUP
     else lift (map_err convert_account_group_id_error (group_from_u32 raw))).

Definition parse_policy_group_id_input value : PyM S PolicyGroupId :=
  raw ← map_exc (fun _ => new_err PyValueError "policy_group_id must be an integer in range 0..=65535")
          (extract_int 0 65535 value);
  mret (mkPolicyGroupId raw).

(** ** Rejects and blocks *)

(** [str::trim] and [str::to_ascii_lowercase]. *)
Fixpoint trim_start (s : ustr) : ustr :=
  match s with [] => [] | c :: rest => if is_white_space c then trim_start rest else s end.
Definition trim (s : ustr) : ustr := rev (trim_start (rev (trim_start s))).
Definition to_ascii_lowercase (s : ustr) : ustr :=
  (fun c => if (65 <=? c) && (c <=? 90) then c + 32 else c) <$> s.

Definition parse_reject_scope (value : ustr) : result PyErr RejectScope :=
  let value := to_ascii_lowercase (trim value) in
  if bool_decide (value = ustr_of "order") then Ok RS_Order
  else if bool_decide (value = ustr_of "account") then Ok RS_Account
  else Err (new_err PyValueError "reject.scope must be either 'order' or 'account'").

(** The codes in the order of the match. *)
Definition reject_codes : list RejectCode :=
  [RC_MissingRequiredField; RC_InvalidFieldFormat; RC_InvalidFieldValue; RC_UnsupportedOrderType;
   RC_UnsupportedTimeInForce; RC_UnsupportedOrderAttribute; RC_DuplicateClientOrderId; RC_TooLateToEnter;
   RC_ExchangeClosed; RC_UnknownInstrument; RC_UnknownAccount; RC_UnknownVenue; RC_UnknownClearingAccount;
   RC_UnknownCollateralAsset; RC_InsufficientFunds; RC_InsufficientMargin; RC_InsufficientPosition;
   RC_CreditLimitExceeded; RC_RiskLimitExceeded; RC_OrderExceedsLimit; RC_OrderQtyExceedsLimit;
   RC_OrderNotionalExceedsLimit; RC_PositionLimitExceeded; RC_ConcentrationLimitExceeded;
   RC_LeverageLimitExceeded; RC_RateLimitExceeded; RC_PnlKillSwitchTriggered; RC_AccountBlocked;
   RC_AccountNotAuthorized; RC_ComplianceRestriction; RC_InstrumentRestricted; RC_JurisdictionRestriction;
   RC_WashTradePrevention; RC_SelfMatchPrevention; RC_ShortSaleRestriction; RC_RiskConfigurationMissing;
   RC_ReferenceDataUnavailable; RC_OrderValueCalculationFailed; RC_SystemUnavailable; RC_MarkPriceUnavailable;
   RC_AccountAdjustmentBoundsExceeded; RC_ArithmeticOverflow; RC_Custom; RC_Other].

Definition parse_reject_code (value : ustr) : result PyErr RejectCode :=
  ok_or (List.find (fun code => bool_decide (value = ustr_of (RejectCode_as_str code))) reject_codes)
    (new_err PyValueError ("unsupported reject code " +:+ str_debug value)).

Definition _reject_code_is_evaluation_failure (value : ustr) : result PyErr bool :=
  code ← parse_reject_code value; Ok (is_evaluation_failure code).

Definition user_data_to_usize (user_data : Z) : result PyErr Z :=
  if user_data <=? USIZE_MAX then Ok user_data
  else Err (new_err PyOverflowError "user_data token exceeds the supported range").

(** A string attribute, with the error of a value that is not one. *)
Definition str_attr value (name error : string) : PyM S ustr :=
  attr ← getattr value name; map_exc (fun _ => new_err PyValueError error) (extract_str attr).

(** The optional token of a reject or block. *)
Definition user_data_attr value (error : string) : PyM S Z :=
  present ← hasattr value "user_data";
  if present : bool then
    attr ← getattr value "user_data"; map_exc (fun _ => new_err PyValueError error) (extract_int 0 U64_MAX attr)
  else mret 0.

Definition parse_policy_reject value (policy_name : string) : PyM S Reject :=
  code ← str_attr value "code" "reject.code must be a string";
  code ← lift (parse_reject_code code);
  reason ← str_attr value "reason" "reject.reason must be a string";
  details ← str_attr value "details" "reject.details must be a string";
  scope ← str_attr value "scope" "reject.scope must be a string";
  scope ← lift (parse_reject_scope scope);
  user_data ← user_data_attr value "reject.user_data must be an integer token (default 0)";
  user_data ← lift (user_data_to_usize user_data);
  mret (reject_with_user_data
          (reject_new policy_name scope code (string_of_ustr reason) (string_of_ustr details)) user_data).

Definition parse_policy_rejects value (policy_name : string) : PyM S (list Reject) :=
  if is_none value then mret []
  else it ← try_iter value; collect (fun item => parse_policy_reject item policy_name) it.

Definition account_block_to_core (block : PyAccountBlock) : result PyErr AccountBlock :=
  user_data ← user_data_to_usize (pyb_user_data block);
  code ← parse_reject_code (ustr_of (pyb_code block));
  Ok (block_with_user_data
        (account_block_new (pyb_policy block) code (pyb_reason block) (pyb_details block)) user_data).

Definition parse_account_block value : PyM S AccountBlock :=
  with_payload (fun v => match v with PyV_AccountBlock x => Some x | _ => None end) value
    (fun block => lift (account_block_to_core block))
    (code ← str_attr value "code" "account_block.code must be a string";
     policy ← str_attr value "policy" "account_block.policy must be a string";
     reason ← str_attr value "reason" "account_block.reason must be a string";
     details ← str_attr value "details" "account_block.details must be a string";
     user_data ← user_data_attr value "account_block.user_data must be an integer token";
     code ← lift (parse_reject_code code);
     user_data ← lift (user_data_to_usize user_data);
     mret (block_with_user_data
             (account_block_new (string_of_ustr policy) code (string_of_ustr reason) (string_of_ustr details)) user_data)).

Definition convert_reject (reject : Reject) : PyReject := {|
  pyr_code := RejectCode_as_str (reject_code reject);
  pyr_reason := reject_reason reject;
  pyr_details := reject_details reject;
  pyr_policy := reject_policy reject;
  pyr_scope := match reject_scope reject with RS_Order => "order" | RS_Account => "account" end;
  pyr_user_data := reject_user_data reject
|}.

Definition convert_account_block (block : AccountBlock) : PyAccountBlock := {|
  pyb_code := RejectCode_as_str (block_code block);
  pyb_policy := block_policy block;
  pyb_reason := block_reason block;
  pyb_details := block_details block;
  pyb_user_data := block_user_data block
|}.
End Values.

(** ** Outcomes *)
Section Outcomes.
Context {D : DecimalOps} {DW : DecimalWire} {DF : DecimalFormat} {PM : PyModel} {S : Type} {R : PyRuntime S}.
Implicit Types (value : PyObj).

(** [None] for Python's, or what [parse] makes of it. *)
Definition optional {A} (parse : PyObj -> PyM S A) value : PyM S (option A) :=
  if is_none value then mret None else x ← parse value; mret (Some x).

Definition amount_to_core (amount : PyOutcomeAmount) : OutcomeAmount :=
  mkOutcomeAmount (pyo_delta amount) (pyo_absolute amount).
Definition pnl_amount_to_core (amount : PyPnlOutcomeAmount) : PnlOutcomeAmount :=
  mkPnlOutcomeAmount (pypo_delta amount) (pypo_absolute amount).

Definition parse_outcome_amount value : PyM S OutcomeAmount :=
  with_payload (fun v => match v with PyV_OutcomeAmount x => Some x | _ => None end) value
    (fun amount => mret (amount_to_core amount))
    (delta ← getattr value "delta";
     absolute ← getattr value "absolute";
     delta ← parse_decimal_input delta;
     absolute ← parse_decimal_input absolute;
     mret (mkOutcomeAmount delta absolute)).

Definition parse_optional_outcome_amount value : PyM S (option OutcomeAmount) := optional parse_outcome_amount value.

Definition parse_pnl_outcome_amount value : PyM S PnlOutcomeAmount :=
  with_payload (fun v => match v with PyV_PnlOutcomeAmount x => Some x | _ => None end) value
    (fun amount => mret (pnl_amount_to_core amount))
    (delta ← getattr value "delta";
     absolute ← getattr value "absolute";
     delta ← parse_decimal_input delta;
     absolute ← parse_decimal_input absolute;
     mret (mkPnlOutcomeAmount delta absolute)).

Definition pnl_halt_reason_to_core (value : PyPnlHaltReason) : PnlHaltReason :=
  match value with
  | PyMissingFx => MissingFx
  | PyMissingAccountCurrency => MissingAccountCurrency
  | PyMissingInitialPnl => MissingInitialPnl
  | PyMissingCostBasis => MissingCostBasis
  | PyArithmeticOverflow => ArithmeticOverflow
  end.

Definition halt_reason_inner (v : PyValue) : option PyPnlHaltReason :=
  match v with PyV_PnlHaltReason x => Some x | _ => None end.

Definition parse_pnl_halt_reason value (field : string) : PyM S PyPnlHaltReason :=
  with_payload halt_reason_inner value mret
    (raise (new_err PyTypeError (field +:+ " must be openpit.pretrade.PnlHaltReason"))).

Definition parse_pnl_state_input value : PyM S PnlState :=
  with_payload halt_reason_inner value (fun reason => mret (PnlHalted (pnl_halt_reason_to_core reason)))
    (pnl ← parse_decimal_input value; mret (PnlValue pnl)).

Definition build_pnl_result (pnl : option PnlOutcomeAmount) (halt_reason : option PyPnlHaltReason) :
    result PyErr PnlOutcome :=
  match pnl, halt_reason with
  | Some amount, None => Ok (Ok amount)
  | None, Some reason => Ok (Err (pnl_halt_reason_to_core reason))
  | _, _ => Err (new_err PyValueError "PnL outcome requires exactly one of pnl or halt_reason")
  end.

Definition pnl_outcome_to_core (outcome : PyPnlOutcome) : result PyErr PnlOutcome :=
  build_pnl_result (pnl_amount_to_core <$> pyp_pnl outcome) (pyp_halt_reason outcome).

(** The two attributes a P&L outcome is read from. *)
Definition pnl_attrs value (field : string) : PyM S (option PnlOutcomeAmount * option PyPnlHaltReason) :=
  pnl_value ← getattr value "pnl";
  pnl ← optional parse_pnl_outcome_amount pnl_value;
  halt_reason_value ← getattr value "halt_reason";
  halt_reason ← optional (fun value => parse_pnl_halt_reason value field) halt_reason_value;
  mret (pnl, halt_reason).

Definition parse_pnl_outcome value : PyM S PnlOutcome :=
  with_payload (fun v => match v with PyV_PnlOutcome x => Some x | _ => None end) value
    (fun outcome => lift (pnl_outcome_to_core outcome))
    ('(pnl, halt_reason) ← pnl_attrs value "PnlOutcome.halt_reason"; lift (build_pnl_result pnl halt_reason)).

Definition parse_optional_pnl_outcome value : PyM S (option PnlOutcome) := optional parse_pnl_outcome value.

Definition parse_account_pnl_outcome value : PyM S AccountPnlOutcome :=
  with_payload (fun v => match v with PyV_AccountPnlOutcome x => Some x | _ => None end) value
    (fun outcome =>
       result ← lift (build_pnl_result (pnl_amount_to_core <$> pyap_pnl outcome) (pyap_halt_reason outcome));
       mret (mkAccountPnlOutcome result (pyap_account_id outcome) (pyap_policy_group_id outcome)))
    ('(pnl, halt_reason) ← pnl_attrs value "AccountPnlOutcome.halt_reason";
     result ← lift (build_pnl_result pnl halt_reason);
     account_id ← getattr value "account_id";
     account_id ← parse_account_id_input account_id;
     policy_group_id ← getattr value "policy_group_id";
     policy_group_id ← parse_policy_group_id_input policy_group_id;
     mret (mkAccountPnlOutcome result account_id policy_group_id)).

Definition entry_to_core (entry : PyAccountOutcomeEntry) : result PyErr AccountOutcomeEntry :=
  realized_pnl ← match pye_realized_pnl entry with
                 | None => Ok None
                 | Some outcome => Some <$> pnl_outcome_to_core outcome
                 end;
  Ok {| aoe_asset := pye_asset entry;
        aoe_balance := amount_to_core <$> pye_balance entry;
        aoe_held := amount_to_core <$> pye_held entry;
        aoe_incoming := amount_to_core <$> pye_incoming entry;
        aoe_realized_pnl := realized_pnl;
        aoe_average_entry_price := pye_average_entry_price entry |}.

Definition parse_account_outcome_entry value : PyM S AccountOutcomeEntry :=
  with_payload (fun v => match v with PyV_AccountOutcomeEntry x => Some x | _ => None end) value
    (fun entry => lift (entry_to_core entry))
    (avg ← getattr value "average_entry_price";
     asset ← getattr value "asset"; asset ← parse_asset_input asset;
     balance ← getattr value "balance"; balance ← parse_optional_outcome_amount balance;
     held ← getattr value "held"; held ← parse_optional_outcome_amount held;
     incoming ← getattr value "incoming"; incoming ← parse_optional_outcome_amount incoming;
     realized_pnl ← getattr value "realized_pnl"; realized_pnl ← parse_optional_pnl_outcome realized_pnl;
     average_entry_price ← optional parse_decimal_input avg;
     mret {| aoe_asset := asset;
             aoe_balance := balance;
             aoe_held := held;
             aoe_incoming := incoming;
             aoe_realized_pnl := realized_pnl;
             aoe_average_entry_price := average_entry_price |}).

Definition parse_account_adjustment_outcome value : PyM S AccountAdjustmentOutcome :=
  with_payload (fun v => match v with PyV_AccountAdjustmentOutcome x => Some x | _ => None end) value
    (fun outcome =>
       entry ← lift (entry_to_core (pya_entry outcome));
       mret (mkAccountAdjustmentOutcome (pya_policy_group_id outcome) entry))
    (policy_group_id ← getattr value "policy_group_id";
     policy_group_id ← parse_policy_group_id_input policy_group_id;
     entry ← getattr value "entry";
     entry ← parse_account_outcome_entry entry;
     mret (mkAccountAdjustmentOutcome policy_group_id entry)).

(** The three list parsers. *)
Definition parse_list {A} (parse : PyObj -> PyM S A) value : PyM S (list A) :=
  it ← try_iter value; collect parse it.
Definition parse_account_block_list value : PyM S (list AccountBlock) := parse_list parse_account_block value.
Definition parse_account_adjustment_outcome_list value : PyM S (list AccountAdjustmentOutcome) :=
  parse_list parse_account_adjustment_outcome value.
Definition parse_account_pnl_outcome_list value : PyM S (list AccountPnlOutcome) :=
  parse_list parse_account_pnl_outcome value.

Definition parse_post_trade_result value : PyM S PostTradeResult :=
  with_payload (fun v => match v with PyV_PostTradeResult x => Some x | _ => None end) value mret
    (blocks ← getattr value "account_blocks"; blocks ← parse_account_block_list blocks;
     pnls ← getattr value "account_pnls"; pnls ← parse_account_pnl_outcome_list pnls;
     adjustments ← getattr value "account_adjustments";
     adjustments ← parse_account_adjustment_outcome_list adjustments;
     mret (mkPostTradeResult blocks pnls adjustments)).

(** *** Back to Python *)

Definition convert_outcome_amount (value : OutcomeAmount) : PyOutcomeAmount :=
  mkPyOutcomeAmount (oa_delta value) (oa_absolute value).
Definition convert_pnl_outcome_amount (value : PnlOutcomeAmount) : PyPnlOutcomeAmount :=
  mkPyPnlOutcomeAmount (poa_delta value) (poa_absolute value).

Definition convert_pnl_halt_reason (value : PnlHaltReason) : PyPnlHaltReason :=
  match value with
  | MissingFx => PyMissingFx
  | MissingAccountCurrency => PyMissingAccountCurrency
  | MissingInitialPnl => PyMissingInitialPnl
  | MissingCostBasis => PyMissingCostBasis
  | ArithmeticOverflow => PyArithmeticOverflow
  end.

(** The two fields a result is shown in. *)
Definition shown_pnl (value : PnlOutcome) : option PyPnlOutcomeAmount * option PyPnlHaltReason :=
  match value with
  | Ok amount => (Some (convert_pnl_outcome_amount amount), None)
  | Err reason => (None, Some (convert_pnl_halt_reason reason))
  end.

Definition convert_pnl_outcome (value : PnlOutcome) : PyPnlOutcome :=
  let '(pnl, halt_reason) := shown_pnl value in mkPyPnlOutcome pnl halt_reason.

Definition convert_account_pnl_outcome (value : AccountPnlOutcome) : PyAccountPnlOutcome :=
  let '(pnl, halt_reason) := shown_pnl (apo_result value) in
  mkPyAccountPnlOutcome (apo_policy_group_id value) (apo_account_id value) pnl halt_reason.

Definition convert_outcome_entry (value : AccountOutcomeEntry) : PyAccountOutcomeEntry := {|
  pye_asset := aoe_asset value;
  pye_balance := convert_outcome_amount <$> aoe_balance value;
  pye_held := convert_outcome_amount <$> aoe_held value;
  pye_incoming := convert_outcome_amount <$> aoe_incoming value;
  pye_realized_pnl := convert_pnl_outcome <$> aoe_realized_pnl value;
  pye_average_entry_price := aoe_average_entry_price value
|}.

Definition convert_adjustment_outcome (value : AccountAdjustmentOutcome) : PyAccountAdjustmentOutcome :=
  mkPyAccountAdjustmentOutcome (aao_policy_group_id value) (convert_outcome_entry (aao_entry value)).
End Outcomes.
