(* ===== verification/PythonPolicy.v ===== *)
(** * PythonPolicy: policies written in Python

    src/bindings/python/src/lib.rs: the contexts a callback is given, the mutations it
    returns, the adapter that makes a Python object a policy, and the requests read
    from Python objects.  The Python code of a hook runs on the state of that hook, so
    each kind of state has its own [PyRuntime]. *)
From S2P Require Import Prelude.
From S2P Require Import Decimal.
From S2P Require Import Param.
From S2P Require Import ParamTypes.
From S2P Require Import Identifiers.
From S2P Require Import Mutation.
From S2P Require Import Reject.
From S2P Require Import AccountControl.
From S2P Require Import Accounts.
From S2P Require Import Lock.
From S2P Require Import Policy.
From S2P Require Import FfiParam.
From S2P Require Import Requests.
From S2P Require Import Interop.
From S2P Require Import Python.
Open Scope Z_scope.

(** Rust code that keeps the collector of mutations at hand while Python runs. *)
Definition on_state {PM : PyModel} {C S A} (m : PyM S A) : PyM (C * S) A := fun x =>
  let '(r, s) := m x.2 in (r, (x.1, s)).

(** The requests of the binding: what was read from the caller's object, with the object
    itself. *)
Definition PyOrderRequest {D : DecimalOps} {PM : PyModel} : Type := RequestWithPayload InteropOrder PyObj.
Definition PyReportRequest {D : DecimalOps} {PM : PyModel} : Type := RequestWithPayload InteropExecutionReport PyObj.
Definition PyAdjustmentRequest {D : DecimalOps} {PM : PyModel} : Type :=
  RequestWithPayload InteropAccountAdjustment PyObj.

Section PythonPolicy.
Context {D : DecimalOps} {DW : DecimalWire} {DF : DecimalFormat} {PM : PyModel} {W : Type} {O : Owns W Frames}.

Abbreviation St := (EngineState W).
Abbreviation PRejects := (Rejects PolicyPreTradeResult).
Abbreviation CellState := (GroupCell * St)%type.
Context {RH : PyRuntime (HookState W)} {RC : PyRuntime CellState} {RS : PyRuntime St}.
Implicit Types (st : St) (s : HookState W) (ctx : PreTradeContext) (mutations : Mutations St) (value : PyObj).

(** ** Mutations *)

Definition mutation_callback (callable : PyObj) st : result string unit * St :=
  match call0 callable st with
  | (Ok _, st) => (Ok tt, st)
  | (Err error, st) => let '(details, st) := err_to_string error st in (Err details, park error st)
  end.

Section Decisions.
Context {S : Type} {R : PyRuntime S}.

Definition parse_policy_mutation value : PyM S (Mutation St) :=
  commit_callable ← getattr value "commit";
  rollback_callable ← getattr value "rollback";
  mret (new_fallible_with_error (mutation_callback commit_callable) (mutation_callback rollback_callable)).

Definition push_mutation (item : PyObj) mutations (s : S) : result PyErr unit * (Mutations St * S) :=
  match parse_policy_mutation item s with
  | (Ok mutation, s) => (Ok tt, (mutations_push mutations mutation, s))
  | (Err e, s) => (Err e, (mutations, s))
  end.

Definition push_mutations (it : PyIter S) : PyM (Mutations St * S) unit := fun x => py_for push_mutation it x.1 x.2.

(** The rejects of a decision; its mutations are pushed as they are parsed. *)
Definition apply_policy_decision (policy_name : string) (decision : PyObj) : PyM (Mutations St * S) (list Reject) :=
  rejects ← on_state (C:=Mutations St) (reject_items ← getattr decision "rejects";
                      it ← try_iter reject_items;
                      collect (fun item => parse_policy_reject item policy_name) it);
  it ← on_state (mutation_items ← getattr decision "mutations"; try_iter mutation_items);
  _ ← push_mutations it;
  mret rejects.

Definition apply_policy_pre_trade_result (policy_name : string) value :
    PyM (Mutations St * S) (option PolicyPreTradeResult * list Reject) :=
  if is_none value then mret (None, [])
  else
    has_rejects ← on_state (hasattr value "rejects");
    is_decision ← (if has_rejects : bool then mret true else on_state (hasattr value "mutations"));
    rejects ← (if is_decision : bool then apply_policy_decision policy_name value else mret []);
    on_state
      (has_account_adjustments ← hasattr value "account_adjustments";
       has_lock_prices ← hasattr value "lock_prices";
       if negb has_account_adjustments && negb has_lock_prices then mret (None, rejects)
       else
         account_adjustments ←
           (if has_account_adjustments : bool then
              items ← getattr value "account_adjustments"; parse_list parse_account_outcome_entry items
            else mret []);
         lock_prices ←
           (if has_lock_prices : bool then
              items ← getattr value "lock_prices"; parse_list parse_decimal_input items
            else mret []);
         mret (match account_adjustments, lock_prices with
               | [], [] => None
               | _, _ => Some (mkPolicyPreTradeResult account_adjustments lock_prices)
               end, rejects)).
End Decisions.

(** ** Contexts *)

Definition PyPreTradeContext_from ctx s : PyPreTradeContext * HookState W :=
  let '(group, s) := account_group ctx s in
  ({| pyct_account_control := (fun account => mkPyAccountControl account (is_drop_copy ctx)) <$> known_account ctx;
      pyct_drop_copy_start_mutations := is_drop_copy ctx;
      pyct_group := group;
      pyct_is_drop_copy := is_drop_copy ctx |}, s).

Definition PyAccountAdjustmentContext_from (ctx : AccountAdjustmentContext) (s : CellState) :
    PyAccountAdjustmentContext * CellState :=
  let '(group, cell) := group_lookup (Some (aac_account ctx)) s.1 s.2 in
  (mkPyAccountAdjustmentContext (mkPyAccountControl (aac_account ctx) false) group, (cell, s.2)).

Definition PyPostTradeContext_from (ctx : PostTradeContext) (s : CellState) : PyPostTradeContext * CellState :=
  let '(group, cell) := group_lookup (pstc_account ctx) s.1 s.2 in (mkPyPostTradeContext group, (cell, s.2)).

(** [AccountControl.block], on the operations the control shares and the engine. *)
Definition py_account_control_block (self : PyAccountControl) (block : PyAccountBlock)
    (operations : DeferredAccountOperations) st : result PyErr unit * (DeferredAccountOperations * St) :=
  match account_block_to_core block with
  | Err e => (Err e, (operations, st))
  | Ok block =>
      let '(d, b) := control_block (if pyc_deferred self then Some operations else None) (es_blocked st)
                       (pyc_account self) block in
      (Ok tt, (default operations d, set_blocked st b))
  end.

(** [DropCopyStartMutationRecorder]. *)
Definition recorder_is_active (s : HookState W) : bool := is_some (cc_start_mutations s.1).
Definition recorder_record (mutation : Mutation St) s : result (Mutation St) unit * HookState W :=
  match cc_start_mutations s.1 with
  | None => (Err mutation, s)
  | Some mutations =>
      (Ok tt, (mkContextCells (cc_group s.1) (cc_operations s.1) (Some (mutations_push mutations mutation)), s.2))
  end.

Definition inactive_context : PyErr := new_err PyRuntimeError "context is not an active drop-copy operation".

Definition py_record_drop_copy_start_mutation (self : PyPreTradeContext) (mutation : PyObj) : PyM (HookState W) unit :=
  fun s =>
    if negb (pyct_drop_copy_start_mutations self) then (Err inactive_context, s)
    else if negb (recorder_is_active s) then (Err inactive_context, s)
    else
      match parse_policy_mutation mutation s with
      | (Err e, s) => (Err e, s)
      | (Ok mutation, s) =>
          let '(r, s) := recorder_record mutation s in (map_err (fun _ => inactive_context) r, s)
      end.

(** ** The adapter *)

Definition python_callback_reject (policy_name : string) : Reject :=
  reject_new policy_name RS_Order RC_SystemUnavailable "python policy callback failed"
    "python policy callback raised an exception".
Definition python_callback_rejects (policy_name : string) : PRejects :=
  rejects_from_reject (python_callback_reject policy_name).

Record PythonPreTradePolicyAdapter : Type := mkAdapter {
  ppa_name : string;
  ppa_policy_group_id : PolicyGroupId;
  ppa_policy : PyObj
}.
Implicit Types (self : PythonPreTradePolicyAdapter).

(** The exception of a hook is parked, and the hook rejects. *)
Definition reject_exception {S A} {HF : HasFrames S} self (r : result PyErr A) (s : S) : result PRejects A * S :=
  match r with
  | Ok x => (Ok x, s)
  | Err error => (Err (python_callback_rejects (ppa_name self)), park error s)
  end.

Definition verdict (rejects : list Reject) : result PRejects unit :=
  match rejects with [] => Ok tt | _ => Err (rejects_new rejects) end.

(** The Python code behind both start hooks, by the method it calls. *)
Definition run_start_hook (method : string) self ctx (order : PyOrderRequest) : PyM (HookState W) (list Reject) := fun s =>
  let '(context, s) := PyPreTradeContext_from ctx s in
  (policy_ctx ← py_new (PyV_PreTradeContext context);
   result ← call_method1 (ppa_policy self) method [policy_ctx; rwp_payload order];
   parse_policy_rejects result (ppa_name self)) s.

Definition call_start_hook (method : string) self ctx (order : PyOrderRequest) s : result PRejects unit * HookState W :=
  let '(r, s) := run_start_hook method self ctx order s in
  let '(r, s) := reject_exception self r s in
  (rejects ← r; verdict rejects, s).

(** Behind both main hooks: the result and the rejects of what the method returned. *)
Definition run_main_hook (method : string) self ctx (order : PyOrderRequest) :
    PyM (Mutations St * HookState W) (option PolicyPreTradeResult * list Reject) := fun x =>
  let '(context, s) := PyPreTradeContext_from ctx x.2 in
  (decision ← on_state (policy_ctx ← py_new (PyV_PreTradeContext context);
                        call_method1 (ppa_policy self) method [policy_ctx; rwp_payload order]);
   apply_policy_pre_trade_result (ppa_name self) decision) (x.1, s).

Definition call_main_hook (method : string) self ctx (order : PyOrderRequest) mutations s :
    result PRejects (option PolicyPreTradeResult * list Reject) * Mutations St * HookState W :=
  let '(r, (mutations, s)) := run_main_hook method self ctx order (mutations, s) in
  let '(r, s) := reject_exception self r s in
  (r, mutations, s).

Definition adapter_check_pre_trade_start self ctx order s := call_start_hook "check_pre_trade_start" self ctx order s.

Definition adapter_perform_pre_trade_check self ctx order mutations s :
    result PRejects (option PolicyPreTradeResult) * Mutations St * HookState W :=
  let '(r, mutations, s) := call_main_hook "perform_pre_trade_check" self ctx order mutations s in
  (match r with
   | Err rejects => Err rejects
   | Ok (result, []) => Ok result
   | Ok (result, rejects) =>
       let rejects := rejects_new rejects in
       Err match result with Some result => with_policy_result rejects result | None => rejects end
   end, mutations, s).

(** The name of a dry-run method, or of the method it falls back to. *)
Definition dry_run_method self (method : string) s : string * HookState W :=
  let dry_run := method +:+ "_dry_run" in
  let '(has_dry_run, s) := hasattr (ppa_policy self) dry_run s in
  (match has_dry_run with Ok true => dry_run | _ => method end, s).

Definition adapter_check_pre_trade_start_dry_run self ctx order s :=
  let '(method, s) := dry_run_method self "check_pre_trade_start" s in call_start_hook method self ctx order s.

Definition adapter_perform_pre_trade_check_dry_run self ctx order mutations s :
    result PRejects (option PolicyPreTradeResult) * Mutations St * HookState W :=
  let '(method, s) := dry_run_method self "perform_pre_trade_check" s in
  let '(r, mutations, s) := call_main_hook method self ctx order mutations s in
  (match r with
   | Err rejects => Err rejects
   | Ok (result, []) => Ok result
   | Ok (_, rejects) => Err (rejects_new rejects)
   end, mutations, s).

(** What an object returned for a report means; [None] for the two that are no
    result. *)
Definition post_trade_answer (result : PyObj) : PyM CellState (option PostTradeResult) :=
  if is_none result then mret None
  else
    truth ← try_ok (extract_bool result);
    match truth with
    | Some false => mret None
    | _ =>
        truth ← try_ok (extract_bool result);
        match truth with
        | Some true =>
            raise (new_err PyTypeError
              "apply_execution_report must return PostTradeResult or None; bool True no longer maps to a synthetic account block")
        | _ => result ← parse_post_trade_result result; mret (Some result)
        end
    end.

Definition post_trade_is_empty (result : PostTradeResult) : bool :=
  is_nil (ptr_account_blocks result) && is_nil (ptr_account_adjustments result) && is_nil (ptr_account_pnls result).

Definition run_report_hook self (ctx : PostTradeContext) (report : PyReportRequest) :
    PyM CellState (option PostTradeResult) := fun (s : CellState) =>
  let '(context, s) := PyPostTradeContext_from ctx s in
  (post_trade_ctx ← py_new (S:=CellState) (PyV_PostTradeContext context);
   _ ← dict_set_item "ctx" post_trade_ctx;
   _ ← dict_set_item "report" (rwp_payload report);
   result ← call_method (ppa_policy self) "apply_execution_report"
              [("ctx"%string, post_trade_ctx); ("report"%string, rwp_payload report)];
   post_trade_answer result : PyM CellState _) s.

(** Here an exception is parked, and the hook answers nothing. *)
Definition adapter_apply_execution_report self (ctx : PostTradeContext) (report : PyReportRequest) (s : CellState) :
    option PostTradeResult * CellState :=
  match run_report_hook self ctx report s with
  | (Err error, s) => (None, park error s)
  | (Ok None, s) => (None, s)
  | (Ok (Some result), s) => (if post_trade_is_empty result then None else Some result, s)
  end.

Definition run_adjustment_hook self (ctx : AccountAdjustmentContext) (account : AccountId)
    (adjustment : PyAdjustmentRequest) :
    PyM (Mutations St * CellState) (result PRejects PolicyAccountAdjustmentResult) := fun (x : Mutations St * CellState) =>
  let '(context, s) := PyAccountAdjustmentContext_from ctx x.2 in
  (result ← on_state (adjustment_ctx ← py_new (PyV_AccountAdjustmentContext context);
                      py_account_id ← py_new (PyV_AccountId account);
                      call_method1 (ppa_policy self) "apply_account_adjustment"
                        [adjustment_ctx; py_account_id; rwp_payload adjustment]);
   rejects ← apply_policy_decision (ppa_name self) result;
   match rejects with
   | [] =>
       on_state (items ← getattr result "account_adjustments";
                 account_adjustments ← parse_list parse_account_outcome_entry items;
                 items ← getattr result "account_blocks";
                 account_blocks ← parse_account_block_list items;
                 mret (Ok (mkPolicyAccountAdjustmentResult account_adjustments account_blocks)))
   | _ => mret (Err (rejects_new rejects))
   end) (x.1, s).

Definition adapter_apply_account_adjustment self (ctx : AccountAdjustmentContext) (account : AccountId)
    (adjustment : PyAdjustmentRequest) mutations (s : CellState) :
    result PRejects PolicyAccountAdjustmentResult * Mutations St * CellState :=
  let '(r, (mutations, s)) := run_adjustment_hook self ctx account adjustment (mutations, s) in
  let '(r, s) := reject_exception self r s in
  (r ← r; r, mutations, s).

Definition adapter_policy self : PreTradePolicy W PyOrderRequest PyReportRequest PyAdjustmentRequest := {|
  pol_name := ppa_name self;
  policy_group_id := ppa_policy_group_id self;
  check_pre_trade_start := adapter_check_pre_trade_start self;
  check_pre_trade_start_dry_run := adapter_check_pre_trade_start_dry_run self;
  perform_pre_trade_check := adapter_perform_pre_trade_check self;
  perform_pre_trade_check_dry_run := adapter_perform_pre_trade_check_dry_run self;
  pol_apply_execution_report := adapter_apply_execution_report self;
  pol_apply_account_adjustment := adapter_apply_account_adjustment self;
  pol_retire_account := retire_default
|}.

(** The box hands on every hook but the retirement one, which it leaves to the trait. *)
Definition BoxedPreTradePolicy (inner : PreTradePolicy W PyOrderRequest PyReportRequest PyAdjustmentRequest) :
    PreTradePolicy W PyOrderRequest PyReportRequest PyAdjustmentRequest := {|
  pol_name := pol_name inner;
  policy_group_id := policy_group_id inner;
  check_pre_trade_start := check_pre_trade_start inner;
  check_pre_trade_start_dry_run := check_pre_trade_start_dry_run inner;
  perform_pre_trade_check := perform_pre_trade_check inner;
  perform_pre_trade_check_dry_run := perform_pre_trade_check_dry_run inner;
  pol_apply_execution_report := pol_apply_execution_report inner;
  pol_apply_account_adjustment := pol_apply_account_adjustment inner;
  pol_retire_account := retire_default
|}.

(** ** Requests *)

(** An instrument needs both assets. *)
Definition instrument_of (underlying_asset settlement_asset : option Asset) : option Instrument :=
  match underlying_asset, settlement_asset with
  | Some underlying_asset, Some settlement_asset => Some (mkInstrument underlying_asset settlement_asset)
  | _, _ => None
  end.

Definition order_fields (order : PyOrder) : InteropOrder := {|
  io_operation :=
    match pyor_operation order with
    | None => OrderOperationAccess_Absent
    | Some op =>
        OrderOperationAccess_Populated {|
          poop_instrument := instrument_of (pyoo_underlying_asset op) (pyoo_settlement_asset op);
          poop_account_id := pyoo_account_id op;
          poop_side := pyoo_side op;
          poop_trade_amount := pyoo_trade_amount op;
          poop_price := pyoo_price op |}
    end;
  io_position :=
    match pyor_position order with
    | None => OrderPositionAccess_Absent
    | Some pos =>
        OrderPositionAccess_Populated {|
          popo_position_side := pyop_position_side pos;
          popo_reduce_only := pyop_reduce_only pos;
          popo_close_position := pyop_close_position pos |}
    end;
  io_margin :=
    match pyor_margin order with
    | None => OrderMarginAccess_Absent
    | Some m =>
        OrderMarginAccess_Populated {|
          pom_leverage := pyom_leverage m;
          pom_collateral_asset := pyom_collateral_asset m;
          pom_auto_borrow := pyom_auto_borrow m |}
    end
|}.

Definition report_fields (report : PyExecutionReport) : InteropExecutionReport := {|
  ir_operation :=
    match pyre_operation report with
    | None => ExecutionReportOperationAccess_Absent
    | Some op =>
        ExecutionReportOperationAccess_Populated {|
          pero_instrument := instrument_of (pyro_underlying_asset op) (pyro_settlement_asset op);
          pero_account_id := pyro_account_id op;
          pero_side := pyro_side op |}
    end;
  ir_financial_impact :=
    match pyre_financial_impact report with
    | None => FinancialImpactAccess_Absent
    | Some fi =>
        FinancialImpactAccess_Populated {| pfi_pnl := Some (pyfi_pnl fi); pfi_fee := Some (pyfi_fee fi) |}
    end;
  ir_fill :=
    match pyre_fill report with
    | None => ExecutionReportFillAccess_Absent
    | Some f =>
        ExecutionReportFillAccess_Populated {|
          perf_last_trade := pyrf_last_trade f;
          perf_fee := pyrf_fee f;
          perf_remaining_reserved_quantity := pyrf_remaining_reserved_quantity f;
          perf_lock := Some (pyrf_lock f);
          perf_is_final := pyrf_is_final f |}
    end;
  ir_position_impact :=
    match pyre_position_impact report with
    | None => ExecutionReportPositionImpactAccess_Absent
    | Some pi =>
        ExecutionReportPositionImpactAccess_Populated {|
          perpi_position_effect := pyrp_position_effect pi;
          perpi_position_side := pyrp_position_side pi |}
    end
|}.

Definition adjustment_operation (op : PyAccountAdjustmentOperation) : PopulatedAccountAdjustmentOperation :=
  match op with
  | PyOpBalance o =>
      OpBalance {| pbo_asset := pybo_asset o;
                   pbo_average_entry_price := pybo_average_entry_price o;
                   pbo_realized_pnl := pybo_realized_pnl o |}
  | PyOpPosition o =>
      OpPosition {| ppo_instrument := instrument_of (pypp_underlying_asset o) (pypp_settlement_asset o);
                    ppo_collateral_asset := pypp_collateral_asset o;
                    ppo_average_entry_price := pypp_average_entry_price o;
                    ppo_mode := pypp_mode o;
                    ppo_leverage := pypp_leverage o |}
  | PyOpAccountPnl o => OpAccountPnl {| papo_state := pyao_state o |}
  end.

Definition adjustment_fields (adjustment : PyAccountAdjustment) : InteropAccountAdjustment := {|
  ia_operation :=
    match pyaj_operation adjustment with
    | None => AccountAdjustmentOperationAccess_Absent
    | Some op => AccountAdjustmentOperationAccess_Populated (adjustment_operation op)
    end;
  ia_amount :=
    match pyaj_amount adjustment with
    | None => AccountAdjustmentAmountAccess_Absent
    | Some a =>
        AccountAdjustmentAmountAccess_Populated
          (mkAccountAdjustmentAmount (pyaa_balance a) (pyaa_held a) (pyaa_incoming a))
    end;
  ia_bounds :=
    match pyaj_bounds adjustment with
    | None => AccountAdjustmentBoundsAccess_Absent
    | Some b =>
        AccountAdjustmentBoundsAccess_Populated {|
          abn_balance_upper := pyab_balance_upper b; abn_balance_lower := pyab_balance_lower b;
          abn_held_upper := pyab_held_upper b; abn_held_lower := pyab_held_lower b;
          abn_incoming_upper := pyab_incoming_upper b; abn_incoming_lower := pyab_incoming_lower b |}
    end
|}.

(** The object itself stays with the request as its payload. *)
Definition extract_python_order (obj : PyObj) : PyM St PyOrderRequest :=
  with_payload (fun v => match v with PyV_Order x => Some x | _ => None end) obj
    (fun order => mret (mkRequestWithPayload (order_fields order) obj))
    (raise (new_err PyTypeError "order must inherit from openpit.Order")).

Definition extract_python_execution_report (obj : PyObj) : PyM St PyReportRequest :=
  with_payload (fun v => match v with PyV_ExecutionReport x => Some x | _ => None end) obj
    (fun report => mret (mkRequestWithPayload (report_fields report) obj))
    (raise (new_err PyTypeError "report must inherit from openpit.ExecutionReport")).

Definition extract_python_account_adjustment (obj : PyObj) : PyM St PyAdjustmentRequest :=
  with_payload (fun v => match v with PyV_AccountAdjustment x => Some x | _ => None end) obj
    (fun adjustment => mret (mkRequestWithPayload (adjustment_fields adjustment) obj))
    (raise (new_err PyTypeError "adjustment must inherit from openpit.AccountAdjustment")).
End PythonPolicy.
