(* ===== verification/PythonEngine.v ===== *)
(** * PythonEngine: the engine, its builder and its handles in Python

    src/bindings/python/src/lib.rs: [ReadyEngineBuilder], the calls of [Engine] and
    [Accounts], and the single-use handles.  Each call that may run callbacks does so
    in a scope of its own ([in_scope]).  Allocating a result object is taken to
    succeed. *)
From S2P Require Import Prelude.
From S2P Require Import Decimal.
From S2P Require Import Param.
From S2P Require Import ParamTypes.
From S2P Require Import Identifiers.
From S2P Require Import Utf8.
From S2P Require Import Mutation.
From S2P Require Import Reject.
From S2P Require Import AccountControl.
From S2P Require Import Accounts.
From S2P Require Import Lock.
From S2P Require Import Policy.
From S2P Require Import Engine.
From S2P Require Import Locking.
From S2P Require Import Ffi.
From S2P Require Import FfiParam.
From S2P Require Import SpotFundsParts.
From S2P Require Import Requests.
From S2P Require Import Interop.
From S2P Require Import Configure.
From S2P Require Import FfiErrors.
From S2P Require Import Python.
From S2P Require Import PythonPolicy.
Open Scope Z_scope.

(** The engine of the binding. *)
Definition PyEngine {D : DecimalOps} {PM : PyModel} (W : Type) : Type :=
  EngineInner (W:=W) (Order:=PyOrderRequest) (Report:=PyReportRequest) (Adjustment:=PyAdjustmentRequest).

Section PythonEngine.
Context {D : DecimalOps} {DW : DecimalWire} {DF : DecimalFormat} {G : DecimalDebug} {PM : PyModel}.
Context {W : Type} {O : Owns W Frames}.

Abbreviation St := (EngineState W).
Abbreviation PyPolicy := (PreTradePolicy W PyOrderRequest PyReportRequest PyAdjustmentRequest).
Abbreviation PyRegistered :=
  (RegisteredPolicy (W:=W) (Order:=PyOrderRequest) (Report:=PyReportRequest) (Adjustment:=PyAdjustmentRequest)).
Abbreviation PyCoreBuilder :=
  (EngineBuilder (W:=W) (Order:=PyOrderRequest) (Report:=PyReportRequest) (Adjustment:=PyAdjustmentRequest)).
Context {RH : PyRuntime (HookState W)} {RC : PyRuntime (GroupCell * St)} {RS : PyRuntime St}.
Implicit Types (st : St) (engine : PyEngine W).

(** ** The builder *)

Inductive PyBuilderState : Type := PyBuilder_Synced (builder : PyCoreBuilder) | PyBuilder_Ready (builder : PyCoreBuilder).

Record PyReadyEngineBuilder : Type := mkReadyBuilder {
  rb_state : option PyBuilderState;
  rb_sync_policy : RuntimeSyncMode
}.

Definition ready_builder_new (sync_policy : RuntimeSyncMode) : PyReadyEngineBuilder :=
  mkReadyBuilder (Some (PyBuilder_Synced builder_new)) sync_policy.

Definition builder_unavailable : PyErr := new_err PyValueError "engine builder is no longer available".

(** Both kinds of state take a policy, and are ready then. *)
Definition state_add_policy (state : PyBuilderState) (policy : PyRegistered) : PyBuilderState :=
  match state with
  | PyBuilder_Synced builder => PyBuilder_Ready (pre_trade builder policy)
  | PyBuilder_Ready builder => PyBuilder_Ready (pre_trade builder policy)
  end.

Definition with_state (self : PyReadyEngineBuilder) (f : PyBuilderState -> PyBuilderState) :
    result PyErr unit * PyReadyEngineBuilder :=
  match rb_state self with
  | None => (Err builder_unavailable, self)
  | Some state => (Ok tt, mkReadyBuilder (Some (f state)) (rb_sync_policy self))
  end.

Definition add_policy (self : PyReadyEngineBuilder) (policy : PyRegistered) : result PyErr unit * PyReadyEngineBuilder :=
  with_state self (fun state => state_add_policy state policy).

(** While a policy is looked at, Python code may call the builder too. *)
Section Registration.
Context {RB : PyRuntime (PyReadyEngineBuilder * St)}.

Definition require_callable (error : string) (callable : PyObj) : PyM (PyReadyEngineBuilder * St) unit := fun s =>
  if is_callable callable s then (Ok tt, s) else (Err (new_err PyTypeError error), s).

Definition ensure_callable_method (policy : PyObj) (method : string) : PyM (PyReadyEngineBuilder * St) unit :=
  callable ← getattr policy method; require_callable ("policy." +:+ method +:+ " must be callable") callable.

Definition register_policy (policy : PyRegistered) : PyM (PyReadyEngineBuilder * St) unit := fun s =>
  let '(r, builder) := add_policy s.1 policy in (r, (builder, s.2)).

Definition push_policy (policy : PyObj) : PyM (PyReadyEngineBuilder * St) unit :=
  name ← getattr policy "name";
  name ← map_exc (fun _ => new_err PyValueError "policy.name must be a string") (extract_str name);
  has_group ← hasattr policy "policy_group_id";
  policy_group_id ← (if has_group : bool then id ← getattr policy "policy_group_id"; parse_policy_group_id_input id
                     else mret DEFAULT_POLICY_GROUP_ID);
  _ ← ensure_callable_method policy "check_pre_trade_start";
  _ ← ensure_callable_method policy "perform_pre_trade_check";
  _ ← ensure_callable_method policy "apply_execution_report";
  _ ← ensure_callable_method policy "apply_account_adjustment";
  register_policy
    (custom_policy (BoxedPreTradePolicy (adapter_policy (mkAdapter (string_of_ustr name) policy_group_id policy)))).

Definition synced_pre_trade (sync_policy : RuntimeSyncMode) (policy : PyObj) st :
    result PyErr PyReadyEngineBuilder * St :=
  match push_policy policy (ready_builder_new sync_policy, st) with
  | (Ok _, (builder, st)) => (Ok builder, st)
  | (Err e, (_, st)) => (Err e, st)
  end.
End Registration.

Definition format_engine_build_error (error : EngineBuildError) : string :=
  match error with
  | DuplicatePolicyName name => "duplicate policy name in engine configuration: " +:+ name
  | _ => EngineBuildError_fmt error
  end.

(** The builder is empty afterwards, whatever becomes of its state. *)
Definition py_build (self : PyReadyEngineBuilder) : result PyErr (PyEngine W) * PyReadyEngineBuilder :=
  match rb_state self with
  | None => (Err builder_unavailable, self)
  | Some state =>
      (match state with
       | PyBuilder_Ready builder =>
           map_err (fun e => new_err PyValueError (format_engine_build_error e)) (build builder)
       | PyBuilder_Synced _ => Err (new_err PyValueError "no policies registered")
       end, mkReadyBuilder None (rb_sync_policy self))
  end.

(** The mode of a market-data builder derived from an engine builder. *)
Definition market_data_mode (sync_policy : RuntimeSyncMode) : RuntimeSyncMode :=
  match sync_policy with RuntimeNone => RuntimeNone | _ => RuntimeFull end.

(** ** Handles and results *)

Record PyRequest : Type := mkPyRequest { pyq_inner : option (PreTradeRequest (W:=W) (Order:=PyOrderRequest)) }.
Record PyReservation : Type := mkPyReservation { pyv_inner : option (PreTradeReservation (W:=W)) }.
Record PyDropCopyOperation : Type := mkPyOperation { pyd_inner : option (DropCopyOperation (W:=W)) }.

(** The three results of a call on an order have one shape. *)
Record PyOrderResult (H : Type) : Type := mkOrderResult { por_handle : option H; por_rejects : list PyReject }.
#[global] Arguments mkOrderResult {H}.
#[global] Arguments por_handle {H}.
#[global] Arguments por_rejects {H}.

Definition por_ok {H} (self : PyOrderResult H) : bool := is_nil (por_rejects self).

Record PyAccountAdjustmentBatchResult : Type := mkPyBatchResult {
  pyar_failed_index : option nat;
  pyar_rejects : list PyReject;
  pyar_outcomes : list PyAccountAdjustmentOutcome;
  pyar_account_blocks : list PyAccountBlock
}.

Definition batch_ok (self : PyAccountAdjustmentBatchResult) : bool := is_nil (pyar_rejects self).

(** ** Scopes *)

(** A call of the core between [enter] and [finish]: a parked exception wins over the
    answer, which is dropped after the scope has ended. *)
Definition in_scope {A B} (call : St -> A * St) (answer : A -> B) (drop : A -> St -> St) st : result PyErr B * St :=
  let '(r, st) := call (with_frames (scope_enter (frames_of st)) st) in
  let '(error, frames) := scope_finish (frames_of st) in
  let st := with_frames frames st in
  match error with
  | Some error => (Err error, drop r st)
  | None => (Ok (answer r), st)
  end.

(** A scope that is dropped: the exception it holds goes with it. *)
Definition in_dropped_scope (call : St -> St) st : St :=
  let st := call (with_frames (scope_enter (frames_of st)) st) in
  with_frames (scope_drop (frames_of st)) st.

Definition order_result {T H} (handle : T -> H) (r : result (Rejects PolicyPreTradeResult) T) : PyOrderResult H :=
  match r with
  | Ok value => mkOrderResult (Some (handle value)) []
  | Err rejects => mkOrderResult None (convert_reject <$> into_vec rejects)
  end.

Definition drop_ok {E T} (drop : T -> St -> St) (r : result E T) st : St :=
  match r with Ok value => drop value st | Err _ => st end.

Definition no_drop {A} (_ : A) st : St := st.

(** ** The calls of the engine *)

Definition engine_policies engine : list PyPolicy := rp_policy <$> ei_policies engine.

(** A call on an order: the order is read before the scope begins. *)
Definition order_call {A B} (order : PyObj) (call : PyOrderRequest -> St -> A * St) (answer : A -> B)
    (drop : A -> St -> St) : PyM St B :=
  order ← extract_python_order order; in_scope (call order) answer drop.

Definition py_start_pre_trade engine (now : Z) (order : PyObj) : PyM St (PyOrderResult PyRequest) :=
  order_call order (start_pre_trade (engine_policies engine) now)
    (order_result (fun request => mkPyRequest (Some request))) no_drop.

Definition py_execute_pre_trade engine (now : Z) (order : PyObj) : PyM St (PyOrderResult PyReservation) :=
  order_call order (execute_pre_trade (engine_policies engine) now)
    (order_result (fun reservation => mkPyReservation (Some reservation))) (drop_ok reservation_drop).

Definition py_apply_drop_copy engine (now : Z) (order : PyObj) : PyM St (PyOrderResult PyDropCopyOperation) :=
  order_call order (apply_drop_copy (engine_policies engine) now)
    (order_result (fun operation => mkPyOperation (Some operation))) (drop_ok operation_drop).

Definition py_start_pre_trade_dry_run engine (now : Z) (order : PyObj) : PyM St PreTradeDryRunReport :=
  order_call order (start_pre_trade_dry_run (engine_policies engine) now) id no_drop.

Definition py_execute_pre_trade_dry_run engine (now : Z) (order : PyObj) : PyM St PreTradeDryRunReport :=
  order_call order (execute_pre_trade_dry_run (engine_policies engine) now) id no_drop.

Definition py_apply_execution_report engine (report : PyObj) : PyM St PostTradeResult :=
  report ← extract_python_execution_report report;
  in_scope (apply_execution_report (engine_policies engine) report) id no_drop.

Definition batch_result (r : result AccountAdjustmentBatchError AccountAdjustmentBatchResult) :
    PyAccountAdjustmentBatchResult :=
  match r with
  | Ok result =>
      mkPyBatchResult None [] (convert_adjustment_outcome <$> abr_outcomes result)
        (convert_account_block <$> abr_account_blocks result)
  | Err error =>
      mkPyBatchResult (Some (abe_failed_adjustment_index error)) (convert_reject <$> into_vec (abe_rejects error)) [] []
  end.

Definition py_apply_account_adjustment engine (account_id adjustments : PyObj) : PyM St PyAccountAdjustmentBatchResult :=
  account_id ← parse_account_id_input account_id;
  it ← try_iter adjustments;
  batch ← collect extract_python_account_adjustment it;
  in_scope (apply_account_adjustment (engine_policies engine) account_id batch) batch_result no_drop.

(** ** The handles *)

(** [alive] is the engine the request belongs to, if it still exists; the handle is
    emptied before the request runs. *)
Definition py_request_execute (alive : option (PyEngine W)) (self : PyRequest) st :
    result PyErr (PyOrderResult PyReservation) * PyRequest * St :=
  match pyq_inner self with
  | None => (Err (new_err PyRuntimeError "request has already been executed"), self, st)
  | Some request =>
      let '(r, st) :=
        in_scope (execute_pre_trade_request (bool_decide (is_Some alive)) (from_option engine_policies [] alive) request)
          (order_result (fun reservation => mkPyReservation (Some reservation))) (drop_ok reservation_drop) st in
      (r, mkPyRequest None, st)
  end.

Definition reservation_finalized : PyErr := new_err PyRuntimeError "reservation has already been finalized".
Definition finalized_drop_copy_operation : PyErr :=
  new_err PyRuntimeError "drop-copy operation has already been finalized".

(** The getters copy what they show. *)
Definition py_reservation_lock (self : PyReservation) : result PyErr PreTradeLock :=
  reservation ← ok_or (pyv_inner self) reservation_finalized; Ok (res_lock reservation).
Definition py_reservation_account_adjustments (self : PyReservation) : result PyErr (list PyAccountAdjustmentOutcome) :=
  reservation ← ok_or (pyv_inner self) reservation_finalized;
  Ok (convert_adjustment_outcome <$> res_account_adjustments reservation).

(** The core's own handle has nothing left then; [commit] cannot find it empty. *)
Definition committed {T} (commit : T -> St -> option (T * St)) (inner : T) st : unit * St :=
  (tt, match commit inner st with Some (_, st) => st | None => st end).
Definition rolled_back {T} (rollback : T -> St -> T * St) (inner : T) st : unit * St := (tt, (rollback inner st).2).

(** A finalizer of a handle: the inner value is taken first. *)
Definition finalize {T} (finalized : PyErr) (run : T -> St -> unit * St) (inner : option T) st :
    result PyErr unit * option T * St :=
  match inner with
  | None => (Err finalized, None, st)
  | Some inner => let '(r, st) := in_scope (run inner) id no_drop st in (r, None, st)
  end.

Definition py_reservation_commit (self : PyReservation) st : result PyErr unit * PyReservation * St :=
  let '(r, inner, st) := finalize reservation_finalized (committed reservation_commit) (pyv_inner self) st in
  (r, mkPyReservation inner, st).
Definition py_reservation_rollback (self : PyReservation) st : result PyErr unit * PyReservation * St :=
  let '(r, inner, st) := finalize reservation_finalized (rolled_back reservation_rollback) (pyv_inner self) st in
  (r, mkPyReservation inner, st).
Definition py_reservation_drop (self : PyReservation) st : St :=
  match pyv_inner self with None => st | Some reservation => in_dropped_scope (reservation_drop reservation) st end.

Definition py_operation_lock (self : PyDropCopyOperation) : result PyErr PreTradeLock :=
  operation ← ok_or (pyd_inner self) finalized_drop_copy_operation; Ok (dco_lock operation).
Definition py_operation_account_adjustments (self : PyDropCopyOperation) :
    result PyErr (list PyAccountAdjustmentOutcome) :=
  operation ← ok_or (pyd_inner self) finalized_drop_copy_operation;
  Ok (convert_adjustment_outcome <$> dco_account_adjustments operation).
Definition py_operation_account_block (self : PyDropCopyOperation) : result PyErr (option PyAccountBlock) :=
  operation ← ok_or (pyd_inner self) finalized_drop_copy_operation;
  Ok (convert_account_block <$> dco_account_block operation).
Definition py_operation_is_account_blocked (self : PyDropCopyOperation) : result PyErr bool :=
  operation ← ok_or (pyd_inner self) finalized_drop_copy_operation; Ok (dco_account_blocked operation).

Definition py_operation_commit (self : PyDropCopyOperation) st : result PyErr unit * PyDropCopyOperation * St :=
  let '(r, inner, st) := finalize finalized_drop_copy_operation (committed operation_commit) (pyd_inner self) st in
  (r, mkPyOperation inner, st).
Definition py_operation_rollback (self : PyDropCopyOperation) st : result PyErr unit * PyDropCopyOperation * St :=
  let '(r, inner, st) := finalize finalized_drop_copy_operation (rolled_back operation_rollback) (pyd_inner self) st in
  (r, mkPyOperation inner, st).
Definition py_operation_drop (self : PyDropCopyOperation) st : St :=
  match pyd_inner self with None => st | Some operation => in_dropped_scope (operation_drop operation) st end.

(** What a dry-run report shows. *)
Definition py_report_rejects (self : PreTradeDryRunReport) : option (list PyReject) :=
  (fun rejects => convert_reject <$> into_vec rejects) <$> dr_rejects self.
Definition py_report_account_adjustments (self : PreTradeDryRunReport) : list PyAccountAdjustmentOutcome :=
  convert_adjustment_outcome <$> dr_account_adjustments self.
Definition py_report_account_block (self : PreTradeDryRunReport) : option PyAccountBlock :=
  convert_account_block <$> dr_account_block self.

(** ** Accounts *)

Definition convert_account_group_error (error : AccountGroupError) : PyErr :=
  new_err PyAccountGroupRegistrationError (AccountGroupError_fmt error).
Definition convert_account_block_error (error : AccountBlockError) : PyErr :=
  new_err PyAccountBlockError (AccountBlockError_fmt error).

(** A call on the registry, and its errors as exceptions. *)
Definition on_accounts {E} (convert : E -> PyErr) (f : AccountsState -> result E unit * AccountsState) : PyM St unit :=
  fun st => let '(r, accounts) := f (es_accounts st) in (map_err convert r, with_accounts st accounts).
Definition write_accounts (f : AccountsState -> AccountsState) : PyM St unit :=
  fun st => (Ok tt, with_accounts st (f (es_accounts st))).

(** The two calls on a group's accounts. *)
Definition change_membership engine
    (f : MembershipChangeBlocks -> AccountsState -> list AccountId -> AccountGroupId ->
         result AccountGroupError unit * AccountsState) (account_ids : list AccountId) (group : AccountGroupId) :
    PyM St unit := fun st =>
  on_accounts convert_account_group_error
    (fun a => f (account_pnl_membership_change_blocks engine st) a account_ids group) st.

Definition py_group_call engine (accounts group : PyObj)
    (f : MembershipChangeBlocks -> AccountsState -> list AccountId -> AccountGroupId ->
         result AccountGroupError unit * AccountsState) : PyM St unit :=
  group ← parse_account_group_id_input group;
  it ← try_iter accounts;
  account_ids ← collect parse_account_id_input it;
  change_membership engine f account_ids group.

Definition py_register_group engine (accounts group : PyObj) : PyM St unit :=
  py_group_call engine accounts group accounts_register_group.
Definition py_unregister_group engine (accounts group : PyObj) : PyM St unit :=
  py_group_call engine accounts group accounts_unregister_group.

Definition read_group (account_id : AccountId) : PyM St (option AccountGroupId) := fun st =>
  (Ok (group_of (es_groups st) account_id), st).
Definition py_group_of (account : PyObj) : PyM St (option AccountGroupId) :=
  account_id ← parse_account_id_input account; read_group account_id.

Definition py_set_currency (account asset : PyObj) : PyM St unit :=
  account_id ← parse_account_id_input account; asset ← parse_asset_input asset;
  write_accounts (fun a => accounts_set_currency a account_id asset).
Definition py_clear_currency (account : PyObj) : PyM St unit :=
  account_id ← parse_account_id_input account; write_accounts (fun a => accounts_clear_currency a account_id).
Definition py_set_group_currency (group asset : PyObj) : PyM St unit :=
  group_id ← parse_account_group_id_input_allow_default group; asset ← parse_asset_input asset;
  write_accounts (fun a => accounts_set_group_currency a group_id asset).
Definition py_clear_group_currency (group : PyObj) : PyM St unit :=
  group_id ← parse_account_group_id_input_allow_default group;
  write_accounts (fun a => accounts_clear_group_currency a group_id).

Definition py_block (account : PyObj) (reason : string) : PyM St unit :=
  account_id ← parse_account_id_input account; write_accounts (fun a => accounts_block a account_id reason).
Definition py_block_with_cause (account : PyObj) (cause : PyAccountBlock) : PyM St unit :=
  account_id ← parse_account_id_input account; cause ← lift (account_block_to_core cause);
  write_accounts (fun a => accounts_block_with_cause a account_id cause).
Definition py_unblock (account : PyObj) : PyM St unit :=
  account_id ← parse_account_id_input account; write_accounts (fun a => accounts_unblock a account_id).
Definition py_unblock_all : PyM St unit := write_accounts accounts_unblock_all.
Definition py_replace_block_reason (account : PyObj) (reason : string) : PyM St unit :=
  account_id ← parse_account_id_input account;
  on_accounts convert_account_block_error (fun a => accounts_replace_block_reason a account_id reason).
Definition py_block_group (group : PyObj) (reason : string) : PyM St unit :=
  group_id ← parse_account_group_id_input group;
  on_accounts convert_account_block_error (fun a => accounts_block_group a group_id reason).
Definition py_unblock_group (group : PyObj) : PyM St unit :=
  group_id ← parse_account_group_id_input group;
  on_accounts convert_account_block_error (fun a => accounts_unblock_group a group_id).
Definition py_replace_group_block_reason (group : PyObj) (reason : string) : PyM St unit :=
  group_id ← parse_account_group_id_input group;
  on_accounts convert_account_block_error (fun a => accounts_replace_group_block_reason a group_id reason).
End PythonEngine.
