(* ===== verification/PythonServices.v ===== *)
(** * PythonServices: reference book and market data in Python

    src/bindings/python/src/lib.rs: [ReferenceBook], [MarketDataService] and its builder,
    and the conversions of errors, which set attributes of the exceptions they make.  A
    call that may not return answers an option; a panic is the exception PyO3 makes of
    it. *)
From S2P Require Import Prelude.
From S2P Require Import Decimal.
From S2P Require Import Param.
From S2P Require Import ParamTypes.
From S2P Require Import Identifiers.
From S2P Require Import Utf8.
From S2P Require Import Mutation.
From S2P Require Import Reject.
From S2P Require Import AccountControl.
From S2P Require Import Accounts.
From S2P Require Import Lock.
From S2P Require Import Policy.
From S2P Require Import Engine.
From S2P Require Import Instruments.
From S2P Require Import ReferenceBook.
From S2P Require Import MarketData.
From S2P Require Import Locking.
From S2P Require Import Ffi.
From S2P Require Import FfiParam.
From S2P Require Import OrderValidation.
From S2P Require Import OrderSizeLimit.
From S2P Require Import PnlBounds.
From S2P Require Import RateLimit.
From S2P Require Import SpotFundsParts.
From S2P Require Import SpotFundsSettings.
From S2P Require Import SpotFunds.
From S2P Require Import FfiServices.
From S2P Require Import Requests.
From S2P Require Import Interop.
From S2P Require Import Configure.
From S2P Require Import FfiErrors.
From S2P Require Import FfiBuiltin.
From S2P Require Import FfiSpotFunds.
From S2P Require Import Python.
From S2P Require Import PythonPolicy.
From S2P Require Import PythonEngine.
From stdpp Require Import pretty.
Open Scope Z_scope.

(** ** Errors *)

(** The derived [Debug] of an instrument. *)
Definition Asset_debug {PM : PyModel} (asset : Asset) : string := "Asset(" +:+ str_debug (asset_str asset) +:+ ")".
Definition Instrument_debug {PM : PyModel} (instrument : Instrument) : string :=
  "Instrument { underlying_asset: " +:+ Asset_debug (underlying_asset instrument) +:+
  ", settlement_asset: " +:+ Asset_debug (settlement_asset instrument) +:+ " }".

Definition AlreadyRegistered_fmt {PM : PyModel} (e : AlreadyRegistered) : string :=
  "instrument " +:+ Instrument_debug (registered_instrument e) +:+ " is already registered".
Definition RegistrationError_fmt {PM : PyModel} (e : RegistrationError) : string :=
  match e with
  | DuplicateId instrument_id => "instrument id " +:+ pretty (instrument_as_u64 instrument_id) +:+ " is already registered"
  | DuplicateInstrument instrument => "instrument " +:+ Instrument_debug instrument +:+ " is already registered"
  end.
Definition ReferenceBookRegistrationError_fmt {PM : PyModel} (e : ReferenceBookRegistrationError) : string :=
  match e with
  | Book_DuplicateId instrument_id => "instrument id " +:+ pretty (instrument_as_u64 instrument_id) +:+ " is already registered"
  | Book_DuplicateInstrument instrument => "instrument " +:+ Instrument_debug instrument +:+ " is already registered"
  end.
Definition UnknownReferenceBookInstrumentId_fmt (e : UnknownReferenceBookInstrumentId) : string :=
  "unknown reference-book instrument id: " +:+ pretty (instrument_as_u64 (unknown_book_id e)).

Section Errors.
Context {D : DecimalOps} {PM : PyModel} {S : Type} {R : PyRuntime S}.
Implicit Types (s : S).

(** An attribute that could not be set is left out. *)
Definition with_attr (err : PyErr) (name : string) (value : option PyValue) s : S := (err_setattr err name value s).2.

(** [map_err] with a conversion that works on the exception's object. *)
Definition map_err_in {E A} (f : E -> S -> PyErr * S) (r : result E A) : PyM S A := fun s =>
  match r with Ok x => (Ok x, s) | Err e => let '(err, s) := f e s in (Err err, s) end.

Definition create_already_registered_error (error : AlreadyRegistered) s : PyErr * S :=
  let err := new_err PyAlreadyRegistered (AlreadyRegistered_fmt error) in
  (err, with_attr err "instrument" (Some (PyV_Instrument (registered_instrument error))) s).

(** Both registration errors carry two attributes, of which one is set. *)
Definition with_conflict (err : PyErr) (conflict : InstrumentId + Instrument) s : PyErr * S :=
  let s := with_attr err "instrument" None s in
  let s := with_attr err "instrument_id" None s in
  (err, match conflict with
        | inl instrument_id => with_attr err "instrument_id" (Some (PyV_InstrumentId instrument_id)) s
        | inr instrument => with_attr err "instrument" (Some (PyV_Instrument instrument)) s
        end).

Definition create_registration_error (error : RegistrationError) : S -> PyErr * S :=
  with_conflict (new_err PyRegistrationError (RegistrationError_fmt error))
    match error with DuplicateId instrument_id => inl instrument_id | DuplicateInstrument instrument => inr instrument end.

Definition create_reference_book_registration_error (error : ReferenceBookRegistrationError) : S -> PyErr * S :=
  with_conflict (new_err PyReferenceBookRegistrationError (ReferenceBookRegistrationError_fmt error))
    match error with
    | Book_DuplicateId instrument_id => inl instrument_id
    | Book_DuplicateInstrument instrument => inr instrument
    end.

Definition create_unknown_instrument_id_error (error : UnknownInstrumentId) s : PyErr * S :=
  let err := new_err PyUnknownInstrumentId (UnknownInstrumentId_fmt error) in
  (err, with_attr err "instrument_id" (Some (PyV_InstrumentId (unknown_id error))) s).

Definition create_unknown_reference_book_instrument_id_error (error : UnknownReferenceBookInstrumentId) s : PyErr * S :=
  let err := new_err PyUnknownReferenceBookInstrumentId (UnknownReferenceBookInstrumentId_fmt error) in
  (err, with_attr err "instrument_id" (Some (PyV_InstrumentId (unknown_book_id error))) s).

Definition create_market_data_error (error : MarketDataError) s : PyErr * S :=
  let message := MarketDataError_fmt error in
  match error with
  | UnknownInstrument => (new_err PyUnknownInstrument message, s)
  | QuoteUnavailable => (new_err PyQuoteUnavailable message, s)
  | QuoteExpired quote =>
      let err := new_err PyQuoteExpired message in
      let '(r, s) := err_setattr err "quote" (Some (PyV_Quote quote)) s in
      (err, match r with Ok _ => s | Err set_err => err_restore set_err s end)
  end.

Definition create_push_for_error (error : PushForError) s : PyErr * S :=
  match error with
  | PushFor_UnknownInstrument instrument_id =>
      create_unknown_instrument_id_error (mkUnknownInstrumentId instrument_id) s
  | PushFor_NoTarget => (new_err PyValueError "push_for requires at least one account or group target", s)
  end.

Definition PyConfigureErrorKind_of (error : ConfigureError) : PyConfigureErrorKind :=
  match error with
  | UnknownPolicy _ => PyUnknown
  | PolicyTypeMismatch _ _ _ => PyTypeMismatch
  | Validation _ _ => PyValidation
  end.

Definition convert_configure_error (error : ConfigureError) s : PyErr * S :=
  let err := new_err PyPolicyConfigureError (ConfigureError_fmt error) in
  (err, with_attr err "kind" (Some (PyV_ConfigureErrorKind (PyConfigureErrorKind_of error))) s).
End Errors.

(** ** Comparison *)

Inductive CompareOp : Set := Op_Lt | Op_Le | Op_Eq | Op_Ne | Op_Gt | Op_Ge.

(** The classes that support [==] and [!=] only. *)
Definition eq_only {PM : PyModel} (class : string) (equal : bool) (op : CompareOp) : result PyErr bool :=
  match op with
  | Op_Eq => Ok equal
  | Op_Ne => Ok (negb equal)
  | _ => Err (new_err PyTypeError (class +:+ " supports only == and !="))
  end.

#[export] Instance SettlementUnit_eq_dec : EqDecision SettlementUnit.
Proof. solve_decision. Defined.
#[export] Instance SettlementLag_eq_dec : EqDecision SettlementLag.
Proof. solve_decision. Defined.
#[export] Instance SettlementScheme_eq_dec : EqDecision SettlementScheme.
Proof. solve_decision. Defined.

Section Comparison.
Context {D : DecimalOps} {PM : PyModel}.

Definition py_instrument_id_richcmp (self other : InstrumentId) (op : CompareOp) : result PyErr bool :=
  eq_only "InstrumentId" (bool_decide (self = other)) op.
Definition py_settlement_lag_richcmp (self other : SettlementLag) (op : CompareOp) : result PyErr bool :=
  eq_only "SettlementLag" (bool_decide (self = other)) op.
Definition py_settlement_scheme_richcmp (self other : SettlementScheme) (op : CompareOp) : result PyErr bool :=
  eq_only "SettlementScheme" (bool_decide (self = other)) op.

(** Quotes are equal when their prices are worth the same. *)
Definition option_eqb {A} (eqb : A -> A -> bool) (x y : option A) : bool :=
  match x, y with Some x, Some y => eqb x y | None, None => true | _, _ => false end.
Definition Quote_eqb (x y : Quote) : bool :=
  option_eqb sg_eqb (quote_mark x) (quote_mark y) && option_eqb sg_eqb (quote_bid x) (quote_bid y) &&
  option_eqb sg_eqb (quote_ask x) (quote_ask y).
Definition py_quote_richcmp (self other : Quote) (op : CompareOp) : result PyErr bool :=
  eq_only "Quote" (Quote_eqb self other) op.
End Comparison.

Definition py_settlement_lag_new (n : Z) (unit : SettlementUnit) : SettlementLag := mkSettlementLag n unit.
Definition py_settlement_scheme_new (delivery payment : SettlementLag) : SettlementScheme :=
  mkSettlementScheme delivery payment.

(** ** Readers *)

Section Readers.
Context {D : DecimalOps} {DW : DecimalWire} {DF : DecimalFormat} {PM : PyModel} {S : Type} {R : PyRuntime S}.
Implicit Types (value : PyObj).

Definition instrument_inner (v : PyValue) : option Instrument := match v with PyV_Instrument x => Some x | _ => None end.

(** What an attribute [_inner] holds, if it is an instrument. *)
Definition inner_instrument value : PyM S (option Instrument) :=
  inner ← try_ok (getattr value "_inner");
  match inner with
  | Some inner => with_payload instrument_inner inner (fun instrument => mret (Some instrument)) (mret None)
  | None => mret None
  end.

Definition parse_instrument_input value : PyM S Instrument :=
  with_payload instrument_inner value mret
    (inner ← inner_instrument value;
     match inner with
     | Some instrument => mret instrument
     | None =>
         let type_error _ := new_err PyTypeError "instrument must be openpit.core.Instrument" in
         underlying_asset ← map_exc type_error (getattr value "underlying_asset");
         settlement_asset ← map_exc type_error (getattr value "settlement_asset");
         underlying_asset ← parse_asset_input underlying_asset;
         settlement_asset ← parse_asset_input settlement_asset;
         mret (mkInstrument underlying_asset settlement_asset)
     end).

(** [Duration::new], whose panic PyO3 raises. *)
Definition duration (secs nanos : Z) : PyM S Z :=
  lift (ok_or (duration_new secs nanos) (new_err PyPanicException "overflow in Duration::new")).

(** The seconds and microseconds of a [timedelta], to which a release build's words
    wrap. *)
Definition timedelta_tail value (days : Z) : PyM S Z :=
  seconds ← getattr value "seconds"; seconds ← extract_int 0 U64_MAX seconds;
  microseconds ← getattr value "microseconds"; microseconds ← extract_int 0 U32_MAX microseconds;
  duration ((days * 86400 + seconds) mod 2 ^ 64) ((microseconds * 1000) mod 2 ^ 32).

(** The days of a [timedelta]; [error] is for everything else. *)
Definition timedelta_days value (error : string) : PyM S Z :=
  datetime ← py_import "datetime";
  timedelta ← getattr datetime "timedelta";
  instance ← py_is_instance value timedelta;
  if negb instance then raise (new_err PyTypeError error)
  else days ← getattr value "days"; extract_int I64_MIN I64_MAX days.

Definition parse_rate_limit_window value : PyM S Z :=
  days ← timedelta_days value "RateLimit.window must be datetime.timedelta";
  if days <? 0 then raise (new_err PyValueError "RateLimit.window must not be negative") else timedelta_tail value days.

Definition parse_source_age value : PyM S Z :=
  days ← timedelta_days value "source_age must be datetime.timedelta";
  if days <? 0 then mret 0 else timedelta_tail value days.

(** An optional keyword argument. *)
Definition when_given {A} (parse : PyObj -> PyM S A) (arg : option PyObj) : PyM S (option A) :=
  match arg with Some value => x ← parse value; mret (Some x) | None => mret None end.

(** The three prices are read one after another. *)
Definition py_quote_new (mark bid ask : option PyObj) : PyM S Quote :=
  mark ← when_given parse_decimal_input mark;
  let quote := match mark with Some mark => with_mark quote_new mark | None => quote_new end in
  bid ← when_given parse_decimal_input bid;
  let quote := match bid with Some bid => with_bid quote bid | None => quote end in
  ask ← when_given parse_decimal_input ask;
  mret match ask with Some ask => with_ask quote ask | None => quote end.
End Readers.

(** ** The reference book *)

Section Book.
Context {D : DecimalOps} {DW : DecimalWire} {DF : DecimalFormat} {PM : PyModel} {S : Type} {R : PyRuntime S}.
Implicit Types (self : ReferenceBook) (instrument : PyObj) (s : S).

(** The book is borrowed while the instrument is read: Python code run meanwhile
    cannot reach it. *)
Definition py_book_register self instrument s : option (result PyErr InstrumentId * ReferenceBook * S) :=
  match parse_instrument_input instrument s with
  | (Err e, s) => Some (Err e, self, s)
  | (Ok instrument, s) =>
      '(r, self) ← book_register self instrument;
      let '(r, s) := map_err_in create_reference_book_registration_error r s in Some (r, self, s)
  end.

Definition py_book_register_with_id self instrument (instrument_id : InstrumentId) s :
    result PyErr InstrumentId * ReferenceBook * S :=
  match parse_instrument_input instrument s with
  | (Err e, s) => (Err e, self, s)
  | (Ok instrument, s) =>
      let '(r, self) := book_register_with_id self instrument instrument_id in
      let '(r, s) := map_err_in create_reference_book_registration_error r s in (r, self, s)
  end.

Definition py_book_resolve self instrument : PyM S (option InstrumentId) :=
  instrument ← parse_instrument_input instrument; mret (book_resolve self instrument).

Definition py_set_settlement_scheme self (instrument_id : InstrumentId) (scheme : SettlementScheme) s :
    result PyErr unit * ReferenceBook * S :=
  let '(r, self) := set_settlement_scheme self instrument_id scheme in
  let '(r, s) := map_err_in create_unknown_reference_book_instrument_id_error r s in (r, self, s).
Definition py_clear_settlement_scheme self (instrument_id : InstrumentId) s : result PyErr unit * ReferenceBook * S :=
  let '(r, self) := clear_settlement_scheme self instrument_id in
  let '(r, s) := map_err_in create_unknown_reference_book_instrument_id_error r s in (r, self, s).
Definition py_settlement_scheme self (instrument_id : InstrumentId) : PyM S (option SettlementScheme) :=
  map_err_in create_unknown_reference_book_instrument_id_error (settlement_scheme self instrument_id).
End Book.

(** ** The market data service *)

(** The service, shared with its other owners, and its mode: the same pair as on the C
    side. *)
Definition PyMarketDataService : Type := OpenPitMarketDataService.

Record PyMarketDataBuilder : Set := mkMarketDataBuilder { pmb_default_ttl : QuoteTtl; pmb_mode : RuntimeSyncMode }.

Definition md_no_sync (slf : PyMarketDataBuilder) : PyMarketDataBuilder :=
  mkMarketDataBuilder (pmb_default_ttl slf) RuntimeNone.
Definition md_full_sync (slf : PyMarketDataBuilder) : PyMarketDataBuilder :=
  mkMarketDataBuilder (pmb_default_ttl slf) match pmb_mode slf with RuntimeNone => RuntimeFull | mode => mode end.

Section Service.
Context {D : DecimalOps} {DW : DecimalWire} {DF : DecimalFormat} {PM : PyModel} {W : Type}.
Context {O : Owns W Frames} {OS : Owns W Services}.
Abbreviation St := (EngineState W).
Context {RS : PyRuntime St}.
Implicit Types (st : St) (self : PyMarketDataService) (instrument_id : InstrumentId) (ttl : QuoteTtl).

Definition services_of st : Services := own_get (es_world st).
Definition with_services (services : Services) st : St := with_world st (own_set services (es_world st)).

Definition py_md_build (slf : PyMarketDataBuilder) st : PyMarketDataService * St :=
  (mkServiceHandle (length (services_of st)) (pmb_mode slf),
   with_services (services_of st ++ [MarketData.build (pmb_default_ttl slf)]) st).

(** A call: its arguments are read, the service is called, an error becomes an
    exception.  [None] where the service does not return, or is gone. *)
Definition md_call {A E B} (args : PyM St A) (f : A -> MarketDataService -> option (result E B * MarketDataService))
    (convert : E -> St -> PyErr * St) self st : option (result PyErr B * St) :=
  match args st with
  | (Err e, st) => Some (Err e, st)
  | (Ok a, st) =>
      '(r, services) ← on_service (services_of st) self (f a);
      Some (map_err_in convert r (with_services services st))
  end.

(** A service call that cannot fail. *)
Definition md_write {A} (args : PyM St A) (f : A -> MarketDataService -> MarketDataService) :=
  md_call args (fun a inner => Some (Ok tt, f a inner)) pair.
(** One that may name an unknown instrument. *)
Definition md_update {A} (args : PyM St A)
    (f : A -> MarketDataService -> result UnknownInstrumentId unit * MarketDataService) :=
  md_call args (fun a inner => Some (f a inner)) create_unknown_instrument_id_error.

Definition py_md_register self (instrument : PyObj) :=
  md_call (parse_instrument_input instrument) (fun instrument inner => register inner instrument)
    create_already_registered_error self.
Definition py_md_register_with_ttl self (instrument : PyObj) ttl :=
  md_call (parse_instrument_input instrument) (fun instrument inner => register_with_ttl inner instrument ttl)
    create_already_registered_error self.
Definition py_md_register_with_id self (instrument : PyObj) instrument_id :=
  md_call (parse_instrument_input instrument)
    (fun instrument inner => Some (register_with_id inner instrument instrument_id)) create_registration_error self.
Definition py_md_register_with_id_and_ttl self (instrument : PyObj) instrument_id ttl :=
  md_call (parse_instrument_input instrument)
    (fun instrument inner => Some (register_with_id_and_ttl inner instrument instrument_id ttl))
    create_registration_error self.

Definition py_md_set_account_ttl self (account_id : PyObj) ttl :=
  md_write (parse_account_id_input account_id) (fun account_id inner => set_account_ttl inner account_id ttl) self.
Definition py_md_clear_account_ttl self (account_id : PyObj) :=
  md_write (parse_account_id_input account_id) (fun account_id inner => clear_account_ttl inner account_id) self.
Definition py_md_set_account_group_ttl self (account_group_id : PyObj) ttl :=
  md_write (parse_account_group_id_input account_group_id) (fun group inner => set_account_group_ttl inner group ttl) self.
Definition py_md_clear_account_group_ttl self (account_group_id : PyObj) :=
  md_write (parse_account_group_id_input account_group_id) (fun group inner => clear_account_group_ttl inner group) self.

Definition py_md_set_instrument_ttl self instrument_id ttl :=
  md_update (mret tt) (fun _ inner => set_instrument_ttl inner instrument_id ttl) self.
Definition py_md_clear_instrument_ttl self instrument_id :=
  md_update (mret tt) (fun _ inner => clear_instrument_ttl inner instrument_id) self.
Definition py_md_set_instrument_account_ttl self instrument_id (account_id : PyObj) ttl :=
  md_update (parse_account_id_input account_id)
    (fun account_id inner => set_instrument_account_ttl inner instrument_id account_id ttl) self.
Definition py_md_clear_instrument_account_ttl self instrument_id (account_id : PyObj) :=
  md_update (parse_account_id_input account_id)
    (fun account_id inner => clear_instrument_account_ttl inner instrument_id account_id) self.
Definition py_md_set_instrument_account_group_ttl self instrument_id (account_group_id : PyObj) ttl :=
  md_update (parse_account_group_id_input account_group_id)
    (fun group inner => set_instrument_account_group_ttl inner instrument_id group ttl) self.
Definition py_md_clear_instrument_account_group_ttl self instrument_id (account_group_id : PyObj) :=
  md_update (parse_account_group_id_input account_group_id)
    (fun group inner => clear_instrument_account_group_ttl inner instrument_id group) self.

Definition py_md_clear self instrument_id := md_write (mret tt) (fun _ inner => clear inner instrument_id) self.

(** [now] is what the service's clock answers. *)
Definition py_md_push self (now : Z) instrument_id (quote : Quote) (source_age : PyObj) :=
  md_update (parse_source_age source_age) (fun source_age inner => push inner instrument_id now quote source_age) self.

Definition py_md_push_by_instrument self (now : Z) (instrument : PyObj) (quote : Quote) (source_age : PyObj) :=
  md_call (instrument ← parse_instrument_input instrument; source_age ← parse_source_age source_age;
           mret (instrument, source_age) : PyM St _)
    (fun '(instrument, source_age) inner =>
       '(id, inner) ← push_by_instrument inner instrument now quote source_age; Some (Ok id, inner)) pair self.

Definition py_md_push_for self (now : Z) instrument_id (quote : Quote) (source_age account_ids account_group_ids : PyObj) :=
  md_call (source_age ← parse_source_age source_age;
           account_ids ← parse_list parse_account_id_input account_ids;
           group_ids ← parse_list parse_account_group_id_input account_group_ids;
           mret (source_age, account_ids, group_ids) : PyM St _)
    (fun '(source_age, account_ids, group_ids) inner =>
       Some (push_for inner instrument_id now quote source_age account_ids group_ids)) create_push_for_error self.

Definition py_md_resolve self (instrument : PyObj) :=
  md_call (parse_instrument_input instrument) (fun instrument inner => Some (Ok (resolve inner instrument), inner)) pair self.

(** *** Reading *)

Definition PyAccountInfo_group (account_info : PyObj) st : option AccountGroupId * St :=
  match getattr account_info "account_group" st with
  | (Err err, st) => (None, park err st)
  | (Ok attr, st) =>
      if is_none attr then (None, st)
      else match payload attr st ≫= account_group_inner with
           | Some group => (Some group, st)
           | None =>
               let '(err, st) := cast_error attr "AccountGroupId" st in
               (None, park (new_err PyTypeError
                              ("account_info.account_group must be AccountGroupId or None, got: " +:+ err)) st)
           end
  end.

(** The read of the service.  It asks for the group at most once, under the guard of
    the slot, and reads its own lifetimes after that; Python code run for the answer
    may change these and not the slot, whose guard it would wait for. *)
Definition service_get self (now : Z) instrument_id (account_id : AccountId) (account_info : PyObj)
    (resolution : QuoteResolution) st : option (result MarketDataError Quote * St) :=
  inner ← services_of st !! md_handle self;
  let observe later group :=
    get_observed (registry inner) (slots inner) (default_ttl inner) (has_service_level_ttl later) (account_ttl later)
      (group_ttl later) now instrument_id account_id (fun _ => group) resolution in
  let '(r, memo) := observe inner None in
  if Nat.eqb (group_asked memo) 0 then Some (r, st)
  else
    let '(group, st) := PyAccountInfo_group account_info st in
    later ← services_of st !! md_handle self;
    Some ((observe later group).1, st).

(** A read in a scope of its own: a group that could not be read fails it. *)
Definition scoped_get self (now : Z) instrument_id (account_id account_info : PyObj) (resolution : QuoteResolution)
    {A} (answer : result MarketDataError Quote -> PyM St A) st : option (result PyErr A * St) :=
  match parse_account_id_input account_id st with
  | (Err e, st) => Some (Err e, st)
  | (Ok account_id, st) =>
      '(r, st) ← service_get self now instrument_id account_id account_info resolution
                   (with_frames (scope_enter (frames_of st)) st);
      let '(error, frames) := scope_finish (frames_of st) in
      let st := with_frames frames st in
      Some match error with Some err => (Err err, st) | None => answer r st end
  end.

Definition py_md_get self (now : Z) instrument_id (account_id account_info : PyObj) (resolution : QuoteResolution) :=
  scoped_get self now instrument_id account_id account_info resolution (map_err_in create_market_data_error).

(** The three errors of a read are answers here. *)
Definition py_md_get_optional self (now : Z) instrument_id (account_id account_info : PyObj)
    (resolution : QuoteResolution) :=
  scoped_get self now instrument_id account_id account_info resolution (fun r => mret (result_ok r)).
End Service.
