(* ===== verification/PythonSettings.v ===== *)
(** * PythonSettings: built-in policies and their runtime settings in Python

    src/bindings/python/src/lib.rs: the named entities of openpit.pretrade.policies as
    they are read, [Configurator], and the registration of the built-in policies on
    [ReadyEngineBuilder].  Every argument is read before the engine is touched. *)
From S2P Require Import Prelude.
From S2P Require Import Decimal.
From S2P Require Import Param.
From S2P Require Import ParamTypes.
From S2P Require Import Identifiers.
From S2P Require Import Utf8.
From S2P Require Import Mutation.
From S2P Require Import Reject.
From S2P Require Import Lock.
From S2P Require Import Policy.
From S2P Require Import Engine.
From S2P Require Import Instruments.
From S2P Require Import MarketData.
From S2P Require Import Locking.
From S2P Require Import Ffi.
From S2P Require Import FfiParam.
From S2P Require Import OrderValidation.
From S2P Require Import OrderSizeLimit.
From S2P Require Import PnlBounds.
From S2P Require Import RateLimit.
From S2P Require Import SpotFundsParts.
From S2P Require Import SpotFundsSettings.
From S2P Require Import SpotFunds.
From S2P Require Import FfiServices.
From S2P Require Import Requests.
From S2P Require Import Interop.
From S2P Require Import Configure.
From S2P Require Import FfiErrors.
From S2P Require Import FfiBuiltin.
From S2P Require Import FfiSpotFunds.
From S2P Require Import Python.
From S2P Require Import PythonPolicy.
From S2P Require Import PythonEngine.
From S2P Require Import PythonServices.
Open Scope Z_scope.

(** ** Entities *)

Section Entities.
Context {D : DecimalOps} {DW : DecimalWire} {DF : DecimalFormat} {PM : PyModel} {S : Type} {R : PyRuntime S}.
Implicit Types (obj value : PyObj).

Definition policy_class (class_name : string) : PyM S PyObj :=
  policies ← py_import "openpit.pretrade.policies"; getattr policies class_name.

Definition ensure_policy_entity obj (class_name : string) : PyM S unit :=
  expected ← policy_class class_name;
  instance ← py_is_instance obj expected;
  if instance : bool then mret tt
  else raise (new_err PyTypeError ("expected openpit.pretrade.policies." +:+ class_name)).

(** An attribute, read by [parse]. *)
Definition attr {A} obj (name : string) (parse : PyObj -> PyM S A) : PyM S A :=
  value ← getattr obj name; parse value.

(** [if value.is_none() { None } else { Some(parse(value)?) }]. *)
Definition unless_none {A} (parse : PyObj -> PyM S A) value : PyM S (option A) :=
  if is_none value then mret None else x ← parse value; mret (Some x).

(** The reference to an instance of one of the binding's classes, or a type error. *)
Definition instance_of {A} (inner : PyValue -> option A) (error : string) value : PyM S A :=
  with_payload inner value mret (raise (new_err PyTypeError error)).

(** *** Rate limits *)

Definition parse_rate_limit_entity obj : PyM S RateLimit :=
  _ ← ensure_policy_entity obj "RateLimit";
  max_orders ← attr obj "max_orders" (extract_int 0 U64_MAX);
  window ← attr obj "window" parse_rate_limit_window;
  mret (mkRateLimit max_orders window).

Definition parse_rate_limit_broker_barrier obj : PyM S RateLimitBrokerBarrier :=
  _ ← ensure_policy_entity obj "RateLimitBrokerBarrier";
  limit ← attr obj "limit" parse_rate_limit_entity;
  mret (mkBrokerBarrier limit).

Definition parse_rate_limit_asset_barrier obj : PyM S RateLimitAssetBarrier :=
  _ ← ensure_policy_entity obj "RateLimitAssetBarrier";
  limit ← attr obj "limit" parse_rate_limit_entity;
  settlement_asset ← attr obj "settlement_asset" parse_asset_input;
  mret (mkAssetBarrier limit settlement_asset).

Definition parse_rate_limit_account_barrier obj : PyM S RateLimitAccountBarrier :=
  _ ← ensure_policy_entity obj "RateLimitAccountBarrier";
  limit ← attr obj "limit" parse_rate_limit_entity;
  account_id ← attr obj "account_id" parse_account_id_input;
  mret (RateLimit.mkAccountBarrier limit account_id).

Definition parse_rate_limit_account_asset_barrier obj : PyM S RateLimitAccountAssetBarrier :=
  _ ← ensure_policy_entity obj "RateLimitAccountAssetBarrier";
  limit ← attr obj "limit" parse_rate_limit_entity;
  account_id ← attr obj "account_id" parse_account_id_input;
  settlement_asset ← attr obj "settlement_asset" parse_asset_input;
  mret (mkAccountAssetBarrier limit account_id settlement_asset).

(** *** Order size limits *)

(** The caps are kept as texts. *)
Definition py_order_size_limit_new (max_quantity max_notional : option PyObj) : PyM S PyOrderSizeLimit :=
  max_quantity ← when_given (parse_decimal_input (T:=Quantity)) max_quantity;
  max_notional ← when_given (parse_decimal_input (T:=Volume)) max_notional;
  mret (mkPyOrderSizeLimit ((fun x => dec_fmt (pd_to_decimal x)) <$> max_quantity)
                           ((fun x => dec_fmt (pd_to_decimal x)) <$> max_notional)).

(** [.as_deref().map(parse).transpose()]. *)
Definition parse_cap {T} {P : PyDecimalParam T} (text : option string) : result PyErr (option T) :=
  match text with None => Ok None | Some text => Some <$> parse_decimal_str (ustr_of text) end.

Definition parse_order_size_limit (limit : PyOrderSizeLimit) : result PyErr OrderSizeLimit :=
  max_quantity ← parse_cap (pysl_max_quantity limit);
  max_notional ← parse_cap (pysl_max_notional limit);
  Ok (mkOrderSizeLimit max_quantity max_notional).

Definition order_size_limit_inner (v : PyValue) : option PyOrderSizeLimit :=
  match v with PyV_OrderSizeLimit limit => Some limit | _ => None end.

Definition parse_order_size_limit_entity obj : PyM S OrderSizeLimit :=
  limit ← instance_of order_size_limit_inner "limit must be OrderSizeLimit" obj;
  lift (parse_order_size_limit limit).

Definition parse_order_size_broker_barrier obj : PyM S OrderSizeBrokerBarrier :=
  _ ← ensure_policy_entity obj "OrderSizeBrokerBarrier";
  limit ← attr obj "limit" parse_order_size_limit_entity;
  mret (mkSizeBroker limit).

Definition parse_order_size_asset_barrier obj : PyM S OrderSizeAssetBarrier :=
  _ ← ensure_policy_entity obj "OrderSizeAssetBarrier";
  limit ← attr obj "limit" parse_order_size_limit_entity;
  asset ← attr obj "asset" parse_asset_input;
  mret (mkSizeAsset limit asset).

Definition parse_order_size_account_asset_barrier obj : PyM S OrderSizeAccountAssetBarrier :=
  _ ← ensure_policy_entity obj "OrderSizeAccountAssetBarrier";
  limit ← attr obj "limit" parse_order_size_limit_entity;
  account_id ← attr obj "account_id" parse_account_id_input;
  asset ← attr obj "asset" parse_asset_input;
  mret (mkSizeAccountAsset limit account_id asset).

(** *** P&L bounds *)

Definition parse_bound : PyObj -> PyM S (option Pnl) := unless_none parse_decimal_input.

(** The asset is read first and parsed last. *)
Definition parse_pnl_bounds_barrier obj : PyM S PnlBoundsBrokerBarrier :=
  settlement_asset ← getattr obj "settlement_asset";
  lower_bound ← attr obj "lower_bound" parse_bound;
  upper_bound ← attr obj "upper_bound" parse_bound;
  settlement_asset ← parse_asset_input settlement_asset;
  mret (mkPnlBroker settlement_asset lower_bound upper_bound).

Definition parse_pnl_broker_barrier obj : PyM S PnlBoundsBrokerBarrier :=
  _ ← ensure_policy_entity obj "PnlBoundsBrokerBarrier"; parse_pnl_bounds_barrier obj.

Definition parse_pnl_account_barrier obj : PyM S PnlBoundsAccountAssetBarrier :=
  _ ← ensure_policy_entity obj "PnlBoundsAccountAssetBarrier";
  barrier ← getattr obj "barrier";
  account_id ← getattr obj "account_id";
  initial_pnl ← getattr obj "initial_pnl";
  barrier ← parse_pnl_broker_barrier barrier;
  account_id ← parse_account_id_input account_id;
  initial_pnl ← parse_decimal_input initial_pnl;
  mret (mkPnlAccountAsset barrier account_id initial_pnl).

Definition parse_pnl_account_barrier_update obj : PyM S PnlBoundsAccountAssetBarrierUpdate :=
  _ ← ensure_policy_entity obj "PnlBoundsAccountAssetBarrierUpdate";
  barrier ← getattr obj "barrier";
  account_id ← getattr obj "account_id";
  barrier ← parse_pnl_broker_barrier barrier;
  account_id ← parse_account_id_input account_id;
  mret (mkPnlUpdate barrier account_id).

Definition parse_pnl_killswitch_barriers (broker_barriers account_barriers : list PyObj) :
    PyM S (list PnlBoundsBrokerBarrier * list PnlBoundsAccountAssetBarrier) :=
  brokers ← mapM parse_pnl_broker_barrier broker_barriers;
  accounts ← mapM parse_pnl_account_barrier account_barriers;
  mret (brokers, accounts).

(** *** Spot funds *)

Definition parse_spot_funds_pnl_bounds_barrier obj : PyM S SpotFundsPnlBoundsBarrier :=
  _ ← ensure_policy_entity obj "SpotFundsPnlBoundsBarrier";
  currency ← attr obj "currency" parse_asset_input;
  lower_bound ← attr obj "lower_bound" parse_bound;
  upper_bound ← attr obj "upper_bound" parse_bound;
  mret (mkBarrier currency lower_bound upper_bound).

Definition parse_spot_funds_pnl_account_group_barrier obj : PyM S SpotFundsPnlBoundsAccountGroupBarrier :=
  _ ← ensure_policy_entity obj "SpotFundsPnlBoundsAccountGroupBarrier";
  barrier ← getattr obj "barrier";
  account_group_id ← getattr obj "account_group_id";
  barrier ← parse_spot_funds_pnl_bounds_barrier barrier;
  account_group_id ← parse_account_group_id_input account_group_id;
  mret (mkGroupBarrier barrier account_group_id).

Definition parse_spot_funds_pnl_account_barrier obj : PyM S SpotFundsPnlBoundsAccountBarrier :=
  _ ← ensure_policy_entity obj "SpotFundsPnlBoundsAccountBarrier";
  barrier ← getattr obj "barrier";
  account_id ← getattr obj "account_id";
  barrier ← parse_spot_funds_pnl_bounds_barrier barrier;
  account_id ← parse_account_id_input account_id;
  mret (SpotFundsSettings.mkAccountBarrier barrier account_id).

(** The two choices between two names. *)
Definition parse_choice {A} (what first second : string) (x y : A) (value : ustr) : result PyErr A :=
  if bool_decide (value = ustr_of first) then Ok x
  else if bool_decide (value = ustr_of second) then Ok y
  else Err (new_err PyValueError
              (what +:+ " must be '" +:+ first +:+ "' or '" +:+ second +:+ "', got " +:+ str_debug value)).

Definition parse_spot_funds_pricing_source_str : ustr -> result PyErr SpotFundsPricingSource :=
  parse_choice "pricing_source" "Mark" "BookTop" Mark BookTop.
Definition parse_spot_funds_limit_mode_str : ustr -> result PyErr SpotFundsLimitMode :=
  parse_choice "limit_mode" "Enforce" "TrackOnly" Enforce TrackOnly.

Definition parse_spot_funds_pricing_source_entity value : PyM S SpotFundsPricingSource :=
  _ ← ensure_policy_entity value "SpotFundsPricingSource";
  text ← attr value "value" extract_str;
  lift (parse_spot_funds_pricing_source_str text).
Definition parse_spot_funds_limit_mode_entity value : PyM S SpotFundsLimitMode :=
  _ ← ensure_policy_entity value "SpotFundsLimitMode";
  text ← attr value "value" extract_str;
  lift (parse_spot_funds_limit_mode_str text).
Definition parse_optional_spot_funds_limit_mode : PyObj -> PyM S (option SpotFundsLimitMode) :=
  unless_none parse_spot_funds_limit_mode_entity.

(** The readers of identifiers, whose errors name the entity. *)
Definition account_id_inner (v : PyValue) : option AccountId := match v with PyV_AccountId x => Some x | _ => None end.
Definition instrument_id_inner (v : PyValue) : option InstrumentId :=
  match v with PyV_InstrumentId x => Some x | _ => None end.
Definition entity_account_id (entity : string) : PyObj -> PyM S AccountId :=
  instance_of account_id_inner (entity +:+ ".account_id must be openpit.param.AccountId").
Definition entity_group_id (entity : string) : PyObj -> PyM S AccountGroupId :=
  instance_of account_group_inner (entity +:+ ".account_group_id must be openpit.param.AccountGroupId").

Definition parse_spot_funds_account_limit_mode_entity value : PyM S (AccountId * option SpotFundsLimitMode) :=
  _ ← ensure_policy_entity value "SpotFundsLimitModeAccountEntry";
  account_id ← attr value "account_id" (entity_account_id "SpotFundsLimitModeAccountEntry");
  mode ← attr value "mode" parse_optional_spot_funds_limit_mode;
  mret (account_id, mode).

Definition parse_spot_funds_account_group_limit_mode_entity value :
    PyM S (AccountGroupId * option SpotFundsLimitMode) :=
  _ ← ensure_policy_entity value "SpotFundsLimitModeAccountGroupEntry";
  account_group_id ← attr value "account_group_id" (entity_group_id "SpotFundsLimitModeAccountGroupEntry");
  mode ← attr value "mode" parse_optional_spot_funds_limit_mode;
  mret (account_group_id, mode).

Definition parse_spot_funds_position_limit_entity value : PyM S (AccountId * Asset * option Quantity) :=
  _ ← ensure_policy_entity value "SpotFundsPositionLimitEntry";
  account_id ← attr value "account_id" (entity_account_id "SpotFundsPositionLimitEntry");
  asset ← attr value "asset" parse_asset_input;
  limit ← attr value "limit"
            (unless_none (instance_of (pdp_inner (T:=Quantity))
                            "SpotFundsPositionLimitEntry.limit must be openpit.param.Quantity or None"));
  mret (account_id, asset, limit).

(** The three classes are looked up first; the target's own attributes, after its
    class is known, the instrument last. *)
Definition parse_spot_funds_override_target_entity value : PyM S SpotFundsOverrideTarget :=
  policies ← py_import "openpit.pretrade.policies";
  instrument_target ← getattr policies "SpotFundsOverrideTargetInstrument";
  account_target ← getattr policies "SpotFundsOverrideTargetInstrumentAccount";
  account_group_target ← getattr policies "SpotFundsOverrideTargetInstrumentAccountGroup";
  let instrument :=
    attr value "instrument"
      (instance_of instrument_id_inner "spot funds override target instrument must be openpit.core.InstrumentId") in
  of_instrument ← py_is_instance value instrument_target;
  if of_instrument : bool then id ← instrument; mret (TargetInstrument id)
  else
    of_account ← py_is_instance value account_target;
    if of_account : bool then
      account_id ← attr value "account_id" (entity_account_id "SpotFundsOverrideTargetInstrumentAccount");
      id ← instrument;
      mret (TargetInstrumentAccount id account_id)
    else
      of_group ← py_is_instance value account_group_target;
      if of_group : bool then
        account_group_id ← attr value "account_group_id" (entity_group_id "SpotFundsOverrideTargetInstrumentAccountGroup");
        id ← instrument;
        mret (TargetInstrumentAccountGroup id account_group_id)
      else
        raise (new_err PyTypeError
          "SpotFundsOverrideEntry.target must be one of openpit.pretrade.policies.SpotFundsOverrideTargetInstrument, openpit.pretrade.policies.SpotFundsOverrideTargetInstrumentAccount, or openpit.pretrade.policies.SpotFundsOverrideTargetInstrumentAccountGroup").

Definition parse_spot_funds_override_entity value : PyM S (SpotFundsOverrideTarget * SpotFundsOverride) :=
  _ ← ensure_policy_entity value "SpotFundsOverrideEntry";
  target ← attr value "target" parse_spot_funds_override_target_entity;
  override_value ← getattr value "override";
  _ ← ensure_policy_entity override_value "SpotFundsOverride";
  slippage_bps ← attr override_value "slippage_bps" (unless_none (extract_int 0 U16_MAX));
  mret (target, mkOverride slippage_bps).
End Entities.

(** ** Runtime settings *)

Section Configurator.
Context {D : DecimalOps} {DW : DecimalWire} {DF : DecimalFormat} {G : DecimalDebug} {PM : PyModel}.
Context {W : Type} {TN : CellTypeName}.

Abbreviation St := (EngineState W).
Abbreviation AccountBlockOutcomes := (list (AccountId * AccountBlock)).
Context {RS : PyRuntime St}.
Implicit Types (st : St) (inner : PyEngine W) (name : string).

(** The call of the core's configurator, and its error as an exception. *)
Definition py_configured {A} (call : St -> result ConfigureError A * St) : PyM St A := fun st =>
  let '(r, st) := call st in map_err_in convert_configure_error r st.

(** A setter whose argument may be missing. *)
Definition when_some {X E A} (x : option A) (set : X -> A -> result E X) : Update (Error:=E) X :=
  match x with Some x => setter (fun settings => set settings x) | None => unset end.

(** A list argument: every entity is read, in order. *)
Definition parse_barriers {A} (parse : PyObj -> PyM St A) : option (list PyObj) -> PyM St (option (list A)) := fun arg =>
  match arg with Some objs => xs ← mapM parse objs; mret (Some xs) | None => mret None end.

(** The broker's barrier: cleared, replaced or left. *)
Definition broker_axis {A} (parse : PyObj -> PyM St A) (clear_broker : bool) (broker : option PyObj) :
    PyM St (option (option A)) :=
  if clear_broker && is_some broker
  then raise (new_err PyValueError "broker and clear_broker cannot both be provided")
  else
    barrier ← when_given parse broker;
    mret (if clear_broker then Some None else Some <$> barrier).

Definition py_rate_limit inner name (broker : option PyObj) (clear_broker : bool)
    (asset_barriers account_barriers account_asset_barriers : option (list PyObj)) : PyM St unit :=
  broker ← broker_axis parse_rate_limit_broker_barrier clear_broker broker;
  assets ← parse_barriers parse_rate_limit_asset_barrier asset_barriers;
  accounts ← parse_barriers parse_rate_limit_account_barrier account_barriers;
  account_assets ← parse_barriers parse_rate_limit_account_asset_barrier account_asset_barriers;
  py_configured (configure_rate_limit RateLimitPolicyError_fmt inner name
    (run_setters
       [when_some broker (fun (c : RateLimitSettings * CounterHeap) b => set_broker c.1 b c.2);
        when_some assets (fun c v => set_asset_barriers c.1 v c.2);
        when_some accounts (fun c v => (fun s => (s, c.2)) <$> set_account_barriers c.1 v);
        when_some account_assets (fun c v => (fun s => (s, c.2)) <$> set_account_asset_barriers c.1 v)])).

Definition py_pnl_bounds_killswitch inner name (broker_barriers account_barriers : option (list PyObj)) : PyM St unit :=
  brokers ← parse_barriers parse_pnl_broker_barrier broker_barriers;
  accounts ← parse_barriers parse_pnl_account_barrier_update account_barriers;
  py_configured (configure_pnl_bounds_killswitch PnlBoundsKillSwitchPolicyError_fmt inner name
    (run_setters [when_some brokers set_broker_barriers; when_some accounts PnlBounds.set_pnl_account_barriers])).

Definition py_set_account_pnl inner name (account settlement_asset pnl : PyObj) : PyM St unit :=
  account ← parse_account_id_input account;
  settlement_asset ← parse_asset_input settlement_asset;
  pnl ← parse_decimal_input pnl;
  py_configured (configure_account_pnl inner name account settlement_asset pnl).

Definition py_order_size_limit inner name (broker : option PyObj) (clear_broker : bool)
    (asset_barriers account_asset_barriers : option (list PyObj)) : PyM St unit :=
  broker ← broker_axis parse_order_size_broker_barrier clear_broker broker;
  asset ← parse_barriers parse_order_size_asset_barrier asset_barriers;
  account_asset ← parse_barriers parse_order_size_account_asset_barrier account_asset_barriers;
  py_configured (configure_order_size_limit OrderSizeLimitPolicyError_fmt inner name
    (run_setters
       [when_some broker size_set_broker; when_some asset size_set_asset_barriers;
        when_some account_asset size_set_account_asset_barriers])).

(** The parsed arguments of [spot_funds], and its closure. *)
Record PySpotFundsArgs : Type := mkSpotFundsArgs {
  psf_global_slippage_bps : option Z;
  psf_pricing_source : option SpotFundsPricingSource;
  psf_overrides : list (SpotFundsOverrideTarget * SpotFundsOverride);
  psf_global_limit_mode : option SpotFundsLimitMode;
  psf_account_limit_modes : list (AccountId * option SpotFundsLimitMode);
  psf_account_group_limit_modes : list (AccountGroupId * option SpotFundsLimitMode);
  psf_position_limits : list (AccountId * Asset * option Quantity)
}.

Definition spot_funds_setters (args : PySpotFundsArgs) : Update (Error:=SpotFundsConfigError) SpotFundsSettings :=
  run_setters
    [when_some (psf_global_slippage_bps args) set_global_slippage_bps;
     when_some (psf_pricing_source args) (fun s src => Ok (set_pricing_source s src));
     set_all_overrides (psf_overrides args);
     when_some (psf_global_limit_mode args) (fun s mode => Ok (set_global_limit_mode s mode));
     run_setters ((fun '(account_id, mode) => setter (fun s => Ok (set_account_limit_mode s account_id mode)))
                 <$> psf_account_limit_modes args);
     run_setters ((fun '(account_group_id, mode) =>
                  setter (fun s => Ok (set_account_group_limit_mode s account_group_id mode)))
                 <$> psf_account_group_limit_modes args);
     run_setters ((fun '(account_id, asset, limit) => setter (fun s => Ok (set_position_limit s account_id asset limit)))
                 <$> psf_position_limits args)].

(** [meanwhile] is what other threads do while the update is prepared. *)
Definition py_spot_funds (meanwhile : St -> St) inner name (global_slippage_bps : option Z) (pricing_source : option PyObj)
    (overrides : list PyObj) (global_limit_mode : option PyObj)
    (account_limit_modes account_group_limit_modes position_limits : list PyObj) : PyM St unit :=
  pricing_source ← when_given parse_spot_funds_pricing_source_entity pricing_source;
  overrides ← mapM parse_spot_funds_override_entity overrides;
  global_limit_mode ← when_given parse_spot_funds_limit_mode_entity global_limit_mode;
  account_limit_modes ← mapM parse_spot_funds_account_limit_mode_entity account_limit_modes;
  account_group_limit_modes ← mapM parse_spot_funds_account_group_limit_mode_entity account_group_limit_modes;
  position_limits ← mapM parse_spot_funds_position_limit_entity position_limits;
  _ ← py_configured (configure_spot_funds SpotFundsConfigError_fmt meanwhile inner name
        (spot_funds_setters
           (mkSpotFundsArgs global_slippage_bps pricing_source overrides global_limit_mode account_limit_modes
              account_group_limit_modes position_limits)));
  mret tt.

(** [Ellipsis], the default, leaves the global barrier; [None] clears it. *)
Definition global_axis (global_barrier : PyObj) : PyM St (option (option SpotFundsPnlBoundsBarrier)) :=
  if is_ellipsis global_barrier then mret None
  else if is_none global_barrier then mret (Some None)
  else barrier ← parse_spot_funds_pnl_bounds_barrier global_barrier; mret (Some (Some barrier)).

Definition py_spot_funds_pnl_bounds_killswitch (meanwhile : St -> St) inner name (global_barrier : PyObj)
    (account_group_barriers account_barriers : option (list PyObj)) : PyM St AccountBlockOutcomes :=
  global ← global_axis global_barrier;
  account_group ← parse_barriers parse_spot_funds_pnl_account_group_barrier account_group_barriers;
  account ← parse_barriers parse_spot_funds_pnl_account_barrier account_barriers;
  py_configured (configure_spot_funds SpotFundsConfigError_fmt meanwhile inner name
    (run_setters
       [when_some global set_pnl_global_barrier; when_some account_group set_pnl_account_group_barriers;
        when_some account set_pnl_account_barriers])).

Definition py_set_spot_funds_account_pnl inner name (account state : PyObj) : PyM St (list AccountBlock) :=
  account ← parse_account_id_input account;
  state ← parse_pnl_state_input state;
  py_configured (configure_spot_funds_account_pnl inner name account state).
End Configurator.

(** ** The built-in policies *)

Section Registration.
Context {D : DecimalOps} {DW : DecimalWire} {DF : DecimalFormat} {G : DecimalDebug} {PM : PyModel} {W : Type}.

Abbreviation St := (EngineState W).
Abbreviation BSt := (PyReadyEngineBuilder (W:=W) * EngineState W)%type.
Abbreviation PyRegistered :=
  (RegisteredPolicy (W:=W) (Order:=PyOrderRequest)
     (Report:=PyReportRequest) (Adjustment:=PyAdjustmentRequest)).
Context {RS : PyRuntime St}.
Implicit Types (st : St) (s : BSt).

(** A policy's place in the world is filled when its builder takes it. *)
Definition add_built (policy : PyRegistered) (w : W) : PyM BSt unit := fun '(builder, st) =>
  match add_policy builder policy with
  | (Ok _, builder) => (Ok tt, (builder, with_world st w))
  | (Err e, builder) => (Err e, (builder, st))
  end.

(** While the policy is made the builder's state is borrowed: Python code run
    meanwhile cannot change it. *)
Definition add_made {A} (make : PyM St A) (build : A -> W -> result PyErr (PyRegistered * W)) : PyM BSt unit :=
  fun '(builder, st) =>
  match rb_state builder with
  | None => (Err builder_unavailable, (builder, st))
  | Some _ =>
      match make st with
      | (Err e, st) => (Err e, (builder, st))
      | (Ok a, st) =>
          match build a (es_world st) with
          | Err e => (Err e, (builder, st))
          | Ok (policy, w) => add_built policy w (builder, st)
          end
      end
  end.

Definition value_error {A} (r : result string A) : result PyErr A := map_err (new_err PyValueError) r.

Definition py_add_builtin_order_validation (policy_group_id : Z) : PyM BSt unit := fun s =>
  add_built
    (custom_policy
       (BoxedPreTradePolicy
          (order_validation_policy
             (order_validation_with_policy_group_id order_validation_new (mkPolicyGroupId policy_group_id)))))
    (es_world s.2) s.

(** *** Rate limit *)

(** The tuples PyO3 reads; an asset that is none is an error. *)
Definition tuple_asset (text : ustr) : result PyErr Asset := value_error (map_err AssetError_fmt (asset_new text)).

Definition parse_rate_limit_barriers (broker : option (Z * Z)) (asset_barriers : list (ustr * Z * Z))
    (account_barriers : list (Z * Z * Z)) (account_asset_barriers : list (Z * ustr * Z * Z)) :
    result PyErr (option RateLimitBrokerBarrier * list RateLimitAssetBarrier * list RateLimitAccountBarrier *
                  list RateLimitAccountAssetBarrier) :=
  let broker_barrier := (fun '(max_orders, window) => mkBrokerBarrier (mkRateLimit max_orders window)) <$> broker in
  asset ← mapM (fun '(settlement, max_orders, window) =>
                  mkAssetBarrier (mkRateLimit max_orders window) <$> tuple_asset settlement) asset_barriers;
  let account := (fun '(account_id, max_orders, window) =>
                    RateLimit.mkAccountBarrier (mkRateLimit max_orders window) (mkAccountId account_id)) <$> account_barriers in
  account_asset ← mapM (fun '(account_id, settlement, max_orders, window) =>
                          mkAccountAssetBarrier (mkRateLimit max_orders window) (mkAccountId account_id) <$>
                            tuple_asset settlement) account_asset_barriers;
  Ok (broker_barrier, asset, account, account_asset).

(** [now] is the clock's reading when the policy is built, [clock] when it runs. *)
Definition make_rate_limit_policy {O : Owns W RateLimitState} (now clock policy_group_id : Z) (broker : option (Z * Z))
    (asset_barriers : list (ustr * Z * Z)) (account_barriers : list (Z * Z * Z))
    (account_asset_barriers : list (Z * ustr * Z * Z)) (w : W) : result PyErr (PyRegistered * W) :=
  '(broker_barrier, asset, account, account_asset) ←
    parse_rate_limit_barriers broker asset_barriers account_barriers account_asset_barriers;
  '(settings, h) ← value_error (map_err RateLimitPolicyError_fmt
                     (RateLimit.settings_new broker_barrier asset account account_asset heap_new));
  let '(policy, state) := rate_limit_policy_new settings now h in
  Ok (registered_rate_limit clock (rate_limit_with_policy_group_id policy (mkPolicyGroupId policy_group_id)),
      own_set state w).

Definition py_add_builtin_rate_limit {O : Owns W RateLimitState} (now clock policy_group_id : Z) (broker : option (Z * Z))
    (asset_barriers : list (ustr * Z * Z)) (account_barriers : list (Z * Z * Z))
    (account_asset_barriers : list (Z * ustr * Z * Z)) : PyM BSt unit :=
  add_made (mret tt)
    (fun _ => make_rate_limit_policy now clock policy_group_id broker asset_barriers account_barriers account_asset_barriers).

(** *** Order size limit *)

Definition make_order_size_limit_policy {O : Owns W OrderSizeLimitSettings} (policy_group_id : Z)
    (broker : option PyOrderSizeLimit) (asset_barriers : list (PyOrderSizeLimit * ustr))
    (account_asset_barriers : list (PyOrderSizeLimit * Z * ustr)) (w : W) : result PyErr (PyRegistered * W) :=
  broker_barrier ← match broker with
                   | None => Ok None
                   | Some l => limit ← parse_order_size_limit l; Ok (Some (mkSizeBroker limit))
                   end;
  asset ← mapM (fun '(l, asset) =>
                  limit ← parse_order_size_limit l; asset ← parse_asset asset; Ok (mkSizeAsset limit asset)) asset_barriers;
  account_asset ← mapM (fun '(l, account_id, asset) =>
                          limit ← parse_order_size_limit l; asset ← parse_asset asset;
                          Ok (mkSizeAccountAsset limit (mkAccountId account_id) asset)) account_asset_barriers;
  settings ← value_error (map_err OrderSizeLimitPolicyError_fmt (size_settings_new broker_barrier asset account_asset));
  let '(policy, w) := order_size_limit_new settings w in
  Ok (registered_order_size_limit (order_size_limit_with_policy_group_id policy (mkPolicyGroupId policy_group_id)), w).

(** The builder is asked for after the policy is made. *)
Definition py_add_builtin_order_size_limit {O : Owns W OrderSizeLimitSettings} (policy_group_id : Z)
    (broker : option PyOrderSizeLimit) (asset_barriers : list (PyOrderSizeLimit * ustr))
    (account_asset_barriers : list (PyOrderSizeLimit * Z * ustr)) : PyM BSt unit := fun s =>
  match make_order_size_limit_policy policy_group_id broker asset_barriers account_asset_barriers (es_world s.2) with
  | Err e => (Err e, s)
  | Ok (policy, w) => add_built policy w s
  end.

(** *** P&L bounds *)

Definition make_pnl_killswitch_policy {O : Owns W KillSwitchState} (reads : nat) (policy_group_id : Z)
    (barriers : list PnlBoundsBrokerBarrier * list PnlBoundsAccountAssetBarrier) (w : W) : result PyErr (PyRegistered * W) :=
  settings ← value_error (map_err PnlBoundsKillSwitchPolicyError_fmt (pnl_settings_new barriers.1 barriers.2));
  let group := mkPolicyGroupId policy_group_id in
  Ok (registered_pnl_killswitch reads group, own_set (pnl_with_policy_group_id (pnl_policy_new settings) group) w).

Definition py_add_builtin_pnl_bounds_killswitch {O : Owns W KillSwitchState} (reads : nat) (policy_group_id : Z)
    (broker_barriers account_barriers : list PyObj) : PyM BSt unit :=
  add_made (parse_pnl_killswitch_barriers broker_barriers account_barriers)
    (make_pnl_killswitch_policy reads policy_group_id).

(** *** Spot funds *)

Section SpotFundsRegistration.
Context {O : Owns W SpotFundsState} {LW : LeaseWaits W} {OS : Owns W Services} {OC : Owns W Z}.
Implicit Types (market_data : option PyMarketDataService).

(** The mismatch guard of the two. *)
Definition py_sync_guard (engine_sync : RuntimeSyncMode) market_data : result PyErr unit :=
  match market_data with
  | Some svc =>
      if is_multi_threaded engine_sync && (match md_mode svc with RuntimeNone => true | _ => false end)
      then Err (new_err PyValueError
        "market data service is in no-sync mode but the engine is multi-threaded; call .full_sync() on the market-data builder before .build()")
      else Ok tt
  | None => Ok tt
  end.

Definition parse_spot_funds_pricing_source (value : option ustr) : result PyErr SpotFundsPricingSource :=
  parse_spot_funds_pricing_source_str (default (ustr_of "Mark") value).

(** A slippage without a service is settled all the same. *)
Definition make_spot_funds_policy (reads : nat) (policy_group_id : Z) (engine_sync : RuntimeSyncMode) market_data
    (global_slippage_bps : option Z) (pricing_source : option ustr)
    (instrument_overrides : list (SpotFundsOverrideTarget * SpotFundsOverride)) (w : W) : result PyErr (PyRegistered * W) :=
  _ ← py_sync_guard engine_sync market_data;
  _ ← (if is_some market_data && negb (is_some global_slippage_bps)
       then Err (new_err PyValueError "global_slippage_bps is required when market_data is provided") else Ok tt);
  source ← parse_spot_funds_pricing_source pricing_source;
  settings ← value_error (map_err SpotFundsConfigError_fmt
               (SpotFundsSettings.settings_new (default 0 global_slippage_bps) source instrument_overrides));
  Ok (registered_with market_data reads
        (sp_with_policy_group_id (mkSpotFundsPolicy (is_some market_data) DEFAULT_POLICY_GROUP_ID)
           (mkPolicyGroupId policy_group_id)),
      own_set (spot_funds_new settings) w).

(** The overrides are read before the builder is borrowed. *)
Definition py_add_builtin_spot_funds {RB : PyRuntime BSt} (reads : nat) (policy_group_id : Z)
    market_data (global_slippage_bps : option Z) (pricing_source : option ustr) (overrides : list PyObj) : PyM BSt unit := fun s =>
  (overrides ← mapM parse_spot_funds_override_entity overrides;
   add_made (mret tt)
     (fun _ => make_spot_funds_policy reads policy_group_id (rb_sync_policy s.1) market_data
                 global_slippage_bps pricing_source overrides)) s.

Definition make_spot_funds_pnl_bounds_killswitch_policy (reads : nat) (policy_group_id : Z) (engine_sync : RuntimeSyncMode)
    market_data
    (barriers : option SpotFundsPnlBoundsBarrier * list SpotFundsPnlBoundsAccountGroupBarrier *
                list SpotFundsPnlBoundsAccountBarrier) (w : W) : result PyErr (PyRegistered * W) :=
  _ ← py_sync_guard engine_sync market_data;
  let '(global, account_group, account) := barriers in
  '(policy, state) ← value_error (map_err SpotFundsConfigError_fmt
                       (pnl_bounds_kill_switch global account_group account (is_some market_data)));
  Ok (registered_with market_data reads (sp_with_policy_group_id policy (mkPolicyGroupId policy_group_id)),
      own_set state w).

Definition parse_spot_funds_barriers (global_barrier : option PyObj) (account_group_barriers account_barriers : list PyObj) :
    PyM St (option SpotFundsPnlBoundsBarrier * list SpotFundsPnlBoundsAccountGroupBarrier *
            list SpotFundsPnlBoundsAccountBarrier) :=
  global ← when_given parse_spot_funds_pnl_bounds_barrier global_barrier;
  account_group ← mapM parse_spot_funds_pnl_account_group_barrier account_group_barriers;
  account ← mapM parse_spot_funds_pnl_account_barrier account_barriers;
  mret (global, account_group, account).

Definition py_add_builtin_spot_funds_pnl_bounds_killswitch (reads : nat) (policy_group_id : Z) market_data
    (global_barrier : option PyObj) (account_group_barriers account_barriers : list PyObj) : PyM BSt unit := fun s =>
  add_made (parse_spot_funds_barriers global_barrier account_group_barriers account_barriers)
    (make_spot_funds_pnl_bounds_killswitch_policy reads policy_group_id (rb_sync_policy s.1) market_data) s.
End SpotFundsRegistration.

(** *** Builders written in Python *)

Section Hooks.
Context {RB : PyRuntime BSt}.

(** [reference] is the builder's object, which the hook registers policies on. *)
Definition py_builtin (builtin_ready_builder reference : PyObj) : PyM BSt unit :=
  _ ← call_method1 builtin_ready_builder "_build" [reference]; mret tt.

Definition synced_builtin (sync_policy : RuntimeSyncMode) (builtin_ready_builder reference : PyObj) st :
    result PyErr PyReadyEngineBuilder * St :=
  match py_builtin builtin_ready_builder reference (ready_builder_new sync_policy, st) with
  | (Ok _, (builder, st)) => (Ok builder, st)
  | (Err e, (_, st)) => (Err e, st)
  end.
End Hooks.

Definition py_market_data (sync_policy : RuntimeSyncMode) (default_ttl : QuoteTtl) : PyMarketDataBuilder :=
  mkMarketDataBuilder default_ttl (market_data_mode sync_policy).
End Registration.
