(* ===== verification/PythonFacts.v ===== *)
(** * PythonFacts: what the Python boundary guarantees

    Who may touch the parked exceptions ([keeps]), the contract of a policy with
    respect to them ([FrameSafe]) and that every adapter of a Python object honours it
    when the interpreter balances its own calls ([Balanced]); then the calls of the
    engine, the handles, decimal texts and the conversions. *)
From S2P Require Import Prelude.
From S2P Require Import Decimal.
From S2P Require Import Param.
From S2P Require Import ParamTypes.
From S2P Require Import Identifiers.
From S2P Require Import Utf8.
From S2P Require Import Mutation.
From S2P Require Import Reject.
From S2P Require Import AccountControl.
From S2P Require Import Accounts.
From S2P Require Import Lock.
From S2P Require Import Policy.
From S2P Require Import Engine.
From S2P Require Import EngineFacts.
From S2P Require Import EngineOps.
From S2P Require Import Locking.
From S2P Require Import Ffi.
From S2P Require Import FfiParam.
From S2P Require Import SpotFundsParts.
From S2P Require Import Requests.
From S2P Require Import Interop.
From S2P Require Import Configure.
From S2P Require Import Instruments.
From S2P Require Import MarketData.
From S2P Require Import OrderSizeLimit.
From S2P Require Import PnlBounds.
From S2P Require Import RateLimit.
From S2P Require Import SpotFundsSettings.
From S2P Require Import SpotFunds.
From S2P Require Import FfiErrors.
From S2P Require Import Python.
From S2P Require Import PythonPolicy.
From S2P Require Import PythonEngine.
From S2P Require Import PythonServices.
From S2P Require Import PythonSettings.
Open Scope Z_scope.
Open Scope list_scope.

(** ** Parked exceptions through the pipeline *)

(** Nothing but parking a first exception in the innermost frame. *)
Definition keeps {PM : PyModel} (fr fr' : Frames) : Prop :=
  match fr with None :: rest => exists o, fr' = o :: rest | _ => fr' = fr end.

#[export] Instance keeps_preorder {PM : PyModel} : PreOrder keeps.
Proof.
  split.
  - intros [|[e|] fr]; cbn; eauto.
  - intros [|[e|] fr] fr2 fr3; cbn; [intros ->; done|intros ->; done|].
    intros [[e|] ->]; cbn; [intros ->; eauto|done].
Qed.

Lemma keeps_park {PM : PyModel} (fr : Frames) e : keeps fr (set_python_callback_error e fr).
Proof. destruct fr as [|[e'|] fr]; cbn; eauto. Qed.

Section Pipeline.
Context {D : DecimalOps} {PM : PyModel} {W Order ExecutionReport AccountAdjustment : Type} {O : Owns W Frames}.
Context `{HasAccountId Order} `{HasAccountId ExecutionReport}.

Abbreviation St := (EngineState W).
Abbreviation PRejects := (Rejects PolicyPreTradeResult).
Abbreviation Policy := (PreTradePolicy W Order ExecutionReport AccountAdjustment).
Implicit Types (st : St) (s : HookState W) (ctx : PreTradeContext) (policies : list Policy) (ms : Mutations St).

Record mutation_safe (m : Mutation St) : Prop := {
  safe_commit st : keeps (frames_of st) (frames_of (mutation_commit m st).2);
  safe_rollback st : keeps (frames_of st) (frames_of (mutation_rollback m st).2);
  safe_guard st : keeps (frames_of st) (frames_of (drop_guard m st))
}.

Definition mutations_safe ms : Prop := Forall mutation_safe (ms_mutations ms).
Definition recorder_safe (cells : ContextCells W) : Prop :=
  forall ms, cc_start_mutations cells = Some ms -> mutations_safe ms.

(** Whoever leaves an exception behind also answers a failed evaluation. *)
Definition spoken (l : list Reject) (fr fr' : Frames) : Prop :=
  fr' = fr \/ Exists (fun r => is_evaluation_failure (reject_code r) = true) l.

Record hook_safe (l : list Reject) s s' : Prop := {
  hs_keeps : keeps (frames_of s) (frames_of s');
  hs_spoken : spoken l (frames_of s) (frames_of s');
  hs_recorder : recorder_safe s'.1
}.

Definition start_safe (hook : StartHook) (p : Policy) : Prop :=
  forall ctx (order : Order) s, recorder_safe s.1 ->
    let '(r, s') := hook p ctx order s in hook_safe (all_rejects [r]) s s'.
Definition main_safe (hook : MainHook) (p : Policy) : Prop :=
  forall ctx (order : Order) ms s, recorder_safe s.1 -> mutations_safe ms ->
    let '(r, ms', s') := hook p ctx order ms s in hook_safe (all_rejects [r]) s s' /\ mutations_safe ms'.

(** What the calls of the engine need of a policy. *)
Class FrameSafe (p : Policy) : Prop := {
  fs_start : start_safe check_pre_trade_start p;
  fs_start_dry_run : start_safe check_pre_trade_start_dry_run p;
  fs_perform : main_safe perform_pre_trade_check p;
  fs_perform_dry_run : main_safe perform_pre_trade_check_dry_run p;
  fs_report pctx report (s : GroupCell * St) :
    keeps (frames_of s) (frames_of (pol_apply_execution_report p pctx report s).2);
  fs_adjust actx account adjustment ms (s : GroupCell * St) : mutations_safe ms ->
    let '(r, ms', s') := pol_apply_account_adjustment p actx account adjustment ms s in
    keeps (frames_of s) (frames_of s') /\ mutations_safe ms'
}.

(** ** Batches of mutations *)

Lemma commit_all_keeps ms st : mutations_safe ms -> keeps (frames_of st) (frames_of (commit_all ms st).2).
Proof.
  unfold mutations_safe, commit_all. generalize failure_default. intros f Hs. revert f st.
  induction Hs as [|m l Hm _ IH]; intros f st; [done|]. cbn [foldl].
  pose proof (safe_commit m Hm st) as Hc. destruct (mutation_commit m st) as [r st1] eqn:E.
  unfold commit_step at 2. rewrite E. etrans; [exact Hc|]. etrans; [apply (safe_guard m Hm)|apply IH].
Qed.

Lemma rollback_all_keeps ms st : mutations_safe ms -> keeps (frames_of st) (frames_of (rollback_all ms st).2).
Proof.
  intros Hs. apply Forall_rev in Hs. unfold rollback_all. generalize rollback_default. intros f. revert f st.
  induction Hs as [|m l Hm _ IH]; intros f st; [done|]. cbn [foldl].
  pose proof (safe_rollback m Hm st) as Hc. destruct (mutation_rollback m st) as [r st1] eqn:E.
  unfold rollback_step at 2. rewrite E. etrans; [exact Hc|apply IH].
Qed.

Lemma mutations_drop_keeps ms st : mutations_safe ms -> keeps (frames_of st) (frames_of (mutations_drop ms st)).
Proof.
  unfold mutations_safe, mutations_drop. intros Hs. revert st.
  induction Hs as [|m l Hm _ IH]; intros st; [done|]. cbn [foldl].
  etrans; [apply (safe_guard m Hm)|apply IH].
Qed.

Lemma record_failure_frames account failure st :
  frames_of (record_mutation_failure account failure st) = frames_of st.
Proof. unfold record_mutation_failure. by destruct (mf_scope failure). Qed.

Lemma mutations_new_frames st ms st' : mutations_new st = (ms, st') ->
  mutations_safe ms /\ frames_of st' = frames_of st.
Proof.
  intros Hn%mutations_new_state. destruct Hn as (H1 & H2 & _). unfold mutations_safe. rewrite H1. cbn. by rewrite H2.
Qed.

(** ** Stages *)

Lemma record_block_frames ctx b s :
  frames_of (record_reject_block ctx b s) = frames_of s /\
  cc_start_mutations (record_reject_block ctx b s).1 = cc_start_mutations s.1.
Proof.
  unfold record_reject_block, record_drop_copy_account_block, context_block.
  destruct (is_drop_copy ctx), b as [b|]; try done. destruct (known_account ctx) as [a|]; [|done].
  by destruct (control_block _ _ _ _) as [d b'].
Qed.

Lemma after_verdict_frames {T} ctx (r : result PRejects T) s :
  frames_of (after_verdict ctx r s) = frames_of s /\
  (recorder_safe s.1 -> recorder_safe (after_verdict ctx r s).1).
Proof.
  unfold after_verdict, recorder_safe. destruct r as [x|rejects]; [done|].
  destruct (record_block_frames ctx (reject_account_block (into_vec rejects)) s) as [-> ->]. done.
Qed.

Lemma hook_safe_refl s : recorder_safe s.1 -> hook_safe [] s s.
Proof. intros Hr. split; [done|by left|done]. Qed.

(** One policy's answer, recorded, and then the others'. *)
Lemma hook_safe_step {T} ctx (r : result PRejects T) rs s s1 s2 :
  hook_safe (all_rejects [r]) s s1 -> hook_safe (all_rejects rs) (after_verdict ctx r s1) s2 ->
  hook_safe (all_rejects (r :: rs)) s s2.
Proof.
  intros [K1 S1 R1] [K2 S2 R2]. destruct (after_verdict_frames ctx r s1) as [Hf _]. rewrite Hf in K2, S2.
  change (r :: rs) with ([r] ++ rs). rewrite all_rejects_app. split; [by etrans| |done].
  unfold spoken in *. rewrite Exists_app. destruct S1 as [S1|S1]; [|by right; left].
  destruct S2 as [S2|S2]; [left; congruence|by right; right].
Qed.

Lemma ask_start_safe hook ctx order policies s :
  Forall (start_safe hook) policies -> recorder_safe s.1 ->
  let '(rs, s') := ask_start hook ctx order policies s in hook_safe (all_rejects rs) s s'.
Proof.
  intros Hp. revert s. induction Hp as [|p ps Hp _ IH]; intros s Hr; [by apply hook_safe_refl|].
  cbn. specialize (Hp ctx order s Hr). destruct (hook p ctx order s) as [r s1].
  fold (after_verdict ctx r s1).
  specialize (IH (after_verdict ctx r s1) (proj2 (after_verdict_frames _ _ _) (hs_recorder _ _ _ Hp))).
  destruct (ask_start hook ctx order ps _) as [rs s2]. by eapply hook_safe_step.
Qed.

Lemma ask_main_safe hook ctx order policies ms s :
  Forall (main_safe hook) policies -> recorder_safe s.1 -> mutations_safe ms ->
  let '(rs, ms', s') := ask_main hook ctx order policies ms s in
  hook_safe (all_rejects (rs.*2)) s s' /\ mutations_safe ms'.
Proof.
  intros Hp. revert ms s. induction Hp as [|p ps Hp _ IH]; intros ms s Hr Hm; [by split; [apply hook_safe_refl|]|].
  rewrite ask_main_cons. specialize (Hp ctx order ms s Hr Hm).
  destruct (hook p ctx order ms s) as [[r ms1] s1]. destruct Hp as [Hp Hm1].
  specialize (IH ms1 (after_verdict ctx r s1)
    (proj2 (after_verdict_frames _ _ _) (hs_recorder _ _ _ Hp)) Hm1).
  destruct (ask_main hook ctx order ps ms1 _) as [[rs ms2] s2]. destruct IH as [Hs Hm2].
  split; [|done]. cbn [fmap list_fmap snd]. by eapply hook_safe_step.
Qed.

Lemma merged_none_same l (fr fr' : Frames) : merged l = None -> spoken l fr fr' -> fr' = fr.
Proof. unfold merged. destruct l; [|done]. intros _ [?|Hx%Exists_nil]; done. Qed.

Lemma fatal_none_same l (fr fr' : Frames) :
  fatal_drop_copy_rejects (merged l) = None -> spoken l fr fr' -> fr' = fr.
Proof.
  unfold fatal_drop_copy_rejects, merged. destruct (is_nil l) eqn:En.
  { destruct l; [|done]. intros _ [?|Hx%Exists_nil]; done. }
  cbn. destruct (is_nil (List.filter _ l)) eqn:Ef; [|done].
  intros _ [?|(r & Hr & He)%Exists_exists]; [done|exfalso].
  destruct (List.filter _ l) eqn:Eq; [|done].
  assert (Hin : In r (List.filter (fun r => is_evaluation_failure (reject_code r)) l)).
  { apply filter_In. split; [by apply list_elem_of_In|done]. }
  by rewrite Eq in Hin.
Qed.

(** The start stage of a fresh context, clock included. *)
Lemma start_stage_safe hook policies ctx order now s :
  Forall (start_safe hook) policies -> recorder_safe s.1 ->
  exists l b s', with_start_pre_trade_now now (run_pre_trade_start_stage hook policies ctx order) s =
    (merged l, b, s') /\ hook_safe l s s'.
Proof.
  intros Hp Hr. unfold with_start_pre_trade_now. rewrite run_start_spec.
  pose proof (ask_start_safe hook ctx order policies (s.1, with_start_now s.2 (Some now)) Hp Hr) as Ha.
  destruct (ask_start _ _ _ _ _) as [rs [cells st]]. do 3 eexists. split; [done|].
  destruct Ha as [Ha Hb Hc]. by split.
Qed.

Lemma main_stage_safe hook policies ctx order s :
  Forall (main_safe hook) policies -> recorder_safe s.1 ->
  let '(r, s') := run_pre_trade_main_stage hook policies ctx order s in
  exists l, mr_rejects r = merged l /\ hook_safe l s s' /\ mutations_safe (mr_mutations r).
Proof.
  intros Hp Hr. rewrite run_main_spec. destruct (mutations_new s.2) as [ms0 st] eqn:Em.
  destruct (mutations_new_frames _ _ _ Em) as [Hs0 Hf].
  pose proof (ask_main_safe hook ctx order policies ms0 (s.1, st) Hp Hr Hs0) as Ha.
  destruct (ask_main _ _ _ _ _ _) as [[rs ms] s']. destruct Ha as [[Ha Hb Hc] Hm].
  exists (all_rejects (rs.*2)). split; [done|]. split; [|done].
  cbn in Ha, Hb, Hf. rewrite Hf in Ha, Hb. by split.
Qed.

(** ** The entry points *)

Definition request_safe (request : PreTradeRequest (W:=W) (Order:=Order)) : Prop := recorder_safe (req_cells request).
Definition inner_safe (inner : option (ReservationHandle (W:=W))) : Prop :=
  forall h, inner = Some h -> mutations_safe (rh_mutations h).
Definition reservation_safe (reservation : PreTradeReservation (W:=W)) : Prop := inner_safe (res_inner reservation).
Definition operation_safe (operation : DropCopyOperation (W:=W)) : Prop := inner_safe (dco_inner operation).

(** A call that parked an exception answers an error. *)
Definition settles {E T} (P : T -> Prop) st (x : result E T * St) : Prop :=
  keeps (frames_of st) (frames_of x.2) /\
  forall value, x.1 = Ok value -> frames_of x.2 = frames_of st /\ P value.

Lemma settles_err {E T} (P : T -> Prop) st (e : E) st' :
  keeps (frames_of st) (frames_of st') -> settles P st (Err e, st').
Proof. by split. Qed.

Context (policies : list Policy) (Hsafe : Forall FrameSafe policies).

Lemma all_start : Forall (start_safe check_pre_trade_start) policies.
Proof using Hsafe. eapply Forall_impl; [exact Hsafe|]. intros p Hp. apply fs_start. Qed.
Lemma all_start_dry : Forall (start_safe check_pre_trade_start_dry_run) policies.
Proof using Hsafe. eapply Forall_impl; [exact Hsafe|]. intros p Hp. apply fs_start_dry_run. Qed.
Lemma all_perform : Forall (main_safe perform_pre_trade_check) policies.
Proof using Hsafe. eapply Forall_impl; [exact Hsafe|]. intros p Hp. apply fs_perform. Qed.
Lemma all_perform_dry : Forall (main_safe perform_pre_trade_check_dry_run) policies.
Proof using Hsafe. eapply Forall_impl; [exact Hsafe|]. intros p Hp. apply fs_perform_dry_run. Qed.

Lemma start_pre_trade_safe now (order : Order) st :
  settles request_safe st (start_pre_trade policies now order st).
Proof using Hsafe.
  unfold start_pre_trade. destruct (check _ _ _ _) as [rej|]; [by apply settles_err|]. cbn [with_accounts_ctx].
  destruct (start_stage_safe check_pre_trade_start policies
    (mkPreTradeContext (account_id order 0) false) order now (mkContextCells None deferred_default None, st) all_start)
    as (l & b & [cells st'] & -> & [Hk Hs Hr]); [done|]. cbn in Hk, Hs, Hr.
  destruct (merged l) as [rej|] eqn:El; [apply settles_err; by destruct b|].
  split; [done|]. intros req [= <-]. split; [by eapply merged_none_same|done].
Qed.

Lemma execute_request_safe alive request st : request_safe request ->
  settles reservation_safe st (execute_pre_trade_request alive policies request st).
Proof using Hsafe.
  intros Hr. unfold execute_pre_trade_request. destruct alive; cbn [negb]; [|by apply settles_err].
  destruct (check _ _ _ _) as [rej|]; [by apply settles_err|].
  pose proof (main_stage_safe perform_pre_trade_check policies (req_ctx request) (req_order request)
    (req_cells request, st) all_perform Hr) as Hm.
  destruct (run_pre_trade_main_stage _ _ _ _ _) as [r [cells st1]].
  destruct Hm as (l & El & [Hk Hs Hrec] & Hmut). cbn in Hk, Hs.
  destruct (mr_rejects r) as [rej|].
  - pose proof (rollback_all_keeps (mr_mutations r) st1 Hmut) as Hrb.
    destruct (rollback_all _ _) as [rb st2]. apply settles_err. etrans; [exact Hk|]. etrans; [exact Hrb|].
    pose proof (record_failure_frames (result_ok (ptc_account (req_ctx request))) (rr_failure rb) st2) as Hf.
    cbn in Hf |- *. by destruct (mr_first_account_block r); cbn; rewrite Hf.
  - split; [done|]. intros v [= <-]. split; [by eapply merged_none_same|]. by intros h [= <-].
Qed.

Lemma execute_pre_trade_safe now (order : Order) st :
  settles reservation_safe st (execute_pre_trade policies now order st).
Proof using Hsafe.
  unfold execute_pre_trade. pose proof (start_pre_trade_safe now order st) as [Hk Ho].
  destruct (start_pre_trade _ _ _ _) as [[req|rej] st1]; [|by apply settles_err].
  destruct (Ho req eq_refl) as [Hf Hreq]. cbn in Hf.
  destruct (execute_request_safe true req st1 Hreq) as [Hk2 Ho2]. split; [cbn in *; by rewrite <- Hf|].
  intros v Hv. destruct (Ho2 v Hv) as [Hf2 Hs2]. split; [cbn in *; congruence|done].
Qed.

Lemma start_dry_run_safe now (order : Order) st :
  keeps (frames_of st) (frames_of (start_pre_trade_dry_run policies now order st).2).
Proof using Hsafe.
  unfold start_pre_trade_dry_run. destruct (check _ _ _ _) as [rej|]; [done|]. cbn [with_accounts_ctx].
  destruct (start_stage_safe check_pre_trade_start_dry_run policies
    (mkPreTradeContext (account_id order 0) false) order now (mkContextCells None deferred_default None, st) all_start_dry)
    as (l & b & [cells st'] & -> & [Hk Hs Hr]); [done|]. exact Hk.
Qed.

Lemma execute_dry_run_safe now (order : Order) st :
  keeps (frames_of st) (frames_of (execute_pre_trade_dry_run policies now order st).2).
Proof using Hsafe.
  unfold execute_pre_trade_dry_run. destruct (check _ _ _ _) as [rej|]; [done|]. cbn [with_accounts_ctx].
  destruct (start_stage_safe check_pre_trade_start_dry_run policies
    (mkPreTradeContext (account_id order 0) false) order now (mkContextCells None deferred_default None, st) all_start_dry)
    as (l & b & s' & -> & [Hk Hs Hr]); [done|].
  destruct (merged l) as [rej|]; [exact Hk|].
  pose proof (main_stage_safe perform_pre_trade_check_dry_run policies
    (mkPreTradeContext (account_id order 0) false) order s' all_perform_dry Hr) as Hm.
  destruct (run_pre_trade_main_stage _ _ _ _ _) as [r [cells st1]].
  destruct Hm as (l' & El & [Hk2 _ _] & Hmut).
  etrans; [exact Hk|]. etrans; [exact Hk2|]. by apply mutations_drop_keeps.
Qed.

(** *** Drop-copy *)

Lemma take_safe ctx s : recorder_safe s.1 ->
  let '(ms, s') := take_drop_copy_start_mutations ctx s in mutations_safe ms /\ frames_of s' = frames_of s.
Proof.
  intros Hr. unfold take_drop_copy_start_mutations. destruct (mutations_new s.2) as [ms st] eqn:Em.
  apply mutations_new_frames in Em as [Hm Hf]. destruct (is_drop_copy ctx); [|done].
  destruct (cc_start_mutations s.1) as [ms'|] eqn:Ec; [|done]. split; [by apply Hr|done].
Qed.

Lemma abandon_frames ctx s :
  frames_of (abandon_drop_copy_account_operations ctx s) = frames_of s /\
  cc_start_mutations (abandon_drop_copy_account_operations ctx s).1 = cc_start_mutations s.1.
Proof. unfold abandon_drop_copy_account_operations. by destruct (is_drop_copy ctx). Qed.

Lemma apply_operations_frames ctx s : frames_of (apply_drop_copy_account_operations ctx s) = frames_of s.
Proof.
  unfold apply_drop_copy_account_operations. destruct (is_drop_copy ctx); [|done].
  by destruct (deferred_apply _ _).
Qed.

Lemma fatal_exit_safe account rejects rb st st0 : keeps (frames_of st0) (frames_of st) ->
  settles operation_safe st0 (drop_copy_fatal_exit account rejects rb st).
Proof.
  intros Hk. unfold drop_copy_fatal_exit. destruct (callback_failed rb); apply settles_err; [|done].
  etrans; [exact Hk|]. by rewrite record_failure_frames.
Qed.

(** The start mutations, taken and rolled back. *)
Lemma take_rollback_safe ctx s : recorder_safe s.1 ->
  let '(ms, s') := take_drop_copy_start_mutations ctx s in
  keeps (frames_of s) (frames_of (rollback_all ms s'.2).2).
Proof.
  intros Hr. pose proof (take_safe ctx s Hr) as Ht.
  destruct (take_drop_copy_start_mutations ctx s) as [ms s']. destruct Ht as [Hm <-].
  by apply (rollback_all_keeps ms s'.2).
Qed.

Lemma apply_drop_copy_safe now (order : Order) st :
  settles operation_safe st (apply_drop_copy policies now order st).
Proof using Hsafe.
  unfold apply_drop_copy. destruct (account_id order 0) as [account|e]; [|by apply settles_err].
  unfold with_accounts_and_drop_copy. destruct (mutations_new st) as [ms0 st0] eqn:Em.
  apply mutations_new_frames in Em as [Hm0 Hf0]. cbv zeta.
  destruct (start_stage_safe check_pre_trade_start policies (mkPreTradeContext (Ok account) true) order now
    (mkContextCells None deferred_default (Some ms0), st0) all_start)
    as (l & b & s1 & -> & [Hk1 Hs1 Hr1]); [by intros ms [= <-]|].
  change (frames_of (_, st0)) with (frames_of st0) in Hk1, Hs1. rewrite Hf0 in Hk1, Hs1.
  set (ctx := mkPreTradeContext (Ok account) true).
  destruct (abandon_frames ctx s1) as [Ha1 Hc1].
  destruct (fatal_drop_copy_rejects (merged l)) as [fatal|] eqn:Ef.
  { pose proof (take_rollback_safe ctx (abandon_drop_copy_account_operations ctx s1)) as Ht.
    unfold recorder_safe in Ht. rewrite Hc1, Ha1 in Ht. specialize (Ht Hr1).
    destruct (take_drop_copy_start_mutations _ _) as [ms s2]. destruct (rollback_all ms s2.2) as [rb st3].
    apply fatal_exit_safe. by etrans. }
  pose proof (fatal_none_same _ _ _ Ef Hs1) as Hsame1.
  pose proof (main_stage_safe perform_pre_trade_check policies ctx order s1 all_perform Hr1) as Hm.
  destruct (run_pre_trade_main_stage _ _ _ _ _) as [r s2]. destruct Hm as (l2 & El & [Hk2 Hs2 Hr2] & Hmut).
  rewrite Hsame1 in Hk2, Hs2. rewrite El. destruct (abandon_frames ctx s2) as [Ha2 Hc2].
  destruct (fatal_drop_copy_rejects (merged l2)) as [fatal|] eqn:Ef2.
  - pose proof (rollback_all_keeps (mr_mutations r) (abandon_drop_copy_account_operations ctx s2).2 Hmut) as Hrb.
    destruct (rollback_all (mr_mutations r) _) as [rb st3].
    pose proof (take_rollback_safe ctx ((abandon_drop_copy_account_operations ctx s2).1, st3)) as Ht.
    unfold recorder_safe in Ht. cbn [fst] in Ht. rewrite Hc2 in Ht. specialize (Ht Hr2).
    destruct (take_drop_copy_start_mutations _ _) as [ms s4]. destruct (rollback_all ms s4.2) as [rb' st5].
    apply fatal_exit_safe. etrans; [exact Hk2|]. rewrite <- Ha2. by etrans; [exact Hrb|].
  - pose proof (take_safe ctx s2 Hr2) as Ht. destruct (take_drop_copy_start_mutations ctx s2) as [ms s3].
    destruct Ht as [Hms Hf3]. pose proof (apply_operations_frames ctx s3) as Hf4.
    pose proof (fatal_none_same _ _ _ Ef2 Hs2) as Hsame2.
    assert (Hall : frames_of (apply_drop_copy_account_operations ctx s3).2 = frames_of st)
      by (change (frames_of (apply_drop_copy_account_operations ctx s3) = frames_of st); congruence).
    split; cbn [fst snd]; [by rewrite Hall|]. intros op [= <-]. split; [exact Hall|].
    intros h [= <-]. by apply Forall_app.
Qed.

(** *** Reports and adjustments *)

Lemma apply_report_safe (report : ExecutionReport) st :
  keeps (frames_of st) (frames_of (apply_execution_report policies report st).2).
Proof using Hsafe.
  unfold apply_execution_report. set (ctx := mkPostTradeContext _). set (out0 := mkPostTradeResult [] [] []).
  assert (Hf : forall out (s : GroupCell * St),
    keeps (frames_of s) (frames_of (foldl (report_step ctx report) (out, s) policies).2)).
  { clearbody ctx out0. pose proof Hsafe as Hp'. clear Hsafe. induction Hp' as [|p ps Hp _ IH]; intros out s; [done|]. cbn [foldl].
    pose proof (fs_report ctx report s) as Hr. unfold report_step at 2.
    destruct (pol_apply_execution_report p ctx report s) as [[result|] s1]; (etrans; [exact Hr|apply IH]). }
  specialize (Hf out0 (None, st)). destruct (foldl _ _ _) as [out [cell st1]].
  cbn in Hf |- *. by destruct (head _).
Qed.

Lemma adjust_policies_safe actx account adjustment a (s : GroupCell * St) :
  mutations_safe (aa_mutations a) ->
  let '(r, a', s') := adjust_policies actx account adjustment policies a s in
  keeps (frames_of s) (frames_of s') /\ mutations_safe (aa_mutations a').
Proof using Hsafe.
  revert a s. pose proof Hsafe as Hp'. clear Hsafe. induction Hp' as [|p ps Hp _ IH]; intros a s Hm; [done|]. cbn [adjust_policies].
  pose proof (fs_adjust actx account adjustment (aa_mutations a) s Hm) as Ha.
  destruct (pol_apply_account_adjustment _ _ _ _ _ _) as [[[result|rej] ms1] s1]; destruct Ha as [Hk Hm1].
  - lazymatch goal with |- context [adjust_policies _ _ _ ps ?a1 s1] => specialize (IH a1 s1 Hm1) end.
    destruct (adjust_policies _ _ _ ps _ s1) as [[r a'] s']. destruct IH as [Hk2 Hm2]. split; [by etrans|done].
  - done.
Qed.

Lemma adjust_batch_safe actx account index adjustments a (s : GroupCell * St) :
  mutations_safe (aa_mutations a) ->
  let '(e, a', s') := adjust_batch actx account policies index adjustments a s in
  keeps (frames_of s) (frames_of s') /\ mutations_safe (aa_mutations a').
Proof using Hsafe.
  revert index a s. induction adjustments as [|adj adjs IH]; intros index a s Hm; [done|]. cbn [adjust_batch].
  pose proof (adjust_policies_safe actx account adj a s Hm) as Ha.
  destruct (adjust_policies _ _ _ _ _ _) as [[[[]|rej] a1] s1]; destruct Ha as [Hk Hm1]; [|done].
  specialize (IH (S index) a1 s1 Hm1). destruct (adjust_batch _ _ _ _ _ _ _) as [[e a2] s2].
  destruct IH as [Hk2 Hm2]. split; [by etrans|done].
Qed.

Lemma apply_adjustment_safe account adjustments st :
  keeps (frames_of st) (frames_of (apply_account_adjustment policies account adjustments st).2).
Proof using Hsafe.
  unfold apply_account_adjustment. destruct adjustments as [|adj adjs]; [done|].
  destruct (mutations_new st) as [ms0 st0] eqn:Em. apply mutations_new_frames in Em as [Hm0 Hf0].
  pose proof (adjust_batch_safe (mkAdjustmentContext account) account 0 (adj :: adjs) (mkAdjustAcc ms0 [] [])
    (None, st0) Hm0) as Hb.
  destruct (adjust_batch _ _ _ _ _ _ _) as [[e a] [cell st1]]. destruct Hb as [Hk Hm].
  change (keeps (frames_of st0) (frames_of st1)) in Hk. rewrite Hf0 in Hk.
  destruct e as [err|].
  - pose proof (rollback_all_keeps (aa_mutations a) st1 Hm) as Hr. destruct (rollback_all _ _) as [rb st2].
    cbn [snd]. rewrite record_failure_frames. by etrans.
  - pose proof (commit_all_keeps (aa_mutations a) st1 Hm) as Hr. destruct (commit_all _ _) as [failure st2].
    pose proof (record_failure_frames (Some account) failure st2) as Hf.
    etrans; [exact Hk|]. etrans; [exact Hr|]. cbn in Hf |- *. by rewrite Hf.
Qed.

(** *** Finalizers *)

Lemma handle_commit_keeps h st : mutations_safe (rh_mutations h) ->
  keeps (frames_of st) (frames_of (handle_commit h st)).
Proof.
  intros Hm. unfold handle_commit. pose proof (commit_all_keeps _ st Hm) as Hr.
  destruct (commit_all _ _) as [failure st1]. by rewrite record_failure_frames.
Qed.

Lemma handle_rollback_keeps h st : mutations_safe (rh_mutations h) ->
  keeps (frames_of st) (frames_of (handle_rollback h st)).
Proof.
  intros Hm. unfold handle_rollback. pose proof (rollback_all_keeps _ st Hm) as Hr.
  destruct (rollback_all _ _) as [rb st1]. by rewrite record_failure_frames.
Qed.
End Pipeline.

(** ** The interpreter keeps its own accounts *)

Section Balanced.
Context {D : DecimalOps} {DW : DecimalWire} {DF : DecimalFormat} {PM : PyModel} {S : Type}.
Context (R : relation S) `{!PreOrder R}.

Inductive iter_balanced : PyIter S -> Prop :=
| iter_balanced_intro next :
    (forall s, R s (next s).2) ->
    (forall s item it, (next s).1 = Ok (Some (item, it)) -> iter_balanced it) ->
    iter_balanced (py_iter next).

(** What runs inside the interpreter, calls of the binding included, leaves the state
    as [R] says. *)
Class Balanced (RT : PyRuntime S) : Prop := {
  bal_import name s : R s (py_import name s).2;
  bal_getattr o name s : R s (getattr o name s).2;
  bal_hasattr o name s : R s (hasattr o name s).2;
  bal_is_instance o cls s : R s (py_is_instance o cls s).2;
  bal_call0 o s : R s (call0 o s).2;
  bal_call_method1 o name args s : R s (call_method1 o name args s).2;
  bal_dict_set_item name o s : R s (dict_set_item name o s).2;
  bal_call_method o name kwargs s : R s (call_method o name kwargs s).2;
  bal_try_iter o s : R s (try_iter o s).2;
  bal_iter o s it : (try_iter o s).1 = Ok it -> iter_balanced it;
  bal_number_index o s : R s (number_index o s).2;
  bal_extract_str o s : R s (extract_str o s).2;
  bal_extract_bool o s : R s (extract_bool o s).2;
  bal_extract_int lo hi o s : R s (extract_int lo hi o s).2;
  bal_extract_f64 o s : R s (extract_f64 o s).2;
  bal_py_new v s : R s (py_new v s).2;
  bal_err_to_string e s : R s (err_to_string e s).2;
  bal_cast_error o class s : R s (cast_error o class s).2;
  bal_err_setattr e name v s : R s (err_setattr e name v s).2;
  bal_err_restore e s : R s (err_restore e s)
}.

(** Code that does no more than that. *)
Definition still {A} (m : PyM S A) : Prop := forall s, R s (m s).2.

Lemma still_ret {A} (x : A) : still (mret x).
Proof. intros s. reflexivity. Qed.
Lemma still_raise {A} e : still (raise (A:=A) e).
Proof. intros s. reflexivity. Qed.
Lemma still_lift {A} (r : result PyErr A) : still (lift r).
Proof. intros s. reflexivity. Qed.
Lemma still_bind {A B} (m : PyM S A) (f : A -> PyM S B) : still m -> (forall x, still (f x)) -> still (m ≫= f).
Proof.
  intros Hm Hf s. unfold mbind, PyM_bind. specialize (Hm s). destruct (m s) as [[x|e] s1]; [|exact Hm].
  etrans; [exact Hm|apply Hf].
Qed.
(** The same, with what the first part promises of its value. *)
Lemma still_bind_post {A B} (P : A -> Prop) (m : PyM S A) (f : A -> PyM S B) :
  still m -> (forall s x, (m s).1 = Ok x -> P x) -> (forall x, P x -> still (f x)) -> still (m ≫= f).
Proof.
  intros Hm Hp Hf s. unfold mbind, PyM_bind. specialize (Hm s). specialize (Hp s).
  destruct (m s) as [[x|e] s1]; [|exact Hm]. etrans; [exact Hm|]. by apply Hf, Hp.
Qed.
Lemma still_try_ok {A} (m : PyM S A) : still m -> still (try_ok m).
Proof. intros Hm s. unfold try_ok. specialize (Hm s). by destruct (m s). Qed.
Lemma still_map_exc {A} f (m : PyM S A) : still m -> still (map_exc f m).
Proof. intros Hm s. unfold map_exc. specialize (Hm s). by destruct (m s). Qed.
Lemma still_if {A} (b : bool) (m1 m2 : PyM S A) : still m1 -> still m2 -> still (if b then m1 else m2).
Proof. by destruct b. Qed.

Context {RT : PyRuntime S} `{!Balanced RT}.

Lemma still_payload {A B} (inner : PyValue -> option A) value (found : A -> PyM S B) (otherwise : PyM S B) :
  (forall x, still (found x)) -> still otherwise -> still (with_payload inner value found otherwise).
Proof. intros Hf Ho s. unfold with_payload. destruct (_ ≫= _); [apply Hf|apply Ho]. Qed.

Lemma py_for_rel {A} (Q : relation A) `{!PreOrder Q} body (it : PyIter S) acc s : iter_balanced it ->
  (forall item acc s, R s (body item acc s).2.2 /\ Q acc (body item acc s).2.1) ->
  R s (py_for body it acc s).2.2 /\ Q acc (py_for body it acc s).2.1.
Proof.
  intros Hit Hb. revert acc s. induction Hit as [next Hn _ IH]. intros acc s. cbn.
  pose proof (Hn s) as Hs. specialize (IH s). destruct (next s) as [[[[item it]|]|e] s1]; cbn in Hs |- *; [|by split..].
  destruct (Hb item acc s1) as [Hr Hq]. destruct (body item acc s1) as [[u|e] [acc1 s2]]; cbn in Hr, Hq.
  - destruct (IH item it eq_refl acc1 s2) as [Hr2 Hq2]. split; [|by etrans].
    etrans; [exact Hs|]. by etrans.
  - split; [by etrans|done].
Qed.

Lemma still_collect {A} (parse : PyObj -> PyM S A) it :
  iter_balanced it -> (forall item, still (parse item)) -> still (collect parse it).
Proof.
  intros Hit Hp s. unfold collect. assert (PreOrder (fun _ _ : list A => True)) by done.
  pose proof (py_for_rel (fun _ _ => True) (push_parsed parse) it [] s Hit) as Hf.
  destruct (py_for _ it [] s) as [[u|e] [l s1]]; apply Hf; intros item acc s2;
    (split; [|done]); unfold push_parsed; specialize (Hp item s2); by destruct (parse item s2) as [[]].
Qed.

Lemma still_iter {A B} o (parse : PyObj -> PyM S A) (f : list A -> PyM S B) :
  (forall item, still (parse item)) -> (forall l, still (f l)) ->
  still (it ← try_iter o; l ← collect parse it; f l).
Proof.
  intros Hp Hf s. unfold mbind at 1, PyM_bind at 1. pose proof (bal_try_iter o s) as Ht. pose proof (bal_iter o s) as Hi.
  destruct (try_iter o s) as [[it|e] s1]; [|exact Ht]. etrans; [exact Ht|].
  apply still_bind; [|done]. apply still_collect; [by apply Hi|done].
Qed.

Lemma still_parse_list {A} (parse : PyObj -> PyM S A) o : (forall item, still (parse item)) -> still (parse_list parse o).
Proof.
  intros Hp s. unfold parse_list, mbind, PyM_bind. pose proof (bal_try_iter o s) as Ht. pose proof (bal_iter o s) as Hi.
  destruct (try_iter o s) as [[it|e] s1]; [|exact Ht]. etrans; [exact Ht|].
  apply still_collect; [by apply Hi|done].
Qed.
End Balanced.

Create HintDb still.
(** Conversions of errors that leave the parked exceptions alone. *)
Create HintDb calm.
#[export] Hint Extern 2 (still _ (try_iter _)) => (intros ?; apply bal_try_iter) : still.
#[export] Hint Extern 2 (still _ (getattr _ _)) => (intros ?; apply bal_getattr) : still.
#[export] Hint Extern 2 (still _ (hasattr _ _)) => (intros ?; apply bal_hasattr) : still.
#[export] Hint Extern 2 (still _ (py_import _)) => (intros ?; apply bal_import) : still.
#[export] Hint Extern 2 (still _ (py_is_instance _ _)) => (intros ?; apply bal_is_instance) : still.
#[export] Hint Extern 2 (still _ (call_method1 _ _ _)) => (intros ?; apply bal_call_method1) : still.
#[export] Hint Extern 2 (still _ (call_method _ _ _)) => (intros ?; apply bal_call_method) : still.
#[export] Hint Extern 2 (still _ (dict_set_item _ _)) => (intros ?; apply bal_dict_set_item) : still.
#[export] Hint Extern 2 (still _ (number_index _)) => (intros ?; apply bal_number_index) : still.
#[export] Hint Extern 2 (still _ (extract_str _)) => (intros ?; apply bal_extract_str) : still.
#[export] Hint Extern 2 (still _ (extract_bool _)) => (intros ?; apply bal_extract_bool) : still.
#[export] Hint Extern 2 (still _ (extract_int _ _ _)) => (intros ?; apply bal_extract_int) : still.
#[export] Hint Extern 2 (still _ (extract_f64 _)) => (intros ?; apply bal_extract_f64) : still.
#[export] Hint Extern 2 (still _ (py_new _)) => (intros ?; apply bal_py_new) : still.

Tactic Notation "step" uconstr(l) := apply l; try exact _.
#[export] Hint Extern 1 (still _ (mret _)) => (step still_ret) : still.
#[export] Hint Extern 1 (still _ (raise _)) => (step still_raise) : still.
#[export] Hint Extern 1 (still _ (lift _)) => (step still_lift) : still.

(** Down a program, bind by bind. *)
Ltac still :=
  repeat first
    [ solve [auto 3 with still nocore]
    | step still_payload; [intros ?|]
    | step still_parse_list; intros ?
    | step still_try_ok | step still_map_exc
    | step still_iter; intros ?
    | step still_bind; [|intros ?]
    | lazymatch goal with |- still _ (match ?x with _ => _ end) => destruct x end ].

Section Parsers.
Context {D : DecimalOps} {DW : DecimalWire} {DF : DecimalFormat} {PM : PyModel} {S : Type}.
Context (R : relation S) `{!PreOrder R} {RT : PyRuntime S} `{!Balanced R RT}.
Implicit Types (value : PyObj).

Lemma still_parse_decimal {T} {P : PyDecimalParam T} value : still R (parse_decimal_input (T:=T) value).
Proof.
  unfold parse_decimal_input. step still_payload; [intros ?; still|].
  step still_bind; [unfold is_python_decimal; still|]. intros [].
  { step still_bind; [|still]. unfold parse_python_decimal. still. }
  step still_bind.
  { intros s. unfold is_other_decimal_param_type. step (still_bind R); [|intros ?]; still. }
  intros []; [still|]. step still_bind; [still|]. intros t. step still_if; [still|].
  step still_bind; [still|]. intros [text|]; [still|]. intros s.
  assert (Hi : still R (extract_python_integer value pdp_type_name)) by (unfold extract_python_integer; still).
  specialize (Hi s). destruct (extract_python_integer _ _ s) as [[n|e] s1]; [exact Hi|].
  destruct (is_type_error e); [|exact Hi]. etrans; [exact Hi|]. step (still_bind R); [|intros ?]; still.
Qed.

Lemma still_optional {A} (parse : PyObj -> PyM S A) value : (forall v, still R (parse v)) -> still R (optional parse value).
Proof. intros Hp. unfold optional. still. Qed.

#[local] Hint Extern 1 (still _ (optional _ _)) => (step still_optional; intros ?; still) : still.
#[local] Hint Extern 1 (still _ (parse_decimal_input _)) => (step still_parse_decimal) : still.
Lemma still_asset value : still R (parse_asset_input value).
Proof. unfold parse_asset_input. still. Qed.
#[local] Hint Extern 1 (still _ (parse_asset_input _)) => (step still_asset) : still.
Lemma still_account_id value : still R (parse_account_id_input value).
Proof. unfold parse_account_id_input. still. Qed.
#[local] Hint Extern 1 (still _ (parse_account_id_input _)) => (step still_account_id) : still.
Lemma still_policy_group value : still R (parse_policy_group_id_input value).
Proof. unfold parse_policy_group_id_input. still. Qed.
#[local] Hint Extern 1 (still _ (parse_policy_group_id_input _)) => (step still_policy_group) : still.
Lemma still_str_attr value name error : still R (str_attr value name error).
Proof. unfold str_attr. still. Qed.
#[local] Hint Extern 1 (still _ (str_attr _ _ _)) => (step still_str_attr) : still.
Lemma still_user_data value error : still R (user_data_attr value error).
Proof. unfold user_data_attr. still. Qed.
#[local] Hint Extern 1 (still _ (user_data_attr _ _)) => (step still_user_data) : still.
Lemma still_policy_reject value name : still R (parse_policy_reject value name).
Proof. unfold parse_policy_reject. still. Qed.
#[local] Hint Extern 1 (still _ (parse_policy_reject _ _)) => (step still_policy_reject) : still.
Lemma still_policy_rejects value name : still R (parse_policy_rejects value name).
Proof. unfold parse_policy_rejects. still. Qed.
#[local] Hint Extern 1 (still _ (parse_policy_rejects _ _)) => (step still_policy_rejects) : still.
Lemma still_account_block value : still R (parse_account_block value).
Proof. unfold parse_account_block. still. Qed.
#[local] Hint Extern 1 (still _ (parse_account_block _)) => (step still_account_block) : still.
Lemma still_outcome_amount value : still R (parse_outcome_amount value).
Proof. unfold parse_outcome_amount. still. Qed.
#[local] Hint Extern 1 (still _ (parse_outcome_amount _)) => (step still_outcome_amount) : still.
Lemma still_pnl_amount value : still R (parse_pnl_outcome_amount value).
Proof. unfold parse_pnl_outcome_amount. still. Qed.
#[local] Hint Extern 1 (still _ (parse_pnl_outcome_amount _)) => (step still_pnl_amount) : still.
Lemma still_halt_reason value field : still R (parse_pnl_halt_reason value field).
Proof. unfold parse_pnl_halt_reason. still. Qed.
#[local] Hint Extern 1 (still _ (parse_pnl_halt_reason _ _)) => (step still_halt_reason) : still.
Lemma still_pnl_attrs value field : still R (pnl_attrs value field).
Proof. unfold pnl_attrs. still. Qed.
#[local] Hint Extern 1 (still _ (pnl_attrs _ _)) => (step still_pnl_attrs) : still.
Lemma still_pnl_outcome value : still R (parse_pnl_outcome value).
Proof. unfold parse_pnl_outcome. still. Qed.
#[local] Hint Extern 1 (still _ (parse_pnl_outcome _)) => (step still_pnl_outcome) : still.
Lemma still_account_pnl value : still R (parse_account_pnl_outcome value).
Proof. unfold parse_account_pnl_outcome. still. Qed.
#[local] Hint Extern 1 (still _ (parse_account_pnl_outcome _)) => (step still_account_pnl) : still.
Lemma still_outcome_entry value : still R (parse_account_outcome_entry value).
Proof. unfold parse_account_outcome_entry, parse_optional_outcome_amount, parse_optional_pnl_outcome. still. Qed.
#[local] Hint Extern 1 (still _ (parse_account_outcome_entry _)) => (step still_outcome_entry) : still.
Lemma still_adjustment_outcome value : still R (parse_account_adjustment_outcome value).
Proof. unfold parse_account_adjustment_outcome. still. Qed.
#[local] Hint Extern 1 (still _ (parse_account_adjustment_outcome _)) => (step still_adjustment_outcome) : still.
Lemma still_post_trade_result value : still R (parse_post_trade_result value).
Proof. unfold parse_post_trade_result, parse_account_block_list, parse_account_pnl_outcome_list, parse_account_adjustment_outcome_list. still. Qed.
#[local] Hint Extern 1 (still _ (parse_post_trade_result _)) => (step still_post_trade_result) : still.
End Parsers.

#[export] Hint Extern 1 (still _ (parse_decimal_input _)) => (step still_parse_decimal) : still.
#[export] Hint Extern 1 (still _ (parse_policy_reject _ _)) => (step still_policy_reject) : still.
#[export] Hint Extern 1 (still _ (parse_policy_rejects _ _)) => (step still_policy_rejects) : still.
#[export] Hint Extern 1 (still _ (parse_account_block _)) => (step still_account_block) : still.
#[export] Hint Extern 1 (still _ (parse_account_outcome_entry _)) => (step still_outcome_entry) : still.
#[export] Hint Extern 1 (still _ (parse_post_trade_result _)) => (step still_post_trade_result) : still.
#[export] Hint Extern 1 (still _ (parse_account_id_input _)) => (step still_account_id) : still.

Definition same_frames {PM : PyModel} {S} {HF : HasFrames S} : relation S := fun s s' => frames_of s' = frames_of s.
#[export] Instance same_frames_preorder {PM : PyModel} {S} {HF : HasFrames S} : PreOrder (same_frames (S:=S)).
Proof. split; [done|]. unfold same_frames. intros s1 s2 s3 -> ->. done. Qed.

(** ** Adapters *)

Section Adapter.
Context {D : DecimalOps} {DW : DecimalWire} {DF : DecimalFormat} {PM : PyModel} {W : Type} {O : Owns W Frames}.

Abbreviation St := (EngineState W).
Abbreviation PRejects := (Rejects PolicyPreTradeResult).
Abbreviation CellState := (GroupCell * St)%type.
Implicit Types (st : St) (s : HookState W) (ctx : PreTradeContext) (ms : Mutations St).

(** A hook may also record mutations of the start stage, and records safe ones. *)
Definition hook_still : relation (HookState W) := fun s s' =>
  frames_of s' = frames_of s /\ (recorder_safe s.1 -> recorder_safe s'.1).
#[export] Instance hook_still_preorder : PreOrder hook_still.
Proof.
  split; [by intros s|]. unfold hook_still. intros s1 s2 s3 [H1 H2] [H3 H4]. split; [congruence|auto].
Qed.

Definition with_collector {S} (R : relation S) : relation (Mutations St * S) := fun x x' =>
  R x.2 x'.2 /\ (mutations_safe x.1 -> mutations_safe x'.1).
#[export] Instance with_collector_preorder {S} (R : relation S) `{!PreOrder R} : PreOrder (with_collector R).
Proof.
  split; [by intros [ms s]; split|]. intros x1 x2 x3 [H1 H2] [H3 H4]. split; [by etrans|auto].
Qed.

Context {RH : PyRuntime (HookState W)} {RC : PyRuntime CellState} {RS : PyRuntime St}.
Context `{!Balanced hook_still RH} `{!Balanced same_frames RC} `{!Balanced same_frames RS}.

Lemma frames_park {S} {HF : HasFrames S} (e : PyErr) (s : S) :
  (forall fr, frames_of (with_frames fr s) = fr) -> frames_of (park e s) = set_python_callback_error e (frames_of s).
Proof. intros Hw. apply Hw. Qed.

Lemma frames_with_st fr st : frames_of (with_frames fr st) = fr.
Proof. cbn. apply own_get_set. Qed.

Lemma mutation_callback_keeps callable st : keeps (frames_of st) (frames_of (mutation_callback callable st).2).
Proof using All.
  unfold mutation_callback. pose proof (bal_call0 same_frames callable st) as Hc.
  destruct (call0 callable st) as [[x|e] st1]; cbn [snd] in *; [by rewrite Hc|].
  pose proof (bal_err_to_string same_frames e st1) as He. destruct (err_to_string e st1) as [details st2].
  cbn [snd] in *. rewrite frames_park by (intros fr; apply frames_with_st). rewrite He, Hc. apply keeps_park.
Qed.

Section Collector.
Context {S : Type} (R : relation S) `{!PreOrder R} {RT : PyRuntime S} `{!Balanced R RT}.

Lemma still_on_state {A} (m : PyM S A) : still R m -> still (with_collector R) (on_state (C:=Mutations St) m).
Proof. intros Hm [ms s]. unfold on_state. specialize (Hm s). cbn. by destruct (m s). Qed.

Lemma parsed_mutation_safe value (s : S) m : (parse_policy_mutation value s).1 = Ok m -> mutation_safe m.
Proof using All.
  unfold parse_policy_mutation, mbind, PyM_bind. destruct (getattr value "commit" s) as [[c|] s1]; [|done].
  destruct (getattr value "rollback" s1) as [[r|] s2]; [|done]. intros [= <-].
  split; intros st; [apply mutation_callback_keeps| |done].
  pose proof (mutation_callback_keeps r st) as Hk. unfold mutation_rollback. cbn [mut_rollback new_fallible_with_error new_reporting_with_error].
  by destruct (mutation_callback r st) as [[] st1].
Qed.

Lemma still_push_mutations it : iter_balanced R it -> still (with_collector R) (push_mutations it).
Proof using All.
  intros Hit [ms s]. unfold push_mutations. cbn [fst snd].
  assert (PreOrder (fun ms ms' : Mutations St => mutations_safe ms -> mutations_safe ms')) by (split; [by intros ?|intros ???; auto]).
  refine (py_for_rel R (fun ms ms' : Mutations St => mutations_safe ms -> mutations_safe ms') push_mutation it ms s Hit _).
  intros item acc s1. unfold push_mutation.
  assert (Hp : still R (parse_policy_mutation (W:=W) item)) by (unfold parse_policy_mutation; still). specialize (Hp s1).
  pose proof (parsed_mutation_safe item s1) as Hm.
  destruct (parse_policy_mutation item s1) as [[m|e] s2]; cbn in *; split; auto.
  intros Hs. apply Forall_app. split; [done|]. by apply Forall_singleton, Hm.
Qed.

Lemma still_decision name decision : still (with_collector R) (apply_policy_decision (W:=W) name decision).
Proof using All.
  unfold apply_policy_decision. step still_bind.
  { apply still_on_state. still. }
  intros rejects. apply still_bind_post with (P := iter_balanced R); [exact _|apply still_on_state; still| |].
  - intros [ms s] it. unfold on_state, mbind, PyM_bind. cbn [fst snd].
    destruct (getattr decision "mutations" s) as [[items|e] s1]; [|done].
    pose proof (bal_iter R items s1) as Hi. destruct (try_iter items s1) as [[it'|e] s2]; [|done].
    intros [= <-]. by apply Hi.
  - intros it Hit. step still_bind; [by apply still_push_mutations|]. intros []. step still_ret.
Qed.

Lemma still_pre_trade_result name value :
  still (with_collector R) (apply_policy_pre_trade_result (W:=W) name value).
Proof using All.
  unfold apply_policy_pre_trade_result. destruct (is_none value); [step still_ret|].
  step still_bind; [apply still_on_state; still|]. intros has_rejects.
  step still_bind; [destruct has_rejects; [step still_ret|apply still_on_state; still]|]. intros is_decision.
  step still_bind; [destruct is_decision; [apply still_decision|step still_ret]|]. intros rejects.
  apply still_on_state. still.
Qed.
End Collector.

Implicit Types (self : PythonPreTradePolicyAdapter).

Lemma context_still ctx s : hook_still s (PyPreTradeContext_from ctx s).2.
Proof.
  unfold PyPreTradeContext_from, account_group. destruct (group_lookup _ _ _) as [g cell]. by split.
Qed.

Lemma start_hook_still method self ctx order : still hook_still (run_start_hook (W:=W) method self ctx order).
Proof using All.
  intros s. unfold run_start_hook. pose proof (context_still ctx s) as Hc.
  destruct (PyPreTradeContext_from ctx s) as [context s1]. etrans; [exact Hc|].
  step (still_bind hook_still); [|intros ?]; still.
Qed.

Lemma main_hook_still method self ctx order :
  still (with_collector hook_still) (run_main_hook (W:=W) method self ctx order).
Proof using All.
  intros [ms s]. unfold run_main_hook. cbn [fst snd]. pose proof (context_still ctx s) as Hc.
  destruct (PyPreTradeContext_from ctx s) as [context s1].
  trans (ms, s1); [by split|]. step (still_bind (with_collector hook_still)).
  - step still_on_state. still.
  - intros decision. step still_pre_trade_result.
Qed.

(** [injection] would compute in the second component. *)
Ltac simplify_pair E := apply pair_equal_spec in E as [<- <-].

(** A hook ends: its exception, if any, is parked and spoken of. *)
Lemma reject_exception_safe {A} self (r : result PyErr A) s s1 r' s2 :
  hook_still s s1 -> recorder_safe s.1 -> reject_exception self r s1 = (r', s2) ->
  hook_safe (match r' with Err rejects => into_vec rejects | Ok _ => [] end) s s2.
Proof.
  intros [Hf Hr] Hs. specialize (Hr Hs). unfold reject_exception. destruct r as [x|e]; intros E; simplify_pair E.
  - split; [by rewrite Hf|by left|done].
  - assert (Hp : frames_of (park e s1) = set_python_callback_error e (frames_of s))
      by (rewrite <- Hf; apply frames_park; intros fr; apply frames_with_st).
    split; [rewrite Hp; apply keeps_park|right; by apply Exists_cons_hd|exact Hr].
Qed.

Lemma hook_safe_more l l' s s' : hook_safe l s s' ->
  (forall r, r ∈ l -> is_evaluation_failure (reject_code r) = true -> r ∈ l') -> hook_safe l' s s'.
Proof.
  intros [Hk Hs Hr] Hl. split; [done| |done]. destruct Hs as [Hs|(r & Hr' & He)%Exists_exists]; [by left|].
  right. apply Exists_exists. eauto.
Qed.

Lemma adapter_start_safe method self ctx order s : recorder_safe s.1 ->
  let '(r, s') := call_start_hook (W:=W) method self ctx order s in hook_safe (all_rejects [r]) s s'.
Proof using All.
  intros Hr. unfold call_start_hook. pose proof (start_hook_still method self ctx order s) as Hs.
  destruct (run_start_hook method self ctx order s) as [r s1].
  destruct (reject_exception self r s1) as [r' s2] eqn:E. eapply reject_exception_safe in E; [|done..].
  eapply hook_safe_more; [exact E|]. destruct r' as [x|rej]; cbn; [by intros ? ?%elem_of_nil|].
  intros r0 Hr0 _. by rewrite app_nil_r.
Qed.

Lemma call_main_hook_safe method self ctx order ms s : recorder_safe s.1 -> mutations_safe ms ->
  let '(r, ms', s') := call_main_hook (W:=W) method self ctx order ms s in
  hook_safe (match r with Err rejects => into_vec rejects | Ok _ => [] end) s s' /\ mutations_safe ms'.
Proof using All.
  intros Hr Hm. unfold call_main_hook. pose proof (main_hook_still method self ctx order (ms, s)) as [Hs Hms].
  destruct (run_main_hook method self ctx order (ms, s)) as [r [ms1 s1]].
  destruct (reject_exception self r s1) as [r' s2] eqn:E. eapply reject_exception_safe in E; [|done..].
  split; [done|auto].
Qed.

Lemma dry_run_method_still self method s : hook_still s (dry_run_method (W:=W) self method s).2.
Proof using All.
  unfold dry_run_method. pose proof (bal_hasattr hook_still (ppa_policy self) (method +:+ "_dry_run") s) as Hh.
  by destruct (hasattr _ _ s) as [[[]|] s1].
Qed.

Lemma hook_safe_after l s s1 s2 : hook_still s s1 -> recorder_safe s.1 ->
  (recorder_safe s1.1 -> hook_safe l s1 s2) -> hook_safe l s s2.
Proof.
  intros [Hf Hr] Hs H. destruct (H (Hr Hs)) as [K S R]. unfold spoken in S. rewrite Hf in K, S. by split.
Qed.

Lemma adapter_start_dry_safe self ctx order s : recorder_safe s.1 ->
  let '(r, s') := adapter_check_pre_trade_start_dry_run (W:=W) self ctx order s in hook_safe (all_rejects [r]) s s'.
Proof using All.
  intros Hr. unfold adapter_check_pre_trade_start_dry_run.
  pose proof (dry_run_method_still self "check_pre_trade_start" s) as Hd.
  destruct (dry_run_method self "check_pre_trade_start" s) as [method s1].
  pose proof (adapter_start_safe method self ctx order s1) as Hs.
  destruct (call_start_hook method self ctx order s1) as [r s2]. by eapply hook_safe_after.
Qed.

(** An answer made of a call's rejects, whatever it does with its result. *)
Lemma main_answer_safe (r : result PRejects (option PolicyPreTradeResult * list Reject)) s s'
    (answer : option PolicyPreTradeResult -> list Reject -> result PRejects (option PolicyPreTradeResult)) :
  hook_safe (match r with Err rejects => into_vec rejects | Ok _ => [] end) s s' ->
  hook_safe (all_rejects [match r with Err rejects => Err rejects | Ok (o, rejects) => answer o rejects end]) s s'.
Proof.
  intros Hs. eapply hook_safe_more; [exact Hs|]. destruct r as [[o rejects]|rej]; [by intros ? ?%elem_of_nil|].
  intros r0 Hr0 _. cbn. by rewrite app_nil_r.
Qed.

Lemma adapter_perform_safe self ctx order ms s : recorder_safe s.1 -> mutations_safe ms ->
  let '(r, ms', s') := adapter_perform_pre_trade_check (W:=W) self ctx order ms s in
  hook_safe (all_rejects [r]) s s' /\ mutations_safe ms'.
Proof using All.
  intros Hr Hm. unfold adapter_perform_pre_trade_check.
  pose proof (call_main_hook_safe "perform_pre_trade_check" self ctx order ms s Hr Hm) as Hs.
  destruct (call_main_hook _ self ctx order ms s) as [[r ms'] s']. destruct Hs as [Hs Hms]. split; [|done].
  apply (main_answer_safe _ _ _ (fun result rejects =>
    match rejects with
    | [] => Ok result
    | _ => Err match result with Some result => with_policy_result (rejects_new rejects) result
                               | None => rejects_new rejects end
    end)) in Hs. by destruct r as [[o [|]]|].
Qed.

Lemma adapter_perform_dry_safe self ctx order ms s : recorder_safe s.1 -> mutations_safe ms ->
  let '(r, ms', s') := adapter_perform_pre_trade_check_dry_run (W:=W) self ctx order ms s in
  hook_safe (all_rejects [r]) s s' /\ mutations_safe ms'.
Proof using All.
  intros Hr Hm. unfold adapter_perform_pre_trade_check_dry_run.
  pose proof (dry_run_method_still self "perform_pre_trade_check" s) as Hd.
  destruct (dry_run_method self "perform_pre_trade_check" s) as [method s1]. pose proof (proj2 Hd Hr) as Hr1.
  pose proof (call_main_hook_safe method self ctx order ms s1 Hr1 Hm) as Hs.
  destruct (call_main_hook method self ctx order ms s1) as [[r ms'] s']. destruct Hs as [Hs Hms]. split; [|done].
  eapply hook_safe_after; [exact Hd|done|intros _].
  apply (main_answer_safe _ _ _ (fun result rejects =>
    match rejects with [] => Ok result | _ => Err (rejects_new rejects) end)) in Hs. by destruct r as [[o [|]]|].
Qed.

Lemma report_hook_still self pctx report : still same_frames (run_report_hook (W:=W) self pctx report).
Proof using All.
  intros s. unfold run_report_hook, PyPostTradeContext_from. destruct (group_lookup _ _ _) as [g cell].
  trans (cell, s.2); [done|]. step (still_bind (same_frames (S:=CellState))); [|intros ?]; unfold post_trade_answer; still.
Qed.

Lemma adapter_report_safe self pctx report (s : CellState) :
  keeps (frames_of s) (frames_of (adapter_apply_execution_report (W:=W) self pctx report s).2).
Proof using All.
  unfold adapter_apply_execution_report. pose proof (report_hook_still self pctx report s) as Hs. unfold same_frames in Hs.
  destruct (run_report_hook self pctx report s) as [[[result|]|e] s1]; cbn [snd] in *; [by rewrite Hs..|].
  rewrite frames_park by (intros fr; apply own_get_set). rewrite Hs. apply keeps_park.
Qed.

Lemma adjustment_hook_still self actx account adjustment :
  still (with_collector same_frames) (run_adjustment_hook (W:=W) self actx account adjustment).
Proof using All.
  intros [ms s]. unfold run_adjustment_hook, PyAccountAdjustmentContext_from. cbn [fst snd].
  destruct (group_lookup _ _ _) as [g cell]. trans (ms, (cell, s.2)); [by split|].
  step (still_bind (with_collector (same_frames (S:=CellState)))); [step still_on_state; still|]. intros decision.
  step still_bind; [step still_decision|]. intros [|]; [|step still_ret].
  step still_on_state. unfold parse_account_block_list. still.
Qed.

Lemma adapter_adjust_safe self actx account adjustment ms (s : CellState) : mutations_safe ms ->
  let '(r, ms', s') := adapter_apply_account_adjustment (W:=W) self actx account adjustment ms s in
  keeps (frames_of s) (frames_of s') /\ mutations_safe ms'.
Proof using All.
  intros Hm. unfold adapter_apply_account_adjustment.
  pose proof (adjustment_hook_still self actx account adjustment (ms, s)) as [Hf Hms]. unfold same_frames in Hf.
  destruct (run_adjustment_hook self actx account adjustment (ms, s)) as [r [ms1 s1]]. cbn [fst snd] in Hf, Hms.
  destruct r as [x|e]; (split; [|auto]); cbn [reject_exception]; [by rewrite Hf|].
  rewrite frames_park by (intros fr; apply own_get_set). rewrite Hf. apply keeps_park.
Qed.

(** Every policy written in Python treats the parked exceptions of the operations
    around it with care. *)
#[export] Instance adapter_frame_safe self : FrameSafe (BoxedPreTradePolicy (adapter_policy (W:=W) self)).
Proof using All.
  split.
  - exact (adapter_start_safe "check_pre_trade_start" self).
  - exact (adapter_start_dry_safe self).
  - exact (adapter_perform_safe self).
  - exact (adapter_perform_dry_safe self).
  - exact (adapter_report_safe self).
  - exact (adapter_adjust_safe self).
Qed.
End Adapter.

(** ** Services and settings *)

Section Services.
Context {D : DecimalOps} {DW : DecimalWire} {DF : DecimalFormat} {G : DecimalDebug} {PM : PyModel} {TN : CellTypeName}.
Context {W : Type} {O : Owns W Frames} {OS : Owns W FfiServices.Services}.

Abbreviation St := (EngineState W).
Abbreviation PyRegistered :=
  (RegisteredPolicy (W:=W) (Order:=PyOrderRequest)
     (Report:=PyReportRequest) (Adjustment:=PyAdjustmentRequest)).
Context {RS : PyRuntime St} `{!Balanced same_frames RS}.
Implicit Types (st : St).

(** A place of the world that holds none of the parked exceptions. *)
Definition apart {T} (place : Owns W T) : Prop := forall (x : T) w, own_get (S:=Frames) (own_set x w) = own_get w.

Lemma frames_set {T} (place : Owns W T) (x : T) st : apart place ->
  frames_of (with_world st (own_set x (es_world st))) = frames_of st.
Proof. intros Ha. apply Ha. Qed.

(** Conversions of errors work on the exception's object only. *)
Definition calm {E} (convert : E -> St -> PyErr * St) : Prop := forall e st, frames_of (convert e st).2 = frames_of st.

Lemma with_attr_frames err name value st : frames_of (with_attr err name value st) = frames_of st.
Proof. apply (bal_err_setattr same_frames). Qed.
Lemma with_conflict_frames err conflict st : frames_of (with_conflict err conflict st).2 = frames_of st.
Proof. unfold with_conflict. destruct conflict; cbn -[with_attr frames_of]; by rewrite !with_attr_frames. Qed.

Lemma calm_pair : calm pair.
Proof. by intros e st. Qed.
Lemma calm_already_registered : calm create_already_registered_error.
Proof. intros e st. apply with_attr_frames. Qed.
Lemma calm_registration : calm create_registration_error.
Proof. intros e st. apply with_conflict_frames. Qed.
Lemma calm_unknown_id : calm create_unknown_instrument_id_error.
Proof. intros e st. apply with_attr_frames. Qed.
Lemma calm_push_for : calm create_push_for_error.
Proof. intros [id|] st; [apply calm_unknown_id|done]. Qed.
Lemma calm_market_data : calm create_market_data_error.
Proof.
  intros [| |quote] st; [done..|]. cbn [create_market_data_error].
  pose proof (bal_err_setattr same_frames (new_err PyQuoteExpired (MarketDataError_fmt (QuoteExpired quote))) "quote"
    (Some (PyV_Quote quote)) st) as H. destruct (err_setattr _ _ _ st) as [[u|e] st1]; cbn [fst snd] in H |- *; [exact H|].
  etrans; [apply (bal_err_restore same_frames)|exact H].
Qed.
Lemma calm_configure : calm convert_configure_error.
Proof. intros e st. apply with_attr_frames. Qed.

Lemma still_map_err_in {E A} (convert : E -> St -> PyErr * St) (r : result E A) :
  calm convert -> still same_frames (map_err_in convert r).
Proof. intros Hc st. destruct r as [x|e]; [done|]. unfold map_err_in. specialize (Hc e st). by destruct (convert e st). Qed.
Lemma still_mapM {A B} (parse : A -> PyM St B) (l : list A) : (forall x, still same_frames (parse x)) -> still same_frames (mapM parse l).
Proof. intros Hp. 
  induction l as [|x l IH]; [by step still_ret|]. change (mapM parse (x :: l)) with (y ← parse x; k ← mapM parse l; mret (y :: k)).
  step still_bind; [apply Hp|]. intros y. step still_bind; [exact IH|]. still.
Qed.
Lemma still_when_given {A} (parse : PyObj -> PyM St A) o : (forall x, still same_frames (parse x)) -> still same_frames (when_given parse o).
Proof. intros Hp. unfold when_given. destruct o; [step still_bind; [apply Hp|]|]; still. Qed.

#[local] Hint Extern 1 (still _ (attr _ _ _)) => (unfold attr; still) : still.
#[local] Hint Extern 1 (still _ (unless_none _ _)) => (unfold unless_none; still) : still.
#[local] Hint Extern 1 (still _ (instance_of _ _ _)) => (unfold instance_of; still) : still.

(** *** The market data service *)

Context (Hservices : apart OS).

Lemma md_call_frames {A E B} (args : PyM St A) (f : A -> MarketDataService -> option (result E B * MarketDataService))
    convert self st r st' :
  still same_frames args -> calm convert -> md_call args f convert self st = Some (r, st') -> frames_of st' = frames_of st.
Proof.
  intros Ha Hc. unfold md_call. specialize (Ha st). destruct (args st) as [[a|e] st1]; cbn in Ha; [|by intros [= _ <-]].
  destruct (FfiServices.on_service _ _ _) as [[r1 services]|]; [|discriminate]. cbn. intros [= H].
  pose proof (still_map_err_in convert r1 Hc (with_services services st1)) as Hm. rewrite H in Hm. cbn in Hm.
  etrans; [exact Hm|]. etrans; [|exact Ha]. by apply (frames_set OS).
Qed.

Lemma park_keeps err st st' : frames_of st' = frames_of st -> keeps (frames_of st) (frames_of (park err st')).
Proof. intros <-. rewrite frames_park; [apply keeps_park|intros fr; apply frames_with_st]. Qed.

Lemma account_info_keeps info st : keeps (frames_of st) (frames_of (PyAccountInfo_group info st).2).
Proof.
  unfold PyAccountInfo_group. pose proof (bal_getattr same_frames info "account_group" st) as H.
  destruct (getattr info "account_group" st) as [[a|e] st1]; cbn [snd] in H; [|by apply park_keeps].
  assert (Hk : keeps (frames_of st) (frames_of st1)) by (by rewrite H).
  destruct (is_none a); [done|]. destruct (_ ≫= _); [done|].
  pose proof (bal_cast_error same_frames a "AccountGroupId" st1) as Hc.
  destruct (cast_error a _ st1) as [err st2]. apply park_keeps. by etrans.
Qed.

Lemma service_get_keeps self now id account info resolution st r st' :
  service_get self now id account info resolution st = Some (r, st') -> keeps (frames_of st) (frames_of st').
Proof.
  unfold service_get. destruct (_ !! _) as [inner|]; [|discriminate]. cbn.
  destruct (get_observed _ _ _ _ _ _ _ _ _ _ _) as [r1 memo]. destruct (Nat.eqb _ _); [by intros [= _ <-]|].
  pose proof (account_info_keeps info st) as H. destruct (PyAccountInfo_group info st) as [group st1]. cbn in H.
  destruct (services_of st1 !! _); [|discriminate]. cbn. by intros [= _ <-].
Qed.

(** A read leaves the parked exceptions of others as they were, whatever the reading of
    the group raises. *)
Lemma scoped_get_frames {A} self now id account info resolution (answer : _ -> PyM St A) st r st' :
  (forall x, still same_frames (answer x)) ->
  scoped_get self now id account info resolution answer st = Some (r, st') -> frames_of st' = frames_of st.
Proof.
  intros Ha. unfold scoped_get. pose proof (still_account_id same_frames account st) as Hi.
  destruct (parse_account_id_input account st) as [[a|e] st1]; cbn in Hi; [|by intros [= _ <-]].
  destruct (service_get _ _ _ _ _ _ _) as [[x st2]|] eqn:Eg; [|discriminate].
  cbn [mbind option_bind]. apply service_get_keeps in Eg. rewrite frames_with_st in Eg. destruct Eg as [o ->].
  unfold scope_finish. cbn [head mjoin tail].
  assert (Hf : frames_of (with_frames (frames_of st1) st2) = frames_of st1) by apply frames_with_st.
  revert Hf. generalize (with_frames (frames_of st1) st2) as st3. intros st3 Hf.
  destruct o as [e|]; cbn [mjoin option_join]; [intros [= _ <-]; by etrans|].
  specialize (Ha x st3). intros [= H]. rewrite H in Ha. etrans; [exact Ha|]. by etrans.
Qed.
(** *** Readers *)

#[local] Hint Extern 1 (still _ (parse_asset_input _)) => (step still_asset) : still.
#[local] Hint Extern 1 (still _ (when_given _ _)) => (step still_when_given; intros ?; still) : still.
#[local] Hint Extern 1 (still _ (mapM _ _)) => (step still_mapM; intros ?; still) : still.

Lemma still_group_id value : still same_frames (parse_account_group_id_input value).
Proof. unfold parse_account_group_id_input. still. Qed.
#[local] Hint Extern 1 (still _ (parse_account_group_id_input _)) => (step still_group_id) : still.
Lemma still_instrument value : still same_frames (parse_instrument_input value).
Proof. unfold parse_instrument_input, inner_instrument. still. Qed.
#[local] Hint Extern 1 (still _ (parse_instrument_input _)) => (step still_instrument) : still.
Lemma still_timedelta value error : still same_frames (timedelta_days value error).
Proof. unfold timedelta_days. still. Qed.
#[local] Hint Extern 1 (still _ (timedelta_days _ _)) => (step still_timedelta) : still.
Lemma still_source_age value : still same_frames (parse_source_age value).
Proof. unfold parse_source_age, timedelta_tail, duration. still. Qed.
#[local] Hint Extern 1 (still _ (parse_source_age _)) => (step still_source_age) : still.
Lemma still_window value : still same_frames (parse_rate_limit_window value).
Proof. unfold parse_rate_limit_window, timedelta_tail, duration. still. Qed.
#[local] Hint Extern 1 (still _ (parse_rate_limit_window _)) => (step still_window) : still.
Lemma still_entity obj name : still same_frames (ensure_policy_entity obj name).
Proof. unfold ensure_policy_entity, policy_class. still. Qed.
#[local] Hint Extern 1 (still _ (ensure_policy_entity _ _)) => (step still_entity) : still.
Lemma still_pnl_state value : still same_frames (parse_pnl_state_input value).
Proof. unfold parse_pnl_state_input. still. Qed.

(** The readers of the entities, one after another. *)
Ltac open_reader := match goal with |- still ?R ?m => let n := eval red in m in change (still R n) end.
Ltac entity := intros; open_reader; still.

Lemma still_rate_limit obj : still same_frames (parse_rate_limit_entity obj).
Proof. entity. Qed.
#[local] Hint Extern 1 (still _ (parse_rate_limit_entity _)) => (step still_rate_limit) : still.
Lemma still_size_limit obj : still same_frames (parse_order_size_limit_entity obj).
Proof. entity. Qed.
#[local] Hint Extern 1 (still _ (parse_order_size_limit_entity _)) => (step still_size_limit) : still.
Lemma still_bound obj : still same_frames (parse_bound obj).
Proof. entity. Qed.
#[local] Hint Extern 1 (still _ (parse_bound _)) => (step still_bound) : still.
Lemma still_pnl_barrier obj : still same_frames (parse_pnl_broker_barrier obj).
Proof. unfold parse_pnl_broker_barrier, parse_pnl_bounds_barrier. still. Qed.
#[local] Hint Extern 1 (still _ (parse_pnl_broker_barrier _)) => (step still_pnl_barrier) : still.
Lemma still_spot_barrier obj : still same_frames (parse_spot_funds_pnl_bounds_barrier obj).
Proof. entity. Qed.
#[local] Hint Extern 1 (still _ (parse_spot_funds_pnl_bounds_barrier _)) => (step still_spot_barrier) : still.
Lemma still_limit_mode obj : still same_frames (parse_spot_funds_limit_mode_entity obj).
Proof. entity. Qed.
#[local] Hint Extern 1 (still _ (parse_spot_funds_limit_mode_entity _)) => (step still_limit_mode) : still.
Lemma still_target obj : still same_frames (parse_spot_funds_override_target_entity obj).
Proof. unfold parse_spot_funds_override_target_entity, entity_account_id, entity_group_id. still. Qed.
#[local] Hint Extern 1 (still _ (parse_spot_funds_override_target_entity _)) => (step still_target) : still.

Lemma still_rate_limits obj :
  still same_frames (parse_rate_limit_broker_barrier obj) /\ still same_frames (parse_rate_limit_asset_barrier obj) /\
  still same_frames (parse_rate_limit_account_barrier obj) /\ still same_frames (parse_rate_limit_account_asset_barrier obj).
Proof. split_and!; entity. Qed.
Lemma still_size_limits obj :
  still same_frames (parse_order_size_broker_barrier obj) /\ still same_frames (parse_order_size_asset_barrier obj) /\
  still same_frames (parse_order_size_account_asset_barrier obj).
Proof. split_and!; entity. Qed.
Lemma still_spot_entities obj :
  still same_frames (parse_spot_funds_pricing_source_entity obj) /\ still same_frames (parse_spot_funds_override_entity obj) /\
  still same_frames (parse_spot_funds_account_limit_mode_entity obj) /\
  still same_frames (parse_spot_funds_account_group_limit_mode_entity obj) /\
  still same_frames (parse_spot_funds_position_limit_entity obj).
Proof.
  split_and!; open_reader; unfold parse_optional_spot_funds_limit_mode, entity_account_id, entity_group_id; still.
Qed.
Lemma still_spot_barriers obj :
  still same_frames (parse_spot_funds_pnl_account_group_barrier obj) /\
  still same_frames (parse_spot_funds_pnl_account_barrier obj) /\ still same_frames (parse_pnl_account_barrier_update obj).
Proof. split_and!; entity. Qed.
(** *** Calls of the service *)

Inductive PyServiceCall : Type :=
| Md_Register (instrument : PyObj)
| Md_RegisterWithTtl (instrument : PyObj) (ttl : QuoteTtl)
| Md_RegisterWithId (instrument : PyObj) (id : InstrumentId)
| Md_RegisterWithIdAndTtl (instrument : PyObj) (id : InstrumentId) (ttl : QuoteTtl)
| Md_SetAccountTtl (account_id : PyObj) (ttl : QuoteTtl) | Md_ClearAccountTtl (account_id : PyObj)
| Md_SetGroupTtl (account_group_id : PyObj) (ttl : QuoteTtl) | Md_ClearGroupTtl (account_group_id : PyObj)
| Md_SetInstrumentTtl (id : InstrumentId) (ttl : QuoteTtl) | Md_ClearInstrumentTtl (id : InstrumentId)
| Md_SetInstrumentAccountTtl (id : InstrumentId) (account_id : PyObj) (ttl : QuoteTtl)
| Md_ClearInstrumentAccountTtl (id : InstrumentId) (account_id : PyObj)
| Md_SetInstrumentGroupTtl (id : InstrumentId) (account_group_id : PyObj) (ttl : QuoteTtl)
| Md_ClearInstrumentGroupTtl (id : InstrumentId) (account_group_id : PyObj)
| Md_Clear (id : InstrumentId)
| Md_Push (now : Z) (id : InstrumentId) (quote : Quote) (source_age : PyObj)
| Md_PushByInstrument (now : Z) (instrument : PyObj) (quote : Quote) (source_age : PyObj)
| Md_PushFor (now : Z) (id : InstrumentId) (quote : Quote) (source_age account_ids account_group_ids : PyObj)
| Md_Get (now : Z) (id : InstrumentId) (account_id account_info : PyObj) (resolution : QuoteResolution)
| Md_GetOptional (now : Z) (id : InstrumentId) (account_id account_info : PyObj) (resolution : QuoteResolution)
| Md_Resolve (instrument : PyObj).

(** The state a call leaves, if it returns. *)
Definition left_by {A} (r : option (A * St)) : option St := snd <$> r.

Definition run_service_call (self : PyMarketDataService) (call : PyServiceCall) st : option St :=
  match call with
  | Md_Register instrument => left_by (py_md_register self instrument st)
  | Md_RegisterWithTtl instrument ttl => left_by (py_md_register_with_ttl self instrument ttl st)
  | Md_RegisterWithId instrument id => left_by (py_md_register_with_id self instrument id st)
  | Md_RegisterWithIdAndTtl instrument id ttl => left_by (py_md_register_with_id_and_ttl self instrument id ttl st)
  | Md_SetAccountTtl account ttl => left_by (py_md_set_account_ttl self account ttl st)
  | Md_ClearAccountTtl account => left_by (py_md_clear_account_ttl self account st)
  | Md_SetGroupTtl group ttl => left_by (py_md_set_account_group_ttl self group ttl st)
  | Md_ClearGroupTtl group => left_by (py_md_clear_account_group_ttl self group st)
  | Md_SetInstrumentTtl id ttl => left_by (py_md_set_instrument_ttl self id ttl st)
  | Md_ClearInstrumentTtl id => left_by (py_md_clear_instrument_ttl self id st)
  | Md_SetInstrumentAccountTtl id account ttl => left_by (py_md_set_instrument_account_ttl self id account ttl st)
  | Md_ClearInstrumentAccountTtl id account => left_by (py_md_clear_instrument_account_ttl self id account st)
  | Md_SetInstrumentGroupTtl id group ttl => left_by (py_md_set_instrument_account_group_ttl self id group ttl st)
  | Md_ClearInstrumentGroupTtl id group => left_by (py_md_clear_instrument_account_group_ttl self id group st)
  | Md_Clear id => left_by (py_md_clear self id st)
  | Md_Push now id quote age => left_by (py_md_push self now id quote age st)
  | Md_PushByInstrument now instrument quote age => left_by (py_md_push_by_instrument self now instrument quote age st)
  | Md_PushFor now id quote age accounts groups => left_by (py_md_push_for self now id quote age accounts groups st)
  | Md_Get now id account info resolution => left_by (py_md_get self now id account info resolution st)
  | Md_GetOptional now id account info resolution => left_by (py_md_get_optional self now id account info resolution st)
  | Md_Resolve instrument => left_by (py_md_resolve self instrument st)
  end.

Lemma left_md_call {A E B} (args : PyM St A) (f : A -> MarketDataService -> option (result E B * MarketDataService))
    convert self st st' :
  still same_frames args -> calm convert -> left_by (md_call args f convert self st) = Some st' -> frames_of st' = frames_of st.
Proof.
  intros Ha Hc. unfold left_by. destruct (md_call args f convert self st) as [[r st1]|] eqn:Em; [|discriminate].
  intros [= <-]. by eapply md_call_frames.
Qed.
Lemma left_scoped_get {A} self now id account info resolution (answer : _ -> PyM St A) st st' :
  (forall x, still same_frames (answer x)) ->
  left_by (scoped_get self now id account info resolution answer st) = Some st' -> frames_of st' = frames_of st.
Proof.
  intros Ha. unfold left_by. destruct (scoped_get _ _ _ _ _ _ _ st) as [[r st1]|] eqn:E; [|discriminate].
  intros [= <-]. by eapply scoped_get_frames.
Qed.

#[local] Hint Resolve calm_pair calm_already_registered calm_registration calm_unknown_id calm_push_for calm_market_data
  calm_configure : calm.

Lemma service_call_frames self call st st' : run_service_call self call st = Some st' -> frames_of st' = frames_of st.
Proof using All.
  destruct call; cbn [run_service_call];
    first [apply left_md_call; [still|eauto with calm nocore] | apply left_scoped_get; intros x].
  - apply still_map_err_in. eauto with calm nocore.
  - still.
Qed.

(** *** Calls of the configurator *)

Inductive PyConfigureCall : Type :=
| Cf_RateLimit (broker : option PyObj) (clear_broker : bool)
    (asset_barriers account_barriers account_asset_barriers : option (list PyObj))
| Cf_PnlBounds (broker_barriers account_barriers : option (list PyObj))
| Cf_AccountPnl (account settlement_asset pnl : PyObj)
| Cf_OrderSize (broker : option PyObj) (clear_broker : bool) (asset_barriers account_asset_barriers : option (list PyObj))
| Cf_SpotFunds (global_slippage_bps : option Z) (pricing_source : option PyObj) (overrides : list PyObj)
    (global_limit_mode : option PyObj) (account_limit_modes account_group_limit_modes position_limits : list PyObj)
| Cf_SpotFundsPnlBounds (global_barrier : PyObj) (account_group_barriers account_barriers : option (list PyObj))
| Cf_SpotFundsAccountPnl (account state : PyObj).

(** [meanwhile] is what other threads do while an update is prepared. *)
Definition run_configure_call (meanwhile : St -> St) (engine : PyEngine W) (name : string) (call : PyConfigureCall) st : St :=
  match call with
  | Cf_RateLimit broker clear assets accounts account_assets =>
      (py_rate_limit engine name broker clear assets accounts account_assets st).2
  | Cf_PnlBounds brokers accounts => (py_pnl_bounds_killswitch engine name brokers accounts st).2
  | Cf_AccountPnl account asset pnl => (py_set_account_pnl engine name account asset pnl st).2
  | Cf_OrderSize broker clear assets account_assets =>
      (py_order_size_limit engine name broker clear assets account_assets st).2
  | Cf_SpotFunds bps source overrides mode accounts groups limits =>
      (py_spot_funds meanwhile engine name bps source overrides mode accounts groups limits st).2
  | Cf_SpotFundsPnlBounds global groups accounts =>
      (py_spot_funds_pnl_bounds_killswitch meanwhile engine name global groups accounts st).2
  | Cf_SpotFundsAccountPnl account state => (py_set_spot_funds_account_pnl engine name account state st).2
  end.

(** What a registered policy owes the parked exceptions when it is retuned. *)
Definition entry_apart (entry : ConfigEntry (W:=W)) : Prop :=
  match entry with
  | CE_RateLimit place => apart place
  | CE_PnlBoundsKillSwitch place => apart place
  | CE_SpotFunds place => apart place
  | CE_OrderSizeLimit place => apart place
  end.
Definition settings_safe (engine : PyEngine W) : Prop :=
  (forall name entry, ei_config_registry engine !! name = Some entry -> entry_apart entry) /\
  Forall (fun p => forall change st, frames_of (rp_configuration p change st).2 = frames_of st) (ei_policies engine).

Context (engine : PyEngine W) (Hengine : settings_safe engine) (meanwhile : St -> St).
Context (Hmeanwhile : forall st, frames_of (meanwhile st) = frames_of st).

Lemma registry_apart name entry : registry_entry engine name = Ok entry -> entry_apart entry.
Proof using Hengine.
  unfold registry_entry. destruct (ei_config_registry engine !! name) as [e|] eqn:E; [|discriminate].
  intros [= <-]. by eapply Hengine.
Qed.
Lemma found_safe name policy : find_policy engine name = Ok policy ->
  forall change st, frames_of (rp_configuration policy change st).2 = frames_of st.
Proof using Hengine.
  unfold find_policy. destruct (List.find _ _) as [p|] eqn:E; [|discriminate]. intros [= <-].
  apply List.find_some in E as [Hin _]. destruct Hengine as [_ Hp]. rewrite List.Forall_forall in Hp. exact (Hp p Hin).
Qed.
Lemma cell_update_frames {Error T X} (place : Owns W T) (get : W -> X) (set : X -> W -> W) (f : Update (Error:=Error) X) st :
  apart place -> (forall x w, exists y, set x w = own_set y w) -> frames_of (cell_update get set f st).2 = frames_of st.
Proof.
  intros Ha Hs. unfold cell_update. destruct (f _) as [[u|e] x]; [|done]. cbn [snd].
  destruct (Hs x (es_world st)) as [y ->]. by apply (frames_set place).
Qed.

(** The three retunings of a cell. *)
Ltac cell_retuned place :=
  match goal with
  | |- context [cell_update ?get ?set ?f ?st] =>
      let H := fresh in
      assert (H : frames_of (cell_update get set f st).2 = frames_of st)
        by (apply (cell_update_frames place); [assumption|intros; eexists; reflexivity]);
      destruct (cell_update get set f st); exact H
  end.

Lemma cells_retuned {E} (fmt : E -> string) name st :
  (forall f, frames_of (configure_rate_limit fmt engine name f st).2 = frames_of st) /\
  (forall f, frames_of (configure_pnl_bounds_killswitch fmt engine name f st).2 = frames_of st) /\
  (forall f, frames_of (configure_order_size_limit fmt engine name f st).2 = frames_of st).
Proof using Hengine.
  unfold configure_rate_limit, configure_pnl_bounds_killswitch, configure_order_size_limit.
  pose proof (registry_apart name) as Hr. destruct (registry_entry engine name) as [[place|place|place|place]|e];
    [specialize (Hr _ eq_refl); cbn in Hr..|by split_and!]; split_and!; intros f; try done; cell_retuned place.
Qed.

Lemma account_pnl_retuned name account asset pnl st :
  frames_of (configure_account_pnl engine name account asset pnl st).2 = frames_of st.
Proof using Hengine.
  unfold configure_account_pnl. pose proof (registry_apart name) as Hr.
  destruct (registry_entry engine name) as [[place|place|place|place]|e]; try done. apply (frames_set place). by apply (Hr _ eq_refl).
Qed.

(** The sweep records blocks and asks the policy. *)
Lemma record_blocks_frames blocks (x : _ * St) : frames_of (record_blocks blocks x).2 = frames_of x.2.
Proof.
  unfold record_blocks. revert x. induction blocks as [|b blocks IH]; intros x; [done|]. cbn [foldl]. rewrite IH.
  unfold record_block. by destruct (block_account _ _ _).
Qed.

Lemma sweep_frames (policy : PyRegistered) changes (x : _ * St) :
  (forall change st, frames_of (rp_configuration policy change st).2 = frames_of st) ->
  frames_of (foldl (sweep_axes policy) x changes).2 = frames_of x.2.
Proof.
  intros Hp. revert x. induction changes as [|[account change] changes IH]; intros x; [done|]. cbn [foldl]. rewrite IH.
  unfold sweep_axes. match goal with |- context [rp_configuration policy ?c ?s] => specialize (Hp c s) end.
  destruct (rp_configuration policy _ _) as [blocks st]. by rewrite record_blocks_frames.
Qed.

Lemma spot_funds_retuned {E} (fmt : E -> string) name f st :
  frames_of (configure_spot_funds fmt meanwhile engine name f st).2 = frames_of st.
Proof using Hengine Hmeanwhile.
  unfold configure_spot_funds. pose proof (registry_apart name) as Hr. pose proof (found_safe name) as Hf.
  destruct (registry_entry engine name) as [[place|place|place|place]|e]; try done.
  destruct (find_policy engine name) as [policy|e]; [|done]. specialize (Hf _ eq_refl).
  destruct (validation _ _) as [prepared|e]; [|done]. unfold publish_transition, barrier_sweep.
  match goal with |- frames_of (let '(_, _) := ?x in _).2 = _ => assert (H : frames_of x.2 = frames_of st) end.
  - rewrite sweep_frames by done. rewrite record_blocks_frames. cbn [snd]. rewrite (frames_set place); [apply Hmeanwhile|].
    by apply (Hr _ eq_refl).
  - match goal with |- frames_of (let '(_, _) := ?x in _).2 = _ => destruct x end. exact H.
Qed.

Lemma spot_funds_pnl_retuned name account state st :
  frames_of (configure_spot_funds_account_pnl engine name account state st).2 = frames_of st.
Proof using Hengine.
  unfold configure_spot_funds_account_pnl. pose proof (found_safe name) as Hf.
  destruct (registry_entry engine name) as [[place|place|place|place]|e]; try done.
  destruct (find_policy engine name) as [policy|e]; [|done]. specialize (Hf _ eq_refl).
  match goal with |- context [rp_configuration policy ?c ?s] => specialize (Hf c s) end.
  destruct (rp_configuration policy _ _) as [blocks st1]. exact Hf.
Qed.

Lemma still_configured {A} (call : St -> result ConfigureError A * St) :
  (forall st, frames_of (call st).2 = frames_of st) -> still same_frames (py_configured call).
Proof.
  intros Hc st. unfold py_configured. specialize (Hc st). destruct (call st) as [r st1].
  etrans; [exact Hc|]. by apply still_map_err_in, calm_configure.
Qed.
Lemma still_barriers {A} (parse : PyObj -> PyM St A) o : (forall x, still same_frames (parse x)) -> still same_frames (parse_barriers parse o).
Proof. intros Hp. unfold parse_barriers. destruct o; [step still_bind; [by step still_mapM|]|]; still. Qed.
Lemma still_broker {A} (parse : PyObj -> PyM St A) clear o :
  (forall x, still same_frames (parse x)) -> still same_frames (broker_axis parse clear o).
Proof. intros Hp. unfold broker_axis. step still_if; [still|]. step still_bind; [by step still_when_given|]. intros ?. still. Qed.

Lemma configure_call_frames name call st : frames_of (run_configure_call meanwhile engine name call st) = frames_of st.
Proof using All.
  assert (Hc : forall A (m : PyM St A), still same_frames m -> frames_of (m st).2 = frames_of st) by (intros A m Hm; apply Hm).
  destruct call; cbn [run_configure_call]; apply Hc; open_reader.
  - step still_bind; [step still_broker; intros ?; apply still_rate_limits|]. intros ?.
    step still_bind; [step still_barriers; intros ?; apply still_rate_limits|]. intros ?.
    step still_bind; [step still_barriers; intros ?; apply still_rate_limits|]. intros ?.
    step still_bind; [step still_barriers; intros ?; apply still_rate_limits|]. intros ?.
    step still_configured. intros ?. apply cells_retuned.
  - step still_bind; [step still_barriers; intros ?; apply still_pnl_barrier|]. intros ?.
    step still_bind; [step still_barriers; intros ?; apply still_spot_barriers|]. intros ?.
    step still_configured. intros ?. apply cells_retuned.
  - still. step still_configured. intros ?. apply account_pnl_retuned.
  - step still_bind; [step still_broker; intros ?; apply still_size_limits|]. intros ?.
    step still_bind; [step still_barriers; intros ?; apply still_size_limits|]. intros ?.
    step still_bind; [step still_barriers; intros ?; apply still_size_limits|]. intros ?.
    step still_configured. intros ?. apply cells_retuned.
  - step still_bind; [step still_when_given; intros ?; apply still_spot_entities|]. intros ?.
    step still_bind; [step still_mapM; intros ?; apply still_spot_entities|]. intros ?.
    step still_bind; [step still_when_given; intros ?; apply still_limit_mode|]. intros ?.
    do 3 (step still_bind; [step still_mapM; intros ?; apply still_spot_entities|]; intros ?).
    step still_bind; [|intros ?; still]. step still_configured. intros ?. apply spot_funds_retuned.
  - step still_bind; [unfold global_axis; still|]. intros ?.
    do 2 (step still_bind; [step still_barriers; intros ?; apply still_spot_barriers|]; intros ?).
    step still_configured. intros ?. apply spot_funds_retuned.
  - step still_bind; [still|]. intros ?. step still_bind; [apply still_pnl_state|]. intros ?.
    step still_configured. intros ?. apply spot_funds_pnl_retuned.
Qed.
End Services.

(** ** Calls of a Python program *)

Section Session.
Context {D : DecimalOps} {DW : DecimalWire} {DF : DecimalFormat} {G : DecimalDebug} {PM : PyModel}.
Context {TN : CellTypeName} {W : Type} {O : Owns W Frames} {OS : Owns W FfiServices.Services}.

Abbreviation St := (EngineState W).
Abbreviation PyRequest := (PyRequest (W:=W)).
Abbreviation PyReservation := (PyReservation (W:=W)).
Abbreviation PyDropCopyOperation := (PyDropCopyOperation (W:=W)).
Context {RS : PyRuntime St} (engine : PyEngine W) (meanwhile : St -> St).
Implicit Types (st : St).

(** The calls a program makes; handles are numbered in the order they were made. *)
Inductive PyCall : Type :=
| PyCall_Start (now : Z) (order : PyObj)
| PyCall_Execute (now : Z) (order : PyObj)
| PyCall_DropCopy (now : Z) (order : PyObj)
| PyCall_StartDryRun (now : Z) (order : PyObj)
| PyCall_ExecuteDryRun (now : Z) (order : PyObj)
| PyCall_Report (report : PyObj)
| PyCall_Adjust (account_id adjustments : PyObj)
| PyCall_RequestExecute (i : nat)
| PyCall_Commit (i : nat) | PyCall_Rollback (i : nat) | PyCall_Drop (i : nat)
| PyCall_OperationCommit (i : nat) | PyCall_OperationRollback (i : nat) | PyCall_OperationDrop (i : nat)
| PyCall_Service (self : PyMarketDataService) (call : PyServiceCall)
| PyCall_Configure (name : string) (call : PyConfigureCall).

Record Session : Type := mkSession {
  ss_state : St;
  ss_requests : list PyRequest;
  ss_reservations : list PyReservation;
  ss_operations : list PyDropCopyOperation
}.
Implicit Types (ss : Session).

Definition on_engine ss (st : St) : Session := mkSession st (ss_requests ss) (ss_reservations ss) (ss_operations ss).
Definition keep_request ss (r : result PyErr (PyOrderResult PyRequest)) : Session :=
  mkSession (ss_state ss) (ss_requests ss ++ option_list (result_ok r ≫= por_handle)) (ss_reservations ss) (ss_operations ss).
Definition keep_reservation ss (r : result PyErr (PyOrderResult PyReservation)) : Session :=
  mkSession (ss_state ss) (ss_requests ss) (ss_reservations ss ++ option_list (result_ok r ≫= por_handle)) (ss_operations ss).
Definition keep_operation ss (r : result PyErr (PyOrderResult PyDropCopyOperation)) : Session :=
  mkSession (ss_state ss) (ss_requests ss) (ss_reservations ss) (ss_operations ss ++ option_list (result_ok r ≫= por_handle)).
Definition set_reservation ss i (h : PyReservation) st : Session :=
  mkSession st (ss_requests ss) (<[i := h]> (ss_reservations ss)) (ss_operations ss).
Definition set_operation ss i (h : PyDropCopyOperation) st : Session :=
  mkSession st (ss_requests ss) (ss_reservations ss) (<[i := h]> (ss_operations ss)).

(** A call of a method of handle [i]; without such a handle there is no call. *)
Definition reservation_method (method : PyReservation -> St -> result PyErr unit * PyReservation * St) i ss : Session :=
  match ss_reservations ss !! i with
  | None => ss
  | Some h => let '(_, h, st) := method h (ss_state ss) in set_reservation ss i h st
  end.
Definition operation_method (method : PyDropCopyOperation -> St -> result PyErr unit * PyDropCopyOperation * St) i ss :
    Session :=
  match ss_operations ss !! i with
  | None => ss
  | Some h => let '(_, h, st) := method h (ss_state ss) in set_operation ss i h st
  end.

(** A call that does not return leaves the session where it was. *)
Definition run_call ss (call : PyCall) : Session :=
  let st := ss_state ss in
  match call with
  | PyCall_Start now order => let '(r, st) := py_start_pre_trade engine now order st in keep_request (on_engine ss st) r
  | PyCall_Execute now order => let '(r, st) := py_execute_pre_trade engine now order st in keep_reservation (on_engine ss st) r
  | PyCall_DropCopy now order => let '(r, st) := py_apply_drop_copy engine now order st in keep_operation (on_engine ss st) r
  | PyCall_StartDryRun now order => on_engine ss (py_start_pre_trade_dry_run engine now order st).2
  | PyCall_ExecuteDryRun now order => on_engine ss (py_execute_pre_trade_dry_run engine now order st).2
  | PyCall_Report report => on_engine ss (py_apply_execution_report engine report st).2
  | PyCall_Adjust account_id adjustments => on_engine ss (py_apply_account_adjustment engine account_id adjustments st).2
  | PyCall_RequestExecute i =>
      match ss_requests ss !! i with
      | None => ss
      | Some h =>
          let '(r, h, st) := py_request_execute (Some engine) h st in
          keep_reservation (mkSession st (<[i := h]> (ss_requests ss)) (ss_reservations ss) (ss_operations ss)) r
      end
  | PyCall_Commit i => reservation_method py_reservation_commit i ss
  | PyCall_Rollback i => reservation_method py_reservation_rollback i ss
  | PyCall_Drop i =>
      match ss_reservations ss !! i with
      | None => ss
      | Some h => set_reservation ss i (mkPyReservation None) (py_reservation_drop h st)
      end
  | PyCall_OperationCommit i => operation_method py_operation_commit i ss
  | PyCall_OperationRollback i => operation_method py_operation_rollback i ss
  | PyCall_OperationDrop i =>
      match ss_operations ss !! i with
      | None => ss
      | Some h => set_operation ss i (mkPyOperation None) (py_operation_drop h st)
      end
  | PyCall_Service self call => match run_service_call self call st with Some st => on_engine ss st | None => ss end
  | PyCall_Configure name call => on_engine ss (run_configure_call meanwhile engine name call st)
  end.

(** Every handle of a session finalizes with care. *)
Record session_safe ss : Prop := {
  ss_requests_safe : Forall (fun h => forall r, pyq_inner h = Some r -> request_safe r) (ss_requests ss);
  ss_reservations_safe : Forall (fun h => forall r, pyv_inner h = Some r -> reservation_safe r) (ss_reservations ss);
  ss_operations_safe : Forall (fun h => forall r, pyd_inner h = Some r -> operation_safe r) (ss_operations ss)
}.

(** *** Scopes *)

Lemma frames_entered st : frames_of (with_frames (scope_enter (frames_of st)) st) = None :: frames_of st.
Proof. apply frames_with_st. Qed.

Lemma keeps_entered (fr fr' : Frames) : keeps (None :: fr) fr' -> exists o, fr' = o :: fr.
Proof. done. Qed.

(** The scope pops what it pushed; a call that leaves an exception has nothing to
    drop. *)
Lemma in_scope_frames {A B} (call : St -> A * St) (answer : A -> B) drop st :
  (forall st0, keeps (frames_of st0) (frames_of (call st0).2)) ->
  (forall st0, frames_of (call st0).2 = frames_of st0 \/ forall st2, drop (call st0).1 st2 = st2) ->
  frames_of (in_scope call answer drop st).2 = frames_of st.
Proof.
  intros Hk Hd. unfold in_scope. specialize (Hk (with_frames (scope_enter (frames_of st)) st)).
  specialize (Hd (with_frames (scope_enter (frames_of st)) st)). rewrite frames_entered in Hk, Hd.
  destruct (call _) as [r st1]. cbn [fst snd] in *. destruct (keeps_entered _ _ Hk) as [o Ho]. rewrite Ho in *.
  unfold scope_finish. cbn [head mjoin tail]. destruct o as [e|]; cbn [mjoin option_join snd].
  - destruct Hd as [|Hd]; [done|]. rewrite Hd. apply frames_with_st.
  - apply frames_with_st.
Qed.

Lemma in_scope_ok {A B} (call : St -> A * St) (answer : A -> B) drop st b :
  (in_scope call answer drop st).1 = Ok b ->
  exists st0, b = answer (call st0).1.
Proof.
  unfold in_scope. destruct (call _) as [r st1] eqn:E. unfold scope_finish.
  destruct (mjoin _); [done|]. intros [= <-]. eexists. by rewrite E.
Qed.

Lemma in_dropped_scope_frames call st :
  (forall st0, keeps (frames_of st0) (frames_of (call st0))) -> frames_of (in_dropped_scope call st) = frames_of st.
Proof.
  intros Hk. unfold in_dropped_scope. specialize (Hk (with_frames (scope_enter (frames_of st)) st)).
  rewrite frames_entered in Hk. destruct (keeps_entered _ _ Hk) as [o ->]. apply frames_with_st.
Qed.

(** A call on an order whose answer is settled. *)
Lemma order_result_scope {E T H} (P : T -> Prop) (call : St -> result E T * St)
    (answer : result E T -> H) (drop : T -> St -> St) st :
  (forall st0, settles P st0 (call st0)) ->
  frames_of (in_scope call answer (drop_ok drop) st).2 = frames_of st.
Proof.
  intros Hs. apply in_scope_frames; [intros st0; apply Hs|]. intros st0. destruct (Hs st0) as [_ Ho].
  destruct (call st0) as [[v|e] st1]; cbn in *; [left; by apply (Ho v)|by right].
Qed.

(** *** One call *)

Context `{!Balanced same_frames RS} (Hsafe : Forall FrameSafe (engine_policies engine)).
Context (Hservices : apart OS) (Hsettings : settings_safe engine).
Context (Hmeanwhile : forall st, frames_of (meanwhile st) = frames_of st).

Lemma extract_order_still order : still same_frames (extract_python_order (W:=W) order).
Proof. unfold extract_python_order. still. Qed.
Lemma extract_report_still report : still same_frames (extract_python_execution_report (W:=W) report).
Proof. unfold extract_python_execution_report. still. Qed.
Lemma extract_adjustment_still adjustment : still same_frames (extract_python_account_adjustment (W:=W) adjustment).
Proof. unfold extract_python_account_adjustment. still. Qed.

Lemma order_call_frames {A B} order (call : PyOrderRequest -> St -> A * St) (answer : A -> B) drop :
  (forall request st, frames_of (in_scope (call request) answer drop st).2 = frames_of st) ->
  still same_frames (order_call order call answer drop).
Proof. intros Hc. unfold order_call. step still_bind; [apply extract_order_still|]. intros request st. apply Hc. Qed.

Lemma order_call_ok {A B} order (call : PyOrderRequest -> St -> A * St) (answer : A -> B) drop st b :
  (order_call order call answer drop st).1 = Ok b -> exists request st0, b = answer (call request st0).1.
Proof.
  unfold order_call, mbind, PyM_bind. destruct (extract_python_order order st) as [[request|] st1]; [|done].
  intros [st0 ->]%in_scope_ok. eauto.
Qed.

(** The handle of an answer is the core's value, and settled with it. *)
Lemma order_result_handle {E T H} (P : T -> Prop) st (x : result (Rejects PolicyPreTradeResult) T * E) (handle : T -> H) h :
  por_handle (order_result handle x.1) = Some h -> (forall v, x.1 = Ok v -> P v) -> exists v, h = handle v /\ P v.
Proof. destruct x as [[v|rej] e]; cbn; [|done]. intros [= <-] Hp. eauto. Qed.

Lemma start_call now order st :
  let x := py_start_pre_trade engine now order st in
  frames_of x.2 = frames_of st /\
  forall res h r, x.1 = Ok res -> por_handle res = Some h -> pyq_inner h = Some r -> request_safe r.
Proof using All.
  cbv zeta. unfold py_start_pre_trade. split.
  - apply order_call_frames. intros request st0. apply in_scope_frames; [|by right].
    intros st1. apply start_pre_trade_safe. exact Hsafe.
  - intros res h r Hx Hh Hr. apply order_call_ok in Hx as (request & st0 & ->).
    destruct (order_result_handle request_safe st0 _ _ _ Hh) as (v & -> & Hv); [|by injection Hr as <-].
    intros v Hv. by apply (start_pre_trade_safe (engine_policies engine) Hsafe now request st0).
Qed.

Lemma execute_call now order st :
  let x := py_execute_pre_trade engine now order st in
  frames_of x.2 = frames_of st /\
  forall res h r, x.1 = Ok res -> por_handle res = Some h -> pyv_inner h = Some r -> reservation_safe r.
Proof using All.
  cbv zeta. unfold py_execute_pre_trade. split.
  - apply order_call_frames. intros request st0. apply (order_result_scope reservation_safe).
    intros st1. apply execute_pre_trade_safe. exact Hsafe.
  - intros res h r Hx Hh Hr. apply order_call_ok in Hx as (request & st0 & ->).
    destruct (order_result_handle reservation_safe st0 _ _ _ Hh) as (v & -> & Hv); [|by injection Hr as <-].
    intros v Hv. by apply (execute_pre_trade_safe (engine_policies engine) Hsafe now request st0).
Qed.

Lemma drop_copy_call now order st :
  let x := py_apply_drop_copy engine now order st in
  frames_of x.2 = frames_of st /\
  forall res h r, x.1 = Ok res -> por_handle res = Some h -> pyd_inner h = Some r -> operation_safe r.
Proof using All.
  cbv zeta. unfold py_apply_drop_copy. split.
  - apply order_call_frames. intros request st0. apply (order_result_scope operation_safe).
    intros st1. apply apply_drop_copy_safe. exact Hsafe.
  - intros res h r Hx Hh Hr. apply order_call_ok in Hx as (request & st0 & ->).
    destruct (order_result_handle operation_safe st0 _ _ _ Hh) as (v & -> & Hv); [|by injection Hr as <-].
    intros v Hv. by apply (apply_drop_copy_safe (engine_policies engine) Hsafe now request st0).
Qed.

(** The calls that answer a value with nothing to drop. *)
Lemma plain_scope {A B} (call : St -> A * St) (answer : A -> B) :
  (forall st, keeps (frames_of st) (frames_of (call st).2)) -> still same_frames (in_scope call answer no_drop).
Proof. intros Hk st. apply in_scope_frames; [done|by right]. Qed.

Lemma plain_calls now order report account_id adjustments :
  still same_frames (py_start_pre_trade_dry_run engine now order) /\
  still same_frames (py_execute_pre_trade_dry_run engine now order) /\
  still same_frames (py_apply_execution_report engine report) /\
  still same_frames (py_apply_account_adjustment engine account_id adjustments).
Proof using All.
  split_and!.
  - apply order_call_frames. intros request. apply plain_scope. intros st. by apply start_dry_run_safe.
  - apply order_call_frames. intros request. apply plain_scope. intros st. by apply execute_dry_run_safe.
  - unfold py_apply_execution_report. step still_bind; [apply extract_report_still|]. intros r.
    apply plain_scope. intros st. by apply apply_report_safe.
  - unfold py_apply_account_adjustment. step still_bind; [still|]. intros account.
    step still_iter; [apply extract_adjustment_still|]. intros batch. apply plain_scope. intros st.
    by apply apply_adjustment_safe.
Qed.

(** *** Handles *)

Lemma request_execute_call (h : PyRequest) st :
  (forall r, pyq_inner h = Some r -> request_safe r) ->
  let '(r, h', st') := py_request_execute (Some engine) h st in
  frames_of st' = frames_of st /\ pyq_inner h' = None /\
  forall res rv v, r = Ok res -> por_handle res = Some rv -> pyv_inner rv = Some v -> reservation_safe v.
Proof using All.
  intros Hh. unfold py_request_execute. destruct (pyq_inner h) as [request|] eqn:Eh; [|by rewrite Eh].
  specialize (Hh request eq_refl). cbn [from_option].
  pose proof (fun st0 => execute_request_safe (engine_policies engine) Hsafe
    (bool_decide (is_Some (Some engine))) request st0 Hh) as Hs.
  set (call := execute_pre_trade_request _ _ _) in *.
  pose proof (order_result_scope reservation_safe call (order_result (fun v => mkPyReservation (Some v)))
    reservation_drop st Hs) as Hf.
  pose proof (in_scope_ok call (order_result (fun v => mkPyReservation (Some v))) (drop_ok reservation_drop) st) as Ho.
  destruct (in_scope _ _ _ st) as [r st']. split_and!; [exact Hf|done|].
  intros res rv v -> Hrv Hv. destruct (Ho res eq_refl) as [st0 ->].
  destruct (order_result_handle reservation_safe st0 _ _ _ Hrv) as (v' & -> & Hv'); [apply Hs|].
  by injection Hv as <-.
Qed.

Lemma finalize_frames {T} (P : T -> Prop) finalized (run : T -> St -> unit * St) (inner : option T) st :
  (forall x st0, P x -> keeps (frames_of st0) (frames_of (run x st0).2)) ->
  (forall x, inner = Some x -> P x) ->
  let '(_, inner', st') := finalize finalized run inner st in frames_of st' = frames_of st /\ inner' = None.
Proof.
  intros Hr Hi. unfold finalize. destruct inner as [x|]; [|done].
  pose proof (plain_scope (run x) id (fun st0 => Hr x st0 (Hi x eq_refl)) st) as Hs.
  by destruct (in_scope _ _ _ st).
Qed.

Lemma reservation_commit_keeps (r : PreTradeReservation) st : reservation_safe r ->
  keeps (frames_of st) (frames_of (committed reservation_commit r st).2).
Proof.
  intros Hr. unfold committed, reservation_commit. unfold reservation_safe, inner_safe in Hr.
  destruct (res_inner r) as [h|]; [|done]. by apply handle_commit_keeps, Hr.
Qed.
Lemma reservation_rollback_keeps (r : PreTradeReservation) st : reservation_safe r ->
  keeps (frames_of st) (frames_of (rolled_back reservation_rollback r st).2).
Proof.
  intros Hr. unfold rolled_back, reservation_rollback. unfold reservation_safe, inner_safe in Hr.
  destruct (res_inner r) as [h|]; [|done]. by apply handle_rollback_keeps, Hr.
Qed.
Lemma reservation_drop_keeps (r : PreTradeReservation) st : reservation_safe r ->
  keeps (frames_of st) (frames_of (reservation_drop r st)).
Proof.
  intros Hr. unfold reservation_drop. unfold reservation_safe, inner_safe in Hr.
  destruct (res_inner r) as [h|]; [|done]. by apply handle_rollback_keeps, Hr.
Qed.
Lemma operation_commit_keeps (r : DropCopyOperation) st : operation_safe r ->
  keeps (frames_of st) (frames_of (committed operation_commit r st).2).
Proof.
  intros Hr. unfold committed, operation_commit. unfold operation_safe, inner_safe in Hr.
  destruct (dco_inner r) as [h|]; [|done]. by apply handle_commit_keeps, Hr.
Qed.
Lemma operation_rollback_keeps (r : DropCopyOperation) st : operation_safe r ->
  keeps (frames_of st) (frames_of (rolled_back operation_rollback r st).2).
Proof.
  intros Hr. unfold rolled_back, operation_rollback. unfold operation_safe, inner_safe in Hr.
  destruct (dco_inner r) as [h|]; [|done]. by apply handle_rollback_keeps, Hr.
Qed.
Lemma operation_drop_keeps (r : DropCopyOperation) st : operation_safe r ->
  keeps (frames_of st) (frames_of (operation_drop r st)).
Proof.
  intros Hr. unfold operation_drop. unfold operation_safe, inner_safe in Hr.
  destruct (dco_inner r) as [h|]; [|done]. by apply handle_rollback_keeps, Hr.
Qed.

(** *** Any number of calls *)

Definition session_step_safe ss ss' : Prop := session_safe ss' /\ frames_of (ss_state ss') = frames_of (ss_state ss).

Lemma Forall_snoc_option {A} (P : A -> Prop) l (o : option A) :
  Forall P l -> (forall x, o = Some x -> P x) -> Forall P (l ++ option_list o).
Proof. intros Hl Ho. apply Forall_app. split; [done|]. destruct o as [x|]; cbn; [|done]. by apply Forall_singleton, Ho. Qed.

Lemma handle_of_ok {H} (P : H -> Prop) (r : result PyErr (PyOrderResult H)) :
  (forall res h, r = Ok res -> por_handle res = Some h -> P h) ->
  forall h, result_ok r ≫= por_handle = Some h -> P h.
Proof. intros Hp h. destruct r as [res|]; [|done]. cbn. eauto. Qed.

Lemma on_engine_safe ss st : session_safe ss -> frames_of st = frames_of (ss_state ss) -> session_step_safe ss (on_engine ss st).
Proof. intros [H1 H2 H3] Hf. by split. Qed.

Lemma keep_reservation_safe ss st reqs r :
  session_safe ss -> frames_of st = frames_of (ss_state ss) ->
  Forall (fun h => forall r, pyq_inner h = Some r -> request_safe r) reqs ->
  (forall res h v, r = Ok res -> por_handle res = Some h -> pyv_inner h = Some v -> reservation_safe v) ->
  session_step_safe ss (keep_reservation (mkSession st reqs (ss_reservations ss) (ss_operations ss)) r).
Proof.
  intros [H1 H2 H3] Hf Hreqs Hr. split; [|exact Hf]. split; cbn; [done| |done].
  apply Forall_snoc_option; [done|]. apply (handle_of_ok (fun h => forall v, pyv_inner h = Some v -> reservation_safe v)).
    intros res h Hres Hh v. by eapply Hr.
Qed.

Lemma set_reservation_safe ss i h st : session_safe ss -> frames_of st = frames_of (ss_state ss) ->
  pyv_inner h = None -> session_step_safe ss (set_reservation ss i h st).
Proof.
  intros [H1 H2 H3] Hf Hh. split; [|exact Hf]. split; cbn; [done| |done].
  apply Forall_insert; [done|]. by rewrite Hh.
Qed.
Lemma set_operation_safe ss i h st : session_safe ss -> frames_of st = frames_of (ss_state ss) ->
  pyd_inner h = None -> session_step_safe ss (set_operation ss i h st).
Proof.
  intros [H1 H2 H3] Hf Hh. split; [|exact Hf]. split; cbn; [done..|].
  apply Forall_insert; [done|]. by rewrite Hh.
Qed.

Lemma session_stays ss : session_safe ss -> session_step_safe ss ss.
Proof. by split. Qed.

Lemma reservation_finalizer_safe finalized (run : PreTradeReservation -> St -> unit * St) i ss :
  (forall r st, reservation_safe r -> keeps (frames_of st) (frames_of (run r st).2)) -> session_safe ss ->
  session_step_safe ss
    (reservation_method (fun h st => let '(r, inner, st) := finalize finalized run (pyv_inner h) st in
                                     (r, mkPyReservation inner, st)) i ss).
Proof.
  intros Hrun Hs. unfold reservation_method. destruct (ss_reservations ss !! i) as [h|] eqn:Ei; [|by apply session_stays].
  pose proof (finalize_frames reservation_safe finalized run (pyv_inner h) (ss_state ss) (fun r st => Hrun r st)) as Hf.
  pose proof (Forall_lookup_1 _ _ _ _ (ss_reservations_safe ss Hs) Ei) as Hh. specialize (Hf Hh).
  destruct (finalize _ _ _ _) as [[r inner] st]. destruct Hf as [Hf ->]. by apply set_reservation_safe.
Qed.
Lemma operation_finalizer_safe finalized (run : DropCopyOperation -> St -> unit * St) i ss :
  (forall r st, operation_safe r -> keeps (frames_of st) (frames_of (run r st).2)) -> session_safe ss ->
  session_step_safe ss
    (operation_method (fun h st => let '(r, inner, st) := finalize finalized run (pyd_inner h) st in
                                   (r, mkPyOperation inner, st)) i ss).
Proof.
  intros Hrun Hs. unfold operation_method. destruct (ss_operations ss !! i) as [h|] eqn:Ei; [|by apply session_stays].
  pose proof (finalize_frames operation_safe finalized run (pyd_inner h) (ss_state ss) (fun r st => Hrun r st)) as Hf.
  pose proof (Forall_lookup_1 _ _ _ _ (ss_operations_safe ss Hs) Ei) as Hh. specialize (Hf Hh).
  destruct (finalize _ _ _ _) as [[r inner] st]. destruct Hf as [Hf ->]. by apply set_operation_safe.
Qed.

Lemma run_call_safe ss call : session_safe ss -> session_step_safe ss (run_call ss call).
Proof using All.
  intros Hs. pose proof Hs as [H1 H2 H3]. destruct call; cbn [run_call].
  - pose proof (start_call now order (ss_state ss)) as Hc. destruct (py_start_pre_trade engine now order (ss_state ss)) as [r st].
    destruct Hc as [Hf Hr]. split; [|exact Hf]. split; cbn; [|done..].
    apply Forall_snoc_option; [done|]. apply (handle_of_ok (fun h => forall v, pyq_inner h = Some v -> request_safe v)).
    intros res h Hres Hh v. by eapply Hr.
  - pose proof (execute_call now order (ss_state ss)) as Hc.
    destruct (py_execute_pre_trade engine now order (ss_state ss)) as [r st].
    destruct Hc as [Hf Hr]. by apply keep_reservation_safe.
  - pose proof (drop_copy_call now order (ss_state ss)) as Hc.
    destruct (py_apply_drop_copy engine now order (ss_state ss)) as [r st].
    destruct Hc as [Hf Hr]. split; [|exact Hf]. split; cbn; [done..|].
    apply Forall_snoc_option; [done|]. apply (handle_of_ok (fun h => forall v, pyd_inner h = Some v -> operation_safe v)).
    intros res h Hres Hh v. by eapply Hr.
  - apply on_engine_safe; [done|]. by apply (plain_calls now order order order order).
  - apply on_engine_safe; [done|]. by apply (plain_calls now order order order order).
  - apply on_engine_safe; [done|]. by apply (plain_calls 0 report report report report).
  - apply on_engine_safe; [done|]. by apply (plain_calls 0 account_id account_id account_id adjustments).
  - destruct (ss_requests ss !! i) as [h|] eqn:Ei; [|by apply session_stays].
    pose proof (request_execute_call h (ss_state ss) (Forall_lookup_1 _ _ _ _ H1 Ei)) as Hc.
    destruct (py_request_execute _ h _) as [[r h'] st]. destruct Hc as (Hf & Hn & Hr).
    apply keep_reservation_safe; [done..| |done]. apply Forall_insert; [done|]. by rewrite Hn.
  - apply (reservation_finalizer_safe reservation_finalized (committed reservation_commit)); [|done].
    apply reservation_commit_keeps.
  - apply (reservation_finalizer_safe reservation_finalized (rolled_back reservation_rollback)); [|done].
    apply reservation_rollback_keeps.
  - destruct (ss_reservations ss !! i) as [h|] eqn:Ei; [|by apply session_stays]. apply set_reservation_safe; [done| |done].
    unfold py_reservation_drop. destruct (pyv_inner h) as [r|] eqn:Eh; [|done]. apply in_dropped_scope_frames.
    intros st0. apply reservation_drop_keeps. by apply (Forall_lookup_1 _ _ _ _ H2 Ei).
  - apply (operation_finalizer_safe finalized_drop_copy_operation (committed operation_commit)); [|done].
    apply operation_commit_keeps.
  - apply (operation_finalizer_safe finalized_drop_copy_operation (rolled_back operation_rollback)); [|done].
    apply operation_rollback_keeps.
  - destruct (ss_operations ss !! i) as [h|] eqn:Ei; [|by apply session_stays]. apply set_operation_safe; [done| |done].
    unfold py_operation_drop. destruct (pyd_inner h) as [r|] eqn:Eh; [|done]. apply in_dropped_scope_frames.
    intros st0. apply operation_drop_keeps. by apply (Forall_lookup_1 _ _ _ _ H3 Ei).
  - destruct (run_service_call self call (ss_state ss)) as [st|] eqn:E; [|by apply session_stays].
    apply on_engine_safe; [done|]. by apply (service_call_frames Hservices self call).
  - apply on_engine_safe; [done|]. by apply configure_call_frames.
Qed.

Definition run_calls ss (calls : list PyCall) : Session := foldl run_call ss calls.

(** C14: whatever calls a Python program makes - on the engine, on requests, reservations
    and drop-copy operations, on market data services, whose reads ask it for account
    groups, and on the settings of the policies, in any order and however often - and
    whichever callbacks of its policies, mutations and accounts raise in them, the
    exceptions parked for the operations these calls run inside of are left exactly as
    they were: no call consumes, overwrites or adds to what belongs to another. *)
Theorem python_calls_keep_parked_exceptions ss calls :
  session_safe ss -> frames_of (ss_state (run_calls ss calls)) = frames_of (ss_state ss).
Proof using All.
  unfold run_calls. revert ss. induction calls as [|c calls IH]; intros ss Hs; [done|]. cbn [foldl].
  destruct (run_call_safe ss c Hs) as [Hs1 Hf]. by rewrite IH, Hf.
Qed.
End Session.

(** ** Exceptions of callbacks *)

Definition raised {PM : PyModel} {A} (r : result PyErr A) : option PyErr :=
  match r with Err e => Some e | Ok _ => None end.
(** The exception raised first. *)
Definition first_exception {PM : PyModel} {A} (rs : list (result PyErr A)) : option PyErr := head (omap raised rs).

(** The frame a scope ends with, when these answers parked into it. *)
Definition parked_frame {PM : PyModel} {A} (o : option PyErr) (rs : list (result PyErr A)) : option PyErr :=
  match o with Some e => Some e | None => first_exception rs end.

Lemma parked_frame_cons {PM : PyModel} {A} o (r : result PyErr A) rs :
  parked_frame o (r :: rs) = parked_frame (match o, r with None, Err e => Some e | _, _ => o end) rs.
Proof. unfold parked_frame, first_exception. by destruct o, r. Qed.

Lemma first_exception_none {PM : PyModel} {A} (rs : list (result PyErr A)) :
  first_exception rs = None <-> Forall (fun r => is_Some (result_ok r)) rs.
Proof.
  unfold first_exception. induction rs as [|[x|e] rs IH]; cbn; [done| |].
  - rewrite IH, Forall_cons. split; [by eauto|by intros [_ Hr]].
  - rewrite Forall_cons. split; [done|]. intros [[? ?] _]. done.
Qed.

Section Exceptions.
Context {D : DecimalOps} {DW : DecimalWire} {DF : DecimalFormat} {G : DecimalDebug} {PM : PyModel}.
Context {W : Type} {O : Owns W Frames}.

Abbreviation St := (EngineState W).
Abbreviation PRejects := (Rejects PolicyPreTradeResult).
Context {RH : PyRuntime (HookState W)} {RC : PyRuntime (GroupCell * St)} {RS : PyRuntime St}.
Context `{!Balanced hook_still RH} `{!Balanced same_frames RC} `{!Balanced same_frames RS}.
Implicit Types (st : St) (s : HookState W) (ctx : PreTradeContext) (adapters : list PythonPreTradePolicyAdapter).

(** *** The start stage *)

(** The start methods of the policies, asked one after the other whatever the earlier
    ones answered or raised. *)
Fixpoint ask_python adapters ctx (order : PyOrderRequest) s : list (result PyErr (list Reject)) * HookState W :=
  match adapters with
  | [] => ([], s)
  | a :: adapters =>
      let '(r, s) := run_start_hook "check_pre_trade_start" a ctx order s in
      let s := match r with Err e => park e s | Ok _ => s end in
      let '(rs, s) := ask_python adapters ctx order s in (r :: rs, s)
  end.

(** What the methods rejected. *)
Definition said (rs : list (result PyErr (list Reject))) : list Reject :=
  rs ≫= fun r => match r with Ok rejects => rejects | Err _ => [] end.

Lemma ask_python_frames adapters ctx order s o fr :
  frames_of s = o :: fr ->
  let '(rs, s') := ask_python adapters ctx order s in frames_of s' = parked_frame o rs :: fr.
Proof.
  revert s o. induction adapters as [|a adapters IH]; intros s o Hf.
  { change (frames_of s = parked_frame (A:=list Reject) o [] :: fr). rewrite Hf. by destruct o. }
  cbn [ask_python].
  pose proof (start_hook_still "check_pre_trade_start" a ctx order s) as [Hs _].
  destruct (run_start_hook _ a ctx order s) as [r s1]. cbn [snd] in Hs.
  specialize (IH (match r with Err e => park e s1 | Ok _ => s1 end) (match o, r with None, Err e => Some e | _, _ => o end)).
  destruct (ask_python adapters ctx order _) as [rs s']. rewrite parked_frame_cons. apply IH.
  rewrite Hf in Hs. destruct r as [x|e]; [by destruct o|].
  rewrite frames_park by (intros f; apply own_get_set). rewrite Hs. by destruct o.
Qed.

Definition start_answer (a : PythonPreTradePolicyAdapter) (r : result PyErr (list Reject)) : result PRejects unit :=
  match r with Ok rejects => verdict rejects | Err _ => Err (python_callback_rejects (ppa_name a)) end.

Definition python_policies adapters : list (PreTradePolicy W PyOrderRequest PyReportRequest PyAdjustmentRequest) :=
  (fun a => BoxedPreTradePolicy (adapter_policy a)) <$> adapters.

Lemma ask_start_python adapters ctx order s : is_drop_copy ctx = false ->
  ask_start check_pre_trade_start ctx order (python_policies adapters) s =
  let '(rs, s') := ask_python adapters ctx order s in (zip_with start_answer adapters rs, s').
Proof.
  intros Hd. revert s. induction adapters as [|a adapters IH]; intros s; [done|]. cbn -[park].
  unfold adapter_check_pre_trade_start, call_start_hook.
  destruct (run_start_hook _ a ctx order s) as [r s1]. destruct r as [rejects|e]; cbn [reject_exception mbind result_bind].
  - destruct rejects as [|r0 rejects]; cbn [verdict].
    + rewrite IH. by destruct (ask_python adapters ctx order s1).
    + fold (after_verdict ctx (Err (rejects_new (r0 :: rejects)) : result PRejects unit) s1).
      rewrite after_verdict_normal, IH by done. by destruct (ask_python adapters ctx order s1).
  - fold (after_verdict ctx (Err (python_callback_rejects (ppa_name a)) : result PRejects unit) (park e s1)).
    rewrite after_verdict_normal, IH by done. by destruct (ask_python adapters ctx order (park e s1)).
Qed.

Lemma ask_python_length adapters ctx order s : length (ask_python adapters ctx order s).1 = length adapters.
Proof.
  revert s. induction adapters as [|a adapters IH]; intros s; [done|]. cbn.
  destruct (run_start_hook _ a ctx order s) as [r s1].
  specialize (IH (match r with Ok _ => s1 | Err e => park e s1 end)).
  destruct (ask_python adapters ctx order _). cbn in *. by rewrite IH.
Qed.

Lemma said_answers adapters rs : length rs = length adapters -> first_exception rs = None ->
  all_rejects (zip_with start_answer adapters rs) = said rs.
Proof.
  rewrite first_exception_none. intros Hl Hs. revert adapters Hl.
  induction Hs as [|r rs [l Hr] _ IH]; intros [|a adapters] Hl; try done.
  destruct r as [l'|]; [|done]. cbn. unfold all_rejects in IH. rewrite IH by (by injection Hl).
  by destruct l' as [|r0 l'].
Qed.

(** C13: the start stage of an engine of Python policies is what their methods say.  Every
    method is called once, in registration order, also after one has raised.  If any
    raised, the call raises the exception raised first, as it was; otherwise it
    returns, with the rejects of all of them in order, and a request exactly when
    there is none: no exception is lost or turned into a reject. *)
Theorem python_start_raises_first adapters (engine : PyEngine W) now order st request st1 :
  engine_policies engine = python_policies adapters ->
  extract_python_order order st = (Ok request, st1) ->
  check (PR:=PolicyPreTradeResult) (es_blocked st1) (es_groups st1) (result_ok (account_id request 0)) RS_Order = None ->
  let '(rs, _) :=
    ask_python adapters (mkPreTradeContext (account_id request 0) false) request
      (mkContextCells None deferred_default None,
       with_start_now (with_frames (scope_enter (frames_of st1)) st1) (Some now)) in
  let '(r, st') := py_start_pre_trade engine now order st in
  frames_of st' = frames_of st /\
  match first_exception rs with
  | Some e => r = Err e
  | None =>
      exists res, r = Ok res /\ por_rejects res = convert_reject <$> said rs /\ (is_Some (por_handle res) <-> said rs = [])
  end.
Proof.
  intros Hp Hx Hc. set (ctx := mkPreTradeContext _ false). set (s0 := (mkContextCells None deferred_default None, _)).
  pose proof (extract_order_still order st) as Hst. rewrite Hx in Hst. cbn [snd] in Hst.
  assert (Hf0 : frames_of s0 = None :: frames_of st1) by apply own_get_set.
  pose proof (ask_python_frames adapters ctx request s0 None (frames_of st1) Hf0) as Hf.
  pose proof (ask_start_python adapters ctx request s0 eq_refl) as Ha.
  pose proof (ask_python_length adapters ctx request s0) as Hl.
  unfold py_start_pre_trade, order_call, mbind, PyM_bind. rewrite Hx, Hp. unfold in_scope.
  unfold start_pre_trade. set (st2 := with_frames (scope_enter (frames_of st1)) st1) in *.
  change (es_blocked st2) with (es_blocked st1). change (es_groups st2) with (es_groups st1). rewrite Hc.
  cbn [with_accounts_ctx]. unfold with_start_pre_trade_now. cbn [fst snd]. fold ctx s0.
  rewrite run_start_spec, Ha. destruct (ask_python adapters ctx request s0) as [rs [cells st3]]. cbn [fst] in Hl.
  change (frames_of (cells, st3)) with (frames_of (with_start_now st3 (es_start_now st2))) in Hf.
  set (st4 := with_start_now st3 (es_start_now st2)) in *.
  set (l := all_rejects (zip_with start_answer adapters rs)).
  assert (Hfr : forall st', frames_of st' = frames_of st4 ->
    scope_finish (frames_of st') = (first_exception rs, frames_of st1)).
  { intros st' ->. rewrite Hf. unfold scope_finish. cbn. by destruct (first_exception rs). }
  unfold merged. destruct (is_nil l) eqn:En.
  - cbn [snd]. rewrite (Hfr st4 eq_refl). destruct (first_exception rs) as [e|] eqn:Ee.
    + split; [|done]. unfold no_drop. rewrite frames_with_st. exact Hst.
    + unfold l in En. rewrite said_answers in En by done. split; [rewrite frames_with_st; exact Hst|].
      eexists. split; [done|]. destruct (said rs); [|done]. cbn. split; [done|]. split; [done|eauto].
  - set (st5 := match reject_account_block l with Some b => _ | None => st4 end).
    assert (Hf5 : frames_of st5 = frames_of st4) by (unfold st5; by destruct (reject_account_block l)).
    cbn [snd]. rewrite (Hfr st5 Hf5). destruct (first_exception rs) as [e|] eqn:Ee.
    + split; [|done]. unfold no_drop. rewrite frames_with_st. exact Hst.
    + unfold l in *. rewrite said_answers in * by done. split; [rewrite frames_with_st; exact Hst|].
      eexists. split; [done|]. destruct (said rs) as [|r0 l0]; [done|]. cbn. split; [done|]. split; [by intros []|done].
Qed.

(** *** Finalizers *)

(** A mutation of a Python policy, by its two callables. *)
Definition py_mutation (callables : PyObj * PyObj) : Mutation St :=
  new_fallible_with_error (mutation_callback callables.1) (mutation_callback callables.2).

(** The callables one after the other, whatever each raises. *)
Fixpoint call_all (callables : list PyObj) st : list (result PyErr unit) * St :=
  match callables with
  | [] => ([], st)
  | c :: callables =>
      let '(r, st) :=
        match call0 c st with
        | (Ok _, st) => (Ok tt, st)
        | (Err e, st) => let '(_, st) := err_to_string e st in (Err e, park e st)
        end in
      let '(rs, st) := call_all callables st in (r :: rs, st)
  end.

Lemma call_all_frames callables st o fr : frames_of st = o :: fr ->
  let '(rs, st') := call_all callables st in frames_of st' = parked_frame o rs :: fr.
Proof.
  revert st o. induction callables as [|c callables IH]; intros st o Hf.
  { change (frames_of st = parked_frame (A:=unit) o [] :: fr). rewrite Hf. by destruct o. }
  cbn [call_all]. pose proof (bal_call0 same_frames c st) as Hc. unfold same_frames in Hc.
  destruct (call0 c st) as [[x|e] st1]; cbn [snd] in Hc; rewrite Hf in Hc.
  - specialize (IH st1 o Hc). destruct (call_all callables st1) as [rs st']. rewrite parked_frame_cons. by destruct o.
  - pose proof (bal_err_to_string same_frames e st1) as He. unfold same_frames in He.
    destruct (err_to_string e st1) as [details st2]. cbn [snd] in He. rewrite Hc in He.
    specialize (IH (park e st2) (match o with None => Some e | _ => o end)).
    rewrite frames_park in IH by (intros f; apply own_get_set). rewrite He in IH.
    destruct (call_all callables (park e st2)) as [rs st']. rewrite parked_frame_cons. by destruct o; apply IH.
Qed.

(** A batch fails for everyone exactly when a callable raised. *)
Definition scope_of (o : option PyErr) : option MutationFailureScope := (fun _ => ScopeGlobal) <$> o.

Lemma commit_python cs st f o : mf_scope f = scope_of o ->
  let '(rs, st') := call_all (cs.*1) st in
  let '(f', st'') := foldl commit_step (f, st) (py_mutation <$> cs) in
  st'' = st' /\ mf_scope f' = scope_of (parked_frame o rs).
Proof.
  revert st f o. induction cs as [|c cs IH]; intros st f o Hf; [by destruct o|].
  cbn -[park]. unfold mutation_commit, drop_guard. cbn -[park]. unfold mutation_callback.
  destruct (call0 c.1 st) as [[x|e] st1]; cbn -[park].
  - specialize (IH st1 f o Hf). destruct (call_all (cs.*1) st1) as [rs st']. rewrite parked_frame_cons.
    destruct (foldl _ _ _) as [f' st'']. by destruct o.
  - destruct (err_to_string e st1) as [details st2]. cbn -[park].
    specialize (IH (park e st2) (failure_record f CustomPolicy details) (match o with None => Some e | _ => o end)).
    destruct (call_all (cs.*1) (park e st2)) as [rs st']. rewrite parked_frame_cons.
    destruct (foldl _ _ _) as [f' st'']. destruct o; apply IH; by rewrite failure_record_append; destruct f as [? [[]|]].
Qed.

Lemma rollback_python cs st f o : mf_scope (rr_failure f) = scope_of o ->
  let '(rs, st') := call_all (cs.*2) st in
  let '(f', st'') := foldl rollback_step (f, st) (py_mutation <$> cs) in
  st'' = st' /\ mf_scope (rr_failure f') = scope_of (parked_frame o rs).
Proof.
  revert st f o. induction cs as [|c cs IH]; intros st f o Hf; [by destruct o|].
  cbn -[park]. unfold mutation_rollback, drop_guard. cbn -[park]. unfold mutation_callback.
  destruct (call0 c.2 st) as [[x|e] st1]; cbn -[park].
  - specialize (IH st1 (rollback_append f rollback_default) o). destruct (call_all (cs.*2) st1) as [rs st'].
    rewrite parked_frame_cons. destruct (foldl _ _ _) as [f' st'']. destruct o; apply IH; by destruct f as [[? [[]|]]].
  - destruct (err_to_string e st1) as [details st2]. cbn -[park].
    specialize (IH (park e st2) (rollback_append f (callback_failure CustomPolicy details)) (match o with None => Some e | _ => o end)).
    destruct (call_all (cs.*2) (park e st2)) as [rs st']. rewrite parked_frame_cons.
    destruct (foldl _ _ _) as [f' st'']. destruct o; apply IH; by destruct f as [[? [[]|]]].
Qed.

(** A reservation over mutations of Python policies. *)
Definition python_reservation outcomes lock (cs : list (PyObj * PyObj)) owner account : PyReservation (W:=W) :=
  mkPyReservation (Some (mkReservation outcomes lock
    (Some (mkReservationHandle (mkMutations (py_mutation <$> cs) owner) account)))).

(** The two finalizers, and the callables they run in their order. *)
Definition finalizer_runs (cs : list (PyObj * PyObj)) (commit : bool) : list PyObj :=
  if commit then cs.*1 else (rev cs).*2.
Definition run_finalizer (commit : bool) (h : PyReservation (W:=W)) st :=
  if commit then py_reservation_commit h st else py_reservation_rollback h st.

(** The core's part of a finalizer. *)
Lemma core_finalizer outcomes lock cs owner account commit st :
  let inner := mkReservation outcomes lock (Some (mkReservationHandle (mkMutations (py_mutation <$> cs) owner) account)) in
  let '(rs, st1) := call_all (finalizer_runs cs commit) st in
  exists failure, mf_scope failure = scope_of (first_exception rs) /\
    (if commit then committed reservation_commit inner st else rolled_back reservation_rollback inner st).2 =
    record_mutation_failure account failure st1.
Proof.
  destruct commit; cbn [finalizer_runs].
  - pose proof (commit_python cs st failure_default None eq_refl) as Hc. destruct (call_all _ st) as [rs st1].
    unfold committed, reservation_commit, handle_commit, commit_all. cbn [res_inner rh_mutations ms_mutations rh_account].
    destruct (foldl _ _ _) as [f st2]. destruct Hc as [-> Hf]. by exists f.
  - pose proof (rollback_python (rev cs) st rollback_default None eq_refl) as Hc.
    change (py_mutation <$> rev cs) with (List.map py_mutation (rev cs)) in Hc. destruct (call_all _ st) as [rs st1].
    unfold rolled_back, reservation_rollback, handle_rollback, rollback_all. cbn [res_inner rh_mutations ms_mutations rh_account].
    change (py_mutation <$> cs) with (List.map py_mutation cs). rewrite <- (map_rev py_mutation cs). destruct (foldl _ _ _) as [f st2]. destruct Hc as [-> Hf]. by exists (rr_failure f).
Qed.

(** C12: a finalizer runs every callable of its reservation - commits in order,
    rollbacks from the last - whatever the others raise.  If any raised, the call raises
    the exception raised first and every account is blocked from then on; if none did,
    it succeeds and blocks nobody.  Either way the handle is used up: finalizing it
    again is an error that changes nothing, and its end of life does nothing. *)
Theorem python_finalizer_spec outcomes lock cs owner account commit st :
  let '(rs, st1) := call_all (finalizer_runs cs commit) (with_frames (scope_enter (frames_of st)) st) in
  let '(r, h, st') := run_finalizer commit (python_reservation outcomes lock cs owner account) st in
  r = match first_exception rs with Some e => Err e | None => Ok tt end /\
  frames_of st' = frames_of st /\
  match first_exception rs with
  | Some _ => forall a, is_blocked (es_blocked st') (es_groups st') a = true
  | None => es_accounts st' = es_accounts st1
  end /\
  (forall again st2, run_finalizer again h st2 = (Err reservation_finalized, h, st2)) /\
  (forall st2, py_reservation_drop h st2 = st2).
Proof.
  set (entered := with_frames _ st).
  pose proof (core_finalizer outcomes lock cs owner account commit entered) as Hc. cbv zeta in Hc.
  pose proof (call_all_frames (finalizer_runs cs commit) entered None (frames_of st) (frames_entered st)) as Hf.
  destruct (call_all _ entered) as [rs st1]. destruct Hc as (failure & Hs & Hc). cbn [parked_frame] in Hf.
  assert (Hr : run_finalizer commit (python_reservation outcomes lock cs owner account) st =
    (match first_exception rs with Some e => Err e | None => Ok tt end, mkPyReservation None,
     with_frames (frames_of st) (record_mutation_failure account failure st1))).
  { unfold run_finalizer, py_reservation_commit, py_reservation_rollback, finalize, python_reservation.
    cbn [pyv_inner]. unfold in_scope. fold entered.
    destruct commit; cbn [finalizer_runs] in Hc |- *;
      [destruct (committed _ _ entered) as [u st2] eqn:E|destruct (rolled_back _ _ entered) as [u st2] eqn:E];
      cbn [snd] in Hc; subst st2; rewrite record_failure_frames, Hf; unfold scope_finish; cbn;
      by destruct (first_exception rs), u. }
  rewrite Hr. split; [done|]. split; [apply frames_with_st|].
  split; [|split; [by intros [] st2|done]].
  destruct (first_exception rs) as [e|].
  - intros a. pose proof (mutation_failure_blocks account failure st1) as Hb.
    apply (Hb _); [by rewrite Hs|by left; rewrite Hs].
  - unfold record_mutation_failure. by rewrite Hs.
Qed.
End Exceptions.

(** ** Decimal texts *)

(** Digits, and the number they spell after those read before. *)
Abbreviation digits_ok := (Forall (fun d : Z => 0 <= d <= 9)).
Definition digit_bytes (ds : list Z) : list Z := (fun d => 48 + d) <$> ds.
Definition spell (acc : Z) (ds : list Z) : Z := foldl (fun a d => a * 10 + d) acc ds.

Lemma is_digit_byte d : 0 <= d <= 9 -> is_digit (48 + d) = true.
Proof. unfold is_digit. intros H. apply andb_true_intro. lia. Qed.

Lemma spell_ge acc ds : 0 <= acc -> digits_ok ds -> acc <= spell acc ds.
Proof.
  intros Ha Hd. revert acc Ha. induction Hd as [|d ds Hd _ IH]; intros acc Ha; [done|]. cbn.
  etrans; [|apply IH]; lia.
Qed.

Lemma digits_value_spell ds acc : digits_ok ds -> digits_value acc (digit_bytes ds) = Some (spell acc ds).
Proof.
  intros Hd. revert acc. induction Hd as [|d ds Hd _ IH]; intros acc; [done|]. cbn.
  rewrite is_digit_byte by done. replace (48 + d - 48) with d by lia. apply IH.
Qed.

Definition fits_i128 (z : Z) : bool := z <? 2 ^ 127.

Lemma checked_i128_fits z : 0 <= z -> checked_i128 z = if fits_i128 z then Some z else None.
Proof. intros Hz. unfold checked_i128, fits_i128. by replace (- 2 ^ 127 <=? z) with true by (symmetry; apply Z.leb_le; lia). Qed.

Lemma checked_i64_ok z : - 2 ^ 63 <= z < 2 ^ 63 -> checked_i64 z = Some z.
Proof.
  intros Hz. unfold checked_i64. by rewrite (proj2 (Z.leb_le _ _)), (proj2 (Z.ltb_lt _ _)) by lia.
Qed.

(** Reading digits: the coefficient grows to what they spell, or does not fit. *)
Lemma scan_digits ds rest acc fr (flag : bool) : digits_ok ds -> 0 <= acc -> fits_i128 acc = true ->
  0 <= fr -> fr + Z.of_nat (length ds) < 2 ^ 63 ->
  scan_decimal (digit_bytes ds ++ rest) acc fr flag =
  if fits_i128 (spell acc ds)
  then scan_decimal rest (spell acc ds) (if flag then fr + Z.of_nat (length ds) else fr) flag else None.
Proof.
  intros Hd. revert acc fr. induction Hd as [|d ds Hd Hds IH]; intros acc fr Ha Hacc Hfr Hlen.
  { cbn. rewrite Hacc, Z.add_0_r. by destruct flag. }
  cbn [digit_bytes fmap list_fmap app scan_decimal spell foldl]. rewrite is_digit_byte by done.
  replace (48 + d - 48) with d by lia. rewrite checked_i128_fits by lia. cbn [length] in Hlen.
  assert (Hge : acc * 10 + d <= spell (acc * 10 + d) ds) by (apply spell_ge; [lia|done]).
  destruct (fits_i128 (acc * 10)) eqn:E1; cbn [mbind option_bind].
  2: { unfold fits_i128 in *. by rewrite (proj2 (Z.ltb_ge _ _)) by (apply Z.ltb_ge in E1; fold (spell (acc * 10 + d) ds); lia). }
  rewrite checked_i128_fits by lia. destruct (fits_i128 (acc * 10 + d)) eqn:E2; cbn [mbind option_bind].
  2: { unfold fits_i128 in *. by rewrite (proj2 (Z.ltb_ge _ _)) by (apply Z.ltb_ge in E2; fold (spell (acc * 10 + d) ds); lia). }
  fold (spell (acc * 10 + d) ds). destruct flag.
  - rewrite checked_i64_ok by lia. cbn [mbind option_bind]. rewrite IH by (done || lia).
    by replace (fr + 1 + Z.of_nat (length ds)) with (fr + Z.of_nat (S (length ds))) by lia.
  - cbn [mbind option_bind]. by rewrite IH by (done || lia).
Qed.

Lemma scan_point rest acc fr flag : scan_decimal (46 :: rest) acc fr flag = scan_decimal rest acc fr true.
Proof. done. Qed.

Lemma scale_up_spec n c : 0 <= c -> fits_i128 c = true ->
  scale_up n c = if fits_i128 (c * 10 ^ Z.of_nat n) then Some (c * 10 ^ Z.of_nat n) else None.
Proof.
  revert c. induction n as [|n IH]; intros c Hc Hf.
  { cbn [scale_up]. change (Z.of_nat 0) with 0. by rewrite Z.pow_0_r, Z.mul_1_r, Hf. }
  cbn [scale_up]. rewrite checked_i128_fits by lia.
  assert (Hp : c * 10 ^ Z.of_nat (S n) = c * 10 * 10 ^ Z.of_nat n)
    by (rewrite Nat2Z.inj_succ, Z.pow_succ_r by lia; lia).
  rewrite Hp. destruct (fits_i128 (c * 10)) eqn:E; cbn [mbind option_bind]; [by rewrite IH by (done || lia)|].
  unfold fits_i128 in *. apply Z.ltb_ge in E. rewrite (proj2 (Z.ltb_ge _ _)); [done|].
  assert (1 <= 10 ^ Z.of_nat n) by (pose proof (Z.pow_pos_nonneg 10 (Z.of_nat n)); lia). nia.
Qed.

(** The core's decimal of a sign, a coefficient and an exponent, when there is one. *)
Definition core_parts (negative : bool) (coefficient exponent : Z) : option (Z * Z) :=
  if fits_i128 coefficient then
    let signed z := if negative then - z else z in
    if exponent <? 0 then if - exponent <=? U32_MAX then Some (signed coefficient, - exponent) else None
    else if fits_i128 (coefficient * 10 ^ exponent) then Some (signed (coefficient * 10 ^ exponent), 0) else None
  else None.

(** The text the decimal arithmetic specification gives a finite number: its digits with
    a point where the exponent asks for one, or in scientific notation; [adjusted] are
    the digits of the exponent written then. *)
Definition scientific_string (negative : bool) (coefficient : list Z) (exponent : Z) (adjusted : list Z) : list Z :=
  let n := Z.of_nat (length coefficient) in
  (if negative then [45] else []) ++
  if (exponent <=? 0) && (-6 <=? exponent + n - 1) then
    if exponent =? 0 then digit_bytes coefficient
    else if 0 <? n + exponent then
      digit_bytes (take (Z.to_nat (n + exponent)) coefficient) ++ 46 ::
      digit_bytes (drop (Z.to_nat (n + exponent)) coefficient)
    else digit_bytes [0] ++ 46 :: digit_bytes (repeat 0 (Z.to_nat (- (n + exponent))) ++ coefficient)
  else
    digit_bytes (take 1 coefficient) ++
    (if 1 <? n then 46 :: digit_bytes (drop 1 coefficient) else []) ++
    69 :: (if 0 <=? exponent + n - 1 then 43 else 45) :: digit_bytes adjusted.

(** From the end of a scan on. *)
Lemma parts_of_scan (negative : bool) text coefficient fr exponent e : exponent - fr = e ->
  scan_decimal text 0 0 false = (if fits_i128 coefficient then Some (coefficient, fr, exponent) else None) ->
  0 <= coefficient -> (forall b, head text = Some b -> b <> 45) -> text <> [] ->
  - 2 ^ 63 < exponent - fr < 2 ^ 63 ->
  decimal_parts ((if negative then [45] else []) ++ text) = core_parts negative coefficient e.
Proof.
  intros <- Hs Hc Hh Hn He. unfold decimal_parts, core_parts.
  assert (Hsign : forall A (x y : A), match ((if negative then [45] else []) ++ text) with 45 :: _ => x | _ => y end =
                                 if negative then x else y).
  { intros A x y. destruct negative; [done|]. destruct text as [|b text]; [done|]. cbn. specialize (Hh b eq_refl).
    destruct b as [|p|p]; try done. repeat (destruct p as [p|p|]; try done). }
  rewrite Hsign.
  assert (Ht : (if (if negative then true else false) then tail ((if negative then [45] else []) ++ text)
                else (if negative then [45] else []) ++ text) = text) by by destruct negative.
  rewrite Ht, Hs. destruct (fits_i128 coefficient) eqn:Ef; [|done]. cbn [mbind option_bind].
  rewrite checked_i64_ok by lia. cbn [mbind option_bind]. destruct (exponent - fr <? 0) eqn:En.
  - apply Z.ltb_lt in En. rewrite checked_i64_ok by lia. cbn [mbind option_bind].
    destruct (_ <=? U32_MAX); [|done]. by destruct negative.
  - apply Z.ltb_ge in En. destruct (coefficient =? 0) eqn:Ez.
    + apply Z.eqb_eq in Ez as ->. cbn [mbind option_bind]. rewrite Z.mul_0_l. by destruct negative.
    + rewrite scale_up_spec, Z2Nat.id by (done || lia). destruct (fits_i128 (coefficient * _)); [|done].
      by destruct negative.
Qed.

Lemma spell_app acc l1 l2 : spell acc (l1 ++ l2) = spell (spell acc l1) l2.
Proof. apply foldl_app. Qed.

Lemma spell_zeros n : spell 0 (repeat 0 n) = 0.
Proof. induction n; cbn; done. Qed.

Lemma fits_prefix l1 l2 : digits_ok l1 -> digits_ok l2 -> fits_i128 (spell 0 (l1 ++ l2)) = true -> fits_i128 (spell 0 l1) = true.
Proof.
  intros H1 H2. rewrite spell_app. unfold fits_i128. rewrite !Z.ltb_lt.
  pose proof (spell_ge 0 l1 ltac:(done) H1). pose proof (spell_ge (spell 0 l1) l2 ltac:(done) H2). lia.
Qed.

(** An integer part and a fraction. *)
Lemma scan_fraction ip fp rest : digits_ok ip -> digits_ok fp ->
  Z.of_nat (length ip) < 2 ^ 63 -> Z.of_nat (length fp) < 2 ^ 63 ->
  scan_decimal (digit_bytes ip ++ 46 :: digit_bytes fp ++ rest) 0 0 false =
  if fits_i128 (spell 0 (ip ++ fp)) then scan_decimal rest (spell 0 (ip ++ fp)) (Z.of_nat (length fp)) true else None.
Proof.
  intros Hi Hf Li Lf. rewrite scan_digits by (done || lia). cbn [negb].
  destruct (fits_i128 (spell 0 ip)) eqn:Ei.
  - rewrite scan_point, scan_digits; [by rewrite <- spell_app, Z.add_0_l|done| |done|done|lia].
    by apply (spell_ge 0 ip).
  - destruct (fits_i128 (spell 0 (ip ++ fp))) eqn:E; [|done]. by rewrite (fits_prefix ip fp) in Ei.
Qed.

Lemma parse_i64_signed (positive : bool) ds : digits_ok ds -> ds <> [] -> spell 0 ds < 2 ^ 63 ->
  parse_i64 ((if positive then 43 else 45) :: digit_bytes ds) = Some (if positive then spell 0 ds else - spell 0 ds).
Proof.
  intros Hd Hn Hs. pose proof (spell_ge 0 ds ltac:(done) Hd) as Hp. unfold parse_i64.
  assert (Hm : match (if positive then 43 else 45) :: digit_bytes ds with
               | 43 :: digits => (false, digits) | 45 :: digits => (true, digits)
               | _ => (false, (if positive then 43 else 45) :: digit_bytes ds) end = (negb positive, digit_bytes ds))
    by by destruct positive.
  rewrite Hm. destruct ds as [|d ds]; [done|]. cbn [digit_bytes fmap list_fmap].
  fold (digit_bytes ds). change ((48 + d) :: digit_bytes ds) with (digit_bytes (d :: ds)).
  rewrite digits_value_spell by done. cbn [mbind option_bind].
  destruct positive; cbn [negb]; rewrite checked_i64_ok by lia; done.
Qed.

Lemma scan_exponent (positive : bool) ds c fr flag : digits_ok ds -> ds <> [] -> spell 0 ds < 2 ^ 63 ->
  scan_decimal (69 :: (if positive then 43 else 45) :: digit_bytes ds) c fr flag =
  Some (c, fr, if positive then spell 0 ds else - spell 0 ds).
Proof. intros Hd Hn Hs. cbn [scan_decimal is_digit]. cbn -[parse_i64 digit_bytes]. by rewrite parse_i64_signed. Qed.

Lemma head_digit ds text b : digits_ok ds -> ds <> [] -> head (digit_bytes ds ++ text) = Some b -> b <> 45.
Proof. intros [|d ds' Hd _]; [done|]. intros _ [= <-]. lia. Qed.

Lemma digit_text_nonempty ds text : ds <> [] -> digit_bytes ds ++ text <> [].
Proof. by destruct ds. Qed.

(** The loop reads what Python writes for a finite number, in plain and in scientific
    notation: the sign, every digit and the exponent.  The answer is the mantissa and
    the scale when 128 and 32 bits can hold them. *)
Lemma decimal_parts_exact (negative : bool) coefficient exponent adjusted :
  digits_ok coefficient -> coefficient <> [] -> Z.of_nat (length coefficient) <= 10 ^ 18 ->
  - 2 * 10 ^ 18 <= exponent <= 10 ^ 18 ->
  digits_ok adjusted -> adjusted <> [] -> spell 0 adjusted = Z.abs (exponent + Z.of_nat (length coefficient) - 1) ->
  decimal_parts (scientific_string negative coefficient exponent adjusted) =
  core_parts negative (spell 0 coefficient) exponent.
Proof.
  intros Hc Hn Hlen He Ha Han Hadj. unfold scientific_string. set (n := Z.of_nat (length coefficient)) in *.
  assert (Hn1 : 1 <= n) by (unfold n; destruct coefficient; [done|cbn; lia]).
  pose proof (spell_ge 0 coefficient ltac:(done) Hc) as Hpos.
  destruct ((exponent <=? 0) && (-6 <=? exponent + n - 1)) eqn:Eplain.
  - apply andb_true_iff in Eplain as [E1%Z.leb_le E2%Z.leb_le].
    destruct (exponent =? 0) eqn:E0; [apply Z.eqb_eq in E0 as ->|apply Z.eqb_neq in E0].
    + rewrite <- (app_nil_r (digit_bytes coefficient)).
      apply (parts_of_scan negative _ _ 0 0); [done| |done|by (intros b; apply head_digit)|by apply digit_text_nonempty|lia].
      rewrite scan_digits by (done || lia). by destruct (fits_i128 _).
    + destruct (0 <? n + exponent) eqn:Ep.
      * apply Z.ltb_lt in Ep. set (p := Z.to_nat (n + exponent)).
        assert (Hp : (0 < p < length coefficient)%nat) by (unfold p, n in *; lia).
        assert (Hld : 0 - Z.of_nat (length (drop p coefficient)) = exponent)
          by (rewrite length_drop; unfold p, n in *; lia).
        rewrite <- (app_nil_r (digit_bytes (drop p coefficient))).
        assert (Hne : take p coefficient <> []) by (destruct coefficient, p; done || lia).
        apply (parts_of_scan _ _ _ _ _ _ Hld); [|done| |by apply digit_text_nonempty|lia].
        -- rewrite scan_fraction; [|by apply Forall_take|by apply Forall_drop|rewrite length_take; lia|rewrite length_drop; lia].
           by rewrite take_drop.
        -- intros b. apply head_digit; [by apply Forall_take|done].
      * apply Z.ltb_ge in Ep. set (k := Z.to_nat (- (n + exponent))).
        set (fp := repeat 0 k ++ coefficient).
        assert (Hfp : digits_ok fp).
        { apply Forall_app. split; [|done]. apply Forall_forall. intros x Hx%list_elem_of_In%repeat_spec. lia. }
        assert (Hlf : Z.of_nat (length fp) = - exponent).
        { unfold fp. rewrite length_app, repeat_length. unfold k, n in *. lia. }
        assert (Hsp : spell 0 ([0] ++ fp) = spell 0 coefficient).
        { unfold fp. rewrite app_assoc, spell_app. change ([0] ++ repeat 0 k) with (repeat 0 (S k)). by rewrite spell_zeros. }
        assert (Hld : 0 - Z.of_nat (length fp) = exponent) by lia.
        rewrite <- (app_nil_r (digit_bytes fp)). apply (parts_of_scan _ _ _ _ _ _ Hld); [|done| |done|lia].
        -- rewrite scan_fraction; [by rewrite Hsp|by repeat constructor|done|cbn; lia|lia].
        -- intros b. apply head_digit; [by repeat constructor|done].
  - set (adj := exponent + n - 1) in *.
    assert (Hx : (if 0 <=? adj then spell 0 adjusted else - spell 0 adjusted) = adj)
      by (rewrite Hadj; destruct (0 <=? adj) eqn:E; [apply Z.leb_le in E|apply Z.leb_gt in E]; lia).
    assert (Hsm : spell 0 adjusted < 2 ^ 63) by lia.
    assert (Hne : take 1 coefficient <> []) by by destruct coefficient.
    assert (Hld : adj - (n - 1) = exponent) by lia.
    apply (parts_of_scan _ _ _ _ _ _ Hld); [|done| |by apply digit_text_nonempty|lia].
    2: { intros b. apply head_digit; [by apply Forall_take|done]. }
    destruct (1 <? n) eqn:E1.
    + apply Z.ltb_lt in E1. rewrite <- app_comm_cons.
      rewrite scan_fraction; [|by apply Forall_take|by apply Forall_drop|rewrite length_take; lia|rewrite length_drop; lia].
      rewrite take_drop, length_drop, scan_exponent by done. rewrite Hx.
      by replace (Z.of_nat (length coefficient - 1)) with (n - 1) by (unfold n; lia).
    + apply Z.ltb_ge in E1. assert (Hl1 : length coefficient = 1%nat) by (unfold n in *; lia).
      rewrite take_ge by lia. cbn [app]. rewrite scan_digits by (done || lia).
      destruct (fits_i128 _); [|done]. rewrite scan_exponent by done. rewrite Hx. by replace (n - 1) with 0 by lia.
Qed.

(** Whether the core has a decimal with these digits and this scale: a 96-bit coefficient,
    up to 28 digits after the point, and no exponent of its own. *)
Definition core_fits (coefficient exponent : Z) : bool :=
  if exponent <? 0 then (coefficient <? DEC_COEFF) && (- exponent <=? 28) else coefficient * 10 ^ exponent <? DEC_COEFF.

Section DecimalTexts.
Context {D : DecimalOps} {DW : DecimalWire} {WL : DecimalWireLaws D DW} {PM : PyModel} {S : Type} {R : PyRuntime S}.

(** What the interpreter answers about an object: whether it is a [Decimal], whether it
    is finite, and its text. *)
Definition ask_decimal (value : PyObj) : PyM S (bool * bool * ustr) :=
  decimal_mod ← py_import "decimal";
  decimal_cls ← getattr decimal_mod "Decimal";
  instance ← py_is_instance value decimal_cls;
  answer ← call_method1 decimal_cls "is_finite" [value];
  finite ← extract_bool answer;
  python_text ← call_method1 decimal_cls "__str__" [value];
  text ← extract_str python_text;
  mret (instance, finite, text).

(** Reading a finite [Decimal] comes down to the parts of its text. *)
Lemma parse_decimal_text value type_name text s s' :
  ask_decimal value s = (Ok (true, true, text), s') -> exists range_error,
  parse_python_decimal value type_name s =
    (match decimal_parts (str_bytes text) with
     | None => Err (create_param_error range_error)
     | Some (mantissa, scale) =>
         map_err (fun error => create_param_error (range_error +:+ ": " +:+ error)) (dec_from_i128_with_scale mantissa scale)
     end, s').
Proof.
  unfold ask_decimal, parse_python_decimal, mbind, PyM_bind, mret, PyM_ret.
  destruct (py_import _ s) as [[m|e] s1]; [|done]. destruct (getattr m _ s1) as [[c|e] s2]; [|done].
  destruct (py_is_instance value c s2) as [[b|e] s3]; [|done]. destruct (call_method1 c "is_finite" _ s3) as [[a|e] s4] eqn:E4.
  2: done.
  destruct (extract_bool a s4) as [[f|e] s5] eqn:E5; [|done]. destruct (call_method1 c "__str__" _ s5) as [[t|e] s6] eqn:E6; [|done].
  destruct (extract_str t s6) as [[x|e] s7] eqn:E7; [|done]. intros [= -> -> -> ->]. cbn [negb].
  rewrite E4, E5, E6, E7. eexists. by destruct (decimal_parts _) as [[mantissa scale]|].
Qed.

(** C33: a finite Python [Decimal] is read exactly or refused.  Python writes it as the
    decimal arithmetic specification says, plain or scientific.  When the core has a
    decimal of those digits and that scale - the coefficient, with a positive exponent
    multiplied in, below 2^96 and at most 28 digits after the point - the answer is that
    decimal, with the coefficient and the scale as written and exactly the number's
    value; otherwise it is a [ParamError].  Nothing is rounded and nothing wraps. *)
Theorem decimal_text_exact value type_name text s s' (negative : bool) digits exponent adjusted :
  ask_decimal value s = (Ok (true, true, text), s') ->
  str_bytes text = scientific_string negative digits exponent adjusted ->
  digits_ok digits -> digits <> [] -> Z.of_nat (length digits) <= 10 ^ 18 ->
  - 2 * 10 ^ 18 <= exponent <= 10 ^ 18 ->
  digits_ok adjusted -> adjusted <> [] -> spell 0 adjusted = Z.abs (exponent + Z.of_nat (length digits) - 1) ->
  let coefficient := spell 0 digits in
  let signed z := if negative then - z else z in
  if core_fits coefficient exponent then
    exists d, parse_python_decimal value type_name s = (Ok d, s') /\
      dec_mantissa d = signed (coefficient * 10 ^ Z.max 0 exponent) /\ dec_scale d = Z.max 0 (- exponent) /\
      dec_val d = signed coefficient * 10 ^ (28 + exponent)
  else exists message, parse_python_decimal value type_name s = (Err (create_param_error message), s').
Proof.
  intros Hask Htext Hd Hn Hlen He Ha Han Hadj. cbv zeta. set (c := spell 0 digits).
  destruct (parse_decimal_text value type_name text s s' Hask) as (range_error & ->). rewrite Htext.
  rewrite (decimal_parts_exact negative digits exponent adjusted) by done. fold c.
  assert (Hc : 0 <= c) by (by apply (spell_ge 0 digits)). clearbody c. clear - WL Hc He.
  assert (Hfrom : forall m sc z, Z.abs m = z -> z < DEC_COEFF -> 0 <= sc <= 28 ->
    exists d, (map_err (fun error => create_param_error (range_error +:+ ": " +:+ error)) (dec_from_i128_with_scale m sc) : result PyErr Dec) = Ok d /\
      dec_mantissa d = m /\ dec_scale d = sc /\ dec_val d = m * 10 ^ (28 - sc)).
  { intros m sc z <- Hm Hs. destruct (dw_from m sc Hm Hs) as (d & -> & Em & Es). exists d. split_and!; [done..|].
    rewrite dw_val, Em, Es. unfold scale_weight, DEC_MAX_SCALE. do 2 f_equal. lia. }
  assert (Hrefuse : forall m sc, ~ (Z.abs m < DEC_COEFF /\ 0 <= sc <= 28) ->
    exists message, map_err (fun error => create_param_error (range_error +:+ ": " +:+ error)) (dec_from_i128_with_scale m sc)
      = Err (create_param_error message)).
  { intros m sc H. destruct (dw_refuse m sc H) as (e & ->). by eexists. }
  assert (Habs : forall z, 0 <= z -> Z.abs (if negative then - z else z) = z) by (intros z ?; destruct negative; lia).
  assert (Hcoeff : DEC_COEFF < 2 ^ 127) by (unfold DEC_COEFF; lia).
  unfold core_fits, core_parts, fits_i128. destruct (Z.ltb_spec exponent 0).
  - replace (Z.max 0 exponent) with 0 by lia. replace (Z.max 0 (- exponent)) with (- exponent) by lia.
    rewrite Z.pow_0_r, Z.mul_1_r. destruct (Z.ltb_spec c DEC_COEFF); cbn [andb].
    + rewrite (proj2 (Z.ltb_lt c (2 ^ 127))) by lia. destruct (Z.leb_spec (- exponent) 28).
      * rewrite (proj2 (Z.leb_le _ U32_MAX)) by (unfold U32_MAX; lia).
        destruct (Hfrom (if negative then - c else c) (- exponent) c) as (d & -> & E1 & E2 & E3); [by apply Habs|lia|lia|].
        exists d. split_and!; [done..|]. rewrite E3. do 2 f_equal. lia.
      * destruct (_ <=? U32_MAX); [|by eexists]. destruct (Hrefuse (if negative then - c else c) (- exponent)) as (e & ->);
          [lia|by eexists].
    + destruct (c <? 2 ^ 127); [|by eexists]. destruct (_ <=? U32_MAX); [|by eexists].
      destruct (Hrefuse (if negative then - c else c) (- exponent)) as (e & ->); [rewrite Habs by done; lia|by eexists].
  - replace (Z.max 0 exponent) with exponent by lia. replace (Z.max 0 (- exponent)) with 0 by lia.
    assert (Hp : 1 <= 10 ^ exponent) by (pose proof (Z.pow_pos_nonneg 10 exponent); lia).
    assert (Hge : c <= c * 10 ^ exponent) by nia. set (z := c * 10 ^ exponent) in *.
    destruct (Z.ltb_spec z DEC_COEFF).
    + rewrite (proj2 (Z.ltb_lt c (2 ^ 127))), (proj2 (Z.ltb_lt z (2 ^ 127))) by lia.
      destruct (Hfrom (if negative then - z else z) 0 z) as (d & -> & E1 & E2 & E3); [by apply Habs; lia|lia|lia|].
      exists d. split_and!; [done..|]. rewrite E3, Z.pow_add_r by lia. unfold z. destruct negative; lia.
    + destruct (c <? 2 ^ 127); [|by eexists]. destruct (z <? 2 ^ 127); [|by eexists].
      destruct (Hrefuse (if negative then - z else z) 0) as (e & ->); [rewrite Habs by lia; lia|by eexists].
Qed.
End DecimalTexts.
