(* ===== verification/SpotFundsFacts.v ===== *)
(** * SpotFundsFacts: the gates of a reservation

    Slots as the policy sees them (a missing slot is a zero one), what the slot
    operations do to them, the position limit and the hold in exact arithmetic. *)
From S2P Require Import Prelude.
From S2P Require Import Decimal.
From S2P Require Import Param.
From S2P Require Import ParamTypes.
From S2P Require Import Identifiers.
From S2P Require Import Mutation.
From S2P Require Import Reject.
From S2P Require Import AccountControl.
From S2P Require Import Accounts.
From S2P Require Import Lock.
From S2P Require Import Policy.
From S2P Require Import Storage.
From S2P Require Import Holdings.
From S2P Require Import HoldingsFacts.
From S2P Require Import HoldingsStore.
From S2P Require Import Instruments.
From S2P Require Import MarketData.
From S2P Require Import PnlBounds.
From S2P Require Import SpotFundsSettings.
From S2P Require Import SpotFundsParts.
From S2P Require Import SpotFunds.
From S2P Require Import SpotFundsReservation.
Open Scope Z_scope.

(** ** Slots *)

Section Slots.
Context {D : DecimalOps} {L : DecimalLaws D}.
Implicit Types (store : HoldingsStore) (key : SlotKey) (h : Holdings).

Definition slot_of store key : Holdings := default holdings_zero (store_get store key).

Lemma slot_of_inner store store' key :
  hs_inner store' !! key = hs_inner store !! key -> slot_of store' key = slot_of store key.
Proof. intros E. unfold slot_of, store_get. by rewrite E. Qed.

Lemma is_zero_equiv h : holdings_is_zero h = true -> h ≡ holdings_zero.
Proof.
  unfold holdings_is_zero. rewrite !andb_true_iff. intros ((((Ha & Hh) & Hi) & Hr) & Hp).
  unfold sg_is_zero in *. dec_norm. unfold equiv, holdings_equiv, av, hd, inc, holdings_zero in *. cbn.
  rewrite Z.eqb_eq in *. destruct (h_realized_pnl h), (h_avg_entry_price h); try done.
  rewrite !sg_ZERO_val. split_and!; try done; lia.
Qed.

Lemma unindex_removed_inner store key : hs_inner (unindex_removed_slot store key) = hs_inner store.
Proof.
  unfold unindex_removed_slot. pose proof (unindex_asset_inner store key) as E.
  destruct (unindex_asset store key) as [[[]|] store']; done.
Qed.

(** Removing a slot that satisfies a predicate. *)
Lemma store_remove_if_inner store key p :
  (store_remove_if store key p).1 = match store_get store key with Some h => p h | None => false end /\
  hs_inner (store_remove_if store key p).2 =
    match store_get store key with
    | Some h => if p h then delete key (hs_inner store) else hs_inner store
    | None => hs_inner store
    end.
Proof.
  unfold store_remove_if, storage_remove_if, store_get. destruct (hs_inner store !! key) as [h|]; [|done].
  destruct (p h); cbn; [by rewrite unindex_removed_inner|done].
Qed.

(** Dropping an all-zero slot is not visible. *)
Lemma remove_if_zero_slots store key k :
  slot_of (store_remove_if_zero store key).2 k ≡ slot_of store k /\
  (k <> key -> slot_of (store_remove_if_zero store key).2 k = slot_of store k).
Proof.
  unfold store_remove_if_zero, slot_of. destruct (store_remove_if_inner store key holdings_is_zero) as [_ E].
  unfold store_get in *. rewrite E. destruct (hs_inner store !! key) as [h|] eqn:Hh; [|done].
  destruct (holdings_is_zero h) eqn:Hz; [|done]. destruct (decide (k = key)) as [->|Hk].
  - rewrite lookup_delete_eq, Hh. cbn. split; [|done]. symmetry. by apply is_zero_equiv.
  - by rewrite lookup_delete_ne by done.
Qed.

(** An unconditional update leaves what it computed from the slot it saw. *)
Lemma store_with_mut_slots {X} store key (f : Holdings -> bool -> X * Holdings) :
  (forall h, f h true = f h false) ->
  let '(x, store') := store_with_mut store key holdings_zero f in
  (x, slot_of store' key) = f (slot_of store key) false /\
  (forall k, k <> key -> slot_of store' k = slot_of store k).
Proof.
  intros Hf. unfold store_with_mut, with_mut, with_mut_phased, with_mut_fast, with_mut_slow, slot_of, store_get.
  destruct (hs_inner store !! key) as [h|] eqn:E; cbn.
  - destruct (f h false) as [x h'] eqn:Ef; cbn. rewrite lookup_insert_eq. split; [done|].
    intros k Hk. by rewrite lookup_insert_ne.
  - destruct (f holdings_zero true) as [x h'] eqn:Ef; cbn. rewrite index_created_inner. cbn.
    rewrite lookup_insert_eq, <- Hf. cbn. split; [done|]. intros k Hk. by rewrite lookup_insert_ne.
Qed.

(** [mutate_slot] reads one slot and writes what the closure answered, up to
    numeric equality; a refusal leaves every slot. *)
Lemma mutate_slot_slots {E X} store key (f : Holdings -> result E (X * Holdings)) :
  let '(r, store') := mutate_slot store key f in
  r = f (slot_of store key) /\
  (forall k, k <> key -> slot_of store' k = slot_of store k) /\
  match r with
  | Ok (_, new) => slot_of store' key ≡ new
  | Err _ => slot_of store' key = slot_of store key
  end.
Proof.
  unfold mutate_slot, store_with_mut_or_insert_prune_new_if_zero, with_mut_or_insert_prune_new_if,
    prune_new_phased, with_mut_fast, prune_new_slow, tag_new.
  assert (Hs : slot_of store key = default holdings_zero (hs_inner store !! key)) by done.
  destruct (hs_inner store !! key) as [h|] eqn:Eh; cbn in Hs; rewrite Hs.
  - destruct (f h) as [[x new]|e] eqn:Ef; cbn.
    + set (store' := set_inner store _).
      assert (Hk : slot_of store' key = new) by (unfold slot_of, store_get; cbn; by rewrite lookup_insert_eq).
      assert (Hne : forall k, k <> key -> slot_of store' k = slot_of store k).
      { intros k Hn. apply slot_of_inner. cbn. by rewrite lookup_insert_ne. }
      rewrite andb_true_r. destruct (holdings_is_zero new); [|rewrite Hk; done].
      split_and!; [done| |rewrite <- Hk; apply remove_if_zero_slots].
      intros k Hn. rewrite (proj2 (remove_if_zero_slots store' key k) Hn). auto.
    + split_and!; [done| |].
      * intros k Hn. apply slot_of_inner. cbn. by rewrite lookup_insert_ne.
      * unfold slot_of, store_get. cbn. by rewrite lookup_insert_eq.
  - destruct (f holdings_zero) as [[x new]|e] eqn:Ef; cbn.
    + rewrite andb_false_r. destruct (holdings_is_zero new) eqn:Hz; cbn; rewrite ?lookup_insert_eq, ?lookup_delete_eq; cbn.
      * split_and!; [done| |].
        -- intros k Hn. apply slot_of_inner. cbn. by rewrite lookup_delete_ne, lookup_insert_ne.
        -- unfold slot_of, store_get. cbn. rewrite lookup_delete_eq. symmetry. by apply is_zero_equiv.
      * split_and!; [done| |].
        -- intros k Hn. apply slot_of_inner. rewrite index_created_inner. cbn. by rewrite lookup_insert_ne.
        -- unfold slot_of, store_get. rewrite index_created_inner. cbn. by rewrite lookup_insert_eq.
    + split_and!; [done| |].
      * intros k Hn. apply slot_of_inner. cbn. by rewrite lookup_delete_ne, lookup_insert_ne.
      * unfold slot_of, store_get. cbn. by rewrite lookup_delete_eq.
Qed.

(** A slot the closure does not leave all zero holds exactly what it answered. *)
Lemma mutate_slot_kept {E X} store key (f : Holdings -> result E (X * Holdings)) x new :
  f (slot_of store key) = Ok (x, new) -> holdings_is_zero new = false ->
  slot_of (mutate_slot store key f).2 key = new.
Proof.
  unfold mutate_slot, store_with_mut_or_insert_prune_new_if_zero, with_mut_or_insert_prune_new_if,
    prune_new_phased, with_mut_fast, prune_new_slow, tag_new, slot_of, store_get.
  destruct (hs_inner store !! key) as [h|] eqn:Eh; cbn; intros Hf Hz; rewrite Hf; cbn.
  - rewrite Hz. cbn. by rewrite lookup_insert_eq.
  - rewrite Hz. cbn. rewrite lookup_insert_eq. cbn. rewrite index_created_inner. cbn. by rewrite lookup_insert_eq.
Qed.

End Slots.

(** ** The gates, in exact arithmetic *)

Section Gates.
Context {D : DecimalOps} {L : DecimalLaws D} {F : DecimalFormat} {G : DecimalDebug}.
Implicit Types (h : Holdings) (a b held incoming : PositionSize) (asset : Asset).

Lemma exact_add_val a b : representable (sg_val a + sg_val b) ->
  exists c, exact_add a b = Ok c /\ sg_val c = sg_val a + sg_val b.
Proof.
  intros (c & Hc & Hv)%sg_add_val. unfold exact_add. rewrite Hc. cbn.
  destruct (sg_sub_val c a) as (x & -> & Hx); [replace (sg_val c - sg_val a) with (sg_val b) by lia; auto with decimal|].
  destruct (sg_sub_val c b) as (y & -> & Hy); [replace (sg_val c - sg_val b) with (sg_val a) by lia; auto with decimal|].
  unfold result_eqb. dec_norm. rewrite !(proj2 (Z.eqb_eq _ _)) by lia. by exists c.
Qed.

Lemma exact_sub_val a b : representable (sg_val a - sg_val b) ->
  exists c, exact_sub a b = Ok c /\ sg_val c = sg_val a - sg_val b.
Proof.
  intros (c & Hc & Hv)%sg_sub_val. unfold exact_sub. rewrite Hc. cbn.
  destruct (sg_add_val c b) as (x & -> & Hx); [replace (sg_val c + sg_val b) with (sg_val a) by lia; auto with decimal|].
  destruct (sg_sub_val a c) as (y & -> & Hy); [replace (sg_val a - sg_val c) with (sg_val b) by lia; auto with decimal|].
  unfold result_eqb. dec_norm. rewrite !(proj2 (Z.eqb_eq _ _)) by lia. by exists c.
Qed.

Lemma non_negative_val a : sg_val (non_negative a) = Z.max 0 (sg_val a).
Proof.
  unfold non_negative. dec_norm. destruct (Z.ltb_spec 0 (sg_val a)); dec_norm; lia.
Qed.

Lemma neg_val a : sg_val (neg a) = - sg_val a.
Proof. unfold neg, position_size_neg, sg_val. cbn. apply dec_neg_val. Qed.

(** The net flow of an order on one asset, both of its steps counted. *)
Definition net_flow (held incoming earlier_held earlier_incoming : PositionSize) : Z :=
  (sg_val incoming - sg_val held) + (sg_val earlier_incoming - sg_val earlier_held).

(** The worst case the limit guards: everything open on the side of the order's
    net flow fills, and then the order does. *)
Definition worst_position h (earlier_held earlier_incoming : PositionSize) (net : Z) : Z :=
  if 0 <? net then owned h + Z.max 0 (inc h - sg_val earlier_incoming) + net
  else owned h - Z.max 0 (hd h - sg_val earlier_held) + net.

Definition position_ok (check : option Check_) h held incoming : bool :=
  match check with
  | Some (CheckPosition limit eh ei) =>
      let net := net_flow held incoming eh ei in
      (net =? 0) || (if 0 <? net then worst_position h eh ei net <=? nn_val limit
                     else - nn_val limit <=? worst_position h eh ei net)
  | _ => true
  end.

(** What the check computes on the way. *)
Definition position_exact (check : option Check_) h held incoming : Prop :=
  match check with
  | Some (CheckPosition limit eh ei) =>
      let net := net_flow held incoming eh ei in
      representable (sg_val incoming - sg_val held) /\ representable (sg_val ei - sg_val eh) /\
      representable net /\ representable (av h + sg_val eh) /\ representable (hd h - sg_val eh) /\
      representable (inc h - sg_val ei) /\ representable (owned h) /\
      representable (worst_position h eh ei net - net) /\ representable (worst_position h eh ei net)
  | _ => True
  end.

(** [exact_step] runs the next exact operation of the goal. *)
Ltac exact_step :=
  match goal with
  | |- context [exact_add ?a ?b] =>
      let c := fresh "c" in let E := fresh "E" in let V := fresh "V" in
      destruct (exact_add_val a b) as (c & E & V); [|rewrite E; clear E]
  | |- context [exact_sub ?a ?b] =>
      let c := fresh "c" in let E := fresh "E" in let V := fresh "V" in
      destruct (exact_sub_val a b) as (c & E & V); [|rewrite E; clear E]
  end; cbn [mbind result_bind or_arithmetic map_err].
Ltac repr_by H := refine (eq_ind _ representable H _ _); rewrite ?non_negative_val; unfold owned, av, hd, inc in *; lia.

Lemma aggregate_net_val held incoming eh ei :
  representable (sg_val incoming - sg_val held) -> representable (sg_val ei - sg_val eh) ->
  representable (net_flow held incoming eh ei) ->
  exists c, aggregate_net held incoming eh ei = Ok c /\ sg_val c = net_flow held incoming eh ei.
Proof.
  intros H1 H2 H3. unfold aggregate_net, step_net, net_flow in *.
  exact_step; [done|]. exact_step; [done|]. exact_step; [repr_by H3|].
  eexists. split; [done|]. lia.
Qed.

(** The projection is the worst case. *)
Lemma projected_position_val asset h eh ei net :
  representable (av h + sg_val eh) -> representable (hd h - sg_val eh) -> representable (inc h - sg_val ei) ->
  representable (owned h) -> representable (worst_position h eh ei (sg_val net) - sg_val net) ->
  representable (worst_position h eh ei (sg_val net)) ->
  exists side c, projected_position asset h eh ei net = Ok (side, c) /\
    sg_val c = worst_position h eh ei (sg_val net).
Proof.
  intros H1 H2 H3 H4 H5 H6. unfold projected_position, worst_position in *.
  exact_step; [done|]. exact_step; [done|]. exact_step; [done|].
  exact_step; [repr_by H4|]. dec_norm. revert H5 H6.
  destruct (Z.ltb_spec 0 (sg_val net)); intros H5 H6.
  all: exact_step; [repr_by H5|]; exact_step; [rewrite ?non_negative_val in *; repr_by H6|].
  all: do 2 eexists; split; [done|]; rewrite ?non_negative_val in *; unfold owned, av, hd, inc in *; lia.
Qed.

Lemma size_limit_val (q : Quantity) : sg_val (quantity_to_position_size q) = nn_val q.
Proof. done. Qed.

(** The position limit in exact arithmetic. *)
Lemma verify_val check asset h held incoming :
  position_exact check h held incoming ->
  representable (av h - sg_val held) -> representable (hd h + sg_val held) ->
  representable (inc h + sg_val incoming) ->
  if position_ok check h held incoming then verify check asset h held incoming = Ok tt
  else exists r, verify check asset h held incoming = Err (rejects_from_reject r) /\
       reject_code r = RC_PositionLimitExceeded.
Proof.
  intros He R1 R2 R3. destruct check as [[|limit eh ei]|]; [|destruct He as (H1 & H2 & H3 & H4 & H5 & H6 & H7 & H8 & H9)|done].
  - cbn. unfold verify_first_step_transition. exact_step; [done|]. exact_step; [done|]. by exact_step.
  - cbn [verify position_ok]. destruct (aggregate_net_val held incoming eh ei H1 H2 H3) as (net & -> & Hn).
    cbn [or_arithmetic map_err mbind result_bind]. rewrite <- Hn in *. dec_norm.
    destruct (Z.eqb_spec (sg_val net) 0) as [|Hz]; [done|]. cbn [orb].
    destruct (projected_position_val asset h eh ei net) as (side & c & -> & Hc); [done..|].
    cbn [mbind result_bind]. dec_norm. rewrite neg_val, !size_limit_val, Hc.
    destruct (0 <? sg_val net).
    + rewrite Z.ltb_antisym. destruct (_ <=? _); cbn; eauto.
    + rewrite Z.ltb_antisym. destruct (_ <=? _); cbn; eauto.
Qed.

(** ** One step of a reservation *)

Definition funds_ok (mode : SpotFundsLimitMode) h held : bool :=
  match mode with Enforce => (sg_val held =? 0) || (sg_val held <=? capacity h) | TrackOnly => true end.

(** The slot operations of the step are exact. *)
Definition step_exact_at h held incoming : Prop :=
  representable (owned h) /\ representable (av h - sg_val held) /\ representable (hd h + sg_val held) /\
  representable (inc h + sg_val incoming).

(** The hold alone. *)
Lemma hold_step_val h held mode asset :
  representable (owned h) -> representable (av h - sg_val held) -> representable (hd h + sg_val held) ->
  let r := if sg_is_zero held then Ok h
           else map_err (fun err => reserve_hold_reject SPOT_FUNDS_POLICY_NAME err asset held)
                  (hold_with_mode h held mode) in
  if funds_ok mode h held then exists h', r = Ok h' /\ moved h h' (- sg_val held) (sg_val held) 0
  else exists r', r = Err (rejects_from_reject r') /\ reject_code r' = RC_InsufficientFunds.
Proof.
  intros H1 H2 H3. cbv zeta. unfold funds_ok. dec_norm. destruct (Z.eqb_spec (sg_val held) 0) as [Hz|Hz].
  - assert (exists h', Ok (E:=Rejects PolicyPreTradeResult) h = Ok h' /\ moved h h' (- sg_val held) (sg_val held) 0).
    { exists h. split; [done|]. unfold moved. rewrite Hz. split_and!; [lia..|done|done]. }
    by destruct mode.
  - destruct mode; cbn [hold_with_mode orb].
    + pose proof (try_hold_spec h held H1 H2 H3) as Ht. destruct (_ <=? _).
      * destruct Ht as (h' & -> & Hm). by exists h'.
      * destruct Ht as (s & -> & Hs). cbn. eauto.
    + destruct (hold_allow_negative_moved h held H2 H3) as (h' & -> & Hm). by exists h'.
Qed.

(** C8: a reservation step in exact arithmetic is accepted exactly when the
    funds limit mode lets the hold pass and the worst-case position stays inside
    the limit; it then moves the held amount from available to held, adds the
    incoming one and touches nothing else, and otherwise it is refused with the
    code of the gate that refused it.  Under [Enforce] a slot that gave funds is
    never left with a negative available balance. *)
Theorem reserve_slot_spec h held incoming mode check asset :
  step_exact_at h held incoming -> position_exact check h held incoming ->
  if funds_ok mode h held && position_ok check h held incoming
  then exists h', reserve_slot asset held incoming mode check h = Ok h' /\
       moved h h' (- sg_val held) (sg_val held) (sg_val incoming) /\
       (mode = Enforce -> sg_val held <> 0 -> 0 <= av h')
  else exists r, reserve_slot asset held incoming mode check h = Err (rejects_from_reject r) /\
       reject_code r = if funds_ok mode h held then RC_PositionLimitExceeded else RC_InsufficientFunds.
Proof.
  intros (H1 & H2 & H3 & H4) Hc. unfold reserve_slot.
  pose proof (hold_step_val h held mode asset H1 H2 H3) as Hh. cbv zeta in Hh.
  destruct (funds_ok mode h held) eqn:Ef; cbn [andb].
  2:{ destruct Hh as (r & -> & Hr). by exists r. }
  destruct Hh as (h1 & -> & Hm). cbn [mbind result_bind].
  destruct (reserve_incoming_moved h1 incoming) as (h2 & -> & Hm2).
  { destruct Hm as (_ & _ & -> & _). by replace (inc h + 0 + sg_val incoming) with (inc h + sg_val incoming) by lia. }
  cbn [mbind result_bind map_err].
  pose proof (verify_val check asset h held incoming Hc H2 H3 H4) as Hv.
  destruct (position_ok check h held incoming).
  - rewrite Hv. cbn. exists h2. pose proof (moved_trans _ _ _ _ _ _ _ _ _ Hm Hm2) as M.
    replace (- sg_val held + 0) with (- sg_val held) in M by lia.
    replace (sg_val held + 0) with (sg_val held) in M by lia. split_and!; [done|done|].
    intros -> Hz. unfold funds_ok, capacity in Ef. destruct M as (Ma & _).
    destruct (Z.eqb_spec (sg_val held) 0); [done|]. destruct (Z.leb_spec (sg_val held) (av h + Z.min (hd h) 0)); [lia|done].
  - destruct Hv as (r & -> & Hr). by exists r.
Qed.

End Gates.
