(* ===== verification/SpotFundsReservationFacts.v ===== *)
(** * SpotFundsReservationFacts: what a reservation does and how it is undone

    The effect of the pre-trade hook on the policy's slots as flows between the
    balances of each slot, its rollback and commit at any later moment, and the
    agreement of the dry run with it. *)
From S2P Require Import Prelude.
From S2P Require Import Decimal.
From S2P Require Import Param.
From S2P Require Import ParamTypes.
From S2P Require Import Identifiers.
From S2P Require Import Mutation.
From S2P Require Import Reject.
From S2P Require Import AccountControl.
From S2P Require Import Accounts.
From S2P Require Import Lock.
From S2P Require Import Policy.
From S2P Require Import Engine.
From S2P Require Import EngineFacts.
From S2P Require Import EngineOps.
From S2P Require Import Storage.
From S2P Require Import Holdings.
From S2P Require Import HoldingsFacts.
From S2P Require Import HoldingsStore.
From S2P Require Import Instruments.
From S2P Require Import MarketData.
From S2P Require Import PnlBounds.
From S2P Require Import SpotFundsSettings.
From S2P Require Import SpotFundsParts.
From S2P Require Import SpotFunds.
From S2P Require Import SpotFundsReservation.
From S2P Require Import SpotFundsFacts.
Open Scope Z_scope.

(** ** Amounts on a common scale *)

Section Grid.
Context (sc : nat).

(** [z] units are a whole number of steps of scale [sc], at most [B] of them. *)
Definition on_grid (B z : Z) : Prop := exists m, z = m * scale_weight sc /\ Z.abs m <= B.

Lemma on_grid_0 B : 0 <= B -> on_grid B 0.
Proof. intros H. exists 0. by split. Qed.

Lemma on_grid_opp B z : on_grid B z -> on_grid B (- z).
Proof. intros (m & -> & H). exists (- m). split; lia. Qed.

Lemma on_grid_add A B x y : on_grid A x -> on_grid B y -> on_grid (A + B) (x + y).
Proof. intros (m & -> & H) (n & -> & H'). exists (m + n). split; lia. Qed.

Lemma on_grid_sub A B x y : on_grid A x -> on_grid B y -> on_grid (A + B) (x - y).
Proof. intros H H'. rewrite <- Z.add_opp_r. by apply on_grid_add, on_grid_opp. Qed.

Lemma on_grid_le A B z : A <= B -> on_grid A z -> on_grid B z.
Proof. intros H (m & -> & H'). exists m. split; lia. Qed.

Lemma on_grid_repr B z : (sc <= DEC_MAX_SCALE)%nat -> B < DEC_COEFF -> on_grid B z -> representable z.
Proof. intros Hs Hb (m & -> & H). exists sc, m. split_and!; [done|lia|done]. Qed.

End Grid.

Create HintDb grid.
#[export] Hint Resolve on_grid_add on_grid_sub on_grid_opp : grid.

(** ** The effect on the slots *)

Section Effects.
Context {D : DecimalOps} {L : DecimalLaws D} {F : DecimalFormat} {G : DecimalDebug} {W : Type}.
Context {O : Owns W SpotFundsState}.
Implicit Types (st : EngineState W) (account : AccountId) (steps : list ReservationStep).

Definition sf_slot st (key : SlotKey) : Holdings := slot_of (sf_holdings (sf_of st)) key.
Definition active_of st account : Z := default 0 (sf_active (sf_of st) !! account).

(** Only the slots and the holdings guards of the policy may differ. *)
Record funds_only st st' : Prop := {
  fo_accounts : es_accounts st' = es_accounts st;
  fo_owner : es_next_owner st' = es_next_owner st;
  fo_start : es_start_now st' = es_start_now st;
  fo_world : es_world st' = own_set (sf_of st') (es_world st);
  fo_settings : sf_settings (sf_of st') = sf_settings (sf_of st);
  fo_pnl : sf_pnl (sf_of st') = sf_pnl (sf_of st);
  fo_leases : sf_leases (sf_of st') = sf_leases (sf_of st)
}.

Lemma funds_only_refl st : funds_only st st.
Proof. split; try done. unfold sf_of. by rewrite own_set_get. Qed.

Lemma funds_only_trans st1 st2 st3 : funds_only st1 st2 -> funds_only st2 st3 -> funds_only st1 st3.
Proof. intros [] []. split; try congruence. by rewrite fo_world1, fo_world0, own_set_set. Qed.

Lemma sf_of_put st s : sf_of (sf_put st s) = s.
Proof. unfold sf_of, sf_put, with_world. cbn. apply own_get_set. Qed.

Lemma sf_of_modify f st : sf_of (sf_modify f st) = f (sf_of st).
Proof. apply sf_of_put. Qed.

Lemma funds_only_modify f st :
  sf_settings (f (sf_of st)) = sf_settings (sf_of st) -> sf_pnl (f (sf_of st)) = sf_pnl (sf_of st) ->
  sf_leases (f (sf_of st)) = sf_leases (sf_of st) -> funds_only st (sf_modify f st).
Proof. intros. split; rewrite ?sf_of_modify; done. Qed.

(** What a list of steps takes from [available] into [held], and its incoming. *)
Definition flow (amount : ReservationStep -> PositionSize) account steps (key : SlotKey) : Z :=
  foldr (fun step acc => (if decide (key = (account, step_asset step)) then sg_val (amount step) else 0) + acc)
    0 steps.
Definition held_flow := flow step_held.
Definition incoming_flow := flow step_incoming.

Lemma flow_app amount account steps1 steps2 key :
  flow amount account (steps1 ++ steps2) key = flow amount account steps1 key + flow amount account steps2 key.
Proof. unfold flow. induction steps1 as [|x steps1 IH]; cbn; [done|]. rewrite IH. lia. Qed.

Definition reserved account steps st st' : Prop := forall key,
  moved (sf_slot st key) (sf_slot st' key)
    (- held_flow account steps key) (held_flow account steps key) (incoming_flow account steps key).
Definition released account steps st st' : Prop := forall key,
  moved (sf_slot st key) (sf_slot st' key)
    (held_flow account steps key) (- held_flow account steps key) (- incoming_flow account steps key).

Lemma moved_refl h : moved h h 0 0 0.
Proof. unfold moved. split_and!; lia || done. Qed.

Lemma moved_equiv_r h h' h'' x y z : moved h h' x y z -> h'' ≡ h' -> moved h h'' x y z.
Proof.
  intros (A & B & C & E & P) (A' & B' & C' & E' & P'). unfold moved. split_and!; congruence.
Qed.

Lemma moved_eq h h' x y z x' y' z' : moved h h' x y z -> x = x' -> y = y' -> z = z' -> moved h h' x' y' z'.
Proof. by intros H -> -> ->. Qed.

Lemma reserved_app account steps1 steps2 st1 st2 st3 :
  reserved account steps1 st1 st2 -> reserved account steps2 st2 st3 ->
  reserved account (steps1 ++ steps2) st1 st3.
Proof.
  intros H1 H2 key. pose proof (moved_trans _ _ _ _ _ _ _ _ _ (H1 key) (H2 key)) as M.
  unfold held_flow, incoming_flow in *. rewrite !flow_app. eapply moved_eq; [exact M|lia..].
Qed.

(** Undoing runs in the reverse order. *)
Lemma released_app account steps1 steps2 st1 st2 st3 :
  released account steps2 st1 st2 -> released account steps1 st2 st3 ->
  released account (steps1 ++ steps2) st1 st3.
Proof.
  intros H1 H2 key. pose proof (moved_trans _ _ _ _ _ _ _ _ _ (H1 key) (H2 key)) as M.
  unfold held_flow, incoming_flow in *. rewrite !flow_app. eapply moved_eq; [exact M|lia..].
Qed.

(** ** Holdings guards *)

Definition guards_fit st account (n : Z) : Prop := 0 <= active_of st account /\ active_of st account + n <= USIZE_MAX.

Lemma begin_guard st account : 0 <= active_of st account < USIZE_MAX ->
  let st' := sf_modify (fun x => begin_holdings_mutation x account) st in
  funds_only st st' /\ sf_holdings (sf_of st') = sf_holdings (sf_of st) /\
  forall a, active_of st' a = active_of st a + (if decide (a = account) then 1 else 0).
Proof.
  intros Ha. cbv zeta. split_and!; [by apply funds_only_modify|by rewrite sf_of_modify|].
  intros a. unfold active_of in *. rewrite sf_of_modify.
  unfold begin_holdings_mutation, with_mut, with_mut_phased, with_mut_fast, with_mut_slow, saturating_add.
  destruct (sf_active (sf_of st) !! account) as [n|] eqn:E; cbn in *; (case_decide as Hd;
    [subst; rewrite lookup_insert_eq, ?E; cbn; lia|by rewrite lookup_insert_ne, Z.add_0_r by done]).
Qed.

Lemma end_guard st account : 0 < active_of st account ->
  let st' := drop_holdings_guard account st in
  funds_only st st' /\ sf_holdings (sf_of st') = sf_holdings (sf_of st) /\
  forall a, active_of st' a = active_of st a - (if decide (a = account) then 1 else 0).
Proof.
  intros Ha. cbv zeta. unfold drop_holdings_guard.
  split_and!; [by apply funds_only_modify|by rewrite sf_of_modify|].
  intros a. unfold active_of in *. rewrite sf_of_modify.
  unfold end_holdings_mutation, with_mut_if_present, storage_remove_if, saturating_sub.
  destruct (sf_active (sf_of st) !! account) as [n|] eqn:E; cbn in *; [|lia].
  rewrite lookup_insert_eq. destruct (Z.eqb_spec (Z.max (n - 1) 0) 0); cbn; (case_decide as Hd; [subst|]);
    rewrite ?lookup_delete_eq, ?lookup_delete_ne, ?lookup_insert_eq, ?lookup_insert_ne, ?E by done; cbn; lia || done.
Qed.


(** Putting a store back into the policy's state. *)
Lemma put_store st store :
  let st' := sf_modify (fun x => set_holdings x store) st in
  funds_only st st' /\ sf_holdings (sf_of st') = store /\ forall a, active_of st' a = active_of st a.
Proof.
  cbv zeta. split_and!; [by apply funds_only_modify|by rewrite sf_of_modify|].
  intros a. unfold active_of. by rewrite sf_of_modify.
Qed.

(** The mutation a step pushes. *)
Definition step_mutation account (step : ReservationStep) : Mutation (EngineState W) :=
  hold_mutation (account, step_asset step) (step_held step) (step_incoming step).

(** A commit keeps the slots and lets the guards go. *)
Lemma commit_steps_effect account o steps st :
  Z.of_nat (length steps) <= active_of st account ->
  exists st', commit_all (mkMutations (map (step_mutation account) steps) o) st = (failure_default, st') /\
    sf_holdings (sf_of st') = sf_holdings (sf_of st) /\ funds_only st st' /\
    forall a, active_of st' a = active_of st a - (if decide (a = account) then Z.of_nat (length steps) else 0).
Proof.
  unfold commit_all. cbn [ms_mutations]. revert st. induction steps as [|step steps IH]; intros st Ha; cbn [length] in *.
  { exists st. split_and!; [done|done|apply funds_only_refl|intros a; case_decide; cbn; lia]. }
  destruct (end_guard st account) as (F1 & S1 & A1); [lia|].
  destruct (IH (drop_holdings_guard account st)) as (st2 & E2 & S2 & F2 & A2).
  { rewrite A1, decide_True by done. lia. }
  exists st2. split_and!; [exact E2|congruence|by eapply funds_only_trans|].
  intros a. rewrite A2, A1. case_decide; lia.
Qed.

(** What a step answers and which slot it reads: the dry run's answer on the same
    store; other slots are as they were. *)
Lemma reserve_asset_answer account step mode check outcome ms st :
  let '(r, _, st') := reserve_asset account step mode check outcome ms st in
  r = snd <$> reserve_asset_dry_run (sf_holdings (sf_of st)) account step mode check None outcome /\
  forall key, key <> (account, step_asset step) -> sf_slot st' key = sf_slot st key.
Proof.
  destruct step as [asset held incoming]. unfold reserve_asset, reserve_asset_dry_run. cbn [step_asset].
  destruct (_ && _); [done|]. set (st1 := sf_modify _ st).
  assert (S1 : sf_holdings (sf_of st1) = sf_holdings (sf_of st)) by (unfold st1; by rewrite sf_of_modify).
  pose proof (mutate_slot_slots (sf_holdings (sf_of st1)) (account, asset) (fun slot =>
        (fun new => (tt, new)) <$> reserve_slot asset held incoming mode check slot)) as Hm.
  destruct (mutate_slot _ _ _) as [r0 store]. destruct Hm as (-> & Hne & Hk). rewrite S1 in *.
  fold (slot_of (sf_holdings (sf_of st)) (account, asset)).
  destruct (reserve_slot _ _ _ _ _ _) as [new|e]; cbn; (split; [done|]; intros key Hn);
    unfold sf_slot, drop_holdings_guard; rewrite !sf_of_modify; by apply Hne.
Qed.

(** The slot a step works on, when it does not leave it all zero. *)
Lemma reserve_asset_kept account step mode check outcome ms st after o :
  reserve_asset_dry_run (sf_holdings (sf_of st)) account step mode check None outcome = Ok (after, o) ->
  (forall new, after = Some new -> holdings_is_zero new = false) ->
  let st' := (reserve_asset account step mode check outcome ms st).2 in
  sf_slot st' (account, step_asset step) = default (sf_slot st (account, step_asset step)) after.
Proof.
  destruct step as [asset held incoming]. unfold reserve_asset, reserve_asset_dry_run. cbn [step_asset].
  destruct (_ && _); [by intros [= <- <-] _|]. set (st1 := sf_modify _ st).
  assert (S1 : sf_holdings (sf_of st1) = sf_holdings (sf_of st)) by (unfold st1; by rewrite sf_of_modify).
  rewrite S1. fold (slot_of (sf_holdings (sf_of st)) (account, asset)).
  set (f := fun slot => (fun new => (tt, new)) <$> reserve_slot asset held incoming mode check slot).
  destruct (reserve_slot asset held incoming mode check (slot_of _ _)) as [new|e] eqn:Er; [|done].
  cbn [mbind result_bind]. intros Hok Hz. injection Hok as <- <-. specialize (Hz new eq_refl).
  assert (Hf : f (slot_of (sf_holdings (sf_of st)) (account, asset)) = Ok (tt, new)) by (unfold f; by rewrite Er).
  pose proof (mutate_slot_kept _ _ f tt new Hf Hz) as Hk.
  pose proof (mutate_slot_slots (sf_holdings (sf_of st)) (account, asset) f) as Hm.
  destruct (mutate_slot _ _ f) as [r store]. destruct Hm as (-> & _). rewrite Hf. cbn in Hk |- *.
  unfold sf_slot. by rewrite sf_of_modify.
Qed.

(** The second step on the slot the first one left is the dry run on its copy. *)
Lemma dry_run_on_slot (store store' : HoldingsStore) account step mode check (current : option Holdings) outcome :
  slot_of store' (account, step_asset step) = default (slot_of store (account, step_asset step)) current ->
  snd <$> reserve_asset_dry_run store' account step mode check None outcome =
  snd <$> reserve_asset_dry_run store account step mode check current outcome.
Proof.
  destruct step as [asset held incoming]. cbn [step_asset]. unfold reserve_asset_dry_run, slot_of. intros Hs.
  destruct (_ && _); [done|]. rewrite Hs. by destruct current.
Qed.

(** ** One step *)

Context (sc : nat) (Hsc : (sc <= DEC_MAX_SCALE)%nat).

Definition slot_grid (B : Z) (h : Holdings) : Prop :=
  on_grid sc B (av h) /\ on_grid sc B (hd h) /\ on_grid sc B (inc h).
Definition step_grid (C : Z) (step : ReservationStep) : Prop :=
  on_grid sc C (sg_val (step_held step)) /\ on_grid sc C (sg_val (step_incoming step)).

Lemma slot_grid_moved B C h h' x y z :
  slot_grid B h -> moved h h' x y z -> on_grid sc C x -> on_grid sc C y -> on_grid sc C z -> slot_grid (B + C) h'.
Proof.
  intros (H1 & H2 & H3) (A1 & A2 & A3 & _) Hx Hy Hz. unfold slot_grid. rewrite A1, A2, A3. auto with grid.
Qed.

Lemma reserve_slot_moved asset held incoming mode check h h' :
  representable (av h - sg_val held) -> representable (hd h + sg_val held) ->
  representable (inc h + sg_val incoming) ->
  reserve_slot asset held incoming mode check h = Ok h' ->
  moved h h' (- sg_val held) (sg_val held) (sg_val incoming).
Proof.
  intros H1 H2 H3 Hr. unfold reserve_slot in Hr.
  assert (Hh : forall h1, (if sg_is_zero held then Ok h
     else map_err (fun err => reserve_hold_reject SPOT_FUNDS_POLICY_NAME err asset held)
            (hold_with_mode h held mode)) = Ok h1 -> moved h h1 (- sg_val held) (sg_val held) 0).
  { intros h1. dec_norm. destruct (Z.eqb_spec (sg_val held) 0) as [Hz|Hz].
    - intros [= <-]. eapply moved_eq; [apply moved_refl|lia..].
    - intros Ho%map_err_Ok. destruct (hold_allow_negative_moved h held H1 H2) as (h2 & E & Hm).
      replace h1 with h2; [done|]. destruct mode; cbn in Ho; [|congruence].
      unfold try_hold in Ho. apply result_bind_Ok in Ho as (s & _ & Ho).
      destruct (sg_gtb held s); [done|]. unfold hold_allow_negative in E. congruence. }
  apply result_bind_Ok in Hr as (h1 & Hh1 & Hr). specialize (Hh h1 Hh1).
  apply result_bind_Ok in Hr as (h2 & Hi%map_err_Ok & Hr).
  apply result_bind_Ok in Hr as (_ & _ & [= <-]).
  destruct (reserve_incoming_moved h1 incoming) as (h3 & E & Hm).
  { destruct Hh as (_ & _ & -> & _). by replace (inc h + 0 + sg_val incoming) with (inc h + sg_val incoming) by lia. }
  replace h2 with h3 by congruence.
  eapply moved_eq; [exact (moved_trans _ _ _ _ _ _ _ _ _ Hh Hm)|lia..].
Qed.

(** What a run of the reservation leaves: the steps [done] have been made, each
    with its mutation and its guard. *)
Definition reserve_effect account (ms ms' : Mutations (EngineState W)) steps st st' : Prop :=
  ms_mutations ms' = ms_mutations ms ++ map (step_mutation account) steps /\
  ms_owner_id ms' = ms_owner_id ms /\ reserved account steps st st' /\ funds_only st st' /\
  forall a, active_of st' a = active_of st a + (if decide (a = account) then Z.of_nat (length steps) else 0).

Lemma reserve_effect_refl account ms st : reserve_effect account ms ms [] st st.
Proof.
  split_and!; [by rewrite app_nil_r|done| |apply funds_only_refl|].
  - intros key. apply moved_refl.
  - intros a. case_decide; cbn; lia.
Qed.

Lemma reserve_effect_app account ms1 ms2 ms3 steps1 steps2 st1 st2 st3 :
  reserve_effect account ms1 ms2 steps1 st1 st2 -> reserve_effect account ms2 ms3 steps2 st2 st3 ->
  reserve_effect account ms1 ms3 (steps1 ++ steps2) st1 st3.
Proof.
  intros (M1 & O1 & R1 & F1 & A1) (M2 & O2 & R2 & F2 & A2).
  split_and!; [by rewrite M2, M1, map_app, app_assoc|congruence| | |].
  - eauto using reserved_app.
  - eauto using funds_only_trans.
  - intros a. rewrite A2, A1, length_app. case_decide; lia.
Qed.

Lemma reserve_asset_effect account step mode check outcome ms st r ms' st' B C :
  reserve_asset account step mode check outcome ms st = (r, ms', st') ->
  slot_grid B (sf_slot st (account, step_asset step)) -> step_grid C step -> B + C < DEC_COEFF ->
  0 <= active_of st account < USIZE_MAX ->
  reserve_effect account ms ms' (if is_ok r then List.filter touches [step] else []) st st'.
Proof.
  destruct step as [asset held incoming]. cbn [step_asset step_held step_incoming]. unfold reserve_asset.
  cbn [List.filter]. unfold touches. cbn [step_held step_incoming]. rewrite <- negb_andb.
  destruct (_ && _).
  { intros [= <- <- <-] _ _ _ _. apply reserve_effect_refl. }
  cbn [negb].
  intros E (G1 & G2 & G3) (C1 & C2) HB Ha. cbn in C1, C2.
  destruct (begin_guard st account Ha) as (F1 & S1 & A1). set (st1 := sf_modify _ st) in *.
  pose proof (mutate_slot_slots (sf_holdings (sf_of st1)) (account, asset) (fun slot =>
        (fun new => (tt, new)) <$> reserve_slot asset held incoming mode check slot)) as Hm.
  destruct (mutate_slot _ _ _) as [r0 store]. destruct Hm as (-> & Hne & Hk).
  rewrite S1 in *. change (slot_of (sf_holdings (sf_of st)) (account, asset)) with (sf_slot st (account, asset)) in *.
  destruct (put_store st1 store) as (F2 & S2 & A2). set (st2 := sf_modify _ st1) in *.
  destruct (reserve_slot asset held incoming mode check (sf_slot st (account, asset))) as [new|e] eqn:Er;
    cbn in Hk, E; injection E as <- <- <-.
  - split_and!; [done|done| |by eauto using funds_only_trans|].
    + pose proof (reserve_slot_moved asset held incoming mode check (sf_slot st (account, asset)) new) as Hmv.
      intros key. unfold held_flow, incoming_flow, flow. cbn. unfold sf_slot at 2. rewrite S2.
      destruct (decide (key = (account, asset))) as [->|Hn].
      * eapply moved_equiv_r; [|exact Hk]. eapply moved_eq; [apply Hmv; [..|done]|lia..];
          eapply on_grid_repr; eauto with grid.
      * rewrite (Hne key Hn). eapply moved_eq; [apply moved_refl|lia..].
    + intros a. rewrite A2, A1. by case_decide.
  - destruct (end_guard st2 account) as (F3 & S3 & A3).
    { rewrite A2, A1, decide_True by done. lia. }
    split_and!; [by rewrite app_nil_r|done| |by eauto using funds_only_trans|].
    + intros key. unfold held_flow, incoming_flow, flow, sf_slot. cbn. rewrite S3, S2.
      replace (slot_of store key) with (slot_of (sf_holdings (sf_of st)) key); [apply moved_refl|].
      destruct (decide (key = (account, asset))) as [->|Hn]; [by rewrite Hk|by rewrite Hne].
    + intros a. rewrite A3, A2, A1. case_decide; cbn; lia.
Qed.

(** The two steps: the first reject ends them. *)
Lemma reserve_steps_effect request legs s1 s2 mode checks ms st r ms' st' B C :
  reserve_steps request legs (s1, s2) (mode, checks) ms st = (r, ms', st') ->
  (forall key, slot_grid B (sf_slot st key)) -> step_grid C s1 -> step_grid C s2 -> 0 <= C -> B + 2 * C < DEC_COEFF ->
  0 <= active_of st (rq_account_id request) -> active_of st (rq_account_id request) + 2 <= USIZE_MAX ->
  exists steps, reserve_effect (rq_account_id request) ms ms' steps st st' /\
    (if is_ok r then steps = List.filter touches [s1; s2]
     else steps = [] \/ steps = List.filter touches [s1]).
Proof.
  intros E Hg Hs1 Hs2 HC HB Ha Ha2. unfold reserve_steps in E. destruct checks as [check0 check1]. cbn [fst snd] in E.
  destruct (reserve_asset _ s1 mode check0 outcome_empty ms st) as [[r1 ms1] st1] eqn:E1.
  pose proof (reserve_asset_effect _ _ _ _ _ _ _ _ _ _ B C E1 (Hg _) Hs1 ltac:(lia) ltac:(lia)) as H1.
  destruct r1 as [outcome|e]; cbn [is_ok] in H1.
  2:{ injection E as <- <- <-. exists []. split; [done|by left]. }
  destruct (reserve_asset _ s2 mode check1 outcome ms1 st1) as [[r2 ms2] st2] eqn:E2.
  injection E as <- <- <-.
  assert (H2 : reserve_effect (rq_account_id request) ms1 ms2 (if is_ok r2 then List.filter touches [s2] else []) st1 st2).
  { eapply (reserve_asset_effect _ _ _ _ _ _ _ _ _ _ (B + C) C E2); [|done|lia|].
    - destruct H1 as (_ & _ & R1 & _). eapply slot_grid_moved; [apply Hg|apply R1|..]; unfold held_flow, incoming_flow, flow; cbn;
        destruct (touches s1), Hs1; cbn; try case_decide; try apply on_grid_opp; rewrite ?Z.add_0_r; try done; by apply on_grid_0.
    - destruct H1 as (_ & _ & _ & _ & ->). rewrite decide_True by done. cbn. destruct (touches s1); cbn; lia. }
  pose proof (reserve_effect_app _ _ _ _ _ _ _ _ _ H1 H2) as H. destruct r2 as [o2|e2]; cbn [is_ok fmap result_fmap] in *.
  - exists (List.filter touches [s1; s2]). split; [|done]. cbn in H |- *. by destruct (touches s1), (touches s2).
  - exists (List.filter touches [s1]). rewrite app_nil_r in H. split; [done|by right].
Qed.

(** ** Rollback and commit *)

Lemma hold_rollback_effect account step st B C :
  slot_grid B (sf_slot st (account, step_asset step)) -> step_grid C step -> B + C < DEC_COEFF ->
  let st' := hold_rollback (account, step_asset step) (step_held step) (step_incoming step) st in
  released account [step] st st' /\ funds_only st st' /\ forall a, active_of st' a = active_of st a.
Proof.
  destruct step as [asset held incoming]. cbn [step_asset step_held step_incoming].
  intros (G1 & G2 & G3) (C1 & C2) HB. cbn in C1, C2. cbv zeta. unfold hold_rollback, rollback_slot.
  set (f := fun (slot : Holdings) (_ : bool) => _).
  pose proof (store_with_mut_slots (sf_holdings (sf_of st)) (account, asset) f (fun h => eq_refl)) as Hm.
  destruct (store_with_mut _ _ _ f) as [[became_zero overflowed] store]. destruct Hm as [Ho Hne].
  change (slot_of (sf_holdings (sf_of st)) (account, asset)) with (sf_slot st (account, asset)) in Ho.
  destruct (delta_rollback_moved (sf_slot st (account, asset)) (neg held) held incoming) as (h' & Eh & Hmv).
  { rewrite neg_val. eapply on_grid_repr; eauto with grid. }
  { eapply on_grid_repr; eauto with grid. }
  { eapply on_grid_repr; eauto with grid. }
  unfold f in Ho. rewrite Eh in Ho. injection Ho as -> -> Hk.
  destruct (put_store st store) as (F2 & S2 & A2). set (st2 := sf_modify _ st) in *.
  assert (Hr : forall st3, (forall key, sf_slot st3 key ≡ slot_of store key) ->
     released account [mkStep asset held incoming] st st3).
  { intros st3 Hst key. eapply moved_equiv_r; [|apply Hst].
    unfold held_flow, incoming_flow, flow. cbn. destruct (decide (key = (account, asset))) as [->|Hn].
    - rewrite Hk. eapply moved_eq; [exact Hmv|rewrite ?neg_val; lia..].
    - rewrite (Hne key Hn). eapply moved_eq; [apply moved_refl|lia..]. }
  destruct (holdings_is_zero h').
  - destruct (put_store st2 (store_remove_if_zero (sf_holdings (sf_of st2)) (account, asset)).2) as (F3 & S3 & A3).
    change (sf_modify _ st2) with
      (sf_modify (fun x => set_holdings x (store_remove_if_zero (sf_holdings (sf_of st2)) (account, asset)).2) st2).
    split_and!; [apply Hr|by eauto using funds_only_trans|intros a; by rewrite A3, A2].
    intros key. unfold sf_slot. rewrite S3, S2. apply remove_if_zero_slots.
  - split_and!; [apply Hr; intros key; unfold sf_slot; by rewrite S2|done|done].
Qed.

(** One mutation rolled back, its guard dropped. *)
Lemma step_rollback_effect account step st B C :
  slot_grid B (sf_slot st (account, step_asset step)) -> step_grid C step -> B + C < DEC_COEFF ->
  0 < active_of st account ->
  exists st', mutation_rollback (step_mutation account step) st = (rollback_default, st') /\
    released account [step] st st' /\ funds_only st st' /\
    forall a, active_of st' a = active_of st a - (if decide (a = account) then 1 else 0).
Proof.
  intros Hg Hs HB Ha. destruct (hold_rollback_effect account step st B C Hg Hs HB) as (R & F1 & A1).
  unfold mutation_rollback, step_mutation, hold_mutation. cbn.
  set (st1 := hold_rollback _ _ _ st) in *. destruct (end_guard st1 account) as (F2 & S2 & A2); [by rewrite A1|].
  eexists. split_and!; [done| |by eauto using funds_only_trans|intros a; by rewrite A2, A1].
  intros key. unfold sf_slot. rewrite S2. apply R.
Qed.

Lemma flow_grid amount account steps key C : Forall (fun step => on_grid sc C (sg_val (amount step))) steps ->
  0 <= C -> on_grid sc (Z.of_nat (length steps) * C) (flow amount account steps key).
Proof.
  intros Hs HC. induction Hs as [|step steps Hx _ IH]; cbn [flow foldr length]; [apply on_grid_0; lia|].
  fold (flow amount account steps key).
  replace (Z.of_nat (S (length steps)) * C) with (C + Z.of_nat (length steps) * C) by lia.
  apply on_grid_add; [|done]. case_decide; [done|by apply on_grid_0].
Qed.

Lemma rollback_steps_effect account o steps st B C : 0 <= C ->
  Forall (step_grid C) steps ->
  (forall key, slot_grid B (sf_slot st key)) -> B + Z.of_nat (length steps) * C < DEC_COEFF ->
  Z.of_nat (length steps) <= active_of st account ->
  exists st', rollback_all (mkMutations (map (step_mutation account) steps) o) st = (rollback_default, st') /\
    released account steps st st' /\ funds_only st st' /\
    forall a, active_of st' a = active_of st a - (if decide (a = account) then Z.of_nat (length steps) else 0).
Proof.
  intros HC. revert st B. induction steps as [|step steps IH] using rev_ind; intros st B Hs Hg HB Ha.
  { exists st. split_and!; [done| |apply funds_only_refl|intros a; case_decide; cbn; lia].
    intros key. apply moved_refl. }
  apply Forall_app in Hs as [Hs Hx]. rewrite Forall_singleton in Hx. rewrite length_app in *. cbn [length] in *.
  destruct (step_rollback_effect account step st B C) as (st1 & E1 & R1 & F1 & A1); [apply Hg|done|lia|lia|].
  destruct (IH st1 (B + C)) as (st2 & E2 & R2 & F2 & A2); [done| |lia|rewrite A1, decide_True by done; lia|].
  { intros key. eapply slot_grid_moved; [apply Hg|apply R1|..]; unfold held_flow, incoming_flow, flow; cbn;
      destruct Hx; case_decide; repeat first [apply on_grid_opp]; rewrite ?Z.add_0_r; try done; by apply on_grid_0. }
  exists st2. split_and!; [|by eapply released_app|by eapply funds_only_trans|].
  - rewrite map_app. change (mkMutations _ o) with
      (mutations_push (mkMutations (map (step_mutation account) steps) o) (step_mutation account step)).
    rewrite rollback_all_push, E1, E2. done.
  - intros a. rewrite A2, A1. case_decide; lia.
Qed.

End Effects.

(** ** The hook *)

Section Hook.
Context {D : DecimalOps} {L : DecimalLaws D} {F : DecimalFormat} {G : DecimalDebug} {W Order : Type}.
Context {HI : HasInstrument Order} {HS : HasSide Order} {HA : HasTradeAmount Order} {HP : HasOrderPrice Order}.
Context {O : Owns W SpotFundsState} {M : MarketDataSource W}.
Context (sc : nat) (Hsc : (sc <= DEC_MAX_SCALE)%nat).
Implicit Types (self : SpotFundsPolicy) (ctx : PreTradeContext) (s : HookState W).

Definition legs_grid (C : Z) (legs : ReservationLegs) : Prop :=
  on_grid sc C (sg_val (legs_underlying legs)) /\ on_grid sc C (sg_val (legs_settlement legs)) /\
  on_grid sc C (sg_val (legs_base_incoming legs)) /\ on_grid sc C (sg_val (legs_settlement_incoming legs)).

Lemma reservation_steps_grid C legs underlying settlement side : legs_grid C legs ->
  step_grid sc C (reservation_steps legs underlying settlement side).1 /\
  step_grid sc C (reservation_steps legs underlying settlement side).2.
Proof. intros (H1 & H2 & H3 & H4). by destruct side. Qed.

(** The legs and the steps the hook works on. *)
Definition legs_of self ctx (order : Order) s (request : OrderRequestView) (legs : ReservationLegs) : Prop :=
  read_order_request ctx order = Ok request /\
  compute_reservation_legs self request (state_account_group ctx s) ctx (sf_settings (sf_of s.2)) (es_world s.2) =
    Ok legs.
Definition steps_of (request : OrderRequestView) (legs : ReservationLegs) : list ReservationStep :=
  let steps := reservation_steps legs (underlying_asset (rq_instrument request))
                 (settlement_asset (rq_instrument request)) (rq_side request) in
  List.filter touches [steps.1; steps.2].

Definition deferred_only ctx s s' : Prop :=
  s'.2 = s.2 /\ cc_start_mutations s'.1 = cc_start_mutations s.1 /\ deferring ctx s'.

(** The hook either stops before it touches the engine's state or comes to the two
    steps, having at most deferred a block. *)
Lemma hook_cases self ctx (order : Order) (ms : Mutations (EngineState W)) s r ms' s' : deferring ctx s ->
  perform_pre_trade_check_impl self ctx order ms s = (r, ms', s') ->
  (is_ok r = false /\ ms' = ms /\ deferred_only ctx s s') \/
  (exists request legs steps mode checks st', legs_of self ctx order s request legs /\
     steps = reservation_steps legs (underlying_asset (rq_instrument request))
               (settlement_asset (rq_instrument request)) (rq_side request) /\
     reserve_steps request legs steps (mode, checks) ms s.2 = (r, ms', st') /\ s'.2 = st' /\
     deferred_only ctx s (s'.1, s.2)).
Proof.
  intros Hd. unfold perform_pre_trade_check_impl, perform_pre_trade_request_impl, legs_of.
  assert (Hrefl : deferred_only ctx s s) by by split_and!.
  destruct (read_order_request ctx order) as [request|rejects]; [|intros [= <- <- <-]; by left].
  destruct (is_drop_copy ctx && is_none (rq_price request)); [intros [= <- <- <-]; by left|].
  set (halted := if is_drop_copy ctx then _ else _).
  assert (Hq : forall s1, halted = Ok s1 -> deferred_only ctx s s1).
  { intros s1. unfold halted. destruct (is_drop_copy ctx) eqn:Edc; [|by destruct (reject_halted_account_pnl _ _ _ _ _ _); intros [= <-]].
    intros [= <-]. destruct (reject_halted_account_pnl _ _ _ _ _ _) as [|rejects]; [done|].
    destruct (List.find _ _) as [reject|]; [|done].
    pose proof (record_reject_block_quiet ctx (Some (account_block_with_code reject RC_AccountBlocked)) s Hd) as Hr.
    unfold record_reject_block in Hr. rewrite Edc in Hr. exact Hr. }
  destruct halted as [s1|rejects]; [|intros [= <- <- <-]; by left].
  destruct (Hq s1 eq_refl) as (E1 & E2 & E3). rewrite E1.
  destruct (compute_reservation_legs _ _ _ _ _ _) as [legs|reject] eqn:El; [|intros [= <- <- <-]; left; by split_and!].
  destruct (reservation_controls _ _ _ _ _) as [mode checks] eqn:Ec.
  destruct (reserve_steps _ _ _ _ _ _) as [[r1 ms1] st1] eqn:Er. intros [= <- <- <-]. right.
  exists request, legs. do 4 eexists. split_and!; first [exact Er|done].
Qed.

Lemma steps_of_grid C request legs : legs_grid C legs ->
  Forall (step_grid sc C) (steps_of request legs) /\ (length (steps_of request legs) <= 2)%nat.
Proof.
  intros Hl. destruct (reservation_steps_grid C legs (underlying_asset (rq_instrument request))
    (settlement_asset (rq_instrument request)) (rq_side request) Hl) as [H1 H2].
  unfold steps_of. cbn. destruct (touches _), (touches _); cbn; split; auto with lia.
Qed.

(** The mutations the hook pushed, given any later state to finalize in. *)
Definition finalizes account (steps : list ReservationStep) (new : list (Mutation (EngineState W))) (C : Z) : Prop :=
  forall o B st, (forall key, slot_grid sc B (sf_slot st key)) -> B + 2 * C < DEC_COEFF ->
  Z.of_nat (length steps) <= active_of st account ->
  (exists st', rollback_all (mkMutations new o) st = (rollback_default, st') /\
     released account steps st st' /\ funds_only st st') /\
  (exists st', commit_all (mkMutations new o) st = (failure_default, st') /\
     (forall key, sf_slot st' key = sf_slot st key) /\ funds_only st st').

Lemma steps_finalize account steps C : 0 <= C -> Forall (step_grid sc C) steps -> (length steps <= 2)%nat ->
  finalizes account steps (map (step_mutation account) steps) C.
Proof.
  intros HC Hs Hl o B st Hg HB Ha. split.
  - destruct (rollback_steps_effect sc Hsc account o steps st B C) as (st' & E & R & Fo & _); [done..|nia|done|].
    by exists st'.
  - destruct (commit_steps_effect account o steps st Ha) as (st' & E & S & Fo & _).
    exists st'. split_and!; [done| |done]. intros key. unfold sf_slot. by rewrite S.
Qed.

(** What the hook leaves behind. *)
Definition reservation_outcome self ctx (order : Order) ms s (r : result (Rejects PolicyPreTradeResult) (option PolicyPreTradeResult))
    (ms' : Mutations (EngineState W)) s' (C : Z) : Prop :=
  exists account steps new,
    ms_mutations ms' = ms_mutations ms ++ new /\
    reserved account steps s.2 s'.2 /\ funds_only s.2 s'.2 /\ finalizes account steps new C /\
    (forall a, active_of s'.2 a = active_of s.2 a + (if decide (a = account) then Z.of_nat (length steps) else 0)) /\
    match r with
    | Ok _ => exists request legs, legs_of self ctx order s request legs /\
                account = rq_account_id request /\ steps = steps_of request legs
    | Err _ => (length steps <= 1)%nat
    end /\
    Forall (step_grid sc C) steps.

Lemma hook_effect self ctx (order : Order) ms s r ms' s' B C :
  deferring ctx s -> perform_pre_trade_check_impl self ctx order ms s = (r, ms', s') ->
  (forall key, slot_grid sc B (sf_slot s.2 key)) ->
  (forall request legs, legs_of self ctx order s request legs -> legs_grid C legs) ->
  (forall account, 0 <= active_of s.2 account /\ active_of s.2 account + 2 <= USIZE_MAX) ->
  0 <= C -> B + 2 * C < DEC_COEFF -> reservation_outcome self ctx order ms s r ms' s' C.
Proof.
  unfold reservation_outcome. intros Hd E Hg Hl Ha HC HB.
  destruct (hook_cases self ctx order ms s r ms' s' Hd E) as
    [(Hr & -> & E1 & _)|(request & legs & steps & mode & checks & st' & Hlegs & Hsteps & Er & Es & _)].
  - rewrite E1. destruct r; [done|]. exists (mkAccountId 0), [], []. split_and!.
    + by rewrite app_nil_r.
    + intros key. apply moved_refl.
    + apply funds_only_refl.
    + apply (steps_finalize (mkAccountId 0) [] C HC); [done|cbn; lia].
    + intros a. case_decide; cbn; lia.
    + cbn. lia.
    + done.
  - destruct (steps_of_grid C request legs (Hl _ _ Hlegs)) as [Hf Hlen].
    destruct steps as [s1 s2]. rewrite Es.
    assert (Hsg : step_grid sc C s1 /\ step_grid sc C s2).
    { change s1 with (s1, s2).1 at 1. change s2 with (s1, s2).2 at 2. rewrite Hsteps.
      apply reservation_steps_grid; eauto. }
    destruct (reserve_steps_effect sc Hsc request legs s1 s2 mode checks ms s.2 r ms' st' B C) as (made & He & Hmade);
      [done|done|apply Hsg|apply Hsg|done|done|apply Ha|apply Ha|].
    destruct He as (Hms & _ & Hres & Hfo & Hac).
    assert (Hdf : Forall (step_grid sc C) made /\ (length made <= 2)%nat).
    { destruct (is_ok r); [|destruct Hmade as [->| ->]]; try subst made;
        cbn; destruct (touches s1), (touches s2), Hsg; cbn; auto with lia. }
    exists (rq_account_id request), made, (map (step_mutation (rq_account_id request)) made).
    split_and!; [done|done|done|apply steps_finalize; [done|apply Hdf..]|done| |apply Hdf].
    destruct r as [outcome|e]; cbn [is_ok] in Hmade.
    + exists request, legs. split_and!; [done..|]. unfold steps_of. by rewrite <- Hsteps.
    + destruct Hmade as [->| ->]; cbn; [lia|]. destruct (touches s1); cbn; lia.
Qed.

(** Two steps keep the slots on the grid. *)
Lemma reserved_slots_grid account steps st st' B C : reserved account steps st st' ->
  Forall (step_grid sc C) steps -> (length steps <= 2)%nat -> 0 <= C ->
  (forall key, slot_grid sc B (sf_slot st key)) -> forall key, slot_grid sc (B + 2 * C) (sf_slot st' key).
Proof.
  intros Hres Hsg Hlen HC Hg key.
  assert (Hflow : forall amount, (forall step, step_grid sc C step -> on_grid sc C (sg_val (amount step))) ->
    on_grid sc (2 * C) (flow amount account steps key)).
  { intros amount Ha. eapply on_grid_le; [|apply (flow_grid sc Hsc _ _ _ _ C); [|done]]; [nia|].
    eapply Forall_impl; [exact Hsg|exact Ha]. }
  eapply (slot_grid_moved sc); [apply Hg|apply Hres|apply on_grid_opp, Hflow|apply Hflow|apply Hflow]; by intros ? [].
Qed.

(** C7: a reservation is a flow and its mutations are the inverse flow.  On a
    common scale where nothing rounds, the pre-trade hook changes the slots of the
    order's account by the steps it made - each moves its held amount from available
    to held and adds its incoming amount - and nothing else in the engine's state;
    an accepted order made every step its legs call for, a rejected one at most the
    first.  The mutations it pushed, rolled back in any later state, whatever other
    orders and reports did to the slots meanwhile, take exactly that flow out again,
    and committed they leave the slots alone; neither fails.  Rolled back at once they
    leave slots equal to those before the order. *)
Theorem reservation_reverts self ctx (order : Order) ms s r ms' s' B C :
  deferring ctx s -> perform_pre_trade_check_impl self ctx order ms s = (r, ms', s') ->
  (forall key, slot_grid sc B (sf_slot s.2 key)) ->
  (forall request legs, legs_of self ctx order s request legs -> legs_grid C legs) ->
  (forall account, 0 <= active_of s.2 account /\ active_of s.2 account + 2 <= USIZE_MAX) ->
  0 <= C -> B + 4 * C < DEC_COEFF ->
  reservation_outcome self ctx order ms s r ms' s' C /\
  forall new o, ms_mutations ms' = ms_mutations ms ++ new ->
    exists st', rollback_all (mkMutations new o) s'.2 = (rollback_default, st') /\
      funds_only s.2 st' /\ forall key, sf_slot st' key ≡ sf_slot s.2 key.
Proof.
  intros Hd E Hg Hl Ha HC HB. assert (H : reservation_outcome self ctx order ms s r ms' s' C).
  { eapply hook_effect; try done. lia. }
  split; [exact H|]. intros new o Hn.
  destruct H as (account & steps & new' & Hn' & Hres & Hfo & Hfin & Hac & Hr & Hsg).
  assert (new' = new) as -> by (rewrite Hn' in Hn; by apply app_inv_head in Hn).
  assert (Hlen : (length steps <= 2)%nat).
  { destruct r; [|lia]. destruct Hr as (request & legs & Hlegs & _ & ->). exact (proj2 (steps_of_grid C request legs (Hl _ _ Hlegs))). }
  pose proof (reserved_slots_grid account steps s.2 s'.2 B C Hres Hsg Hlen HC Hg) as Hg'.
  destruct (Hfin o (B + 2 * C) s'.2 Hg') as ((st' & Er & Hrel & Hfo') & _); [lia| |].
  { rewrite Hac, decide_True by done. pose proof (Ha account). lia. }
  exists st'. split_and!; [done|by eapply funds_only_trans|]. intros key. apply moved_equiv.
  eapply moved_eq; [exact (moved_trans _ _ _ _ _ _ _ _ _ (Hres key) (Hrel key))|lia..].
Qed.

(** When both steps are on one slot, the first must not leave it all zero: the store
    then drops it, and the second step starts from the zero slot rather than from
    the zeros the first computed, whose scales may differ. *)
Definition first_step_kept (st : EngineState W) account (s1 s2 : ReservationStep) mode check0 : Prop :=
  step_asset s1 = step_asset s2 -> forall new outcome,
  reserve_asset_dry_run (sf_holdings (sf_of st)) account s1 mode check0 None outcome_empty = Ok (Some new, outcome) ->
  holdings_is_zero new = false.

(** The dry run of the two steps. *)
Lemma reserve_steps_dry_run request legs (s1 s2 : ReservationStep) mode check0 check1 ms st :
  first_step_kept st (rq_account_id request) s1 s2 mode check0 ->
  (reserve_steps request legs (s1, s2) (mode, (check0, check1)) ms st).1.1 =
  ('(first_after, outcome) ←
    reserve_asset_dry_run (sf_holdings (sf_of st)) (rq_account_id request) s1 mode check0 None outcome_empty;
   let second_current := if bool_decide (step_asset s1 = step_asset s2) then first_after else None in
   '(_, outcome) ←
    reserve_asset_dry_run (sf_holdings (sf_of st)) (rq_account_id request) s2 mode check1 second_current outcome;
   Ok (Some (push_lock_price outcome (legs_lock_price legs)))).
Proof.
  intros Hkept. unfold reserve_steps. cbn [fst snd]. set (account := rq_account_id request) in *.
  pose proof (reserve_asset_answer account s1 mode check0 outcome_empty ms st) as H1.
  pose proof (reserve_asset_kept account s1 mode check0 outcome_empty ms st) as K1.
  destruct (reserve_asset _ s1 mode check0 outcome_empty ms st) as [[r1 ms1] st1]. destruct H1 as [-> Hk1].
  unfold first_step_kept in Hkept.
  destruct (reserve_asset_dry_run _ _ s1 _ _ _ _) as [[a1 outcome]|e]; [|done]. cbn [fmap result_fmap snd mbind result_bind].
  pose proof (reserve_asset_answer account s2 mode check1 outcome ms1 st1) as H2.
  destruct (reserve_asset _ s2 mode check1 outcome ms1 st1) as [[r2 ms2] st2]. destruct H2 as [-> _].
  set (second_current := if bool_decide _ then a1 else None).
  rewrite (dry_run_on_slot (sf_holdings (sf_of st)) (sf_holdings (sf_of st1)) account s2 mode check1 second_current).
  { by destruct (reserve_asset_dry_run _ _ s2 _ _ second_current _) as [[a2 o2]|e2]. }
  unfold second_current. case_bool_decide as He.
  - rewrite <- He. apply (K1 a1 outcome eq_refl). intros new ->. by eapply Hkept.
  - apply Hk1. congruence.
Qed.

(** An order whose two assets are one: its first step keeps their slot. *)
Definition shared_slot_kept self ctx (order : Order) s : Prop := forall request legs,
  legs_of self ctx order s request legs ->
  let steps := reservation_steps legs (underlying_asset (rq_instrument request))
                 (settlement_asset (rq_instrument request)) (rq_side request) in
  let controls := reservation_controls (sf_settings (sf_of s.2)) (rq_account_id request)
                    (state_account_group ctx s) (is_drop_copy ctx) steps in
  first_step_kept s.2 (rq_account_id request) steps.1 steps.2 controls.1 controls.2.1.

(** Orders of two different assets meet it at once. *)
Lemma distinct_assets_kept self ctx (order : Order) s :
  (forall request, read_order_request ctx order = Ok request ->
     underlying_asset (rq_instrument request) <> settlement_asset (rq_instrument request)) ->
  shared_slot_kept self ctx order s.
Proof.
  intros Hne request legs [Hr _] steps controls He. destruct (Hne request Hr). revert He. unfold steps.
  by destruct (rq_side request).
Qed.

(** C9: a dry run of the pre-trade hook leaves the whole engine state and the
    collector as they are and answers exactly what the live hook would answer in
    that state - the same reject, or the same outcomes, balances and lock price -
    outside drop-copy, which has no dry run.  This includes an instrument settled in
    its own underlying asset, whose two steps meet on one slot, as long as the first
    does not leave every balance of that slot zero. *)
Theorem spot_funds_dry_run_agrees self ctx (order : Order) ms ms0 s :
  is_drop_copy ctx = false -> shared_slot_kept self ctx order s ->
  perform_pre_trade_check_dry_run_impl self ctx order ms0 s =
  ((perform_pre_trade_check_impl self ctx order ms s).1.1, ms0, s).
Proof.
  intros Hd Hkept. unfold perform_pre_trade_check_dry_run_impl, perform_pre_trade_check_impl.
  do 2 f_equal. destruct (read_order_request ctx order) as [request|e] eqn:Hr; [|done].
  unfold perform_pre_trade_request_dry_run_impl, perform_pre_trade_request_impl. rewrite Hd. cbn [andb].
  destruct (reject_halted_account_pnl _ _ _ _ _ _) as [[]|e]; [|done]. cbn [mbind result_bind fmap result_fmap].
  destruct (compute_reservation_legs _ _ _ _ _ _) as [legs|e] eqn:El; [|done]. cbn [map_err mbind result_bind].
  specialize (Hkept request legs (conj Hr El)). cbv zeta in Hkept. rewrite Hd in Hkept.
  destruct (reservation_steps _ _ _ _) as [s1 s2]. cbn [fst snd] in Hkept.
  destruct (reservation_controls _ _ _ _ _) as [mode [check0 check1]].
  transitivity ((reserve_steps request legs (s1, s2) (mode, (check0, check1)) ms s.2).1.1).
  - symmetry. by apply reserve_steps_dry_run.
  - by destruct (reserve_steps request legs (s1, s2) (mode, (check0, check1)) ms s.2) as [[r ms1] st1].
Qed.

End Hook.
