(* ===== verification/SpotFundsExecutionFacts.v ===== *)
(** * SpotFundsExecutionFacts: the quantities an execution report moves

    A small program logic for the settlement monad: [settles n c moves] says that
    the handler part [c], run where amounts fit, succeeds and moves the slots by
    exactly [moves], whatever becomes of the P&L.  The handler is proved with its
    rules, and an order's reservation, fills and release are shown to cancel out. *)
From S2P Require Import Prelude.
From S2P Require Import Decimal.
From S2P Require Import Param.
From S2P Require Import ParamTypes.
From S2P Require Import Identifiers.
From S2P Require Import Mutation.
From S2P Require Import Reject.
From S2P Require Import AccountControl.
From S2P Require Import Accounts.
From S2P Require Import Lock.
From S2P Require Import Policy.
From S2P Require Import Storage.
From S2P Require Import Holdings.
From S2P Require Import HoldingsFacts.
From S2P Require Import HoldingsStore.
From S2P Require Import Instruments.
From S2P Require Import MarketData.
From S2P Require Import PnlBounds.
From S2P Require Import SpotFundsSettings.
From S2P Require Import SpotFundsParts.
From S2P Require Import SpotFunds.
From S2P Require Import SpotFundsReservation.
From S2P Require Import SpotFundsExecution.
From S2P Require Import SpotFundsFacts.
From S2P Require Import SpotFundsReservationFacts.
Open Scope Z_scope.

(** ** Moves *)

(** A change of the three quantities of a slot, and of every slot. *)
Record Move : Set := mkMove { mv_available : Z; mv_held : Z; mv_incoming : Z }.
Abbreviation Moves := (SlotKey -> Move).

Definition move_zero : Move := mkMove 0 0 0.
Definition move_add (a b : Move) : Move :=
  mkMove (mv_available a + mv_available b) (mv_held a + mv_held b) (mv_incoming a + mv_incoming b).
Definition moves_none : Moves := fun _ => move_zero.
Definition moves_add (a b : Moves) : Moves := fun key => move_add (a key) (b key).
Definition moves_at (key : SlotKey) (m : Move) : Moves := fun k => if decide (k = key) then m else move_zero.

Lemma move_eq a b : mv_available a = mv_available b -> mv_held a = mv_held b -> mv_incoming a = mv_incoming b -> a = b.
Proof. destruct a, b; cbn. by intros -> -> ->. Qed.

(** [moves_eq] proves an equation of moves at every slot. *)
Ltac moves_eq :=
  intros ?; unfold moves_add, moves_at, moves_none, move_add, move_zero; repeat case_decide; apply move_eq; cbn; lia.

(** ** Slots and P&L *)

Section Quantities.
Context {D : DecimalOps} {L : DecimalLaws D}.
Implicit Types (h : Holdings).

Definition quantities h : Move := mkMove (av h) (hd h) (inc h).

Lemma moved_quantities h h' x y z : moved h h' x y z -> quantities h' = move_add (quantities h) (mkMove x y z).
Proof. intros (A & B & C & _). unfold quantities, move_add. cbn. by rewrite A, B, C. Qed.

(** The P&L operations on a slot leave its quantities. *)
Lemma halt_quantities h reason avg : quantities (po_holdings (halt_realized_pnl_with_average h reason avg)) = quantities h.
Proof. unfold halt_realized_pnl_with_average. by destruct (realized_pnl_is_halted h). Qed.

Lemma contribution_quantities h delta : quantities (po_holdings (add_realized_pnl_contribution h delta)) = quantities h.
Proof.
  unfold add_realized_pnl_contribution. destruct (h_realized_pnl h) as [[current|reason]|]; [|done|];
    by destruct (sg_checked_add _ delta).
Qed.

Lemma realize_quantities h q price op : realize_position_fill h q price = Ok op -> quantities (po_holdings op) = quantities h.
Proof.
  unfold realize_position_fill. intros (o & _ & H)%result_bind_Ok. apply result_bind_Ok in H as (n & _ & H).
  apply result_bind_Ok in H as ([avg r|] & _ & H).
  - destruct (accumulate_pnl _ _ _). by injection H as <-.
  - destruct (realized_pnl_is_halted h); by injection H as <-.
Qed.

Lemma unpriced_quantities h q reason op : halt_realized_pnl_for_unpriced_fill h q reason = Ok op ->
  quantities (po_holdings op) = quantities h.
Proof.
  unfold halt_realized_pnl_for_unpriced_fill. intros (o & _ & H)%result_bind_Ok. apply result_bind_Ok in H as (n & _ & H).
  destruct (h_realized_pnl h) as [[]|]; by injection H as <-.
Qed.

Lemma quantities_av h h' : quantities h' = quantities h -> av h' = av h /\ hd h' = hd h /\ inc h' = inc h.
Proof. by intros [= -> -> ->]. Qed.

(** A leg of a fill consumes the held and the incoming amount and credits the
    balance, whatever its P&L part does. *)
Lemma fill_slot_quantities kind consume flow credit incoming price reason h :
  representable (hd h - sg_val consume) -> representable (av h + sg_val credit) ->
  representable (inc h - sg_val incoming) ->
  exists x new, fill_slot kind consume flow credit incoming price reason h = Ok (x, new) /\
    quantities new = move_add (quantities h) (mkMove (sg_val credit) (- sg_val consume) (- sg_val incoming)).
Proof.
  intros H1 H2 H3. unfold fill_slot.
  match goal with |- context [let '(_, _) := ?p in _] => set (pre := p) end.
  assert (Hq : quantities pre.2 = quantities h).
  { unfold pre. destruct kind, price as [price|], reason as [reason|]; cbn; try done.
    all: try (destruct (realize_position_fill h flow price) eqn:E; cbn; [by eapply realize_quantities|apply halt_quantities]).
    destruct (halt_realized_pnl_for_unpriced_fill h flow reason) eqn:E; cbn; [by eapply unpriced_quantities|apply halt_quantities]. }
  destruct pre as [op realized]. cbn in Hq. apply quantities_av in Hq as (Qa & Qh & Qi).
  destruct (fill_outflow_moved realized consume) as (h1 & -> & M1); [by rewrite Qh|]. cbn [mbind result_bind].
  assert (E2 : exists h2, (if sg_is_zero credit then Ok h1 else apply_fill_inflow h1 credit) = Ok h2 /\
                 moved h1 h2 (sg_val credit) 0 0).
  { dec_norm. destruct (Z.eqb_spec (sg_val credit) 0) as [->|]; [exists h1; split; [done|apply moved_refl]|].
    apply fill_inflow_moved. destruct M1 as (-> & _). by rewrite Qa, Z.add_0_r. }
  destruct E2 as (h2 & -> & M2). cbn [mbind result_bind].
  pose proof (moved_trans _ _ _ _ _ _ _ _ _ M1 M2) as M12.
  assert (E3 : exists h3, (if sg_is_zero incoming then Ok h2 else consume_incoming h2 incoming) = Ok h3 /\
                 moved h2 h3 0 0 (- sg_val incoming)).
  { dec_norm. destruct (Z.eqb_spec (sg_val incoming) 0) as [->|]; [exists h2; split; [done|apply moved_refl]|].
    apply consume_incoming_moved. destruct M12 as (_ & _ & -> & _). by rewrite Qi, !Z.add_0_r. }
  destruct E3 as (h3 & -> & M3). cbn [mbind result_bind]. do 2 eexists. split; [done|].
  rewrite (moved_quantities _ _ _ _ _ (moved_trans _ _ _ _ _ _ _ _ _ M12 M3)).
  unfold quantities, move_add. rewrite Qa, Qh, Qi. apply move_eq; cbn; lia.
Qed.

Lemma release_slot_quantities held incoming h :
  representable (av h + sg_val held) -> representable (hd h - sg_val held) -> representable (inc h - sg_val incoming) ->
  exists x new, release_slot held incoming h = Ok (x, new) /\
    quantities new = move_add (quantities h) (mkMove (sg_val held) (- sg_val held) (- sg_val incoming)).
Proof.
  intros H1 H2 H3. unfold release_slot. destruct (release_moved h held H1 H2) as (h1 & -> & M1). cbn [mbind result_bind].
  assert (E2 : exists h2, (if sg_is_zero incoming then Ok h1 else consume_incoming h1 incoming) = Ok h2 /\
                 moved h1 h2 0 0 (- sg_val incoming)).
  { dec_norm. destruct (Z.eqb_spec (sg_val incoming) 0) as [->|]; [exists h1; split; [done|apply moved_refl]|].
    apply consume_incoming_moved. destruct M1 as (_ & _ & -> & _). by rewrite Z.add_0_r. }
  destruct E2 as (h2 & -> & M2). cbn [mbind result_bind]. do 2 eexists. split; [done|].
  rewrite (moved_quantities _ _ _ _ _ (moved_trans _ _ _ _ _ _ _ _ _ M1 M2)). f_equal. apply move_eq; cbn; lia.
Qed.

End Quantities.

(** ** What a report moves *)

(** The exact product of two amounts in units. *)
Definition mul_units (x y : Z) : Z := x * y / DEC_UNIT.
Definition whole_product (x y : Z) : Prop := x * y = mul_units x y * DEC_UNIT.

(** What the settlement asset has reserved, and awaits, for a quantity at the lock
    price. *)
Definition reserved_at (side : Side) (lock q : Z) : Z :=
  Z.max 0 (match side with Buy => mul_units lock q | Sell => - mul_units lock q end).
Definition proceeds_at (side : Side) (lock q : Z) : Z :=
  match side with Buy => 0 | Sell => Z.max 0 (mul_units lock q) end.

(** Giving back the reservation of a quantity, the exchange itself, and a fee. *)
Definition release_moves (account : AccountId) (u s : Asset) (side : Side) (lock q : Z) : Moves :=
  moves_add
    (moves_at (account, u) (match side with Buy => mkMove 0 0 (- q) | Sell => mkMove q (- q) 0 end))
    (moves_at (account, s)
       (mkMove (reserved_at side lock q) (- reserved_at side lock q) (- proceeds_at side lock q))).
Definition exchange_moves (account : AccountId) (u s : Asset) (side : Side) (notional q : Z) : Moves :=
  match side with
  | Buy => moves_add (moves_at (account, u) (mkMove q 0 0)) (moves_at (account, s) (mkMove (- notional) 0 0))
  | Sell => moves_add (moves_at (account, u) (mkMove (- q) 0 0)) (moves_at (account, s) (mkMove notional 0 0))
  end.
Definition fee_moves {D : DecimalOps} (account : AccountId) (fee : option MonetaryAmount) : Moves :=
  match fee with
  | Some fee => moves_at (account, ma_currency fee) (mkMove (- sg_val (ma_amount fee)) 0 0)
  | None => moves_none
  end.

Lemma release_nothing account u s side lock key : release_moves account u s side lock 0 key = move_zero.
Proof.
  unfold release_moves, reserved_at, proceeds_at, mul_units. rewrite Z.mul_0_r, Zdiv_0_l. revert key.
  destruct side; moves_eq.
Qed.

(** ** The logic *)

Section Logic.
Context {D : DecimalOps} {L : DecimalLaws D} {F : DecimalFormat} {G : DecimalDebug} {W : Type}.
Context {O : Owns W SpotFundsState} {LW : LeaseWaits W}.
Implicit Types (st : EngineState W) (d : FillCancelDeltas).

Definition slots_moved st st' (moves : Moves) : Prop :=
  forall key, quantities (sf_slot st' key) = move_add (quantities (sf_slot st key)) (moves key).

Lemma slots_moved_refl st : slots_moved st st moves_none.
Proof. intros key. apply move_eq; cbn; lia. Qed.
Lemma slots_moved_trans st1 st2 st3 a b : slots_moved st1 st2 a -> slots_moved st2 st3 b -> slots_moved st1 st3 (moves_add a b).
Proof. intros H1 H2 key. rewrite H2, H1. apply move_eq; cbn; lia. Qed.
Lemma slots_moved_ext st st' a b : slots_moved st st' a -> (forall key, a key = b key) -> slots_moved st st' b.
Proof. intros H E key. by rewrite H, E. Qed.

(** Amounts of at most [C] steps of scale [sc]; the account of the report. *)
Context (sc : nat) (Hsc : (sc <= DEC_MAX_SCALE)%nat) (C : Z) (HC : 0 <= C < DEC_COEFF) (account : AccountId).

Abbreviation Settle := (SettleOf (FillCancelDeltas * EngineState W)).

Definition leg_grid (K : Z) (l : LegDelta) : Prop :=
  on_grid sc K (sg_val (ld_held_delta l)) /\ on_grid sc K (sg_val (ld_balance_delta l)) /\
  on_grid sc K (sg_val (ld_incoming_delta l)).
Definition deltas_grid (K : Z) d : Prop :=
  leg_grid K (fd_underlying d) /\ leg_grid K (fd_settlement d) /\
  match fd_fee d with Some (_, l) => leg_grid K l | None => True end.
Definition slots_grid (B : Z) st : Prop := forall key, slot_grid sc B (sf_slot st key).

(** No operation holds the lease of the account's P&L. *)
Definition lease_free st : Prop := match sf_leases (sf_of st) !! account with Some (Some _) => False | _ => True end.

(** What the handler may change besides the slots: the P&L ledger of the account,
    its lease and the counter of owners. *)
Record ledger_only st st' : Prop := {
  lo_accounts : es_accounts st' = es_accounts st;
  lo_settings : sf_settings (sf_of st') = sf_settings (sf_of st);
  lo_active : sf_active (sf_of st') = sf_active (sf_of st);
  lo_pnl a : a <> account -> sf_pnl (sf_of st') !! a = sf_pnl (sf_of st) !! a;
  lo_lease : lease_free st -> lease_free st'
}.

Lemma ledger_only_refl st : ledger_only st st.
Proof. by split. Qed.
Lemma ledger_only_trans st1 st2 st3 : ledger_only st1 st2 -> ledger_only st2 st3 -> ledger_only st1 st3.
Proof. intros [] []. split; try congruence; [|by auto]. intros a Ha. rewrite lo_pnl1, lo_pnl0; done. Qed.

Lemma slots_grid_le A B st : A <= B -> slots_grid A st -> slots_grid B st.
Proof. intros H Hg key. destruct (Hg key) as (? & ? & ?). split_and!; by eapply on_grid_le. Qed.
Lemma leg_grid_le A B l : A <= B -> leg_grid A l -> leg_grid B l.
Proof. intros H (? & ? & ?). split_and!; by eapply on_grid_le. Qed.
Lemma deltas_grid_le A B d : A <= B -> deltas_grid A d -> deltas_grid B d.
Proof.
  intros H (H1 & H2 & H3). split_and!; [by eapply leg_grid_le..|]. destruct (fd_fee d) as [[]|]; [by eapply leg_grid_le|done].
Qed.

(** The part [c] of the handler succeeds and moves the slots by [moves]; [n]
    bounds how many amounts it adds to any one quantity. *)
Definition settles {A} (n : nat) (c : Settle A) (moves : Moves) : Prop :=
  forall B K d st, slots_grid B st -> deltas_grid K d ->
  B + Z.of_nat n * C < DEC_COEFF -> K + Z.of_nat n * C < DEC_COEFF -> lease_free st ->
  exists a d' st', c (d, st) = (Ok a, (d', st')) /\ slots_moved st st' moves /\
    slots_grid (B + Z.of_nat n * C) st' /\ deltas_grid (K + Z.of_nat n * C) d' /\ ledger_only st st'.

Lemma settles_ret {A} (a : A) : settles 0 (mret a) moves_none.
Proof.
  intros B K d st HB HK _ _ _. exists a, d, st. rewrite !Z.add_0_r.
  split_and!; [done|apply slots_moved_refl|done|done|apply ledger_only_refl].
Qed.

Lemma settles_weaken {A} n n' (c : Settle A) moves moves' :
  settles n c moves -> (n <= n')%nat -> (forall key, moves key = moves' key) -> settles n' c moves'.
Proof.
  intros H Hn Hm B K d st HB HK H1 H2 Hl.
  assert (Z.of_nat n * C <= Z.of_nat n' * C) by nia.
  destruct (H B K d st) as (a & d' & st' & E & M & G1 & G2 & Lo); [done|done|lia|lia|done|].
  exists a, d', st'. split_and!; [done|by eapply slots_moved_ext| | |done].
  - eapply slots_grid_le; [|exact G1]. lia.
  - eapply deltas_grid_le; [|exact G2]. lia.
Qed.

Lemma settles_bind {A A'} n m (c : Settle A) (f : A -> Settle A') moves moves' :
  settles n c moves -> (forall a, settles m (f a) moves') -> settles (n + m) (c ≫= f) (moves_add moves moves').
Proof.
  intros H1 H2 B K d st HB HK HB' HK' Hl. rewrite Nat2Z.inj_add in *. assert (0 <= Z.of_nat m * C) by nia.
  destruct (H1 B K d st) as (a & d1 & st1 & E1 & M1 & G1 & K1 & Lo1); [done|done|lia|lia|done|].
  destruct (H2 a (B + Z.of_nat n * C) (K + Z.of_nat n * C) d1 st1) as (a' & d2 & st2 & E2 & M2 & G2 & K2 & Lo2);
    [done|done|lia|lia|by apply Lo1|].
  exists a', d2, st2. rewrite Z.mul_add_distr_r, !Z.add_assoc. split_and!; [|by eapply slots_moved_trans|done|done|by eapply ledger_only_trans].
  unfold mbind, settle_bind. by rewrite E1.
Qed.

Lemma settles_lift {A A'} n (r : result AccountBlock A) a (f : A -> Settle A') moves :
  r = Ok a -> settles n (f a) moves -> settles n (settle_lift r ≫= f) moves.
Proof. intros -> H B K d st. apply (H B K d st). Qed.

Lemma settles_get {A} n (f : FillCancelDeltas * EngineState W -> Settle A) moves :
  (forall x, settles n (f x) moves) -> settles n (settle_get ≫= f) moves.
Proof. intros H B K d st. apply (H (d, st) B K d st). Qed.

(** Steps that move nothing. *)
Definition quiet (f : FillCancelDeltas * EngineState W -> FillCancelDeltas * EngineState W) : Prop :=
  forall K d st, deltas_grid K d -> lease_free st ->
  deltas_grid K (f (d, st)).1 /\ slots_moved st (f (d, st)).2 moves_none /\ ledger_only st (f (d, st)).2.

Lemma slots_grid_same B st st' : slots_grid B st -> slots_moved st st' moves_none -> slots_grid B st'.
Proof.
  intros H M key. specialize (H key). pose proof (M key) as [= Ha Hh Hi]. unfold slot_grid in *.
  rewrite Ha, Hh, Hi. cbn. by rewrite !Z.add_0_r.
Qed.

Lemma settles_do f : quiet f -> settles 0 (settle_do f) moves_none.
Proof.
  intros H B K d st HB HK _ _ Hl. destruct (H K d st HK Hl) as (G1 & M1 & Lo).
  exists tt, (f (d, st)).1, (f (d, st)).2. rewrite !Z.add_0_r.
  split_and!; [by unfold settle_do; destruct (f (d, st))|done|by eapply slots_grid_same|done|done].
Qed.

(** A store put back. *)
Lemma store_ledger_only st store : ledger_only st (sf_modify (fun x => set_holdings x store) st).
Proof. split; unfold lease_free; rewrite ?sf_of_modify; done. Qed.

Lemma settles_slot {X} key details (f : Holdings -> result AdjustmentOverflowError (X * Holdings)) m :
  on_grid sc C (mv_available m) -> on_grid sc C (mv_held m) -> on_grid sc C (mv_incoming m) ->
  (forall B h, slot_grid sc B h -> B + C < DEC_COEFF ->
     exists x new, f h = Ok (x, new) /\ quantities new = move_add (quantities h) m) ->
  settles 1 (settle_slot key details f) (moves_at key m).
Proof.
  intros Ga Gh Gi Hf B K d st HB HK HB' HK' Hl. unfold settle_slot.
  pose proof (mutate_slot_slots (sf_holdings (sf_of st)) key f) as Hm.
  destruct (mutate_slot (sf_holdings (sf_of st)) key f) as [r store]. destruct Hm as (-> & Hne & Hk).
  change (slot_of (sf_holdings (sf_of st))) with (sf_slot st) in *.
  destruct (Hf B _ (HB key)) as (x & new & E & Hq); [lia|]. rewrite E in *.
  set (st' := sf_modify _ st).
  assert (Hs : forall k, sf_slot st' k = slot_of store k) by (intros k; unfold sf_slot, st'; by rewrite sf_of_modify).
  assert (M : slots_moved st st' (moves_at key m)).
  { intros k. rewrite Hs. unfold moves_at. case_decide as Hd; [subst k|].
    - rewrite <- Hq. destruct Hk as (A1 & A2 & A3 & _). by apply move_eq.
    - rewrite Hne by done. apply move_eq; cbn; lia. }
  exists (x, new), d, st'. split_and!; [done|done| |eapply deltas_grid_le; [|done]; lia|apply store_ledger_only].
  intros k. pose proof (M k) as Hmk. injection Hmk as Ha Hh Hi. destruct (HB k) as (B1 & B2 & B3).
  replace (B + Z.of_nat 1 * C) with (B + C) by lia. unfold slot_grid. rewrite Ha, Hh, Hi. unfold moves_at.
  case_decide; split_and!; apply on_grid_add; first [done|apply on_grid_0; lia].
Qed.

(** *** The P&L of a position *)

Lemma slot_pnl_quiet key (f : Holdings -> PositionPnlOperation) st :
  (forall h, quantities (po_holdings (f h)) = quantities h) ->
  let st' := (slot_pnl_operation key f st).2 in slots_moved st st' moves_none /\ ledger_only st st'.
Proof.
  intros Hf. cbv zeta. unfold slot_pnl_operation.
  set (g := fun (slot : Holdings) (_ : bool) => _).
  pose proof (store_with_mut_slots (sf_holdings (sf_of st)) key g (fun h => eq_refl)) as Hm.
  destruct (store_with_mut _ _ _ g) as [x store]. destruct Hm as [Hk Hne]. cbn [snd].
  split; [|apply store_ledger_only]. intros k. unfold sf_slot at 1. rewrite sf_of_modify. cbn [sf_holdings set_holdings].
  change (slot_of (sf_holdings (sf_of st))) with (sf_slot st) in *.
  assert (quantities (slot_of store k) = quantities (sf_slot st k)) as ->; [|apply move_eq; cbn; lia].
  destruct (decide (k = key)) as [->|Hn]; [|by rewrite Hne].
  unfold g in Hk. cbn in Hk. injection Hk as _ ->. apply Hf.
Qed.

Lemma set_leg_grid K kind l d : leg_grid K l -> deltas_grid K d -> deltas_grid K (set_leg kind l d).
Proof. intros Hl (H1 & H2 & H3). by destruct kind. Qed.
Lemma leg_of_grid K kind d : deltas_grid K d -> leg_grid K (leg_of kind d).
Proof. intros (H1 & H2 & H3). by destruct kind. Qed.

Lemma record_operation_grid K d op : deltas_grid K d -> deltas_grid K (record_position_pnl_operation d op).2.
Proof.
  intros H. unfold record_position_pnl_operation. match goal with |- context [let '(_, _) := ?p in _] => destruct p as [outcome over] end.
  apply (set_leg_grid K Underlying); [|done]. apply (leg_of_grid K Underlying d H).
Qed.

Lemma note_final_grid K op h d : deltas_grid K d -> deltas_grid K (note_final op h d).
Proof.
  intros H. unfold note_final. destruct (is_some _); [|done].
  apply (set_leg_grid K Underlying); [|done]. apply (leg_of_grid K Underlying d H).
Qed.

Lemma halt_position_quiet asset reason : quiet (halt_position_pnl account asset reason).
Proof.
  intros K d st HK Hl. unfold halt_position_pnl.
  pose proof (slot_pnl_quiet (account, asset) (fun slot => halt_realized_pnl_preserving_average slot reason) st
    (fun h => halt_quantities h _ _)) as Hq. cbv zeta in Hq.
  destruct (slot_pnl_operation _ _ st) as [[h op] st1].
  pose proof (record_operation_grid K d op HK) as Hg. destruct (record_position_pnl_operation d op) as [over d1].
  split_and!; [by apply note_final_grid|apply Hq..].
Qed.

Lemma quiet_trans f K d st d1 st1 : quiet f -> deltas_grid K d1 -> lease_free st ->
  slots_moved st st1 moves_none -> ledger_only st st1 ->
  deltas_grid K (f (d1, st1)).1 /\ slots_moved st (f (d1, st1)).2 moves_none /\ ledger_only st (f (d1, st1)).2.
Proof.
  intros Hf HK Hl M Lo. destruct (Hf K d1 st1 HK) as (G1 & M1 & Lo1); [by apply Lo|].
  split_and!; [done| |by eapply ledger_only_trans].
  eapply slots_moved_ext; [by eapply slots_moved_trans|]. moves_eq.
Qed.

Lemma fold_fee_quiet asset contribution : quiet (fold_fee_into_realized_pnl account asset contribution).
Proof.
  intros K d st HK Hl. unfold fold_fee_into_realized_pnl.
  destruct contribution as [fee|]; [|split_and!; [done|apply slots_moved_refl|apply ledger_only_refl]].
  pose proof (slot_pnl_quiet (account, asset) (fun slot => add_realized_pnl_contribution slot fee) st
    (fun h => contribution_quantities h _)) as Hq. cbv zeta in Hq.
  destruct (slot_pnl_operation _ _ st) as [[h op] st1].
  pose proof (record_operation_grid K d op HK) as Hg. destruct (record_position_pnl_operation d op) as [[] d1].
  - apply (quiet_trans _ K d st); [apply halt_position_quiet|done|done|apply Hq..].
  - split_and!; [by apply note_final_grid|apply Hq..].
Qed.

Lemma quiet_id : quiet (fun x => x).
Proof. intros K d st HK _. split_and!; [done|apply slots_moved_refl|apply ledger_only_refl]. Qed.

(** *** The ledger of the account *)

(** The account part [f] touches only the account's ledger and its lease. *)
Definition ledger_step {A} (f : EngineState W -> A * EngineState W) : Prop := forall st, lease_free st ->
  sf_holdings (sf_of (f st).2) = sf_holdings (sf_of st) /\ ledger_only st (f st).2.

Lemma settles_account {A} (f : EngineState W -> A * EngineState W) : ledger_step f ->
  settles 0 (settle_account f) moves_none.
Proof.
  intros Hf B K d st HB HK _ _ Hl. destruct (Hf st Hl) as [Hs Lo]. unfold settle_account.
  destruct (f st) as [a st']. cbn in Hs, Lo.
  assert (M : slots_moved st st' moves_none).
  { intros key. unfold sf_slot at 1. rewrite Hs. change (slot_of _ key) with (sf_slot st key). apply move_eq; cbn; lia. }
  exists a, d, st'. rewrite !Z.add_0_r. split_and!; [done|done|by eapply slots_grid_same|done|done].
Qed.

Lemma pnl_with_mut_step {X} (f : AccountPnlEntry -> bool -> X * AccountPnlEntry) st :
  let st' := (pnl_with_mut account f st).2 in
  sf_holdings (sf_of st') = sf_holdings (sf_of st) /\ sf_leases (sf_of st') = sf_leases (sf_of st) /\ ledger_only st st'.
Proof.
  cbv zeta. unfold pnl_with_mut, with_mut, with_mut_phased, with_mut_fast, with_mut_slow.
  assert (H : forall e, let st' := sf_modify (fun s => set_pnl_table s (<[account := e]> (sf_pnl (sf_of st)))) st in
     sf_holdings (sf_of st') = sf_holdings (sf_of st) /\ sf_leases (sf_of st') = sf_leases (sf_of st) /\ ledger_only st st').
  { intros e. cbv zeta. rewrite !sf_of_modify. split_and!; [done|done|].
    split; unfold lease_free; rewrite ?sf_of_modify; try done. intros a Ha. cbn. by rewrite lookup_insert_ne. }
  destruct (sf_pnl (sf_of st) !! account) as [e|]; cbn -[sf_modify];
    match goal with |- context [f ?e ?b] => destruct (f e b) as [x e'] end; apply H.
Qed.

Lemma next_owner_step st : sf_of (next_owner st).2 = sf_of st /\ es_accounts (next_owner st).2 = es_accounts st.
Proof. unfold next_owner. by destruct (default _ _). Qed.

(** Taking a free lease does not wait, and dropping it leaves it free. *)
Lemma with_pnl_lease_step {X} (f : EngineState W -> X * EngineState W) st : lease_free st ->
  (forall st, let st' := (f st).2 in
     sf_holdings (sf_of st') = sf_holdings (sf_of st) /\ sf_leases (sf_of st') = sf_leases (sf_of st) /\ ledger_only st st') ->
  let st' := (with_pnl_lease account f st).2 in
  sf_holdings (sf_of st') = sf_holdings (sf_of st) /\ ledger_only st st' /\ lease_free st'.
Proof.
  intros Hl Hf. cbv zeta. unfold with_pnl_lease. destruct (next_owner_step st) as [Es Ea].
  destruct (next_owner st) as [owner st1]. cbn [snd] in Es, Ea.
  unfold acquire_account_pnl_lease. rewrite Es.
  assert (Ht : try_acquire_lease (sf_leases (sf_of st)) account owner =
               (true, <[account := Some (mkPnlLease owner 1)]> (sf_leases (sf_of st)))).
  { unfold try_acquire_lease, with_mut, with_mut_phased, with_mut_fast, with_mut_slow, lease_free in *.
    by destruct (sf_leases (sf_of st) !! account) as [[]|]. }
  rewrite Ht. set (st2 := sf_modify _ st1).
  assert (E2 : sf_of st2 = set_leases (sf_of st) (<[account := Some (mkPnlLease owner 1)]> (sf_leases (sf_of st)))).
  { unfold st2. by rewrite sf_of_modify, Es. }
  destruct (Hf st2) as (H1 & H2 & []). destruct (f st2) as [x st3]. cbn [snd] in *.
  unfold drop_account_pnl_lease, release_account_pnl_lease, with_mut_if_present, lease_free.
  rewrite !sf_of_modify. rewrite E2 in *. cbn in *. rewrite H2, lookup_insert_eq. cbn. rewrite Z.eqb_refl.
  split_and!; [done| |by rewrite lookup_insert_eq].
  split; unfold lease_free; rewrite ?sf_of_modify; cbn; try done.
  - by rewrite lo_accounts0.
  - intros _. by rewrite H2, lookup_insert_eq; cbn; rewrite Z.eqb_refl; cbn; rewrite lookup_insert_eq.
Qed.

Lemma with_lease_pnl_step {X} (f : AccountPnlEntry -> bool -> X * AccountPnlEntry) :
  ledger_step (with_pnl_lease account (pnl_with_mut account f)).
Proof.
  intros st Hl. destruct (with_pnl_lease_step (pnl_with_mut account f) st Hl) as (H1 & H2 & _); [|done].
  apply pnl_with_mut_step.
Qed.

Lemma report_halt_step self currency barrier reason : ledger_step (report_halt self account currency barrier reason).
Proof.
  intros st Hl. unfold report_halt, halt_account_pnl.
  match goal with |- context [with_pnl_lease account (pnl_with_mut account ?f) st] =>
    pose proof (with_lease_pnl_step f st Hl) as H; destruct (with_pnl_lease account (pnl_with_mut account f) st) as [[reason' transitioned] st'] end.
  exact H.
Qed.

Lemma report_delta_step self currency barrier delta : ledger_step (report_delta self account currency barrier delta).
Proof.
  intros st Hl. unfold report_delta, apply_account_pnl_delta, update_account_pnl.
  pose proof (pnl_with_mut_step (fun entry _ => update_first delta entry) st) as (H1 & H2 & H3). cbv zeta in *.
  destruct (pnl_with_mut account _ st) as [first st1]. cbn [snd] in *.
  destruct first as [[[r state] provenance]|]; [done|].
  pose proof (with_lease_pnl_step (fun entry _ => update_second delta entry) st1 ltac:(by apply H3)) as [H4 H5].
  destruct (with_pnl_lease account _ st1) as [[[r state] provenance] st2]. cbn [snd] in *.
  split; [congruence|by eapply ledger_only_trans].
Qed.

(** *** The deltas of a leg *)

(** How a leg is read from the deltas and put back. *)
Definition leg_lens (get : FillCancelDeltas -> LegDelta) (set : LegDelta -> FillCancelDeltas -> FillCancelDeltas) : Prop :=
  forall K d, 0 <= K -> deltas_grid K d ->
  leg_grid K (get d) /\ forall l, leg_grid K l -> deltas_grid K (set l d).

Lemma kind_lens kind : leg_lens (leg_of kind) (set_leg kind).
Proof. intros K d _ H. split; [by apply leg_of_grid|]. intros l Hl. by apply set_leg_grid. Qed.

Lemma leg_new_grid K : 0 <= K -> leg_grid K leg_delta_new.
Proof. intros H. unfold leg_grid, leg_delta_new. cbn. rewrite sg_ZERO_val. split_and!; by apply on_grid_0. Qed.

Lemma fee_lens kind currency : leg_lens (fee_leg_get kind) (fee_leg_set kind currency).
Proof.
  intros K d HK H. destruct kind as [kind|]; [by apply kind_lens|].
  destruct H as (H1 & H2 & H3). cbn. split; [|done].
  destruct (fd_fee d) as [[]|]; [done|by apply leg_new_grid].
Qed.

Lemma settles_leg_step get set details f : leg_lens get set ->
  (forall K l, leg_grid K l -> K + C < DEC_COEFF -> exists l', f l = Ok l' /\ leg_grid (K + C) l') ->
  settles 1 (leg_step get set details f) moves_none.
Proof.
  intros Hlens Hf B K d st HB HK HB' HK' Hl.
  destruct (decide (0 <= K)) as [H0|H0].
  2:{ destruct HK as (((m & _ & Hm) & _) & _). lia. }
  destruct (Hlens K d H0 HK) as [Hg _].
  destruct (Hf K (get d) Hg) as (l' & E & Hl'); [lia|].
  destruct (Hlens (K + C) d) as [_ Hset]; [lia|eapply deltas_grid_le; [|done]; lia|].
  exists tt, (set l' d), st. unfold leg_step. rewrite E.
  replace (B + Z.of_nat 1 * C) with (B + C) by lia. replace (K + Z.of_nat 1 * C) with (K + C) by lia.
  split_and!; [done|apply slots_moved_refl|eapply slots_grid_le; [|done]; lia|by apply Hset|apply ledger_only_refl].
Qed.

Lemma add_balance_grid x : on_grid sc C (sg_val x) ->
  forall K l, leg_grid K l -> K + C < DEC_COEFF -> exists l', add_balance x l = Ok l' /\ leg_grid (K + C) l'.
Proof.
  intros Hx K l (H1 & H2 & H3) HK. unfold add_balance.
  destruct (sg_add_val (ld_balance_delta l) x) as (c & -> & V); [eapply on_grid_repr; eauto with grid|].
  eexists. split; [done|]. split_and!; cbn; [|rewrite V; auto with grid|]; (eapply on_grid_le; [|done]; lia).
Qed.
Lemma sub_held_grid x : on_grid sc C (sg_val x) ->
  forall K l, leg_grid K l -> K + C < DEC_COEFF -> exists l', sub_held x l = Ok l' /\ leg_grid (K + C) l'.
Proof.
  intros Hx K l (H1 & H2 & H3) HK. unfold sub_held.
  destruct (sg_sub_val (ld_held_delta l) x) as (c & -> & V); [eapply on_grid_repr; eauto with grid|].
  eexists. split; [done|]. split_and!; cbn; [rewrite V; auto with grid| |]; (eapply on_grid_le; [|done]; lia).
Qed.
Lemma sub_incoming_grid x : on_grid sc C (sg_val x) ->
  forall K l, leg_grid K l -> K + C < DEC_COEFF -> exists l', sub_incoming x l = Ok l' /\ leg_grid (K + C) l'.
Proof.
  intros Hx K l (H1 & H2 & H3) HK. unfold sub_incoming.
  destruct (sg_sub_val (ld_incoming_delta l) x) as (c & -> & V); [eapply on_grid_repr; eauto with grid|].
  eexists. split; [done|]. split_and!; cbn; [| |rewrite V; auto with grid]; (eapply on_grid_le; [|done]; lia).
Qed.

Lemma set_final_quiet kind h : quiet (fun '(d, st) => (set_leg kind (leg_set_final (leg_of kind d) h) d, st)).
Proof.
  intros K d st HK Hl. split_and!; [|apply slots_moved_refl|apply ledger_only_refl].
  apply set_leg_grid; [|done]. apply (leg_of_grid K kind d HK).
Qed.

(** *** Legs, releases and fees *)

Ltac settle_seq := eapply settles_bind; [|intros ?].

Lemma settles_fill_leg asset kind consume flow incoming price reason :
  on_grid sc C (sg_val consume) -> on_grid sc C (sg_val incoming) -> on_grid sc C (sg_val consume + sg_val flow) ->
  settles 4 (settle_fill_leg account asset kind consume flow incoming price reason)
    (moves_at (account, asset) (mkMove (sg_val consume + sg_val flow) (- sg_val consume) (- sg_val incoming))).
Proof.
  intros Hc Hi Hf. unfold settle_fill_leg.
  destruct (sg_add_val consume flow) as (credit & E & V); [eapply on_grid_repr; [..|exact Hf]; lia || done|].
  eapply settles_lift; [by rewrite E|]. rewrite <- V in *.
  destruct (_ && _) eqn:Ez.
  { rewrite !andb_true_iff in Ez. destruct Ez as ((E1 & E2) & E3). dec_norm. rewrite Z.eqb_eq in *.
    eapply settles_weaken; [apply settles_ret|lia|]. rewrite E1, E2, E3. moves_eq. }
  eapply settles_weaken; [|reflexivity|intros key; reflexivity].
  assert (Hslot : settles 1 (settle_slot (account, asset)
       ("fill leg mutation overflow: asset " +:+ Asset_fmt asset +:+ ", consume " +:+ size_fmt consume +:+
        ", credit " +:+ size_fmt credit)
       (fill_slot kind consume flow credit incoming price reason))
       (moves_at (account, asset) (mkMove (sg_val credit) (- sg_val consume) (- sg_val incoming)))).
  { apply settles_slot; cbn; [done|by apply on_grid_opp|by apply on_grid_opp|].
    intros B h (H1 & H2 & H3) HB. apply fill_slot_quantities; eapply on_grid_repr; eauto with grid. }
  eapply (settles_weaken (1 + (0 + (1 + (1 + (1 + (0 + 0)))))) 4); [|lia|].
  - settle_seq; [exact Hslot|]. destruct a as [[operation contribution] new_h].
    settle_seq.
    { apply settles_do. destruct operation as [op|]; [|apply quiet_id]. intros K d st HK Hl.
      pose proof (record_operation_grid K d op HK) as Hg. destruct (record_position_pnl_operation d op) as [[] d1].
      - apply halt_position_quiet; done.
      - split_and!; [done|apply slots_moved_refl|apply ledger_only_refl]. }
    settle_seq; [apply settles_leg_step; [apply kind_lens|by apply sub_held_grid]|].
    settle_seq; [apply settles_leg_step; [apply kind_lens|by apply sub_incoming_grid]|].
    settle_seq; [apply settles_leg_step; [apply kind_lens|by apply add_balance_grid]|].
    settle_seq; [apply settles_do, set_final_quiet|]. apply settles_ret.
  - moves_eq.
Qed.

Lemma settles_release_leg asset kind held incoming :
  on_grid sc C (sg_val held) -> on_grid sc C (sg_val incoming) ->
  settles 4 (release_leg account asset kind held incoming)
    (moves_at (account, asset) (mkMove (sg_val held) (- sg_val held) (- sg_val incoming))).
Proof.
  intros Hh Hi. unfold release_leg. destruct (_ && _) eqn:Ez.
  { rewrite !andb_true_iff in Ez. destruct Ez as (E1 & E2). dec_norm. rewrite Z.eqb_eq in *.
    eapply settles_weaken; [apply settles_ret|lia|]. rewrite E1, E2. moves_eq. }
  eapply (settles_weaken (1 + (1 + (1 + (1 + 0)))) 4); [|lia|].
  - settle_seq.
    { apply (settles_slot (account, asset) _ _ (mkMove (sg_val held) (- sg_val held) (- sg_val incoming)));
        cbn; [done|by apply on_grid_opp|by apply on_grid_opp|].
      intros B h (H1 & H2 & H3) HB. apply release_slot_quantities; eapply on_grid_repr; eauto with grid. }
    destruct a as [[] new_h].
    settle_seq; [apply settles_leg_step; [apply kind_lens|by apply sub_held_grid]|].
    settle_seq; [apply settles_leg_step; [apply kind_lens|by apply add_balance_grid]|].
    settle_seq; [apply settles_leg_step; [apply kind_lens|by apply sub_incoming_grid]|].
    apply settles_do, set_final_quiet.
  - moves_eq.
Qed.

Lemma settles_fee_debit underlying settlement (fee : MonetaryAmount) :
  on_grid sc C (sg_val (ma_amount fee)) ->
  settles 2 (apply_fee_debit account underlying settlement fee)
    (moves_at (account, ma_currency fee) (mkMove (- sg_val (ma_amount fee)) 0 0)).
Proof.
  intros Hf. unfold apply_fee_debit. cbv zeta.
  assert (V : sg_val (fee_to_position_size (ma_amount fee)) = - sg_val (ma_amount fee)) by apply dec_neg_val.
  set (amount := fee_to_position_size (ma_amount fee)) in *. rewrite <- V.
  assert (Hg : on_grid sc C (sg_val amount)) by (rewrite V; by apply on_grid_opp).
  dec_norm. destruct (Z.eqb_spec (sg_val amount) 0) as [Ez|Ez].
  { eapply settles_weaken; [apply settles_ret|lia|]. rewrite Ez. moves_eq. }
  eapply (settles_weaken (1 + (1 + 0)) 2); [|lia|].
  - settle_seq.
    { apply (settles_slot (account, ma_currency fee) _ _ (mkMove (sg_val amount) 0 0));
        cbn; [done|apply on_grid_0; lia..|].
      intros B h (H1 & H2 & H3) HB. destruct (fill_inflow_moved h amount) as (h' & -> & Hm);
        [eapply on_grid_repr; eauto with grid|]. cbn. do 2 eexists. split; [done|]. by apply moved_quantities. }
    destruct a as [[] new_h].
    settle_seq; [apply settles_leg_step; [apply fee_lens|by apply add_balance_grid]|].
    apply settles_do. intros K d st HK Hl. split_and!; [|apply slots_moved_refl|apply ledger_only_refl].
    assert (0 <= K) by (destruct HK as (((m & _ & Hm) & _) & _); lia).
    destruct (fee_lens (fee_leg (ma_currency fee) underlying settlement) (ma_currency fee) K d) as [Hget Hset]; [done|done|].
    apply Hset. exact Hget.
  - moves_eq.
Qed.

(** *** The handler *)

Context {M : MarketDataSource W}.
Implicit Types (self : SpotFundsPolicy).

Lemma on_grid_C z : on_grid sc C z -> representable z.
Proof. apply on_grid_repr; [done|apply HC]. Qed.

Lemma position_size_val (price : Price) (q : Quantity) :
  whole_product (sg_val price) (nn_val q) -> representable (mul_units (sg_val price) (nn_val q)) ->
  exists c, price_calculate_position_size price q = Ok c /\ sg_val c = mul_units (sg_val price) (nn_val q).
Proof.
  intros Hw Hr. destruct (dec_mul_exact (sg_to_decimal price) (nn_to_decimal q) _ Hr Hw) as (c & E & V).
  exists (sg_new c). split; [|done]. unfold price_calculate_position_size. by rewrite E.
Qed.

(** The lock carries one price of the policy's group. *)
Definition locked_at self (lock : PreTradeLock) (p : Price) : Prop := prices_of lock (sp_group_id self) = [p].

(** The amounts of a quantity at the lock price are whole and small enough. *)
Definition lock_fits (lock q : Z) : Prop := whole_product lock q /\ on_grid sc C (mul_units lock q) /\ on_grid sc C q.

Lemma on_grid_max z : on_grid sc C z -> on_grid sc C (Z.max 0 z).
Proof. intros H. destruct (Z.max_spec 0 z) as [[_ ->]|[_ ->]]; [done|]. apply on_grid_0. lia. Qed.

Lemma reserved_grid side lock q : lock_fits lock q -> on_grid sc C (reserved_at side lock q).
Proof. intros (_ & H & _). unfold reserved_at. destruct side; apply on_grid_max; auto using on_grid_opp. Qed.
Lemma proceeds_grid side lock q : lock_fits lock q -> on_grid sc C (proceeds_at side lock q).
Proof. intros (_ & H & _). unfold proceeds_at. destruct side; [apply on_grid_0; lia|by apply on_grid_max]. Qed.

Lemma settlement_held_val self purpose settlement side q lock p : locked_at self lock p ->
  lock_fits (sg_val p) (nn_val q) ->
  exists c, settlement_held_at self purpose settlement side q lock = Ok c /\ sg_val c = reserved_at side (sg_val p) (nn_val q).
Proof.
  intros Hp (Hw & Hg & _). unfold settlement_held_at, settlement_lock_price, single_lock_price, optional_lock_price.
  rewrite Hp. cbn [mbind result_bind ok_or settlement_reserved_amount]. unfold lock_notional.
  destruct (position_size_val p q Hw (on_grid_C _ Hg)) as (c & -> & V). cbn [map_err mbind result_bind].
  eexists. split; [done|]. rewrite non_negative_val. unfold reserved_at. destruct side; rewrite ?neg_val, V; done.
Qed.

Lemma settlement_incoming_val self purpose settlement side q lock p : locked_at self lock p ->
  lock_fits (sg_val p) (nn_val q) ->
  exists c, settlement_incoming_at self purpose settlement side q lock = Ok c /\ sg_val c = proceeds_at side (sg_val p) (nn_val q).
Proof.
  intros Hp (Hw & Hg & _). unfold settlement_incoming_at, settlement_lock_price, single_lock_price, optional_lock_price.
  rewrite Hp. cbn [mbind result_bind ok_or]. unfold settlement_incoming_proceeds, lock_notional, proceeds_at.
  destruct side; [exists sg_ZERO; by rewrite sg_ZERO_val|].
  destruct (position_size_val p q Hw (on_grid_C _ Hg)) as (c & -> & V). cbn [map_err mbind result_bind].
  eexists. split; [done|]. by rewrite non_negative_val, V.
Qed.

(** A cancel gives the reservation of the remaining quantity back. *)
Lemma settles_cancel_release self u s side remaining lock p : locked_at self lock p ->
  lock_fits (sg_val p) (nn_val remaining) ->
  settles 8 (apply_cancel_release self account u s side remaining lock)
    (release_moves account u s side (sg_val p) (nn_val remaining)).
Proof.
  intros Hp Hf. unfold apply_cancel_release, settlement_release, settlement_incoming_release.
  destruct (settlement_held_val self "settlement release" s side remaining lock p Hp Hf) as (held & E1 & V1).
  destruct (settlement_incoming_val self "sell release" s side remaining lock p Hp Hf) as (incoming & E2 & V2).
  eapply settles_lift; [exact E1|]. eapply settles_lift; [exact E2|].
  destruct Hf as (Hw & Hg & Hq). pose proof (reserved_grid side _ _ (conj Hw (conj Hg Hq))) as HR.
  pose proof (proceeds_grid side _ _ (conj Hw (conj Hg Hq))) as HP.
  assert (HZ : on_grid sc C (sg_val (sg_ZERO : PositionSize))) by (rewrite sg_ZERO_val; apply on_grid_0; lia).
  assert (Hqs : on_grid sc C (sg_val (quantity_to_position_size remaining))) by done.
  destruct side; (eapply (settles_weaken (4 + 4) 8); [settle_seq; apply settles_release_leg; congruence|lia|]).
  all: unfold release_moves; rewrite V1, V2, sg_ZERO_val;
    change (sg_val (quantity_to_position_size remaining)) with (nn_val remaining); moves_eq.
Qed.

(** [open_pair] names the parts of the pair the goal takes apart next. *)
Ltac open_pair := match goal with |- settles _ (match ?p with (_, _) => _ end) _ => destruct p end.

Lemma settles_seq0 {A A'} n (c : Settle A) (f : A -> Settle A') moves :
  settles 0 c moves_none -> (forall a, settles n (f a) moves) -> settles n (c ≫= f) moves.
Proof.
  intros H1 H2. eapply (settles_weaken (0 + n) n); [by eapply settles_bind|lia|moves_eq].
Qed.

Lemma settles_last0 {A A'} n (c : Settle A) (f : A -> Settle A') moves :
  settles n c moves -> (forall a, settles 0 (f a) moves_none) -> settles n (c ≫= f) moves.
Proof.
  intros H1 H2. eapply (settles_weaken (n + 0) n); [by eapply settles_bind|lia|moves_eq].
Qed.

Definition fee_fits (fee : option MonetaryAmount) : Prop :=
  match fee with Some fee => on_grid sc C (sg_val (ma_amount fee)) | None => True end.

(** The account part of an application. *)
Ltac account_part := repeat case_match;
  first [apply settles_ret|apply settles_account, report_halt_step|apply settles_account, report_delta_step].

(** A fee without a trade takes the fee and nothing else, whatever its P&L
    does. *)
Lemma settles_execution_fee self group currency settings u s fee : fee_fits (Some fee) ->
  settles 2 (apply_execution_fee self group currency settings account u s fee) (fee_moves account (Some fee)).
Proof.
  intros Hf. unfold apply_execution_fee. dec_norm. destruct (Z.eqb_spec (sg_val (ma_amount fee)) 0) as [Hz|Hz].
  { eapply settles_weaken; [apply settles_ret|lia|]. cbn [fee_moves]. rewrite Hz. moves_eq. }
  apply settles_get. intros [d st]. cbv zeta. open_pair. cbv zeta.
  apply settles_last0; [by apply settles_fee_debit|intros _].
  apply settles_seq0; [apply settles_do; destruct (select_if _ _ _); [apply halt_position_quiet|apply quiet_id]|intros _].
  apply settles_seq0; [apply settles_do, fold_fee_quiet|intros _].
  apply settles_seq0; [|intros [account_pnl block]; apply settles_ret].
  account_part.
Qed.

(** The two legs of a fill, in the order of the side. *)
Lemma settles_fill_legs u s side (q consume flow incoming : PositionSize) price reason notional :
  on_grid sc C (sg_val q) -> on_grid sc C (sg_val consume) -> on_grid sc C (sg_val incoming) ->
  on_grid sc C (sg_val consume + sg_val flow) -> sg_val flow = (match side with Buy => - notional | Sell => notional end) ->
  settles 8 (fill_legs account u s side q consume flow incoming price reason)
    (moves_add (exchange_moves account u s side notional (sg_val q))
       (moves_add
         (moves_at (account, u) (match side with Buy => mkMove 0 0 (- sg_val q) | Sell => mkMove (sg_val q) (- sg_val q) 0 end))
         (moves_at (account, s) (mkMove (sg_val consume) (- sg_val consume) (- sg_val incoming))))).
Proof.
  intros Hq Hc Hi Hcf Hflow.
  assert (HZ : on_grid sc C (sg_val (sg_ZERO : PositionSize))) by (rewrite sg_ZERO_val; apply on_grid_0; lia).
  unfold fill_legs. destruct side.
  - eapply (settles_weaken (4 + 4) 8); [settle_seq; apply settles_fill_leg; rewrite ?sg_ZERO_val, ?Z.add_0_l|lia|];
      try first [done|by rewrite <- (sg_ZERO_val (k:=PK_PositionSize))].
    unfold exchange_moves. rewrite sg_ZERO_val, Hflow. moves_eq.
  - eapply (settles_weaken (4 + (4 + 0)) 8); [settle_seq; [apply settles_fill_leg|settle_seq; [apply settles_fill_leg|apply settles_ret]]|lia|];
      try done.
    + rewrite neg_val, Z.add_opp_diag_r. apply on_grid_0. lia.
    + unfold exchange_moves. rewrite sg_ZERO_val, neg_val, Hflow. moves_eq.
Qed.

(** What a trade moves: its quantity's reservation is given back and the two assets
    are exchanged at the price it had. *)
Definition flow_of (side : Side) (notional : Z) : Z := match side with Buy => - notional | Sell => notional end.
Definition trade_fits (side : Side) (lock : Z) (trade : Trade) : Prop :=
  let q := nn_val (trade_quantity trade) in
  let notional := mul_units (sg_val (trade_price trade)) q in
  lock_fits lock q /\ whole_product (sg_val (trade_price trade)) q /\ on_grid sc C notional /\
  on_grid sc C (reserved_at side lock q + flow_of side notional).
Definition trade_moves (u s : Asset) (side : Side) (lock : Z) (trade : Trade) : Moves :=
  let q := nn_val (trade_quantity trade) in
  moves_add (exchange_moves account u s side (mul_units (sg_val (trade_price trade)) q) q)
    (release_moves account u s side lock q).

Lemma nonzero_fee_moves fee key : fee_moves account (has_nonzero_fee fee) key = fee_moves account fee key.
Proof.
  destruct fee as [fee|]; [|done]. unfold has_nonzero_fee, opt_filter. cbn. rewrite sg_is_zero_val.
  destruct (Z.eqb_spec (sg_val (ma_amount fee)) 0) as [Hz|]; [|done]. cbn [negb fee_moves]. rewrite Hz.
  revert key. moves_eq.
Qed.

Lemma halt_unless_quiet (reason : option PnlHaltReason) asset :
  quiet (fun '(d, st) =>
    match reason, ld_pnl_outcome (fd_underlying d) with
    | Some reason, (None | Some (Ok _)) => halt_position_pnl account asset reason (d, st)
    | _, _ => (d, st)
    end).
Proof.
  intros K d st HK Hl. destruct reason as [reason|]; [|by apply quiet_id].
  destruct (ld_pnl_outcome _) as [[]|]; try by apply halt_position_quiet. by apply quiet_id.
Qed.

(** A trade fill. *)
Lemma settles_trade_fill self group currency settings u s side trade fee lock p :
  locked_at self lock p -> trade_fits side (sg_val p) trade -> fee_fits fee ->
  settles 10 (apply_trade_fill self group currency settings account u s side trade fee lock)
    (moves_add (trade_moves u s side (sg_val p) trade) (fee_moves account fee)).
Proof.
  intros Hp (Hl & Hw & Hn & Hcf) Hfee. unfold apply_trade_fill. cbv zeta.
  destruct (position_size_val (trade_price trade) (trade_quantity trade) Hw (on_grid_C _ Hn)) as (notional & En & Vn).
  eapply settles_lift; [by rewrite En|]. apply settles_get. intros [d st]. cbv zeta. open_pair.
  destruct (settlement_held_val self "settlement fill" s side (trade_quantity trade) lock p Hp Hl) as (consume & Ec & Vc).
  eapply settles_lift; [exact Ec|].
  destruct (settlement_incoming_val self "sell fill" s side (trade_quantity trade) lock p Hp Hl) as (incoming & Ei & Vi).
  eapply settles_lift; [exact Ei|]. open_pair. cbv zeta.
  set (flow := match side with Buy => neg notional | Sell => notional end).
  assert (Vf : sg_val flow = match side with Buy => - sg_val notional | Sell => sg_val notional end).
  { unfold flow. destruct side; [apply neg_val|done]. }
  assert (Hfee' : fee_fits (has_nonzero_fee fee)).
  { destruct fee as [fee|]; [|done]. unfold has_nonzero_fee, opt_filter. cbn. by destruct (negb _). }
  eapply (settles_weaken (8 + 2) 10); [|lia|].
  - settle_seq.
    { apply (settles_fill_legs u s side (quantity_to_position_size (trade_quantity trade)) consume flow incoming _ _ (sg_val notional)).
      - apply Hl.
      - rewrite Vc. by apply reserved_grid.
      - rewrite Vi. by apply proceeds_grid.
      - rewrite Vc, Vf, Vn. exact Hcf.
      - exact Vf. }
    apply settles_last0.
    { instantiate (1 := fee_moves account (has_nonzero_fee fee)).
      destruct (has_nonzero_fee fee) as [f|]; [by apply settles_fee_debit|].
      eapply settles_weaken; [apply settles_ret|lia|done]. }
    intros _. apply settles_seq0.
    { apply settles_do, halt_unless_quiet. }
    intros _. open_pair.
    apply settles_seq0; [apply settles_do, fold_fee_quiet|intros _].
    apply settles_seq0; [account_part|intros [account_pnl block]; apply settles_ret].
  - intros key. unfold moves_add at 1 3. rewrite nonzero_fee_moves. f_equal.
    unfold trade_moves, release_moves. rewrite Vc, Vi, Vn. done.
Qed.

(** *** The report *)

Definition report_fits self (request : ExecutionRequestView) (p : Price) : Prop :=
  locked_at self (ex_lock request) p /\ fee_fits (ex_fee request) /\
  match ex_last_trade request with Some trade => trade_fits (ex_side request) (sg_val p) trade | None => True end /\
  lock_fits (sg_val p) (nn_val (ex_remaining_reserved_quantity request)).

(** The trade's exchange and release, the fee, and for a final report the release
    of what remains reserved. *)
Definition report_moves (request : ExecutionRequestView) (p : Price) : Moves :=
  let u := underlying_asset (ex_instrument request) in
  let s := settlement_asset (ex_instrument request) in
  moves_add
    (moves_add (match ex_last_trade request with
                | Some trade => trade_moves u s (ex_side request) (sg_val p) trade
                | None => moves_none
                end)
       (fee_moves account (ex_fee request)))
    (if ex_is_final request
     then release_moves account u s (ex_side request) (sg_val p) (nn_val (ex_remaining_reserved_quantity request))
     else moves_none).

(** [room n B K]: room for [n] more additions. *)
Definition room (n : nat) (B K : Z) : Prop := B + Z.of_nat n * C < DEC_COEFF /\ K + Z.of_nat n * C < DEC_COEFF.

Lemma apply_economics_moves self group currency settings request p B K d st :
  ex_account_id request = account -> report_fits self request p ->
  slots_grid B st -> deltas_grid K d -> room 10 B K -> lease_free st ->
  let '(_, (d', st')) := apply_economics self group currency settings request (d, st) in
  slots_moved st st'
    (moves_add (match ex_last_trade request with
                | Some trade => trade_moves (underlying_asset (ex_instrument request))
                    (settlement_asset (ex_instrument request)) (ex_side request) (sg_val p) trade
                | None => moves_none
                end)
       (fee_moves account (ex_fee request))) /\
  slots_grid (B + Z.of_nat 10 * C) st' /\ deltas_grid (K + Z.of_nat 10 * C) d' /\ ledger_only st st'.
Proof.
  intros Ha (Hp & Hfee & Ht & _) HB HK [R1 R2] Hl. unfold apply_economics. rewrite Ha.
  assert (H : forall A (c : Settle A) moves, settles 10 c moves ->
     let '(_, (d', st')) := c (d, st) in
     slots_moved st st' moves /\ slots_grid (B + Z.of_nat 10 * C) st' /\ deltas_grid (K + Z.of_nat 10 * C) d' /\ ledger_only st st').
  { intros A c moves H. destruct (H B K d st) as (a & d' & st' & -> & ?); done. }
  destruct (ex_last_trade request) as [trade|].
  - specialize (H _ _ _ (settles_trade_fill self group currency settings (underlying_asset (ex_instrument request))
      (settlement_asset (ex_instrument request)) (ex_side request) trade (ex_fee request) (ex_lock request) p Hp Ht Hfee)).
    by destruct (apply_trade_fill _ _ _ _ _ _ _ _ _ _ _ _) as [r [d' st']].
  - destruct (ex_fee request) as [fee|].
    + assert (Hs : settles 10 (apply_execution_fee self group currency settings account (underlying_asset (ex_instrument request))
        (settlement_asset (ex_instrument request)) fee) (moves_add moves_none (fee_moves account (Some fee)))).
      { eapply (settles_weaken 2); [by apply settles_execution_fee|lia|moves_eq]. }
      specialize (H _ _ _ Hs). by destruct (apply_execution_fee _ _ _ _ _ _ _ _ _) as [r [d' st']].
    + assert (Hs : settles (A:=unit) 10 (mret tt) (moves_add moves_none (fee_moves account None))).
      { eapply (settles_weaken 0); [apply settles_ret|lia|moves_eq]. }
      exact (H _ _ _ Hs).
Qed.

Lemma apply_release_moves self request p B K d st :
  ex_account_id request = account -> report_fits self request p ->
  slots_grid B st -> deltas_grid K d -> room 8 B K -> lease_free st ->
  let '(_, (d', st')) := apply_release self request (d, st) in
  slots_moved st st'
    (if ex_is_final request
     then release_moves account (underlying_asset (ex_instrument request)) (settlement_asset (ex_instrument request))
            (ex_side request) (sg_val p) (nn_val (ex_remaining_reserved_quantity request))
     else moves_none) /\
  slots_grid (B + Z.of_nat 8 * C) st' /\ ledger_only st st'.
Proof.
  intros Ha (Hp & _ & _ & Hr) HB HK [R1 R2] Hl. unfold apply_release. rewrite Ha.
  assert (HB' : slots_grid (B + Z.of_nat 8 * C) st) by (eapply slots_grid_le; [|done]; lia).
  destruct (ex_is_final request); cbn [andb].
  2:{ split_and!; [apply slots_moved_refl|done|apply ledger_only_refl]. }
  destruct (nn_is_zero (ex_remaining_reserved_quantity request)) eqn:Ez; cbn [negb].
  - split_and!; [|done|apply ledger_only_refl].
    assert (nn_val (ex_remaining_reserved_quantity request) = 0) as ->.
    { unfold nn_is_zero in Ez. dec_norm. by apply Z.eqb_eq in Ez. }
    eapply slots_moved_ext; [apply slots_moved_refl|]. intros key. by rewrite release_nothing.
  - destruct (settles_cancel_release self (underlying_asset (ex_instrument request))
      (settlement_asset (ex_instrument request)) (ex_side request) (ex_remaining_reserved_quantity request)
      (ex_lock request) p Hp Hr B K d st) as (a & d' & st' & -> & H1 & H2 & H3 & H4); done.
Qed.

Lemma post_group_state ctx (s : GroupCell * EngineState W) :
  exists g cell, post_state_account_group ctx s = (g, (cell, s.2)).
Proof.
  destruct s as [cell st]. unfold post_state_account_group. cbn [fst snd].
  destruct (pstc_account ctx); [by do 2 eexists|]. destruct (group_lookup None cell st) as [g cell']. by exists g, cell'.
Qed.

(** The quantities a report moves, at every slot. *)
Lemma request_moves self ctx request cell st p B :
  ex_account_id request = account -> report_fits self request p -> slots_grid B st -> 0 <= B ->
  B + Z.of_nat 18 * C < DEC_COEFF -> lease_free st ->
  let '(_, (_, st')) := apply_execution_request_impl self ctx request (cell, st) in
  slots_moved st st' (report_moves request p) /\ slots_grid (B + Z.of_nat 18 * C) st' /\ ledger_only st st'.
Proof.
  intros Ha Hf HB HB0 HB' Hl.
  assert (HK : deltas_grid 0 deltas_new) by (split_and!; try apply leg_new_grid; done).
  unfold apply_execution_request_impl. cbn [fst snd]. destruct (is_economic request) eqn:Eec.
  - destruct (post_group_state ctx (cell, st)) as (g & cell' & ->). cbn [snd].
    pose proof (apply_economics_moves self g (post_account_currency ctx st g) (sf_settings (sf_of st)) request p B 0
      deltas_new st Ha Hf HB HK ltac:(split; lia) Hl) as H1.
    destruct (apply_economics _ _ _ _ _ _) as [[blocks pnls] [d1 st1]]. destruct H1 as (M1 & G1 & K1 & Lo1).
    pose proof (apply_release_moves self request p _ _ d1 st1 Ha Hf G1 K1 ltac:(split; lia) ltac:(by apply Lo1)) as H2.
    destruct (apply_release _ _ _) as [released [d2 st2]]. destruct H2 as (M2 & G2 & Lo2).
    split_and!; [by eapply slots_moved_trans|eapply slots_grid_le; [|done]; lia|by eapply ledger_only_trans].
  - pose proof (apply_release_moves self request p B 0 deltas_new st Ha Hf HB HK ltac:(split; lia) Hl) as H2.
    destruct (apply_release _ _ _) as [released [d2 st2]]. destruct H2 as (M2 & G2 & Lo2).
    split_and!; [|eapply slots_grid_le; [|done]; lia|done].
    eapply slots_moved_ext; [exact M2|]. intros key. unfold report_moves, is_economic in *.
    destruct (ex_last_trade request); [done|]. unfold moves_add.
    assert (Hz : fee_moves account (ex_fee request) key = move_zero); [|rewrite Hz; apply move_eq; cbn; lia].
    destruct (ex_fee request) as [fee|]; [|done]. cbn in Eec. dec_norm. apply negb_false_iff, Z.eqb_eq in Eec.
    cbn. rewrite Eec. revert key. moves_eq.
Qed.

End Logic.
