(* ===== verification/SpotFundsLifecycle.v ===== *)
(** * SpotFundsLifecycle: an order from its reservation to its last report

    The reservation of an order, the reports on it, and whatever other orders do in
    between: when the order is closed its reservation has been given back to the
    last unit and the slots differ by the trades and fees alone. *)
From S2P Require Import Prelude.
From S2P Require Import Decimal.
From S2P Require Import Param.
From S2P Require Import ParamTypes.
From S2P Require Import Identifiers.
From S2P Require Import Mutation.
From S2P Require Import Reject.
From S2P Require Import AccountControl.
From S2P Require Import Accounts.
From S2P Require Import Lock.
From S2P Require Import Policy.
From S2P Require Import Engine.
From S2P Require Import EngineFacts.
From S2P Require Import Storage.
From S2P Require Import Holdings.
From S2P Require Import HoldingsFacts.
From S2P Require Import HoldingsStore.
From S2P Require Import Instruments.
From S2P Require Import MarketData.
From S2P Require Import PnlBounds.
From S2P Require Import SpotFundsSettings.
From S2P Require Import SpotFundsParts.
From S2P Require Import SpotFunds.
From S2P Require Import SpotFundsReservation.
From S2P Require Import SpotFundsExecution.
From S2P Require Import SpotFundsFacts.
From S2P Require Import SpotFundsReservationFacts.
From S2P Require Import SpotFundsExecutionFacts.
Open Scope Z_scope.

Section Lifecycle.
Context {D : DecimalOps} {L : DecimalLaws D} {F : DecimalFormat} {G : DecimalDebug} {W Order : Type}.
Context {HI : HasInstrument Order} {HS : HasSide Order} {HA : HasTradeAmount Order} {HP : HasOrderPrice Order}.
Context {O : Owns W SpotFundsState} {M : MarketDataSource W} {LW : LeaseWaits W}.
Context (sc : nat) (Hsc : (sc <= DEC_MAX_SCALE)%nat) (C : Z) (HC : 0 <= C < DEC_COEFF).
Implicit Types (self : SpotFundsPolicy) (st : EngineState W) (account : AccountId).

Definition moves_opp (m : Moves) : Moves :=
  fun key => mkMove (- mv_available (m key)) (- mv_held (m key)) (- mv_incoming (m key)).
Definition moves_sum {A} (f : A -> Moves) (l : list A) : Moves := foldr (fun x acc => moves_add (f x) acc) moves_none l.

(** ** The reservation *)

Lemma flow_filter amount account (s1 s2 : ReservationStep) key :
  (forall step, touches step = false -> sg_val (amount step) = 0) ->
  flow amount account (List.filter touches [s1; s2]) key = flow amount account [s1; s2] key.
Proof.
  intros Ha. unfold flow. cbn. destruct (touches s1) eqn:E1, (touches s2) eqn:E2; cbn;
    repeat match goal with H : touches _ = false |- _ => apply Ha in H end; repeat case_decide; lia.
Qed.

Lemma untouched_held step : touches step = false -> sg_val (step_held step) = 0 /\ sg_val (step_incoming step) = 0.
Proof.
  unfold touches. rewrite orb_false_iff, !negb_false_iff. intros [H1 H2]. dec_norm. by rewrite !Z.eqb_eq in *.
Qed.

(** The legs of an order at the price it is locked at. *)
Definition priced_legs (side : Side) dc (amount : TradeAmount) (p : Price) : result Reject ReservationLegs :=
  match side with Buy => buy_legs dc amount p | Sell => sell_legs dc amount p end.

(** The quantity an order stands for at a price: the one it names, or the one its
    volume buys.  A bought volume is reserved as such, so it must be the price times
    that quantity with nothing lost in the division; a sold one is reserved by its
    quantity, whatever the division lost. *)
Definition sized (amount : TradeAmount) dc (side : Side) (p : Price) (q : Quantity) : Prop :=
  match amount with
  | TA_Quantity q' => q' = q
  | TA_Volume v =>
      volume_quantity dc v p = Ok q /\
      (side = Buy -> sg_val (signed_volume v p) = mul_units (sg_val p) (nn_val q))
  end.

(** What a sized order puts on its legs, in units. *)
Lemma sized_legs side dc amount p q legs :
  priced_legs side dc amount p = Ok legs -> sized amount dc side p q ->
  whole_product (sg_val p) (nn_val q) -> representable (mul_units (sg_val p) (nn_val q)) ->
  legs_lock_price legs = Some p /\
  let n := mul_units (sg_val p) (nn_val q) in
  match side with
  | Buy => sg_val (legs_underlying legs) = 0 /\ sg_val (legs_settlement legs) = Z.max 0 n /\
           sg_val (legs_base_incoming legs) = nn_val q /\ sg_val (legs_settlement_incoming legs) = 0
  | Sell => sg_val (legs_underlying legs) = nn_val q /\ sg_val (legs_settlement legs) = Z.max 0 (- n) /\
            sg_val (legs_base_incoming legs) = 0 /\ sg_val (legs_settlement_incoming legs) = Z.max 0 n
  end.
Proof.
  intros El Hs Hw Hr. destruct (position_size_val p q Hw Hr) as (notional & En & Vn).
  unfold priced_legs, buy_legs, sell_legs in El. destruct side, amount as [q'|v]; cbn [sized] in Hs; subst;
    cbn [mbind result_bind] in El.
  1,3: rewrite En in El; cbn [mbind result_bind map_err] in El.
  3: destruct Hs as [Hv Hs]; rewrite Hv in El; specialize (Hs eq_refl); cbn [fmap result_fmap mbind result_bind] in El.
  4: destruct Hs as [Hv _]; rewrite Hv in El; cbn [mbind result_bind] in El; rewrite En in El; cbn [mbind result_bind map_err] in El.
  all: injection El as <-; cbn; rewrite ?non_negative_val, ?neg_val, ?sg_ZERO_val, ?Vn, ?Hs; by split_and!.
Qed.

(** An order reserves exactly what releasing its quantity at its lock price gives
    back. *)
Lemma reservation_moves account (request : OrderRequestView) legs dc q p :
  priced_legs (rq_side request) dc (rq_trade_amount request) p = Ok legs ->
  sized (rq_trade_amount request) dc (rq_side request) p q ->
  whole_product (sg_val p) (nn_val q) -> representable (mul_units (sg_val p) (nn_val q)) ->
  forall key, mkMove (- held_flow account (steps_of request legs) key) (held_flow account (steps_of request legs) key)
                (incoming_flow account (steps_of request legs) key) =
    moves_opp (release_moves account (underlying_asset (rq_instrument request))
                 (settlement_asset (rq_instrument request)) (rq_side request) (sg_val p) (nn_val q)) key.
Proof.
  intros El Hs Hw Hr key. unfold steps_of, held_flow, incoming_flow.
  rewrite !flow_filter by (intros; by apply untouched_held).
  destruct (sized_legs _ _ _ _ _ _ El Hs Hw Hr) as [_ Hlegs].
  unfold moves_opp, release_moves, reserved_at, proceeds_at, moves_add, moves_at, move_add, flow.
  destruct (rq_side request); destruct Hlegs as (V1 & V2 & V3 & V4); cbn; rewrite ?V1, ?V2, ?V3, ?V4;
    repeat case_decide; subst; simplify_eq; apply move_eq; cbn; lia.
Qed.

Lemma compute_legs_priced self (request : OrderRequestView) group ctx settings w legs p :
  compute_reservation_legs self request group ctx settings w = Ok legs -> legs_lock_price legs = Some p ->
  priced_legs (rq_side request) (is_drop_copy ctx) (rq_trade_amount request) p = Ok legs.
Proof.
  intros E Hp. unfold compute_reservation_legs in E. unfold priced_legs.
  destruct (rq_side request); apply result_bind_Ok in E as (price & _ & E); replace p with price; try done.
  - unfold buy_legs in E. apply result_bind_Ok in E as ([notional base] & _ & [= <-]). cbn in Hp. congruence.
  - unfold sell_legs in E. apply result_bind_Ok in E as (qty & _ & E). apply result_bind_Ok in E as (notional & _ & [= <-]).
    cbn in Hp. congruence.
Qed.

(** The legs of a limit order, and the price they are locked at. *)
Lemma limit_legs self (request : OrderRequestView) group ctx settings w legs q p :
  compute_reservation_legs self request group ctx settings w = Ok legs ->
  sized (rq_trade_amount request) (is_drop_copy ctx) (rq_side request) p q ->
  rq_price request = Some p -> lock_fits sc C (sg_val p) (nn_val q) ->
  legs_grid sc C legs /\ legs_lock_price legs = Some p.
Proof.
  intros E Hs Hp (Hw & Hg & Hq). unfold compute_reservation_legs in E. rewrite Hp in E.
  assert (El : priced_legs (rq_side request) (is_drop_copy ctx) (rq_trade_amount request) p = Ok legs)
    by (unfold priced_legs; by destruct (rq_side request)).
  destruct (sized_legs _ _ _ _ _ _ El Hs Hw ltac:(eapply on_grid_repr; [exact Hsc|apply HC|exact Hg])) as [Hl V].
  split; [|done]. assert (H0 : on_grid sc C 0) by (apply on_grid_0; lia).
  assert (Hmax : forall z, on_grid sc C z -> on_grid sc C (Z.max 0 z)).
  { intros z Hz. by destruct (Z.max_spec 0 z) as [[_ ->]|[_ ->]]. }
  unfold legs_grid. destruct (rq_side request); destruct V as (-> & -> & -> & ->); auto using on_grid_opp.
Qed.

(** ** The reports of an order *)

(** A history: the reports of one order in their turn, and other activity on the
    engine's state between them, of which only its moves are known. *)
Inductive order_history self account (p : Price) :
    list ExecutionRequestView -> EngineState W -> EngineState W -> Moves -> Prop :=
| oh_done st : order_history self account p [] st st moves_none
| oh_report ctx cell (request : ExecutionRequestView) requests B st st' st'' e :
    ex_account_id request = account -> report_fits sc C self request p ->
    slots_grid sc B st -> 0 <= B -> B + 18 * C < DEC_COEFF -> lease_free account st ->
    (apply_execution_request_impl self ctx request (cell, st)).2.2 = st' ->
    order_history self account p requests st' st'' e ->
    order_history self account p (request :: requests) st st'' e
| oh_others requests st st' st'' e e' :
    slots_moved st st' e -> order_history self account p requests st' st'' e' ->
    order_history self account p requests st st'' (moves_add e e').

Lemma history_moves self account p requests st st' e :
  order_history self account p requests st st' e ->
  slots_moved st st' (moves_add (moves_sum (fun request => report_moves account request p) requests) e).
Proof.
  induction 1 as [st|ctx cell request requests B st st' st'' e Ha Hf Hg HB0 HB Hl E _ IH|requests st st' st'' e e' Ho _ IH].
  - eapply slots_moved_ext; [apply slots_moved_refl|moves_eq].
  - assert (HB' : B + Z.of_nat 18 * C < DEC_COEFF) by lia.
    pose proof (request_moves sc Hsc C HC account self ctx request cell st p B Ha Hf Hg HB0 HB' Hl) as Hm.
    destruct (apply_execution_request_impl _ _ _ _) as [res [cell' st1]]. cbn in E. subst st1.
    destruct Hm as (Hm & _). eapply slots_moved_ext; [by eapply slots_moved_trans|]. unfold moves_sum. cbn [foldr]. moves_eq.
  - eapply slots_moved_ext; [by eapply slots_moved_trans|]. moves_eq.
Qed.

(** The reports belong to the order: same assets and side. *)
Definition reports_on (u s : Asset) (side : Side) (requests : list ExecutionRequestView) : Prop :=
  Forall (fun request => underlying_asset (ex_instrument request) = u /\
            settlement_asset (ex_instrument request) = s /\ ex_side request = side) requests.

Definition filled (request : ExecutionRequestView) : Z :=
  match ex_last_trade request with Some trade => nn_val (trade_quantity trade) | None => 0 end.
Definition filled_all (requests : list ExecutionRequestView) : Z := foldr (fun r acc => filled r + acc) 0 requests.

(** Only the last report is final, and the fills and what it leaves unfilled make up
    the quantity. *)
Definition closes (requests : list ExecutionRequestView) (q : Z) : Prop :=
  exists init last, requests = init ++ [last] /\ Forall (fun r => ex_is_final r = false) init /\
    ex_is_final last = true /\ filled_all requests + nn_val (ex_remaining_reserved_quantity last) = q.

(** What the trades of a report exchange, and what its fee takes. *)
Definition traded account (u s : Asset) (side : Side) (request : ExecutionRequestView) : Moves :=
  moves_add
    match ex_last_trade request with
    | Some trade =>
        exchange_moves account u s side
          (mul_units (sg_val (trade_price trade)) (nn_val (trade_quantity trade))) (nn_val (trade_quantity trade))
    | None => moves_none
    end (fee_moves account (ex_fee request)).

(** Releasing is additive in the quantity when products are whole. *)
Lemma mul_units_add lock x y : whole_product lock x -> whole_product lock y ->
  mul_units lock (x + y) = mul_units lock x + mul_units lock y /\ whole_product lock (x + y).
Proof.
  unfold whole_product. intros Hx Hy.
  assert (E : mul_units lock (x + y) = mul_units lock x + mul_units lock y).
  { unfold mul_units at 1. rewrite Z.mul_add_distr_l, Hx, Hy, <- Z.mul_add_distr_r. by apply Z.div_mul. }
  split; [done|]. rewrite E. lia.
Qed.

Lemma mul_units_sign lock x : 0 <= x -> whole_product lock x ->
  (0 <= lock -> 0 <= mul_units lock x) /\ (lock <= 0 -> mul_units lock x <= 0).
Proof.
  intros Hx Hw. unfold whole_product in Hw. assert (0 < DEC_UNIT) by done. split; intros Hl; nia.
Qed.

Lemma reserved_add side lock x y : 0 <= x -> 0 <= y -> whole_product lock x -> whole_product lock y ->
  reserved_at side lock (x + y) = reserved_at side lock x + reserved_at side lock y /\
  proceeds_at side lock (x + y) = proceeds_at side lock x + proceeds_at side lock y.
Proof.
  intros H0 H1 Hx Hy. destruct (mul_units_add lock x y Hx Hy) as [E _].
  destruct (mul_units_sign lock x H0 Hx), (mul_units_sign lock y H1 Hy).
  unfold reserved_at, proceeds_at. destruct side; rewrite E; split; lia.
Qed.

Lemma release_add account u s side lock x y key : 0 <= x -> 0 <= y -> whole_product lock x -> whole_product lock y ->
  release_moves account u s side lock (x + y) key =
  moves_add (release_moves account u s side lock x) (release_moves account u s side lock y) key.
Proof.
  intros H0 H1 Hx Hy. destruct (reserved_add side lock x y H0 H1 Hx Hy) as [Er Ep].
  unfold release_moves. rewrite Er, Ep. revert key. destruct side; moves_eq.
Qed.

Lemma history_fits self account p requests st st' e :
  order_history self account p requests st st' e -> Forall (fun request => report_fits sc C self request p) requests.
Proof. induction 1; auto. Qed.

(** The parameter types keep quantities non-negative. *)
Definition quantities_wf (requests : list ExecutionRequestView) : Prop :=
  Forall (fun request => 0 <= filled request /\ 0 <= nn_val (ex_remaining_reserved_quantity request)) requests.

(** A report exchanges what it trades and releases what it fills, and what is left
    when it is final. *)
Lemma report_split self account u s side request p key :
  underlying_asset (ex_instrument request) = u -> settlement_asset (ex_instrument request) = s -> ex_side request = side ->
  report_moves account request p key =
  moves_add (traded account u s side request)
    (moves_add (release_moves account u s side (sg_val p) (filled request))
       (if ex_is_final request
        then release_moves account u s side (sg_val p) (nn_val (ex_remaining_reserved_quantity request))
        else moves_none)) key.
Proof.
  intros Hu Hs Hd. unfold report_moves, traded, filled, trade_moves. rewrite Hu, Hs, Hd.
  destruct (ex_last_trade request) as [trade|].
  - unfold moves_add. apply move_eq; cbn; lia.
  - unfold moves_add. rewrite release_nothing. apply move_eq; cbn; lia.
Qed.

Lemma open_reports_split self account u s side p requests key :
  reports_on u s side requests -> quantities_wf requests ->
  Forall (fun request => report_fits sc C self request p) requests -> Forall (fun r => ex_is_final r = false) requests ->
  whole_product (sg_val p) (filled_all requests) /\ 0 <= filled_all requests /\
  moves_sum (fun request => report_moves account request p) requests key =
  moves_add (moves_sum (traded account u s side) requests)
    (release_moves account u s side (sg_val p) (filled_all requests)) key.
Proof.
  intros Ho Hq Hf Hn. induction requests as [|r rs IH].
  { split_and!; [unfold whole_product, mul_units; cbn; rewrite Z.mul_0_r; done|done|].
    cbn. unfold moves_add. by rewrite release_nothing. }
  apply Forall_cons in Ho as [(Hu & Hs & Hd) Ho], Hq as [[Hq1 Hq2] Hq], Hf as [Hr Hf], Hn as [Hn1 Hn].
  destruct (IH Ho Hq Hf Hn) as (Hw & H0 & E).
  assert (Hw1 : whole_product (sg_val p) (filled r)).
  { destruct Hr as (_ & _ & Ht & _). unfold filled. destruct (ex_last_trade r); [apply Ht|].
    unfold whole_product, mul_units. by rewrite Z.mul_0_r. }
  unfold filled_all. cbn [foldr]. fold (filled_all rs).
  split_and!; [by apply mul_units_add|lia|].
  unfold moves_sum. cbn [foldr]. fold (moves_sum (fun request => report_moves account request p) rs).
  fold (moves_sum (traded account u s side) rs). unfold moves_add at 1. rewrite E, (report_split self account u s side r p key Hu Hs Hd), Hn1.
  unfold moves_add. rewrite release_add by done. unfold moves_add. apply move_eq; cbn; lia.
Qed.

(** The reports that close an order release all of its quantity. *)
Lemma closing_reports_split self account u s side p requests q key :
  reports_on u s side requests -> quantities_wf requests ->
  Forall (fun request => report_fits sc C self request p) requests -> closes requests q ->
  moves_sum (fun request => report_moves account request p) requests key =
  moves_add (moves_sum (traded account u s side) requests) (release_moves account u s side (sg_val p) q) key.
Proof.
  intros Ho Hq Hf (init & last & -> & Hn & Hl & Hsum).
  apply Forall_app in Ho as [Ho1 Ho2], Hq as [Hq1 Hq2], Hf as [Hf1 Hf2].
  rewrite Forall_singleton in Ho2, Hq2, Hf2. destruct Ho2 as (Hu & Hs & Hd), Hq2 as [Hq2 Hq3].
  destruct (open_reports_split self account u s side p init key Ho1 Hq1 Hf1 Hn) as (Hw & H0 & E).
  assert (Hsums : forall f : ExecutionRequestView -> Moves,
            moves_sum f (init ++ [last]) key = moves_add (moves_sum f init) (f last) key).
  { intros f. clear. unfold moves_sum. induction init as [|r rs IH]; cbn [foldr app].
    - apply move_eq; cbn; lia.
    - unfold moves_add at 1. rewrite IH. unfold moves_add. apply move_eq; cbn; lia. }
  assert (Hfa : filled_all (init ++ [last]) = filled_all init + filled last).
  { clear. unfold filled_all. induction init as [|r rs IH]; cbn [foldr app]; lia. }
  rewrite !Hsums. unfold moves_add at 1. rewrite E, (report_split self account u s side last p key Hu Hs Hd), Hl.
  destruct Hf2 as (_ & _ & Ht & (Hwr & _)).
  assert (Hw1 : whole_product (sg_val p) (filled last)).
  { unfold filled. destruct (ex_last_trade last); [apply Ht|]. unfold whole_product, mul_units. by rewrite Z.mul_0_r. }
  rewrite <- Hsum, Hfa. unfold moves_add. rewrite Hsums, !release_add; try done; try lia; [|by apply mul_units_add].
  unfold moves_add. rewrite ?release_add by done. unfold moves_add. apply move_eq; cbn; lia.
Qed.

(** ** The whole life of an order *)

Lemma reserved_moves account steps st st' (moves : Moves) :
  reserved account steps st st' ->
  (forall key, mkMove (- held_flow account steps key) (held_flow account steps key) (incoming_flow account steps key) =
     moves key) -> slots_moved st st' moves.
Proof. intros Hr E key. rewrite <- E. by apply moved_quantities. Qed.

(** C6: an order gives back exactly what it reserved.  Take an order that the
    pre-trade hook accepted - for a quantity, or for a volume that stands for one at
    the lock price ([sized]: a bought volume must divide exactly) - and its reports in
    their turn with any other activity in between, the last one final and fills and
    remainder making up the quantity.  On a common scale where no product and no sum
    rounds, the slots then differ from those before the order by the traded
    quantities, the trades' notionals at the prices they had, the fees, and the other
    activity: whatever price the reservation was made at, no held or incoming amount
    of it is left, and no P&L halt, missing rate or currency changes that. *)
Theorem order_settles self ctx (order : Order) ms s outcome ms' s' B
    (request : OrderRequestView) legs q p requests st e :
  deferring ctx s -> perform_pre_trade_check_impl self ctx order ms s = (Ok outcome, ms', s') ->
  slots_grid sc B s.2 -> (forall request legs, legs_of self ctx order s request legs -> legs_grid sc C legs) ->
  (forall account, 0 <= active_of s.2 account /\ active_of s.2 account + 2 <= USIZE_MAX) -> B + 2 * C < DEC_COEFF ->
  legs_of self ctx order s request legs ->
  legs_lock_price legs = Some p -> sized (rq_trade_amount request) (is_drop_copy ctx) (rq_side request) p q ->
  lock_fits sc C (sg_val p) (nn_val q) ->
  order_history self (rq_account_id request) p requests s'.2 st e ->
  let u := underlying_asset (rq_instrument request) in
  let a := settlement_asset (rq_instrument request) in
  reports_on u a (rq_side request) requests -> quantities_wf requests -> closes requests (nn_val q) ->
  slots_moved s.2 st (moves_add (moves_sum (traded (rq_account_id request) u a (rq_side request)) requests) e).
Proof.
  intros Hd E Hg Hlg Ha HB Hlegs Hp Hq (Hw & Hwg & _) Hh u a Ho Hwf Hc.
  destruct (hook_effect sc Hsc self ctx order ms s (Ok outcome) ms' s' B C Hd E Hg Hlg Ha ltac:(lia) HB)
    as (account & steps & new & _ & Hres & _ & _ & _ & (request' & legs' & Hlegs' & -> & ->) & _).
  destruct Hlegs as [Hr Hl], Hlegs' as [Hr' Hl']. assert (request' = request) as -> by congruence.
  assert (legs' = legs) as -> by congruence.
  pose proof (compute_legs_priced _ _ _ _ _ _ _ _ Hl Hp) as Hpriced.
  assert (Hrep : representable (mul_units (sg_val p) (nn_val q))) by (eapply on_grid_repr; [exact Hsc|apply HC|exact Hwg]).
  pose proof (reservation_moves (rq_account_id request) request legs _ q p Hpriced Hq Hw Hrep) as Hm.
  pose proof (reserved_moves _ _ _ _ _ Hres Hm) as M1. pose proof (history_moves _ _ _ _ _ _ _ Hh) as M2.
  eapply slots_moved_ext; [by eapply slots_moved_trans|]. intros key.
  pose proof (closing_reports_split self (rq_account_id request) u a (rq_side request) p requests (nn_val q) key Ho Hwf
    (history_fits _ _ _ _ _ _ _ Hh) Hc) as Es.
  unfold moves_add in *. rewrite Es. unfold moves_opp. fold u a. apply move_eq; cbn; lia.
Qed.

End Lifecycle.
