(* ===== verification/SpotFundsLedgerFacts.v ===== *)
(** * SpotFundsLedgerFacts: the P&L barriers and the retirement of an account

    Sums of P&L states, the exact condition under which no P&L axis blocks, and what
    retiring an account refuses, keeps and forgets. *)
From S2P Require Import Prelude.
From S2P Require Import Decimal.
From S2P Require Import Param.
From S2P Require Import ParamTypes.
From S2P Require Import Identifiers.
From S2P Require Import Mutation.
From S2P Require Import Reject.
From S2P Require Import AccountControl.
From S2P Require Import Accounts.
From S2P Require Import Lock.
From S2P Require Import Policy.
From S2P Require Import Engine.
From S2P Require Import EngineFacts.
From S2P Require Import Storage.
From S2P Require Import Holdings.
From S2P Require Import HoldingsFacts.
From S2P Require Import HoldingsStore.
From S2P Require Import Instruments.
From S2P Require Import MarketData.
From S2P Require Import PnlBounds.
From S2P Require Import PnlBoundsFacts.
From S2P Require Import SpotFundsSettings.
From S2P Require Import SpotFundsParts.
From S2P Require Import SpotFunds.
From S2P Require Import SpotFundsReservation.
From S2P Require Import SpotFundsFacts.
From S2P Require Import SpotFundsReservationFacts.
Open Scope Z_scope.

(** ** Sums of states *)

Section Sums.
Context {D : DecimalOps} {L : DecimalLaws D}.

Definition reasons (states : list PnlState) : list PnlHaltReason :=
  omap (fun state => match state with PnlHalted reason => Some reason | PnlValue _ => None end) states.
Definition values (states : list PnlState) : list Pnl :=
  omap (fun state => match state with PnlValue v => Some v | PnlHalted _ => None end) states.

(** The values add up without rounding, starting from [z]. *)
Fixpoint exact_from (z : Z) (vs : list Pnl) : Prop :=
  match vs with [] => True | v :: vs => representable (z + sg_val v) /\ exact_from (z + sg_val v) vs end.
Definition total (vs : list Pnl) : Z := foldr (fun v acc => sg_val v + acc) 0 vs.

(** The candidate of highest priority, the first of equals. *)
Definition best (halt : option PnlHaltReason) (rs : list PnlHaltReason) : option PnlHaltReason :=
  foldl select_pnl_halt_reason halt rs.

Lemma sum_fold states sum halt : exact_from (sg_val sum) (values states) ->
  exists sum', foldl sum_pnl_step (sum, halt) states = (sum', best halt (reasons states)) /\
    sg_val sum' = sg_val sum + total (values states).
Proof.
  revert sum halt. induction states as [|[v|reason] states IH]; intros sum halt He.
  - exists sum. cbn. split; [done|lia].
  - cbn in He. destruct He as [Hr He]. destruct (sg_add_val sum v Hr) as (c & E & V).
    destruct (IH c halt) as (sum' & Hf & Hs); [by rewrite V|]. exists sum'. cbn. rewrite E. split; [exact Hf|].
    change (values (PnlValue v :: states)) with (v :: values states). unfold total in *. cbn [foldr].
    fold (values states). lia.
  - destruct (IH sum (select_pnl_halt_reason halt reason) He) as (sum' & Hf & Hs). by exists sum'.
Qed.

Lemma select_best halt r : exists b, select_pnl_halt_reason halt r = Some b /\ (Some b = halt \/ b = r) /\
  pnl_halt_reason_priority b <= pnl_halt_reason_priority r /\
  forall h, halt = Some h -> pnl_halt_reason_priority b <= pnl_halt_reason_priority h.
Proof.
  destruct halt as [h|]; cbn [select_pnl_halt_reason].
  2:{ exists r. split_and!; [done|by right|lia|done]. }
  destruct (Z.ltb_spec (pnl_halt_reason_priority r) (pnl_halt_reason_priority h)).
  - exists r. split_and!; [done|by right|lia|]. intros ? [= <-]. lia.
  - exists h. split_and!; [done|by left|lia|]. intros ? [= <-]. lia.
Qed.

Lemma best_spec halt rs :
  match best halt rs with
  | Some b => (halt = Some b \/ b ∈ rs) /\
      (forall r, r ∈ rs \/ halt = Some r -> pnl_halt_reason_priority b <= pnl_halt_reason_priority r)
  | None => halt = None /\ rs = []
  end.
Proof.
  revert halt. induction rs as [|r rs IH]; intros halt; cbn.
  - destruct halt as [h|]; [|done]. split; [by left|]. intros r [Hr|Hr]; [by apply elem_of_nil in Hr|injection Hr as ->; lia].
  - destruct (select_best halt r) as (b & E & Hb & Hr & Hh). specialize (IH (select_pnl_halt_reason halt r)).
    unfold best in *. destruct (foldl _ _ rs) as [b'|]; [|rewrite E in IH; by destruct IH].
    destruct IH as [Hin Hle]. rewrite E in *. split.
    + destruct Hin as [Hin|Hin]; [injection Hin as <-|right; by right]. destruct Hb as [Hb| ->]; [by left|right; by left].
    + intros r' [[->|Hr']%elem_of_cons|Hh'].
      * specialize (Hle b (or_intror eq_refl)). lia.
      * apply Hle. by left.
      * specialize (Hle b (or_intror eq_refl)). specialize (Hh r' Hh'). lia.
Qed.

(** A sum of states is the sum of their values unless one is halted; then it is
    halted for the reason of highest priority among them. *)
Theorem sum_pnl_states_spec states : exact_from 0 (values states) ->
  match sum_pnl_states states with
  | PnlValue v => reasons states = [] /\ sg_val v = total (values states)
  | PnlHalted r => r ∈ reasons states /\
      forall r', r' ∈ reasons states -> pnl_halt_reason_priority r <= pnl_halt_reason_priority r'
  end.
Proof.
  intros He. unfold sum_pnl_states.
  destruct (sum_fold states sg_ZERO None) as (sum & -> & Hs); [by rewrite sg_ZERO_val|].
  rewrite sg_ZERO_val in Hs. pose proof (best_spec None (reasons states)) as Hb.
  destruct (best None (reasons states)) as [b|].
  - destruct Hb as [[Hn|Hin] Hle]; [done|]. split; [done|]. intros r' Hr'. apply Hle. by left.
  - split; [apply Hb|lia].
Qed.

End Sums.

(** ** The P&L axes *)

Section Axes.
Context {D : DecimalOps} {L : DecimalLaws D} {F : DecimalFormat} {G : DecimalDebug} {W : Type}.
Context {O : Owns W SpotFundsState} {M : MarketDataSource W}.
Implicit Types (self : SpotFundsPolicy) (barrier : SpotFundsPnlBoundsBarrier) (st : EngineState W).

(** A barrier admits a state: it is a value inside the bounds. *)
Definition admits barrier (state : PnlState) : Prop :=
  exists v, state = PnlValue v /\ in_bounds (lower_bound barrier) (upper_bound barrier) v.

(** The barrier's currency is the account's, as far as that is known. *)
Definition currency_agrees (account_currency : option Asset) barrier : Prop :=
  forall c, account_currency = Some c -> c = currency barrier.

Lemma mismatch_None cur barrier :
  account_pnl_barrier_currency_mismatch_block cur barrier = None <-> currency_agrees cur barrier.
Proof.
  unfold account_pnl_barrier_currency_mismatch_block, currency_agrees, opt_filter. destruct cur as [c|]; cbn; [|naive_solver].
  case_bool_decide; cbn; naive_solver.
Qed.

Lemma labelled_None state barrier label : labelled_pnl_block_for_state state barrier label = None <-> admits barrier state.
Proof.
  unfold labelled_pnl_block_for_state, admits. destruct state as [v|reason].
  - pose proof (breached_sides_spec (lower_bound barrier) (upper_bound barrier) v) as H.
    destruct (is_nil_list _); split; try done; [intros _; exists v; split; [done|by apply H]|].
    intros (v' & [= <-] & Hb). by apply H in Hb.
  - split; [done|]. by intros (v & ? & _).
Qed.

Lemma axis_state_None axis asset state barrier : pnl_axis_block_for_state axis asset state barrier = None <-> admits barrier state.
Proof.
  rewrite <- (labelled_None state barrier (pnl_axis_label axis)). unfold pnl_axis_block_for_state.
  by destruct (labelled_pnl_block_for_state _ _ _).
Qed.

(** The ledger's own check, with which every block of the realized axis starts. *)
Lemma account_state_None cur state barrier provenance :
  account_pnl_block_for_state cur state barrier provenance = None <-> currency_agrees cur barrier /\ admits barrier state.
Proof.
  unfold account_pnl_block_for_state. rewrite <- mismatch_None, <- (labelled_None state barrier REALIZED_PNL_LABEL).
  destruct (account_pnl_barrier_currency_mismatch_block _ _); [by split; [|intros []]|].
  destruct (labelled_pnl_block_for_state _ _ _); cbn; naive_solver.
Qed.

Lemma position_axis_None axis barrier positions :
  position_axis_block axis barrier positions = None <->
  Forall (fun '(_, unrealized, total) =>
    admits barrier (if decide (axis = PositionUnrealized) then unrealized else total)) positions.
Proof.
  induction positions as [|[[asset unrealized] total_] positions IH]; cbn; [by split|].
  rewrite Forall_cons, <- IH.
  pose proof (axis_state_None axis (Some asset) (if decide (axis = PositionUnrealized) then unrealized else total_) barrier) as Ha.
  destruct (pnl_axis_block_for_state _ _ _ _); split; try done.
  - intros [H%Ha _]. done.
  - intros ->. split; [by apply Ha|done].
  - by intros [_ ->].
Qed.

Lemma first_axis_None f axes :
  first_axis_block f axes = None <-> forall axis barrier, (axis, Some barrier) ∈ axes -> f axis barrier = None.
Proof.
  induction axes as [|[axis [barrier|]] axes IH]; cbn.
  - split; [|done]. by intros _ axis barrier H%elem_of_nil.
  - destruct (f axis barrier) eqn:E.
    + split; [done|]. intros H. rewrite <- E. apply H. by left.
    + rewrite IH. split; [|intros H ???; apply H; by right]. intros H a b [Hx|Hin]%elem_of_cons; [by injection Hx as -> ->|by apply H].
  - rewrite IH. split; [|intros H ???; apply H; by right]. intros H a b [?|Hin]%elem_of_cons; [done|by apply H].
Qed.

(** What an axis watches: the unrealized and the total P&L of the account and of
    each position. *)
Definition axis_states self cur account group st (axis : SpotFundsPnlBoundsAxis) : list PnlState :=
  let positions := account_positions self account group cur (sf_of st) (es_world st) in
  let unrealized := sum_pnl_states ((fun '(_, value, _) => value) <$> positions) in
  match axis with
  | AccountUnrealized => [unrealized]
  | AccountTotal => [sum_pnl_states [account_pnl_state (sf_of st) account; unrealized]]
  | PositionUnrealized => (fun '(_, value, _) => value) <$> positions
  | PositionTotal => (fun '(_, _, value) => value) <$> positions
  end.

Ltac position_axis :=
  rewrite position_axis_None; split; intros H; [split; [done|]|destruct H as [_ H]];
  (eapply Forall_impl; [exact H|]); intros [[] ].

(** C23: the P&L axes pass an account exactly when, on every axis that has a
    barrier, the barrier is not in another currency than the account's and
    everything the axis watches - the account's or each position's unrealized or
    total P&L at the current quotes - is a value inside the bounds; a state that is
    halted, because a price, a currency or a cost basis is missing or a sum
    overflowed, never passes. *)
Theorem pnl_axis_block_spec self barriers account group cur carry st :
  pnl_axis_block_for_barriers self barriers account group cur carry st = None <->
  forall axis barrier, barriers axis = Some barrier ->
    currency_agrees cur barrier /\ Forall (admits barrier) (axis_states self cur account group st axis).
Proof.
  unfold pnl_axis_block_for_barriers. cbv zeta.
  set (positions := account_positions self account group cur (sf_of st) (es_world st)).
  set (unrealized := sum_pnl_states _).
  assert (He : pe_state (default pnl_entry_zero (sf_pnl (sf_of st) !! account)) = account_pnl_state (sf_of st) account).
  { unfold account_pnl_state. by destruct (sf_pnl (sf_of st) !! account). }
  rewrite He. set (total_ := sum_pnl_states [_; _]). set (token := pe_assertion_token _).
  assert (Haxis : forall axis barrier,
    axis_block cur carry token positions unrealized total_ axis barrier = None <->
    currency_agrees cur barrier /\ Forall (admits barrier) (axis_states self cur account group st axis)).
  { intros axis barrier. unfold axis_block, pnl_axis_currency_mismatch_block.
    rewrite <- mismatch_None. destruct (account_pnl_barrier_currency_mismatch_block cur barrier); cbn; [by split; [|intros []]|].
    unfold axis_states. fold positions unrealized total_. destruct axis; rewrite ?Forall_singleton, ?Forall_fmap.
    - rewrite axis_state_None. naive_solver.
    - rewrite <- (axis_state_None AccountTotal None). destruct (pnl_axis_block_for_state _ _ _ _); cbn; naive_solver.
    - by position_axis.
    - by position_axis. }
  destruct (forallb _ _) eqn:En.
  - split; [|done]. intros _ axis barrier Hb. exfalso.
    rewrite forallb_forall in En. assert (Hin : In axis ALL_AXES) by (destruct axis; cbn; tauto).
    specialize (En axis Hin). by rewrite Hb in En.
  - rewrite first_axis_None. setoid_rewrite Haxis. split.
    + intros H axis barrier Hb. apply H. rewrite <- Hb. apply list_elem_of_fmap. exists axis. split; [done|].
      destruct axis; unfold ALL_AXES; set_solver.
    + intros H axis barrier Hin. apply H. apply list_elem_of_fmap in Hin as (a & [= -> <-] & _). done.
Qed.

End Axes.

(** ** Retiring an account *)

Section Retirement.
Context {D : DecimalOps} {L : DecimalLaws D} {W : Type}.
Context {O : Owns W SpotFundsState}.
Implicit Types (st : EngineState W) (account : AccountId) (ms : Mutations (EngineState W)).

(** Something of the account is under way: holdings being mutated, a lease taken
    or an assertion not yet settled. *)
Definition busy (s : SpotFundsState) account : Prop :=
  (exists count, sf_active s !! account = Some count /\ count <> 0) \/
  (exists lease, sf_leases s !! account = Some (Some lease)) \/
  (exists entry token, sf_pnl s !! account = Some entry /\ pe_assertion_token entry = Some token).

(** Something of the account is worth keeping. *)
Definition worth_keeping (s : SpotFundsState) account : Prop :=
  (exists entry, sf_pnl s !! account = Some entry /\ is_zero_state (pe_state entry) = false) \/
  (exists asset h, store_get (sf_holdings s) (account, asset) = Some h /\ is_retirable h = false).

Lemma busy_spec s account : operation_in_progress s account = true <-> busy s account.
Proof.
  unfold operation_in_progress, busy. rewrite !orb_true_iff. split.
  - intros [[H|H]|H].
    + left. destruct (sf_active s !! account) as [n|]; [|done]. exists n. split; [done|].
      by apply negb_true_iff, Z.eqb_neq in H.
    + right; left. destruct (sf_leases s !! account) as [[l|]|]; [|done..]. by exists l.
    + right; right. destruct (sf_pnl s !! account) as [e|]; [|done]. destruct (pe_assertion_token e) as [t|] eqn:E; [|done].
      by exists e, t.
  - intros [(n & -> & Hn)|[(l & ->)|(e & t & -> & ->)]]; [left; left|left; right; done|right; done].
    by apply negb_true_iff, Z.eqb_neq.
Qed.

Lemma slots_of_spec s account key :
  key ∈ slots_of s account <-> key.1 = account /\ is_Some (store_get (sf_holdings s) key).
Proof.
  unfold slots_of, store_keys, storage_keys, store_get. rewrite list_elem_of_filter, list_elem_of_fmap. split.
  - intros [Ha ([k v] & -> & Hk%elem_of_map_to_list)]. split; [done|by exists v].
  - intros [Ha [v Hv]]. split; [done|]. exists (key, v). split; [done|by apply elem_of_map_to_list].
Qed.

Lemma slots_of_NoDup s account : NoDup (slots_of s account).
Proof. apply NoDup_filter, NoDup_fst_map_to_list. Qed.

(** The slots decide as the scan of the keys does. *)
Lemma kept_slots_spec s account :
  existsb (fun key => match store_get (sf_holdings s) key with
                      | Some holdings => negb (is_retirable holdings)
                      | None => false
                      end) (slots_of s account) = true <->
  exists asset h, store_get (sf_holdings s) (account, asset) = Some h /\ is_retirable h = false.
Proof.
  rewrite existsb_exists. setoid_rewrite <- list_elem_of_In. setoid_rewrite slots_of_spec. split.
  - intros ([a asset] & [Ha [h Hh]] & Hr). cbn in Ha. subst a. rewrite Hh in Hr. exists asset, h.
    split; [done|by apply negb_true_iff].
  - intros (asset & h & Hh & Hr). exists (account, asset). rewrite Hh, Hr. split_and!; [done|by eexists|done].
Qed.

Definition slot_mutation (key : SlotKey) : Mutation (EngineState W) := new_reporting (retire_slot key) quiet_rollback.

Lemma push_slot_mutations ms keys :
  ms_mutations (foldl (fun ms key => mutations_push ms (slot_mutation key)) ms keys) =
  ms_mutations ms ++ (slot_mutation <$> keys).
Proof.
  revert ms. induction keys as [|key keys IH]; intros ms; cbn; [by rewrite app_nil_r|].
  rewrite IH. cbn. by rewrite <- app_assoc.
Qed.

(** Rolled back, the mutations of a retirement do nothing. *)
Lemma undoes_inert (new : list (Mutation (EngineState W))) (w : W) :
  Forall (fun m => forall st, mutation_rollback m st = (rollback_default, st)) new -> undoes new w w.
Proof.
  induction 1 as [|m new Hm _ IH]; [apply undoes_nil|].
  change (m :: new) with ([m] ++ new). eapply undoes_app; [|exact IH].
  intros o st Hw. unfold rollback_all. cbn. rewrite Hm. by split_and!.
Qed.

(** A slot that is retirable is removed, and nothing else. *)
Lemma commit_slots keys failure st : NoDup keys ->
  (forall key, key ∈ keys -> exists h, store_get (sf_holdings (sf_of st)) key = Some h /\ is_retirable h = true) ->
  exists st', foldl commit_step (failure, st) (slot_mutation <$> keys) = (failure, st') /\
    (forall key, store_get (sf_holdings (sf_of st')) key =
       if decide (key ∈ keys) then None else store_get (sf_holdings (sf_of st)) key) /\
    sf_settings (sf_of st') = sf_settings (sf_of st) /\ sf_pnl (sf_of st') = sf_pnl (sf_of st) /\
    sf_active (sf_of st') = sf_active (sf_of st) /\ sf_leases (sf_of st') = sf_leases (sf_of st).
Proof.
  revert st. induction keys as [|k keys IH]; intros st Hd Hz.
  { exists st. split_and!; [done| |done..]. intros key. by rewrite decide_False by apply not_elem_of_nil. }
  apply NoDup_cons in Hd as [Hk Hd]. destruct (Hz k) as (h & Hh & Hr); [by left|].
  destruct (store_remove_if_inner (sf_holdings (sf_of st)) k is_retirable) as [E1 E2]. rewrite Hh, Hr in E1, E2.
  set (store := (store_remove_if (sf_holdings (sf_of st)) k is_retirable).2) in *.
  set (st1 := sf_modify (fun s => set_holdings s store) st).
  assert (Hstep : commit_step (failure, st) (slot_mutation k) = (failure, st1)).
  { unfold commit_step, slot_mutation, new_reporting, new_reporting_with_error, mutation_commit, fallible, retire_slot.
    unfold st1, store. cbn [mut_commit]. destruct (store_remove_if (sf_holdings (sf_of st)) k is_retirable) as [b x].
    cbn in E1. by subst b. }
  cbn [fmap list_fmap foldl]. rewrite Hstep.
  assert (Es : sf_of st1 = set_holdings (sf_of st) store) by (unfold st1; by rewrite sf_of_modify).
  destruct (IH st1 Hd) as (st' & Hf & Hl & Hs).
  { intros key Hkey. destruct (Hz key) as (h' & Hh' & Hr'); [by right|]. exists h'. rewrite Es. split; [|done].
    unfold store_get. cbn. rewrite E2, lookup_delete_ne by (intros ->; done). done. }
  exists st'. rewrite Es in Hs. split_and!; [exact Hf| |apply Hs..].
  intros key. rewrite Hl, Es. cbn [sf_holdings set_holdings]. unfold store_get. rewrite E2.
  destruct (decide (key ∈ keys)), (decide (key ∈ k :: keys)) as [Hin|Hin]; try done.
  - destruct Hin. by right.
  - apply elem_of_cons in Hin as [->|Hin]; [apply lookup_delete_eq|done].
  - rewrite lookup_delete_ne; [done|]. intros ->. destruct Hin. by left.
Qed.


(** The entry of the ledger, and the lease record. *)
Lemma commit_pnl account failure st entry :
  sf_pnl (sf_of st) !! account = Some entry -> is_zero_state (pe_state entry) = true -> pe_assertion_token entry = None ->
  commit_step (failure, st) (new_reporting (retire_pnl account) quiet_rollback) =
  (failure, sf_modify (fun s => set_pnl_table s (delete account (sf_pnl (sf_of st)))) st).
Proof.
  intros He Hz Ht. unfold commit_step, new_reporting, new_reporting_with_error, mutation_commit, fallible, retire_pnl,
    storage_remove_if. cbn [mut_commit]. by rewrite He, Hz, Ht.
Qed.

Definition lease_mutation account : Mutation (EngineState W) :=
  mutation_new (sf_modify (fun s => set_leases s (storage_remove (sf_leases s) account).2)) (fun st => st).

Lemma lease_removed leases account a :
  (storage_remove (Value:=option AccountPnlLease) leases account).2 !! a = if decide (a = account) then None else leases !! a.
Proof.
  unfold storage_remove. destruct (leases !! account) eqn:E; cbn; case_decide as Hd; subst;
    rewrite ?lookup_delete_eq, ?lookup_delete_ne by done; done.
Qed.

(** What an accepted retirement registers. *)
Definition pnl_mutation account : Mutation (EngineState W) := new_reporting (retire_pnl account) quiet_rollback.
Definition retirement_mutations (s : SpotFundsState) account : list (Mutation (EngineState W)) :=
  (slot_mutation <$> slots_of s account) ++
  (if is_some (sf_pnl s !! account) then [pnl_mutation account] else []) ++ [lease_mutation account].

Lemma retirement_inert s account (w : W) : undoes (retirement_mutations s account) w w.
Proof.
  apply undoes_inert. unfold retirement_mutations. rewrite !Forall_app, Forall_fmap, Forall_singleton.
  split_and!; [by apply Forall_true| |done]. destruct (is_some _); auto.
Qed.

(** Committing them on the state the hook saw. *)
Lemma retirement_commit s account o st1 : ~ busy s account -> ~ worth_keeping s account -> sf_of st1 = s ->
  let '(failure, st2) := commit_all (mkMutations (retirement_mutations s account) o) st1 in
  failure = failure_default /\
  (forall key, store_get (sf_holdings (sf_of st2)) key =
     if decide (key.1 = account) then None else store_get (sf_holdings s) key) /\
  (forall a, sf_pnl (sf_of st2) !! a = if decide (a = account) then None else sf_pnl s !! a) /\
  (forall a, sf_leases (sf_of st2) !! a = if decide (a = account) then None else sf_leases s !! a) /\
  sf_settings (sf_of st2) = sf_settings s /\ sf_active (sf_of st2) = sf_active s.
Proof.
  intros Hnb Hnw E1. unfold commit_all, retirement_mutations. cbn [ms_mutations]. rewrite foldl_app.
  destruct (commit_slots (slots_of s account) failure_default st1) as (st2 & -> & Hl & Hs & Hp & Ha & Hle).
  { apply slots_of_NoDup. }
  { rewrite E1. intros [a asset] [Hk [h Hh]]%slots_of_spec. cbn in Hk. subst a. exists h. split; [done|].
    destruct (is_retirable h) eqn:Er; [done|]. destruct Hnw. right. by exists asset, h. }
  rewrite E1 in *.
  assert (Hslots : forall key, store_get (sf_holdings (sf_of st2)) key =
     if decide (key.1 = account) then None else store_get (sf_holdings s) key).
  { intros key. rewrite Hl. destruct (decide (key ∈ _)) as [Hk|Hk], (decide (key.1 = account)) as [He|He]; try done.
    - by apply slots_of_spec in Hk as [? _].
    - apply eq_None_not_Some. intros Hsome. destruct Hk. by apply slots_of_spec. }
  assert (Hrest : exists st3, foldl commit_step (failure_default, st2)
            ((if is_some (sf_pnl s !! account) then [pnl_mutation account] else []) ++ [lease_mutation account]) =
            (failure_default, sf_modify (fun s => set_leases s (storage_remove (sf_leases s) account).2) st3) /\
          sf_holdings (sf_of st3) = sf_holdings (sf_of st2) /\ sf_settings (sf_of st3) = sf_settings (sf_of st2) /\
          sf_active (sf_of st3) = sf_active (sf_of st2) /\ sf_leases (sf_of st3) = sf_leases (sf_of st2) /\
          forall a, sf_pnl (sf_of st3) !! a = if decide (a = account) then None else sf_pnl s !! a).
  { destruct (sf_pnl s !! account) as [entry|] eqn:Ee; cbn [is_some app foldl].
    - unfold pnl_mutation. rewrite (commit_pnl account failure_default st2 entry).
      + eexists. split; [reflexivity|]. rewrite !sf_of_modify. split_and!; [done..|]. intros a. cbn. rewrite Hp.
        case_decide as Hd; [subst; apply lookup_delete_eq|by apply lookup_delete_ne].
      + by rewrite Hp.
      + destruct (is_zero_state (pe_state entry)) eqn:Ez; [done|]. destruct Hnw. left. by exists entry.
      + destruct (pe_assertion_token entry) as [token|] eqn:Et; [|done]. destruct Hnb. right; right. by exists entry, token.
    - exists st2. split_and!; [done..|]. intros a. rewrite Hp. case_decide; by subst. }
  destruct Hrest as (st3 & -> & H1 & H2 & H3 & H4 & H5).
  rewrite !sf_of_modify. cbn [sf_holdings sf_settings sf_pnl sf_active sf_leases set_leases].
  split_and!; [done| |done| |congruence|congruence].
  - intros key. rewrite H1. apply Hslots.
  - intros a. rewrite lease_removed, H4, Hle. done.
Qed.

(** C24: retiring an account is refused while something of it is under way, then
    while it has anything worth keeping - a slot with a quantity, a cost basis or
    realized or halted P&L, or a ledger that is not at zero - then while the
    configuration names it; a refusal registers nothing, and the hook itself
    changes nothing.  Otherwise the registered mutations do nothing when rolled
    back, and committed they remove every slot of the account, its ledger entry and
    its lease record, without a failure and without touching another account, the
    settings or the guards. *)
Theorem spot_funds_retirement account ms st :
  let s := sf_of st in
  let '(r, ms', st') := retire_account_state account ms st in
  st' = st /\
  (r = Err OperationInProgress <-> busy s account) /\
  (r = Err NonZeroState <-> ~ busy s account /\ worth_keeping s account) /\
  (r = Err ConfigurationReferencesAccount <->
     ~ busy s account /\ ~ worth_keeping s account /\ references_account (sf_settings s) account = true) /\
  (r <> Ok tt -> ms' = ms) /\
  (r = Ok tt -> exists new, ms_mutations ms' = ms_mutations ms ++ new /\ undoes new (es_world st) (es_world st) /\
     forall o st1, sf_of st1 = s ->
       let '(failure, st2) := commit_all (mkMutations new o) st1 in
       failure = failure_default /\
       (forall key, store_get (sf_holdings (sf_of st2)) key =
          if decide (key.1 = account) then None else store_get (sf_holdings s) key) /\
       (forall a, sf_pnl (sf_of st2) !! a = if decide (a = account) then None else sf_pnl s !! a) /\
       (forall a, sf_leases (sf_of st2) !! a = if decide (a = account) then None else sf_leases s !! a) /\
       sf_settings (sf_of st2) = sf_settings s /\ sf_active (sf_of st2) = sf_active s).
Proof.
  cbv zeta. unfold retire_account_state. set (s := sf_of st).
  pose proof (busy_spec s account) as Hb. destruct (operation_in_progress s account).
  { assert (busy s account) by by apply Hb. split_and!; naive_solver. }
  assert (Hnb : ~ busy s account) by (intros H%Hb; done). clear Hb.
  set (ledger_kept := match sf_pnl s !! account with Some entry => negb (is_zero_state (pe_state entry)) | None => false end).
  assert (Hlk : ledger_kept = true <-> exists entry, sf_pnl s !! account = Some entry /\ is_zero_state (pe_state entry) = false).
  { unfold ledger_kept. destruct (sf_pnl s !! account) as [entry|]; [|naive_solver]. rewrite negb_true_iff. naive_solver. }
  destruct ledger_kept.
  { assert (worth_keeping s account) by (left; by apply Hlk). split_and!; naive_solver. }
  pose proof (kept_slots_spec s account) as Hk. destruct (existsb _ _).
  { assert (worth_keeping s account) by (right; by apply Hk). split_and!; naive_solver. }
  assert (Hnw : ~ worth_keeping s account) by (intros [H%Hlk|H%Hk]; done). clear Hlk Hk.
  destruct (references_account (sf_settings s) account) eqn:Er.
  { split_and!; naive_solver. }
  split_and!; [done|naive_solver..|]. intros _. exists (retirement_mutations s account). split_and!.
  - unfold retirement_mutations. cbn [ms_mutations mutations_push]. fold (lease_mutation account).
    destruct (is_some (sf_pnl s !! account)); cbn [ms_mutations mutations_push]; unfold slot_mutation;
      fold slot_mutation; rewrite push_slot_mutations, <- !app_assoc; done.
  - apply retirement_inert.
  - intros o st1 Hst1. by apply retirement_commit.
Qed.

End Retirement.
