(* ===== verification/SpotFundsAdjustmentFacts.v ===== *)
(** * SpotFundsAdjustmentFacts: adjustments and their rollback

    An adjustment of a slot on every branch and its undoing, and the rollback of an
    assertion of the account's P&L under the fills that arrived meanwhile. *)
From S2P Require Import Prelude.
From S2P Require Import Decimal.
From S2P Require Import Param.
From S2P Require Import ParamTypes.
From S2P Require Import Identifiers.
From S2P Require Import Mutation.
From S2P Require Import Reject.
From S2P Require Import AccountControl.
From S2P Require Import Accounts.
From S2P Require Import Lock.
From S2P Require Import Policy.
From S2P Require Import Engine.
From S2P Require Import EngineFacts.
From S2P Require Import EngineOps.
From S2P Require Import Storage.
From S2P Require Import Holdings.
From S2P Require Import HoldingsFacts.
From S2P Require Import HoldingsStore.
From S2P Require Import Instruments.
From S2P Require Import MarketData.
From S2P Require Import PnlBounds.
From S2P Require Import PnlBoundsFacts.
From S2P Require Import SpotFundsSettings.
From S2P Require Import SpotFundsParts.
From S2P Require Import SpotFunds.
From S2P Require Import SpotFundsReservation.
From S2P Require Import SpotFundsExecution.
From S2P Require Import SpotFundsAdjustment.
From S2P Require Import SpotFundsFacts.
From S2P Require Import SpotFundsReservationFacts.
From S2P Require Import SpotFundsExecutionFacts.
From S2P Require Import SpotFundsLedgerFacts.
Open Scope Z_scope.

(** ** Slots *)

Section Slot.
Context {D : DecimalOps} {L : DecimalLaws D} {F : DecimalFormat} {G : DecimalDebug}.
Implicit Types (h : Holdings) (request : AdjustmentRequestView).

(** The value a field is asked to take. *)
Definition asked (amount : option AdjustmentAmount) (current : Z) : Z :=
  match amount with None => current | Some (Delta d) => current + sg_val d | Some (Absolute v) => sg_val v end.

Definition inside (lower upper : option PositionSize) (value : Z) : Prop :=
  (forall b, lower = Some b -> sg_val b <= value) /\ (forall b, upper = Some b -> value <= sg_val b).

Lemma within_bounds_spec v lower upper : within_bounds v lower upper = true <-> inside lower upper (sg_val v).
Proof.
  unfold within_bounds, inside. rewrite andb_true_iff.
  destruct lower as [l|], upper as [u|]; dec_norm; rewrite ?Z.leb_le; naive_solver lia.
Qed.

Definition get_of (target : AdjustmentTarget) : Holdings -> PositionSize :=
  match target with TargetAvailable => h_available | TargetHeld => h_held | TargetIncoming => h_incoming end.
Definition target_move (target : AdjustmentTarget) (x : Z) : Move :=
  match target with TargetAvailable => mkMove x 0 0 | TargetHeld => mkMove 0 x 0 | TargetIncoming => mkMove 0 0 x end.

(** One field: it takes the value asked for, when that is inside the bounds. *)
Lemma adjust_field_spec asset field target lower upper amount h :
  representable (asked amount (sg_val (get_of target h))) ->
  let value := asked amount (sg_val (get_of target h)) in
  match adjust_field asset field target (get_of target) lower upper amount h with
  | Ok h' => (is_some amount = true -> inside lower upper value) /\
      quantities h' = move_add (quantities h) (target_move target (value - sg_val (get_of target h))) /\
      h_avg_entry_price h' = h_avg_entry_price h /\ h_realized_pnl h' = h_realized_pnl h
  | Err rejects => is_some amount = true /\ ~ inside lower upper value /\
      exists r, rejects = rejects_from_reject r /\ reject_code r = RC_AccountAdjustmentBoundsExceeded
  end.
Proof.
  intros Hr. cbv zeta. unfold adjust_field. destruct amount as [amount|]; cbn [asked is_some] in *.
  2:{ split; [done|]. split; [|done]. rewrite Z.sub_diag. apply move_eq; destruct target; cbn; lia. }
  assert (Ha : exists h', apply_adjustment h target amount = Ok h' /\
     sg_val (get_of target h') = asked (Some amount) (sg_val (get_of target h)) /\
     quantities h' = move_add (quantities h)
       (target_move target (asked (Some amount) (sg_val (get_of target h)) - sg_val (get_of target h))) /\
     h_avg_entry_price h' = h_avg_entry_price h /\ h_realized_pnl h' = h_realized_pnl h).
  { destruct amount as [d|v].
    - destruct (sg_add_val (get_of target h) d Hr) as (c & E & V).
      destruct target; unfold apply_adjustment, or_overflow; cbn in E, V |- *; rewrite E; cbn;
        (eexists; split; [done|]; cbn; split_and!; [exact V|apply move_eq; cbn; unfold av, hd, inc in *; cbn; lia|done|done]).
    - destruct target; cbn; (eexists; split; [done|]; cbn; split_and!;
        [done|apply move_eq; cbn; unfold av, hd, inc in *; cbn; lia|done|done]). }
  destruct Ha as (h' & -> & Hv & Hq & Hp). cbn [map_err mbind result_bind asked] in *.
  pose proof (within_bounds_spec (get_of target h') lower upper) as Hw. rewrite Hv in Hw.
  destruct (within_bounds _ _ _).
  - split; [intros _; by apply Hw|]. split; [exact Hq|exact Hp].
  - split; [done|]. split; [intros Hi%Hw; done|]. by eexists.
Qed.

Definition asked_quantities request h : Move :=
  mkMove (asked (ar_balance request) (av h)) (asked (ar_held request) (hd h)) (asked (ar_incoming request) (inc h)).

(** The request's bounds admit what it asks for. *)
Definition request_admits request h : Prop :=
  (is_some (ar_balance request) = true -> inside (ar_balance_lower request) (ar_balance_upper request) (asked (ar_balance request) (av h))) /\
  (is_some (ar_held request) = true -> inside (ar_held_lower request) (ar_held_upper request) (asked (ar_held request) (hd h))) /\
  (is_some (ar_incoming request) = true -> inside (ar_incoming_lower request) (ar_incoming_upper request) (asked (ar_incoming request) (inc h))).

(** What an adjustment computes on the way. *)
Definition adjustment_exact request h : Prop :=
  let q := asked_quantities request h in
  representable (mv_available q) /\ representable (mv_held q) /\ representable (mv_incoming q) /\
  representable (mv_available q + mv_held q) /\ representable (mv_available q - av h) /\
  representable (mv_held q - hd h) /\ representable (mv_incoming q - inc h).

Lemma quantities_get h target : sg_val (get_of target h) =
  match target with TargetAvailable => mv_available (quantities h) | TargetHeld => mv_held (quantities h)
  | TargetIncoming => mv_incoming (quantities h) end.
Proof. by destruct target. Qed.

(** The three fields in their order. *)
Lemma adjust_fields_spec request h : adjustment_exact request h ->
  match
    (new ← adjust_field (ar_asset request) "balance" TargetAvailable h_available (ar_balance_lower request)
             (ar_balance_upper request) (ar_balance request) h;
     new ← adjust_field (ar_asset request) "held" TargetHeld h_held (ar_held_lower request) (ar_held_upper request)
             (ar_held request) new;
     adjust_field (ar_asset request) "incoming" TargetIncoming h_incoming (ar_incoming_lower request)
       (ar_incoming_upper request) (ar_incoming request) new)
  with
  | Ok new => request_admits request h /\ quantities new = asked_quantities request h /\
      h_avg_entry_price new = h_avg_entry_price h /\ h_realized_pnl new = h_realized_pnl h
  | Err rejects => ~ request_admits request h /\
      exists r, rejects = rejects_from_reject r /\ reject_code r = RC_AccountAdjustmentBoundsExceeded
  end.
Proof.
  intros (R1 & R2 & R3 & _). unfold request_admits, asked_quantities in *. cbn [mv_available mv_held mv_incoming] in *.
  pose proof (adjust_field_spec (ar_asset request) "balance" TargetAvailable (ar_balance_lower request)
    (ar_balance_upper request) (ar_balance request) h R1) as H1. cbv zeta in H1. cbn [get_of] in H1.
  destruct (adjust_field _ "balance" _ _ _ _ _ h) as [h1|e]; cbn [mbind result_bind].
  2:{ destruct H1 as (Hs & Hn & Hr). split; [|done]. intros (Ha & _). by apply Hn, Ha. }
  destruct H1 as (B1 & Q1 & A1 & P1).
  assert (E1 : av h1 = asked (ar_balance request) (av h) /\ hd h1 = hd h /\ inc h1 = inc h).
  { injection Q1 as -> -> ->. cbn. change (sg_val (h_available h)) with (av h). split_and!; lia. }
  destruct E1 as (E1a & E1h & E1i).
  pose proof (adjust_field_spec (ar_asset request) "held" TargetHeld (ar_held_lower request)
    (ar_held_upper request) (ar_held request) h1) as H2. cbv zeta in H2. cbn [get_of] in H2.
  change (sg_val (h_held h1)) with (hd h1) in H2. rewrite E1h in H2. specialize (H2 R2).
  destruct (adjust_field _ "held" _ _ _ _ _ h1) as [h2|e]; cbn [mbind result_bind].
  2:{ destruct H2 as (Hs & Hn & Hr). split; [|done]. intros (_ & Ha & _). by apply Hn, Ha. }
  destruct H2 as (B2 & Q2 & A2 & P2).
  assert (E2 : av h2 = av h1 /\ hd h2 = asked (ar_held request) (hd h) /\ inc h2 = inc h).
  { injection Q2 as -> -> ->. cbn. rewrite E1h, E1i. split_and!; lia. }
  destruct E2 as (E2a & E2h & E2i).
  pose proof (adjust_field_spec (ar_asset request) "incoming" TargetIncoming (ar_incoming_lower request)
    (ar_incoming_upper request) (ar_incoming request) h2) as H3. cbv zeta in H3. cbn [get_of] in H3.
  change (sg_val (h_incoming h2)) with (inc h2) in H3. rewrite E2i in H3. specialize (H3 R3).
  destruct (adjust_field _ "incoming" _ _ _ _ _ h2) as [h3|e].
  2:{ destruct H3 as (Hs & Hn & Hr). split; [|done]. intros (_ & _ & Ha). by apply Hn, Ha. }
  destruct H3 as (B3 & Q3 & A3 & P3). split_and!; [done..| |congruence|congruence].
  injection Q3 as Q3a Q3h Q3i. cbn in Q3a, Q3h, Q3i. apply move_eq; cbn; [|lia|].
  - rewrite Q3a, E2a. lia.
  - lia.
Qed.

(** What an adjustment leaves of the cost basis. *)
Definition adjusted_average request h (net : Z) : option Price :=
  let asked_avg :=
    if is_halted (ar_balance_realized_pnl request) then None
    else match ar_balance_average_entry_price request with Some p => Some p | None => h_avg_entry_price h end in
  let may_change :=
    is_some (ar_balance_average_entry_price request) || is_halted (ar_balance_realized_pnl request) ||
    ((is_some (ar_balance request) || is_some (ar_held request)) && is_some (h_avg_entry_price h)) in
  if may_change && (net =? 0) then None else asked_avg.
Definition adjusted_realized request h : option PositionPnlState :=
  match ar_balance_realized_pnl request with Some s => Some (position_state s) | None => h_realized_pnl h end.

(** The record a rollback is given fits the adjustment. *)
Definition rollback_fits (r : AdjustmentRollback) h new : Prop :=
  sg_val (arb_available_delta r) = av new - av h /\ sg_val (arb_held_delta r) = hd new - hd h /\
  sg_val (arb_incoming_delta r) = inc new - inc h /\ arb_asserted r = new /\
  match arb_prior_avg r with Some avg => avg = h_avg_entry_price h | None => h_avg_entry_price new = h_avg_entry_price h end /\
  match arb_prior_realized r with Some s => s = h_realized_pnl h | None => h_realized_pnl new = h_realized_pnl h end.

Lemma adjust_slot_effect request h : adjustment_exact request h ->
  match adjust_slot request h with
  | Ok (r, new) => request_admits request h /\ quantities new = asked_quantities request h /\
      h_avg_entry_price new = adjusted_average request h (mv_available (asked_quantities request h) + mv_held (asked_quantities request h)) /\
      h_realized_pnl new = adjusted_realized request h /\ rollback_fits r h new
  | Err rejects => ~ request_admits request h /\
      exists r, rejects = rejects_from_reject r /\ reject_code r = RC_AccountAdjustmentBoundsExceeded
  end.
Proof.
  intros He. pose proof (adjust_fields_spec request h He) as Hf. destruct He as (R1 & R2 & R3 & R4 & R5 & R6 & R7).
  unfold adjust_slot. cbv zeta.
  destruct (adjust_field _ "balance" _ _ _ _ _ h) as [h1|e]; cbn [mbind result_bind] in *; [|exact Hf].
  destruct (adjust_field _ "held" _ _ _ _ _ h1) as [h2|e]; cbn [mbind result_bind] in *; [|exact Hf].
  destruct (adjust_field _ "incoming" _ _ _ _ _ h2) as [h3|e]; cbn [mbind result_bind] in *; [|exact Hf].
  destruct Hf as (Hb & Hq & Ha & Hp).
  set (h4 := match ar_balance_average_entry_price request with Some p => with_avg_entry_price h3 (Some p) | None => h3 end).
  set (h5 := match ar_balance_realized_pnl request with Some s => force_set_realized_pnl_state h4 (position_state s) | None => h4 end).
  assert (Q5 : quantities h5 = asked_quantities request h).
  { rewrite <- Hq. unfold h5, h4. destruct (ar_balance_realized_pnl request), (ar_balance_average_entry_price request); done. }
  assert (A5 : h_avg_entry_price h5 =
     if is_halted (ar_balance_realized_pnl request) then None
     else match ar_balance_average_entry_price request with Some p => Some p | None => h_avg_entry_price h end).
  { unfold h5, h4. destruct (ar_balance_realized_pnl request) as [[]|], (ar_balance_average_entry_price request); cbn; done. }
  assert (P5 : h_realized_pnl h5 = adjusted_realized request h).
  { unfold h5, h4, adjusted_realized. destruct (ar_balance_realized_pnl request), (ar_balance_average_entry_price request); cbn; done. }
  clearbody h5. clear h4. unfold adjusted_average.
  set (may_change := _ || _ || _).
  assert (Hflat : exists flat, (if may_change then
       net_owned ← map_err (fun _ => account_overflow
                     ("account adjustment net-position overflow: asset " +:+ Asset_fmt (ar_asset request)))
                     (sg_checked_add (h_available h5) (h_held h5));
       Ok (sg_is_zero net_owned)
     else Ok false) = Ok flat /\
     flat = may_change && (mv_available (asked_quantities request h) + mv_held (asked_quantities request h) =? 0)).
  { rewrite <- Q5. destruct may_change; [|by exists false].
    destruct (sg_add_val (h_available h5) (h_held h5)) as (c & -> & V).
    { rewrite <- Q5 in R4. exact R4. }
    exists (sg_is_zero c). split; [done|]. rewrite sg_is_zero_val, V. done. }
  destruct Hflat as (flat & -> & Hflat). cbn [mbind result_bind].
  set (h6 := if flat then with_avg_entry_price h5 None else h5).
  assert (Q6 : quantities h6 = asked_quantities request h) by (unfold h6; by destruct flat).
  assert (V6 : av h6 = mv_available (asked_quantities request h) /\ hd h6 = mv_held (asked_quantities request h) /\
     inc h6 = mv_incoming (asked_quantities request h)) by (rewrite <- Q6; done).
  destruct V6 as (Va & Vh & Vi). rewrite <- Va, <- Vh, <- Vi in *.
  unfold field_delta.
  destruct (sg_sub_val (h_available h6) (h_available h) R5) as (d1 & -> & D1). cbn [map_err mbind result_bind].
  destruct (sg_sub_val (h_held h6) (h_held h) R6) as (d2 & -> & D2). cbn [map_err mbind result_bind].
  destruct (sg_sub_val (h_incoming h6) (h_incoming h) R7) as (d3 & -> & D3). cbn [map_err mbind result_bind].
  split_and!; [done|done| | |].
  - rewrite <- Hflat. unfold h6. destruct flat; [done|exact A5].
  - unfold h6. destruct flat; exact P5.
  - unfold rollback_fits. cbn [arb_available_delta arb_held_delta arb_incoming_delta arb_asserted arb_prior_avg arb_prior_realized].
    split_and!; [done|done|done|done| |].
    + destruct (is_some (ar_balance_average_entry_price request)) eqn:E1; [done|].
      destruct (is_halted (ar_balance_realized_pnl request)) eqn:E2; [done|].
      destruct (ar_balance_average_entry_price request); [done|]. cbn [orb].
      destruct flat; cbn [andb]; [|exact A5].
      destruct (h_avg_entry_price h); done.
    + unfold h6, adjusted_realized in *. destruct (ar_balance_realized_pnl request); [done|]. destruct flat; exact P5.
Qed.

Lemma undo_quantities r h new slot (later : Move) : rollback_fits r h new ->
  quantities slot = move_add (quantities new) later ->
  representable (av h + mv_available later) -> representable (hd h + mv_held later) ->
  representable (inc h + mv_incoming later) ->
  exists h', apply_delta_rollback slot (arb_available_delta r) (arb_held_delta r) (arb_incoming_delta r) = Ok h' /\
    quantities h' = move_add (quantities h) later /\
    h_avg_entry_price h' = h_avg_entry_price slot /\ h_realized_pnl h' = h_realized_pnl slot.
Proof.
  intros (D1 & D2 & D3 & _) Hq R1 R2 R3. injection Hq as Qa Qh Qi. cbn in Qa, Qh, Qi.
  destruct (delta_rollback_moved slot (arb_available_delta r) (arb_held_delta r) (arb_incoming_delta r)) as (h' & E & Hm).
  - rewrite D1, Qa. by replace (av new + mv_available later - (av new - av h)) with (av h + mv_available later) by lia.
  - rewrite D2, Qh. by replace (hd new + mv_held later - (hd new - hd h)) with (hd h + mv_held later) by lia.
  - rewrite D3, Qi. by replace (inc new + mv_incoming later - (inc new - inc h)) with (inc h + mv_incoming later) by lia.
  - exists h'. destruct Hm as (Ma & Mh & Mi & Mavg & Mpnl). split; [done|]. split; [|done].
    apply move_eq; cbn; lia.
Qed.

Lemma Holdings_eqb_refl h : Holdings_eqb h h = true.
Proof.
  unfold Holdings_eqb. dec_norm. rewrite !Z.eqb_refl. cbn. rewrite andb_true_iff. split.
  - destruct (h_avg_entry_price h); cbn; [|done]. by rewrite sg_eqb_val, Z.eqb_refl.
  - destruct (h_realized_pnl h) as [[]|]; cbn; [by rewrite sg_eqb_val, Z.eqb_refl|by rewrite bool_decide_true|done].
Qed.

Lemma Holdings_eqb_quantities h1 h2 : Holdings_eqb h1 h2 = true -> quantities h1 = quantities h2.
Proof.
  unfold Holdings_eqb. rewrite !andb_true_iff. intros ((((Ha & Hh) & Hi) & _) & _). dec_norm.
  rewrite Z.eqb_eq in *. by apply move_eq.
Qed.

(** C25: an account adjustment gives each quantity the value asked for and is
    refused exactly when one of those values is outside its bounds; the cost basis
    is the one asked for, gone when the P&L is halted or the position ends flat, and
    otherwise kept.  Rolled back on the slot as it left it, the adjustment restores
    an equal slot; rolled back after the quantities moved further, it leaves exactly
    the later moves and keeps the basis and P&L found there. *)
Theorem adjustment_reverts request h : adjustment_exact request h ->
  match adjust_slot request h with
  | Ok (r, new) => request_admits request h /\ quantities new = asked_quantities request h /\
      h_avg_entry_price new = adjusted_average request h
        (mv_available (asked_quantities request h) + mv_held (asked_quantities request h)) /\
      h_realized_pnl new = adjusted_realized request h /\
      (exists h', undo_adjustment r new = Ok h' /\ h' ≡ h) /\
      (forall slot later, quantities slot = move_add (quantities new) later -> later <> move_zero ->
         representable (av h + mv_available later) -> representable (hd h + mv_held later) ->
         representable (inc h + mv_incoming later) ->
         exists h', undo_adjustment r slot = Ok h' /\ quantities h' = move_add (quantities h) later /\
           h_avg_entry_price h' = h_avg_entry_price slot /\ h_realized_pnl h' = h_realized_pnl slot)
  | Err rejects => ~ request_admits request h /\
      exists r, rejects = rejects_from_reject r /\ reject_code r = RC_AccountAdjustmentBoundsExceeded
  end.
Proof.
  intros He. pose proof (adjust_slot_effect request h He) as H.
  destruct (adjust_slot request h) as [[r new]|rejects]; [|exact H].
  destruct H as (Hb & Hq & Ha & Hp & Hfit). split_and!; [done..| |].
  - destruct (undo_quantities r h new new move_zero Hfit) as (h' & E & Q & A & P).
    { apply move_eq; cbn; lia. }
    1-3: cbn; rewrite Z.add_0_r; apply sg_val_repr.
    destruct Hfit as (_ & _ & _ & Has & Havg & Hreal).
    unfold undo_adjustment. rewrite E. cbn [mbind result_bind]. eexists. split; [done|].
    unfold restore_adjusted_snapshots. rewrite Has, Holdings_eqb_refl. cbn [negb].
    assert (Q' : quantities h' = quantities h) by (rewrite Q; apply move_eq; cbn; lia). injection Q' as Qa Qh Qi.
    unfold equiv, holdings_equiv.
    destruct (arb_prior_avg r) as [avg|], (arb_prior_realized r) as [s|]; cbn; split_and!; try done; congruence.
  - intros slot later Hl Hn R1 R2 R3.
    destruct (undo_quantities r h new slot later Hfit Hl R1 R2 R3) as (h' & E & Q & A & P).
    exists h'. split; [|done]. unfold undo_adjustment. rewrite E. cbn [mbind result_bind]. f_equal.
    unfold restore_adjusted_snapshots. destruct Hfit as (_ & _ & _ & -> & _).
    destruct (Holdings_eqb slot new) eqn:Eq; [|done]. destruct Hn. apply Holdings_eqb_quantities in Eq.
    rewrite Eq in Hl. injection Hl as L1 L2 L3. cbn in L1, L2, L3. apply move_eq; cbn; lia.
Qed.

End Slot.

(** ** The account's P&L *)

Section Assertion.
Context {D : DecimalOps} {L : DecimalLaws D} {F : DecimalFormat} {G : DecimalDebug} {W : Type}.
Context {O : Owns W SpotFundsState} {M : MarketDataSource W} {LW : LeaseWaits W}.
Implicit Types (st : EngineState W) (account : AccountId) (self : SpotFundsPolicy).

Definition ledger_entry st account : AccountPnlEntry := default pnl_entry_zero (sf_pnl (sf_of st) !! account).

(** Deltas the ledger takes one after the other, as fills and fees report them. *)
Definition take_deltas account (deltas : list Pnl) st : EngineState W :=
  foldl (fun st delta => (update_account_pnl account delta st).2) st deltas.

Lemma pnl_with_mut_entry {X} account (f : AccountPnlEntry -> bool -> X * AccountPnlEntry) st :
  (forall e, f e true = f e false) ->
  let '(x, st') := pnl_with_mut account f st in
  (x, ledger_entry st' account) = f (ledger_entry st account) false /\
  (forall a, a <> account -> sf_pnl (sf_of st') !! a = sf_pnl (sf_of st) !! a) /\
  sf_settings (sf_of st') = sf_settings (sf_of st) /\ sf_leases (sf_of st') = sf_leases (sf_of st) /\
  sf_holdings (sf_of st') = sf_holdings (sf_of st) /\ sf_active (sf_of st') = sf_active (sf_of st) /\
  es_accounts st' = es_accounts st.
Proof.
  intros Hf. unfold pnl_with_mut, with_mut, with_mut_phased, with_mut_fast, with_mut_slow, ledger_entry.
  destruct (sf_pnl (sf_of st) !! account) as [e|] eqn:Ee; cbn -[sf_modify].
  - destruct (f e false) as [x e'] eqn:E. rewrite !sf_of_modify. cbn. rewrite lookup_insert_eq. cbn. split_and!; try done.
    intros a Ha. by rewrite lookup_insert_ne.
  - destruct (f pnl_entry_zero true) as [x e'] eqn:E. rewrite !sf_of_modify. cbn. rewrite lookup_insert_eq, <- Hf. cbn.
    split_and!; try done. intros a Ha. by rewrite lookup_insert_ne.
Qed.

(** A delta that fits is added, under a pending assertion or not. *)
Lemma update_value account delta st v token : ledger_entry st account = mkPnlEntry (PnlValue v) token ->
  representable (sg_val v + sg_val delta) ->
  exists v', ledger_entry (update_account_pnl account delta st).2 account = mkPnlEntry (PnlValue v') token /\
    sg_val v' = sg_val v + sg_val delta.
Proof.
  intros He Hr. unfold update_account_pnl.
  pose proof (pnl_with_mut_entry account (fun entry _ => update_first delta entry) st (fun e => eq_refl)) as H.
  destruct (pnl_with_mut account _ st) as [first st1]. destruct H as [H _]. rewrite He in H.
  unfold update_first in H. cbn [pe_state pe_assertion_token] in H.
  destruct (sg_add_val v delta Hr) as (v' & Ev & V). rewrite Ev in H. injection H as -> He'. by exists v'.
Qed.

Lemma take_deltas_value account deltas st v token : ledger_entry st account = mkPnlEntry (PnlValue v) token ->
  exact_from (sg_val v) deltas ->
  exists v', ledger_entry (take_deltas account deltas st) account = mkPnlEntry (PnlValue v') token /\
    sg_val v' = sg_val v + total deltas.
Proof.
  revert st v. induction deltas as [|delta deltas IH]; intros st v He Hx.
  - exists v. split; [done|cbn; lia].
  - destruct Hx as [Hr Hx]. destruct (update_value account delta st v token He Hr) as (v1 & E1 & V1).
    destruct (IH _ v1 E1) as (v' & E & V); [by rewrite V1|]. exists v'. split; [exact E|].
    unfold total in *. cbn [foldr]. lia.
Qed.

(** The state a rolled-back assertion leaves. *)
Lemma rollback_assertion_entry account snapshot previous asserted token st current :
  ledger_entry st account = mkPnlEntry current (Some token) ->
  ledger_entry (rollback_assertion account snapshot previous asserted token st).2 account =
    mkPnlEntry (restored_state (pe_state previous) asserted current) (pe_assertion_token previous).
Proof.
  intros He. unfold rollback_assertion.
  set (f := fun (entry : AccountPnlEntry) (_ : bool) => _).
  pose proof (pnl_with_mut_entry account f st (fun e => eq_refl)) as H.
  destruct (pnl_with_mut account f st) as [[final provenance] st1]. destruct H as [H _].
  rewrite He in H. unfold f in H. cbn [pe_state pe_assertion_token] in H. rewrite bool_decide_true in H by done.
  injection H as _ _ H. cbn [snd]. destruct (pnl_barrier_for _ _ _ _ ≫= _); exact H.
Qed.

Lemma acquire_entry account owner st : lease_free account st ->
  sf_pnl (sf_of (acquire_account_pnl_lease account owner st)) = sf_pnl (sf_of st).
Proof.
  intros Hl. unfold acquire_account_pnl_lease.
  assert (Ht : (try_acquire_lease (sf_leases (sf_of st)) account owner).1 = true).
  { unfold try_acquire_lease, with_mut, with_mut_phased, with_mut_fast, with_mut_slow, lease_free in *.
    by destruct (sf_leases (sf_of st) !! account) as [[]|]. }
  destruct (try_acquire_lease _ account owner) as [acquired leases]. cbn in Ht. subst acquired. by rewrite sf_of_modify.
Qed.

(** An assertion of the account's P&L that is rolled back leaves the ledger as
    if it had never been made: when the ledger had a value, every delta that came in
    while the assertion was pending counts on top of that value, and a halted ledger
    is halted again for its reason; the earlier assertion's token is back, so its
    own rollback still finds it.  Committed instead, the asserted value and the
    deltas since stand. *)
Theorem assertion_rollback_exact self ctx account asserted deltas ms st :
  lease_free account st ->
  let previous := ledger_entry st account in
  exact_from (sg_val asserted) deltas ->
  (forall p, pe_state previous = PnlValue p -> representable (sg_val p + total deltas) /\ representable (total deltas)) ->
  let '(r, ms', st1) := apply_account_pnl_adjustment self ctx account (PnlValue asserted) ms st in
  is_ok r = true /\
  exists m token, ms_mutations ms' = ms_mutations ms ++ [m] /\
    let st2 := take_deltas account deltas st1 in
    (exists v, ledger_entry st2 account = mkPnlEntry (PnlValue v) (Some token) /\ sg_val v = sg_val asserted + total deltas) /\
    (let st3 := (mut_rollback m st2).2 in
     pe_assertion_token (ledger_entry st3 account) = pe_assertion_token previous /\
     match pe_state previous with
     | PnlValue p => exists v, pe_state (ledger_entry st3 account) = PnlValue v /\ sg_val v = sg_val p + total deltas
     | PnlHalted reason => pe_state (ledger_entry st3 account) = PnlHalted reason
     end) /\
    (let st4 := (mutation_commit m st2).2 in
     exists v, ledger_entry st4 account = mkPnlEntry (PnlValue v) None /\ sg_val v = sg_val asserted + total deltas).
Proof.
  intros Hl previous Hx Hp. unfold apply_account_pnl_adjustment.
  set (st0 := acquire_account_pnl_lease account (ms_owner_id ms) st).
  destruct (next_owner_step st0) as [Eo _]. destruct (next_owner st0) as [token sto]. cbn [snd] in Eo.
  pose proof (pnl_with_mut_entry account (fun entry (_ : bool) => (entry, mkPnlEntry (PnlValue asserted) (Some token))) sto
    (fun e => eq_refl)) as H.
  destruct (pnl_with_mut account _ sto) as [prev st1]. destruct H as [H _]. injection H as Hprev Hst1.
  assert (prev = previous) as ->.
  { rewrite Hprev. unfold previous, ledger_entry. rewrite Eo. unfold st0. by rewrite acquire_entry. }
  split; [done|].
  exists (assertion_mutation account (aac_account ctx) previous (PnlValue asserted) token (ms_owner_id ms)), token.
  split; [done|]. destruct (take_deltas_value account deltas st1 asserted (Some token) Hst1 Hx) as (v & Ev & Vv).
  set (st2 := take_deltas account deltas st1) in *. split_and!.
  - by exists v.
  - cbn [mut_rollback assertion_mutation new_reporting_with_guard with_guard new_reporting new_reporting_with_error].
    by rewrite (rollback_assertion_entry _ _ _ _ _ _ _ Ev).
  - cbn [mut_rollback assertion_mutation new_reporting_with_guard with_guard new_reporting new_reporting_with_error].
    rewrite (rollback_assertion_entry _ _ _ _ _ _ _ Ev). cbn [pe_state].
    destruct (pe_state previous) as [p|reason] eqn:Es; [|done]. destruct (Hp p eq_refl) as [R1 R2].
    unfold restored_state.
    destruct (sg_sub_val v asserted) as (d & -> & Vd); [by replace (sg_val v - sg_val asserted) with (total deltas) by lia|].
    cbn [mbind result_bind].
    destruct (sg_add_val d p) as (x & -> & Vx); [by replace (sg_val d + sg_val p) with (sg_val p + total deltas) by lia|].
    exists x. split; [done|lia].
  - exists v. split; [|done]. unfold mutation_commit, assertion_mutation, new_reporting_with_guard, with_guard,
      new_reporting, new_reporting_with_error, fallible. cbn [mut_commit]. unfold commit_assertion, with_mut_if_present.
    unfold ledger_entry in *. destruct (sf_pnl (sf_of st2) !! account) as [e|] eqn:Ee; cbn in Ev; subst; [|done].
    cbn. rewrite bool_decide_true by done. rewrite sf_of_modify. cbn. by rewrite lookup_insert_eq.
Qed.

End Assertion.

(** ** The engine's contract for dry runs *)
Section Quiet.
Context {D : DecimalOps} {F : DecimalFormat} {G : DecimalDebug} {W Order Report Adjustment : Type}.
Context {HI : HasInstrument Order} {HS : HasSide Order} {HA : HasTradeAmount Order} {HP : HasOrderPrice Order}.
Context {RA : HasAccountId Report} {RI : HasInstrument Report} {RS : HasSide Report}
  {RT : HasExecutionReportLastTrade Report} {RF : HasExecutionReportFillFee Report}
  {RQ : HasRemainingReservedQuantity Report} {RE : HasExecutionReportIsFinal Report}
  {RL : HasPreTradeLock Report}.
Context {HF : HasAdjustmentFields Adjustment}.
Context {O : Owns W SpotFundsState} {M : MarketDataSource W} {LW : LeaseWaits W}.

#[export] Instance spot_funds_quiet (reads : nat) self :
  DryRunQuiet (spot_funds_policy (Order:=Order) (Report:=Report) (Adjustment:=Adjustment) reads self).
Proof.
  split; cbn; [by intros ctx order s r s' [= <- <-] _|].
  intros ctx order ms s r ms' s' E _. unfold perform_pre_trade_check_dry_run_impl in E. by injection E as <- <- <-.
Qed.

End Quiet.
