(* ===== verification/ConfigureFacts.v ===== *)
(** * ConfigureFacts: what the builder builds and what a retune does *)
From S2P Require Import Prelude.
From S2P Require Import Decimal.
From S2P Require Import Param.
From S2P Require Import ParamTypes.
From S2P Require Import Identifiers.
From S2P Require Import Mutation.
From S2P Require Import Reject.
From S2P Require Import AccountControl.
From S2P Require Import Accounts.
From S2P Require Import Lock.
From S2P Require Import Policy.
From S2P Require Import Engine.
From S2P Require Import Storage.
From S2P Require Import Holdings.
From S2P Require Import HoldingsStore.
From S2P Require Import Instruments.
From S2P Require Import MarketData.
From S2P Require Import OrderSizeLimit.
From S2P Require Import PnlBounds.
From S2P Require Import RateLimit.
From S2P Require Import SpotFundsSettings.
From S2P Require Import SpotFundsSettingsFacts.
From S2P Require Import SpotFundsParts.
From S2P Require Import SpotFunds.
From S2P Require Import SpotFundsLedgerFacts.
From S2P Require Import Configure.
Open Scope Z_scope.

(** ** Repetitions *)

Section Repeats.
Context {A : Type} `{Countable A}.

(** The first element that was seen before. *)
Fixpoint first_repeat (seen : gset A) (l : list A) : option A :=
  match l with
  | [] => None
  | x :: l => if decide (x ∈ seen) then Some x else first_repeat ({[x]} ∪ seen) l
  end.

Lemma first_repeat_spec seen l :
  match first_repeat seen l with
  | None => NoDup l /\ forall x, x ∈ l -> x ∉ seen
  | Some x => exists l1 l2, l = l1 ++ x :: l2 /\ NoDup l1 /\ (forall y, y ∈ l1 -> y ∉ seen) /\ (x ∈ seen \/ x ∈ l1)
  end.
Proof.
  revert seen. induction l as [|x l IH]; intros seen; cbn; [split; [constructor|set_solver]|].
  destruct (decide (x ∈ seen)) as [Hx|Hx].
  { exists [], l. split_and!; [done|constructor|set_solver|by left]. }
  specialize (IH ({[x]} ∪ seen)). destruct (first_repeat _ l) as [y|].
  - destruct IH as (l1 & l2 & -> & Hn & Hs & Hy). exists (x :: l1), l2. split_and!; [done|constructor; [|done]|set_solver|set_solver].
    intros Hin%Hs. set_solver.
  - destruct IH as [Hn Hs]. split; [constructor; [|done]; intros Hin%Hs; set_solver|set_solver].
Qed.

Lemma first_repeat_fresh l :
  match first_repeat ∅ l with
  | None => NoDup l
  | Some x => exists l1 l2, l = l1 ++ x :: l2 /\ NoDup l1 /\ x ∈ l1
  end.
Proof.
  pose proof (first_repeat_spec ∅ l) as Hs. destruct (first_repeat ∅ l).
  - destruct Hs as (l1 & l2 & H1 & H2 & _ & [H3|H3]); [set_solver|eauto].
  - apply Hs.
Qed.

End Repeats.

Lemma unique_policy_names_repeat seen names :
  unique_policy_names seen names =
  match first_repeat seen names with Some n => Err (DuplicatePolicyName n) | None => Ok tt end.
Proof. revert seen. induction names as [|n names IH]; intros seen; cbn; [done|]. case_decide; [done|apply IH]. Qed.

Definition non_default (ids : list PolicyGroupId) : list PolicyGroupId :=
  filter (fun id => id <> DEFAULT_POLICY_GROUP_ID) ids.

Lemma unique_group_ids_repeat seen ids :
  unique_group_ids seen ids =
  match first_repeat seen (non_default ids) with Some n => Err (DuplicatePolicyGroupId n) | None => Ok tt end.
Proof.
  revert seen. induction ids as [|id ids IH]; intros seen; [done|]. unfold non_default. rewrite filter_cons. cbn [unique_group_ids].
  fold (non_default ids). destruct (decide (id <> DEFAULT_POLICY_GROUP_ID)) as [Hd|Hd].
  - rewrite decide_False by done. cbn [first_repeat]. case_decide; [done|apply IH].
  - rewrite decide_True by (by apply dec_stable). apply IH.
Qed.

Section Builder.
Context {D : DecimalOps} {W Order Report Adjustment : Type}.
Abbreviation Registered := (RegisteredPolicy (W:=W) (Order:=Order) (Report:=Report) (Adjustment:=Adjustment)).
Implicit Types (p : Registered) (policies : list Registered).

Definition entries_of policies : list (string * ConfigEntry (W:=W)) :=
  policies ≫= (fun p => option_list ((fun entry => (rp_name p, entry)) <$> rp_entry p)).

Lemma builder_fold policies (b : EngineBuilder) :
  foldl pre_trade b policies = mkBuilder (eb_policies b ++ policies) (eb_config_entries b ++ entries_of policies).
Proof.
  revert b. induction policies as [|p policies IH]; intros [ps es]; cbn; [by rewrite !app_nil_r|].
  rewrite IH. cbn. by rewrite <- !app_assoc.
Qed.

Lemma entries_of_elem policies name entry :
  (name, entry) ∈ entries_of policies <-> exists p, p ∈ policies /\ rp_name p = name /\ rp_entry p = Some entry.
Proof.
  unfold entries_of. rewrite list_elem_of_bind. split.
  - intros (p & He & Hp). exists p. destruct (rp_entry p) as [e|]; cbn in He; [|set_solver].
    apply list_elem_of_singleton in He. by injection He as -> ->.
  - intros (p & Hp & <- & He). exists p. rewrite He. cbn. split; [by apply list_elem_of_singleton|done].
Qed.

Lemma entries_of_nodup policies : NoDup (rp_name <$> policies) -> NoDup (entries_of policies).*1.
Proof.
  induction policies as [|p policies IH]; cbn; [constructor|]. intros [Hp Hn]%NoDup_cons.
  rewrite fmap_app. apply NoDup_app. split_and!; [|intros name Hx Hy|by apply IH].
  - destruct (rp_entry p); cbn; [apply NoDup_singleton|constructor].
  - assert (name = rp_name p) as -> by (destruct (rp_entry p); cbn in Hx; set_solver).
    apply list_elem_of_fmap in Hy as ([name e] & E & (q & Hq & Hname & _)%entries_of_elem). cbn in E. subst.
    apply Hp. apply list_elem_of_fmap. by exists q.
Qed.

Lemma find_by_name policies p : NoDup (rp_name <$> policies) -> p ∈ policies ->
  List.find (fun q => bool_decide (rp_name q = rp_name p)) policies = Some p.
Proof.
  induction policies as [|q policies IH]; cbn; [set_solver|]. intros [Hq Hn]%NoDup_cons [->|Hp]%elem_of_cons.
  - by rewrite bool_decide_true.
  - rewrite bool_decide_false; [by apply IH|]. intros E. apply Hq. rewrite E. apply list_elem_of_fmap. by exists p.
Qed.

(** The engine's parts fit together.  Building succeeds exactly when no two
    policies share a name and no two share a policy group other than the default
    one, and names the first repeated name, or else the first repeated group,
    otherwise.  In a built engine the policies keep the order of registration, a
    name finds the one policy registered under it, and the registry holds under it
    the handles of that very policy, or nothing for a policy without settings. *)
Theorem builder_spec policies :
  let names := rp_name <$> policies in
  let ids := non_default (rp_group_id <$> policies) in
  match build (foldl pre_trade builder_new policies) with
  | Ok engine =>
      NoDup names /\ NoDup ids /\ ei_policies engine = policies /\
      (forall p, p ∈ policies ->
         find_policy engine (rp_name p) = Ok p /\ ei_config_registry engine !! rp_name p = rp_entry p) /\
      (forall name, name ∉ names ->
         find_policy engine name = Err (UnknownPolicy name) /\ registry_entry engine name = Err (UnknownPolicy name))
  | Err (DuplicatePolicyName name) => exists l1 l2, names = l1 ++ name :: l2 /\ NoDup l1 /\ name ∈ l1
  | Err (DuplicatePolicyGroupId id) => NoDup names /\ exists l1 l2, ids = l1 ++ id :: l2 /\ NoDup l1 /\ id ∈ l1
  end.
Proof.
  cbv zeta. rewrite builder_fold. unfold build, ensure_unique_policy_names, ensure_unique_group_ids. cbn [eb_policies builder_new app].
  rewrite unique_policy_names_repeat, unique_group_ids_repeat.
  pose proof (first_repeat_fresh (rp_name <$> policies)) as Hn. destruct (first_repeat ∅ (rp_name <$> policies)); [done|].
  pose proof (first_repeat_fresh (non_default (rp_group_id <$> policies))) as Hi.
  destruct (first_repeat ∅ (non_default _)); [done|]. cbn.
  assert (Hreg : forall name entry, registry_from_entries (entries_of policies) !! name = Some entry <->
            exists p, p ∈ policies /\ rp_name p = name /\ rp_entry p = Some entry).
  { intros name entry. rewrite <- entries_of_elem. unfold registry_from_entries.
    rewrite <- elem_of_list_to_map; [by rewrite elem_of_reverse|]. rewrite fmap_reverse, reverse_Permutation. by apply entries_of_nodup. }
  split_and!; [done..| |].
  - intros p Hp. split; [unfold find_policy; cbn; by rewrite find_by_name|].
    destruct (rp_entry p) as [e|] eqn:E; [apply Hreg; by exists p|].
    destruct (registry_from_entries (entries_of policies) !! rp_name p) as [e|] eqn:Er; [|done].
    apply Hreg in Er as (q & Hq & Hname & He). assert (q = p) as ->; [|congruence].
    pose proof (find_by_name policies q Hn Hq) as H1. rewrite Hname, find_by_name in H1 by done. congruence.
  - intros name Hname. split.
    + unfold find_policy. cbn. destruct (List.find _ _) as [q|] eqn:E; [|done]. exfalso. apply Hname.
      apply List.find_some in E as [Hq%list_elem_of_In <-%bool_decide_eq_true]. apply list_elem_of_fmap. by exists q.
    + unfold registry_entry. cbn. destruct (_ !! name) as [e|] eqn:E; [|done]. exfalso. apply Hname.
      apply Hreg in E as (q & Hq & <- & _). apply list_elem_of_fmap. by exists q.
Qed.

End Builder.

(** ** The sweep of a retune *)

Lemma filter_iff_in {A} (P Q : A -> Prop) `{forall x, Decision (P x)} `{forall x, Decision (Q x)} (l : list A) :
  (forall x, x ∈ l -> (P x <-> Q x)) -> filter P l = filter Q l.
Proof.
  induction l as [|x l IH]; intros Hpq; [done|]. rewrite !filter_cons, IH by set_solver.
  specialize (Hpq x ltac:(set_solver)). by repeat case_decide; try tauto.
Qed.

Section Retune.
Context {D : DecimalOps} {L : DecimalLaws D} {F : DecimalFormat} {G : DecimalDebug}.
Context {W Order Report Adjustment : Type} {O : Owns W SpotFundsState} {M : MarketDataSource W} {LW : LeaseWaits W} {TN : CellTypeName}.
Abbreviation Registered := (RegisteredPolicy (W:=W) (Order:=Order) (Report:=Report) (Adjustment:=Adjustment)).
Abbreviation St := (EngineState W).
Implicit Types (st : St) (account : AccountId) (blocks : list (AccountId * AccountBlock)).

(** The cause an account is blocked for, itself. *)
Definition cause_of st account : option AccountBlock := ba_accounts (es_blocked st) !! account.

Lemma record_blocks_spec blocks out st : NoDup blocks.*1 ->
  let '(out', st') := record_blocks blocks (out, st) in
  out' = out ++ filter (fun b => cause_of st b.1 = None) blocks /\
  (exists b, st' = set_blocked st b) /\
  forall account, cause_of st' account =
    or_else (cause_of st account) ((list_to_map blocks : gmap AccountId AccountBlock) !! account).
Proof.
  unfold record_blocks. revert out st. induction blocks as [|[a b] blocks IH]; intros out st; cbn [foldl fmap list_fmap fst snd].
  { intros _. rewrite app_nil_r. split_and!; [done|exists (es_blocked st); by destruct st as [? [] ? ?]|].
    intros account. cbn. rewrite lookup_empty. by destruct (cause_of st account). }
  intros [Ha Hn]%NoDup_cons. unfold record_block. cbn [snd].
  pose proof (block_account_accounts (es_blocked st) a b) as Hacc.
  destruct (block_account (es_blocked st) a b) as [inserted blocked] eqn:Eb. cbn in Hacc.
  specialize (IH (if inserted then out ++ [(a, b)] else out) (set_blocked st blocked) Hn).
  destruct (foldl _ _ blocks) as [out' st']. destruct IH as (-> & (b' & ->) & Hc).
  assert (Hins : inserted = bool_decide (cause_of st a = None)).
  { unfold block_account, insert_if_absent in Eb. unfold cause_of. by destruct (ba_accounts (es_blocked st) !! a); injection Eb as <- _. }
  assert (Hlook : forall account, cause_of (set_blocked st blocked) account =
            if decide (account = a) then or_else (cause_of st a) (Some b) else cause_of st account).
  { intros account. unfold cause_of. cbn. rewrite Hacc. cbn. rewrite insert_if_absent_lookup.
    case_decide; subst; [|done]. by destruct (ba_accounts (es_blocked st) !! a). }
  split_and!.
  - rewrite filter_cons. cbn [fst]. rewrite Hins.
    rewrite (filter_iff_in (fun x => cause_of (set_blocked st blocked) x.1 = None) (fun x => cause_of st x.1 = None)).
    2:{ intros [a' b''] Hin. cbn [fst]. rewrite Hlook, decide_False; [done|]. intros ->. apply Ha, list_elem_of_fmap. by exists (a, b''). }
    destruct (decide (cause_of st a = None)) as [E|E]; [|by rewrite bool_decide_false].
    rewrite bool_decide_true by done. by rewrite <- app_assoc.
  - by exists b'.
  - intros account. rewrite Hc, Hlook. cbn [list_to_map foldr uncurry]. case_decide; subst.
    + rewrite lookup_insert_eq. by destruct (cause_of st a).
    + by rewrite lookup_insert_ne.
Qed.

(** *** The barriers that changed *)

(** What the sweep of [st] looks at: the account's group and currency, and whether
    the set of barriers controls it by another barrier than before. *)
Definition group_in st account : option AccountGroupId := membership_map (sweep_memberships st) !! account.
Definition currency_in st account : option Asset := resolve_currency st account (group_in st account).
Definition swept st (previous current : SpotFundsPnlBarrierSet) : gset AccountId :=
  let s := own_get (es_world st) in
  known_universe current previous (pnl_keys s) (holdings_accounts s) (sweep_memberships st) (sweep_known_accounts O st).
Definition new_barrier st (previous current : SpotFundsPnlBarrierSet) account : option SpotFundsPnlBoundsBarrier :=
  if decide (account ∈ swept st previous current) then
    b ← barrier_for current account (group_in st account) (currency_in st account);
    if opt_eqb barrier_eqb (barrier_for previous account (group_in st account) (currency_in st account)) (Some b)
    then None else Some b
  else None.

Definition changes_of st (previous current : SpotFundsPnlBarrierSet) :=
  let s := own_get (es_world st) in
  changed_barriers current previous (pnl_keys s) (holdings_accounts s) (sweep_memberships st)
    (sweep_known_accounts O st) (resolve_currency st).

Lemma changes_of_elem st previous current a g c b :
  (a, g, c, b) ∈ changes_of st previous current <->
  g = group_in st a /\ c = currency_in st a /\ new_barrier st previous current a = Some b.
Proof.
  unfold changes_of. rewrite changed_barriers_scan, list_elem_of_omap. unfold new_barrier. fold (swept st previous current). split.
  - intros (a' & Ha%elem_of_in_order & (-> & -> & -> & Hb & He)%change_at_Some).
    fold (group_in st a') (currency_in st a') in *. rewrite decide_True by done. by rewrite Hb; cbn; rewrite He.
  - intros (-> & -> & Hn). case_decide as Ha; [|done]. destruct (barrier_for current a _ _) as [b'|] eqn:Eb; [|done].
    cbn in Hn. destruct (opt_eqb _ _ _) eqn:Ee; [done|]. injection Hn as ->.
    exists a. rewrite elem_of_in_order, change_at_Some. by split_and!.
Qed.

Lemma changes_of_nodup st previous current : NoDup (change_account <$> changes_of st previous current).
Proof.
  unfold changes_of. rewrite changed_barriers_scan, (omap_keys _ change_account); [apply NoDup_filter, in_order_nodup|].
  intros a [[[a' g] c] b] (-> & _)%change_at_Some. done.
Qed.

(** *** The realized barrier *)

Definition realized_block st (previous current : SpotFundsSettings) account : option AccountBlock :=
  b ← new_barrier st (pnl_barriers previous) (pnl_barriers current) account;
  let entry := default pnl_entry_zero (sf_pnl (own_get (es_world st)) !! account) in
  account_pnl_block_for_state (currency_in st account) (pe_state entry) b (pe_assertion_token entry).

Definition realized_blocks st (previous current : SpotFundsSettings) : list (AccountId * AccountBlock) :=
  account_pnl_barrier_change_blocks (own_get (es_world st)) previous current (sweep_memberships st)
    (sweep_known_accounts O st) (resolve_currency st).

Lemma realized_blocks_elem st previous current a block :
  (a, block) ∈ realized_blocks st previous current <-> realized_block st previous current a = Some block.
Proof.
  unfold realized_blocks, account_pnl_barrier_change_blocks. fold (changes_of st (pnl_barriers previous) (pnl_barriers current)).
  rewrite list_elem_of_omap. unfold realized_block. split.
  - intros ([[[a' g] c] b] & (-> & -> & Hn)%changes_of_elem & Hb). cbn in Hb.
    destruct (account_pnl_block_for_state _ _ _ _) as [x|] eqn:E; [|done]. injection Hb as <- <-. by rewrite Hn.
  - intros Hb. destruct (new_barrier _ _ _ a) as [b|] eqn:En; [|done]. cbn in Hb.
    exists (a, group_in st a, currency_in st a, b). split; [by apply changes_of_elem|]. cbn. by rewrite Hb.
Qed.

Lemma realized_blocks_nodup st previous current : NoDup (realized_blocks st previous current).*1.
Proof.
  unfold realized_blocks, account_pnl_barrier_change_blocks. fold (changes_of st (pnl_barriers previous) (pnl_barriers current)).
  pose proof (changes_of_nodup st (pnl_barriers previous) (pnl_barriers current)) as Hn.
  induction (changes_of _ _ _) as [|[[[a g] c] b] l IH]; [constructor|]. cbn in Hn. apply NoDup_cons in Hn as [Ha Hn].
  cbn [omap list_omap]. destruct (account_pnl_block_for_state _ _ _ _) as [x|]; cbn; [|by apply IH].
  apply NoDup_cons. split; [|by apply IH]. intros Hin. apply Ha.
  apply list_elem_of_fmap in Hin as ([a' y] & -> & ([[[a'' g'] c'] b'] & Hl & Hy)%list_elem_of_omap).
  cbn in *. destruct (account_pnl_block_for_state _ _ _ _); [|done]. injection Hy as -> _.
  apply list_elem_of_fmap. by exists (a', g', c', b').
Qed.

(** *** The axes *)

Abbreviation Change := (AccountId * option AccountGroupId * option Asset * SpotFundsPnlBoundsBarrier)%type.

Definition note_change (axis : SpotFundsPnlBoundsAxis) (entry : AxisChange) (b : SpotFundsPnlBoundsBarrier) : AxisChange :=
  mkAxisChange (ax_group entry) (ax_currency entry) (fun x => if decide (x = axis) then Some b else ax_barriers entry x).

Lemma note_fold (R : gset AccountId) axis (l : list Change) (m : gmap AccountId AxisChange) a : NoDup (change_account <$> l) ->
  foldl (note_axis_change R axis) m l !! a =
  if decide (a ∈ R) then m !! a
  else match List.find (fun x => bool_decide (change_account x = a)) l with
       | None => m !! a
       | Some (_, g, c, b) => Some (note_change axis (default (mkAxisChange g c (fun _ => None)) (m !! a)) b)
       end.
Proof.
  revert m. induction l as [|[[[a0 g] c] b] l IH]; intros m Hn; cbn [foldl]; [by destruct (decide (a ∈ R))|].
  cbn in Hn. apply NoDup_cons in Hn as [Ha0 Hn]. rewrite IH by done. cbn [List.find]. unfold change_account at 2. cbn [fst].
  assert (Hm : a0 <> a \/ a0 ∈ R -> note_axis_change R axis m (a0, g, c, b) !! a = m !! a).
  { cbn. intros H. destruct (decide (a0 ∈ R)); [done|]. apply lookup_insert_ne. naive_solver. }
  destruct (decide (a ∈ R)) as [HR|HR]; [destruct (decide (a0 = a)) as [->|]; auto|].
  destruct (decide (a0 = a)) as [->|Ha]; [|rewrite bool_decide_false by done; by rewrite Hm by auto].
  rewrite bool_decide_true by done. destruct (List.find _ l) as [[[[a' g'] c'] b']|] eqn:E.
  - apply List.find_some in E as [Hin%list_elem_of_In Heq%bool_decide_eq_true]. exfalso. apply Ha0, list_elem_of_fmap.
    exists (a', g', c', b'). by split.
  - cbn. rewrite decide_False by done. by rewrite lookup_insert_eq.
Qed.

Definition axis_change st (previous current : SpotFundsSettings) account (axis : SpotFundsPnlBoundsAxis) :
    option SpotFundsPnlBoundsBarrier :=
  new_barrier st (pnl_axis_barriers previous axis) (pnl_axis_barriers current axis) account.

Lemma note_axis st previous current (R : gset AccountId) axis (m : gmap AccountId AxisChange) a :
  foldl (note_axis_change R axis) m (changes_of st (pnl_axis_barriers previous axis) (pnl_axis_barriers current axis)) !! a =
  if decide (a ∈ R) then m !! a
  else match axis_change st previous current a axis with
       | None => m !! a
       | Some b => Some (note_change axis (default (mkAxisChange (group_in st a) (currency_in st a) (fun _ => None)) (m !! a)) b)
       end.
Proof.
  rewrite note_fold by apply changes_of_nodup. case_decide; [done|]. unfold axis_change.
  destruct (List.find _ _) as [[[[a' g] c] b]|] eqn:E.
  - apply List.find_some in E as [Hin%list_elem_of_In Heq%bool_decide_eq_true]. cbn in Heq. subst a'.
    apply changes_of_elem in Hin as (-> & -> & ->). done.
  - destruct (new_barrier _ _ _ a) as [b|] eqn:En; [|done]. exfalso.
    pose proof (List.find_none _ _ E (a, group_in st a, currency_in st a, b)) as H'. cbn in H'.
    rewrite bool_decide_true in H' by done. apply diff_true_false, H'. apply list_elem_of_In, changes_of_elem. done.
Qed.

Definition axis_changes st (previous current : SpotFundsSettings) (R : gset AccountId) : gmap AccountId AxisChange :=
  pnl_axis_barrier_changes (own_get (es_world st)) previous current (sweep_memberships st)
    (sweep_known_accounts O st) (resolve_currency st) R.

Lemma axis_changes_lookup st previous current R a :
  match axis_changes st previous current R !! a with
  | None => a ∈ R \/ forall x, axis_change st previous current a x = None
  | Some change => a ∉ R /\ ax_group change = group_in st a /\ ax_currency change = currency_in st a /\
      forall x, ax_barriers change x = axis_change st previous current a x
  end.
Proof.
  unfold axis_changes, pnl_axis_barrier_changes, ALL_AXES. cbn [foldl].
  fold (changes_of st (pnl_axis_barriers previous AccountUnrealized) (pnl_axis_barriers current AccountUnrealized)).
  fold (changes_of st (pnl_axis_barriers previous AccountTotal) (pnl_axis_barriers current AccountTotal)).
  fold (changes_of st (pnl_axis_barriers previous PositionUnrealized) (pnl_axis_barriers current PositionUnrealized)).
  fold (changes_of st (pnl_axis_barriers previous PositionTotal) (pnl_axis_barriers current PositionTotal)).
  rewrite !note_axis, lookup_empty. destruct (decide (a ∈ R)); [by left|].
  destruct (axis_change st previous current a AccountUnrealized) eqn:E1, (axis_change st previous current a AccountTotal) eqn:E2,
    (axis_change st previous current a PositionUnrealized) eqn:E3, (axis_change st previous current a PositionTotal) eqn:E4; cbn;
    first [right; intros []; done|split_and!; [done..|intros []; done]].
Qed.

Lemma axis_block_ext self (f g : SpotFundsPnlBoundsAxis -> option SpotFundsPnlBoundsBarrier) a grp cur carry st st' :
  (forall x, f x = g x) -> es_world st = es_world st' ->
  pnl_axis_block_for_barriers self f a grp cur carry st = pnl_axis_block_for_barriers self g a grp cur carry st'.
Proof.
  intros Hfg Hw. unfold pnl_axis_block_for_barriers, sf_of, ALL_AXES. rewrite Hw. cbn [forallb fmap list_fmap]. by rewrite !Hfg.
Qed.

(** The block the sweep reports for an account: of the realized barrier if that
    changed and gives one, else of the axes whose barriers changed. *)
Definition caught self st (previous current : SpotFundsSettings) account : option AccountBlock :=
  or_else (realized_block st previous current account)
    (pnl_axis_block_for_barriers self (axis_change st previous current account) account
       (group_in st account) (currency_in st account) true st).

Definition axis_blocks self st (changes : gmap AccountId AxisChange) : list (AccountId * AccountBlock) :=
  omap (fun '(account, change) =>
          (fun block => (account, block)) <$>
            pnl_axis_block_for_barriers self (ax_barriers change) account (ax_group change) (ax_currency change) true st)
    (in_account_order changes).

Lemma in_account_order_elem (changes : gmap AccountId AxisChange) a ch :
  (a, ch) ∈ in_account_order changes <-> changes !! a = Some ch.
Proof.
  unfold in_account_order. rewrite list_elem_of_omap. split.
  - intros (a' & _ & H). destruct (changes !! a') eqn:E; [|done]. cbn in H. by injection H as -> ->.
  - intros H. exists a. rewrite elem_of_in_order, elem_of_dom, H. by split.
Qed.

Lemma axis_blocks_nodup self st changes : NoDup (axis_blocks self st changes).*1.
Proof.
  unfold axis_blocks. assert (Hn : NoDup (in_account_order changes).*1).
  { unfold in_account_order. rewrite omap_keys; [apply NoDup_filter, in_order_nodup|].
    intros a [a' ch] H. destruct (changes !! a); [|done]. cbn in H. by injection H as -> _. }
  induction (in_account_order changes) as [|[a ch] l IH]; [constructor|]. cbn in Hn. apply NoDup_cons in Hn as [Ha Hn].
  cbn [omap list_omap]. destruct (pnl_axis_block_for_barriers _ _ _ _ _ _ _) as [x|]; cbn; [|by apply IH].
  apply NoDup_cons. split; [|by apply IH]. intros Hin. apply Ha.
  apply list_elem_of_fmap in Hin as ([a' y] & -> & ([a'' ch'] & Hl & Hy)%list_elem_of_omap).
  cbn in *. destruct (pnl_axis_block_for_barriers _ _ _ _ _ _ _); [|done]. injection Hy as -> _.
  apply list_elem_of_fmap. by exists (a', ch').
Qed.

(** The sweep of the axes records the blocks of the axes. *)
Lemma sweep_axes_fold self (policy : Registered) st l : rp_configuration policy = apply_runtime_configuration self ->
  forall x, es_world x.2 = es_world st ->
  foldl (sweep_axes policy) x l =
  record_blocks (omap (fun '(account, change) => (fun block => (account, block)) <$>
     pnl_axis_block_for_barriers self (ax_barriers change) account (ax_group change) (ax_currency change) true st) l) x.
Proof.
  intros Hp. induction l as [|[a ch] l IH]; intros [out st'] Hw; [done|]. cbn [foldl omap list_omap]. cbn in Hw.
  unfold sweep_axes at 2. rewrite Hp. cbn [apply_runtime_configuration fst snd].
  rewrite (axis_block_ext self (ax_barriers ch) (ax_barriers ch) a _ _ true st' st) by done.
  destruct (pnl_axis_block_for_barriers _ _ _ _ _ _ _) as [block|]; cbn [option_list fmap list_fmap option_fmap option_map].
  - destruct (record_block out a block st') as [out' st''] eqn:Eb.
    assert (Hw' : es_world st'' = es_world st).
    { unfold record_block in Eb. destruct (block_account _ _ _). by injection Eb as <- <-. }
    change (record_blocks _ (out, st')) with (record_block out a block st') at 1. rewrite Eb, IH by done.
    unfold record_blocks. cbn [foldl fst snd]. by rewrite Eb.
  - exact (IH (out, st') Hw).
Qed.

(** What the sweep leaves behind. *)
Definition swept_outcome self st (previous current : SpotFundsSettings) (outcomes : list (AccountId * AccountBlock)) st' : Prop :=
  (exists b, st' = set_blocked st b) /\ NoDup outcomes.*1 /\
  (forall account, cause_of st' account = or_else (cause_of st account) (caught self st previous current account)) /\
  forall account block, (account, block) ∈ outcomes <->
    cause_of st account = None /\ caught self st previous current account = Some block.

Lemma barrier_sweep_effect self (policy : Registered) previous current st :
  rp_configuration policy = apply_runtime_configuration self ->
  let '(outcomes, st') := barrier_sweep O policy previous current st in swept_outcome self st previous current outcomes st'.
Proof.
  intros Hp. unfold barrier_sweep. fold (realized_blocks st previous current).
  set (R := list_to_set (realized_blocks st previous current).*1 : gset AccountId). fold (axis_changes st previous current R).
  set (changes := axis_changes st previous current R).
  assert (HR : forall a, a ∈ R <-> exists block, realized_block st previous current a = Some block).
  { intros a. unfold R. rewrite elem_of_list_to_set, list_elem_of_fmap. split.
    - intros ([a' b] & -> & Hb%realized_blocks_elem). by exists b.
    - intros [b Hb%realized_blocks_elem]. by exists (a, b). }
  assert (HA : forall a block, (a, block) ∈ axis_blocks self st changes <-> a ∉ R /\
    pnl_axis_block_for_barriers self (axis_change st previous current a) a (group_in st a) (currency_in st a) true st = Some block).
  { intros a block. unfold axis_blocks. rewrite list_elem_of_omap. pose proof (axis_changes_lookup st previous current R a) as Hl.
    fold changes in Hl. split.
    - intros ([a' ch] & Hin%in_account_order_elem & Hb). destruct (pnl_axis_block_for_barriers _ _ _ _ _ _ _) eqn:E; [|done].
      injection Hb as -> ->. rewrite Hin in Hl. destruct Hl as (Hr & Hg & Hc & Hbar). split; [done|].
      by rewrite <- E, Hg, Hc; apply axis_block_ext.
    - intros [Hr Hb]. destruct (changes !! a) as [ch|] eqn:E.
      + exists (a, ch). split; [by apply in_account_order_elem|]. destruct Hl as (_ & -> & -> & Hbar).
        by rewrite (axis_block_ext self (ax_barriers ch) _ a _ _ true st st Hbar eq_refl), Hb.
      + destruct Hl as [Hl|Hl]; [done|]. unfold pnl_axis_block_for_barriers, ALL_AXES in Hb. cbn [forallb] in Hb. by rewrite !Hl in Hb. }
  set (blocks := realized_blocks st previous current ++ axis_blocks self st changes).
  assert (Hn : NoDup blocks.*1).
  { unfold blocks. rewrite fmap_app. apply NoDup_app. split_and!; [apply realized_blocks_nodup| |apply axis_blocks_nodup].
    intros a Ha ([a' b] & E & Hin%HA)%list_elem_of_fmap. cbn in E. subst. apply Hin. unfold R. by apply elem_of_list_to_set. }
  assert (Hin : forall a block, (a, block) ∈ blocks <-> caught self st previous current a = Some block).
  { intros a block. unfold blocks, caught. rewrite elem_of_app, realized_blocks_elem, HA. split.
    - intros [->|[Hr Hb]]; [done|]. destruct (realized_block st previous current a) eqn:E; [|done]. exfalso. apply Hr, HR. eauto.
    - destruct (realized_block st previous current a) eqn:E; cbn; [by left|]. intros Hb. right. split; [|done].
      intros [b Hb']%HR. congruence. }
  pose proof (record_blocks_spec (realized_blocks st previous current) [] st (realized_blocks_nodup _ _ _)) as H1.
  rewrite (sweep_axes_fold self policy st) by (done || (destruct (record_blocks _ ([], st)) as [o st']; destruct H1 as (_ & (b & ->) & _); done)).
  fold (axis_blocks self st changes). clear H1. pose proof (record_blocks_spec blocks [] st Hn) as H2.
  assert (E : record_blocks (axis_blocks self st changes) (record_blocks (realized_blocks st previous current) ([], st)) =
              record_blocks blocks ([], st)) by (unfold record_blocks, blocks; by rewrite foldl_app).
  rewrite E. destruct (record_blocks blocks ([], st)) as [outcomes st']. destruct H2 as (-> & Hb & Hc). cbn [app].
  assert (Hmap : forall a, (list_to_map blocks : gmap AccountId AccountBlock) !! a = caught self st previous current a).
  { intros a. destruct (caught self st previous current a) as [b|] eqn:Ec.
    - apply elem_of_list_to_map; [done|by apply Hin].
    - apply not_elem_of_list_to_map. intros ([a' b] & Ea & Hb'%Hin)%list_elem_of_fmap. cbn in Ea. subst. congruence. }
  split_and!; [done| |intros a; by rewrite Hc, Hmap|].
  - eapply sublist_NoDup; [exact Hn|]. apply fmap_sublist, sublist_filter.
  - intros a b. rewrite list_elem_of_filter, Hin. done.
Qed.

(** Settings whose barriers are the same control every account by the same. *)
Definition same_barriers (previous current : SpotFundsSettings) : Prop :=
  pnl_barriers current = pnl_barriers previous /\
  forall axis, pnl_axis_barriers current axis = pnl_axis_barriers previous axis.

Lemma same_barriers_caught self st previous current account : same_barriers previous current ->
  caught self st previous current account = None.
Proof.
  intros [Hr Ha]. assert (Hn : forall bs, new_barrier st bs bs account = None).
  { intros bs. unfold new_barrier. case_decide; [|done]. destruct (barrier_for bs account _ _) as [b|]; [|done]. cbn.
    by rewrite barrier_eqb_refl. }
  unfold caught, realized_block, pnl_axis_block_for_barriers, ALL_AXES, axis_change. rewrite Hr, Hn. cbn [mbind option_bind or_else forallb].
  by rewrite !Ha, !Hn.
Qed.

Section Configurator.
Context {Error : Type} (error_fmt : Error -> string).
Implicit Types (engine : EngineInner (W:=W) (Order:=Order) (Report:=Report) (Adjustment:=Adjustment)).

(** C22: retuning the spot funds policy is a transaction with a sweep.  A rejected
    update changes nothing.  An accepted one publishes exactly what the closure
    made of the settings and then blocks exactly the accounts whose effective
    barrier is now another one and does not admit their state - the realized
    barrier first, then the changed axes - reporting those that carried no block
    yet, each once; an account already blocked keeps its first cause.  No account
    under a changed realized barrier that its P&L breaks, or in another currency,
    stays unblocked, and an update that leaves the barriers alone blocks nobody. *)
Theorem spot_funds_retune meanwhile engine name (f : Update (Error:=Error) SpotFundsSettings) st self (policy : Registered) :
  ei_config_registry engine !! name = Some (CE_SpotFunds O) -> find_policy engine name = Ok policy ->
  rp_configuration policy = apply_runtime_configuration self ->
  let previous := sf_settings (own_get (es_world st)) in
  let '(r, st') := configure_spot_funds error_fmt meanwhile engine name f st in
  match f previous with
  | (Err e, _) => r = Err (Validation name (error_fmt e)) /\ st' = st
  | (Ok _, current) =>
      let w := es_world (meanwhile st) in
      let st1 := with_world (meanwhile st) (own_set (set_settings (own_get w) current) w) in
      sf_settings (own_get (es_world st')) = current /\
      exists outcomes, r = Ok outcomes /\ swept_outcome self st1 previous current outcomes st' /\
        (forall account b, new_barrier st1 (pnl_barriers previous) (pnl_barriers current) account = Some b ->
           currency_agrees (currency_in st1 account) b /\ admits b (account_pnl_state (own_get w) account) \/
           cause_of st' account <> None) /\
        (same_barriers previous current -> outcomes = [] /\ forall account, cause_of st' account = cause_of (meanwhile st) account)
  end.
Proof.
  intros Hr Hf Hp. cbv zeta. unfold configure_spot_funds, registry_entry. rewrite Hr. cbn [ok_or]. rewrite Hf.
  unfold prepare_serialized_transition. destruct (f _) as [[[]|e] current]; [|done]. cbn [validation map_err].
  unfold publish_transition. cbn [pt_previous pt_current]. set (previous := sf_settings _).
  set (w := es_world (meanwhile st)). set (st1 := with_world (meanwhile st) _).
  pose proof (barrier_sweep_effect self policy previous current st1 Hp) as H.
  destruct (barrier_sweep O policy previous current st1) as [outcomes st']. destruct H as (Hb & Hn & Hc & Hin).
  split. { destruct Hb as [b ->]. cbn. by rewrite own_get_set. }
  exists outcomes. split_and!; [done|done| |].
  - intros account b Hb'. destruct (realized_block st1 previous current account) as [block|] eqn:E.
    + right. rewrite Hc. unfold caught. rewrite E. by destruct (cause_of st1 account).
    + left. unfold realized_block in E. rewrite Hb' in E. cbn in E. apply account_state_None in E.
      replace (account_pnl_state (own_get w) account) with
        (pe_state (default pnl_entry_zero (sf_pnl (own_get (own_set (set_settings (own_get w) current) w)) !! account))); [done|].
      rewrite own_get_set. unfold account_pnl_state. cbn. by destruct (sf_pnl (own_get w) !! account).
  - intros Hs. split.
    + destruct outcomes as [|[a block] l]; [done|]. destruct (proj1 (Hin a block)) as [_ Hca]; [set_solver|].
      by rewrite same_barriers_caught in Hca.
    + intros account. rewrite Hc, same_barriers_caught by done.
      change (or_else (cause_of (meanwhile st) account) None = cause_of (meanwhile st) account).
      by destruct (cause_of (meanwhile st) account).
Qed.

(** The blocks a registry reports for a move of an account. *)
Lemma registry_reports engine st name a g g' c c' block :
  ei_config_registry engine !! name = Some (CE_SpotFunds O) ->
  account_pnl_membership_change_block (own_get (es_world st)) (sf_settings (own_get (es_world st))) a g g' c c' = Some block ->
  head (account_pnl_membership_change_blocks engine st a g g' c c') <> None.
Proof.
  intros Hr Hb. destruct (account_pnl_membership_change_blocks engine st a g g' c c') as [|x l] eqn:E; [|done].
  exfalso. assert (Hin : block ∈ account_pnl_membership_change_blocks engine st a g g' c c'); [|rewrite E in Hin; set_solver].
  unfold account_pnl_membership_change_blocks. rewrite list_elem_of_omap. exists (CE_SpotFunds O). split; [|done].
  apply list_elem_of_fmap. exists (name, CE_SpotFunds O). split; [done|]. by apply elem_of_map_to_list.
Qed.

Definition breaks_currency (cur : option Asset) (barrier : option SpotFundsPnlBoundsBarrier) : bool :=
  match barrier, cur with Some b, Some c => negb (bool_decide (currency b = c)) | _, _ => false end.

(** Joining a group puts its P&L barrier into force at once.  When accounts are
    registered in a group of an engine with the spot funds policy, every one of
    them that the policy now controls by another barrier than before, or whose
    currency the barrier now fails to match, is blocked unless the barrier's
    currency agrees with the account's and its P&L is a known value inside the
    bounds; accounts that were not listed keep their group and their blocks. *)
Theorem group_move_enforces engine name st accounts g acc' :
  ei_config_registry engine !! name = Some (CE_SpotFunds O) ->
  accounts_register_group (account_pnl_membership_change_blocks engine st) (es_accounts st) accounts g = (Ok tt, acc') ->
  let s := own_get (es_world st) in
  forall a,
    if decide (a ∈ accounts) then
      let old := group_of (es_groups st) a in
      let cur := currency_of (as_currencies acc') a (Some g) in
      let barrier := pnl_barrier_for (sf_settings s) a in
      let before := barrier old (currency_of (as_currencies acc') a old) in
      group_of (as_groups acc') a = Some g /\
      forall b, barrier (Some g) cur = Some b ->
        opt_eqb barrier_eqb before (Some b) = false \/
          breaks_currency (currency_of (as_currencies acc') a old) before <> breaks_currency cur (Some b) ->
        currency_agrees cur b /\ admits b (account_pnl_state s a) \/ ba_accounts (as_blocked acc') !! a <> None
    else group_of (as_groups acc') a = group_of (es_groups st) a /\
         ba_accounts (as_blocked acc') !! a = ba_accounts (es_blocked st) !! a.
Proof.
  intros Hr E s a.
  pose proof (accounts_register_group_spec (account_pnl_membership_change_blocks engine st) (es_accounts st) accounts g) as Hspec.
  rewrite E in Hspec. destruct Hspec as (_ & H). destruct (H eq_refl) as (Hcur & Ha). destruct (Ha a) as [Hg Hb]. clear H Ha.
  case_decide as Hin; [|split; [done|]; rewrite Hb; fold (es_blocked st); by destruct (ba_accounts (es_blocked st) !! a)].
  split; [done|]. intros b Hbar Hch.
  destruct (account_pnl_membership_change_block s (sf_settings s) a (group_of (es_groups st) a) (Some g)
    (currency_of (as_currencies acc') a (group_of (es_groups st) a)) (currency_of (as_currencies acc') a (Some g))) as [block|] eqn:Ec.
  - right. rewrite Hb. destruct (ba_accounts (as_blocked (es_accounts st)) !! a); [done|]. cbn [or_else].
    unfold change_blocks. rewrite Hg, <- Hcur. eapply registry_reports; [exact Hr|exact Ec].
  - left. unfold account_pnl_membership_change_block in Ec. rewrite Hbar in Ec.
    fold (breaks_currency (currency_of (as_currencies acc') a (group_of (es_groups st) a))
            (pnl_barrier_for (sf_settings s) a (group_of (es_groups st) a)
               (currency_of (as_currencies acc') a (group_of (es_groups st) a)))) in Ec.
    fold (breaks_currency (currency_of (as_currencies acc') a (Some g)) (Some b)) in Ec.
    destruct (opt_eqb _ _ _ && eqb _ _) eqn:Ee.
    + exfalso. apply andb_true_iff in Ee as [E1 E2%eqb_prop]. destruct Hch as [Hch|Hch]; [congruence|by apply Hch].
    + cbn in Ec. apply account_state_None in Ec. unfold account_pnl_state. destruct (sf_pnl s !! a); apply Ec.
Qed.

End Configurator.

End Retune.

(** ** Nested calls *)

(** A guarded call on an engine and the calls made while it runs. *)
Inductive GuardedCall : Type := Guarded (identity : Z) (nested : list GuardedCall).

Fixpoint run_call (c : GuardedCall) (active : list Z) : option (list Z) :=
  match c with
  | Guarded identity nested =>
      active ← calls_enter identity active;
      active ← foldl (fun acc c => acc ≫= run_call c) (Some active) nested;
      calls_drop identity active
  end.

Fixpoint reenters (ancestors : list Z) (c : GuardedCall) : bool :=
  match c with
  | Guarded identity nested =>
      existsb (Z.eqb identity) ancestors || existsb (reenters (ancestors ++ [identity])) nested
  end.

(** The check panics exactly when a call re-enters an engine that is already in a
    call on this thread, however deep and whatever other engines are called in
    between; otherwise the guards unwind in order and leave the thread as it was. *)
Theorem run_call_spec : forall c active, run_call c active = if reenters active c then None else Some active.
Proof.
  fix IH 1. intros [identity nested] active. cbn [run_call reenters]. unfold calls_enter.
  destruct (existsb (Z.eqb identity) active); [done|]. cbn [mbind option_bind orb].
  assert (H : foldl (fun acc c => acc ≫= run_call c) (Some (active ++ [identity])) nested =
    if existsb (reenters (active ++ [identity])) nested then None else Some (active ++ [identity])).
  { induction nested as [|c nested IHn]; [done|]. cbn [foldl existsb mbind option_bind]. rewrite (IH c).
    destruct (reenters (active ++ [identity]) c); cbn [orb]; [|exact IHn].
    clear. induction nested; [done|]. cbn. done. }
  rewrite H. destruct (existsb _ nested); [done|]. cbn [mbind option_bind]. unfold calls_drop.
  by rewrite last_snoc, Z.eqb_refl, removelast_last.
Qed.
