(* ===== verification/ComponentWitnesses.v ===== *)
(** * ComponentWitnesses: the properties of the engine and its components at concrete inputs

    A model for the witnesses and the engine on it; the engine's parts and the
    policies without a state of holdings; the market data service and the reference
    book; and two threads on one storage. *)
From S2P Require Import Prelude.
From S2P Require Import Decimal.
From S2P Require Import DecimalRef.
From S2P Require Import Param.
From S2P Require Import ParamTypes.
From S2P Require Import Identifiers.
From S2P Require Import Mutation.
From S2P Require Import Reject.
From S2P Require Import AccountControl.
From S2P Require Import Accounts.
From S2P Require Import Lock.
From S2P Require Import Policy.
From S2P Require Import Engine.
From S2P Require Import EngineFacts.
From S2P Require Import EngineOps.
From S2P Require Import Storage.
From S2P Require Import Locking.
From S2P Require Import LockingFacts.
From S2P Require Import Holdings.
From S2P Require Import HoldingsFacts.
From S2P Require Import HoldingsStore.
From S2P Require Import Instruments.
From S2P Require Import ReferenceBook.
From S2P Require Import MarketData.
From S2P Require Import MarketDataFacts.
From S2P Require Import OrderValidation.
From S2P Require Import OrderSizeLimit.
From S2P Require Import OrderSizeLimitFacts.
From S2P Require Import PnlBounds.
From S2P Require Import PnlBoundsFacts.
From S2P Require Import RateLimit.
From S2P Require Import SlidingWindow.
From S2P Require Import FixedWindow.
From S2P Require Import RateLimitFacts.
From stdpp Require Import sorting pretty.
Open Scope Z_scope.

(** ** A model for the witnesses, and the properties of the engine at concrete inputs *)

(** *** Concrete instances the witnesses evaluate

    A reference decimal, a policy over a counter that honours every contract the
    engine's theorems ask for, and a tree format for the lock. *)

#[export] Existing Instance RefDecimal.

(** *** A counting policy *)

Record DemoOrder : Set := mkDemoOrder {
  demo_account_id : result RequestFieldAccessError AccountId;
  demo_amount : Z
}.

#[export] Instance DemoOrder_account : HasAccountId DemoOrder := fun order _ => demo_account_id order.

Abbreviation DemoState := (EngineState Z).

Definition demo_add (n : Z) (st : DemoState) : DemoState := with_world st (es_world st + n).

Definition demo_mutation (n : Z) : Mutation DemoState :=
  mutation_new (fun st => st) (demo_add (- n)).

Definition demo_reject (code : RejectCode) : Reject :=
  reject_new "demo" RS_Account code "amount too large" "demo".

Definition demo_rejects (n : Z) : option (Rejects PolicyPreTradeResult) :=
  if 100 <? n then Some (rejects_new [demo_reject RC_SystemUnavailable])
  else if 10 <? n then Some (rejects_new [demo_reject RC_RiskLimitExceeded])
  else None.

(** The counter moves before the verdict, so a rejection has something to undo. *)
Definition demo_perform (ctx : PreTradeContext) (order : DemoOrder) (ms : Mutations DemoState)
    (s : HookState Z) :
    result (Rejects PolicyPreTradeResult) (option PolicyPreTradeResult) * Mutations DemoState * HookState Z :=
  let n := demo_amount order in
  (match demo_rejects n with Some r => Err r | None => Ok None end,
   mutations_push ms (demo_mutation n), (s.1, demo_add n s.2)).

Definition demo_adjust (ctx : AccountAdjustmentContext) (account : AccountId) (n : Z)
    (ms : Mutations DemoState) (s : GroupCell * DemoState) :
    result (Rejects PolicyPreTradeResult) PolicyAccountAdjustmentResult * Mutations DemoState *
    (GroupCell * DemoState) :=
  (match demo_rejects n with
   | Some r => Err r
   | None => Ok (mkPolicyAccountAdjustmentResult []
                   (if 5 <? n then [account_block_new "demo" RC_RiskLimitExceeded "adjusted" ""] else []))
   end, mutations_push ms (demo_mutation n), (s.1, demo_add n s.2)).

Definition demo_report (ctx : PostTradeContext) (report : DemoOrder) (s : GroupCell * DemoState) :
    option PostTradeResult * (GroupCell * DemoState) :=
  (if 10 <? demo_amount report
   then Some (blocks_only [account_block_new "demo" RC_RiskLimitExceeded "filled" ""])
   else None, (s.1, demo_add (demo_amount report) s.2)).

Definition demo_retire (account : AccountId) (ms : Mutations DemoState) (st : DemoState) :
    result AccountRetirementRefusal unit * Mutations DemoState * DemoState :=
  if es_world st =? 0 then (Ok tt, ms, st) else (Err NonZeroState, ms, st).

Definition demo_policy : PreTradePolicy Z DemoOrder DemoOrder Z :=
  mkPolicy "demo" DEFAULT_POLICY_GROUP_ID start_default start_default demo_perform perform_default
    demo_report demo_adjust demo_retire.

Lemma demo_undoes n w : undoes [demo_mutation n] (w + n) w.
Proof. intros o st Hw. cbn. split_and!; [done|cbn; lia|done]. Qed.

#[export] Instance demo_transactional : Transactional demo_policy.
Proof.
  split; cbn.
  - by intros ctx order s r s' [= <- <-] _.
  - intros ctx order ms s r ms' s' [= <- <- <-] Hd. split_and!; [done..|].
    eexists. split; [done|apply demo_undoes].
  - intros actx account n ms s s' r ms' [= <- <- <-]. split; [done|].
    eexists. split; [done|apply demo_undoes].
  - unfold demo_retire. intros account ms st r ms' st' E.
    destruct (es_world st =? 0); injection E as <- <- <-; (split; [done|]);
      exists []; rewrite app_nil_r; (split; [done|apply undoes_nil]).
Qed.

#[export] Instance demo_drop_copy : DropCopyTransactional demo_policy.
Proof.
  split; [apply _|]. cbn. intros ctx order s r s' ms [= <- <-] _ Ho. exists [], ms.
  rewrite app_nil_r. split_and!; [done|done|apply undoes_nil].
Qed.

#[export] Instance demo_quiet : DryRunQuiet demo_policy.
Proof. split; cbn; [by intros ctx order s r s' [= <- <-] _|by intros ctx order ms s r ms' s' [= <- <- <-] _]. Qed.

Lemma demo_policies : Forall Transactional [demo_policy].
Proof. apply Forall_singleton, _. Qed.
Lemma demo_drop_copy_policies : Forall DropCopyTransactional [demo_policy].
Proof. apply Forall_singleton, _. Qed.
Lemma demo_quiet_policies : Forall DryRunQuiet [demo_policy].
Proof. apply Forall_singleton, _. Qed.

Definition demo_account : AccountId := account_from_u64 7.
Definition demo_state : DemoState := mkEngineState 3 accounts_state_new 1 None.
Definition demo_order (n : Z) : DemoOrder := mkDemoOrder (Ok demo_account) n.
Definition demo_request (n : Z) : PreTradeRequest :=
  let '(ctx, cells) := with_accounts_ctx (W:=Z) (Ok demo_account) in
  mkPreTradeRequest ctx cells (demo_order n).

(** *** A tree format *)

Inductive Tree : Type :=
| TSeq (l : list Tree)
| TU16 (z : Z)
| TPrice (p : Price).

#[export] Instance tree_format : SerdeFormat := {
  Ser := Tree;
  ser_seq := TSeq;
  de_seq t := match t with TSeq l => Some l | _ => None end;
  ser_u16 := TU16;
  de_u16 t := match t with TU16 z => Some z | _ => None end;
  ser_price := TPrice;
  de_price t := match t with TPrice p => Some p | _ => None end
}.

#[export] Instance tree_laws : SerdeLaws tree_format.
Proof. by split. Qed.

Definition demo_price (m : Z) : Price := sg_new (rd m 2).

(** *** The properties of the engine at concrete inputs

    Each witness applies one property to an input where its hypotheses hold. *)

(** Names the outcome of the call the goal matches on, whose verdict [ok] is
    evaluated. *)
Ltac run_call_as E ok :=
  match goal with
  | |- context [match ?call with (_, _) => _ end] =>
      let H := fresh in
      assert (H : is_ok call.1 = ok) by reflexivity;
      destruct call as [[?|?] ?] eqn:E; cbn in H; try discriminate H; clear H
  end.

(** An order of 20 is rejected after the counter moved; the counter is back at 3
    and the account is blocked. *)
Lemma rejected_request_restores_witness :
  match execute_pre_trade_request true [demo_policy] (demo_request 20) demo_state with
  | (Err rejects, st') => es_world st' = 3
  | (Ok _, _) => False
  end.
Proof.
  run_call_as E false.
  apply (rejected_request_restores [demo_policy] (demo_request 20) demo_state) in E;
    [apply E|apply demo_policies|reflexivity|reflexivity].
Defined.

(** An order of 5 is accepted, and giving its reservation back restores 3. *)
Lemma accepted_request_reverts_witness :
  match execute_pre_trade_request true [demo_policy] (demo_request 5) demo_state with
  | (Ok res, st') => es_world (reservation_drop res st') = 3
  | (Err _, _) => False
  end.
Proof.
  run_call_as E true.
  apply (accepted_request_reverts [demo_policy] (demo_request 5) demo_state) in E as [_ Hr];
    [|apply demo_policies|reflexivity]. by apply Hr.
Defined.

(** Nobody rejects an order of 5 at the start, and a request comes out of it. *)
Lemma start_pre_trade_spec_witness :
  match start_pre_trade [demo_policy] 0 (demo_order 5) demo_state with
  | (Ok request, st') => req_order request = demo_order 5 /\ es_world st' = 3
  | (Err _, _) => False
  end.
Proof.
  pose proof (start_pre_trade_spec [demo_policy] 0 (demo_order 5) demo_state demo_policies) as Hs.
  destruct (start_pre_trade _ _ _ _) as [r st']. lazy beta zeta iota in Hs.
  match type of Hs with match ?c with _ => _ end => assert (Hc : c = None) by reflexivity; rewrite Hc in Hs end.
  cbn in Hs. destruct Hs as (_ & _ & _ & -> & ->). split; reflexivity.
Defined.

(** An order of 200 cannot be evaluated: the drop-copy call fails and the counter
    is back at 3. *)
Lemma drop_copy_failure_restores_witness :
  match apply_drop_copy [demo_policy] 0 (demo_order 200) demo_state with
  | (Err rejects, st') => es_world st' = 3 /\ into_vec rejects <> []
  | (Ok _, _) => False
  end.
Proof.
  run_call_as E false.
  apply (drop_copy_failure_restores [demo_policy] 0 (demo_order 200) demo_state) in E
    as (Hw & _ & [[[? Hx] _]|[Hr _]]); [discriminate Hx| |apply demo_drop_copy_policies].
  split; [exact Hw|exact Hr].
Defined.

(** An order of 20 is recorded although it is rejected, and can be rolled
    back. *)
Lemma drop_copy_operation_reverts_witness :
  match apply_drop_copy [demo_policy] 0 (demo_order 20) demo_state with
  | (Ok op, st') => es_world (operation_rollback op st').2 = 3
  | (Err _, _) => False
  end.
Proof.
  run_call_as E true.
  apply (drop_copy_operation_reverts [demo_policy] 0 (demo_order 20) demo_state) in E
    as (account & _ & _ & _ & Hr); [|apply demo_drop_copy_policies].
  specialize (Hr _ eq_refl). destruct (operation_rollback _ _) as [op' st2]. apply Hr.
Defined.

Lemma mutation_failure_blocks_witness :
  is_blocked (es_blocked (record_mutation_failure (Some demo_account)
    (failure_record failure_default EngineOwned "finalizer failed") demo_state)) ∅ demo_account = true.
Proof.
  destruct (mutation_failure_blocks (Some demo_account)
    (failure_record failure_default EngineOwned "finalizer failed") demo_state ∅) as [Ha _]; [discriminate|].
  apply Ha. reflexivity.
Defined.

(** The second of three adjustments is refused: the counter is back at 3 and the reported
    index is 1. *)
Lemma adjustment_batch_atomic_witness :
  match apply_account_adjustment [demo_policy] demo_account [4; 20; 1] demo_state with
  | (Err e, st') => es_world st' = 3 /\ abe_failed_adjustment_index e = 1%nat
  | (Ok _, _) => False
  end.
Proof.
  pose proof (adjustment_batch_atomic [demo_policy] demo_account [4; 20; 1] demo_state demo_policies) as H.
  run_call_as E false. destruct (mutations_new demo_state) as [ms0 st0].
  destruct H as (Hw & _ & before & adjustment & after & earlier & p & later & ms1 & ms2 & s1 & s2 & Hs & Hps & Hi & Hacc & Hr).
  split; [exact Hw|]. rewrite Hi.
  destruct before as [|a0 [|a1 before]]; [exfalso| reflexivity|exfalso].
  - injection Hs as <- _. destruct earlier as [|q earlier]; [|by destruct earlier].
    injection Hps as <- _. discriminate Hr.
  - injection Hs as <- <- _. discriminate Hacc.
Defined.

Lemma retire_account_spec_witness :
  match retire_account [demo_policy] demo_account demo_state with
  | (Err (Refused refusals), st') => refusals <> [] /\ es_world st' = 3
  | _ => False
  end.
Proof.
  pose proof (retire_account_spec [demo_policy] demo_account demo_state demo_policies) as Hr.
  assert (Hk : match (retire_account [demo_policy] demo_account demo_state).1 with
               | Err (Refused _) => true | _ => false end = true) by reflexivity.
  destruct (retire_account _ _ _) as [[u|[refusals|]] st']; [discriminate Hk| |discriminate Hk].
  destruct Hr as (Hne & Hw & _). split; [exact Hne|exact Hw].
Defined.

Lemma dry_run_changes_nothing_witness :
  es_world (execute_pre_trade_dry_run [demo_policy] 0 (demo_order 20) demo_state).2 = 3.
Proof.
  pose proof (dry_run_changes_nothing [demo_policy] 0 (demo_order 20) demo_state demo_quiet_policies) as [Hd _].
  destruct (execute_pre_trade_dry_run _ _ _ _) as [report st']. apply Hd.
Defined.

(** ** The properties of the components at concrete inputs

    The engine's parts and the policies without a state of holdings; the market data
    service and the reference book; and two threads on one storage. *)

(** Closed facts on units of concrete decimals. *)
Ltac units := vm_compute; congruence.
Ltac repr := apply representable_b_true; vm_compute; reflexivity.

Definition size (n : Z) : PositionSize := sg_new (rd n 0).
Definition price (n : Z) : Price := sg_new (rd n 0).
Definition u : Z := DEC_UNIT.

(** *** Holdings *)

(** Available 10 at an average of 5. *)
Definition long_ten : Holdings := mkHoldings (size 10) (size 0) (size 0) (Some (price 5)) None.

Lemma try_hold_spec_witness :
  exists h, try_hold long_ten (size 4) = Ok h /\ moved long_ten h (-4 * u) (4 * u) 0.
Proof.
  pose proof (try_hold_spec long_ten (size 4)) as H.
  assert (Hc : (sg_val (size 4) <=? capacity long_ten) = true) by (vm_compute; reflexivity).
  rewrite Hc in H. destruct H as (h & Hh & Hm); [repr|repr|repr|]. exists h. split; [exact Hh|].
  assert (E : sg_val (size 4) = 4 * u) by units. rewrite E in Hm. exact Hm.
Defined.

Lemma reservation_lifecycle_witness :
  exists h1 h2 h3, hold_allow_negative long_ten (size 4) = Ok h1 /\
    apply_fill_outflow h1 (size 3) = Ok h2 /\ release h2 (size 1) = Ok h3 /\ owned h3 = 7 * u.
Proof.
  destruct (reservation_lifecycle long_ten (size 4) (size 3) (size 1))
    as (h1 & h2 & h3 & H1 & H2 & H3 & _ & Ho & _); [units|repr|repr|repr|repr|].
  exists h1, h2, h3. split; [exact H1|split; [exact H2|split; [exact H3|]]]. rewrite Ho. units.
Defined.

(** A hold of 4 is undone after someone else added 2 to available. *)
Lemma delta_rollback_interleaved_witness :
  exists h3, apply_delta_rollback (mkHoldings (size 8) (size 4) (size 0) None None)
               (size (-4)) (size 4) (size 0) = Ok h3 /\ av h3 = 12 * u.
Proof.
  destruct (delta_rollback_interleaved long_ten (mkHoldings (size 6) (size 4) (size 0) (Some (price 5)) None)
    (mkHoldings (size 8) (size 4) (size 0) None None) (size (-4)) (size 4) (size 0) (2 * u) 0 0)
    as (h3 & H3 & Ha & _); [|units|units|units|repr|repr|repr|].
  - split; [units|split; [units|split; [units|split; reflexivity]]].
  - exists h3. split; [exact H3|]. rewrite Ha. units.
Defined.

(** One unit at 1, and the 10 again with no average. *)
Definition long_one : Holdings := mkHoldings (size 1) (size 0) (size 0) (Some (price 1)) None.
Definition unknown_ten : Holdings := mkHoldings (size 10) (size 0) (size 0) None None.

(** The average of 5 paid for 3 is one unit off at most. *)
Lemma five_by_three : near_div 1 (5 * u) (3 * u).
Proof.
  intros n d Hn Hd.
  assert (H : match rd_fit (5 * u * DEC_UNIT * Z.sgn (3 * u)) (Z.abs (3 * u)) with
              | Some c => Z.abs (rd_units c * (3 * u) - 5 * u * DEC_UNIT) <=? 1 * Z.abs (3 * u)
              | None => false end = true) by (vm_compute; reflexivity).
  cbn [dec_div RefDecimal]. cbn [dec_val RefDecimal] in Hn, Hd |- *. rewrite Hn, Hd.
  change (3 * u =? 0) with false. cbv iota.
  destruct (rd_fit _ _) as [c|]; [|discriminate]. exists c. split; [reflexivity|]. by apply Z.leb_le.
Qed.

(** Selling 4 of the 10 at 8 realizes 12; adding 2 at 2 to the one at 1 makes an
    average that is not exact; and selling 4 of 10 whose average is unknown halts. *)
Lemma position_fill_conserves_value_witness :
  (exists op, realize_position_fill long_ten (size (-4)) (price 8) = Ok op /\
     realized_units op * DEC_UNIT +
       unrealized (6 * u) (h_avg_entry_price (po_holdings op)) (8 * u) = 30 * u * u) /\
  (exists op, realize_position_fill long_one (size 2) (price 2) = Ok op /\
     Z.abs (realized_units op * DEC_UNIT +
       unrealized (3 * u) (h_avg_entry_price (po_holdings op)) (2 * u) - u * u) <= 3 * u) /\
  (exists op, realize_position_fill unknown_ten (size (-4)) (price 8) = Ok op /\
     po_realized_delta op = None /\ h_realized_pnl (po_holdings op) = Some (StateHalted MissingCostBasis)).
Proof.
  split; [|split].
  - destruct (position_fill_conserves_value 0 long_ten (size (-4)) (price 8))
      as (op & Hop & _ & _ & _ & Hv); [lia|repr|repr| |].
    + intros pa [= <-]. split.
      * intros H. exfalso. revert H. vm_compute. intros H. apply H. reflexivity.
      * intros _. split; [repr|split].
        -- intros _. exists (12 * u). split; [repr|units].
        -- intros H. exfalso. vm_compute in H. discriminate H.
    + exists op. split; [exact Hop|]. change (without_basis long_ten) with false in Hv. cbv iota in Hv.
      assert (E1 : owned long_ten + sg_val (size (-4)) = 6 * u) by units.
      assert (E2 : sg_val (price 8) = 8 * u) by units.
      assert (E3 : unrealized (owned long_ten) (h_avg_entry_price long_ten) (8 * u) = 30 * u * u) by units.
      rewrite E1, E2, E3 in Hv. lia.
  - destruct (position_fill_conserves_value 1 long_one (size 2) (price 2))
      as (op & Hop & _ & _ & _ & Hv); [lia|repr|repr| |].
    + intros pa [= <-].
      assert (E1 : owned long_one = u) by units. assert (E2 : sg_val (size 2) = 2 * u) by units. rewrite E1, E2.
      split.
      * intros _. exists u, (4 * u). split; [split; [repr|units]|split; [split; [repr|units]|split; [repr|]]].
        replace (u + 4 * u) with (5 * u) by lia. replace (u + 2 * u) with (3 * u) by lia. exact five_by_three.
      * intros H. exfalso. revert H. vm_compute. intros H. apply H. reflexivity.
    + exists op. split; [exact Hop|]. change (without_basis long_one) with false in Hv. cbv iota in Hv.
      assert (E1 : owned long_one + sg_val (size 2) = 3 * u) by units.
      assert (E2 : sg_val (price 2) = 2 * u) by units.
      assert (E3 : unrealized (owned long_one) (h_avg_entry_price long_one) (2 * u) = u * u) by units.
      assert (E4 : 1 * Z.abs (3 * u) = 3 * u) by units.
      rewrite E1, E2, E3, E4 in Hv. exact Hv.
  - destruct (position_fill_conserves_value 0 unknown_ten (size (-4)) (price 8))
      as (op & Hop & _ & _ & _ & Hv); [lia|repr|repr|discriminate|].
    exists op. split; [exact Hop|]. assert (E : without_basis unknown_ten = true) by (vm_compute; reflexivity).
    rewrite E in Hv. destruct Hv as (H1 & _ & H2). split; [exact H1|]. apply H2. vm_compute. discriminate.
Defined.

Definition demo_asset : Asset := mkAsset (ustr_of "USD").

(** Creating a slot and listing it. *)
Lemma holdings_index_reconciled_witness :
  index_exact (index_created_slot
    (set_inner store_new (<[(demo_account, demo_asset) := long_ten]> (hs_inner store_new)))
    (demo_account, demo_asset)).
Proof.
  eapply holdings_index_reconciled; [|reflexivity].
  eapply sr_next; [eapply sr_next; [apply sr_init|]|].
  - apply (ss_create store_new [] (demo_account, demo_asset) long_ten). reflexivity.
  - apply (ss_created _ [] []).
Defined.

(** *** Blocks and accounts *)

Definition demo_block : AccountBlock := account_block_new "demo" RC_RiskLimitExceeded "limit" "".
Definition one_blocked : BlockedAccounts := (block_account blocked_accounts_new demo_account demo_block).2.

Lemma one_blocked_reachable : ba_reachable one_blocked.
Proof. eapply ba_next; [apply ba_init|]. apply step_block_account. Qed.

Lemma ba_reachable_inv_witness : ba_any_flag one_blocked = true /\ ba_inv one_blocked.
Proof. split; [reflexivity|]. apply ba_reachable_inv, one_blocked_reachable. Defined.

Lemma check_spec_witness :
  check (PR:=unit) one_blocked ∅ (Some demo_account) RS_Order =
  Some (rejects_new [reject_from_block demo_block]).
Proof.
  destruct (check_spec (PR:=unit) one_blocked ∅ RS_Order one_blocked_reachable) as [Hc _].
  rewrite Hc. reflexivity.
Defined.

(** The account stays blocked while the block of another comes and goes: the check
    reads the flag in the middle of the unblocking, when the other's entry is gone and
    its flag not yet looked at. *)
Definition other_account : AccountId := mkAccountId 8.
Definition just_blocked : BlockedSystem := mkBlockedSystem one_blocked None.
Definition both_blocked : BlockedAccounts := (block_account one_blocked other_account demo_block).2.
Definition half_unblocked : BlockedSystem :=
  mkBlockedSystem (run_write both_blocked (W_RemoveAccount other_account))
    (Some (M_UnblockAccount other_account, [W_DisarmAny true])).

Lemma half_unblocked_reached : rtc (keeping (T_Account demo_account)) just_blocked half_unblocked.
Proof.
  assert (Hk : forall x m ws s, bs_step x (mkBlockedSystem s (Some (m, ws))) -> ~ lifts m (T_Account demo_account) ->
            keeping (T_Account demo_account) x (mkBlockedSystem s (Some (m, ws)))).
  { intros x m ws s H Hl. split; [exact H|]. intros m' ws' E. injection E as <- <-. by right. }
  eapply rtc_l; [apply Hk; [apply (bs_lock _ (M_BlockAccount other_account demo_block))|intros []]|].
  eapply rtc_l; [apply Hk; [apply bs_write|intros []]|]. eapply rtc_l; [apply Hk; [apply bs_write|intros []]|].
  eapply rtc_l; [split; [apply bs_unlock|discriminate]|].
  eapply rtc_l; [apply Hk; [apply (bs_lock _ (M_UnblockAccount other_account))|discriminate]|].
  eapply rtc_l; [apply Hk; [apply bs_write|discriminate]|]. apply rtc_refl.
Qed.

Lemma check_never_misses_witness :
  exists r, check_observed (PR:=unit)
    (mkObserved one_blocked (bs_set half_unblocked) one_blocked (bs_set half_unblocked) ∅ one_blocked one_blocked)
    (Some demo_account) RS_Order = Some r.
Proof.
  apply (check_never_misses _ (T_Account demo_account) just_blocked demo_account (Some demo_account) RS_Order).
  - eapply (br_intro _ blocked_accounts_new (M_BlockAccount demo_account demo_block)); reflexivity.
  - pose proof half_unblocked_reached as H.
    assert (Hx : exists y, rtc (keeping (T_Account demo_account)) just_blocked y /\ bs_set y = one_blocked)
      by (exists just_blocked; split; [apply rtc_refl|reflexivity]).
    assert (Hy : exists y, rtc (keeping (T_Account demo_account)) just_blocked y /\ bs_set y = bs_set half_unblocked)
      by (exists half_unblocked; split; [exact H|reflexivity]).
    rewrite !Forall_cons. split; [exact Hx|split; [exact Hy|split; [exact Hx|split; [exact Hy|split; [exact Hx|split; [exact Hx|]]]]]].
    apply Forall_nil. exact I.
  - reflexivity.
  - left. reflexivity.
Defined.

Lemma lease_mutual_exclusion_witness :
  count HoldingExclusive [HoldingExclusive; Idle] <= 1 /\ count HoldingShared [HoldingExclusive; Idle] = 0.
Proof.
  destruct (lease_mutual_exclusion 2 (mkAccess 0 0 true) [HoldingExclusive; Idle])
    as (H1 & H2 & _).
  - vm_compute. discriminate.
  - eapply coord_next; [eapply coord_next; [apply coord_init|]|].
    + apply (coord_begin_exclusive _ _ 0). reflexivity.
    + exact (coord_acquire_exclusive (register_waiting_writer access_default) _
               [AcquiringExclusive; Idle] 0 eq_refl eq_refl).
  - split; [exact H1|]. apply H2. reflexivity.
Defined.

(** *** Values and locks *)

(** Nothing was deserialized, and a rounded quantity turned into a volume is not
    negative. *)
Lemma nn_reachable_wf_witness :
  match nn_from_decimal_rounded (D:=RefDecimal) (k:=PK_Quantity) (rd 15 1) 0 DEFAULT_ROUNDING with
  | Ok q =>
      match price_calculate_volume (D:=RefDecimal) (sg_new (D:=RefDecimal) (rd (-3) 0)) q with
      | Ok v => 0 <= nn_val v
      | Err _ => False
      end
  | Err _ => False
  end.
Proof.
  assert (Hok : match nn_from_decimal_rounded (D:=RefDecimal) (k:=PK_Quantity) (rd 15 1) 0 DEFAULT_ROUNDING with
                | Ok q => is_ok (price_calculate_volume (D:=RefDecimal) (sg_new (D:=RefDecimal) (rd (-3) 0)) q)
                | Err _ => false
                end = true) by (vm_compute; reflexivity).
  destruct (nn_from_decimal_rounded (D:=RefDecimal) (k:=PK_Quantity) (rd 15 1) 0 DEFAULT_ROUNDING) as [q|e] eqn:E; [|discriminate Hok].
  destruct (price_calculate_volume (D:=RefDecimal) (sg_new (D:=RefDecimal) (rd (-3) 0)) q) as [v|e] eqn:Ev; [|discriminate Hok].
  apply (proj2 (nn_reachable_wf (D:=RefDecimal) (fun _ _ => False)) (fun _ _ H => False_ind _ H) PK_Volume v).
  exact (nnr_price_volume (D:=RefDecimal) _ _ _ _ (nnr_from_decimal_rounded (D:=RefDecimal) _ _ _ _ _ _ E) Ev).
Defined.

Lemma sg_from_str_rounded_conservative_witness :
  exists v : Pnl, sg_from_str_rounded (ustr_of "123.456") 2 CONSERVATIVE_PROFIT = Ok v /\
    sg_val v <= 123456 * 10 ^ 25.
Proof.
  destruct (sg_from_str_rounded (k:=PK_Pnl) (ustr_of "123.456") 2 CONSERVATIVE_PROFIT) as [v|e] eqn:E.
  - exists v. split; [reflexivity|].
    destruct (dec_parse (ustr_of "123.456")) as [d|] eqn:Ed.
    + destruct (sg_from_str_rounded_conservative _ 2 v _ Ed) as [H _]. specialize (H E).
      assert (Hd : option_map dec_val (dec_parse (ustr_of "123.456")) = Some (123456 * 10 ^ 25))
        by (vm_compute; reflexivity). rewrite Ed in Hd. injection Hd as Hd.
      exact (Z.le_trans _ _ _ H (Z.eq_le_incl _ _ Hd)).
    + exfalso. assert (H : is_ok (ok_or (dec_parse (ustr_of "123.456")) tt) = true)
        by (vm_compute; reflexivity).
      rewrite Ed in H. discriminate H.
  - exfalso. assert (H : is_ok (sg_from_str_rounded (k:=PK_Pnl) (ustr_of "123.456") 2 CONSERVATIVE_PROFIT) = true)
      by (vm_compute; reflexivity). rewrite E in H. discriminate H.
Defined.

(** 2000 at a leverage of 2.5 needs a margin of 800. *)
Lemma margin_required_spec_witness :
  exists m, leverage_calculate_margin_required (mkLeverage 25) (mkNonNeg (D:=RefDecimal) (rd 2000 0)) = Ok m /\
    nn_val m = 800 * u.
Proof.
  destruct (margin_required_spec (mkLeverage 25) (mkNonNeg (D:=RefDecimal) (rd 2000 0))) as (_ & _ & H).
  - vm_compute. split; discriminate.
  - vm_compute. discriminate.
  - destruct (H (800 * u)) as (m & Hm & Hv); [repr|repr|units|]. exists m. split; [exact Hm|exact Hv].
Defined.

Definition group (v : Z) : PolicyGroupId := mkPolicyGroupId v.
Definition demo_entries : list (PolicyGroupId * Price) :=
  [(group 3, price 1); (DEFAULT_POLICY_GROUP_ID, price 2); (group 3, price 4)].

Lemma demo_entries_ok : Forall (fun e => gid_ok e.1) demo_entries.
Proof. repeat apply Forall_cons_2; [..|by apply Forall_nil]; vm_compute; split; discriminate. Qed.

Lemma lock_from_entries_spec_witness :
  prices_of (lock_from_entries demo_entries) (group 3) = [price 1; price 4].
Proof. destruct (lock_from_entries_spec demo_entries demo_entries_ok) as [_ H]. rewrite H. reflexivity. Defined.

Definition demo_lock : PreTradeLock := mkLock [price 2] [mkGroupSection (group 3) [price 1; price 4]].

Lemma lock_serde_roundtrip_witness : lock_deserialize (lock_serialize demo_lock) = Ok demo_lock.
Proof.
  apply lock_serde_roundtrip. split; cbn.
  - apply Forall_singleton. split; [discriminate|split; [discriminate|vm_compute; split; discriminate]].
  - apply NoDup_singleton.
Defined.

#[export] Instance DemoOrder_trade_amount : HasTradeAmount DemoOrder :=
  fun order => Ok (TA_Quantity (mkNonNeg (D:=RefDecimal) (rd (demo_amount order) 0))).

Lemma order_validation_check_spec_witness :
  (check_pre_trade_start (W:=Z) (ExecutionReport:=unit) (AccountAdjustment:=unit)
     (order_validation_policy order_validation_new)
     (with_accounts_ctx (W:=Z) (Ok demo_account)).1 (demo_order 0)
     ((with_accounts_ctx (Ok demo_account)).2, demo_state)).1 <> Ok tt.
Proof.
  pose proof (order_validation_check_spec (W:=Z) (ExecutionReport:=unit) (AccountAdjustment:=unit)
    order_validation_new (with_accounts_ctx (W:=Z) (Ok demo_account)).1 (demo_order 0)
    ((with_accounts_ctx (Ok demo_account)).2, demo_state)) as H.
  destruct (check_pre_trade_start _ _ _ _) as [r s']. destruct H as (_ & H & _). cbn. intros Hr.
  apply H in Hr. destruct Hr as [Hr|Hr]; [discriminate Hr|]. apply Hr. vm_compute. reflexivity.
Defined.

(** *** Order size limit

    The account's cap of 10 replaces the asset's cap of 1. *)
Definition stock : Asset := mkAsset (ustr_of "AAPL").
Definition quantity_cap (n : Z) : OrderSizeLimit :=
  mkOrderSizeLimit (D:=RefDecimal) (Some (mkNonNeg (D:=RefDecimal) (rd n 0))) None.
Definition size_settings : OrderSizeLimitSettings :=
  mkSizeSettings (<[(demo_account, stock) := quantity_cap 10]> ∅) (<[stock := quantity_cap 1]> ∅) None.

#[export] Instance DemoOrder_instrument : HasInstrument DemoOrder := fun _ => Ok (mkInstrument stock demo_asset).
#[export] Instance DemoOrder_price : HasOrderPrice DemoOrder := fun _ => Ok None.
#[export] Instance demo_format : DecimalFormat := fun d => pretty (rd_units d).
#[export] Instance settings_world : Owns (OrderSizeLimitSettings (D:=RefDecimal)) OrderSizeLimitSettings.
Proof. refine {| own_get := id; own_set x _ := x |}; reflexivity. Defined.

Definition size_state : EngineState (OrderSizeLimitSettings (D:=RefDecimal)) :=
  mkEngineState size_settings accounts_state_new 1 None.

Lemma order_size_check_spec_witness :
  (check_pre_trade_start (ExecutionReport:=unit) (AccountAdjustment:=unit)
     (order_size_limit_policy (mkOrderSizeLimitPolicy DEFAULT_POLICY_GROUP_ID))
     (mkPreTradeContext (Ok demo_account) false) (demo_order 5)
     ((with_accounts_ctx (Ok demo_account)).2, size_state)).1 = Ok tt.
Proof.
  pose proof (order_size_check_spec (ExecutionReport:=unit) (AccountAdjustment:=unit)
    (mkOrderSizeLimitPolicy DEFAULT_POLICY_GROUP_ID)
    (mkPreTradeContext (Ok demo_account) false) (demo_order 5)
    ((with_accounts_ctx (Ok demo_account)).2, size_state)) as H.
  destruct (check_pre_trade_start _ _ _ _) as [r s']. destruct H as (_ & H & _). cbn [fst].
  apply H. right. split; [reflexivity|split].
  - intros cap [Hc|Hc]; [apply selected_axis_spec in Hc|by destruct Hc as (? & [=] & _)].
    assert (E : selected_axis size_settings (mkPreTradeContext (Ok demo_account) false) (demo_order 5)
      underlying_asset max_quantity = Some (mkSelected _ (mkNonNeg (D:=RefDecimal) (rd 10 0)))) by reflexivity.
    pose proof (eq_trans (eq_sym E) Hc) as [= <-]. eexists. split; [reflexivity|vm_compute; discriminate].
  - intros cap [Hc|Hc]; [apply selected_axis_spec in Hc|by destruct Hc as (? & [=] & _)].
    exfalso. assert (E : selected_axis size_settings (mkPreTradeContext (Ok demo_account) false) (demo_order 5)
      settlement_asset max_notional = None) by reflexivity.
    discriminate (eq_trans (eq_sym E) Hc).
Defined.

(** *** P&L kill switch

    The broker stops at a loss of 100 in [demo_asset]. *)
Record DemoReport : Set := mkDemoReport { dr_pnl : Z; dr_fee : Z }.

#[export] Instance DemoReport_instrument : HasInstrument DemoReport := fun _ => Ok (mkInstrument stock demo_asset).
#[export] Instance DemoReport_account : HasAccountId DemoReport := fun _ _ => Ok demo_account.
#[export] Instance DemoReport_pnl : HasPnl (D:=RefDecimal) DemoReport := fun r => Ok (sg_new (rd (dr_pnl r) 0)).
#[export] Instance DemoReport_fee : HasFee (D:=RefDecimal) DemoReport := fun r => Ok (sg_new (rd (dr_fee r) 0)).

Definition demo_key : AccountId * Asset := (demo_account, demo_asset).
Definition demo_barrier : PnlBoundsBrokerBarrier :=
  mkPnlBroker (D:=RefDecimal) demo_asset (Some (sg_new (rd (-100) 0))) None.
Definition kill_switch : KillSwitchState :=
  mkKillSwitch (mkPnlSettings ∅ (<[demo_asset := demo_barrier]> ∅) ∅ DEFAULT_POLICY_GROUP_ID) ∅.

(** 5 less a fee of 1, then a loss of 6 while no barrier is in force. *)
Definition demo_history : list (KillSwitchOp (ExecutionReport:=DemoReport)) :=
  [OpReport (mkDemoReport 5 1); OpConfigure (mkPnlSettings ∅ ∅ ∅ DEFAULT_POLICY_GROUP_ID);
   OpReport (mkDemoReport (-6) 0)].

Lemma ledger_conserved_witness :
  sg_val (ledger_pnl (foldl (run_op 0) kill_switch demo_history) demo_key) = -2 * u.
Proof.
  rewrite (ledger_conserved 0 kill_switch demo_history demo_key); [units|]. split.
  - apply Forall_cons. split; [|apply Forall_cons; split; [exact I|apply Forall_singleton]].
    + intros d Hd. assert (E : snd <$> reported 0 (mkDemoReport 5 1) = Some (4 * u)) by (vm_compute; reflexivity).
      rewrite Hd in E. apply (inj Some) in E. cbn [snd] in E. rewrite E. repr.
    + intros d Hd. assert (E : snd <$> reported 0 (mkDemoReport (-6) 0) = Some (-6 * u)) by (vm_compute; reflexivity).
      rewrite Hd in E. apply (inj Some) in E. cbn [snd] in E. rewrite E. repr.
  - intros n. destruct n as [|[|[|[|n]]]]; repr.
Defined.

(** A loss of 200 blocks, and the next order is rejected. *)
Lemma report_and_check_agree_witness :
  pnl_check_observed (apply_report_state 0 (mkDemoReport (-200) 0) kill_switch).2
    (apply_report_state 0 (mkDemoReport (-200) 0) kill_switch).2
    (mkPreTradeContext (Ok demo_account) false) (demo_order 1) <> Ok tt.
Proof.
  pose proof (report_and_check_agree (Order:=DemoOrder) 0 (mkDemoReport (-200) 0) kill_switch demo_account demo_asset
    (sg_new (rd (-200) 0)) (mkPreTradeContext (Ok demo_account) false) (demo_order 1)) as H.
  destruct (apply_report_state 0 (mkDemoReport (-200) 0) kill_switch) as [r s'] eqn:E. cbn [snd].
  intros Hc. apply H in Hc; [|reflexivity|repr|reflexivity|reflexivity].
  assert (Hr : is_some (apply_report_state 0 (mkDemoReport (-200) 0) kill_switch).1 = true) by reflexivity.
  rewrite E in Hr. cbn in Hr. rewrite Hc in Hr. discriminate Hr.
Defined.

Lemma apply_report_spec_witness :
  sg_val (ledger_pnl (apply_report_state 0 (mkDemoReport 5 1) kill_switch).2 demo_key) = 4 * u.
Proof.
  pose proof (apply_report_spec 0 (mkDemoReport 5 1) kill_switch) as H.
  destruct (apply_report_state 0 (mkDemoReport 5 1) kill_switch) as [r s']. destruct H as (_ & H). cbn [snd].
  assert (E : report_increment 0 (mkDemoReport 5 1) = Ok (demo_account, demo_asset, sg_new (rd 4 0)))
    by reflexivity.
  rewrite E in H. destruct H as (_ & H & _). destruct H as (Hv & _); [repr|].
  unfold demo_key. rewrite Hv. units.
Defined.

(** *** Rate limit *)

Definition demo_limit (n : Z) : RateLimit := mkRateLimit n 10.
Definition demo_settings : RateLimitSettings :=
  mkSettings ∅ (<[demo_account := demo_limit 2]> ∅) ∅ (Some (mkSlot 0%nat (demo_limit 1))).
Definition demo_heap : CounterHeap := mkHeap (<[0%nat := counter_new 0]> ∅) 1.
Definition demo_rate_state : RateLimitState := mkRateLimitState demo_settings demo_heap ∅ ∅.

Lemma demo_settings_wf : settings_wf demo_settings demo_heap.
Proof.
  split; cbn.
  - intros r [c Hr]. cbn in *. apply lookup_insert_Some in Hr as [[<- _]|[_ Hr]]; [lia|].
    by rewrite lookup_empty in Hr.
  - intros a slot. by rewrite lookup_empty.
  - intros slot [= <-]. by exists (counter_new 0).
  - intros a1 a2 s1 s2. by rewrite lookup_empty.
  - intros a sb sa _. by rewrite lookup_empty.
Qed.

Lemma rate_limit_dry_run_agrees_witness :
  (check_start_state 0 (Err (mkFieldAccessError "instrument")) (Ok demo_account) 3 false demo_rate_state).2 =
  demo_rate_state.
Proof.
  apply (rate_limit_dry_run_agrees 0 (Err (mkFieldAccessError "instrument")) (Ok demo_account) 3 demo_rate_state).
  exact demo_settings_wf.
Defined.

(** Both the broker and the account axis count the order. *)
Lemma rate_limit_flood_protection_witness :
  rls_per_account_timestamps
    (check_start_state 0 (Err (mkFieldAccessError "instrument")) (Ok demo_account) 3 true demo_rate_state).2
  !! demo_account = Some [3].
Proof.
  pose proof (rate_limit_flood_protection 0 (Err (mkFieldAccessError "instrument")) (Ok demo_account) 3
    demo_rate_state None (Some demo_account) demo_settings_wf eq_refl eq_refl) as H. cbv zeta in H.
  destruct (check_start_state _ _ _ _ _ _) as [r rs']. destruct H as (_ & _ & _ & _ & _ & Ht & _).
  cbn [snd]. rewrite Ht. vm_compute. reflexivity.
Defined.

(** A retuned broker keeps its counter. *)
Lemma rate_limit_setters_keep_counters_witness :
  exists s' h' slot, set_broker demo_settings (Some (mkBrokerBarrier (demo_limit 5))) demo_heap = Ok (s', h') /\
    broker s' = Some slot /\ slot_counter slot = 0%nat.
Proof.
  destruct (rate_limit_setters_keep_counters demo_settings demo_heap
    (Some (mkBrokerBarrier (demo_limit 5))) [] demo_settings_wf) as [_ H].
  exists (mkSettings ∅ (<[demo_account := demo_limit 2]> ∅) ∅ (Some (mkSlot 0%nat (demo_limit 5)))), demo_heap,
    (mkSlot 0%nat (demo_limit 5)).
  split; [reflexivity|split; [reflexivity|]]. cbn in H. destruct H as (_ & _ & _ & _ & _ & _ & H).
  exact (H _ eq_refl).
Defined.

Lemma sliding_log_exact_witness :
  window_count (log_after 10 [1; 5; 3]) 12 10 = 3.
Proof.
  destruct (sliding_log_exact 10 [1; 5; 3]) as (_ & _ & _ & H); [lia|]. rewrite H; [reflexivity|].
  repeat apply Forall_cons_2; [lia..|by apply Forall_nil].
Defined.

Lemma sliding_window_limit_witness :
  Z.of_nat (length (filter (fun e => 9 - 10 < e /\ e <= 9) (admitted 10 2 [1; 3; 5; 9]))) <= 2.
Proof.
  apply sliding_window_limit; [lia|lia|].
  repeat (apply SSorted_cons; [|repeat apply Forall_cons_2; [..|by apply Forall_nil]; lia]). apply SSorted_nil.
Defined.

Lemma fixed_window_counter_bounded_witness :
  exists s, push_reachable 10 20 s /\ ps_answers s = [(5, 1)] /\
    Z.of_nat (length (admitted_pushes 2 (ps_answers s))) <= 2 * (20 / 10 + 1).
Proof.
  exists (mkPushState (mkCounter 1 0) [] [(5, 1)] 0).
  assert (Hr : push_reachable 10 20 (mkPushState (mkCounter 1 0) [] [(5, 1)] 0)).
  { eapply pr_step; [eapply pr_step; [apply pr_init|]|].
    - apply (push_load 10 20 _ _ _ _ 5). lia.
    - exact (push_add 10 20 (counter_new 0) [] [] [] 0 5). }
  split; [exact Hr|split; [reflexivity|]].
  apply (fixed_window_counter_bounded 10 20 2 _) in Hr as (_ & _ & H);
    [exact H|lia|lia|lia|vm_compute; reflexivity].
Defined.

(** *** The lease drains *)

(** A writer waits while another thread reads. *)
Lemma lease_live_witness :
  exists m z, nsteps settle_step m (mkAccess 1 1 false, [HoldingShared; AcquiringExclusive]) z /\
    Forall (eq Idle) z.2.
Proof.
  destruct (lease_live 2 0 (mkAccess 1 1 false, [HoldingShared; AcquiringExclusive])
    (mkAccess 1 1 false, [HoldingShared; AcquiringExclusive])) as (_ & _ & H).
  - vm_compute. reflexivity.
  - eapply coord_next; [eapply coord_next; [eapply coord_next; [apply coord_init|]|]|].
    + apply (coord_begin_shared _ _ 0 false). reflexivity.
    + exact (coord_acquire_shared access_default _ [AcquiringShared false; Idle] 0 false eq_refl eq_refl).
    + exact (coord_begin_exclusive (mkAccess 1 0 false) [HoldingShared; Idle] 1 eq_refl).
  - constructor.
  - exact H.
Defined.

(** *** The market data properties at concrete inputs *)

Definition usd : Asset := mkAsset (ustr_of "USD").
Definition aapl : Instrument := mkInstrument (mkAsset (ustr_of "AAPL")) usd.
Definition msft : Instrument := mkInstrument (mkAsset (ustr_of "MSFT")) usd.
Definition id_seven : InstrumentId := mkInstrumentId 7.
Definition reader : AccountId := mkAccountId 1.
Definition desk : AccountGroupId := mkAccountGroupId 3.
Definition quote_of (n : Z) : Quote := with_mark (D:=RefDecimal) quote_new (sg_new (rd n 0)).

(** Identifiers 0 and 1 are taken: the loop skips both. *)
Definition two_taken : gmap InstrumentId unit := <[mkInstrumentId 0 := tt]> (<[mkInstrumentId 1 := tt]> ∅).

Lemma next_auto_id_terminates_witness : exists n, next_auto_id two_taken 0 = Some (nth_id 0 n, Z.of_nat n + 1) /\ (n <= 2)%nat.
Proof.
  destruct (next_auto_id_terminates two_taken 0) as (n & id & E & -> & Hle & _).
  - split; [done|by vm_compute].
  - by vm_compute.
  - assert (Hn : (n <= 2)%nat) by exact Hle. exists n. split; [|exact Hn]. rewrite E. do 2 f_equal.
    unfold u64_succ, nth_id. cbn [instrument_as_u64]. rewrite Zplus_mod_idemp_l, Z.mod_small; lia.
Defined.

Lemma book_register_spec_witness : exists r b', book_register book_new aapl = Some (r, b') /\ book_resolve b' aapl <> None.
Proof.
  destruct (book_register_spec book_new aapl) as (r & b' & E & H).
  - apply book_new_wf.
  - by vm_compute.
  - exists r, b'. split; [exact E|]. assert (En : book_resolve book_new aapl = None) by reflexivity.
    rewrite En in H. destruct H as (id & _ & _ & Hb & _). by rewrite Hb.
Defined.

(** AAPL as instrument 7, with a lifetime of 10, in a service whose default is
    infinite. *)
Definition demo_service : MarketDataService :=
  (register_with_id_and_ttl (D:=RefDecimal) (build QuoteInfinite) aapl id_seven (QuoteWithin 10)).2.

Lemma demo_service_wf : service_wf (mkShared demo_service 0).
Proof.
  apply shared_reachable_wf. exists QuoteInfinite. eapply rtc_once.
  apply (ss_register_with_id (build QuoteInfinite) 0 aapl id_seven (Some (TtlFinite 10))); [done|].
  split; by vm_compute.
Qed.

Lemma shared_reachable_wf_witness : service_wf (mkShared demo_service 0).
Proof.
  apply shared_reachable_wf. exists QuoteInfinite. eapply rtc_once.
  apply (ss_register_with_id (build QuoteInfinite) 0 aapl id_seven (Some (TtlFinite 10))); [done|].
  split; by vm_compute.
Defined.

Lemma writes_refine_table_witness :
  push demo_service (mkInstrumentId 8) 0 (quote_of 5) 0 = (Err (mkUnknownInstrumentId (mkInstrumentId 8)), demo_service).
Proof.
  destruct (writes_refine_table demo_service (mkInstrumentId 8) 0 (quote_of 5) 0 [] [] (fun t => t)) as (_ & H & _).
  - apply demo_service_wf.
  - unfold refines_write in H.
    assert (E : forall f, t_write (table demo_service) (mkInstrumentId 8) f = None) by (intros f; reflexivity).
    rewrite E in H. exact H.
Defined.

Lemma registration_refines_table_witness : exists s',
  register_with_id_inner demo_service msft (mkInstrumentId 8) None = (Ok (mkInstrumentId 8), s') /\
  table s' = t_bind (table demo_service) msft (mkInstrumentId 8) None.
Proof.
  destruct (registration_refines_table demo_service msft (mkInstrumentId 8) None) as [_ H].
  - apply demo_service_wf.
  - by vm_compute.
  - assert (E1 : t_names (table demo_service) !! msft = None) by reflexivity.
    assert (E2 : t_states (table demo_service) !! mkInstrumentId 8 = None) by reflexivity.
    rewrite E1, E2 in H. exact H.
Defined.

Lemma push_by_instrument_total_witness : exists s', push_by_instrument demo_service aapl 0 (quote_of 5) 0 = Some (id_seven, s').
Proof.
  destruct (push_by_instrument_total demo_service aapl 0 (quote_of 5) 0) as (id & s' & E & _ & _ & Hr & _).
  - apply demo_service_wf.
  - by vm_compute.
  - exists s'. rewrite E. do 2 f_equal.
    assert (En : resolve demo_service aapl = Some id_seven) by reflexivity.
    unfold push_by_instrument, resolve_or_register_named in E. unfold resolve in En. rewrite En in E.
    assert (Ek : by_id (registry demo_service) !! id_seven = Some 0) by reflexivity.
    rewrite Ek in E. cbn [mbind option_bind] in E. by injection E as <- _.
Defined.

(** Published to account 1 at 100, already 4 old. *)
Definition published : MarketDataService :=
  (push_for demo_service id_seven 100 (quote_of 5) 4 [reader] []).2.

Lemma published_wf : service_wf (mkShared published 0).
Proof.
  eapply shared_step_wf; [apply demo_service_wf|].
  exact (ss_slot demo_service 0 0 (store_targets 100 (quote_of 5) 4 [reader] [])).
Qed.

(** Live at 105, expired from 106 on. *)
Lemma get_spec_witness :
  get published 106 id_seven reader (account_info_of_option None) AccountOnly = Err (QuoteExpired (quote_of 5)).
Proof.
  destruct (get_spec published 106 id_seven reader (account_info_of_option None) AccountOnly) as [E _].
  - apply published_wf.
  - rewrite E. unfold t_get.
    assert (Es : t_states (table published) !! id_seven =
      Some (mkSlotState (mkSlotQuotes {[reader := mkQuoteState (quote_of 5) 100 4]} ∅)
              (slot_ttls_new (Some (TtlFinite 10))))) by reflexivity.
    rewrite Es. cbn [slot_quotes slot_ttls].
    assert (Ef : first_set (candidates (mkSlotQuotes {[reader := mkQuoteState (quote_of 5) 100 4]} ∅) reader
      (account_info_of_option None 0%nat) AccountOnly) = Some (mkQuoteState (quote_of 5) 100 4)) by reflexivity.
    rewrite Ef.
    assert (Et : t_ttl (table published) (slot_ttls_new (Some (TtlFinite 10))) reader (account_info_of_option None 0%nat)
      = Some 10) by reflexivity.
    rewrite Et, expired_exact by (vm_compute; congruence). cbn [qs_pushed_at qs_source_age qs_quote].
    reflexivity.
Defined.

Lemma publish_read_roundtrip_witness :
  t_get (table published) 105 id_seven reader None AccountOnly = Ok (quote_of 5).
Proof.
  destruct (publish_read_roundtrip demo_service published id_seven 100 (quote_of 5) 4 [reader] [] 105 reader None
    AccountOnly) as (H & _).
  - apply demo_service_wf.
  - reflexivity.
  - rewrite H by set_solver. reflexivity.
Defined.

(** AAPL is found, MSFT registered by another thread, and the publication still
    lands where it should. *)
Lemma phased_operations_atomic_witness :
  let s' := (register_with_id_inner demo_service msft (mkInstrumentId 8) None).2 in
  store_default_by_id_observed (registry demo_service) s' id_seven 0 (quote_of 5) 0 =
  push s' id_seven 0 (quote_of 5) 0.
Proof.
  cbn zeta. pose proof (phased_operations_atomic (mkShared demo_service 0)
    (mkShared (register_with_id_inner demo_service msft (mkInstrumentId 8) None).2 0) id_seven demo_service_wf) as H.
  cbn zeta in H. assert (Ek : by_id (registry (shared (mkShared demo_service 0))) !! id_seven = Some 0) by reflexivity.
  rewrite Ek in H. apply H. apply rtc_once.
  apply (ss_register_with_id demo_service 0 msft (mkInstrumentId 8) None); [by vm_compute|].
  split; by vm_compute.
Defined.

(** *** Two threads on one storage

    A scheduler that runs the machine of [Locking] for a given choice of threads,
    sound for its step relation, and a reader and a writer of one key interleaved
    by it. *)

Section Scheduler.
Context `{Countable Key} {Value Output : Type}.
Abbreviation Prog := (Prog Key Value Output).
Abbreviation St := (State Key Value Output).

Definition grantable (strategy : Strategy) (ts : list (option (Thread Key Value Output))) (i : nat) (d : Domain)
    (mode : LockMode) : bool :=
  negb (locks strategy d) ||
  forallb (fun j => Nat.eqb j i || match ts !! j with
                                   | Some (Some th) => bool_decide (compatible (Some mode) (held th d))
                                   | _ => true end) (seq 0 (length ts)).

(** The next step of thread [i], when it has one. *)
Definition turn (strategy : Strategy) (i : nat) (s : St) : option (list (Event Key Value Output) * St) :=
  let '(m, ts) := s in
  match ts !! i with
  | Some (Some th) =>
      let go m p := Some ([], (m, <[i := Some (with_prog th p)]> ts)) in
      match th_prog th with
      | Done o => Some ([Finish i o], (m, <[i := None]> ts))
      | Acquire d mode p =>
          if grantable strategy ts i d mode then Some ([], (m, <[i := Some (set_held th d (Some mode) p)]> ts)) else None
      | Release d p => Some ([], (m, <[i := Some (set_held th d None p)]> ts))
      | Inspect c => go m (c (dom m))
      | InsertEntry k v p => go (<[k := v]> m) p
      | RemoveEntry k p => go (delete k m) p
      | ReadValue k c => match m !! k with Some v => go m (c v) | None => None end
      | WriteValue k v p => match m !! k with Some _ => go (<[k := v]> m) p | None => None end
      end
  | _ => None
  end.

Lemma grantable_granted strategy ts i d mode : grantable strategy ts i d mode = true -> granted strategy ts i d mode.
Proof.
  unfold grantable. intros Hg Hl j th Hj Hth. rewrite Hl in Hg. cbn in Hg. rewrite forallb_forall in Hg.
  specialize (Hg j). rewrite Hth in Hg. apply orb_true_iff in Hg as [Hg|Hg].
  - by apply Nat.eqb_eq in Hg.
  - by apply bool_decide_eq_true in Hg.
  - apply in_seq. apply lookup_lt_Some in Hth. lia.
Qed.

Lemma turn_step strategy table i s ev s' : turn strategy i s = Some (ev, s') ->
  exists e, ev = match e with Some e => [e] | None => [] end /\ step strategy table s e s'.
Proof.
  destruct s as [m ts]. unfold turn. destruct (ts !! i) as [[th|]|] eqn:Ei; [|done..].
  destruct (th_prog th) as [o|d mode p|d p|c|k v p|k p|k c|k v p] eqn:Ep; intros Ht.
  - injection Ht as <- <-. exists (Some (Finish i o)). split; [done|]. by eapply st_finish.
  - destruct (grantable strategy ts i d mode) eqn:Eg; [|done]. injection Ht as <- <-. exists None. split; [done|].
    eapply st_acquire; [done|done|]. by apply grantable_granted.
  - injection Ht as <- <-. exists None. split; [done|]. by eapply st_release.
  - injection Ht as <- <-. exists None. split; [done|]. eapply st_access; [done|]. rewrite Ep. constructor.
  - injection Ht as <- <-. exists None. split; [done|]. eapply st_access; [done|]. rewrite Ep. constructor.
  - injection Ht as <- <-. exists None. split; [done|]. eapply st_access; [done|]. rewrite Ep. constructor.
  - destruct (m !! k) as [v|] eqn:Ek; [|done]. injection Ht as <- <-. exists None. split; [done|].
    eapply st_access; [done|]. rewrite Ep. by constructor.
  - destruct (m !! k) as [v'|] eqn:Ek; [|done]. injection Ht as <- <-. exists None. split; [done|].
    eapply st_access; [done|]. rewrite Ep. by constructor.
Qed.

Fixpoint play (strategy : Strategy) (turns : list nat) (s : St) : option (list (Event Key Value Output) * St) :=
  match turns with
  | [] => Some ([], s)
  | i :: turns =>
      '(ev, s) ← turn strategy i s;
      '(ev', s) ← play strategy turns s;
      Some (ev ++ ev', s)
  end.

Lemma play_steps strategy table s0 ev0 s turns ev s' : steps (step strategy table) s0 ev0 s ->
  play strategy turns s = Some (ev, s') -> steps (step strategy table) s0 (ev0 ++ ev) s'.
Proof.
  revert ev0 s ev. induction turns as [|i turns IH]; intros ev0 s ev Hs Hp; cbn in Hp.
  - injection Hp as <- <-. by rewrite app_nil_r.
  - destruct (turn strategy i s) as [[ev1 s1]|] eqn:Et; [|done]. cbn in Hp.
    destruct (play strategy turns s1) as [[ev2 s2]|] eqn:Er; [|done]. cbn in Hp. injection Hp as <- <-.
    destruct (turn_step strategy table i s ev1 s1 Et) as (e & -> & Hst). rewrite app_assoc. eapply IH; [|done].
    by eapply steps_snoc.
Qed.
End Scheduler.

Definition reading : Accessor Z Z Z := AccWith 5 (fun v => v) (-1).
Definition writing : Accessor Z Z Z := AccWithMut 5 100 (fun v fresh => (v, v + 1)).
Definition demo_read : Prog Z Z Z := accessor_prog reading.
Definition demo_write : Prog Z Z Z := accessor_prog writing.

Definition demo_begun : State Z Z Z :=
  (∅, [Some (mkThread (Some 5) demo_read None None); Some (mkThread (Some 5) demo_write None None)]).

Lemma demo_begins : steps (step FullLocking Sharded) (initial (Output:=Z) (∅ : gmap Z Z) 2)
  [Begin 0 (Some 5) demo_read; Begin 1 (Some 5) demo_write] demo_begun.
Proof.
  eapply (steps_snoc _ _ [_] (∅, [Some (mkThread (Some 5) demo_read None None); None]) (Some _)).
  - eapply (steps_snoc _ _ [] _ (Some _)); [apply steps_nil|]. by apply (st_begin _ _ ∅ [None; None] 0 reading).
  - by apply (st_begin _ _ ∅ [Some (mkThread (Some 5) demo_read None None); None] 1 writing).
Qed.

(** The writer looks first, the reader runs through, the writer comes back. *)
Definition demo_turns : list nat := [1; 1; 0; 1; 0; 0; 0; 1; 1; 1; 1; 1; 1; 1; 1; 1]%nat.

Lemma demo_played : exists ev s, play FullLocking demo_turns demo_begun = Some (ev, s) /\
  ev = [Finish 0 (-1); Finish 1 100] /\ s = ({[5 := 101]}, [None; None]).
Proof. do 2 eexists. split; [vm_compute; reflexivity|]. by split. Qed.

(** The finished run, for the properties' hypotheses. *)
Lemma demo_run : exists ev (s : State Z Z Z), steps (step FullLocking Sharded) (initial (Output:=Z) (∅ : gmap Z Z) 2) ev (s : State Z Z Z) /\
  ev = [Begin 0 (Some 5) demo_read; Begin 1 (Some 5) demo_write; Finish 0 (-1); Finish 1 100] /\
  s = ({[5 := 101]}, [None; None]).
Proof.
  destruct demo_played as (ev & s & Hp & -> & ->). do 2 eexists. split; [|by split].
  exact (play_steps FullLocking Sharded _ _ _ _ _ _ demo_begins Hp).
Qed.

Lemma storage_sections_atomic_witness :
  exists ev (s : State Z Z Z), length ev = 4%nat /\ s.1 !! 5 = Some 101 /\
    exists a, steps astep (ainitial (Output:=Z) (∅ : gmap Z Z) 2) ev a /\ a = (s.1, replicate (length s.2) None).
Proof.
  destruct demo_run as (ev & s & Hr & -> & ->). exists [Begin 0 (Some 5) demo_read; Begin 1 (Some 5) demo_write; Finish 0 (-1); Finish 1 100], ({[5 := 101]}, [None; None]).
  split; [reflexivity|]. split; [reflexivity|].
  destruct (storage_sections_atomic _ _ _ _ _ _ Hr) as [(a & Ha & Hq) _]. exists a. split; [exact Ha|].
  apply Hq. intros [|[|i]]; cbn; [reflexivity|reflexivity|]. intros Hn. destruct Hn. reflexivity.
Defined.

Lemma storage_race_free_witness :
  ~ race demo_read demo_write /\ demo_begun.2 !! 1%nat = Some (Some (mkThread (Some 5) demo_write None None)).
Proof.
  split; [|reflexivity].
  destruct (storage_race_free _ _ _ _ _ _ demo_begins) as [Hr _].
  exact (Hr 0%nat 1%nat _ _ ltac:(discriminate) eq_refl eq_refl).
Defined.

Lemma storage_deadlock_free_witness :
  exists i th e m' new, demo_begun.2 !! i = Some (Some th) /\ step FullLocking Sharded demo_begun e (m', <[i := new]> demo_begun.2).
Proof.
  apply (storage_deadlock_free _ _ _ _ _ _ demo_begins). by exists 0%nat, (mkThread (Some 5) demo_read None None).
Defined.
