(* ===== verification/SpotFundsWitnesses.v ===== *)
(** * SpotFundsWitnesses: the spot funds and the configuration properties at concrete inputs *)
From S2P Require Import Prelude.
From S2P Require Import Decimal.
From S2P Require Import DecimalRef.
From S2P Require Import Param.
From S2P Require Import ParamTypes.
From S2P Require Import Identifiers.
From S2P Require Import Mutation.
From S2P Require Import Reject.
From S2P Require Import AccountControl.
From S2P Require Import Accounts.
From S2P Require Import Lock.
From S2P Require Import Policy.
From S2P Require Import Engine.
From S2P Require Import EngineFacts.
From S2P Require Import EngineOps.
From S2P Require Import Storage.
From S2P Require Import Holdings.
From S2P Require Import HoldingsFacts.
From S2P Require Import HoldingsStore.
From S2P Require Import Instruments.
From S2P Require Import MarketData.
From S2P Require Import PnlBounds.
From S2P Require Import PnlBoundsFacts.
From S2P Require Import ConfigCell.
From S2P Require Import SpotFundsSettings.
From S2P Require Import SpotFundsSettingsFacts.
From S2P Require Import SpotFundsParts.
From S2P Require Import SpotFunds.
From S2P Require Import SpotFundsReservation.
From S2P Require Import SpotFundsExecution.
From S2P Require Import SpotFundsAdjustment.
From S2P Require Import Configure.
From S2P Require Import SpotFundsFacts.
From S2P Require Import SpotFundsReservationFacts.
From S2P Require Import SpotFundsExecutionFacts.
From S2P Require Import SpotFundsLifecycle.
From S2P Require Import SpotFundsLedgerFacts.
From S2P Require Import SpotFundsAdjustmentFacts.
From S2P Require Import ConfigureFacts.
From S2P Require Import ComponentWitnesses.
Open Scope Z_scope.

(** ** The spot funds properties at concrete inputs *)

(** Whole numbers are on the grid of scale 0. *)
Ltac grid m := exists m; split; [units|vm_compute; discriminate].

(** *** A world of the policy alone, without market data *)

#[export] Instance demo_debug : DecimalDebug := fun _ => "".
#[export] Instance funds_world : Owns SpotFundsState SpotFundsState.
Proof. refine {| own_get := id; own_set x _ := x |}; reflexivity. Defined.
#[export] Instance no_market : MarketDataSource SpotFundsState := {|
  md_resolve _ _ := None;
  md_get _ _ _ _ _ := Err QuoteUnavailable
|}.
#[export] Instance no_waits : LeaseWaits SpotFundsState := fun _ _ st => st.

Record FundsOrder : Type := mkFundsOrder { fo_quantity : Quantity; fo_price : option Price }.
#[export] Instance FundsOrder_instrument : HasInstrument FundsOrder := fun _ => Ok (mkInstrument stock demo_asset).
#[export] Instance FundsOrder_side : HasSide FundsOrder := fun _ => Ok Buy.
#[export] Instance FundsOrder_amount : HasTradeAmount FundsOrder := fun order => Ok (TA_Quantity (fo_quantity order)).
#[export] Instance FundsOrder_price : HasOrderPrice FundsOrder := fun order => Ok (fo_price order).

Definition qty (n : Z) : Quantity := mkNonNeg (D:=RefDecimal) (rd n 0).
Definition tracking : SpotFundsSettings :=
  mkSpotFundsSettings ∅ ∅ ∅ ∅ ∅ ∅ barrier_set_default barrier_set_default barrier_set_default
    barrier_set_default barrier_set_default (with_slippage_new 0) Mark TrackOnly.
Definition funds_state (s : SpotFundsState) : EngineState SpotFundsState := mkEngineState s accounts_state_new 1 None.
Definition empty_funds : EngineState SpotFundsState := funds_state (spot_funds_new tracking).
Definition funds_policy : SpotFundsPolicy := mkSpotFundsPolicy false DEFAULT_POLICY_GROUP_ID.

(** *** One step of a reservation *)

(** Six of the ten are held. *)
Lemma reserve_slot_spec_witness :
  exists h, reserve_slot demo_asset (size 6) (size 0) Enforce None long_ten = Ok h /\
    moved long_ten h (- sg_val (size 6)) (sg_val (size 6)) (sg_val (size 0)) /\ 0 <= av h.
Proof.
  pose proof (reserve_slot_spec long_ten (size 6) (size 0) Enforce None demo_asset) as H.
  assert (E : funds_ok Enforce long_ten (size 6) && position_ok None long_ten (size 6) (size 0) = true) by (vm_compute; reflexivity).
  rewrite E in H. destruct H as (h & Hh & Hm & Ha).
  - split; [repr|split; [repr|split; [repr|repr]]].
  - exact I.
  - exists h. split; [exact Hh|split; [exact Hm|]]. apply Ha; [reflexivity|]. vm_compute. discriminate.
Defined.

(** *** Adjustments *)

Definition lower_to_six : AdjustmentRequestView :=
  mkAdjustmentRequest demo_asset (Some (Absolute (size 6))) None None None (Some (size 8))
    (Some (Delta (size 2))) None None None None None.

Lemma adjustment_reverts_witness :
  exists r new h', adjust_slot lower_to_six long_ten = Ok (r, new) /\ av new = 6 * u /\ hd new = 2 * u /\
    undo_adjustment r new = Ok h' /\ h' ≡ long_ten.
Proof.
  pose proof (adjustment_reverts lower_to_six long_ten) as H.
  assert (He : adjustment_exact lower_to_six long_ten).
  { split; [repr|split; [repr|split; [repr|split; [repr|split; [repr|split; [repr|repr]]]]]]. }
  specialize (H He). destruct (adjust_slot lower_to_six long_ten) as [[r new]|e].
  - destruct H as (_ & Hq & _ & _ & (h' & E & Hh) & _). exists r, new, h'.
    assert (Ea : av new = mv_available (asked_quantities lower_to_six long_ten)) by (rewrite <- Hq; reflexivity).
    assert (Eh : hd new = mv_held (asked_quantities lower_to_six long_ten)) by (rewrite <- Hq; reflexivity).
    split; [reflexivity|split; [rewrite Ea; units|split; [rewrite Eh; units|split; [exact E|exact Hh]]]].
  - exfalso. destruct H as [H _]. apply H. split; [|split].
    + intros _. split; [intros b Hb; discriminate Hb|intros b [= <-]; vm_compute; discriminate].
    + intros _. split; intros b Hb; discriminate Hb.
    + intros Hf. discriminate Hf.
Defined.

(** *** The P&L ledger *)

Definition pnl_of (n : Z) : Pnl := sg_new (rd n 0).
Definition loss_barrier (n : Z) : SpotFundsPnlBoundsBarrier := mkBarrier demo_asset (Some (pnl_of (- n))) None.

Definition new_barriers : SpotFundsPnlBarrierSet := mkBarrierSet (Some (loss_barrier 10)) ∅ ∅.

(** A new barrier of everyone reaches the one account known, in its currency. *)
Lemma changed_barriers_reference_witness :
  (demo_account, None, Some demo_asset, loss_barrier 10) ∈
    changed_barriers new_barriers barrier_set_default [demo_account] [] [] [] (fun _ _ => Some demo_asset).
Proof.
  apply (changed_barriers_reference new_barriers barrier_set_default [demo_account] [] [] [] (fun _ _ => Some demo_asset)).
  split; [|split; [reflexivity|split; [reflexivity|split; reflexivity]]].
  apply (bool_decide_unpack _). vm_compute. exact I.
Defined.

Lemma value_of_state (state : PnlState) z :
  match state with PnlValue v => sg_val v =? z | PnlHalted _ => false end = true ->
  exists v, state = PnlValue v /\ sg_val v = z.
Proof. destruct state as [v|]; [|done]. intros H%Z.eqb_eq. eauto. Qed.

(** An account that lost 5 passes a barrier at a loss of 10. *)
Definition lost_five : SpotFundsState :=
  set_pnl_table (spot_funds_new tracking) (<[demo_account := mkPnlEntry (PnlValue (pnl_of (-5))) None]> ∅).
Definition total_only (axis : SpotFundsPnlBoundsAxis) : option SpotFundsPnlBoundsBarrier :=
  match axis with AccountTotal => Some (loss_barrier 10) | _ => None end.

Lemma pnl_axis_block_spec_witness :
  pnl_axis_block_for_barriers funds_policy total_only demo_account None (Some demo_asset) false (funds_state lost_five) = None.
Proof.
  apply (pnl_axis_block_spec funds_policy total_only demo_account None (Some demo_asset) false (funds_state lost_five)).
  intros axis barrier Hb. destruct axis; try discriminate Hb. injection Hb as <-. split.
  - intros c [= <-]. reflexivity.
  - apply Forall_singleton.
    destruct (value_of_state (sum_pnl_states [account_pnl_state lost_five demo_account; sum_pnl_states []]) (-5 * u))
      as (v & Ev & Vv); [vm_compute; reflexivity|]. exists v. split; [exact Ev|].
    split; [intros lb [= <-]; rewrite Vv; vm_compute; discriminate|intros ub Hu; discriminate Hu].
Defined.

(** A P&L of 5 less is worth keeping. *)
Lemma spot_funds_retirement_witness :
  (retire_account_state demo_account (mkMutations [] 0) (funds_state lost_five)).1.1 = Err NonZeroState.
Proof.
  pose proof (spot_funds_retirement demo_account (mkMutations [] 0) (funds_state lost_five)) as H. cbv zeta in H.
  destruct (retire_account_state _ _ _) as [[r ms'] st']. destruct H as (_ & _ & H & _). apply H. split.
  - intros [(c & Hc & _)|[(l & Hl)|(e & t & He & Ht)]].
    + discriminate Hc.
    + discriminate Hl.
    + injection He as <-. discriminate Ht.
  - left. eexists. split; [reflexivity|vm_compute; reflexivity].
Defined.

(** The P&L is set to 20 while 3 and 4 arrive, and the setting is rolled back. *)
Definition fresh_mutations : Mutations (EngineState SpotFundsState) := mkMutations [] 0.
Definition free_context : AccountAdjustmentContext := mkAdjustmentContext demo_account.
Lemma assertion_rollback_exact_witness :
  exists m, ms_mutations (apply_account_pnl_adjustment funds_policy free_context demo_account (PnlValue (pnl_of 20))
                            fresh_mutations (funds_state lost_five)).1.2 = [m] /\
    exists v, pe_state (ledger_entry (mut_rollback m (take_deltas demo_account [pnl_of 3; pnl_of 4]
       (apply_account_pnl_adjustment funds_policy free_context demo_account (PnlValue (pnl_of 20))
          fresh_mutations (funds_state lost_five)).2)).2 demo_account) = PnlValue v /\ sg_val v = 2 * u.
Proof.
  pose proof (assertion_rollback_exact funds_policy free_context demo_account (pnl_of 20) [pnl_of 3; pnl_of 4]
    fresh_mutations (funds_state lost_five)) as H. cbv zeta in H.
  destruct (apply_account_pnl_adjustment _ _ _ _ _ _) as [[r ms'] st1].
  destruct H as (_ & m & token & Hm & _ & (_ & Hs) & _).
  - exact I.
  - split; [repr|split; [repr|exact I]].
  - intros p [= <-]. split; repr.
  - exists m. split; [exact Hm|].
    assert (E : pe_state (ledger_entry (funds_state lost_five) demo_account) = PnlValue (pnl_of (-5))) by reflexivity.
    rewrite E in Hs. destruct Hs as (v & Ev & Vv). exists v. split; [exact Ev|]. rewrite Vv. units.
Defined.

(** *** The life of an order: two shares bought at 10 or better *)

Definition two_at_ten : FundsOrder := mkFundsOrder (qty 2) (Some (price 10)).
Definition two_at_ten_request : OrderRequestView :=
  mkOrderRequest (mkInstrument stock demo_asset) demo_account Buy (TA_Quantity (qty 2)) (Some (price 10)).
Definition order_context : PreTradeContext := mkPreTradeContext (Ok demo_account) false.
Definition before_order : HookState SpotFundsState := ((with_accounts_ctx (Ok demo_account)).2, empty_funds).

Lemma two_at_ten_deferring : deferring order_context before_order.
Proof. discriminate. Qed.

Lemma empty_slots_grid : forall key, slot_grid 0 0 (sf_slot empty_funds key).
Proof. intros key. split; [grid 0|split; grid 0]. Qed.

Lemma two_at_ten_fits : lock_fits 0 20 (sg_val (price 10)) (nn_val (qty 2)).
Proof. split; [units|split; [grid 20|grid 2]]. Qed.

Lemma two_at_ten_legs : forall request legs, legs_of funds_policy order_context two_at_ten before_order request legs ->
  request = two_at_ten_request /\ legs_grid 0 20 legs /\ legs_lock_price legs = Some (price 10).
Proof.
  intros request legs [Hr Hl]. assert (E : two_at_ten_request = request) by (injection Hr as <-; reflexivity).
  subst request. split; [reflexivity|]. eapply (limit_legs 0 (Nat.le_0_l _) 20); [|exact Hl|reflexivity..|exact two_at_ten_fits].
  split; [lia|vm_compute; reflexivity].
Qed.

Lemma no_guards : forall account : AccountId, 0 <= active_of empty_funds account /\ active_of empty_funds account + 2 <= USIZE_MAX.
Proof. intros account. split; vm_compute; discriminate. Qed.

Lemma reservation_reverts_witness :
  let result := perform_pre_trade_check_impl funds_policy order_context two_at_ten fresh_mutations before_order in
  exists st', rollback_all result.1.2 result.2.2 = (rollback_default, st') /\
    forall key, sf_slot st' key ≡ sf_slot empty_funds key.
Proof.
  destruct (perform_pre_trade_check_impl _ _ _ _ _) as [[r ms'] s'] eqn:E. cbv zeta. cbn [fst snd].
  destruct (reservation_reverts 0 (Nat.le_0_l _) funds_policy order_context two_at_ten fresh_mutations before_order r ms' s' 0 20)
    as (_ & H).
  - exact two_at_ten_deferring.
  - exact E.
  - exact empty_slots_grid.
  - intros request legs Hl. apply (two_at_ten_legs request legs Hl).
  - exact no_guards.
  - lia.
  - vm_compute. reflexivity.
  - destruct ms' as [new o]. destruct (H new o eq_refl) as (st' & Er & _ & Hs). exists st'. split; [exact Er|exact Hs].
Defined.

(** The same order of an instrument settled in its own underlying asset. *)
Record OwnAssetOrder : Type := mkOwnAsset { oa_order : FundsOrder }.
#[export] Instance OwnAssetOrder_instrument : HasInstrument OwnAssetOrder | 100 := fun _ => Ok (mkInstrument stock stock).
#[export] Instance OwnAssetOrder_side : HasSide OwnAssetOrder | 100 := fun _ => Ok Buy.
#[export] Instance OwnAssetOrder_amount : HasTradeAmount OwnAssetOrder | 100 := fun order => Ok (TA_Quantity (fo_quantity (oa_order order))).
#[export] Instance OwnAssetOrder_price : HasOrderPrice OwnAssetOrder | 100 := fun order => Ok (fo_price (oa_order order)).

(** Its second outcome shows what the first step held. *)
Example own_asset_outcomes :
  (match (perform_pre_trade_check_dry_run_impl funds_policy order_context (mkOwnAsset two_at_ten) fresh_mutations
            before_order).1.1 with
   | Ok (Some outcome) => length (ppr_account_adjustments outcome)
   | _ => 0%nat
   end) = 2%nat.
Proof. vm_compute. reflexivity. Qed.

(** Whether a step leaves its slot all zero, computed. *)
Definition keeps_slot (r : result (Rejects PolicyPreTradeResult) (option Holdings * PolicyPreTradeResult)) : bool :=
  match r with Ok (Some new, _) => negb (holdings_is_zero new) | _ => true end.

Definition first_keeps (request : OrderRequestView) (legs : ReservationLegs) : bool :=
  let steps := reservation_steps legs (underlying_asset (rq_instrument request))
                 (settlement_asset (rq_instrument request)) (rq_side request) in
  let controls := reservation_controls (sf_settings (sf_of before_order.2)) (rq_account_id request)
                    (state_account_group order_context before_order) (is_drop_copy order_context) steps in
  keeps_slot (reserve_asset_dry_run (sf_holdings (sf_of before_order.2)) (rq_account_id request) steps.1 controls.1
    controls.2.1 None outcome_empty).

Lemma own_asset_kept : shared_slot_kept funds_policy order_context (mkOwnAsset two_at_ten) before_order.
Proof.
  intros request legs [Hr Hl].
  assert (K : match read_order_request order_context (mkOwnAsset two_at_ten) with
              | Ok request =>
                  match compute_reservation_legs funds_policy request (state_account_group order_context before_order)
                          order_context (sf_settings (sf_of before_order.2)) (es_world before_order.2) with
                  | Ok legs => first_keeps request legs | Err _ => false end
              | Err _ => false end = true) by (vm_compute; reflexivity).
  rewrite Hr, Hl in K. unfold first_keeps in K. intros steps controls _ new outcome E. fold steps controls in K.
  rewrite E in K. by apply negb_true_iff.
Qed.

Lemma spot_funds_dry_run_agrees_witness :
  perform_pre_trade_check_dry_run_impl funds_policy order_context two_at_ten fresh_mutations before_order =
  ((perform_pre_trade_check_impl funds_policy order_context two_at_ten fresh_mutations before_order).1.1,
   fresh_mutations, before_order) /\
  perform_pre_trade_check_dry_run_impl funds_policy order_context (mkOwnAsset two_at_ten) fresh_mutations before_order =
  ((perform_pre_trade_check_impl funds_policy order_context (mkOwnAsset two_at_ten) fresh_mutations before_order).1.1,
   fresh_mutations, before_order).
Proof.
  split.
  - apply (spot_funds_dry_run_agrees funds_policy order_context two_at_ten fresh_mutations fresh_mutations before_order).
    + reflexivity.
    + apply distinct_assets_kept. intros request Hr. injection Hr as <-. discriminate.
  - apply (spot_funds_dry_run_agrees funds_policy order_context (mkOwnAsset two_at_ten) fresh_mutations fresh_mutations
      before_order); [reflexivity|exact own_asset_kept].
Defined.

(** One share is bought at 9 and the order is closed with the other unfilled. *)
Definition one_at_nine : ExecutionRequestView :=
  mkExecutionRequest (mkInstrument stock demo_asset) demo_account Buy
    (Some (mkTrade (price 9) (qty 1))) None (qty 1) true (lock_push lock_new DEFAULT_POLICY_GROUP_ID (price 10)).

Lemma one_at_nine_fits : report_fits 0 20 funds_policy one_at_nine (price 10).
Proof.
  split; [reflexivity|split; [exact I|split]].
  - split; [split; [units|split; [grid 10|grid 1]]|split; [units|split; [grid 9|grid 1]]].
  - split; [units|split; [grid 10|grid 1]].
Qed.

Lemma two_at_ten_accepted :
  is_ok (perform_pre_trade_check_impl funds_policy order_context two_at_ten fresh_mutations before_order).1.1 = true.
Proof. vm_compute. reflexivity. Qed.

(** The reservation leaves the slots on the grid and the lease free. *)
Lemma after_reservation r ms' s' :
  perform_pre_trade_check_impl funds_policy order_context two_at_ten fresh_mutations before_order = (r, ms', s') ->
  slots_grid 0 40 s'.2 /\ lease_free demo_account s'.2.
Proof.
  intros E.
  destruct (hook_effect 0 (Nat.le_0_l _) funds_policy order_context two_at_ten fresh_mutations before_order r ms' s' 0 20)
    as (account & steps & new & _ & Hres & Hfo & _ & _ & Hr & Hsg).
  - exact two_at_ten_deferring.
  - exact E.
  - exact empty_slots_grid.
  - intros request legs Hl. apply (two_at_ten_legs request legs Hl).
  - exact no_guards.
  - lia.
  - vm_compute. reflexivity.
  - split; [|unfold lease_free; rewrite (fo_leases _ _ Hfo); exact I].
    refine (reserved_slots_grid 0 (Nat.le_0_l _) account steps before_order.2 s'.2 0 20 Hres Hsg _ _ empty_slots_grid); [|lia].
    destruct r; [|lia]. destruct Hr as (request & legs & Hlegs & _ & ->).
    apply (steps_of_grid 0 20), (two_at_ten_legs request legs Hlegs).
Qed.

Definition after_report (st : EngineState SpotFundsState) : EngineState SpotFundsState :=
  (apply_execution_request_impl funds_policy (mkPostTradeContext (Some demo_account)) one_at_nine (None, st)).2.2.

(** Buying for a volume of 20 at 10 is an order for 2 as well. *)
Example twenty_buys_two :
  exists q, sized (TA_Volume (mkNonNeg (D:=RefDecimal) (rd 20 0))) false Buy (price 10) q /\ nn_val q = 2 * u.
Proof.
  assert (H : match volume_quantity false (mkNonNeg (D:=RefDecimal) (rd 20 0)) (price 10) with
              | Ok q => nn_val q =? 2 * u | Err _ => false end = true) by (vm_compute; reflexivity).
  destruct (volume_quantity _ _ _) as [q|e] eqn:E; [|discriminate]. apply Z.eqb_eq in H.
  exists q. split; [|exact H]. split; [exact E|]. intros _. rewrite H. units.
Qed.

(** The 20 held are given back: the account has paid 9 for one share. *)
Lemma order_settles_witness :
  let s' := (perform_pre_trade_check_impl funds_policy order_context two_at_ten fresh_mutations before_order).2 in
  quantities (sf_slot (after_report s'.2) (demo_account, demo_asset)) = mkMove (-9 * u) 0 0 /\
  quantities (sf_slot (after_report s'.2) (demo_account, stock)) = mkMove u 0 0.
Proof.
  pose proof two_at_ten_accepted as Hok. pose proof after_reservation as Hafter.
  pose proof (order_settles 0 (Nat.le_0_l _) 20) as H.
  specialize (H ltac:(split; [lia|vm_compute; reflexivity]) funds_policy order_context two_at_ten fresh_mutations before_order).
  destruct (perform_pre_trade_check_impl _ _ _ _ _) as [[[outcome|rejects] ms'] s'] eqn:E; [|discriminate Hok].
  destruct (Hafter _ _ _ eq_refl) as [Hg Hl].
  assert (Hlegs : exists legs, legs_of funds_policy order_context two_at_ten before_order two_at_ten_request legs).
  { destruct (compute_reservation_legs funds_policy two_at_ten_request (state_account_group order_context before_order)
      order_context (sf_settings (sf_of before_order.2)) (es_world before_order.2)) as [legs|e] eqn:El.
    - exists legs. split; [reflexivity|exact El].
    - exfalso. assert (Hc : is_ok (compute_reservation_legs funds_policy two_at_ten_request (state_account_group order_context before_order)
        order_context (sf_settings (sf_of before_order.2)) (es_world before_order.2)) = true) by (vm_compute; reflexivity).
      rewrite El in Hc. discriminate Hc. }
  destruct Hlegs as [legs Hlegs].
  assert (Hm := H outcome ms' s' 0 two_at_ten_request legs (qty 2) (price 10) [one_at_nine] (after_report s'.2)
    moves_none). clear H. cbv zeta in Hm. cbn [snd].
  assert (Hs : slots_moved before_order.2 (after_report s'.2)
    (moves_add (moves_sum (traded demo_account stock demo_asset Buy) [one_at_nine]) moves_none)).
  { apply Hm; clear Hm.
    - exact two_at_ten_deferring.
    - reflexivity.
    - exact empty_slots_grid.
    - intros request legs' Hl'. apply (two_at_ten_legs request legs' Hl').
    - exact no_guards.
    - vm_compute. reflexivity.
    - exact Hlegs.
    - apply (two_at_ten_legs _ _ Hlegs).
    - reflexivity.
    - exact two_at_ten_fits.
    - apply (oh_report 0 20 funds_policy demo_account (price 10) (mkPostTradeContext (Some demo_account)) None one_at_nine [] 40 s'.2
        (after_report s'.2)); [reflexivity|exact one_at_nine_fits|exact Hg|lia|vm_compute; reflexivity|exact Hl|reflexivity|apply oh_done].
    - apply Forall_singleton. split; [reflexivity|split; reflexivity].
    - apply Forall_singleton. split; vm_compute; discriminate.
    - exists [], one_at_nine. split; [reflexivity|split; [apply Forall_nil; exact I|split; [reflexivity|units]]]. }
  split; rewrite Hs; vm_compute; reflexivity.
Defined.

(** ** The configuration properties at concrete inputs *)

(** *** Cells *)

(** An update that sets the cell, unless it holds 7 already. *)
Definition set_to (n : Z) : Z -> result string unit * Z := fun v => if v =? 7 then (Err "seven", v) else (Ok tt, n).

Lemma local_update_spec_witness :
  local_update (plain (set_to 3)) (mkLocalCell 1 0) = Some (Ok tt, mkLocalCell 3 0) /\
  local_with (fun _ => local_update (plain (set_to 3))) (mkLocalCell 1 0) = None.
Proof.
  destruct (local_update_spec (set_to 3) (mkLocalCell 1 0)) as (H1 & H2 & _); [reflexivity|].
  split; [exact H1|]. apply H2. reflexivity.
Defined.

(** Two updates and a reader between them. *)
Definition cell_threads : list (CellThread (T:=Z) (E:=string)) := [Updating (set_to 3); Reading; Updating (set_to 4)].

Lemma cell_threads_fresh : Forall fresh_thread cell_threads.
Proof. repeat constructor. Qed.

Definition one_stored : ArcCell (T:=Z) (E:=string) :=
  mkArcCell 3 None [Updated (set_to 3) (Ok tt); ReadGuard 1; Updating (set_to 4)].

Lemma one_stored_reached : rtc arc_step (arc_init 1 cell_threads) one_stored.
Proof.
  eapply rtc_l; [by apply (as_lock _ 0 (set_to 3))|].
  eapply rtc_l; [by apply (as_guard _ 1)|].
  eapply rtc_l; [by apply (as_load _ 0 (set_to 3))|].
  eapply rtc_l; [by eapply (as_run _ 0 (set_to 3) 1)|].
  eapply rtc_l; [by eapply (as_store _ 0 (set_to 3) 3)|].
  eapply rtc_l; [by apply (as_unlock _ 0 (set_to 3))|]. apply rtc_refl.
Qed.

Lemma arc_cell_linearizable_witness : exists published, runs 1 published 3 /\ (0%nat, set_to 3) ∈ published /\
  once_value 1 published 1.
Proof.
  destruct (arc_cell_linearizable 1 cell_threads one_stored cell_threads_fresh one_stored_reached)
    as (published & Hr & _ & Hp & Ht).
  exists published. split; [exact Hr|split; [by apply Hp|]]. exact (Ht 1%nat (ReadGuard 1) eq_refl).
Defined.

(** *** An engine with the spot funds policy *)

Definition no_field {A} : result RequestFieldAccessError (option A) := Ok None.
#[export] Instance unit_account : HasAccountId unit := fun _ _ => Ok demo_account.
#[export] Instance unit_instrument : HasInstrument unit := fun _ => Ok (mkInstrument stock demo_asset).
#[export] Instance unit_side : HasSide unit := fun _ => Ok Buy.
#[export] Instance unit_last_trade : HasExecutionReportLastTrade unit := fun _ => no_field.
#[export] Instance unit_fill_fee : HasExecutionReportFillFee unit := fun _ => no_field.
#[export] Instance unit_remaining : HasRemainingReservedQuantity unit := fun _ => Ok (qty 0).
#[export] Instance unit_is_final : HasExecutionReportIsFinal unit := fun _ => Ok false.
#[export] Instance unit_lock : HasPreTradeLock unit := fun _ => Ok lock_new.
#[export] Instance unit_adjustment : HasAdjustmentFields unit :=
  Build_HasAdjustmentFields _ unit (fun _ => no_field) (fun _ => Ok demo_asset) (fun _ => no_field) (fun _ => no_field)
    (fun _ => no_field) (fun _ => no_field) (fun _ => no_field) (fun _ => no_field) (fun _ => no_field)
    (fun _ => no_field) (fun _ => no_field) (fun _ => no_field) (fun _ => no_field).
#[export] Instance kind_names : CellTypeName := fun kind =>
  match kind with
  | RateLimitKind => "rate limit" | PnlBoundsKillSwitchKind => "kill switch"
  | SpotFundsKind => "spot funds" | OrderSizeLimitKind => "order size"
  end.

Definition funds_registered : RegisteredPolicy (W:=SpotFundsState) (Order:=FundsOrder) (Report:=unit) (Adjustment:=unit) :=
  registered_spot_funds 0 funds_policy.
Definition funds_engine : EngineInner := mkEngineInner [funds_registered]
  {[ SPOT_FUNDS_POLICY_NAME := CE_SpotFunds funds_world ]}.

(** An account in dollars that lost 5 meets a new barrier at a loss of 3. *)
Definition dollar_account : EngineState SpotFundsState :=
  mkEngineState lost_five (mkAccountsState ∅ blocked_accounts_new (mkAccountCurrencies {[ demo_account := demo_asset ]} ∅)) 1 None.
Definition loss_of_three : Update (Error:=SpotFundsConfigError) SpotFundsSettings :=
  fun s => (Ok tt, with_realized_barriers s (mkBarrierSet (Some (loss_barrier 3)) ∅ ∅)).

Lemma spot_funds_retune_witness : exists cause,
  cause_of (configure_spot_funds SpotFundsConfigError_fmt id funds_engine SPOT_FUNDS_POLICY_NAME loss_of_three dollar_account).2
    demo_account = Some cause.
Proof.
  pose proof (spot_funds_retune SpotFundsConfigError_fmt id funds_engine SPOT_FUNDS_POLICY_NAME loss_of_three dollar_account
    funds_policy funds_registered) as H. cbv zeta in H.
  destruct (configure_spot_funds _ _ _ _ _ _) as [r st'].
  destruct H as (_ & outcomes & _ & _ & H & _); [reflexivity|reflexivity|reflexivity|].
  cbn [snd]. destruct (cause_of st' demo_account) as [cause|] eqn:E; [by exists cause|]. exfalso.
  destruct (H demo_account (loss_barrier 3)) as [[_ Ha]|Hc].
  - unfold new_barrier. rewrite decide_True; [reflexivity|]. apply (bool_decide_unpack _). vm_compute. exact I.
  - destruct Ha as (v & Ev & Hl & _). specialize (Hl _ eq_refl). injection Ev as <-. revert Hl. vm_compute. intros Hl. by apply Hl.
  - by apply Hc.
Defined.

(** The same account joins a group whose barrier is a loss of 3. *)
Definition desk_group : AccountGroupId := mkAccountGroupId 5.
Definition desk_barrier : SpotFundsPnlBarrierSet :=
  mkBarrierSet None {[ desk_group := mkGroupBarrier (loss_barrier 3) desk_group ]} ∅.
Definition desk_state : EngineState SpotFundsState :=
  mkEngineState (set_settings lost_five (with_realized_barriers tracking desk_barrier)) (es_accounts dollar_account) 1 None.

Lemma group_move_enforces_witness :
  ba_accounts (as_blocked (accounts_register_group (account_pnl_membership_change_blocks funds_engine desk_state)
    (es_accounts desk_state) [demo_account] desk_group).2) !! demo_account <> None.
Proof.
  pose proof (group_move_enforces funds_engine SPOT_FUNDS_POLICY_NAME desk_state [demo_account] desk_group) as H.
  assert (Hr : (accounts_register_group (account_pnl_membership_change_blocks funds_engine desk_state)
    (es_accounts desk_state) [demo_account] desk_group).1 = Ok tt) by reflexivity.
  assert (Hcur : as_currencies (accounts_register_group (account_pnl_membership_change_blocks funds_engine desk_state)
    (es_accounts desk_state) [demo_account] desk_group).2 = as_currencies (es_accounts desk_state)) by reflexivity.
  destruct (accounts_register_group _ _ _ _) as [r acc']. cbn [fst snd] in *. subst r.
  specialize (H acc' eq_refl eq_refl demo_account). cbv zeta in H. rewrite decide_True, Hcur in H by (left; exact eq_refl).
  destruct H as [_ H]. destruct (H (loss_barrier 3)) as [[_ Ha]|Hc]; [reflexivity|left; reflexivity| |exact Hc].
  exfalso. destruct Ha as (v & Ev & Hl & _). specialize (Hl _ eq_refl). injection Ev as <-. revert Hl. vm_compute. intros Hl. by apply Hl.
Defined.
