(* ===== verification/FfiWitnesses.v ===== *)
(** * FfiWitnesses: the theorems on the two boundaries at concrete values

    A lock, an order and its two wire forms over [ScaledDecimal], a reject, a policy
    of C callbacks; and policies of a small Python interpreter, some of which raise. *)
From S2P Require Import Prelude.
From S2P Require Import Decimal.
From S2P Require Import DecimalRef.
From S2P Require Import Param.
From S2P Require Import ParamTypes.
From S2P Require Import Identifiers.
From S2P Require Import Utf8.
From S2P Require Import Mutation.
From S2P Require Import Reject.
From S2P Require Import AccountControl.
From S2P Require Import Accounts.
From S2P Require Import Lock.
From S2P Require Import Policy.
From S2P Require Import Engine.
From S2P Require Import EngineFacts.
From S2P Require Import Instruments.
From S2P Require Import Locking.
From S2P Require Import MarketData.
From S2P Require Import MarketDataFacts.
From S2P Require Import SpotFundsParts.
From S2P Require Import SpotFunds.
From S2P Require Import SpotFundsExecution.
From S2P Require Import SpotFundsAdjustment.
From S2P Require Import Requests.
From S2P Require Import Interop.
From S2P Require Import OrderValidation.
From S2P Require Import Ffi.
From S2P Require Import FfiParam.
From S2P Require Import FfiOutcomes.
From S2P Require Import FfiLock.
From S2P Require Import FfiWire.
From S2P Require Import FfiRequests.
From S2P Require Import FfiFacts.
From S2P Require Import FfiServices.
From S2P Require Import Configure.
From S2P Require Import FfiErrors.
From S2P Require Import FfiPolicy.
From S2P Require Import FfiEngine.
From S2P Require Import FfiEngineFacts.
From S2P Require Import SpotFundsSettings.
From S2P Require Import FfiBuiltin.
From S2P Require Import FfiSpotFunds.
From S2P Require Import FfiServiceFacts.
From S2P Require Import Python.
From S2P Require Import PythonPolicy.
From S2P Require Import PythonEngine.
From S2P Require Import PythonServices.
From S2P Require Import PythonFacts.
Open Scope Z_scope.

(** ** Decimals with the scale they were built with

    A second instance of the decimal interface, where a value is its coefficient and
    scale: the operations are those of [DecimalRef], their results at the smallest
    scale. *)

Definition sd_valid (m s : Z) : bool := (Z.abs m <? DEC_COEFF) && (0 <=? s) && (s <=? 28).

Record ScaledDec : Type := mkScaled { sd_m : Z; sd_s : Z; sd_ok : sd_valid sd_m sd_s = true }.

Definition sd_make (m s : Z) : option ScaledDec :=
  match Sumbool.sumbool_of_bool (sd_valid m s) with
  | left H => Some (mkScaled m s H)
  | right _ => None
  end.

Definition sd_zero : ScaledDec := mkScaled 0 0 eq_refl.
Definition sd_units (d : ScaledDec) : Z := sd_m d * scale_weight (Z.to_nat (sd_s d)).

Definition to_ref (d : ScaledDec) : RefDec := rd_make_or rd_zero (sd_units d).

Fixpoint smallest_scale (z : Z) (scales : list nat) : option ScaledDec :=
  match scales with
  | [] => None
  | s :: scales => if fits_scale z s then sd_make (z / scale_weight s) (Z.of_nat s) else smallest_scale z scales
  end.

Definition of_ref (d : RefDec) : ScaledDec := default sd_zero (smallest_scale (rd_units d) (seq 0 (S DEC_MAX_SCALE))).

Definition Scaled : DecimalOps :=
  let R := RefDecimal in {|
  Dec := ScaledDec;
  dec_val := sd_units;
  dec_cmp a b := sd_units a ?= sd_units b;
  dec_zero := sd_zero;
  dec_of_int z := of_ref (@dec_of_int R z);
  dec_neg d := of_ref (@dec_neg R (to_ref d));
  dec_abs d := of_ref (@dec_abs R (to_ref d));
  dec_add a b := of_ref <$> @dec_add R (to_ref a) (to_ref b);
  dec_sub a b := of_ref <$> @dec_sub R (to_ref a) (to_ref b);
  dec_mul a b := of_ref <$> @dec_mul R (to_ref a) (to_ref b);
  dec_div a b := of_ref <$> @dec_div R (to_ref a) (to_ref b);
  dec_rem a b := of_ref <$> @dec_rem R (to_ref a) (to_ref b);
  dec_round d s r := of_ref (@dec_round R (to_ref d) s r);
  dec_from_str_exact s := of_ref <$> @dec_from_str_exact R s;
  dec_parse s := of_ref <$> @dec_parse R s;
  dec_try_from_f64 x := of_ref <$> @dec_try_from_f64 R x
|}.

(** The sixteen bytes of the crate: scale, sign, then the coefficient. *)
Definition sd_bytes (d : ScaledDec) : list Z :=
  [0; 0; sd_s d; if sd_m d <? 0 then 128 else 0] ++ to_le_bytes 12 (Z.abs (sd_m d)).

Definition sd_of_bytes (bytes : list Z) : ScaledDec :=
  let m := from_le_bytes (drop 4 bytes) in
  default sd_zero (sd_make (if nth 3 bytes 0 =? 128 then - m else m) (nth 2 bytes 0)).

Definition ScaledWire : @DecimalWire Scaled := {|
  dec_mantissa := (sd_m : @Dec Scaled -> Z);
  dec_scale := (sd_s : @Dec Scaled -> Z);
  dec_from_i128_with_scale m s := ok_or (sd_make m s : option (@Dec Scaled)) "out of range";
  dec_to_f64 _ := None
|}.

Definition ScaledRaw : @DecimalRaw Scaled := {| dec_serialize := (sd_bytes : @Dec Scaled -> list Z); dec_deserialize := sd_of_bytes |}.

(** ** Laws *)

Lemma sd_valid_spec m s : sd_valid m s = true <-> Z.abs m < DEC_COEFF /\ 0 <= s <= 28.
Proof. unfold sd_valid. rewrite !andb_true_iff, Z.ltb_lt, !Z.leb_le. lia. Qed.

Lemma sd_make_some m s : Z.abs m < DEC_COEFF -> 0 <= s <= 28 -> exists d, sd_make m s = Some d /\ sd_m d = m /\ sd_s d = s.
Proof.
  intros Hm Hs. unfold sd_make. destruct (Sumbool.sumbool_of_bool _) as [H|H]; [by eexists|].
  apply not_true_iff_false in H. by destruct H; apply sd_valid_spec.
Qed.

Lemma sd_eq a b : sd_m a = sd_m b -> sd_s a = sd_s b -> a = b.
Proof. destruct a as [m s H], b as [m' s' H']. cbn. intros -> ->. f_equal. apply Eqdep_dec.UIP_dec, bool_dec. Qed.

Lemma sd_make_self d : sd_make (sd_m d) (sd_s d) = Some d.
Proof.
  destruct (proj1 (sd_valid_spec _ _) (sd_ok d)) as [Hm Hs]. destruct (sd_make_some _ _ Hm Hs) as (d' & -> & H1 & H2).
  f_equal. by apply sd_eq.
Qed.

Lemma sd_repr d : representable (sd_units d).
Proof.
  destruct (proj1 (sd_valid_spec _ _) (sd_ok d)) as [Hm Hs]. exists (Z.to_nat (sd_s d)), (sd_m d). split_and!; [|done|done].
  unfold DEC_MAX_SCALE. lia.
Qed.

Lemma to_ref_units d : rd_units (to_ref d) = sd_units d.
Proof. apply rd_make_or_units, sd_repr. Qed.

Lemma of_ref_units r : sd_units (of_ref r) = rd_units r.
Proof.
  unfold of_ref. pose proof (proj2 (representable_b_true _) (rd_repr r)) as H. unfold representable_b in H.
  assert (Hs : Forall (fun s => (s <= 28)%nat) (seq 0 (S DEC_MAX_SCALE))).
  { apply Forall_forall. intros s Hin%elem_of_seq. unfold DEC_MAX_SCALE in Hin. lia. }
  revert H Hs. generalize (seq 0 (S DEC_MAX_SCALE)) as l. induction l as [|s l IH]; [done|].
  intros H Hs. apply Forall_cons in Hs as [Hs Hl]. cbn [smallest_scale existsb] in *. destruct (fits_scale (rd_units r) s) eqn:E; [|auto].
  unfold fits_scale in E. apply andb_true_iff in E as [E1 E2]. apply Z.eqb_eq in E1. apply Z.ltb_lt in E2.
  destruct (sd_make_some (rd_units r / scale_weight s) (Z.of_nat s)) as (d & -> & Hm & Hd); [done|lia|].
  cbn. unfold sd_units. rewrite Hm, Hd, Nat2Z.id. pose proof (scale_weight_pos s). pose proof (Z.div_mod (rd_units r) (scale_weight s)). lia.
Qed.

#[export] Instance ScaledWire_laws : DecimalWireLaws Scaled ScaledWire.
Proof.
  split; cbn.
  - intros d. by destruct (proj1 (sd_valid_spec _ _) (sd_ok d)).
  - intros d. by destruct (proj1 (sd_valid_spec _ _) (sd_ok d)).
  - done.
  - intros m s Hm Hs. destruct (sd_make_some m s Hm Hs) as (d & -> & ? & ?). by exists d.
  - intros m s H. unfold sd_make. destruct (Sumbool.sumbool_of_bool _) as [Hv|]; [|by eexists].
    destruct H. exact (proj1 (sd_valid_spec m s) Hv).
Qed.

#[export] Instance ScaledRaw_laws : DecimalRawLaws Scaled ScaledRaw.
Proof.
  split; cbn -[sd_bytes sd_of_bytes].
  - intros d. unfold sd_bytes. by rewrite length_app, le_bytes_length.
  - intros d. destruct (proj1 (sd_valid_spec _ _) (sd_ok d)) as [Hm Hs].
    unfold sd_of_bytes, sd_bytes. cbn -[to_le_bytes from_le_bytes sd_make Z.eqb]. rewrite drop_0, le_bytes_back by (unfold DEC_COEFF in Hm; lia).
    replace (if (if sd_m d <? 0 then 128 else 0) =? 128 then _ else _) with (sd_m d)
      by (destruct (Z.ltb_spec (sd_m d) 0); cbn; lia).
    by rewrite sd_make_self.
Qed.

#[export] Instance Scaled_laws : DecimalLaws Scaled.
Proof.
  split; cbn -[DEC_UNIT DEC_COEFF U64_MAX RefDecimal of_ref to_ref].
  - apply sd_repr.
  - done.
  - done.
  - intros z Hz. rewrite of_ref_units. by apply (dec_of_int_val (D := RefDecimal)).
  - intros d. rewrite of_ref_units, <- to_ref_units. apply (dec_neg_val (D := RefDecimal)).
  - intros d. rewrite of_ref_units, <- to_ref_units. apply (dec_abs_val (D := RefDecimal)).
  - intros a b H. rewrite <- !to_ref_units in H |- *. destruct (dec_add_exact (DecimalLaws := RefDecimal_laws) _ _ H) as (c & -> & Hc).
    exists (of_ref c). by rewrite of_ref_units.
  - intros a b c (r & H & ->)%fmap_Some. rewrite of_ref_units, <- !to_ref_units. by apply (dec_add_side (D := RefDecimal)).
  - intros a b H. rewrite <- !to_ref_units in H |- *. destruct (dec_sub_exact (DecimalLaws := RefDecimal_laws) _ _ H) as (c & -> & Hc).
    exists (of_ref c). by rewrite of_ref_units.
  - intros a b c (r & H & ->)%fmap_Some. rewrite of_ref_units, <- !to_ref_units. by apply (dec_sub_side (D := RefDecimal)).
  - intros a b z Hz H. rewrite <- !to_ref_units in H. destruct (dec_mul_exact (DecimalLaws := RefDecimal_laws) _ _ _ Hz H) as (c & -> & Hc).
    exists (of_ref c). by rewrite of_ref_units.
  - intros a b c (r & H & ->)%fmap_Some. rewrite of_ref_units, <- !to_ref_units. by apply (dec_mul_side (D := RefDecimal)).
  - intros a b z Hb Hz H. rewrite <- !to_ref_units in H. rewrite <- to_ref_units in Hb.
    destruct (dec_div_exact (DecimalLaws := RefDecimal_laws) _ _ _ Hb Hz H) as (c & -> & Hc).
    exists (of_ref c). by rewrite of_ref_units.
  - intros a b c (r & H & ->)%fmap_Some. rewrite of_ref_units, <- !to_ref_units. by apply (dec_div_side (D := RefDecimal)).
  - intros a b Hb. rewrite <- to_ref_units in Hb. by rewrite (dec_div_zero (DecimalLaws := RefDecimal_laws) _ _ Hb).
  - intros a b c (r & H & ->)%fmap_Some. rewrite of_ref_units, <- !to_ref_units. by apply (dec_rem_side (D := RefDecimal)).
  - intros a b Hb. rewrite <- to_ref_units in Hb. by rewrite (dec_rem_zero (DecimalLaws := RefDecimal_laws) _ _ Hb).
  - intros d s. rewrite of_ref_units, <- to_ref_units. apply (dec_round_down (D := RefDecimal)).
  - intros d s. rewrite of_ref_units, <- to_ref_units. apply (dec_round_up (D := RefDecimal)).
Qed.

(** ** Locks *)

#[local] Existing Instance Scaled.
#[local] Existing Instance ScaledWire.
#[local] Existing Instance ScaledRaw.

Definition units (m s : Z) (H : sd_valid m s = true) : @Dec Scaled := mkScaled m s H.
Definition a_price : Price := mkSigned (units (-1250) 2 eq_refl).
Definition b_price : Price := mkSigned (units 3 0 eq_refl).

(** Two default prices, and one under the group seven. *)
Definition a_lock : PreTradeLock := lock_append lock_new [(mkPolicyGroupId 0, a_price); (mkPolicyGroupId 7, b_price); (mkPolicyGroupId 0, b_price)].

Lemma raw_roundtrip_witness :
  length (encode_raw a_lock) = 62%nat /\ decode_raw (encode_raw a_lock) = Ok a_lock.
Proof.
  split; [vm_compute; reflexivity|]. apply raw_roundtrip.
  - split; [repeat constructor; discriminate|]. apply NoDup_singleton.
  - split_and!; [reflexivity|reflexivity|]. repeat constructor.
Defined.

(** ** Requests *)

Definition text_view (s : string) : OpenPitStringView := view_from_utf8 s.
Definition set_value {T} (x : T) : Optional T := mkOptional x true.

(** An order as a C caller fills it: account 9 sells 2.5 AAPL at 3 USD, long side,
    reduce-only, with leverage 2. *)
Definition order_in : OpenPitOrder nat := mkWireOrder
  (set_value (mkWireOrderOperation (mkParamTradeAmount (mkParamDecimal 25 0 1) OPENPIT_PARAM_TRADE_AMOUNT_KIND_QUANTITY)
    (mkOpenPitInstrument (text_view "AAPL") (text_view "USD")) (set_value (mkParam (mkParamDecimal 3 0 0))) (set_value 9) OPENPIT_PARAM_SIDE_SELL))
  (set_value (mkWireOrderMargin (text_view "USD") OPENPIT_TRI_BOOL_NOT_SET 20))
  (set_value (mkWireOrderPosition OPENPIT_PARAM_POSITION_SIDE_LONG OPENPIT_TRI_BOOL_TRUE OPENPIT_TRI_BOOL_NOT_SET))
  5%nat.

Definition ok_or_default {E A} (d : A) (r : result E A) : A := match r with Ok x => x | Err _ => d end.

Definition order_read : RequestWithPayload InteropOrder nat :=
  ok_or_default (mkRequestWithPayload (mkInteropOrder OrderOperationAccess_Absent OrderPositionAccess_Absent OrderMarginAccess_Absent) 0%nat)
    (import_order order_in).

Lemma ok_eq {E A} (d : A) (r : result E A) : is_ok r = true -> r = Ok (ok_or_default d r).
Proof. by destruct r. Qed.

Lemma order_in_read : import_order order_in = Ok order_read.
Proof. apply ok_eq. vm_compute. reflexivity. Qed.

Lemma requests_cross_witness :
  import_order order_in = Ok order_read /\ rwp_payload order_read = 5%nat /\ import_order (export_order order_read) = Ok order_read.
Proof. split; [exact order_in_read|]. destruct (requests_cross (Payload := nat)) as [H _]. exact (H _ _ order_in_read). Defined.

(** ** Rejects *)

Definition a_reject : Reject := mkReject "limit" "too large" "risk" 7 RC_OrderExceedsLimit RS_Order.

Definition plain_text (s : string) : bool :=
  forallb is_scalar (bytes_of_string s) && String.eqb s (string_of_ustr (bytes_of_string s)).

Lemma plain_text_ok s : plain_text s = true -> str_ok s.
Proof.
  intros [H1 H2%String.eqb_eq]%andb_true_iff. exists (bytes_of_string s). split; [|exact H2].
  apply Forall_forall. intros c Hc. rewrite forallb_forall in H1. by apply H1, list_elem_of_In.
Qed.

Lemma rejects_cross_witness : to_reject (from_reject a_reject) = Some a_reject.
Proof. destruct rejects_cross as [H _]. apply H; apply plain_text_ok; reflexivity. Defined.

(** ** A policy made of C callbacks *)

(** It counts the user data of orders in the world, an order with more than ten
    after having counted it being rejected; the caller's rollback gives it back. *)
Definition count (n : Z) (st : EngineState Z) : EngineState Z := with_world st (es_world st + n).

Definition counting (n : nat) : CMutation (W:=Z) :=
  mkCMutation (fun st => (true, None, st)) (fun st => (true, None, count (- Z.of_nat n) st)) None.

Definition counter_perform : PerformPreTradeCheckFn (W:=Z) (Payload:=nat) := fun _ order ms out s =>
  let n := wo_user_data order in
  (if (10 <? n)%nat then RL_Owned [a_reject] else RL_Accepted,
   mutations_push ms (imported (counting n)), out, (s.1, count (Z.of_nat n) s.2)).

Definition counter : CustomPreTradePolicy (W:=Z) (Payload:=nat) := {|
  cp_name := "counter"; cp_policy_group_id := DEFAULT_POLICY_GROUP_ID;
  check_pre_trade_start_fn := None; perform_pre_trade_check_fn := Some counter_perform;
  check_pre_trade_start_dry_run_fn := None; perform_pre_trade_check_dry_run_fn := None;
  apply_execution_report_fn := None; apply_account_adjustment_fn := None; retire_account_fn := None;
  free_user_data_fn := id
|}.

Lemma counting_takes_back n w : takes_back (counting n) (w + Z.of_nat n) w.
Proof. intros st Hw. cbn. split_and!; [done|lia|done]. Qed.

#[export] Instance counter_contract : CallbackContract counter.
Proof.
  split; cbn; try (intros; discriminate).
  intros f ctx order ms out s rejects ms' out' s' [= <-] [= _ <- _ <-] Hd. split_and!; [done..|].
  exists (mkPlaces false false), [counting (wo_user_data order)]. split; [by rewrite push_calls_spec|].
  eapply take_back_cons; [apply counting_takes_back|constructor].
Qed.

(** The engine a C caller builds with it. *)
Definition places : Places := mkPlaces false false.
Definition counter_engine : OpenPitEngine (W:=Z) (Payload:=nat) :=
  bc_engine (openpit_engine_builder_build false places
    (openpit_engine_builder_add_pre_trade_policy places
       (openpit_engine_builder_add_builtin_order_validation_policy places (openpit_create_engine_builder places 1).1 0).2
       (Some (unified_policy counter))).2).

Lemma counter_accountable : Forall accountable (policies_of counter_engine).
Proof.
  apply Forall_cons. split; [left; apply (dc_transactional (p:=order_validation_policy _))|].
  apply Forall_singleton. right. exists counter. split; [apply _|done].
Qed.

Definition idle_state : EngineState Z := mkEngineState 3 accounts_state_new 1 None.
Definition all_places : PretradePlaces := mkPretradePlaces false false false.
Definition counted := openpit_engine_execute_pre_trade all_places counter_engine 0 (Some order_in) idle_state.

Lemma start_leaves order st : es_world (start_pre_trade (policies_of counter_engine) 0 order st).2 = es_world st.
Proof.
  change (policies_of counter_engine) with
    [order_validation_policy (order_validation_with_policy_group_id order_validation_new (mkPolicyGroupId 0));
     DynPreTradePolicy (unified_policy counter)].
  unfold start_pre_trade. destruct (check _ _ _ _); [done|]. cbn. unfold with_start_pre_trade_now. rewrite run_start_spec.
  cbn [ask_start with_accounts_ctx fst snd]. cbn. repeat case_match; simplify_eq; done.
Qed.

Lemma execute_pre_trade_call_spec_witness :
  pc_status counted.1 = Pretrade_Passed /\ es_world counted.2 = 8 /\
  exists reservation, pc_out counted.1 = Some reservation /\
    es_world (openpit_destroy_pretrade_pre_trade_reservation (Some reservation) counted.2) = 3.
Proof.
  assert (Hs : pc_status counted.1 = Pretrade_Passed) by (vm_compute; reflexivity).
  split; [exact Hs|]. split; [vm_compute; reflexivity|].
  pose proof (execute_pre_trade_call_spec all_places counter_engine 0 (Some order_in) idle_state counted.1 counted.2
                counter_accountable (surjective_pairing counted)) as H.
  rewrite Hs in H. destruct H as (_ & _ & Ho & _ & st1 & (order' & _ & ->) & H).
  destruct (pc_out counted.1) as [r|]; [|discriminate]. exists r. split; [reflexivity|].
  destruct H as [_ H]. destruct (H counted.2 eq_refl) as [Hw _]. rewrite Hw. apply start_leaves.
Defined.

(** A handle on two callbacks, the second of which fails to commit. *)
Definition failing_mutation : CMutation (W:=Z) :=
  mkCMutation (fun st => (false, None, st)) (fun st => (false, Some "no way back", st)) None.
Definition two_callbacks : ReservationHandle (W:=Z) :=
  mkReservationHandle (mkMutations [imported (counting 2); imported failing_mutation] 1) (Some (mkAccountId 9)).
Definition two_reservation : PreTradeReservation := mkReservation [] lock_new (Some two_callbacks).
Definition two_operation : DropCopyOperation := mkDropCopyOperation None lock_new [] (Some two_callbacks) false.

Lemma handles_finalize_once_witness :
  exists r st', use_reservation_handle (Some (reservation_handle_new two_reservation)) [CallCommit; CallRollback; CallCommit]
                  idle_state = Some (r, st') /\
    es_world (openpit_destroy_pretrade_pre_trade_reservation r st') = 3.
Proof.
  destruct (handles_finalize_once two_reservation two_operation two_callbacks [CallCommit; CallRollback; CallCommit]
              idle_state eq_refl eq_refl) as [(r & st' & H & Hd & _) _].
  exists r, st'. split; [exact H|]. rewrite Hd. reflexivity.
Defined.

Lemma failed_callback_blocks_everyone_witness :
  (exists r st', openpit_pretrade_pre_trade_reservation_commit (Some (reservation_handle_new two_reservation)) idle_state
                 = Some (r, st') /\ is_blocked (es_blocked st') ∅ (mkAccountId 1) = true) /\
  is_blocked (es_blocked (openpit_destroy_pretrade_pre_trade_reservation (Some (reservation_handle_new two_reservation))
    idle_state)) ∅ (mkAccountId 1) = true.
Proof.
  destruct (failed_callback_blocks_everyone two_reservation two_callbacks [imported (counting 2)] failing_mutation []
              idle_state ∅ (mkAccountId 1) eq_refl eq_refl) as [Hc Hr].
  split; [apply Hc; reflexivity|]. apply (Hr eq_refl).
Defined.

(** ** A service with one quote *)

(** Published to the group five. *)
Definition an_instrument : Instrument :=
  match import_instrument (mkOpenPitInstrument (text_view "AAPL") (text_view "USD")) with
  | Ok (Some i) => i
  | _ => mkInstrument (mkAsset []) (mkAsset [])
  end.
Definition a_quote : Quote := with_mark quote_new a_price.
Definition listed_service : MarketDataService :=
  (register_with_id_inner (MarketData.build QuoteInfinite) an_instrument (mkInstrumentId 7) None).2.
Definition quoted_service : MarketDataService := with_slot listed_service 0 (store_targets 100 a_quote 0 [] [mkAccountGroupId 5]).

Lemma quoted_service_wf : service_wf (mkShared quoted_service 0).
Proof.
  eapply shared_step_wf; [eapply shared_step_wf; [apply (build_wf QuoteInfinite)|]|].
  - apply (ss_register_with_id (MarketData.build QuoteInfinite) 0 an_instrument (mkInstrumentId 7) None); [done|split; by vm_compute].
  - apply ss_slot.
Qed.

(** The caller's resolver: it fails, or it finds the group five. *)
Definition failing_resolver : CallbackAccountInfo := fun _ => (2, 0).
Definition finding_resolver : CallbackAccountInfo := fun _ => (1, 5).
Definition read_quote (resolve : CallbackAccountInfo) : option GetCall :=
  openpit_marketdata_service_get false [quoted_service] (Some (mkServiceHandle 0 RuntimeFull)) 101 7 9 (Some resolve) 1.

Lemma asks_once resolve : resolve = failing_resolver \/ resolve = finding_resolver ->
  exists call, read_quote resolve = Some call /\ gc_asked call = 1%nat.
Proof.
  intros H. assert (Hr : gc_asked <$> read_quote resolve = Some 1%nat) by (destruct H as [->| ->]; vm_compute; reflexivity).
  destruct (read_quote resolve) as [call|]; [|discriminate]. exists call. by injection Hr.
Qed.

Lemma found_in_table :
  t_get (table quoted_service) 101 (mkInstrumentId 7) (mkAccountId 9) (Some (mkAccountGroupId 5)) AccountThenGroup = Ok a_quote.
Proof.
  unfold t_get.
  assert (Es : t_states (table quoted_service) !! mkInstrumentId 7 =
    Some (mkSlotState (mkSlotQuotes ∅ {[mkAccountGroupId 5 := mkQuoteState a_quote 100 0]}) (slot_ttls_new None))) by reflexivity.
  rewrite Es. cbn [slot_quotes slot_ttls].
  assert (Ef : first_set (candidates (mkSlotQuotes ∅ {[mkAccountGroupId 5 := mkQuoteState a_quote 100 0]}) (mkAccountId 9)
    (Some (mkAccountGroupId 5)) AccountThenGroup) = Some (mkQuoteState a_quote 100 0)) by reflexivity.
  rewrite Ef.
  assert (Et : t_ttl (table quoted_service) (slot_ttls_new None) (mkAccountId 9) (Some (mkAccountGroupId 5)) = None) by reflexivity.
  rewrite Et. reflexivity.
Qed.

Lemma get_call_spec_witness :
  read_quote failing_resolver = Some (mkGetCall Get_AccountGroupResolutionFailed None 1) /\
  read_quote finding_resolver = Some (mkGetCall Get_Found (Some (from_quote a_quote)) 1).
Proof.
  split.
  - destruct (asks_once failing_resolver) as (call & E & Ha); [by left|]. rewrite E. f_equal.
    destruct (get_call_spec [quoted_service] (mkServiceHandle 0 RuntimeFull) quoted_service 101 7 9 failing_resolver 1
                AccountThenGroup call eq_refl quoted_service_wf eq_refl E) as [_ ->]. rewrite Ha.
    assert (Hb : is_answer (failing_resolver 0%nat).1 = false) by (vm_compute; reflexivity). rewrite Hb. reflexivity.
  - destruct (asks_once finding_resolver) as (call & E & Ha); [by right|]. rewrite E. f_equal.
    destruct (get_call_spec [quoted_service] (mkServiceHandle 0 RuntimeFull) quoted_service 101 7 9 finding_resolver 1
                AccountThenGroup call eq_refl quoted_service_wf eq_refl E) as [_ ->]. rewrite Ha.
    assert (Hb : is_answer (finding_resolver 0%nat).1 = true) by (vm_compute; reflexivity). rewrite Hb.
    assert (Hg : callback_group finding_resolver 0%nat = Some (mkAccountGroupId 5)) by reflexivity. rewrite Hg.
    cbn [Nat.eqb negb andb]. rewrite found_in_table. reflexivity.
Defined.

(** ** The locks of a service *)

(** A world of the spot funds policy, the services and the clock. *)
Definition PricedWorld : Type := SpotFundsState * Services * Z.

Ltac splits_world := intros; repeat match goal with w : PricedWorld |- _ => destruct w as [[? ?] ?] end; reflexivity.

#[local] Instance priced_funds : Owns PricedWorld SpotFundsState.
Proof. refine {| own_get (w : PricedWorld) := w.1.1; own_set x (w : PricedWorld) := (x, w.1.2, w.2) |}; splits_world. Defined.
#[local] Instance priced_services : Owns PricedWorld Services.
Proof. refine {| own_get (w : PricedWorld) := w.1.2; own_set x (w : PricedWorld) := (w.1.1, x, w.2) |}; splits_world. Defined.
#[local] Instance priced_clock : Owns PricedWorld Z.
Proof. refine {| own_get (w : PricedWorld) := w.2; own_set x (w : PricedWorld) := (w.1, x) |}; splits_world. Defined.
#[local] Instance priced_waits : LeaseWaits PricedWorld := fun _ _ st => st.
#[local] Instance scaled_format : DecimalFormat := fun _ => "".
#[local] Instance scaled_debug : DecimalDebug := fun _ => "".

Definition locked_handle : OpenPitMarketDataService := mkServiceHandle 0 RuntimeFull.
Definition threaded_builder : OpenPitEngineBuilder (W:=PricedWorld) (Payload:=nat) :=
  mkEngineBuilder (Some (Builder_Synced builder_new)) RuntimeFull.
Definition priced_world : PricedWorld :=
  (spot_funds_new (mkSpotFundsSettings ∅ ∅ ∅ ∅ ∅ ∅ barrier_set_default barrier_set_default barrier_set_default
     barrier_set_default barrier_set_default (with_slippage_new 0) Mark TrackOnly), [MarketData.build QuoteInfinite], 0).

Lemma spot_funds_service_is_locked_witness :
  runtime_locks (md_mode locked_handle) Values = true /\
  (openpit_engine_builder_add_builtin_spot_funds_policy places 3 (Some threaded_builder) (Some locked_handle) (Some 20) 1
     (mkArray None 0) 0 priced_world).1.1.1 = true.
Proof.
  assert (Hr : (openpit_engine_builder_add_builtin_spot_funds_policy places 3 (Some threaded_builder) (Some locked_handle)
                  (Some 20) 1 (mkArray None 0) 0 priced_world).1.1.1 = true) by (vm_compute; reflexivity).
  split; [|exact Hr].
  destruct (spot_funds_service_is_locked places 3 threaded_builder locked_handle priced_world 1
              openpit_create_marketdata_quote_ttl_infinite [] [MarketData.build QuoteInfinite] Values) as [_ H].
  - reflexivity.
  - discriminate.
  - left. exists (Some 20), 1, (mkArray None 0), 0. exact Hr.
  - exact H.
Defined.

(** ** A small interpreter *)

(** A callable returns what it holds or raises; an instance is a table. *)
Inductive Obj : Type :=
| ONone
| OText (s : string)
| OList (l : list Obj)
| OTable (fields : list (string * Obj))
| OReturns (o : Obj)
| ORaises (message : string)
| OAccount
| OOrder.

#[local] Instance demo_model : PyModel := {|
  PyObj := Obj;
  PyErr := option PyExceptionType * string;
  new_err kind message := (Some kind, message);
  is_type_error e := match e.1 with Some PyTypeError => true | _ => false end;
  is_none o := match o with ONone => true | _ => false end;
  is_ellipsis _ := false;
  str_debug := string_of_ustr;
  f64_display _ := []
|}.

Definition boom (message : string) : PyErr := (None, message).

Definition field_of (o : Obj) (name : string) : option Obj :=
  match o with
  | OTable fields => snd <$> List.find (fun f => String.eqb f.1 name) fields
  | _ => None
  end.

Definition run_callable {S} (o : option Obj) : PyM S Obj := fun s =>
  (match o with
   | Some (OReturns x) => Ok x
   | Some (ORaises message) => Err (boom message)
   | _ => Err (boom "not callable")
   end, s).

Fixpoint iterate {S} (l : list Obj) : PyIter S :=
  py_iter (fun s => match l with [] => (Ok None, s) | o :: l => (Ok (Some (o, iterate l)), s) end).

Definition an_order : PyOrder := mkPyOrder
  (Some (mkPyOrderOperation None None (Some (mkAccountId 9)) (Some Buy) None None)) None None.

#[local] Instance demo_runtime S : PyRuntime S := {|
  py_import _ s := (Ok ONone, s);
  getattr o name s := (ok_or (field_of o name) (boom name), s);
  hasattr o name s := (Ok (bool_decide (is_Some (field_of o name))), s);
  py_is_instance _ _ s := (Ok false, s);
  py_get_type _ _ := ONone;
  is_callable _ _ := true;
  call0 o := run_callable (Some o);
  call_method1 o name _ := run_callable (field_of o name);
  dict_set_item _ _ s := (Ok tt, s);
  call_method o name _ := run_callable (field_of o name);
  try_iter o s := (match o with OList l => Ok (iterate l) | _ => Err (boom "not iterable") end, s);
  number_index _ s := (Err (boom "no integer"), s);
  extract_str o s := (match o with OText t => Ok (ustr_of t) | _ => Err (boom "no str") end, s);
  extract_bool _ s := (Err (boom "no bool"), s);
  extract_int _ _ _ s := (Err (boom "no int"), s);
  extract_f64 _ s := (Err (boom "no float"), s);
  payload o _ :=
    match o with OOrder => Some (PyV_Order an_order) | OAccount => Some (PyV_AccountId (mkAccountId 9)) | _ => None end;
  py_new _ s := (Ok ONone, s);
  err_to_string e s := (e.2, s);
  cast_error _ class s := (("not an instance of " +:+ class)%string, s);
  err_setattr _ _ _ s := (Ok tt, s);
  err_restore _ s := s
|}.

Lemma iterate_balanced {S} (R : relation S) `{!PreOrder R} l : iter_balanced R (iterate l).
Proof.
  induction l as [|o l IH]; cbn; constructor; intros s; [reflexivity|discriminate|reflexivity|].
  intros item it [= _ <-]. exact IH.
Qed.

#[local] Instance demo_balanced {S} (R : relation S) `{!PreOrder R} : Balanced R (demo_runtime S).
Proof.
  split; try (intros; reflexivity). intros o s it. cbn. destruct o; try discriminate.
  intros [= <-]. by apply iterate_balanced.
Qed.

(** The world holds the parked exceptions and the services. *)
Definition PyWorld : Type := Frames * Services.
#[local] Instance frames_world : Owns PyWorld Frames.
Proof. refine {| own_get (w : PyWorld) := w.1; own_set x (w : PyWorld) := (x, w.2) |}; by intros; repeat match goal with w : PyWorld |- _ => destruct w end. Defined.
#[local] Instance services_world : Owns PyWorld Services.
Proof. refine {| own_get (w : PyWorld) := w.2; own_set x (w : PyWorld) := (w.1, x) |}; by intros; repeat match goal with w : PyWorld |- _ => destruct w end. Defined.
#[local] Instance demo_types : CellTypeName := fun _ => "cell".

(** A policy that lets every order pass with a mutation whose commit raises, and two
    that raise when asked. *)
Definition decision_with (mutations : list Obj) : Obj := OTable [("rejects", OList []); ("mutations", OList mutations)].
Definition late_raiser : Obj := OTable
  [("check_pre_trade_start", OReturns ONone);
   ("perform_pre_trade_check", OReturns (decision_with [OTable [("commit", ORaises "late"); ("rollback", OReturns ONone)]]))].
Definition early_raiser (message : string) : Obj := OTable [("check_pre_trade_start", ORaises message)].

Definition adapter_of (name : string) (policy : Obj) : PythonPreTradePolicyAdapter := mkAdapter name DEFAULT_POLICY_GROUP_ID policy.
Definition python_engine (adapters : list PythonPreTradePolicyAdapter) :=
  mkEngineInner (custom_policy <$> python_policies (W:=PyWorld) adapters) ∅.

Lemma python_engine_policies adapters : PythonEngine.engine_policies (python_engine adapters) = python_policies adapters.
Proof. unfold PythonEngine.engine_policies, python_engine. cbn. induction adapters; cbn; [done|by f_equal]. Qed.

(** The calls are made inside an operation that has an exception parked already. *)
Definition outer : Frames := [Some (boom "outer")].
Definition nested_state : EngineState PyWorld := mkEngineState (outer, []) accounts_state_new 1 None.
Definition quoted_state : EngineState PyWorld := mkEngineState (outer, [quoted_service]) accounts_state_new 1 None.
Definition nested_session : Session (W:=PyWorld) := mkSession quoted_state [] [] [].
(** The reading of the quote asks for a group and raises. *)
Definition locked_service : PyMarketDataService := mkServiceHandle 0 RuntimeFull.
Definition failing_read : PyServiceCall := Md_Get 101 (mkInstrumentId 7) OAccount ONone AccountThenGroup.
Definition nested_calls : list PyCall :=
  [PyCall_Execute 0 OOrder; PyCall_Commit 0; PyCall_Commit 0; PyCall_Execute 0 OOrder; PyCall_DropCopy 0 OOrder; PyCall_Adjust ONone ONone;
   PyCall_Service locked_service failing_read; PyCall_Service locked_service (Md_ClearAccountTtl OAccount);
   PyCall_Configure "missing" (Cf_PnlBounds None (Some []))].
Definition raised_by {A S} (r : option (result PyErr A * S)) : option (option PyExceptionType * string) :=
  match r with Some (Err e, _) => Some e | _ => None end.
Definition late_engine := python_engine [adapter_of "late" late_raiser].
Definition nested_end : Session := run_calls late_engine id nested_session nested_calls.

Lemma python_calls_keep_parked_exceptions_witness :
  length (ss_reservations nested_end) = 1%nat /\
  is_blocked (es_blocked (ss_state nested_end)) ∅ (mkAccountId 1) = true /\
  raised_by (py_md_get locked_service 101 (mkInstrumentId 7) OAccount ONone AccountThenGroup quoted_state) =
    Some (None, "account_group") /\
  frames_of (ss_state nested_end) = outer.
Proof.
  split; [vm_compute; reflexivity|]. split; [vm_compute; reflexivity|]. split; [vm_compute; reflexivity|].
  refine (python_calls_keep_parked_exceptions late_engine id _ _ _ _ nested_session nested_calls _).
  - unfold late_engine. rewrite python_engine_policies. apply Forall_singleton. apply _.
  - intros x w. reflexivity.
  - split; [intros name entry; cbn; by rewrite lookup_empty|]. apply Forall_singleton. reflexivity.
  - reflexivity.
  - split; constructor.
Defined.

Definition raising_adapters : list PythonPreTradePolicyAdapter :=
  [adapter_of "late" late_raiser; adapter_of "one" (early_raiser "one"); adapter_of "two" (early_raiser "two")].

Lemma python_start_raises_first_witness :
  (py_start_pre_trade (python_engine raising_adapters) 0 OOrder nested_state).1 = Err (boom "one").
Proof.
  pose proof (python_start_raises_first raising_adapters (python_engine raising_adapters) 0 OOrder nested_state
    (mkRequestWithPayload (order_fields an_order) OOrder) nested_state (python_engine_policies _) eq_refl eq_refl) as H.
  destruct (ask_python _ _ _ _) as [rs s] eqn:E.
  assert (Hr : rs = [Ok []; Err (boom "one"); Err (boom "two")]) by (change rs with (rs, s).1; rewrite <- E; vm_compute; reflexivity).
  rewrite Hr in H. destruct (py_start_pre_trade _ _ _ _) as [r st']. destruct H as [_ H]. exact H.
Defined.

(** An interpreter whose texts are finite decimals. *)
#[local] Instance decimal_runtime : PyRuntime unit := {|
  py_import := py_import (PyRuntime:=demo_runtime unit);
  getattr _ _ s := (Ok ONone, s);
  hasattr := hasattr (PyRuntime:=demo_runtime unit);
  py_is_instance _ _ s := (Ok true, s);
  py_get_type := py_get_type (PyRuntime:=demo_runtime unit);
  is_callable := is_callable (PyRuntime:=demo_runtime unit);
  call0 := call0 (PyRuntime:=demo_runtime unit);
  call_method1 _ _ arguments s := (Ok (default ONone (head arguments)), s);
  dict_set_item := dict_set_item (PyRuntime:=demo_runtime unit);
  call_method := call_method (PyRuntime:=demo_runtime unit);
  try_iter := try_iter (PyRuntime:=demo_runtime unit);
  number_index := number_index (PyRuntime:=demo_runtime unit);
  extract_str := extract_str (PyRuntime:=demo_runtime unit);
  extract_bool _ s := (Ok true, s);
  extract_int := extract_int (PyRuntime:=demo_runtime unit);
  extract_f64 := extract_f64 (PyRuntime:=demo_runtime unit);
  payload := payload (PyRuntime:=demo_runtime unit);
  py_new := py_new (PyRuntime:=demo_runtime unit);
  err_to_string := err_to_string (PyRuntime:=demo_runtime unit);
  cast_error := cast_error (PyRuntime:=demo_runtime unit);
  err_setattr := err_setattr (PyRuntime:=demo_runtime unit);
  err_restore := err_restore (PyRuntime:=demo_runtime unit)
|}.

(** [Decimal('-1.25E+3')] is read as -1250; [Decimal('1E+29')], beyond the core's range,
    is refused. *)
Lemma decimal_text_exact_witness :
  (exists d, (parse_python_decimal (OText "-1.25E+3") "Price" tt).1 = Ok d /\ dec_mantissa d = -1250 /\ dec_scale d = 0) /\
  exists message, (parse_python_decimal (OText "1E+29") "Price" tt).1 = Err (create_param_error message).
Proof.
  split.
  - pose proof (decimal_text_exact (OText "-1.25E+3") "Price" (ustr_of "-1.25E+3") tt tt true [1; 2; 5] 1 [3] eq_refl eq_refl) as H.
    specialize (H ltac:(repeat constructor; lia) ltac:(discriminate) ltac:(cbn; lia) ltac:(lia) ltac:(repeat constructor; lia)
      ltac:(discriminate) eq_refl).
    assert (Hf : core_fits (spell 0 [1; 2; 5]) 1 = true) by reflexivity. cbv zeta in H. rewrite Hf in H.
    destruct H as (d & -> & Em & Es & _). exists d. split; [reflexivity|]. split; [rewrite Em; reflexivity|rewrite Es; reflexivity].
  - pose proof (decimal_text_exact (OText "1E+29") "Price" (ustr_of "1E+29") tt tt false [1] 29 [2; 9] eq_refl eq_refl) as H.
    specialize (H ltac:(repeat constructor; lia) ltac:(discriminate) ltac:(cbn; lia) ltac:(lia) ltac:(repeat constructor; lia)
      ltac:(discriminate) eq_refl).
    assert (Hf : core_fits (spell 0 [1]) 29 = false) by reflexivity. cbv zeta in H. rewrite Hf in H.
    destruct H as (message & ->). exists message. reflexivity.
Defined.

(** Two commits, both of which raise. *)
Lemma python_finalizer_spec_witness :
  let '(r, h, st') :=
    run_finalizer true
      (python_reservation [] lock_new [(ORaises "late", OReturns ONone); (ORaises "later", OReturns ONone)] 1 None) nested_state in
  r = Err (boom "late") /\ frames_of st' = outer /\ is_blocked (es_blocked st') (es_groups st') (mkAccountId 1) = true /\
  run_finalizer false h st' = (Err reservation_finalized, h, st').
Proof.
  pose proof (python_finalizer_spec [] lock_new [(ORaises "late", OReturns ONone); (ORaises "later", OReturns ONone)] 1 None
    true nested_state) as H.
  destruct (call_all _ _) as [rs st1] eqn:E.
  assert (Hr : rs = [Err (boom "late"); Err (boom "later")]) by (change rs with (rs, st1).1; rewrite <- E; vm_compute; reflexivity).
  rewrite Hr in H. destruct (run_finalizer _ _ _) as [[r h] st']. destruct H as (H1 & H2 & H3 & H4 & _).
  split; [exact H1|]. split; [exact H2|]. split; [apply H3|apply H4].
Defined.
